(* ===== verification/_CoqProject ===== *)
-Q . S2P
Prelude.v
Framing.v
Utils.v
SmallVector.v
Stream.v
Rect.v
Network.v
Input.v
Keycodes.v
IpConfig.v
Rpc.v
Launch.v
AppDb.v
Wm.v
Composer.v
Renderer.v
RenderControl.v
Qemud.v
Sdl.v
Adb.v
Gsm.v
Pipe.v
VehicleStore.v
VehicleSubs.v
VehicleQueue.v
VehicleManager.v
VisClient.v
VisHal.v
EvsDriver.v
EvsManager.v
EvsPixels.v
EvsDisplay.v
EvsApp.v
EvsSystem.v
DrmDevice.v
HwcCompositor.v
Hwc.v
Kernel.v
Ashmem.v
Trees.v
BinderAlloc.v
BinderRefs.v
BinderRefsInv.v
BinderRefsTab.v
BinderRefsDeath.v
BinderRefsSys.v
BinderRefsEnd.v
