(* ===== verification/Prelude.v ===== *)
(** * Verification of the Anbox host daemon, of car and display services of its guest and of its kernel modules

    The daemon runs on the host beside an Android container and connects the two
    sides.  The container's processes reach it through Unix sockets: a pipe
    socket multiplexes the emulated hardware services (qemud, camera, GSM modem,
    adb, OpenGL ES streams), and an RPC socket carries protobuf messages in both
    directions: window states and application lists from Android to the host,
    launch, focus and resize requests the other way.  The host side shows each
    Android task as a native SDL window, composes the layers SurfaceFlinger
    submits into those windows, and feeds keyboard, pointer and touch events back
    through virtual input devices.  Inside the container the vehicle HAL
    (src/android/hardware/xbox/vehicle) serves the car's properties to Android: a
    manager behind the HIDL interface checks requests, keeps the clients'
    subscriptions and delivers batches of events, and an implementation below it
    mirrors a Vehicle Information Service reached through a web socket.  The exterior
    view system (src/android/hardware/xbox/evs) gives applications the car's cameras: a
    driver captures pictures into a pool of graphics buffers and owns the display's
    window, a manager shares each camera between clients, and the application shows the
    view that suits the state of the car.  The hardware composer (src/android/hardware/xbox/hwcomposer)
    shows SurfaceFlinger's layers on the planes of a DRM device: it reads the device's
    objects and gives each display a pipe, decides which layers get a plane, and commits
    frames and modes to the kernel.  The kernel modules (src/modules/anbox) give the
    container Android's shared memory, whose unpinned pages the kernel may take back, and
    the binder driver, which copies messages between processes through buffers it
    allocates in the receiver.

    ** Modelling conventions

    An object with fields is a [Record]; a method is a function in the monad
    [M S A] over the object's state, whose outcomes are a normal return, a C++
    exception (with the state the throw leaves behind) and undefined behaviour
    ([Ub]: an access out of bounds, an unterminated C string, an erased range past
    the end; in the kernel also [BUG_ON] and the use of an object that was freed).  Fixed-width integers are [Z] with their wrap-around written out
    ([i32], [u32], [u16], ...; signed overflow is modelled as two's-complement
    wrapping, which is what the supported compilers produce at the places that can
    overflow); sizes of containers are [nat], and [size_t] arithmetic that can
    underflow is [Z] modulo 2^64.  Bytes are [Z] between 0 and 255, [std::map] is
    [gmap] (visited in key order where the code iterates), shared objects live in
    an explicit heap.  Code outside src/ is an argument: what sockets and [recvmsg]
    deliver, SDL's answers, protobuf's wire format ([Rpc.ProtobufWire], a class
    with its documented round trip as laws), the renderer's native windows
    ([Wm.NativeWindows]), the constants of the HIDL interface
    ([VehicleStore.HidlTypes]), the numbers of JSON ([VisClient.JsonScalar]), libdrm and
    the kernel ([HwcCompositor.DrmKernel], with the life of mode blobs as laws in
    [KernelBlobs]), gralloc and file descriptors ([Hwc.HwcEnv]), and for the kernel modules
    the kernel's red-black trees ([Trees.RbTree], laws about the order of the elements) and
    the answers of its allocators.  A process's calls on
    another modelled one go through a class that the other implements
    ([EvsManager.HwCamera], [EvsApp.CameraService], [VehicleManager.VehicleHal]).
    Floating-point rates and colours are [SpecFloat]'s binary32.  Concurrency is interleaving: a step is the code between
    taking a lock and releasing it or waiting.

    ** Files and what they model (paths under src/src/anbox)

    - [Prelude]: the monad, exceptions, fixed-width arithmetic, byte codecs, loops,
      hints and tactics.
    - [Framing]: the interface of a message format on a byte stream (class
      [FrameFormat]) and the fact that cutting frames off a buffer does not depend
      on how the stream was split into reads; instances in [Rpc], [Qemud], [Gsm].
    - [Utils]: utils.cpp and the [printf]/[scanf] conversions the protocols use.
    - [SmallVector]: common/small_vector.h.
    - [Stream]: graphics/buffer_queue.cpp, common/message_channel.cpp,
      graphics/buffered_io_stream.cpp, graphics/emugl/ReadBuffer.cpp.
    - [Rect]: graphics/rect.cpp.
    - [Network]: network/ (senders, [Connections], [SocketConnection]'s read loop,
      acceptors, stale sockets, descriptor passing) and rpc/connection_creator.cpp.
    - [Input], [Keycodes], [Sdl]: input/device.cpp and input/manager.cpp;
      platform/sdl/keycode_converter.cpp; the input side of
      platform/sdl/platform.cpp and the hit test of platform/sdl/window.cpp.
    - [IpConfig]: common/binary_writer.cpp, android/ip_config_builder.cpp and the
      configuration container/lxc_container.cpp writes.
    - [Rpc]: rpc/ (pending calls, channel, message processor, invoke template).
    - [Launch]: bridge/android_api_stub.cpp with its wait handles, wm/stack.cpp,
      android/intent.cpp, application/manager.h.
    - [AppDb]: application/ and the handlers of bridge/platform_api_skeleton.cpp
      that feed it.
    - [Wm]: wm/ and the window part of platform/sdl/platform.cpp: windows as heap
      objects, the multi- and single-window managers behind the class [Manager].
    - [Composer]: graphics/layer_composer.cpp and both composer strategies, written
      against [Wm.Manager].
    - [Renderer], [RenderControl]: graphics/emugl: handles, reference counts and
      window surfaces under interleaved guest threads, and the guest's queries
      (extensions, EGL configurations) and frames; EGL and GL are arguments.
    - [Qemud], [Gsm], [Adb], [Pipe]: qemu/: the command framing and its services,
      the AT parser and modem, the adb proxy as a step relation over all instances
      and the mutex they share, and the identification of pipe clients.

    Under src/android/hardware/xbox/vehicle/common:

    - [VehicleStore]: VehicleUtils.cpp, VehiclePropertyStore.cpp (the sorted store of
      property values) and VehicleObjectPool.cpp (recycled values).
    - [VehicleSubs]: SubscriptionManager.cpp, with the abstract view of who has asked
      for what ([subs]) and the simulation [sim].
    - [VehicleQueue]: ConcurrentQueue.h, the queue and the thread that empties it.
    - [VehicleManager]: VehicleHalManager.cpp over any HAL (class [VehicleHal], from
      VehicleHal.h) and VehiclePropConfigIndex.h.
    - [VisClient]: VisClient.cpp: requests and promises, connections, messages.
    - [VisHal]: VisVehicleHal.cpp, an instance of [VehicleHal], and RecurrentTimer.h.

    Under src/android/hardware/xbox/evs:

    - [EvsDriver]: sampleDriver/VideoCapture.cpp (Module [Capture]) and
      sampleDriver/EvsV4lCamera.cpp, the service's calls interleaved with the capture
      thread.
    - [EvsManager]: manager/HalCamera.cpp, VirtualCamera.cpp and Enumerator.cpp over any
      hardware camera (class [HwCamera]), with the driver as an instance.
    - [EvsPixels]: sampleDriver/bufferCopy.cpp and app/FormatConvert.cpp, byte for byte.
    - [EvsDisplay]: sampleDriver/GlWrapper.cpp, EvsGlDisplay.cpp and EvsEnumerator.cpp, the
      cameras and displays being objects in a heap.
    - [EvsApp]: app/StreamHandler.cpp, VideoTex.cpp, RenderBase.cpp, RenderDirectView.cpp,
      EvsStateControl.cpp and evs_app.cpp over any service (class [EvsService]).
    - [EvsSystem]: the application's handler and texture as a client of the camera
      manager, with the hardware and the other clients acting in between.

    Under src/android/hardware/xbox/hwcomposer:

    - [DrmDevice]: drmdevice.cpp and its objects (properties, CRTCs, encoders, planes,
      connectors, modes), and the phase of vsyncworker.cpp.
    - [HwcCompositor]: platform.cpp (the planner), drmdisplaycomposition.cpp and
      drmdisplaycompositor.cpp over any kernel.
    - [Hwc]: drmhwctwo.cpp with the buffers of hwcutils.cpp, and the events of
      drmeventlistener.cpp.

    Under src/modules/anbox:

    - [Kernel]: the error numbers, pages and word arithmetic of the kernel.
    - [Ashmem]: ashmem/ashmem.c: areas, their names and protection, pinning and unpinning
      of page ranges, the list from which the kernel's shrinker purges.
    - [Trees], [BinderAlloc]: the buffers of binder/binder.c: the mapping, allocation and
      freeing of buffers and of the pages under them, and what a dying process leaves.

    ** What the theorems show

    - Communication: an RPC call made on one side is executed on the other and its
      response completes exactly that call ([Rpc.rpc_call_roundtrip]); message
      streams survive any splitting that does not cut a header
      ([rpc_stream_roundtrip], [rpc_undefined_iff_partial_header]); disconnecting
      completes all outstanding calls; the connection table never holds more than
      one RPC client; descriptors sent with a message arrive in order.  The qemud
      loop loses no bytes, and the GSM modem's replies do not depend on how its
      input was split.
    - Streams: the ring-buffer queues refine FIFO queues, and every byte posted to a
      [BufferedIOStream] is read once and in order, whatever the interleaving of
      posting, reading, consuming and stopping ([Stream.stream_in_order]).
    - The adb proxy: at most one instance ever holds the host connection, a waiting
      instance takes over when the active one goes away, and the proxied data
      arrives unchanged.
    - Windows: on every state reachable by updates and events, looking up a task
      finds exactly the window created for it; a state update has the stated effect
      on every window; layers go to the windows of their tasks, in order.
    - The renderer: whatever the guest threads call, in any interleaving, every call
      is defined, handles name one object, no context or window surface outlives the
      threads, and a colour buffer lives exactly as long as its count, whose changes
      are stated call by call ([Renderer.renderer_tables_safe],
      [Renderer.colorbuffer_refcount]); handle generation always terminates.
    - Input: the touch events the daemon emits, read by the Linux multi-touch
      protocol, show exactly the fingers that are down, without bound on the number
      of operations; event records survive the wire; key codes invert the table.
    - Data: the launchers on disk mirror the database; the IP configuration file
      determines its configuration; rectangles read back what was written.
    - The vehicle HAL: whatever calls, events and deaths of clients are interleaved, the
      subscription manager implements the abstract table of requests
      ([VehicleSubs.sm_refines]), and after every operation of the manager the HAL
      below holds exactly the subscriptions and rates its clients need, within the
      limits of the configuration ([VehicleManager.hm_hal_in_sync]); a batch of events
      reaches each subscriber once, complete and in order.  The queue hands out what
      was pushed, in order, and its thread stops.  Stored values always have the
      property, area and shape their record says ([VehicleStore.store_reachable_typed],
      [pool_typed], [VisHal.vis_messages_typed]), a value set is the value read back,
      and a promise of the VIS client is settled at most once, with the response to
      its own request.
    - The cameras: in every interleaving of calls and captured frames the driver's pool
      agrees with its counters and every buffer is freed once
      ([EvsDriver.v4l_buffers_consistent]); a frame shared by clients goes back to the
      hardware once, when its last holder returns it ([EvsManager.evs_frames_counted]);
      the hardware has agreed to as many frames as the clients may hold
      ([evs_quota_covered], for hardware with a limit, as the driver is); the enumerator
      keeps the cameras that have clients.  The driver's enumerator hands each camera and
      the display to one owner at a time, and the display's buffer and EGL objects follow
      ([EvsDisplay.evs_driver_exclusive]).  The application's handler is a mailbox for one
      held and one waiting frame ([EvsApp.stream_handler_refines]); whatever comes in
      between, it and the manager agree on the frames in flight
      ([EvsSystem.evs_app_manager_agree]); the application never has two cameras open
      ([evs_app_one_camera]).  The pixel copies write every pixel of the target and nothing
      else, and what the colour arithmetic yields is stated exactly ([EvsPixels]).
    - The screen: a DRM device's displays are numbered without gaps and each drives a CRTC
      of its own ([DrmDevice.drm_display_pipes]); mode ids stay stable
      ([drm_modes_stable]).  Validation gives planes to the topmost layers, never more than
      there are ([Hwc.hwc_validate_fits]), and the stack that results has the layers' order
      when all ask for planes ([hwc_stack_order]).  A validated frame that is shown has
      each element of that stack on a plane of its own, every other plane off, in one commit
      the kernel accepted ([hwc_frame_shown]).  Framebuffers are released once or on the
      screen, whatever is called ([hwc_buffers_balanced]), and mode blobs neither leak nor
      go away while in use ([HwcCompositor.hwc_mode_blobs]).
    - The kernel modules: whatever processes call and whatever the shrinker takes, the
      unpinned ranges of shared memory stay disjoint, accounted and listed once
      ([Ashmem.ashmem_invariant]), pinning tells of every page lost since it was unpinned
      ([ashmem_pin_tells_losses]) and pinned pages stay ([ashmem_pinned_pages_stay]).  A
      process's binder buffers tile its mapping, exactly the pages under buffers in use are
      there, and the asynchronous budget adds up ([BinderAlloc.binder_buffers_consistent]);
      an allocation gives the best fit ([binder_alloc_gives]), freeing it restores the
      state ([binder_alloc_free_roundtrip]), and a dying process's buffers and pages all go
      back ([binder_release_frees_all]).

    Several theorems state behaviour that is not what the code means to do (for
    instance [qemud_stalls_on_equal_sizes], [stub_launch_bounds_lost],
    [sm_resubscribe_keeps_flags], [vis_reconnect_breaks_request],
    [hm_subscribe_race], [capture_wedged_by_failed_start], [evs_close_keeps_frames],
    [evs_close_race], [evs_unconfigured_state], [draw_leaks_image], [yv12_overrun],
    [hwc_dpms_wedge], [hwc_fences_taken], [hwc_no_retire_fence], [pin_without_memory_forgets],
    [unpin_nothing_is_seen], [seek_far_fails]); their comments say so.

    ** Fuel

    Loops that are not structural take fuel, and the entry points supply enough for
    every input: [Framing.decode] gets the buffer's length and the qemud, camera
    and rpc loops one more (each iteration consumes a byte or stops);
    [Stream.read_loop] gets [2 * count + 3], each iteration either delivering bytes
    or taking a buffer from the queue; [Renderer.genHandle] gets two more than the handles in use,
    which suffices whenever a handle is free ([Renderer.genHandle_terminates]);
    decimal conversions get 20 digits, enough for 64 bits; [Ashmem]'s loop over unpinned
    ranges gets the length of their list, and [BinderAlloc.release_buffers] the number of
    buffers in use.  The theorems are about the entry points, so that running out of fuel
    is excluded by proof ([decode_fuel_enough], [process_commands_spec], ...).

    ** Not modelled

    EGL and OpenGL ES themselves (shaders, textures, set-up of the display), liblxc
    and the kernel devices (container/, most of common/), D-Bus, audio, the command
    line and process start-up, the generated protobuf code; in the kernel modules the
    registration of the devices, and of the binder driver the threads, transactions and
    references to objects; the rest of the Android side under android/ (in the camera services the reading of the
    application's configuration and of PNG files, and the end of a stream handler that the
    service still refers to; in the hardware composer the flattening of still
    scenes, the importers and the threads) and the vendored code under thirdparty/.

    ** Plan

    Next: the dispatch of bridge/platform_message_processor.cpp and of the
    container's management API with its service; descriptor and mount ownership (common/fd.cpp, mount_entry.cpp, loop
    and binder devices); the raw send loop of network/base_socket_messenger.cpp; the
    SDL platform's display set-up; the audio server. *)

From stdpp Require Export base gmap strings list fin_maps sorting numbers.
From Stdlib Require Export ZArith Lia.
From Stdlib Require Import Ascii.

#[export] Set Default Goal Selector "!".
#[global] Open Scope Z_scope.

(** ** Automation databases *)

Create HintDb anbox discriminated.
Create HintDb bytes discriminated.
Create Rewrite HintDb bytes.

(** ** Effects

    C++ code that mutates an object, throws, or reads out of bounds becomes a
    function of type [M S A]: the object's fields are a record [S]; [Val] is a
    normal return, [Exc] an exception in flight (with the state the throw left
    behind, because C++ does not roll it back) and [Ub] undefined behaviour. *)

Inductive exn : Type :=
  | out_of_range
  | runtime_error (what : string)
  | logic_error (what : string)
  | system_error (code : Z)
  | bad_optional.

#[global] Instance exn_eq_dec : EqDecision exn.
Proof. solve_decision. Defined.

Inductive outcome (S A : Type) : Type :=
  | Val (s : S) (a : A)
  | Exc (s : S) (e : exn)
  | Ub.
Arguments Val {_ _} _ _.
Arguments Exc {_ _} _ _.
Arguments Ub {_ _}.

Definition M (S A : Type) : Type := S → outcome S A.

#[global] Instance M_ret (S : Type) : MRet (M S) := λ A a s, Val s a.
#[global] Instance M_bind (S : Type) : MBind (M S) := λ A B k m s,
  match m s with
  | Val s' a => k a s'
  | Exc s' e => Exc s' e
  | Ub => Ub
  end.

Section effects.
Context {S : Type}.

Definition get : M S S := λ s, Val s s.
Definition put (s : S) : M S unit := λ _, Val s tt.
Definition modify (f : S → S) : M S unit := λ s, Val (f s) tt.
Definition throw {A} (e : exn) : M S A := λ s, Exc s e.
Definition undefined {A} : M S A := λ _, Ub.

(** [try { m } catch (e) { h e }]. *)
Definition try_catch {A} (m : M S A) (h : exn → M S A) : M S A := λ s,
  match m s with
  | Exc s' e => h e s'
  | r => r
  end.

(** A range-based [for] over a vector. *)
Fixpoint for_each {X} (l : list X) (f : X → M S unit) : M S unit :=
  match l with
  | [] => mret tt
  | x :: l' => f x ≫= λ _, for_each l' f
  end.

(** Run an operation of a member object inside its owner. *)
Definition zoom {T A} (view : S → T) (set : T → S → S) (m : M T A) : M S A := λ s,
  match m (view s) with
  | Val t a => Val (set t s) a
  | Exc t e => Exc (set t s) e
  | Ub => Ub
  end.

Lemma for_each_app {X} (l1 l2 : list X) (f : X → M S unit) s :
  for_each (l1 ++ l2) f s = (for_each l1 f ≫= λ _, for_each l2 f) s.
Proof.
  revert s; induction l1 as [|x l1 IH]; intros s; [done|].
  cbn. unfold mbind, M_bind in *. destruct (f x s); [|done..]. apply IH.
Qed.

Lemma bind_val {A B} (m : M S A) (k : A → M S B) s s' a :
  m s = Val s' a → (m ≫= k) s = k a s'.
Proof. unfold mbind, M_bind. by intros ->. Qed.
(** A bind that returns: both parts return. *)
Lemma bind_inv {A B} (m : M S A) (k : A → M S B) s s' b :
  (m ≫= k) s = Val s' b → ∃ s1 a, m s = Val s1 a ∧ k a s1 = Val s' b.
Proof. unfold mbind, M_bind. destruct (m s) as [s1 a| |]; [|done..]. eauto. Qed.
End effects.

(** Unfold the monad's plumbing and compute. *)
Ltac run_m :=
  lazy beta iota zeta delta
    [mbind mret M_bind M_ret get put modify throw undefined try_catch zoom].
Ltac run_m_in H :=
  lazy beta iota zeta delta
    [mbind mret M_bind M_ret get put modify throw undefined try_catch zoom] in H.

(** Case analysis on the innermost [match]/[if] discriminee of the goal. *)
Ltac split_match :=
  match goal with
  | |- context [match ?x with _ => _ end] =>
      lazymatch x with
      | context [match _ with _ => _ end] => fail
      | _ => destruct x eqn:?
      end
  end.

(** ** Machine integers *)

Definition wrap (w z : Z) : Z := z mod 2 ^ w.
Definition swrap (w z : Z) : Z := (z + 2 ^ (w - 1)) mod 2 ^ w - 2 ^ (w - 1).
Definition u8 : Z → Z := wrap 8.
Definition u16 : Z → Z := wrap 16.
Definition u32 : Z → Z := wrap 32.
Definition u64 : Z → Z := wrap 64.
Definition i32 : Z → Z := swrap 32.
Definition is_u8 (z : Z) : Prop := 0 ≤ z < 256.
Definition is_u16 (z : Z) : Prop := 0 ≤ z < 65536.
Definition is_u32 (z : Z) : Prop := 0 ≤ z < 4294967296.
Definition is_i32 (z : Z) : Prop := -2147483648 ≤ z < 2147483648.

Lemma wrap_small w z : 0 ≤ z < 2 ^ w → wrap w z = z.
Proof. apply Z.mod_small. Qed.
Lemma wrap_range w z : 0 ≤ w → 0 ≤ wrap w z < 2 ^ w.
Proof. intros. apply Z.mod_pos_bound. by apply Z.pow_pos_nonneg. Qed.

Lemma i32_unfold z : i32 z = (z + 2147483648) mod 4294967296 - 2147483648.
Proof. reflexivity. Qed.
Lemma i32_small z : is_i32 z → i32 z = z.
Proof. unfold is_i32. rewrite i32_unfold. intros. rewrite Z.mod_small; lia. Qed.
Lemma i32_range z : is_i32 (i32 z).
Proof.
  unfold is_i32. rewrite i32_unfold.
  pose proof (Z.mod_pos_bound (z + 2147483648) 4294967296 eq_refl). lia.
Qed.
Lemma i32_idemp z : i32 (i32 z) = i32 z.
Proof. apply i32_small, i32_range. Qed.
Lemma u32_range z : is_u32 (u32 z).
Proof. apply (wrap_range 32). lia. Qed.
Lemma u32_small z : is_u32 z → u32 z = z.
Proof. apply (wrap_small 32). Qed.

(** A [uint32] id stored in an [int]-keyed map keeps its identity. *)
Lemma i32_inj_u32 a b : is_u32 a → is_u32 b → i32 a = i32 b → a = b.
Proof. unfold is_u32. rewrite !i32_unfold. intros. Z.div_mod_to_equations. lia. Qed.

(** ** Bytes and strings *)

Abbreviation bytes := (list Z).
Definition wf_bytes (b : bytes) : Prop := Forall is_u8 b.

Definition byte_of_ascii (c : ascii) : Z := Z.of_N (N_of_ascii c).
Definition ascii_of_byte (z : Z) : ascii := ascii_of_N (Z.to_N z).

Fixpoint bytes_of_string (s : string) : bytes :=
  match s with
  | EmptyString => []
  | String c s' => byte_of_ascii c :: bytes_of_string s'
  end.

Fixpoint string_of_bytes (b : bytes) : string :=
  match b with
  | [] => EmptyString
  | z :: b' => String (ascii_of_byte z) (string_of_bytes b')
  end.

Lemma byte_of_ascii_range c : is_u8 (byte_of_ascii c).
Proof. unfold is_u8, byte_of_ascii. pose proof (N_ascii_bounded c). lia. Qed.
Lemma ascii_of_byte_of_ascii c : ascii_of_byte (byte_of_ascii c) = c.
Proof. unfold ascii_of_byte, byte_of_ascii. rewrite N2Z.id. apply ascii_N_embedding. Qed.
Lemma byte_of_ascii_of_byte z : is_u8 z → byte_of_ascii (ascii_of_byte z) = z.
Proof.
  unfold is_u8, ascii_of_byte, byte_of_ascii. intros.
  rewrite N_ascii_embedding by lia. lia.
Qed.

Lemma string_of_bytes_of_string s : string_of_bytes (bytes_of_string s) = s.
Proof. induction s as [|c s IH]; cbn; [done|]. by rewrite ascii_of_byte_of_ascii, IH. Qed.
Lemma bytes_of_string_of_bytes b : wf_bytes b → bytes_of_string (string_of_bytes b) = b.
Proof.
  induction 1 as [|z b Hz _ IH]; cbn; [done|]. by rewrite byte_of_ascii_of_byte, IH.
Qed.
Lemma bytes_of_string_wf s : wf_bytes (bytes_of_string s).
Proof. induction s; constructor; [apply byte_of_ascii_range|done]. Qed.
Lemma length_bytes_of_string s : length (bytes_of_string s) = String.length s.
Proof. induction s; cbn; congruence. Qed.
Lemma length_string_of_bytes b : String.length (string_of_bytes b) = length b.
Proof. induction b; cbn; congruence. Qed.
Lemma string_app_cons c s t : String c s +:+ t = String c (s +:+ t).
Proof. reflexivity. Qed.
Lemma bytes_of_string_app s t :
  bytes_of_string (s +:+ t) = bytes_of_string s ++ bytes_of_string t.
Proof. induction s as [|c s IH]; [done|]. exact (f_equal (cons _) IH). Qed.
Lemma bytes_of_string_inj s t : bytes_of_string s = bytes_of_string t → s = t.
Proof. intros H. by rewrite <- (string_of_bytes_of_string s), H, string_of_bytes_of_string. Qed.

#[export] Hint Resolve bytes_of_string_wf byte_of_ascii_range : bytes.
#[export] Hint Rewrite string_of_bytes_of_string length_bytes_of_string
  length_string_of_bytes bytes_of_string_app : bytes.

(** [memcmp(a, b, n) == 0] and [std::string::compare] on a prefix. *)
Definition bytes_eqb (a b : bytes) : bool := bool_decide (a = b).

(** ** [std::map<int, V>]: iteration is in ascending key order *)

Definition key_le {V} (p q : Z * V) : Prop := p.1 ≤ q.1.
#[global] Instance key_le_dec {V} (p q : Z * V) : Decision (key_le p q).
Proof. unfold key_le. apply _. Defined.

Definition sorted_entries {V} (m : gmap Z V) : list (Z * V) := merge_sort key_le (map_to_list m).

Lemma elem_of_sorted_entries {V} (m : gmap Z V) k v : (k, v) ∈ sorted_entries m ↔ m !! k = Some v.
Proof. unfold sorted_entries. by rewrite merge_sort_Permutation, elem_of_map_to_list. Qed.

Lemma sorted_entries_sorted {V} (m : gmap Z V) : Sorted key_le (sorted_entries m).
Proof.
  apply Sorted_merge_sort. intros p q. unfold key_le. lia.
Qed.

(** ** Filters that keep everything or nothing *)

Lemma filter_all {A} (P : A → Prop) `{∀ x, Decision (P x)} (l : list A) :
  Forall P l → filter P l = l.
Proof. induction 1 as [|x l Hx _ IH]; [done|]. by rewrite filter_cons_True, IH. Qed.
Lemma filter_none {A} (P : A → Prop) `{∀ x, Decision (P x)} (l : list A) :
  Forall (λ x, ¬ P x) l → filter P l = [].
Proof. induction 1 as [|x l Hx _ IH]; [done|]. by rewrite filter_cons_False, IH. Qed.

(** ** Vectors: [erase(begin, begin + n)], undefined past the end *)

Definition erase_front {A} (n : nat) (l : list A) : option (list A) :=
  if decide (n ≤ length l)%nat then Some (drop n l) else None.

Lemma erase_front_app {A} (l1 l2 : list A) n : n = length l1 → erase_front n (l1 ++ l2) = Some l2.
Proof.
  intros ->. unfold erase_front. rewrite decide_True by (rewrite length_app; lia).
  by rewrite drop_app_length.
Qed.
