(* ===== verification/Framing.v ===== *)
(** * Message framing on byte streams

    Every message processor of the daemon (rpc, qemud, camera, AT commands)
    appends what it reads to a buffer and then cuts complete messages off its
    front.  This file states once what such a cutter promises: a frame format
    recognises a complete message at the front of a buffer, and the messages
    obtained do not depend on how the stream was split into reads.  The
    processors' files give the instances and prove their loops against
    [decode]. *)

From S2P Require Import Prelude.

Class FrameFormat : Type := {
  (** [Some n]: the first [n] bytes of the buffer are a complete message. *)
  frame_len : bytes → option nat;
  frame_len_bound b n : frame_len b = Some n → (0 < n ≤ length b)%nat;
  frame_len_app b x n : frame_len b = Some n → frame_len (b ++ x) = Some n;
}.

Section decode.
Context `{FrameFormat}.

Fixpoint decode_fuel (fuel : nat) (b : bytes) : list bytes * bytes :=
  match fuel with
  | O => ([], b)
  | S fuel' =>
      match frame_len b with
      | None => ([], b)
      | Some n => let '(fs, r) := decode_fuel fuel' (drop n b) in (take n b :: fs, r)
      end
  end.

(** All complete messages of a buffer, and the incomplete tail. *)
Definition decode (b : bytes) : list bytes * bytes := decode_fuel (length b) b.

Definition is_frame (f : bytes) : Prop := frame_len f = Some (length f).

Lemma decode_fuel_enough k b : (length b ≤ k)%nat → decode_fuel k b = decode b.
Proof.
  unfold decode. remember (length b) as m eqn:Hm.
  assert (Hle : (length b ≤ m)%nat) by lia. clear Hm. revert k b Hle.
  induction m as [|m IH]; intros k b Hb Hk.
  - destruct b; [|simpl in *; lia]. destruct k; [done|]. cbn.
    destruct (frame_len []) eqn:E; [|done]. apply frame_len_bound in E. simpl in *. lia.
  - destruct k as [|k]; [simpl in *; lia|]. cbn. destruct (frame_len b) as [n|] eqn:E; [|done].
    apply frame_len_bound in E. rewrite IH; [done|rewrite length_drop; lia|lia].
Qed.

Lemma decode_unfold b :
  decode b = match frame_len b with
             | None => ([], b)
             | Some n => let '(fs, r) := decode (drop n b) in (take n b :: fs, r)
             end.
Proof.
  rewrite <- (decode_fuel_enough (S (length b))) by lia. cbn.
  destruct (frame_len b) as [n|] eqn:E; [|done].
  rewrite decode_fuel_enough; [done|]. rewrite length_drop. lia.
Qed.

(** Induction on the number of messages still in the buffer. *)
Lemma decode_ind (P : bytes → Prop) :
  (∀ b, frame_len b = None → P b) →
  (∀ b n, frame_len b = Some n → P (drop n b) → P b) →
  ∀ b, P b.
Proof.
  intros HN HS b. remember (length b) as k eqn:Hk.
  assert (Hle : (length b ≤ k)%nat) by lia. clear Hk. revert b Hle.
  induction k as [|k IH]; intros b Hb; destruct (frame_len b) as [n|] eqn:E; eauto;
    pose proof (frame_len_bound _ _ E); [lia|].
  eapply HS; [done|]. apply IH. rewrite length_drop. lia.
Qed.

(** Decoding loses no byte and reorders nothing. *)
Lemma decode_concat b : concat (decode b).1 ++ (decode b).2 = b.
Proof.
  induction b as [b E|b n E IH] using decode_ind; rewrite decode_unfold, E; [done|].
  destruct (decode (drop n b)) as [fs r]. cbn in *. rewrite <- app_assoc, IH.
  apply take_drop.
Qed.

Lemma decode_rest b : frame_len (decode b).2 = None.
Proof.
  induction b as [b E|b n E IH] using decode_ind; rewrite decode_unfold, E; [done|].
  by destruct (decode (drop n b)).
Qed.

(** Appending a later read to the buffer only adds messages after those
    already found. *)
Lemma decode_app b x :
  decode (b ++ x) =
    ((decode b).1 ++ (decode ((decode b).2 ++ x)).1, (decode ((decode b).2 ++ x)).2).
Proof.
  induction b as [b E|b n E IH] using decode_ind.
  - rewrite (decode_unfold b), E. exact (surjective_pairing _).
  - pose proof (frame_len_bound _ _ E).
    rewrite (decode_unfold (b ++ x)), (frame_len_app _ _ _ E), (decode_unfold b), E.
    rewrite drop_app_le, take_app_le by lia. rewrite IH.
    by destruct (decode (drop n b)) as [fs r].
Qed.

Lemma decode_frame f r : is_frame f → decode (f ++ r) = (f :: (decode r).1, (decode r).2).
Proof.
  intros Hf. rewrite decode_unfold, (frame_len_app _ _ _ Hf).
  rewrite drop_app_length, take_app_length. by destruct (decode r).
Qed.

Lemma decode_nil : decode [] = ([], []).
Proof.
  rewrite decode_unfold. destruct (frame_len []) eqn:E; [|done].
  apply frame_len_bound in E. simpl in *. lia.
Qed.

Lemma decode_frames fs r :
  Forall is_frame fs → decode (concat fs ++ r) = (fs ++ (decode r).1, (decode r).2).
Proof.
  induction 1 as [|f fs Hf _ IH]; [exact (surjective_pairing _)|].
  cbn [concat]. by rewrite <- app_assoc, decode_frame, IH.
Qed.

Lemma decode_frames_all fs : Forall is_frame fs → decode (concat fs) = (fs, []).
Proof.
  intros Hfs. rewrite <- (app_nil_r (concat fs)), (decode_frames fs [] Hfs), decode_nil. cbn.
  by rewrite app_nil_r.
Qed.

(** The tails left after each of a sequence of reads. *)
Fixpoint tails (r : bytes) (chunks : list bytes) : list bytes :=
  match chunks with
  | [] => []
  | c :: cs => (decode (r ++ c)).2 :: tails (decode (r ++ c)).2 cs
  end.

(** The messages completed by each of a sequence of reads. *)
Fixpoint completed (r : bytes) (chunks : list bytes) : list bytes :=
  match chunks with
  | [] => []
  | c :: cs => (decode (r ++ c)).1 ++ completed (decode (r ++ c)).2 cs
  end.

Lemma completed_concat r chunks :
  frame_len r = None → completed r chunks = (decode (r ++ concat chunks)).1.
Proof.
  revert r. induction chunks as [|c cs IH]; intros r Hr; cbn.
  - by rewrite app_nil_r, decode_unfold, Hr.
  - rewrite (app_assoc r c), (decode_app (r ++ c)), IH by apply decode_rest. done.
Qed.

(** The tail left after all of a sequence of reads. *)
Definition final_tail (r : bytes) (chunks : list bytes) : bytes :=
  foldl (λ r c, (decode (r ++ c)).2) r chunks.

Lemma final_tail_concat r chunks :
  frame_len r = None → final_tail r chunks = (decode (r ++ concat chunks)).2.
Proof.
  unfold final_tail. revert r. induction chunks as [|c cs IH]; intros r Hr; cbn [foldl concat].
  - by rewrite app_nil_r, decode_unfold, Hr.
  - rewrite (app_assoc r c), (decode_app (r ++ c)), IH by apply decode_rest. done.
Qed.
End decode.
