(* ===== verification/Utils.v ===== *)
(** * String utilities (src/src/anbox/utils.cpp) and C formatting

    [utils::string_starts_with], [string_split], [strip_surrounding_quotes],
    [find_program_on_path] and [write_to_fd], plus the standard library's
    [printf]/[scanf] conversions the daemon's protocols rely on. *)

From S2P Require Import Prelude.
From Stdlib Require Import Ascii.

(** ** utils::string_starts_with *)

Definition string_starts_with (text prefix : string) : bool :=
  String.eqb (String.substring 0 (String.length prefix) text) prefix.

Lemma substring_0_app s t : String.substring 0 (String.length s) (s +:+ t) = s.
Proof. induction s as [|c s IH]; [by destruct t|]. cbn. exact (f_equal (String c) IH). Qed.

Lemma substring_0_split n s : ∃ t, s = String.substring 0 n s +:+ t.
Proof.
  revert n. induction s as [|c s IH]; intros [|n]; cbn; try by eexists.
  destruct (IH n) as [t Ht]. exists t. exact (f_equal (String c) Ht).
Qed.

Lemma string_starts_with_spec text prefix :
  string_starts_with text prefix = true ↔ ∃ rest, text = prefix +:+ rest.
Proof.
  unfold string_starts_with. rewrite String.eqb_eq. split.
  - intros H. destruct (substring_0_split (String.length prefix) text) as [t Ht].
    exists t. by rewrite H in Ht.
  - intros [rest ->]. apply substring_0_app.
Qed.

(** ** utils::string_split, boost's [split] with [token_compress_on]

    Adjacent separators are one: an empty token can only be the first or the
    last one. *)

Fixpoint drop_seps (sep : ascii) (s : string) : string :=
  match s with
  | String c s' => if Ascii.eqb c sep then drop_seps sep s' else s
  | EmptyString => EmptyString
  end.

(** Split at single separators; [compress] says that separators are being
    skipped. *)
Fixpoint split_at (sep : ascii) (compress : bool) (s : string) : list string :=
  match s with
  | EmptyString => [EmptyString]
  | String c s' =>
      if Ascii.eqb c sep then
        if compress then split_at sep true s' else EmptyString :: split_at sep true s'
      else
        match split_at sep false s' with
        | t :: ts => String c t :: ts
        | [] => [String c EmptyString]
        end
  end.

Definition string_split (text : string) (sep : ascii) : list string := split_at sep false text.

Fixpoint has_char (sep : ascii) (s : string) : bool :=
  match s with
  | EmptyString => false
  | String c s' => Ascii.eqb c sep || has_char sep s'
  end.

(** Join tokens with the separator. *)
Fixpoint join (sep : ascii) (ts : list string) : string :=
  match ts with
  | [] => EmptyString
  | [t] => t
  | t :: ts' => t +:+ String sep (join sep ts')
  end.

Lemma split_at_no_sep sep compress s :
  has_char sep s = false → split_at sep compress s = [s].
Proof.
  revert compress. induction s as [|c s IH]; intros compress; cbn; [done|].
  intros [Hc Hs]%orb_false_iff. rewrite Hc. by rewrite IH.
Qed.

Lemma split_at_token sep compress t s :
  t ≠ EmptyString → has_char sep t = false →
  split_at sep compress (t +:+ String sep s) = t :: split_at sep true s.
Proof.
  revert compress. induction t as [|c t IH]; intros compress Hne; [done|].
  rewrite string_app_cons. cbn [has_char split_at].
  intros [Hc Ht]%orb_false_iff. rewrite Hc. destruct t as [|c' t].
  - change (EmptyString +:+ String sep s) with (String sep s). cbn [split_at].
    by rewrite Ascii.eqb_refl.
  - by rewrite (IH false).
Qed.

Lemma split_at_join sep compress ts :
  ts ≠ [] → Forall (λ t, t ≠ EmptyString ∧ has_char sep t = false) ts →
  split_at sep compress (join sep ts) = ts.
Proof.
  intros Hne Hall. revert compress Hne.
  induction Hall as [|t ts [Ht Hs] Hall IH]; intros compress Hne; [done|].
  destruct ts as [|t' ts]; cbn [join].
  - by rewrite split_at_no_sep.
  - by rewrite split_at_token, IH.
Qed.

(** ** utils::strip_surrounding_quotes *)

Definition quote : ascii := "034"%char.
Definition comma : ascii := ","%char.

Definition strip_surrounding_quotes (text : string) : string :=
  match String.get 0 text, String.get (String.length text - 1) text with
  | Some a, Some b =>
      if Ascii.eqb a quote && Ascii.eqb b quote
      then String.substring 1 (String.length text - 2) text
      else text
  | _, _ => text
  end.

(** ** utils::find_program_on_path

    [executable] stands for [stat] succeeding with [S_IXOTH] set. *)

Fixpoint find_colon (s : string) : option (string * string) :=
  match s with
  | EmptyString => None
  | String c s' =>
      if Ascii.eqb c ":"%char then Some (EmptyString, s')
      else match find_colon s' with
           | Some (a, b) => Some (String c a, b)
           | None => None
           end
  end.

Section find_program.
Variable executable : string → bool.

Fixpoint find_program_loop (fuel : nat) (path name : string) : string :=
  match fuel with
  | O => EmptyString
  | S fuel' =>
      match find_colon path with
      | Some (dir, rest) =>
          let current_path := dir +:+ "/" +:+ name in
          if executable current_path then current_path else find_program_loop fuel' rest name
      | None => EmptyString
      end
  end.

Definition find_program_on_path (path name : string) : string :=
  find_program_loop (S (String.length path)) path name.
End find_program.

(** ** utils::write_to_fd: retry interrupted and short writes

    [results] are the successive return values of [write(2)]: [inl errno] or
    [inr n] bytes written, with [n] at most the length asked for. *)

Definition EINTR : Z := 4.
Definition ENOSPC : Z := 28.

Fixpoint write_to_fd (results : list (Z + nat)) (content : bytes) (out : bytes) :
    option (bytes * Z * option Z) :=
  match content with
  | [] => Some (out, 0, None)
  | _ =>
      match results with
      | [] => None
      | inl errno :: rs =>
          if decide (errno = EINTR) then write_to_fd rs content out
          else Some (out, -1, Some errno)
      | inr O :: _ => Some (out, -1, Some ENOSPC)
      | inr n :: rs => write_to_fd rs (drop n content) (out ++ take n content)
      end
  end.

(** ** [printf] and [scanf] conversions *)

Definition hex_char (d : Z) : Z := if decide (d < 10) then 48 + d else 87 + d.

Definition nibble (n : Z) (i : nat) : Z := (n / 16 ^ Z.of_nat i) mod 16.

(** The 16 hexadecimal digits of a 64-bit value, most significant first. *)
Definition nibbles (n : Z) : list Z := map (nibble n) (rev (seq 0 16)).

Fixpoint strip_zeros (keep : nat) (ds : list Z) : list Z :=
  match ds with
  | d :: ds' => if decide (d = 0 ∧ (keep < length ds)%nat) then strip_zeros keep ds' else ds
  | [] => []
  end.

(** ["%04x"], ["%04zx"]. *)
Definition format_04x (n : Z) : bytes := map hex_char (strip_zeros 4 (nibbles n)).

(** ["%d"] of a non-negative number. *)
Fixpoint dec_digits (fuel : nat) (n : Z) (acc : bytes) : bytes :=
  match fuel with
  | O => acc
  | S fuel' =>
      let acc' := 48 + n mod 10 :: acc in
      if decide (n < 10) then acc' else dec_digits fuel' (n / 10) acc'
  end.
Definition format_d (n : Z) : string :=
  if decide (n < 0) then "-" +:+ string_of_bytes (dec_digits 20 (- n) [])
  else string_of_bytes (dec_digits 20 n []).

Definition is_space (c : Z) : bool := bool_decide (c = 32 ∨ 9 ≤ c ≤ 13).

Definition hex_val (c : Z) : option Z :=
  if decide (48 ≤ c ≤ 57) then Some (c - 48)
  else if decide (97 ≤ c ≤ 102) then Some (c - 87)
  else if decide (65 ≤ c ≤ 70) then Some (c - 55)
  else None.

(** Value of the leading hexadecimal digits, and whether a character that is
    none stopped the scan. *)
Fixpoint scan_digits (acc : Z) (l : bytes) : Z * bool :=
  match l with
  | [] => (acc, false)
  | c :: l' => match hex_val c with Some d => scan_digits (acc * 16 + d) l' | None => (acc, true) end
  end.

Definition scan_unsigned (l : bytes) : Z * bool :=
  match l with
  | z :: x :: l' =>
      if decide (z = 48 ∧ (x = 120 ∨ x = 88)) then scan_digits 0 l' else scan_digits 0 l
  | _ => scan_digits 0 l
  end.

Fixpoint drop_spaces (l : bytes) : bytes :=
  match l with
  | c :: l' => if is_space c then drop_spaces l' else l
  | [] => []
  end.

(** [sscanf(header, "%04x", &n)] with [n] initially zero on a character array
    that is not terminated.  [None]: the scan runs past the array.  (Read by the letter of
    the C standard any such call is undefined, the argument being no string; the model has
    it defined when no byte past the array is needed.) *)
Definition scan_04x (header : bytes) : option Z :=
  let t := drop_spaces header in
  let '(neg, ds) := match t with
                    | c :: ds =>
                        if decide (c = 45) then (true, ds)
                        else if decide (c = 43) then (false, ds) else (false, t)
                    | [] => (false, [])
                    end in
  let '(v, stopped) := scan_unsigned ds in
  if stopped || bool_decide (length t = length header)
  then Some (if neg then u32 (- v) else v) else None.

Lemma hex_char_val d : 0 ≤ d < 16 → hex_val (hex_char d) = Some d.
Proof.
  intros Hd. unfold hex_val, hex_char. destruct (decide (d < 10)).
  - rewrite decide_True by lia. f_equal. lia.
  - rewrite decide_False, decide_True by lia. f_equal. lia.
Qed.

Lemma hex_char_range d : 0 ≤ d < 16 → 48 ≤ hex_char d ≤ 57 ∨ 97 ≤ hex_char d ≤ 102.
Proof. intros Hd. unfold hex_char. case_decide; lia. Qed.

Lemma scan_digits_hex acc ds :
  Forall (λ d, 0 ≤ d < 16) ds →
  scan_digits acc (map hex_char ds) = (foldl (λ a d, a * 16 + d) acc ds, false).
Proof.
  intros Hds. revert acc. induction Hds as [|d ds Hd _ IH]; intros acc; cbn; [done|].
  by rewrite hex_char_val, IH.
Qed.

Lemma scan_04x_digits d1 d2 ds :
  Forall (λ d, 0 ≤ d < 16) (d1 :: d2 :: ds) →
  scan_04x (map hex_char (d1 :: d2 :: ds)) = Some (foldl (λ a d, a * 16 + d) 0 (d1 :: d2 :: ds)).
Proof.
  intros Hds. assert (Hscan := scan_digits_hex 0 _ Hds).
  inversion_clear Hds as [|? ? H1 Hr]. inversion_clear Hr as [|? ? H2 _].
  apply hex_char_range in H1, H2. unfold scan_04x. cbn [map drop_spaces].
  assert (Hsp : is_space (hex_char d1) = false) by (unfold is_space; rewrite bool_decide_eq_false; lia).
  rewrite Hsp. rewrite bool_decide_eq_true_2 by done.
  rewrite !decide_False by lia. unfold scan_unsigned. rewrite decide_False by lia.
  cbn [map] in Hscan. rewrite Hscan. by rewrite orb_true_r.
Qed.

Lemma strip_zeros_pad k m ds :
  length ds = k → strip_zeros k (replicate m 0 ++ ds) = ds.
Proof.
  intros Hk. induction m as [|m IH]; cbn [replicate app].
  - destruct ds; cbn [strip_zeros]; [done|]. rewrite decide_False; [done|]. cbn in *. lia.
  - cbn [strip_zeros]. rewrite decide_True; [done|]. split; [done|].
    cbn. rewrite length_app, length_replicate. lia.
Qed.

Lemma nibbles_small n :
  0 ≤ n < 65536 →
  nibbles n = replicate 12 0 ++ [n / 4096; (n / 256) mod 16; (n / 16) mod 16; n mod 16].
Proof.
  intros Hn. unfold nibbles, nibble. cbn [seq rev app map replicate].
  rewrite !(Z.div_small n (16 ^ Z.of_nat _)) by (split; [lia|]; cbn; lia).
  repeat (f_equal; try done).
  - cbn. Z.div_mod_to_equations. lia.
  - cbn. by rewrite Z.div_1_r.
Qed.

(** Header sizes below [0x10000] survive ["%04x"] and the scan back. *)
Lemma format_04x_small n :
  0 ≤ n < 65536 →
  format_04x n = map hex_char [n / 4096; (n / 256) mod 16; (n / 16) mod 16; n mod 16].
Proof.
  intros Hn. unfold format_04x. by rewrite (nibbles_small n Hn), strip_zeros_pad.
Qed.

Lemma length_format_04x n : 0 ≤ n < 65536 → length (format_04x n) = 4%nat.
Proof. intros Hn. by rewrite format_04x_small. Qed.

Lemma scan_format_04x n : 0 ≤ n < 65536 → scan_04x (format_04x n) = Some n.
Proof.
  intros Hn. rewrite format_04x_small by done. rewrite scan_04x_digits.
  - f_equal. cbn [foldl]. Z.div_mod_to_equations. lia.
  - repeat constructor; Z.div_mod_to_equations; lia.
Qed.

(** ** Decimal conversions *)

(** Leading decimal digits: their value, how many there are, the rest. *)
Fixpoint read_dec (acc : Z) (n : nat) (l : bytes) : Z * nat * bytes :=
  match l with
  | c :: l' => if decide (48 ≤ c ≤ 57) then read_dec (acc * 10 + (c - 48)) (S n) l' else (acc, n, l)
  | [] => (acc, n, [])
  end.

(** An optional sign before the digits. *)
Definition read_signed (l : bytes) : Z * nat * bytes :=
  match l with
  | c :: l' =>
      if decide (c = 45) then let '(v, n, r) := read_dec 0 0 l' in (- v, n, r)
      else if decide (c = 43) then read_dec 0 0 l' else read_dec 0 0 l
  | [] => (0, 0%nat, [])
  end.

(** [boost::lexical_cast<std::int32_t>]: [None] is [bad_lexical_cast]. *)
Definition lexical_cast_i32 (s : string) : option Z :=
  match read_signed (bytes_of_string s) with
  | (v, S _, []) => if decide (-2147483648 ≤ v < 2147483648) then Some v else None
  | _ => None
  end.

(** [sscanf(s, "%d", &x)]: no conversion, a value, or a value that an [int]
    cannot represent, which the C standard leaves undefined. *)
Inductive scanned : Type := scan_none | scan_int (z : Z) | scan_undefined.

Definition scan_d (l : bytes) : scanned :=
  match read_signed (drop_spaces l) with
  | (v, S _, _) => if decide (-2147483648 ≤ v < 2147483648) then scan_int v else scan_undefined
  | _ => scan_none
  end.

Definition dec_value (acc : Z) (ds : list Z) : Z := foldl (λ a d, a * 10 + d) acc ds.

Lemma dec_digits_spec fuel n acc : 0 ≤ n < 10 ^ Z.of_nat fuel → fuel ≠ O →
  ∃ ds, dec_digits fuel n acc = map (Z.add 48) ds ++ acc ∧ ds ≠ [] ∧
    Forall (λ d, 0 ≤ d < 10) ds ∧ dec_value 0 ds = n.
Proof.
  revert n acc. induction fuel as [|fuel IH]; intros n acc Hn Hf; [done|]. cbn [dec_digits].
  case_decide as H10.
  - exists [n]. rewrite Z.mod_small by lia. split_and!; [done|done|constructor; [lia|done]|unfold dec_value; cbn; lia].
  - assert (Hpow : 10 ^ Z.of_nat (S fuel) = 10 * 10 ^ Z.of_nat fuel).
    { rewrite Nat2Z.inj_succ, Z.pow_succ_r by lia. done. }
    destruct (IH (n / 10) (48 + n mod 10 :: acc)) as (ds & Hds & Hne & Hall & Hv).
    + split; [apply Z.div_pos; lia|]. apply Z.div_lt_upper_bound; lia.
    + intros ->. cbn in Hn. lia.
    + exists (ds ++ [n mod 10]). rewrite Hds. split_and!.
      * by rewrite map_app, <- app_assoc.
      * by destruct ds.
      * apply Forall_app. split; [done|]. repeat constructor; apply Z.mod_pos_bound; lia.
      * unfold dec_value in *. rewrite foldl_app, Hv. cbn. pose proof (Z.div_mod n 10). lia.
Qed.

Lemma read_dec_digits acc n ds rest :
  Forall (λ d, 0 ≤ d < 10) ds → read_dec acc n (map (Z.add 48) ds ++ rest) =
  read_dec (dec_value acc ds) (n + length ds) rest.
Proof.
  intros Hds. revert acc n. induction Hds as [|d ds Hd _ IH]; intros acc n; cbn; [by rewrite Nat.add_0_r|].
  rewrite decide_True by lia. rewrite IH. f_equal; [|lia]. unfold dec_value. cbn. do 2 f_equal. lia.
Qed.

(** Digits followed by something that is none. *)
Definition no_digit (rest : bytes) : Prop :=
  match rest with [] => True | c :: _ => ¬ 48 ≤ c ≤ 57 end.

Lemma read_dec_stop acc n rest : no_digit rest → read_dec acc n rest = (acc, n, rest).
Proof. destruct rest as [|c rest]; [done|]. cbn. intros. by rewrite decide_False. Qed.

Lemma bytes_of_string_digits ds :
  Forall (λ d, 0 ≤ d < 10) ds →
  bytes_of_string (string_of_bytes (map (Z.add 48) ds)) = map (Z.add 48) ds.
Proof.
  intros Hds. apply bytes_of_string_of_bytes. apply List.Forall_map.
  eapply Forall_impl; [|exact Hds]. intros d Hd. unfold is_u8. cbn in *. lia.
Qed.

Lemma format_d_digits n : is_i32 n → ∃ ds, ds ≠ [] ∧ Forall (λ d, 0 ≤ d < 10) ds ∧
  dec_value 0 ds = Z.abs n ∧
  bytes_of_string (format_d n) = (if decide (n < 0) then [45] else []) ++ map (Z.add 48) ds.
Proof.
  unfold is_i32. intros Hn. assert (Hp : 10 ^ Z.of_nat 20 = 100000000000000000000) by reflexivity.
  destruct (dec_digits_spec 20 (Z.abs n) []) as (ds & Hds & Hne & Hall & Hv); [lia|done|].
  rewrite app_nil_r in Hds. exists ds. split_and!; [done..|]. unfold format_d. case_decide.
  - replace (- n) with (Z.abs n) by lia. rewrite Hds, bytes_of_string_app.
    by rewrite bytes_of_string_digits.
  - replace n with (Z.abs n) by lia. by rewrite Hds, bytes_of_string_digits.
Qed.

Lemma read_signed_format_d n rest : is_i32 n → no_digit rest →
  ∃ k, read_signed (bytes_of_string (format_d n) ++ rest) = (n, S k, rest).
Proof.
  intros Hn Hrest. destruct (format_d_digits n Hn) as (ds & Hne & Hall & Hv & ->).
  destruct ds as [|d ds]; [done|]. exists (length ds).
  assert (Hread : read_dec 0 0 (map (Z.add 48) (d :: ds) ++ rest) = (Z.abs n, S (length ds), rest)).
  { rewrite read_dec_digits, Hv by done. by apply read_dec_stop. }
  unfold read_signed. case_decide as Hneg; cbn [app].
  - rewrite decide_True by done. rewrite Hread. do 2 f_equal. lia.
  - cbn [map app]. pose proof (Forall_inv Hall) as Hd. cbn in Hd.
    rewrite !decide_False by lia.
    change (48 + d :: map (Z.add 48) ds ++ rest) with (map (Z.add 48) (d :: ds) ++ rest).
    rewrite Hread. do 2 f_equal. lia.
Qed.

Lemma lexical_cast_format_d n : is_i32 n → lexical_cast_i32 (format_d n) = Some n.
Proof.
  intros Hn. unfold lexical_cast_i32.
  destruct (read_signed_format_d n [] Hn I) as [k Hk]. rewrite app_nil_r in Hk. rewrite Hk.
  by rewrite decide_True.
Qed.

(** The characters of a printed number. *)
Lemma format_d_chars n : is_i32 n →
  bytes_of_string (format_d n) ≠ [] ∧
  Forall (λ c, c = 45 ∨ 48 ≤ c ≤ 57) (bytes_of_string (format_d n)).
Proof.
  intros Hn. destruct (format_d_digits n Hn) as (ds & Hne & Hall & _ & ->). split.
  - destruct ds; [done|]. by case_decide.
  - apply Forall_app. split; [case_decide; repeat constructor; lia|].
    apply List.Forall_map. eapply Forall_impl; [|exact Hall]. cbn. lia.
Qed.

Lemma drop_spaces_format_d n rest : is_i32 n →
  drop_spaces (bytes_of_string (format_d n) ++ rest) = bytes_of_string (format_d n) ++ rest.
Proof.
  intros Hn. destruct (format_d_chars n Hn) as [Hne Hall].
  destruct (bytes_of_string (format_d n)) as [|c l]; [done|]. cbn.
  unfold is_space. rewrite bool_decide_false; [done|]. apply Forall_inv in Hall. lia.
Qed.

Lemma scan_d_format_d n rest : is_i32 n → no_digit rest →
  scan_d (bytes_of_string (format_d n) ++ rest) = scan_int n.
Proof.
  intros Hn Hrest. unfold scan_d. rewrite drop_spaces_format_d by done.
  destruct (read_signed_format_d n rest Hn Hrest) as [k ->]. by rewrite decide_True.
Qed.

Lemma has_char_bytes c s : has_char c s = false ↔ Prelude.byte_of_ascii c ∉ bytes_of_string s.
Proof.
  induction s as [|a s IH]; cbn; [set_solver|]. rewrite orb_false_iff, IH, not_elem_of_cons.
  rewrite Ascii.eqb_neq. split; intros [H ?]; (split; [|done]); intros E; apply H.
  - apply (f_equal Prelude.ascii_of_byte) in E. by rewrite !Prelude.ascii_of_byte_of_ascii in E.
  - congruence.
Qed.

Lemma format_d_no_char c n : is_i32 n → Prelude.byte_of_ascii c ≠ 45 → ¬ 48 ≤ Prelude.byte_of_ascii c ≤ 57 →
  has_char c (format_d n) = false.
Proof.
  intros Hn H1 H2. apply has_char_bytes. intros Hin. destruct (format_d_chars n Hn) as [_ Hall].
  rewrite List.Forall_forall in Hall. apply list_elem_of_In, Hall in Hin. lia.
Qed.
