(* ===== verification/SmallVector.v ===== *)
(** * Small-buffer vectors (src/src/anbox/common/small_vector.h)

    [SmallFixedVector<T, SmallSize>] keeps up to [SmallSize] elements in place
    and moves to the heap beyond.  An element is [None] when its memory is
    uninitialised ([resize_noinit]).  The model is the vector the daemon uses:
    trivially destructible elements, and [malloc] succeeding (it aborts
    otherwise). *)

From S2P Require Import Prelude.

Section small_vector.
Context {A : Type}.
Variable kSmallSize : nat.
Variable zero : A.   (* [T()] *)

Record SmallVector : Type := mkSV {
  elements : list (option A);   (* [mBegin, mEnd) *)
  isAllocated : bool;           (* mBegin is not the in-place array *)
  mCapacity : nat;
}.

Definition size (v : SmallVector) : nat := length (elements v).
Definition capacity (v : SmallVector) : nat := mCapacity v.
Definition sv_empty (v : SmallVector) : bool := bool_decide (size v = 0%nat).

Definition init_inplace : SmallVector := mkSV [] false kSmallSize.

Definition set_capacity (newCap : nat) (v : SmallVector) : SmallVector :=
  mkSV (elements v) true newCap.

Definition grow_for_size (newSize : nat) (v : SmallVector) : SmallVector :=
  if decide (capacity v < newSize)%nat
  then set_capacity (Nat.max newSize (capacity v + capacity v / 2)) v else v.

Definition emplace_back (x : A) (v : SmallVector) : SmallVector :=
  let v := grow_for_size (size v + 1) v in
  mkSV (elements v ++ [Some x]) (isAllocated v) (mCapacity v).

Definition sv_clear (v : SmallVector) : SmallVector := mkSV [] (isAllocated v) (mCapacity v).

Definition reserve (newCap : nat) (v : SmallVector) : SmallVector :=
  if decide (newCap ≤ capacity v)%nat then v else set_capacity newCap v.

Definition resize_impl (init : bool) (newSize : nat) (v : SmallVector) : SmallVector :=
  if decide (newSize < size v)%nat then mkSV (take newSize (elements v)) (isAllocated v) (mCapacity v)
  else if decide (size v < newSize)%nat then
    let v' := grow_for_size newSize v in
    mkSV (elements v' ++ replicate (newSize - size v) (if init then Some zero else None))
      (isAllocated v') (mCapacity v')
  else v.
Definition sv_resize : nat → SmallVector → SmallVector := resize_impl true.
Definition resize_noinit : nat → SmallVector → SmallVector := resize_impl false.

Definition insert_back (l : list (option A)) (v : SmallVector) : SmallVector :=
  match l with
  | [] => v
  | _ => let v' := grow_for_size (size v + length l) v in
         mkSV (elements v' ++ l) (isAllocated v') (mCapacity v')
  end.

(** Constructors: from a range, by copy, by move (the new vector and what is
    left of the other one). *)
Definition sv_of_range (l : list (option A)) : SmallVector := insert_back l init_inplace.
Definition sv_copy (other : SmallVector) : SmallVector := sv_of_range (elements other).
Definition sv_move (other : SmallVector) : SmallVector * SmallVector :=
  if isAllocated other then (mkSV (elements other) true (mCapacity other), init_inplace)
  else (mkSV (elements other) false kSmallSize, other).

(** Assignment by copy; [None]: [other] is the vector itself. *)
Definition sv_copy_assign (this : SmallVector) (other : option SmallVector) : SmallVector :=
  match other with
  | Some other => insert_back (elements other) (sv_clear this)
  | None => this
  end.

(** Assignment by move to another object.  [None]: writing the elements past the memory of [this]. *)
Definition sv_move_assign (this other : SmallVector) : option (SmallVector * SmallVector) :=
  if isAllocated other then Some (mkSV (elements other) true (mCapacity other), init_inplace)
  else
    let this' := if isAllocated this && bool_decide (mCapacity this < size other)%nat
                 then init_inplace else this in
    if decide (size other ≤ mCapacity this')%nat
    then Some (mkSV (elements other) (isAllocated this') (mCapacity this'), other)
    else None.

(** ** Invariant *)

Record sv_ok (v : SmallVector) : Prop := mk_sv_ok {
  ok_size : (size v ≤ mCapacity v)%nat;
  ok_place : if isAllocated v then (kSmallSize < mCapacity v)%nat else mCapacity v = kSmallSize;
}.

Lemma sv_ok_capacity v : sv_ok v → (kSmallSize ≤ mCapacity v)%nat.
Proof. intros [_ Hp]. destruct (isAllocated v); lia. Qed.

Lemma grow_for_size_spec n v : sv_ok v →
  sv_ok (grow_for_size n v) ∧ elements (grow_for_size n v) = elements v ∧
  (n ≤ mCapacity (grow_for_size n v))%nat ∧ (mCapacity v ≤ mCapacity (grow_for_size n v))%nat ∧
  (mCapacity v < n → isAllocated (grow_for_size n v) = true ∧
     mCapacity v + mCapacity v / 2 ≤ mCapacity (grow_for_size n v))%nat.
Proof.
  intros Hok. assert (Hcap := sv_ok_capacity v Hok). destruct Hok as [Hs Hp].
  unfold grow_for_size, capacity. case_decide as Hn.
  - cbn. split; [split; unfold size in *; cbn; lia|]. split; [done|]. split; [lia|]. split; [lia|]. intros _. split; [done|lia].
  - split; [by split|]. split; [done|]. split; [lia|]. split; [lia|]. lia.
Qed.

(** Extending a grown vector stays within its memory. *)
Lemma sv_extend_ok n l v : sv_ok v → (size v + length l ≤ n)%nat →
  sv_ok (mkSV (elements (grow_for_size n v) ++ l) (isAllocated (grow_for_size n v)) (mCapacity (grow_for_size n v))).
Proof.
  intros Hok Hn. destruct (grow_for_size_spec n v Hok) as ([_ Hp] & He & Hc & _). split; [|done].
  unfold size in *. cbn. rewrite He, length_app. lia.
Qed.

(** Nothing but growth has happened to the memory. *)
Definition grown (v v' : SmallVector) : Prop := sv_ok v' ∧ (mCapacity v ≤ mCapacity v')%nat.

Lemma emplace_back_spec x v : sv_ok v → grown v (emplace_back x v) ∧ elements (emplace_back x v) = elements v ++ [Some x].
Proof.
  intros Hok. unfold emplace_back. destruct (grow_for_size_spec (size v + 1) v Hok) as (_ & He & _ & ? & _). cbn.
  rewrite He. split; [|done]. split; [|done]. rewrite <- He. by apply sv_extend_ok.
Qed.

Lemma sv_clear_ok v : sv_ok v → sv_ok (sv_clear v).
Proof. intros [Hs Hp]. split; [unfold size; cbn; lia|done]. Qed.

Lemma reserve_spec n v : sv_ok v → grown v (reserve n v) ∧ elements (reserve n v) = elements v ∧ (n ≤ mCapacity (reserve n v))%nat.
Proof.
  intros Hok. assert (Hcap := sv_ok_capacity v Hok). destruct Hok as [Hs Hp]. unfold reserve, capacity.
  case_decide; (split; [|split; [done|cbn; lia]]); (split; [split|]); unfold size in *; cbn; try done; lia.
Qed.

Lemma resize_impl_spec init n v : sv_ok v →
  grown v (resize_impl init n v) ∧
  elements (resize_impl init n v) =
    take n (elements v) ++ replicate (n - size v) (if init then Some zero else None).
Proof.
  intros Hok. unfold resize_impl. case_decide as H1; [|case_decide as H2].
  - destruct Hok as [Hs Hp]. split; [split; [split; [unfold size in *; cbn; rewrite length_take; lia|done]|done]|].
    cbn. replace (n - size v)%nat with 0%nat by lia. by rewrite app_nil_r.
  - destruct (grow_for_size_spec n v Hok) as (_ & He & _ & ? & _).
    split; [split; [apply sv_extend_ok; [done|rewrite length_replicate; lia]|done]|].
    cbn. rewrite He. by rewrite take_ge by (unfold size in *; lia).
  - split; [done|]. replace (n - size v)%nat with 0%nat by lia.
    rewrite app_nil_r, take_ge; [done|]. unfold size in *. lia.
Qed.

Lemma insert_back_spec l v : sv_ok v → grown v (insert_back l v) ∧ elements (insert_back l v) = elements v ++ l.
Proof.
  intros Hok. destruct l as [|x l]; [cbn; by rewrite app_nil_r|].
  destruct (grow_for_size_spec (size v + S (length l)) v Hok) as (_ & He & _ & ? & _).
  split; [split; [by apply sv_extend_ok|done]|]. cbn. by rewrite He.
Qed.

Lemma init_inplace_ok : sv_ok init_inplace.
Proof. split; unfold size; cbn; lia. Qed.

Lemma sv_move_assign_spec this other : sv_ok this → sv_ok other →
  ∃ this' other', sv_move_assign this other = Some (this', other') ∧ sv_ok this' ∧ sv_ok other' ∧
    elements this' = elements other ∧ elements other' = (if isAllocated other then [] else elements other) ∧
    isAllocated other' = false ∧ (isAllocated other = false → mCapacity this' = mCapacity this).
Proof.
  intros Ht Ho. assert (Hcap := sv_ok_capacity this Ht). destruct Ho as [Hs Hp]. unfold sv_move_assign.
  destruct (isAllocated other) eqn:Ha.
  - eexists _, _. split; [done|]. split; [split; [done|by cbn]|]. split; [apply init_inplace_ok|]. done.
  - rewrite bool_decide_false, andb_false_r by lia. rewrite decide_True by lia.
    eexists _, _. split; [done|]. split; [|split; [split; [done|by rewrite Ha]|done]].
    split; [unfold size in *; cbn; lia|]. by destruct Ht.
Qed.
End small_vector.
Arguments SmallVector : clear implicits.

(** ** Property *)

(** C37: A [SmallFixedVector] behaves like a vector for every in-place size.
    Moving another vector into it always fits the memory it has, gives it the
    other's elements and leaves the other empty when its heap block was taken
    and unchanged when it was in place; the branch of the move assignment that
    falls back to the in-place array is never taken.  Appending, resizing,
    reserving and assignment by copy, to itself too, have the effect of the list
    operations, stay within the capacity, and never shrink it; appending to a
    full vector makes it larger by half.  The copy and move constructors give
    the elements of the other vector in memory that fits. *)
Theorem small_vector_refines {A} (kSmallSize : nat) (zero : A) this other :
  sv_ok kSmallSize this → sv_ok kSmallSize other →
  let keeps v' := sv_ok kSmallSize v' ∧ (mCapacity this ≤ mCapacity v')%nat in
  (∃ this' other', sv_move_assign kSmallSize this other = Some (this', other') ∧
     sv_ok kSmallSize this' ∧ sv_ok kSmallSize other' ∧ elements this' = elements other ∧
     elements other' = (if isAllocated other then [] else elements other)) ∧
  (isAllocated this && bool_decide (mCapacity this < size other)%nat = true → isAllocated other = true) ∧
  (∀ x, elements (emplace_back x this) = elements this ++ [Some x] ∧ keeps (emplace_back x this) ∧
     (size this = mCapacity this → mCapacity this + mCapacity this / 2 ≤ mCapacity (emplace_back x this))%nat) ∧
  (∀ init n, elements (resize_impl zero init n this) =
     take n (elements this) ++ replicate (n - size this) (if init then Some zero else None) ∧
     keeps (resize_impl zero init n this)) ∧
  (∀ n, elements (reserve n this) = elements this ∧ keeps (reserve n this) ∧ (n ≤ capacity (reserve n this))%nat) ∧
  (∀ from, elements (sv_copy_assign this from) = elements (default this from) ∧ keeps (sv_copy_assign this from)) ∧
  (elements (sv_copy kSmallSize other) = elements other ∧ sv_ok kSmallSize (sv_copy kSmallSize other)) ∧
  (elements (sv_move kSmallSize other).1 = elements other ∧
   sv_ok kSmallSize (sv_move kSmallSize other).1 ∧ sv_ok kSmallSize (sv_move kSmallSize other).2).
Proof.
  intros Ht Ho keeps. split; [|split; [|split; [|split; [|split; [|split; [|split]]]]]].
  - destruct (sv_move_assign_spec kSmallSize this other Ht Ho) as (t' & o' & -> & ? & ? & ? & ? & _).
    by exists t', o'.
  - intros [_ Hlt%bool_decide_eq_true]%andb_true_iff. assert (Hcap := sv_ok_capacity _ _ Ht).
    destruct Ho as [Hs Hp]. destruct (isAllocated other); [done|lia].
  - intros x. destruct (emplace_back_spec kSmallSize x this Ht). split; [done|]. split; [done|]. intros Hfull.
    destruct (grow_for_size_spec kSmallSize (size this + 1) this Ht) as (_ & _ & _ & _ & Hg). apply Hg. lia.
  - intros init n. by destruct (resize_impl_spec kSmallSize zero init n this Ht).
  - intros n. by destruct (reserve_spec kSmallSize n this Ht) as (? & ? & ?).
  - intros [from|]; [|split; [done|by split]].
    by destruct (insert_back_spec kSmallSize (elements from) (sv_clear this) (sv_clear_ok _ _ Ht)).
  - by destruct (insert_back_spec kSmallSize (elements other) _ (init_inplace_ok kSmallSize)) as [[? _] ?].
  - pose proof (init_inplace_ok kSmallSize (A := A)) as Hi. destruct other as [l [] cap]; cbn; [done|].
    split; [done|]. split; [|done]. destruct Ho as [Hs Hp]. cbn in Hp. subst cap. by split.
Qed.

Lemma small_vector_refines_witness : ∃ this' other',
  sv_move_assign 2 (mkSV [Some 9] true 5) (mkSV [Some 1; Some 2] false 2) = Some (this', other') ∧
  elements this' = [Some 1; Some 2].
Proof.
  destruct (small_vector_refines 2 0 (mkSV [Some 9] true 5) (mkSV [Some 1; Some 2] false 2)) as [(t' & o' & H & _ & _ & He & _) _].
  - split; cbn; unfold size; cbn; lia.
  - split; cbn; unfold size; cbn; lia.
  - exists t', o'. split; [exact H|exact He].
Defined.
