(* ===== verification/Stream.v ===== *)
(** * Byte streams between the pipe and the renderer

    graphics/buffer_queue.cpp, common/message_channel.cpp,
    graphics/buffered_io_stream.cpp and graphics/emugl/ReadBuffer.cpp (under
    src/src/anbox).  The queues are ring buffers guarded by a lock; an operation
    is the code between taking the lock and returning or waiting, so a blocked
    call is [None] ("wait and try again") and threads are interleavings of
    operations.  [Monitor] adds the condition variables of the buffer queue:
    who sleeps, whom an operation notifies, and who was woken. *)

From S2P Require Import Prelude.

Definition EIO : Z := 5.
Definition EAGAIN : Z := 11.
Definition EINTR : Z := 4.
Definition INT_MAX : Z := 2147483647.
Definition PTRDIFF_MAX : Z := 9223372036854775807.

(** ** Ring buffers *)

Section ring.
Context {B : Type}.
Variable moved_from : B → B.   (* what moving out of an element leaves *)

Record BufferQueue : Type := mkQueue {
  capacity_ : nat;
  pos_ : nat;
  count_ : nat;
  closed_ : bool;
  buffers_ : list B;
}.

Definition queue_new (blank : B) (capacity : nat) : BufferQueue :=
  mkQueue capacity 0 0 false (replicate capacity blank).

Definition can_push_locked (q : BufferQueue) : bool := negb (closed_ q) && bool_decide (count_ q < capacity_ q)%nat.
Definition can_pop_locked (q : BufferQueue) : bool := bool_decide (0 < count_ q)%nat.
Definition is_closed_locked (q : BufferQueue) : bool := closed_ q.

(** [pos -= capacity_] when past the end. *)
Definition wrap_pos (capacity pos : nat) : nat :=
  if decide (capacity ≤ pos)%nat then pos - capacity else pos.

Definition try_push_locked (b : B) (q : BufferQueue) : Z * BufferQueue :=
  if closed_ q then (- EIO, q)
  else if decide (capacity_ q ≤ count_ q)%nat then (- EAGAIN, q)
  else
    let pos := wrap_pos (capacity_ q) (pos_ q + count_ q) in
    (0, mkQueue (capacity_ q) (pos_ q) (count_ q + 1) (closed_ q) (<[pos := b]> (buffers_ q))).

Definition push_locked (b : B) (q : BufferQueue) : option (Z * BufferQueue) :=
  if decide (count_ q = capacity_ q) then
    if closed_ q then Some (- EIO, q) else None
  else Some (try_push_locked b q).

(** The code, the popped element, the queue; reading past the array is [None]. *)
Definition try_pop_locked (q : BufferQueue) : option (Z * option B * BufferQueue) :=
  if decide (count_ q = 0%nat) then Some ((if closed_ q then - EIO else - EAGAIN), None, q)
  else match buffers_ q !! pos_ q with
       | None => None
       | Some b =>
           Some (0, Some b,
             mkQueue (capacity_ q) (wrap_pos (capacity_ q) (pos_ q + 1)) (count_ q - 1) (closed_ q)
               (<[pos_ q := moved_from b]> (buffers_ q)))
       end.

Inductive pop_result : Type :=
  | pop_waits
  | pop_done (code : Z) (b : option B) (q : BufferQueue)
  | pop_undefined.

Definition pop_locked (q : BufferQueue) : pop_result :=
  if decide (count_ q = 0%nat) then
    if closed_ q then pop_done (- EIO) None q else pop_waits
  else match try_pop_locked q with
       | None => pop_undefined
       | Some (c, b, q') => pop_done c b q'
       end.

Definition close_locked (q : BufferQueue) : BufferQueue :=
  mkQueue (capacity_ q) (pos_ q) (count_ q) true (buffers_ q).

(** *** The queue as a bounded FIFO *)

(** The elements waiting, oldest first. *)
Definition waiting (q : BufferQueue) : list B :=
  take (count_ q) (drop (pos_ q) (buffers_ q) ++ take (pos_ q) (buffers_ q)).

Record queue_ok (q : BufferQueue) : Prop := mk_queue_ok {
  q_len : length (buffers_ q) = capacity_ q;
  q_count : (count_ q ≤ capacity_ q)%nat;
  q_pos : (pos_ q < capacity_ q)%nat;
}.

Lemma queue_new_ok blank n : (0 < n)%nat → queue_ok (queue_new blank n).
Proof. intros Hn. split; cbn; [apply length_replicate|lia|done]. Qed.

(** Element [i] of the queue is at the wrapped position. *)
Lemma waiting_lookup q i : queue_ok q → (i < count_ q)%nat →
  waiting q !! i = buffers_ q !! wrap_pos (capacity_ q) (pos_ q + i).
Proof.
  intros [Hl Hc Hp] Hi. unfold waiting, wrap_pos. rewrite lookup_take_lt by done. case_decide as Hw.
  - rewrite lookup_app_r, length_drop, lookup_take_lt by (rewrite ?length_drop; lia). f_equal. lia.
  - rewrite lookup_app_l, lookup_drop by (rewrite length_drop; lia). done.
Qed.

Lemma length_waiting q : queue_ok q → length (waiting q) = count_ q.
Proof. intros [Hl Hc Hp]. unfold waiting. rewrite length_take, length_app, length_drop, length_take. lia. Qed.

Lemma waiting_eq q l : queue_ok q → length l = count_ q →
  (∀ i, (i < count_ q)%nat → buffers_ q !! wrap_pos (capacity_ q) (pos_ q + i) = l !! i) → waiting q = l.
Proof.
  intros Hok Hl Hi. apply list_eq. intros i. destruct (decide (i < count_ q)%nat).
  - by rewrite waiting_lookup, Hi.
  - rewrite !(proj2 (lookup_ge_None _ _)); [done|lia|]. rewrite length_waiting by done. lia.
Qed.

Lemma try_push_ok b q : queue_ok q →
  let '(code, q') := try_push_locked b q in
  queue_ok q' ∧
  if closed_ q then code = - EIO ∧ q' = q
  else if decide (capacity_ q ≤ count_ q)%nat then code = - EAGAIN ∧ q' = q
  else code = 0 ∧ waiting q' = waiting q ++ [b] ∧ closed_ q' = false ∧ capacity_ q' = capacity_ q.
Proof.
  intros Hok. assert (Hok' := Hok). destruct Hok' as [Hl Hc Hp]. unfold try_push_locked.
  destruct (closed_ q) eqn:Ecl; [done|]. case_decide as Hfull; [done|].
  set (q' := mkQueue _ _ _ _ _).
  assert (Hok' : queue_ok q') by (split; cbn; rewrite ?length_insert; lia).
  split; [done|]. split; [done|]. split; [|done]. apply waiting_eq; [done|rewrite length_app, length_waiting by done; cbn; lia|].
  cbn. intros i Hi. destruct (decide (i = count_ q)) as [->|Hne].
  - rewrite list_lookup_insert_eq by (unfold wrap_pos; case_decide; lia).
    rewrite lookup_app_r by (rewrite length_waiting by done; lia). by rewrite length_waiting, Nat.sub_diag by done.
  - rewrite list_lookup_insert_ne by (unfold wrap_pos; repeat case_decide; lia).
    rewrite lookup_app_l by (rewrite length_waiting by done; lia). rewrite waiting_lookup by (done || lia). done.
Qed.

Lemma try_pop_ok q : queue_ok q →
  match waiting q with
  | [] => try_pop_locked q = Some ((if closed_ q then - EIO else - EAGAIN), None, q)
  | b :: rest => ∃ q', try_pop_locked q = Some (0, Some b, q') ∧ queue_ok q' ∧ waiting q' = rest ∧
                   closed_ q' = closed_ q ∧ capacity_ q' = capacity_ q
  end.
Proof.
  intros Hok. assert (Hlen := length_waiting q Hok). unfold try_pop_locked.
  destruct (waiting q) as [|b rest] eqn:Hw; cbn in Hlen; [by rewrite decide_True|].
  rewrite decide_False by lia. assert (Hok' := Hok). destruct Hok' as [Hl Hc Hp].
  assert (Hb : buffers_ q !! pos_ q = Some b).
  { assert (H0 := waiting_lookup q 0 Hok). rewrite Hw in H0. unfold wrap_pos in H0. rewrite decide_False, Nat.add_0_r in H0 by lia.
    symmetry. apply H0. lia. }
  rewrite Hb. eexists. split; [done|]. set (q' := mkQueue _ _ _ _ _).
  assert (Hok' : queue_ok q').
  { split; cbn; [by rewrite length_insert|lia|]. unfold wrap_pos. case_decide; lia. }
  split; [done|]. split; [|done]. apply waiting_eq; [done|cbn; lia|]. cbn [count_ buffers_ pos_ capacity_ q']. intros i Hi.
  assert (Hi1 := waiting_lookup q (S i) Hok). rewrite Hw in Hi1. change ((b :: rest) !! S i) with (rest !! i) in Hi1. rewrite Hi1 by lia.
  unfold wrap_pos in *. rewrite list_lookup_insert_ne by (repeat case_decide; lia).
  f_equal. repeat case_decide; lia.
Qed.
End ring.
Arguments BufferQueue : clear implicits.

Inductive queue_op (B : Type) : Type :=
  | q_try_push (b : B) | q_push (b : B) | q_try_pop | q_pop | q_close.
Arguments q_try_push {_} _.
Arguments q_push {_} _.
Arguments q_try_pop {_}.
Arguments q_pop {_}.
Arguments q_close {_}.

(** [None]: the caller waits. *)
Abbreviation queue_answer B := (option (Z * option B)).

(** One operation; [None] is undefined behaviour. *)
Definition queue_do {B} (moved_from : B → B) (q : BufferQueue B) (o : queue_op B) :
    option (queue_answer B * BufferQueue B) :=
  match o with
  | q_try_push b => let '(c, q') := try_push_locked b q in Some (Some (c, None), q')
  | q_push b =>
      match push_locked b q with
      | None => Some (None, q)
      | Some (c, q') => Some (Some (c, None), q')
      end
  | q_try_pop =>
      match try_pop_locked moved_from q with
      | None => None
      | Some (c, b, q') => Some (Some (c, b), q')
      end
  | q_pop =>
      match pop_locked moved_from q with
      | pop_waits => Some (None, q)
      | pop_done c b q' => Some (Some (c, b), q')
      | pop_undefined => None
      end
  | q_close => Some (Some (0, None), close_locked q)
  end.

(** The specification: a list, a bound and a flag. *)
Definition fifo_do {B} (cap : nat) (st : list B * bool) (o : queue_op B) : queue_answer B * (list B * bool) :=
  let '(items, closed) := st in
  let full := bool_decide (length items = cap) in
  match o with
  | q_try_push b =>
      if closed then (Some (- EIO, None), st)
      else if full then (Some (- EAGAIN, None), st) else (Some (0, None), (items ++ [b], closed))
  | q_push b =>
      if closed then (Some (- EIO, None), st)
      else if full then (None, st) else (Some (0, None), (items ++ [b], closed))
  | q_try_pop =>
      match items with
      | [] => (Some ((if closed then - EIO else - EAGAIN), None), st)
      | b :: rest => (Some (0, Some b), (rest, closed))
      end
  | q_pop =>
      match items with
      | [] => ((if closed then Some (- EIO, None) else None), st)
      | b :: rest => (Some (0, Some b), (rest, closed))
      end
  | q_close => (Some (0, None), (items, true))
  end.

Lemma queue_do_refines {B} (moved_from : B → B) q o : queue_ok q →
  ∃ q', queue_do moved_from q o = Some ((fifo_do (capacity_ q) (waiting q, closed_ q) o).1, q') ∧
    queue_ok q' ∧ capacity_ q' = capacity_ q ∧
    (waiting q', closed_ q') = (fifo_do (capacity_ q) (waiting q, closed_ q) o).2.
Proof.
  intros Hok. assert (Hlen := length_waiting q Hok). assert (Hc := q_count _ Hok).
  assert (Hpush := λ b, try_push_ok b q Hok). assert (Hpop := try_pop_ok moved_from q Hok).
  destruct o as [b|b| | |]; cbn [queue_do fifo_do].
  - specialize (Hpush b). destruct (try_push_locked b q) as [code q'], Hpush as [Hq' Hr]. exists q'.
    destruct (closed_ q) eqn:Ecl; [destruct Hr as [-> ->]; by rewrite Ecl|].
    case_decide as Hfull; [rewrite bool_decide_true by lia; destruct Hr as [-> ->]; by rewrite Ecl|].
    rewrite bool_decide_false by lia. destruct Hr as (-> & -> & -> & ->). done.
  - unfold push_locked. specialize (Hpush b). destruct (closed_ q) eqn:Ecl.
    + destruct (decide (count_ q = capacity_ q)); [exists q; by rewrite Ecl|]. destruct (try_push_locked b q) as [code q'], Hpush as [Hq' [-> ->]].
      exists q. by rewrite Ecl.
    + destruct (decide (count_ q = capacity_ q)) as [Hfull|Hfull];
        [exists q; rewrite bool_decide_true by lia; by rewrite Ecl|].
      rewrite bool_decide_false by lia. destruct (try_push_locked b q) as [code q'], Hpush as [Hq' Hr]. exists q'.
      rewrite decide_False in Hr by lia. destruct Hr as (-> & -> & -> & ->). done.
  - destruct (waiting q) as [|b rest] eqn:Hw; [rewrite Hpop; exists q; by rewrite Hw|].
    destruct Hpop as (q' & -> & Hq' & Hw' & Hcl & Hcap). exists q'. by rewrite Hw', Hcl.
  - unfold pop_locked. destruct (waiting q) as [|b rest] eqn:Hw; cbn in Hlen.
    + rewrite decide_True by done. exists q. rewrite Hw. by destruct (closed_ q).
    + rewrite decide_False by lia. destruct Hpop as (q' & -> & Hq' & Hw' & Hcl & Hcap). exists q'. by rewrite Hw', Hcl.
  - exists (close_locked q). split; [done|]. split; [by destruct Hok|]. done.
Qed.

(** Elements that moving does not change. *)
Definition keep_elem (x : Z) : Z := x.

(** *** Sleeping and waking

    [wait] puts the caller to sleep on a condition variable; [notify_one] wakes
    one of the sleepers, whichever the system picks, [notify_all] all of them;
    and a sleeper may wake for no reason.  A thread that wakes has to take the
    lock again and tests its condition anew. *)

Record Monitor (B : Type) : Type := mkMonitor {
  mon_queue : BufferQueue B;
  can_push_ : list (nat * B);              (* threads asleep in [push_locked] *)
  can_pop_ : list nat;                     (* threads asleep in [pop_locked] *)
  mon_woken : list (nat * queue_op B);     (* woken, the lock not yet taken *)
}.
Arguments mkMonitor {_} _ _ _ _.
Arguments mon_queue {_} _.
Arguments can_push_ {_} _.
Arguments can_pop_ {_} _.
Arguments mon_woken {_} _.

Definition monitor_new {B} (blank : B) (capacity : nat) : Monitor B := mkMonitor (queue_new blank capacity) [] [] [].

(** Take the sleeper [k] (counted round) out of the list. *)
Definition pick {A} (k : nat) (l : list A) : list A * list A :=
  let i := (k mod length l)%nat in (take 1 (drop i l), delete i l).

Definition woken_push {B} (x : nat * B) : nat * queue_op B := (x.1, q_push x.2).
Definition woken_pop {B} (t : nat) : nat * queue_op B := (t, q_pop).

Definition wake_push {B} (sel : list (nat * B) → list (nat * B) * list (nat * B)) (m : Monitor B) : Monitor B :=
  let '(up, rest) := sel (can_push_ m) in
  mkMonitor (mon_queue m) rest (can_pop_ m) (mon_woken m ++ map woken_push up).
Definition wake_pop {B} (sel : list nat → list nat * list nat) (m : Monitor B) : Monitor B :=
  let '(up, rest) := sel (can_pop_ m) in
  mkMonitor (mon_queue m) (can_push_ m) rest (mon_woken m ++ map woken_pop up).
Definition everyone {A} (l : list A) : list A * list A := (l, []).

(** The notifications of an operation, from the queue it found: [count_++ == 0]
    in [try_push_locked], [count_-- == capacity_] in [try_pop_locked], and both
    tests of [close_locked]. *)
Definition notify {B} (k : nat) (q : BufferQueue B) (o : queue_op B) (code : Z) (m : Monitor B) : Monitor B :=
  match o with
  | q_try_push _ | q_push _ =>
      if decide (code = 0 ∧ count_ q = 0%nat) then wake_pop (pick k) m else m
  | q_try_pop | q_pop =>
      if decide (code = 0 ∧ count_ q = capacity_ q) then wake_push (pick k) m else m
  | q_close =>
      let m1 := if decide (count_ q = capacity_ q) then wake_push everyone m else m in
      if decide (count_ q = 0%nat) then wake_pop everyone m1 else m1
  end.

Definition set_queue {B} (q : BufferQueue B) (m : Monitor B) : Monitor B :=
  mkMonitor q (can_push_ m) (can_pop_ m) (mon_woken m).

(** The caller goes to sleep. *)
Definition sleep {B} (t : nat) (o : queue_op B) (m : Monitor B) : Monitor B :=
  match o with
  | q_push b => mkMonitor (mon_queue m) (can_push_ m ++ [(t, b)]) (can_pop_ m) (mon_woken m)
  | q_pop => mkMonitor (mon_queue m) (can_push_ m) (can_pop_ m ++ [t]) (mon_woken m)
  | _ => m
  end.

(** A thread that holds the lock runs a call until it returns or sleeps: what
    it returned, if it did. *)
Definition attempt {B} (moved_from : B → B) (k t : nat) (o : queue_op B) (m : Monitor B) :
    option (list (queue_op B * queue_answer B) * Monitor B) :=
  match queue_do moved_from (mon_queue m) o with
  | None => None
  | Some (None, q) => Some ([], sleep t o (set_queue q m))
  | Some (Some (code, b), q) => Some ([(o, Some (code, b))], notify k (mon_queue m) o code (set_queue q m))
  end.

Inductive mon_event (B : Type) : Type :=
  | me_call (k t : nat) (o : queue_op B)   (* a thread calls *)
  | me_resume (k i : nat)                  (* woken thread [i] takes the lock again *)
  | me_spurious_push (k : nat)             (* a sleeper wakes for no reason *)
  | me_spurious_pop (k : nat).
Arguments me_call {_} _ _ _.
Arguments me_resume {_} _ _.
Arguments me_spurious_push {_} _.
Arguments me_spurious_pop {_} _.

Definition mon_step {B} (moved_from : B → B) (m : Monitor B) (e : mon_event B) :
    option (list (queue_op B * queue_answer B) * Monitor B) :=
  match e with
  | me_call k t o => attempt moved_from k t o m
  | me_resume k i =>
      match mon_woken m !! i with
      | None => Some ([], m)
      | Some (t, o) =>
          attempt moved_from k t o (mkMonitor (mon_queue m) (can_push_ m) (can_pop_ m) (delete i (mon_woken m)))
      end
  | me_spurious_push k => Some ([], wake_push (pick k) m)
  | me_spurious_pop k => Some ([], wake_pop (pick k) m)
  end.

(** The calls that returned, in the order they did. *)
Fixpoint mon_run {B} (moved_from : B → B) (m : Monitor B) (es : list (mon_event B)) :
    option (list (queue_op B * queue_answer B) * Monitor B) :=
  match es with
  | [] => Some ([], m)
  | e :: es' =>
      match mon_step moved_from m e with
      | None => None
      | Some (out, m') =>
          match mon_run moved_from m' es' with
          | None => None
          | Some (outs, m'') => Some (out ++ outs, m'')
          end
      end
  end.

Fixpoint fifo_run {B} (cap : nat) (st : list B * bool) (ops : list (queue_op B)) :
    list (queue_answer B) * (list B * bool) :=
  match ops with
  | [] => ([], st)
  | o :: ops' => let '(a, st') := fifo_do cap st o in let '(as', st'') := fifo_run cap st' ops' in (a :: as', st'')
  end.

(** Threads inside [push_locked] and [pop_locked]. *)
Definition is_push {B} (x : nat * queue_op B) : bool := match x.2 with q_push _ => true | _ => false end.
Definition is_pop {B} (x : nat * queue_op B) : bool := match x.2 with q_pop => true | _ => false end.
Definition pushing {B} (m : Monitor B) : nat := length (can_push_ m) + length (List.filter is_push (mon_woken m)).
Definition popping {B} (m : Monitor B) : nat := length (can_pop_ m) + length (List.filter is_pop (mon_woken m)).

(** No thread calls [push_locked] ([pop_locked]) while another is in it. *)
Definition one_pusher {B} (m : Monitor B) (e : mon_event B) : Prop :=
  match e with me_call _ _ (q_push _) => pushing m = 0%nat | _ => True end.
Definition one_popper {B} (m : Monitor B) (e : mon_event B) : Prop :=
  match e with me_call _ _ q_pop => popping m = 0%nat | _ => True end.

Fixpoint throughout {B} (moved_from : B → B) (P : Monitor B → mon_event B → Prop) (m : Monitor B) (es : list (mon_event B)) : Prop :=
  match es with
  | [] => True
  | e :: es' =>
      P m e ∧ match mon_step moved_from m e with None => True | Some (_, m') => throughout moved_from P m' es' end
  end.

(** **** What returns, returns what the FIFO gives *)

Lemma fifo_run_app {B} cap st (l1 l2 : list (queue_op B)) :
  fifo_run cap st (l1 ++ l2) =
  let '(a1, st1) := fifo_run cap st l1 in let '(a2, st2) := fifo_run cap st1 l2 in (a1 ++ a2, st2).
Proof.
  revert st. induction l1 as [|o l1 IH]; intros st; cbn [app fifo_run]; [by destruct (fifo_run cap st l2)|].
  destruct (fifo_do cap st o) as [a st']. rewrite IH. destruct (fifo_run cap st' l1) as [a1 st1]. by destruct (fifo_run cap st1 l2).
Qed.

Lemma wake_push_queue {B} sel (m : Monitor B) : mon_queue (wake_push sel m) = mon_queue m.
Proof. unfold wake_push. by destruct (sel _). Qed.
Lemma wake_pop_queue {B} sel (m : Monitor B) : mon_queue (wake_pop sel m) = mon_queue m.
Proof. unfold wake_pop. by destruct (sel _). Qed.
Lemma notify_queue {B} k q o code (m : Monitor B) : mon_queue (notify k q o code m) = mon_queue m.
Proof. destruct o; cbn [notify]; repeat case_decide; by rewrite ?wake_pop_queue, ?wake_push_queue. Qed.
Lemma sleep_queue {B} t o (m : Monitor B) : mon_queue (sleep t o m) = mon_queue m.
Proof. by destruct o. Qed.

Definition abstract {B} (m : Monitor B) : list B * bool := (waiting (mon_queue m), closed_ (mon_queue m)).

(** An attempt, by what the FIFO answers. *)
Lemma attempt_cases {B} (moved_from : B → B) k t o m : queue_ok (mon_queue m) →
  let out := fifo_do (capacity_ (mon_queue m)) (abstract m) o in
  ∃ q, queue_ok q ∧ capacity_ q = capacity_ (mon_queue m) ∧ (waiting q, closed_ q) = out.2 ∧
    attempt moved_from k t o m =
      match out.1 with
      | None => Some ([], sleep t o (set_queue q m))
      | Some (code, b) => Some ([(o, Some (code, b))], notify k (mon_queue m) o code (set_queue q m))
      end.
Proof.
  intros Hok. destruct (queue_do_refines moved_from _ o Hok) as (q & Hq & Hok' & Hcap & Hst). exists q.
  split; [done|]. split; [done|]. split; [done|]. unfold attempt. rewrite Hq. unfold abstract.
  by destruct (fifo_do _ _ o).1 as [[code b]|].
Qed.

Lemma fifo_waits_same {B} cap st (o : queue_op B) : (fifo_do cap st o).1 = None → (fifo_do cap st o).2 = st.
Proof. destruct st as [items closed], o; cbn; repeat case_match; done. Qed.

Lemma attempt_refines {B} (moved_from : B → B) k t o m : queue_ok (mon_queue m) →
  ∃ out m', attempt moved_from k t o m = Some (out, m') ∧ queue_ok (mon_queue m') ∧
    capacity_ (mon_queue m') = capacity_ (mon_queue m) ∧
    fifo_run (capacity_ (mon_queue m)) (abstract m) out.*1 = (out.*2, abstract m').
Proof.
  intros Hok. destruct (attempt_cases moved_from k t o m Hok) as (q & Hq & Hcap & Hst & ->).
  assert (Hw := fifo_waits_same (capacity_ (mon_queue m)) (abstract m) o).
  destruct (fifo_do (capacity_ (mon_queue m)) (abstract m) o) as [[[code b]|] st] eqn:Hdo; cbn [fst snd] in *; eexists _, _; (split; [done|]).
  - unfold abstract at 2. rewrite notify_queue. cbn [mon_queue set_queue fmap list_fmap fst snd]. split; [done|]. split; [done|].
    cbn [fifo_run]. by rewrite Hdo, Hst.
  - unfold abstract at 2. rewrite sleep_queue. cbn [mon_queue set_queue fmap list_fmap fifo_run]. split; [done|]. split; [done|].
    by rewrite Hst, Hw.
Qed.

Lemma mon_step_refines {B} (moved_from : B → B) m e : queue_ok (mon_queue m) →
  ∃ out m', mon_step moved_from m e = Some (out, m') ∧ queue_ok (mon_queue m') ∧
    capacity_ (mon_queue m') = capacity_ (mon_queue m) ∧
    fifo_run (capacity_ (mon_queue m)) (abstract m) out.*1 = (out.*2, abstract m').
Proof.
  intros Hok. destruct e as [k t o|k i|k|k]; cbn [mon_step].
  - by apply attempt_refines.
  - destruct (mon_woken m !! i) as [[t o]|]; [|by eexists _, _]. 
    exact (attempt_refines moved_from k t o (mkMonitor (mon_queue m) (can_push_ m) (can_pop_ m) (delete i (mon_woken m))) Hok).
  - eexists _, _. split; [done|]. unfold abstract at 2. by rewrite wake_push_queue.
  - eexists _, _. split; [done|]. unfold abstract at 2. by rewrite wake_pop_queue.
Qed.

(** **** Who sleeps *)

Lemma length_pick {A} k (l : list A) : (length (pick k l).1 + length (pick k l).2 = length l)%nat.
Proof.
  unfold pick. cbn [fst snd]. destruct l as [|x l]; [by rewrite drop_nil|].
  assert (Hi := Nat.mod_upper_bound k (length (x :: l)) ltac:(done)).
  rewrite length_take, length_drop, length_delete by (by apply lookup_lt_is_Some_2). lia.
Qed.
Lemma pick_one {A} k (l : list A) : (length l ≤ 1)%nat → (pick k l).2 = [].
Proof. intros H. destruct l as [|x [|]]; [done| |cbn in H; lia]. unfold pick. cbn [length]. by rewrite Nat.mod_1_r. Qed.

Lemma filter_pushes {B} (l : list (nat * B)) :
  length (List.filter is_push (map woken_push l)) = length l ∧ length (List.filter is_pop (map woken_push l)) = 0%nat.
Proof. induction l as [|x l [IH1 IH2]]; [done|]. split; [cbn; by rewrite IH1|exact IH2]. Qed.
Lemma filter_pops {B} (l : list nat) :
  length (List.filter is_pop (map (woken_pop (B := B)) l)) = length l ∧ length (List.filter is_push (map (woken_pop (B := B)) l)) = 0%nat.
Proof. induction l as [|x l [IH1 IH2]]; [done|]. split; [cbn; by rewrite IH1|exact IH2]. Qed.

(** Waking moves threads, it does not take them out of the call. *)
Definition fair_sel {A} (sel : list A → list A * list A) : Prop :=
  ∀ l, (length (sel l).1 + length (sel l).2 = length l)%nat.

Lemma wake_push_in {B} sel (m : Monitor B) : fair_sel sel →
  pushing (wake_push sel m) = pushing m ∧ popping (wake_push sel m) = popping m ∧ can_pop_ (wake_push sel m) = can_pop_ m.
Proof.
  intros Hs. specialize (Hs (can_push_ m)). unfold wake_push, pushing, popping. destruct (sel _) as [up rest]. cbn in *.
  rewrite !List.filter_app, !length_app. destruct (filter_pushes up) as [-> ->]. split_and!; [lia|lia|done].
Qed.
Lemma wake_pop_in {B} sel (m : Monitor B) : fair_sel sel →
  pushing (wake_pop sel m) = pushing m ∧ popping (wake_pop sel m) = popping m ∧ can_push_ (wake_pop sel m) = can_push_ m.
Proof.
  intros Hs. specialize (Hs (can_pop_ m)). unfold wake_pop, pushing, popping. destruct (sel _) as [up rest]. cbn in *.
  rewrite !List.filter_app, !length_app. destruct (filter_pops (B := B) up) as [-> ->]. split_and!; [lia|lia|done].
Qed.
Lemma everyone_fair {A} : fair_sel (everyone (A := A)).
Proof. intros l. cbn. lia. Qed.
Lemma pick_fair {A} k : fair_sel (pick (A := A) k).
Proof. intros l. apply length_pick. Qed.
#[local] Hint Resolve everyone_fair pick_fair : core.


Lemma notify_in {B} k q o code (m : Monitor B) :
  pushing (notify k q o code m) = pushing m ∧ popping (notify k q o code m) = popping m.
Proof.
  assert (Hpush := λ sel m, wake_push_in (B := B) sel m). assert (Hpop := λ sel m, wake_pop_in (B := B) sel m).
  destruct o; cbn [notify]; repeat case_decide;
    repeat match goal with
    | |- context [wake_pop ?sel ?x] => destruct (Hpop sel x ltac:(auto)) as (-> & -> & _)
    | |- context [wake_push ?sel ?x] => destruct (Hpush sel x ltac:(auto)) as (-> & -> & _)
    end; done.
Qed.

(** Whoever sleeps in [pop_locked] ([push_locked]) finds nothing to take (no
    room), and there is at most one of them. *)
Definition pop_rest {B} (m : Monitor B) : Prop :=
  (popping m ≤ 1)%nat ∧ (can_pop_ m ≠ [] → waiting (mon_queue m) = [] ∧ closed_ (mon_queue m) = false).
Definition push_rest {B} (m : Monitor B) : Prop :=
  (pushing m ≤ 1)%nat ∧ (can_push_ m ≠ [] →
     length (waiting (mon_queue m)) = capacity_ (mon_queue m) ∧ closed_ (mon_queue m) = false).

Lemma none_popping {B} (m : Monitor B) : popping m = 0%nat → can_pop_ m = [].
Proof. unfold popping. intros H. apply length_zero_iff_nil. lia. Qed.
Lemma none_pushing {B} (m : Monitor B) : pushing m = 0%nat → can_push_ m = [].
Proof. unfold pushing. intros H. apply length_zero_iff_nil. lia. Qed.

Lemma wake_pop_empties {B} sel (m : Monitor B) : (∀ l : list nat, (length l ≤ 1)%nat → (sel l).2 = []) → (popping m ≤ 1)%nat →
  can_pop_ (wake_pop sel m) = [].
Proof.
  intros Hs Hm. unfold wake_pop. specialize (Hs (can_pop_ m)). destruct (sel _) as [up rest]. cbn in *. apply Hs. unfold popping in Hm. lia.
Qed.
Lemma wake_push_empties {B} sel (m : Monitor B) : (∀ l : list (nat * B), (length l ≤ 1)%nat → (sel l).2 = []) → (pushing m ≤ 1)%nat →
  can_push_ (wake_push sel m) = [].
Proof.
  intros Hs Hm. unfold wake_push. specialize (Hs (can_push_ m)). destruct (sel _) as [up rest]. cbn in *. apply Hs. unfold pushing in Hm. lia.
Qed.

(** Does the operation notify [can_pop_] ([can_push_])? *)
Definition wakes_pop {B} (q : BufferQueue B) (o : queue_op B) (code : Z) : bool :=
  match o with
  | q_try_push _ | q_push _ => bool_decide (code = 0 ∧ count_ q = 0%nat)
  | q_close => bool_decide (count_ q = 0%nat)
  | _ => false
  end.
Definition wakes_push {B} (q : BufferQueue B) (o : queue_op B) (code : Z) : bool :=
  match o with
  | q_try_pop | q_pop => bool_decide (code = 0 ∧ count_ q = capacity_ q)
  | q_close => bool_decide (count_ q = capacity_ q)
  | _ => false
  end.

Lemma notify_pops {B} k q o code (m : Monitor B) : (popping m ≤ 1)%nat →
  can_pop_ (notify k q o code m) = if wakes_pop q o code then [] else can_pop_ m.
Proof.
  intros Hm. assert (Hpush := λ sel, wake_push_in (B := B) sel m).
  destruct o; cbn [notify wakes_pop]; repeat case_bool_decide; repeat case_decide; try done;
    try (rewrite wake_pop_empties; [done|by intros l; apply pick_one || done|]); try done;
    destruct (Hpush everyone everyone_fair) as (_ & ? & ?); try lia; try done;
    destruct (Hpush (pick k) (pick_fair k)) as (_ & ? & ?); done.
Qed.
Lemma notify_pushes {B} k q o code (m : Monitor B) : (pushing m ≤ 1)%nat →
  can_push_ (notify k q o code m) = if wakes_push q o code then [] else can_push_ m.
Proof.
  intros Hm. assert (Hpop := λ sel x, wake_pop_in (B := B) sel x).
  destruct o; cbn [notify wakes_push]; repeat case_bool_decide; repeat case_decide; try done;
    repeat match goal with |- context [wake_pop ?sel ?x] => destruct (Hpop sel x ltac:(auto)) as (_ & _ & ->) end;
    try (rewrite wake_push_empties; [done|by intros l; apply pick_one || done|]); done.
Qed.

Lemma attempt_pop_rest {B} (moved_from : B → B) k t o m out m' : queue_ok (mon_queue m) → pop_rest m →
  (o = q_pop → popping m = 0%nat) → attempt moved_from k t o m = Some (out, m') → pop_rest m'.
Proof.
  intros Hok [H1 Hs] Ho Hat. destruct (attempt_cases moved_from k t o m Hok) as (q & Hq & Hcap & Hst & Heq).
  rewrite Heq in Hat. clear Heq. assert (Hlen := length_waiting _ Hok). assert (Hc := q_pos _ Hok). unfold abstract in *.
  destruct (fifo_do _ _ o).1 as [[code b]|] eqn:Hdo; injection Hat as _ <-.
  - split; [by rewrite (proj2 (notify_in _ _ _ _ _))|]. rewrite notify_queue, notify_pops by done. cbn [mon_queue set_queue can_pop_].
    destruct (wakes_pop (mon_queue m) o code) eqn:Hwk; [done|]. intros Hne. destruct (Hs Hne) as [Hw Hcl].
    rewrite Hw, Hcl in *. cbn in Hlen. destruct o; cbn [fifo_do fst snd wakes_pop] in *; try (by injection Hst); try done;
      try (rewrite bool_decide_false in Hdo by (cbn; lia); injection Hdo as <- <-); by rewrite bool_decide_true in Hwk.
  - assert (Hst' := fifo_waits_same _ _ _ Hdo). rewrite Hst' in Hst. injection Hst as Hw Hcl.
    destruct o; cbn [sleep]; unfold pop_rest; cbn [mon_queue set_queue can_pop_]; rewrite Hw, Hcl; try (by split).
    unfold popping in *. cbn [can_pop_ mon_woken set_queue] in *. split; [rewrite length_app; cbn; specialize (Ho eq_refl); lia|]. intros _.
    cbn in Hdo. destruct (waiting (mon_queue m)); [|done]. by destruct (closed_ (mon_queue m)).
Qed.

Lemma attempt_push_rest {B} (moved_from : B → B) k t o m out m' : queue_ok (mon_queue m) → push_rest m →
  (∀ b, o = q_push b → pushing m = 0%nat) → attempt moved_from k t o m = Some (out, m') → push_rest m'.
Proof.
  intros Hok [H1 Hs] Ho Hat. destruct (attempt_cases moved_from k t o m Hok) as (q & Hq & Hcap & Hst & Heq).
  rewrite Heq in Hat. clear Heq. assert (Hlen := length_waiting _ Hok). assert (Hc := q_pos _ Hok). unfold abstract in *.
  destruct (fifo_do _ _ o).1 as [[code b]|] eqn:Hdo; injection Hat as _ <-.
  - split; [by rewrite (proj1 (notify_in _ _ _ _ _))|]. rewrite notify_queue, notify_pushes by done. cbn [mon_queue set_queue can_push_].
    destruct (wakes_push (mon_queue m) o code) eqn:Hwk; [done|]. intros Hne. destruct (Hs Hne) as [Hw Hcl].
    rewrite Hcl in *. rewrite Hcap. destruct o; cbn [fifo_do fst snd wakes_push] in *;
      rewrite ?bool_decide_true in Hst by done; rewrite ?bool_decide_true in Hdo by done; try (by injection Hst as -> ->); try done.
    + destruct (waiting (mon_queue m)); [by injection Hst as -> ->|]. injection Hdo as <- <-. rewrite bool_decide_true in Hwk; [done|]. split; [done|]. congruence.
    + destruct (waiting (mon_queue m)); [by injection Hst as -> ->|]. injection Hdo as <- <-. rewrite bool_decide_true in Hwk; [done|]. split; [done|]. congruence.
    + rewrite bool_decide_true in Hwk by congruence. done.
  - assert (Hst' := fifo_waits_same _ _ _ Hdo). rewrite Hst' in Hst. injection Hst as Hw Hcl.
    destruct o; cbn [sleep]; unfold push_rest; cbn [mon_queue set_queue can_push_]; rewrite Hw, Hcl, Hcap; try (by split).
    unfold pushing in *. cbn [can_push_ mon_woken set_queue] in *. split; [rewrite length_app; cbn; specialize (Ho _ eq_refl); lia|]. intros _.
    cbn in Hdo. destruct (closed_ (mon_queue m)); [done|]. by case_bool_decide.
Qed.
Lemma filter_delete {A} (f : A → bool) (l : list A) i x : l !! i = Some x →
  length (List.filter f l) = (length (List.filter f (delete i l)) + if f x then 1 else 0)%nat.
Proof.
  intros (l1 & l2 & -> & ->)%list_elem_of_split_length. rewrite delete_middle, !List.filter_app, !length_app. cbn.
  destruct (f x); cbn; lia.
Qed.

Lemma mon_step_pop_rest {B} (moved_from : B → B) m e out m' : queue_ok (mon_queue m) → pop_rest m → one_popper m e →
  mon_step moved_from m e = Some (out, m') → pop_rest m'.
Proof.
  intros Hok Hr He Hst. destruct e as [k t o|k i|k|k]; cbn [mon_step one_popper] in *.
  - eapply attempt_pop_rest; [done|done| |done]. by intros ->.
  - destruct (mon_woken m !! i) as [[t o]|] eqn:Hi; [|by injection Hst as _ <-].
    assert (Hd := filter_delete is_pop _ _ _ Hi). destruct Hr as [H1 Hs]. unfold popping in H1.
    refine (attempt_pop_rest moved_from k t o (mkMonitor _ _ _ _) _ _ Hok _ _ Hst).
    { split; [unfold popping; cbn; lia|done]. }
    intros ->. unfold popping. cbn in *. lia.
  - injection Hst as _ <-. unfold pop_rest. rewrite wake_push_queue. by destruct (wake_push_in (pick k) m (pick_fair k)) as (_ & -> & ->).
  - injection Hst as _ <-. unfold pop_rest. destruct Hr as [H1 Hs]. destruct (wake_pop_in (pick k) m (pick_fair k)) as (_ & -> & _).
    split; [done|]. by rewrite wake_pop_empties by (done || apply pick_one).
Qed.

Lemma mon_step_push_rest {B} (moved_from : B → B) m e out m' : queue_ok (mon_queue m) → push_rest m → one_pusher m e →
  mon_step moved_from m e = Some (out, m') → push_rest m'.
Proof.
  intros Hok Hr He Hst. destruct e as [k t o|k i|k|k]; cbn [mon_step one_pusher] in *.
  - eapply attempt_push_rest; [done|done| |done]. by intros b ->.
  - destruct (mon_woken m !! i) as [[t o]|] eqn:Hi; [|by injection Hst as _ <-].
    assert (Hd := filter_delete is_push _ _ _ Hi). destruct Hr as [H1 Hs]. unfold pushing in H1.
    refine (attempt_push_rest moved_from k t o (mkMonitor _ _ _ _) _ _ Hok _ _ Hst).
    { split; [unfold pushing; cbn; lia|done]. }
    intros b ->. unfold pushing. cbn in *. lia.
  - injection Hst as _ <-. unfold push_rest. destruct Hr as [H1 Hs]. destruct (wake_push_in (pick k) m (pick_fair k)) as (-> & _).
    split; [done|]. by rewrite wake_push_empties by (done || apply pick_one).
  - injection Hst as _ <-. unfold push_rest. rewrite wake_pop_queue. by destruct (wake_pop_in (pick k) m (pick_fair k)) as (-> & _ & ->).
Qed.

(** Along a run. *)
Lemma mon_run_ok {B} (moved_from : B → B) es m : queue_ok (mon_queue m) →
  ∃ log m', mon_run moved_from m es = Some (log, m') ∧
    fifo_run (capacity_ (mon_queue m)) (abstract m) log.*1 = (log.*2, abstract m') ∧
    capacity_ (mon_queue m') = capacity_ (mon_queue m) ∧
    (pop_rest m → throughout moved_from one_popper m es → pop_rest m') ∧
    (push_rest m → throughout moved_from one_pusher m es → push_rest m').
Proof.
  revert m. induction es as [|e es IH]; intros m Hok; [by exists [], m|]. cbn [mon_run throughout].
  destruct (mon_step_refines moved_from m e Hok) as (out & m1 & Hst & Hok1 & Hcap1 & Hf1). rewrite Hst.
  destruct (IH m1 Hok1) as (log & m2 & -> & Hf2 & Hcap2 & Hpop & Hpush). exists (out ++ log), m2. split; [done|].
  rewrite !fmap_app, fifo_run_app, Hf1, <- Hcap1, Hf2. split; [done|]. split; [done|]. split.
  - intros Hr [He Hes]. apply Hpop; [exact (mon_step_pop_rest moved_from m e out m1 Hok Hr He Hst)|done].
  - intros Hr [He Hes]. apply Hpush; [exact (mon_step_push_rest moved_from m e out m1 Hok Hr He Hst)|done].
Qed.


(** Two threads asleep in [pop_locked] and two pushes: only the first push
    notifies, so after the thread it woke has taken the first element, the
    other sleeps on beside the second, and closing the queue does not wake it
    either. *)
Lemma queue_lost_wakeup : ∃ log m,
  mon_run keep_elem (monitor_new 0 4)
    [me_call 0 1 q_pop; me_call 0 2 q_pop; me_call 0 3 (q_push 7); me_call 0 3 (q_push 8); me_resume 0 0; me_call 0 3 q_close] =
    Some (log, m) ∧ can_pop_ m = [2%nat] ∧ mon_woken m = [] ∧ waiting (mon_queue m) = [8] ∧ closed_ (mon_queue m) = true.
Proof. eexists _, _. vm_compute. done. Qed.

(** ** common::MessageChannel: the same ring without closing *)

Section channel.
Context {T : Type}.

Record MessageChannel : Type := mkChannel {
  ch_pos : nat; ch_count : nat; ch_capacity : nat; mItems : list T;
}.

(** The slot, or [None] while the thread waits. *)
Definition before_write (c : MessageChannel) : option nat :=
  if decide (ch_capacity c ≤ ch_count c)%nat then None
  else let result := (ch_pos c + ch_count c)%nat in
       Some (if decide (ch_capacity c ≤ result)%nat then result - ch_capacity c else result)%nat.
Definition after_write (c : MessageChannel) : MessageChannel :=
  mkChannel (ch_pos c) (ch_count c + 1) (ch_capacity c) (mItems c).
Definition before_read (c : MessageChannel) : option nat :=
  if decide (ch_count c = 0%nat) then None else Some (ch_pos c).
Definition after_read (c : MessageChannel) : MessageChannel :=
  mkChannel (if decide (ch_pos c + 1 = ch_capacity c)%nat then 0 else ch_pos c + 1) (ch_count c - 1)
    (ch_capacity c) (mItems c).

Definition channel_send (msg : T) (c : MessageChannel) : option MessageChannel :=
  match before_write c with
  | None => None
  | Some pos => Some (after_write (mkChannel (ch_pos c) (ch_count c) (ch_capacity c) (<[pos := msg]> (mItems c))))
  end.
Definition channel_receive (c : MessageChannel) : option (option T * MessageChannel) :=
  match before_read c with
  | None => None
  | Some pos => Some (mItems c !! pos, after_read c)
  end.

Definition as_queue (c : MessageChannel) : BufferQueue T :=
  mkQueue (ch_capacity c) (ch_pos c) (ch_count c) false (mItems c).

Lemma channel_send_queue msg c : queue_ok (as_queue c) →
  match channel_send msg c with
  | None => length (waiting (as_queue c)) = ch_capacity c
  | Some c' => queue_ok (as_queue c') ∧ waiting (as_queue c') = waiting (as_queue c) ++ [msg]
  end.
Proof.
  intros Hok. assert (Hp := try_push_ok msg (as_queue c) Hok). assert (Hl := length_waiting _ Hok).
  assert (Hc := q_count _ Hok). unfold try_push_locked in Hp. unfold channel_send, before_write.
  change (closed_ (as_queue c)) with false in Hp. change (capacity_ (as_queue c)) with (ch_capacity c) in *.
  change (count_ (as_queue c)) with (ch_count c) in *. cbv iota in Hp.
  destruct (decide (ch_capacity c ≤ ch_count c)%nat) as [Hfull|Hfull]; [lia|]. destruct Hp as (Hok' & _ & Hw & _). done.
Qed.

Lemma channel_receive_queue c : queue_ok (as_queue c) →
  match channel_receive c with
  | None => waiting (as_queue c) = []
  | Some (m, c') => queue_ok (as_queue c') ∧ ∃ x, m = Some x ∧ waiting (as_queue c) = x :: waiting (as_queue c')
  end.
Proof.
  intros Hok. assert (Hp := try_pop_ok (λ x, x) (as_queue c) Hok). assert (Hl := length_waiting _ Hok).
  assert (Hpos := q_pos _ Hok). unfold try_pop_locked in Hp. unfold channel_receive, before_read.
  change (closed_ (as_queue c)) with false in Hp. change (capacity_ (as_queue c)) with (ch_capacity c) in *.
  change (count_ (as_queue c)) with (ch_count c) in *. change (pos_ (as_queue c)) with (ch_pos c) in *.
  change (buffers_ (as_queue c)) with (mItems c) in Hp.
  destruct (waiting (as_queue c)) as [|x rest] eqn:Hw; cbn in Hl; [by rewrite decide_True by lia|].
  rewrite decide_False in Hp by lia. rewrite decide_False by lia. destruct Hp as (q' & Hq & Hok' & Hw' & _).
  destruct (mItems c !! ch_pos c) as [y|] eqn:Hy; [|done]. injection Hq as -> <-.
  rewrite list_insert_id in Hok', Hw' by done.
  assert (Heq : as_queue (after_read c) = mkQueue (ch_capacity c) (wrap_pos (ch_capacity c) (ch_pos c + 1)) (ch_count c - 1) false (mItems c)).
  { unfold as_queue, after_read, wrap_pos. cbn. f_equal. repeat case_decide; lia. }
  rewrite Heq. split; [done|]. exists x. by rewrite Hw'.
Qed.
End channel.

(** ** graphics::BufferedIOStream *)

Definition keep (b : bytes) : bytes := b.

Record IOStream : Type := mkStream {
  read_buffer_ : bytes;
  read_buffer_left_ : nat;
  in_queue_ : BufferQueue bytes;
  out_queue_ : BufferQueue bytes;
}.

Definition stream_new : IOStream := mkStream [] 0 (queue_new [] 1024) (queue_new [] 16).

Definition set_in (b : bytes) (left : nat) (q : BufferQueue bytes) (s : IOStream) : IOStream :=
  mkStream b left q (out_queue_ s).

Inductive read_result : Type :=
  | read_ok (data : bytes)     (* the buffer and the length read *)
  | read_null
  | read_waits                 (* blocked in [pop_locked] *)
  | read_undefined
  | read_more.                 (* the loop has to be run further *)

(** The loop of [read]: [dst] is what has been copied so far. *)
Fixpoint read_loop (fuel : nat) (wanted : nat) (dst : bytes) (s : IOStream) : read_result * IOStream :=
  match fuel with
  | O => (read_more, s)
  | S fuel' =>
      if decide (length dst < wanted)%nat then
        if decide (0 < read_buffer_left_ s)%nat then
          let avail := Nat.min (wanted - length dst) (read_buffer_left_ s) in
          let from := drop (length (read_buffer_ s) - read_buffer_left_ s) (read_buffer_ s) in
          read_loop fuel' wanted (dst ++ take avail from)
            (set_in (read_buffer_ s) (read_buffer_left_ s - avail) (in_queue_ s) s)
        else if decide (length dst = 0%nat) then
          match pop_locked keep (in_queue_ s) with
          | pop_waits => (read_waits, s)
          | pop_undefined => (read_undefined, s)
          | pop_done _ (Some b) q => read_loop fuel' wanted dst (set_in b (length b) q s)
          | pop_done _ None q => (read_null, set_in (read_buffer_ s) 0 q s)
          end
        else
          match try_pop_locked keep (in_queue_ s) with
          | None => (read_undefined, s)
          | Some (_, Some b, q) => read_loop fuel' wanted dst (set_in b (length b) q s)
          | Some (_, None, q) => (read_ok dst, set_in (read_buffer_ s) 0 q s)
          end
      else (read_ok dst, s)
  end.

(** Every round copies the rest of a buffer, takes a buffer or ends. *)
Definition read_fuel (s : IOStream) : nat := 2 * count_ (in_queue_ s) + 3.

Definition stream_read (wanted : nat) (s : IOStream) : read_result * IOStream :=
  read_loop (read_fuel s) wanted [] s.

(** [None]: the pipe's thread waits for room. *)
Definition post_data (data : bytes) (s : IOStream) : option IOStream :=
  match push_locked data (in_queue_ s) with
  | None => None
  | Some (_, q) => Some (set_in (read_buffer_ s) (read_buffer_left_ s) q s)
  end.

Definition needs_data (s : IOStream) : bool := negb (can_pop_locked (in_queue_ s)).

Definition forceStop (s : IOStream) : IOStream :=
  mkStream (read_buffer_ s) (read_buffer_left_ s) (close_locked (in_queue_ s)) (close_locked (out_queue_ s)).

(** [write_buffer] is the memory [allocBuffer] handed out; committing more
    than it has is a failed assertion. *)
Definition commitBuffer (write_buffer : bytes) (size : nat) (s : IOStream) : option (option (nat * IOStream)) :=
  if decide (size ≤ length write_buffer)%nat then
    match push_locked (take size write_buffer) (out_queue_ s) with
    | None => Some None
    | Some (_, q) => Some (Some (size, mkStream (read_buffer_ s) (read_buffer_left_ s) (in_queue_ s) q))
    end
  else None.

(** The worker's inner loop over [send_raw] results: [inl errno] or [inr n]
    bytes written; what was written, and whether the buffer is done. *)
Fixpoint write_loop (results : list (Z + nat)) (left : bytes) (sent : bytes) : bytes * bool :=
  match left, results with
  | [], _ => (sent, true)
  | _, [] => (sent, false)
  | _, inl errno :: rs =>
      if decide (errno ≠ EINTR ∧ errno ≠ EAGAIN) then (sent, true) else write_loop rs left sent
  | _, inr n :: rs => write_loop rs (drop n left) (sent ++ take n left)
  end.

(** One round of [thread_main]. *)
Inductive round : Type := round_waits | round_ends | round_wrote (sent : bytes) (finished : bool) (s : IOStream) | round_undefined.
Definition thread_round (results : list (Z + nat)) (s : IOStream) : round :=
  match pop_locked keep (out_queue_ s) with
  | pop_waits => round_waits
  | pop_undefined => round_undefined
  | pop_done code b q =>
      if decide (code ≠ 0 ∧ code ≠ - EAGAIN) then round_ends
      else
        let buffer := default [] b in
        let '(sent, fin) := write_loop results buffer [] in
        round_wrote sent fin (mkStream (read_buffer_ s) (read_buffer_left_ s) (in_queue_ s) q)
  end.

(** *** Reading is reading a byte stream *)

Definition unread (s : IOStream) : bytes :=
  drop (length (read_buffer_ s) - read_buffer_left_ s) (read_buffer_ s).
(** The bytes still to be read, in order. *)
Definition pending (s : IOStream) : bytes := unread s ++ concat (waiting (in_queue_ s)).

Record stream_ok (s : IOStream) : Prop := mk_stream_ok {
  s_left : (read_buffer_left_ s ≤ length (read_buffer_ s))%nat;
  s_in : queue_ok (in_queue_ s);
}.

Lemma length_unread s : stream_ok s → length (unread s) = read_buffer_left_ s.
Proof. intros [Hl _]. unfold unread. rewrite length_drop. lia. Qed.

Lemma unread_done b q s : unread (set_in b 0 q s) = [].
Proof. unfold unread. cbn. apply drop_ge. lia. Qed.

Lemma unread_fresh b q s : unread (set_in b (length b) q s) = b.
Proof. unfold unread. cbn. by rewrite Nat.sub_diag. Qed.

(** Copying [n] of the unread bytes. *)
Lemma unread_advance s n q : stream_ok s → (n ≤ read_buffer_left_ s)%nat →
  unread (set_in (read_buffer_ s) (read_buffer_left_ s - n) q s) = drop n (unread s).
Proof. intros [Hl _] Hn. unfold unread. cbn. rewrite drop_drop. f_equal. lia. Qed.

(** What the loop returns and leaves, as a function of the pending bytes. *)
Definition read_spec (wanted : nat) (dst : bytes) (s : IOStream) (out : read_result * IOStream) : Prop :=
  stream_ok out.2 ∧ closed_ (in_queue_ out.2) = closed_ (in_queue_ s) ∧ out_queue_ out.2 = out_queue_ s ∧
  if decide (dst ++ pending s = [] ∧ (0 < wanted)%nat) then
    out.1 = (if closed_ (in_queue_ s) then read_null else read_waits) ∧ pending out.2 = []
  else out.1 = read_ok (take wanted (dst ++ pending s)) ∧ pending out.2 = drop wanted (dst ++ pending s).

(** Rounds the loop can still make. *)
Definition rounds (s : IOStream) : nat :=
  2 * count_ (in_queue_ s) + (if decide (0 < read_buffer_left_ s)%nat then 1 else 0) + 1.

Lemma waiting_nil q : queue_ok (B := bytes) q → waiting q = [] ↔ count_ q = 0%nat.
Proof. intros Hok. rewrite <- (length_waiting q Hok). by destruct (waiting q). Qed.

(** Taking the next buffer changes nothing about what is pending. *)
Lemma pop_pending s b rest : stream_ok s → read_buffer_left_ s = 0%nat →
  waiting (in_queue_ s) = b :: rest →
  ∃ q, try_pop_locked keep (in_queue_ s) = Some (0, Some b, q) ∧ stream_ok (set_in b (length b) q s) ∧
    pending (set_in b (length b) q s) = pending s ∧ closed_ q = closed_ (in_queue_ s) ∧
    (rounds (set_in b (length b) q s) < rounds s)%nat.
Proof.
  intros [Hl Hq] H0 Hw. assert (Hp := try_pop_ok keep _ Hq). rewrite Hw in Hp.
  destruct Hp as (q & Hp & Hok & Hw' & Hc & _). exists q. split; [done|].
  split; [split; [cbn; lia|done]|]. split; [|split; [done|]].
  - unfold pending. rewrite unread_fresh. cbn [in_queue_ set_in]. rewrite Hw', Hw.
    assert (Hu : unread s = []) by (unfold unread; rewrite H0; apply drop_ge; lia). by rewrite Hu.
  - unfold rounds. cbn [in_queue_ set_in read_buffer_left_]. rewrite H0.
    rewrite <- (length_waiting _ Hok), <- (length_waiting _ Hq), Hw', Hw. cbn [length]. repeat case_decide; lia.
Qed.

Lemma read_spec_step wanted dst s dst' s' out :
  dst ++ pending s = dst' ++ pending s' → closed_ (in_queue_ s') = closed_ (in_queue_ s) →
  out_queue_ s' = out_queue_ s → read_spec wanted dst' s' out → read_spec wanted dst s out.
Proof. unfold read_spec. intros -> -> ->. done. Qed.

Lemma read_loop_spec fuel wanted dst s :
  stream_ok s → (length dst ≤ wanted)%nat → (0 < fuel)%nat →
  (length dst < wanted → rounds s ≤ fuel)%nat →
  read_spec wanted dst s (read_loop fuel wanted dst s).
Proof.
  revert dst s. induction fuel as [|fuel IH]; intros dst s Hok Hle Hf Hr; [lia|]. cbn [read_loop].
  destruct (decide (length dst < wanted)%nat) as [Hlt|Hge].
  2: { assert (wanted = length dst) as -> by lia. unfold read_spec. cbn [fst snd]. split; [done|]. split; [done|]. split; [done|].
       rewrite decide_False; [by rewrite take_app_length, drop_app_length|].
       intros [[-> _]%app_nil ?]. cbn in *. lia. }
  specialize (Hr Hlt). destruct (decide (0 < read_buffer_left_ s)%nat) as [Hleft|Hleft].
  - set (avail := Nat.min _ _). fold (unread s). assert (Hav : (avail ≤ read_buffer_left_ s)%nat) by (unfold avail; lia).
    assert (Hlen : length (take avail (unread s)) = avail) by (rewrite length_take, length_unread by done; lia).
    eapply read_spec_step; [| | |apply IH].
    + unfold pending. rewrite unread_advance by done. cbn [in_queue_ set_in].
      by rewrite <- app_assoc, (app_assoc (take _ _)), take_drop.
    + done.
    + done.
    + destruct Hok. split; [cbn; lia|done].
    + rewrite length_app, Hlen. unfold avail. lia.
    + unfold rounds in Hr. rewrite decide_True in Hr by done. lia.
    + rewrite length_app, Hlen. intros Hlt'. unfold rounds in *. cbn [in_queue_ set_in read_buffer_left_].
      rewrite decide_True in Hr by done. rewrite decide_False; [lia|]. unfold avail in *. lia.
  - assert (H0 : read_buffer_left_ s = 0%nat) by lia.
    assert (Hu : unread s = []) by (unfold unread; rewrite H0; apply drop_ge; lia).
    assert (Hend : waiting (in_queue_ s) = [] → pending s = [] ∧
      ∀ q, q = in_queue_ s → stream_ok (set_in (read_buffer_ s) 0 q s) ∧ pending (set_in (read_buffer_ s) 0 q s) = []).
    { intros Hw. split; [unfold pending; by rewrite Hu, Hw|]. intros q ->. split; [split; [cbn; lia|by destruct Hok]|].
      unfold pending. rewrite unread_done. cbn [in_queue_ set_in]. by rewrite Hw. }
    destruct (waiting (in_queue_ s)) as [|b rest] eqn:Hw.
    + destruct (Hend eq_refl) as [Hpend Hs']. assert (Hc0 : count_ (in_queue_ s) = 0%nat) by (apply waiting_nil; [by destruct Hok|done]).
      destruct (decide (length dst = 0%nat)) as [Hd|Hd].
      * apply length_zero_iff_nil in Hd as ->. unfold pop_locked. rewrite decide_True by done. unfold read_spec.
        rewrite Hpend. rewrite decide_True by (split; [done|cbn in Hlt; lia]).
        destruct (closed_ (in_queue_ s)) eqn:Ecl; cbn [fst snd]; [|by rewrite Ecl].
        destruct (Hs' _ eq_refl). by rewrite <- Ecl.
      * unfold try_pop_locked. rewrite decide_True by done. unfold read_spec. rewrite Hpend.
        destruct (Hs' _ eq_refl). rewrite decide_False by (intros [[-> _]%app_nil _]; done).
        rewrite app_nil_r, take_ge, drop_ge by lia. done.
    + destruct (pop_pending s b rest Hok H0 Hw) as (q & Hp & Hok' & Hpend & Hcl & Hrd).
      assert (Hne : count_ (in_queue_ s) ≠ 0%nat) by (intros Hc; apply waiting_nil in Hc; [congruence|by destruct Hok]).
      assert (Hstep : read_spec wanted dst s (read_loop fuel wanted dst (set_in b (length b) q s))).
      { assert (1 ≤ rounds (set_in b (length b) q s))%nat by (unfold rounds; lia).
        apply (read_spec_step wanted dst s dst (set_in b (length b) q s)); [by rewrite Hpend|exact Hcl|done|].
        apply IH; [done|done|lia|lia]. }
      unfold pop_locked. rewrite (decide_False (P := count_ _ = _)) by done. rewrite Hp. by destruct (decide (length dst = 0%nat)).
Qed.

(** ** ReadBuffer *)

Section read_buffer.
Variable junk : nat → bytes.   (* fresh memory *)
Hypothesis length_junk : ∀ n, length (junk n) = n.

Record ReadBuffer : Type := mkReadBuffer {
  m_size : nat;
  m_buf : bytes;
  m_validData : nat;
  m_readPtr : nat;       (* offset in [m_buf] *)
}.

Definition read_buffer_new (bufsize : nat) : ReadBuffer := mkReadBuffer bufsize (junk bufsize) 0 0.

(** [memcpy] to an offset. *)
Definition write_at (off : nat) (data : bytes) (buf : bytes) : bytes :=
  take off buf ++ data ++ drop (off + length data) buf.

(** The size the buffer is grown to: doubled in [size_t], with the code's test
    for overflow. *)
Definition grown_size (size : nat) : Z :=
  let new_size := u64 (Z.of_nat size * 2) in
  if new_size <? Z.of_nat size then INT_MAX else new_size.

(** [realloc] to [new_size] bytes: [None] when it fails, as it does whenever
    [mem] is [false] and for objects larger than [PTRDIFF_MAX]. *)
Definition realloc (mem : bool) (buf : bytes) (new_size : Z) : option bytes :=
  if mem && (new_size <=? PTRDIFF_MAX) then
    let n := Z.to_nat new_size in
    Some (take n buf ++ junk (n - length buf))
  else None.

(** [len = m_size - m_validData], growing the buffer when that is 0: the new
    size and memory, or [None] when there is no memory for it. *)
Definition make_room (mem : bool) (rb : ReadBuffer) (buf : bytes) : option (nat * bytes) :=
  if decide (m_size rb - m_validData rb = 0)%nat then
    match realloc mem buf (grown_size (m_size rb)) with
    | None => None
    | Some new_buf => Some (Z.to_nat (grown_size (m_size rb)), new_buf)
    end
  else Some (m_size rb, buf).

(** The [int] returned; [None] while the stream's [read] blocks or when it is
    undefined (a shrunk buffer would be written past its end).  A failed
    [realloc] returns before [m_readPtr] is set. *)
Definition getData (mem : bool) (rb : ReadBuffer) (s : IOStream) : option (Z * ReadBuffer * IOStream) :=
  let buf := if decide (0 < m_validData rb ∧ 0 < m_readPtr rb)%nat
             then write_at 0 (take (m_validData rb) (drop (m_readPtr rb) (m_buf rb))) (m_buf rb)
             else m_buf rb in
  match make_room mem rb buf with
  | None => Some (-1, mkReadBuffer (m_size rb) buf (m_validData rb) (m_readPtr rb), s)
  | Some (size, buf) =>
      if decide (size < m_validData rb)%nat then None
      else
        let len := (size - m_validData rb)%nat in
        match stream_read len s with
        | (read_ok data, s') =>
            Some (i32 (Z.of_nat (length data)),
                  mkReadBuffer size (write_at (m_validData rb) data buf) (m_validData rb + length data) 0, s')
        | (read_null, s') => Some (-1, mkReadBuffer size buf (m_validData rb) 0, s')
        | _ => None
        end
  end.

(** Consuming more than is valid is a failed assertion. *)
Definition consume (amount : nat) (rb : ReadBuffer) : option ReadBuffer :=
  if decide (amount ≤ m_validData rb)%nat
  then Some (mkReadBuffer (m_size rb) (m_buf rb) (m_validData rb - amount) (m_readPtr rb + amount)) else None.

Definition window (rb : ReadBuffer) : bytes := take (m_validData rb) (drop (m_readPtr rb) (m_buf rb)).

Record read_buffer_ok (rb : ReadBuffer) : Prop := mk_rb_ok {
  rb_size : length (m_buf rb) = m_size rb;
  rb_window : (m_readPtr rb + m_validData rb ≤ m_size rb)%nat;
  rb_positive : (0 < m_size rb)%nat;
  rb_object : Z.of_nat (m_size rb) ≤ PTRDIFF_MAX;
}.

(** The buffer is full and cannot be grown. *)
Definition no_room (mem : bool) (rb : ReadBuffer) : Prop :=
  m_validData rb = m_size rb ∧ (mem = false ∨ PTRDIFF_MAX < 2 * Z.of_nat (m_size rb)).
#[global] Instance no_room_dec mem rb : Decision (no_room mem rb).
Proof. unfold no_room. apply _. Defined.

Lemma length_window rb : read_buffer_ok rb → length (window rb) = m_validData rb.
Proof. intros [H1 H2 _ _]. unfold window. rewrite length_take, length_drop. lia. Qed.

Lemma length_write_at off data buf : (off + length data ≤ length buf)%nat → length (write_at off data buf) = length buf.
Proof. intros H. unfold write_at. rewrite !length_app, length_take, length_drop. lia. Qed.

Lemma take_write_at off data buf : (off + length data ≤ length buf)%nat →
  take (off + length data) (write_at off data buf) = take off buf ++ data.
Proof.
  intros H. unfold write_at. rewrite app_assoc. apply take_app_length'. rewrite length_app, length_take. lia.
Qed.

(** The memory after moving the window to the front. *)
Lemma moved_front rb : read_buffer_ok rb →
  let buf := if decide (0 < m_validData rb ∧ 0 < m_readPtr rb)%nat then write_at 0 (window rb) (m_buf rb) else m_buf rb in
  length buf = m_size rb ∧ take (m_validData rb) buf = window rb.
Proof.
  intros Hok buf. assert (Hlen := length_window rb Hok). destruct Hok as [H1 H2 _ _]. unfold buf. case_decide as Hd.
  - split; [rewrite length_write_at; lia|]. rewrite <- Hlen. change (length (window rb)) with (0 + length (window rb))%nat at 1.
    rewrite take_write_at by lia. done.
  - split; [done|]. unfold window. destruct (decide (m_validData rb = 0%nat)) as [->|]; [by rewrite !take_0|].
    assert (m_readPtr rb = 0%nat) as -> by lia. done.
Qed.

(** Doubling does not overflow. *)
Lemma grown_size_eq n : Z.of_nat n ≤ PTRDIFF_MAX → grown_size n = 2 * Z.of_nat n.
Proof.
  unfold PTRDIFF_MAX, grown_size. intros Hn. unfold u64. rewrite wrap_small by (change (2 ^ 64) with 18446744073709551616; lia).
  destruct (Z.ltb_spec (Z.of_nat n * 2) (Z.of_nat n)); lia.
Qed.

Lemma make_room_ok mem rb buf : read_buffer_ok rb → length buf = m_size rb →
  match make_room mem rb buf with
  | None => no_room mem rb
  | Some (size, buf') => ~ no_room mem rb ∧ length buf' = size ∧ (m_validData rb < size)%nat ∧
      Z.of_nat size ≤ PTRDIFF_MAX ∧ take (m_validData rb) buf' = take (m_validData rb) buf
  end.
Proof.
  intros [H1 H2 H3 H4] Hb. unfold make_room, no_room. case_decide as Hd; [|split_and!; [intros [? _]; lia|done|lia|done|done]].
  rewrite grown_size_eq by done. unfold realloc. destruct mem; cbn [andb]; [|split; [lia|by left]].
  destruct (Z.leb_spec (2 * Z.of_nat (m_size rb)) PTRDIFF_MAX) as [Hle|Hgt]; [|split; [lia|by right]].
  split; [intros [_ [?|?]]; [done|lia]|]. rewrite length_app, length_take, length_junk, Hb.
  rewrite take_app_le by (rewrite length_take; lia). rewrite take_take. split_and!; [lia|lia|lia|]. f_equal. lia.
Qed.

(** What the decoder gets, on every branch. *)
Definition get_spec (mem : bool) (rb : ReadBuffer) (s : IOStream) (res : option (Z * ReadBuffer * IOStream)) : Prop :=
  if decide (no_room mem rb) then
    ∃ rb', res = Some (-1, rb', s) ∧ read_buffer_ok rb' ∧ window rb' = window rb
  else if decide (pending s = []) then
    if closed_ (in_queue_ s) then
      ∃ rb' s', res = Some (-1, rb', s') ∧ read_buffer_ok rb' ∧ stream_ok s' ∧ window rb' = window rb ∧ pending s' = []
    else res = None
  else ∃ n rb' s', (0 < n)%nat ∧ (n ≤ length (pending s))%nat ∧ res = Some (i32 (Z.of_nat n), rb', s') ∧
    read_buffer_ok rb' ∧ stream_ok s' ∧ window rb' = window rb ++ take n (pending s) ∧ pending s' = drop n (pending s).

Lemma getData_spec mem rb s : read_buffer_ok rb → stream_ok s → get_spec mem rb s (getData mem rb s).
Proof.
  intros Hok Hs. destruct (moved_front rb Hok) as [Hlb Htb]. unfold getData, get_spec. fold (window rb).
  set (buf := if decide (_ ∧ _)%nat then _ else _) in *. assert (Hr := make_room_ok mem rb buf Hok Hlb).
  destruct (make_room mem rb buf) as [[size buf2]|].
  2: { rewrite decide_True by done. eexists. split; [done|]. destruct Hok as [H1 H2 H3 H4], Hr as [Hfull _].
       split; [split; cbn; lia|]. unfold window at 1. cbn [m_readPtr m_buf m_validData].
       assert (m_readPtr rb = 0%nat) as -> by lia. by rewrite drop_0. }
  destruct Hr as (Hroom & Hsz & Hv & Hobj & Ht). rewrite Htb in Ht. clearbody buf. rewrite decide_False by done.
  destruct (decide (size < m_validData rb)%nat) as [?|_]; [lia|].
  set (len := (size - m_validData rb)%nat). assert (Hlen : (0 < len)%nat) by (unfold len; lia).
  assert (Hread := read_loop_spec (read_fuel s) len [] s Hs ltac:(cbn; lia) ltac:(unfold read_fuel; lia)
    ltac:(intros _; unfold rounds, read_fuel; destruct (decide (0 < read_buffer_left_ s)%nat); lia)).
  fold (stream_read len s) in Hread. destruct (stream_read len s) as [res s']. unfold read_spec in Hread.
  cbn [fst snd app] in Hread. destruct Hread as (Hs' & Hcl & _ & Hres).
  destruct (decide (pending s = [])) as [Hp|Hp].
  - rewrite decide_True in Hres by done. destruct Hres as [-> Hp'].
    destruct (closed_ (in_queue_ s)); [|done]. eexists _, _. split; [done|].
    split; [split; cbn; lia|]. split; [done|]. split; [|done]. unfold window at 1. cbn. by rewrite drop_0.
  - rewrite decide_False in Hres by (intros [? _]; done). destruct Hres as [-> Hp'].
    exists (Nat.min len (length (pending s))). eexists _, s'. assert (Hlp : (0 < length (pending s))%nat) by (destruct (pending s); [done|cbn; lia]).
    assert (Htk : take (Nat.min len (length (pending s))) (pending s) = take len (pending s)).
    { destruct (Nat.min_spec len (length (pending s))) as [[? ->]|[? ->]]; [done|]. by rewrite !take_ge by lia. }
    rewrite Htk. split; [lia|]. split; [lia|].
    assert (Hlt : length (take len (pending s)) = Nat.min len (length (pending s))) by apply length_take.
    split; [by rewrite Hlt|]. split; [split; cbn; [rewrite length_write_at; unfold len in *; lia|unfold len in *; lia|lia|lia]|].
    split; [done|]. split; [|rewrite Hp'].
    + unfold window at 1. cbn [m_validData m_readPtr m_buf]. rewrite drop_0.
      rewrite <- Hlt, take_write_at by (unfold len in *; lia). by rewrite Ht.
    + destruct (Nat.min_spec len (length (pending s))) as [[? ->]|[? ->]]; [done|]. rewrite !drop_ge by lia. done.
Qed.
End read_buffer.

(** ** From the pipe to the decoder *)

Inductive stream_op : Type :=
  | st_post (data : bytes)     (* the pipe's thread *)
  | st_get (mem : bool)        (* the decoder asks for more; is there memory to grow its buffer? *)
  | st_consume (n : nat)       (* and has processed some *)
  | st_stop.

(** Read buffer and stream, with the bytes the stream took and the decoder
    consumed so far.  A call that blocks leaves everything as it is. *)
Record Flow : Type := mkFlow { rb : ReadBuffer; io : IOStream; taken : bytes; consumed : bytes }.

Definition flow_do (junk : nat → bytes) (f : Flow) (o : stream_op) : Flow :=
  match o with
  | st_post data =>
      match post_data data (io f) with
      | None => f
      | Some s' =>
          mkFlow (rb f) s' (taken f ++ if closed_ (in_queue_ (io f)) then [] else data) (consumed f)
      end
  | st_get mem =>
      match getData junk mem (rb f) (io f) with
      | None => f
      | Some (_, rb', s') => mkFlow rb' s' (taken f) (consumed f)
      end
  | st_consume n =>
      match consume n (rb f) with
      | None => f
      | Some rb' => mkFlow rb' (io f) (taken f) (consumed f ++ take n (window (rb f)))
      end
  | st_stop => mkFlow (rb f) (forceStop (io f)) (taken f) (consumed f)
  end.

Record flow_ok (f : Flow) : Prop := mk_flow_ok {
  fl_rb : read_buffer_ok (rb f);
  fl_io : stream_ok (io f);
  fl_order : consumed f ++ window (rb f) ++ pending (io f) = taken f;
}.

Lemma post_data_pending data s s' : stream_ok s → post_data data s = Some s' →
  stream_ok s' ∧ pending s' = pending s ++ if closed_ (in_queue_ s) then [] else data.
Proof.
  intros [Hl Hq] Hp. unfold post_data, push_locked in Hp. assert (Hpush := try_push_ok data _ Hq).
  destruct (closed_ (in_queue_ s)) eqn:Ecl.
  - assert (Hs' : s' = set_in (read_buffer_ s) (read_buffer_left_ s) (in_queue_ s) s).
    { destruct (decide (count_ (in_queue_ s) = capacity_ (in_queue_ s))); [by injection Hp|].
      destruct (try_push_locked data (in_queue_ s)) as [c q], Hpush as [_ [_ ->]]. by injection Hp. }
    subst s'. split; [by split|]. by rewrite app_nil_r.
  - destruct (decide (count_ (in_queue_ s) = capacity_ (in_queue_ s))) as [Hf|Hf]; [done|].
    destruct (try_push_locked data (in_queue_ s)) as [c q], Hpush as [Hq' Hr]. injection Hp as <-.
    assert (Hc := q_count _ Hq). rewrite decide_False in Hr by lia. destruct Hr as (_ & Hw & _).
    split; [by split|]. unfold pending, unread. cbn. rewrite Hw, concat_app. cbn. by rewrite app_nil_r, app_assoc.
Qed.

Lemma flow_do_ok junk f o : (∀ n, length (junk n) = n) → flow_ok f → flow_ok (flow_do junk f o).
Proof.
  intros Hj Hok. assert (Hok' := Hok). destruct Hok' as [Hrb Hio Hord]. destruct o as [data|mem|n|]; cbn [flow_do].
  - destruct (post_data data (io f)) as [s'|] eqn:Hp; [|done].
    destruct (post_data_pending _ _ _ Hio Hp) as [Hs' Hpend]. split; [done|done|]. cbn. by rewrite Hpend, <- Hord, !app_assoc.
  - assert (Hg := getData_spec junk Hj mem (rb f) (io f) Hrb Hio). unfold get_spec in Hg. repeat case_decide.
    + destruct Hg as (rb' & -> & ? & Hw). split; [done|done|]. cbn. by rewrite Hw.
    + destruct (closed_ (in_queue_ (io f))); [|by rewrite Hg].
      destruct Hg as (rb' & s' & -> & ? & ? & Hw & Hp'). split; [done|done|]. cbn. rewrite Hw, Hp', <- Hord. congruence.
    + destruct Hg as (n & rb' & s' & _ & _ & -> & ? & ? & Hw & Hp'). split; [done|done|]. cbn.
      rewrite Hw, Hp', <- Hord. rewrite <- (app_assoc (window (rb f))). by rewrite take_drop.
  - unfold consume. case_decide as Hn; [|done]. destruct Hrb as [H1 H2 H3 H4]. split; [split; cbn; lia|done|]. cbn [rb io taken consumed].
    rewrite <- Hord, <- app_assoc. f_equal. rewrite app_assoc. f_equal.
    assert (Hw : window (mkReadBuffer (m_size (rb f)) (m_buf (rb f)) (m_validData (rb f) - n) (m_readPtr (rb f) + n)) = drop n (window (rb f))).
    { unfold window. cbn. rewrite <- drop_drop, skipn_firstn_comm. done. }
    by rewrite Hw, take_drop.
  - destruct Hio as [Hl Hq]. split; [done|split; [done|]|done]. by destruct Hq.
Qed.

(** ** Properties *)



