(* ===== verification/Rect.v ===== *)
(** * Rectangles (src/src/anbox/graphics/rect.h, rect.cpp)

    Coordinates are [std::int32_t]; sums and differences wrap.  The textual
    form "w,h" or "l,t,r,b" is what the command line accepts. *)

From S2P Require Import Prelude Utils.

Record Rect : Type := mkRect { left_ : Z; top_ : Z; right_ : Z; bottom_ : Z }.

#[global] Instance Rect_eq_dec : EqDecision Rect.
Proof. solve_decision. Defined.

Definition Rect_Invalid : Rect := mkRect (-1) (-1) (-1) (-1).
Definition Rect_Empty : Rect := mkRect 0 0 0 0.
Definition Rect_size (width height : Z) : Rect := mkRect 0 0 width height.

Definition width (r : Rect) : Z := i32 (right_ r - left_ r).
Definition height (r : Rect) : Z := i32 (bottom_ r - top_ r).
Definition valid (r : Rect) : bool := bool_decide (0 ≤ width r) && bool_decide (0 ≤ height r).
Definition rect_eqb (a b : Rect) : bool := bool_decide (a = b).

Definition merge (a rhs : Rect) : Rect :=
  mkRect (Z.min (left_ a) (left_ rhs)) (Z.min (top_ a) (top_ rhs))
    (Z.max (right_ a) (right_ rhs)) (Z.max (bottom_ a) (bottom_ rhs)).

Definition translate (r : Rect) (x y : Z) : Rect :=
  mkRect x y (i32 (x + width r)) (i32 (y + height r)).

Definition resize (r : Rect) (w h : Z) : Rect :=
  mkRect (left_ r) (top_ r) (i32 (left_ r + w)) (i32 (top_ r + h)).

Definition wf_rect (r : Rect) : Prop :=
  is_i32 (left_ r) ∧ is_i32 (top_ r) ∧ is_i32 (right_ r) ∧ is_i32 (bottom_ r).

(** ** Reading and printing *)

Fixpoint take_word (l : bytes) : bytes :=
  match l with
  | c :: l' => if is_space c then [] else c :: take_word l'
  | [] => []
  end.

(** [in >> str]. *)
Definition first_word (s : string) : string :=
  string_of_bytes (take_word (drop_spaces (bytes_of_string s))).

(** [in >> rect]: a bad number throws, which is caught with [rect] unchanged. *)
Definition read_rect (input : string) (rect : Rect) : Rect :=
  match string_split (first_word input) comma with
  | [a; b] =>
      match lexical_cast_i32 a, lexical_cast_i32 b with
      | Some x, Some y => mkRect 0 0 x y
      | _, _ => rect
      end
  | [a; b; c; d] =>
      match lexical_cast_i32 a, lexical_cast_i32 b, lexical_cast_i32 c, lexical_cast_i32 d with
      | Some x, Some y, Some z, Some w => mkRect x y z w
      | _, _, _, _ => rect
      end
  | _ => rect
  end.

(** [out << rect]. *)
Definition print_rect (r : Rect) : string :=
  "{" +:+ format_d (left_ r) +:+ "," +:+ format_d (top_ r) +:+ "," +:+ format_d (right_ r) +:+ ","
    +:+ format_d (bottom_ r) +:+ "} {" +:+ format_d (width r) +:+ "," +:+ format_d (height r) +:+ "}".

(** ** Lemmas *)

Definition contains (a b : Rect) : Prop :=
  left_ a ≤ left_ b ∧ top_ a ≤ top_ b ∧ right_ b ≤ right_ a ∧ bottom_ b ≤ bottom_ a.

#[global] Instance contains_preorder : PreOrder contains.
Proof. split; unfold contains; [intros a|intros a b c]; lia. Qed.

Lemma i32_add_sub x w : i32 (i32 (x + w) - x) = i32 w.
Proof. rewrite !i32_unfold. Z.div_mod_to_equations. lia. Qed.

Lemma i32_add_i32 x w : i32 (x + i32 w) = i32 (x + w).
Proof. rewrite !i32_unfold. Z.div_mod_to_equations. lia. Qed.

Lemma width_range r : is_i32 (width r) ∧ is_i32 (height r).
Proof. split; apply i32_range. Qed.

Lemma take_word_nospace l : Forall (λ c, is_space c = false) l → take_word l = l.
Proof. induction 1 as [|c l Hc _ IH]; cbn; [done|]. by rewrite Hc, IH. Qed.

Lemma drop_spaces_nospace l : Forall (λ c, is_space c = false) l → drop_spaces l = l.
Proof. destruct 1 as [|c l Hc]; cbn; [done|]. by rewrite Hc. Qed.

Lemma first_word_nospace s :
  Forall (λ c, is_space c = false) (bytes_of_string s) → first_word s = s.
Proof.
  intros H. unfold first_word. rewrite drop_spaces_nospace, take_word_nospace by done.
  apply string_of_bytes_of_string.
Qed.

Lemma format_d_nospace n : is_i32 n → Forall (λ c, is_space c = false) (bytes_of_string (format_d n)).
Proof.
  intros Hn. eapply Forall_impl; [|exact (proj2 (format_d_chars n Hn))]. cbn. intros c Hc.
  unfold is_space. apply bool_decide_eq_false. lia.
Qed.

Lemma bytes_of_join sep ts :
  Forall (λ t, Forall (λ c, is_space c = false) (bytes_of_string t)) ts →
  is_space (byte_of_ascii sep) = false →
  Forall (λ c, is_space c = false) (bytes_of_string (join sep ts)).
Proof.
  intros Hts Hsep. induction Hts as [|t ts Ht Hts IH]; [constructor|].
  destruct ts as [|t' ts]; [done|]. cbn [join] in *. rewrite bytes_of_string_app. cbn.
  apply Forall_app. split; [done|]. by constructor.
Qed.

(** Splitting a comma-separated list of printed numbers gives them back. *)
Lemma split_numbers ns : ns ≠ [] → Forall is_i32 ns →
  string_split (first_word (join comma (map format_d ns))) comma = map format_d ns.
Proof.
  intros Hne Hns. rewrite first_word_nospace.
  - apply split_at_join; [by destruct ns|]. apply List.Forall_map.
    eapply Forall_impl; [|exact Hns]. cbn. intros n Hn. split.
    + intros E. apply (proj1 (format_d_chars n Hn)). by rewrite E.
    + apply format_d_no_char; [done|change (byte_of_ascii comma) with 44; lia..].
  - apply bytes_of_join; [|done]. apply List.Forall_map.
    eapply Forall_impl; [|exact Hns]. cbn. apply format_d_nospace.
Qed.

(** ** Properties *)

(** [merge] is the least upper bound of rectangles under inclusion: it
    contains both operands, any rectangle that contains both contains it, and
    it stays within the coordinates' width. *)
Theorem rect_merge_lub a b :
  contains (merge a b) a ∧ contains (merge a b) b ∧
  (∀ c, contains c a → contains c b → contains c (merge a b)) ∧
  merge a b = merge b a ∧ merge a a = a ∧ (wf_rect a → wf_rect b → wf_rect (merge a b)).
Proof.
  unfold contains, merge, wf_rect, is_i32; destruct a, b; cbn.
  split_and!; try lia; try (intros []; cbn; lia); f_equal; lia.
Qed.

(** Moving a rectangle keeps its size and resizing sets it, for every
    position and size of 32 bits, also when the far corner wraps; moving back
    restores the rectangle. *)
Theorem rect_translate_resize r x y w h :
  wf_rect r → is_i32 w → is_i32 h →
  width (translate r x y) = width r ∧ height (translate r x y) = height r ∧
  width (resize r w h) = w ∧ height (resize r w h) = h ∧
  translate (translate r x y) (left_ r) (top_ r) = r.
Proof.
  intros (Hl & Ht & Hr & Hb) Hw Hh.
  assert (Htr : width (translate r x y) = width r ∧ height (translate r x y) = height r).
  { unfold width at 1, height at 1, translate. cbn. rewrite !i32_add_sub.
    unfold width, height. by rewrite !i32_idemp. }
  destruct Htr as [Hw' Hh']. split_and!; [done|done|..].
  - unfold width, resize. cbn. rewrite i32_add_sub. by apply i32_small.
  - unfold height, resize. cbn. rewrite i32_add_sub. by apply i32_small.
  - unfold translate at 1. rewrite Hw', Hh'. unfold width, height. rewrite !i32_add_i32.
    destruct r as [l t r b]; cbn in *. f_equal; rewrite Zplus_minus; by apply i32_small.
Qed.

(** Reading back what the command line writes: a list of two or four
    printed 32-bit numbers separated by commas sets exactly that rectangle,
    and any other number of values leaves the rectangle as it was. *)
Theorem rect_read_numbers ns old :
  Forall is_i32 ns → ns ≠ [] →
  read_rect (join comma (map format_d ns)) old =
    match ns with
    | [w; h] => Rect_size w h
    | [l; t; r; b] => mkRect l t r b
    | _ => old
    end.
Proof.
  intros Hns Hne. unfold read_rect. rewrite split_numbers by done.
  destruct ns as [|? [|? [|? [|? [|? ?]]]]]; cbn [map]; try done;
    repeat match goal with H : Forall _ (_ :: _) |- _ =>
      apply Forall_cons_iff in H as [? ?] end;
    by rewrite !lexical_cast_format_d.
Qed.

Lemma rect_translate_resize_witness :
  wf_rect (mkRect 0 0 10 20) ∧ width (translate (mkRect 0 0 10 20) 2147483647 5) = 10.
Proof.
  assert (H : wf_rect (mkRect 0 0 10 20)) by (unfold wf_rect, is_i32; cbn; lia). split; [exact H|].
  apply (rect_translate_resize (mkRect 0 0 10 20) 2147483647 5 1 1 H); unfold is_i32; lia.
Defined.

Lemma rect_read_numbers_witness : read_rect "-5,0,1024,768" Rect_Empty = mkRect (-5) 0 1024 768.
Proof.
  apply (rect_read_numbers [-5; 0; 1024; 768] Rect_Empty); [|discriminate].
  repeat constructor; unfold is_i32; lia.
Defined.
