(* ===== verification/Network.v ===== *)
(** * Network layer (src/src/anbox/network)

    Senders, the table of open connections, a connection's read loop, the
    acceptors that create connections, and the file-descriptor transmission
    over Unix sockets.  What a socket delivers is an argument: the error code
    or bytes of a completed read, and the successive results of [recvmsg]. *)

From S2P Require Import Prelude Utils.

(** ** MessageSender: a socket that is connected or raises *)

Record Sender : Type := mkSender { connected : bool; wire : list bytes }.

Definition send (data : bytes) : M Sender unit :=
  s ← get;
  if connected s then put (mkSender true (wire s ++ [data]))
  else throw (runtime_error "send").

Lemma send_connected s d :
  connected s = true → send d s = Val (mkSender true (wire s ++ [d])) tt.
Proof. intros Hs. unfold send. run_m. by rewrite Hs. Qed.

(** ** MessageProcessor: the interface a connection drives *)

Class MessageProcessor (P : Type) : Type := processor_data : bytes → M P bool.

(** ** Connections<Connection> *)

Section connections.
Context {C : Type}.

(** [std::map::insert] keeps an existing entry. *)
Definition add (id : Z) (c : C) (cs : gmap Z C) : gmap Z C :=
  match cs !! id with Some _ => cs | None => <[id := c]> cs end.
Definition remove (id : Z) (cs : gmap Z C) : gmap Z C := delete id cs.
Definition includes (id : Z) (cs : gmap Z C) : bool := bool_decide (is_Some (cs !! id)).
Definition clear (cs : gmap Z C) : gmap Z C := ∅.
Definition conn_size (cs : gmap Z C) : nat := size cs.
Definition conn_at (n : Z) : M (gmap Z C) C :=
  cs ← get;
  match cs !! n with Some c => mret c | None => throw out_of_range end.
End connections.

(** ** SocketConnection *)

(** A registered connection: its processor, and whether an asynchronous read
    is outstanding. *)
Record Connection (P : Type) : Type := mkConnection { processor : P; reading : bool }.
Arguments mkConnection {_} _ _.
Arguments processor {_} _.
Arguments reading {_} _.

Section socket_connection.
Context {P : Type} `{MessageProcessor P}.

Definition read_next_message (id : Z) : M (gmap Z (Connection P)) unit :=
  modify (alter (λ c, mkConnection (processor c) true) id).

(** The completion handler of the outstanding read: [inl] an error code,
    [inr] the bytes read.  The handler holds a bare [this]: the connection
    lives only as long as it is registered. *)
Definition on_read_size (id : Z) (completed : Z + bytes) : M (gmap Z (Connection P)) unit := λ cs,
  match cs !! id with
  | None => Ub
  | Some c =>
      match completed with
      | inl _ => Val (remove id cs) tt
      | inr data =>
          match processor_data data (processor c) with
          | Val p true => read_next_message id (<[id := mkConnection p false]> cs)
          | Val p false => Val (remove id (<[id := mkConnection p false]> cs)) tt
          | Exc p e => Exc (<[id := mkConnection p false]> cs) e
          | Ub => Ub
          end
      end
  end.
End socket_connection.

(** ** rpc::ConnectionCreator: at most one client *)

Record Creator (P : Type) : Type := mkCreator {
  next_connection_id_ : Z;
  connections_ : gmap Z (Connection P);
  refused : nat;
}.
Arguments mkCreator {_} _ _ _.
Arguments next_connection_id_ {_} _.
Arguments connections_ {_} _.
Arguments refused {_} _.

Section creator.
Context {P : Type} `{MessageProcessor P}.
Variable message_processor_factory_ : P.

Definition create_connection_for : M (Creator P) unit :=
  s ← get;
  if decide (1 ≤ conn_size (connections_ s))%nat
  then put (mkCreator (next_connection_id_ s) (connections_ s) (S (refused s)))
  else
    let id := next_connection_id_ s in
    put (mkCreator (i32 (id + 1))
           (add id (mkConnection message_processor_factory_ false) (connections_ s)) (refused s))
      ≫= λ _,
    zoom connections_ (λ cs s, mkCreator (next_connection_id_ s) cs (refused s))
      (read_next_message id).

Definition connection_event (id : Z) (completed : Z + bytes) : M (Creator P) unit :=
  zoom connections_ (λ cs s, mkCreator (next_connection_id_ s) cs (refused s))
    (on_read_size id completed).
End creator.

(** ** Acceptors

    [accepting] says that an asynchronous accept is outstanding; [create] is
    the connection creator. *)

Definition operation_aborted : Z := 125.

Section acceptor.
Context {S : Type}.
Variable create : M S unit.

Definition start_accept : M (bool * S) unit := modify (λ s, (true, s.2)).
Definition in_creator {A} : M S A → M (bool * S) A := zoom snd (λ x s, (s.1, x)).

(** PublishedSocketConnector: any error but a cancelled accept re-arms. *)
Definition published_on_new_connection (err : Z) : M (bool * S) unit :=
  modify (λ s, (false, s.2)) ≫= λ _,
  (if decide (err = 0) then in_creator create else mret tt) ≫= λ _,
  if decide (err = operation_aborted) then mret tt else start_accept.

(** TcpSocketConnector: any error ends the listening. *)
Definition tcp_on_new_connection (err : Z) : M (bool * S) unit :=
  modify (λ s, (false, s.2)) ≫= λ _,
  if decide (err = 0) then in_creator create ≫= λ _, start_accept else mret tt.
End acceptor.

(** ** remove_socket_if_stale

    [exists_] and [is_socket] are [stat]'s answer for the path, [table] the
    lines of /proc/net/unix and [removable] whether [std::remove] succeeds. *)

Definition socket_file_exists (exists_ is_socket : bool) : bool := exists_ && is_socket.

(** [line.find(p)] is the first occurrence; it has to end the line. *)
Fixpoint first_occurrence (p : bytes) (line : bytes) (i : nat) : option nat :=
  if decide (take (length p) line = p) then Some i
  else match line with
       | [] => None
       | _ :: line' => first_occurrence p line' (S i)
       end.

Definition socket_exists (table : list bytes) (socket_name : bytes) : bool :=
  let socket_path := 32 :: socket_name in
  existsb (λ line,
    match first_occurrence socket_path line 0 with
    | Some index => Nat.eqb (index + length socket_path) (length line)
    | None => false
    end) table.

Inductive stale_result : Type := kept | removed_stale | remove_failed.

Definition remove_socket_if_stale (exists_ is_socket removable : bool) (table : list bytes)
    (socket_name : bytes) : stale_result :=
  if socket_file_exists exists_ is_socket && negb (socket_exists table socket_name)
  then if removable then removed_stale else remove_failed
  else kept.

(** ** fd_socket_transmission *)

Definition EAGAIN : Z := 11.
Definition EPIPE : Z := 32.
Definition SOL_SOCKET : Z := 1.
Definition SCM_RIGHTS : Z := 1.
Definition SCM_CREDENTIALS : Z := 2.

(** A control message: its level, type and the descriptors it carries. *)
Record cmsg : Type := mkCmsg { cmsg_level : Z; cmsg_type : Z; cmsg_fds : list Z }.

(** A result of [recvmsg]: an errno, or data with an optional control message
    and whether [MSG_CTRUNC] was set. *)
Inductive recv : Type :=
  | recv_error (errno : Z)
  | recv_data (data : bytes) (control : option cmsg) (ctrunc : bool).

(** What [send_fds] hands to [sendmsg]: one dummy byte and one control
    message. *)
Definition send_fds (fds : list Z) : option recv :=
  if decide (0 < length fds)%nat
  then Some (recv_data [77] (Some (mkCmsg SOL_SOCKET SCM_RIGHTS fds)) false)
  else None.

Definition socket_error_is_transient (error_code : Z) : bool := bool_decide (error_code = EINTR).

(** The caller's descriptor vector, the buffer read so far, how many
    descriptors were read, and the descriptors closed. *)
Record Reception : Type := mkReception {
  fds : list Z;
  received : bytes;
  fds_read : nat;
  closed : list Z;
}.

(** [fds[fds_read + i] = data[i]] *)
Definition store_fds (at_ : nat) (new fds : list Z) : list Z :=
  take at_ fds ++ new ++ drop (at_ + length new) fds.

Definition handle_control (c : cmsg) (ctrunc : bool) (room : nat) : M Reception unit :=
  if decide (cmsg_level c = SOL_SOCKET ∧ cmsg_type c = SCM_CREDENTIALS)
  then throw (runtime_error "received SCM_CREDENTIALS when expecting fd")
  else if decide (cmsg_level c ≠ SOL_SOCKET ∨ cmsg_type c ≠ SCM_RIGHTS)
  then throw (runtime_error "Invalid control message for receiving file descriptors")
  else if bool_decide (room < length (cmsg_fds c))%nat || ctrunc
  then modify (λ s, mkReception (fds s) (received s) (fds_read s) (closed s ++ cmsg_fds c)) ≫= λ _,
       throw (runtime_error "Received more fds than expected")
  else modify (λ s, mkReception (store_fds (fds_read s) (cmsg_fds c) (fds s)) (received s)
                      (fds_read s + length (cmsg_fds c)) (closed s)).

(** [None]: the results are exhausted, [recvmsg] still blocks. *)
Fixpoint receive_loop (results : list recv) (requested : nat) (s : Reception) :
    option (outcome Reception unit) :=
  if decide (requested ≤ length (received s))%nat then Some (Val s tt)
  else
    match results with
    | [] => None
    | recv_error errno :: rs =>
        if socket_error_is_transient errno then receive_loop rs requested s
        else if decide (errno = EAGAIN) then receive_loop rs requested s
        else if decide (errno = EPIPE) then Some (Exc s (runtime_error "disconnected"))
        else Some (Exc s (system_error errno))
    | recv_data [] _ _ :: _ => Some (Exc s (runtime_error "disconnected"))
    | recv_data data control ctrunc :: rs =>
        let s1 := mkReception (fds s) (received s ++ data) (fds_read s) (closed s) in
        match control with
        | None => receive_loop rs requested s1
        | Some c =>
            match handle_control c ctrunc (length (fds s) - fds_read s) s1 with
            | Val s2 _ => receive_loop rs requested s2
            | r => Some r
            end
        end
    end.

Definition receive_data (results : list recv) (requested : nat) (fds0 : list Z) :
    option (outcome Reception unit) :=
  let s0 := mkReception fds0 [] 0 [] in
  if decide (requested = O) then Some (Exc s0 (logic_error "Attempted to receive 0 bytes"))
  else
    match receive_loop results requested s0 with
    | Some (Val s _) =>
        if decide (fds_read s < length (fds s))%nat
        then Some (Exc (mkReception [] (received s) (fds_read s)
                          (closed s ++ filter (λ fd, 0 ≤ fd) (fds s)))
                     (runtime_error "Received fewer fds than expected"))
        else Some (Val s tt)
    | r => r
    end.

(** * Theorems *)

(** ** The connection table *)

Definition all_reading {P} (cs : gmap Z (Connection P)) : Prop :=
  map_Forall (λ _ c, reading c = true) cs.

Section connection_proofs.
Context {P : Type} `{MessageProcessor P}.

Lemma all_reading_delete (cs : gmap Z (Connection P)) id :
  all_reading cs → all_reading (delete id cs).
Proof. intros Hr. by apply map_Forall_delete. Qed.

Lemma all_reading_insert (cs : gmap Z (Connection P)) id p :
  all_reading cs → all_reading (<[id := mkConnection p true]> cs).
Proof. intros Hr. by apply map_Forall_insert_2. Qed.

Lemma read_next_insert (cs : gmap Z (Connection P)) id p b :
  read_next_message id (<[id := mkConnection p b]> cs) = Val (<[id := mkConnection p true]> cs) tt.
Proof. unfold read_next_message. run_m. by rewrite alter_insert_eq. Qed.

(** The completion handler either re-arms the read or drops the connection. *)
Lemma on_read_size_val id r (cs cs' : gmap Z (Connection P)) :
  on_read_size id r cs = Val cs' tt → all_reading cs → all_reading cs'.
Proof.
  unfold on_read_size, remove. destruct (cs !! id) as [c|]; [|done].
  destruct r as [e|d]; [intros [= <-]; by apply all_reading_delete|].
  destruct (processor_data d (processor c)) as [p []| |]; [|..|done]; intros Heq Hr.
  - rewrite read_next_insert in Heq. injection Heq as <-. by apply all_reading_insert.
  - injection Heq as <-. rewrite delete_insert_eq. by apply all_reading_delete.
  - done.
Qed.

Lemma on_read_size_size id r (cs cs' : gmap Z (Connection P)) :
  on_read_size id r cs = Val cs' tt → (size cs' ≤ size cs)%nat.
Proof.
  unfold on_read_size, remove. destruct (cs !! id) as [c|] eqn:Hc; [|done].
  destruct r as [e|d]; [intros [= <-]; rewrite map_size_delete, Hc; lia|].
  destruct (processor_data d (processor c)) as [p []| |]; [|..|done]; intros Heq.
  - rewrite read_next_insert in Heq. injection Heq as <-. rewrite map_size_insert, Hc. done.
  - injection Heq as <-. rewrite delete_insert_eq, map_size_delete, Hc. lia.
  - done.
Qed.
End connection_proofs.

(** What happens to a creator: the acceptor hands it a client, or the
    outstanding read of a registered connection completes normally. *)
Inductive creator_step {P} `{MessageProcessor P} (factory : P) : Creator P → Creator P → Prop :=
  | step_accept s s' :
      create_connection_for factory s = Val s' tt → creator_step factory s s'
  | step_read s s' id c r :
      connections_ s !! id = Some c → reading c = true →
      connection_event id r s = Val s' tt → creator_step factory s s'.

Definition creator_ok {P} (s : Creator P) : Prop :=
  (size (connections_ s) ≤ 1)%nat ∧ all_reading (connections_ s).

Section creator_proofs.
Context {P : Type} `{MessageProcessor P}.
Variable factory : P.

Lemma create_full (s : Creator P) :
  (1 ≤ size (connections_ s))%nat →
  create_connection_for factory s
    = Val (mkCreator (next_connection_id_ s) (connections_ s) (S (refused s))) tt.
Proof. intros Hs. unfold create_connection_for, conn_size. run_m. by rewrite decide_True. Qed.

Lemma create_first (s : Creator P) :
  connections_ s = ∅ →
  create_connection_for factory s
    = Val (mkCreator (i32 (next_connection_id_ s + 1))
             {[next_connection_id_ s := mkConnection factory true]} (refused s)) tt.
Proof.
  intros Hs. unfold create_connection_for, conn_size, add. run_m. rewrite Hs.
  rewrite decide_False by (rewrite map_size_empty; lia). rewrite lookup_empty.
  cbn [connections_ next_connection_id_ refused].
  rewrite read_next_insert. run_m. done.
Qed.

Lemma creator_step_ok s s' : creator_step factory s s' → creator_ok s → creator_ok s'.
Proof.
  intros Hstep [Hsz Hr]. destruct Hstep as [s s' Hc|s s' id c r _ _ Hc].
  - destruct (decide (1 ≤ size (connections_ s))%nat) as [Hge|Hlt].
    + rewrite create_full in Hc by done. by injection Hc as <-.
    + assert (He : connections_ s = ∅) by (apply map_size_empty_iff; lia).
      rewrite create_first in Hc by done. injection Hc as <-. split; cbn.
      * by rewrite map_size_singleton.
      * by apply map_Forall_singleton.
  - unfold connection_event in Hc. run_m_in Hc.
    destruct (on_read_size id r (connections_ s)) as [cs []| |] eqn:E; [|done..].
    injection Hc as <-. split; cbn.
    + apply on_read_size_size in E. lia.
    + by eapply on_read_size_val.
Qed.

Lemma steps_ok s s' : rtc (creator_step factory) s s' → creator_ok s → creator_ok s'.
Proof. induction 1; eauto using creator_step_ok. Qed.
End creator_proofs.

(** ** Descriptor reception *)

Definition data_of (r : recv) : bytes := match r with recv_data d _ _ => d | _ => [] end.
Definition fds_of (r : recv) : list Z :=
  match r with recv_data _ (Some c) _ => cmsg_fds c | _ => [] end.

Definition reception_ok (s : Reception) (got : list Z) : Prop :=
  closed s = [] ∧ fds_read s = length got ∧ (length got ≤ length (fds s))%nat ∧
  take (fds_read s) (fds s) = got.

Lemma store_fds_ok s got new data :
  reception_ok s got → (length new ≤ length (fds s) - fds_read s)%nat →
  reception_ok (mkReception (store_fds (fds_read s) new (fds s)) (received s ++ data)
                  (fds_read s + length new) (closed s)) (got ++ new) ∧
  length (store_fds (fds_read s) new (fds s)) = length (fds s).
Proof.
  intros (Hc & Hn & Hle & Ht) Hroom. unfold store_fds.
  assert (Hlen : length (take (fds_read s) (fds s)) = fds_read s) by (rewrite length_take; lia).
  assert (Htot : length (take (fds_read s) (fds s) ++ new ++ drop (fds_read s + length new) (fds s))
                 = length (fds s)).
  { rewrite !length_app, Hlen, length_drop. lia. }
  split; [|done]. split_and!; cbn [closed fds_read fds]; [done|by rewrite length_app; lia| |].
  - rewrite Htot, length_app. lia.
  - rewrite Ht, app_assoc. apply take_app_length'. rewrite length_app. lia.
Qed.

Lemma handle_control_val c ctrunc s1 s2 u :
  handle_control c ctrunc (length (fds s1) - fds_read s1) s1 = Val s2 u →
  (length (cmsg_fds c) ≤ length (fds s1) - fds_read s1)%nat ∧
  s2 = mkReception (store_fds (fds_read s1) (cmsg_fds c) (fds s1)) (received s1)
         (fds_read s1 + length (cmsg_fds c)) (closed s1).
Proof.
  unfold handle_control. repeat case_decide; [done..|].
  case_bool_decide; cbn [orb]; [by destruct ctrunc|]. destruct ctrunc; [done|].
  run_m. intros [= <- _]. split; [lia|done].
Qed.

Lemma receive_loop_val results requested s s' got :
  reception_ok s got → receive_loop results requested s = Some (Val s' tt) →
  ∃ used rest, results = used ++ rest ∧
    received s' = received s ++ concat (map data_of used) ∧
    (requested ≤ length (received s'))%nat ∧
    length (fds s') = length (fds s) ∧
    reception_ok s' (got ++ concat (map fds_of used)).
Proof.
  revert s got. induction results as [|r results IH]; intros s got Hok; cbn [receive_loop].
  - case_decide; [|done]. intros [= <-]. exists [], []. cbn. by rewrite !app_nil_r.
  - case_decide as Hd.
    { intros [= <-]. exists [], (r :: results). cbn. by rewrite !app_nil_r. }
    destruct r as [errno|data control ctrunc].
    + assert (Hskip : receive_loop results requested s = Some (Val s' tt) → ∃ used rest,
        recv_error errno :: results = used ++ rest ∧
        received s' = received s ++ concat (map data_of used) ∧
        (requested ≤ length (received s'))%nat ∧ length (fds s') = length (fds s) ∧
        reception_ok s' (got ++ concat (map fds_of used))).
      { intros H'. destruct (IH _ _ Hok H') as (used & rest & -> & ?).
        by exists (recv_error errno :: used), rest. }
      destruct (socket_error_is_transient errno); [done|]. by repeat case_decide.
    + destruct data as [|z data]; [done|]. set (d := z :: data) in *.
      destruct control as [c|].
      * destruct (handle_control c ctrunc (length (fds s) - fds_read s) _) as [s2 []| |] eqn:Ec;
          [|done..]. intros Hl.
        apply (handle_control_val c ctrunc (mkReception (fds s) (received s ++ d) (fds_read s) (closed s)))
          in Ec as [Hroom ->]. cbn [fds fds_read received closed] in *.
        destruct (store_fds_ok s got (cmsg_fds c) d Hok Hroom) as [Hok2 Hlen2].
        destruct (IH _ _ Hok2 Hl) as (used & rest & -> & Hr & Hq & Hf & Ho).
        exists (recv_data d (Some c) ctrunc :: used), rest. cbn [map data_of fds_of concat received fds] in *.
        rewrite Hr, <- !app_assoc in *. by rewrite Hf, Hlen2.
      * intros Hl. destruct (IH (mkReception (fds s) (received s ++ d) (fds_read s) (closed s)) got Hok Hl)
          as (used & rest & -> & Hr & Hq & Hf & Ho).
        exists (recv_data d None ctrunc :: used), rest. cbn [map data_of fds_of concat received fds app] in *.
        by rewrite Hr, <- !app_assoc in *.
Qed.

(** * Properties *)

Section properties.
Context {P : Type} `{MessageProcessor P}.

(** an rpc socket never has more than one client, and every registered
    connection has a read outstanding, whatever clients connect, send or
    drop, as long as no message processor throws. *)
Theorem creator_single_live_client (factory : P) (s s' : Creator P) :
  connections_ s = ∅ → rtc (creator_step factory) s s' →
  (size (connections_ s') ≤ 1)%nat ∧
  map_Forall (λ _ c, reading c = true) (connections_ s').
Proof.
  intros He Hs. apply (steps_ok factory s s' Hs). split; rewrite He; [rewrite map_size_empty; lia|].
  apply map_Forall_empty.
Qed.

(** a processor that throws leaves its connection registered with no read
    outstanding, and from then on every new client is refused. *)
Theorem creator_wedged_by_exception (factory : P) (s s' : Creator P) (id : Z) (d : bytes) (x : exn) :
  connection_event id (inr d) s = Exc s' x →
  ∃ p, connections_ s' !! id = Some (mkConnection p false) ∧
    create_connection_for factory s'
      = Val (mkCreator (next_connection_id_ s') (connections_ s') (S (refused s'))) tt.
Proof.
  unfold connection_event, on_read_size. run_m.
  destruct (connections_ s !! id) as [c|] eqn:Hc; [|done].
  destruct (processor_data d (processor c)) as [p []|p e|]; [by rewrite read_next_insert|done|..|done].
  intros [= <- _]. exists p. cbn [connections_]. rewrite lookup_insert_eq. split; [done|].
  apply create_full. cbn. rewrite map_size_insert, Hc. unfold Datatypes.id.
  destruct (size (connections_ s)) eqn:E; [|lia].
  apply map_size_empty_inv in E. by rewrite E, lookup_empty in Hc.
Qed.
End properties.

(** a reception that succeeds has read at least the bytes asked for, in the
    order they arrived, has filled the caller's descriptor vector completely
    with the descriptors received, in order, and closed none of them. *)
Theorem receive_data_complete (results : list recv) (requested : nat) (fds0 : list Z) (s : Reception) :
  receive_data results requested fds0 = Some (Val s tt) →
  ∃ used rest, results = used ++ rest ∧
    received s = concat (map data_of used) ∧ (requested ≤ length (received s))%nat ∧
    fds s = concat (map fds_of used) ∧ length (fds s) = length fds0 ∧ closed s = [].
Proof.
  unfold receive_data. case_decide; [done|].
  destruct (receive_loop results requested _) as [[s1 []| |]|] eqn:E; [|done..].
  assert (Hok : reception_ok (mkReception fds0 [] 0 []) []).
  { unfold reception_ok. cbn. split_and!; [done|done|lia|by rewrite take_0]. }
  destruct (receive_loop_val _ _ _ _ _ Hok E) as (used & rest & -> & Hr & Hq & Hf & Hc & Hn & Hle & Ht).
  case_decide; [done|]. intros [= <-]. exists used, rest. cbn [fds received app] in *.
  split_and!; [done..| |done|done]. rewrite take_ge in Ht by lia. done.
Qed.

(** descriptors sent by [send_fds] arrive, in order, at a receiver that
    expects that many. *)
Theorem fds_roundtrip (fds0 : list Z) (msg : recv) :
  send_fds fds0 = Some msg →
  receive_data [msg] 1 (replicate (length fds0) (-1)) = Some (Val (mkReception fds0 [77] (length fds0) []) tt).
Proof.
  unfold send_fds. case_decide as Hpos; [|done]. intros [= <-].
  unfold receive_data, handle_control. cbn [receive_loop receive_data length received data_of].
  rewrite !decide_False by lia. unfold handle_control. cbn [cmsg_level cmsg_type cmsg_fds].
  rewrite decide_False by (intros [_ ?]; done).
  rewrite decide_False by (intros [?|?]; done).
  cbn [fds fds_read Nat.sub]. rewrite length_replicate, Nat.sub_0_r.
  rewrite bool_decide_eq_false_2 by lia. cbn [orb]. run_m.
  cbn [received fds fds_read closed app length receive_loop].
  rewrite decide_True by lia. unfold store_fds. cbn [fds fds_read].
  rewrite take_0, drop_ge by (rewrite length_replicate; lia). cbn [app].
  rewrite app_nil_r, Nat.add_0_l. by rewrite decide_False by lia.
Qed.

(** * Witnesses *)

(** A processor that throws on an empty read and otherwise counts bytes. *)
#[local] Instance counting_processor : MessageProcessor nat := λ d n,
  match d with
  | [] => Exc n (runtime_error "empty")
  | _ => Val (n + length d)%nat (bool_decide (length d < 4)%nat)
  end.

Definition no_clients : Creator nat := mkCreator 0 ∅ 0.
Definition one_client : Creator nat := mkCreator 1 {[0 := mkConnection 0%nat true]} 0.

Lemma creator_single_live_client_witness :
  (size (connections_ one_client) ≤ 1)%nat.
Proof.
  apply (creator_single_live_client (0%nat) no_clients one_client); [reflexivity|].
  apply rtc_once, step_accept. vm_compute. reflexivity.
Defined.

Lemma creator_wedged_by_exception_witness :
  ∃ p, connections_ (mkCreator 1 {[0 := mkConnection 0%nat false]} 0) !! 0 = Some (mkConnection p false).
Proof.
  destruct (creator_wedged_by_exception 0%nat one_client
              (mkCreator 1 {[0 := mkConnection 0%nat false]} 0) 0 [] (runtime_error "empty"))
    as [p [Hp _]]; [reflexivity|]. by exists p.
Defined.

Lemma receive_data_complete_witness :
  ∃ used rest, [recv_data [1; 2] (Some (mkCmsg 1 1 [5])) false; recv_error 11] = used ++ rest ∧
    [5] = concat (map fds_of used).
Proof.
  destruct (receive_data_complete [recv_data [1; 2] (Some (mkCmsg 1 1 [5])) false; recv_error 11]
              2 [-1] (mkReception [5] [1; 2] 1 [])) as (u & r & H1 & _ & _ & H2 & _); [reflexivity|].
  by exists u, r.
Defined.

Lemma fds_roundtrip_witness :
  receive_data [recv_data [77] (Some (mkCmsg 1 1 [4; 9])) false] 1 [-1; -1]
    = Some (Val (mkReception [4; 9] [77] 2 []) tt).
Proof. apply (fds_roundtrip [4; 9]). reflexivity. Defined.
