(* ===== verification/Input.v ===== *)
(** * Virtual input devices (src/src/anbox/input)

    [Device] publishes a socket, describes itself to each client with an
    [Info] structure and then streams [input_event] records to all of them.
    The model keeps the structures' bytes: little endian, with the layout of
    the 64-bit container.  The constants are those of <linux/input.h>. *)

From S2P Require Import Prelude Utils Network.

(** ** Little endian words *)

Fixpoint le_bytes (n : nat) (z : Z) : bytes :=
  match n with O => [] | S n' => z mod 256 :: le_bytes n' (z / 256) end.
Fixpoint le_value (l : bytes) : Z :=
  match l with [] => 0 | b :: l' => b + 256 * le_value l' end.

Lemma length_le_bytes n z : length (le_bytes n z) = n.
Proof. revert z. induction n; intros z; cbn; [done|]. by rewrite IHn. Qed.

Lemma le_value_bytes n z : le_value (le_bytes n z) = z mod 256 ^ Z.of_nat n.
Proof.
  revert z. induction n as [|n IH]; intros z; cbn [le_bytes le_value]; [by rewrite Z.mod_1_r|].
  rewrite IH. replace (Z.of_nat (S n)) with (1 + Z.of_nat n) by lia.
  rewrite Z.pow_add_r, Z.pow_1_r by lia. symmetry. apply Z.rem_mul_r; [lia|].
  apply Z.pow_pos_nonneg; lia.
Qed.

Lemma le_value_word n z : 0 ≤ z < 256 ^ Z.of_nat n → le_value (le_bytes n z) = z.
Proof. intros. rewrite le_value_bytes. by apply Z.mod_small. Qed.

(** ** Events *)

Record Event : Type := mkEvent { type : Z; code : Z; value : Z }.

#[global] Instance Event_eq_dec : EqDecision Event.
Proof. solve_decision. Defined.

Definition wf_event (e : Event) : Prop := is_u16 (type e) ∧ is_u16 (code e) ∧ is_i32 (value e).

(** [CompatEvent]: two 64-bit words of time, type, code, value. *)
Definition compat_event (sec nsec : Z) (e : Event) : bytes :=
  le_bytes 8 sec ++ le_bytes 8 (nsec / 1000) ++ le_bytes 2 (type e) ++ le_bytes 2 (code e) ++
  le_bytes 4 (u32 (value e)).

Definition compat_events (sec nsec : Z) (es : list Event) : bytes :=
  concat (map (compat_event sec nsec) es).

(** ** Device::Info *)

Record Info : Type := mkInfo {
  name : bytes;
  driver_version : Z;
  input_id : Z * Z * Z * Z;   (* bustype, vendor, product, version *)
  physical_location : bytes;
  unique_id : bytes;
  key_bitmask : bytes;
  abs_bitmask : bytes;
  rel_bitmask : bytes;
  sw_bitmask : bytes;
  led_bitmask : bytes;
  ff_bitmask : bytes;
  prop_bitmask : bytes;
  abs_max : list Z;
  abs_min : list Z;
}.

Definition zeros (n : nat) : bytes := replicate n 0.
Definition ABS_CNT : nat := 64.

Definition info_zero : Info :=
  mkInfo (zeros 80) 0 (0, 0, 0, 0) (zeros 80) (zeros 80)
    (zeros 96) (zeros 8) (zeros 2) (zeros 2) (zeros 2) (zeros 16) (zeros 4)
    (zeros ABS_CNT) (zeros ABS_CNT).

Definition info_bytes (i : Info) : bytes :=
  let '(bustype, vendor, product, version) := input_id i in
  name i ++ le_bytes 4 (u32 (driver_version i)) ++
  le_bytes 2 bustype ++ le_bytes 2 vendor ++ le_bytes 2 product ++ le_bytes 2 version ++
  physical_location i ++ unique_id i ++
  key_bitmask i ++ abs_bitmask i ++ rel_bitmask i ++ sw_bitmask i ++ led_bitmask i ++
  ff_bitmask i ++ prop_bitmask i ++ zeros 2 ++
  concat (map (le_bytes 4) (abs_max i)) ++ concat (map (le_bytes 4) (abs_min i)).

(** ** The device *)

Record Device : Type := mkDevice {
  next_connection_id_ : Z;
  connections_ : gmap Z Sender;
  info_ : Info;
}.

Definition device_new : Device := mkDevice 0 ∅ info_zero.

Definition send_to (n : Z) (data : bytes) : M (gmap Z Sender) unit := λ cs,
  match conn_at n cs with
  | Val _ c =>
      match send data c with
      | Val c' _ => Val (<[n := c']> cs) tt
      | Exc c' e => Exc (<[n := c']> cs) e
      | Ub => Ub
      end
  | Exc cs' e => Exc cs' e
  | Ub => Ub
  end.

Definition set_connections (cs : gmap Z Sender) (d : Device) : Device :=
  mkDevice (next_connection_id_ d) cs (info_ d).

(** [for (unsigned n = 0; n < connections_->size(); n++)]. *)
Definition send_events (sec nsec : Z) (es : list Event) : M Device unit :=
  d ← get;
  zoom connections_ set_connections
    (for_each (seq 0 (conn_size (connections_ d))) (λ n, send_to (Z.of_nat n) (compat_events sec nsec es))).

Definition next_id : M Device Z := λ d,
  Val (mkDevice (i32 (next_connection_id_ d + 1)) (connections_ d) (info_ d)) (next_connection_id_ d).

Definition new_client (socket : Sender) : M Device unit :=
  id ← next_id;
  modify (λ d, set_connections (add id socket (connections_ d)) d) ≫= λ _,
  d ← get;
  zoom connections_ set_connections (send_to id (info_bytes (info_ d))).

(** ** Setters *)

(** [snprintf(dst, 80, "%s", s)]: stops at the first zero of [s], writes at
    most 79 characters and a zero, and leaves the rest of the array. *)
Fixpoint c_str (l : bytes) : bytes :=
  match l with
  | c :: l' => if decide (c = 0) then [] else c :: c_str l'
  | [] => []
  end.
Definition snprintf_80 (s : string) (dst : bytes) : bytes :=
  let t := take 79 (c_str (bytes_of_string s)) ++ zeros 1 in
  t ++ drop (length t) dst.

(** [array[bit / 8] |= 1 << (bit % 8)], out of bounds undefined. *)
Definition set_bit (array : bytes) (bit : Z) : option bytes :=
  match array !! Z.to_nat (bit / 8) with
  | Some b => Some (<[Z.to_nat (bit / 8) := Z.lor b (Z.shiftl 1 (bit mod 8))]> array)
  | None => None
  end.

Definition set_word (array : list Z) (bit v : Z) : option (list Z) :=
  match array !! Z.to_nat bit with
  | Some _ => Some (<[Z.to_nat bit := u32 v]> array)
  | None => None
  end.

Definition with_info (f : Info → option Info) : M Device unit := λ d,
  match f (info_ d) with
  | Some i => Val (mkDevice (next_connection_id_ d) (connections_ d) i) tt
  | None => Ub
  end.

Definition set_name (s : string) : M Device unit := with_info (λ '(mkInfo nm dv ii pl ui kb ab rb sb lb fb pb mx mn),
  Some (mkInfo (snprintf_80 s nm) dv ii pl ui kb ab rb sb lb fb pb mx mn)).
Definition set_driver_version (v : Z) : M Device unit := with_info (λ '(mkInfo nm dv ii pl ui kb ab rb sb lb fb pb mx mn),
  Some (mkInfo nm v ii pl ui kb ab rb sb lb fb pb mx mn)).
Definition set_input_id (bustype vendor product version : Z) : M Device unit := with_info (λ '(mkInfo nm dv ii pl ui kb ab rb sb lb fb pb mx mn),
  Some (mkInfo nm dv (bustype, vendor, product, version) pl ui kb ab rb sb lb fb pb mx mn)).
Definition set_physical_location (s : string) : M Device unit := with_info (λ '(mkInfo nm dv ii pl ui kb ab rb sb lb fb pb mx mn),
  Some (mkInfo nm dv ii (snprintf_80 s pl) ui kb ab rb sb lb fb pb mx mn)).
Definition set_unique_id (s : string) : M Device unit := with_info (λ '(mkInfo nm dv ii pl ui kb ab rb sb lb fb pb mx mn),
  Some (mkInfo nm dv ii pl (snprintf_80 s ui) kb ab rb sb lb fb pb mx mn)).
Definition set_key_bit (bit : Z) : M Device unit := with_info (λ '(mkInfo nm dv ii pl ui kb ab rb sb lb fb pb mx mn),
  kb ← set_bit kb bit; Some (mkInfo nm dv ii pl ui kb ab rb sb lb fb pb mx mn)).
Definition set_abs_bit (bit : Z) : M Device unit := with_info (λ '(mkInfo nm dv ii pl ui kb ab rb sb lb fb pb mx mn),
  ab ← set_bit ab bit; Some (mkInfo nm dv ii pl ui kb ab rb sb lb fb pb mx mn)).
Definition set_rel_bit (bit : Z) : M Device unit := with_info (λ '(mkInfo nm dv ii pl ui kb ab rb sb lb fb pb mx mn),
  rb ← set_bit rb bit; Some (mkInfo nm dv ii pl ui kb ab rb sb lb fb pb mx mn)).
Definition set_sw_bit (bit : Z) : M Device unit := with_info (λ '(mkInfo nm dv ii pl ui kb ab rb sb lb fb pb mx mn),
  sb ← set_bit sb bit; Some (mkInfo nm dv ii pl ui kb ab rb sb lb fb pb mx mn)).
Definition set_led_bit (bit : Z) : M Device unit := with_info (λ '(mkInfo nm dv ii pl ui kb ab rb sb lb fb pb mx mn),
  lb ← set_bit lb bit; Some (mkInfo nm dv ii pl ui kb ab rb sb lb fb pb mx mn)).
Definition set_ff_bit (bit : Z) : M Device unit := with_info (λ '(mkInfo nm dv ii pl ui kb ab rb sb lb fb pb mx mn),
  fb ← set_bit fb bit; Some (mkInfo nm dv ii pl ui kb ab rb sb lb fb pb mx mn)).
Definition set_prop_bit (bit : Z) : M Device unit := with_info (λ '(mkInfo nm dv ii pl ui kb ab rb sb lb fb pb mx mn),
  pb ← set_bit pb bit; Some (mkInfo nm dv ii pl ui kb ab rb sb lb fb pb mx mn)).
Definition set_abs_min (bit v : Z) : M Device unit := with_info (λ '(mkInfo nm dv ii pl ui kb ab rb sb lb fb pb mx mn),
  mn ← set_word mn bit v; Some (mkInfo nm dv ii pl ui kb ab rb sb lb fb pb mx mn)).
Definition set_abs_max (bit v : Z) : M Device unit := with_info (λ '(mkInfo nm dv ii pl ui kb ab rb sb lb fb pb mx mn),
  mx ← set_word mx bit v; Some (mkInfo nm dv ii pl ui kb ab rb sb lb fb pb mx mn)).

(** ** input::Manager *)

Record InputManager : Type := mkInputManager { manager_next_id : Z; devices_ : gmap Z Device }.

Definition build_device_path (dir : string) (id : Z) : string := dir +:+ "/event" +:+ format_d id.

(** The path published, and the device's id. *)
Definition create_device (dir : string) : M InputManager (string * Z) := λ m,
  let id := manager_next_id m in
  Val (mkInputManager (u32 (id + 1))
         (match devices_ m !! id with Some _ => devices_ m | None => <[id := device_new]> (devices_ m) end))
    (build_device_path dir id, id).

(** ** Sequences of client and event traffic *)

Inductive device_action : Type :=
  | act_new_client (socket : Sender)
  | act_send (sec nsec : Z) (es : list Event)
  | act_hang_up (id : Z).

(** An exception ends the handler; the device stays as it was left. *)
Definition device_do (d : Device) (a : device_action) : Device :=
  let after (o : outcome Device unit) :=
    match o with Val d' _ => d' | Exc d' _ => d' | Ub => d end in
  match a with
  | act_new_client s => after (new_client s d)
  | act_send sec nsec es => after (send_events sec nsec es d)
  | act_hang_up id => set_connections (alter (λ c, mkSender false (wire c)) id (connections_ d)) d
  end.

Definition device_run (acts : list device_action) : Device := foldl device_do device_new acts.

(** Clients are never removed and the ids are handed out in order. *)
Definition dense (d : Device) (n : nat) : Prop :=
  next_connection_id_ d = Z.of_nat n ∧ ∀ k, is_Some (connections_ d !! k) ↔ 0 ≤ k < Z.of_nat n.

Lemma dense_size d n : dense d n → conn_size (connections_ d) = n.
Proof.
  intros [_ Hd]. unfold conn_size. rewrite <- size_dom.
  replace (dom (connections_ d)) with (list_to_set (map Z.of_nat (seq 0 n)) : gset Z).
  - rewrite size_list_to_set; [by rewrite length_map, length_seq|].
    apply (NoDup_fmap_2 Z.of_nat), NoDup_seq.
  - apply set_eq. intros k. rewrite elem_of_list_to_set, elem_of_dom, Hd, list_elem_of_In, in_map_iff.
    split.
    + intros (m & <- & Hm%in_seq). lia.
    + intros Hk. exists (Z.to_nat k). split; [lia|]. apply in_seq. lia.
Qed.

Definition push (data : bytes) (c : Sender) : Sender := mkSender (connected c) (wire c ++ [data]).

Lemma send_to_live n data cs c : cs !! n = Some c → connected c = true →
  send_to n data cs = Val (<[n := push data c]> cs) tt.
Proof.
  intros Hc Hl. unfold send_to, conn_at. run_m. rewrite Hc, send_connected by done.
  unfold push. by rewrite Hl.
Qed.

Lemma send_to_dead n data cs c : cs !! n = Some c → connected c = false →
  send_to n data cs = Exc cs (runtime_error "send").
Proof.
  intros Hc Hl. unfold send_to, conn_at, send. run_m. rewrite Hc, Hl. by rewrite insert_id.
Qed.

Lemma send_seq data a k cs :
  (∀ i, Z.of_nat a ≤ i < Z.of_nat (a + k) → ∃ c, cs !! i = Some c ∧ connected c = true) →
  ∃ cs', for_each (seq a k) (λ n, send_to (Z.of_nat n) data) cs = Val cs' tt ∧
    ∀ i, cs' !! i = if decide (Z.of_nat a ≤ i < Z.of_nat (a + k)) then push data <$> cs !! i else cs !! i.
Proof.
  revert a cs. induction k as [|k IH]; intros a cs Hlive.
  { exists cs. split; [done|]. intros i. by rewrite decide_False by lia. }
  destruct (Hlive (Z.of_nat a)) as (c & Hc & Hl); [lia|].
  destruct (IH (S a) (<[Z.of_nat a := push data c]> cs)) as (cs' & Hrun & Hcs').
  { intros i Hi. rewrite lookup_insert_ne by lia. apply Hlive. lia. }
  exists cs'. split.
  - cbn [seq for_each]. by rewrite (bind_val _ _ _ _ _ (send_to_live _ data _ _ Hc Hl)).
  - intros i. rewrite Hcs'. destruct (decide (i = Z.of_nat a)) as [->|Hne].
    + rewrite decide_False, decide_True, lookup_insert_eq, Hc by lia. done.
    + rewrite lookup_insert_ne by done. repeat case_decide; (done || lia).
Qed.

Lemma lookup_push_is_Some data (P : Prop) `{Decision P} (o : option Sender) :
  is_Some (if decide P then push data <$> o else o) ↔ is_Some o.
Proof. case_decide; [apply fmap_is_Some|done]. Qed.

(** Sending to a registered prefix keeps the set of registered clients. *)
Lemma send_seq_dom data ns cs :
  match for_each ns (λ n, send_to (Z.of_nat n) data) cs with
  | Val cs' _ | Exc cs' _ => ∀ i, is_Some (cs' !! i) ↔ is_Some (cs !! i)
  | Ub => False
  end.
Proof.
  revert cs. induction ns as [|n ns IH]; intros cs; [done|]. cbn [for_each]. run_m.
  assert (Hstep : match send_to (Z.of_nat n) data cs with
    | Val cs' _ | Exc cs' _ => ∀ i, is_Some (cs' !! i) ↔ is_Some (cs !! i) | Ub => False end).
  { unfold send_to, conn_at, send. run_m. destruct (cs !! Z.of_nat n) as [c|] eqn:Hc; [|done].
    destruct (connected c); intros i; (destruct (decide (i = Z.of_nat n)) as [->|];
      [rewrite lookup_insert_eq, Hc; naive_solver|by rewrite lookup_insert_ne]). }
  destruct (send_to (Z.of_nat n) data cs) as [cs1|cs1|]; [|done..].
  specialize (IH cs1). destruct (for_each ns _ cs1); [|by setoid_rewrite IH..|done].
  intros i. by rewrite IH.
Qed.

Lemma dense_new : dense device_new 0.
Proof. split; [done|]. intros k. cbn. rewrite lookup_empty. split; [intros []; done|lia]. Qed.

Lemma dense_send d n sec nsec es : dense d n → dense (device_do d (act_send sec nsec es)) n.
Proof.
  intros [Hn Hd]. cbn [device_do]. unfold send_events. run_m.
  assert (H := send_seq_dom (compat_events sec nsec es) (seq 0 (conn_size (connections_ d))) (connections_ d)).
  destruct (for_each _ _ _) as [cs|cs|]; [..|done]; (split; [done|]); intros k; cbn; by rewrite H.
Qed.

Lemma dense_hang_up d n id : dense d n → dense (device_do d (act_hang_up id)) n.
Proof.
  intros [Hn Hd]. split; [done|]. intros k. cbn. rewrite <- Hd.
  destruct (decide (id = k)) as [->|]; [rewrite lookup_alter_eq; apply fmap_is_Some|].
  by rewrite lookup_alter_ne.
Qed.

Lemma dense_new_client d n s : dense d n → Z.of_nat n < 2147483647 →
  dense (device_do d (act_new_client s)) (S n) ∧
  ∃ o, new_client s d = o ∧
    match o with
    | Val d' _ => connected s = true ∧
        connections_ d' = <[Z.of_nat n := push (info_bytes (info_ d)) s]> (connections_ d)
    | Exc d' _ => connected s = false ∧ connections_ d' = <[Z.of_nat n := s]> (connections_ d)
    | Ub => False
    end.
Proof.
  intros [Hn Hd] Hlt. assert (Hfree : connections_ d !! Z.of_nat n = None).
  { apply eq_None_not_Some. rewrite Hd. lia. }
  assert (Hrun : ∀ cs, (∀ i, is_Some (cs !! i) ↔ i = Z.of_nat n ∨ is_Some (connections_ d !! i)) →
    dense (mkDevice (i32 (Z.of_nat n + 1)) cs (info_ d)) (S n)).
  { intros cs Hcs. split; cbn [next_connection_id_ connections_]; [rewrite i32_small by (unfold is_i32; lia); lia|]. intros k.
    rewrite Hcs, Hd. lia. }
  cbn [device_do]. unfold new_client, next_id. run_m. cbn. rewrite Hn. unfold add. rewrite Hfree.
  destruct (connected s) eqn:Hs.
  - rewrite (send_to_live _ _ _ s) by (rewrite ?lookup_insert_eq; done). rewrite insert_insert_eq. split.
    + apply Hrun. intros i. destruct (decide (i = Z.of_nat n)) as [->|];
        [rewrite lookup_insert_eq; naive_solver|rewrite lookup_insert_ne by done; naive_solver].
    + eexists. split; [done|]. done.
  - rewrite (send_to_dead _ _ _ s) by (rewrite ?lookup_insert_eq; done). split.
    + apply Hrun. intros i. destruct (decide (i = Z.of_nat n)) as [->|];
        [rewrite lookup_insert_eq; naive_solver|rewrite lookup_insert_ne by done; naive_solver].
    + eexists. split; [done|]. done.
Qed.

Lemma device_run_dense_from d n acts :
  dense d n → Z.of_nat (n + length acts) < 2147483648 →
  ∃ m, (m ≤ n + length acts)%nat ∧ dense (foldl device_do d acts) m.
Proof.
  revert d n. induction acts as [|a acts IH]; intros d n Hd Hlt; [exists n; split; [lia|done]|].
  cbn [foldl length] in *. destruct a as [s|sec nsec es|id].
  - destruct (IH (device_do d (act_new_client s)) (S n)) as (m & ? & ?); [apply dense_new_client; [done|lia]|lia|].
    exists m. split; [lia|done].
  - destruct (IH (device_do d (act_send sec nsec es)) n) as (m & ? & ?); [by apply dense_send|lia|].
    exists m. split; [lia|done].
  - destruct (IH (device_do d (act_hang_up id)) n) as (m & ? & ?); [by apply dense_hang_up|lia|].
    exists m. split; [lia|done].
Qed.

Lemma device_run_dense acts : Z.of_nat (length acts) < 2147483648 → ∃ n, dense (device_run acts) n.
Proof.
  intros Hlt. destruct (device_run_dense_from device_new 0 acts dense_new) as (m & _ & ?); [lia|].
  by exists m.
Qed.

(** ** Reading events back *)

Fixpoint parse_events (fuel : nat) (l : bytes) : list (Z * Z * Event) :=
  match fuel, l with
  | S fuel', _ :: _ =>
      let v := le_value (take 4 (drop 20 l)) in
      (le_value (take 8 l), le_value (take 8 (drop 8 l)),
       mkEvent (le_value (take 2 (drop 16 l))) (le_value (take 2 (drop 18 l))) (i32 v))
      :: parse_events fuel' (drop 24 l)
  | _, _ => []
  end.

Lemma five_fields {A} (a b c d e rest : list A) :
  length a = 8%nat → length b = 8%nat → length c = 2%nat → length d = 2%nat → length e = 4%nat →
  let l := a ++ b ++ c ++ d ++ e ++ rest in
  take 8 l = a ∧ take 8 (drop 8 l) = b ∧ take 2 (drop 16 l) = c ∧ take 2 (drop 18 l) = d ∧
  take 4 (drop 20 l) = e ∧ drop 24 l = rest.
Proof.
  intros Ha Hb Hc Hd He l. assert (D8 : drop 8 l = b ++ c ++ d ++ e ++ rest) by (by apply drop_app_length').
  assert (D16 : drop 16 l = c ++ d ++ e ++ rest).
  { change 16%nat with (8 + 8)%nat. rewrite <- drop_drop, D8. by apply drop_app_length'. }
  assert (D18 : drop 18 l = d ++ e ++ rest).
  { change 18%nat with (16 + 2)%nat. rewrite <- drop_drop, D16. by apply drop_app_length'. }
  assert (D20 : drop 20 l = e ++ rest).
  { change 20%nat with (18 + 2)%nat. rewrite <- drop_drop, D18. by apply drop_app_length'. }
  assert (D24 : drop 24 l = rest).
  { change 24%nat with (20 + 4)%nat. rewrite <- drop_drop, D20. by apply drop_app_length'. }
  rewrite D8, D16, D18, D20, D24. split_and!; try by apply take_app_length'. done.
Qed.

Lemma i32_u32 v : is_i32 v → i32 (u32 v) = v.
Proof.
  unfold is_i32, u32, wrap. change (2 ^ 32) with 4294967296. rewrite i32_unfold.
  intros. Z.div_mod_to_equations. lia.
Qed.

Lemma compat_event_fields sec nsec e rest :
  0 ≤ sec < 2 ^ 64 → 0 ≤ nsec < 2 ^ 64 → wf_event e →
  ∀ fuel, parse_events (S fuel) (compat_event sec nsec e ++ rest) =
    (sec, nsec / 1000, e) :: parse_events fuel rest.
Proof.
  intros Hs Hn (Ht & Hc & Hv) fuel. destruct e as [t c v]; cbn [type code value] in *.
  unfold compat_event. cbn [type code value].
  set (l := (_ ++ rest)). assert (Hl : l = le_bytes 8 sec ++ le_bytes 8 (nsec / 1000) ++
    le_bytes 2 t ++ le_bytes 2 c ++ le_bytes 4 (u32 v) ++ rest) by (unfold l; by rewrite <- !app_assoc).
  assert (E : parse_events (S fuel) l =
    (le_value (take 8 l), le_value (take 8 (drop 8 l)),
     mkEvent (le_value (take 2 (drop 16 l))) (le_value (take 2 (drop 18 l)))
       (i32 (le_value (take 4 (drop 20 l))))) :: parse_events fuel (drop 24 l)).
  { destruct l eqn:El; [|done]. apply (f_equal length) in Hl. rewrite !length_app, !length_le_bytes in Hl. cbn in Hl. lia. }
  rewrite E. clear E. rewrite Hl. clear l Hl.
  destruct (five_fields (le_bytes 8 sec) (le_bytes 8 (nsec / 1000)) (le_bytes 2 t) (le_bytes 2 c)
    (le_bytes 4 (u32 v)) rest) as (-> & -> & -> & -> & -> & ->); [apply length_le_bytes..|].
  pose proof (u32_range v). unfold is_u16, is_u32 in *.
  change (2 ^ 64) with 18446744073709551616 in *.
  pose proof (Z.div_pos nsec 1000). pose proof (Z.div_le_upper_bound nsec 1000 18446744073709551615).
  rewrite !le_value_word.
  - by rewrite i32_u32.
  - change (256 ^ Z.of_nat 4) with 4294967296. lia.
  - change (256 ^ Z.of_nat 2) with 65536. lia.
  - change (256 ^ Z.of_nat 2) with 65536. lia.
  - change (256 ^ Z.of_nat 8) with 18446744073709551616. lia.
  - change (256 ^ Z.of_nat 8) with 18446744073709551616. lia.
Qed.

(** ** Properties *)

(** What a client reads is what was sent: the byte image of a batch of
    events is 24 bytes per event, and decoding it gives the events back with
    their values' signs and the batch's time stamp. *)
Theorem input_events_roundtrip sec nsec es :
  0 ≤ sec < 2 ^ 64 → 0 ≤ nsec < 2 ^ 64 → Forall wf_event es →
  length (compat_events sec nsec es) = (24 * length es)%nat ∧
  parse_events (length es) (compat_events sec nsec es) = map (λ e, (sec, nsec / 1000, e)) es.
Proof.
  intros Hs Hn Hes. unfold compat_events. induction Hes as [|e es He Hes [IHl IH]]; [done|]. split.
  - cbn [map concat length]. rewrite length_app, IHl. unfold compat_event.
    rewrite !length_app, !length_le_bytes. lia.
  - cbn [map concat length]. rewrite (compat_event_fields sec nsec e _ Hs Hn He). by rewrite IH.
Qed.

(** How events reach the clients: whatever connections, hang-ups and
    batches came before, [connections_->at] never fails, and with [k] the first
    client that is gone (or the number of clients when none is), exactly the
    clients before [k] get the batch.  A dead client makes [send_events] throw,
    so the clients that connected after it get nothing. *)
Theorem input_broadcast acts sec nsec es k :
  let d := device_run acts in
  Z.of_nat (length acts) < 2147483648 → 0 ≤ k →
  (∀ i, 0 ≤ i < k → ∃ c, connections_ d !! i = Some c ∧ connected c = true) →
  (∀ c, connections_ d !! k = Some c → connected c = false) →
  ∃ d', send_events sec nsec es d =
      (match connections_ d !! k with
       | None => Val d' tt
       | Some _ => Exc d' (runtime_error "send")
       end) ∧
    ∀ i, connections_ d' !! i =
      if decide (0 ≤ i < k) then push (compat_events sec nsec es) <$> connections_ d !! i
      else connections_ d !! i.
Proof.
  intros d Hlen Hk Hlive Hdead. destruct (device_run_dense acts Hlen) as [n Hn].
  fold d in Hn. clearbody d. unfold send_events. run_m. rewrite (dense_size _ _ Hn).
  destruct Hn as [_ Hn]. set (data := compat_events sec nsec es).
  destruct (send_seq data 0 (Z.to_nat k) (connections_ d)) as (cs & Hrun & Hcs).
  { intros i Hi. apply Hlive. lia. }
  assert (Hcs' : ∀ i, cs !! i = if decide (0 ≤ i < k) then push data <$> connections_ d !! i else connections_ d !! i).
  { intros i. rewrite Hcs. repeat case_decide; (done || lia). }
  destruct (connections_ d !! k) as [c|] eqn:Hck.
  - assert (Hkn : k < Z.of_nat n) by (apply Hn; eauto).
    replace n with (Z.to_nat k + S (n - S (Z.to_nat k)))%nat by lia.
    rewrite seq_app, for_each_app. cbn [seq for_each Nat.add]. rewrite (bind_val _ _ _ _ _ Hrun). run_m.
    rewrite Z2Nat.id by done. rewrite (send_to_dead k data cs c); [|rewrite Hcs', decide_False by lia; done|by apply Hdead].
    eexists. split; [done|]. exact Hcs'.
  - assert (Z.to_nat k = n) as <-.
    { assert (Hkn : ¬ k < Z.of_nat n).
      { intros Hkn. destruct (proj2 (Hn k)) as [??]; [lia|congruence]. }
      destruct (decide (k = Z.of_nat n)) as [->|Hne]; [lia|].
      destruct (Hlive (Z.of_nat n)) as (c & Hc & _); [lia|].
      assert (0 ≤ Z.of_nat n < Z.of_nat n) by (apply Hn; eauto). lia. }
    rewrite Hrun. eexists. split; [done|]. exact Hcs'.
Qed.

(** Bit [j] of a bit mask. *)
Definition mask_bit (array : bytes) (j : Z) : bool :=
  match array !! Z.to_nat (j / 8) with Some b => Z.testbit b (j mod 8) | None => false end.

Lemma testbit_1 n : n ≠ 0 → Z.testbit 1 n = false.
Proof. by destruct n. Qed.

Lemma lor_bit_u8 b i : is_u8 b → 0 ≤ i < 8 → is_u8 (Z.lor b (Z.shiftl 1 i)).
Proof.
  unfold is_u8. intros Hb Hi.
  assert (0 ≤ Z.shiftl 1 i) by (apply Z.shiftl_nonneg; lia).
  split; [apply Z.lor_nonneg; lia|]. apply (Z.log2_lt_cancel _ 256).
  rewrite Z.log2_lor, Z.log2_shiftl by lia. change (Z.log2 256) with 8. change (Z.log2 1) with 0.
  destruct (decide (b = 0)) as [->|]; [cbn; lia|].
  pose proof (proj1 (Z.log2_lt_pow2 b 8 ltac:(lia))). lia.
Qed.

(** [set_bit] stays inside the mask exactly for the bits the mask has;
    then it sets that bit, no other, and keeps bytes bytes. *)
Theorem input_set_bit array bit :
  0 ≤ bit →
  match set_bit array bit with
  | None => Z.of_nat (8 * length array) ≤ bit
  | Some array' =>
      bit < Z.of_nat (8 * length array) ∧ length array' = length array ∧
      (∀ j, 0 ≤ j → mask_bit array' j = bool_decide (j = bit) || mask_bit array j) ∧
      (wf_bytes array → wf_bytes array')
  end.
Proof.
  intros Hb. unfold set_bit. destruct (array !! Z.to_nat (bit / 8)) as [b|] eqn:Hl.
  - assert (Hlt := lookup_lt_Some _ _ _ Hl). pose proof (Z.mod_pos_bound bit 8).
    split; [Z.div_mod_to_equations; lia|]. split; [apply length_insert|]. split.
    + intros j Hj. unfold mask_bit. destruct (decide (j / 8 = bit / 8)) as [Heq|Hne].
      * rewrite Heq, list_lookup_insert_eq by done. rewrite Hl, Z.lor_spec, Z.shiftl_spec by (apply Z.mod_pos_bound; lia).
        rewrite orb_comm. f_equal. destruct (decide (j = bit)) as [->|Hne].
        -- rewrite Z.sub_diag, bool_decide_true by done. done.
        -- rewrite bool_decide_false by done. apply testbit_1. Z.div_mod_to_equations. lia.
      * rewrite list_lookup_insert_ne by (pose proof (Z.div_pos j 8); pose proof (Z.div_pos bit 8); lia).
        rewrite bool_decide_false; [done|]. congruence.
    + intros Hwf. apply Forall_insert; [done|].
      assert (Hb8 : is_u8 b) by (eapply Forall_lookup_1; eauto).
      apply lor_bit_u8; [done|by apply Z.mod_pos_bound].
  - apply lookup_ge_None in Hl. Z.div_mod_to_equations. lia.
Qed.

Lemma input_events_roundtrip_witness :
  parse_events 2 (compat_events 7 5000 [mkEvent 3 53 (-1); mkEvent 0 0 0]) =
  [(7, 5, mkEvent 3 53 (-1)); (7, 5, mkEvent 0 0 0)].
Proof.
  apply (input_events_roundtrip 7 5000 [mkEvent 3 53 (-1); mkEvent 0 0 0]); [lia..|].
  repeat constructor; unfold is_u16, is_i32; cbn; lia.
Defined.

Lemma input_broadcast_witness : ∃ d',
  send_events 0 0 [] (device_run [act_new_client (mkSender true []); act_new_client (mkSender true []);
    act_hang_up 0]) = Exc d' (runtime_error "send").
Proof.
  destruct (input_broadcast [act_new_client (mkSender true []); act_new_client (mkSender true []);
    act_hang_up 0] 0 0 [] 0) as (d' & Hd' & _).
  - cbn. lia.
  - lia.
  - intros i Hi. lia.
  - intros c Hc. vm_compute in Hc. injection Hc as <-. reflexivity.
  - exists d'. exact Hd'.
Defined.

Lemma input_set_bit_witness : set_bit (zeros 2) 9 = Some [0; 2] ∧ 9 < 16.
Proof.
  assert (E : set_bit (zeros 2) 9 = Some [0; 2]) by reflexivity. split; [exact E|].
  pose proof (input_set_bit (zeros 2) 9) as H. rewrite E in H. apply H. lia.
Defined.
