(* ===== verification/Keycodes.v ===== *)
(** * Key codes (src/src/anbox/platform/sdl/keycode_converter.cpp)

    The table that maps Linux key codes to SDL scan codes and its inverse.
    [SDL_Scancode] has the scan codes the table mentions, and one constructor
    for all others. *)

From S2P Require Import Prelude.

Inductive SDL_Scancode : Type :=
  | SDL_SCANCODE_UNKNOWN | SDL_SCANCODE_ESCAPE | SDL_SCANCODE_1 | SDL_SCANCODE_2 | SDL_SCANCODE_3
  | SDL_SCANCODE_4 | SDL_SCANCODE_5 | SDL_SCANCODE_6 | SDL_SCANCODE_7 | SDL_SCANCODE_8
  | SDL_SCANCODE_9 | SDL_SCANCODE_0 | SDL_SCANCODE_MINUS | SDL_SCANCODE_EQUALS
  | SDL_SCANCODE_BACKSPACE | SDL_SCANCODE_TAB | SDL_SCANCODE_Q | SDL_SCANCODE_W | SDL_SCANCODE_E
  | SDL_SCANCODE_R | SDL_SCANCODE_T | SDL_SCANCODE_Y | SDL_SCANCODE_U | SDL_SCANCODE_I
  | SDL_SCANCODE_O | SDL_SCANCODE_P | SDL_SCANCODE_LEFTBRACKET | SDL_SCANCODE_RIGHTBRACKET
  | SDL_SCANCODE_RETURN | SDL_SCANCODE_LCTRL | SDL_SCANCODE_A | SDL_SCANCODE_S | SDL_SCANCODE_D
  | SDL_SCANCODE_F | SDL_SCANCODE_G | SDL_SCANCODE_H | SDL_SCANCODE_J | SDL_SCANCODE_K
  | SDL_SCANCODE_L | SDL_SCANCODE_SEMICOLON | SDL_SCANCODE_APOSTROPHE | SDL_SCANCODE_GRAVE
  | SDL_SCANCODE_LSHIFT | SDL_SCANCODE_BACKSLASH | SDL_SCANCODE_Z | SDL_SCANCODE_X | SDL_SCANCODE_C
  | SDL_SCANCODE_V | SDL_SCANCODE_B | SDL_SCANCODE_N | SDL_SCANCODE_M | SDL_SCANCODE_COMMA
  | SDL_SCANCODE_PERIOD | SDL_SCANCODE_SLASH | SDL_SCANCODE_RSHIFT | SDL_SCANCODE_KP_MULTIPLY
  | SDL_SCANCODE_LALT | SDL_SCANCODE_SPACE | SDL_SCANCODE_CAPSLOCK | SDL_SCANCODE_F1
  | SDL_SCANCODE_F2 | SDL_SCANCODE_F3 | SDL_SCANCODE_F4 | SDL_SCANCODE_F5 | SDL_SCANCODE_F6
  | SDL_SCANCODE_F7 | SDL_SCANCODE_F8 | SDL_SCANCODE_F9 | SDL_SCANCODE_F10
  | SDL_SCANCODE_NUMLOCKCLEAR | SDL_SCANCODE_SCROLLLOCK | SDL_SCANCODE_KP_7 | SDL_SCANCODE_KP_8
  | SDL_SCANCODE_KP_9 | SDL_SCANCODE_KP_MINUS | SDL_SCANCODE_KP_4 | SDL_SCANCODE_KP_5
  | SDL_SCANCODE_KP_6 | SDL_SCANCODE_KP_PLUS | SDL_SCANCODE_KP_1 | SDL_SCANCODE_KP_2
  | SDL_SCANCODE_KP_3 | SDL_SCANCODE_KP_0 | SDL_SCANCODE_KP_PERIOD | SDL_SCANCODE_LANG5
  | SDL_SCANCODE_F11 | SDL_SCANCODE_F12 | SDL_SCANCODE_LANG3 | SDL_SCANCODE_LANG4
  | SDL_SCANCODE_KP_COMMA | SDL_SCANCODE_KP_ENTER | SDL_SCANCODE_RCTRL | SDL_SCANCODE_KP_DIVIDE
  | SDL_SCANCODE_SYSREQ | SDL_SCANCODE_RALT | SDL_SCANCODE_HOME | SDL_SCANCODE_UP
  | SDL_SCANCODE_PAGEUP | SDL_SCANCODE_LEFT | SDL_SCANCODE_RIGHT | SDL_SCANCODE_END
  | SDL_SCANCODE_DOWN | SDL_SCANCODE_PAGEDOWN | SDL_SCANCODE_INSERT | SDL_SCANCODE_DELETE
  | SDL_SCANCODE_MUTE | SDL_SCANCODE_VOLUMEDOWN | SDL_SCANCODE_VOLUMEUP | SDL_SCANCODE_POWER
  | SDL_SCANCODE_KP_EQUALS | SDL_SCANCODE_PAUSE | SDL_SCANCODE_LANG1 | SDL_SCANCODE_LANG2
  | SDL_SCANCODE_INTERNATIONAL3 | SDL_SCANCODE_LGUI | SDL_SCANCODE_RGUI | SDL_SCANCODE_APPLICATION
  | SDL_SCANCODE_STOP | SDL_SCANCODE_AGAIN | SDL_SCANCODE_UNDO | SDL_SCANCODE_COPY
  | SDL_SCANCODE_PASTE | SDL_SCANCODE_FIND | SDL_SCANCODE_CUT | SDL_SCANCODE_HELP
  | SDL_SCANCODE_MENU | SDL_SCANCODE_CALCULATOR | SDL_SCANCODE_SLEEP | SDL_SCANCODE_APP1
  | SDL_SCANCODE_WWW | SDL_SCANCODE_MAIL | SDL_SCANCODE_AC_BOOKMARKS | SDL_SCANCODE_COMPUTER
  | SDL_SCANCODE_AC_BACK | SDL_SCANCODE_AC_FORWARD | SDL_SCANCODE_EJECT | SDL_SCANCODE_AUDIONEXT
  | SDL_SCANCODE_AUDIOPLAY | SDL_SCANCODE_AUDIOPREV | SDL_SCANCODE_AUDIOSTOP | SDL_SCANCODE_AC_HOME
  | SDL_SCANCODE_AC_REFRESH | SDL_SCANCODE_KP_LEFTPAREN | SDL_SCANCODE_KP_RIGHTPAREN
  | SDL_SCANCODE_F13 | SDL_SCANCODE_F14 | SDL_SCANCODE_F15 | SDL_SCANCODE_F16 | SDL_SCANCODE_F17
  | SDL_SCANCODE_F18 | SDL_SCANCODE_F19 | SDL_SCANCODE_F20 | SDL_SCANCODE_F21 | SDL_SCANCODE_F22
  | SDL_SCANCODE_F23 | SDL_SCANCODE_F24
  | SDL_SCANCODE_not_in_table.

Definition code_map : list SDL_Scancode := [
  SDL_SCANCODE_UNKNOWN; SDL_SCANCODE_ESCAPE; SDL_SCANCODE_1; SDL_SCANCODE_2; SDL_SCANCODE_3;
  SDL_SCANCODE_4; SDL_SCANCODE_5; SDL_SCANCODE_6; SDL_SCANCODE_7; SDL_SCANCODE_8; SDL_SCANCODE_9;
  SDL_SCANCODE_0; SDL_SCANCODE_MINUS; SDL_SCANCODE_EQUALS; SDL_SCANCODE_BACKSPACE;
  SDL_SCANCODE_TAB; SDL_SCANCODE_Q; SDL_SCANCODE_W; SDL_SCANCODE_E; SDL_SCANCODE_R; SDL_SCANCODE_T;
  SDL_SCANCODE_Y; SDL_SCANCODE_U; SDL_SCANCODE_I; SDL_SCANCODE_O; SDL_SCANCODE_P;
  SDL_SCANCODE_LEFTBRACKET; SDL_SCANCODE_RIGHTBRACKET; SDL_SCANCODE_RETURN; SDL_SCANCODE_LCTRL;
  SDL_SCANCODE_A; SDL_SCANCODE_S; SDL_SCANCODE_D; SDL_SCANCODE_F; SDL_SCANCODE_G; SDL_SCANCODE_H;
  SDL_SCANCODE_J; SDL_SCANCODE_K; SDL_SCANCODE_L; SDL_SCANCODE_SEMICOLON; SDL_SCANCODE_APOSTROPHE;
  SDL_SCANCODE_GRAVE; SDL_SCANCODE_LSHIFT; SDL_SCANCODE_BACKSLASH; SDL_SCANCODE_Z; SDL_SCANCODE_X;
  SDL_SCANCODE_C; SDL_SCANCODE_V; SDL_SCANCODE_B; SDL_SCANCODE_N; SDL_SCANCODE_M;
  SDL_SCANCODE_COMMA; SDL_SCANCODE_PERIOD; SDL_SCANCODE_SLASH; SDL_SCANCODE_RSHIFT;
  SDL_SCANCODE_KP_MULTIPLY; SDL_SCANCODE_LALT; SDL_SCANCODE_SPACE; SDL_SCANCODE_CAPSLOCK;
  SDL_SCANCODE_F1; SDL_SCANCODE_F2; SDL_SCANCODE_F3; SDL_SCANCODE_F4; SDL_SCANCODE_F5;
  SDL_SCANCODE_F6; SDL_SCANCODE_F7; SDL_SCANCODE_F8; SDL_SCANCODE_F9; SDL_SCANCODE_F10;
  SDL_SCANCODE_NUMLOCKCLEAR; SDL_SCANCODE_SCROLLLOCK; SDL_SCANCODE_KP_7; SDL_SCANCODE_KP_8;
  SDL_SCANCODE_KP_9; SDL_SCANCODE_KP_MINUS; SDL_SCANCODE_KP_4; SDL_SCANCODE_KP_5;
  SDL_SCANCODE_KP_6; SDL_SCANCODE_KP_PLUS; SDL_SCANCODE_KP_1; SDL_SCANCODE_KP_2; SDL_SCANCODE_KP_3;
  SDL_SCANCODE_KP_0; SDL_SCANCODE_KP_PERIOD; SDL_SCANCODE_UNKNOWN; SDL_SCANCODE_LANG5;
  SDL_SCANCODE_UNKNOWN; SDL_SCANCODE_F11; SDL_SCANCODE_F12; SDL_SCANCODE_UNKNOWN;
  SDL_SCANCODE_LANG3; SDL_SCANCODE_LANG4; SDL_SCANCODE_UNKNOWN; SDL_SCANCODE_LANG3;
  SDL_SCANCODE_UNKNOWN; SDL_SCANCODE_KP_COMMA; SDL_SCANCODE_KP_ENTER; SDL_SCANCODE_RCTRL;
  SDL_SCANCODE_KP_DIVIDE; SDL_SCANCODE_SYSREQ; SDL_SCANCODE_RALT; SDL_SCANCODE_UNKNOWN;
  SDL_SCANCODE_HOME; SDL_SCANCODE_UP; SDL_SCANCODE_PAGEUP; SDL_SCANCODE_LEFT; SDL_SCANCODE_RIGHT;
  SDL_SCANCODE_END; SDL_SCANCODE_DOWN; SDL_SCANCODE_PAGEDOWN; SDL_SCANCODE_INSERT;
  SDL_SCANCODE_DELETE; SDL_SCANCODE_UNKNOWN; SDL_SCANCODE_MUTE; SDL_SCANCODE_VOLUMEDOWN;
  SDL_SCANCODE_VOLUMEUP; SDL_SCANCODE_POWER; SDL_SCANCODE_KP_EQUALS; SDL_SCANCODE_KP_MINUS;
  SDL_SCANCODE_PAUSE; SDL_SCANCODE_UNKNOWN; SDL_SCANCODE_KP_COMMA; SDL_SCANCODE_LANG1;
  SDL_SCANCODE_LANG2; SDL_SCANCODE_INTERNATIONAL3; SDL_SCANCODE_LGUI; SDL_SCANCODE_RGUI;
  SDL_SCANCODE_APPLICATION; SDL_SCANCODE_STOP; SDL_SCANCODE_AGAIN; SDL_SCANCODE_UNKNOWN;
  SDL_SCANCODE_UNDO; SDL_SCANCODE_UNKNOWN; SDL_SCANCODE_COPY; SDL_SCANCODE_UNKNOWN;
  SDL_SCANCODE_PASTE; SDL_SCANCODE_FIND; SDL_SCANCODE_CUT; SDL_SCANCODE_HELP; SDL_SCANCODE_MENU;
  SDL_SCANCODE_CALCULATOR; SDL_SCANCODE_UNKNOWN; SDL_SCANCODE_SLEEP; SDL_SCANCODE_UNKNOWN;
  SDL_SCANCODE_UNKNOWN; SDL_SCANCODE_UNKNOWN; SDL_SCANCODE_UNKNOWN; SDL_SCANCODE_UNKNOWN;
  SDL_SCANCODE_APP1; SDL_SCANCODE_APP1; SDL_SCANCODE_WWW; SDL_SCANCODE_UNKNOWN;
  SDL_SCANCODE_UNKNOWN; SDL_SCANCODE_UNKNOWN; SDL_SCANCODE_UNKNOWN; SDL_SCANCODE_MAIL;
  SDL_SCANCODE_AC_BOOKMARKS; SDL_SCANCODE_COMPUTER; SDL_SCANCODE_AC_BACK; SDL_SCANCODE_AC_FORWARD;
  SDL_SCANCODE_UNKNOWN; SDL_SCANCODE_EJECT; SDL_SCANCODE_UNKNOWN; SDL_SCANCODE_AUDIONEXT;
  SDL_SCANCODE_AUDIOPLAY; SDL_SCANCODE_AUDIOPREV; SDL_SCANCODE_AUDIOSTOP; SDL_SCANCODE_UNKNOWN;
  SDL_SCANCODE_UNKNOWN; SDL_SCANCODE_UNKNOWN; SDL_SCANCODE_UNKNOWN; SDL_SCANCODE_UNKNOWN;
  SDL_SCANCODE_AC_HOME; SDL_SCANCODE_AC_REFRESH; SDL_SCANCODE_UNKNOWN; SDL_SCANCODE_UNKNOWN;
  SDL_SCANCODE_UNKNOWN; SDL_SCANCODE_UNKNOWN; SDL_SCANCODE_UNKNOWN; SDL_SCANCODE_KP_LEFTPAREN;
  SDL_SCANCODE_KP_RIGHTPAREN; SDL_SCANCODE_UNKNOWN; SDL_SCANCODE_AGAIN; SDL_SCANCODE_F13;
  SDL_SCANCODE_F14; SDL_SCANCODE_F15; SDL_SCANCODE_F16; SDL_SCANCODE_F17; SDL_SCANCODE_F18;
  SDL_SCANCODE_F19; SDL_SCANCODE_F20; SDL_SCANCODE_F21; SDL_SCANCODE_F22; SDL_SCANCODE_F23;
  SDL_SCANCODE_F24; SDL_SCANCODE_UNKNOWN; SDL_SCANCODE_UNKNOWN; SDL_SCANCODE_UNKNOWN;
  SDL_SCANCODE_UNKNOWN; SDL_SCANCODE_UNKNOWN; SDL_SCANCODE_UNKNOWN; SDL_SCANCODE_UNKNOWN;
  SDL_SCANCODE_UNKNOWN; SDL_SCANCODE_UNKNOWN; SDL_SCANCODE_UNKNOWN; SDL_SCANCODE_UNKNOWN;
  SDL_SCANCODE_UNKNOWN; SDL_SCANCODE_UNKNOWN; SDL_SCANCODE_UNKNOWN; SDL_SCANCODE_UNKNOWN;
  SDL_SCANCODE_UNKNOWN; SDL_SCANCODE_UNKNOWN; SDL_SCANCODE_UNKNOWN; SDL_SCANCODE_UNKNOWN;
  SDL_SCANCODE_UNKNOWN; SDL_SCANCODE_UNKNOWN; SDL_SCANCODE_UNKNOWN; SDL_SCANCODE_UNKNOWN;
  SDL_SCANCODE_UNKNOWN; SDL_SCANCODE_UNKNOWN; SDL_SCANCODE_UNKNOWN; SDL_SCANCODE_UNKNOWN;
  SDL_SCANCODE_UNKNOWN; SDL_SCANCODE_UNKNOWN; SDL_SCANCODE_UNKNOWN; SDL_SCANCODE_UNKNOWN;
  SDL_SCANCODE_UNKNOWN; SDL_SCANCODE_UNKNOWN; SDL_SCANCODE_UNKNOWN; SDL_SCANCODE_UNKNOWN;
  SDL_SCANCODE_UNKNOWN; SDL_SCANCODE_UNKNOWN; SDL_SCANCODE_UNKNOWN; SDL_SCANCODE_UNKNOWN;
  SDL_SCANCODE_UNKNOWN; SDL_SCANCODE_UNKNOWN; SDL_SCANCODE_UNKNOWN; SDL_SCANCODE_UNKNOWN;
  SDL_SCANCODE_UNKNOWN; SDL_SCANCODE_UNKNOWN; SDL_SCANCODE_UNKNOWN; SDL_SCANCODE_UNKNOWN;
  SDL_SCANCODE_UNKNOWN; SDL_SCANCODE_UNKNOWN; SDL_SCANCODE_UNKNOWN; SDL_SCANCODE_UNKNOWN;
  SDL_SCANCODE_UNKNOWN; SDL_SCANCODE_UNKNOWN; SDL_SCANCODE_UNKNOWN
].

(** ** Decidable equality, by numbering the scan codes *)

Definition scancodes : list SDL_Scancode := [
  SDL_SCANCODE_UNKNOWN; SDL_SCANCODE_ESCAPE; SDL_SCANCODE_1; SDL_SCANCODE_2; SDL_SCANCODE_3;
  SDL_SCANCODE_4; SDL_SCANCODE_5; SDL_SCANCODE_6; SDL_SCANCODE_7; SDL_SCANCODE_8; SDL_SCANCODE_9;
  SDL_SCANCODE_0; SDL_SCANCODE_MINUS; SDL_SCANCODE_EQUALS; SDL_SCANCODE_BACKSPACE;
  SDL_SCANCODE_TAB; SDL_SCANCODE_Q; SDL_SCANCODE_W; SDL_SCANCODE_E; SDL_SCANCODE_R; SDL_SCANCODE_T;
  SDL_SCANCODE_Y; SDL_SCANCODE_U; SDL_SCANCODE_I; SDL_SCANCODE_O; SDL_SCANCODE_P;
  SDL_SCANCODE_LEFTBRACKET; SDL_SCANCODE_RIGHTBRACKET; SDL_SCANCODE_RETURN; SDL_SCANCODE_LCTRL;
  SDL_SCANCODE_A; SDL_SCANCODE_S; SDL_SCANCODE_D; SDL_SCANCODE_F; SDL_SCANCODE_G; SDL_SCANCODE_H;
  SDL_SCANCODE_J; SDL_SCANCODE_K; SDL_SCANCODE_L; SDL_SCANCODE_SEMICOLON; SDL_SCANCODE_APOSTROPHE;
  SDL_SCANCODE_GRAVE; SDL_SCANCODE_LSHIFT; SDL_SCANCODE_BACKSLASH; SDL_SCANCODE_Z; SDL_SCANCODE_X;
  SDL_SCANCODE_C; SDL_SCANCODE_V; SDL_SCANCODE_B; SDL_SCANCODE_N; SDL_SCANCODE_M;
  SDL_SCANCODE_COMMA; SDL_SCANCODE_PERIOD; SDL_SCANCODE_SLASH; SDL_SCANCODE_RSHIFT;
  SDL_SCANCODE_KP_MULTIPLY; SDL_SCANCODE_LALT; SDL_SCANCODE_SPACE; SDL_SCANCODE_CAPSLOCK;
  SDL_SCANCODE_F1; SDL_SCANCODE_F2; SDL_SCANCODE_F3; SDL_SCANCODE_F4; SDL_SCANCODE_F5;
  SDL_SCANCODE_F6; SDL_SCANCODE_F7; SDL_SCANCODE_F8; SDL_SCANCODE_F9; SDL_SCANCODE_F10;
  SDL_SCANCODE_NUMLOCKCLEAR; SDL_SCANCODE_SCROLLLOCK; SDL_SCANCODE_KP_7; SDL_SCANCODE_KP_8;
  SDL_SCANCODE_KP_9; SDL_SCANCODE_KP_MINUS; SDL_SCANCODE_KP_4; SDL_SCANCODE_KP_5;
  SDL_SCANCODE_KP_6; SDL_SCANCODE_KP_PLUS; SDL_SCANCODE_KP_1; SDL_SCANCODE_KP_2; SDL_SCANCODE_KP_3;
  SDL_SCANCODE_KP_0; SDL_SCANCODE_KP_PERIOD; SDL_SCANCODE_LANG5; SDL_SCANCODE_F11;
  SDL_SCANCODE_F12; SDL_SCANCODE_LANG3; SDL_SCANCODE_LANG4; SDL_SCANCODE_KP_COMMA;
  SDL_SCANCODE_KP_ENTER; SDL_SCANCODE_RCTRL; SDL_SCANCODE_KP_DIVIDE; SDL_SCANCODE_SYSREQ;
  SDL_SCANCODE_RALT; SDL_SCANCODE_HOME; SDL_SCANCODE_UP; SDL_SCANCODE_PAGEUP; SDL_SCANCODE_LEFT;
  SDL_SCANCODE_RIGHT; SDL_SCANCODE_END; SDL_SCANCODE_DOWN; SDL_SCANCODE_PAGEDOWN;
  SDL_SCANCODE_INSERT; SDL_SCANCODE_DELETE; SDL_SCANCODE_MUTE; SDL_SCANCODE_VOLUMEDOWN;
  SDL_SCANCODE_VOLUMEUP; SDL_SCANCODE_POWER; SDL_SCANCODE_KP_EQUALS; SDL_SCANCODE_PAUSE;
  SDL_SCANCODE_LANG1; SDL_SCANCODE_LANG2; SDL_SCANCODE_INTERNATIONAL3; SDL_SCANCODE_LGUI;
  SDL_SCANCODE_RGUI; SDL_SCANCODE_APPLICATION; SDL_SCANCODE_STOP; SDL_SCANCODE_AGAIN;
  SDL_SCANCODE_UNDO; SDL_SCANCODE_COPY; SDL_SCANCODE_PASTE; SDL_SCANCODE_FIND; SDL_SCANCODE_CUT;
  SDL_SCANCODE_HELP; SDL_SCANCODE_MENU; SDL_SCANCODE_CALCULATOR; SDL_SCANCODE_SLEEP;
  SDL_SCANCODE_APP1; SDL_SCANCODE_WWW; SDL_SCANCODE_MAIL; SDL_SCANCODE_AC_BOOKMARKS;
  SDL_SCANCODE_COMPUTER; SDL_SCANCODE_AC_BACK; SDL_SCANCODE_AC_FORWARD; SDL_SCANCODE_EJECT;
  SDL_SCANCODE_AUDIONEXT; SDL_SCANCODE_AUDIOPLAY; SDL_SCANCODE_AUDIOPREV; SDL_SCANCODE_AUDIOSTOP;
  SDL_SCANCODE_AC_HOME; SDL_SCANCODE_AC_REFRESH; SDL_SCANCODE_KP_LEFTPAREN;
  SDL_SCANCODE_KP_RIGHTPAREN; SDL_SCANCODE_F13; SDL_SCANCODE_F14; SDL_SCANCODE_F15;
  SDL_SCANCODE_F16; SDL_SCANCODE_F17; SDL_SCANCODE_F18; SDL_SCANCODE_F19; SDL_SCANCODE_F20;
  SDL_SCANCODE_F21; SDL_SCANCODE_F22; SDL_SCANCODE_F23; SDL_SCANCODE_F24; SDL_SCANCODE_not_in_table
].

Definition scancode_index (s : SDL_Scancode) : nat :=
  match s with
  | SDL_SCANCODE_UNKNOWN => 0
  | SDL_SCANCODE_ESCAPE => 1
  | SDL_SCANCODE_1 => 2
  | SDL_SCANCODE_2 => 3
  | SDL_SCANCODE_3 => 4
  | SDL_SCANCODE_4 => 5
  | SDL_SCANCODE_5 => 6
  | SDL_SCANCODE_6 => 7
  | SDL_SCANCODE_7 => 8
  | SDL_SCANCODE_8 => 9
  | SDL_SCANCODE_9 => 10
  | SDL_SCANCODE_0 => 11
  | SDL_SCANCODE_MINUS => 12
  | SDL_SCANCODE_EQUALS => 13
  | SDL_SCANCODE_BACKSPACE => 14
  | SDL_SCANCODE_TAB => 15
  | SDL_SCANCODE_Q => 16
  | SDL_SCANCODE_W => 17
  | SDL_SCANCODE_E => 18
  | SDL_SCANCODE_R => 19
  | SDL_SCANCODE_T => 20
  | SDL_SCANCODE_Y => 21
  | SDL_SCANCODE_U => 22
  | SDL_SCANCODE_I => 23
  | SDL_SCANCODE_O => 24
  | SDL_SCANCODE_P => 25
  | SDL_SCANCODE_LEFTBRACKET => 26
  | SDL_SCANCODE_RIGHTBRACKET => 27
  | SDL_SCANCODE_RETURN => 28
  | SDL_SCANCODE_LCTRL => 29
  | SDL_SCANCODE_A => 30
  | SDL_SCANCODE_S => 31
  | SDL_SCANCODE_D => 32
  | SDL_SCANCODE_F => 33
  | SDL_SCANCODE_G => 34
  | SDL_SCANCODE_H => 35
  | SDL_SCANCODE_J => 36
  | SDL_SCANCODE_K => 37
  | SDL_SCANCODE_L => 38
  | SDL_SCANCODE_SEMICOLON => 39
  | SDL_SCANCODE_APOSTROPHE => 40
  | SDL_SCANCODE_GRAVE => 41
  | SDL_SCANCODE_LSHIFT => 42
  | SDL_SCANCODE_BACKSLASH => 43
  | SDL_SCANCODE_Z => 44
  | SDL_SCANCODE_X => 45
  | SDL_SCANCODE_C => 46
  | SDL_SCANCODE_V => 47
  | SDL_SCANCODE_B => 48
  | SDL_SCANCODE_N => 49
  | SDL_SCANCODE_M => 50
  | SDL_SCANCODE_COMMA => 51
  | SDL_SCANCODE_PERIOD => 52
  | SDL_SCANCODE_SLASH => 53
  | SDL_SCANCODE_RSHIFT => 54
  | SDL_SCANCODE_KP_MULTIPLY => 55
  | SDL_SCANCODE_LALT => 56
  | SDL_SCANCODE_SPACE => 57
  | SDL_SCANCODE_CAPSLOCK => 58
  | SDL_SCANCODE_F1 => 59
  | SDL_SCANCODE_F2 => 60
  | SDL_SCANCODE_F3 => 61
  | SDL_SCANCODE_F4 => 62
  | SDL_SCANCODE_F5 => 63
  | SDL_SCANCODE_F6 => 64
  | SDL_SCANCODE_F7 => 65
  | SDL_SCANCODE_F8 => 66
  | SDL_SCANCODE_F9 => 67
  | SDL_SCANCODE_F10 => 68
  | SDL_SCANCODE_NUMLOCKCLEAR => 69
  | SDL_SCANCODE_SCROLLLOCK => 70
  | SDL_SCANCODE_KP_7 => 71
  | SDL_SCANCODE_KP_8 => 72
  | SDL_SCANCODE_KP_9 => 73
  | SDL_SCANCODE_KP_MINUS => 74
  | SDL_SCANCODE_KP_4 => 75
  | SDL_SCANCODE_KP_5 => 76
  | SDL_SCANCODE_KP_6 => 77
  | SDL_SCANCODE_KP_PLUS => 78
  | SDL_SCANCODE_KP_1 => 79
  | SDL_SCANCODE_KP_2 => 80
  | SDL_SCANCODE_KP_3 => 81
  | SDL_SCANCODE_KP_0 => 82
  | SDL_SCANCODE_KP_PERIOD => 83
  | SDL_SCANCODE_LANG5 => 84
  | SDL_SCANCODE_F11 => 85
  | SDL_SCANCODE_F12 => 86
  | SDL_SCANCODE_LANG3 => 87
  | SDL_SCANCODE_LANG4 => 88
  | SDL_SCANCODE_KP_COMMA => 89
  | SDL_SCANCODE_KP_ENTER => 90
  | SDL_SCANCODE_RCTRL => 91
  | SDL_SCANCODE_KP_DIVIDE => 92
  | SDL_SCANCODE_SYSREQ => 93
  | SDL_SCANCODE_RALT => 94
  | SDL_SCANCODE_HOME => 95
  | SDL_SCANCODE_UP => 96
  | SDL_SCANCODE_PAGEUP => 97
  | SDL_SCANCODE_LEFT => 98
  | SDL_SCANCODE_RIGHT => 99
  | SDL_SCANCODE_END => 100
  | SDL_SCANCODE_DOWN => 101
  | SDL_SCANCODE_PAGEDOWN => 102
  | SDL_SCANCODE_INSERT => 103
  | SDL_SCANCODE_DELETE => 104
  | SDL_SCANCODE_MUTE => 105
  | SDL_SCANCODE_VOLUMEDOWN => 106
  | SDL_SCANCODE_VOLUMEUP => 107
  | SDL_SCANCODE_POWER => 108
  | SDL_SCANCODE_KP_EQUALS => 109
  | SDL_SCANCODE_PAUSE => 110
  | SDL_SCANCODE_LANG1 => 111
  | SDL_SCANCODE_LANG2 => 112
  | SDL_SCANCODE_INTERNATIONAL3 => 113
  | SDL_SCANCODE_LGUI => 114
  | SDL_SCANCODE_RGUI => 115
  | SDL_SCANCODE_APPLICATION => 116
  | SDL_SCANCODE_STOP => 117
  | SDL_SCANCODE_AGAIN => 118
  | SDL_SCANCODE_UNDO => 119
  | SDL_SCANCODE_COPY => 120
  | SDL_SCANCODE_PASTE => 121
  | SDL_SCANCODE_FIND => 122
  | SDL_SCANCODE_CUT => 123
  | SDL_SCANCODE_HELP => 124
  | SDL_SCANCODE_MENU => 125
  | SDL_SCANCODE_CALCULATOR => 126
  | SDL_SCANCODE_SLEEP => 127
  | SDL_SCANCODE_APP1 => 128
  | SDL_SCANCODE_WWW => 129
  | SDL_SCANCODE_MAIL => 130
  | SDL_SCANCODE_AC_BOOKMARKS => 131
  | SDL_SCANCODE_COMPUTER => 132
  | SDL_SCANCODE_AC_BACK => 133
  | SDL_SCANCODE_AC_FORWARD => 134
  | SDL_SCANCODE_EJECT => 135
  | SDL_SCANCODE_AUDIONEXT => 136
  | SDL_SCANCODE_AUDIOPLAY => 137
  | SDL_SCANCODE_AUDIOPREV => 138
  | SDL_SCANCODE_AUDIOSTOP => 139
  | SDL_SCANCODE_AC_HOME => 140
  | SDL_SCANCODE_AC_REFRESH => 141
  | SDL_SCANCODE_KP_LEFTPAREN => 142
  | SDL_SCANCODE_KP_RIGHTPAREN => 143
  | SDL_SCANCODE_F13 => 144
  | SDL_SCANCODE_F14 => 145
  | SDL_SCANCODE_F15 => 146
  | SDL_SCANCODE_F16 => 147
  | SDL_SCANCODE_F17 => 148
  | SDL_SCANCODE_F18 => 149
  | SDL_SCANCODE_F19 => 150
  | SDL_SCANCODE_F20 => 151
  | SDL_SCANCODE_F21 => 152
  | SDL_SCANCODE_F22 => 153
  | SDL_SCANCODE_F23 => 154
  | SDL_SCANCODE_F24 => 155
  | SDL_SCANCODE_not_in_table => 156
  end.

Lemma scancode_of_index s : scancodes !! scancode_index s = Some s.
Proof. destruct s; reflexivity. Qed.

#[global] Instance SDL_Scancode_eq_dec : EqDecision SDL_Scancode.
Proof.
  intros a b. destruct (decide (scancode_index a = scancode_index b)) as [E|E].
  - left. pose proof (scancode_of_index a) as Ha. rewrite E, scancode_of_index in Ha. congruence.
  - right. intros ->. by apply E.
Defined.

(** ** KeycodeConverter::convert *)

Definition KEY_RESERVED : Z := 0.

Fixpoint convert_from (n : Z) (map : list SDL_Scancode) (scan_code : SDL_Scancode) : Z :=
  match map with
  | [] => KEY_RESERVED
  | c :: map' => if decide (c = scan_code) then n else convert_from (n + 1) map' scan_code
  end.

Definition convert (scan_code : SDL_Scancode) : Z := convert_from 0 code_map scan_code.

(** Key codes of the table that an earlier entry with the same scan code
    shadows. *)
Definition shadowed : list Z := [93; 118; 121; 149; 182].

(** The finite checks behind the theorem below. *)
Definition known (s : SDL_Scancode) : bool :=
  negb (bool_decide (s = SDL_SCANCODE_UNKNOWN)) && negb (bool_decide (s = SDL_SCANCODE_not_in_table)).
Definition check_scancode (s : SDL_Scancode) : bool :=
  implb (known s) (bool_decide (code_map !! Z.to_nat (convert s) = Some s) &&
                   negb (bool_decide (convert s = KEY_RESERVED))).
Definition check_entry (n : nat) : bool :=
  match code_map !! n with
  | Some s => implb (known s) (Bool.eqb (bool_decide (convert s = Z.of_nat n)) (bool_decide (Z.of_nat n ∉ shadowed)))
  | None => true
  end.

Lemma check_scancodes : forallb check_scancode scancodes = true.
Proof. vm_compute. reflexivity. Qed.
Lemma check_entries : forallb check_entry (seq 0 249) = true.
Proof. vm_compute. reflexivity. Qed.

Lemma not_in_code_map : SDL_SCANCODE_not_in_table ∉ code_map.
Proof. apply (bool_decide_unpack (SDL_SCANCODE_not_in_table ∉ code_map)). vm_compute. exact I. Qed.

Lemma known_spec s : known s = true ↔ s ≠ SDL_SCANCODE_UNKNOWN ∧ s ≠ SDL_SCANCODE_not_in_table.
Proof. unfold known. by rewrite andb_true_iff, !negb_true_iff, !bool_decide_eq_false. Qed.

Lemma convert_known s : known s = true → code_map !! Z.to_nat (convert s) = Some s ∧ convert s ≠ KEY_RESERVED.
Proof.
  intros Hs. assert (Hc := check_scancodes). rewrite forallb_forall in Hc. specialize (Hc s).
  unfold check_scancode in Hc. rewrite Hs in Hc. cbn [implb] in Hc.
  rewrite andb_true_iff, negb_true_iff, bool_decide_eq_true, bool_decide_eq_false in Hc.
  apply Hc, list_elem_of_In, list_elem_of_lookup_2 with (scancode_index s), scancode_of_index.
Qed.

(** [convert] inverts the table: every known scan code goes to a key code
    whose table entry it is, scan codes that are unknown or not in the table go
    to [KEY_RESERVED] and only those do, distinct known scan codes get distinct
    key codes, and a key code is produced by its own entry unless it is one of
    the five shadowed ones. *)
Theorem keycode_convert_inverts :
  length code_map = 249%nat ∧
  (∀ s, s ≠ SDL_SCANCODE_UNKNOWN → s ≠ SDL_SCANCODE_not_in_table →
     code_map !! Z.to_nat (convert s) = Some s ∧ convert s ≠ KEY_RESERVED) ∧
  convert SDL_SCANCODE_UNKNOWN = KEY_RESERVED ∧ convert SDL_SCANCODE_not_in_table = KEY_RESERVED ∧
  (∀ s t, convert s = convert t → convert s ≠ KEY_RESERVED → s = t) ∧
  (∀ n s, code_map !! n = Some s → s ≠ SDL_SCANCODE_UNKNOWN →
     convert s = Z.of_nat n ↔ Z.of_nat n ∉ shadowed).
Proof.
  split; [reflexivity|]. split; [intros s H1 H2; by apply convert_known, known_spec|].
  split; [reflexivity|]. split; [reflexivity|]. split.
  - assert (Hk : ∀ s, convert s ≠ KEY_RESERVED → known s = true).
    { intros s Hs. apply known_spec. split; intros ->; by apply Hs. }
    intros s t Hst Hs. destruct (convert_known s (Hk s Hs)) as [Es _]. rewrite Hst in Hs, Es.
    destruct (convert_known t (Hk t Hs)) as [Et _]. rewrite Et in Es. congruence.
  - intros n s Hn Hs. assert (Hc := check_entries). rewrite forallb_forall in Hc. specialize (Hc n).
    unfold check_entry in Hc. rewrite Hn in Hc. rewrite (proj2 (known_spec s)) in Hc.
    + cbn [implb] in Hc. rewrite Bool.eqb_true_iff in Hc.
      rewrite <- (bool_decide_eq_true (convert s = _)), Hc; [apply bool_decide_eq_true|].
      apply lookup_lt_Some in Hn. apply in_seq. change (length code_map) with 249%nat in Hn. lia.
    + split; [done|]. intros ->. apply list_elem_of_lookup_2 in Hn.
      by apply not_in_code_map in Hn.
Qed.
