(* ===== verification/IpConfig.v ===== *)
(** * The container's static IP configuration

    common/binary_writer.cpp, android/ip_config_builder.cpp and the part of
    container/lxc_container.cpp that builds the configuration (under
    src/src/anbox).  A writer works on a fixed region of memory: [written] is
    what it has put there and [limit] the region's size. *)

From S2P Require Import Prelude Utils Network Input.

(** ** common::BinaryWriter *)

Inductive Order : Type := Big | Little.

Record BinaryWriter : Type := mkWriter { written : bytes; limit : nat; byte_order_ : Order }.

(** [is_little_endian] holds on the supported machines. *)
Definition writer_new (limit : nat) : BinaryWriter := mkWriter [] limit Little.

Definition set_byte_order (o : Order) : M BinaryWriter unit :=
  modify (λ w, mkWriter (written w) (limit w) o).

(** The bounds check and copy every operation ends with. *)
Definition write_raw (data : bytes) : M BinaryWriter unit :=
  w ← get;
  if decide (limit w < length (written w) + length data)%nat then throw out_of_range
  else put (mkWriter (written w ++ data) (limit w) (byte_order_ w)).

Definition word_bytes (o : Order) (n : nat) (v : Z) : bytes :=
  match o with Big => rev (le_bytes n v) | Little => le_bytes n v end.

Definition write_uint16 (value : Z) : M BinaryWriter unit :=
  w ← get; write_raw (word_bytes (byte_order_ w) 2 value).
Definition write_uint32 (value : Z) : M BinaryWriter unit :=
  w ← get; write_raw (word_bytes (byte_order_ w) 4 value).
Definition write_string (s : bytes) : M BinaryWriter unit := write_raw s.
(** The size is converted to 16 bits. *)
Definition write_string_with_size (s : bytes) : M BinaryWriter unit :=
  write_uint16 (u16 (Z.of_nat (length s))) ≫= λ _, write_string s.
Definition bytes_written (w : BinaryWriter) : nat := length (written w).

(** ** android::IpConfigBuilder *)

Inductive Version : Type := Version1 | Version2.
Inductive Assignment : Type := Static | DHCP.

Definition version_value (v : Version) : Z := match v with Version1 => 1 | Version2 => 2 end.
Definition assignment_to_string (a : Assignment) : bytes :=
  match a with Static => bytes_of_string "STATIC" | DHCP => bytes_of_string "DHCP" end.

Record IpConfig : Type := mkIpConfig {
  version_ : Version;
  assignment_ : Assignment;
  link_address : bytes;
  link_prefix_length : Z;
  gateway_ : bytes;
  dns_servers_ : list bytes;
  id_ : Z;
}.

Definition set_version (v : Version) (c : IpConfig) : IpConfig :=
  mkIpConfig v (assignment_ c) (link_address c) (link_prefix_length c) (gateway_ c) (dns_servers_ c) (id_ c).
Definition set_assignment (a : Assignment) (c : IpConfig) : IpConfig :=
  mkIpConfig (version_ c) a (link_address c) (link_prefix_length c) (gateway_ c) (dns_servers_ c) (id_ c).
Definition set_link_address (address : bytes) (prefix_length : Z) (c : IpConfig) : IpConfig :=
  mkIpConfig (version_ c) (assignment_ c) address prefix_length (gateway_ c) (dns_servers_ c) (id_ c).
Definition set_gateway (gateway : bytes) (c : IpConfig) : IpConfig :=
  mkIpConfig (version_ c) (assignment_ c) (link_address c) (link_prefix_length c) gateway (dns_servers_ c) (id_ c).
Definition set_dns_servers (dns_servers : list bytes) (c : IpConfig) : IpConfig :=
  mkIpConfig (version_ c) (assignment_ c) (link_address c) (link_prefix_length c) (gateway_ c) dns_servers (id_ c).
Definition set_id (id : Z) (c : IpConfig) : IpConfig :=
  mkIpConfig (version_ c) (assignment_ c) (link_address c) (link_prefix_length c) (gateway_ c) (dns_servers_ c) id.

Definition assignment_key : bytes := bytes_of_string "ipAssignment".
Definition link_address_key : bytes := bytes_of_string "linkAddress".
Definition gateway_key : bytes := bytes_of_string "gateway".
Definition dns_key : bytes := bytes_of_string "dns".
Definition id_key : bytes := bytes_of_string "id".
Definition eos_key : bytes := bytes_of_string "eos".
Definition is_default_gateway : Z := 0.
Definition gateway_is_present : Z := 1.

Definition ip_config_write (c : IpConfig) : M BinaryWriter nat :=
  set_byte_order Big ≫= λ _,
  write_uint32 (version_value (version_ c)) ≫= λ _,
  write_string_with_size assignment_key ≫= λ _,
  write_string_with_size (assignment_to_string (assignment_ c)) ≫= λ _,
  write_string_with_size link_address_key ≫= λ _,
  write_string_with_size (link_address c) ≫= λ _,
  write_uint32 (link_prefix_length c) ≫= λ _,
  write_string_with_size gateway_key ≫= λ _,
  write_uint32 is_default_gateway ≫= λ _,
  write_uint32 gateway_is_present ≫= λ _,
  write_string_with_size (gateway_ c) ≫= λ _,
  write_string_with_size dns_key ≫= λ _,
  for_each (dns_servers_ c) write_string_with_size ≫= λ _,
  write_string_with_size id_key ≫= λ _,
  write_uint32 (id_ c) ≫= λ _,
  write_string_with_size eos_key ≫= λ _,
  w ← get; mret (bytes_written w).

(** ** LxcContainer::setup_network: the configuration that is written *)

Definition slash : Ascii.ascii := Ascii.ascii_of_nat 47.

Definition default_container_ip_address : string := "192.168.250.2".
Definition default_container_ip_prefix_length : Z := 24.
Definition default_host_ip_address : string := "192.168.250.1".
Definition default_dns_server : string := "8.8.8.8".

(** [atoi]: leading blanks, a sign and digits; no digits give zero.  A number
    outside [int] (undefined in C) is kept as it is and truncated by the
    conversion to 32 bits. *)
Definition atoi (s : string) : Z := (read_signed (drop_spaces (bytes_of_string s))).1.1.

(** [builder] is the builder as default-initialised, with indeterminate
    scalar fields; every field is set. *)
Definition network_config (builder : IpConfig) (address gateway : string) (dns_servers : list string) : IpConfig :=
  let c := set_assignment Static (set_version Version2 builder) in
  let '(addr, prefix) :=
    if String.eqb address "" then (default_container_ip_address, default_container_ip_prefix_length)
    else match string_split address slash with
         | [a] => (a, default_container_ip_prefix_length)
         | [a; p] => (a, u32 (atoi p))
         | _ => (default_container_ip_address, default_container_ip_prefix_length)
         end in
  let c := set_link_address (bytes_of_string addr) prefix c in
  let c := set_gateway (bytes_of_string (if String.eqb gateway "" then default_host_ip_address else gateway)) c in
  let c := set_dns_servers
             (map bytes_of_string (match dns_servers with [] => [default_dns_server] | _ => dns_servers end)) c in
  set_id 0 c.

(** What is written to the file: the bytes of the 512-byte buffer. *)
Definition setup_network (builder : IpConfig) (address gateway : string) (dns_servers : list string) :
  outcome BinaryWriter nat := ip_config_write (network_config builder address gateway dns_servers) (writer_new 512).

(** ** The layout *)

Definition be (n : nat) (v : Z) : bytes := rev (le_bytes n v).
Definition utf (s : bytes) : bytes := be 2 (u16 (Z.of_nat (length s))) ++ s.

Definition trailer (c : IpConfig) : bytes := utf id_key ++ be 4 (id_ c) ++ utf eos_key.

Definition layout (c : IpConfig) : bytes :=
  be 4 (version_value (version_ c)) ++
  utf assignment_key ++ utf (assignment_to_string (assignment_ c)) ++
  utf link_address_key ++ utf (link_address c) ++ be 4 (link_prefix_length c) ++
  utf gateway_key ++ be 4 is_default_gateway ++ be 4 gateway_is_present ++ utf (gateway_ c) ++
  utf dns_key ++ concat (map utf (dns_servers_ c)) ++ trailer c.

(** [m] writes [data] if it fits; otherwise it throws after a prefix. *)
Definition writes {A} (m : M BinaryWriter A) (data : bytes) : Prop := ∀ w, byte_order_ w = Big →
  (length (written w) ≤ limit w)%nat →
  if decide (length (written w) + length data ≤ limit w)%nat
  then ∃ a, m w = Val (mkWriter (written w ++ data) (limit w) Big) a
  else ∃ w', m w = Exc w' out_of_range ∧ limit w' = limit w ∧ (length (written w') ≤ limit w)%nat ∧
         ∃ p, written w' = written w ++ p ∧ p `prefix_of` data.

Lemma write_raw_writes data : writes (write_raw data) data.
Proof.
  intros w Hb Hl. unfold write_raw. run_m. case_decide as Hd.
  - rewrite decide_False by lia. rewrite Hb. by eexists.
  - rewrite decide_True by lia. exists w. split; [done|]. split; [done|]. split; [done|].
    exists []. split; [by rewrite app_nil_r|]. apply prefix_nil.
Qed.

Lemma writes_bind {A B} (m : M BinaryWriter A) (k : A → M BinaryWriter B) d1 d2 :
  writes m d1 → (∀ a, writes (k a) d2) → writes (m ≫= k) (d1 ++ d2).
Proof.
  intros Hm Hk w Hb Hl. specialize (Hm w Hb Hl). rewrite length_app. run_m.
  destruct (decide (length (written w) + length d1 ≤ limit w)%nat) as [H1|H1].
  - destruct Hm as [a ->]. specialize (Hk a (mkWriter (written w ++ d1) (limit w) Big) eq_refl). cbn in Hk.
    rewrite length_app in Hk. specialize (Hk H1). rewrite app_assoc. rewrite Nat.add_assoc.
    case_decide; [done|]. destruct Hk as (w' & -> & ? & ? & p & Hp & Hpre). exists w'. split; [done|].
    split; [done|]. split; [done|]. exists (d1 ++ p). split; [by rewrite app_assoc|]. by apply prefix_app.
  - destruct Hm as (w' & -> & ? & ? & p & Hp & Hpre). rewrite decide_False by lia. exists w'.
    split; [done|]. split; [done|]. split; [done|]. exists p. split; [done|]. by apply prefix_app_r.
Qed.

Lemma writes_uint16 v : writes (write_uint16 v) (be 2 v).
Proof. intros w Hb Hl. unfold write_uint16. run_m. rewrite Hb. exact (write_raw_writes (be 2 v) w Hb Hl). Qed.
Lemma writes_uint32 v : writes (write_uint32 v) (be 4 v).
Proof. intros w Hb Hl. unfold write_uint32. run_m. rewrite Hb. exact (write_raw_writes (be 4 v) w Hb Hl). Qed.
Lemma writes_string_with_size s : writes (write_string_with_size s) (utf s).
Proof. apply writes_bind; [apply writes_uint16|]. intros _. apply write_raw_writes. Qed.

Lemma writes_nil {A} (m : M BinaryWriter A) : (∀ w, ∃ a, m w = Val w a) → writes m [].
Proof.
  intros Hm w Hb Hl. rewrite Nat.add_0_r, decide_True by done. destruct (Hm w) as [a ->]. exists a.
  rewrite app_nil_r. by destruct w; cbn in *; subst.
Qed.

Lemma writes_for_each l : writes (for_each l write_string_with_size) (concat (map utf l)).
Proof.
  induction l as [|s l IH]; [apply writes_nil; by eexists|]. cbn [for_each map concat].
  apply writes_bind; [apply writes_string_with_size|done].
Qed.

Lemma writes_app_nil {A} (m : M BinaryWriter A) d : writes m (d ++ []) → writes m d.
Proof. by rewrite app_nil_r. Qed.

(** The writer's operations after the byte order has been set. *)
Lemma ip_config_body c : writes (λ w,
    match ip_config_write c w with Val w' _ => Val w' tt | Exc w' e => Exc w' e | Ub => Ub end) (layout c).
Proof.
  assert (H : ∀ w, byte_order_ w = Big →
    ip_config_write c w = (write_uint32 (version_value (version_ c)) ≫= λ _,
      write_string_with_size assignment_key ≫= λ _,
      write_string_with_size (assignment_to_string (assignment_ c)) ≫= λ _,
      write_string_with_size link_address_key ≫= λ _,
      write_string_with_size (link_address c) ≫= λ _,
      write_uint32 (link_prefix_length c) ≫= λ _,
      write_string_with_size gateway_key ≫= λ _,
      write_uint32 is_default_gateway ≫= λ _,
      write_uint32 gateway_is_present ≫= λ _,
      write_string_with_size (gateway_ c) ≫= λ _,
      write_string_with_size dns_key ≫= λ _,
      for_each (dns_servers_ c) write_string_with_size ≫= λ _,
      write_string_with_size id_key ≫= λ _,
      write_uint32 (id_ c) ≫= λ _,
      write_string_with_size eos_key ≫= λ _,
      w ← get; mret (bytes_written w)) w).
  { intros w Hb. unfold ip_config_write, set_byte_order. run_m. destruct w; cbn in *; by subst. }
  assert (Hw : writes (ip_config_write c) (layout c)).
  { intros w Hb. rewrite (H w Hb). revert w Hb. apply writes_app_nil. unfold layout, trailer. rewrite <- !app_assoc.
    repeat lazymatch goal with
    | |- writes (write_uint32 ?v ≫= _) _ => apply (writes_bind _ _ _ _ (writes_uint32 v)); intros _
    | |- writes (write_string_with_size ?t ≫= _) _ =>
        apply (writes_bind _ _ _ _ (writes_string_with_size t)); intros _
    | |- writes (for_each ?l _ ≫= _) _ => apply (writes_bind _ _ _ _ (writes_for_each l)); intros _
    end.
    apply writes_nil. intros w. by eexists. }
  intros w Hb Hl. specialize (Hw w Hb Hl). case_decide.
  - destruct Hw as [a ->]. by exists tt.
  - destruct Hw as (w' & -> & ?). by exists w'.
Qed.

(** ** Reading it back *)

Definition be_value (l : bytes) : Z := le_value (rev l).
Definition read_be (n : nat) (l : bytes) : option (Z * bytes) :=
  if decide (n ≤ length l)%nat then Some (be_value (take n l), drop n l) else None.
Definition read_utf (l : bytes) : option (bytes * bytes) :=
  match read_be 2 l with
  | Some (n, l') =>
      if decide (Z.to_nat n ≤ length l')%nat then Some (take (Z.to_nat n) l', drop (Z.to_nat n) l') else None
  | None => None
  end.
Definition read_key (k : bytes) (l : bytes) : option bytes :=
  '(s, l') ← read_utf l; if decide (s = k) then Some l' else None.

(** The servers are not counted: they end where the 13 bytes of the trailer
    begin. *)
Fixpoint read_servers (fuel : nat) (l : bytes) : option (list bytes * bytes) :=
  if decide (length l ≤ 13)%nat then Some ([], l)
  else match fuel with
       | O => None
       | S fuel' =>
           '(s, l1) ← read_utf l;
           '(ss, l2) ← read_servers fuel' l1;
           Some (s :: ss, l2)
       end.

Definition read_config (l : bytes) : option IpConfig :=
  '(v, l) ← read_be 4 l;
  version ← (if decide (v = 1) then Some Version1 else if decide (v = 2) then Some Version2 else None);
  l ← read_key assignment_key l;
  '(a, l) ← read_utf l;
  assignment ← (if decide (a = assignment_to_string Static) then Some Static
                else if decide (a = assignment_to_string DHCP) then Some DHCP else None);
  l ← read_key link_address_key l;
  '(addr, l) ← read_utf l;
  '(prefix, l) ← read_be 4 l;
  l ← read_key gateway_key l;
  '(_, l) ← read_be 4 l;
  '(_, l) ← read_be 4 l;
  '(gw, l) ← read_utf l;
  l ← read_key dns_key l;
  '(servers, l) ← read_servers (length l) l;
  l ← read_key id_key l;
  '(id, l) ← read_be 4 l;
  l ← read_key eos_key l;
  if decide (l = []) then Some (mkIpConfig version assignment addr prefix gw servers id) else None.

Definition short (s : bytes) : Prop := Z.of_nat (length s) < 65536.

Lemma length_be n v : length (be n v) = n.
Proof. unfold be. by rewrite length_rev, length_le_bytes. Qed.

Lemma read_be_app n v l : 0 ≤ v < 256 ^ Z.of_nat n → read_be n (be n v ++ l) = Some (v, l).
Proof.
  intros Hv. unfold read_be. rewrite decide_True by (rewrite length_app, length_be; lia).
  rewrite take_app_length', drop_app_length' by (by rewrite length_be).
  unfold be_value, be. by rewrite rev_involutive, le_value_word.
Qed.

Lemma read_utf_app s l : short s → read_utf (utf s ++ l) = Some (s, l).
Proof.
  unfold short. intros Hs. unfold read_utf, utf.
  assert (Hu : u16 (Z.of_nat (length s)) = Z.of_nat (length s)) by (apply (wrap_small 16); change (2 ^ 16) with 65536; lia).
  rewrite Hu, <- app_assoc, read_be_app by (change (256 ^ Z.of_nat 2) with 65536; lia).
  rewrite Nat2Z.id, decide_True by (rewrite length_app; lia). by rewrite take_app_length, drop_app_length.
Qed.

Lemma read_key_app k l : short k → read_key k (utf k ++ l) = Some l.
Proof. intros Hk. unfold read_key. rewrite read_utf_app by done. cbn. by rewrite decide_True. Qed.

Lemma read_servers_app fuel ss t : Forall short ss → length t = 13%nat → (length ss ≤ fuel)%nat →
  read_servers fuel (concat (map utf ss) ++ t) = Some (ss, t).
Proof.
  intros Hss Ht. revert fuel. induction Hss as [|s ss Hs _ IH]; intros fuel Hf.
  - cbn. destruct fuel; cbn; rewrite decide_True by lia; done.
  - destruct fuel as [|fuel]; cbn [length] in Hf; [lia|]. cbn [map concat read_servers].
    rewrite <- app_assoc, decide_False.
    + rewrite read_utf_app by done. cbn. rewrite IH by lia. done.
    + unfold utf at 1. rewrite !length_app, length_be. lia.
Qed.

Lemma length_trailer c : length (trailer c) = 13%nat.
Proof. unfold trailer, utf. by rewrite !length_app, !length_be. Qed.

Lemma length_servers ss : (length ss ≤ length (concat (map utf ss)))%nat.
Proof.
  induction ss as [|s ss IH]; cbn [map concat length]; [lia|]. rewrite length_app. unfold utf at 1.
  rewrite length_app, length_be. lia.
Qed.

Lemma read_config_layout c :
  short (link_address c) → short (gateway_ c) → Forall short (dns_servers_ c) →
  is_u32 (link_prefix_length c) → is_u32 (id_ c) → read_config (layout c) = Some c.
Proof.
  intros Ha Hg Hd Hp Hi. unfold read_config, layout.
  assert (H4 : 256 ^ Z.of_nat 4 = 4294967296) by reflexivity. unfold is_u32 in *.
  rewrite read_be_app by (rewrite H4; destruct (version_ c); cbn; lia). cbn [mbind option_bind].
  assert (Hv : (if decide (version_value (version_ c) = 1) then Some Version1
    else if decide (version_value (version_ c) = 2) then Some Version2 else None) = Some (version_ c)) by (by destruct (version_ c)).
  rewrite Hv. cbn [mbind option_bind].
  rewrite read_key_app by (by vm_compute). cbn [mbind option_bind].
  rewrite read_utf_app by (destruct (assignment_ c); by vm_compute). cbn [mbind option_bind].
  assert (Has : (if decide (assignment_to_string (assignment_ c) = assignment_to_string Static) then Some Static
    else if decide (assignment_to_string (assignment_ c) = assignment_to_string DHCP) then Some DHCP else None)
    = Some (assignment_ c)) by (by destruct (assignment_ c)).
  rewrite Has. cbn [mbind option_bind].
  rewrite read_key_app by (by vm_compute). cbn [mbind option_bind].
  rewrite read_utf_app by done. cbn [mbind option_bind].
  rewrite read_be_app by lia. cbn [mbind option_bind].
  rewrite read_key_app by (by vm_compute). cbn [mbind option_bind].
  rewrite read_be_app by (rewrite H4; unfold is_default_gateway; lia). cbn [mbind option_bind].
  rewrite read_be_app by (rewrite H4; unfold gateway_is_present; lia). cbn [mbind option_bind].
  rewrite read_utf_app by done. cbn [mbind option_bind].
  rewrite read_key_app by (by vm_compute). cbn [mbind option_bind].
  rewrite read_servers_app; [|done|apply length_trailer|rewrite length_app; pose proof (length_servers (dns_servers_ c)); lia].
  cbn [mbind option_bind]. unfold trailer.
  rewrite read_key_app by (by vm_compute). cbn [mbind option_bind].
  rewrite read_be_app by lia. cbn [mbind option_bind].
  rewrite <- (app_nil_r (utf eos_key)), read_key_app by (by vm_compute). cbn [mbind option_bind].
  rewrite decide_True by done. by destruct c.
Qed.

(** The operation returns the number of bytes in the region. *)
Definition returns_size (m : M BinaryWriter nat) : Prop :=
  ∀ w w' n, m w = Val w' n → n = length (written w').

Lemma returns_size_bind {A} (m : M BinaryWriter A) k : (∀ a, returns_size (k a)) → returns_size (m ≫= k).
Proof. intros Hk w w' n. run_m. destruct (m w); [apply Hk|done..]. Qed.

Lemma ip_config_returns c : returns_size (ip_config_write c).
Proof. unfold ip_config_write. do 16 (apply returns_size_bind; intros _). intros w w' n. by intros [= <- <-]. Qed.

(** ** Properties *)

(** The IP configuration file.  Writing a configuration into a region of
    any size either stores its complete image and returns the image's length,
    or, when the region is too small, throws after storing a prefix without
    writing past the region; and the image determines the configuration:
    reading it back gives every field, with all the DNS servers in order. *)
Theorem ip_config_roundtrip c n :
  short (link_address c) → short (gateway_ c) → Forall short (dns_servers_ c) →
  is_u32 (link_prefix_length c) → is_u32 (id_ c) →
  (if decide (length (layout c) ≤ n)%nat
   then ∃ w, ip_config_write c (writer_new n) = Val w (length (written w)) ∧ written w = layout c ∧
          read_config (written w) = Some c
   else ∃ w, ip_config_write c (writer_new n) = Exc w out_of_range ∧
          (length (written w) ≤ n)%nat ∧ written w `prefix_of` layout c).
Proof.
  intros Ha Hg Hd Hp Hi.
  assert (Hset : ip_config_write c (writer_new n) = ip_config_write c (mkWriter [] n Big)) by reflexivity.
  assert (Hret : ∀ w a, ip_config_write c (mkWriter [] n Big) = Val w a → a = length (written w)).
  { intros w a. apply ip_config_returns. }
  assert (Hw := ip_config_body c (mkWriter [] n Big) eq_refl (Nat.le_0_l _)). cbn [written limit length app] in Hw.
  rewrite Hset. change (0 + length (layout c))%nat with (length (layout c)) in Hw. case_decide.
  - destruct Hw as [[] Hw]. destruct (ip_config_write c (mkWriter [] n Big)) as [w a|w e|] eqn:E; [|done..].
    injection Hw as ->. exists (mkWriter (layout c) n Big). rewrite (Hret _ _ eq_refl). split; [done|].
    split; [done|]. by apply read_config_layout.
  - destruct Hw as (w & Hw & Hl & Hlen & p & Hp' & Hpre).
    destruct (ip_config_write c (mkWriter [] n Big)) as [w1 a|w1 e|] eqn:E; [done| |done].
    injection Hw as -> ->. exists w. split; [done|]. split; [done|]. by rewrite Hp'.
Qed.

Definition blank_builder : IpConfig := mkIpConfig Version1 DHCP [] 0 [] [] 7.

Lemma ip_config_roundtrip_witness : ∃ w,
  setup_network blank_builder "10.0.0.5/16" "" ["1.1.1.1"; "9.9.9.9"] = Val w (length (written w)) ∧
  read_config (written w) = Some (network_config blank_builder "10.0.0.5/16" "" ["1.1.1.1"; "9.9.9.9"]).
Proof.
  pose proof (ip_config_roundtrip (network_config blank_builder "10.0.0.5/16" "" ["1.1.1.1"; "9.9.9.9"]) 512) as H.
  rewrite decide_True in H by (vm_compute; lia).
  destruct H as (w & Hw & _ & Hr); [unfold short, is_u32; vm_compute; try done; repeat constructor..|].
  - exists w. split; [exact Hw|exact Hr].
Defined.
