(* ===== verification/Rpc.v ===== *)
(** * RPC layer (src/src/anbox/rpc)

    [PendingCallCache], [Channel] (client side) and [MessageProcessor] (both
    sides) with the [invoke] template of the server side.  Protobuf messages
    are the records generated from [anbox_rpc.proto]; their serialisation is
    code generated at build time, so it is the class [ProtobufWire], whose laws
    are protobuf's documented round trip. *)

From S2P Require Import Prelude Framing Utils Network.

(** ** Messages of anbox_rpc.proto and their serialisation *)

Record Invocation : Type := mkInvocation {
  inv_id : Z;
  method_name : string;
  parameters : bytes;
  protocol_version : Z;
}.

Record Result : Type := mkResult {
  res_id : option Z;
  res_response : bytes;
  res_events : list bytes;
}.

#[global] Instance Invocation_eq_dec : EqDecision Invocation.
Proof. solve_decision. Defined.
#[global] Instance Result_eq_dec : EqDecision Result.
Proof. solve_decision. Defined.

Class ProtobufWire : Type := {
  ser_invocation : Invocation → bytes;
  parse_invocation : bytes → Invocation;
  ser_result : Result → bytes;
  parse_result : bytes → Result;
  parse_ser_invocation i : parse_invocation (ser_invocation i) = i;
  parse_ser_result r : parse_result (ser_result r) = r;
}.

(** ** PendingCallCache *)

(** [response] and [complete] are pointers to the caller's message object and
    closure; [None] is the null pointer. *)
Record PendingCall : Type := mkPendingCall {
  response : option nat;
  complete : option nat;
}.

(** The cache, with what its operations do to the world: [messages] holds the
    bytes each caller-owned message object was last parsed from and
    [completions] the closures run so far, in order. *)
Record PendingCallCache : Type := mkCache {
  pending_calls_ : gmap Z PendingCall;
  messages : gmap nat bytes;
  completions : list nat;
}.

Definition set_pending (p : gmap Z PendingCall) (c : PendingCallCache) : PendingCallCache :=
  mkCache p (messages c) (completions c).

Definition run_closure (k : nat) : M PendingCallCache unit :=
  modify (λ c, mkCache (pending_calls_ c) (messages c) (completions c ++ [k])).

Definition parse_into (r : option nat) (data : bytes) : M PendingCallCache unit :=
  match r with
  | Some p => modify (λ c, mkCache (pending_calls_ c) (<[p := data]> (messages c)) (completions c))
  | None => undefined
  end.

(** The map is keyed by [int], the protobuf ids are [uint32]. *)
Definition save_completion_details (invocation : Invocation) (r : option nat) (k : option nat) :
    M PendingCallCache unit :=
  modify (λ c, set_pending (<[i32 (inv_id invocation) := mkPendingCall r k]> (pending_calls_ c)) c).

Definition populate_message_for_result (id : Z)
    (populator : option nat → M PendingCallCache unit) : M PendingCallCache unit :=
  c ← get;
  match pending_calls_ c !! i32 id with
  | Some call => populator (response call)
  | None => throw out_of_range
  end.

Definition complete_response (id : Z) : M PendingCallCache unit :=
  c ← get;
  completion ←
    (match pending_calls_ c !! i32 id with
     | Some call =>
         put (set_pending (delete (i32 id) (pending_calls_ c)) c) ≫= λ _, mret call
     | None => mret (mkPendingCall None None)
     end);
  match complete completion with
  | Some k => run_closure k
  | None => mret tt
  end.

Definition force_completion : M PendingCallCache unit :=
  c ← get;
  for_each (sorted_entries (pending_calls_ c)) (λ call,
    match complete call.2 with
    | Some k => run_closure k
    | None => undefined
    end) ≫= λ _,
  modify (set_pending ∅).

Definition cache_empty (c : PendingCallCache) : bool := bool_decide (pending_calls_ c = ∅).

(** ** Wire format *)

Definition header_size : nat := 4.
Definition MessageType_invocation : Z := 0.
Definition MessageType_response : Z := 1.

(** The bytes [send_message] puts on the wire for a serialised message. *)
Definition frame (type : Z) (message : bytes) : bytes :=
  let size := Z.of_nat (length message) in
  [Z.land (Z.shiftr size 16) 255; Z.land (Z.shiftr size 8) 255; Z.land (Z.shiftr size 0) 255; type]
    ++ message.

Definition message_size (high medium low : Z) : nat :=
  Z.to_nat (Z.shiftl high 16 + Z.shiftl medium 8 + low).

(** ** Channel *)

Record Channel : Type := mkChannel {
  next_message_id : Z;
  pending_calls : PendingCallCache;
  sender_ : Sender;
}.

Definition with_pending {A} : M PendingCallCache A → M Channel A :=
  zoom pending_calls (λ p c, mkChannel (next_message_id c) p (sender_ c)).
Definition with_sender {A} : M Sender A → M Channel A :=
  zoom sender_ (λ s c, mkChannel (next_message_id c) (pending_calls c) s).

Definition next_id : M Channel Z :=
  c ← get;
  put (mkChannel (u32 (next_message_id c + 1)) (pending_calls c) (sender_ c)) ≫= λ _,
  mret (next_message_id c).

Definition notify_disconnected : M Channel unit := with_pending force_completion.

Definition send_message (type : Z) (message : bytes) : M Channel unit :=
  try_catch (with_sender (send (frame type message)))
    (λ e, match e with
          | runtime_error _ | system_error _ => notify_disconnected ≫= λ _, throw e
          | _ => throw e
          end).

Section channel.
Context `{ProtobufWire}.

Definition invocation_for (name : string) (request : bytes) : M Channel Invocation :=
  id ← next_id;
  mret (mkInvocation id name request 1).

Definition call_method (name : string) (request : bytes) (r : option nat) (k : option nat) :
    M Channel unit :=
  invocation ← invocation_for name request;
  with_pending (save_completion_details invocation r k) ≫= λ _,
  send_message MessageType_invocation (ser_invocation invocation).

Definition send_event (event : bytes) : M Channel unit :=
  send_message MessageType_response (ser_result (mkResult None [] [event])).
End channel.

(** ** MessageProcessor *)

Record Env (X : Type) : Type := mkEnv {
  env_pending : PendingCallCache;
  env_sender : Sender;
  server : X;
}.
Arguments mkEnv {_} _ _ _.
Arguments env_pending {_} _.
Arguments env_sender {_} _.
Arguments server {_} _.

Record Processor (X : Type) : Type := mkProcessor { buffer_ : bytes; env : Env X }.
Arguments mkProcessor {_} _ _.
Arguments buffer_ {_} _.
Arguments env {_} _.

Section processor.
Context `{ProtobufWire} {X : Type}.

Definition env_cache {A} : M PendingCallCache A → M (Env X) A :=
  zoom env_pending (λ p e, mkEnv p (env_sender e) (server e)).

Definition send_response (id : Z) (res : bytes) : M (Env X) unit :=
  zoom env_sender (λ s e, mkEnv (env_pending e) s (server e))
    (send (frame MessageType_response (ser_result (mkResult (Some id) res [])))).

(** The two virtual members a concrete processor overrides. *)
Variable dispatch : Invocation → M (Env X) unit.
Variable process_event_sequence : bytes → M (Env X) unit.

Definition handle_message (message_type : Z) (body : bytes) : M (Env X) unit :=
  if decide (message_type = MessageType_invocation) then dispatch (parse_invocation body)
  else if decide (message_type = MessageType_response) then
    let result := parse_result body in
    (match res_id result with
     | Some id =>
         env_cache (populate_message_for_result id (λ m, parse_into m (res_response result)))
           ≫= λ _, env_cache (complete_response id)
     | None => mret tt
     end) ≫= λ _,
    for_each (res_events result) process_event_sequence
  else mret tt.

Definition in_env {A} : M (Env X) A → M (Processor X) A :=
  zoom env (λ e p, mkProcessor (buffer_ p) e).

Fixpoint process_loop (fuel : nat) : M (Processor X) bool :=
  match fuel with
  | O => mret true
  | S fuel' =>
      p ← get;
      match buffer_ p with
      | [] => mret true
      | high :: medium :: low :: message_type :: _ =>
          let size := message_size high medium low in
          if decide (length (buffer_ p) < size + header_size)%nat then mret true
          else
            in_env (handle_message message_type (take size (drop header_size (buffer_ p)))) ≫= λ _,
            modify (λ p, mkProcessor (drop (header_size + size) (buffer_ p)) (env p)) ≫= λ _,
            process_loop fuel'
      | _ => undefined
      end
  end.

(** Each iteration removes at least the header, so the number of buffered
    bytes bounds the number of iterations. *)
Definition process_data (data : bytes) : M (Processor X) bool :=
  modify (λ p, mkProcessor (buffer_ p ++ data) (env p)) ≫= λ _,
  p ← get;
  process_loop (S (length (buffer_ p))).

(** One [process_data] per read of the socket. *)
Fixpoint process_reads (reads : list bytes) : M (Processor X) bool :=
  match reads with
  | [] => mret true
  | c :: cs => process_data c ≫= λ _, process_reads cs
  end.
End processor.

(** ** invoke: unpack the parameters, call the server, send the result *)

Section invoke.
Context `{ProtobufWire} {X Param Res : Type}.
Variable parse_param : bytes → option Param.
Variable ser_res : Res → bytes.
Variable default_res : Res.
Variable set_error : string → Res → Res.

Definition what (e : exn) : string :=
  match e with
  | runtime_error s | logic_error s => s
  | out_of_range => "out of range"
  | system_error _ => "system error"
  | bad_optional => "bad optional access"
  end.

(** The server function works on the processor and on its result message and
    may run the [done] callback, which sends the result as it is then. *)
Definition send_result (id : Z) : M (Env X * Res) unit := λ s,
  zoom fst (λ e s, (e, s.2)) (send_response id (ser_res s.2)) s.

Definition invoke
    (function : Param → M (Env X * Res) unit → M (Env X * Res) unit)
    (invocation : Invocation) : M (Env X) unit := λ e,
  match parse_param (parameters invocation) with
  | None => Exc e (runtime_error "Failed to parse message parameters!")
  | Some p =>
      match
        try_catch (function p (send_result (inv_id invocation)))
          (λ x, modify (λ s, (s.1, set_error ("Error processing request: " +:+ what x) s.2))
                  ≫= λ _, send_result (inv_id invocation))
          (e, default_res)
      with
      | Val s _ => Val s.1 tt
      | Exc s x => Exc s.1 x
      | Ub => Ub
      end
  end.
End invoke.

(** * Theorems *)

(** ** The header encodes the size modulo [2 ^ 24] *)

Lemma header_size_mod (n : Z) :
  0 ≤ n →
  Z.shiftl (Z.land (Z.shiftr n 16) 255) 16 + Z.shiftl (Z.land (Z.shiftr n 8) 255) 8
    + Z.land (Z.shiftr n 0) 255 = n mod 2 ^ 24.
Proof.
  intros Hn. change 255 with (Z.ones 8). rewrite !Z.land_ones by lia.
  rewrite !Z.shiftl_mul_pow2, !Z.shiftr_div_pow2 by lia.
  change (2 ^ 16) with 65536. change (2 ^ 8) with 256. change (2 ^ 0) with 1.
  change (2 ^ 24) with 16777216. rewrite Z.div_1_r. Z.div_mod_to_equations. lia.
Qed.

Lemma message_size_frame (m : bytes) :
  let size := Z.of_nat (length m) in
  message_size (Z.land (Z.shiftr size 16) 255) (Z.land (Z.shiftr size 8) 255)
    (Z.land (Z.shiftr size 0) 255) = Z.to_nat (Z.of_nat (length m) mod 2 ^ 24).
Proof. cbn zeta. unfold message_size. by rewrite header_size_mod by lia. Qed.

(** ** The processor's frame format *)

Definition rpc_frame_len (b : bytes) : option nat :=
  match b with
  | high :: medium :: low :: _ :: _ =>
      let n := (message_size high medium low + header_size)%nat in
      if decide (length b < n)%nat then None else Some n
  | _ => None
  end.

#[export] Instance rpc_format : FrameFormat.
Proof.
  refine {| frame_len := rpc_frame_len |}.
  - intros b n. unfold rpc_frame_len, header_size.
    do 4 (destruct b as [|? b]; [done|]). cbv beta iota zeta.
    case_decide; [done|]. intros [= <-]. lia.
  - intros b x n. unfold rpc_frame_len.
    do 4 (destruct b as [|? b]; [done|]). cbn [app]. cbv beta iota zeta.
    do 2 case_decide; try done. cbn [length] in *. rewrite length_app in *. lia.
Defined.

(** A tail too short to hold a header, yet not empty. *)
Definition short (r : bytes) : Prop := (0 < length r < header_size)%nat.
#[global] Instance short_dec r : Decision (short r).
Proof. unfold short. apply _. Defined.

(** A message whose size the three size bytes of the header can express. *)
Definition fits (m : bytes) : Prop := Z.of_nat (length m) < 16777216.

Lemma frame_is_frame type m : fits m → is_frame (frame type m).
Proof.
  intros Hm. unfold is_frame, frame_len, rpc_format, rpc_frame_len, frame. cbn [app].
  rewrite message_size_frame, Z.mod_small, Nat2Z.id by (unfold fits in *; lia).
  unfold header_size. cbn [length]. rewrite decide_False by lia. f_equal. lia.
Qed.

(** ** process_data against the reference decoder *)

Section processor_proofs.
Context `{ProtobufWire} {X : Type}.
Variable dispatch : Invocation → M (Env X) unit.
Variable process_event_sequence : bytes → M (Env X) unit.

Abbreviation handle := (handle_message dispatch process_event_sequence).
Abbreviation process := (process_data dispatch process_event_sequence).
Abbreviation reads := (process_reads dispatch process_event_sequence).

Definition handle_frame (f : bytes) : M (Env X) unit :=
  match f with
  | _ :: _ :: _ :: message_type :: body => handle message_type body
  | _ => undefined
  end.

(** Handle complete messages one after the other; an exception leaves the
    message that raised it, and everything after it, in the buffer. *)
Fixpoint run_frames (fs : list bytes) (r : bytes) (e : Env X) : outcome (Processor X) bool :=
  match fs with
  | [] => if decide (short r) then Ub else Val (mkProcessor r e) true
  | f :: fs' =>
      match handle_frame f e with
      | Val e' _ => run_frames fs' r e'
      | Exc e' x => Exc (mkProcessor (concat fs ++ r) e') x
      | Ub => Ub
      end
  end.

Lemma process_loop_spec fuel b e :
  (length b < fuel)%nat →
  process_loop dispatch process_event_sequence fuel (mkProcessor b e)
    = run_frames (decode b).1 (decode b).2 e.
Proof.
  revert b e. induction fuel as [|fuel IH]; intros b e Hf; [lia|].
  rewrite decode_unfold. cbn [process_loop]. run_m. cbn [buffer_].
  destruct (frame_len b) as [n|] eqn:E.
  - pose proof (decode_concat (drop n b)) as Hcat.
    destruct (decode (drop n b)) as [fs r] eqn:Ed. cbn [fst snd] in Hcat |- *. cbn [run_frames].
    unfold frame_len, rpc_format, rpc_frame_len in E.
    destruct b as [|h [|m [|l [|t b]]]]; try done. cbv beta iota zeta in E |- *.
    case_decide as Hlen; [done|].
    injection E as <-. cbn [drop header_size].
    set (size := message_size h m l) in *. unfold header_size in *.
    rewrite (Nat.add_comm size 4) in *. cbn [Nat.add take drop] in *. rewrite drop_0.
    cbn [handle_frame]. unfold in_env. run_m. cbn [env buffer_].
    destruct (handle t (take size b) e) as [e' []|e' x|] eqn:Eh; cbn [env buffer_]; [|..|done].
    + cbn [drop]. rewrite IH; [by rewrite Ed|]. rewrite length_drop. cbn [length] in *. lia.
    + do 2 f_equal. cbn [concat app]. by rewrite <- app_assoc, Hcat, take_drop.
  - cbn [fst snd run_frames]. unfold frame_len, rpc_format, rpc_frame_len in E.
    destruct b as [|h [|m [|l [|t b]]]]; unfold short, header_size.
    + rewrite decide_False; [done|]. cbn. lia.
    + rewrite decide_True; [done|]. cbn. lia.
    + rewrite decide_True; [done|]. cbn. lia.
    + rewrite decide_True; [done|]. cbn. lia.
    + cbv beta iota zeta in E |- *. case_decide as Hlen; [|done].
      rewrite decide_True by done. rewrite decide_False; [done|]. cbn. lia.
Qed.

Lemma process_data_run data p :
  process data p = run_frames (decode (buffer_ p ++ data)).1 (decode (buffer_ p ++ data)).2 (env p).
Proof.
  unfold process_data. run_m. cbn [buffer_]. apply process_loop_spec. lia.
Qed.

Lemma run_frames_val fs r e e' u :
  for_each fs handle_frame e = Val e' u → ¬ short r →
  run_frames fs r e = Val (mkProcessor r e') true.
Proof.
  revert e. induction fs as [|f fs IH]; intros e; cbn [for_each run_frames]; run_m.
  - intros [= -> _] Hr. by rewrite decide_False.
  - destruct (handle_frame f e); [|done..]. auto.
Qed.

Lemma process_reads_run rs b e e' u :
  frame_len b = None →
  for_each (completed b rs) handle_frame e = Val e' u →
  Forall (λ r, ¬ short r) (tails b rs) →
  reads rs (mkProcessor b e) = Val (mkProcessor (final_tail b rs) e') true.
Proof.
  revert b e. induction rs as [|c rs IH]; intros b e Hb; cbn [completed tails process_reads].
  - run_m. by intros [= -> _] _.
  - intros Hrun Hsafe. inversion_clear Hsafe as [|? ? Hc Hrest].
    rewrite for_each_app in Hrun. unfold mbind, M_bind in Hrun |- *.
    destruct (for_each (decode (b ++ c)).1 handle_frame e) as [e1 []| |] eqn:E1; try done.
    rewrite process_data_run. cbn [buffer_ env]. rewrite (run_frames_val _ _ _ _ _ E1 Hc).
    rewrite IH; [done|apply decode_rest|done|done].
Qed.
End processor_proofs.

(** ** Single-message lemmas *)

Section single_message.
Context `{ProtobufWire} {X : Type}.
Variable dispatch : Invocation → M (Env X) unit.
Variable process_event_sequence : bytes → M (Env X) unit.

Lemma handle_frame_frame type m e :
  handle_frame dispatch process_event_sequence (frame type m) e
    = handle_message dispatch process_event_sequence type m e.
Proof. reflexivity. Qed.

Lemma for_each_frames (ms : list (Z * bytes)) e :
  for_each (map (λ m, frame m.1 m.2) ms) (handle_frame dispatch process_event_sequence) e
    = for_each ms (λ m, handle_message dispatch process_event_sequence m.1 m.2) e.
Proof.
  revert e. induction ms as [|m ms IH]; intros e; [done|].
  cbn [map for_each]. unfold mbind, M_bind. rewrite handle_frame_frame.
  destruct (handle_message _ _ m.1 m.2 e); [apply IH|done..].
Qed.

(** A whole message arriving on an empty buffer is handled and consumed. *)
Lemma process_one type m e e' u :
  fits m → handle_message dispatch process_event_sequence type m e = Val e' u →
  process_data dispatch process_event_sequence (frame type m) (mkProcessor [] e)
    = Val (mkProcessor [] e') true.
Proof.
  intros Hm Hh. rewrite process_data_run. cbn [buffer_ env app].
  pose proof (decode_frames_all [frame type m]) as Hd. cbn [concat] in Hd.
  rewrite app_nil_r in Hd. rewrite Hd by (constructor; [by apply frame_is_frame|done]).
  cbn [fst snd run_frames]. rewrite handle_frame_frame, Hh.
  by rewrite decide_False by (unfold short; cbn; lia).
Qed.

Lemma handle_response id body r k cache s x :
  pending_calls_ cache !! i32 id = Some (mkPendingCall (Some r) (Some k)) →
  handle_message dispatch process_event_sequence MessageType_response
    (ser_result (mkResult (Some id) body [])) (mkEnv cache s x)
  = Val (mkEnv (mkCache (delete (i32 id) (pending_calls_ cache)) (<[r := body]> (messages cache))
                  (completions cache ++ [k])) s x) tt.
Proof.
  intros Hp. unfold handle_message. rewrite decide_False by done. rewrite decide_True by done.
  rewrite parse_ser_result. cbn [res_id res_response res_events for_each].
  unfold env_cache, populate_message_for_result, complete_response, parse_into, run_closure.
  run_m. cbn [env_pending env_sender server]. rewrite Hp. run_m.
  cbn [env_pending env_sender server pending_calls_ response complete]. rewrite Hp. run_m. done.
Qed.

Lemma handle_invocation i e :
  handle_message dispatch process_event_sequence MessageType_invocation (ser_invocation i) e
    = dispatch i e.
Proof. unfold handle_message. rewrite decide_True by done. by rewrite parse_ser_invocation. Qed.
End single_message.

Lemma send_response_connected `{ProtobufWire} {X} id res (e : Env X) :
  connected (env_sender e) = true →
  send_response id res e =
    Val (mkEnv (env_pending e)
           (mkSender true (wire (env_sender e)
              ++ [frame MessageType_response (ser_result (mkResult (Some id) res []))]))
           (server e)) tt.
Proof. intros Hc. unfold send_response. run_m. by rewrite send_connected. Qed.

(** A call on a connected channel registers the caller and puts one frame on
    the wire. *)
Lemma call_method_connected `{ProtobufWire} name req r k ch :
  connected (sender_ ch) = true →
  let inv := mkInvocation (next_message_id ch) name req 1 in
  call_method name req r k ch =
    Val (mkChannel (u32 (next_message_id ch + 1))
           (set_pending (<[i32 (next_message_id ch) := mkPendingCall r k]>
                           (pending_calls_ (pending_calls ch))) (pending_calls ch))
           (mkSender true (wire (sender_ ch) ++ [frame MessageType_invocation (ser_invocation inv)])))
        tt.
Proof.
  intros Hc inv.
  unfold call_method, invocation_for, next_id, send_message, with_pending, with_sender,
    save_completion_details. run_m. cbn [sender_ pending_calls inv_id next_message_id].
  rewrite send_connected by done. run_m. done.
Qed.

(** Running the closures of a list of calls, none of them null. *)
Lemma run_closures (l : list (Z * PendingCall)) (ks : list nat) c :
  map (λ p, complete p.2) l = map Some ks →
  for_each l (λ call, match complete call.2 with Some k => run_closure k | None => undefined end) c
    = Val (mkCache (pending_calls_ c) (messages c) (completions c ++ ks)) tt.
Proof.
  revert ks c. induction l as [|p l IH]; intros [|k ks] c; intros [=]; cbn [for_each].
  - rewrite app_nil_r. by destruct c.
  - unfold mbind, M_bind. rewrite H0. unfold run_closure, modify.
    rewrite (IH ks) by done. cbn. by rewrite <- app_assoc.
Qed.

(** * Properties *)

Section properties.
Context `{ProtobufWire} {X : Type}.


(** the processor reads outside its buffer exactly when a read leaves
    one, two or three bytes of the next message behind. *)
Theorem rpc_undefined_iff_partial_header
    (dispatch : Invocation → M (Env X) unit) (events : bytes → M (Env X) unit)
    (p : Processor X) (data : bytes) (e' : Env X) :
  for_each (decode (buffer_ p ++ data)).1 (handle_frame dispatch events) (env p) = Val e' tt →
  process_data dispatch events data p = Ub ↔ short (decode (buffer_ p ++ data)).2.
Proof.
  intros Hrun. rewrite process_data_run. split.
  - intros Hub. destruct (decide (short (decode (buffer_ p ++ data)).2)) as [|Hs]; [done|].
    by rewrite (run_frames_val _ _ _ _ _ _ _ Hrun Hs) in Hub.
  - revert Hrun. generalize (env p). induction (decode (buffer_ p ++ data)).1 as [|f fs IH];
      intros e0; cbn [for_each run_frames]; [by intros _ Hs; rewrite decide_True|].
    unfold mbind, M_bind. destruct (handle_frame dispatch events f e0); [|done..]. apply IH.
Qed.

(** a response whose id is not pending raises [out_of_range] and stays in
    the buffer, so every later read raises again whatever it brings. *)
Theorem rpc_unknown_response_poisons
    (dispatch : Invocation → M (Env X) unit) (events : bytes → M (Env X) unit)
    (e : Env X) (res : Result) (id : Z) (rest : bytes) :
  res_id res = Some id →
  pending_calls_ (env_pending e) !! i32 id = None →
  fits (ser_result res) →
  let msg := frame MessageType_response (ser_result res) in
  process_data dispatch events (msg ++ rest) (mkProcessor [] e)
    = Exc (mkProcessor (msg ++ rest) e) out_of_range ∧
  ∀ more, process_data dispatch events more (mkProcessor (msg ++ rest) e)
    = Exc (mkProcessor (msg ++ rest ++ more) e) out_of_range.
Proof.
  intros Hid Hp Hfit msg.
  assert (Hh : handle_frame dispatch events msg e = Exc e out_of_range).
  { unfold msg. rewrite handle_frame_frame. unfold handle_message.
    rewrite decide_False, decide_True, parse_ser_result, Hid by done.
    unfold env_cache, populate_message_for_result. run_m. rewrite Hp. by destruct e. }
  assert (Hgen : ∀ d b, b ++ d = msg ++ (drop (length msg) (b ++ d)) →
    process_data dispatch events d (mkProcessor b e)
      = Exc (mkProcessor (b ++ d) e) out_of_range).
  { intros d b Hb. rewrite process_data_run. cbn [buffer_ env]. rewrite Hb at 1 2.
    rewrite (decode_frame msg) by (by apply frame_is_frame). cbn [fst snd run_frames].
    rewrite Hh. cbn [concat]. by rewrite <- app_assoc, decode_concat, <- Hb. }
  split.
  - by rewrite (Hgen (msg ++ rest) []) by (by rewrite app_nil_l, drop_app_length).
  - intros more. rewrite (Hgen more (msg ++ rest)), <- app_assoc; [done|].
    by rewrite <- app_assoc, drop_app_length.
Qed.

(** C1: a call answered by the server runs end to end, when both ends are
    connected and both messages are shorter than 2^24 bytes: the client's frame
    makes the server dispatch the very invocation, the server's reply frame
    stores the answer in the caller's message object, runs the caller's
    closure once and removes the pending call. *)
Theorem rpc_call_roundtrip
    (answer : string → bytes → bytes)
    (events : bytes → M (Env X) unit) (dispatch' : Invocation → M (Env X) unit)
    (ch : Channel) (srv cl : Env X) (name : string) (req : bytes) (r k : nat) :
  connected (sender_ ch) = true → connected (env_sender srv) = true →
  let inv := mkInvocation (next_message_id ch) name req 1 in
  let reply := mkResult (Some (inv_id inv)) (answer name req) [] in
  let dispatch := λ i, send_response (inv_id i) (answer (method_name i) (parameters i)) in
  fits (ser_invocation inv) → fits (ser_result reply) →
  ∃ ch' srv' w1 w2,
    call_method name req (Some r) (Some k) ch = Val ch' tt ∧
    wire (sender_ ch') = wire (sender_ ch) ++ [w1] ∧
    process_data dispatch events w1 (mkProcessor [] srv) = Val (mkProcessor [] srv') true ∧
    wire (env_sender srv') = wire (env_sender srv) ++ [w2] ∧
    (env_pending cl = pending_calls ch' →
     ∃ cl', process_data dispatch' events w2 (mkProcessor [] cl) = Val (mkProcessor [] cl') true ∧
       messages (env_pending cl') !! r = Some (answer name req) ∧
       completions (env_pending cl') = completions (pending_calls ch) ++ [k] ∧
       pending_calls_ (env_pending cl')
         = delete (i32 (next_message_id ch)) (pending_calls_ (pending_calls ch))).
Proof.
  intros Hc Hs inv reply dispatch Hf1 Hf2.
  do 4 eexists. split; [by apply call_method_connected|]. split; [done|].
  split; [eapply (process_one dispatch events _ _ _ _ tt); [exact Hf1|];
          rewrite handle_invocation; unfold dispatch; by apply send_response_connected|].
  split; [done|]. intros Hcl. destruct cl as [cache s x]. cbn [env_pending] in Hcl. subst cache.
  eexists. split.
  - eapply (process_one dispatch' events _ _ _ _ tt); [exact Hf2|].
    apply (handle_response dispatch' events _ _ r k). cbn. apply lookup_insert_eq.
  - cbn. rewrite lookup_insert_eq. split_and!; [done..|].
    by rewrite delete_insert_eq.
Qed.

(** a send that finds the peer gone completes every pending call exactly
    once, in ascending order of id, the new call included, empties the cache
    and rethrows. *)
Theorem rpc_disconnect_completes_all
    (ch : Channel) (name : string) (req : bytes) (r : option nat) (k : nat) (ks : list nat) :
  connected (sender_ ch) = false →
  let calls := <[i32 (next_message_id ch) := mkPendingCall r (Some k)]>
                 (pending_calls_ (pending_calls ch)) in
  map (λ p, complete p.2) (sorted_entries calls) = map Some ks →
  ∃ ch', call_method name req r (Some k) ch = Exc ch' (runtime_error "send") ∧
    pending_calls_ (pending_calls ch') = ∅ ∧
    completions (pending_calls ch') = completions (pending_calls ch) ++ ks ∧
    k ∈ ks ∧ wire (sender_ ch') = wire (sender_ ch).
Proof.
  intros Hc calls Hks.
  assert (Hk : k ∈ ks).
  { assert (Hin : Some k ∈ map Some ks); [|by apply list_elem_of_fmap in Hin as (? & [= ->] & ?)].
    rewrite <- Hks. apply list_elem_of_fmap.
    exists (i32 (next_message_id ch), mkPendingCall r (Some k)). split; [done|].
    apply elem_of_sorted_entries, lookup_insert_eq. }
  unfold call_method, invocation_for, next_id, send_message, with_pending, with_sender, send,
    save_completion_details, notify_disconnected, with_pending, force_completion.
  run_m. cbn [sender_ pending_calls next_message_id inv_id pending_calls_ set_pending].
  rewrite Hc. cbn [pending_calls sender_ next_message_id pending_calls_].
  rewrite (run_closures _ ks) by exact Hks. cbn. eexists. split_and!; done.
Qed.
End properties.

(** * Witnesses: the properties at concrete messages

    A wire format that meets protobuf's laws: the bits of an injective
    numbering, one per byte. *)

Fixpoint bits_of_pos (p : positive) : bytes :=
  match p with
  | xH => []
  | xO p => 0 :: bits_of_pos p
  | xI p => 1 :: bits_of_pos p
  end.

Fixpoint pos_of_bits (b : bytes) : positive :=
  match b with
  | [] => xH
  | z :: b => if decide (z = 0) then xO (pos_of_bits b) else xI (pos_of_bits b)
  end.

Lemma pos_of_bits_of_pos p : pos_of_bits (bits_of_pos p) = p.
Proof. induction p as [p IH|p IH|]; cbn; rewrite ?IH; reflexivity. Qed.

#[global] Instance Invocation_countable : Countable Invocation.
Proof.
  apply (inj_countable' (λ i, (inv_id i, method_name i, parameters i, protocol_version i))
           (λ t, mkInvocation t.1.1.1 t.1.1.2 t.1.2 t.2)). by intros [].
Defined.

#[global] Instance Result_countable : Countable Result.
Proof.
  apply (inj_countable' (λ r, (res_id r, res_response r, res_events r))
           (λ t, mkResult t.1.1 t.1.2 t.2)). by intros [].
Defined.

#[local] Instance bit_wire : ProtobufWire.
Proof.
  refine {|
    ser_invocation i := bits_of_pos (encode i);
    parse_invocation b := default (mkInvocation 0 "" [] 0) (countable.decode (pos_of_bits b));
    ser_result r := bits_of_pos (encode r);
    parse_result b := default (mkResult None [] []) (countable.decode (pos_of_bits b)) |}.
  - intros i. by rewrite pos_of_bits_of_pos, decode_encode.
  - intros r. by rewrite pos_of_bits_of_pos, decode_encode.
Defined.

Definition log_dispatch (i : Invocation) : M (Env (list Z)) unit :=
  modify (λ e, mkEnv (env_pending e) (env_sender e) (server e ++ [inv_id i])).
Definition log_event (b : bytes) : M (Env (list Z)) unit :=
  modify (λ e, mkEnv (env_pending e) (env_sender e) (server e ++ b)).

Definition start_env : Env (list Z) := mkEnv (mkCache ∅ ∅ []) (mkSender true []) [].
Definition two_messages : list (Z * bytes) :=
  [(0, ser_invocation (mkInvocation 7 "p" [1] 1)); (1, ser_result (mkResult None [] [[9]]))].


Lemma rpc_undefined_iff_partial_header_witness :
  process_data log_dispatch log_event [0; 0] (mkProcessor [] start_env) = Ub.
Proof.
  apply (rpc_undefined_iff_partial_header log_dispatch log_event (mkProcessor [] start_env) [0; 0]
           start_env); [reflexivity|]. vm_compute. lia.
Defined.

Lemma rpc_unknown_response_poisons_witness :
  let msg := frame 1 (ser_result (mkResult (Some 3) [] [])) in
  process_data log_dispatch log_event [5] (mkProcessor (msg ++ []) start_env)
    = Exc (mkProcessor (msg ++ [] ++ [5]) start_env) out_of_range.
Proof.
  intros msg.
  apply (rpc_unknown_response_poisons log_dispatch log_event start_env (mkResult (Some 3) [] []) 3 []);
    reflexivity.
Defined.

Definition start_channel : Channel :=
  mkChannel 4 (mkCache {[2 := mkPendingCall None (Some 20%nat)]} ∅ []) (mkSender true []).

Definition called_channel : Channel := Eval vm_compute in
  match call_method "m" [1; 2] (Some 10%nat) (Some 11%nat) start_channel with Val c _ => c | _ => start_channel end.
Definition waiting_client : Env (list Z) := mkEnv (pending_calls called_channel) (mkSender true []) [].
Lemma rpc_call_roundtrip_witness :
  ∃ ch' w1 w2 cl', call_method "m" [1; 2] (Some 10%nat) (Some 11%nat) start_channel = Val ch' tt ∧
    wire (sender_ ch') = [w1] ∧
    process_data log_dispatch log_event w2 (mkProcessor [] waiting_client) = Val (mkProcessor [] cl') true ∧
    messages (env_pending cl') !! 10%nat = Some [1; 2; 3] ∧ completions (env_pending cl') = [11%nat].
Proof.
  destruct (rpc_call_roundtrip (X := list Z) (λ _ b, b ++ [3]) log_event log_dispatch
              start_channel start_env waiting_client "m" [1; 2] 10 11)
    as (ch' & srv' & w1 & w2 & H1 & H2 & H3 & H4 & H5); try reflexivity.
  destruct H5 as (cl' & H5 & H6 & H7 & _).
  { pose proof H1 as E. vm_compute in E. injection E as <-. vm_compute. reflexivity. }
  exists ch', w1, w2, cl'. split; [exact H1|]. split; [exact H2|]. split; [exact H5|]. split; [exact H6|exact H7].
Defined.

Lemma rpc_disconnect_completes_all_witness :
  ∃ ch', call_method "m" [] None (Some 11%nat)
           (mkChannel 4 (pending_calls start_channel) (mkSender false []))
         = Exc ch' (runtime_error "send") ∧
    completions (pending_calls ch') = [20%nat; 11%nat].
Proof.
  destruct (rpc_disconnect_completes_all
              (mkChannel 4 (pending_calls start_channel) (mkSender false [])) "m" [] None 11
              [20%nat; 11%nat]) as (ch' & H1 & _ & H2 & _); try reflexivity.
  exists ch'. split; [exact H1|exact H2].
Defined.
