(* ===== verification/Launch.v ===== *)
(** * Launching applications and driving tasks in the container

    wm/stack.cpp, android/intent.cpp, application/manager.h,
    common/wait_handle.cpp and bridge/android_api_stub.cpp (all under
    src/src/anbox).  [Stub] is the [AndroidApiStub]: each of its calls builds a
    protobuf message, hands it to the RPC channel and waits for the answer on a
    wait handle.  The channel is an argument; [answer] is what reaches the
    handle within the 30 seconds of the call. *)

From S2P Require Import Prelude Utils Rect.

(** ** wm::Stack::Id

    The bridge casts any 32-bit value to the enumeration. *)

Inductive StackId : Type :=
  | Stack_Invalid | Stack_Default | Stack_Fullscreen | Stack_Freeform
  | Stack_Other (z : Z).

#[global] Instance StackId_eq_dec : EqDecision StackId.
Proof. solve_decision. Defined.

Definition stack_of_int (z : Z) : StackId :=
  if decide (z = -1) then Stack_Invalid
  else if decide (z = 0) then Stack_Default
  else if decide (z = 1) then Stack_Fullscreen
  else if decide (z = 2) then Stack_Freeform
  else Stack_Other z.

Definition print_stack (s : StackId) : string :=
  match s with
  | Stack_Default => "default"
  | Stack_Fullscreen => "fullscreen"
  | Stack_Freeform => "freeform"
  | _ => ""
  end.

(** [in >> stack]: an unknown word leaves [stack] as it was. *)
Definition read_stack (input : string) (stack : StackId) : StackId :=
  let s := first_word input in
  if String.eqb s "default" then Stack_Default
  else if String.eqb s "fullscreen" then Stack_Fullscreen
  else if String.eqb s "freeform" then Stack_Freeform
  else stack.

(** ** android::Intent *)

Record Intent : Type := mkIntent {
  action : string;
  uri : string;
  intent_type : string;
  flags : Z;
  package : string;
  component : string;
  categories : list string;
}.

Definition empty (s : string) : bool := String.eqb s "".

Definition intent_valid (i : Intent) : bool := negb (empty (component i) && empty (package i)).

Definition print_intent (i : Intent) : string :=
  let field (s label value tail : string) :=
    if empty value then s else s +:+ label +:+ value +:+ tail in
  let s := "[" in
  let s := field s " action=" (action i) " " in
  let s := field s " uri=" (uri i) " " in
  let s := field s " type=" (intent_type i) " " in
  let s := if decide (0 < flags i) then s +:+ " flags=" +:+ format_d (flags i) +:+ " " else s in
  let s := field s " package=" (package i) " " in
  let s := field s "component=" (component i) " " in
  let s := match categories i with
           | [] => s
           | cs => s +:+ "categories=[ " +:+ foldr (λ c t, c +:+ " " +:+ t) "] " cs
           end in
  s +:+ "]".

(** ** common::WaitHandle *)

Record WaitHandle : Type := mkWaitHandle { expecting : Z; received : Z }.

Definition wait_handle_new : WaitHandle := mkWaitHandle 0 0.
Definition expect_result (h : WaitHandle) : WaitHandle := mkWaitHandle (i32 (expecting h + 1)) (received h).
Definition result_received (h : WaitHandle) : WaitHandle := mkWaitHandle (expecting h) (i32 (received h + 1)).

(** The wake-up conditions of the waiting operations, and what they do then. *)
Definition pending_done (h : WaitHandle) : bool := bool_decide (received h = expecting h).
Definition wait_for_all (h : WaitHandle) : option WaitHandle :=
  if pending_done h then Some (mkWaitHandle 0 0) else None.
Definition wait_for_one (h : WaitHandle) : option WaitHandle :=
  if decide (received h ≠ 0) then Some (mkWaitHandle (i32 (expecting h - 1)) (i32 (received h - 1))) else None.
(** Changes nothing; says whether the time limit was used up. *)
Definition wait_for_pending (h : WaitHandle) : bool := negb (pending_done h).
Definition has_result (h : WaitHandle) : bool := bool_decide (0 < received h).
Definition is_pending (h : WaitHandle) : bool :=
  bool_decide (0 < expecting h) && bool_decide (received h ≠ expecting h).

(** ** Messages to the container *)

Inductive LaunchStack : Type := LAUNCH_DEFAULT | LAUNCH_FULLSCREEN | LAUNCH_FREEFORM.

Record LaunchIntent : Type := mkLaunchIntent {
  l_action : option string;
  l_uri : option string;
  l_type : option string;
  l_package : option string;
  l_component : option string;
  l_categories : list string;
}.

Inductive Message : Type :=
  | LaunchApplication (stack : option LaunchStack) (launch_bounds : option Rect) (intent : LaunchIntent)
  | SetFocusedTask (id : Z)
  | RemoveTask (id : Z)
  | ResizeTask (id resize_mode : Z) (rect : Rect).

(** ** bridge::AndroidApiStub *)

(** The answer to a call in time: its error field, if set. *)
Abbreviation answer := (option (option string)).

Record Stub (Ch : Type) : Type := mkStub {
  channel_ : option Ch;
  launch_wait_handle_ : WaitHandle;
  set_focused_task_handle_ : WaitHandle;
  remove_task_handle_ : WaitHandle;
  resize_task_handle_ : WaitHandle;
  launch_bounds_ : Rect;
}.
Arguments mkStub {_} _ _ _ _ _ _.
Arguments channel_ {_} _.
Arguments launch_wait_handle_ {_} _.
Arguments set_focused_task_handle_ {_} _.
Arguments remove_task_handle_ {_} _.
Arguments resize_task_handle_ {_} _.
Arguments launch_bounds_ {_} _.

Definition stub_new {Ch} : Stub Ch :=
  mkStub None wait_handle_new wait_handle_new wait_handle_new wait_handle_new Rect_Invalid.

(** Which handle a call waits on. *)
Inductive handle : Type := h_launch | h_focus | h_remove | h_resize.

Definition get_handle {Ch} (h : handle) (s : Stub Ch) : WaitHandle :=
  match h with
  | h_launch => launch_wait_handle_ s
  | h_focus => set_focused_task_handle_ s
  | h_remove => remove_task_handle_ s
  | h_resize => resize_task_handle_ s
  end.
Definition on_handle {Ch} (h : handle) (f : WaitHandle → WaitHandle) (s : Stub Ch) : Stub Ch :=
  let '(mkStub c l fo r z b) := s in
  match h with
  | h_launch => mkStub c (f l) fo r z b
  | h_focus => mkStub c l (f fo) r z b
  | h_remove => mkStub c l fo (f r) z b
  | h_resize => mkStub c l fo r (f z) b
  end.

Definition set_channel {Ch} (c : option Ch) (s : Stub Ch) : Stub Ch :=
  mkStub c (launch_wait_handle_ s) (set_focused_task_handle_ s) (remove_task_handle_ s)
    (resize_task_handle_ s) (launch_bounds_ s).

Section stub.
Context {Ch : Type}.
Variable call_method : string → Message → M Ch unit.

Definition set_rpc_channel (c : Ch) : M (Stub Ch) unit := modify (set_channel (Some c)).
Definition reset_rpc_channel : M (Stub Ch) unit := modify (set_channel None).

Definition ensure_rpc_channel : M (Stub Ch) unit :=
  s ← get;
  match channel_ s with
  | None => throw (runtime_error "No remote client connected")
  | Some _ => mret tt
  end.

Definition channel_call (method : string) (m : Message) : M (Stub Ch) unit := λ s,
  match channel_ s with
  | None => Ub
  | Some c =>
      match call_method method m c with
      | Val c' _ => Val (set_channel (Some c') s) tt
      | Exc c' e => Exc (set_channel (Some c') s) e
      | Ub => Ub
      end
  end.

(** The part every call shares: expect, send, wait; the returned flag says
    that the full time limit was waited. *)
Definition stub_call (h : handle) (method : string) (m : Message) (a : answer) : M (Stub Ch) bool :=
  modify (on_handle h expect_result) ≫= λ _,
  channel_call method m ≫= λ _,
  match a with Some _ => modify (on_handle h result_received) | None => mret tt end ≫= λ _,
  s ← get;
  let waited := wait_for_pending (get_handle h s) in
  if has_result (get_handle h s) then
    match a with
    | Some (Some error) => throw (runtime_error error)
    | _ => mret waited
    end
  else throw (runtime_error "RPC call timed out").

Definition set_opt (s : string) : option string := if empty s then None else Some s.

Definition launch_message (s : Stub Ch) (intent : Intent) (launch_bounds : Rect) (stack : StackId) : Message :=
  LaunchApplication
    (match stack with
     | Stack_Default => Some LAUNCH_DEFAULT
     | Stack_Fullscreen => Some LAUNCH_FULLSCREEN
     | Stack_Freeform => Some LAUNCH_FREEFORM
     | _ => None
     end)
    (if decide (launch_bounds = Rect_Invalid) then None
     else Some (mkRect (left_ (launch_bounds_ s)) (top_ (launch_bounds_ s))
                  (right_ (launch_bounds_ s)) (bottom_ (launch_bounds_ s))))
    (mkLaunchIntent (set_opt (action intent)) (set_opt (uri intent)) (set_opt (intent_type intent))
       (set_opt (package intent)) (set_opt (component intent)) (categories intent)).

Definition launch (intent : Intent) (launch_bounds : Rect) (stack : StackId) (a : answer) : M (Stub Ch) bool :=
  ensure_rpc_channel ≫= λ _,
  s ← get;
  stub_call h_launch "launch_application" (launch_message s intent launch_bounds stack) a.

Definition set_focused_task (id : Z) (a : answer) : M (Stub Ch) bool :=
  ensure_rpc_channel ≫= λ _, stub_call h_focus "set_focused_task" (SetFocusedTask id) a.

Definition remove_task (id : Z) (a : answer) : M (Stub Ch) bool :=
  ensure_rpc_channel ≫= λ _, stub_call h_remove "remove_task" (RemoveTask id) a.

Definition resize_task (id : Z) (rect : Rect) (resize_mode : Z) (a : answer) : M (Stub Ch) bool :=
  ensure_rpc_channel ≫= λ _,
  stub_call h_resize "resize_task"
    (ResizeTask id resize_mode (mkRect (left_ rect) (top_ rect) (right_ rect) (bottom_ rect))) a.
End stub.

(** ** application::RestrictedManager *)

Definition restricted_launch {S A} (launch_stack_ : StackId)
    (other_launch : Intent → Rect → StackId → M S A)
    (intent : Intent) (launch_bounds : Rect) (stack : StackId) : M S A :=
  let selected_stack := if decide (launch_stack_ = Stack_Invalid) then stack else launch_stack_ in
  other_launch intent launch_bounds selected_stack.

(** ** Histories of calls *)

Section histories.
Context {Ch : Type}.
Variable call_method : string → Message → M Ch unit.

(** The stub a call leaves behind; the channel call itself may throw. *)
Definition stub_after {A} (s : Stub Ch) (o : outcome (Stub Ch) A) : Stub Ch :=
  match o with Val s' _ => s' | Exc s' _ => s' | Ub => s end.

Definition call_history (h : handle) (s : Stub Ch) (l : list (string * Message * answer)) : Stub Ch :=
  foldl (λ s '(method, m, a), stub_after s (stub_call call_method h method m a s)) s l.

Definition answered (l : list (string * Message * answer)) : nat :=
  length (filter (λ x, is_Some x.2) l).

Definition count (a : answer) : nat := match a with Some _ => 1 | None => 0 end.

Hypothesis call_method_sends : ∀ method m c, ∃ c', call_method method m c = Val c' tt.

Lemma get_on_handle h f (s : Stub Ch) : get_handle h (on_handle h f s) = f (get_handle h s).
Proof. by destruct s, h. Qed.
Lemma get_set_channel h c (s : Stub Ch) : get_handle h (set_channel c s) = get_handle h s.
Proof. by destruct h. Qed.
Lemma channel_on_handle h f (s : Stub Ch) : channel_ (on_handle h f s) = channel_ s.
Proof. by destruct s, h. Qed.

(** A call on a connected stub, in terms of its handle. *)
Lemma stub_call_handle h method m a s c :
  channel_ s = Some c →
  let w := get_handle h s in
  let w' := match a with Some _ => result_received (expect_result w) | None => expect_result w end in
  ∃ s', stub_call call_method h method m a s =
      (if has_result w' then
         match a with
         | Some (Some e) => Exc s' (runtime_error e)
         | _ => Val s' (wait_for_pending w')
         end
       else Exc s' (runtime_error "RPC call timed out")) ∧
    get_handle h s' = w' ∧ is_Some (channel_ s').
Proof.
  intros Hc w w'. destruct (call_method_sends method m c) as [c' Hc'].
  set (s1 := set_channel (Some c') (on_handle h expect_result s)).
  exists (match a with Some _ => on_handle h result_received s1 | None => s1 end).
  assert (Hw : get_handle h (match a with Some _ => on_handle h result_received s1 | None => s1 end) = w').
  { unfold w', s1. destruct a; by rewrite ?get_on_handle, get_set_channel, get_on_handle. }
  split; [|split; [done|]].
  - unfold stub_call, channel_call. run_m. rewrite channel_on_handle, Hc, Hc'. fold s1.
    destruct a as [[e|]|]; cbn beta iota in *; rewrite Hw; by destruct (has_result w').
  - unfold s1. destruct a; [rewrite channel_on_handle|]; by eexists.
Qed.

Lemma stub_after_call h method m a s c : channel_ s = Some c →
  get_handle h (stub_after s (stub_call call_method h method m a s)) =
    (match a with Some _ => result_received (expect_result (get_handle h s))
     | None => expect_result (get_handle h s) end) ∧
  is_Some (channel_ (stub_after s (stub_call call_method h method m a s))).
Proof.
  intros Hc. destruct (stub_call_handle h method m a s c Hc) as (s' & -> & Hw & Hs).
  destruct (has_result _); [destruct a as [[]|]|]; done.
Qed.

(** The counters count the calls made and the answers seen. *)
Lemma call_history_counts h l s c k j :
  channel_ s = Some c → get_handle h s = mkWaitHandle (Z.of_nat k) (Z.of_nat j) → (j ≤ k)%nat →
  Z.of_nat (k + length l) < 2147483648 →
  is_Some (channel_ (call_history h s l)) ∧
  get_handle h (call_history h s l) =
    mkWaitHandle (Z.of_nat (k + length l)) (Z.of_nat (j + answered l)).
Proof.
  revert s c k j. induction l as [|[[method m] a] l IH]; intros s c k j Hc Hw Hjk Hlen.
  { cbn. rewrite Hw, Nat.add_0_r. unfold answered. cbn. rewrite Nat.add_0_r. split; [by eexists|done]. }
  cbn [length] in *.
  change (call_history h s ((method, m, a) :: l)) with
    (call_history h (stub_after s (stub_call call_method h method m a s)) l).
  destruct (stub_after_call h method m a s c Hc) as [Hw1 [c1 Hc1]].
  set (s1 := stub_after s _) in *.
  assert (Hw1' : get_handle h s1 = mkWaitHandle (Z.of_nat (S k)) (Z.of_nat (j + count a))).
  { rewrite Hw1, Hw. unfold expect_result, result_received. cbn.
    destruct a; cbn [count]; rewrite ?i32_small by (unfold is_i32; lia); f_equal; lia. }
  destruct (IH s1 c1 (S k) (j + count a)%nat Hc1 Hw1') as [HS HW]; [destruct a; cbn; lia|lia|].
  split; [exact HS|]. rewrite HW. unfold answered. rewrite filter_cons. cbn [snd].
  destruct a; [rewrite decide_True by (by eexists)|rewrite decide_False by (by intros [])]; cbn; f_equal; lia.
Qed.
End histories.

(** ** Properties *)

(** What a call reports, given everything that happened on its wait
    handle before.  The handle is never reset: once any call has been answered,
    a call that gets no answer returns normally instead of raising the time-out
    error, and once any call has gone unanswered every later call, answered or
    not, blocks for the full 30 seconds. *)
Theorem stub_call_outcome {Ch} (call_method : string → Message → M Ch unit) c h l method m a :
  (∀ method m c, ∃ c', call_method method m c = Val c' tt) →
  Z.of_nat (S (length l)) < 2147483648 →
  let s := call_history call_method h (set_channel (Some c) stub_new) l in
  ∃ s', stub_call call_method h method m a s =
    match a with
    | Some (Some e) => Exc s' (runtime_error e)
    | Some None => Val s' (bool_decide (answered l < length l)%nat)
    | None => if decide (0 < answered l)%nat then Val s' true
              else Exc s' (runtime_error "RPC call timed out")
    end.
Proof.
  intros Hsend Hlen s.
  destruct (call_history_counts call_method Hsend h l (set_channel (Some c) stub_new) c 0 0)
    as [[c' Hc'] Hw]; [done|by destruct h|lia|lia|].
  fold s in Hc', Hw. destruct (stub_call_handle call_method Hsend h method m a s c' Hc') as (s' & -> & _ & _).
  exists s'. rewrite Hw. cbn [Nat.add].
  assert (Hle : (answered l ≤ length l)%nat) by (unfold answered; apply length_filter).
  unfold expect_result, result_received, has_result, wait_for_pending, pending_done.
  destruct a as [[e|]|]; cbn [expecting received]; rewrite ?i32_small by (unfold is_i32; lia).
  - by rewrite bool_decide_true by lia.
  - rewrite bool_decide_true by lia. f_equal. rewrite <- bool_decide_not. apply bool_decide_ext. lia.
  - case_decide; [rewrite bool_decide_true by lia|by rewrite bool_decide_false by lia].
    rewrite bool_decide_false by lia. done.
Qed.

(** The channel that records its calls. *)
Definition log_call (method : string) (m : Message) : M (list (string * Message)) unit :=
  modify (λ l, l ++ [(method, m)]).

(** Anything a user of the stub can do. *)
Inductive stub_op : Type :=
  | op_connect | op_disconnect
  | op_launch (intent : Intent) (bounds : Rect) (stack : StackId) (a : answer)
  | op_focus (id : Z) (a : answer)
  | op_remove (id : Z) (a : answer)
  | op_resize (id : Z) (rect : Rect) (mode : Z) (a : answer).

Definition stub_do (s : Stub (list (string * Message))) (o : stub_op) : Stub (list (string * Message)) :=
  match o with
  | op_connect => stub_after s (set_rpc_channel [] s)
  | op_disconnect => stub_after s (reset_rpc_channel s)
  | op_launch i b st a => stub_after s (launch log_call i b st a s)
  | op_focus id a => stub_after s (set_focused_task log_call id a s)
  | op_remove id a => stub_after s (remove_task log_call id a s)
  | op_resize id r m a => stub_after s (resize_task log_call id r m a s)
  end.

Lemma launch_bounds_on_handle {Ch} h f (s : Stub Ch) : launch_bounds_ (on_handle h f s) = launch_bounds_ s.
Proof. by destruct s, h. Qed.

Lemma stub_call_bounds h method m a s :
  launch_bounds_ (stub_after s ((ensure_rpc_channel ≫= λ _, stub_call log_call h method m a) s)) = launch_bounds_ s.
Proof.
  unfold ensure_rpc_channel, stub_call, channel_call, log_call. run_m.
  destruct (channel_ s) as [c|] eqn:Hc; [|done]. rewrite channel_on_handle, Hc.
  destruct a as [[e|]|]; destruct (has_result _); by destruct s, h.
Qed.

Lemma launch_eq {Ch} (call_method : string → Message → M Ch unit) i b st a s :
  launch call_method i b st a s =
  (ensure_rpc_channel ≫= λ _, stub_call call_method h_launch "launch_application" (launch_message s i b st) a) s.
Proof. unfold launch, ensure_rpc_channel. run_m. by destruct (channel_ s). Qed.

Lemma stub_do_bounds s o : launch_bounds_ (stub_do s o) = launch_bounds_ s.
Proof.
  destruct o; cbn [stub_do]; try apply stub_call_bounds; try done.
  rewrite launch_eq. apply stub_call_bounds.
Qed.

Lemma launch_sends i b st a s log : channel_ s = Some log →
  channel_ (stub_after s (launch log_call i b st a s)) =
  Some (log ++ [("launch_application", launch_message s i b st)]).
Proof.
  intros Hc. rewrite launch_eq. unfold ensure_rpc_channel, stub_call, channel_call, log_call. run_m.
  rewrite Hc, channel_on_handle, Hc. destruct a as [[e|]|]; destruct (has_result _); by destruct s.
Qed.

Lemma stub_run_bounds ops s : launch_bounds_ (foldl stub_do s ops) = launch_bounds_ s.
Proof.
  revert s. induction ops as [|o ops IH]; intros s; [done|]. cbn. by rewrite IH, stub_do_bounds.
Qed.

(** The launch bounds never reach the container: after any use of the
    stub, a launch in some rectangle [b] sends a request whose bounds are the
    member [launch_bounds_], that is (-1,-1,-1,-1), whatever [b] is; the stack
    is the one asked for, or the one a [RestrictedManager] in front imposes. *)
Theorem stub_launch_bounds_lost ops forced intent b stack a log :
  let s := foldl stub_do stub_new ops in
  channel_ s = Some log → b ≠ Rect_Invalid →
  ∃ s' wire_stack li,
    stub_after s (restricted_launch forced (λ i b st, launch log_call i b st a) intent b stack s) = s' ∧
    channel_ s' = Some (log ++ [("launch_application", LaunchApplication wire_stack (Some Rect_Invalid) li)]) ∧
    (forced ≠ Stack_Invalid → wire_stack = match forced with
       | Stack_Default => Some LAUNCH_DEFAULT | Stack_Fullscreen => Some LAUNCH_FULLSCREEN
       | Stack_Freeform => Some LAUNCH_FREEFORM | _ => None end).
Proof.
  intros s Hc Hb.
  assert (Hbounds : launch_bounds_ s = Rect_Invalid).
  { unfold s. by rewrite stub_run_bounds. }
  clearbody s. unfold restricted_launch. eexists _, _, _. split; [reflexivity|].
  rewrite (launch_sends _ _ _ _ _ _ Hc). unfold launch_message. rewrite Hbounds.
  rewrite (decide_False (P := b = Rect_Invalid)) by done. split; [reflexivity|].
  intros Hf. by rewrite decide_False.
Qed.

Lemma stub_call_outcome_witness :
  (∃ s', stub_call log_call h_focus "set_focused_task" (SetFocusedTask 7) None
     (call_history log_call h_focus (set_channel (Some []) stub_new)
        [("set_focused_task", SetFocusedTask 5, Some None)]) = Val s' true).
Proof.
  apply (stub_call_outcome log_call [] h_focus [("set_focused_task", SetFocusedTask 5, Some None)]
    "set_focused_task" (SetFocusedTask 7) None).
  - intros method m c. eexists. reflexivity.
  - cbn. lia.
Defined.

Definition demo_intent : Intent := mkIntent "" "" "" 0 "com.android.settings" ".Settings" [].

Lemma stub_launch_bounds_lost_witness : ∃ s' wire_stack li,
  stub_after (foldl stub_do stub_new [op_connect])
    (launch log_call demo_intent (mkRect 0 0 800 600) Stack_Freeform (Some None)
       (foldl stub_do stub_new [op_connect])) = s' ∧
  channel_ s' = Some [("launch_application", LaunchApplication wire_stack (Some Rect_Invalid) li)].
Proof.
  destruct (stub_launch_bounds_lost [op_connect] Stack_Invalid demo_intent (mkRect 0 0 800 600)
    Stack_Freeform (Some None) []) as (s' & ws & li & H1 & H2 & _).
  - reflexivity.
  - discriminate.
  - exists s', ws, li. split; [exact H1|exact H2].
Defined.
