(* ===== verification/AppDb.v ===== *)
(** * The application database (src/src/anbox/application)

    [Database] remembers the applications the container reports, and its
    [LauncherStorage] mirrors them as desktop entries and icons in a
    directory.  The directory is a finite map from file names to contents;
    [exe] is the command that starts the daemon's client and [writable] says
    which files can be opened for writing. *)

From S2P Require Import Prelude Utils Rect Launch.
From Stdlib Require Import Ascii.

Record Item : Type := mkItem {
  name : string;
  item_package : string;
  launch_intent : Intent;
  icon : bytes;
}.

Definition intent_empty : Intent := mkIntent "" "" "" 0 "" "" [].
Definition Unknown : Item := mkItem "" "" intent_empty [].
Definition item_valid (i : Item) : bool := bool_decide (0 < String.length (item_package i))%nat.

(** ** LauncherStorage *)

(** [None] when the directory does not exist. *)
Abbreviation directory := (option (gmap string bytes)).

Definition storage_reset (d : directory) : directory :=
  match d with
  | None => None
  | Some files => Some (filter (λ kv, string_starts_with kv.1 "anbox-" = false) files)
  end.

Fixpoint replace_char (a b : ascii) (s : string) : string :=
  match s with
  | EmptyString => EmptyString
  | String c s' => String (if Ascii.eqb c a then b else c) (replace_char a b s')
  end.

Definition clean_package_name (package_name : string) : string :=
  replace_char "."%char "-"%char package_name.

Definition path_for_item (package_name : string) : string := "anbox-" +:+ package_name +:+ ".desktop".
Definition path_for_item_icon (package_name : string) : string := "anbox-" +:+ package_name +:+ ".png".

Section storage.
Variable path_ : string.
Variable exe : string.
Variable writable : string → bool.

Definition newline : string := String (ascii_of_nat 10) EmptyString.

Definition exec_line (i : Intent) : string :=
  let opt (flag value : string) := if empty value then "" else flag +:+ value +:+ " " in
  exe +:+ " launch " +:+ opt "--action=" (action i) +:+ opt "--type=" (intent_type i) +:+
  opt "--uri=" (uri i) +:+ opt "--package=" (package i) +:+ opt "--component=" (component i).

Definition desktop_entry (i : Item) (package_name : string) : bytes :=
  bytes_of_string
    ("[Desktop Entry]" +:+ newline +:+ "Name=" +:+ name i +:+ newline +:+
     "Exec=" +:+ exec_line (launch_intent i) +:+ newline +:+ "Terminal=false" +:+ newline +:+
     "Type=Application" +:+ newline +:+
     "Icon=" +:+ path_ +:+ "/" +:+ path_for_item_icon package_name +:+ newline).

Definition write_file (f : string) (content : bytes) (msg : string) : M directory unit :=
  d ← get;
  match d with
  | Some files => if writable f then put (Some (<[f := content]> files)) else throw (runtime_error msg)
  | None => throw (runtime_error msg)
  end.

Definition storage_add_or_update (i : Item) : M directory unit :=
  modify (λ d, match d with None => Some ∅ | Some files => Some files end) ≫= λ _,
  let package_name := replace_char "."%char "-"%char (item_package i) in
  write_file (path_for_item package_name) (desktop_entry i package_name) "Failed to create desktop item" ≫= λ _,
  write_file (path_for_item_icon package_name) (icon i) "Failed to write icon".

Definition storage_remove (i : Item) (d : directory) : directory :=
  let package_name := clean_package_name (item_package i) in
  match d with
  | None => None
  | Some files => Some (delete (path_for_item_icon package_name) (delete (path_for_item package_name) files))
  end.

(** ** Database *)

Record Database : Type := mkDatabase {
  storage_ : directory;
  items_ : gmap string Item;
  done_reset : bool;
}.

Definition database_new (d : directory) : Database := mkDatabase d ∅ false.

Definition in_storage {A} : M directory A → M Database A :=
  zoom storage_ (λ d db, mkDatabase d (items_ db) (done_reset db)).

Definition store_or_update (i : Item) : M Database unit :=
  db ← get;
  (if done_reset db then mret tt
   else put (mkDatabase (storage_reset (storage_ db)) (items_ db) true)) ≫= λ _,
  in_storage (storage_add_or_update i) ≫= λ _,
  modify (λ db, mkDatabase (storage_ db)
    (<[item_package i := mkItem (name i) (item_package i) (launch_intent i) []]> (items_ db)) (done_reset db)).

Definition database_remove (i : Item) : M Database unit :=
  modify (λ db,
    match items_ db !! item_package i with
    | None => db
    | Some _ => mkDatabase (storage_remove i (storage_ db)) (delete (item_package i) (items_ db)) (done_reset db)
    end).

Definition find_by_package (package : string) (db : Database) : Item :=
  match items_ db !! package with None => Unknown | Some i => i end.

(** ** PlatformApiSkeleton::handle_application_list_update_event *)

(** An application of the event, as the protobuf accessors return it. *)
Record AppMessage : Type := mkAppMessage {
  app_name : string;
  app_package : string;
  app_intent : Intent;
  app_icon : bytes;
}.

Definition item_of_message (m : AppMessage) : Item :=
  let li := app_intent m in
  mkItem (app_name m) (app_package m)
    (mkIntent (action li) (uri li) (uri li) 0 (package li) (component li) (categories li))
    (app_icon m).

Definition handle_application_list_update_event (removed : list string) (apps : list AppMessage) : M Database unit :=
  for_each removed (λ p,
    if empty p then mret tt else database_remove (mkItem "" p intent_empty [])) ≫= λ _,
  for_each apps (λ m,
    if empty (item_package (item_of_message m)) then mret tt else store_or_update (item_of_message m)).
End storage.

(** ** File names *)

(** Android package names contain no dash. *)
Definition good_package (p : string) : Prop := p ≠ "" ∧ has_char "-"%char p = false.

Lemma replace_char_inj a b s t :
  has_char b s = false → has_char b t = false → replace_char a b s = replace_char a b t → s = t.
Proof.
  revert t. induction s as [|c s IH]; intros [|d t]; cbn; try done.
  intros [Hc Hs]%orb_false_iff [Hd Ht]%orb_false_iff [= Hcd Hst].
  apply Ascii.eqb_neq in Hc, Hd. f_equal; [|by apply IH].
  destruct (Ascii.eqb_spec c a) as [->|], (Ascii.eqb_spec d a) as [->|]; congruence.
Qed.

Lemma string_app_inv_l s t u : s +:+ t = s +:+ u → t = u.
Proof. induction s as [|c s IH]; [done|]. cbn. intros [= H]. by apply IH. Qed.

Lemma string_app_inv_r s t u : t +:+ s = u +:+ s → t = u.
Proof.
  intros H%(f_equal bytes_of_string). rewrite !bytes_of_string_app in H.
  apply bytes_of_string_inj. by apply app_inj_2 in H as [? _].
Qed.

Lemma path_for_item_inj p q : path_for_item p = path_for_item q → p = q.
Proof. unfold path_for_item. intros H%string_app_inv_l. by apply string_app_inv_r in H. Qed.
Lemma path_for_item_icon_inj p q : path_for_item_icon p = path_for_item_icon q → p = q.
Proof. unfold path_for_item_icon. intros H%string_app_inv_l. by apply string_app_inv_r in H. Qed.

Lemma path_for_item_not_icon p q : path_for_item p ≠ path_for_item_icon q.
Proof.
  intros H%(f_equal bytes_of_string)%(f_equal (@List.rev Z)). unfold path_for_item, path_for_item_icon in H.
  rewrite !bytes_of_string_app, !rev_app_distr in H. discriminate.
Qed.

Lemma path_for_item_starts p :
  string_starts_with (path_for_item p) "anbox-" = true ∧
  string_starts_with (path_for_item_icon p) "anbox-" = true.
Proof. split; apply string_starts_with_spec; by eexists. Qed.

Lemma clean_inj p q : good_package p → good_package q →
  clean_package_name p = clean_package_name q → p = q.
Proof. intros [_ Hp] [_ Hq]. by apply replace_char_inj. Qed.

(** [f] is one of the two files of package [p]. *)
Definition file_of (p f : string) : Prop :=
  f = path_for_item (clean_package_name p) ∨ f = path_for_item_icon (clean_package_name p).

Lemma file_of_inj p q f : good_package p → good_package q → file_of p f → file_of q f → p = q.
Proof.
  intros Hp Hq [->| ->] [H|H].
  - by apply path_for_item_inj, clean_inj in H.
  - by apply path_for_item_not_icon in H.
  - symmetry in H. by apply path_for_item_not_icon in H.
  - by apply path_for_item_icon_inj, clean_inj in H.
Qed.

Lemma file_of_starts p f : file_of p f → string_starts_with f "anbox-" = true.
Proof. intros [->| ->]; apply path_for_item_starts. Qed.

(** ** The launchers mirror the database *)

Definition files_of (d : directory) : gmap string bytes := match d with Some m => m | None => ∅ end.

Record mirror (d0 : directory) (db : Database) : Prop := mk_mirror {
  mirror_good : ∀ p, is_Some (items_ db !! p) → good_package p;
  mirror_other : ∀ f, string_starts_with f "anbox-" = false →
    files_of (storage_ db) !! f = files_of d0 !! f;
  mirror_files : done_reset db = true → ∀ f, string_starts_with f "anbox-" = true →
    is_Some (files_of (storage_ db) !! f) ↔ ∃ p, is_Some (items_ db !! p) ∧ file_of p f;
  mirror_fresh : done_reset db = false → items_ db = ∅ ∧ storage_ db = d0;
}.

Lemma mirror_new d0 : mirror d0 (database_new d0).
Proof. split; cbn; [intros p [? Hp]; by rewrite lookup_empty in Hp|done..]. Qed.

Section mirror_proofs.
Variable path_ exe : string.
Variable writable : string → bool.
Hypothesis all_writable : ∀ f, writable f = true.

Lemma storage_add_files i d : ∃ c1 c2,
  storage_add_or_update path_ exe writable i d =
  Val (Some (<[path_for_item_icon (clean_package_name (item_package i)) := c2]>
       (<[path_for_item (clean_package_name (item_package i)) := c1]> (files_of d)))) tt.
Proof.
  eexists _, _. unfold storage_add_or_update, write_file. run_m. destruct d; by rewrite !all_writable.
Qed.

Lemma storage_reset_lookup d f :
  files_of (storage_reset d) !! f =
  if string_starts_with f "anbox-" then None else files_of d !! f.
Proof.
  destruct d as [m|]; cbn; [|by destruct (string_starts_with _ _)].
  destruct (string_starts_with f "anbox-") eqn:E.
  - apply map_lookup_filter_None. right. intros c _ Hc. unfold fst in Hc. congruence.
  - destruct (m !! f) eqn:Hm.
    + by apply map_lookup_filter_Some.
    + apply map_lookup_filter_None. by left.
Qed.

Lemma store_or_update_run i db :
  let d1 := if done_reset db then storage_ db else storage_reset (storage_ db) in
  ∃ c1 c2, store_or_update path_ exe writable i db = Val (mkDatabase
    (Some (<[path_for_item_icon (clean_package_name (item_package i)) := c2]>
       (<[path_for_item (clean_package_name (item_package i)) := c1]> (files_of d1))))
    (<[item_package i := mkItem (name i) (item_package i) (launch_intent i) []]> (items_ db)) true) tt.
Proof.
  intros d1. destruct (storage_add_files i d1) as (c1 & c2 & Hadd). exists c1, c2.
  unfold store_or_update, in_storage, d1 in *. run_m. destruct db as [d m []]; cbn in *; by rewrite Hadd.
Qed.

Lemma lookup_two {A} f g h (a b : A) (m : gmap string A) :
  is_Some (<[g := a]> (<[h := b]> m) !! f) ↔ f = g ∨ f = h ∨ is_Some (m !! f).
Proof. rewrite !lookup_insert_is_Some. destruct (decide (f = g)), (decide (f = h)); naive_solver. Qed.

Lemma mirror_store d0 i db :
  good_package (item_package i) → mirror d0 db →
  ∃ db', store_or_update path_ exe writable i db = Val db' tt ∧ mirror d0 db'.
Proof.
  intros Hg [H1 H2 H3 H4]. destruct (store_or_update_run i db) as (c1 & c2 & ->). eexists. split; [done|].
  set (d1 := if done_reset db then storage_ db else storage_reset (storage_ db)).
  assert (Hd1 : ∀ f, string_starts_with f "anbox-" = true →
    is_Some (files_of d1 !! f) ↔ ∃ p, is_Some (items_ db !! p) ∧ file_of p f).
  { intros f Hf. unfold d1. destruct (done_reset db) eqn:E; [by apply H3|].
    rewrite storage_reset_lookup, Hf. destruct (H4 eq_refl) as [-> _]. split; [intros []; done|].
    intros (p & [? Hp] & _). by rewrite lookup_empty in Hp. }
  split; cbn.
  - intros p [<-|[_ Hp]]%lookup_insert_is_Some; auto.
  - intros f Hf. rewrite !lookup_insert_ne.
    + unfold d1. destruct (done_reset db); [auto|]. rewrite storage_reset_lookup, Hf. auto.
    + intros <-. by rewrite (proj1 (path_for_item_starts _)) in Hf.
    + intros <-. by rewrite (proj2 (path_for_item_starts _)) in Hf.
  - intros _ f Hf. rewrite lookup_two, (Hd1 f Hf). split.
    + intros [->|[->|(p & Hp & Hpf)]]; [exists (item_package i)..|exists p];
        rewrite lookup_insert_is_Some; unfold file_of; try by auto.
      destruct (decide (item_package i = p)); auto.
    + intros (p & [<-|[_ Hp]]%lookup_insert_is_Some & Hpf); [destruct Hpf; auto|eauto].
  - done.
Qed.

Lemma mirror_remove d0 i db : good_package (item_package i) → mirror d0 db →
  ∃ db', database_remove i db = Val db' tt ∧ mirror d0 db'.
Proof.
  intros Hg Hm. unfold database_remove. run_m. eexists. split; [done|].
  destruct (items_ db !! item_package i) as [x|] eqn:Hi; [|done]. destruct Hm as [H1 H2 H3 H4].
  assert (Hr : done_reset db = true).
  { destruct (done_reset db); [done|]. destruct (H4 eq_refl) as [E _]. by rewrite E, lookup_empty in Hi. }
  assert (Hdel : ∀ f, files_of (storage_remove i (storage_ db)) !! f =
    if decide (file_of (item_package i) f) then None else files_of (storage_ db) !! f).
  { intros f. unfold storage_remove. destruct (storage_ db) as [m|]; cbn; [|by case_decide].
    unfold file_of. case_decide as Hf.
    - apply eq_None_not_Some. rewrite lookup_delete_is_Some, lookup_delete_is_Some. naive_solver.
    - rewrite !lookup_delete_ne by naive_solver. done. }
  split; cbn.
  - intros p [_ Hp]%lookup_delete_is_Some. auto.
  - intros f Hf. rewrite Hdel, decide_False; [auto|]. intros Hff%file_of_starts. congruence.
  - intros _ f Hf. rewrite Hdel. case_decide as Hff.
    + split; [intros []; done|]. intros (p & [Hne Hp]%lookup_delete_is_Some & Hpf).
      destruct Hne. apply (file_of_inj _ _ f); auto.
    + rewrite (H3 Hr f Hf). split; intros (p & Hp & Hpf); exists p; (split; [|done]).
      * apply lookup_delete_is_Some. split; [intros E; by subst p|done].
      * by apply lookup_delete_is_Some in Hp as [_ Hp].
  - congruence.
Qed.
End mirror_proofs.

(** ** Events *)

(** A reported list of removed packages and of applications. *)
Abbreviation app_event := (list string * list AppMessage)%type.

Definition good_event (e : app_event) : Prop :=
  Forall (λ p, p = "" ∨ good_package p) e.1 ∧
  Forall (λ m, app_package m = "" ∨ good_package (app_package m)) e.2.

Lemma empty_spec s : empty s = true ↔ s = "".
Proof. apply String.eqb_eq. Qed.

Section events.
Variable path_ exe : string.

Abbreviation all_ok := (λ _ : string, true).
Abbreviation handle := (handle_application_list_update_event path_ exe all_ok).

Lemma mirror_event d0 e db : good_event e → mirror d0 db →
  ∃ db', handle e.1 e.2 db = Val db' tt ∧ mirror d0 db'.
Proof.
  destruct e as [removed apps]. intros [Hr Ha] Hm. cbn [fst snd] in *. unfold handle_application_list_update_event.
  assert (∃ db1, for_each removed (λ p, if empty p then mret tt else
    database_remove (mkItem "" p intent_empty [])) db = Val db1 tt ∧ mirror d0 db1) as (db1 & H1 & Hm1).
  { clear Ha. revert db Hm. induction Hr as [|p removed Hp _ IH]; intros db Hm; [by exists db|]. cbn [for_each].
    destruct (empty p) eqn:E; [exact (IH db Hm)|].
    destruct Hp as [->|Hp]; [done|]. destruct (mirror_remove d0 (mkItem "" p intent_empty []) db Hp Hm) as (db1 & H1 & Hm1).
    rewrite (bind_val _ _ _ _ _ H1). by apply IH. }
  rewrite (bind_val _ _ _ _ _ H1). clear H1 Hr Hm. revert db1 Hm1.
  induction Ha as [|m apps Hp _ IH]; intros db1 Hm; [by exists db1|]. cbn [for_each].
  change (item_package (item_of_message m)) with (app_package m).
  destruct (empty (app_package m)) eqn:E; [exact (IH db1 Hm)|].
  destruct Hp as [Hp|Hp]; [apply empty_spec in Hp; congruence|].
  destruct (mirror_store path_ exe all_ok (λ _, eq_refl) d0 (item_of_message m) db1 Hp Hm) as (db2 & H2 & Hm2).
  rewrite (bind_val _ _ _ _ _ H2). by apply IH.
Qed.

(** The last application of the list with package [p]. *)
Fixpoint last_app (p : string) (apps : list AppMessage) : option AppMessage :=
  match apps with
  | [] => None
  | m :: apps' =>
      match last_app p apps' with
      | Some m' => Some m'
      | None => if String.eqb (app_package m) p then Some m else None
      end
  end.

(** What the database is to hold for [p] after an event. *)
Definition after_event (e : app_event) (p : string) (old : option Item) : option Item :=
  match last_app p e.2 with
  | Some m => Some (mkItem (app_name m) p
      (mkIntent (action (app_intent m)) (uri (app_intent m)) (uri (app_intent m)) 0
         (package (app_intent m)) (component (app_intent m)) (categories (app_intent m))) [])
  | None => if decide (p ∈ e.1) then None else old
  end.

Lemma database_remove_items q db :
  ∃ db1, database_remove (mkItem "" q intent_empty []) db = Val db1 tt ∧
    ∀ p, items_ db1 !! p = if decide (p = q) then None else items_ db !! p.
Proof.
  eexists. split; [reflexivity|]. intros p. cbn [item_package].
  destruct (items_ db !! q) eqn:Hq; cbn; case_decide; subst; try done.
  - apply lookup_delete_eq.
  - by rewrite lookup_delete_ne.
Qed.

Lemma items_after_removals removed db p : p ≠ "" →
  ∃ db1, for_each removed (λ p, if empty p then mret tt else
    database_remove (mkItem "" p intent_empty [])) db = Val db1 tt ∧
    items_ db1 !! p = if decide (p ∈ removed) then None else items_ db !! p.
Proof.
  intros Hp. revert db. induction removed as [|q removed IH]; intros db; [by exists db|]. cbn [for_each].
  destruct (empty q) eqn:E.
  - apply empty_spec in E as ->. destruct (IH db) as (db1 & H1 & H2). exists db1. split; [exact H1|].
    rewrite H2. repeat case_decide; set_solver.
  - destruct (database_remove_items q db) as (db1 & Hr & Hl). rewrite (bind_val _ _ _ _ _ Hr).
    destruct (IH db1) as (db2 & H1 & H2). exists db2. split; [exact H1|].
    rewrite H2, Hl. repeat case_decide; set_solver.
Qed.

Lemma items_after_apps apps db p : p ≠ "" →
  ∃ db1, for_each apps (λ m, if empty (item_package (item_of_message m)) then mret tt
      else store_or_update path_ exe all_ok (item_of_message m)) db = Val db1 tt ∧
    items_ db1 !! p = match last_app p apps with
      | Some m => Some (mkItem (app_name m) p (launch_intent (item_of_message m)) [])
      | None => items_ db !! p end.
Proof.
  intros Hp. revert db. induction apps as [|m apps IH]; intros db; [by exists db|].
  cbn [for_each last_app]. change (item_package (item_of_message m)) with (app_package m).
  destruct (empty (app_package m)) eqn:E.
  { apply empty_spec in E. destruct (IH db) as (db1 & H1 & H2). exists db1. split; [exact H1|].
    rewrite H2, E. destruct (last_app p apps); [done|]. by destruct (String.eqb_spec "" p). }
  destruct (store_or_update_run path_ exe all_ok (λ _, eq_refl) (item_of_message m) db) as (c1 & c2 & Hs).
  rewrite (bind_val _ _ _ _ _ Hs). clear Hs. cbn zeta. set (db1 := mkDatabase _ _ _).
  destruct (IH db1) as (db2 & H1 & H2). exists db2. split; [exact H1|]. rewrite H2.
  destruct (last_app p apps); [done|]. unfold db1. cbn [items_].
  change (item_package (item_of_message m)) with (app_package m).
  destruct (String.eqb_spec (app_package m) p) as [<-|]; [by rewrite lookup_insert_eq|by rewrite lookup_insert_ne].
Qed.
End events.

(** ** Properties *)

(** The launchers mirror the database.  Starting from any directory and
    after any sequence of application-list events with Android package names,
    every write succeeding: no event raises; files that are not the daemon's
    are untouched; and once an application has been stored, the daemon's files
    are exactly a desktop entry and an icon for each application the database
    knows (stale ones of an earlier run are gone). *)
Theorem appdb_launchers_mirror path_ exe d0 es :
  Forall good_event es →
  ∃ db, for_each es (λ e, handle_application_list_update_event path_ exe (λ _, true) e.1 e.2) (database_new d0) = Val db tt ∧
    (∀ f, string_starts_with f "anbox-" = false → files_of (storage_ db) !! f = files_of d0 !! f) ∧
    (done_reset db = true → ∀ f, string_starts_with f "anbox-" = true →
       is_Some (files_of (storage_ db) !! f) ↔ ∃ p, is_Some (items_ db !! p) ∧ file_of p f).
Proof.
  intros Hes.
  assert (H : ∀ db, mirror d0 db → ∃ db', for_each es (λ e,
    handle_application_list_update_event path_ exe (λ _, true) e.1 e.2) db = Val db' tt ∧ mirror d0 db').
  { induction Hes as [|e es He _ IH]; intros db Hm; [by exists db|]. cbn [for_each].
    destruct (mirror_event path_ exe d0 e db He Hm) as (db1 & H1 & Hm1).
    rewrite (bind_val _ _ _ _ _ H1). by apply IH. }
  destruct (H _ (mirror_new d0)) as (db & Hrun & [_ Hother Hfiles _]). by exists db.
Qed.

(** What [find_by_package] returns after an event, for every package: the
    last application reported for it, with the icon dropped, the flags zero
    and the MIME type replaced by the URI; otherwise nothing if it was
    removed; otherwise what it was. *)
Theorem appdb_find_after_event path_ exe (e : app_event) db p :
  p ≠ "" →
  ∃ db', handle_application_list_update_event path_ exe (λ _, true) e.1 e.2 db = Val db' tt ∧
    items_ db' !! p = after_event e p (items_ db !! p) ∧
    find_by_package p db' = default Unknown (after_event e p (items_ db !! p)).
Proof.
  intros Hp. unfold handle_application_list_update_event, after_event.
  destruct (items_after_removals e.1 db p Hp) as (db1 & H1 & Hl1).
  destruct (items_after_apps path_ exe e.2 db1 p Hp) as (db2 & H2 & Hl2).
  exists db2. split; [by rewrite (bind_val _ _ _ _ _ H1)|]. unfold find_by_package.
  rewrite Hl2, Hl1. by destruct (last_app p e.2).
Qed.

Definition demo_app : AppMessage :=
  mkAppMessage "Mail" "com.mail" (mkIntent "VIEW" "mailto:x" "text/plain" 4 "com.mail" ".Main" []) [1; 2].

Lemma appdb_launchers_mirror_witness : ∃ db,
  for_each [([], [demo_app])] (λ e : app_event, handle_application_list_update_event "/apps" "anbox" (λ _, true) e.1 e.2)
    (database_new (Some {["anbox-old.desktop" := [7]; "other" := [8]]})) = Val db tt ∧
  files_of (storage_ db) !! "other" = Some [8] ∧ files_of (storage_ db) !! "anbox-old.desktop" = None ∧
  is_Some (files_of (storage_ db) !! "anbox-com-mail.png").
Proof.
  destruct (appdb_launchers_mirror "/apps" "anbox" (Some {["anbox-old.desktop" := [7]; "other" := [8]]})
    [([], [demo_app])]) as (db & Hrun & Ho & Hf).
  - constructor; [|constructor]. split; [constructor|]. constructor; [|constructor].
    right. split; [discriminate|reflexivity].
  - exists db. split; [exact Hrun|]. split; [exact (Ho "other" eq_refl)|].
    vm_compute in Hrun. injection Hrun as <-. split; [reflexivity|]. eexists. reflexivity.
Defined.

Lemma appdb_find_after_event_witness : ∃ db',
  handle_application_list_update_event "/apps" "anbox" (λ _, true) [] [demo_app] (database_new None) = Val db' tt ∧
  intent_type (launch_intent (find_by_package "com.mail" db')) = "mailto:x".
Proof.
  destruct (appdb_find_after_event "/apps" "anbox" ([], [demo_app]) (database_new None) "com.mail")
    as (db' & Hrun & _ & Hf); [discriminate|].
  exists db'. split; [exact Hrun|]. rewrite Hf. reflexivity.
Defined.
