(* ===== verification/Wm.v ===== *)
(** * Window management (src/src/anbox/wm, platform/sdl/platform.cpp)

    Windows are shared objects: [heap] holds the live ones by address, the
    window manager's [windows_] owns them by task and the SDL platform's
    [platform_windows] refers to them weakly by window id.  The renderer is an
    interface ([NativeWindows]); what SDL answers when a window is created
    ([sdl_create]) and what the Android side answers to a request ([api]) are
    arguments. *)

From S2P Require Import Prelude Utils Rect Launch AppDb.

(** ** Window states reported by the container *)

Record WindowState : Type := mkWindowState {
  display_ : Z;
  has_surface_ : bool;
  ws_frame : Rect;
  package_name_ : string;
  ws_task : Z;
  stack_ : StackId;
}.

Definition window_state_new : WindowState := mkWindowState (-1) false Rect_Invalid "" (-1) Stack_Invalid.

(** A window of the protobuf event, and its conversion. *)
Record WindowMessage : Type := mkWindowMessage {
  display_id : Z; has_surface : bool;
  frame_left : Z; frame_top : Z; frame_right : Z; frame_bottom : Z;
  m_package_name : string; task_id : Z; stack_id : Z;
}.

Definition convert_window_state (m : WindowMessage) : WindowState :=
  mkWindowState (display_id m) (has_surface m)
    (mkRect (frame_left m) (frame_top m) (frame_right m) (frame_bottom m))
    (m_package_name m) (task_id m) (stack_of_int (stack_id m)).

(** ** The renderer's interface *)

Class NativeWindows (R : Type) : Type := {
  createNativeWindow : Z → R → bool * R;
  destroyNativeWindow : Z → R → R;
}.

(** ** Windows and the desktop *)

Record Window : Type := mkWindow {
  id_ : Z;
  sdl_window_id : Z;
  native_window_ : Z;
  task_ : Z;
  frame_ : Rect;
  title_ : string;
  attached_ : bool;
}.

Inductive ApiCall : Type :=
  | api_resize_task (task : Z) (rect : Rect) (mode : Z)
  | api_set_focused_task (task : Z)
  | api_remove_task (task : Z).

Record Desktop (R : Type) : Type := mkDesktop {
  renderer_ : option R;
  heap : gmap Z Window;
  next_object : Z;
  platform_windows : gmap Z Z;
  next_window_id : Z;
  focused_sdl_window_id_ : Z;
  windows_ : gmap Z Z;
  api_log : list ApiCall;
}.
Arguments mkDesktop {_} _ _ _ _ _ _ _ _.
Arguments renderer_ {_} _.
Arguments heap {_} _.
Arguments next_object {_} _.
Arguments platform_windows {_} _.
Arguments next_window_id {_} _.
Arguments focused_sdl_window_id_ {_} _.
Arguments windows_ {_} _.
Arguments api_log {_} _.

Definition desktop_new {R} (r : option R) : Desktop R := mkDesktop r ∅ 1 ∅ 0 0 ∅ [].

Section desktop.
Context {R : Type} `{NativeWindows R}.
Variable sdl_create : Z → option (Z * Z).
Variable api : ApiCall → option exn.
Variable app_db_ : Database.
Variable platform_alive : bool.

Definition set_renderer_ (r : option R) (d : Desktop R) : Desktop R :=
  mkDesktop r (heap d) (next_object d) (platform_windows d) (next_window_id d)
    (focused_sdl_window_id_ d) (windows_ d) (api_log d).
Definition set_heap (hp : gmap Z Window) (d : Desktop R) : Desktop R :=
  mkDesktop (renderer_ d) hp (next_object d) (platform_windows d) (next_window_id d)
    (focused_sdl_window_id_ d) (windows_ d) (api_log d).
Definition set_windows (ws : gmap Z Z) (d : Desktop R) : Desktop R :=
  mkDesktop (renderer_ d) (heap d) (next_object d) (platform_windows d) (next_window_id d)
    (focused_sdl_window_id_ d) ws (api_log d).
Definition set_platform_windows (ws : gmap Z Z) (d : Desktop R) : Desktop R :=
  mkDesktop (renderer_ d) (heap d) (next_object d) ws (next_window_id d)
    (focused_sdl_window_id_ d) (windows_ d) (api_log d).
Definition set_focus (f : Z) (d : Desktop R) : Desktop R :=
  mkDesktop (renderer_ d) (heap d) (next_object d) (platform_windows d) (next_window_id d)
    f (windows_ d) (api_log d).

(** A request to the Android side: sent, and possibly answered by an error. *)
Definition call_api (c : ApiCall) : M (Desktop R) unit :=
  modify (λ d, mkDesktop (renderer_ d) (heap d) (next_object d) (platform_windows d) (next_window_id d)
    (focused_sdl_window_id_ d) (windows_ d) (api_log d ++ [c])) ≫= λ _,
  match api c with None => mret tt | Some e => throw e end.

Definition deref (obj : Z) : M (Desktop R) Window :=
  d ← get;
  match heap d !! obj with Some w => mret w | None => undefined end.

(** *** wm::Window *)

Definition update_frame (obj : Z) (frame : Rect) : M (Desktop R) unit :=
  w ← deref obj;
  if decide (frame = frame_ w) then mret tt
  else modify (λ d, set_heap (<[obj := mkWindow (id_ w) (sdl_window_id w) (native_window_ w) (task_ w)
                                         frame (title_ w) (attached_ w)]> (heap d)) d).

Definition attach (obj : Z) : M (Desktop R) bool :=
  w ← deref obj;
  d ← get;
  match renderer_ d with
  | None => mret false
  | Some r =>
      let '(ok, r') := createNativeWindow (native_window_ w) r in
      put (set_renderer_ (Some r') (set_heap (<[obj := mkWindow (id_ w) (sdl_window_id w)
             (native_window_ w) (task_ w) (frame_ w) (title_ w) ok]> (heap d)) d)) ≫= λ _,
      mret ok
  end.

(** [handle] is what the virtual [native_handle] returns at the call. *)
Definition release_window (w : Window) (native_handle : Z) : M (Desktop R) unit :=
  d ← get;
  match renderer_ d with
  | None => mret tt
  | Some r =>
      if attached_ w then put (set_renderer_ (Some (destroyNativeWindow native_handle r)) d) else mret tt
  end.
Definition release (obj : Z) : M (Desktop R) unit :=
  w ← deref obj; release_window w (native_window_ w).

(** The last reference goes: [~sdl::Window], then [~wm::Window], in which
    [native_handle] is the base class's and returns zero. *)
Definition destroy (obj : Z) : M (Desktop R) unit :=
  w ← deref obj;
  release_window w 0 ≫= λ _, modify (λ d, set_heap (delete obj (heap d)) d).

(** *** platform::sdl::Platform *)

(** [None] is a null pointer. *)
Definition create_window (task : Z) (frame : Rect) (title : string) : M (Desktop R) (option Z) :=
  d ← get;
  match renderer_ d with
  | None => mret None
  | Some _ =>
      let id := next_window_id d in
      put (mkDesktop (renderer_ d) (heap d) (next_object d) (platform_windows d) (i32 (id + 1))
             (focused_sdl_window_id_ d) (windows_ d) (api_log d)) ≫= λ _,
      match sdl_create id with
      | None => throw (runtime_error "Failed to create window")
      | Some (native, sdl_id) =>
          let obj := next_object d in
          put (mkDesktop (renderer_ d)
                 (<[obj := mkWindow id sdl_id native task frame title false]> (heap d)) (obj + 1)
                 (match platform_windows d !! id with
                  | Some _ => platform_windows d | None => <[id := obj]> (platform_windows d) end)
                 (i32 (id + 1)) sdl_id (windows_ d) (api_log d)) ≫= λ _,
          mret (Some obj)
      end
  end.

(** *** wm::MultiWindowManager *)

Definition mw_resize_task (task : Z) (rect : Rect) (mode : Z) : M (Desktop R) unit :=
  call_api (api_resize_task task rect mode).
Definition mw_set_focused_task (task : Z) : M (Desktop R) unit := call_api (api_set_focused_task task).
Definition mw_remove_task (task : Z) : M (Desktop R) unit := call_api (api_remove_task task).

Definition title_for (w : WindowState) : string :=
  let app := find_by_package (package_name_ w) app_db_ in
  if item_valid app then name app else package_name_ w.

(** One reported window; [ups] are the [task_updates] collected so far. *)
Definition apply_updated (w : WindowState) (ups : gmap Z (list WindowState)) :
    M (Desktop R) (gmap Z (list WindowState)) :=
  if decide (stack_ w ≠ Stack_Freeform) then mret ups
  else if negb (has_surface_ w) then mret ups
  else
    d ← get;
    match windows_ d !! ws_task w with
    | Some _ =>
        mret (match ups !! ws_task w with
              | None => <[ws_task w := [w]]> ups
              | Some l => <[ws_task w := l ++ [w]]> ups
              end)
    | None =>
        if platform_alive then
          o ← create_window (ws_task w) (ws_frame w) (title_for w);
          match o with
          | Some obj =>
              attach obj ≫= λ _,
              modify (λ d, set_windows (match windows_ d !! ws_task w with
                                        | Some _ => windows_ d
                                        | None => <[ws_task w := obj]> (windows_ d) end) d) ≫= λ _,
              mret ups
          | None => mw_remove_task (ws_task w) ≫= λ _, mret ups
          end
        else mret ups
    end.

Fixpoint apply_all (updated : list WindowState) (ups : gmap Z (list WindowState)) :
    M (Desktop R) (gmap Z (list WindowState)) :=
  match updated with
  | [] => mret ups
  | w :: rest => ups' ← apply_updated w ups; apply_all rest ups'
  end.

(** [Window::update_state] ignores its argument. *)
Definition update_state (obj : Z) (states : list WindowState) : M (Desktop R) unit :=
  deref obj ≫= λ _, mret tt.

Definition send_updates (ups : gmap Z (list WindowState)) : M (Desktop R) unit :=
  for_each (sorted_entries ups) (λ '(t, l),
    d ← get;
    match windows_ d !! t with None => mret tt | Some obj => update_state obj l end).

Definition apply_removed (ups : gmap Z (list WindowState)) (w : WindowState) : M (Desktop R) unit :=
  d ← get;
  match windows_ d !! ws_task w with
  | None => mret tt
  | Some obj =>
      match ups !! ws_task w with
      | Some _ => mret tt
      | None =>
          release obj ≫= λ _,
          modify (λ d, set_windows (delete (ws_task w) (windows_ d)) d) ≫= λ _,
          destroy obj
      end
  end.

Definition apply_window_state_update (updated removed : list WindowState) : M (Desktop R) unit :=
  ups ← apply_all updated ∅;
  send_updates ups ≫= λ _,
  for_each removed (apply_removed ups).

(** PlatformApiSkeleton::handle_window_state_update_event. *)
Definition handle_window_state_update_event (windows removed_windows : list WindowMessage) : M (Desktop R) unit :=
  apply_window_state_update (map convert_window_state windows) (map convert_window_state removed_windows).

(** The first window, in task order, whose own task is [task]; [None] when
    an entry dangles. *)
Fixpoint find_task (hp : gmap Z Window) (task : Z) (l : list (Z * Z)) : option (option Z) :=
  match l with
  | [] => Some None
  | (_, obj) :: l' =>
      match hp !! obj with
      | None => None
      | Some w => if decide (task_ w = task) then Some (Some obj) else find_task hp task l'
      end
  end.

Definition find_window_for_task (task : Z) : M (Desktop R) (option Z) :=
  d ← get;
  match find_task (heap d) task (sorted_entries (windows_ d)) with
  | None => undefined
  | Some o => mret o
  end.
End desktop.

(** ** The managers' interface *)

(** What the platform and the composer need of a window manager [S] that runs
    on a desktop. *)
Class Manager (R S : Type) : Type := {
  desktop : S → Desktop R;
  set_desktop : Desktop R → S → S;
  resize_task : Z → Rect → Z → M S unit;
  set_focused_task : Z → M S unit;
  remove_task : Z → M S unit;
  find_window : Z → M S (option Z);
}.

Definition on_desktop {R S} `{Manager R S} {A} : M (Desktop R) A → M S A := zoom desktop set_desktop.

(** *** wm::SingleWindowManager *)

Record Single (R : Type) : Type := mkSingle {
  single_desktop : Desktop R;
  window_ : option Z;
  terminated : bool;      (* SIGTERM was sent *)
}.
Arguments mkSingle {_} _ _ _.
Arguments single_desktop {_} _.
Arguments window_ {_} _.
Arguments terminated {_} _.

Definition single_setup {R} `{NativeWindows R} (sdl_create : Z → option (Z * Z)) (platform_alive : bool)
    (window_size_ : Rect) : M (Single R) unit :=
  let on {A} : M (Desktop R) A → M (Single R) A :=
    zoom single_desktop (λ d s, mkSingle d (window_ s) (terminated s)) in
  if platform_alive then
    o ← on (create_window sdl_create 0 window_size_ "Anbox - Android in a Box");
    modify (λ s, mkSingle (single_desktop s) o (terminated s)) ≫= λ _,
    match o with
    | None => undefined
    | Some obj => on (attach obj) ≫= λ _, mret tt
    end
  else throw (runtime_error "Can't create window as we don't have a platform abstraction").

Definition single_apply_window_state_update {R} (updated removed : list WindowState) : M (Single R) unit := mret tt.
Definition single_find_window_for_task {R} (task : Z) : M (Single R) (option Z) :=
  s ← get; mret (window_ s).
Definition single_resize_task {R} (task : Z) (rect : Rect) (mode : Z) : M (Single R) unit := mret tt.
Definition single_set_focused_task {R} (task : Z) : M (Single R) unit := mret tt.
Definition single_remove_task {R} (task : Z) : M (Single R) unit :=
  if decide (task ≠ 0) then mret tt else modify (λ s, mkSingle (single_desktop s) (window_ s) true).

#[global] Instance single_manager {R} : Manager R (Single R) := {
  desktop := single_desktop;
  set_desktop d s := mkSingle d (window_ s) (terminated s);
  resize_task := single_resize_task;
  set_focused_task := single_set_focused_task;
  remove_task := single_remove_task;
  find_window := single_find_window_for_task;
}.

(** *** The multi-window manager lives on the desktop itself *)

Definition multi_manager {R} (api : ApiCall → option exn) : Manager R (Desktop R) := {|
  desktop d := d;
  set_desktop d _ := d;
  resize_task := mw_resize_task api;
  set_focused_task := mw_set_focused_task api;
  remove_task := mw_remove_task api;
  find_window := find_window_for_task;
|}.

(** ** The platform as observer of its windows *)

Section observer.
Context {R S : Type} `{Manager R S}.

(** [windows_.find(id)], then [weak_ptr::lock]. *)
Definition lock_window (id : Z) (s : S) : option (option (Z * Window)) :=
  match platform_windows (desktop s) !! id with
  | None => None
  | Some obj =>
      match heap (desktop s) !! obj with
      | None => Some None
      | Some w => Some (Some (obj, w))
      end
  end.

Definition window_deleted (id : Z) : M S unit :=
  s ← get;
  match lock_window id s with
  | None => mret tt
  | Some lw =>
      (match lw with None => mret tt | Some (_, w) => remove_task (task_ w) end) ≫= λ _,
      on_desktop (modify (λ d, set_platform_windows (delete id (platform_windows d)) d))
  end.

Definition window_wants_focus (id : Z) : M S unit :=
  s ← get;
  match lock_window id s with
  | Some (Some (_, w)) =>
      on_desktop (modify (set_focus (sdl_window_id w))) ≫= λ _, set_focused_task (task_ w)
  | _ => mret tt
  end.

Definition window_moved (id x y : Z) : M S unit :=
  s ← get;
  match lock_window id s with
  | Some (Some (obj, w)) =>
      let new_frame := translate (frame_ w) x y in
      on_desktop (update_frame obj new_frame) ≫= λ _, resize_task (task_ w) new_frame 3
  | _ => mret tt
  end.

Definition window_resized (id width height : Z) : M S unit :=
  s ← get;
  match lock_window id s with
  | Some (Some (obj, w)) =>
      let new_frame := resize (frame_ w) width height in
      on_desktop (update_frame obj new_frame) ≫= λ _, resize_task (task_ w) new_frame 3
  | _ => mret tt
  end.

(** *** sdl::Window::process_event *)

Inductive WindowEvent : Type :=
  | WINDOWEVENT_FOCUS_GAINED | WINDOWEVENT_FOCUS_LOST
  | WINDOWEVENT_SIZE_CHANGED (data1 data2 : Z)
  | WINDOWEVENT_MOVED (data1 data2 : Z)
  | WINDOWEVENT_SHOWN | WINDOWEVENT_HIDDEN | WINDOWEVENT_CLOSE
  | WINDOWEVENT_other.

Definition process_event (id : Z) (event : WindowEvent) : M S unit :=
  match event with
  | WINDOWEVENT_FOCUS_GAINED => window_wants_focus id
  | WINDOWEVENT_SIZE_CHANGED w h => window_resized id w h
  | WINDOWEVENT_MOVED x y => window_moved id x y
  | WINDOWEVENT_CLOSE => window_deleted id
  | _ => mret tt
  end.

(** The SDL_WINDOWEVENT case of [Platform::process_events]: the first live
    window with the event's SDL window id. *)
Fixpoint find_sdl_window (hp : gmap Z Window) (sdl_id : Z) (l : list (Z * Z)) : option Z :=
  match l with
  | [] => None
  | (_, obj) :: l' =>
      match hp !! obj with
      | Some w => if decide (sdl_window_id w = sdl_id) then Some (id_ w) else find_sdl_window hp sdl_id l'
      | None => find_sdl_window hp sdl_id l'
      end
  end.

Definition process_window_event (sdl_id : Z) (event : WindowEvent) : M S unit :=
  s ← get;
  match find_sdl_window (heap (desktop s)) sdl_id (sorted_entries (platform_windows (desktop s))) with
  | Some id => process_event id event
  | None => mret tt
  end.
End observer.

(** ** Invariant: the manager owns live windows under their own task *)

Record desktop_ok {R} (d : Desktop R) : Prop := mk_desktop_ok {
  ok_owned : ∀ t obj, windows_ d !! t = Some obj → ∃ w, heap d !! obj = Some w ∧ task_ w = t;
  ok_fresh : ∀ obj, is_Some (heap d !! obj) → obj < next_object d;
}.

Definition eligible (w : WindowState) : bool :=
  bool_decide (stack_ w = Stack_Freeform) && has_surface_ w.
Definition eligible_for (t : Z) (updated : list WindowState) : list WindowState :=
  filter (λ w, eligible w = true ∧ ws_task w = t) updated.

Lemma eligible_for_cons t w l :
  eligible_for t (w :: l) =
  if decide (eligible w = true ∧ ws_task w = t) then w :: eligible_for t l else eligible_for t l.
Proof. unfold eligible_for. by rewrite filter_cons. Qed.

(** Allocation never touches an object that exists. *)
Record extends {R} (d d' : Desktop R) : Prop := mk_extends {
  ext_heap : ∀ obj, obj < next_object d → heap d' !! obj = heap d !! obj;
  ext_next : next_object d ≤ next_object d';
  ext_renderer : is_Some (renderer_ d) → is_Some (renderer_ d');
}.

#[global] Instance extends_preorder {R} : PreOrder (@extends R).
Proof.
  split; [intros d; split; [done|lia|done]|].
  intros a b c [H1 H2 H3] [H4 H5 H6]. split; [|lia|auto].
  intros obj Ho. rewrite H4 by lia. auto.
Qed.

Section removals.
Context {R : Type} `{NativeWindows R}.

Lemma send_updates_skip ups (d : Desktop R) : desktop_ok d → send_updates ups d = Val d tt.
Proof.
  intros Hok. unfold send_updates. induction (sorted_entries ups) as [|[t l] es IH]; [done|]. cbn [for_each].
  rewrite (bind_val _ _ _ d tt); [done|]. run_m. destruct (windows_ d !! t) as [obj|] eqn:Ht; [|done].
  destruct (ok_owned _ Hok t obj Ht) as (w & Hw & _). unfold update_state, deref. run_m. by rewrite Hw.
Qed.

Lemma apply_removed_spec ups w (d : Desktop R) : desktop_ok d →
  ∃ d', apply_removed ups w d = Val d' tt ∧ desktop_ok d' ∧
    (∀ t, windows_ d' !! t = if decide (t = ws_task w ∧ ups !! t = None) then None else windows_ d !! t) ∧
    (∀ t obj, windows_ d' !! t = Some obj → heap d' !! obj = heap d !! obj).
Proof.
  intros Hok. unfold apply_removed. run_m.
  destruct (windows_ d !! ws_task w) as [obj|] eqn:Hk.
  2: { exists d. split; [done|]. split; [done|]. split; [|done]. intros t. case_decide as Ht; [|done]. destruct Ht as [-> _]. done. }
  destruct (ups !! ws_task w) eqn:Hu.
  { exists d. split; [done|]. split; [done|]. split; [|done]. intros t. rewrite decide_False; [done|]. intros [-> ?]. congruence. }
  destruct (ok_owned _ Hok _ _ Hk) as (x & Hx & Htx).
  assert (Hrel : ∃ r, release obj d = Val (set_renderer_ r d) tt).
  { unfold release, deref, release_window. run_m. rewrite Hx. destruct d as [[r|] ? ? ? ? ? ? ?]; cbn;
      [destruct (attached_ x)|]; eexists; reflexivity. }
  destruct Hrel as [r Hrel]. rewrite Hrel.
  set (d1 := set_windows _ _).
  assert (Hdes : ∃ r', destroy obj d1 = Val (set_heap (delete obj (heap d)) (set_renderer_ r' d1)) tt).
  { unfold destroy, deref, release_window. run_m. unfold d1. cbn [heap set_windows set_renderer_ renderer_]. rewrite Hx.
    destruct r as [r|]; cbn; [destruct (attached_ x)|]; eexists; reflexivity. }
  destruct Hdes as [r' Hdes]. rewrite Hdes. eexists. split; [reflexivity|].
  assert (Hother : ∀ t o, delete (ws_task w) (windows_ d) !! t = Some o → o ≠ obj).
  { intros t o [Hne Ht]%lookup_delete_Some ->. destruct (ok_owned _ Hok _ _ Ht) as (y & Hy & Hty). congruence. }
  split; [split|split]; cbn.
  - intros t o Ht. assert (Hne := Hother t o Ht). apply lookup_delete_Some in Ht as [_ Ht].
    destruct (ok_owned _ Hok _ _ Ht) as (y & Hy & Hty). exists y. by rewrite lookup_delete_ne by done.
  - intros o [_ Ho]%lookup_delete_is_Some. by apply (ok_fresh _ Hok).
  - intros t. case_decide as Hd.
    + destruct Hd as [-> _]. apply lookup_delete_eq.
    + rewrite lookup_delete_ne; [done|]. intros <-. by apply Hd.
  - intros t o Ht. rewrite lookup_delete_ne; [done|]. apply not_eq_sym, (Hother t o Ht).
Qed.

Lemma apply_removed_all ups removed (d : Desktop R) : desktop_ok d →
  ∃ d', for_each removed (apply_removed ups) d = Val d' tt ∧ desktop_ok d' ∧
    (∀ t, windows_ d' !! t =
       if decide (t ∈ map ws_task removed ∧ ups !! t = None) then None else windows_ d !! t) ∧
    (∀ t obj, windows_ d' !! t = Some obj → heap d' !! obj = heap d !! obj).
Proof.
  revert d. induction removed as [|w removed IH]; intros d Hok.
  { exists d. split; [done|]. split; [done|]. split; [|done]. intros t. by rewrite decide_False by set_solver. }
  destruct (apply_removed_spec ups w d Hok) as (d1 & H1 & Hok1 & Hw1 & Hh1). cbn [for_each].
  rewrite (bind_val _ _ _ _ _ H1). destruct (IH d1 Hok1) as (d' & Hrun & Hok' & Hw' & Hh').
  exists d'. split; [done|]. split; [done|]. split.
  - intros t. rewrite Hw', Hw1. cbn [map]. repeat case_decide; set_solver.
  - intros t obj Ht. rewrite (Hh' t obj Ht). apply (Hh1 t).
    rewrite Hw' in Ht. by case_decide.
Qed.
End removals.

Section updates.
Context {R : Type} `{NativeWindows R}.
Variable sdl_create : Z → option (Z * Z).
Variable api : ApiCall → option exn.
Variable app_db_ : Database.
Hypothesis sdl_works : ∀ id, is_Some (sdl_create id).

Abbreviation apply_updated := (apply_updated sdl_create api app_db_ true).
Abbreviation apply_all := (apply_all sdl_create api app_db_ true).

(** Creating and attaching the window of a task that has none. *)
Lemma create_attach d task frame title : is_Some (renderer_ d) → desktop_ok d →
  ∃ d' w, (o ← create_window sdl_create task frame title;
           match o with Some obj => attach obj | None => mret false end) d = Val d' (attached_ w) ∧
    desktop_ok d' ∧ extends d d' ∧ windows_ d' = windows_ d ∧ next_object d' = next_object d + 1 ∧
    heap d' !! next_object d = Some w ∧ task_ w = task ∧ frame_ w = frame ∧
    (∃ d1, create_window sdl_create task frame title d = Val d1 (Some (next_object d)) ∧
           attach (next_object d) d1 = Val d' (attached_ w)).
Proof.
  intros [r Hr] [Ho Hf]. destruct (sdl_works (next_window_id d)) as [[native sid] Hs].
  destruct (createNativeWindow native r) as [ok r'] eqn:Hn.
  set (w := mkWindow (next_window_id d) sid native task frame title ok).
  assert (Hc : ∃ d1, create_window sdl_create task frame title d = Val d1 (Some (next_object d)) ∧
    renderer_ d1 = Some r ∧ windows_ d1 = windows_ d ∧ next_object d1 = next_object d + 1 ∧
    heap d1 = <[next_object d := mkWindow (next_window_id d) sid native task frame title false]> (heap d)).
  { eexists. unfold create_window. run_m. rewrite Hr, Hs. split; [reflexivity|]. by cbn. }
  destruct Hc as (d1 & Hc & Hr1 & Hw1 & Hn1 & Hh1).
  set (d' := set_renderer_ (Some r') (set_heap (<[next_object d := w]> (heap d1)) d1)).
  assert (Ha : attach (next_object d) d1 = Val d' ok).
  { unfold attach, deref. run_m. rewrite Hh1, lookup_insert_eq, Hr1. cbn. rewrite Hn. done. }
  exists d', w. assert (Hheap : heap d' = <[next_object d := w]> (heap d)).
  { unfold d'. cbn. by rewrite Hh1, insert_insert_eq. }
  assert (Hne : ∀ obj, is_Some (heap d !! obj) → obj ≠ next_object d).
  { intros obj Hobj%Hf. lia. }
  split; [by rewrite (bind_val _ _ _ _ _ Hc)|]. split; [split|split; [split|]].
  - intros t obj. cbn. rewrite Hw1. intros Ht. destruct (Ho t obj Ht) as (x & Hx & Htx). exists x.
    rewrite Hh1, insert_insert_eq, lookup_insert_ne by (apply not_eq_sym, Hne; eauto). done.
  - intros obj. cbn. rewrite Hn1, Hh1, insert_insert_eq. intros [<-|[_ Hx%Hf]]%lookup_insert_is_Some; lia.
  - intros obj Hlt. rewrite Hheap, lookup_insert_ne by lia. done.
  - cbn. lia.
  - intros _. by eexists.
  - rewrite Hheap, lookup_insert_eq. split_and!; try done. by exists d1.
Qed.

Lemma apply_updated_skip w ups d : eligible w = false → apply_updated w ups d = Val d ups.
Proof.
  unfold eligible, Wm.apply_updated. intros Hw. destruct (decide (stack_ w = Stack_Freeform)) as [Hs|Hs].
  - rewrite bool_decide_true in Hw by done. rewrite decide_False by (intros Hne; by apply Hne).
    cbn in Hw. by rewrite Hw.
  - by rewrite decide_True.
Qed.

Lemma apply_updated_known w ups d obj : eligible w = true → windows_ d !! ws_task w = Some obj →
  ∃ l, apply_updated w ups d = Val d (<[ws_task w := l]> ups).
Proof.
  unfold eligible, Wm.apply_updated. intros [Hs Hh]%andb_true_iff Hk. apply bool_decide_eq_true in Hs.
  rewrite decide_False by (intros Hne; by apply Hne). rewrite Hh. cbn [negb]. run_m. rewrite Hk.
  destruct (ups !! ws_task w); by eexists.
Qed.

Lemma apply_updated_new w ups d : eligible w = true → windows_ d !! ws_task w = None →
  is_Some (renderer_ d) → desktop_ok d →
  ∃ d' x, apply_updated w ups d = Val d' ups ∧ desktop_ok d' ∧ extends d d' ∧
    windows_ d' = <[ws_task w := next_object d]> (windows_ d) ∧
    heap d' !! next_object d = Some x ∧ task_ x = ws_task w ∧ frame_ x = ws_frame w.
Proof.
  unfold eligible. intros [Hs Hh]%andb_true_iff Hk Hr Hok. apply bool_decide_eq_true in Hs.
  destruct (create_attach d (ws_task w) (ws_frame w) (title_for app_db_ w) Hr Hok)
    as (d2 & x & _ & [Ho2 Hf2] & [He1 He2 He3] & Hw2 & Hn2 & Hx & Ht & Hfr & d1 & Hc & Ha).
  exists (set_windows (<[ws_task w := next_object d]> (windows_ d2)) d2), x. split.
  - unfold Wm.apply_updated. rewrite decide_False by (intros Hne; by apply Hne). rewrite Hh. cbn [negb].
    run_m. rewrite Hk, Hc, Ha, Hw2, Hk. done.
  - rewrite Hw2. cbn. split; [split|split; [split|]]; cbn; try done.
    intros t obj [[<- <-]|[Hne Hto]]%lookup_insert_Some; [by exists x|]. apply Ho2. by rewrite Hw2.
Qed.
(** How many eligible windows make [task_updates] mention a task. *)
Definition threshold (o : option Z) : nat := match o with Some _ => 1 | None => 2 end.

Definition window_after (d d' : Desktop R) (t : Z) (l : list WindowState) : Prop :=
  match windows_ d !! t, l with
  | Some o, _ => windows_ d' !! t = Some o
  | None, [] => windows_ d' !! t = None
  | None, w :: _ => ∃ o x, windows_ d' !! t = Some o ∧ heap d' !! o = Some x ∧ frame_ x = ws_frame w
  end.

Lemma apply_all_spec updated ups d :
  is_Some (renderer_ d) → desktop_ok d →
  ∃ d' ups', apply_all updated ups d = Val d' ups' ∧ desktop_ok d' ∧ extends d d' ∧
    ∀ t, window_after d d' t (eligible_for t updated) ∧
      (is_Some (ups' !! t) ↔
       is_Some (ups !! t) ∨ (threshold (windows_ d !! t) ≤ length (eligible_for t updated))%nat).
Proof.
  revert ups d. induction updated as [|w rest IH]; intros ups d Hr Hok.
  { exists d, ups. split; [done|]. split; [done|]. split; [done|]. intros t. unfold window_after, eligible_for.
    cbn. destruct (windows_ d !! t); cbn; (split; [done|]); split; auto; intros [|]; (done || lia). }
  cbn [Wm.apply_all]. destruct (eligible w) eqn:Hel.
  2: { rewrite (bind_val _ _ _ _ _ (apply_updated_skip w ups d Hel)).
       destruct (IH ups d Hr Hok) as (d' & ups' & Hrun & ? & ? & Ht). exists d', ups'.
       split; [done|]. split; [done|]. split; [done|]. intros t. rewrite eligible_for_cons, decide_False by (intros [? ?]; congruence). apply Ht. }
  destruct (windows_ d !! ws_task w) as [obj|] eqn:Hk.
  - destruct (apply_updated_known w ups d obj Hel Hk) as [l Hl]. rewrite (bind_val _ _ _ _ _ Hl).
    destruct (IH (<[ws_task w := l]> ups) d Hr Hok) as (d' & ups' & Hrun & ? & ? & Ht). exists d', ups'.
    split; [done|]. split; [done|]. split; [done|]. intros t. rewrite eligible_for_cons. destruct (Ht t) as [Ha Hu].
    destruct (decide (ws_task w = t)) as [<-|Hne].
    + rewrite decide_True by done. split; [unfold window_after in *; by rewrite Hk in *|].
      rewrite Hu, lookup_insert_is_Some, Hk. cbn. split; [right; lia|by auto].
    + rewrite decide_False by (intros [? ?]; congruence). split; [done|]. by rewrite Hu, lookup_insert_ne.
  - destruct (apply_updated_new w ups d Hel Hk Hr Hok) as (d1 & x & Hrun1 & Hok1 & Hext1 & Hw1 & Hx & Htx & Hfx).
    rewrite (bind_val _ _ _ _ _ Hrun1).
    destruct (IH ups d1 (ext_renderer _ _ Hext1 Hr) Hok1) as (d' & ups' & Hrun & Hok' & Hext & Ht).
    exists d', ups'. split; [done|]. split; [done|]. split; [by transitivity d1|]. intros t.
    rewrite eligible_for_cons. destruct (Ht t) as [Ha Hu]. unfold window_after in *.
    destruct (decide (ws_task w = t)) as [<-|Hne].
    + rewrite decide_True, Hk by done. rewrite Hw1, lookup_insert_eq in Ha, Hu. split.
      * exists (next_object d), x. split; [done|]. split; [|done].
        rewrite (ext_heap _ _ Hext); [done|]. apply (ok_fresh _ Hok1). by eexists.
      * rewrite Hu. cbn. by rewrite <- Nat.succ_le_mono.
    + rewrite decide_False by (intros [? ?]; congruence). rewrite Hw1, lookup_insert_ne in Ha, Hu by done. done.
Qed.

End updates.

(** ** Every event keeps the invariant, failures included

    [triple P m Q]: from [P], [m] never hits undefined behaviour, ends in [Q]
    when it returns and in [desktop_ok] when it throws. *)

Definition triple {R A} (P : Desktop R → Prop) (m : M (Desktop R) A) (Q : A → Desktop R → Prop) : Prop :=
  ∀ d, P d → match m d with Val d' a => Q a d' | Exc d' _ => desktop_ok d' | Ub => False end.

Lemma triple_bind {R A B} P (m : M (Desktop R) A) (k : A → M (Desktop R) B) Q1 Q2 :
  triple P m Q1 → (∀ a, triple (Q1 a) (k a) Q2) → triple P (m ≫= k) Q2.
Proof.
  intros Hm Hk d Hd. specialize (Hm d Hd). run_m. destruct (m d) as [d' a|d' e|]; [|done..].
  exact (Hk a d' Hm).
Qed.

Lemma triple_get {R B} P (k : Desktop R → M (Desktop R) B) Q :
  (∀ d0, P d0 → triple (λ d, d = d0) (k d0) Q) → triple P (get ≫= k) Q.
Proof. intros Hk d Hd. run_m. by apply (Hk d Hd). Qed.

Lemma triple_ret {R A} (P : Desktop R → Prop) (a : A) (Q : A → Desktop R → Prop) :
  (∀ d, P d → Q a d) → triple P (mret a) Q.
Proof. intros H d Hd. by apply H. Qed.

Lemma triple_modify {R} (P : Desktop R → Prop) f (Q : unit → Desktop R → Prop) :
  (∀ d, P d → Q tt (f d)) → triple P (modify f) Q.
Proof. intros H d Hd. by apply H. Qed.

Lemma triple_conseq {R A} (P P' : Desktop R → Prop) (m : M (Desktop R) A) Q Q' :
  triple P m Q → (∀ d, P' d → P d) → (∀ a d, Q a d → Q' a d) → triple P' m Q'.
Proof.
  intros Hm HP HQ d Hd. specialize (Hm d (HP d Hd)). destruct (m d); [by apply HQ|done..].
Qed.

(** [obj] is live. *)
Definition live {R} (obj : Z) (d : Desktop R) : Prop := is_Some (heap d !! obj).

Section preservation.
Context {R : Type} `{NativeWindows R}.
Variable sdl_create : Z → option (Z * Z).
Variable api : ApiCall → option exn.
Variable app_db_ : Database.
Variable platform_alive : bool.

Abbreviation ok := (@desktop_ok R).

(** Replacing a live window by one of the same task. *)
Lemma desktop_ok_insert (d : Desktop R) obj w w' f :
  ok d → heap d !! obj = Some w → task_ w' = task_ w →
  heap (f d) = <[obj := w']> (heap d) → windows_ (f d) = windows_ d → next_object (f d) = next_object d →
  ok (f d).
Proof.
  intros [Ho Hf] Hw Ht Hh Hws Hn. split.
  - intros t o. rewrite Hws, Hh. intros (x & Hx & Htx)%Ho. destruct (decide (obj = o)) as [<-|Hne].
    + exists w'. rewrite lookup_insert_eq. split; [done|congruence].
    + exists x. by rewrite lookup_insert_ne.
  - intros o. rewrite Hh, Hn. intros [<-|[_ Hx]]%lookup_insert_is_Some; [|by apply Hf].
    apply Hf. by eexists.
Qed.

Lemma call_api_ok c : triple ok (call_api api c) (λ _, ok).
Proof. intros d [Ho Hf]. unfold call_api. run_m. destruct (api c); by split. Qed.

Lemma attach_ok obj : triple (λ d, ok d ∧ live obj d) (attach obj) (λ _ d, ok d ∧ live obj d).
Proof.
  intros d [Hok [w Hw]]. unfold attach, deref. run_m. rewrite Hw.
  destruct (renderer_ d) as [r|]; [|split; [done|by eexists]].
  destruct (createNativeWindow (native_window_ w) r) as [b r']. split.
  - eapply (desktop_ok_insert d obj w _ (λ d, set_renderer_ (Some r') (set_heap _ d))); [done|done| |done|done|done]. done.
  - unfold live. cbn. rewrite lookup_insert_eq. by eexists.
Qed.

Lemma create_window_ok task frame title :
  triple ok (create_window sdl_create task frame title)
    (λ o d, ok d ∧ match o with None => True | Some obj => ∃ w, heap d !! obj = Some w ∧ task_ w = task end).
Proof.
  intros d [Ho Hf]. unfold create_window. run_m. destruct (renderer_ d); [|done].
  destruct (sdl_create (next_window_id d)) as [[native sid]|]; [|by split]. split.
  - split; cbn.
    + intros t o (x & Hx & Htx)%Ho. exists x. rewrite lookup_insert_ne; [done|].
      assert (o < next_object d) by (apply Hf; by eexists). lia.
    + intros o [<-|[_ Hx%Hf]]%lookup_insert_is_Some; lia.
  - cbn. eexists. by rewrite lookup_insert_eq.
Qed.

Lemma attach_task obj d w : heap d !! obj = Some w →
  match attach obj d with
  | Val d' _ => ∃ w', heap d' !! obj = Some w' ∧ task_ w' = task_ w
  | _ => True
  end.
Proof.
  intros Hw. unfold attach, deref. run_m. rewrite Hw. destruct (renderer_ d) as [r|]; [|by eexists].
  destruct (createNativeWindow (native_window_ w) r). cbn. rewrite lookup_insert_eq. by eexists.
Qed.

Lemma apply_updated_ok w ups : triple ok (apply_updated sdl_create api app_db_ platform_alive w ups) (λ _, ok).
Proof.
  unfold apply_updated. case_decide; [by apply triple_ret|]. destruct (negb _); [by apply triple_ret|].
  apply triple_get. intros d0 Hd0. destruct (windows_ d0 !! ws_task w); [by apply triple_ret; intros ? ->|].
  destruct platform_alive; [|by apply triple_ret; intros ? ->].
  eapply triple_bind; [eapply triple_conseq; [apply create_window_ok|by intros ? ->|done]|].
  intros [obj|]; cbn.
  - eapply (triple_bind _ _ _ (λ _ d, ok d ∧ ∃ x, heap d !! obj = Some x ∧ task_ x = ws_task w)).
    + intros d (Hok & x & Hx & Htx). assert (Ha := attach_ok obj d (conj Hok (ex_intro _ _ Hx))).
      assert (Ht := attach_task obj d x Hx). destruct (attach obj d) as [d'|d'|]; [|done..].
      split; [apply Ha|]. destruct Ht as (x' & ? & ?). exists x'. split; [done|congruence].
    + intros b. eapply (triple_bind _ _ _ (λ _, ok)); [|intros; by apply triple_ret]. apply triple_modify.
      intros d (Hok & x & Hx & Htx). destruct Hok as [Ho Hf].
      destruct (windows_ d !! ws_task w) eqn:Hk; [by split|]. split; [|done]. cbn. intros t o [[<- <-]|[_ Ht]]%lookup_insert_Some; eauto.
  - eapply (triple_bind _ _ _ (λ _, ok)); [|intros; by apply triple_ret].
    eapply triple_conseq; [apply call_api_ok|by intros ? [? _]|done].
Qed.

Lemma apply_all_ok updated ups : triple ok (apply_all sdl_create api app_db_ platform_alive updated ups) (λ _, ok).
Proof.
  revert ups. induction updated as [|w rest IH]; intros ups; [by apply triple_ret|]. cbn [apply_all].
  eapply triple_bind; [apply apply_updated_ok|done].
Qed.

Lemma apply_window_state_update_ok updated removed :
  triple ok (apply_window_state_update sdl_create api app_db_ platform_alive updated removed) (λ _, ok).
Proof.
  unfold apply_window_state_update. eapply triple_bind; [apply apply_all_ok|]. intros ups.
  eapply (triple_bind _ _ _ (λ _, ok)); [intros d Hd; by rewrite send_updates_skip|].
  intros _ d Hd. destruct (apply_removed_all ups removed d Hd) as (d' & -> & ? & _). done.
Qed.

Lemma update_frame_ok obj f : triple (λ d, ok d ∧ live obj d) (update_frame obj f) (λ _, ok).
Proof.
  intros d [Hok [w Hw]]. unfold update_frame, deref. run_m. rewrite Hw. case_decide; [done|].
  set (w' := mkWindow _ _ _ _ _ _ _).
  apply (desktop_ok_insert d obj w w' (λ d, set_heap (<[obj := w']> (heap d)) d)); done.
Qed.

Abbreviation multi := (multi_manager (R := R) api).

Lemma triple_on_desktop {A} P (m : M (Desktop R) A) Q : triple P m Q → triple P (on_desktop (H := multi) m) Q.
Proof. intros Hm d Hd. specialize (Hm d Hd). unfold on_desktop. run_m. cbn. by destruct (m d). Qed.

Lemma process_event_ok id ev : triple ok (process_event (H := multi) id ev) (λ _, ok).
Proof.
  assert (Hframe : ∀ f, triple ok (s ← get; match lock_window (H := multi) id s with
      | Some (Some (obj, w)) => on_desktop (H := multi) (update_frame obj (f (frame_ w))) ≫= λ _, mw_resize_task api (task_ w) (f (frame_ w)) 3
      | _ => mret tt end) (λ _, ok)).
  { intros f. apply triple_get. intros d0 Hd0. unfold lock_window. cbn.
    destruct (platform_windows d0 !! id) as [obj|]; [|by apply triple_ret; intros ? ->].
    destruct (heap d0 !! obj) as [w|] eqn:Hw; [|by apply triple_ret; intros ? ->].
    eapply (triple_bind _ _ _ (λ _, ok)); [|intros []; apply call_api_ok].
    eapply triple_conseq; [apply triple_on_desktop, update_frame_ok|intros ? ->; split; [done|by eexists]|done]. }
  destruct ev; cbn [process_event]; try by apply triple_ret.
  - unfold window_wants_focus. apply triple_get. intros d0 Hd0. destruct (lock_window _ _) as [[[obj w]|]|];
      [|by apply triple_ret; intros ? ->..].
    eapply (triple_bind _ _ _ (λ _, ok)); [|intros []; apply call_api_ok]. intros d ->. by destruct Hd0.
  - exact (Hframe (λ f, resize f data1 data2)).
  - exact (Hframe (λ f, translate f data1 data2)).
  - unfold window_deleted. apply triple_get. intros d0 Hd0. destruct (lock_window _ _) as [lw|];
      [|by apply triple_ret; intros ? ->].
    eapply (triple_bind _ _ _ (λ _, ok)).
    + destruct lw as [[obj w]|]; [|by apply triple_ret; intros ? ->].
      eapply triple_conseq; [apply call_api_ok|by intros ? ->|done].
    + intros _ d [Ho Hf]. by split.
Qed.
End preservation.

(** ** Runs *)

Inductive wm_event : Type :=
  | ev_update (updated removed : list WindowState)
  | ev_window (sdl_id : Z) (event : WindowEvent).

(** An exception ends the handler; the desktop stays as it was left. *)
Definition wm_do {R} `{NativeWindows R} sdl_create api db alive (d : Desktop R) (e : wm_event) : Desktop R :=
  match (match e with
         | ev_update u r => apply_window_state_update sdl_create api db alive u r d
         | ev_window i ev => process_window_event (H := multi_manager api) i ev d
         end) with
  | Val d' _ => d'
  | Exc d' _ => d'
  | Ub => d
  end.

Lemma wm_do_ok {R} `{NativeWindows R} sdl_create api db alive (d : Desktop R) e :
  desktop_ok d → desktop_ok (wm_do sdl_create api db alive d e).
Proof.
  intros Hd. unfold wm_do. destruct e as [u r|i ev].
  - assert (Ht := apply_window_state_update_ok sdl_create api db alive u r d Hd).
    by destruct (apply_window_state_update _ _ _ _ _ _ d).
  - unfold process_window_event. run_m. destruct (find_sdl_window _ _ _) as [id|]; [|done].
    assert (Ht := process_event_ok api id ev d Hd). by destruct (process_event _ _ d).
Qed.

Lemma wm_run_ok {R} `{NativeWindows R} sdl_create api db alive es (d : Desktop R) :
  desktop_ok d → desktop_ok (foldl (wm_do sdl_create api db alive) d es).
Proof. revert d. induction es as [|e es IH]; intros d Hd; [done|]. apply IH. by apply wm_do_ok. Qed.

Lemma desktop_new_ok {R} (r : option R) : desktop_ok (desktop_new r).
Proof. split; cbn; [intros t o Ho|intros o [? Ho]]; by rewrite lookup_empty in Ho. Qed.

Lemma find_task_spec hp t l :
  (∀ k o, (k, o) ∈ l → ∃ w, hp !! o = Some w ∧ task_ w = k) →
  (∃ o, find_task hp t l = Some (Some o) ∧ (t, o) ∈ l) ∨
  (find_task hp t l = Some None ∧ ∀ o, (t, o) ∉ l).
Proof.
  induction l as [|[k o] l IH]; intros Hl; [right; split; [done|set_solver]|]. cbn.
  destruct (Hl k o) as (w & -> & <-); [set_solver|]. case_decide as Ht.
  - left. exists o. subst. split; [done|set_solver].
  - destruct IH as [(o' & -> & Ho')|[-> Hn]]; [set_solver|left; exists o'; set_solver|].
    right. split; [done|]. intros o' [[= -> ->]|Ho']%elem_of_cons; [done|by apply (Hn o')].
Qed.

Lemma find_window_ok {R} (d : Desktop R) t :
  desktop_ok d → find_window_for_task t d = Val d (windows_ d !! t).
Proof.
  intros [Ho _]. unfold find_window_for_task. run_m.
  destruct (find_task_spec (heap d) t (sorted_entries (windows_ d))) as [(o & -> & Hto)|[-> Hn]].
  - intros k o Hko%elem_of_sorted_entries. by apply Ho.
  - apply elem_of_sorted_entries in Hto. by rewrite Hto.
  - destruct (windows_ d !! t) as [o|] eqn:Ht; [|done].
    by apply elem_of_sorted_entries, Hn in Ht.
Qed.

(** ** Properties *)

(** Looking a task up.  After any sequence of window-state updates and
    window events, also ones in which SDL or the Android side fails, the linear
    search of [find_window_for_task] touches live windows only and returns what
    the task's map entry holds. *)
Theorem wm_find_correct {R} `{NativeWindows R} sdl_create api db alive (r : option R) es t :
  let d := foldl (wm_do sdl_create api db alive) (desktop_new r) es in
  find_window_for_task t d = Val d (windows_ d !! t) ∧
  ∀ obj, windows_ d !! t = Some obj → ∃ w, heap d !! obj = Some w ∧ task_ w = t.
Proof.
  intros d. assert (Hd : desktop_ok d) by (apply wm_run_ok, desktop_new_ok).
  split; [by apply find_window_ok|]. apply (ok_owned _ Hd).
Qed.

(** What a window-state update does to each task, when windows can be
    created.  A known task keeps its window unless it is among the removed ones
    and none of its freeform windows with a surface was reported; an unknown
    task gets a window with the first such report's frame.  A new task that is
    reported once and also appears among the removed windows loses its window
    at once, since only a task known before the report, or reported twice, is
    protected from removal. *)
Theorem wm_apply_update {R} `{NativeWindows R} sdl_create api db updated removed (d : Desktop R) :
  (∀ id, is_Some (sdl_create id)) → is_Some (renderer_ d) → desktop_ok d →
  ∃ d', apply_window_state_update sdl_create api db true updated removed d = Val d' tt ∧ desktop_ok d' ∧
    ∀ t, let gone := bool_decide (t ∈ map ws_task removed) in
    match windows_ d !! t, eligible_for t updated with
    | Some o, [] => windows_ d' !! t = if gone then None else Some o
    | Some o, _ :: _ => windows_ d' !! t = Some o
    | None, [] => windows_ d' !! t = None
    | None, w :: rest =>
        if gone && bool_decide (rest = []) then windows_ d' !! t = None
        else ∃ o x, windows_ d' !! t = Some o ∧ heap d' !! o = Some x ∧ frame_ x = ws_frame w
    end.
Proof.
  intros Hsdl Hr Hok. unfold apply_window_state_update.
  destruct (apply_all_spec sdl_create api db Hsdl updated ∅ d Hr Hok) as (d1 & ups & H1 & Hok1 & _ & Hspec).
  rewrite (bind_val _ _ _ _ _ H1), (bind_val _ _ _ _ _ (send_updates_skip ups d1 Hok1)).
  destruct (apply_removed_all ups removed d1 Hok1) as (d' & Hrun & Hok' & Hw' & Hh').
  exists d'. split; [done|]. split; [done|]. intros t. destruct (Hspec t) as [Ha Hu].
  rewrite lookup_empty in Hu. unfold window_after in Ha. unfold threshold in Hu. specialize (Hw' t). cbn zeta.
  assert (Hnone : ups !! t = None ↔ ¬ is_Some (ups !! t)) by apply eq_None_not_Some.
  destruct (windows_ d !! t) as [o|], (eligible_for t updated) as [|w rest]; cbn [length] in Hu.
  - assert (ups !! t = None) as Hn by (apply Hnone; rewrite Hu; intros [[]|]; [done|lia]).
    rewrite Hw', Ha. destruct (bool_decide_reflect (t ∈ map ws_task removed)); case_decide; naive_solver.
  - rewrite Hw', decide_False; [done|]. intros [_ Hn]. apply Hnone in Hn. apply Hn, Hu. right. lia.
  - rewrite Hw'. by case_decide.
  - destruct Ha as (o & x & Ho & Hx & Hf). destruct rest as [|w' rest].
    + assert (ups !! t = None) as Hn by (apply Hnone; rewrite Hu; intros [[]|]; [done|cbn in *; lia]).
      destruct (bool_decide_reflect (t ∈ map ws_task removed)); cbn.
      * by rewrite Hw', decide_True.
      * rewrite decide_False, Ho in Hw' by (intros [? _]; done). exists o, x. by rewrite (Hh' t o Hw').
    + rewrite andb_false_r. rewrite decide_False, Ho in Hw'.
      * exists o, x. by rewrite (Hh' t o Hw').
      * intros [_ Hn]. apply Hnone in Hn. apply Hn, Hu. right. cbn. lia.
Qed.

(** A size change of a window on screen: the window keeps its position,
    takes the new size, and the container is told once, with the frame the
    window now has; no other window changes. *)
Theorem wm_resize_event {R} api (d : Desktop R) id obj w width' height' :
  platform_windows d !! id = Some obj → heap d !! obj = Some w →
  is_i32 width' → is_i32 height' →
  ∃ d' f, (process_event (H := multi_manager api) id (WINDOWEVENT_SIZE_CHANGED width' height') d =
      match api (api_resize_task (task_ w) f 3) with None => Val d' tt | Some e => Exc d' e end) ∧
    api_log d' = api_log d ++ [api_resize_task (task_ w) f 3] ∧
    (frame_ <$> heap d' !! obj) = Some f ∧
    left_ f = left_ (frame_ w) ∧ top_ f = top_ (frame_ w) ∧ width f = width' ∧ height f = height' ∧
    ∀ o, o ≠ obj → heap d' !! o = heap d !! o.
Proof.
  intros Hid Hobj Hw Hh. set (f := resize (frame_ w) width' height').
  assert (Hf : width f = width' ∧ height f = height').
  { unfold f, width, height, resize. cbn. rewrite !i32_add_sub. split; by apply i32_small. }
  assert (Hup : ∃ d1, update_frame obj f d = Val d1 tt ∧ api_log d1 = api_log d ∧
    (frame_ <$> heap d1 !! obj) = Some f ∧ ∀ o, o ≠ obj → heap d1 !! o = heap d !! o).
  { unfold update_frame, deref. run_m. rewrite Hobj. case_decide as Heq.
    - exists d. split; [done|]. split; [done|]. rewrite Hobj. cbn. split; [by rewrite <- Heq|done].
    - eexists. split; [reflexivity|]. split; [done|]. cbn. rewrite lookup_insert_eq. split; [done|].
      intros o Ho. by rewrite lookup_insert_ne. }
  destruct Hup as (d1 & Hup & Hlog & Hfr & Hoth).
  set (d' := mkDesktop (renderer_ d1) (heap d1) (next_object d1) (platform_windows d1) (next_window_id d1)
    (focused_sdl_window_id_ d1) (windows_ d1) (api_log d1 ++ [api_resize_task (task_ w) f 3])).
  exists d', f. split.
  - cbn [process_event]. unfold window_resized, lock_window, on_desktop. run_m. cbn [desktop multi_manager].
    rewrite Hid, Hobj. fold f. rewrite Hup. cbn. unfold mw_resize_task, call_api. run_m. fold d'.
    by destruct (api _).
  - split; [cbn; by rewrite Hlog|]. split; [done|]. split; [done|]. split; [done|].
    destruct Hf. split; [done|]. split; [done|]. exact Hoth.
Qed.

(** ** Witnesses *)

#[global] Instance demo_renderer : NativeWindows (list Z) := {
  createNativeWindow h r := (true, h :: r);
  destroyNativeWindow h r := List.remove Z.eq_dec h r;
}.

Definition demo_state : WindowState := mkWindowState 0 true (mkRect 0 0 100 50) "com.mail" 7 Stack_Freeform.
Definition demo_sdl (id : Z) : option (Z * Z) := Some (id + 1000, id + 1).

Lemma wm_apply_update_witness : ∃ d',
  apply_window_state_update demo_sdl (λ _, None) (database_new None) true [demo_state] [demo_state]
    (desktop_new (Some [])) = Val d' tt ∧ windows_ d' !! 7 = None.
Proof.
  destruct (wm_apply_update demo_sdl (λ _, None) (database_new None) [demo_state] [demo_state]
    (desktop_new (Some []))) as (d' & Hrun & _ & Ht).
  - intros id. eexists. reflexivity.
  - eexists. reflexivity.
  - apply desktop_new_ok.
  - exists d'. split; [exact Hrun|]. exact (Ht 7).
Defined.

Definition demo_desktop : Desktop (list Z) :=
  foldl (wm_do demo_sdl (λ _, None) (database_new None) true) (desktop_new (Some [])) [ev_update [demo_state] []].

Lemma wm_resize_event_witness : ∃ d' f,
  process_event (H := multi_manager (λ _, None)) 0 (WINDOWEVENT_SIZE_CHANGED 640 480) demo_desktop = Val d' tt ∧
  api_log d' = [api_resize_task 7 f 3] ∧ width f = 640.
Proof.
  destruct (wm_resize_event (λ _, None) demo_desktop 0 1
    (mkWindow 0 1 1000 7 (mkRect 0 0 100 50) "com.mail" true) 640 480) as (d' & f & Hrun & Hlog & _ & _ & _ & Hw & _).
  - reflexivity.
  - reflexivity.
  - unfold is_i32. lia.
  - unfold is_i32. lia.
  - exists d', f. split; [exact Hrun|]. split; [exact Hlog|exact Hw].
Defined.
