(* ===== verification/Composer.v ===== *)
(** * Layer composition (src/src/anbox/graphics)

    multi_window_composer_strategy.cpp, single_window_composer_strategy.cpp,
    layer_composer.cpp and emugl/Renderable.  A strategy assigns the layers
    SurfaceFlinger submits to windows, asking the window manager through its
    interface ([Wm.Manager]); the composer draws each window.  Windows are
    object addresses; a [std::map] keyed by window pointers is a map over them,
    visited in address order. *)

From S2P Require Import Prelude Utils Rect Launch AppDb Wm.

(** ** Renderable *)

Record Renderable : Type := mkRenderable {
  r_name : string;
  buffer : Z;
  screen_position : Rect;
  crop : Rect;
  transformation : list Z;   (* the 4x4 matrix, as bits *)
  alpha : Z;
}.

#[global] Instance Renderable_eq_dec : EqDecision Renderable.
Proof. solve_decision. Defined.

Definition set_screen_position (p : Rect) (r : Renderable) : Renderable :=
  mkRenderable (r_name r) (buffer r) p (crop r) (transformation r) (alpha r).

(** ** MultiWindowComposerStrategy *)

Definition surface_prefix : string := "org.anbox.surface.".

(** The literal part of the [sscanf] format is matched by the name's prefix;
    what follows is converted. *)
Definition surface_task (name : string) : scanned :=
  scan_d (drop (String.length surface_prefix) (bytes_of_string name)).

Abbreviation win_layers := (gmap Z (list Renderable)).

Section strategies.
Context {R S : Type} `{Manager R S}.

Definition assign_layer (r : Renderable) (m : win_layers) : M S win_layers :=
  if negb (string_starts_with (r_name r) surface_prefix) then mret m
  else match surface_task (r_name r) with
       | scan_undefined => undefined
       | scan_none => mret m
       | scan_int task_id =>
           if decide (task_id = 0) then mret m
           else
             o ← find_window task_id;
             match o with
             | None => mret m
             | Some w =>
                 mret (match m !! w with
                       | None => <[w := [r]]> m
                       | Some l => <[w := l ++ [r]]> m
                       end)
             end
       end.

Fixpoint assign_layers (rs : list Renderable) (m : win_layers) : M S win_layers :=
  match rs with
  | [] => mret m
  | r :: rs' => m' ← assign_layer r m; assign_layers rs' m'
  end.

Definition layer_area (r : Renderable) : Z :=
  i32 (width (screen_position r) * height (screen_position r)).

(** The loop that picks the frame: [best] is the frame and area so far. *)
Fixpoint window_frame (best : Rect * Z) (rs : list Renderable) : Rect :=
  match rs with
  | [] => best.1
  | r :: rs' =>
      if decide (layer_area r < best.2) then window_frame best rs'
      else window_frame (screen_position r, layer_area r) rs'
  end.

Definition relocate (frame : Rect) (r : Renderable) : Renderable :=
  let p := screen_position r in
  let c := crop r in
  set_screen_position
    (mkRect (i32 (left_ p - left_ frame + left_ c)) (i32 (top_ p - top_ frame + top_ c))
       (i32 (right_ p - left_ frame + left_ c)) (i32 (bottom_ p - top_ frame + top_ c))) r.

Definition place_layers (rs : list Renderable) : list Renderable :=
  map (relocate (window_frame (Rect_Invalid, -1) rs)) rs.

Definition multi_process_layers (rs : list Renderable) : M S win_layers :=
  m ← assign_layers rs ∅; mret (place_layers <$> m).

(** ** SingleWindowComposerStrategy *)

Definition sprite_name : string := "Sprite".

(** The key is the window found for task 0, which may be null. *)
Definition single_process_layers (rs : list Renderable) : M S (option Z * list Renderable) :=
  w ← find_window 0;
  mret (w, filter (λ r, r_name r ≠ sprite_name) rs).

(** ** LayerComposer: what is drawn, in order *)

Record Draw : Type := mkDraw { draw_window : Z; draw_frame : Rect; draw_layers : list Renderable }.

Definition draw_one (draws : list Draw) (w : Z) (layers : list Renderable) : M S (list Draw) :=
  s ← get;
  match heap (desktop s) !! w with
  | None => undefined
  | Some x =>
      mret (draws ++ [mkDraw (native_window_ x) (mkRect 0 0 (width (frame_ x)) (height (frame_ x))) layers])
  end.

Fixpoint draw_all (l : list (Z * list Renderable)) (draws : list Draw) : M S (list Draw) :=
  match l with
  | [] => mret draws
  | (w, layers) :: l' => d ← draw_one draws w layers; draw_all l' d
  end.

Definition submit_layers_multi (rs : list Renderable) : M S (list Draw) :=
  m ← multi_process_layers rs; draw_all (sorted_entries m) [].

Definition submit_layers_single (rs : list Renderable) : M S (list Draw) :=
  '(w, layers) ← single_process_layers rs;
  match w with
  | None => undefined
  | Some w => draw_one [] w layers
  end.
End strategies.

(** ** The frame is the largest layer's, the last of equals *)

Lemma window_frame_spec rs : ∀ f a,
  (Forall (λ r, layer_area r < a) rs ∧ window_frame (f, a) rs = f) ∨
  (∃ l1 r l2, rs = l1 ++ r :: l2 ∧ window_frame (f, a) rs = screen_position r ∧ a ≤ layer_area r ∧
     Forall (λ x, layer_area x ≤ layer_area r) l1 ∧ Forall (λ x, layer_area x < layer_area r) l2).
Proof.
  induction rs as [|r rs IH]; intros f a; [by left|]. cbn [window_frame fst snd]. case_decide as Hd.
  - destruct (IH f a) as [[Hall Hf]|(l1 & x & l2 & -> & Hf & Ha & H1 & H2)].
    + left. split; [by constructor|done].
    + right. exists (r :: l1), x, l2. split_and!; [done|done|done| |done]. constructor; [cbn in *; lia|done].
  - right. destruct (IH (screen_position r) (layer_area r)) as [[Hall Hf]|(l1 & x & l2 & -> & Hf & Ha & H1 & H2)].
    + exists [], r, rs. split_and!; [done|done|cbn in *; lia|constructor|done].
    + exists (r :: l1), x, l2. split_and!; [done|done|cbn in *; lia| |done]. constructor; [done|done].
Qed.

(** ** Layers by window *)

(** The task a layer names, when it names one. *)
Definition layer_task (r : Renderable) : option Z :=
  if string_starts_with (r_name r) surface_prefix then
    match surface_task (r_name r) with
    | scan_int t => if decide (t = 0) then None else Some t
    | _ => None
    end
  else None.

(** The task number fits an [int]. *)
Definition readable (r : Renderable) : Prop := surface_task (r_name r) ≠ scan_undefined.

(** The window a layer goes to. *)
Definition layer_window {R} (d : Desktop R) (r : Renderable) : option Z :=
  match layer_task r with Some t => windows_ d !! t | None => None end.

Definition layers_of {R} (d : Desktop R) (w : Z) (rs : list Renderable) : list Renderable :=
  filter (λ r, layer_window d r = Some w) rs.

Definition add_layers (o : option (list Renderable)) (l : list Renderable) : option (list Renderable) :=
  match o, l with
  | None, [] => None
  | None, _ => Some l
  | Some l0, _ => Some (l0 ++ l)
  end.

Lemma add_layers_app o l1 l2 : add_layers (add_layers o l1) l2 = add_layers o (l1 ++ l2).
Proof. destruct o; cbn; [by rewrite app_assoc|]. destruct l1; [by destruct l2|done]. Qed.

Section multi_proofs.
Context {R : Type}.
Variable api : ApiCall → option exn.
Abbreviation multi := (multi_manager (R := R) api).

Lemma assign_layer_eq r m (d : Desktop R) : desktop_ok d → readable r →
  assign_layer (H := multi) r m d = Val d (match layer_window d r with
    | None => m
    | Some w => match m !! w with None => <[w := [r]]> m | Some l => <[w := l ++ [r]]> m end
    end).
Proof.
  intros Hd Hr. unfold assign_layer, layer_window, layer_task, readable in *.
  destruct (string_starts_with (r_name r) surface_prefix); [|done]. cbn [negb].
  destruct (surface_task (r_name r)) as [|t|]; [done| |done]. case_decide as Ht; [done|].
  cbn [find_window multi_manager]. rewrite (bind_val _ _ _ _ _ (find_window_ok d t Hd)).
  by destruct (windows_ d !! t).
Qed.

Lemma assign_layers_spec rs m (d : Desktop R) : desktop_ok d → Forall readable rs →
  ∃ m', assign_layers (H := multi) rs m d = Val d m' ∧
    ∀ w, m' !! w = add_layers (m !! w) (layers_of d w rs).
Proof.
  intros Hd Hrs. revert m. induction Hrs as [|r rs Hr _ IH]; intros m.
  { exists m. split; [done|]. intros w. cbn. by destruct (m !! w); cbn; rewrite ?app_nil_r. }
  cbn [assign_layers]. rewrite (bind_val _ _ _ _ _ (assign_layer_eq r m d Hd Hr)).
  set (m1 := match layer_window d r with
    | None => m
    | Some w => match m !! w with None => <[w := [r]]> m | Some l => <[w := l ++ [r]]> m end
    end). destruct (IH m1) as (m' & Hrun & Hm').
  exists m'. split; [done|]. intros w. rewrite Hm'. unfold layers_of. rewrite filter_cons.
  assert (Hm1 : m1 !! w = add_layers (m !! w) (if decide (layer_window d r = Some w) then [r] else [])).
  { unfold m1. destruct (layer_window d r) as [w0|]; [|rewrite decide_False by done; by destruct (m !! w); cbn; rewrite ?app_nil_r].
    destruct (decide (w0 = w)) as [->|Hne].
    - rewrite decide_True by done. destruct (m !! w); cbn; apply lookup_insert_eq.
    - rewrite decide_False by congruence. destruct (m !! w0); rewrite lookup_insert_ne by done;
        destruct (m !! w); cbn; by rewrite ?app_nil_r. }
  rewrite Hm1, add_layers_app. by case_decide.
Qed.
End multi_proofs.

(** ** Properties *)

(** Multi-window composition.  On every desktop the window manager can
    be in, each window that some layer names gets exactly the layers naming its
    task, in submission order, and no other window is drawn; their coordinates
    become relative to the largest of them (the last of several equally large):
    that layer ends up at its crop's offset with its size unchanged, and all
    layers are shifted by the same frame origin. *)
Theorem composer_multi_window {R} `{NativeWindows R} sdl_create api db alive (r0 : option R) es rs :
  let d := foldl (wm_do sdl_create api db alive) (desktop_new r0) es in
  Forall readable rs →
  ∃ m, multi_process_layers (H := multi_manager api) rs d = Val d m ∧
    ∀ w, match layers_of d w rs with
         | [] => m !! w = None
         | l => ∃ frame, m !! w = Some (map (relocate frame) l) ∧
             (Exists (λ x, -1 ≤ layer_area x) l → ∃ l1 x l2, l = l1 ++ x :: l2 ∧ frame = screen_position x ∧
                Forall (λ y, layer_area y ≤ layer_area x) l1 ∧ Forall (λ y, layer_area y < layer_area x) l2 ∧
                let p := screen_position (relocate frame x) in
                left_ p = i32 (left_ (crop x)) ∧ top_ p = i32 (top_ (crop x)) ∧
                width p = width (screen_position x) ∧ height p = height (screen_position x))
         end.
Proof.
  intros d Hrs. assert (Hd : desktop_ok d) by (apply wm_run_ok, desktop_new_ok).
  destruct (assign_layers_spec api rs ∅ d Hd Hrs) as (m & Hrun & Hm). exists (place_layers <$> m). split.
  { unfold multi_process_layers. by rewrite (bind_val _ _ _ _ _ Hrun). }
  intros w. rewrite lookup_fmap, Hm, lookup_empty. destruct (layers_of d w rs) as [|y ys] eqn:El; [done|].
  exists (window_frame (Rect_Invalid, -1) (y :: ys)). split; [done|]. intros Hex.
  destruct (window_frame_spec (y :: ys) Rect_Invalid (-1)) as [[Hall _]|(l1 & x & l2 & E & -> & Ha & H1 & H2)].
  { exfalso. apply List.Exists_exists in Hex as (z & Hz & Hge). rewrite List.Forall_forall in Hall.
    apply Hall in Hz. cbn in *. lia. }
  exists l1, x, l2. split; [done|]. split; [done|]. split; [done|]. split; [done|].
  cbn. rewrite !Z.sub_diag, !Z.add_0_l. split; [done|]. split; [done|].
  split; unfold width, height; cbn; rewrite !i32_unfold; Z.div_mod_to_equations; lia.
Qed.

(** The window a surface belongs to: a layer named after task [t], as the
    container names them, goes to the window of task [t]. *)
Theorem composer_surface_name {R} (d : Desktop R) r t :
  is_i32 t → t ≠ 0 → r_name r = surface_prefix +:+ format_d t → readable r ∧ layer_window d r = windows_ d !! t.
Proof.
  intros Ht Hne Hn. assert (Hs : surface_task (r_name r) = scan_int t).
  { unfold surface_task. rewrite Hn, bytes_of_string_app, drop_app_length'.
    - rewrite <- (app_nil_r (bytes_of_string (format_d t))). by apply scan_d_format_d.
    - by rewrite length_bytes_of_string. }
  split; [unfold readable; by rewrite Hs|]. unfold layer_window, layer_task. rewrite Hs.
  assert (Hp : string_starts_with (r_name r) surface_prefix = true) by (apply string_starts_with_spec; by eexists).
  rewrite Hp. by rewrite decide_False.
Qed.

Definition demo_layer (n : string) (p : Rect) : Renderable := mkRenderable n 1 p Rect_Empty [] 255.

Lemma composer_multi_window_witness : ∃ m,
  multi_process_layers (H := multi_manager (λ _, None))
    [demo_layer "org.anbox.surface.7" (mkRect 10 20 110 70); demo_layer "Sprite" (mkRect 0 0 9 9)]
    demo_desktop = Val demo_desktop m ∧
  m !! 1 = Some [demo_layer "org.anbox.surface.7" (mkRect 0 0 100 50)].
Proof.
  destruct (composer_multi_window demo_sdl (λ _, None) (database_new None) true (Some [])
    [ev_update [demo_state] []]
    [demo_layer "org.anbox.surface.7" (mkRect 10 20 110 70); demo_layer "Sprite" (mkRect 0 0 9 9)])
    as (m & Hrun & _).
  - repeat constructor; unfold readable; vm_compute; discriminate.
  - exists m. split; [exact Hrun|]. vm_compute in Hrun. injection Hrun as <-. reflexivity.
Defined.

Lemma composer_surface_name_witness :
  readable (demo_layer "org.anbox.surface.7" Rect_Empty) ∧
  layer_window demo_desktop (demo_layer "org.anbox.surface.7" Rect_Empty) = Some 1.
Proof.
  apply (composer_surface_name demo_desktop (demo_layer "org.anbox.surface.7" Rect_Empty) 7).
  - unfold is_i32. lia.
  - discriminate.
  - reflexivity.
Defined.
