(* ===== verification/Renderer.v ===== *)
(** * The renderer's object tables (src/src/anbox/graphics/emugl)

    Renderer.cpp, WindowSurface.cpp, RenderThread.cpp, the object management of
    ColorBuffer.cpp and RenderContext.cpp, and the guest calls of
    RenderControl.cpp.  Guests name contexts, window surfaces and colour buffers
    by 32-bit handles; the tables hold shared pointers, so the objects live in
    heaps by address.  An object nobody refers to any more is unreachable and its
    destruction, which only releases EGL objects, is not modelled.

    EGL and GL are arguments: whether a call succeeds and the handle it returns;
    what the renderer draws is the list [gl_log].  Every public operation holds
    [m_lock], so threads interleave whole operations; [t] is the calling render
    thread, whose [RenderThreadInfo] an operation may use. *)

From S2P Require Import Prelude Utils Rect Launch AppDb Wm Composer.

(** ** Data *)

Record ColorBuffer : Type := mkColorBuffer {
  m_width : Z; m_height : Z; m_internalFormat : Z; m_eglImage : option Z
}.
Record ColorBufferRef : Type := mkRef { cb : Z; refcount : Z }.
Record RenderContext : Type := mkContext { mContext : Z; mIsGl2 : bool }.

Record WindowSurface : Type := mkSurface {
  mSurface : option Z;
  mAttachedColorBuffer : option Z;
  mReadContext : option Z;
  mDrawContext : option Z;
  mWidth : Z;
  mHeight : Z;
}.

Record RenderThreadInfo : Type := mkInfo {
  currContext : option Z;
  currDrawSurf : option Z;
  currReadSurf : option Z;
  m_contextSet : gset Z;
  m_windowSet : gset Z;
}.

Record RendererWindow : Type := mkRendererWindow { rw_surface : Z; viewport : Rect }.

Inductive GlCall : Type :=
  | gl_make_current (draw read ctx : option Z)
  | gl_blit (buffer : Z)
  | gl_read_pixels (buffer x y w h : Z)
  | gl_sub_update (buffer x y w h : Z)
  | gl_bind_texture (buffer : Z)
  | gl_bind_renderbuffer (buffer : Z)
  | gl_draw (window buffer : Z) (alpha_program : bool) (at_ : Rect)
  | gl_swap (window : Z).

Record Renderer : Type := mkRenderer {
  s_nextHandle : Z;
  m_configs : Z;                          (* the number of configurations *)
  m_contexts : gmap Z Z;
  m_windows : gmap Z (Z * Z);             (* surface, handle of its colour buffer *)
  m_colorbuffers : gmap Z ColorBufferRef;
  m_nativeWindows : gmap Z RendererWindow;
  contexts : gmap Z RenderContext;
  surfaces : gmap Z WindowSurface;
  buffers : gmap Z ColorBuffer;
  next_address : Z;
  threads : gmap Z RenderThreadInfo;
  gl_log : list GlCall;
}.

Definition renderer_new (configs : Z) : Renderer :=
  mkRenderer 0 configs ∅ ∅ ∅ ∅ ∅ ∅ ∅ 0 ∅ [].

Definition up_next n s := mkRenderer n (m_configs s) (m_contexts s) (m_windows s) (m_colorbuffers s)
  (m_nativeWindows s) (contexts s) (surfaces s) (buffers s) (next_address s) (threads s) (gl_log s).
Definition up_contexts m s := mkRenderer (s_nextHandle s) (m_configs s) m (m_windows s) (m_colorbuffers s)
  (m_nativeWindows s) (contexts s) (surfaces s) (buffers s) (next_address s) (threads s) (gl_log s).
Definition up_windows m s := mkRenderer (s_nextHandle s) (m_configs s) (m_contexts s) m (m_colorbuffers s)
  (m_nativeWindows s) (contexts s) (surfaces s) (buffers s) (next_address s) (threads s) (gl_log s).
Definition up_colorbuffers m s := mkRenderer (s_nextHandle s) (m_configs s) (m_contexts s) (m_windows s) m
  (m_nativeWindows s) (contexts s) (surfaces s) (buffers s) (next_address s) (threads s) (gl_log s).
Definition up_native m s := mkRenderer (s_nextHandle s) (m_configs s) (m_contexts s) (m_windows s)
  (m_colorbuffers s) m (contexts s) (surfaces s) (buffers s) (next_address s) (threads s) (gl_log s).
Definition up_surfaces m s := mkRenderer (s_nextHandle s) (m_configs s) (m_contexts s) (m_windows s)
  (m_colorbuffers s) (m_nativeWindows s) (contexts s) m (buffers s) (next_address s) (threads s) (gl_log s).
Definition up_threads m s := mkRenderer (s_nextHandle s) (m_configs s) (m_contexts s) (m_windows s)
  (m_colorbuffers s) (m_nativeWindows s) (contexts s) (surfaces s) (buffers s) (next_address s) m (gl_log s).
Definition add_log c s := mkRenderer (s_nextHandle s) (m_configs s) (m_contexts s) (m_windows s)
  (m_colorbuffers s) (m_nativeWindows s) (contexts s) (surfaces s) (buffers s) (next_address s) (threads s)
  (gl_log s ++ [c]).

(** [new] returns a fresh address. *)
Definition new_context (c : RenderContext) : M Renderer Z := λ s,
  Val (mkRenderer (s_nextHandle s) (m_configs s) (m_contexts s) (m_windows s) (m_colorbuffers s)
         (m_nativeWindows s) (<[next_address s := c]> (contexts s)) (surfaces s) (buffers s)
         (next_address s + 1) (threads s) (gl_log s)) (next_address s).
Definition new_surface (x : WindowSurface) : M Renderer Z := λ s,
  Val (mkRenderer (s_nextHandle s) (m_configs s) (m_contexts s) (m_windows s) (m_colorbuffers s)
         (m_nativeWindows s) (contexts s) (<[next_address s := x]> (surfaces s)) (buffers s)
         (next_address s + 1) (threads s) (gl_log s)) (next_address s).
Definition new_buffer (b : ColorBuffer) : M Renderer Z := λ s,
  Val (mkRenderer (s_nextHandle s) (m_configs s) (m_contexts s) (m_windows s) (m_colorbuffers s)
         (m_nativeWindows s) (contexts s) (surfaces s) (<[next_address s := b]> (buffers s))
         (next_address s + 1) (threads s) (gl_log s)) (next_address s).

(** [RenderThreadInfo::get()], dereferenced. *)
Definition thread_info (t : Z) : M Renderer RenderThreadInfo :=
  s ← get; match threads s !! t with Some i => mret i | None => undefined end.
Definition set_thread_info (t : Z) (i : RenderThreadInfo) : M Renderer unit :=
  modify (λ s, up_threads (<[t := i]> (threads s)) s).

(** ** WindowSurface *)

Definition surface_blank : WindowSurface := mkSurface None None None None 0 0.

(** [pbuffer] is what [eglCreatePbufferSurface] returns. *)
Definition resize (pbuffer : option Z) (p_width p_height : Z) (x : WindowSurface) : bool * WindowSurface :=
  if decide (is_Some (mSurface x) ∧ mWidth x = p_width ∧ mHeight x = p_height) then (true, x)
  else match pbuffer with
       | None =>
           (false, mkSurface None (mAttachedColorBuffer x) (mReadContext x) (mDrawContext x) (mWidth x) (mHeight x))
       | Some e =>
           (true, mkSurface (Some e) (mAttachedColorBuffer x) (mReadContext x) (mDrawContext x) p_width p_height)
       end.

Definition surface_create (pbuffer : option Z) (p_width p_height : Z) : option WindowSurface :=
  let '(ok, x) := resize pbuffer (u32 p_width) (u32 p_height) surface_blank in
  if ok then Some x else None.

Definition setColorBuffer (pbuffer : option Z) (p_colorBuffer : Z) (b : ColorBuffer) (x : WindowSurface) :
    WindowSurface :=
  let x := mkSurface (mSurface x) (Some p_colorBuffer) (mReadContext x) (mDrawContext x) (mWidth x) (mHeight x) in
  if decide (m_width b ≠ mWidth x ∨ m_height b ≠ mHeight x)
  then (resize pbuffer (m_width b) (m_height b) x).2 else x.

Inductive BindType : Type := BIND_READ | BIND_DRAW | BIND_READDRAW.

Definition bind (p_ctx : option Z) (p_bindType : BindType) (x : WindowSurface) : WindowSurface :=
  match p_bindType with
  | BIND_READ => mkSurface (mSurface x) (mAttachedColorBuffer x) p_ctx (mDrawContext x) (mWidth x) (mHeight x)
  | BIND_DRAW => mkSurface (mSurface x) (mAttachedColorBuffer x) (mReadContext x) p_ctx (mWidth x) (mHeight x)
  | BIND_READDRAW => mkSurface (mSurface x) (mAttachedColorBuffer x) p_ctx p_ctx (mWidth x) (mHeight x)
  end.

(** ** ColorBuffer *)

Definition GL_RGB : Z := 0x1907.
Definition GL_RGBA : Z := 0x1908.
Definition GL_RGBA4_OES : Z := 0x8056.
Definition GL_RGB5_A1_OES : Z := 0x8057.
Definition GL_RGB565_OES : Z := 0x8D62.

(** [helper_ok]: the helper context can be made current; [image]: the EGL
    image, when the display has them and one is created. *)
Definition colorbuffer_create (p_width p_height p_internalFormat : Z) (helper_ok : bool) (image : option Z) :
    option ColorBuffer :=
  let create texInternalFormat :=
    if helper_ok then Some (mkColorBuffer (u32 p_width) (u32 p_height) texInternalFormat image) else None in
  if decide (p_internalFormat = GL_RGB ∨ p_internalFormat = GL_RGB565_OES) then create GL_RGB
  else if decide (p_internalFormat = GL_RGBA ∨ p_internalFormat = GL_RGB5_A1_OES ∨ p_internalFormat = GL_RGBA4_OES)
  then create GL_RGBA
  else None.

(** [ok]: the helper context and the frame buffer object are available. *)
Definition readPixels (a x y width height : Z) (ok : bool) : M Renderer unit :=
  if ok then modify (add_log (gl_read_pixels a x y width height)) else mret tt.
Definition subUpdate (a x y width height : Z) (ok : bool) : M Renderer unit :=
  if ok then modify (add_log (gl_sub_update a x y width height)) else mret tt.

Definition blitFromCurrentReadBuffer (t a : Z) (ok : bool) : M Renderer bool :=
  i ← thread_info t;
  match currContext i with
  | None => mret false
  | Some _ => modify (add_log (gl_blit a)) ≫= λ _, mret ok
  end.

Definition bind_image (t : Z) (b : ColorBuffer) (c : GlCall) : M Renderer bool :=
  match m_eglImage b with
  | None => mret false
  | Some _ =>
      i ← thread_info t;
      match currContext i with
      | None => mret false
      | Some _ => modify (add_log c) ≫= λ _, mret true
      end
  end.
Definition bindToTexture (t a : Z) (b : ColorBuffer) : M Renderer bool := bind_image t b (gl_bind_texture a).
Definition bindToRenderbuffer (t a : Z) (b : ColorBuffer) : M Renderer bool :=
  bind_image t b (gl_bind_renderbuffer a).

(** The result of the copy is ignored. *)
Definition flushColorBuffer (t : Z) (current_ok : bool) (x : WindowSurface) : M Renderer bool :=
  match mAttachedColorBuffer x with
  | None => mret true
  | Some a =>
      if decide (mWidth x = 0 ∨ mHeight x = 0) then mret false
      else
        s ← get;
        match buffers s !! a with
        | None => undefined
        | Some b =>
            if decide (m_width b ≠ mWidth x ∨ m_height b ≠ mHeight x) then mret false
            else match mDrawContext x with
                 | None => mret false
                 | Some _ =>
                     if current_ok then blitFromCurrentReadBuffer t a true ≫= λ _, mret true else mret false
                 end
        end
  end.

(** ** Renderer *)

(** [genHandle]'s loop: at most [size m_contexts + size m_windows + 1] values are
    rejected, so that the fuel runs out only when every handle is taken and the
    loop does not terminate. *)
Fixpoint genHandle_loop (fuel : nat) : M Renderer Z :=
  match fuel with
  | O => undefined
  | S fuel' =>
      s ← get;
      let id := u32 (s_nextHandle s + 1) in
      put (up_next id s) ≫= λ _,
      if decide (id = 0 ∨ is_Some (m_contexts s !! id) ∨ is_Some (m_windows s !! id))
      then genHandle_loop fuel' else mret id
  end.

Definition genHandle : M Renderer Z :=
  s ← get; genHandle_loop (size (m_contexts s) + size (m_windows s) + 2).

Definition createColorBuffer (p_width p_height p_internalFormat : Z) (helper_ok : bool) (image : option Z) :
    M Renderer Z :=
  match colorbuffer_create p_width p_height p_internalFormat helper_ok image with
  | None => mret 0
  | Some b =>
      a ← new_buffer b;
      ret ← genHandle;
      modify (λ s, up_colorbuffers (<[ret := mkRef a 1]> (m_colorbuffers s)) s) ≫= λ _,
      mret ret
  end.

(** [RendererConfigList::get]. *)
Definition config_exists (p_config : Z) (s : Renderer) : bool :=
  bool_decide (0 ≤ p_config < m_configs s).

Definition add_context (h : Z) (i : RenderThreadInfo) : RenderThreadInfo :=
  mkInfo (currContext i) (currDrawSurf i) (currReadSurf i) ({[h]} ∪ m_contextSet i) (m_windowSet i).
Definition add_window (h : Z) (i : RenderThreadInfo) : RenderThreadInfo :=
  mkInfo (currContext i) (currDrawSurf i) (currReadSurf i) (m_contextSet i) ({[h]} ∪ m_windowSet i).

(** [context] is what [eglCreateContext] returns. *)
Definition createRenderContext (t p_config p_share : Z) (p_isGL2 : bool) (context : option Z) : M Renderer Z :=
  s ← get;
  if negb (config_exists p_config s) then mret 0
  else if decide (p_share ≠ 0 ∧ m_contexts s !! p_share = None) then mret 0
  else match context with
       | None => mret 0
       | Some e =>
           o ← new_context (mkContext e p_isGL2);
           ret ← genHandle;
           modify (λ s, up_contexts (<[ret := o]> (m_contexts s)) s) ≫= λ _,
           i ← thread_info t;
           set_thread_info t (add_context ret i) ≫= λ _, mret ret
       end.

Definition createWindowSurface (t p_config p_width p_height : Z) (pbuffer : option Z) : M Renderer Z :=
  s ← get;
  if negb (config_exists p_config s) then mret 0
  else match surface_create pbuffer p_width p_height with
       | None => mret 0
       | Some x =>
           w ← new_surface x;
           ret ← genHandle;
           modify (λ s, up_windows (<[ret := (w, 0)]> (m_windows s)) s) ≫= λ _,
           i ← thread_info t;
           set_thread_info t (add_window ret i) ≫= λ _, mret ret
       end.

(** A [std::set] in iteration order. *)
Definition in_order (X : gset Z) : list Z := merge_sort Z.le (elements X).

Definition drainRenderContext (t : Z) : M Renderer unit :=
  i ← thread_info t;
  if decide (m_contextSet i = ∅) then mret tt
  else
    for_each (in_order (m_contextSet i))
      (λ h, modify (λ s, up_contexts (delete h (m_contexts s)) s)) ≫= λ _,
    set_thread_info t (mkInfo (currContext i) (currDrawSurf i) (currReadSurf i) ∅ (m_windowSet i)).

(** [if (--refcount == 0) erase], on an unsigned count. *)
Definition drop_reference (h : Z) : M Renderer unit :=
  modify (λ s, match m_colorbuffers s !! h with
               | None => s
               | Some r =>
                   let n := u32 (refcount r - 1) in
                   if decide (n = 0) then up_colorbuffers (delete h (m_colorbuffers s)) s
                   else up_colorbuffers (<[h := mkRef (cb r) n]> (m_colorbuffers s)) s
               end).

Definition drain_window (h : Z) : M Renderer unit :=
  s ← get;
  match m_windows s !! h with
  | None => mret tt
  | Some (_, oldColorBufferHandle) =>
      (if decide (oldColorBufferHandle = 0) then mret tt else drop_reference oldColorBufferHandle) ≫= λ _,
      modify (λ s, up_windows (delete h (m_windows s)) s)
  end.

Definition drainWindowSurface (t : Z) : M Renderer unit :=
  i ← thread_info t;
  if decide (m_windowSet i = ∅) then mret tt
  else
    for_each (in_order (m_windowSet i)) drain_window ≫= λ _,
    set_thread_info t (mkInfo (currContext i) (currDrawSurf i) (currReadSurf i) (m_contextSet i) ∅).

Definition DestroyRenderContext (t p_context : Z) : M Renderer unit :=
  modify (λ s, up_contexts (delete p_context (m_contexts s)) s) ≫= λ _,
  i ← thread_info t;
  if decide (m_contextSet i = ∅) then mret tt
  else set_thread_info t (mkInfo (currContext i) (currDrawSurf i) (currReadSurf i)
                            (m_contextSet i ∖ {[p_context]}) (m_windowSet i)).

Definition DestroyWindowSurface (t p_surface : Z) : M Renderer unit :=
  s ← get;
  match m_windows s !! p_surface with
  | None => mret tt
  | Some _ =>
      put (up_windows (delete p_surface (m_windows s)) s) ≫= λ _,
      i ← thread_info t;
      if decide (m_windowSet i = ∅) then mret tt
      else set_thread_info t (mkInfo (currContext i) (currDrawSurf i) (currReadSurf i)
                                (m_contextSet i) (m_windowSet i ∖ {[p_surface]}))
  end.

Definition openColorBuffer (p_colorbuffer : Z) : M Renderer Z :=
  s ← get;
  match m_colorbuffers s !! p_colorbuffer with
  | None => mret (-1)
  | Some r =>
      put (up_colorbuffers (<[p_colorbuffer := mkRef (cb r) (u32 (refcount r + 1))]> (m_colorbuffers s)) s)
        ≫= λ _, mret 0
  end.

Definition closeColorBuffer (p_colorbuffer : Z) : M Renderer unit := drop_reference p_colorbuffer.

Definition flushWindowSurfaceColorBuffer (t p_surface : Z) (current_ok : bool) : M Renderer bool :=
  s ← get;
  match m_windows s !! p_surface with
  | None => mret false
  | Some (w, _) =>
      match surfaces s !! w with
      | None => mret false
      | Some x => flushColorBuffer t current_ok x ≫= λ _, mret true
      end
  end.

Definition setWindowSurfaceColorBuffer (p_surface p_colorbuffer : Z) (pbuffer : option Z) : M Renderer bool :=
  s ← get;
  match m_windows s !! p_surface with
  | None => mret false
  | Some (w, _) =>
      match m_colorbuffers s !! p_colorbuffer with
      | None => mret false
      | Some r =>
          match surfaces s !! w, buffers s !! cb r with
          | Some x, Some b =>
              put (up_windows (<[p_surface := (w, p_colorbuffer)]> (m_windows s))
                     (up_surfaces (<[w := setColorBuffer pbuffer (cb r) b x]> (surfaces s)) s)) ≫= λ _,
              mret true
          | _, _ => undefined
          end
      end
  end.

(** Look up a colour buffer and work on it. *)
Definition with_buffer {A} (p_colorbuffer : Z) (none : A) (k : Z → ColorBuffer → M Renderer A) : M Renderer A :=
  s ← get;
  match m_colorbuffers s !! p_colorbuffer with
  | None => mret none
  | Some r => match buffers s !! cb r with None => undefined | Some b => k (cb r) b end
  end.

Definition readColorBuffer (p_colorbuffer x y width height : Z) (ok : bool) : M Renderer unit :=
  with_buffer p_colorbuffer tt (λ a _, readPixels a x y width height ok).
Definition updateColorBuffer (p_colorbuffer x y width height : Z) (ok : bool) : M Renderer bool :=
  with_buffer p_colorbuffer false (λ a _, subUpdate a x y width height ok ≫= λ _, mret true).
Definition bindColorBufferToTexture (t p_colorbuffer : Z) : M Renderer bool :=
  with_buffer p_colorbuffer false (bindToTexture t).
Definition bindColorBufferToRenderbuffer (t p_colorbuffer : Z) : M Renderer bool :=
  with_buffer p_colorbuffer false (bindToRenderbuffer t).

Definition bind_surface (w : Z) (ctx : option Z) (type : BindType) : M Renderer unit :=
  modify (λ s, up_surfaces (alter (bind ctx type) w (surfaces s)) s).

(** The handles of a request that is no unbind operation, looked up: context,
    draw surface, read surface. *)
Definition bind_objects (p_context p_drawSurface p_readSurface : Z) (s : Renderer) :
    option (option Z * option Z * option Z) :=
  if decide (p_context = 0 ∧ p_drawSurface = 0 ∧ p_readSurface = 0) then Some (None, None, None)
  else
    match m_contexts s !! p_context with
    | None => None
    | Some ctx =>
        match m_windows s !! p_drawSurface with
        | None => None
        | Some (draw, _) =>
            if decide (p_readSurface ≠ p_drawSurface) then
              match m_windows s !! p_readSurface with
              | None => None
              | Some (read, _) => Some (Some ctx, Some draw, Some read)
              end
            else Some (Some ctx, Some draw, Some draw)
        end
    end.

Definition bindContext (t p_context p_drawSurface p_readSurface : Z) (current_ok : bool) : M Renderer bool :=
  s ← get;
  match bind_objects p_context p_drawSurface p_readSurface s with
  | None => mret false
  | Some (ctx, draw, read) =>
      modify (add_log (gl_make_current draw read ctx)) ≫= λ _,
      if negb current_ok then mret false
      else
        i ← thread_info t;
        let '(bindDraw, bindRead) :=
          match draw, read with
          | None, None => (currDrawSurf i, currReadSurf i)
          | _, _ => (draw, read)
          end in
        (match bindDraw, bindRead with
         | Some d, Some r =>
             if decide (d ≠ r)
             then bind_surface d ctx BIND_DRAW ≫= λ _, bind_surface r ctx BIND_READ
             else bind_surface d ctx BIND_READDRAW
         | _, _ => mret tt
         end) ≫= λ _,
        set_thread_info t (mkInfo ctx draw read (m_contextSet i) (m_windowSet i)) ≫= λ _,
        mret true
  end.

(** [image] is what [eglCreateImageKHR] returns. *)
Definition createClientImage (context image : Z) : M Renderer Z :=
  s ← get;
  if decide (context ≠ 0 ∧ m_contexts s !! context = None) then mret 0 else mret (u32 image).

(** ** Native windows *)

(** [surface] is what [eglCreateWindowSurface] returns, [bind_ok] whether it can
    be made current. *)
Definition renderer_create_window (native_window : Z) (surface : option Z) (bind_ok : bool) : M Renderer bool :=
  match surface with
  | None => mret false
  | Some e =>
      if negb bind_ok then mret false
      else
        modify (add_log (gl_swap native_window)) ≫= λ _,
        modify (λ s, match m_nativeWindows s !! native_window with
                     | Some _ => s
                     | None => up_native (<[native_window := mkRendererWindow e (mkRect 0 0 0 0)]>
                                           (m_nativeWindows s)) s
                     end) ≫= λ _, mret true
  end.

Definition renderer_destroy_window (native_window : Z) : M Renderer unit :=
  modify (λ s, up_native (delete native_window (m_nativeWindows s)) s).

Section drawing.
(** [alpha() < 1.0f]. *)
Variable translucent : Z → bool.

Definition draw_renderable (native_window : Z) (r : Renderable) : M Renderer unit :=
  modify (λ s, match m_colorbuffers s !! buffer r with
               | None => s
               | Some ref => add_log (gl_draw native_window (cb ref) (translucent (alpha r)) (screen_position r)) s
               end).

(** Every outcome is reported as false. *)
Definition renderer_draw (native_window : Z) (window_frame : Rect) (renderables : list Renderable) (bind_ok : bool) :
    M Renderer bool :=
  s ← get;
  match m_nativeWindows s !! native_window with
  | None => mret false
  | Some w =>
      if negb bind_ok then mret false
      else
        put (up_native (<[native_window := mkRendererWindow (rw_surface w) window_frame]> (m_nativeWindows s)) s)
          ≫= λ _,
        for_each renderables (draw_renderable native_window) ≫= λ _,
        modify (add_log (gl_swap native_window)) ≫= λ _,
        mret false
  end.
End drawing.

(** ** RenderThread *)

Definition info_blank : RenderThreadInfo := mkInfo None None None ∅ ∅.

Definition render_thread_start (t : Z) : M Renderer unit := set_thread_info t info_blank.

(** The thread's information goes with the thread. *)
Definition render_thread_end (t : Z) : M Renderer unit := modify (λ s, up_threads (delete t (threads s)) s).

(** The end of [RenderThread::main]. *)
Definition render_thread_exit (t : Z) (current_ok : bool) : M Renderer unit :=
  bindContext t 0 0 0 current_ok ≫= λ _,
  drainWindowSurface t ≫= λ _,
  drainRenderContext t ≫= λ _,
  render_thread_end t.

(** ** RenderControl: the guest's calls

    [renderer] is the registered renderer, which may be missing. *)

Definition on_renderer {A} (none : A) (m : M Renderer A) : M (option Renderer) A := λ o,
  match o with
  | None => Val None none
  | Some r => match m r with Val r' a => Val (Some r') a | Exc r' e => Exc (Some r') e | Ub => Ub end
  end.

Definition rcCreateContext (t config share glVersion : Z) (context : option Z) : M (option Renderer) Z :=
  on_renderer 0 (createRenderContext t (i32 config) share (bool_decide (glVersion = 2 ∨ glVersion = 3)) context).
Definition rcDestroyContext (t context : Z) : M (option Renderer) unit :=
  on_renderer tt (DestroyRenderContext t context).
Definition rcCreateWindowSurface (t config width height : Z) (pbuffer : option Z) : M (option Renderer) Z :=
  on_renderer 0 (createWindowSurface t (i32 config) (i32 width) (i32 height) pbuffer).
Definition rcDestroyWindowSurface (t windowSurface : Z) : M (option Renderer) unit :=
  on_renderer tt (DestroyWindowSurface t windowSurface).
Definition rcCreateColorBuffer (width height internalFormat : Z) (helper_ok : bool) (image : option Z) :
    M (option Renderer) Z :=
  on_renderer 0 (createColorBuffer (i32 width) (i32 height) internalFormat helper_ok image).
Definition rcOpenColorBuffer2 (colorbuffer : Z) : M (option Renderer) Z :=
  on_renderer (-1) (openColorBuffer colorbuffer).
Definition rcOpenColorBuffer (colorbuffer : Z) : M (option Renderer) unit :=
  rcOpenColorBuffer2 colorbuffer ≫= λ _, mret tt.
Definition rcCloseColorBuffer (colorbuffer : Z) : M (option Renderer) unit :=
  on_renderer tt (closeColorBuffer colorbuffer).
Definition rcFlushWindowColorBuffer (t windowSurface : Z) (current_ok : bool) : M (option Renderer) Z :=
  on_renderer (-1) (b ← flushWindowSurfaceColorBuffer t windowSurface current_ok; mret (if (b : bool) then 0 else -1)).
Definition rcSetWindowColorBuffer (windowSurface colorBuffer : Z) (pbuffer : option Z) : M (option Renderer) unit :=
  on_renderer tt (setWindowSurfaceColorBuffer windowSurface colorBuffer pbuffer ≫= λ _, mret tt).
Definition rcMakeCurrent (t context drawSurf readSurf : Z) (current_ok : bool) : M (option Renderer) Z :=
  on_renderer 0 (b ← bindContext t context drawSurf readSurf current_ok; mret (if (b : bool) then 1 else 0)).
Definition rcBindTexture (t colorBuffer : Z) : M (option Renderer) unit :=
  on_renderer tt (bindColorBufferToTexture t colorBuffer ≫= λ _, mret tt).
Definition rcBindRenderbuffer (t colorBuffer : Z) : M (option Renderer) unit :=
  on_renderer tt (bindColorBufferToRenderbuffer t colorBuffer ≫= λ _, mret tt).
Definition rcReadColorBuffer (colorBuffer x y width height : Z) (ok : bool) : M (option Renderer) unit :=
  on_renderer tt (readColorBuffer colorBuffer x y width height ok).
Definition rcUpdateColorBuffer (colorBuffer x y width height : Z) (ok : bool) : M (option Renderer) Z :=
  on_renderer (-1) (updateColorBuffer colorBuffer x y width height ok ≫= λ _, mret 0).
Definition rcCreateClientImage (context image : Z) : M (option Renderer) Z :=
  on_renderer 0 (createClientImage context image).

(** ** Guests: any number of render threads, their calls interleaved

    The end of a render thread is a call as a whole, [g_exit]; and also the critical sections
    it consists of, between which other threads may call: [g_make_current 0 0 0],
    [g_drain_windows], [g_drain_contexts], and [g_end], when the thread's sets are empty. *)

Inductive guest_call : Type :=
  | g_start
  | g_exit (current_ok : bool)
  | g_drain_windows
  | g_drain_contexts
  | g_end
  | g_create_context (config share glVersion : Z) (context : option Z)
  | g_destroy_context (h : Z)
  | g_create_surface (config width height : Z) (pbuffer : option Z)
  | g_destroy_surface (h : Z)
  | g_create_buffer (width height format : Z) (helper_ok : bool) (image : option Z)
  | g_open_buffer (h : Z)
  | g_close_buffer (h : Z)
  | g_set_buffer (surface h : Z) (pbuffer : option Z)
  | g_flush (surface : Z) (current_ok : bool)
  | g_make_current (context draw read : Z) (current_ok : bool)
  | g_update_buffer (h x y w ht : Z) (ok : bool).

Definition guest_do (t : Z) (c : guest_call) : M (option Renderer) Z :=
  match c with
  | g_start => on_renderer tt (render_thread_start t) ≫= λ _, mret 0
  | g_exit ok => on_renderer tt (render_thread_exit t ok) ≫= λ _, mret 0
  | g_drain_windows => on_renderer tt (drainWindowSurface t) ≫= λ _, mret 0
  | g_drain_contexts => on_renderer tt (drainRenderContext t) ≫= λ _, mret 0
  | g_end => on_renderer tt (render_thread_end t) ≫= λ _, mret 0
  | g_create_context config share v e => rcCreateContext t config share v e
  | g_destroy_context h => rcDestroyContext t h ≫= λ _, mret 0
  | g_create_surface config w h e => rcCreateWindowSurface t config w h e
  | g_destroy_surface h => rcDestroyWindowSurface t h ≫= λ _, mret 0
  | g_create_buffer w h f ok e => rcCreateColorBuffer w h f ok e
  | g_open_buffer h => rcOpenColorBuffer2 h
  | g_close_buffer h => rcCloseColorBuffer h ≫= λ _, mret 0
  | g_set_buffer x h e => rcSetWindowColorBuffer x h e ≫= λ _, mret 0
  | g_flush x ok => rcFlushWindowColorBuffer t x ok
  | g_make_current c d r ok => rcMakeCurrent t c d r ok
  | g_update_buffer h x y w ht ok => rcUpdateColorBuffer h x y w ht ok
  end.

(** A thread starts once; only a running thread calls. *)
Definition can_call (t : Z) (c : guest_call) (s : Renderer) : Prop :=
  match c with
  | g_start => threads s !! t = None
  | g_end => match threads s !! t with Some i => m_contextSet i = ∅ ∧ m_windowSet i = ∅ | None => False end
  | _ => is_Some (threads s !! t)
  end.
#[global] Instance can_call_dec t c s : Decision (can_call t c s).
Proof. destruct c; cbn; try apply _. destruct (threads s !! t); apply _. Defined.

Inductive guest_run : list (Z * guest_call) → Renderer → Renderer → Prop :=
  | run_nil s : guest_run [] s s
  | run_cons t c cs s s1 s2 ret :
      can_call t c s → guest_do t c (Some s) = Val (Some s1) ret → guest_run cs s1 s2 →
      guest_run ((t, c) :: cs) s s2.

(** ** Invariants *)

(** What the invariants need of a surface. *)
Definition core (x : WindowSurface) : option Z * option Z * Z * Z :=
  (mSurface x, mAttachedColorBuffer x, mWidth x, mHeight x).
Definition surf (s : Renderer) (w : Z) : option (option Z * option Z * Z * Z) := core <$> surfaces s !! w.

(** The handles in use. *)
Definition handles (s : Renderer) : gset Z := dom (m_contexts s) ∪ dom (m_windows s) ∪ dom (m_colorbuffers s).

Record handles_ok (n : Z) (s : Renderer) : Prop := mk_handles_ok {
  hok_next : 0 ≤ s_nextHandle s ≤ n;
  hok_keys h : h ∈ handles s → 1 ≤ h ≤ s_nextHandle s;
  hok_ctx_win : dom (m_contexts s) ## dom (m_windows s);
  hok_ctx_cb : dom (m_contexts s) ## dom (m_colorbuffers s);
  hok_win_cb : dom (m_windows s) ## dom (m_colorbuffers s);
  hok_count h r : m_colorbuffers s !! h = Some r → 1 ≤ refcount r ≤ n;
}.

Record owned_ok (s : Renderer) : Prop := mk_owned_ok {
  ook_ctx h : is_Some (m_contexts s !! h) → ∃ t i, threads s !! t = Some i ∧ h ∈ m_contextSet i;
  ook_win h : is_Some (m_windows s !! h) → ∃ t i, threads s !! t = Some i ∧ h ∈ m_windowSet i;
}.

Record objects_ok (s : Renderer) : Prop := mk_objects_ok {
  pok_win h w k : m_windows s !! h = Some (w, k) →
    ∃ e a wd ht, surf s w = Some (e, a, wd, ht) ∧
      (k ≠ 0 → k ≤ s_nextHandle s ∧ ∀ r, m_colorbuffers s !! k = Some r → a = Some (cb r));
  pok_inj h1 h2 w k1 k2 : m_windows s !! h1 = Some (w, k1) → m_windows s !! h2 = Some (w, k2) → h1 = h2;
  pok_cb h r : m_colorbuffers s !! h = Some r → is_Some (buffers s !! cb r);
  pok_size w e a wd ht : surf s w = Some (e, Some a, wd, ht) →
    ∃ b, buffers s !! a = Some b ∧ (is_Some e → wd = m_width b ∧ ht = m_height b);
  pok_surf_addr w : is_Some (surf s w) → w < next_address s;
  pok_buf_addr a : is_Some (buffers s !! a) → a < next_address s;
}.

Record renderer_ok (n : Z) (s : Renderer) : Prop := mk_renderer_ok {
  rok_handles : handles_ok n s;
  rok_owned : owned_ok s;
  rok_objects : objects_ok s;
}.

(** Facts about a table's keys and the maps they live in. *)
Ltac map_facts :=
  repeat match goal with
  | H : is_Some (<[_ := _]> _ !! _) |- _ => rewrite lookup_insert_is_Some' in H
  | H : is_Some (delete _ _ !! _) |- _ => rewrite lookup_delete_is_Some in H
  | H : <[_ := _]> _ !! _ = Some _ |- _ => rewrite lookup_insert_Some in H
  | H : delete _ _ !! _ = Some _ |- _ => rewrite lookup_delete_Some in H
  | H : _ ∧ _ |- _ => destruct H
  | H : _ ∨ _ |- _ => destruct H
  | H : Some _ = Some _ |- _ => injection H as ?; subst
  | H : (_, _) = (_, _) |- _ => injection H as ??; subst
  end.

Lemma renderer_new_ok k : renderer_ok 0 (renderer_new k).
Proof.
  split; split; unfold handles, surf; cbn; try set_solver; try lia.
  all: intros *; rewrite ?lookup_empty; cbn; try done; by intros [? ?].
Qed.

Lemma handles_ok_mono n m s : n ≤ m → handles_ok n s → handles_ok m s.
Proof. intros Hn [H1 H2 H3 H4 H5 H6]. split; auto; [lia|]. intros h r Hr. specialize (H6 h r Hr). lia. Qed.

Lemma renderer_ok_mono n m s : n ≤ m → renderer_ok n s → renderer_ok m s.
Proof. intros Hn [H1 H2 H3]. split; [by eapply handles_ok_mono|done|done]. Qed.

Abbreviation max_handle := 4294967295.

Lemma elem_of_handles s h :
  h ∈ handles s ↔ is_Some (m_contexts s !! h) ∨ is_Some (m_windows s !! h) ∨ is_Some (m_colorbuffers s !! h).
Proof. unfold handles. rewrite !elem_of_union, !elem_of_dom. tauto. Qed.

Lemma genHandle_next n s : handles_ok n s → n < max_handle →
  genHandle s = Val (up_next (s_nextHandle s + 1) s) (s_nextHandle s + 1).
Proof.
  intros [[Hlo Hhi] Hk _ _ _ _] Hn. unfold genHandle. run_m. rewrite Nat.add_comm. cbn [Nat.add genHandle_loop].
  run_m. rewrite u32_small by (unfold is_u32; lia). rewrite decide_False; [done|].
  intros H. assert (s_nextHandle s + 1 ∈ handles s → False) by (intros Hi%Hk; lia).
  rewrite elem_of_handles in *. intuition lia.
Qed.

(** *** Updates of one table *)

Lemma fresh_handle n s : handles_ok n s → s_nextHandle s + 1 ∉ handles s.
Proof. intros [_ Hk _ _ _ _] H%Hk. lia. Qed.

(** A step that hands out the next handle in exactly one table. *)
Lemma handles_ok_add n s s' :
  handles_ok n s → s_nextHandle s' = s_nextHandle s + 1 →
  let k := s_nextHandle s + 1 in
  (m_contexts s' = m_contexts s ∧ m_windows s' = m_windows s ∧
     ∃ a, m_colorbuffers s' = <[k := mkRef a 1]> (m_colorbuffers s)) ∨
  (m_windows s' = m_windows s ∧ m_colorbuffers s' = m_colorbuffers s ∧
     ∃ o, m_contexts s' = <[k := o]> (m_contexts s)) ∨
  (m_contexts s' = m_contexts s ∧ m_colorbuffers s' = m_colorbuffers s ∧
     ∃ o, m_windows s' = <[k := o]> (m_windows s)) →
  handles_ok (n + 1) s'.
Proof.
  intros Hok Hn k Hcase. assert (Hf := fresh_handle n s Hok). fold k in Hf, Hn. unfold handles in Hf.
  rewrite !not_elem_of_union in Hf. destruct Hf as [[Fc Fw] Fb].
  assert (Hk : s_nextHandle s < k ≤ s_nextHandle s + 1) by lia. clearbody k.
  destruct Hok as [H1 H2 H3 H4 H5 H6]. unfold handles in H2.
  assert (Hkeys : ∀ h, h ∈ {[k]} ∪ (dom (m_contexts s) ∪ dom (m_windows s) ∪ dom (m_colorbuffers s)) → 1 ≤ h ≤ k).
  { intros h [->%elem_of_singleton|Hh%H2]%elem_of_union; lia. }
  destruct Hcase as [(Ec & Ew & a & Eb)|[(Ew & Eb & o & Ec)|(Ec & Eb & o & Ew)]];
    split; unfold handles; rewrite ?Hn, ?Ec, ?Ew, ?Eb; rewrite ?dom_insert_L; try lia.
  all: try (intros h Hh; apply Hkeys; clear -Hh; rewrite !elem_of_union in *; tauto).
  all: rewrite ?disjoint_union_l, ?disjoint_union_r, ?disjoint_singleton_l, ?disjoint_singleton_r; try tauto.
  all: intros h r Hr; rewrite ?lookup_insert_Some in Hr.
  1: destruct Hr as [[_ <-]|[_ Hr]]; [cbn; lia|].
  all: specialize (H6 _ _ Hr); lia.
Qed.

(** A step that only removes handles and changes counts. *)
Lemma handles_ok_shrink n m s s' :
  handles_ok n s → n ≤ m → s_nextHandle s' = s_nextHandle s →
  dom (m_contexts s') ⊆ dom (m_contexts s) → dom (m_windows s') ⊆ dom (m_windows s) →
  dom (m_colorbuffers s') ⊆ dom (m_colorbuffers s) →
  (∀ h r, m_colorbuffers s' !! h = Some r → 1 ≤ refcount r ≤ m) →
  handles_ok m s'.
Proof.
  intros [H1 H2 H3 H4 H5 H6] Hnm Hn Hc Hw Hb Hr. unfold handles in H2.
  split; unfold handles; [rewrite Hn; lia|rewrite Hn; intros h Hh; apply H2|..|done].
  - clear -Hh Hc Hw Hb. rewrite !elem_of_union in *. intuition.
  - clear -H3 Hc Hw. set_solver.
  - clear -H4 Hc Hb. set_solver.
  - clear -H5 Hw Hb. set_solver.
Qed.

Lemma objects_ok_shrink s s' : objects_ok s →
  (∀ h v, m_windows s' !! h = Some v → m_windows s !! h = Some v) →
  (∀ h r', m_colorbuffers s' !! h = Some r' → ∃ r, m_colorbuffers s !! h = Some r ∧ cb r = cb r') →
  (∀ w, surf s' w = surf s w) → buffers s' = buffers s → next_address s' = next_address s →
  s_nextHandle s' = s_nextHandle s → objects_ok s'.
Proof.
  intros [P1 P2 P3 P4 P5 P6] Hw Hb Hs Hbuf Ha Hn. split.
  - intros h w k Hk. destruct (P1 _ _ _ (Hw _ _ Hk)) as (e & a & wd & ht & Hsf & Hc). exists e, a, wd, ht.
    rewrite Hs, Hn. split; [done|]. intros Hk0. destruct (Hc Hk0) as [Hle Hr]. split; [done|].
    intros r' Hr'. destruct (Hb _ _ Hr') as (r & Hr0 & <-). by apply Hr.
  - intros h1 h2 w k1 k2 H1 H2. eapply P2; eauto.
  - intros h r' Hr'. destruct (Hb _ _ Hr') as (r & Hr0 & <-). rewrite Hbuf. by eapply P3.
  - intros w e a wd ht. rewrite Hs, Hbuf. apply P4.
  - intros w. rewrite Hs, Ha. apply P5.
  - intros a. rewrite Hbuf, Ha. apply P6.
Qed.

(** Thread [t]'s sets change from those of [i] to those of [i']. *)
Lemma owned_ok_update s s' t i i' : owned_ok s → threads s !! t = Some i → threads s' = <[t := i']> (threads s) →
  (∀ h, is_Some (m_contexts s' !! h) →
     h ∈ m_contextSet i' ∨ is_Some (m_contexts s !! h) ∧ (h ∈ m_contextSet i → h ∈ m_contextSet i')) →
  (∀ h, is_Some (m_windows s' !! h) →
     h ∈ m_windowSet i' ∨ is_Some (m_windows s !! h) ∧ (h ∈ m_windowSet i → h ∈ m_windowSet i')) →
  owned_ok s'.
Proof.
  intros [Ho1 Ho2] Hi Ht Hc Hw. split; intros h Hs; rewrite Ht.
  - destruct (Hc h Hs) as [Hin|[Hs' Himp]]; [exists t, i'; by rewrite lookup_insert_eq|].
    destruct (Ho1 h Hs') as (t' & j & Hj & Hin). destruct (decide (t' = t)) as [->|Hne].
    + exists t, i'. rewrite lookup_insert_eq. split; [done|]. apply Himp. congruence.
    + exists t', j. by rewrite lookup_insert_ne by done.
  - destruct (Hw h Hs) as [Hin|[Hs' Himp]]; [exists t, i'; by rewrite lookup_insert_eq|].
    destruct (Ho2 h Hs') as (t' & j & Hj & Hin). destruct (decide (t' = t)) as [->|Hne].
    + exists t, i'. rewrite lookup_insert_eq. split; [done|]. apply Himp. congruence.
    + exists t', j. by rewrite lookup_insert_ne by done.
Qed.

(** *** Creation *)

Lemma createColorBuffer_ok n s w h f ok im : renderer_ok n s → n < max_handle →
  ∃ s' ret, createColorBuffer w h f ok im s = Val s' ret ∧ renderer_ok (n + 1) s' ∧
    m_colorbuffers s' = (if decide (ret = 0) then m_colorbuffers s
                         else <[ret := mkRef (next_address s) 1]> (m_colorbuffers s)) ∧
    (ret ≠ 0 → ret ∉ handles s).
Proof.
  intros Hok Hn. unfold createColorBuffer.
  destruct (colorbuffer_create w h f ok im) as [b|].
  2: { exists s, 0. split; [done|]. split; [|done]. eapply renderer_ok_mono; [|exact Hok]. lia. }
  destruct Hok as [Hh [Ho1 Ho2] [P1 P2 P3 P4 P5 P6]].
  unfold new_buffer, mbind at 1, M_bind. cbv beta iota.
  set (s1 := mkRenderer _ _ _ _ _ _ _ _ _ _ _ _).
  assert (Hh1 : handles_ok n s1) by (destruct Hh; by split).
  rewrite (bind_val _ _ _ _ _ (genHandle_next n s1 Hh1 Hn)). run_m.
  change (s_nextHandle s1) with (s_nextHandle s) in *.
  destruct Hh as [Hlo Hkeys Hd1 Hd2 Hd3 Hcnt].
  eexists _, _. split; [reflexivity|]. rewrite decide_False by lia. cbn [m_colorbuffers up_colorbuffers up_next].
  split; [|split; [done|intros _; apply (fresh_handle n); by split]].
  split.
  - apply (handles_ok_add n s); [by split|done|]. left. split_and!; [done|done|by eexists].
  - by split.
  - split; unfold surf in *; cbn.
    + intros h0 w0 k Hw. destruct (P1 _ _ _ Hw) as (e & a & wd & ht & Hs & Hk).
      exists e, a, wd, ht. split; [done|]. intros Hk0. destruct (Hk Hk0) as [Hle Hr]. split; [lia|].
      intros r. rewrite lookup_insert_ne by lia. apply Hr.
    + exact P2.
    + intros h0 r [[<- <-]|[_ Hr]]%lookup_insert_Some; cbn; [by rewrite lookup_insert_eq|].
      apply lookup_insert_is_Some'. right. by eapply P3.
    + intros w0 e a wd ht Hs. destruct (P4 _ _ _ _ _ Hs) as (b0 & Hb & Hsz). exists b0. split; [|done].
      rewrite lookup_insert_ne; [done|]. assert (a < next_address s) by eauto using mk_is_Some. lia.
    + intros w0 Hw. specialize (P5 _ Hw). lia.
    + intros a [<-|Ha%P6]%lookup_insert_is_Some'; lia.
Qed.

Lemma createRenderContext_ok n s t config share gl e : renderer_ok n s → n < max_handle →
  is_Some (threads s !! t) →
  ∃ s' ret, createRenderContext t config share gl e s = Val s' ret ∧ renderer_ok (n + 1) s' ∧
    m_colorbuffers s' = m_colorbuffers s.
Proof.
  intros Hok Hn [i Hi]. assert (Hskip : renderer_ok (n + 1) s) by (eapply renderer_ok_mono; [|exact Hok]; lia).
  unfold createRenderContext. run_m. destruct (negb _); [by eexists _, _|].
  destruct (decide _) as [_|_]; [by eexists _, _|]. destruct e as [e|]; [|by eexists _, _].
  destruct Hok as [Hh [Ho1 Ho2] [P1 P2 P3 P4 P5 P6]].
  unfold new_context. set (s1 := mkRenderer _ _ _ _ _ _ _ _ _ _ _ _).
  assert (Hh1 : handles_ok n s1) by (destruct Hh; by split).
  rewrite (genHandle_next n s1 Hh1 Hn). unfold thread_info, set_thread_info. run_m. cbn [threads up_contexts up_next].
  change (threads s1) with (threads s). rewrite Hi. eexists _, _. split; [reflexivity|]. split; [|done]. split.
  - apply (handles_ok_add n s); [by destruct Hh; split|done|]. right. left. split_and!; [done|done|by eexists].
  - apply (owned_ok_update s _ t i (add_context (s_nextHandle s1 + 1) i)); [by split|done|done|..]; cbn; intros h Hs.
    + apply lookup_insert_is_Some' in Hs as [<-|Hs]; [left; set_solver|right; split; [done|set_solver]].
    + by right.
  - split; unfold surf in *; cbn; [|exact P2|exact P3|exact P4| |].
    + intros h0 w0 k Hw. destruct (P1 _ _ _ Hw) as (e0 & a & wd & ht & Hs & Hk).
      exists e0, a, wd, ht. split; [done|]. intros Hk0. destruct (Hk Hk0) as [Hle Hr]. split; [lia|done].
    + intros w0 Hw. specialize (P5 _ Hw). lia.
    + intros a Ha. specialize (P6 _ Ha). lia.
Qed.

Lemma resize_some pbuffer w h x y : resize pbuffer w h x = (true, y) →
  mWidth y = w ∧ mHeight y = h ∧ is_Some (mSurface y) ∧ mAttachedColorBuffer y = mAttachedColorBuffer x.
Proof.
  unfold resize. case_decide as Hd; [intros [= <-]; naive_solver|]. destruct pbuffer; intros [= <-]; naive_solver.
Qed.

Lemma createWindowSurface_ok n s t config w h e : renderer_ok n s → n < max_handle →
  is_Some (threads s !! t) →
  ∃ s' ret, createWindowSurface t config w h e s = Val s' ret ∧ renderer_ok (n + 1) s' ∧
    m_colorbuffers s' = m_colorbuffers s.
Proof.
  intros Hok Hn [i Hi]. assert (Hskip : renderer_ok (n + 1) s) by (eapply renderer_ok_mono; [|exact Hok]; lia).
  unfold createWindowSurface. run_m. destruct (negb _); [by eexists _, _|].
  destruct (surface_create e w h) as [x|] eqn:Hx; [|by eexists _, _].
  assert (Hatt : mAttachedColorBuffer x = None).
  { unfold surface_create in Hx. destruct (resize _ _ _ _) as [[] y] eqn:Hr; [|done]. injection Hx as <-.
    by apply resize_some in Hr as (_ & _ & _ & ->). }
  destruct Hok as [Hh Ho [P1 P2 P3 P4 P5 P6]].
  unfold new_surface. set (s1 := mkRenderer _ _ _ _ _ _ _ _ _ _ _ _).
  assert (Hh1 : handles_ok n s1) by (destruct Hh; by split).
  rewrite (genHandle_next n s1 Hh1 Hn). unfold thread_info, set_thread_info. run_m. cbn [threads up_windows up_next].
  change (threads s1) with (threads s). rewrite Hi. eexists _, _. split; [reflexivity|]. split; [|done].
  assert (Hnew : ∀ a, is_Some (surf s a) → a ≠ next_address s) by (intros a Ha%P5; lia).
  split.
  - apply (handles_ok_add n s); [done|done|]. right. right. split_and!; [done|done|by eexists].
  - apply (owned_ok_update s _ t i (add_window (s_nextHandle s1 + 1) i)); [done|done|done|..]; cbn; intros h0 Hs.
    + by right.
    + apply lookup_insert_is_Some' in Hs as [<-|Hs]; [left; set_solver|right; split; [done|set_solver]].
  - split; unfold surf in *; cbn [m_windows up_windows up_next up_threads surfaces m_colorbuffers buffers s_nextHandle next_address s1].
    + intros h0 w0 k [[_ [= <- <-]]|[Hne Hw]]%lookup_insert_Some.
      { rewrite lookup_insert_eq. cbn. eexists _, _, _, _. split; [reflexivity|done]. }
      destruct (P1 _ _ _ Hw) as (e0 & a & wd & ht & Hs & Hk). exists e0, a, wd, ht.
      rewrite lookup_insert_ne by (apply not_eq_sym, Hnew; by rewrite Hs).
      split; [done|]. intros Hk0. destruct (Hk Hk0) as [Hle Hr]. split; [lia|done].
    + assert (Hdiff : ∀ h0 w0 k, m_windows s !! h0 = Some (w0, k) → w0 ≠ next_address s).
      { intros h0 w0 k Hw. destruct (P1 _ _ _ Hw) as (? & ? & ? & ? & Hs & _). apply Hnew. by rewrite Hs. }
      intros h1 h2 w0 k1 k2 [[E1 [= E2 E3]]|[_ H1]]%lookup_insert_Some [[E4 [= E5 E6]]|[_ H2]]%lookup_insert_Some.
      * congruence.
      * apply Hdiff in H2. congruence.
      * apply Hdiff in H1. congruence.
      * by eapply P2.
    + exact P3.
    + intros w0 e0 a wd ht. destruct (decide (w0 = next_address s)) as [->|Hne].
      * rewrite lookup_insert_eq. cbn. unfold core. intros [= _ Ha _ _]. congruence.
      * rewrite lookup_insert_ne by done. apply P4.
    + intros w0. destruct (decide (w0 = next_address s)) as [->|Hne]; [lia|].
      rewrite lookup_insert_ne by done. intros Hw. specialize (P5 _ Hw). lia.
    + intros a Ha. specialize (P6 _ Ha). lia.
Qed.

(** *** Reference counts *)

Lemma set_count_ok n m s h r c : renderer_ok n s → n ≤ m → m_colorbuffers s !! h = Some r → 1 ≤ c ≤ m →
  renderer_ok m (up_colorbuffers (<[h := mkRef (cb r) c]> (m_colorbuffers s)) s).
Proof.
  intros [Hh [Ho1 Ho2] Hp] Hnm Hr Hc. split; [|by split|].
  - apply (handles_ok_shrink n m s); [done|done|done|done|done|..]; cbn.
    + rewrite dom_insert_L. assert (h ∈ dom (m_colorbuffers s)) by by apply elem_of_dom. set_solver.
    + intros h0 r0 [[_ <-]|[_ Hr0]]%lookup_insert_Some; [done|]. destruct Hh as [_ _ _ _ _ H6].
      specialize (H6 _ _ Hr0). lia.
  - apply (objects_ok_shrink s); [done|done| |done..]. cbn.
    intros h0 r0 [[<- <-]|[_ Hr0]]%lookup_insert_Some; eauto.
Qed.

Lemma openColorBuffer_ok n s h : renderer_ok n s → n < max_handle →
  ∃ s' ret, openColorBuffer h s = Val s' ret ∧ renderer_ok (n + 1) s' ∧
    m_colorbuffers s' = match m_colorbuffers s !! h with
                        | None => m_colorbuffers s
                        | Some r => <[h := mkRef (cb r) (refcount r + 1)]> (m_colorbuffers s)
                        end.
Proof.
  intros Hok Hn. unfold openColorBuffer. run_m. destruct (m_colorbuffers s !! h) as [r|] eqn:Hr.
  - assert (Hc := hok_count _ _ (rok_handles _ _ Hok) _ _ Hr).
    rewrite u32_small by (unfold is_u32; lia). eexists _, _. split; [reflexivity|]. split; [|done].
    by apply (set_count_ok n); [|lia| |lia].
  - exists s, (-1). split; [done|]. split; [|done]. eapply renderer_ok_mono; [|exact Hok]. lia.
Qed.

(** The table after one reference to [h] has been dropped. *)
Definition dropped (h : Z) (m : gmap Z ColorBufferRef) : gmap Z ColorBufferRef :=
  match m !! h with
  | None => m
  | Some r => if decide (refcount r = 1) then delete h m else <[h := mkRef (cb r) (refcount r - 1)]> m
  end.

Lemma delete_buffer_ok n s h : renderer_ok n s →
  renderer_ok n (up_colorbuffers (delete h (m_colorbuffers s)) s).
Proof.
  intros [Hh [Ho1 Ho2] Hp]. split; [|by split|].
  - apply (handles_ok_shrink n n s); [done|lia|done|done|done|..]; cbn.
    + rewrite dom_delete_L. set_solver.
    + intros h0 r0 [_ Hr0]%lookup_delete_Some. destruct Hh as [_ _ _ _ _ H6]. by apply (H6 h0).
  - apply (objects_ok_shrink s); [done|done| |done..]. cbn. intros h0 r0 [_ Hr0]%lookup_delete_Some; eauto.
Qed.

Lemma drop_reference_ok n s h : renderer_ok n s → n ≤ max_handle →
  drop_reference h s = Val (up_colorbuffers (dropped h (m_colorbuffers s)) s) tt ∧
  renderer_ok n (up_colorbuffers (dropped h (m_colorbuffers s)) s).
Proof.
  intros Hok Hn. unfold drop_reference, dropped. run_m. destruct (m_colorbuffers s !! h) as [r|] eqn:Hr.
  - assert (Hc := hok_count _ _ (rok_handles _ _ Hok) _ _ Hr).
    rewrite u32_small by (unfold is_u32; lia). destruct (decide (refcount r = 1)) as [->|Hne].
    + split; [done|]. by apply delete_buffer_ok.
    + rewrite decide_False by lia. split; [done|]. by apply (set_count_ok n); [|lia| |lia].
  - by destruct s.
Qed.

(** *** Destruction *)

Lemma owned_ok_shrink s s' : owned_ok s → threads s' = threads s →
  (∀ h, is_Some (m_contexts s' !! h) → is_Some (m_contexts s !! h)) →
  (∀ h, is_Some (m_windows s' !! h) → is_Some (m_windows s !! h)) → owned_ok s'.
Proof. intros [Ho1 Ho2] Ht Hc Hw. split; intros h Hs; rewrite Ht; eauto. Qed.

(** Removing contexts and windows, whatever happens to the threads' sets. *)
Lemma tables_shrink_ok n s s' : renderer_ok n s → owned_ok s' →
  s_nextHandle s' = s_nextHandle s → m_contexts s' ⊆ m_contexts s → m_windows s' ⊆ m_windows s →
  m_colorbuffers s' = m_colorbuffers s → (∀ w, surf s' w = surf s w) → buffers s' = buffers s →
  next_address s' = next_address s → renderer_ok n s'.
Proof.
  intros [Hh _ Hp] Ho Hn Hc Hw Hb Hs Hbuf Ha. split; [|done|].
  - apply (handles_ok_shrink n n s); [done|lia|done|by apply subseteq_dom..|by rewrite Hb|].
    rewrite Hb. intros h r Hr. by eapply hok_count.
  - apply (objects_ok_shrink s); [done| |rewrite Hb; eauto|done..].
    intros h v Hv. by eapply lookup_weaken.
Qed.

Lemma DestroyRenderContext_ok n s t h : renderer_ok n s → is_Some (threads s !! t) →
  ∃ s', DestroyRenderContext t h s = Val s' tt ∧ renderer_ok n s' ∧ m_colorbuffers s' = m_colorbuffers s.
Proof.
  intros Hok [i Hi]. unfold DestroyRenderContext, thread_info, set_thread_info. run_m. cbn [threads up_contexts].
  rewrite Hi. destruct (decide (m_contextSet i = ∅)) as [He|He]; eexists; (split; [reflexivity|]); (split; [|done]).
  - apply (tables_shrink_ok n s); try done; [|apply delete_subseteq].
    apply (owned_ok_shrink s); [apply Hok|done| |done]. cbn. intros h0 [_ Hs]%lookup_delete_is_Some. done.
  - eapply (tables_shrink_ok n s); try done; [|apply delete_subseteq].
    eapply (owned_ok_update s _ t i); [apply Hok|done|reflexivity|..]; cbn; intros h0 Hs.
    + apply lookup_delete_is_Some in Hs as [Hne Hs]. right. split; [done|set_solver].
    + by right.
Qed.

Lemma DestroyWindowSurface_ok n s t h : renderer_ok n s → is_Some (threads s !! t) →
  ∃ s', DestroyWindowSurface t h s = Val s' tt ∧ renderer_ok n s' ∧ m_colorbuffers s' = m_colorbuffers s.
Proof.
  intros Hok [i Hi]. unfold DestroyWindowSurface, thread_info, set_thread_info. run_m.
  destruct (m_windows s !! h) as [[w k]|] eqn:Hw; [|by exists s]. cbn [threads up_windows].
  rewrite Hi. destruct (decide (m_windowSet i = ∅)) as [He|He]; eexists; (split; [reflexivity|]); (split; [|done]).
  - apply (tables_shrink_ok n s); try done; [|apply delete_subseteq].
    apply (owned_ok_shrink s); [apply Hok|done|done|]. cbn. intros h0 [_ Hs]%lookup_delete_is_Some. done.
  - eapply (tables_shrink_ok n s); try done; [|apply delete_subseteq].
    eapply (owned_ok_update s _ t i); [apply Hok|done|reflexivity|..]; cbn; intros h0 Hs.
    + by right.
    + apply lookup_delete_is_Some in Hs as [Hne Hs]. right. split; [done|set_solver].
Qed.

(** *** Attaching, binding, flushing *)

Lemma setColorBuffer_core pbuffer a b x : ∃ e wd ht,
  core (setColorBuffer pbuffer a b x) = (e, Some a, wd, ht) ∧
  (is_Some e → wd = m_width b ∧ ht = m_height b).
Proof.
  unfold setColorBuffer, resize. cbn.
  destruct (decide (m_width b ≠ mWidth x ∨ m_height b ≠ mHeight x)) as [Hd|Hd].
  - rewrite decide_False by (intros (_ & ? & ?); cbn in *; lia).
    destruct pbuffer; unfold core; cbn; eexists _, _, _; (split; [reflexivity|]); [done|by intros []].
  - unfold core. cbn. eexists _, _, _. split; [reflexivity|]. lia.
Qed.

Lemma setWindowSurfaceColorBuffer_ok n s x h pbuffer : renderer_ok n s →
  ∃ s' ret, setWindowSurfaceColorBuffer x h pbuffer s = Val s' ret ∧ renderer_ok n s' ∧
    m_colorbuffers s' = m_colorbuffers s.
Proof.
  intros Hok. unfold setWindowSurfaceColorBuffer. run_m.
  destruct (m_windows s !! x) as [[w k]|] eqn:Hw; [|by eexists _, _].
  destruct (m_colorbuffers s !! h) as [r|] eqn:Hr; [|by eexists _, _].
  destruct Hok as [Hh Ho [P1 P2 P3 P4 P5 P6]].
  destruct (P1 _ _ _ Hw) as (e & a & wd & ht & Hs & _). unfold surf in Hs.
  destruct (surfaces s !! w) as [y|] eqn:Hy; [|done]. destruct (P3 _ _ Hr) as [b Hb]. rewrite Hb.
  eexists _, _. split; [reflexivity|]. split; [|done].
  destruct (setColorBuffer_core pbuffer (cb r) b y) as (e' & wd' & ht' & Hcore & Hsize).
  assert (Hle : 1 ≤ h ≤ s_nextHandle s).
  { apply (hok_keys _ _ Hh). apply elem_of_handles. right. right. by rewrite Hr. }
  split.
  - destruct Hh as [H1 H2 H3 H4 H5 H6]. unfold handles in H2.
    assert (Hdom : dom (<[x := (w, h)]> (m_windows s)) = dom (m_windows s))
      by (apply dom_insert_lookup_L; by rewrite Hw).
    split; unfold handles; cbn [s_nextHandle m_contexts m_windows m_colorbuffers up_windows up_surfaces]; rewrite ?Hdom; done.
  - apply (owned_ok_shrink s); [done|done|done|]. cbn. intros h0 [<-|Hs0]%lookup_insert_is_Some'; [by rewrite Hw|done].
  - split; unfold surf; cbn [m_windows m_colorbuffers surfaces buffers s_nextHandle next_address up_windows up_surfaces].
    + intros h0 w0 k0 [[<- [= <- <-]]|[Hne Hw0]]%lookup_insert_Some.
      * rewrite lookup_insert_eq. cbn. rewrite Hcore. eexists _, _, _, _. split; [reflexivity|]. intros _.
        split; [lia|]. intros r0 Hr0. congruence.
      * destruct (P1 _ _ _ Hw0) as (e0 & a0 & wd0 & ht0 & Hs0 & Hk0). exists e0, a0, wd0, ht0.
        rewrite lookup_insert_ne by (intros <-; by apply Hne, (P2 _ _ _ _ _ Hw Hw0)). done.
    + intros h1 h2 w0 k1 k2 [[E1 [= E2 E3]]|[N1 H1]]%lookup_insert_Some [[E4 [= E5 E6]]|[N2 H2]]%lookup_insert_Some;
        subst; eauto.
    + exact P3.
    + intros w0 e0 a0 wd0 ht0. destruct (decide (w0 = w)) as [->|Hne].
      * rewrite lookup_insert_eq. cbn. rewrite Hcore. intros [= <- <- <- <-]. by exists b.
      * rewrite lookup_insert_ne by done. apply P4.
    + intros w0. destruct (decide (w0 = w)) as [->|Hne]; [intros _; apply P5; unfold surf; by rewrite Hy|].
      rewrite lookup_insert_ne by done. apply P5.
    + exact P6.
Qed.

Lemma surf_bind c ty w (m : gmap Z WindowSurface) w' : core <$> alter (bind c ty) w m !! w' = core <$> m !! w'.
Proof.
  destruct (decide (w' = w)) as [->|Hne]; [|by rewrite lookup_alter_ne].
  rewrite lookup_alter_eq. destruct (m !! w); [|done]. by destruct ty.
Qed.

Lemma bindContext_ok n s t i c d r ok : renderer_ok n s → threads s !! t = Some i →
  ∃ s' ret i', bindContext t c d r ok s = Val s' ret ∧ renderer_ok n s' ∧ m_colorbuffers s' = m_colorbuffers s ∧
    m_contexts s' = m_contexts s ∧ m_windows s' = m_windows s ∧ threads s' = <[t := i']> (threads s) ∧
    m_contextSet i' = m_contextSet i ∧ m_windowSet i' = m_windowSet i.
Proof.
  intros Hok Hi. unfold bindContext. run_m.
  destruct (bind_objects c d r s) as [[[ctx draw] read]|].
  2: { exists s, false, i. by rewrite (insert_id _ _ _ Hi). }
  destruct ok; cbn [negb].
  2: { eexists _, _, i. split; [reflexivity|]. cbn [threads add_log]. rewrite (insert_id _ _ _ Hi).
       split_and!; try done. apply (tables_shrink_ok n s); try done. apply (owned_ok_shrink s); try done. apply Hok. }
  unfold thread_info, set_thread_info, bind_surface. run_m. cbn [threads add_log]. rewrite Hi.
  assert (Hfin : ∀ s1, s_nextHandle s1 = s_nextHandle s → m_contexts s1 = m_contexts s → m_windows s1 = m_windows s →
    m_colorbuffers s1 = m_colorbuffers s → (∀ w, surf s1 w = surf s w) → buffers s1 = buffers s →
    next_address s1 = next_address s → threads s1 = threads s →
    let i' := mkInfo ctx draw read (m_contextSet i) (m_windowSet i) in
    renderer_ok n (up_threads (<[t := i']> (threads s1)) s1)).
  { intros s1 E1 E2 E3 E4 E5 E6 E7 E8 i'. apply (tables_shrink_ok n s); try done; cbn; try congruence.
    - eapply (owned_ok_update s _ t i i'); [apply Hok|done|cbn; congruence|..]; cbn; rewrite ?E2, ?E3; by right.
    - by rewrite E2.
    - by rewrite E3. }
  set (dr := match draw, read with None, None => (currDrawSurf i, currReadSurf i) | _, _ => (draw, read) end).
  destruct dr as [[d0|] [r0|]].
  1: destruct (decide (d0 ≠ r0)).
  all: eexists _, _, (mkInfo ctx draw read (m_contextSet i) (m_windowSet i)); split; [reflexivity|];
    split; [apply Hfin; try done; intros w; unfold surf; cbn; by rewrite ?surf_bind|done].
Qed.

Lemma log_ok n s c : renderer_ok n s → renderer_ok n (add_log c s).
Proof.
  intros Hok. apply (tables_shrink_ok n s); try done. apply (owned_ok_shrink s); try done. apply Hok.
Qed.

Lemma flush_ok n s t x ok : renderer_ok n s → is_Some (threads s !! t) →
  ∃ s' ret, flushWindowSurfaceColorBuffer t x ok s = Val s' ret ∧ renderer_ok n s' ∧
    m_colorbuffers s' = m_colorbuffers s.
Proof.
  intros Hok [i Hi]. unfold flushWindowSurfaceColorBuffer. run_m.
  destruct (m_windows s !! x) as [[w k]|]; [|by eexists _, _].
  destruct (surfaces s !! w) as [y|] eqn:Hy; [|by eexists _, _]. unfold flushColorBuffer.
  destruct (mAttachedColorBuffer y) as [a|] eqn:Ha; [|by eexists _, _].
  case_decide; [by eexists _, _|].
  destruct (pok_size _ (rok_objects _ _ Hok) w (mSurface y) a (mWidth y) (mHeight y)) as (b & Hb & _).
  { unfold surf. rewrite Hy. cbn. unfold core. by rewrite Ha. }
  unfold blitFromCurrentReadBuffer, thread_info. run_m. rewrite Hb.
  case_decide; [by eexists _, _|]. destruct (mDrawContext y); [|by eexists _, _]. destruct ok; [|by eexists _, _].
  rewrite Hi. destruct (currContext i); [|by eexists _, _]. eexists _, _. split; [reflexivity|]. split; [by apply log_ok|done].
Qed.

Lemma updateColorBuffer_ok n s h x y w ht ok : renderer_ok n s →
  ∃ s' ret, updateColorBuffer h x y w ht ok s = Val s' ret ∧ renderer_ok n s' ∧ m_colorbuffers s' = m_colorbuffers s.
Proof.
  intros Hok. unfold updateColorBuffer, with_buffer, subUpdate. run_m.
  destruct (m_colorbuffers s !! h) as [r|] eqn:Hr; [|by eexists _, _].
  destruct (pok_cb _ (rok_objects _ _ Hok) _ _ Hr) as [b ->]. destruct ok; [|by eexists _, _].
  eexists _, _. split; [reflexivity|]. split; [by apply log_ok|done].
Qed.

(** *** Threads *)

(** The number of references to [h]; a buffer that is gone has none. *)
Definition refs (h : Z) (s : Renderer) : nat :=
  match m_colorbuffers s !! h with Some r => Z.to_nat (refcount r) | None => 0 end.

(** How many of the windows [l] have [h] as their colour buffer. *)
Definition attached (h : Z) (l : list Z) (s : Renderer) : nat :=
  length (filter (λ x, snd <$> m_windows s !! x = Some h) l).

Lemma refs_dropped h k m : (∀ r, m !! k = Some r → 1 ≤ refcount r) →
  (match dropped k m !! h with Some r => Z.to_nat (refcount r) | None => 0 end =
   match m !! h with Some r => Z.to_nat (refcount r) | None => 0 end - (if decide (k = h) then 1 else 0))%nat.
Proof.
  intros Hc. unfold dropped. destruct (m !! k) as [r|] eqn:Hk.
  - specialize (Hc _ eq_refl). destruct (decide (k = h)) as [->|Hne].
    + rewrite Hk. case_decide as H1; [rewrite lookup_delete_eq; lia|rewrite lookup_insert_eq; cbn; lia].
    + case_decide; [rewrite lookup_delete_ne by done|rewrite lookup_insert_ne by done]; lia.
  - case_decide as E; [subst; rewrite Hk; lia|lia].
Qed.

Lemma delete_window_ok n s x : renderer_ok n s → renderer_ok n (up_windows (delete x (m_windows s)) s).
Proof.
  intros Hok. apply (tables_shrink_ok n s); try done; [|apply delete_subseteq].
  apply (owned_ok_shrink s); [apply Hok|done|done|]. cbn. by intros h [_ Hs]%lookup_delete_is_Some.
Qed.

Lemma drain_window_ok n s x : renderer_ok n s → n ≤ max_handle →
  ∃ s', drain_window x s = Val s' tt ∧ renderer_ok n s' ∧ threads s' = threads s ∧ m_contexts s' = m_contexts s ∧
    m_windows s' = delete x (m_windows s) ∧ ∀ h, h ≠ 0 → refs h s' = (refs h s - attached h [x] s)%nat.
Proof.
  intros Hok Hn. unfold drain_window. run_m.
  assert (Hatt : ∀ h, attached h [x] s = if decide (snd <$> m_windows s !! x = Some h) then 1%nat else 0%nat).
  { intros h. unfold attached. rewrite filter_cons, filter_nil. by case_decide. }
  destruct (m_windows s !! x) as [[w k]|] eqn:Hw.
  2: { exists s. rewrite delete_id by done. split_and!; try done. intros h _. rewrite Hatt, decide_False by done. lia. }
  destruct (decide (k = 0)) as [->|Hk].
  - eexists. split; [reflexivity|]. split; [by apply delete_window_ok|]. split_and!; try done.
    intros h Hh. rewrite Hatt. unfold refs. cbn [fmap option_fmap option_map snd m_colorbuffers up_windows].
    rewrite decide_False by congruence. lia.
  - destruct (drop_reference_ok n s k Hok Hn) as [-> Hok1]. eexists. split; [reflexivity|].
    split; [by apply delete_window_ok|]. split_and!; try done. intros h Hh. rewrite Hatt. unfold refs.
    cbn [fmap option_fmap option_map snd m_colorbuffers up_windows up_colorbuffers]. rewrite refs_dropped.
    + destruct (decide (k = h)) as [->|]; [by rewrite decide_True|by rewrite decide_False by congruence].
    + intros r Hr. by apply (hok_count _ _ (rok_handles _ _ Hok) _ _ Hr).
Qed.

Lemma drain_windows_ok n l s : renderer_ok n s → n ≤ max_handle → NoDup l →
  ∃ s', for_each l drain_window s = Val s' tt ∧ renderer_ok n s' ∧ threads s' = threads s ∧
    m_contexts s' = m_contexts s ∧ (∀ x, m_windows s' !! x = if decide (x ∈ l) then None else m_windows s !! x) ∧
    ∀ h, h ≠ 0 → refs h s' = (refs h s - attached h l s)%nat.
Proof.
  intros Hok Hn Hl. revert s Hok. induction Hl as [|x l Hx _ IH]; intros s Hok.
  { exists s. split; [done|]. split; [done|]. split; [done|]. split; [done|].
    split; [intros h; by rewrite decide_False by set_solver|intros h _; unfold attached; cbn; lia]. }
  destruct (drain_window_ok n s x Hok Hn) as (s1 & H1 & Hok1 & Ht1 & Hc1 & Hw1 & Hr1).
  destruct (IH s1 Hok1) as (s2 & H2 & Hok2 & Ht2 & Hc2 & Hw2 & Hr2).
  exists s2. cbn [for_each]. rewrite (bind_val _ _ _ _ _ H1). split; [done|]. split; [done|].
  split; [congruence|]. split; [congruence|]. split.
  - intros y. rewrite Hw2, Hw1. destruct (decide (y = x)) as [->|Hne].
    + rewrite lookup_delete_eq, (decide_True (P := x ∈ x :: l)) by set_solver. by case_decide.
    + rewrite lookup_delete_ne by done. destruct (decide (y ∈ l)); [rewrite decide_True by set_solver|rewrite decide_False by set_solver]; done.
  - intros h Hh. rewrite Hr2, Hr1 by done. unfold attached. rewrite Hw1.
    assert (Hf : filter (λ x0, snd <$> delete x (m_windows s) !! x0 = Some h) l =
                 filter (λ x0, snd <$> m_windows s !! x0 = Some h) l).
    { clear -Hx. induction l as [|y l IH]; [done|]. rewrite !filter_cons.
      rewrite lookup_delete_ne by set_solver. rewrite IH by set_solver. done. }
    rewrite Hf. rewrite !filter_cons, filter_nil. case_decide; cbn; lia.
Qed.

Lemma delete_contexts_run l s : for_each l (λ h, modify (λ s, up_contexts (delete h (m_contexts s)) s)) s =
  Val (up_contexts (foldl (λ m h, delete h m) (m_contexts s) l) s) tt.
Proof.
  revert s. induction l as [|h l IH]; intros s; [by destruct s|]. cbn [for_each foldl]. run_m. by rewrite IH.
Qed.

Lemma foldl_delete_lookup {A} (m : gmap Z A) l h :
  foldl (λ m h, delete h m) m l !! h = if decide (h ∈ l) then None else m !! h.
Proof.
  revert m. induction l as [|x l IH]; intros m; cbn [foldl]; [by rewrite decide_False by set_solver|].
  rewrite IH. destruct (decide (h = x)) as [->|Hne].
  - rewrite (decide_True (P := x ∈ x :: l)) by set_solver. rewrite lookup_delete_eq. by case_decide.
  - rewrite lookup_delete_ne by done.
    destruct (decide (h ∈ l)); [rewrite decide_True by set_solver|rewrite decide_False by set_solver]; done.
Qed.

Lemma elem_of_in_order X h : h ∈ in_order X ↔ h ∈ X.
Proof. unfold in_order. by rewrite merge_sort_Permutation, elem_of_elements. Qed.
Lemma NoDup_in_order X : NoDup (in_order X).
Proof. unfold in_order. rewrite merge_sort_Permutation. apply NoDup_elements. Qed.

Lemma drainRenderContext_ok n s t i : renderer_ok n s → threads s !! t = Some i →
  ∃ s' i', drainRenderContext t s = Val s' tt ∧ renderer_ok n s' ∧ m_colorbuffers s' = m_colorbuffers s ∧
    m_windows s' = m_windows s ∧ threads s' = <[t := i']> (threads s) ∧ m_windowSet i' = m_windowSet i ∧
    m_contextSet i' = ∅ ∧ (∀ h, m_contexts s' !! h = if decide (h ∈ m_contextSet i) then None else m_contexts s !! h).
Proof.
  intros Hok Hi. unfold drainRenderContext, thread_info, set_thread_info. run_m. rewrite Hi.
  destruct (decide (m_contextSet i = ∅)) as [He|He].
  { exists s, i. rewrite (insert_id _ _ _ Hi). split_and!; try done. intros h. rewrite He.
    by rewrite decide_False by set_solver. }
  rewrite delete_contexts_run. cbn [threads up_contexts].
  set (i' := mkInfo (currContext i) (currDrawSurf i) (currReadSurf i) ∅ (m_windowSet i)).
  assert (Hlook : ∀ h, foldl (λ m h, delete h m) (m_contexts s) (in_order (m_contextSet i)) !! h =
    if decide (h ∈ m_contextSet i) then None else m_contexts s !! h).
  { intros h. rewrite foldl_delete_lookup. by rewrite (decide_ext _ _ _ _ (elem_of_in_order _ h)). }
  eexists _, i'. split; [reflexivity|]. split; [|done].
  apply (tables_shrink_ok n s); try done.
  - eapply (owned_ok_update s _ t i i'); [apply Hok|done|reflexivity|..]; cbn; intros h Hs; [|by right].
    rewrite Hlook in Hs. case_decide; [by destruct Hs|by right].
  - cbn. apply map_subseteq_spec. intros h v. rewrite Hlook. by case_decide.
Qed.

Lemma drainWindowSurface_ok n s t i : renderer_ok n s → n ≤ max_handle → threads s !! t = Some i →
  ∃ s' i', drainWindowSurface t s = Val s' tt ∧ renderer_ok n s' ∧ m_contexts s' = m_contexts s ∧
    threads s' = <[t := i']> (threads s) ∧ m_contextSet i' = m_contextSet i ∧ m_windowSet i' = ∅ ∧
    (∀ h, m_windows s' !! h = if decide (h ∈ m_windowSet i) then None else m_windows s !! h) ∧
    (∀ h, h ≠ 0 → refs h s' = (refs h s - attached h (in_order (m_windowSet i)) s)%nat).
Proof.
  intros Hok Hn Hi. unfold drainWindowSurface, thread_info, set_thread_info. run_m. rewrite Hi.
  destruct (decide (m_windowSet i = ∅)) as [He|He].
  { exists s, i. rewrite (insert_id _ _ _ Hi), He. split; [done|]. split; [done|]. split; [done|]. split; [done|].
    split; [done|]. split; [done|]. split; [intros h; by rewrite decide_False by set_solver|].
    intros h _. change (in_order ∅) with (@nil Z). unfold attached. cbn. lia. }
  destruct (drain_windows_ok n (in_order (m_windowSet i)) s Hok Hn (NoDup_in_order _))
    as (s1 & -> & Hok1 & Ht1 & Hc1 & Hw1 & Hr1).
  set (i' := mkInfo (currContext i) (currDrawSurf i) (currReadSurf i) (m_contextSet i) ∅).
  assert (Hlook : ∀ h, m_windows s1 !! h = if decide (h ∈ m_windowSet i) then None else m_windows s !! h).
  { intros h. rewrite Hw1. by rewrite (decide_ext _ _ _ _ (elem_of_in_order _ h)). }
  eexists _, i'. split; [reflexivity|]. rewrite Ht1. split; [|done].
  apply (tables_shrink_ok n s1); try done.
  eapply (owned_ok_update s1 _ t i i'); [apply Hok1|by rewrite Ht1|by rewrite <- Ht1|..]; cbn; intros h Hs; [by right|].
  right. split; [done|]. rewrite Hlook in Hs. case_decide; [by destruct Hs|done].
Qed.

Lemma render_thread_exit_ok n s t i ok : renderer_ok n s → n ≤ max_handle → threads s !! t = Some i →
  ∃ s', render_thread_exit t ok s = Val s' tt ∧ renderer_ok n s' ∧ threads s' = delete t (threads s) ∧
    (∀ h, m_contexts s' !! h = if decide (h ∈ m_contextSet i) then None else m_contexts s !! h) ∧
    (∀ h, m_windows s' !! h = if decide (h ∈ m_windowSet i) then None else m_windows s !! h) ∧
    (∀ h, h ≠ 0 → refs h s' = (refs h s - attached h (in_order (m_windowSet i)) s)%nat).
Proof.
  intros Hok Hn Hi. unfold render_thread_exit.
  destruct (bindContext_ok n s t i 0 0 0 ok Hok Hi) as (s1 & b & i1 & H1 & Hok1 & Hb1 & Hc1 & Hw1 & Ht1 & Hcs1 & Hws1).
  rewrite (bind_val _ _ _ _ _ H1).
  assert (Hi1 : threads s1 !! t = Some i1) by (rewrite Ht1; apply lookup_insert_eq).
  destruct (drainWindowSurface_ok n s1 t i1 Hok1 Hn Hi1) as (s2 & i2 & H2 & Hok2 & Hc2 & Ht2 & Hcs2 & Hws2 & Hw2 & Hr2).
  rewrite (bind_val _ _ _ _ _ H2).
  assert (Hi2 : threads s2 !! t = Some i2) by (rewrite Ht2; apply lookup_insert_eq).
  destruct (drainRenderContext_ok n s2 t i2 Hok2 Hi2) as (s3 & i3 & H3 & Hok3 & Hb3 & Hw3 & Ht3 & Hws3 & Hcs3 & Hc3).
  rewrite (bind_val _ _ _ _ _ H3). unfold render_thread_end. run_m. eexists. split; [reflexivity|].
  assert (Hth : delete t (threads s3) = delete t (threads s)) by (by rewrite Ht3, Ht2, Ht1, !delete_insert_eq).
  split; [|split; [exact Hth|]].
  - apply (tables_shrink_ok n s3); try done. destruct Hok3 as [_ [Ho1 Ho2] _].
    assert (Hne : ∀ t' j h, threads s3 !! t' = Some j → h ∈ m_contextSet j ∨ h ∈ m_windowSet j → t' ≠ t).
    { intros t' j h Hj Hin ->. rewrite Ht3, lookup_insert_eq in Hj. injection Hj as <-. set_solver. }
    split; cbn; intros h Hs; [destruct (Ho1 h Hs) as (t' & j & Hj & Hin)|destruct (Ho2 h Hs) as (t' & j & Hj & Hin)];
      exists t', j; rewrite lookup_delete_ne by (apply not_eq_sym; eauto); done.
  - cbn. split; [|split].
    + intros h. by rewrite Hc3, Hcs2, Hc2, Hcs1, Hc1.
    + intros h. by rewrite Hw3, Hw2, Hws1, Hw1.
    + intros h Hh. transitivity (refs h s2); [unfold refs; cbn; by rewrite Hb3|]. rewrite Hr2 by done.
      unfold refs, attached. by rewrite Hb1, Hws1, Hw1.
Qed.

Lemma render_thread_start_ok n s t : renderer_ok n s → threads s !! t = None →
  ∃ s', render_thread_start t s = Val s' tt ∧ renderer_ok n s' ∧ m_colorbuffers s' = m_colorbuffers s.
Proof.
  intros Hok Ht. eexists. split; [reflexivity|]. split; [|done]. apply (tables_shrink_ok n s); try done.
  destruct Hok as [_ [Ho1 Ho2] _]. split; cbn; intros h Hs;
    [destruct (Ho1 h Hs) as (t' & j & Hj & Hin)|destruct (Ho2 h Hs) as (t' & j & Hj & Hin)];
    exists t', j; rewrite lookup_insert_ne by congruence; done.
Qed.

(** *** One call *)

(** What a call does to the references of a colour buffer. *)
Definition refs_after (h t : Z) (c : guest_call) (ret : Z) (s : Renderer) : nat :=
  match c with
  | g_create_buffer _ _ _ _ _ => if decide (ret = h) then 1 else refs h s
  | g_open_buffer h' => if decide (h' = h ∧ refs h s ≠ 0%nat) then refs h s + 1 else refs h s
  | g_close_buffer h' => if decide (h' = h) then refs h s - 1 else refs h s
  | g_exit _ | g_drain_windows =>
      match threads s !! t with
      | Some i => refs h s - attached h (in_order (m_windowSet i)) s
      | None => refs h s
      end
  | _ => refs h s
  end.

Lemma on_renderer_val {A} (none : A) m s s' a : m s = Val s' a → on_renderer none m (Some s) = Val (Some s') a.
Proof. unfold on_renderer. by intros ->. Qed.

(** An operation, and a continuation that only computes the result. *)
Lemma on_renderer_then {A B} (none : A) m (f : A → B) s s' a :
  m s = Val s' a → (on_renderer none m ≫= λ x, mret (f x)) (Some s) = Val (Some s') (f a).
Proof. intros H. by rewrite (bind_val _ _ _ _ _ (on_renderer_val none _ _ _ _ H)). Qed.
Lemma on_renderer_map {A B} (none : B) (m : M Renderer A) (f : A → B) s s' a :
  m s = Val s' a → on_renderer none (m ≫= λ x, mret (f x)) (Some s) = Val (Some s') (f a).
Proof. intros H. apply on_renderer_val. by rewrite (bind_val _ _ _ _ _ H). Qed.

Lemma refs_same h s s' : m_colorbuffers s' = m_colorbuffers s → refs h s' = refs h s.
Proof. unfold refs. by intros ->. Qed.

Section one_call.
Variables (n : Z) (s : Renderer).
Hypothesis Hok : renderer_ok n s.
Hypothesis Hn : n < max_handle.

Definition call_ok (t : Z) (c : guest_call) : Prop :=
  ∃ s' ret, guest_do t c (Some s) = Val (Some s') ret ∧ renderer_ok (n + 1) s' ∧
    ∀ h, h ≠ 0 → refs h s' = refs_after h t c ret s.

(** Calls that do not touch the colour buffers' counts. *)
Lemma call_ok_same t c s' ret : guest_do t c (Some s) = Val (Some s') ret → renderer_ok n s' ∨ renderer_ok (n + 1) s' →
  m_colorbuffers s' = m_colorbuffers s → (∀ h, refs_after h t c ret s = refs h s) → call_ok t c.
Proof.
  intros H Hs Hb Hr. exists s', ret. split; [done|]. split.
  - destruct Hs as [Hs|Hs]; [|done]. eapply renderer_ok_mono; [|exact Hs]. lia.
  - intros h _. rewrite Hr. by apply refs_same.
Qed.

Lemma call_ok_objects t c : can_call t c s →
  match c with
  | g_start | g_create_context _ _ _ _ | g_destroy_context _ | g_create_surface _ _ _ _ | g_destroy_surface _ => call_ok t c
  | _ => True
  end.
Proof.
  intros Hcall. destruct c; try done; cbn [can_call] in Hcall.
  - destruct (render_thread_start_ok n s t Hok Hcall) as (s' & H & Hok' & Hb).
    eapply call_ok_same; [by eapply (on_renderer_then tt _ (λ _, 0)), H|by left|done|done].
  - destruct (createRenderContext_ok n s t (i32 config) share (bool_decide (glVersion = 2 ∨ glVersion = 3)) context Hok Hn Hcall)
      as (s' & ret & H & Hok' & Hb).
    eapply call_ok_same; [by eapply on_renderer_val, H|by right|done|done].
  - destruct (DestroyRenderContext_ok n s t h Hok Hcall) as (s' & H & Hok' & Hb).
    eapply call_ok_same; [by eapply (on_renderer_then tt _ (λ _, 0)), H|by left|done|done].
  - destruct (createWindowSurface_ok n s t (i32 config) (i32 width) (i32 height) pbuffer Hok Hn Hcall) as (s' & ret & H & Hok' & Hb).
    eapply call_ok_same; [by eapply on_renderer_val, H|by right|done|done].
  - destruct (DestroyWindowSurface_ok n s t h Hok Hcall) as (s' & H & Hok' & Hb).
    eapply call_ok_same; [by eapply (on_renderer_then tt _ (λ _, 0)), H|by left|done|done].
Qed.

Lemma call_ok_use t c : can_call t c s →
  match c with
  | g_set_buffer _ _ _ | g_flush _ _ | g_make_current _ _ _ _ | g_update_buffer _ _ _ _ _ _ => call_ok t c
  | _ => True
  end.
Proof.
  intros Hcall. destruct c; try done; cbn [can_call] in Hcall.
  - destruct (setWindowSurfaceColorBuffer_ok n s surface h pbuffer Hok) as (s' & ret & H & Hok' & Hb).
    assert (H' : (setWindowSurfaceColorBuffer surface h pbuffer ≫= λ _, mret tt) s = Val s' tt)
      by (by rewrite (bind_val _ _ _ _ _ H)).
    eapply call_ok_same; [by eapply (on_renderer_then tt _ (λ _, 0)), H'|by left|done|done].
  - destruct (flush_ok n s t surface current_ok Hok Hcall) as (s' & ret & H & Hok' & Hb).
    eapply call_ok_same; [by eapply (on_renderer_map (-1) _ (λ b : bool, if b then 0 else -1)), H|by left|done|done].
  - destruct Hcall as [i Hi].
    destruct (bindContext_ok n s t i context draw read current_ok Hok Hi) as (s' & ret & i' & H & Hok' & Hb & _).
    eapply call_ok_same; [by eapply (on_renderer_map 0 _ (λ b : bool, if b then 1 else 0)), H|by left|done|done].
  - destruct (updateColorBuffer_ok n s h x y w ht ok Hok) as (s' & ret & H & Hok' & Hb).
    eapply call_ok_same; [by eapply (on_renderer_map (-1) _ (λ _, 0)), H|by left|done|done].
Qed.

Lemma call_ok_exit t i ok : threads s !! t = Some i → call_ok t (g_exit ok).
Proof.
  intros Hi. destruct (render_thread_exit_ok n s t i ok Hok ltac:(lia) Hi) as (s' & H & Hok' & _ & _ & _ & Hr).
  exists s', 0. split; [by eapply (on_renderer_then tt _ (λ _, 0)), H|].
  split; [eapply renderer_ok_mono; [|exact Hok']; lia|]. cbn [refs_after]. by rewrite Hi.
Qed.

Lemma call_ok_drain t i : threads s !! t = Some i → call_ok t g_drain_windows ∧ call_ok t g_drain_contexts.
Proof.
  intros Hi. split.
  - destruct (drainWindowSurface_ok n s t i Hok ltac:(lia) Hi) as (s' & i' & H & Hok' & _ & _ & _ & _ & _ & Hr).
    exists s', 0. split; [by eapply (on_renderer_then tt _ (λ _, 0)), H|].
    split; [eapply renderer_ok_mono; [|exact Hok']; lia|]. cbn [refs_after]. by rewrite Hi.
  - destruct (drainRenderContext_ok n s t i Hok Hi) as (s' & i' & H & Hok' & Hb & _).
    eapply call_ok_same; [by eapply (on_renderer_then tt _ (λ _, 0)), H|by left|done|done].
Qed.

(** A thread that owns nothing may go. *)
Lemma call_ok_end t i : threads s !! t = Some i → m_contextSet i = ∅ → m_windowSet i = ∅ → call_ok t g_end.
Proof.
  intros Hi Hc Hw. pose proof (on_renderer_then tt (render_thread_end t) (λ _, 0) s _ tt eq_refl) as H.
  eapply call_ok_same; [exact H|left|done|done].
  apply (tables_shrink_ok n s); try done. destruct Hok as [_ [Ho1 Ho2] _].
  assert (∀ t' j h, threads s !! t' = Some j → h ∈ m_contextSet j ∨ h ∈ m_windowSet j → t' ≠ t) as Hne.
  { intros t' j h Hj Hin ->. rewrite Hi in Hj. injection Hj as <-. set_solver. }
  split; cbn; intros h Hs; [destruct (Ho1 h Hs) as (t' & j & Hj & Hin)|destruct (Ho2 h Hs) as (t' & j & Hj & Hin)];
    exists t', j; rewrite lookup_delete_ne by (apply not_eq_sym; eauto); done.
Qed.

Lemma call_ok_create t w h f ok im : call_ok t (g_create_buffer w h f ok im).
Proof.
  destruct (createColorBuffer_ok n s (i32 w) (i32 h) f ok im Hok Hn) as (s' & ret & H & Hok' & Hb & _).
  exists s', ret. split; [by eapply on_renderer_val, H|]. split; [done|]. cbn [refs_after]. intros h0 Hh.
  unfold refs. rewrite Hb. destruct (decide (ret = h0)) as [->|Hne].
  - by rewrite decide_False, lookup_insert_eq by done.
  - case_decide; [done|]. by rewrite lookup_insert_ne by done.
Qed.

Lemma call_ok_open t h : call_ok t (g_open_buffer h).
Proof.
  destruct (openColorBuffer_ok n s h Hok Hn) as (s' & ret & H & Hok' & Hb).
  exists s', ret. split; [by eapply on_renderer_val, H|]. split; [done|]. cbn [refs_after]. intros h0 _.
  unfold refs. rewrite Hb. destruct (m_colorbuffers s !! h) as [r|] eqn:Hr.
  - assert (Hc := hok_count _ _ (rok_handles _ _ Hok) _ _ Hr). destruct (decide (h = h0)) as [->|Hne].
    + rewrite lookup_insert_eq, Hr. cbn [refcount]. rewrite decide_True by (split; [done|lia]). lia.
    + rewrite lookup_insert_ne by done. rewrite decide_False; [done|]. by intros [? _].
  - rewrite decide_False; [done|]. intros [-> Hz]. by rewrite Hr in Hz.
Qed.

Lemma call_ok_close t h : call_ok t (g_close_buffer h).
Proof.
  destruct (drop_reference_ok n s h Hok ltac:(lia)) as [H Hok'].
  eexists _, _. split; [by eapply (on_renderer_then tt _ (λ _, 0)), H|].
  split; [eapply renderer_ok_mono; [|exact Hok']; lia|]. cbn [refs_after].
  intros h0 _. unfold refs. cbn [m_colorbuffers up_colorbuffers]. rewrite refs_dropped.
  - case_decide; lia.
  - intros r Hr. by apply (hok_count _ _ (rok_handles _ _ Hok) _ _ Hr).
Qed.

Lemma guest_do_ok t c : can_call t c s → call_ok t c.
Proof.
  intros Hcall. assert (H1 := call_ok_objects t c Hcall). assert (H2 := call_ok_use t c Hcall).
  destruct c; try done; [| | | |apply call_ok_create|apply call_ok_open|apply call_ok_close].
  - destruct Hcall as [i Hi]. by apply (call_ok_exit t i).
  - destruct Hcall as [i Hi]. by apply (call_ok_drain t i).
  - destruct Hcall as [i Hi]. by apply (call_ok_drain t i).
  - cbn in Hcall. destruct (threads s !! t) as [i|] eqn:Hi; [|done]. destruct Hcall. by apply (call_ok_end t i).
Qed.
End one_call.

Lemma guest_run_ok cs s s' n : renderer_ok n s → n + Z.of_nat (length cs) ≤ max_handle →
  guest_run cs s s' → renderer_ok (n + Z.of_nat (length cs)) s'.
Proof.
  intros Hok Hn Hr. revert n Hok Hn.
  induction Hr as [s|t c cs s s1 s2 ret Hcall Hdo _ IH]; intros n Hok Hn; [by rewrite Z.add_0_r|].
  cbn [length] in *. destruct (guest_do_ok n s Hok ltac:(lia) t c Hcall) as (s1' & ret' & Hdo' & Hok1 & _).
  rewrite Hdo in Hdo'. injection Hdo' as <- <-.
  replace (n + Z.of_nat (S (length cs))) with (n + 1 + Z.of_nat (length cs)) by lia. apply IH; [done|lia].
Qed.

(** ** genHandle in general *)

Definition taken (s : Renderer) : gset Z := {[0]} ∪ (dom (m_contexts s) ∪ dom (m_windows s)).

Lemma elem_of_taken s h :
  h ∈ taken s ↔ h = 0 ∨ is_Some (m_contexts s !! h) ∨ is_Some (m_windows s !! h).
Proof. unfold taken. rewrite !elem_of_union, elem_of_singleton, !elem_of_dom. tauto. Qed.

(** The values the loop tries from [x] on. *)
Definition tried (x : Z) (fuel : nat) : list Z := (λ k, u32 (x + 1 + k)) <$> seqZ 0 (Z.of_nat fuel).

Lemma u32_add_u32 x k : u32 (u32 x + k) = u32 (x + k).
Proof. unfold u32, wrap. by rewrite Z.add_mod_idemp_l. Qed.

Lemma tried_S x fuel : tried x (S fuel) = u32 (x + 1) :: tried (u32 (x + 1)) fuel.
Proof.
  unfold tried. rewrite seqZ_cons by lia. cbn [fmap list_fmap]. f_equal; [f_equal; lia|].
  replace (Z.pred (Z.of_nat (S fuel))) with (Z.of_nat fuel) by lia. change (Z.succ 0) with (1 + 0).
  rewrite <- (fmap_add_seqZ 1 0), <- list_fmap_compose. apply list_fmap_ext. intros _ k _. cbn.
  rewrite <- !Z.add_assoc, u32_add_u32. f_equal. lia.
Qed.

Lemma NoDup_tried x fuel : Z.of_nat fuel ≤ 4294967296 → NoDup (tried x fuel).
Proof.
  intros Hf. unfold tried. apply NoDup_fmap_2_strong; [|apply NoDup_seqZ].
  intros a b Ha%elem_of_seqZ Hb%elem_of_seqZ. unfold u32, wrap. change (2 ^ 32) with 4294967296.
  intros E. Z.div_mod_to_equations. lia.
Qed.

Lemma genHandle_loop_spec fuel s :
  (∃ id, genHandle_loop fuel s = Val (up_next id s) id ∧ (id ∉ taken s) ∧ is_u32 id) ∨
  (genHandle_loop fuel s = Ub ∧ Forall (λ id, id ∈ taken s) (tried (s_nextHandle s) fuel)).
Proof.
  revert s. induction fuel as [|fuel IH]; intros s; [right; split; [done|constructor]|].
  cbn [genHandle_loop]. run_m. rewrite tried_S.
  destruct (decide _) as [Hd|Hd].
  - destruct (IH (up_next (u32 (s_nextHandle s + 1)) s)) as [(id & H & Hnt & Hu)|[H Hall]].
    + left. exists id. by rewrite H.
    + right. split; [done|]. constructor; [by apply elem_of_taken|done].
  - left. exists (u32 (s_nextHandle s + 1)). split; [done|]. split; [by rewrite elem_of_taken|apply u32_range].
Qed.

Lemma size_taken s : (size (taken s) ≤ size (m_contexts s) + size (m_windows s) + 1)%nat.
Proof.
  unfold taken. rewrite <- !size_dom. pose proof (size_union_alt (C := gset Z)) as Hu.
  rewrite Hu, size_singleton.
  pose proof (subseteq_size (dom (m_windows s) ∖ dom (m_contexts s)) (dom (m_windows s)) ltac:(set_solver)).
  pose proof (subseteq_size ((dom (m_contexts s) ∪ dom (m_windows s)) ∖ {[0]}) (dom (m_contexts s) ∪ dom (m_windows s)) ltac:(set_solver)) as H1.
  rewrite Hu in H1. lia.
Qed.

(** ** Properties *)


(** C19: The life of a colour buffer.  In any interleaving of fewer than 2^32-1
    guest calls, a buffer is in the table exactly while it has references; creating
    gives it one, opening adds one if it is alive, closing takes one, and the exit of
    a render thread, at once or in the critical sections it consists of, takes one for
    every window surface of that thread it is attached to, although attaching it gave it none; no other call changes the count. *)
Theorem colorbuffer_refcount configs cs s t c s' ret h :
  Z.of_nat (length cs) < max_handle → guest_run cs (renderer_new configs) s →
  can_call t c s → guest_do t c (Some s) = Val (Some s') ret → h ≠ 0 →
  refs h s' = refs_after h t c ret s ∧ (is_Some (m_colorbuffers s' !! h) ↔ (0 < refs h s')%nat).
Proof.
  intros Hlen Hrun Hcall Hdo Hh. assert (Hok := guest_run_ok cs (renderer_new configs) s 0 (renderer_new_ok configs) ltac:(lia) Hrun).
  destruct (guest_do_ok _ s Hok ltac:(lia) t c Hcall) as (s1 & ret1 & Hdo1 & Hok1 & Hr).
  rewrite Hdo in Hdo1. injection Hdo1 as <- <-. split; [by apply Hr|]. unfold refs.
  destruct (m_colorbuffers s' !! h) as [r|] eqn:E.
  - assert (Hc := hok_count _ _ (rok_handles _ _ Hok1) _ _ E). split; [lia|by eexists].
  - split; [by intros []|lia].
Qed.

(** Handle generation terminates.  Whatever the counter holds, also after it
    has wrapped around, and whatever handles are in use, as long as contexts and
    window surfaces leave one free: [genHandle] returns, changes nothing but the
    counter, and its result is non-zero and names no context and no window surface. *)
Theorem genHandle_terminates s : Z.of_nat (size (m_contexts s) + size (m_windows s)) < max_handle →
  ∃ id, genHandle s = Val (up_next id s) id ∧ 1 ≤ id < 4294967296 ∧
    m_contexts s !! id = None ∧ m_windows s !! id = None.
Proof.
  intros Hsz. unfold genHandle. run_m.
  destruct (genHandle_loop_spec (size (m_contexts s) + size (m_windows s) + 2) s) as [(id & H & Hnt & Hu)|[_ Hall]].
  - exists id. split; [done|]. rewrite elem_of_taken in Hnt. unfold is_u32 in Hu.
    split; [lia|]. rewrite !eq_None_not_Some. tauto.
  - exfalso. set (l := tried _ _) in Hall.
    assert (Hnd : NoDup l) by (apply NoDup_tried; lia).
    assert (Hlen : length l = (size (m_contexts s) + size (m_windows s) + 2)%nat)
      by (unfold l, tried; rewrite length_fmap, length_seqZ; lia).
    assert (Hsub : (list_to_set l : gset Z) ⊆ taken s).
    { intros h Hh%elem_of_list_to_set. rewrite List.Forall_forall in Hall. by apply Hall, list_elem_of_In. }
    apply subseteq_size in Hsub. rewrite size_list_to_set in Hsub by done.
    pose proof (size_taken s). lia.
Qed.

(** After the counter has wrapped around, a new colour buffer takes the handle of
    a live one: [genHandle] does not look at the colour buffers, and the old
    buffer's entry is overwritten with a count of one. *)
Theorem colorbuffer_handle_reused s r w h f ok im b :
  s_nextHandle s = max_handle → m_colorbuffers s !! 1 = Some r → m_contexts s !! 1 = None → m_windows s !! 1 = None →
  colorbuffer_create w h f ok im = Some b →
  ∃ s', createColorBuffer w h f ok im s = Val s' 1 ∧ m_colorbuffers s' !! 1 = Some (mkRef (next_address s) 1).
Proof.
  intros Hn Hr Hc Hw Hb. unfold createColorBuffer. rewrite Hb. unfold new_buffer, genHandle. run_m.
  rewrite Nat.add_comm. cbn [Nat.add genHandle_loop]. run_m. cbn [s_nextHandle m_contexts m_windows up_next].
  rewrite Hn. change (u32 (max_handle + 1)) with 0. rewrite decide_True by (by left). cbn [s_nextHandle m_contexts m_windows up_next].
  change (u32 (0 + 1)) with 1. rewrite Hc, Hw, decide_False by (intros [?|[[]|[]]]; [lia|done|done]).
  eexists. split; [reflexivity|]. cbn. apply lookup_insert_eq.
Qed.

(** ** Witnesses *)

Fixpoint guest_exec (cs : list (Z * guest_call)) (s : Renderer) : option Renderer :=
  match cs with
  | [] => Some s
  | (t, c) :: cs' =>
      if decide (can_call t c s) then
        match guest_do t c (Some s) with Val (Some s1) _ => guest_exec cs' s1 | _ => None end
      else None
  end.

Lemma guest_exec_run cs s s' : guest_exec cs s = Some s' → guest_run cs s s'.
Proof.
  revert s. induction cs as [|[t c] cs IH]; intros s; cbn; [intros [= <-]; constructor|].
  case_decide as Hc; [|done]. destruct (guest_do t c (Some s)) as [[s1|] a| |] eqn:E; [|done..].
  intros H. econstructor; [exact Hc|exact E|by apply IH].
Qed.

(** Two windows of thread 1 share a buffer that thread 2 has opened too. *)
Definition demo_calls : list (Z * guest_call) :=
  [(1, g_start); (2, g_start);
   (1, g_create_buffer 640 480 GL_RGBA true (Some 7));
   (1, g_create_surface 0 640 480 (Some 50)); (1, g_create_surface 0 320 200 (Some 51));
   (1, g_create_context 0 0 2 (Some 90)); (1, g_make_current 4 2 2 true);
   (1, g_set_buffer 2 1 (Some 52)); (1, g_set_buffer 3 1 (Some 53)); (2, g_open_buffer 1)].

Definition demo_renderer : Renderer := default (renderer_new 1) (guest_exec demo_calls (renderer_new 1)).

Lemma demo_run : guest_run demo_calls (renderer_new 1) demo_renderer.
Proof. apply guest_exec_run. vm_compute. reflexivity. Qed.


(** Thread 1 exits: the buffer is gone although thread 2 has not closed it. *)
Lemma colorbuffer_refcount_witness :
  refs 1 demo_renderer = 2%nat ∧
  ∃ s', guest_do 1 (g_exit true) (Some demo_renderer) = Val (Some s') 0 ∧
    refs 1 s' = 0%nat ∧ (is_Some (m_colorbuffers s' !! 1) ↔ (0 < refs 1 s')%nat).
Proof.
  split; [vm_compute; reflexivity|].
  destruct (guest_do 1 (g_exit true) (Some demo_renderer)) as [[s'|] ret| |] eqn:E; [|vm_compute in E; discriminate E..].
  destruct (colorbuffer_refcount 1 demo_calls demo_renderer 1 (g_exit true) s' ret 1) as [Hr Hl];
    [vm_compute; reflexivity|exact demo_run|vm_compute; by eexists|exact E|discriminate|].
  exists s'. split; [|split; [|exact Hl]].
  - assert (Hret : ret = 0) by (vm_compute in E; congruence). by rewrite Hret.
  - rewrite Hr. vm_compute. reflexivity.
Defined.

Lemma genHandle_terminates_witness : ∃ id,
  genHandle (up_next 4294967295 demo_renderer) = Val (up_next id (up_next 4294967295 demo_renderer)) id ∧
  1 ≤ id < 4294967296.
Proof.
  destruct (genHandle_terminates (up_next 4294967295 demo_renderer)) as (id & H & Hid & _); [vm_compute; reflexivity|].
  exists id. split; [exact H|exact Hid].
Defined.
