(* ===== verification/RenderControl.v ===== *)
(** * Guest queries and frames (src/src/anbox/graphics/emugl)

    RendererConfig.cpp and the parts of RenderControl.cpp that are no object
    management: the extension white list and the strings handed to the guest, the
    EGL configurations the guest sees, and the layers of a frame.  The host's EGL is
    an argument: [attr c a] is attribute [a] of configuration [c]. *)

From S2P Require Import Prelude Utils Rect Launch AppDb Wm Composer.

(** ** Strings for the guest *)

Definition space : Ascii.ascii := Ascii.ascii_of_nat 32.

(** The loop over the extensions; [approved] is the stream so far. *)
Fixpoint filter_loop (whitelist exts : list string) (approved : string) : string :=
  match exts with
  | [] => approved
  | ext :: exts' =>
      if decide (ext ∉ whitelist) then filter_loop whitelist exts' approved
      else
        let approved := if decide (0 < String.length approved)%nat then approved +:+ " " else approved in
        filter_loop whitelist exts' (approved +:+ ext)
  end.

Definition filter_extensions (extensions : string) (whitelist : list string) : string :=
  filter_loop whitelist (string_split extensions space) "".

Definition EGL_EXTENSIONS : Z := 0x3055.
Definition GL_VERSION : Z := 0x1F02.
Definition GL_EXTENSIONS : Z := 0x1F03.

Definition egl_whitelist : list string := ["EGL_KHR_image_base"; "EGL_KHR_gl_texture_2D_image"].

Definition gl_whitelist : list string :=
  ["GL_OES_EGL_image"; "GL_OES_EGL_image_external"; "GL_OES_depth24"; "GL_OES_depth32";
   "GL_OES_element_index_uint"; "GL_OES_texture_float"; "GL_OES_texture_float_linear";
   "GL_OES_compressed_paletted_texture"; "GL_OES_compressed_ETC1_RGB8_texture"; "GL_OES_depth_texture";
   "GL_OES_texture_half_float"; "GL_OES_texture_half_float_linear"; "GL_OES_packed_depth_stencil";
   "GL_OES_vertex_half_float"; "GL_OES_standard_derivatives"; "GL_OES_texture_npot"; "GL_OES_rgb8_rgba8"].

(** The common end: the length needed, negative when [buffer_size] (or the
    absence of a buffer) does not allow it, and what is written. *)
Definition reply_string (result : string) (has_buffer : bool) (buffer_size : Z) : Z * option bytes :=
  let len := Z.of_nat (String.length result) + 1 in
  if negb has_buffer || bool_decide (buffer_size < len) then (- len, None)
  else (len, Some (bytes_of_string result ++ [0])).

(** [host] is what the driver reports. *)
Definition rcQueryEGLString (renderer : bool) (host : string) (name : Z) (has_buffer : bool) (buffer_size : Z) :
    Z * option bytes :=
  if negb renderer then (0, None)
  else if String.eqb host "" then (0, None)
  else reply_string (if decide (name = EGL_EXTENSIONS) then filter_extensions host egl_whitelist else host)
         has_buffer buffer_size.

(** [host] is the driver's string, empty without a current context. *)
Definition rcGetGLString (host : string) (name : Z) (has_buffer : bool) (buffer_size : Z) : Z * option bytes :=
  reply_string (if decide (name = GL_VERSION) then "OpenGL ES 2.0"
                else if decide (name = GL_EXTENSIONS) then filter_extensions host gl_whitelist else host)
    has_buffer buffer_size.

(** ** RendererConfig *)

Definition EGL_ALPHA_SIZE : Z := 0x3021.
Definition EGL_BLUE_SIZE : Z := 0x3022.
Definition EGL_GREEN_SIZE : Z := 0x3023.
Definition EGL_RED_SIZE : Z := 0x3024.
Definition EGL_CONFIG_ID : Z := 0x3028.
Definition EGL_SURFACE_TYPE : Z := 0x3033.
Definition EGL_NONE : Z := 0x3038.
Definition EGL_PBUFFER_BIT : Z := 1.
Definition EGL_WINDOW_BIT : Z := 4.

Definition kConfigAttributes : list Z :=
  [0x3025; 0x3026; 0x3040; EGL_SURFACE_TYPE; EGL_CONFIG_ID;
   0x3020; EGL_ALPHA_SIZE; EGL_BLUE_SIZE; EGL_GREEN_SIZE; EGL_RED_SIZE;
   0x3027; 0x3029; 0x302A; 0x302B; 0x302C; 0x302D; 0x302E; 0x302F; 0x3031; 0x3032;
   0x3034; 0x3035; 0x3036; 0x3037; 0x3039; 0x303A; 0x303B; 0x303C; 0x303D; 0x303E; 0x303F; 0x3042].

Section configs.
Variable attr : Z → Z → Z.

Definition isCompatibleHostConfig (config : Z) : bool :=
  if decide (Z.land (attr config EGL_SURFACE_TYPE) EGL_PBUFFER_BIT = 0) then false
  else if decide (attr config EGL_RED_SIZE = 0 ∨ attr config EGL_GREEN_SIZE = 0 ∨ attr config EGL_BLUE_SIZE = 0)
  then false else true.

Record RendererConfig : Type := mkConfig { mEglConfig : Z; mAttribValues : list Z }.

Definition config_new (host : Z) : RendererConfig :=
  mkConfig host (map (λ a, if decide (a = EGL_SURFACE_TYPE) then Z.lor (attr host a) EGL_WINDOW_BIT else attr host a)
                   kConfigAttributes).

Definition config_list (host_configs : list Z) : list RendererConfig :=
  map config_new (filter (λ c, isCompatibleHostConfig c = true) host_configs).

Definition getConfigId (c : RendererConfig) : Z := nth 4 (mAttribValues c) 0.

(** The guest's attribute array up to [EGL_NONE]; [None] is an array without
    it, which is read past its end. *)
Fixpoint read_attribs (attribs : list Z) : option (list (Z * Z)) :=
  match attribs with
  | [] => None
  | a :: rest =>
      if decide (a = EGL_NONE) then Some []
      else match rest with
           | [] => None
           | v :: rest' => match read_attribs rest' with Some l => Some ((a, v) :: l) | None => None end
           end
  end.

(** The attributes passed on to [eglChooseConfig]. *)
Definition force_pbuffer (attribs : list (Z * Z)) : list (Z * Z) :=
  let hasSurfaceType := existsb (λ p, bool_decide (p.1 = EGL_SURFACE_TYPE)) attribs in
  let mustReplaceSurfaceType :=
    existsb (λ p, bool_decide (p.1 = EGL_SURFACE_TYPE ∧ p.2 ≠ EGL_PBUFFER_BIT)) attribs in
  if mustReplaceSurfaceType
  then map (λ p, if decide (p.1 = EGL_SURFACE_TYPE) then (p.1, EGL_PBUFFER_BIT) else p) attribs
  else if negb hasSurfaceType then attribs ++ [(EGL_SURFACE_TYPE, EGL_PBUFFER_BIT)]
  else attribs.

(** The guest's index of the configuration with this id. *)
Fixpoint config_index (k : nat) (cs : list RendererConfig) (id : Z) : option nat :=
  match cs with
  | [] => None
  | c :: cs' => if decide (getConfigId c = id) then Some k else config_index (S k) cs' id
  end.

(** The loop over the matches: the number counted and the indices written. *)
Fixpoint choose_loop (cs : list RendererConfig) (has_configs : bool) (size : Z) (matched : list Z)
    (result : Z) (written : list nat) : Z * list nat :=
  match matched with
  | [] => (result, written)
  | m :: matched' =>
      if has_configs && bool_decide (0 < size ∧ size ≤ result) then (result, written)
      else if negb (isCompatibleHostConfig m) then choose_loop cs has_configs size matched' result written
      else match config_index 0 cs (attr m EGL_CONFIG_ID) with
           | None => choose_loop cs has_configs size matched' result written
           | Some k =>
               choose_loop cs has_configs size matched' (result + 1)
                 (if has_configs && bool_decide (result < size) then written ++ [k] else written)
           end
  end.

(** [egl_choose] is [eglChooseConfig], [host_ok] whether the host's
    configurations can be counted. *)
Definition chooseConfig (egl_choose : list (Z * Z) → option (list Z)) (host_ok : bool) (cs : list RendererConfig)
    (attribs : list Z) (has_configs : bool) (size : Z) : option (Z * list nat) :=
  if negb host_ok then Some (0, [])
  else match read_attribs attribs with
       | None => None
       | Some l => Some (choose_loop cs has_configs size (default [] (egl_choose (force_pbuffer l))) 0 [])
       end.

Definition rcChooseConfig egl_choose host_ok (renderer : bool) cs attribs (attribs_size : Z) has_configs size :
    option (Z * list nat) :=
  if negb renderer || bool_decide (attribs_size = 0) then Some (0, [])
  else chooseConfig egl_choose host_ok cs attribs has_configs (i32 size).

(** The packed list: the attribute names, then each configuration's values. *)
Definition packConfigs (cs : list RendererConfig) (has_buffer : bool) (buffer_bytes : Z) : Z * option (list Z) :=
  let needed := u32 (u32 (Z.of_nat (length cs) + 1) * Z.of_nat (length kConfigAttributes) * 4) in
  if negb has_buffer || bool_decide (buffer_bytes < needed) then (i32 (u32 (- needed)), None)
  else (Z.of_nat (length cs), Some (kConfigAttributes ++ concat (map mAttribValues cs))).

Definition getPackInfo (cs : list RendererConfig) : Z * Z :=
  (Z.of_nat (length cs), Z.of_nat (length kConfigAttributes)).
End configs.

(** ** The layers of a frame *)

Section frame.
Context {S D : Type}.
(** [LayerComposer::submit_layers]. *)
Variable submit_layers : list Renderable → M S D.

(** [glm::mat4(1.0f)], as bits. *)
Definition identity_matrix : list Z :=
  let one := 0x3F800000 in [one; 0; 0; 0; 0; one; 0; 0; 0; 0; one; 0; 0; 0; 0; one].

(** The state is the composer's and [frame_layers]. *)
Definition rcPostLayer (name : string) (color_buffer alpha : Z) (crop frame : Rect) : M (S * list Renderable) unit :=
  modify (λ s, (s.1, s.2 ++ [mkRenderable name color_buffer frame crop identity_matrix alpha])).

Definition rcPostAllLayersDone (composer : bool) : M (S * list Renderable) (option D) :=
  s ← get;
  d ← (if composer then zoom fst (λ x s, (x, s.2)) (submit_layers s.2) ≫= λ d, mret (Some d) else mret None);
  modify (λ s, (s.1, [])) ≫= λ _, mret d.
End frame.

(** ** Lemmas *)

Definition spaced (l : list string) : string := foldr (λ e s, " " +:+ e +:+ s) "" l.

Lemma string_app_assoc (a b c : string) : (a +:+ b) +:+ c = a +:+ (b +:+ c).
Proof. apply bytes_of_string_inj. by rewrite !bytes_of_string_app, app_assoc. Qed.

Lemma string_app_nil_r (a : string) : a +:+ "" = a.
Proof. apply bytes_of_string_inj. by rewrite bytes_of_string_app, app_nil_r. Qed.

Lemma length_string_app a b : String.length (a +:+ b) = (String.length a + String.length b)%nat.
Proof. by rewrite <- !length_bytes_of_string, bytes_of_string_app, length_app. Qed.

Lemma filter_loop_nonempty wl exts acc : (0 < String.length acc)%nat →
  filter_loop wl exts acc = acc +:+ spaced (filter (λ e, e ∈ wl) exts).
Proof.
  revert acc. induction exts as [|e exts IH]; intros acc Ha; [symmetry; apply string_app_nil_r|].
  cbn [filter_loop]. rewrite filter_cons. destruct (decide (e ∈ wl)) as [He|He].
  - rewrite decide_False by (by intros ?). rewrite decide_True by done.
    rewrite IH by (rewrite !length_string_app; lia). cbn [spaced foldr]. by rewrite !string_app_assoc.
  - rewrite decide_True by done. by apply IH.
Qed.

(** The extensions the guest is told are the white-listed ones, in the host's
    order, separated by single spaces. *)
Theorem filter_extensions_spec extensions wl : "" ∉ wl →
  filter_extensions extensions wl =
    match filter (λ e, e ∈ wl) (string_split extensions space) with [] => "" | e :: l => e +:+ spaced l end.
Proof.
  intros Hwl. unfold filter_extensions. induction (string_split extensions space) as [|e exts IH]; [done|].
  cbn [filter_loop]. rewrite filter_cons. destruct (decide (e ∈ wl)) as [He|He].
  - rewrite decide_False by (by intros ?). rewrite decide_False by (cbn; lia).
    change ("" +:+ e) with e. apply filter_loop_nonempty. destruct e; [done|cbn; lia].
  - by rewrite decide_True.
Qed.

(** *** Choosing a configuration *)

Definition other_attribs (l : list (Z * Z)) : list (Z * Z) := filter (λ p, p.1 ≠ EGL_SURFACE_TYPE) l.

Lemma replace_others l :
  other_attribs (map (λ p, if decide (p.1 = EGL_SURFACE_TYPE) then (p.1, EGL_PBUFFER_BIT) else p) l) = other_attribs l.
Proof.
  unfold other_attribs. induction l as [|[a v] l IH]; [done|]. cbn [map]. rewrite !filter_cons.
  destruct (decide (a = EGL_SURFACE_TYPE)) as [->|Hne]; cbn [fst].
  - rewrite !(decide_True (P := EGL_SURFACE_TYPE = _)) by done. cbn [fst].
    rewrite !(decide_False (P := EGL_SURFACE_TYPE ≠ _)) by (intros H; by apply H). exact IH.
  - rewrite (decide_False (P := a = _)) by done. cbn [fst]. rewrite !decide_True by done. by rewrite IH.
Qed.

Lemma force_pbuffer_spec l :
  (EGL_SURFACE_TYPE, EGL_PBUFFER_BIT) ∈ force_pbuffer l ∧
  (∀ v, (EGL_SURFACE_TYPE, v) ∈ force_pbuffer l → v = EGL_PBUFFER_BIT) ∧
  other_attribs (force_pbuffer l) = other_attribs l.
Proof.
  unfold force_pbuffer. destruct (existsb (λ p, bool_decide (_ ∧ _)) l) eqn:Hm.
  - apply existsb_exists in Hm as ([a v] & Hin & Hb%bool_decide_eq_true). cbn in Hb. destruct Hb as [-> _].
    split; [|split; [|apply replace_others]].
    + apply list_elem_of_In, in_map_iff. exists (EGL_SURFACE_TYPE, v). split; [|done]. by rewrite decide_True.
    + intros v' ([a0 v0] & Heq & _)%list_elem_of_In%in_map_iff. cbn in Heq. case_decide as Hd; [congruence|].
      injection Heq as -> ->. done.
  - assert (Hno : ∀ v, (EGL_SURFACE_TYPE, v) ∈ l → v = EGL_PBUFFER_BIT).
    { intros v Hv. destruct (decide (v = EGL_PBUFFER_BIT)) as [|Hne]; [done|].
      assert (Ht : existsb (λ p, bool_decide (p.1 = EGL_SURFACE_TYPE ∧ p.2 ≠ EGL_PBUFFER_BIT)) l = true); [|congruence].
      apply existsb_exists. exists (EGL_SURFACE_TYPE, v). split; [by apply list_elem_of_In|by apply bool_decide_eq_true]. }
    clear Hm. destruct (existsb (λ p, bool_decide (p.1 = EGL_SURFACE_TYPE)) l) eqn:Hh; cbn [negb].
    + apply existsb_exists in Hh as ([a v] & Hin%list_elem_of_In & Hb%bool_decide_eq_true). cbn in Hb. subst a.
      split; [|done]. by rewrite <- (Hno v Hin).
    + split; [apply elem_of_app; right; by apply list_elem_of_singleton|]. split.
      * intros v [Hv|Hv]%elem_of_app; [by apply Hno|]. apply list_elem_of_singleton in Hv. congruence.
      * unfold other_attribs. rewrite list.filter_app, filter_cons, filter_nil, decide_False by (intros H; by apply H).
        apply app_nil_r.
Qed.

Lemma config_index_spec cs id : ∀ k j, config_index k cs id = Some j →
  (k ≤ j)%nat ∧ ∃ c, cs !! (j - k)%nat = Some c ∧ getConfigId c = id.
Proof.
  induction cs as [|c cs IH]; intros k j; cbn [config_index]; [done|]. case_decide as Hd.
  - intros [= <-]. split; [done|]. rewrite Nat.sub_diag. by exists c.
  - intros (Hle & c' & Hc & Hid)%IH. split; [lia|]. exists c'. split; [|done].
    by replace (j - k)%nat with (S (j - S k))%nat by lia.
Qed.

(** What the matching loop maintains. *)
Definition choice_ok (attr : Z → Z → Z) (cs : list RendererConfig) (has : bool) (size : Z) (matched : list Z)
    (res : Z * list nat) : Prop :=
  0 ≤ res.1 ∧ Z.of_nat (length res.2) = (if has then Z.min res.1 (Z.max 0 size) else 0) ∧
  (has = true → 0 < size → res.1 ≤ size) ∧
  Forall (λ k, ∃ c m, cs !! k = Some c ∧ m ∈ matched ∧ isCompatibleHostConfig attr m = true ∧
    getConfigId c = attr m EGL_CONFIG_ID) res.2.

Lemma choose_loop_ok attr cs has size ms : ∀ all n ks, (∀ m, m ∈ ms → m ∈ all) →
  choice_ok attr cs has size all (n, ks) → choice_ok attr cs has size all (choose_loop attr cs has size ms n ks).
Proof.
  induction ms as [|m ms IH]; intros all n ks Hall Hok; cbn [choose_loop]; [done|].
  assert (Hall' : ∀ m0, m0 ∈ ms → m0 ∈ all) by (intros; apply Hall; by right).
  destruct (has && bool_decide (0 < size ∧ size ≤ n)) eqn:Hstop; [done|].
  destruct (isCompatibleHostConfig attr m) eqn:Hcomp; cbn [negb]; [|by apply IH].
  destruct (config_index 0 cs _) as [k|] eqn:Hk; [|by apply IH]. apply IH; [done|].
  apply config_index_spec in Hk as (_ & c & Hc & Hid). rewrite Nat.sub_0_r in Hc.
  destruct Hok as (H1 & H2 & H3 & H4). cbn [fst snd] in *. unfold choice_ok. cbn [fst snd].
  destruct has; cbn [andb] in *; [|by split_and!; [lia|done|done|done]].
  apply bool_decide_eq_false in Hstop. destruct (bool_decide_reflect (n < size)) as [Hlt|Hge].
  - split_and!; [lia|rewrite length_app; cbn; lia|lia|]. apply Forall_app. split; [done|]. constructor; [|constructor].
    exists c, m. split; [done|]. split; [apply Hall; by left|done].
  - split_and!; [lia|lia|lia|done].
Qed.

(** *** Packed configurations *)

Lemma lookup_concat_blocks {A} (n : nat) (ls : list (list A)) i j l : Forall (λ l, length l = n) ls →
  ls !! i = Some l → (j < n)%nat → concat ls !! (i * n + j)%nat = l !! j.
Proof.
  intros Hls. revert i. induction Hls as [|l0 ls Hl0 _ IH]; intros i Hi Hj; [done|]. destruct i as [|i]; cbn in Hi.
  - injection Hi as ->. cbn. rewrite lookup_app_l by lia. done.
  - cbn [concat]. rewrite lookup_app_r by lia. rewrite Hl0.
    replace (S i * n + j - n)%nat with (i * n + j)%nat by lia. by apply IH.
Qed.

(** ** Properties *)

(** Choosing a configuration.  For every attribute array that ends with
    [EGL_NONE] and every answer of the host's EGL, the host is asked for a pbuffer
    surface, exactly once the guest's other attributes as they were and never for
    another surface type; no more indices are written than the guest's array holds,
    each the guest's index of a compatible configuration the host matched; and the
    count returned is the number written when the guest gave an array of positive
    size that was not exceeded. *)
Theorem choose_config_correct attr egl_choose host attribs l has size :
  read_attribs attribs = Some l →
  let cs := config_list attr host in
  let matched := default [] (egl_choose (force_pbuffer l)) in
  ((EGL_SURFACE_TYPE, EGL_PBUFFER_BIT) ∈ force_pbuffer l ∧
   (∀ v, (EGL_SURFACE_TYPE, v) ∈ force_pbuffer l → v = EGL_PBUFFER_BIT) ∧
   other_attribs (force_pbuffer l) = other_attribs l) ∧
  ∃ n written, chooseConfig attr egl_choose true cs attribs has size = Some (n, written) ∧
    (Z.of_nat (length written) ≤ Z.max 0 size) ∧ (has = true → 0 < size → n = Z.of_nat (length written)) ∧
    Forall (λ k, ∃ c m, cs !! k = Some c ∧ m ∈ matched ∧ isCompatibleHostConfig attr m = true ∧
      getConfigId c = attr m EGL_CONFIG_ID) written.
Proof.
  intros Hl cs matched. split; [apply force_pbuffer_spec|]. unfold chooseConfig. cbn [negb]. rewrite Hl.
  assert (Hok := choose_loop_ok attr cs has size matched matched 0 [] (λ m H, H)).
  fold matched. destruct (choose_loop _ _ _ _ _ _ _) as [n written]. exists n, written. split; [done|].
  destruct Hok as (H1 & H2 & H3 & H4).
  { unfold choice_ok. cbn. split_and!; [lia|destruct has; lia|lia|constructor]. }
  cbn [fst snd] in *. split; [destruct has; lia|]. split; [|done]. intros -> Hs. specialize (H3 eq_refl Hs). lia.
Qed.

(** The packed list: attribute [j] of configuration [i] is where the guest looks
    for it. *)
Theorem pack_configs_layout attr host bytes_ i c j v :
  let cs := config_list attr host in
  cs !! i = Some c → mAttribValues c !! j = Some v →
  Z.of_nat (length cs) < 1048576 → Z.of_nat (length cs + 1) * 128 ≤ bytes_ →
  ∃ data, packConfigs cs true bytes_ = (Z.of_nat (length cs), Some data) ∧
    data !! j = kConfigAttributes !! j ∧ data !! ((i + 1) * length kConfigAttributes + j)%nat = Some v.
Proof.
  intros cs Hi Hj Hlen Hb.
  assert (Hall : Forall (λ l, length l = 32%nat) (map mAttribValues cs)).
  { apply List.Forall_forall. intros x (c0 & <- & Hc0)%in_map_iff. unfold cs, config_list in Hc0.
    apply in_map_iff in Hc0 as (h & <- & _). reflexivity. }
  assert (Hjl : (j < 32)%nat).
  { apply lookup_lt_Some in Hj. rewrite List.Forall_forall in Hall. rewrite Hall in Hj; [done|].
    apply in_map. by eapply list_elem_of_In, list_elem_of_lookup_2. }
  unfold packConfigs. change (Z.of_nat (length kConfigAttributes)) with 32.
  rewrite (u32_small (Z.of_nat (length cs) + 1)) by (unfold is_u32; lia). rewrite u32_small by (unfold is_u32; lia).
  rewrite bool_decide_eq_false_2 by lia. cbn [negb orb]. eexists. split; [reflexivity|].
  change (length kConfigAttributes) with 32%nat. split; [by rewrite lookup_app_l by (cbn; lia)|].
  rewrite lookup_app_r by (cbn; lia). change (length kConfigAttributes) with 32%nat.
  replace ((i + 1) * 32 + j - 32)%nat with (i * 32 + j)%nat by lia.
  rewrite (lookup_concat_blocks 32 _ i j (mAttribValues c)); [done|done| |done].
  change (map mAttribValues cs) with (mAttribValues <$> cs). by rewrite list_lookup_fmap, Hi.
Qed.

(** A frame: the layers posted since the last frame are submitted once, in
    order, and the next frame starts empty; if submitting throws, they stay and are
    submitted again with the next frame. *)
Theorem frame_submitted_once {S D} (submit : list Renderable → M S D) (layers : list Renderable) (s : S) :
  Forall (λ r, transformation r = identity_matrix) layers →
  (for_each layers (λ r, rcPostLayer (r_name r) (buffer r) (alpha r) (crop r) (screen_position r)) ≫= λ _,
     rcPostAllLayersDone submit true) (s, []) =
  match submit layers s with
  | Val s' d => Val (s', []) (Some d)
  | Exc s' e => Exc (s', layers) e
  | Ub => Ub
  end.
Proof.
  intros Hid.
  assert (Hpost : ∀ acc, for_each layers (λ r, rcPostLayer (r_name r) (buffer r) (alpha r) (crop r) (screen_position r)) (s, acc)
    = Val (s, acc ++ layers) tt).
  { induction Hid as [|r rs Hr _ IH]; intros acc; [by rewrite app_nil_r|]. cbn [for_each].
    assert (H1 : rcPostLayer (S := S) (r_name r) (buffer r) (alpha r) (crop r) (screen_position r) (s, acc) = Val (s, acc ++ [r]) tt)
      by (destruct r; cbn in Hr; by subst).
    rewrite (bind_val _ _ _ _ _ H1), IH. by rewrite <- app_assoc. }
  rewrite (bind_val _ _ _ _ _ (Hpost [])). cbn [app]. unfold rcPostAllLayersDone. run_m. cbn [fst snd].
  by destruct (submit layers s).
Qed.

(** ** Witness *)

(** Two host configurations, the second without pbuffers. *)
Definition demo_attr (c a : Z) : Z :=
  if decide (a = EGL_SURFACE_TYPE) then (if decide (c = 1) then 5 else 4)
  else if decide (a = EGL_CONFIG_ID) then c + 10 else 8.

Lemma choose_config_correct_witness : ∃ n written,
  chooseConfig demo_attr (λ _, Some [2; 1]) true (config_list demo_attr [1; 2]) [EGL_RED_SIZE; 8; EGL_SURFACE_TYPE; 4; EGL_NONE]
    true 4 = Some (n, written) ∧ Z.of_nat (length written) ≤ Z.max 0 4 ∧ n = Z.of_nat (length written).
Proof.
  destruct (choose_config_correct demo_attr (λ _, Some [2; 1]) [1; 2] [EGL_RED_SIZE; 8; EGL_SURFACE_TYPE; 4; EGL_NONE]
              [(EGL_RED_SIZE, 8); (EGL_SURFACE_TYPE, 4)] true 4) as (_ & n & written & H & Hb & Hn & _);
    [vm_compute; reflexivity|].
  exists n, written. split; [exact H|]. split; [exact Hb|]. apply Hn; [reflexivity|lia].
Defined.
