(* ===== verification/Qemud.v ===== *)
(** * Guest pipe services (src/src/anbox/qemu)

    [QemudMessageProcessor] (length-prefixed commands) and the services built
    on it, and [CameraMessageProcessor] (NUL-terminated commands). *)

From S2P Require Import Prelude Framing Utils Network.

(** ** QemudMessageProcessor *)

Definition header_size : nat := 4.

Record Qemud : Type := mkQemud { qbuffer : bytes; messenger_ : Sender }.

Definition in_messenger {A} : M Sender A → M Qemud A :=
  zoom messenger_ (λ m q, mkQemud (qbuffer q) m).

Section qemud.
Variable handle_command : string → M Sender unit.

Fixpoint process_commands (fuel : nat) : M Qemud bool :=
  match fuel with
  | O => mret true
  | S fuel' =>
      q ← get;
      if decide (length (qbuffer q) < header_size)%nat then mret true
      else
        match scan_04x (take header_size (qbuffer q)) with
        | None => undefined
        | Some body_size =>
            let total_size := 4 + body_size in
            if decide (Z.of_nat (length (qbuffer q)) < total_size) then mret true
            else
              let command :=
                string_of_bytes (take (Z.to_nat body_size) (drop header_size (qbuffer q))) in
              in_messenger (handle_command command) ≫= λ _,
              modify (λ q, mkQemud (drop (Z.to_nat total_size) (qbuffer q)) (messenger_ q)) ≫= λ _,
              q' ← get;
              let remaining := u64 (Z.of_nat (length (qbuffer q')) - total_size) in
              if decide (remaining ≤ 0) then mret true else process_commands fuel'
        end
  end.

(** Every iteration removes at least the header. *)
Definition qemud_process_data (data : bytes) : M Qemud bool :=
  modify (λ q, mkQemud (qbuffer q ++ data) (messenger_ q)) ≫= λ _,
  q ← get;
  process_commands (S (length (qbuffer q))).
End qemud.

(** [snprintf(header, 5, "%04zx", size)] keeps the first four characters. *)
Definition send_header (size : nat) : M Sender unit :=
  send (take header_size (format_04x (Z.of_nat size))).

Definition finish_message : M Sender unit := send [0].

(** ** Services on top of it *)

Definition send_text (text : string) : M Sender unit := send (bytes_of_string text).

Definition list_sensors : M Sender unit :=
  let buf := format_d 0 in
  send_header (String.length buf) ≫= λ _, send_text buf ≫= λ _, finish_message.

Definition sensors_handle_command (command : string) : M Sender unit :=
  if String.eqb command "list-sensors" then list_sensors else mret tt.

Definition listen : M Sender unit :=
  let buf := "off" in
  send_header (String.length buf) ≫= λ _, send_text buf ≫= λ _, finish_message.

Definition fingerprint_handle_command (command : string) : M Sender unit :=
  if String.eqb command "listen" then listen else mret tt.

Definition hwcontrol_handle_command (command : string) : M Sender unit := mret tt.

(** graphics/density.h and density.cpp. *)
Inductive DensityType : Type := low | medium | tv | high | xhigh | xxhigh.

Definition density_value (d : DensityType) : Z :=
  match d with
  | low => 120 | medium => 160 | tv => 213 | high => 240 | xhigh => 360 | xxhigh => 480
  end.

Definition current_density : DensityType := medium.

(** Unsigned arithmetic, then conversion to [int]. *)
Definition dp_to_pixel (dp : Z) : Z :=
  i32 (u32 (dp * density_value current_density) / density_value medium).

Definition list_properties : M Sender unit :=
  for_each ["ro.sf.lcd_density=" +:+ format_d (density_value current_density)] (λ prop,
    send_header (String.length prop) ≫= λ _, send_text prop) ≫= λ _,
  finish_message.

Definition boot_properties_handle_command (command : string) : M Sender unit :=
  if String.eqb command "list" then list_properties else mret tt.

(** ** CameraMessageProcessor *)

Definition camera_list : M Sender unit := send [10].

Definition camera_handle_command (command : string) : M Sender unit :=
  if String.eqb command "list" then camera_list else mret tt.

(** The inner [while]: the position of the first NUL, or the buffer's size. *)
Fixpoint command_length (b : bytes) : nat :=
  match b with
  | [] => 0
  | c :: b' => if decide (c = 0) then 0 else S (command_length b')
  end.

Fixpoint camera_process_commands (fuel : nat) : M Qemud unit :=
  match fuel with
  | O => mret tt
  | S fuel' =>
      q ← get;
      match qbuffer q with
      | [] => mret tt
      | _ =>
          let n := command_length (qbuffer q) in
          let command := string_of_bytes (take n (qbuffer q)) in
          match erase_front (n + 1) (qbuffer q) with
          | None => undefined
          | Some rest =>
              modify (λ q, mkQemud rest (messenger_ q)) ≫= λ _,
              in_messenger (camera_handle_command command) ≫= λ _,
              camera_process_commands fuel'
          end
      end
  end.

Definition camera_process_data (data : bytes) : M Qemud bool :=
  modify (λ q, mkQemud (qbuffer q ++ data) (messenger_ q)) ≫= λ _,
  q ← get;
  camera_process_commands (S (length (qbuffer q))) ≫= λ _,
  mret true.

(** * Theorems *)

(** ** Frames of the qemud protocol *)

Definition qemud_frame (c : bytes) : bytes := format_04x (Z.of_nat (length c)) ++ c.

Definition qemud_fits (c : bytes) : Prop := Z.of_nat (length c) < 65536.

Definition qemud_frame_len (b : bytes) : option nat :=
  if decide (length b < header_size)%nat then None
  else
    match scan_04x (take header_size b) with
    | Some body_size =>
        if decide (body_size < 0 ∨ Z.of_nat (length b) < 4 + body_size) then None
        else Some (Z.to_nat (4 + body_size))
    | None => None
    end.

#[export] Instance qemud_format : FrameFormat.
Proof.
  refine {| frame_len := qemud_frame_len |}.
  - intros b n. unfold qemud_frame_len. case_decide; [done|].
    destruct (scan_04x _) as [z|]; [|done]. case_decide; [done|]. intros [= <-]. lia.
  - intros b x n. unfold qemud_frame_len. rewrite length_app.
    case_decide; [done|]. rewrite decide_False by lia. rewrite take_app_le by lia.
    destruct (scan_04x _) as [z|]; [|done]. case_decide; [done|]. by rewrite decide_False by lia.
Defined.

Lemma qemud_frame_is_frame c : qemud_fits c → is_frame (qemud_frame c).
Proof.
  intros Hc. unfold qemud_fits in Hc. unfold is_frame, frame_len, qemud_format, qemud_frame_len, qemud_frame.
  assert (Hl : length (format_04x (Z.of_nat (length c))) = header_size) by (apply length_format_04x; lia).
  rewrite length_app, Hl, decide_False by lia. rewrite take_app_length' by done.
  rewrite scan_format_04x by lia. rewrite decide_False by (unfold header_size; lia). f_equal.
  unfold header_size. lia.
Qed.

(** The scan never yields a negative size. *)
Lemma hex_val_nonneg c d : hex_val c = Some d → 0 ≤ d.
Proof. unfold hex_val. repeat case_decide; intros [= <-]; lia. Qed.

Lemma scan_digits_nonneg acc l : 0 ≤ acc → 0 ≤ (scan_digits acc l).1.
Proof.
  revert acc. induction l as [|c l IH]; intros acc Ha; cbn; [done|].
  destruct (hex_val c) as [d|] eqn:E; [|done]. apply hex_val_nonneg in E. apply IH. lia.
Qed.

Lemma scan_04x_nonneg h z : scan_04x h = Some z → 0 ≤ z.
Proof.
  unfold scan_04x. destruct (match drop_spaces h with [] => _ | _ => _ end) as [neg ds].
  assert (Hu : 0 ≤ (scan_unsigned ds).1).
  { unfold scan_unsigned. destruct ds as [|a [|b ds]]; [by apply scan_digits_nonneg..|].
    case_decide; by apply scan_digits_nonneg. }
  destruct (scan_unsigned ds) as [v st]. cbn in Hu.
  destruct (st || _); intros [= <-]. destruct neg; [|done]. apply u32_range.
Qed.

(** ** process_commands against the reference decoder *)

Section qemud_proofs.
Variable handle_command : string → M Sender unit.

Definition qemud_handle (f : bytes) : M Sender unit :=
  handle_command (string_of_bytes (drop header_size f)).

(** The tail makes the next scan run past its array. *)
Definition bad_header (r : bytes) : Prop :=
  (header_size ≤ length r)%nat ∧ scan_04x (take header_size r) = None.
#[global] Instance bad_header_dec r : Decision (bad_header r).
Proof. unfold bad_header. apply _. Defined.

(** Handle complete commands one after the other, but stop when the bytes
    left are as many as those just consumed. *)
Fixpoint qemud_run (fs : list bytes) (r : bytes) (s : Sender) : outcome Qemud bool :=
  match fs with
  | [] => if decide (bad_header r) then Ub else Val (mkQemud r s) true
  | f :: fs' =>
      match qemud_handle f s with
      | Val s' _ =>
          if decide (length (concat fs' ++ r) = length f)
          then Val (mkQemud (concat fs' ++ r) s') true
          else qemud_run fs' r s'
      | Exc s' x => Exc (mkQemud (concat fs ++ r) s') x
      | Ub => Ub
      end
  end.

Lemma remaining_zero (a : nat) (t : Z) :
  Z.of_nat a < 2 ^ 64 → 0 ≤ t < 2 ^ 64 →
  u64 (Z.of_nat a - t) ≤ 0 ↔ a = Z.to_nat t.
Proof.
  unfold u64, wrap. change (2 ^ 64) with 18446744073709551616. intros Ha Hb.
  split; intros Hz; Z.div_mod_to_equations; lia.
Qed.

Lemma process_commands_spec fuel b s :
  (length b < fuel)%nat → Z.of_nat (length b) < 2 ^ 64 →
  process_commands handle_command fuel (mkQemud b s)
    = qemud_run (decode b).1 (decode b).2 s.
Proof.
  revert b s. induction fuel as [|fuel IH]; intros b s Hf Hm; [lia|].
  rewrite decode_unfold. cbn [process_commands]. run_m. cbn [qbuffer].
  destruct (frame_len b) as [n|] eqn:E.
  - pose proof (decode_concat (drop n b)) as Hcat.
    destruct (decode (drop n b)) as [fs r] eqn:Ed. cbn [fst snd] in Hcat |- *. cbn [qemud_run].
    unfold frame_len, qemud_format, qemud_frame_len in E.
    case_decide as Hlen; [done|].
    destruct (scan_04x (take header_size b)) as [z|] eqn:Ez; [|done].
    case_decide as Hz; [done|]. injection E as <-. rewrite decide_False by lia.
    unfold in_messenger, qemud_handle. run_m. cbn [qbuffer messenger_].
    replace (drop header_size (take (Z.to_nat (4 + z)) b)) with (take (Z.to_nat z) (drop header_size b)).
    2:{ rewrite take_drop_commute. do 2 f_equal. unfold header_size. lia. }
    destruct (handle_command _ s) as [s' []|s' x|]; cbn [qbuffer messenger_]; [|..|done].
    + rewrite Hcat. assert (Hl : length (take (Z.to_nat (4 + z)) b) = Z.to_nat (4 + z))
        by (rewrite length_take; lia).
      rewrite Hl.
      destruct (decide (length (drop (Z.to_nat (4 + z)) b) = Z.to_nat (4 + z))) as [Heq|Hne].
      * rewrite decide_True; [done|]. apply remaining_zero; [rewrite length_drop; lia|lia|done].
      * rewrite decide_False.
        -- rewrite IH; [by rewrite Ed|rewrite length_drop; lia|rewrite length_drop; lia].
        -- rewrite remaining_zero; [done|rewrite length_drop; lia|lia].
    + do 2 f_equal. cbn [concat]. by rewrite <- app_assoc, Hcat, take_drop.
  - cbn [fst snd qemud_run]. unfold frame_len, qemud_format, qemud_frame_len in E.
    case_decide as Hlen.
    + by rewrite decide_False by (unfold bad_header; lia).
    + destruct (scan_04x (take header_size b)) as [z|] eqn:Ez.
      * rewrite (decide_False (P := bad_header b)) by (intros [_ Hb]; congruence).
        apply scan_04x_nonneg in Ez. case_decide as Hz; [|done]. by rewrite decide_True by lia.
      * by rewrite decide_True by (split; [lia|done]).
Qed.

Lemma qemud_process_data_run data q :
  Z.of_nat (length (qbuffer q ++ data)) < 2 ^ 64 →
  qemud_process_data handle_command data q
    = qemud_run (decode (qbuffer q ++ data)).1 (decode (qbuffer q ++ data)).2 (messenger_ q).
Proof.
  intros Hm. unfold qemud_process_data. run_m. cbn [qbuffer].
  apply process_commands_spec; [lia|done].
Qed.

(** The commands handled are a prefix of those received, and the others are
    still in the buffer. *)
Lemma qemud_run_prefix fs r s q :
  Forall is_frame fs → frame_len r = None →
  qemud_run fs r s = Val q true →
  ∃ done todo, fs = done ++ todo ∧ for_each done qemud_handle s = Val (messenger_ q) tt ∧
    decode (qbuffer q) = (todo, r) ∧ qbuffer q = concat todo ++ r ∧ (done = [] → todo = []).
Proof.
  intros Hfs Hr. revert s. induction Hfs as [|f fs Hf Hfs IH]; intros s; cbn [qemud_run].
  - case_decide; [done|]. intros [= <-]. exists [], [].
    cbn [for_each messenger_ qbuffer concat app]. by rewrite decode_unfold, Hr.
  - destruct (qemud_handle f s) as [s' []| |] eqn:Eh; [|done..]. case_decide.
    + intros [= <-]. exists [f], fs. cbn [for_each messenger_ qbuffer]. unfold mbind, M_bind.
      rewrite Eh. split_and!; [done|done| |done|done].
      rewrite (decode_frames fs r Hfs), (decode_unfold r), Hr. cbn [fst snd]. by rewrite app_nil_r.
    + intros Hq. destruct (IH _ Hq) as (d & t & -> & Hd & Ht & Hb & _).
      exists (f :: d), t. cbn [for_each]. unfold mbind, M_bind. by rewrite Eh.
Qed.

(** A run whose commands are all accepted returns. *)
Lemma qemud_run_returns fs r s s' :
  ¬ bad_header r → for_each fs qemud_handle s = Val s' tt → ∃ q, qemud_run fs r s = Val q true.
Proof.
  intros Hr. revert s. induction fs as [|f fs IH]; intros s; cbn [qemud_run for_each].
  - rewrite decide_False by done. by eexists.
  - unfold mbind, M_bind. destruct (qemud_handle f s) as [s1 []| |]; [|done..].
    intros Hs. case_decide; [by eexists|by apply IH].
Qed.

Lemma decode_all_frames b : Forall is_frame (decode b).1.
Proof.
  induction b as [b E|b n E IH] using decode_ind; rewrite decode_unfold, E; [constructor|].
  destruct (decode (drop n b)) as [fs r]. constructor; [|exact IH].
  pose proof (frame_len_bound _ _ E). unfold is_frame. rewrite length_take, Nat.min_l by lia.
  revert E. unfold frame_len, qemud_format, qemud_frame_len.
  case_decide as Hlen; [done|]. destruct (scan_04x (take header_size b)) as [z|] eqn:Ez; [|done].
  case_decide as Hz; [done|]. intros [= <-].
  rewrite length_take, Nat.min_l by lia. rewrite decide_False by (unfold header_size in *; lia).
  rewrite take_take, Nat.min_l by (unfold header_size; lia). rewrite Ez.
  by rewrite decide_False by lia.
Qed.
End qemud_proofs.

(** ** Replies of the services *)

(** A header, a body and the terminating NUL. *)
Definition reply (body : string) : list bytes :=
  [format_04x (Z.of_nat (String.length body)); bytes_of_string body; [0]].

Lemma send_reply_framed body s :
  Z.of_nat (String.length body) < 65536 → connected s = true →
  (send_header (String.length body) ≫= λ _, send_text body ≫= λ _, finish_message) s
    = Val (mkSender true (wire s ++ reply body)) tt.
Proof.
  intros Hb Hs. unfold send_header, send_text, finish_message, mbind, M_bind.
  rewrite send_connected by done. rewrite send_connected by done. rewrite send_connected by done.
  cbn [wire]. rewrite <- !app_assoc. cbn [app]. unfold reply.
  by rewrite take_ge by (rewrite length_format_04x by lia; done).
Qed.

(** ** Camera commands *)

(** Commands as they travel: each followed by a NUL. *)
Definition terminated (cs : list bytes) : bytes := concat (map (λ c, c ++ [0]) cs).

Definition no_nul (b : bytes) : Prop := Forall (λ z : Z, z ≠ 0) b.

Lemma command_length_nul c b :
  no_nul c → command_length (c ++ 0 :: b) = length c.
Proof.
  induction 1 as [|z c Hz _ IH]; cbn [app command_length]; [by rewrite decide_True|].
  rewrite decide_False by done. cbn. by rewrite IH.
Qed.

Lemma command_length_none c : no_nul c → command_length c = length c.
Proof.
  induction 1 as [|z c Hz _ IH]; cbn [command_length]; [done|].
  rewrite decide_False by done. cbn. by rewrite IH.
Qed.

Lemma camera_loop_spec (cs : list bytes) (tail : bytes) (fuel : nat) s s' :
  Forall no_nul cs → no_nul tail →
  for_each cs (λ c, camera_handle_command (string_of_bytes c)) s = Val s' tt →
  (length (terminated cs ++ tail) < fuel)%nat →
  camera_process_commands fuel (mkQemud (terminated cs ++ tail) s)
    = match tail with [] => Val (mkQemud [] s') tt | _ => Ub end.
Proof.
  intros Hcs Htail. revert fuel s. induction Hcs as [|c cs Hc _ IH]; intros fuel s Hrun Hf.
  - destruct fuel as [|fuel]; [cbn in Hf; lia|]. injection Hrun as ->. cbn [terminated map concat app].
    destruct tail as [|z tail]; [done|]. cbn [camera_process_commands]. run_m. cbn [qbuffer].
    rewrite command_length_none by done. unfold erase_front. by rewrite decide_False by lia.
  - destruct fuel as [|fuel]; [lia|].
    change (terminated (c :: cs)) with ((c ++ [0]) ++ terminated cs) in *. cbn [for_each] in Hrun. unfold mbind, M_bind in Hrun.
    destruct (camera_handle_command (string_of_bytes c) s) as [s1 []| |] eqn:Eh; [|done..].
    rewrite <- !app_assoc in *. cbn [app] in *.
    set (rest := terminated cs ++ tail) in *.
    cbn [camera_process_commands]. unfold in_messenger. run_m. cbn [qbuffer messenger_].
    destruct (c ++ 0 :: rest) as [|z l] eqn:Ecl; [by destruct c|]. rewrite <- Ecl in *.
    rewrite command_length_nul by done. rewrite take_app_length.
    replace (c ++ 0 :: rest) with ((c ++ [0]) ++ rest) by (by rewrite <- app_assoc).
    rewrite erase_front_app by (by rewrite length_app). run_m. cbn [qbuffer messenger_]. rewrite Eh.
    apply IH; [done|]. rewrite length_app in Hf. cbn in Hf. lia.
Qed.

(** * Properties *)

Section properties.
Variable handle_command : string → M Sender unit.

(** C32: A qemud processor neither loses, duplicates nor reorders commands.
    When the service accepts the commands the received bytes contain and the rest
    is no malformed header, the processor returns and asks for more; what it has
    handled, followed by the complete commands left in its buffer, is what the
    bytes contain, in order; and it handles at least one when there is one. *)
Theorem qemud_no_loss (q : Qemud) (data : bytes) (s' : Sender) :
  let received := decode (qbuffer q ++ data) in
  Z.of_nat (length (qbuffer q ++ data)) < 2 ^ 64 →
  for_each received.1 (qemud_handle handle_command) (messenger_ q) = Val s' tt →
  ¬ bad_header received.2 →
  ∃ q' handled pending,
    qemud_process_data handle_command data q = Val q' true ∧
    received.1 = handled ++ pending ∧
    for_each handled (qemud_handle handle_command) (messenger_ q) = Val (messenger_ q') tt ∧
    decode (qbuffer q') = (pending, received.2) ∧ (handled = [] → pending = []).
Proof.
  intros received Hm Hs Hr. rewrite qemud_process_data_run by done.
  destruct (qemud_run_returns handle_command _ _ _ _ Hr Hs) as [q' Hq].
  destruct (qemud_run_prefix _ _ _ _ _ (decode_all_frames _) (decode_rest _) Hq)
    as (d & t & Hd & Hrun & Hdec & _ & Hne). by exists q', d, t.
Qed.

(** two commands of the same size that arrive in one read: the second is
    left in the buffer, unhandled, until more data arrives. *)
Theorem qemud_stalls_on_equal_sizes (c1 c2 : bytes) (s s' : Sender) :
  qemud_fits c1 → length c2 = length c1 →
  handle_command (string_of_bytes c1) s = Val s' tt →
  qemud_process_data handle_command (qemud_frame c1 ++ qemud_frame c2) (mkQemud [] s)
    = Val (mkQemud (qemud_frame c2) s') true.
Proof.
  intros Hf Hlen Hh. assert (Hf2 : qemud_fits c2) by (unfold qemud_fits in *; lia).
  assert (Hl : ∀ c, qemud_fits c → length (qemud_frame c) = (4 + length c)%nat).
  { intros c Hc. unfold qemud_frame. rewrite length_app, length_format_04x; [done|].
    unfold qemud_fits in Hc. lia. }
  rewrite qemud_process_data_run; cbn [qbuffer messenger_ app].
  2:{ rewrite length_app, !Hl by done. unfold qemud_fits in *.
      change (2 ^ 64) with 18446744073709551616. lia. }
  assert (Hd : decode (qemud_frame c1 ++ qemud_frame c2) = ([qemud_frame c1; qemud_frame c2], [])).
  { rewrite <- (decode_frames_all [qemud_frame c1; qemud_frame c2]); [cbn; by rewrite app_nil_r|].
    repeat constructor; by apply qemud_frame_is_frame. }
  rewrite Hd. cbn [fst snd qemud_run]. unfold qemud_handle at 1. unfold qemud_frame at 1.
  rewrite drop_app_length' by (rewrite length_format_04x; [done|unfold qemud_fits in *; lia]).
  rewrite Hh. cbn [concat]. rewrite !app_nil_r.
  by rewrite decide_True by (rewrite !Hl by done; lia).
Qed.

(** a command that arrives alone, in a read of its own, is handled at
    once and leaves the buffer empty. *)
Theorem qemud_command_per_read (c : bytes) (s s' : Sender) :
  qemud_fits c → handle_command (string_of_bytes c) s = Val s' tt →
  qemud_process_data handle_command (qemud_frame c) (mkQemud [] s) = Val (mkQemud [] s') true.
Proof.
  intros Hf Hh. assert (Hl : length (qemud_frame c) = (4 + length c)%nat).
  { unfold qemud_frame. rewrite length_app, length_format_04x; [done|unfold qemud_fits in *; lia]. }
  rewrite qemud_process_data_run; cbn [qbuffer messenger_ app].
  2:{ rewrite Hl. unfold qemud_fits in *. change (2 ^ 64) with 18446744073709551616. lia. }
  pose proof (decode_frames_all [qemud_frame c]) as Hd. cbn [concat] in Hd. rewrite app_nil_r in Hd.
  rewrite Hd by (repeat constructor; by apply qemud_frame_is_frame).
  cbn [fst snd qemud_run]. unfold qemud_handle, qemud_frame.
  rewrite drop_app_length' by (rewrite length_format_04x; [done|unfold qemud_fits in *; lia]).
  rewrite Hh. cbn [concat app length].
  rewrite decide_False by (change (0%nat ≠ length (qemud_frame c)); rewrite Hl; lia).
  rewrite decide_False; [done|]. unfold bad_header, header_size. cbn. lia.
Qed.
End properties.

(** every answer a qemud service sends is a four-digit header announcing
    the length of the body, the body, and a NUL; other commands send nothing. *)
Theorem qemud_service_replies (s : Sender) (command : string) :
  connected s = true →
  sensors_handle_command command s
    = Val (mkSender true (wire s ++ if String.eqb command "list-sensors" then reply "0" else [])) tt ∧
  fingerprint_handle_command command s
    = Val (mkSender true (wire s ++ if String.eqb command "listen" then reply "off" else [])) tt ∧
  boot_properties_handle_command command s
    = Val (mkSender true
             (wire s ++ if String.eqb command "list" then reply "ro.sf.lcd_density=160" else [])) tt ∧
  hwcontrol_handle_command command s = Val s tt.
Proof.
  intros Hs. destruct s as [c w]. cbn in Hs. subst c.
  unfold sensors_handle_command, fingerprint_handle_command, boot_properties_handle_command.
  split_and!; try done; (destruct (String.eqb _ _); [|run_m; cbn; by rewrite app_nil_r]).
  - by apply (send_reply_framed (format_d 0)).
  - by apply (send_reply_framed "off").
  - unfold list_properties, send_header, send_text, finish_message, send. cbn [for_each].
    run_m. cbn [connected wire]. by rewrite <- !app_assoc.
Qed.

(** the camera service handles a read made of NUL-terminated commands
    completely; a read with bytes after its last NUL makes it erase past the end
    of its buffer. *)
Theorem camera_needs_terminated_reads (cs : list bytes) (tail : bytes) (s s' : Sender) :
  Forall no_nul cs → no_nul tail →
  for_each cs (λ c, camera_handle_command (string_of_bytes c)) s = Val s' tt →
  camera_process_data (terminated cs ++ tail) (mkQemud [] s)
    = if decide (tail = []) then Val (mkQemud [] s') true else Ub.
Proof.
  intros Hcs Ht Hrun. unfold camera_process_data. run_m. cbn [qbuffer messenger_ app].
  rewrite (camera_loop_spec cs tail _ s s') by (done || lia).
  destruct tail; [by rewrite decide_True|by rewrite decide_False].
Qed.

(** * Witnesses *)

Definition idle : Sender := mkSender true [].

Lemma qemud_no_loss_witness :
  ∃ q' handled pending,
    qemud_process_data fingerprint_handle_command (qemud_frame (bytes_of_string "list") ++ [48]) (mkQemud [] idle)
      = Val q' true ∧
    [qemud_frame (bytes_of_string "list")] = handled ++ pending ∧ (handled = [] → pending = []).
Proof.
  destruct (qemud_no_loss fingerprint_handle_command (mkQemud [] idle)
              (qemud_frame (bytes_of_string "list") ++ [48]) idle) as (q' & h & p & H1 & H2 & _ & _ & H5).
  - vm_compute. reflexivity.
  - vm_compute. reflexivity.
  - apply (bool_decide_unpack _). vm_compute. exact I.
  - exists q', h, p. split; [exact H1|]. split; [exact H2|exact H5].
Defined.

Lemma qemud_stalls_on_equal_sizes_witness :
  let f := qemud_frame (bytes_of_string "listen") in
  qemud_process_data fingerprint_handle_command (f ++ f) (mkQemud [] idle)
    = Val (mkQemud f (mkSender true (reply "off"))) true.
Proof.
  intros f. apply (qemud_stalls_on_equal_sizes fingerprint_handle_command
                     (bytes_of_string "listen") (bytes_of_string "listen") idle).
  - reflexivity.
  - reflexivity.
  - vm_compute. reflexivity.
Defined.

Lemma qemud_command_per_read_witness :
  qemud_process_data fingerprint_handle_command (qemud_frame (bytes_of_string "listen")) (mkQemud [] idle)
    = Val (mkQemud [] (mkSender true (reply "off"))) true.
Proof.
  apply (qemud_command_per_read fingerprint_handle_command (bytes_of_string "listen") idle).
  - reflexivity.
  - vm_compute. reflexivity.
Defined.

Lemma qemud_service_replies_witness :
  hwcontrol_handle_command "x" idle = Val idle tt.
Proof. apply (qemud_service_replies idle "x"). reflexivity. Defined.

Lemma camera_needs_terminated_reads_witness :
  camera_process_data (bytes_of_string "list") (mkQemud [] idle) = Ub.
Proof.
  apply (camera_needs_terminated_reads [] (bytes_of_string "list") idle idle).
  - constructor.
  - unfold no_nul. vm_compute. repeat constructor; lia.
  - reflexivity.
Defined.
