(* ===== verification/Sdl.v ===== *)
(** * Pointer, keyboard and touch input (src/src/anbox/platform/sdl/platform.cpp)

    [Platform::process_input_event] turns SDL events into [input::Event]s for
    the three virtual devices.  Fingers are tracked in slots of the Linux
    multi-touch protocol (type B); [receiver] is that protocol's reader, and the
    refinement theorem says that it sees exactly the fingers that are down.

    Constants are those of <linux/input.h>.  Touch coordinates arrive as
    floating-point fractions of a window: [F] is their type, [scale] the
    multiplication of an [int] by one ([x *= f]) and [above_one] the test
    [f > 1]. *)

From S2P Require Import Prelude Rect Network Input Keycodes Qemud.

Definition EV_SYN : Z := 0.
Definition EV_KEY : Z := 1.
Definition EV_REL : Z := 2.
Definition EV_ABS : Z := 3.
Definition SYN_REPORT : Z := 0.
Definition BTN_LEFT : Z := 272.
Definition REL_X : Z := 0.
Definition REL_Y : Z := 1.
Definition REL_WHEEL : Z := 8.
Definition ABS_X : Z := 0.
Definition ABS_Y : Z := 1.
Definition ABS_MT_SLOT : Z := 47.
Definition ABS_MT_POSITION_X : Z := 53.
Definition ABS_MT_POSITION_Y : Z := 54.
Definition ABS_MT_TRACKING_ID : Z := 57.

Definition MAX_FINGERS : nat := 10.
Definition MAX_TRACKING_ID : Z := 10.
Definition emulated_touch_id_ : Z := 0.

(** ** Touch slots *)

Record Touch : Type := mkTouch { touch_slots : list Z; last_slot : Z }.

Definition touch_new : Touch := mkTouch (replicate MAX_FINGERS (-1)) (-1).

Fixpoint find_slot_from (i : Z) (slots : list Z) (id : Z) : Z :=
  match slots with
  | [] => -1
  | s :: slots' => if decide (s = id) then i else find_slot_from (i + 1) slots' id
  end.
Definition find_touch_slot (t : Touch) (id : Z) : Z := find_slot_from 0 (touch_slots t) id.

Definition push_slot (slot : Z) (st : Touch * list Event) : Touch * list Event :=
  let '(t, es) := st in
  if decide (last_slot t = slot) then (t, es)
  else (mkTouch (touch_slots t) slot, es ++ [mkEvent EV_ABS ABS_MT_SLOT slot]).

Definition set_slot (slot id : Z) (t : Touch) : Touch :=
  mkTouch (<[Z.to_nat slot := id]> (touch_slots t)) (last_slot t).

Definition push_finger_down (x y finger_id : Z) (st : Touch * list Event) : Touch * list Event :=
  let slot := find_touch_slot st.1 (-1) in
  if decide (slot = -1) then st
  else
    let '(t, es) := push_slot slot (set_slot slot finger_id st.1, st.2) in
    (t, es ++ [mkEvent EV_ABS ABS_MT_TRACKING_ID (Z.rem finger_id MAX_TRACKING_ID + 1);
               mkEvent EV_ABS ABS_MT_POSITION_X x;
               mkEvent EV_ABS ABS_MT_POSITION_Y y;
               mkEvent EV_SYN SYN_REPORT 0]).

Definition push_finger_up (finger_id : Z) (st : Touch * list Event) : Touch * list Event :=
  let slot := find_touch_slot st.1 finger_id in
  if decide (slot = -1) then st
  else
    let '(t, es) := push_slot slot st in
    (set_slot slot (-1) t,
     es ++ [mkEvent EV_ABS ABS_MT_TRACKING_ID (-1); mkEvent EV_SYN SYN_REPORT 0]).

Definition push_finger_motion (x y finger_id : Z) (st : Touch * list Event) : Touch * list Event :=
  let slot := find_touch_slot st.1 finger_id in
  if decide (slot = -1) then st
  else
    let '(t, es) := push_slot slot st in
    (t, es ++ [mkEvent EV_ABS ABS_MT_POSITION_X x;
               mkEvent EV_ABS ABS_MT_POSITION_Y y;
               mkEvent EV_SYN SYN_REPORT 0]).

(** ** SDL events *)

Section platform.
Context {F : Type}.
Variable scale : Z → F → Z.
Variable above_one : F → bool.

Inductive SDL_Event : Type :=
  | SDL_MOUSEBUTTONDOWN (x y : Z)
  | SDL_MOUSEBUTTONUP
  | SDL_MOUSEMOTION (x y xrel yrel : Z)
  | SDL_MOUSEWHEEL (wheel_y : Z)
  | SDL_KEYDOWN (scancode : SDL_Scancode)
  | SDL_KEYUP (scancode : SDL_Scancode)
  | SDL_FINGERDOWN (fx fy : F) (finger_id : Z)
  | SDL_FINGERUP (finger_id : Z)
  | SDL_FINGERMOTION (fx fy : F) (finger_id : Z)
  | SDL_other.

Record Configuration : Type := mkConfiguration {
  single_window : bool;
  no_touch_emulation : bool;
}.

(** What SDL knows when the event is handled: position and size of the
    focused window, if it exists, and the mouse position. *)
Record SdlState : Type := mkSdlState {
  focused_window : option (Z * Z * Z * Z);   (* x, y, width, height *)
  mouse_state : Z * Z;
  at_least_2_0_7 : bool;
}.

Record Platform : Type := mkPlatform {
  config_ : Configuration;
  display_frame_ : Rect;
  pointer_ : Device;
  keyboard_ : Device;
  touch_ : Device;
  touch : Touch;
}.

Definition adjust_window (window : option (Z * Z * Z * Z)) (x y : Z) : option (Z * Z) :=
  match window with
  | None => None
  | Some (rel_x, rel_y, _, _) => Some (i32 (x + rel_x), i32 (y + rel_y))
  end.

Definition adjust_coordinates (c : Configuration) (s : SdlState) (x y : Z) : option (Z * Z) :=
  if single_window c then Some (x, y) else adjust_window (focused_window s) x y.

Definition calculate_touch_coordinates (c : Configuration) (frame : Rect) (s : SdlState) (fx fy : F) :
    option (Z * Z) :=
  let '(x, y) :=
    if negb (at_least_2_0_7 s) && (above_one fx || above_one fy) then (scale 1 fx, scale 1 fy)
    else match focused_window s with
         | Some (_, _, w, h) => (scale w fx, scale h fy)
         | None => (scale (width frame) fx, scale (height frame) fy)
         end in
  if single_window c then Some (x, y) else adjust_window (focused_window s) x y.

(** The events an SDL event makes for pointer, keyboard and touch screen. *)
Definition input_events (c : Configuration) (frame : Rect) (s : SdlState) (t : Touch) (e : SDL_Event) :
    list Event * list Event * (Touch * list Event) :=
  let nothing := ([], [], (t, [])) in
  match e with
  | SDL_MOUSEBUTTONDOWN x y =>
      if no_touch_emulation c then ([mkEvent EV_KEY BTN_LEFT 1], [], (t, []))
      else match adjust_coordinates c s x y with
           | None => nothing
           | Some (x, y) => ([], [], push_finger_down x y emulated_touch_id_ (t, []))
           end
  | SDL_MOUSEBUTTONUP =>
      if no_touch_emulation c then ([mkEvent EV_KEY BTN_LEFT 0], [], (t, []))
      else ([], [], push_finger_up emulated_touch_id_ (t, []))
  | SDL_MOUSEMOTION x y xrel yrel =>
      match adjust_coordinates c s x y with
      | None => nothing
      | Some (x, y) =>
          if no_touch_emulation c then
            ([mkEvent EV_ABS ABS_X x; mkEvent EV_ABS ABS_Y y;
              mkEvent EV_REL REL_X xrel; mkEvent EV_REL REL_Y yrel], [], (t, []))
          else ([], [], push_finger_motion x y emulated_touch_id_ (t, []))
      end
  | SDL_MOUSEWHEEL wheel_y =>
      let wheel := mkEvent EV_REL REL_WHEEL wheel_y in
      if no_touch_emulation c then ([wheel], [], (t, []))
      else
        let '(mx, my) := mouse_state s in
        match adjust_coordinates c s mx my with
        | None => nothing
        | Some (x, y) => ([mkEvent EV_ABS ABS_X x; mkEvent EV_ABS ABS_Y y; wheel], [], (t, []))
        end
  | SDL_KEYDOWN scancode =>
      let code := convert scancode in
      if decide (code = KEY_RESERVED) then nothing else ([], [mkEvent EV_KEY code 1], (t, []))
  | SDL_KEYUP scancode =>
      let code := convert scancode in
      if decide (code = KEY_RESERVED) then nothing else ([], [mkEvent EV_KEY code 0], (t, []))
  | SDL_FINGERDOWN fx fy finger_id =>
      match calculate_touch_coordinates c frame s fx fy with
      | None => nothing
      | Some (x, y) => ([], [], push_finger_down x y (i32 finger_id) (t, []))
      end
  | SDL_FINGERUP finger_id => ([], [], push_finger_up (i32 finger_id) (t, []))
  | SDL_FINGERMOTION fx fy finger_id =>
      match calculate_touch_coordinates c frame s fx fy with
      | None => nothing
      | Some (x, y) => ([], [], push_finger_motion x y (i32 finger_id) (t, []))
      end
  | SDL_other => nothing
  end.

Definition set_pointer (d : Device) (p : Platform) : Platform :=
  mkPlatform (config_ p) (display_frame_ p) d (keyboard_ p) (touch_ p) (touch p).
Definition set_keyboard (d : Device) (p : Platform) : Platform :=
  mkPlatform (config_ p) (display_frame_ p) (pointer_ p) d (touch_ p) (touch p).
Definition set_touch_device (d : Device) (p : Platform) : Platform :=
  mkPlatform (config_ p) (display_frame_ p) (pointer_ p) (keyboard_ p) d (touch p).
Definition set_touch (t : Touch) (p : Platform) : Platform :=
  mkPlatform (config_ p) (display_frame_ p) (pointer_ p) (keyboard_ p) (touch_ p) t.

Definition send_nonempty (view : Platform → Device) (set : Device → Platform → Platform)
    (sec nsec : Z) (es : list Event) : M Platform unit :=
  if decide (0 < length es)%nat then zoom view set (send_events sec nsec es) else mret tt.

Definition process_input_event (s : SdlState) (sec nsec : Z) (e : SDL_Event) : M Platform unit :=
  p ← get;
  let '(mouse_events, keyboard_events, (t, touch_events)) :=
    input_events (config_ p) (display_frame_ p) s (touch p) e in
  put (set_touch t p) ≫= λ _,
  send_nonempty pointer_ set_pointer sec nsec
    (if decide (0 < length mouse_events)%nat then mouse_events ++ [mkEvent EV_SYN SYN_REPORT 0] else []) ≫= λ _,
  send_nonempty keyboard_ set_keyboard sec nsec keyboard_events ≫= λ _,
  send_nonempty touch_ set_touch_device sec nsec touch_events.
End platform.

(** ** Window::on_window_hit (platform/sdl/window.cpp) *)

Definition window_resize_border : Z := 10.
Definition top_drag_area : Z := 42.
Definition button_size : Z := 32.
Definition button_margin : Z := 5.
Definition button_padding : Z := 0.

Inductive HitTestResult : Type :=
  | HITTEST_NORMAL | HITTEST_DRAGGABLE
  | HITTEST_RESIZE_TOPLEFT | HITTEST_RESIZE_TOP | HITTEST_RESIZE_TOPRIGHT | HITTEST_RESIZE_RIGHT
  | HITTEST_RESIZE_BOTTOMRIGHT | HITTEST_RESIZE_BOTTOM | HITTEST_RESIZE_BOTTOMLEFT | HITTEST_RESIZE_LEFT.

(** What the test does to the window besides answering. *)
Inductive HitAction : Type := hit_nothing | hit_close | hit_switch_window_state.

Record WindowFlags : Type := mkWindowFlags { fullscreen : bool; resizable : bool; maximized : bool }.

Definition on_window_hit (flags : WindowFlags) (w h x y : Z) : HitAction * HitTestResult :=
  let border_size := dp_to_pixel window_resize_border in
  let top_drag_area_height := dp_to_pixel top_drag_area in
  let button_area_width := dp_to_pixel (button_size + button_padding * 2 + button_margin * 2) in
  let lt a b := bool_decide (a < b) in
  if fullscreen flags then (hit_nothing, HITTEST_NORMAL)
  else if negb (resizable flags) then
    (hit_nothing, if lt y border_size then HITTEST_DRAGGABLE else HITTEST_NORMAL)
  else if lt y top_drag_area_height then
    if lt (w - button_area_width) x && lt x w then (hit_close, HITTEST_NORMAL)
    else if lt (w - button_area_width * 2) x && lt x (w - button_area_width)
         then (hit_switch_window_state, HITTEST_NORMAL)
    else (hit_nothing, HITTEST_DRAGGABLE)
  else if maximized flags then (hit_nothing, HITTEST_NORMAL)
  else
    (hit_nothing,
     if lt x border_size && lt y border_size then HITTEST_RESIZE_TOPLEFT
     else if lt border_size x && lt x (w - border_size) && lt y border_size then HITTEST_RESIZE_TOP
     else if lt (w - border_size) x && lt y border_size then HITTEST_RESIZE_TOPRIGHT
     else if lt (w - border_size) x && lt border_size y && lt y (h - border_size) then HITTEST_RESIZE_RIGHT
     else if lt (w - border_size) x && lt (h - border_size) y then HITTEST_RESIZE_BOTTOMRIGHT
     else if lt x (w - border_size) && lt border_size x && lt (h - border_size) y then HITTEST_RESIZE_BOTTOM
     else if lt x border_size && lt (h - border_size) y then HITTEST_RESIZE_BOTTOMLEFT
     else if lt x border_size && lt y (h - border_size) && lt border_size y then HITTEST_RESIZE_LEFT
     else HITTEST_NORMAL).

(** ** The multi-touch protocol's reader *)

(** Per slot: tracking id (-1: no contact) and position. *)
Record Receiver : Type := mkReceiver { current : Z; contacts : list (Z * Z * Z) }.

Definition receiver_new : Receiver := mkReceiver 0 (replicate MAX_FINGERS (-1, 0, 0)).

Definition on_contact (f : Z * Z * Z → Z * Z * Z) (r : Receiver) : Receiver :=
  mkReceiver (current r) (alter f (Z.to_nat (current r)) (contacts r)).

Definition receive (r : Receiver) (e : Event) : Receiver :=
  if decide (type e = EV_ABS) then
    if decide (code e = ABS_MT_SLOT) then mkReceiver (value e) (contacts r)
    else if decide (code e = ABS_MT_TRACKING_ID) then on_contact (λ '(_, x, y), (value e, x, y)) r
    else if decide (code e = ABS_MT_POSITION_X) then on_contact (λ '(i, _, y), (i, value e, y)) r
    else if decide (code e = ABS_MT_POSITION_Y) then on_contact (λ '(i, x, _), (i, x, value e)) r
    else r
  else r.

(** ** What is meant: fingers in slots *)

Inductive finger_op : Type :=
  | finger_down (x y id : Z)
  | finger_up (id : Z)
  | finger_motion (x y id : Z).

Definition op_id (o : finger_op) : Z :=
  match o with finger_down _ _ i => i | finger_up i => i | finger_motion _ _ i => i end.

(** Finger and position per slot. *)
Abbreviation fingers := (list (option (Z * Z * Z))).

(** Change the first slot that satisfies [p]. *)
Fixpoint on_first (p : option (Z * Z * Z) → bool) (v : option (Z * Z * Z)) (fs : fingers) : fingers :=
  match fs with
  | [] => []
  | o :: fs' => if p o then v :: fs' else o :: on_first p v fs'
  end.
Definition is_free (o : option (Z * Z * Z)) : bool := match o with None => true | Some _ => false end.
Definition held_by (id : Z) (o : option (Z * Z * Z)) : bool :=
  match o with Some (f, _, _) => bool_decide (f = id) | None => false end.

Definition finger_spec (fs : fingers) (o : finger_op) : fingers :=
  match o with
  | finger_down x y id => on_first is_free (Some (id, x, y)) fs
  | finger_up id => on_first (held_by id) None fs
  | finger_motion x y id => on_first (held_by id) (Some (id, x, y)) fs
  end.

Definition finger_do (st : Touch * list Event) (o : finger_op) : Touch * list Event :=
  match o with
  | finger_down x y id => push_finger_down x y id st
  | finger_up id => push_finger_up id st
  | finger_motion x y id => push_finger_motion x y id st
  end.

(** ** The simulation *)

Definition slot_id (o : option (Z * Z * Z)) : Z := match o with Some (f, _, _) => f | None => -1 end.

Definition contact_ok (c : Z * Z * Z) (o : option (Z * Z * Z)) : Prop :=
  match o with
  | Some (f, x, y) => c = (Z.rem f MAX_TRACKING_ID + 1, x, y)
  | None => c.1.1 = -1
  end.

Record agree (t : Touch) (r : Receiver) (fs : fingers) : Prop := mk_agree {
  agree_slots : touch_slots t = map slot_id fs;
  agree_ids : Forall (λ o, match o with Some (f, _, _) => 0 ≤ f | None => True end) fs;
  agree_contacts : Forall2 contact_ok (contacts r) fs;
  agree_current : last_slot t = -1 ∨ current r = last_slot t;
}.

Lemma find_slot_from_spec k slots id : 0 ≤ k →
  (find_slot_from k slots id = -1 ∧ id ∉ slots) ∨
  (∃ i, find_slot_from k slots id = k + Z.of_nat i ∧ slots !! i = Some id ∧ ∀ j, (j < i)%nat → slots !! j ≠ Some id).
Proof.
  revert k. induction slots as [|s slots IH]; intros k Hk; cbn; [left; split; [done|set_solver]|].
  case_decide as Hs.
  - right. exists 0%nat. subst. split; [lia|]. split; [done|]. intros j Hj. lia.
  - destruct (IH (k + 1)) as [[-> Hn]|(i & -> & Hi & Hj)]; [lia|left; split; [done|set_solver]|].
    right. exists (S i). split; [lia|]. split; [done|]. intros [|j] Hlt; [naive_solver|]. apply Hj. lia.
Qed.

Lemma on_first_insert p v fs i o : fs !! i = Some o → p o = true →
  (∀ j o', (j < i)%nat → fs !! j = Some o' → p o' = false) → on_first p v fs = <[i := v]> fs.
Proof.
  revert i. induction fs as [|o' fs IH]; intros [|i] Hi Hp Hj; cbn in *; try done.
  - injection Hi as ->. by rewrite Hp.
  - rewrite (Hj 0%nat o') by (done || lia). f_equal. apply IH; [done|done|]. intros j o'' Hlt. apply (Hj (S j)). lia.
Qed.

Lemma on_first_none p v fs : Forall (λ o, p o = false) fs → on_first p v fs = fs.
Proof. induction 1 as [|o fs Ho _ IH]; cbn; [done|]. by rewrite Ho, IH. Qed.

(** The slot the code finds is the one the specification means. *)
Lemma find_touch_slot_spec t r fs id p v :
  agree t r fs → (∀ o, o ∈ fs → p o = bool_decide (slot_id o = id)) →
  (find_touch_slot t id = -1 ∧ on_first p v fs = fs) ∨
  (∃ i o, find_touch_slot t id = Z.of_nat i ∧ fs !! i = Some o ∧ slot_id o = id ∧ on_first p v fs = <[i := v]> fs).
Proof.
  intros [Hs _ _ _] Hp. unfold find_touch_slot. rewrite Hs.
  assert (Hpf : ∀ j o, fs !! j = Some o → p o = bool_decide (slot_id o = id)).
  { intros j o Hj. apply Hp. by eapply list_elem_of_lookup_2. }
  destruct (find_slot_from_spec 0 (map slot_id fs) id) as [[-> Hn]|(i & -> & Hi & Hj)]; [done| |].
  - left. split; [done|]. apply on_first_none, Forall_lookup. intros j o Ho. rewrite (Hpf j o Ho).
    apply bool_decide_eq_false. intros <-. apply Hn. apply list_elem_of_fmap. exists o. split; [done|].
    by eapply list_elem_of_lookup_2.
  - right. rewrite list_lookup_fmap in Hi. destruct (fs !! i) as [o|] eqn:Ho; [|done]. injection Hi as Hi.
    exists i, o. split; [done|]. split; [done|]. split; [done|]. apply (on_first_insert _ _ _ _ o); [done| |].
    + rewrite (Hpf i o Ho). by apply bool_decide_eq_true.
    + intros j o' Hlt Ho'. rewrite (Hpf j o' Ho'). apply bool_decide_eq_false. intros E.
      apply (Hj j Hlt). rewrite list_lookup_fmap, Ho'. cbn. by rewrite E.
Qed.

(** After [push_slot] the reader is at the slot. *)
Lemma push_slot_receive slot t es r :
  last_slot t = -1 ∨ current r = last_slot t → slot ≠ -1 →
  ∃ es1, push_slot slot (t, es) = (mkTouch (touch_slots t) slot, es ++ es1) ∧
    foldl receive r es1 = mkReceiver slot (contacts r).
Proof.
  intros Hc Hs. unfold push_slot. case_decide as Hl.
  - exists []. rewrite app_nil_r. split; [by destruct t; cbn in *; subst|]. cbn. destruct r; cbn in *. f_equal.
    destruct Hc; lia.
  - by eexists.
Qed.

Lemma agree_update t r fs i o v c :
  agree t r fs → fs !! i = Some o → contact_ok c v →
  match v with Some (f, _, _) => 0 ≤ f | None => True end →
  agree (mkTouch (<[i := slot_id v]> (touch_slots t)) (Z.of_nat i))
    (mkReceiver (Z.of_nat i) (<[i := c]> (contacts r))) (<[i := v]> fs).
Proof.
  intros [H1 H2 H3 _] Hi Hc Hv. split; cbn.
  - rewrite H1. symmetry. apply list_fmap_insert.
  - by apply Forall_insert.
  - by apply Forall2_insert.
  - by right.
Qed.

Lemma alter_insert {A} (f : A → A) i (l : list A) x : l !! i = Some x → alter f i l = <[i := f x]> l.
Proof.
  revert i. induction l as [|y l IH]; intros [|i] Hi; cbn in *; try done; [by injection Hi as ->|].
  f_equal. by apply IH.
Qed.

Lemma agree_contact t r fs i o : agree t r fs → fs !! i = Some o →
  ∃ c, contacts r !! i = Some c ∧ contact_ok c o.
Proof. intros Ha Hi. exact (Forall2_lookup_r _ _ _ _ _ (agree_contacts _ _ _ Ha) Hi). Qed.

Lemma is_free_spec t r fs o : agree t r fs → o ∈ fs → is_free o = bool_decide (slot_id o = -1).
Proof.
  intros Ha Ho. pose proof (agree_ids _ _ _ Ha) as Hids. rewrite List.Forall_forall in Hids.
  apply list_elem_of_In, Hids in Ho. destruct o as [[[f x] y]|]; cbn; [|done].
  symmetry. apply bool_decide_eq_false. lia.
Qed.

Lemma held_by_spec id o : 0 ≤ id → held_by id o = bool_decide (slot_id o = id).
Proof. intros Hid. destruct o as [[[f x] y]|]; cbn; [done|]. symmetry. apply bool_decide_eq_false. lia. Qed.

Lemma on_contact_at f i l c : l !! i = Some c →
  on_contact f (mkReceiver (Z.of_nat i) l) = mkReceiver (Z.of_nat i) (<[i := f c]> l).
Proof.
  intros Hc. unfold on_contact. cbn [current contacts]. rewrite Nat2Z.id. by rewrite (alter_insert f i l c Hc).
Qed.

(** The events of one operation, after the slot has been selected, change the
    reader's contact of that slot only. *)
Lemma receive_motion i c r x y :
  contacts r !! i = Some c →
  foldl receive (mkReceiver (Z.of_nat i) (contacts r))
    [mkEvent EV_ABS ABS_MT_POSITION_X x; mkEvent EV_ABS ABS_MT_POSITION_Y y; mkEvent EV_SYN SYN_REPORT 0] =
  mkReceiver (Z.of_nat i) (<[i := (c.1.1, x, y)]> (contacts r)).
Proof.
  intros Hc. destruct c as [[c1 c2] c3]. assert (Hlt := lookup_lt_Some _ _ _ Hc).
  transitivity (on_contact (λ '(i, x, _), (i, x, y)) (on_contact (λ '(i, _, y), (i, x, y))
    (mkReceiver (Z.of_nat i) (contacts r)))); [reflexivity|].
  rewrite (on_contact_at _ i _ _ Hc), (on_contact_at _ i _ (c1, x, c3)) by (by rewrite list_lookup_insert_eq).
  by rewrite list_insert_insert_eq.
Qed.

Lemma receive_tracking i c r tid : contacts r !! i = Some c →
  receive (mkReceiver (Z.of_nat i) (contacts r)) (mkEvent EV_ABS ABS_MT_TRACKING_ID tid) =
  mkReceiver (Z.of_nat i) (<[i := (tid, c.1.2, c.2)]> (contacts r)).
Proof.
  intros Hc. destruct c as [[c1 c2] c3].
  transitivity (on_contact (λ '(_, x, y), (tid, x, y)) (mkReceiver (Z.of_nat i) (contacts r))); [reflexivity|].
  by rewrite (on_contact_at _ i _ _ Hc).
Qed.

Lemma receive_down i c r tid x y :
  contacts r !! i = Some c →
  foldl receive (mkReceiver (Z.of_nat i) (contacts r))
    [mkEvent EV_ABS ABS_MT_TRACKING_ID tid; mkEvent EV_ABS ABS_MT_POSITION_X x;
     mkEvent EV_ABS ABS_MT_POSITION_Y y; mkEvent EV_SYN SYN_REPORT 0] =
  mkReceiver (Z.of_nat i) (<[i := (tid, x, y)]> (contacts r)).
Proof.
  intros Hc. assert (Hlt := lookup_lt_Some _ _ _ Hc). cbn [foldl]. rewrite (receive_tracking i c r tid Hc).
  etransitivity; [exact (receive_motion i _ (mkReceiver 0 (<[i := (tid, c.1.2, c.2)]> (contacts r))) x y
    (list_lookup_insert_eq _ _ _ Hlt))|].
  cbn [contacts fst]. by rewrite list_insert_insert_eq.
Qed.

Lemma receive_up i c r :
  contacts r !! i = Some c →
  foldl receive (mkReceiver (Z.of_nat i) (contacts r))
    [mkEvent EV_ABS ABS_MT_TRACKING_ID (-1); mkEvent EV_SYN SYN_REPORT 0] =
  mkReceiver (Z.of_nat i) (<[i := (-1, c.1.2, c.2)]> (contacts r)).
Proof. intros Hc. cbn [foldl]. by rewrite (receive_tracking i c r (-1) Hc). Qed.

Lemma finger_do_agree t r fs es o : 0 ≤ op_id o → agree t r fs →
  ∃ t' es1, finger_do (t, es) o = (t', es ++ es1) ∧ agree t' (foldl receive r es1) (finger_spec fs o).
Proof.
  intros Hid Ha. assert (Hcur := agree_current _ _ _ Ha). assert (Hslots := agree_slots _ _ _ Ha).
  destruct o as [x y id|id|x y id]; cbn [op_id finger_do finger_spec] in *.
  - unfold push_finger_down. cbn [fst snd].
    destruct (find_touch_slot_spec t r fs (-1) is_free (Some (id, x, y)) Ha)
      as [[-> Hf]|(i & o & -> & Hi & Hso & ->)]; [intros o Ho; by apply (is_free_spec t r fs)| |].
    { exists t, []. rewrite decide_True, app_nil_r, Hf by done. by split. }
    rewrite decide_False by lia. destruct (agree_contact t r fs i o Ha Hi) as (c & Hc & _).
    destruct (push_slot_receive (Z.of_nat i) (set_slot (Z.of_nat i) id t) es r Hcur) as (es1 & -> & Hr1); [lia|].
    cbn beta iota. eexists _, _. split; [by rewrite <- app_assoc|].
    rewrite foldl_app, Hr1, (receive_down i c r _ _ _ Hc). unfold set_slot. cbn [touch_slots last_slot].
    rewrite Nat2Z.id. exact (agree_update t r fs i o (Some (id, x, y)) _ Ha Hi eq_refl Hid).
  - unfold push_finger_up. cbn [fst snd].
    destruct (find_touch_slot_spec t r fs id (held_by id) None Ha)
      as [[-> Hf]|(i & o & -> & Hi & Hso & ->)]; [intros o Ho; by apply held_by_spec| |].
    { exists t, []. rewrite decide_True, app_nil_r, Hf by done. by split. }
    rewrite decide_False by lia. destruct (agree_contact t r fs i o Ha Hi) as (c & Hc & _).
    destruct (push_slot_receive (Z.of_nat i) t es r Hcur) as (es1 & -> & Hr1); [lia|].
    cbn beta iota. eexists _, _. split; [by rewrite <- app_assoc|].
    rewrite foldl_app, Hr1, (receive_up i c r Hc). unfold set_slot. cbn [touch_slots last_slot].
    rewrite Nat2Z.id. by apply (agree_update t r fs i o None (-1, c.1.2, c.2) Ha Hi).
  - unfold push_finger_motion. cbn [fst snd].
    destruct (find_touch_slot_spec t r fs id (held_by id) (Some (id, x, y)) Ha)
      as [[-> Hf]|(i & o & -> & Hi & Hso & ->)]; [intros o Ho; by apply held_by_spec| |].
    { exists t, []. rewrite decide_True, app_nil_r, Hf by done. by split. }
    rewrite decide_False by lia. destruct (agree_contact t r fs i o Ha Hi) as (c & Hc & Hco).
    destruct (push_slot_receive (Z.of_nat i) t es r Hcur) as (es1 & -> & Hr1); [lia|].
    cbn beta iota. eexists _, _. split; [by rewrite <- app_assoc|].
    rewrite foldl_app, Hr1, (receive_motion i c r _ _ Hc).
    assert (Hsame : touch_slots t = <[i := id]> (touch_slots t)).
    { symmetry. apply list_insert_id. rewrite Hslots, list_lookup_fmap, Hi. cbn. by rewrite Hso. }
    rewrite Hsame at 1. apply (agree_update t r fs i o (Some (id, x, y)) _ Ha Hi); [|done].
    destruct o as [[[f ?] ?]|]; cbn in *; [|lia]. by subst.
Qed.

(** ** Properties *)

(** C4: Multi-touch refinement.  For every sequence of finger presses, lifts
    and movements with non-negative finger ids, the events the platform sends,
    read by the Linux multi-touch protocol, show exactly the fingers that are
    down: each slot's contact has the finger's tracking id and latest position,
    and a slot without finger has no contact.  A press takes the first free slot
    (and is dropped when all ten are taken); a lift or movement concerns the
    first slot of that finger. *)
Theorem touch_protocol_refines ops :
  Forall (λ o, 0 ≤ op_id o) ops →
  let '(t, es) := foldl finger_do (touch_new, []) ops in
  let r := foldl receive receiver_new es in
  let fs := foldl finger_spec (replicate MAX_FINGERS None) ops in
  Forall2 contact_ok (contacts r) fs ∧ touch_slots t = map slot_id fs ∧ length fs = MAX_FINGERS.
Proof.
  intros Hops.
  assert (H : ∀ t r fs es0, agree t r fs → foldl receive receiver_new es0 = r →
    let '(t', es) := foldl finger_do (t, es0) ops in
    agree t' (foldl receive receiver_new es) (foldl finger_spec fs ops)).
  { induction Hops as [|o ops Ho _ IH]; intros t r fs es0 Ha Hr; cbn [foldl]; [by rewrite Hr|].
    destruct (finger_do_agree t r fs es0 o Ho Ha) as (t' & es1 & -> & Ha').
    apply (IH t' (foldl receive r es1)); [done|]. by rewrite foldl_app, Hr. }
  assert (H0 : agree touch_new receiver_new (replicate MAX_FINGERS None)).
  { split; [reflexivity|by repeat constructor|by repeat constructor|by left]. }
  specialize (H touch_new receiver_new (replicate MAX_FINGERS None) [] H0 eq_refl).
  assert (Hlen : length (foldl finger_spec (replicate MAX_FINGERS None) ops) = MAX_FINGERS).
  { clear. assert (Hf : ∀ p v fs, length (on_first p v fs) = length fs).
    { intros p v fs. induction fs as [|o fs IH]; cbn; [done|]. destruct (p o); cbn; congruence. }
    change MAX_FINGERS with (length (replicate MAX_FINGERS (@None (Z * Z * Z)))) at 2.
    generalize (replicate MAX_FINGERS (@None (Z * Z * Z))).
    induction ops as [|o ops IH]; intros fs; cbn; [done|]. rewrite IH. destruct o; apply Hf. }
  destruct (foldl finger_do (touch_new, []) ops) as [t es]. destruct H as [Hs _ Hc _]. done.
Qed.

(** The regions of a window's frame.  For every window state and point,
    the three results that resize at the top edge are never returned (the drag
    area is tested first and is taller than the border), the window is closed
    exactly by a hit in the right button of the title bar of a resizable window
    that is not full screen, and points inside the border below the title bar
    are left to the application. *)
Theorem window_hit_regions flags w h x y :
  let '(act, res) := on_window_hit flags w h x y in
  res ≠ HITTEST_RESIZE_TOPLEFT ∧ res ≠ HITTEST_RESIZE_TOP ∧ res ≠ HITTEST_RESIZE_TOPRIGHT ∧
  (act = hit_close ↔ fullscreen flags = false ∧ resizable flags = true ∧ y < 42 ∧ w - 42 < x < w) ∧
  (42 ≤ y → 10 ≤ x ≤ w - 10 → y ≤ h - 10 → act = hit_nothing ∧ res = HITTEST_NORMAL).
Proof.
  unfold on_window_hit. change (dp_to_pixel window_resize_border) with 10.
  change (dp_to_pixel top_drag_area) with 42. change (dp_to_pixel (button_size + button_padding * 2 + button_margin * 2)) with 42.
  destruct flags as [[] [] []]; cbn [fullscreen resizable maximized negb];
    repeat match goal with |- context [bool_decide (?a < ?b)] =>
      destruct (bool_decide_reflect (a < b)); cbn [andb] end;
    split_and!; try done; try (split; intros; (done || lia)); intros; (done || lia).
Qed.

Lemma touch_protocol_refines_witness :
  Forall2 contact_ok
    (contacts (foldl receive receiver_new (foldl finger_do (touch_new, [])
      [finger_down 1 2 0; finger_down 3 4 5; finger_up 0; finger_motion 7 8 5]).2))
    ([None; Some (5, 7, 8)] ++ replicate 8 None).
Proof.
  apply (touch_protocol_refines [finger_down 1 2 0; finger_down 3 4 5; finger_up 0; finger_motion 7 8 5]).
  repeat constructor; cbn; lia.
Defined.
