(* ===== verification/Adb.v ===== *)
(** * The adb proxy (src/src/anbox/qemu/adb_message_processor.cpp)

    Every [qemud:adb] pipe the container opens gets an [AdbMessageProcessor].
    The class-wide mutex [active_instance_] lets one of them at a time listen
    for the adb host server and proxy its traffic; the others block inside
    [process_data] until the active one is destroyed.

    [Adb] is the object, its operations run in [M Adb].  [lock_.lock()] is
    where a thread may block, so [process_data] returns [blocked] there and
    [after_lock] is the rest of the call; [World] holds all the instances and
    the owner of the mutex, and [adb_step] interleaves their events.  Sockets
    are arguments: the outcome of binding the listening port and of reaching
    the adb server, and the completed reads. *)

From S2P Require Import Prelude Utils Network.

(** ** Constants *)

Definition default_host_listen_port : Z := 5559.
Definition accept_command : bytes := bytes_of_string "accept".
Definition ok_command : bytes := bytes_of_string "ok".
Definition start_command : bytes := bytes_of_string "start".

(** ** The object *)

Inductive AdbState : Type :=
  | waiting_for_guest_accept_command
  | waiting_for_host_connection
  | waiting_for_guest_start_command
  | proxying_data
  | closed_by_container
  | closed_by_host.

#[global] Instance AdbState_eq_dec : EqDecision AdbState.
Proof. solve_decision. Defined.

(** [host_connector_] says that the listening connector exists,
    [host_reading] that an asynchronous host read is outstanding, [owns_lock]
    is [lock_]'s flag and [notified] what the adb server on port 5037 got. *)
Record Adb : Type := mkAdb {
  state_ : AdbState;
  expected_command_ : bytes;
  messenger_ : Sender;
  buffer_ : bytes;
  host_connector_ : bool;
  host_messenger_ : option Sender;
  host_reading : bool;
  owns_lock : bool;
  notified : list bytes;
}.

Definition set_state st e a := mkAdb st e (messenger_ a) (buffer_ a) (host_connector_ a)
  (host_messenger_ a) (host_reading a) (owns_lock a) (notified a).
Definition set_buffer b e a := mkAdb (state_ a) e (messenger_ a) b (host_connector_ a)
  (host_messenger_ a) (host_reading a) (owns_lock a) (notified a).
Definition set_messenger m a := mkAdb (state_ a) (expected_command_ a) m (buffer_ a)
  (host_connector_ a) (host_messenger_ a) (host_reading a) (owns_lock a) (notified a).
Definition set_connector c a := mkAdb (state_ a) (expected_command_ a) (messenger_ a) (buffer_ a)
  c (host_messenger_ a) (host_reading a) (owns_lock a) (notified a).
Definition set_host h r a := mkAdb (state_ a) (expected_command_ a) (messenger_ a) (buffer_ a)
  (host_connector_ a) h r (owns_lock a) (notified a).
Definition set_lock l a := mkAdb (state_ a) (expected_command_ a) (messenger_ a) (buffer_ a)
  (host_connector_ a) (host_messenger_ a) (host_reading a) l (notified a).
Definition add_notified n a := mkAdb (state_ a) (expected_command_ a) (messenger_ a) (buffer_ a)
  (host_connector_ a) (host_messenger_ a) (host_reading a) (owns_lock a) (notified a ++ [n]).

Definition adb_new (m : Sender) : Adb :=
  mkAdb waiting_for_guest_accept_command accept_command m [] false None false false [].

(** ** Operations *)

Definition send_container (d : bytes) : M Adb unit := zoom messenger_ set_messenger (send d).
Definition close_container : M Adb unit :=
  modify (λ a, set_messenger (mkSender false (wire (messenger_ a))) a).

(** A null [host_messenger_] is dereferenced. *)
Definition read_next_host_message : M Adb unit :=
  a ← get;
  match host_messenger_ a with
  | None => undefined
  | Some h => put (set_host (Some h) true a)
  end.

Definition handshake_message : bytes :=
  bytes_of_string ("host:emulator:" +:+ format_d default_host_listen_port).
Definition handshake : bytes :=
  format_04x (Z.of_nat (length handshake_message)) ++ handshake_message.

(** [bind] is what constructing the [TcpSocketConnector] does, [server_up]
    whether the adb server can be reached and written to. *)
Definition adb_wait_for_host_connection (bind : option exn) (server_up : bool) : M Adb unit :=
  a ← get;
  if decide (state_ a = waiting_for_guest_accept_command) then
    (if host_connector_ a then mret tt
     else match bind with
          | Some e => throw e
          | None => modify (set_connector true)
          end) ≫= λ _,
    try_catch
      (if server_up then modify (add_notified handshake) else throw (runtime_error "connect"))
      (λ _, mret tt)
  else mret tt.

Inductive progress : Type := finished | blocked.

(** The part of [advance_state] behind [lock_.lock()]. *)
Definition after_lock (bind : option exn) (server_up : bool) : M Adb unit :=
  modify (set_lock true) ≫= λ _,
  a ← get;
  if decide (state_ a = closed_by_host) then modify (set_connector false)
  else adb_wait_for_host_connection bind server_up.

(** [std::unique_lock::lock] raises when the lock is owned already. *)
Definition resource_deadlock_would_occur : Z := 35.

Definition advance_state : M Adb progress :=
  a ← get;
  match state_ a with
  | waiting_for_guest_accept_command =>
      if owns_lock a then throw (system_error resource_deadlock_would_occur) else mret blocked
  | waiting_for_host_connection =>
      send_container ok_command ≫= λ _,
      modify (set_state waiting_for_guest_start_command start_command) ≫= λ _, mret finished
  | waiting_for_guest_start_command =>
      modify (λ a, set_state proxying_data (expected_command_ a) a) ≫= λ _,
      read_next_host_message ≫= λ _, mret finished
  | proxying_data => mret finished
  | closed_by_host => close_container ≫= λ _, mret finished
  | closed_by_container => mret finished
  end.

Definition on_host_connection (socket : Sender) : M Adb unit :=
  modify (set_host (Some socket) false) ≫= λ _,
  send_container ok_command ≫= λ _,
  modify (set_state waiting_for_guest_start_command start_command).

Definition operation_canceled : Z := 125.

Definition on_host_read_size (completed : Z + bytes) : M Adb unit :=
  match completed with
  | inl error =>
      if decide (error = operation_canceled) then mret tt
      else modify (λ a, set_state closed_by_host (expected_command_ a) a) ≫= λ _, close_container
  | inr d => send_container d ≫= λ _, read_next_host_message
  end.

(** [memcmp(buffer, command, n)] with [n] the size of the last chunk: the
    command's storage ends after its terminating zero. *)
Definition memcmp_command (b command : bytes) (n : nat) : option bool :=
  if decide (n ≤ length b ∧ n ≤ S (length command))%nat
  then Some (bytes_eqb (take n b) (take n (command ++ [0])))
  else None.

Definition adb_process_data (data : bytes) : M Adb (bool * progress) :=
  a ← get;
  if decide (state_ a = proxying_data) then
    match host_messenger_ a with
    | None => undefined
    | Some h =>
        match send data h with
        | Val h' _ => put (set_host (Some h') (host_reading a) a) ≫= λ _, mret (true, finished)
        | Exc h' e => put (set_host (Some h') (host_reading a) a) ≫= λ _, throw e
        | Ub => undefined
        end
    end
  else
    modify (set_buffer (buffer_ a ++ data) (expected_command_ a)) ≫= λ _,
    a ← get;
    if decide (0 < length (expected_command_ a) ∧
               length (expected_command_ a) ≤ length (buffer_ a))%nat then
      match memcmp_command (buffer_ a) (expected_command_ a) (length data) with
      | None => undefined
      | Some false => mret (false, finished)
      | Some true =>
          modify (set_buffer (drop (length (expected_command_ a)) (buffer_ a)) []) ≫= λ _,
          p ← advance_state; mret (true, p)
      end
    else mret (true, finished).

(** ** All the instances *)

Record World : Type := mkWorld {
  instances : gmap Z Adb;
  waiters : gset Z;       (* threads inside [lock_.lock()] *)
  active : option Z;      (* owner of [active_instance_] *)
}.

Definition world0 : World := mkWorld ∅ ∅ None.

(** The object an operation leaves behind, returning or throwing. *)
Definition left_behind {A} (o : outcome Adb A) : option Adb :=
  match o with Val a _ => Some a | Exc a _ => Some a | Ub => None end.
Definition blocks (o : outcome Adb (bool * progress)) : bool :=
  match o with Val _ (_, blocked) => true | _ => false end.

(** [Runtime] runs the handlers on several threads.  A connection processes
    one read at a time and drops its processor from its own read handler, so
    an instance is neither fed nor destroyed while it waits for the mutex.
    Destruction is one step: it closes the connector, then the members go, the
    lock first.  (That the host connection is closed just after the lock was
    released is left out.) *)
Inductive adb_step : World → World → Prop :=
  | step_create w i m :
      instances w !! i = None →
      adb_step w (mkWorld (<[i := adb_new m]> (instances w)) (waiters w) (active w))
  | step_data w i a d a' :
      instances w !! i = Some a → i ∉ waiters w →
      left_behind (adb_process_data d a) = Some a' →
      adb_step w (mkWorld (<[i := a']> (instances w))
                    (if blocks (adb_process_data d a) then {[i]} ∪ waiters w else waiters w)
                    (active w))
  | step_lock w i a bind up a' :
      instances w !! i = Some a → i ∈ waiters w → active w = None →
      left_behind (after_lock bind up a) = Some a' →
      adb_step w (mkWorld (<[i := a']> (instances w)) (waiters w ∖ {[i]}) (Some i))
  | step_host w i a h a' :
      instances w !! i = Some a → host_connector_ a = true →
      left_behind (on_host_connection h a) = Some a' →
      adb_step w (mkWorld (<[i := a']> (instances w)) (waiters w) (active w))
  | step_host_read w i a c a' :
      instances w !! i = Some a → host_reading a = true →
      left_behind (on_host_read_size c (set_host (host_messenger_ a) false a)) = Some a' →
      adb_step w (mkWorld (<[i := a']> (instances w)) (waiters w) (active w))
  | step_destroy w i a :
      instances w !! i = Some a → i ∉ waiters w →
      adb_step w (mkWorld (delete i (instances w)) (waiters w)
                    (if owns_lock a then None else active w)).

Definition adb_reachable (w : World) : Prop := rtc adb_step world0 w.

(** ** Invariant of one instance *)

Record adb_ok (a : Adb) : Prop := mk_adb_ok {
  ok_unlocked : owns_lock a = false →
    state_ a = waiting_for_guest_accept_command ∧ host_connector_ a = false ∧
    host_messenger_ a = None;
  ok_host : state_ a = waiting_for_guest_start_command ∨ state_ a = proxying_data ∨
    host_reading a = true → is_Some (host_messenger_ a);
  ok_accepted : owns_lock a = true → state_ a = waiting_for_guest_accept_command →
    expected_command_ a = [];
  ok_states : state_ a ≠ waiting_for_host_connection;
}.

Ltac adb_cases :=
  repeat match goal with
  | H : context [match ?x with _ => _ end] |- _ =>
      lazymatch x with
      | context [match _ with _ => _ end] => fail
      | _ => destruct x eqn:?
      end
  | |- context [match ?x with _ => _ end] =>
      lazymatch x with
      | context [match _ with _ => _ end] => fail
      | _ => destruct x eqn:?
      end
  end.

Ltac adb_solve := split; cbn in *; intuition (eauto; congruence).

Lemma adb_new_ok m : adb_ok (adb_new m).
Proof. adb_solve. Qed.

Lemma advance_state_ok a : adb_ok a → expected_command_ a = [] →
  match advance_state a with
  | Val a' blocked => a' = a ∧ owns_lock a = false
  | Val a' finished => adb_ok a' ∧ owns_lock a' = owns_lock a
  | Exc a' _ => a' = a
  | Ub => False
  end.
Proof.
  intros [H1 H2 H3 H4] He. unfold advance_state, close_container, read_next_host_message. run_m.
  destruct (state_ a) eqn:Hs; cbn; rewrite ?Hs; try (by auto).
  - by destruct (owns_lock a).
  - destruct (host_messenger_ a) eqn:Hm; cbn.
    + split; [|done]. adb_solve.
    + destruct H2; [by auto|congruence].
  - split; [|done]. adb_solve.
  - split; [|done]. adb_solve.
  - split; [|done]. adb_solve.
Qed.

(** The operation keeps the invariant and leaves the lock flag at [l]. *)
Definition keeps {A} (l : bool) (o : outcome Adb A) : Prop :=
  match o with Val a' _ => adb_ok a' ∧ owns_lock a' = l | Exc a' _ => adb_ok a' ∧ owns_lock a' = l | Ub => False end.

Lemma set_buffer_ok b e a : adb_ok a → e = [] ∨ e = expected_command_ a → adb_ok (set_buffer b e a).
Proof. intros [] ?. split; cbn; intuition (eauto; congruence). Qed.

Lemma after_lock_ok bind up a :
  adb_ok a → owns_lock a = false → expected_command_ a = [] → keeps true (after_lock bind up a).
Proof.
  intros [H1 H2 H3 H4] Hl He. destruct (H1 Hl) as (Hs & Hc & Hm).
  unfold after_lock, adb_wait_for_host_connection. run_m. cbn [state_ set_lock].
  rewrite decide_False by congruence. rewrite decide_True by done. cbn [host_connector_ set_lock].
  rewrite Hc. destruct bind; [|destruct up]; cbn; (split; [|done]); adb_solve.
Qed.

Lemma on_host_connection_ok h a :
  adb_ok a → owns_lock a = true → keeps true (on_host_connection h a).
Proof.
  intros [H1 H2 H3 H4] Hl. unfold on_host_connection, send_container, send. run_m.
  cbn [messenger_ set_host set_messenger]. destruct (connected (messenger_ a)); cbn;
    (split; [|done]); adb_solve.
Qed.

Lemma on_host_read_size_ok c a :
  adb_ok a → owns_lock a = true → host_reading a = true →
  keeps true (on_host_read_size c (set_host (host_messenger_ a) false a)).
Proof.
  intros [H1 H2 H3 H4] Hl Hr. destruct (H2 (or_intror (or_intror Hr))) as [h Hh].
  unfold on_host_read_size, send_container, read_next_host_message, close_container, send.
  destruct c as [e|d]; run_m.
  - case_decide; cbn; (split; [|done]); adb_solve.
  - cbn [messenger_ set_host set_messenger]. destruct (connected (messenger_ a)); cbn;
      rewrite Hh; cbn; (split; [|done]); adb_solve.
Qed.

(** When the size of a chunk makes [memcmp] read past the command. *)
Definition chunk_overreads (a : Adb) (d : bytes) : Prop :=
  (state_ a ≠ proxying_data ∧ 0 < length (expected_command_ a) ∧
   length (expected_command_ a) ≤ length (buffer_ a ++ d) ∧
   S (length (expected_command_ a)) < length d)%nat.

Lemma adb_process_data_ok d a : adb_ok a →
  match adb_process_data d a with
  | Ub => chunk_overreads a d
  | o => ¬ chunk_overreads a d ∧ keeps (owns_lock a) o ∧
         (blocks o = true → owns_lock a = false ∧ ∀ a', left_behind o = Some a' → expected_command_ a' = [])
  end.
Proof.
  intros Hok. unfold adb_process_data, chunk_overreads. run_m. case_decide as Hp.
  - destruct (ok_host a Hok) as [h Hh]; [by auto|]. rewrite Hh. unfold send. run_m.
    destruct (connected h); cbn; (split; [tauto|split; [|done]]); (split; [|done]);
      destruct Hok; adb_solve.
  - cbn [expected_command_ buffer_ set_buffer]. case_decide as Hlen.
    2: { cbn. split; [lia|]. split; [|done]. split; [|done]. apply set_buffer_ok; auto. }
    unfold memcmp_command. case_decide as Hn.
    2: { rewrite length_app in *. repeat split; [tauto|lia..]. }
    destruct (bytes_eqb _ _).
    2: { cbn. split; [lia|]. split; [|done]. split; [|done]. apply set_buffer_ok; auto. }
    change (set_buffer ?b [] (set_buffer _ _ a)) with (set_buffer b [] a).
    set (a1 := set_buffer _ [] a).
    assert (Hok1 : adb_ok a1) by (apply set_buffer_ok; auto).
    assert (Hadv := advance_state_ok a1 Hok1 eq_refl).
    assert (Hl1 : owns_lock a1 = owns_lock a) by done.
    assert (He1 : expected_command_ a1 = []) by done. clearbody a1.
    destruct (advance_state a1) as [a' []|a' e|]; [| | |done]; cbn.
    + split; [lia|]. split; [|done]. intuition congruence.
    + destruct Hadv as [-> Hl]. split; [lia|]. split; [split; [done|congruence]|].
      intros _. split; [congruence|]. by intros a' [= <-].
    + subst. split; [lia|]. split; [|done]. split; [done|congruence].
Qed.

Lemma adb_no_deadlock d a a' : adb_ok a →
  adb_process_data d a ≠ Exc a' (system_error resource_deadlock_would_occur).
Proof.
  intros Hok. unfold adb_process_data. run_m. case_decide.
  { destruct (host_messenger_ a) as [h|]; [|done]. unfold send. run_m. by destruct (connected h). }
  cbn [expected_command_ buffer_ set_buffer]. case_decide as Hlen; [|done].
  destruct (memcmp_command _ _ _) as [[]|]; [|done..].
  unfold advance_state, close_container, send_container, read_next_host_message, send. run_m. cbn.
  destruct (state_ a) eqn:Hs; cbn; try done.
  - destruct (owns_lock a) eqn:Hl; [|done]. rewrite (ok_accepted a Hok Hl Hs) in Hlen. cbn in Hlen. lia.
  - by destruct (connected _).
  - by destruct (host_messenger_ a).
Qed.

(** ** Invariant of all the instances *)

Record world_ok (w : World) : Prop := mk_world_ok {
  wok_inst : ∀ i a, instances w !! i = Some a → adb_ok a;
  wok_owner : ∀ i a, instances w !! i = Some a → owns_lock a = true → active w = Some i;
  wok_active : ∀ i, active w = Some i → ∃ a, instances w !! i = Some a ∧ owns_lock a = true;
  wok_waiters : ∀ i, i ∈ waiters w →
    ∃ a, instances w !! i = Some a ∧ owns_lock a = false ∧ expected_command_ a = [];
}.

(** Replacing one instance by one with the same lock flag. *)
Lemma world_ok_replace w i a a' ws :
  world_ok w → instances w !! i = Some a → adb_ok a' → owns_lock a' = owns_lock a →
  (∀ j, j ∈ ws → j ≠ i → j ∈ waiters w) →
  (i ∈ ws → owns_lock a = false ∧ expected_command_ a' = []) →
  world_ok (mkWorld (<[i := a']> (instances w)) ws (active w)).
Proof.
  intros [H1 H2 H3 H4] Hi Hok Hl Hws Hiw. split; cbn.
  - intros j b [[<- <-]|[? ?]]%lookup_insert_Some; eauto.
  - intros j b [[<- <-]|[? ?]]%lookup_insert_Some Hb; [|by eauto].
    apply (H2 i a Hi). congruence.
  - intros j Hj. destruct (H3 j Hj) as (b & Hb & Hlb). destruct (decide (i = j)) as [<-|Hne].
    + exists a'. rewrite lookup_insert_eq. split; [done|congruence].
    + exists b. by rewrite lookup_insert_ne.
  - intros j Hj. destruct (decide (i = j)) as [<-|Hne].
    + exists a'. rewrite lookup_insert_eq. destruct (Hiw Hj). intuition congruence.
    + rewrite lookup_insert_ne by done. eauto.
Qed.

Lemma keeps_left_behind {A} l (o : outcome Adb A) a' :
  keeps l o → left_behind o = Some a' → adb_ok a' ∧ owns_lock a' = l.
Proof. destruct o; cbn; naive_solver. Qed.

Lemma adb_step_data_ok w i a d a' :
  world_ok w → instances w !! i = Some a → i ∉ waiters w →
  left_behind (adb_process_data d a) = Some a' →
  world_ok (mkWorld (<[i := a']> (instances w))
              (if blocks (adb_process_data d a) then {[i]} ∪ waiters w else waiters w) (active w)).
Proof.
  intros Hw Hi Hni Ha'. assert (H := adb_process_data_ok d a (wok_inst w Hw i a Hi)).
  assert (Hk : keeps (owns_lock a) (adb_process_data d a) ∧ (blocks (adb_process_data d a) = true →
    owns_lock a = false ∧ ∀ a', left_behind (adb_process_data d a) = Some a' → expected_command_ a' = [])).
  { destruct (adb_process_data d a); [exact (proj2 H)..|done]. }
  destruct Hk as [Hk Hb], (keeps_left_behind _ _ _ Hk Ha') as [Hok Hl].
  apply (world_ok_replace w i a a'); [done..| |].
  - intros j. destruct (blocks _); set_solver.
  - destruct (blocks _); [|done]. intros _. destruct Hb as [? Hb]; auto.
Qed.

(** Host traffic exists on the owner of the mutex only. *)
Lemma host_needs_lock a :
  adb_ok a → host_connector_ a = true ∨ host_reading a = true → owns_lock a = true.
Proof.
  intros Hok Hh. destruct (owns_lock a) eqn:E; [done|].
  destruct (ok_unlocked a Hok E) as (_ & Hc & Hm), Hh as [Hh|Hh]; [congruence|].
  destruct (ok_host a Hok); [by auto|congruence].
Qed.

Lemma world_ok_keeps_lock {A} w i a a' (o : outcome Adb A) :
  world_ok w → instances w !! i = Some a → owns_lock a = true → keeps true o →
  left_behind o = Some a' →
  world_ok (mkWorld (<[i := a']> (instances w)) (waiters w) (active w)).
Proof.
  intros Hw Hi Hl Hk Ha'. destruct (keeps_left_behind _ _ _ Hk Ha').
  apply (world_ok_replace w i a a'); [done|done|done|congruence|done|].
  intros Hin. destruct (wok_waiters w Hw i Hin) as (b & ? & ? & ?). congruence.
Qed.

Lemma adb_step_ok w w' : world_ok w → adb_step w w' → world_ok w'.
Proof.
  intros Hw Hstep; destruct Hstep as
    [w i m Hi|w i a d a' Hi Hn Ha'|w i a bind up a' Hi Hin Hact Ha'
    |w i a h a' Hi Hc Ha'|w i a c a' Hi Hr Ha'|w i a Hi Hn].
  - destruct Hw as [H1 H2 H3 H4]. split; cbn.
    + intros j b [[<- <-]|[? ?]]%lookup_insert_Some; eauto using adb_new_ok.
    + intros j b [[<- <-]|[? ?]]%lookup_insert_Some; [done|eauto].
    + intros j Hj. destruct (H3 j Hj) as (b & Hb & ?). exists b.
      rewrite lookup_insert_ne by congruence. auto.
    + intros j Hj. destruct (H4 j Hj) as (b & Hb & ?). exists b.
      rewrite lookup_insert_ne by congruence. auto.
  - by apply adb_step_data_ok.
  - destruct (wok_waiters w Hw i Hin) as (b & Hb & Hl & He). simplify_eq.
    destruct (keeps_left_behind _ _ _ (after_lock_ok bind up a (wok_inst w Hw i a Hi) Hl He) Ha')
      as [Hok Hl']. destruct Hw as [H1 H2 H3 H4]. split; cbn.
    + intros j b [[<- <-]|[? ?]]%lookup_insert_Some; eauto.
    + intros j b [[<- <-]|[? Hj]]%lookup_insert_Some Hlb; [done|].
      rewrite (H2 j b Hj Hlb) in Hact. done.
    + intros j [= <-]. exists a'. by rewrite lookup_insert_eq.
    + intros j [Hj Hne]%elem_of_difference. rewrite lookup_insert_ne by set_solver. auto.
  - assert (Hl := host_needs_lock a (wok_inst w Hw i a Hi) (or_introl Hc)).
    eapply world_ok_keeps_lock; eauto using on_host_connection_ok, wok_inst.
  - assert (Hl := host_needs_lock a (wok_inst w Hw i a Hi) (or_intror Hr)).
    eapply world_ok_keeps_lock; eauto using on_host_read_size_ok, wok_inst.
  - destruct Hw as [H1 H2 H3 H4]. split; cbn.
    + intros j b [? ?]%lookup_delete_Some. eauto.
    + intros j b [Hne Hj]%lookup_delete_Some Hb. assert (Hact := H2 j b Hj Hb).
      destruct (owns_lock a) eqn:E; [|done]. rewrite (H2 i a Hi E) in Hact. congruence.
    + intros j Hj. destruct (owns_lock a) eqn:E; [done|]. destruct (H3 j Hj) as (b & Hb & ?).
      exists b. rewrite lookup_delete_ne by congruence. auto.
    + intros j Hj. destruct (H4 j Hj) as (b & Hb & ?). exists b.
      rewrite lookup_delete_ne by set_solver. auto.
Qed.

Lemma world0_ok : world_ok world0.
Proof. split; cbn; [intros ??|intros ??|done|intros ?]; rewrite ?lookup_empty; set_solver. Qed.

Lemma adb_reachable_ok w : adb_reachable w → world_ok w.
Proof.
  unfold adb_reachable. generalize world0_ok. generalize world0.
  intros w0 Hok Hr. induction Hr; eauto using adb_step_ok.
Qed.

(** ** Properties *)

(** C3: The mutex makes the proxy exclusive: however the instances' events
    interleave, an instance that listens on the adb port, has a connection to
    the adb server or is past the accept handshake is the owner of
    [active_instance_], so there is at most one, and no thread blocked on the
    mutex has touched the host side. *)
Theorem adb_exclusive w i j a b :
  adb_reachable w →
  instances w !! i = Some a → instances w !! j = Some b →
  (host_connector_ a = true ∨ is_Some (host_messenger_ a) ∨
   state_ a ≠ waiting_for_guest_accept_command) →
  (host_connector_ b = true ∨ is_Some (host_messenger_ b) ∨
   state_ b ≠ waiting_for_guest_accept_command) →
  i = j ∧ active w = Some i ∧ i ∉ waiters w.
Proof.
  intros Hw%adb_reachable_ok Hi Hj Ha Hb.
  assert (Hown : ∀ k c, instances w !! k = Some c →
    host_connector_ c = true ∨ is_Some (host_messenger_ c) ∨
    state_ c ≠ waiting_for_guest_accept_command → owns_lock c = true).
  { intros k c Hk Hc. destruct (owns_lock c) eqn:E; [done|].
    destruct (ok_unlocked c (wok_inst w Hw k c Hk) E) as (? & ? & Hm). rewrite Hm in Hc.
    destruct Hc as [?|[[??]|?]]; congruence. }
  assert (Hla := Hown i a Hi Ha). assert (Hlb := Hown j b Hj Hb).
  assert (Hai := wok_owner w Hw i a Hi Hla). assert (Haj := wok_owner w Hw j b Hj Hlb).
  split; [congruence|]. split; [done|]. intros Hin.
  destruct (wok_waiters w Hw i Hin) as (c & ? & ? & _). congruence.
Qed.

(** Undefined behaviour of a read, exactly: in every reachable state a
    chunk from the container is processed without dereferencing the null host
    messenger and without locking the mutex twice, and the only undefined
    outcome is [memcmp] running past the expected command, which happens
    exactly when a chunk of more than the command's size plus its terminator
    completes the command. *)
Theorem adb_undefined_iff_overread w i a d :
  adb_reachable w → instances w !! i = Some a →
  (adb_process_data d a = Ub ↔ chunk_overreads a d) ∧
  (∀ a', adb_process_data d a ≠ Exc a' (system_error resource_deadlock_would_occur)).
Proof.
  intros Hw%adb_reachable_ok Hi. assert (Hok := wok_inst w Hw i a Hi).
  assert (H := adb_process_data_ok d a Hok). split.
  - destruct (adb_process_data d a); [split; [done|intros Hc; by destruct (proj1 H)]..|done].
  - intros a'. by apply adb_no_deadlock.
Qed.

(** Traffic in the proxying phase: [inl] a chunk from the container, [inr] a
    completed read from the adb server. *)
Definition proxy_event (e : bytes + bytes) : M Adb unit :=
  match e with
  | inl d => adb_process_data d ≫= λ _, mret tt
  | inr d => on_host_read_size (inr d)
  end.
Definition guest_chunks (es : list (bytes + bytes)) : list bytes :=
  omap (λ e, match e with inl d => Some d | inr _ => None end) es.
Definition host_chunks (es : list (bytes + bytes)) : list bytes :=
  omap (λ e, match e with inl _ => None | inr d => Some d end) es.

(** Once proxying, the processor is a transparent pipe in both
    directions: for every interleaving of container chunks and host reads,
    each side receives exactly what the other sent, in order and unframed, and
    the processor keeps proxying with a host read outstanding after each
    delivery. *)
Theorem adb_proxy_transparent es a h :
  state_ a = proxying_data → host_messenger_ a = Some h → host_reading a = true →
  connected h = true → connected (messenger_ a) = true →
  ∃ a' h', for_each es proxy_event a = Val a' tt ∧
    state_ a' = proxying_data ∧ host_messenger_ a' = Some h' ∧ host_reading a' = true ∧
    wire h' = wire h ++ guest_chunks es ∧
    wire (messenger_ a') = wire (messenger_ a) ++ host_chunks es.
Proof.
  revert a h. induction es as [|e es IH]; intros a h Hs Hh Hr Hc Hm.
  { exists a, h. by rewrite !app_nil_r. }
  assert (∃ a1 h1, proxy_event e a = Val a1 tt ∧ state_ a1 = proxying_data ∧
    host_messenger_ a1 = Some h1 ∧ host_reading a1 = true ∧ connected h1 = true ∧
    connected (messenger_ a1) = true ∧ wire h1 = wire h ++ guest_chunks [e] ∧
    wire (messenger_ a1) = wire (messenger_ a) ++ host_chunks [e])
    as (a1 & h1 & He & Hs1 & Hh1 & Hr1 & Hc1 & Hm1 & Hw1 & Hw1').
  { destruct e as [d|d]; cbn [proxy_event].
    - unfold adb_process_data. run_m. rewrite decide_True by done. rewrite Hh, send_connected by done.
      eexists _, _. split; [done|]. cbn. by rewrite app_nil_r.
    - unfold on_host_read_size, send_container, read_next_host_message. run_m.
      rewrite send_connected by done. cbn. rewrite Hh.
      eexists _, _. split; [done|]. cbn. by rewrite app_nil_r. }
  destruct (IH a1 h1 Hs1 Hh1 Hr1 Hc1 Hm1) as (a' & h' & Hrun & ? & ? & ? & Hw & Hw').
  exists a', h'. cbn. run_m. rewrite He. split; [exact Hrun|]. split_and!; try done.
  - rewrite Hw, Hw1, <- app_assoc. by destruct e.
  - rewrite Hw', Hw1', <- app_assoc. by destruct e.
Qed.

(** The accept command is compared over the length of the chunk that
    completes it.  A command that arrives whole is accepted exactly when it
    is right; when it arrives in two pieces whose first is a correct prefix
    at least as long as the second, the second piece is never looked at. *)
Theorem adb_split_command_unchecked m d1 d2 (d : bytes) :
  (length d = 6)%nat → (length d1 + length d2 = 6)%nat → (0 < length d2 ≤ length d1)%nat →
  take (length d1) accept_command = d1 →
  (∃ a', adb_process_data d (adb_new m) =
     Val a' (if bytes_eqb d accept_command then (true, blocked) else (false, finished))) ∧
  (∃ a', (adb_process_data d1 ≫= λ _, adb_process_data d2) (adb_new m) = Val a' (true, blocked)).
Proof.
  intros Hd Hlen Hle Hpre.
  assert (Hacc : length accept_command = 6%nat) by done. split.
  - unfold adb_process_data. run_m. rewrite decide_False by done. cbn [adb_new expected_command_ buffer_ set_buffer app].
    rewrite decide_True by lia. unfold memcmp_command. rewrite decide_True by lia.
    rewrite firstn_all. rewrite Hd, <- Hacc, take_app_length.
    destruct (bytes_eqb d accept_command); by eexists.
  - assert (H1 : adb_process_data d1 (adb_new m) =
      Val (set_buffer d1 accept_command (adb_new m)) (true, finished)).
    { unfold adb_process_data. run_m. rewrite decide_False by done.
      cbn [adb_new expected_command_ buffer_ set_buffer app]. by rewrite decide_False by lia. }
    rewrite (bind_val _ _ _ _ _ H1). unfold adb_process_data. run_m.
    cbn [adb_new state_ expected_command_ buffer_ set_buffer].
    rewrite decide_False by done. rewrite decide_True by (rewrite length_app; lia).
    unfold memcmp_command. rewrite decide_True by (rewrite length_app; lia).
    rewrite take_app_le by lia. rewrite take_app_le by lia.
    assert (Heq : take (length d2) d1 = take (length d2) accept_command).
    { etransitivity; [exact (f_equal (take (length d2)) (eq_sym Hpre))|].
      by rewrite take_take, Nat.min_l by lia. }
    rewrite Heq. 
    unfold bytes_eqb. rewrite bool_decide_true by done. by eexists.
Qed.

(** C38: How the adb port changes hands, whatever the environment answers.  While instance
    [i] owns the mutex no step of any instance takes it away: it is free again exactly when
    [i] is destroyed.  As long as it is free every waiting instance [j] can lock it; it then
    owns it, and listens on the adb port unless the port could not be bound, in which case
    that error is raised with the mutex held; and it announces itself to the adb server, with
    the length-prefixed handshake, exactly when it listens and the server is up - a server
    that is down is no error. *)
Theorem adb_takeover w :
  adb_reachable w →
  (∀ i w', active w = Some i → adb_step w w' →
     active w' = if decide (is_Some (instances w' !! i)) then Some i else None) ∧
  (∀ j bind up, j ∈ waiters w → active w = None →
     ∃ b o, instances w !! j = Some b ∧ after_lock bind up b = o ∧
       match bind with Some e => ∃ b', o = Exc b' e | None => ∃ b', o = Val b' tt end ∧
       ∃ b', left_behind o = Some b' ∧
         adb_step w (mkWorld (<[j := b']> (instances w)) (waiters w ∖ {[j]}) (Some j)) ∧
         host_connector_ b' = bool_decide (bind = None) ∧
         notified b' = notified b ++ (if decide (bind = None ∧ up = true) then [handshake] else [])) ∧
  scan_04x (take 4 handshake) = Some (Z.of_nat (length (drop 4 handshake))).
Proof.
  intros Hw%adb_reachable_ok. split; [|split; [|done]].
  - intros i w' Hact Hs. destruct (wok_active w Hw i Hact) as (a & Hi & Hl).
    destruct Hs as [w k m Hk|w k b d b' Hk Hn Hb|w k b bind up b' Hk Hn Hnone Hb|w k b h b' Hk Hc Hb|w k b c b' Hk Hc Hb|w k b Hk Hn];
      cbn; try congruence.
    1-4: rewrite decide_True; [done|]; apply lookup_insert_is_Some'; rewrite Hi; eauto.
    destruct (decide (k = i)) as [->|Hne].
    + rewrite lookup_delete_eq, decide_False by (by intros [? ?]). assert (a = b) as -> by congruence. by rewrite Hl.
    + rewrite lookup_delete_ne, Hi, decide_True by (done || eauto). destruct (owns_lock b) eqn:Hlb; [|done].
      pose proof (wok_owner w Hw k b Hk Hlb). congruence.
  - intros j bind up Hj Hnone. destruct (wok_waiters w Hw j Hj) as (b & Hb & Hlb & He).
    destruct (ok_unlocked b (wok_inst w Hw j b Hb) Hlb) as (Hs & Hc & Hm).
    exists b, (after_lock bind up b). split; [done|]. split; [done|].
    assert (∀ b', left_behind (after_lock bind up b) = Some b' →
      adb_step w (mkWorld (<[j := b']> (instances w)) (waiters w ∖ {[j]}) (Some j))) as Hstep by eauto using step_lock.
    revert Hstep. unfold after_lock, adb_wait_for_host_connection. run_m. cbn [state_ set_lock host_connector_].
    rewrite decide_False by congruence. rewrite decide_True by done. cbn. rewrite Hc.
    destruct bind as [e|]; [|destruct up]; cbn; intros Hstep; (split; [by eexists|]); eexists; (split; [done|]);
      (split; [by apply Hstep|]); (split; [done|]); cbn; by rewrite ?app_nil_r.
Qed.

(** ** Witnesses: two instances, the first listening, the second blocked *)

Definition demo_sender : Sender := mkSender true [].
Definition demo_accepted : Adb := set_buffer [] [] (adb_new demo_sender).
Definition demo_listening : Adb :=
  add_notified handshake (set_connector true (set_lock true demo_accepted)).
Definition demo_world : World :=
  mkWorld (<[2 := demo_accepted]> (<[2 := adb_new demo_sender]>
    (<[1 := demo_listening]> (<[1 := demo_accepted]> (<[1 := adb_new demo_sender]> ∅)))))
    ({[2]} ∪ (({[1]} ∪ ∅) ∖ {[1]})) (Some 1).

Lemma demo_world_reachable : adb_reachable demo_world.
Proof.
  unfold adb_reachable.
  eapply rtc_l; [by apply (step_create world0 1 demo_sender)|].
  eapply rtc_l; [by apply (step_data _ 1 (adb_new demo_sender) accept_command demo_accepted); vm_compute|].
  eapply rtc_l; [apply (step_lock _ 1 demo_accepted None true demo_listening);
    [done|by vm_compute|done|done]|].
  eapply rtc_l; [by apply (step_create _ 2 demo_sender)|].
  eapply rtc_l; [by apply (step_data _ 2 (adb_new demo_sender) accept_command demo_accepted); vm_compute|].
  match goal with |- rtc _ ?a ?b => replace a with b by (vm_compute; reflexivity) end. reflexivity.
Qed.

Lemma adb_exclusive_witness :
  adb_reachable demo_world ∧ active demo_world = Some 1 ∧ (1 : Z) ∉ waiters demo_world.
Proof.
  split; [apply demo_world_reachable|].
  refine (proj2 (adb_exclusive demo_world 1 1 demo_listening demo_listening demo_world_reachable _ _ _ _));
    [reflexivity|reflexivity|by left|by left].
Defined.

Lemma adb_undefined_iff_overread_witness :
  adb_process_data (bytes_of_string "accept and more") (adb_new demo_sender) = Ub.
Proof.
  apply (adb_undefined_iff_overread (mkWorld (<[1 := adb_new demo_sender]> ∅) ∅ None) 1).
  - apply rtc_once. by apply (step_create world0 1 demo_sender).
  - reflexivity.
  - vm_compute. repeat split; [discriminate|lia..].
Defined.

Lemma adb_takeover_witness : ∃ w' b,
  adb_step (mkWorld (delete 1 (instances demo_world)) {[2]} None) w' ∧ active w' = Some 2 ∧
  instances w' !! 2 = Some b ∧ notified b = [handshake].
Proof.
  assert (adb_step demo_world (mkWorld (delete 1 (instances demo_world)) {[2]} None)) as Hd.
  { replace {[2]} with (waiters demo_world) by (vm_compute; reflexivity).
    apply (step_destroy demo_world 1 demo_listening); [reflexivity|by vm_compute]. }
  destruct (adb_takeover (mkWorld (delete 1 (instances demo_world)) {[2]} None)) as (_ & Hl & _).
  { eapply rtc_r; [apply demo_world_reachable|exact Hd]. }
  destruct (Hl 2 None true) as (b & o & Hb & Ho & _ & b' & _ & Hs & _ & Hn); [by vm_compute|reflexivity|].
  eexists _, b'. split; [exact Hs|]. split; [reflexivity|]. split; [apply lookup_insert_eq|].
  rewrite Hn. vm_compute in Hb. injection Hb as <-. reflexivity.
Defined.

Lemma adb_proxy_transparent_witness : ∃ a' h',
  for_each [inl [1; 2]; inr [3]; inl [4]] proxy_event
    (mkAdb proxying_data [] demo_sender [] true (Some demo_sender) true true []) = Val a' tt ∧
  host_messenger_ a' = Some h' ∧ wire h' = [[1; 2]; [4]] ∧ wire (messenger_ a') = [[3]].
Proof.
  destruct (adb_proxy_transparent [inl [1; 2]; inr [3]; inl [4]]
    (mkAdb proxying_data [] demo_sender [] true (Some demo_sender) true true []) demo_sender
    eq_refl eq_refl eq_refl eq_refl eq_refl) as (a' & h' & ? & _ & ? & _ & ? & ?).
  by exists a', h'.
Defined.

Lemma adb_split_command_unchecked_witness : ∃ a',
  (adb_process_data (bytes_of_string "acc") ≫= λ _, adb_process_data (bytes_of_string "xyz"))
    (adb_new demo_sender) = Val a' (true, blocked).
Proof.
  apply (adb_split_command_unchecked demo_sender (bytes_of_string "acc") (bytes_of_string "xyz")
    (bytes_of_string "accept")); vm_compute; auto with lia.
Defined.
