(* ===== verification/Gsm.v ===== *)
(** * GSM modem emulation (src/src/anbox/qemu: AtParser, GsmMessageProcessor)

    AT command lines end with a line feed or carriage return; a line is
    dispatched to the first registered command, in the order of a
    [std::map<std::string, _>], that is a prefix of it. *)

From S2P Require Import Prelude Framing Utils Network.
From Stdlib Require Import Ascii.

(** ** AtParser *)

(** [std::map<std::string, CommandHandler>], kept sorted; [insert] keeps an
    existing entry. *)
Fixpoint register_command {H : Type} (command : string) (handler : H) (handlers : list (string * H)) :
    list (string * H) :=
  match handlers with
  | [] => [(command, handler)]
  | (k, h) :: rest =>
      match String.compare command k with
      | Lt => (command, handler) :: handlers
      | Eq => handlers
      | Gt => (k, h) :: register_command command handler rest
      end
  end.

Section at_parser.
Context {H S : Type}.
Variable handlers_ : list (string * H).
Variable run : H → string → M S unit.

Definition processs_command (command : string) : M S unit :=
  if negb (string_starts_with command "AT") then mret tt
  else
    let real_command := String.substring 2 (String.length command - 2) command in
    match find (λ p, string_starts_with real_command p.1) handlers_ with
    | Some p => run p.2 real_command
    | None => mret tt
    end.

Definition is_eol (c : Z) : bool := bool_decide (c = 10 ∨ c = 13).

(** The scan: [pos] walks over [data], [bytes_processed] marks the end of the
    last command. *)
Fixpoint at_scan (todo : bytes) (data : bytes) (pos bytes_processed : nat) : M S nat :=
  match todo with
  | [] => mret bytes_processed
  | byte :: todo' =>
      if is_eol byte then
        processs_command (string_of_bytes (take (pos - bytes_processed) (drop bytes_processed data)))
          ≫= λ _,
        at_scan todo' data (pos + 1) (bytes_processed + (pos - bytes_processed) + 1)
      else at_scan todo' data (pos + 1) bytes_processed
  end.

(** The buffer is the processor's, passed by reference. *)
Definition at_process_data : M (bytes * S) unit := λ s,
  match at_scan s.1 s.1 0 0 s.2 with
  | Val s' n => Val (drop n s.1, s') tt
  | Exc s' e => Exc (s.1, s') e
  | Ub => Ub
  end.
End at_parser.

(** ** GsmMessageProcessor *)

Inductive gsm_handler : Type :=
  | ok_reply | handle_ctec | handle_cmgf | handle_creg | handle_cgreg | handle_cfun.

Definition gsm_commands : list (string * gsm_handler) :=
  [("E0Q0V1", ok_reply); ("S0=0", ok_reply); ("+CTEC", handle_ctec); ("+CMEE=1", ok_reply);
   ("+CCWA=1", ok_reply); ("+CMOD=0", ok_reply); ("+CMUT=0", ok_reply); ("+CSSN=0,1", ok_reply);
   ("+COLP=0", ok_reply); ("+CSCS=" +:+ String quote ("HEX" +:+ String quote ""), ok_reply);
   ("+CUSD=1", ok_reply);
   ("+CGEREP=1,0", ok_reply); ("+CMGF", handle_cmgf); ("%CPI=3", ok_reply); ("%CSTAT=1", ok_reply);
   ("+CREG", handle_creg); ("+CGREG", handle_cgreg); ("+CFUN", handle_cfun)].

Definition gsm_handlers : list (string * gsm_handler) :=
  foldl (λ m p, register_command p.1 p.2 m) [] gsm_commands.

Definition CR : string := String "013"%char "".
Definition LF : string := String "010"%char "".

Definition send_reply (message : string) : M Sender unit :=
  send (bytes_of_string (message +:+ CR +:+ "OK" +:+ LF)).

(** [technology::gsm] is 0; ["%x"] of [0x0f] is ["f"]. *)
Definition gsm_run (h : gsm_handler) (command : string) : M Sender unit :=
  match h with
  | ok_reply => send_reply "OK"
  | handle_ctec =>
      if String.eqb command "+CTEC=?" then send_reply "+CTEC: 0,1,2,3"
      else if String.eqb command "+CTEC?" then send_reply ("+CTEC: " +:+ format_d 0 +:+ ",f")
      else mret tt
  | handle_cmgf => if String.eqb command "+CMGF=0" then send_reply "" else mret tt
  | handle_creg =>
      if String.eqb command "+CREG=?" then send_reply "+CREG: (0-2)"
      else if String.eqb command "+CREG?" then
        send_reply ("+CREF: " +:+ format_d 0 +:+ "," +:+ format_d 0)
      else if string_starts_with command "+CREG=" then send_reply "" else mret tt
  | handle_cgreg =>
      if String.eqb command "+CGREG=?" then send_reply "+CGREG: (0-2)"
      else if String.eqb command "+CGREG?" then
        send_reply ("+CGREG: " +:+ format_d 0 +:+ "," +:+ format_d 0)
      else if string_starts_with command "+CGREG=" then send_reply "" else mret tt
  | handle_cfun =>
      if String.eqb command "+CFUN?" then send_reply ("+CFUN: " +:+ format_d 1)
      else if string_starts_with command "+CFUN=" then send_reply "" else mret tt
  end.

Definition gsm_process_data (data : bytes) : M (bytes * Sender) bool :=
  modify (λ s, (s.1 ++ data, s.2)) ≫= λ _,
  at_process_data gsm_handlers gsm_run ≫= λ _,
  mret true.

(** * Theorems *)

(** ** Lines as frames *)

(** A complete line, terminator included. *)
Fixpoint line_len (b : bytes) : option nat :=
  match b with
  | [] => None
  | c :: b' => if is_eol c then Some 1%nat else S <$> line_len b'
  end.

#[export] Instance at_format : FrameFormat.
Proof.
  refine {| frame_len := line_len |}.
  - intros b. induction b as [|c b IH]; intros n; cbn [line_len]; [done|].
    destruct (is_eol c); [intros [= <-]; cbn; lia|].
    destruct (line_len b) as [m|]; [|done]. intros [= <-]. specialize (IH m eq_refl). cbn. lia.
  - intros b x. induction b as [|c b IH]; intros n; cbn [line_len app]; [done|].
    destruct (is_eol c); [done|]. destruct (line_len b) as [m|]; [|done].
    intros [= <-]. by rewrite (IH m).
Defined.

Lemma line_len_none b : line_len b = None ↔ Forall (λ c, is_eol c = false) b.
Proof.
  induction b as [|c b IH]; cbn [line_len]; [done|]. rewrite Forall_cons_iff.
  destruct (is_eol c); [split; [done|by intros [? _]]|]. rewrite <- IH.
  destruct (line_len b); split; [done|by intros [_ ?]|by split|done].
Qed.

Section at_proofs.
Context {H S : Type}.
Variable handlers_ : list (string * H).
Variable run : H → string → M S unit.

(** The command of a line is what precedes the terminator. *)
Definition line_command (f : bytes) : M S unit :=
  processs_command handlers_ run (string_of_bytes (take (length f - 1) f)).

(** The scan from [done] bytes into the buffer: [part] is the line begun,
    [todo] what is still to be walked over. *)
Lemma at_scan_spec todo done part s :
  Forall (λ c, is_eol c = false) part →
  at_scan handlers_ run todo (done ++ part ++ todo) (length done + length part) (length done) s
    = match for_each (decode (part ++ todo)).1 line_command s with
      | Val s' _ => Val s' (length done + length (concat (decode (part ++ todo)).1))%nat
      | Exc s' e => Exc s' e
      | Ub => Ub
      end.
Proof.
  revert done part s. induction todo as [|c todo IH]; intros done part s Hp; cbn [at_scan].
  - rewrite app_nil_r, decode_unfold. replace (frame_len part) with (@None nat) by (symmetry; by apply line_len_none).
    cbn. by rewrite Nat.add_0_r.
  - destruct (is_eol c) eqn:Ec.
    + replace (length done + length part - length done)%nat with (length part) by lia.
      rewrite drop_app_length, take_app_length.
      assert (Hf : is_frame (part ++ [c])).
      { unfold is_frame, frame_len, at_format. clear IH. induction Hp as [|z part Hz _ IHp]; cbn [line_len app].
        - by rewrite Ec.
        - by rewrite Hz, IHp. }
      replace (part ++ c :: todo) with ((part ++ [c]) ++ todo) by (by rewrite <- app_assoc).
      rewrite (decode_frame _ todo Hf). cbn [fst snd for_each concat]. unfold mbind, M_bind.
      unfold line_command at 1. rewrite length_app. cbn [length].
      rewrite Nat.add_sub, take_app_length.
      destruct (processs_command handlers_ run (string_of_bytes part) s) as [s' []| |]; [|done..].
      specialize (IH (done ++ part ++ [c]) [] s' (Forall_nil _)). cbn [app length] in IH.
      rewrite !length_app, Nat.add_0_r in IH. cbn [length] in IH. rewrite <- !app_assoc in IH.
      rewrite <- (app_assoc part). cbn [app] in *.
      replace (length done + length part + 1)%nat with (length done + (length part + 1))%nat by lia.
      rewrite IH. destruct (for_each _ _ _); [|done..]. f_equal. rewrite !length_app. cbn. lia.
    + specialize (IH done (part ++ [c]) s). rewrite length_app in IH. cbn [length] in IH.
      rewrite <- !app_assoc in IH. cbn [app] in IH.
      replace (length done + length part + 1)%nat with (length done + (length part + 1))%nat by lia.
      apply IH. apply Forall_app. by repeat constructor.
Qed.

(** process_data dispatches the complete lines, in order, and keeps the
    incomplete one. *)
Lemma at_process_data_run b s :
  at_process_data handlers_ run (b, s)
    = match for_each (decode b).1 line_command s with
      | Val s' _ => Val ((decode b).2, s') tt
      | Exc s' e => Exc (b, s') e
      | Ub => Ub
      end.
Proof.
  unfold at_process_data. cbn [fst snd].
  pose proof (at_scan_spec b [] [] s (Forall_nil _)) as Hscan.
  cbn [app length Nat.add] in Hscan. rewrite Hscan.
  destruct (for_each _ _ _); [|done..]. do 2 f_equal. rewrite <- (decode_concat b) at 2.
  apply drop_app_length.
Qed.
End at_proofs.

(** One [process_data] per read. *)
Fixpoint gsm_reads (reads : list bytes) : M (bytes * Sender) bool :=
  match reads with
  | [] => mret true
  | c :: cs => gsm_process_data c ≫= λ _, gsm_reads cs
  end.

Abbreviation gsm_line := (line_command gsm_handlers gsm_run).

Lemma gsm_process_data_run d b s :
  gsm_process_data d (b, s)
    = match for_each (decode (b ++ d)).1 gsm_line s with
      | Val s' _ => Val ((decode (b ++ d)).2, s') true
      | Exc s' e => Exc (b ++ d, s') e
      | Ub => Ub
      end.
Proof.
  unfold gsm_process_data. run_m. cbn [fst snd]. rewrite at_process_data_run.
  by destruct (for_each _ _ _).
Qed.

Lemma gsm_reads_run rs b s s' :
  for_each (completed b rs) gsm_line s = Val s' tt →
  gsm_reads rs (b, s) = Val (final_tail b rs, s') true.
Proof.
  revert b s. induction rs as [|c rs IH]; intros b s; cbn [completed gsm_reads].
  - cbn [for_each]. run_m. by intros [= ->].
  - rewrite for_each_app. unfold mbind, M_bind.
    destruct (for_each (decode (b ++ c)).1 gsm_line s) as [s1 []| |] eqn:E; [|done..].
    intros Hr. rewrite gsm_process_data_run, E. exact (IH _ _ Hr).
Qed.

(** ** Dispatch *)

Definition prefix_free (m : list (string * gsm_handler)) : bool :=
  forallb (λ p, forallb (λ q, String.eqb p.1 q.1 || negb (string_starts_with p.1 q.1)) m) m.

Lemma starts_with_comparable text p q :
  string_starts_with text p = true → string_starts_with text q = true →
  string_starts_with p q = true ∨ string_starts_with q p = true.
Proof.
  rewrite !string_starts_with_spec. intros [r1 ->] [r2 Heq].
  revert p r1 r2 Heq. induction q as [|c q IH]; intros p r1 r2 Heq.
  - left. exists p. done.
  - destruct p as [|c' p]; [right; by exists (String c q)|].
    rewrite !string_app_cons in Heq. injection Heq as -> Heq.
    destruct (IH _ _ _ Heq) as [[r Hr]|[r Hr]]; [left|right]; exists r;
      rewrite string_app_cons; by rewrite <- Hr.
Qed.

Lemma prefix_free_unique (m : list (string * gsm_handler)) text p q :
  prefix_free m = true → p ∈ m → q ∈ m →
  string_starts_with text p.1 = true → string_starts_with text q.1 = true → p.1 = q.1.
Proof.
  unfold prefix_free. rewrite forallb_forall. intros Hm Hp Hq Htp Htq.
  apply list_elem_of_In in Hp, Hq.
  assert (Hfree : ∀ a b, In a m → In b m → string_starts_with a.1 b.1 = true → a.1 = b.1).
  { intros a b Ha Hb Hab. specialize (Hm a Ha). rewrite forallb_forall in Hm. specialize (Hm b Hb).
    rewrite Hab, orb_false_r in Hm. by apply String.eqb_eq. }
  destruct (starts_with_comparable _ _ _ Htp Htq); [auto|symmetry; auto].
Qed.

(** ** Replies *)

(** What a handler sends ends with the final result code. *)
Definition ok_line (b : bytes) : Prop := ∃ m, b = bytes_of_string (m +:+ CR +:+ "OK" +:+ LF).

Lemma send_reply_sent m s s' u :
  send_reply m s = Val s' u → ∃ b, wire s' = wire s ++ [b] ∧ ok_line b.
Proof.
  unfold send_reply, send. run_m. destruct (connected s); intros [= <- _].
  eexists. split; [done|]. by exists m.
Qed.

Lemma gsm_run_sent h c s s' :
  gsm_run h c s = Val s' tt → wire s' = wire s ∨ ∃ b, wire s' = wire s ++ [b] ∧ ok_line b.
Proof.
  destruct h; cbn [gsm_run]; repeat (destruct (String.eqb _ _) || destruct (string_starts_with _ _));
    try (intros Hs; right; by eapply send_reply_sent); run_m; intros [= ->]; by left.
Qed.

(** * Properties *)

(** C33: the modem's answers do not depend on how the guest's AT lines are split
    into reads: as long as every reply can be sent, any reads with the same bytes
    dispatch the same lines in the same order and keep the same unfinished line. *)
Theorem gsm_chunking (reads : list bytes) (s s' : Sender) :
  for_each (decode (concat reads)).1 gsm_line s = Val s' tt →
  gsm_reads reads ([], s) = Val ((decode (concat reads)).2, s') true.
Proof.
  intros Hr. rewrite (gsm_reads_run reads [] s s').
  - by rewrite final_tail_concat.
  - by rewrite completed_concat.
Qed.

(** the command a line is dispatched to is the only registered one that is
    a prefix of it, so the iteration order of the map does not matter. *)
Theorem gsm_dispatch_unique (text : string) (p q : string * gsm_handler) :
  p ∈ gsm_handlers → q ∈ gsm_handlers →
  string_starts_with text p.1 = true → string_starts_with text q.1 = true → p.1 = q.1.
Proof. apply (prefix_free_unique gsm_handlers). vm_compute. reflexivity. Qed.

(** a line makes the modem send at most one reply, and every reply ends
    with the final result code OK. *)
Theorem gsm_line_replies (f : bytes) (s s' : Sender) :
  gsm_line f s = Val s' tt →
  wire s' = wire s ∨
  ∃ message, wire s' = wire s ++ [bytes_of_string (message +:+ CR +:+ "OK" +:+ LF)].
Proof.
  unfold line_command, processs_command. destruct (negb _); [intros [= ->]; by left|].
  destruct (find _ gsm_handlers) as [[k h]|]; [|intros [= ->]; by left].
  intros Hr. apply gsm_run_sent in Hr as [Hr|(b & Hb & m & ->)]; [by left|].
  right. by exists m.
Qed.

(** * Witnesses *)

Lemma gsm_chunking_witness :
  gsm_reads [bytes_of_string "AT+CF"; bytes_of_string ("UN?" +:+ CR +:+ "A")] ([], mkSender true [])
    = Val (bytes_of_string "A",
           mkSender true [bytes_of_string ("+CFUN: 1" +:+ CR +:+ "OK" +:+ LF)]) true.
Proof.
  apply (gsm_chunking [bytes_of_string "AT+CF"; bytes_of_string ("UN?" +:+ CR +:+ "A")]).
  vm_compute. reflexivity.
Defined.

Lemma gsm_dispatch_unique_witness : ("+CREG", handle_creg).1 = ("+CREG", handle_creg).1.
Proof.
  apply (gsm_dispatch_unique "+CREG=?" ("+CREG", handle_creg) ("+CREG", handle_creg));
    [apply list_elem_of_In; vm_compute; tauto..| |]; reflexivity.
Defined.

Lemma gsm_line_replies_witness :
  wire (mkSender true [bytes_of_string ("" +:+ CR +:+ "OK" +:+ LF)]) = wire (mkSender true []) ∨
  ∃ message, wire (mkSender true [bytes_of_string ("" +:+ CR +:+ "OK" +:+ LF)])
    = wire (mkSender true []) ++ [bytes_of_string (message +:+ CR +:+ "OK" +:+ LF)].
Proof.
  apply (gsm_line_replies (bytes_of_string ("AT+CMGF=0" +:+ LF))). vm_compute. reflexivity.
Defined.
