(* ===== verification/Pipe.v ===== *)
(** * Pipe clients (src/src/anbox/qemu/pipe_connection_creator.cpp)

    A client of the pipe socket announces the service it wants as a
    NUL-terminated string; the creator identifies it, chooses the processor and
    registers the connection. *)

From S2P Require Import Prelude Utils Network.

(** ** PipeConnectionCreator *)

Inductive client_type : Type :=
  | invalid | opengles | qemud_boot_properties | qemud_hw_control | qemud_sensors | qemud_camera
  | qemud_fingerprint | qemud_gsm | qemud_adb | bootanimation.

#[global] Instance client_type_eq_dec : EqDecision client_type.
Proof. solve_decision. Defined.

Definition client_type_to_string (type : client_type) : string :=
  match type with
  | opengles => "opengles"
  | qemud_boot_properties => "boot-properties"
  | qemud_hw_control => "hw-control"
  | qemud_sensors => "sensors"
  | qemud_camera => "camera"
  | qemud_fingerprint => "fingerprint"
  | qemud_gsm => "gsm"
  | qemud_adb => "adb"
  | bootanimation => "boot-animation"
  | invalid => "unknown"
  end.

(** Read byte by byte up to a NUL; [input] is what the socket delivers before
    the first error.  [None]: the error came first, and [buffer.data()] is then
    not a terminated string. *)
Fixpoint read_identifier (input : bytes) : option bytes :=
  match input with
  | [] => None
  | c :: input' =>
      if decide (c = 0) then Some []
      else match read_identifier input' with Some s => Some (c :: s) | None => None end
  end.

(** The tests of [identify_client], in order. *)
Definition client_prefixes : list (string * client_type) :=
  [("pipe:opengles", opengles);
   ("pipe:qemud:boot-properties", qemud_boot_properties);
   ("pipe:qemud:hw-control", qemud_hw_control);
   ("pipe:qemud:sensors", qemud_sensors);
   ("pipe:qemud:camera", qemud_camera);
   ("pipe:qemud:fingerprintlisten", qemud_fingerprint);
   ("pipe:qemud:gsm", qemud_gsm);
   ("pipe:anbox:bootanimation", bootanimation);
   ("pipe:qemud:adb", qemud_adb)].

Definition identify_string (identifier_and_args : string) : client_type :=
  match find (λ p, string_starts_with identifier_and_args p.1) client_prefixes with
  | Some p => p.2
  | None => invalid
  end.

Definition identify_client (input : bytes) : option client_type :=
  match read_identifier input with
  | Some b => Some (identify_string (string_of_bytes b))
  | None => None
  end.

(** The processor created for a client; everything not listed gets the null
    processor. *)
Inductive processor_kind : Type :=
  | OpenGlesMessageProcessor | BootPropertiesMessageProcessor | HwControlMessageProcessor
  | SensorsMessageProcessor | CameraMessageProcessor | FingerprintMessageProcessor
  | GsmMessageProcessor | AdbMessageProcessor | NullMessageProcessor.

Definition create_processor (type : client_type) : processor_kind :=
  match type with
  | opengles => OpenGlesMessageProcessor
  | qemud_boot_properties => BootPropertiesMessageProcessor
  | qemud_hw_control => HwControlMessageProcessor
  | qemud_sensors => SensorsMessageProcessor
  | qemud_camera => CameraMessageProcessor
  | qemud_fingerprint => FingerprintMessageProcessor
  | qemud_gsm => GsmMessageProcessor
  | qemud_adb => AdbMessageProcessor
  | invalid | bootanimation => NullMessageProcessor
  end.

(** NullMessageProcessor consumes everything. *)
Definition null_process_data (data : bytes) : M unit bool := mret true.

(** The creator: connection ids and the registered connections, each with
    its name and processor. *)
Record PipeCreator : Type := mkPipeCreator {
  pipe_next_id : Z;
  pipe_connections : gmap Z (Connection (string * processor_kind));
}.

(** The test for a missing processor has no effect: [create_processor] always
    returns one. *)
Definition pipe_create_connection_for (input : bytes) : M PipeCreator unit :=
  match identify_client input with
  | None => undefined
  | Some type =>
      s ← get;
      let id := pipe_next_id s in
      put (mkPipeCreator (i32 (id + 1))
             (add id (mkConnection (client_type_to_string type, create_processor type) false)
                (pipe_connections s))) ≫= λ _,
      zoom pipe_connections (λ cs s, mkPipeCreator (pipe_next_id s) cs) (read_next_message id)
  end.

(** * Theorems *)

Lemma read_identifier_nul b rest :
  Forall (λ c : Z, c ≠ 0) b → read_identifier (b ++ 0 :: rest) = Some b.
Proof.
  induction 1 as [|c b Hc _ IH]; cbn [app read_identifier]; [by rewrite decide_True|].
  by rewrite decide_False, IH.
Qed.

Lemma read_identifier_none b : Forall (λ c : Z, c ≠ 0) b → read_identifier b = None.
Proof.
  induction 1 as [|c b Hc _ IH]; cbn [read_identifier]; [done|]. by rewrite decide_False, IH.
Qed.

(** Two prefixes neither of which extends the other exclude each other. *)
Lemma starts_with_incompatible p q rest :
  string_starts_with p q = false → string_starts_with q p = false →
  string_starts_with (p +:+ rest) q = false.
Proof.
  intros Hpq Hqp. apply not_true_iff_false. rewrite string_starts_with_spec. intros [r Hr].
  apply not_true_iff_false in Hpq, Hqp. rewrite string_starts_with_spec in Hpq, Hqp.
  revert p Hpq Hqp Hr. induction q as [|c q IH]; intros p Hpq Hqp Hr.
  - apply Hpq. by exists p.
  - destruct p as [|c' p]; [apply Hqp; by exists (String c q)|].
    rewrite !string_app_cons in Hr. injection Hr as -> Hr. apply (IH p).
    + intros [x ->]. apply Hpq. by exists x.
    + intros [x ->]. apply Hqp. by exists x.
    + done.
Qed.

Lemma starts_with_app p rest : string_starts_with (p +:+ rest) p = true.
Proof. apply string_starts_with_spec. by exists rest. Qed.

Lemma string_of_bytes_app a b :
  string_of_bytes (a ++ b) = string_of_bytes a +:+ string_of_bytes b.
Proof. induction a as [|z a IH]; [done|]. exact (f_equal (String _) IH). Qed.

Lemma identify_string_args p t args :
  (p, t) ∈ client_prefixes → identify_string (p +:+ args) = t.
Proof.
  intros Hin. apply list_elem_of_In in Hin. unfold identify_string, client_prefixes in *.
  cbn [find fst snd].
  repeat (apply in_inv in Hin as [Heq|Hin];
    [injection Heq as <- <-; 
     rewrite ?starts_with_app, ?(starts_with_incompatible _ _ args) by reflexivity; reflexivity|]).
  by destruct Hin.
Qed.

(** A client that announces one of the known pipe names is identified as that
    service, whatever it sends after the terminating NUL; one that hangs up
    before the NUL is read as an unterminated string. *)
Lemma identify_client_ok (name : string) (type : client_type) (args rest : bytes) :
  (name, type) ∈ client_prefixes → Forall (λ c, 0 < c < 256) args →
  identify_client (bytes_of_string name ++ args ++ 0 :: rest) = Some type ∧
  identify_client (bytes_of_string name ++ args) = None.
Proof.
  intros Hin Hargs.
  assert (Hn : Forall (λ c : Z, c ≠ 0) (bytes_of_string name ++ args)).
  { apply Forall_app. split.
    - clear -Hin. revert name type Hin.
      assert (Hall : Forall (λ p, Forall (λ c : Z, c ≠ 0) (bytes_of_string p.1)) client_prefixes)
        by (vm_compute; repeat constructor; lia).
      intros name type Hin. apply list_elem_of_In in Hin.
      exact (proj1 (List.Forall_forall _ _) Hall _ Hin).
    - eapply Forall_impl; [|exact Hargs]. cbn. lia. }
  unfold identify_client. split.
  - rewrite app_assoc, read_identifier_nul by done.
    rewrite string_of_bytes_app, string_of_bytes_of_string.
    by rewrite (identify_string_args name type).
  - by rewrite read_identifier_none.
Qed.

(** * Properties *)

(** Pipe clients.  A client that announces one of the known pipe names,
    with any arguments and whatever follows the terminating NUL, gets a new
    connection under the next id, named after its service, with that service's
    processor and a read outstanding; every other connection stays as it was.
    A client that hangs up before the NUL makes the creator read an unterminated
    string. *)
Theorem pipe_client_connected (name : string) (type : client_type) (args rest : bytes) (s : PipeCreator) :
  (name, type) ∈ client_prefixes → Forall (λ c, 0 < c < 256) args →
  pipe_connections s !! pipe_next_id s = None →
  pipe_create_connection_for (bytes_of_string name ++ args ++ 0 :: rest) s =
    Val (mkPipeCreator (i32 (pipe_next_id s + 1))
           (<[pipe_next_id s := mkConnection (client_type_to_string type, create_processor type) true]>
              (pipe_connections s))) tt ∧
  pipe_create_connection_for (bytes_of_string name ++ args) s = Ub.
Proof.
  intros Hin Hargs Hfree. destruct (identify_client_ok name type args rest Hin Hargs) as [H1 H2].
  unfold pipe_create_connection_for. rewrite H1, H2. split; [|done]. run_m. unfold add. rewrite Hfree.
  cbn. unfold read_next_message, modify. cbn. by rewrite alter_insert_eq.
Qed.

(** * Witness *)

Lemma pipe_client_connected_witness :
  pipe_create_connection_for (bytes_of_string "pipe:qemud:sensors" ++ bytes_of_string ":x" ++ 0 :: [1; 2])
    (mkPipeCreator 4 ∅)
    = Val (mkPipeCreator 5 {[4 := mkConnection ("sensors", SensorsMessageProcessor) true]}) tt.
Proof.
  eapply eq_trans; [apply (pipe_client_connected "pipe:qemud:sensors" qemud_sensors (bytes_of_string ":x") [1; 2] (mkPipeCreator 4 ∅))|reflexivity].
  - apply list_elem_of_In. vm_compute. tauto.
  - vm_compute. repeat constructor; lia.
  - reflexivity.
Defined.
