(* ===== verification/VehicleStore.v ===== *)
(** * Vehicle HAL: property values, their store and their object pool

    Models android/hardware/xbox/vehicle/common: VehicleUtils.{h,cpp},
    VehiclePropertyStore.{h,cpp} and VehicleObjectPool.{h,cpp}.  The enumerations
    and structures come from the HIDL interface android.hardware.automotive.vehicle
    2.0, which is not part of the repository: the structures are records with the
    fields the code uses, the numeric values of the enumerators are the class
    [HidlTypes], and what the code relies on about them ("VehiclePropertyType is not
    overlapping with vectorSize") is its subclass [HidlLaws].  [hidl_v2_0] instantiates
    both with the published values.  A [float] is a [spec_float], NaN included. *)

From Stdlib Require Import SpecFloat.
From S2P Require Import Prelude.

(** ** Types of the HIDL interface *)

Inductive VehiclePropertyType : Type :=
  | STRING | BOOLEAN | INT32 | INT32_VEC | INT64 | INT64_VEC | FLOAT | FLOAT_VEC
  | BYTES | MIXED.
#[global] Instance VehiclePropertyType_eq_dec : EqDecision VehiclePropertyType.
Proof. solve_decision. Defined.

Definition all_types : list VehiclePropertyType :=
  [STRING; BOOLEAN; INT32; INT32_VEC; INT64; INT64_VEC; FLOAT; FLOAT_VEC; BYTES; MIXED].

Class HidlTypes : Type := {
  type_value : VehiclePropertyType → Z;
  TYPE_MASK : Z;
  AREA_MASK : Z;
  AREA_GLOBAL : Z;
  PROPERTY_INVALID : Z;
  EVENTS_FROM_CAR : Z;
  EVENTS_FROM_ANDROID : Z;
  ACCESS_READ : Z;
  ACCESS_WRITE : Z;
  CHANGE_STATIC : Z;
  CHANGE_ON_CHANGE : Z;
  CHANGE_CONTINUOUS : Z;
}.

Class HidlLaws (HT : HidlTypes) : Prop := {
  type_value_inj t1 t2 : type_value t1 = type_value t2 → t1 = t2;
  type_value_masked t : Z.land (type_value t) TYPE_MASK = type_value t;
  type_mask_high : Z.land TYPE_MASK 65535 = 0;
  type_mask_i32 : 0 ≤ TYPE_MASK < 2147483648;
  invalid_untyped t : type_value t ≠ Z.land PROPERTY_INVALID TYPE_MASK;
  flags_distinct : Z.land EVENTS_FROM_CAR EVENTS_FROM_ANDROID = 0;
  flags_nonzero : EVENTS_FROM_CAR ≠ 0 ∧ EVENTS_FROM_ANDROID ≠ 0;
}.

#[global] Instance hidl_v2_0 : HidlTypes | 100 := {|
  type_value t :=
    match t with
    | STRING => 0x00100000 | BOOLEAN => 0x00200000
    | INT32 => 0x00400000 | INT32_VEC => 0x00410000
    | INT64 => 0x00500000 | INT64_VEC => 0x00510000
    | FLOAT => 0x00600000 | FLOAT_VEC => 0x00610000
    | BYTES => 0x00700000 | MIXED => 0x00e00000
    end;
  TYPE_MASK := 0x00ff0000; AREA_MASK := 0x0f000000; AREA_GLOBAL := 0x01000000;
  PROPERTY_INVALID := 0;
  EVENTS_FROM_CAR := 1; EVENTS_FROM_ANDROID := 2;
  ACCESS_READ := 1; ACCESS_WRITE := 2;
  CHANGE_STATIC := 0; CHANGE_ON_CHANGE := 1; CHANGE_CONTINUOUS := 2;
|}.

#[global] Instance hidl_v2_0_laws : HidlLaws hidl_v2_0.
Proof.
  split; try done; first [by intros [] [] | by intros []].
Qed.

(** The outcome codes of the interface ([StatusCode]). *)
Inductive StatusCode : Type :=
  | OK | TRY_AGAIN | INVALID_ARG | NOT_AVAILABLE | ACCESS_DENIED | INTERNAL_ERROR.
#[global] Instance StatusCode_eq_dec : EqDecision StatusCode.
Proof. solve_decision. Defined.

#[global] Instance spec_float_eq_dec : EqDecision spec_float.
Proof. solve_decision. Defined.

Record RawValue : Type := MkRaw {
  int32Values : list Z;
  floatValues : list spec_float;
  int64Values : list Z;
  bytesValue : list Z;
  stringValue : string;
}.
#[global] Instance RawValue_eq_dec : EqDecision RawValue.
Proof. solve_decision. Defined.

Record VehiclePropValue : Type := MkValue {
  timestamp : Z;
  areaId : Z;
  prop : Z;
  status : Z;
  value : RawValue;
}.
#[global] Instance VehiclePropValue_eq_dec : EqDecision VehiclePropValue.
Proof. solve_decision. Defined.

Record VehiclePropConfig : Type := MkConfig {
  cfg_prop : Z;
  access : Z;
  changeMode : Z;
  areaConfigs : list Z;   (* the area ids; the per-area limits are not used *)
  minSampleRate : spec_float;
  maxSampleRate : spec_float;
}.

Definition empty_raw : RawValue := MkRaw [] [] [] [] "".
(** [VehiclePropValue{}]: every field zero. *)
Definition kEmptyValue : VehiclePropValue := MkValue 0 0 0 0 empty_raw.

Section vehicle.
Context {HT : HidlTypes}.

(** The enumerator a [switch] on a [VehiclePropertyType] selects: the cast in
    [getPropType] can produce a number that is none of them ([default]). *)
Definition vtype_of (z : Z) : option VehiclePropertyType :=
  head (filter (λ t, type_value t = z) all_types).

(** ** VehicleUtils *)

Definition getPropType (p : Z) : Z := Z.land p TYPE_MASK.
Definition getPropArea (p : Z) : Z := Z.land p AREA_MASK.
Definition isGlobalProp (p : Z) : bool := bool_decide (getPropArea p = AREA_GLOBAL).

Definition createVehiclePropValue (type : Z) (vecSize : nat) : option VehiclePropValue :=
  let val r := Some (MkValue 0 0 0 0 r) in
  match vtype_of type with
  | Some INT32 | Some INT32_VEC | Some BOOLEAN => val (MkRaw (replicate vecSize 0) [] [] [] "")
  | Some FLOAT | Some FLOAT_VEC => val (MkRaw [] (replicate vecSize (S754_zero false)) [] [] "")
  | Some INT64 | Some INT64_VEC => val (MkRaw [] [] (replicate vecSize 0) [] "")
  | Some BYTES => val (MkRaw [] [] [] (replicate vecSize 0) "")
  | Some STRING | Some MIXED => val empty_raw
  | None => None
  end.

Definition getVehicleRawValueVectorSize (v : RawValue) (type : Z) : nat :=
  match vtype_of type with
  | Some INT32 | Some INT32_VEC | Some BOOLEAN => length (int32Values v)
  | Some FLOAT | Some FLOAT_VEC => length (floatValues v)
  | Some INT64 | Some INT64_VEC => length (int64Values v)
  | Some BYTES => length (bytesValue v)
  | _ => 0%nat
  end.

(** [dest->f = src.f] for the five fields: [dest]'s old contents do not matter. *)
Definition copyVehicleRawValue (dest src : RawValue) : RawValue :=
  MkRaw (int32Values src) (floatValues src) (int64Values src) (bytesValue src)
    (stringValue src).

(** [setToExternal] makes [dest] a view of [src]'s buffer, [resize(0)] empties it:
    in both cases, and when nothing is done because both are empty, [dest]'s
    elements are [src]'s. *)
Definition shallowCopyHidlVec {T} (dest src : list T) : list T :=
  if decide (0 < length src)%nat then src
  else if decide (0 < length dest)%nat then [] else dest.

Definition shallowCopyHidlStr (dest src : string) : string :=
  if decide (src = "") then "" else src.

Definition shallowCopy (dest src : VehiclePropValue) : VehiclePropValue :=
  MkValue (timestamp src) (areaId src) (prop src) (status src)
    (MkRaw (shallowCopyHidlVec (int32Values (value dest)) (int32Values (value src)))
       (shallowCopyHidlVec (floatValues (value dest)) (floatValues (value src)))
       (shallowCopyHidlVec (int64Values (value dest)) (int64Values (value src)))
       (shallowCopyHidlVec (bytesValue (value dest)) (bytesValue (value src)))
       (shallowCopyHidlStr (stringValue (value dest)) (stringValue (value src)))).

(** ** VehiclePropertyStore *)

(** [RecordId]: property, area, token. *)
Record RecordId : Type := MkId { id_prop : Z; id_area : Z; id_token : Z }.
#[global] Instance RecordId_eq_dec : EqDecision RecordId.
Proof. solve_decision. Defined.
#[global] Instance RecordId_countable : Countable RecordId.
Proof.
  refine (inj_countable' (λ i, (id_prop i, id_area i, id_token i))
            (λ p, MkId p.1.1 p.1.2 p.2) _); by intros [].
Defined.

(** [operator<]. *)
Definition id_lt (a b : RecordId) : Prop :=
  id_prop a < id_prop b
  ∨ (id_prop a = id_prop b ∧ id_area a < id_area b)
  ∨ (id_prop a = id_prop b ∧ id_area a = id_area b ∧ id_token a < id_token b).
#[global] Instance id_lt_dec a b : Decision (id_lt a b).
Proof. unfold id_lt. apply _. Defined.

Record RecordConfig : Type := MkRecordConfig {
  propConfig : VehiclePropConfig;
  tokenFunction : option (VehiclePropValue → Z);
}.

Record VehiclePropertyStore : Type := MkStore {
  mConfigs : gmap Z RecordConfig;
  mPropertyValues : gmap RecordId VehiclePropValue;
}.

Definition empty_store : VehiclePropertyStore := MkStore ∅ ∅.

(** [std::map] visits its entries in ascending order of their keys. *)
Definition entry_le (p q : RecordId * VehiclePropValue) : Prop := ¬ id_lt q.1 p.1.
#[global] Instance entry_le_dec p q : Decision (entry_le p q).
Proof. unfold entry_le. apply _. Defined.
Definition entries (m : gmap RecordId VehiclePropValue) : list (RecordId * VehiclePropValue) :=
  merge_sort entry_le (map_to_list m).

(** [insert] keeps an entry that is already there. *)
Definition registerProperty (config : VehiclePropConfig)
    (tokenFunc : option (VehiclePropValue → Z)) : M VehiclePropertyStore unit :=
  modify (λ s,
    match mConfigs s !! cfg_prop config with
    | Some _ => s
    | None => MkStore (<[cfg_prop config := MkRecordConfig config tokenFunc]> (mConfigs s))
                (mPropertyValues s)
    end).

Definition getRecordIdLocked (s : VehiclePropertyStore) (v : VehiclePropValue) : RecordId :=
  let area := if isGlobalProp (prop v) then 0 else areaId v in
  match mConfigs s !! prop v with
  | None => MkId 0 0 0
  | Some rc =>
      MkId (prop v) area (match tokenFunction rc with Some f => f v | None => 0 end)
  end.

Definition getValueOrNullLocked (s : VehiclePropertyStore) (i : RecordId)
    : option VehiclePropValue := mPropertyValues s !! i.

Definition writeValue (propValue : VehiclePropValue) (updateStatus : bool)
    : M VehiclePropertyStore bool :=
  s ← get;
  match mConfigs s !! prop propValue with
  | None => mret false
  | Some _ =>
      let recId := getRecordIdLocked s propValue in
      let stored :=
        match getValueOrNullLocked s recId with
        | None => propValue
        | Some old =>
            MkValue (timestamp propValue) (areaId old) (prop old)
              (if updateStatus then status propValue else status old) (value propValue)
        end in
      put (MkStore (mConfigs s) (<[recId := stored]> (mPropertyValues s)));;
      mret true
  end.

Definition removeValue (propValue : VehiclePropValue) : M VehiclePropertyStore unit :=
  modify (λ s, MkStore (mConfigs s)
                 (delete (getRecordIdLocked s propValue) (mPropertyValues s))).

(** [lower_bound(k)]: the position of the first entry that is not below [k]. *)
Fixpoint lower_bound (l : list (RecordId * VehiclePropValue)) (k : RecordId) : nat :=
  match l with
  | [] => 0
  | e :: l' => if decide (id_lt e.1 k) then S (lower_bound l' k) else 0
  end.

(** The two iterators as positions in the sorted sequence. [propId + 1] is
    computed in [int32_t]. *)
Definition findRangeLocked (s : VehiclePropertyStore) (propId : Z) : nat * nat :=
  let l := entries (mPropertyValues s) in
  (lower_bound l (MkId propId (-2147483648) 0),
   lower_bound l (MkId (i32 (propId + 1)) (-2147483648) 0)).

(** Walking from the first iterator to the second: undefined when the second comes
    first. *)
Definition range_entries (s : VehiclePropertyStore) (propId : Z)
    : option (list (RecordId * VehiclePropValue)) :=
  let '(b, e) := findRangeLocked s propId in
  if decide (b ≤ e)%nat
  then Some (take (e - b) (drop b (entries (mPropertyValues s)))) else None.

Definition removeValuesForProperty (propId : Z) : M VehiclePropertyStore unit :=
  s ← get;
  match range_entries s propId with
  | None => undefined
  | Some l =>
      put (MkStore (mConfigs s)
             (foldr (λ e m, delete e.1 m) (mPropertyValues s) l))
  end.

Definition readAllValues (s : VehiclePropertyStore) : list VehiclePropValue :=
  (entries (mPropertyValues s)).*2.

Definition readValuesForProperty (propId : Z) : M VehiclePropertyStore (list VehiclePropValue) :=
  s ← get;
  match range_entries s propId with
  | None => undefined
  | Some l => mret l.*2
  end.

Definition readValueOrNull (s : VehiclePropertyStore) (request : VehiclePropValue)
    : option VehiclePropValue := getValueOrNullLocked s (getRecordIdLocked s request).

Definition readValueOrNull_id (s : VehiclePropertyStore) (p area token : Z)
    : option VehiclePropValue :=
  getValueOrNullLocked s (MkId p (if isGlobalProp p then 0 else area) token).

(** The order in which an [unordered_map] is visited is not specified; nothing
    below depends on the order of [map_to_list]. *)
Definition getAllConfigs (s : VehiclePropertyStore) : list VehiclePropConfig :=
  (λ e, propConfig e.2) <$> map_to_list (mConfigs s).

Definition getConfigOrNull (s : VehiclePropertyStore) (propId : Z) : option VehiclePropConfig :=
  propConfig <$> mConfigs s !! propId.

(** ** VehiclePropValuePool *)

(** [InternalPool]; its recycled objects are owned by the queue [mObjects]. *)
Record InternalPool : Type := MkInternal {
  mPropType : Z;
  mVectorSize : nat;
  mObjects : list VehiclePropValue;
}.

Record VehiclePropValuePool : Type := MkPool {
  mMaxRecyclableVectorSize : nat;
  mValueTypePools : gmap Z InternalPool;
}.

(** [recyclable_ptr]: the object, and the deleter: [None] deletes it
    ([mDisposableDeleter]), [Some key] returns it to the pool under [key]. *)
Record RecyclableType : Type := MkRecyclable {
  r_ptr : option VehiclePropValue;
  r_deleter : option Z;
}.

Definition check_vec {T} (size : nat) (vec : list T) (expected : bool) : bool :=
  bool_decide (length vec = if expected then size else 0%nat).

(** [InternalPool::check]. *)
Definition check (type : Z) (size : nat) (v : RawValue) : bool :=
  let has t := bool_decide (type_value t = type) in
  check_vec size (int32Values v) (has INT32 || has INT32_VEC || has BOOLEAN)
  && check_vec size (floatValues v) (has FLOAT || has FLOAT_VEC)
  && check_vec size (int64Values v) (has INT64 || has INT64_VEC)
  && check_vec size (bytesValue v) (has BYTES)
  && bool_decide (String.length (stringValue v) = 0%nat).

Definition isDisposable (p : VehiclePropValuePool) (type : Z) (vecSize : nat) : bool :=
  bool_decide (mMaxRecyclableVectorSize p < vecSize)%nat
  || bool_decide (type_value STRING = type) || bool_decide (type_value MIXED = type).

Definition obtainDisposable (type : Z) (vecSize : nat) : RecyclableType :=
  MkRecyclable (createVehiclePropValue type vecSize) None.

(** [ObjectPool::obtain]: the oldest recycled object, or a new one. *)
Definition internal_obtain (ip : InternalPool) : InternalPool * option VehiclePropValue :=
  match mObjects ip with
  | [] => (ip, createVehiclePropValue (mPropType ip) (mVectorSize ip))
  | o :: rest => (MkInternal (mPropType ip) (mVectorSize ip) rest, Some o)
  end.

(** [InternalPool::recycle]. *)
Definition internal_recycle (ip : InternalPool) (o : VehiclePropValue) : InternalPool :=
  if check (mPropType ip) (mVectorSize ip) (value o)
  then MkInternal (mPropType ip) (mVectorSize ip) (mObjects ip ++ [o])
  else ip.

Definition pool_key (type : Z) (vecSize : nat) : Z := Z.lor type (i32 (Z.of_nat vecSize)).

Definition obtainRecylable (type : Z) (vecSize : nat) : M VehiclePropValuePool RecyclableType :=
  p ← get;
  let key := pool_key type vecSize in
  let ip := default (MkInternal type vecSize []) (mValueTypePools p !! key) in
  let '(ip', o) := internal_obtain ip in
  put (MkPool (mMaxRecyclableVectorSize p) (<[key := ip']> (mValueTypePools p)));;
  mret (MkRecyclable o (Some key)).

Definition obtain (type : Z) (vecSize : nat) : M VehiclePropValuePool RecyclableType :=
  p ← get;
  if isDisposable p type vecSize then mret (obtainDisposable type vecSize)
  else obtainRecylable type vecSize.

(** Assignment through the pointer: undefined on a null pointer. *)
Definition with_object (r : RecyclableType) (f : VehiclePropValue → option VehiclePropValue)
    : M VehiclePropValuePool RecyclableType :=
  match r_ptr r ≫= f with
  | Some v => mret (MkRecyclable (Some v) (r_deleter r))
  | None => undefined
  end.

(** [obtain(const VehiclePropValue& src)]. *)
Definition obtain_copy (src : VehiclePropValue) : M VehiclePropValuePool RecyclableType :=
  if decide (prop src = PROPERTY_INVALID) then mret (MkRecyclable None None)
  else
    let type := getPropType (prop src) in
    dest ← obtain type (getVehicleRawValueVectorSize (value src) type);
    with_object dest (λ d,
      Some (MkValue (timestamp src) (areaId src) (prop src) (status src)
              (copyVehicleRawValue (value d) (value src)))).

(** [v[0] = x], undefined on an empty vector. *)
Definition set_front {T} (l : list T) (x : T) : option (list T) :=
  match l with [] => None | _ :: l' => Some (x :: l') end.
Definition with_raw (v : VehiclePropValue) (r : RawValue) : VehiclePropValue :=
  MkValue (timestamp v) (areaId v) (prop v) (status v) r.

Definition obtainInt32 (x : Z) : M VehiclePropValuePool RecyclableType :=
  r ← obtain (type_value INT32) 1;
  with_object r (λ v, let w := value v in
    l ← set_front (int32Values w) x;
    Some (with_raw v (MkRaw l (floatValues w) (int64Values w) (bytesValue w) (stringValue w)))).
Definition obtainInt64 (x : Z) : M VehiclePropValuePool RecyclableType :=
  r ← obtain (type_value INT64) 1;
  with_object r (λ v, let w := value v in
    l ← set_front (int64Values w) x;
    Some (with_raw v (MkRaw (int32Values w) (floatValues w) l (bytesValue w) (stringValue w)))).
Definition obtainFloat (x : spec_float) : M VehiclePropValuePool RecyclableType :=
  r ← obtain (type_value FLOAT) 1;
  with_object r (λ v, let w := value v in
    l ← set_front (floatValues w) x;
    Some (with_raw v (MkRaw (int32Values w) l (int64Values w) (bytesValue w) (stringValue w)))).
Definition obtainString (x : string) : M VehiclePropValuePool RecyclableType :=
  r ← obtain (type_value STRING) 1;
  with_object r (λ v, let w := value v in
    Some (with_raw v (MkRaw (int32Values w) (floatValues w) (int64Values w) (bytesValue w) x))).
Definition obtainBoolean (b : bool) : M VehiclePropValuePool RecyclableType :=
  obtainInt32 (if b then 1 else 0).
Definition obtainComplex : M VehiclePropValuePool RecyclableType := obtain (type_value MIXED) 1.

(** The pointer goes out of scope; its owner may have changed the object. *)
Definition release (r : RecyclableType) : M VehiclePropValuePool unit :=
  modify (λ p,
    match r_ptr r, r_deleter r with
    | Some o, Some key =>
        match mValueTypePools p !! key with
        | Some ip => MkPool (mMaxRecyclableVectorSize p)
                       (<[key := internal_recycle ip o]> (mValueTypePools p))
        | None => p
        end
    | _, _ => p
    end).

(** *** The order of the records *)

Lemma id_lt_irrefl i : ¬ id_lt i i.
Proof. unfold id_lt. lia. Qed.
Lemma id_lt_trans i j k : id_lt i j → id_lt j k → id_lt i k.
Proof. unfold id_lt. lia. Qed.
Lemma id_lt_total i j : id_lt i j ∨ i = j ∨ id_lt j i.
Proof.
  destruct i as [p a t], j as [p' a' t']. unfold id_lt; cbn.
  destruct (Z.lt_total p p') as [?|[->|?]]; [lia| |lia].
  destruct (Z.lt_total a a') as [?|[->|?]]; [lia| |lia].
  destruct (Z.lt_total t t') as [?|[->|?]]; [lia|by right; left|lia].
Qed.
Lemma id_le_lt_trans i j k : ¬ id_lt j i → id_lt j k → id_lt i k.
Proof. unfold id_lt. lia. Qed.

#[global] Instance entry_le_total : Total entry_le.
Proof.
  intros p q. unfold entry_le. destruct (id_lt_total p.1 q.1) as [H|[H|H]].
  - left. intros H'. by apply (id_lt_irrefl p.1), (id_lt_trans _ q.1).
  - left. rewrite H. apply id_lt_irrefl.
  - right. intros H'. by apply (id_lt_irrefl q.1), (id_lt_trans _ p.1).
Qed.
#[global] Instance entry_le_trans : Transitive entry_le.
Proof. intros p q r. unfold entry_le, id_lt. lia. Qed.

Lemma elem_of_entries m i v : (i, v) ∈ entries m ↔ m !! i = Some v.
Proof. unfold entries. by rewrite merge_sort_Permutation, elem_of_map_to_list. Qed.
Lemma entries_sorted m : StronglySorted entry_le (entries m).
Proof. unfold entries. apply StronglySorted_merge_sort; apply _. Qed.

(** On a sorted sequence [lower_bound] splits off exactly the smaller entries. *)
Lemma lower_bound_split l k :
  StronglySorted entry_le l →
  take (lower_bound l k) l = filter (λ e, id_lt e.1 k) l
  ∧ drop (lower_bound l k) l = filter (λ e, ¬ id_lt e.1 k) l.
Proof.
  induction 1 as [|e l Hs IH Hall]; [done|]. cbn [lower_bound].
  destruct (decide (id_lt e.1 k)) as [Hlt|Hge].
  - cbn [take drop]. rewrite filter_cons_True, filter_cons_False by tauto.
    destruct IH as [-> ->]. done.
  - assert (Forall (λ e, ¬ id_lt e.1 k) (e :: l)) as Hge'.
    { constructor; [done|]. eapply Forall_impl; [|exact Hall]. intros e' Hle Hlt.
      apply Hge. by apply (id_le_lt_trans _ e'.1). }
    cbn [take drop]. by rewrite filter_none, filter_all.
Qed.

Lemma lower_bound_drop l b e :
  id_lt b e →
  lower_bound l e = (lower_bound l b + lower_bound (drop (lower_bound l b) l) e)%nat.
Proof.
  intros Hbe. induction l as [|x l IH]; [done|]. cbn [lower_bound].
  destruct (decide (id_lt x.1 b)) as [Hx|Hx]; [|done].
  rewrite decide_True by (by apply (id_lt_trans _ b)). cbn [drop]. by rewrite IH at 1.
Qed.

Lemma StronglySorted_drop {A} (R : A → A → Prop) n l :
  StronglySorted R l → StronglySorted R (drop n l).
Proof.
  intros H. revert n. induction H; intros [|n]; [by constructor..|].
  cbn [drop]. done.
Qed.

Lemma range_filter l b e :
  StronglySorted entry_le l → id_lt b e →
  (lower_bound l b ≤ lower_bound l e)%nat ∧
  take (lower_bound l e - lower_bound l b) (drop (lower_bound l b) l)
  = filter (λ x, ¬ id_lt x.1 b ∧ id_lt x.1 e) l.
Proof.
  intros Hs Hbe. rewrite (lower_bound_drop l b e Hbe) at 1 2. split; [lia|].
  rewrite Nat.add_sub_swap, Nat.sub_diag by lia. cbn [Nat.add].
  rewrite (proj1 (lower_bound_split _ e (StronglySorted_drop _ _ _ Hs))).
  rewrite (proj2 (lower_bound_split _ b Hs)), list_filter_filter.
  apply list_filter_iff. tauto.
Qed.

(** *** Well-formed stores

    The key of a stored value is the value's own property and area (area 0 for a
    global property), and the property is registered. *)
Definition value_ok (v : VehiclePropValue) : Prop := is_i32 (prop v) ∧ is_i32 (areaId v).

Definition record_ok (s : VehiclePropertyStore) (i : RecordId) (v : VehiclePropValue) : Prop :=
  prop v = id_prop i
  ∧ id_area i = (if isGlobalProp (prop v) then 0 else areaId v)
  ∧ is_i32 (id_prop i) ∧ is_i32 (id_area i) ∧ is_i32 (areaId v)
  ∧ is_Some (mConfigs s !! id_prop i).

Definition store_wf (s : VehiclePropertyStore) : Prop :=
  map_Forall (λ p rc, cfg_prop (propConfig rc) = p) (mConfigs s)
  ∧ map_Forall (record_ok s) (mPropertyValues s).

(** The operations that change a store. *)
Inductive store_op : Type :=
  | ORegister (config : VehiclePropConfig) (tokenFunc : option (VehiclePropValue → Z))
  | OWrite (v : VehiclePropValue) (updateStatus : bool)
  | ORemove (v : VehiclePropValue)
  | ORemoveProperty (propId : Z).

Definition run_store_op (o : store_op) : M VehiclePropertyStore unit :=
  match o with
  | ORegister c f => registerProperty c f
  | OWrite v u => writeValue v u;; mret tt
  | ORemove v => removeValue v
  | ORemoveProperty p => removeValuesForProperty p
  end.

(** Arguments within the types of the interface; [INT32_MAX] has no successor. *)
Definition store_op_ok (o : store_op) : Prop :=
  match o with
  | OWrite v _ => value_ok v
  | ORemoveProperty p => is_i32 p ∧ p ≠ 2147483647
  | _ => True
  end.

Lemma range_entries_filter s p :
  is_i32 p → p ≠ 2147483647 →
  range_entries s p
  = Some (filter (λ x, ¬ id_lt x.1 (MkId p (-2147483648) 0)
                       ∧ id_lt x.1 (MkId (p + 1) (-2147483648) 0))
            (entries (mPropertyValues s))).
Proof.
  intros Hp Hmax. unfold range_entries, findRangeLocked.
  rewrite (i32_small (p + 1)) by (unfold is_i32 in *; lia).
  destruct (range_filter (entries (mPropertyValues s)) (MkId p (-2147483648) 0)
              (MkId (p + 1) (-2147483648) 0)) as [Hle Heq].
  - apply entries_sorted.
  - unfold id_lt; cbn; lia.
  - by rewrite decide_True, Heq.
Qed.

(** Values of one property, in the order of their areas and tokens: what the range
    of the two iterators is meant to be. *)
Definition property_entries (s : VehiclePropertyStore) (p : Z)
    : list (RecordId * VehiclePropValue) :=
  filter (λ x, id_prop x.1 = p) (entries (mPropertyValues s)).

Definition tokens_nonneg (s : VehiclePropertyStore) : Prop :=
  map_Forall (λ i _, 0 ≤ id_token i) (mPropertyValues s).

Lemma list_filter_iff_in {A} (P Q : A → Prop) `{∀ x, Decision (P x), ∀ x, Decision (Q x)}
    (l : list A) :
  (∀ x, x ∈ l → P x ↔ Q x) → filter P l = filter Q l.
Proof.
  induction l as [|x l IH]; [done|]. intros HPQ.
  assert (filter P l = filter Q l) as E by (apply IH; intros; apply HPQ; by constructor).
  destruct (decide (P x)) as [Hx|Hx].
  - rewrite !filter_cons_True, E; [done| |done]. apply HPQ; [by constructor|done].
  - rewrite !filter_cons_False, E; [done| |done]. rewrite <- HPQ by constructor. done.
Qed.

Lemma range_is_property s p :
  store_wf s → tokens_nonneg s → is_i32 p → p ≠ 2147483647 →
  range_entries s p = Some (property_entries s p).
Proof.
  intros [_ Hwf] Htok Hp Hmax. rewrite range_entries_filter by done. f_equal.
  apply list_filter_iff_in. intros [i v] Hi%elem_of_entries.
  destruct (Hwf i v Hi) as (_ & _ & _ & Ha & _). pose proof (Htok i v Hi) as Ht. cbn in *.
  unfold id_lt, is_i32 in *. cbn. lia.
Qed.

Lemma lookup_delete_list (l : list (RecordId * VehiclePropValue))
    (m : gmap RecordId VehiclePropValue) i :
  foldr (λ e m, delete e.1 m) m l !! i = if decide (i ∈ l.*1) then None else m !! i.
Proof.
  induction l as [|[j w] l IH]; [done|]. cbn [foldr fmap list_fmap fst].
  destruct (decide (i = j)) as [->|Hij].
  - rewrite lookup_delete_eq, decide_True; [done|by constructor].
  - rewrite lookup_delete_ne, IH by done. apply decide_ext.
    rewrite elem_of_cons. naive_solver.
Qed.

Lemma remove_range_wf s (l : list (RecordId * VehiclePropValue)) :
  store_wf s →
  store_wf (MkStore (mConfigs s) (foldr (λ e m, delete e.1 m) (mPropertyValues s) l)).
Proof.
  intros [Hc Hv]. split; [done|]. intros i v. cbn [mPropertyValues].
  rewrite lookup_delete_list. destruct (decide _); [done|]. apply Hv.
Qed.

Lemma write_wf s v u : store_wf s → value_ok v → ∃ s' b, writeValue v u s = Val s' b ∧ store_wf s'.
Proof.
  intros [Hc Hv] [Hp Ha]. unfold writeValue. run_m.
  destruct (mConfigs s !! prop v) as [rc|] eqn:Erc; [|exists s, false; split; [done|]; by split].
  do 2 eexists. split; [done|]. split; [done|]. cbn [mPropertyValues mConfigs].
  apply map_Forall_insert_2; [|exact Hv].
  unfold getRecordIdLocked, getValueOrNullLocked. rewrite Erc.
  match goal with |- context [mPropertyValues s !! ?i] => set (id := i) end.
  destruct (mPropertyValues s !! id) as [old|] eqn:Eold.
  - destruct (Hv _ _ Eold) as (H1 & H2 & H3 & H4 & H5 & H6). by split_and!.
  - unfold record_ok. subst id. cbn. rewrite Erc. split_and!; try done.
    by destruct (isGlobalProp _).
Qed.

Lemma store_op_wf o s :
  store_wf s → store_op_ok o → ∃ s', run_store_op o s = Val s' tt ∧ store_wf s'.
Proof.
  intros Hs Ho. destruct o as [c f|v u|v|p]; cbn [run_store_op store_op_ok] in *.
  - unfold registerProperty. run_m. eexists. split; [done|]. destruct Hs as [Hc Hv].
    destruct (mConfigs s !! cfg_prop c) as [rc|] eqn:Erc; [done|]. split; cbn.
    + by apply map_Forall_insert_2.
    + intros i v Hi. destruct (Hv i v Hi) as (H1 & H2 & H3 & H4 & H5 & H6).
      split_and!; try done. cbn. apply lookup_insert_is_Some'. by right.
  - destruct (write_wf s v u Hs Ho) as (s' & b & E & Hw). exists s'.
    split; [|done]. by rewrite (bind_val _ _ _ _ _ E).
  - unfold removeValue. run_m. eexists. split; [done|]. destruct Hs as [Hc Hv].
    split; [done|]. cbn. by apply map_Forall_delete.
  - destruct Ho as [Hp Hm]. unfold removeValuesForProperty. run_m.
    rewrite range_entries_filter by done. eexists. split; [done|].
    by apply remove_range_wf.
Qed.

Lemma store_ops_wf ops s :
  store_wf s → Forall store_op_ok ops →
  ∃ s', for_each ops run_store_op s = Val s' tt ∧ store_wf s'.
Proof.
  intros Hs Hops. revert s Hs.
  induction Hops as [|o ops Ho _ IH]; intros s Hs; [by exists s|].
  destruct (store_op_wf o s Hs Ho) as (s1 & E & Hs1). cbn [for_each].
  rewrite (bind_val _ _ _ _ _ E). by apply IH.
Qed.

Lemma empty_store_wf : store_wf empty_store.
Proof. split; apply map_Forall_empty. Qed.

Lemma read_id_typed s p a t v :
  store_wf s → readValueOrNull_id s p a t = Some v →
  prop v = p ∧ (isGlobalProp p = false → areaId v = a).
Proof.
  intros [_ Hwf] Hr. destruct (Hwf _ _ Hr) as (Hp & Ha & _). cbn in *. subst p.
  split; [done|]. by intros Hg; rewrite Hg in Ha.
Qed.


(** What a write leaves in the record: the first value written for a record fixes
    its area and, unless the caller asks for it to be updated, its status. *)
Definition written (old : option VehiclePropValue) (v : VehiclePropValue) (updateStatus : bool)
    : VehiclePropValue :=
  MkValue (timestamp v) (from_option areaId (areaId v) old) (prop v)
    (if updateStatus then status v else from_option status (status v) old) (value v).

(** writing succeeds exactly for registered properties; it changes the record
    of that property, area and token and no other, and reading it back gives the
    time stamp and the data that were written. *)
Theorem store_write_read s v u :
  store_wf s →
  match writeValue v u s with
  | Val s' true =>
      is_Some (mConfigs s !! prop v)
      ∧ readValueOrNull s' v = Some (written (readValueOrNull s v) v u)
      ∧ ∀ r, getRecordIdLocked s r ≠ getRecordIdLocked s v →
             readValueOrNull s' r = readValueOrNull s r
  | Val s' false => mConfigs s !! prop v = None ∧ s' = s
  | _ => False
  end.
Proof.
  intros [_ Hwf]. unfold writeValue, readValueOrNull, getValueOrNullLocked. run_m.
  destruct (mConfigs s !! prop v) as [rc|] eqn:Erc; [|done].
  assert (∀ m r, getRecordIdLocked (MkStore (mConfigs s) m) r = getRecordIdLocked s r) as Hid
    by done.
  split_and!; [done| |].
  - rewrite Hid. cbn [mPropertyValues]. rewrite lookup_insert_eq. f_equal. unfold written.
    destruct (mPropertyValues s !! getRecordIdLocked s v) as [old|] eqn:Eo; cbn.
    + destruct (Hwf _ _ Eo) as (-> & _). unfold getRecordIdLocked. rewrite Erc. done.
    + by destruct v, u.
  - intros r Hne. rewrite Hid. cbn [mPropertyValues]. by rewrite lookup_insert_ne.
Qed.

(** on a well-formed store whose tokens are not negative, the iterator range of
    a property is the property: reading returns exactly its values, in the order of
    areas and tokens, and removing removes exactly those. *)
Theorem store_property_range s p :
  store_wf s → tokens_nonneg s → is_i32 p → p ≠ 2147483647 →
  readValuesForProperty p s = Val s (property_entries s p).*2
  ∧ ∃ s', removeValuesForProperty p s = Val s' tt
      ∧ ∀ i, mPropertyValues s' !! i
             = if decide (id_prop i = p) then None else mPropertyValues s !! i.
Proof.
  intros Hs Ht Hp Hm. pose proof (range_is_property s p Hs Ht Hp Hm) as Hr.
  unfold readValuesForProperty, removeValuesForProperty. run_m. rewrite Hr.
  split; [done|]. eexists. split; [done|]. intros i. cbn [mPropertyValues].
  rewrite lookup_delete_list.
  destruct (decide (id_prop i = p)) as [Hi|Hi].
  - destruct (decide _) as [|Hno]; [done|]. destruct (mPropertyValues s !! i) as [v|] eqn:E;
      [|done]. destruct Hno. apply list_elem_of_fmap. exists (i, v). split; [done|].
    unfold property_entries. apply list_elem_of_filter. by rewrite elem_of_entries.
  - rewrite decide_False; [done|]. intros [[j w] [-> Hj]]%list_elem_of_fmap.
    unfold property_entries in Hj. apply list_elem_of_filter in Hj as [Hj _]. done.
Qed.

(** *** The pool *)

(** [obtain(type)] and its relatives of one argument pass size 1; a caller holding
    an object may store anything in it before letting go of it. *)
Inductive pool_op : Type :=
  | PObtain (type : Z) (vecSize : nat)
  | PObtainCopy (src : VehiclePropValue)
  | PRelease (r : RecyclableType).

Definition run_pool_op (o : pool_op) : M VehiclePropValuePool unit :=
  match o with
  | PObtain t n => obtain t n;; mret tt
  | PObtainCopy src => obtain_copy src;; mret tt
  | PRelease r => release r
  end.

(** Every type argument is a masked type; a copy is made of a value whose type is
    one of the enumerators. *)
Definition pool_op_ok (o : pool_op) : Prop :=
  match o with
  | PObtain t _ => Z.land t TYPE_MASK = t
  | PObtainCopy src => is_Some (vtype_of (getPropType (prop src)))
  | PRelease _ => True
  end.

Definition pool_wf (p : VehiclePropValuePool) : Prop :=
  map_Forall (λ k ip,
    k = pool_key (mPropType ip) (mVectorSize ip)
    ∧ Z.land (mPropType ip) TYPE_MASK = mPropType ip
    ∧ (mVectorSize ip ≤ mMaxRecyclableVectorSize p)%nat
    ∧ Forall (λ o, check (mPropType ip) (mVectorSize ip) (value o) = true) (mObjects ip))
    (mValueTypePools p).

Definition empty_pool (max : nat) : VehiclePropValuePool := MkPool max ∅.

Context {HL : HidlLaws HT}.

Lemma vtype_of_value t : vtype_of (type_value t) = Some t.
Proof.
  unfold vtype_of.
  assert (filter (λ t', type_value t' = type_value t) all_types = filter (λ t', t' = t) all_types)
    as ->.
  { apply list_filter_iff. intros t'. split; [apply type_value_inj|by intros ->]. }
  by destruct t.
Qed.

Lemma vtype_of_Some z t : vtype_of z = Some t → z = type_value t.
Proof.
  unfold vtype_of. intros H%head_Some_elem_of. by apply list_elem_of_filter in H as [-> _].
Qed.

Lemma has_type t t' : bool_decide (type_value t = type_value t') = bool_decide (t = t').
Proof. apply bool_decide_ext. split; [apply type_value_inj|by intros ->]. Qed.

Lemma check_vec_replicate {T} n (x : T) : check_vec n (replicate n x) true = true.
Proof. apply bool_decide_eq_true_2, length_replicate. Qed.

(** A new object has the shape its pool checks for. *)
Lemma create_checked z n v :
  createVehiclePropValue z n = Some v →
  check z n (value v) = true.
Proof.
  unfold createVehiclePropValue. destruct (vtype_of z) as [t|] eqn:Et; [|done].
  apply vtype_of_Some in Et as ->. intros Hc. unfold check. rewrite !has_type.
  destruct t; injection Hc as <-; cbn -[check_vec]; by rewrite ?check_vec_replicate.
Qed.

Lemma create_known z n : is_Some (vtype_of z) → is_Some (createVehiclePropValue z n).
Proof. intros [t Ht]. unfold createVehiclePropValue. rewrite Ht. by destruct t. Qed.

Lemma masked_facts t : Z.land t TYPE_MASK = t → 0 ≤ t ∧ Z.land t 65535 = 0.
Proof.
  intros <-. pose proof type_mask_i32. split.
  - apply Z.land_nonneg. lia.
  - by rewrite <- Z.land_assoc, type_mask_high, Z.land_0_r.
Qed.

Lemma land_ones_small n : 0 ≤ n < 65536 → Z.land n 65535 = n.
Proof. intros. change 65535 with (Z.ones 16). rewrite Z.land_ones by lia. by apply Z.mod_small. Qed.

Lemma land_small_0 t n : Z.land t 65535 = 0 → 0 ≤ n < 65536 → Z.land t n = 0.
Proof.
  intros Ht Hn. by rewrite <- (land_ones_small n), (Z.land_comm n), Z.land_assoc, Ht, Z.land_0_l.
Qed.

(** "VehiclePropertyType is not overlapping with vectorSize": the key determines
    both, for vectors of at most 65535 elements. *)
Lemma pool_key_inj t1 n1 t2 n2 :
  Z.land t1 TYPE_MASK = t1 → Z.land t2 TYPE_MASK = t2 →
  Z.of_nat n1 ≤ 65535 → Z.of_nat n2 ≤ 65535 →
  pool_key t1 n1 = pool_key t2 n2 → t1 = t2 ∧ n1 = n2.
Proof.
  intros [H1 M1]%masked_facts [H2 M2]%masked_facts Hn1 Hn2. unfold pool_key.
  rewrite !i32_small by (unfold is_i32; lia). intros E.
  assert (Z.of_nat n1 = Z.of_nat n2) as En.
  { apply (f_equal (λ z, Z.land z 65535)) in E.
    rewrite !Z.land_lor_distr_l, M1, M2, !Z.lor_0_l, !land_ones_small in E by lia. done. }
  split; [|lia]. rewrite En in E.
  rewrite <- !Z.add_nocarry_lor in E; [lia|apply land_small_0; [done|lia]..].
Qed.

(** An object handed out: of a known type it exists and has the shape asked for. *)
Definition obtained_ok (t : Z) (n : nat) (r : RecyclableType) : Prop :=
  match r_ptr r with
  | Some v => check t n (value v) = true
  | None => vtype_of t = None
  end.

Lemma created_ok t n d : obtained_ok t n (MkRecyclable (createVehiclePropValue t n) d).
Proof.
  unfold obtained_ok. cbn. destruct (createVehiclePropValue t n) as [v|] eqn:E.
  - by apply create_checked.
  - destruct (vtype_of t) as [vt|] eqn:Et; [|done].
    destruct (create_known t n) as [v Hv]; [by rewrite Et|congruence].
Qed.

Lemma obtain_spec p t n :
  pool_wf p → Z.of_nat (mMaxRecyclableVectorSize p) ≤ 65535 → Z.land t TYPE_MASK = t →
  ∃ p' r, obtain t n p = Val p' r ∧ pool_wf p'
    ∧ mMaxRecyclableVectorSize p' = mMaxRecyclableVectorSize p ∧ obtained_ok t n r.
Proof.
  intros Hp Hmax Ht. unfold obtain. run_m. destruct (isDisposable p t n) eqn:Ed.
  { do 2 eexists. split_and!; [done..|]. apply created_ok. }
  assert (n ≤ mMaxRecyclableVectorSize p)%nat as Hn.
  { unfold isDisposable in Ed. apply orb_false_iff in Ed as [[Ed _]%orb_false_iff _].
    apply bool_decide_eq_false in Ed. lia. }
  clear Ed. unfold obtainRecylable, internal_obtain. run_m.
  destruct (mValueTypePools p !! pool_key t n) as [ip|] eqn:Eip; cbn [default from_option id].
  - destruct (Hp _ _ Eip) as (Hk & Hm & Hs & Hall).
    destruct (pool_key_inj t n (mPropType ip) (mVectorSize ip)) as [-> ->]; [done|done|lia|lia|done|].
    destruct (mObjects ip) as [|o os] eqn:Eo; do 2 eexists; (split_and!; [done| |done|]);
      cbn [mValueTypePools mMaxRecyclableVectorSize].
    + apply map_Forall_insert_2; [|done]. by rewrite Eo.
    + apply created_ok.
    + apply map_Forall_insert_2; [|done]. apply Forall_cons_1 in Hall as [_ Hall]. done.
    + by apply Forall_cons_1 in Hall as [Ho _].
  - cbn. do 2 eexists. split_and!; [done| |done|apply created_ok].
    apply map_Forall_insert_2; [|done]. cbn. split_and!; [done..|constructor].
Qed.

Lemma release_wf p r p' :
  pool_wf p → release r p = Val p' tt →
  pool_wf p' ∧ mMaxRecyclableVectorSize p' = mMaxRecyclableVectorSize p.
Proof.
  intros Hp [= <-]. destruct (r_ptr r) as [o|], (r_deleter r) as [k|]; try done.
  destruct (mValueTypePools p !! k) as [ip|] eqn:Ek; [|done]. split; [|done].
  destruct (Hp _ _ Ek) as (Hk & Hm & Hs & Hall).
  apply map_Forall_insert_2; [|done]. unfold internal_recycle.
  destruct (check _ _ _) eqn:Ec; [|done]. cbn. split_and!; try done.
  apply Forall_app. split; [done|by constructor].
Qed.

Lemma getPropType_masked z : Z.land (getPropType z) TYPE_MASK = getPropType z.
Proof. unfold getPropType. by rewrite <- Z.land_assoc, Z.land_diag. Qed.

Lemma obtain_copy_spec p src :
  pool_wf p → Z.of_nat (mMaxRecyclableVectorSize p) ≤ 65535 →
  is_Some (vtype_of (getPropType (prop src))) →
  ∃ p' r, obtain_copy src p = Val p' r ∧ pool_wf p'
    ∧ mMaxRecyclableVectorSize p' = mMaxRecyclableVectorSize p
    ∧ r_ptr r = (if decide (prop src = PROPERTY_INVALID) then None else Some src).
Proof.
  intros Hp Hmax Ht. unfold obtain_copy.
  destruct (decide (prop src = PROPERTY_INVALID)); [by do 2 eexists|].
  destruct (obtain_spec p (getPropType (prop src))
              (getVehicleRawValueVectorSize (value src) (getPropType (prop src))))
    as (p' & r & E & Hp' & Hm & Ho); [done..|apply getPropType_masked|].
  rewrite (bind_val _ _ _ _ _ E). unfold with_object, obtained_ok in *.
  destruct Ht as [vt Hvt]. rewrite Hvt in Ho.
  destruct (r_ptr r) as [v|]; [|done]. do 2 eexists. split_and!; [done..|].
  cbn. by destruct src as [? ? ? ? []].
Qed.

Lemma pool_op_wf o p :
  pool_wf p → Z.of_nat (mMaxRecyclableVectorSize p) ≤ 65535 → pool_op_ok o →
  ∃ p', run_pool_op o p = Val p' tt ∧ pool_wf p'
    ∧ mMaxRecyclableVectorSize p' = mMaxRecyclableVectorSize p.
Proof.
  intros Hp Hmax Ho. destruct o as [t n|src|r]; cbn in Ho; cbn [run_pool_op].
  - destruct (obtain_spec p t n) as (p' & r & E & ? & ? & _); [done..|].
    exists p'. by rewrite (bind_val _ _ _ _ _ E).
  - destruct (obtain_copy_spec p src) as (p' & r & E & ? & ? & _); [done..|].
    exists p'. by rewrite (bind_val _ _ _ _ _ E).
  - destruct (release r p) as [p' []| |] eqn:E; [|done..].
    exists p'. split; [done|]. by apply (release_wf p r).
Qed.

Lemma pool_ops_wf ops p :
  pool_wf p → Z.of_nat (mMaxRecyclableVectorSize p) ≤ 65535 → Forall pool_op_ok ops →
  ∃ p', for_each ops run_pool_op p = Val p' tt ∧ pool_wf p'
    ∧ mMaxRecyclableVectorSize p' = mMaxRecyclableVectorSize p.
Proof.
  intros Hp Hmax Hops. revert p Hp Hmax.
  induction Hops as [|o ops Ho _ IH]; intros p Hp Hmax; [by exists p|].
  destruct (pool_op_wf o p Hp Hmax Ho) as (p1 & E & Hp1 & Hm). cbn [for_each].
  rewrite (bind_val _ _ _ _ _ E), <- Hm. apply IH; [done|lia].
Qed.

(** The one-element values: everything but the element is empty, also in an object
    that was used before. *)
Lemma nil_of_length0 {T} (l : list T) : length l = 0%nat → l = [].
Proof. by destruct l. Qed.
Lemma one_of_length1 {T} (l : list T) : length l = 1%nat → ∃ x, l = [x].
Proof. destruct l as [|x [|]]; try done. by exists x. Qed.

Lemma check_fields t n v :
  check (type_value t) n v = true →
  length (int32Values v) = (if decide (t = INT32 ∨ t = INT32_VEC ∨ t = BOOLEAN) then n else 0%nat)
  ∧ length (floatValues v) = (if decide (t = FLOAT ∨ t = FLOAT_VEC) then n else 0%nat)
  ∧ length (int64Values v) = (if decide (t = INT64 ∨ t = INT64_VEC) then n else 0%nat)
  ∧ length (bytesValue v) = (if decide (t = BYTES) then n else 0%nat)
  ∧ stringValue v = EmptyString.
Proof.
  unfold check. rewrite !has_type, !andb_true_iff. unfold check_vec. rewrite !bool_decide_eq_true.
  intros [[[[H1 H2] H3] H4] H5]. destruct (stringValue v); [|done].
  destruct t; cbn in *; done.
Qed.

Lemma known_type_masked t : Z.land (type_value t) TYPE_MASK = type_value t.
Proof. apply type_value_masked. Qed.

Lemma obtain_known p t n :
  pool_wf p → Z.of_nat (mMaxRecyclableVectorSize p) ≤ 65535 →
  ∃ p' v d, obtain (type_value t) n p = Val p' (MkRecyclable (Some v) d)
    ∧ check (type_value t) n (value v) = true
    ∧ pool_wf p' ∧ mMaxRecyclableVectorSize p' = mMaxRecyclableVectorSize p.
Proof.
  intros Hp Hmax. destruct (obtain_spec p (type_value t) n) as (p' & [[v|] d] & E & Hp' & Hm & Ho);
    [done|done|apply known_type_masked|by exists p', v, d|].
  cbn in Ho. by rewrite vtype_of_value in Ho.
Qed.

(** A value object with the one element [x] of the kind [mk] builds. *)
Definition obtains (p : VehiclePropValuePool) (m : M VehiclePropValuePool RecyclableType)
    (w : RawValue) : Prop :=
  ∃ p' v d, m p = Val p' (MkRecyclable (Some v) d) ∧ value v = w
    ∧ pool_wf p' ∧ mMaxRecyclableVectorSize p' = mMaxRecyclableVectorSize p.

Lemma obtainInt32_spec p x :
  pool_wf p → Z.of_nat (mMaxRecyclableVectorSize p) ≤ 65535 →
  obtains p (obtainInt32 x) (MkRaw [x] [] [] [] EmptyString).
Proof.
  intros Hp Hmax. destruct (obtain_known p INT32 1 Hp Hmax) as (p' & v & d & E & Hc & Hp' & Hm).
  apply check_fields in Hc as (H1 & H2%nil_of_length0 & H3%nil_of_length0 & H4%nil_of_length0 & H5).
  apply one_of_length1 in H1 as [y Hy]. unfold obtains, obtainInt32.
  rewrite (bind_val _ _ _ _ _ E). unfold with_object. cbn. rewrite Hy, H2, H3, H4, H5.
  by do 3 eexists.
Qed.
Lemma obtainInt64_spec p x :
  pool_wf p → Z.of_nat (mMaxRecyclableVectorSize p) ≤ 65535 →
  obtains p (obtainInt64 x) (MkRaw [] [] [x] [] EmptyString).
Proof.
  intros Hp Hmax. destruct (obtain_known p INT64 1 Hp Hmax) as (p' & v & d & E & Hc & Hp' & Hm).
  apply check_fields in Hc as (H1%nil_of_length0 & H2%nil_of_length0 & H3 & H4%nil_of_length0 & H5).
  apply one_of_length1 in H3 as [y Hy]. unfold obtains, obtainInt64.
  rewrite (bind_val _ _ _ _ _ E). unfold with_object. cbn. rewrite Hy, H1, H2, H4, H5.
  by do 3 eexists.
Qed.
Lemma obtainFloat_spec p x :
  pool_wf p → Z.of_nat (mMaxRecyclableVectorSize p) ≤ 65535 →
  obtains p (obtainFloat x) (MkRaw [] [x] [] [] EmptyString).
Proof.
  intros Hp Hmax. destruct (obtain_known p FLOAT 1 Hp Hmax) as (p' & v & d & E & Hc & Hp' & Hm).
  apply check_fields in Hc as (H1%nil_of_length0 & H2 & H3%nil_of_length0 & H4%nil_of_length0 & H5).
  apply one_of_length1 in H2 as [y Hy]. unfold obtains, obtainFloat.
  rewrite (bind_val _ _ _ _ _ E). unfold with_object. cbn. rewrite Hy, H1, H3, H4, H5.
  by do 3 eexists.
Qed.

(** objects keep their type through the pool.  After any sequence of obtaining
    and giving back objects, with arbitrary changes to them in between, asking for a
    known type and a size gives an object whose vectors have exactly the sizes of
    that type, and asking for a copy of a value gives exactly that value. *)
Theorem pool_typed max ops :
  Z.of_nat max ≤ 65535 → Forall pool_op_ok ops →
  ∃ p, for_each ops run_pool_op (empty_pool max) = Val p tt
    ∧ (∀ t n, Z.land t TYPE_MASK = t → is_Some (vtype_of t) →
        ∃ p' v d, obtain t n p = Val p' (MkRecyclable (Some v) d) ∧ check t n (value v) = true)
    ∧ (∀ src, is_Some (vtype_of (getPropType (prop src))) → prop src ≠ PROPERTY_INVALID →
        ∃ p' d, obtain_copy src p = Val p' (MkRecyclable (Some src) d)).
Proof.
  intros Hmax Hops. destruct (pool_ops_wf ops (empty_pool max)) as (p & E & Hp & Hm); [done..|].
  exists p. split; [done|]. change max with (mMaxRecyclableVectorSize (empty_pool max)) in Hmax.
  rewrite <- Hm in Hmax. clear E Hm. split.
  - intros t n Ht [vt Hvt]. destruct (obtain_spec p t n) as (p' & [[v|] d] & E & _ & _ & Ho);
      [done..|by exists p', v, d|]. cbn in Ho. congruence.
  - intros src Hs Hi. destruct (obtain_copy_spec p src) as (p' & [o d] & E & _ & _ & Ho); [done..|].
    rewrite decide_False in Ho by done. cbn in Ho. subst o. by exists p', d.
Qed.
End vehicle.

(** ** Witnesses: a global and a zoned property of the published interface *)

Definition ex_global : Z := 0x11400400.   (* global, INT32 *)
Definition ex_zoned : Z := 0x15600503.    (* seat zones, FLOAT *)
Definition ex_config (p : Z) : VehiclePropConfig :=
  MkConfig p 3 1 [] (S754_zero false) (S754_zero false).
Definition ex_value (p a x : Z) : VehiclePropValue := MkValue 7 a p 0 (MkRaw [x] [] [] [] "").
Definition ex_ops : list store_op :=
  [ORegister (ex_config ex_global) None; ORegister (ex_config ex_zoned) None;
   OWrite (ex_value ex_global 5 1) true; OWrite (ex_value ex_zoned 4 2) true;
   OWrite (ex_value ex_zoned 1 3) false; OWrite (ex_value 99 0 4) false].
Definition ex_store : VehiclePropertyStore :=
  match for_each ex_ops run_store_op empty_store with Val s _ => s | _ => empty_store end.

Lemma ex_ops_ok : Forall store_op_ok ex_ops.
Proof.
  repeat (apply Forall_cons_2; [unfold store_op_ok, value_ok, is_i32, ex_global, ex_zoned; cbn; lia|]).
  apply Forall_nil_2.
Qed.
Lemma ex_store_wf : store_wf ex_store.
Proof.
  destruct (store_ops_wf ex_ops _ empty_store_wf ex_ops_ok) as (s & E & Hs).
  unfold ex_store. by rewrite E.
Qed.

Example ex_store_reads :
  readAllValues ex_store
  = [ex_value ex_global 5 1; ex_value ex_zoned 1 3; ex_value ex_zoned 4 2].
Proof. vm_compute. reflexivity. Qed.


Lemma store_write_read_witness :
  store_wf ex_store
  ∧ match writeValue (ex_value ex_zoned 4 9) true ex_store with
    | Val s' true => readValueOrNull s' (ex_value ex_zoned 4 9) = Some (ex_value ex_zoned 4 9)
    | _ => False
    end.
Proof.
  split; [exact ex_store_wf|].
  pose proof (store_write_read ex_store (ex_value ex_zoned 4 9) true ex_store_wf) as H.
  destruct (writeValue _ _ _) as [s' []| |] eqn:E; [|by destruct H as [H _]; vm_compute in H|done..].
  destruct H as (_ & H & _). rewrite H. vm_compute. reflexivity.
Defined.

Lemma store_property_range_witness :
  readValuesForProperty ex_zoned ex_store
  = Val ex_store [ex_value ex_zoned 1 3; ex_value ex_zoned 4 2].
Proof.
  refine (proj1 (store_property_range ex_store ex_zoned ex_store_wf _ _ _)); [|done|done].
  apply (bool_decide_eq_true_1 _). vm_compute. reflexivity.
Defined.

Definition ex_pool_ops : list pool_op :=
  [PObtain (type_value INT32_VEC) 3;
   PRelease (MkRecyclable (Some (ex_value ex_global 0 1)) (Some (pool_key (type_value INT32_VEC) 3)));
   PObtainCopy (ex_value ex_global 0 1);
   PRelease (MkRecyclable (Some (ex_value ex_global 0 1)) (Some (pool_key (type_value INT32) 1)))].

Lemma pool_typed_witness :
  ∃ p, for_each ex_pool_ops run_pool_op (empty_pool 4) = Val p tt
    ∧ ∃ p' v d, obtain (type_value INT32_VEC) 3 p = Val p' (MkRecyclable (Some v) d)
        ∧ check (type_value INT32_VEC) 3 (value v) = true.
Proof.
  destruct (pool_typed 4 ex_pool_ops) as (p & E & H & _); [done| |].
  - repeat constructor; vm_compute; by eexists.
  - exists p. split; [exact E|]. apply H; [done|by eexists].
Defined.
