(* ===== verification/VehicleSubs.v ===== *)
(** * Vehicle HAL: the subscription manager

    Models android/hardware/xbox/vehicle/common: SubscriptionManager.{h,cpp}.
    Clients are heap objects ([HalClient]) named by their address; the manager's
    three maps are [gmap]s, a [SortedVector] of client pointers is the ascending
    list of their addresses.  Calls that leave the class (linking to a callback's
    death, the notification that a property lost its last client) are appended to a
    log, in order.  What the environment decides is an argument: whether
    [linkToDeath] succeeds and the address [new] returns.

    [subs] is the abstract view: who is subscribed to what, with the options asked
    for since the subscription began.  [sm_step] lets operations of any threads
    interleave; the manager's lock makes each of them atomic, except the clean-up
    after a client's death, which takes the lock once per property. *)

From Stdlib Require Import SpecFloat.
From S2P Require Import Prelude VehicleStore.

Record SubscribeOptions : Type := MkOpts {
  propId : Z;
  sampleRate : spec_float;
  flags : Z;
}.
#[global] Instance SubscribeOptions_eq_dec : EqDecision SubscribeOptions.
Proof. solve_decision. Defined.

Record HalClient : Type := MkClient {
  mCallback : Z;
  mSubscriptions : gmap Z SubscribeOptions;
}.

Inductive sm_event : Type :=
  | LinkToDeath (callback cookie : Z)
  | UnlinkToDeath (callback : Z)
  | PropertyUnsubscribed (propId : Z).

Record SubscriptionManager : Type := MkSM {
  heap : gmap Z HalClient;
  mClients : gmap Z Z;
  mPropToClients : gmap Z (list Z);
  mHalEventSubscribeOptions : gmap Z SubscribeOptions;
  sm_log : list sm_event;
}.

Definition empty_sm : SubscriptionManager := MkSM ∅ ∅ ∅ ∅ [].

(** [a || b] on the options: [None] when nothing changes (the out-parameter is then
    not written).  [std::max(a, b)] is [a < b ? b : a], also for NaN. *)
Definition mergeSubscribeOptions (oldOpts newOpts : SubscribeOptions)
    : option SubscribeOptions :=
  let updatedRate := if SFltb (sampleRate oldOpts) (sampleRate newOpts)
                     then sampleRate newOpts else sampleRate oldOpts in
  let updatedFlags := Z.lor (flags oldOpts) (flags newOpts) in
  if SFltb (sampleRate oldOpts) updatedRate || bool_decide (updatedFlags ≠ flags oldOpts)
  then Some (MkOpts (propId oldOpts) updatedRate updatedFlags) else None.

(** The order of [float]: irreflexive and transitive, NaN included. *)
Lemma SFltb_irrefl f : SFltb f f = false.
Proof.
  destruct f as [|[]| |[] m e]; try done; unfold SFltb; cbn;
    rewrite Z.compare_refl; fold (Pos.compare m m); by rewrite Pos.compare_refl.
Qed.

Lemma SFltb_trans f g h : SFltb f g = true → SFltb g h = true → SFltb f h = true.
Proof.
  unfold SFltb. destruct f as [|[]| |[] m e], g as [|[]| |[] m' e'], h as [|[]| |[] m'' e''];
    try done; cbn; fold (Pos.compare m m') (Pos.compare m' m'') (Pos.compare m m'');
    destruct (Z.compare_spec e e'), (Z.compare_spec e' e''), (Z.compare_spec e e'');
    try done; try lia;
    destruct (Pos.compare_spec m m'), (Pos.compare_spec m' m''), (Pos.compare_spec m m'');
    cbn; try done; lia.
Qed.

Definition is_nan (f : spec_float) : bool := match f with S754_nan => true | _ => false end.

(** At least as fast, in the order of [float]; a NaN compares with nothing. *)
Definition as_fast (rate asked : spec_float) : Prop :=
  is_nan rate = true ∨ is_nan asked = true ∨ SFleb asked rate = true.

Lemma not_slower rate asked : SFltb rate asked = false ↔ as_fast rate asked.
Proof.
  assert (Hc : ∀ (x y : comparison), y = CompOpp x → match x with Lt => true | _ => false end = false ↔
    false = true ∨ false = true ∨ match y with Gt => false | _ => true end = true).
  { intros [] y ->; cbn; split; intros H; try done; try (by right; right); by destruct H as [?|[?|?]]. }
  unfold as_fast, SFltb, SFleb. destruct rate as [|[]| |[] m e], asked as [|[]| |[] m' e']; cbn;
    try (split; intros H; try done; try (by left); try (by right; left); try (by right; right); by destruct H as [?|[?|?]]);
    apply Hc; rewrite (Z.compare_antisym e e'); fold (Pos.compare m m') (Pos.compare m' m);
    rewrite (Pos.compare_antisym m m'); destruct (e ?= e'); cbn; try done; by destruct (Pos.compare m m').
Qed.

Lemma as_fast_refl f : as_fast f f.
Proof. apply not_slower, SFltb_irrefl. Qed.

Lemma as_fast_real rate asked : is_nan rate = false → is_nan asked = false → as_fast rate asked → SFleb asked rate = true.
Proof. intros H1 H2 [H|[H|H]]; congruence. Qed.

(** ** HalClient *)

Definition client_addOrUpdateSubscription (c : HalClient) (opts : SubscribeOptions) : HalClient :=
  match mSubscriptions c !! propId opts with
  | None => MkClient (mCallback c) (<[propId opts := opts]> (mSubscriptions c))
  | Some oldOpts =>
      match mergeSubscribeOptions oldOpts opts with
      | Some updatedOptions =>
          MkClient (mCallback c) (<[propId opts := updatedOptions]> (mSubscriptions c))
      | None => c
      end
  end.

Definition isSubscribed (c : HalClient) (p f : Z) : bool :=
  match mSubscriptions c !! p with
  | None => false
  | Some opts => bool_decide (Z.land (flags opts) f ≠ 0)
  end.

Definition getSubscribedProperties (c : HalClient) : list Z :=
  (sorted_entries (mSubscriptions c)).*1.

(** ** HalClientVector *)

Fixpoint sv_add (a : Z) (l : list Z) : list Z :=
  match l with
  | [] => [a]
  | b :: l' => if decide (a < b) then a :: l else if decide (a = b) then l else b :: sv_add a l'
  end.
Definition sv_remove (a : Z) (l : list Z) : list Z := filter (λ b, b ≠ a) l.

(** ** SubscriptionManager *)

Section manager.
Context {HT : HidlTypes}.

Definition log (e : sm_event) : M SubscriptionManager unit :=
  modify (λ s, MkSM (heap s) (mClients s) (mPropToClients s) (mHalEventSubscribeOptions s)
                 (sm_log s ++ [e])).

(** Reading or changing the object behind a pointer. *)
Definition deref (a : Z) : M SubscriptionManager HalClient :=
  s ← get; match heap s !! a with Some c => mret c | None => undefined end.
Definition set_client (a : Z) (c : HalClient) : M SubscriptionManager unit :=
  modify (λ s, MkSM (<[a := c]> (heap s)) (mClients s) (mPropToClients s)
                 (mHalEventSubscribeOptions s) (sm_log s)).

Definition getClientsForPropertyLocked (s : SubscriptionManager) (p : Z) : option (list Z) :=
  mPropToClients s !! p.

Definition addClientToPropMapLocked (p : Z) (client : Z) : M SubscriptionManager unit :=
  modify (λ s,
    let propClients := default [] (mPropToClients s !! p) in
    MkSM (heap s) (mClients s) (<[p := sv_add client propClients]> (mPropToClients s))
      (mHalEventSubscribeOptions s) (sm_log s)).

Definition set_hal_options (m : gmap Z SubscribeOptions) : M SubscriptionManager unit :=
  modify (λ s, MkSM (heap s) (mClients s) (mPropToClients s) m (sm_log s)).

Definition updateHalEventSubscriptionLocked (opts : SubscribeOptions)
    : M SubscriptionManager (option SubscribeOptions) :=
  s ← get;
  match mHalEventSubscribeOptions s !! propId opts with
  | None =>
      set_hal_options (<[propId opts := opts]> (mHalEventSubscribeOptions s));; mret (Some opts)
  | Some oldOpts =>
      match mergeSubscribeOptions oldOpts opts with
      | Some updated =>
          set_hal_options (<[propId opts := updated]> (mHalEventSubscribeOptions s));;
          mret (Some updated)
      | None => mret None
      end
  end.

(** [linked]: the answer of [linkToDeath]; [addr]: what [new HalClient] returns. *)
Definition getOrCreateHalClientLocked (clientId callback : Z) (linked : bool) (addr : Z)
    : M SubscriptionManager (option Z) :=
  s ← get;
  match mClients s !! clientId with
  | Some a => mret (Some a)
  | None =>
      log (LinkToDeath callback clientId);;
      if linked then
        set_client addr (MkClient callback ∅);;
        modify (λ s, MkSM (heap s) (<[clientId := addr]> (mClients s)) (mPropToClients s)
                       (mHalEventSubscribeOptions s) (sm_log s));;
        mret (Some addr)
      else mret None
  end.

(** One turn of the loop; the updated options are collected in order. *)
Definition subscribe_one (client : Z) (opts : SubscribeOptions)
    : M SubscriptionManager (list SubscribeOptions) :=
  c ← deref client;
  set_client client (client_addOrUpdateSubscription c opts);;
  addClientToPropMapLocked (propId opts) client;;
  if decide (Z.land EVENTS_FROM_CAR (flags opts) ≠ 0) then
    u ← updateHalEventSubscriptionLocked opts;
    mret (option_list u)
  else mret [].

Fixpoint subscribe_all (client : Z) (optionList : list SubscribeOptions)
    : M SubscriptionManager (list SubscribeOptions) :=
  match optionList with
  | [] => mret []
  | opts :: rest =>
      u ← subscribe_one client opts;
      us ← subscribe_all client rest;
      mret (u ++ us)
  end.

Definition addOrUpdateSubscription (clientId callback : Z) (optionList : list SubscribeOptions)
    (linked : bool) (addr : Z) : M SubscriptionManager (StatusCode * list SubscribeOptions) :=
  client ← getOrCreateHalClientLocked clientId callback linked addr;
  match client with
  | None => mret (INTERNAL_ERROR, [])
  | Some a => us ← subscribe_all a optionList; mret (OK, us)
  end.

Fixpoint subscribed_of (propClients : list Z) (p f : Z) : M SubscriptionManager (list Z) :=
  match propClients with
  | [] => mret []
  | a :: rest =>
      c ← deref a;
      subscribedClients ← subscribed_of rest p f;
      mret (if isSubscribed c p f then a :: subscribedClients else subscribedClients)
  end.

Definition getSubscribedClientsLocked (p f : Z) : M SubscriptionManager (list Z) :=
  s ← get;
  match getClientsForPropertyLocked s p with
  | None => mret []
  | Some l => subscribed_of l p f
  end.
Definition getSubscribedClients : Z → Z → M SubscriptionManager (list Z) :=
  getSubscribedClientsLocked.

(** The values for every client, a [std::map] keyed by the client's address. *)
Fixpoint collect_values (propValues : list VehiclePropValue) (f : Z)
    (acc : gmap Z (list VehiclePropValue)) : M SubscriptionManager (gmap Z (list VehiclePropValue)) :=
  match propValues with
  | [] => mret acc
  | v :: rest =>
      clients ← getSubscribedClientsLocked (prop v) f;
      collect_values rest f
        (foldl (λ m a, <[a := default [] (m !! a) ++ [v]]> m) acc clients)
  end.

Definition distributeValuesToClients (propValues : list VehiclePropValue) (f : Z)
    : M SubscriptionManager (list (Z * list VehiclePropValue)) :=
  m ← collect_values propValues f ∅;
  mret (sorted_entries m).

Definition set_props (m : gmap Z (list Z)) : M SubscriptionManager unit :=
  modify (λ s, MkSM (heap s) (mClients s) m (mHalEventSubscribeOptions s) (sm_log s)).
Definition erase_client (clientId : Z) : M SubscriptionManager unit :=
  modify (λ s, MkSM (heap s) (delete clientId (mClients s)) (mPropToClients s)
                 (mHalEventSubscribeOptions s) (sm_log s)).

(** The branch of a known client; returns the property's vector.  The vector is
    shared by the map and the local variable [propertyClients]: after [remove] both
    see the shorter one, and it outlives its erasure from the map. *)
Definition drop_client (clientId p client : Z) (propertyClients : option (list Z))
    : M SubscriptionManager (option (list Z)) :=
  s ← get;
  let rest := sv_remove client <$> propertyClients in
  let m := match rest with
           | None => mPropToClients s
           | Some [] => delete p (mPropToClients s)
           | Some l => <[p := l]> (mPropToClients s)
           end in
  set_props m;;
  let isClientSubscribedToOtherProps :=
    existsb (λ e : Z * list Z, bool_decide (client ∈ e.2)) (map_to_list m) in
  (if isClientSubscribedToOtherProps then mret tt
   else
     c ← deref client;
     log (UnlinkToDeath (mCallback c));;
     erase_client clientId);;
  mret rest.

(** The end of [unsubscribe]: [propertyClients == nullptr || isEmpty()]. *)
Definition notify_if_unused (p : Z) (propertyClients : option (list Z))
    : M SubscriptionManager unit :=
  match propertyClients with
  | None | Some [] =>
      s ← get;
      set_hal_options (delete p (mHalEventSubscribeOptions s));;
      log (PropertyUnsubscribed p)
  | Some _ => mret tt
  end.

Definition unsubscribe (clientId p : Z) : M SubscriptionManager unit :=
  s ← get;
  let propertyClients := getClientsForPropertyLocked s p in
  rest ← match mClients s !! clientId with
         | None => mret propertyClients
         | Some client => drop_client clientId p client propertyClients
         end;
  notify_if_unused p rest.

(** The first part of [onCallbackDead], under the lock. *)
Definition dead_properties (cookie : Z) : M SubscriptionManager (list Z) :=
  s ← get;
  match mClients s !! cookie with
  | None => mret []
  | Some a => c ← deref a; mret (getSubscribedProperties c)
  end.

Definition onCallbackDead (cookie : Z) : M SubscriptionManager unit :=
  props ← dead_properties cookie;
  for_each props (unsubscribe cookie).

(** ** The abstract view *)

(** Who is known to the manager, what each of them asked for since it subscribed to
    a property (oldest first), and the notifications of lost properties. *)
Record subs : Type := MkSubs {
  sp_clients : gset Z;
  sp_req : gmap (Z * Z) (list SubscribeOptions);
  sp_lost : list Z;
}.

Definition spec_add (clientId : Z) (req : gmap (Z * Z) (list SubscribeOptions))
    (o : SubscribeOptions) : gmap (Z * Z) (list SubscribeOptions) :=
  <[(clientId, propId o) := default [] (req !! (clientId, propId o)) ++ [o]]> req.

Definition spec_subscribe (clientId : Z) (opts : list SubscribeOptions) (linked : bool)
    (sp : subs) : StatusCode * subs :=
  if decide (clientId ∈ sp_clients sp ∨ linked = true)
  then (OK, MkSubs (sp_clients sp ∪ {[clientId]}) (foldl (spec_add clientId) (sp_req sp) opts)
              (sp_lost sp))
  else (INTERNAL_ERROR, sp).

Definition spec_unsubscribe (clientId p : Z) (sp : subs) : subs :=
  let req := delete (clientId, p) (sp_req sp) in
  MkSubs
    (if decide (map_Forall (λ k _, k.1 ≠ clientId) req)
     then sp_clients sp ∖ {[clientId]} else sp_clients sp)
    req
    (if decide (map_Forall (λ k _, k.2 ≠ p) req) then sp_lost sp ++ [p] else sp_lost sp).

Definition lost_of (l : list sm_event) : list Z :=
  omap (λ e, match e with PropertyUnsubscribed p => Some p | _ => None end) l.

(** The clients subscribed to a property, by address. *)
Definition vec (s : SubscriptionManager) (p : Z) : list Z := default [] (mPropToClients s !! p).

(** The tables name the clients and their subscriptions. *)
Record tables_ok (sp : subs) (s : SubscriptionManager) : Prop := {
  tab_clients cid : is_Some (mClients s !! cid) ↔ cid ∈ sp_clients sp;
  tab_inj c1 c2 a : mClients s !! c1 = Some a → mClients s !! c2 = Some a → c1 = c2;
  tab_sorted p : StronglySorted Z.lt (vec s p);
  tab_nonempty p l : mPropToClients s !! p = Some l → l ≠ [];
  tab_owner p a : a ∈ vec s p → ∃ cid, mClients s !! cid = Some a;
  tab_vec cid a p : mClients s !! cid = Some a → a ∈ vec s p ↔ is_Some (sp_req sp !! (cid, p));
  tab_req cid p : is_Some (sp_req sp !! (cid, p)) → cid ∈ sp_clients sp;
}.

(** A client object has at least the flags that were asked for. *)
Definition object_ok (sp : subs) (cid : Z) (c : HalClient) : Prop :=
  ∀ p rs, sp_req sp !! (cid, p) = Some rs →
  ∃ o, mSubscriptions c !! p = Some o ∧ Forall (λ r, Z.land (flags r) (flags o) = flags r) rs.
Definition objects_ok (sp : subs) (s : SubscriptionManager) : Prop :=
  ∀ cid a, mClients s !! cid = Some a → ∃ c, heap s !! a = Some c ∧ object_ok sp cid c.

(** The subscription held with the car serves every client that asked for its events. *)
Record hal_ok (sp : subs) (s : SubscriptionManager) : Prop := {
  hal_dom p : vec s p = [] → mHalEventSubscribeOptions s !! p = None;
  hal_key p o : mHalEventSubscribeOptions s !! p = Some o → propId o = p;
  hal_rate cid p rs r : sp_req sp !! (cid, p) = Some rs → r ∈ rs →
    Z.land EVENTS_FROM_CAR (flags r) ≠ 0 →
    ∃ o, mHalEventSubscribeOptions s !! p = Some o ∧ as_fast (sampleRate o) (sampleRate r);
}.

Record sim (sp : subs) (s : SubscriptionManager) : Prop := {
  sim_tables : tables_ok sp s;
  sim_objects : objects_ok sp s;
  sim_hal : hal_ok sp s;
  sim_lost : lost_of (sm_log s) = sp_lost sp;
}.

Lemma sim_empty : sim (MkSubs ∅ ∅ []) empty_sm.
Proof.
  split; [split| |split|done]; cbn; unfold vec; cbn; intros; try done.
  - rewrite lookup_empty. split; [by intros []|set_solver].
  - constructor.
  - by apply not_elem_of_nil in H.
  - by destruct H.
Qed.

(** *** Sorted vectors *)

Lemma elem_of_sv_add a b l : b ∈ sv_add a l ↔ b = a ∨ b ∈ l.
Proof.
  induction l as [|c l IH]; cbn; [set_solver|].
  destruct (decide (a < c)); [set_solver|].
  destruct (decide (a = c)) as [->|]; [set_solver|]. rewrite !elem_of_cons, IH. tauto.
Qed.

Lemma sv_add_sorted a l : StronglySorted Z.lt l → StronglySorted Z.lt (sv_add a l).
Proof.
  induction 1 as [|c l Hs IH Hall]; cbn; [by repeat constructor|].
  destruct (decide (a < c)).
  { constructor; [by constructor|]. constructor; [done|].
    eapply Forall_impl; [|exact Hall]. intros; lia. }
  destruct (decide (a = c)); [by constructor|]. constructor; [done|].
  apply List.Forall_forall. intros b Hb%list_elem_of_In%elem_of_sv_add.
  destruct Hb as [->|Hb]; [lia|]. rewrite List.Forall_forall in Hall.
  by apply Hall, list_elem_of_In.
Qed.

Lemma elem_of_sv_remove a b l : b ∈ sv_remove a l ↔ b ≠ a ∧ b ∈ l.
Proof. unfold sv_remove. by rewrite list_elem_of_filter. Qed.

Lemma sv_remove_sorted a l : StronglySorted Z.lt l → StronglySorted Z.lt (sv_remove a l).
Proof.
  induction 1 as [|c l Hs IH Hall]; [constructor|]. unfold sv_remove in *.
  destruct (decide (c ≠ a)).
  - rewrite filter_cons_True by done. constructor; [done|].
    apply List.Forall_forall. intros b Hb%list_elem_of_In. apply list_elem_of_filter in Hb as [_ Hb].
    rewrite List.Forall_forall in Hall. by apply Hall, list_elem_of_In.
  - by rewrite filter_cons_False.
Qed.

(** *** Merged options *)

Definition merged (old new : SubscribeOptions) : SubscribeOptions :=
  default old (mergeSubscribeOptions old new).

Lemma merged_propId o n : propId (merged o n) = propId o.
Proof. unfold merged, mergeSubscribeOptions. by destruct (_ || _). Qed.

Lemma merged_flags o n : flags (merged o n) = Z.lor (flags o) (flags n).
Proof.
  unfold merged, mergeSubscribeOptions.
  destruct (_ || _) eqn:E; [done|]. cbn. apply orb_false_iff in E as [_ E].
  apply bool_decide_eq_false in E. symmetry. by apply dec_stable.
Qed.

Lemma merged_rate o n :
  sampleRate (merged o n)
  = if SFltb (sampleRate o) (sampleRate n) then sampleRate n else sampleRate o.
Proof.
  unfold merged, mergeSubscribeOptions.
  destruct (_ || _) eqn:E; [done|]. cbn. apply orb_false_iff in E as [E _].
  destruct (SFltb (sampleRate o) (sampleRate n)) eqn:E2; [congruence|done].
Qed.

(** The merged rate is as fast as the new one and as anything the old one was as
    fast as. *)
Lemma merged_rate_new o n : as_fast (sampleRate (merged o n)) (sampleRate n).
Proof.
  apply not_slower. rewrite merged_rate. destruct (SFltb (sampleRate o) (sampleRate n)) eqn:E; [|done].
  apply SFltb_irrefl.
Qed.
Lemma merged_rate_old o n r :
  as_fast (sampleRate o) r → as_fast (sampleRate (merged o n)) r.
Proof.
  intros Hr%not_slower. apply not_slower. rewrite merged_rate. destruct (SFltb (sampleRate o) (sampleRate n)) eqn:E; [|done].
  destruct (SFltb (sampleRate n) r) eqn:E'; [|done].
  by rewrite (SFltb_trans _ _ _ E E') in Hr.
Qed.

Lemma land_lor_keeps r a b : Z.land r a = r → Z.land r (Z.lor a b) = r.
Proof.
  intros H. apply Z.bits_inj'. intros k Hk. apply (f_equal (λ z, Z.testbit z k)) in H.
  rewrite Z.land_spec in H. rewrite Z.land_spec, Z.lor_spec. revert H.
  by destruct (Z.testbit r k), (Z.testbit a k), (Z.testbit b k).
Qed.

(** *** Every operation simulates its abstract counterpart *)

(** A step of the subscription loop, as one update of each map. *)
Lemma subscribe_one_run s a o c :
  heap s !! a = Some c → (∀ p o, mHalEventSubscribeOptions s !! p = Some o → propId o = p) →
  ∃ us hal, subscribe_one a o s
    = Val (MkSM (<[a := client_addOrUpdateSubscription c o]> (heap s)) (mClients s)
             (<[propId o := sv_add a (vec s (propId o))]> (mPropToClients s)) hal (sm_log s)) us
  ∧ hal = foldl (λ m u, <[propId u := u]> m) (mHalEventSubscribeOptions s) us
  ∧ (∀ p, p ≠ propId o → hal !! p = mHalEventSubscribeOptions s !! p)
  ∧ hal !! propId o
    = (if decide (Z.land EVENTS_FROM_CAR (flags o) ≠ 0)
       then Some (from_option (λ old, merged old o) o (mHalEventSubscribeOptions s !! propId o))
       else mHalEventSubscribeOptions s !! propId o)
  ∧ Forall (λ u, u = from_option (λ old, merged old o) o (mHalEventSubscribeOptions s !! propId o)) us.
Proof.
  intros Hc Hkey. unfold subscribe_one, deref, set_client, addClientToPropMapLocked,
    updateHalEventSubscriptionLocked, set_hal_options. run_m. rewrite Hc. run_m.
  destruct (decide (Z.land EVENTS_FROM_CAR (flags o) ≠ 0)); [|by do 2 eexists].
  cbn [mHalEventSubscribeOptions].
  destruct (mHalEventSubscribeOptions s !! propId o) as [old|] eqn:Eo; cbn [from_option].
  - unfold merged. destruct (mergeSubscribeOptions old o) as [u|] eqn:Eu; cbn [default from_option id].
    + assert (propId u = propId o) as Hu.
      { pose proof (merged_propId old o) as Hm. unfold merged in Hm. rewrite Eu in Hm.
        cbn in Hm. by rewrite Hm, (Hkey _ _ Eo). }
      do 2 eexists. split_and!; [done|cbn; by rewrite Hu| | |by repeat constructor].
      * intros p Hp. by rewrite lookup_insert_ne.
      * by rewrite lookup_insert_eq.
    + by do 2 eexists.
  - do 2 eexists. split_and!; [done|done| | |by repeat constructor].
    + intros p Hp. by rewrite lookup_insert_ne.
    + by rewrite lookup_insert_eq.
Qed.

Lemma client_updated c o p :
  mSubscriptions (client_addOrUpdateSubscription c o) !! p
  = if decide (p = propId o)
    then Some (from_option (λ old, merged old o) o (mSubscriptions c !! propId o))
    else mSubscriptions c !! p.
Proof.
  unfold client_addOrUpdateSubscription, merged.
  destruct (mSubscriptions c !! propId o) as [old|] eqn:E; cbn [from_option].
  - destruct (mergeSubscribeOptions old o) as [u|]; cbn [mSubscriptions default from_option id].
    + destruct (decide (p = propId o)) as [->|]; [by rewrite lookup_insert_eq|].
      by rewrite lookup_insert_ne.
    + by destruct (decide (p = propId o)) as [->|].
  - cbn. destruct (decide (p = propId o)) as [->|]; [by rewrite lookup_insert_eq|].
    by rewrite lookup_insert_ne.
Qed.

Lemma vec_insert h m props hal lg p l q :
  vec (MkSM h m (<[p := l]> props) hal lg) q = if decide (q = p) then l else default [] (props !! q).
Proof.
  unfold vec. cbn. destruct (decide (q = p)) as [->|]; [by rewrite lookup_insert_eq|].
  by rewrite lookup_insert_ne.
Qed.

Lemma spec_add_lookup cid req o k :
  spec_add cid req o !! k
  = if decide (k = (cid, propId o)) then Some (default [] (req !! k) ++ [o]) else req !! k.
Proof.
  unfold spec_add. destruct (decide (k = _)) as [->|]; [by rewrite lookup_insert_eq|].
  by rewrite lookup_insert_ne.
Qed.

Lemma spec_add_is_Some cid req o c p :
  is_Some (spec_add cid req o !! (c, p))
  ↔ (c = cid ∧ p = propId o) ∨ is_Some (req !! (c, p)).
Proof.
  rewrite spec_add_lookup. destruct (decide ((c, p) = _)) as [[= -> ->]|Hne].
  - split; [by left|by eexists].
  - split; [by right|]. intros [[-> ->]|H]; [done|exact H].
Qed.

(** The state after one turn of the subscription loop. *)
Definition after_one (s : SubscriptionManager) (a : Z) (c : HalClient) (o : SubscribeOptions)
    (hal : gmap Z SubscribeOptions) : SubscriptionManager :=
  MkSM (<[a := client_addOrUpdateSubscription c o]> (heap s)) (mClients s)
    (<[propId o := sv_add a (vec s (propId o))]> (mPropToClients s)) hal (sm_log s).

Definition spec_one (cid : Z) (sp : subs) (o : SubscribeOptions) : subs :=
  MkSubs (sp_clients sp) (spec_add cid (sp_req sp) o) (sp_lost sp).

Lemma elem_of_vec_after s a c o hal p b :
  b ∈ vec (after_one s a c o hal) p ↔ (p = propId o ∧ b = a) ∨ b ∈ vec s p.
Proof.
  unfold after_one. rewrite vec_insert. destruct (decide (p = propId o)) as [->|Hp].
  - rewrite elem_of_sv_add. tauto.
  - unfold vec. tauto.
Qed.

Lemma vec_after_nonempty s a c o hal : vec (after_one s a c o hal) (propId o) ≠ [].
Proof.
  intros Hnil. apply (not_elem_of_nil a). rewrite <- Hnil. apply elem_of_vec_after. by left.
Qed.

Lemma tables_subscribe_one sp s cid a c o hal :
  tables_ok sp s → mClients s !! cid = Some a →
  tables_ok (spec_one cid sp o) (after_one s a c o hal).
Proof.
  intros Ht Ha. split; cbn [mClients sp_clients sp_req spec_one].
  - apply Ht.
  - apply Ht.
  - intros p. unfold after_one. rewrite vec_insert. pose proof (tab_sorted _ _ Ht p).
    by destruct (decide (p = propId o)) as [->|]; [apply sv_add_sorted|].
  - intros p l Hl ->. destruct (decide (p = propId o)) as [->|Hp].
    + apply (vec_after_nonempty s a c o hal). unfold vec. by rewrite Hl.
    + cbn in Hl. rewrite lookup_insert_ne in Hl by done. by apply (tab_nonempty _ _ Ht) in Hl.
  - intros p b [[_ ->]|Hb]%elem_of_vec_after; [by exists cid|]. by apply (tab_owner _ _ Ht p).
  - intros cid' b p Hb. change (mClients s !! cid' = Some b) in Hb.
    rewrite elem_of_vec_after, spec_add_is_Some, (tab_vec _ _ Ht _ _ _ Hb).
    split; (intros [[? ?]|?]; [left|by right]); subst.
    + split; [|done]. by apply (tab_inj _ _ Ht _ _ a).
    + split; [done|congruence].
  - intros cid' p [[-> _]|H]%spec_add_is_Some.
    + apply (tab_clients _ _ Ht). by rewrite Ha.
    + by apply (tab_req _ _ Ht _ p).
Qed.

Lemma object_subscribe_one sp cid c o :
  object_ok sp cid c → object_ok (spec_one cid sp o) cid (client_addOrUpdateSubscription c o).
Proof.
  intros Hobj p rs. cbn [spec_one sp_req]. rewrite spec_add_lookup, client_updated.
  destruct (decide (p = propId o)) as [->|Hp]; [|rewrite decide_False by congruence; apply Hobj].
  rewrite decide_True by done. intros [= <-]. eexists. split; [done|].
  specialize (Hobj (propId o)).
  destruct (sp_req sp !! (cid, propId o)) as [rs|]; cbn [default from_option id].
  - destruct (Hobj _ eq_refl) as (old & -> & Hf). cbn [from_option]. rewrite merged_flags.
    apply Forall_app. split.
    + eapply Forall_impl; [|exact Hf]. intros r. apply land_lor_keeps.
    + constructor; [|constructor]. rewrite Z.lor_comm. apply land_lor_keeps, Z.land_diag.
  - constructor; [|constructor]. destruct (mSubscriptions c !! propId o); cbn [from_option].
    + rewrite merged_flags, Z.lor_comm. apply land_lor_keeps, Z.land_diag.
    + apply Z.land_diag.
Qed.

Lemma objects_subscribe_one sp s cid a c o hal :
  tables_ok sp s → objects_ok sp s → mClients s !! cid = Some a → heap s !! a = Some c →
  objects_ok (spec_one cid sp o) (after_one s a c o hal).
Proof.
  intros Ht Hobj Ha Hc cid' b Hb. cbn [heap after_one mClients] in *.
  destruct (Hobj _ _ Hb) as (c' & Hc' & Hok).
  destruct (decide (b = a)) as [->|Hba].
  - assert (cid' = cid) as -> by (by apply (tab_inj _ _ Ht _ _ a)).
    rewrite lookup_insert_eq. eexists. split; [done|]. apply object_subscribe_one.
    rewrite Hc in Hc'. injection Hc' as ->. exact Hok.
  - rewrite lookup_insert_ne by done. exists c'. split; [done|].
    intros p rs. cbn [spec_one sp_req]. rewrite spec_add_lookup, decide_False; [apply Hok|].
    intros [= -> _]. congruence.
Qed.

(** What a client asked for after one more request: the request, or it was there. *)
Lemma spec_add_elem cid req o c p rs r :
  spec_add cid req o !! (c, p) = Some rs → r ∈ rs →
  (p = propId o ∧ r = o) ∨ ∃ rs', req !! (c, p) = Some rs' ∧ r ∈ rs'.
Proof.
  rewrite spec_add_lookup. destruct (decide _) as [[= -> ->]|Hne]; [|intros; right; by eexists].
  intros [= <-] [Hr|Hr%list_elem_of_singleton]%elem_of_app; [|by left].
  right. destruct (req !! (cid, propId o)); [by eexists|by apply not_elem_of_nil in Hr].
Qed.

Lemma hal_subscribe_one sp s cid a c o hal :
  hal_ok sp s →
  (∀ p, p ≠ propId o → hal !! p = mHalEventSubscribeOptions s !! p) →
  hal !! propId o
  = (if decide (Z.land EVENTS_FROM_CAR (flags o) ≠ 0)
     then Some (from_option (λ old, merged old o) o (mHalEventSubscribeOptions s !! propId o))
     else mHalEventSubscribeOptions s !! propId o) →
  hal_ok (spec_one cid sp o) (after_one s a c o hal).
Proof.
  intros Hh Hother Hsame. split; cbn [mHalEventSubscribeOptions after_one spec_one sp_req].
  - intros p Hp. destruct (decide (p = propId o)) as [->|Hne].
    + by apply (vec_after_nonempty s a c o hal) in Hp.
    + rewrite Hother by done. apply (hal_dom _ _ Hh). unfold after_one in Hp.
      by rewrite vec_insert, decide_False in Hp.
  - intros p o'. destruct (decide (p = propId o)) as [->|Hne];
      [|rewrite Hother by done; apply (hal_key _ _ Hh)].
    rewrite Hsame. pose proof (hal_key _ _ Hh (propId o)) as Hk.
    destruct (decide _); [|apply Hk]. intros [= <-].
    destruct (mHalEventSubscribeOptions s !! propId o) as [old|]; cbn [from_option]; [|done].
    rewrite merged_propId. by apply Hk.
  - intros cid' p rs r Hrs Hr Hcar.
    destruct (spec_add_elem _ _ _ _ _ _ _ Hrs Hr) as [[-> ->]|(rs' & Hrs' & Hr')].
    + rewrite Hsame, decide_True by done. eexists. split; [done|].
      destruct (mHalEventSubscribeOptions s !! propId o); cbn [from_option];
        [apply merged_rate_new|apply as_fast_refl].
    + destruct (hal_rate _ _ Hh _ _ _ _ Hrs' Hr' Hcar) as (old & Hold & Hrate).
      destruct (decide (p = propId o)) as [->|Hne]; [|rewrite Hother by done; by exists old].
      rewrite Hsame, Hold. destruct (decide _); [|by exists old].
      eexists. split; [done|]. by apply merged_rate_old.
Qed.

(** What the manager holds with the car follows the updates it reports. *)
Definition apply_updates (m : gmap Z SubscribeOptions) (us : list SubscribeOptions)
    : gmap Z SubscribeOptions := foldl (λ m u, <[propId u := u]> m) m us.

(** A property of the rates: the merged rate is one of the two. *)
Definition rate_ok (P : Z → spec_float → Prop) (o : SubscribeOptions) : Prop :=
  P (propId o) (sampleRate o).
Definition rates_ok (P : Z → spec_float → Prop) (m : gmap Z SubscribeOptions) : Prop :=
  map_Forall (λ _ o, rate_ok P o) m.

Lemma merged_rate_ok P old o :
  propId old = propId o → rate_ok P old → rate_ok P o → rate_ok P (merged old o).
Proof.
  unfold rate_ok. intros Hid H1 H2. rewrite merged_propId, merged_rate.
  destruct (SFltb _ _); [by rewrite Hid|done].
Qed.

Lemma apply_updates_rates P m us :
  rates_ok P m → Forall (rate_ok P) us → rates_ok P (apply_updates m us).
Proof.
  intros Hm Hus. revert m Hm. induction Hus as [|u us Hu _ IH]; intros m Hm; [done|].
  cbn. apply IH. by apply map_Forall_insert_2.
Qed.

Lemma sim_subscribe_one sp s cid a o :
  sim sp s → mClients s !! cid = Some a →
  ∃ s' us, subscribe_one a o s = Val s' us ∧ sim (spec_one cid sp o) s'
    ∧ mClients s' = mClients s
    ∧ mHalEventSubscribeOptions s' = apply_updates (mHalEventSubscribeOptions s) us
    ∧ ∀ P, rates_ok P (mHalEventSubscribeOptions s) → rate_ok P o → Forall (rate_ok P) us.
Proof.
  intros [Ht Ho Hh Hl] Ha. destruct (Ho _ _ Ha) as (c & Hc & _).
  destruct (subscribe_one_run s a o c Hc (hal_key _ _ Hh))
    as (us & hal & E & Hfold & Hother & Hsame & Hus).
  exists (after_one s a c o hal), us. split_and!; [exact E| |done|exact Hfold|].
  2:{ intros P HP Hok. eapply Forall_impl; [|exact Hus]. intros u ->.
      destruct (mHalEventSubscribeOptions s !! propId o) as [old|] eqn:Eold; [|done].
      apply merged_rate_ok; [by apply (hal_key _ _ Hh)|by apply (HP _ _ Eold)|done]. }
  split; [by apply tables_subscribe_one|by apply objects_subscribe_one
         |by apply hal_subscribe_one|exact Hl].
Qed.

Lemma sim_subscribe_all opts sp s cid a :
  sim sp s → mClients s !! cid = Some a →
  ∃ s' us, subscribe_all a opts s = Val s' us
    ∧ sim (MkSubs (sp_clients sp) (foldl (spec_add cid) (sp_req sp) opts) (sp_lost sp)) s'
    ∧ mHalEventSubscribeOptions s' = apply_updates (mHalEventSubscribeOptions s) us
    ∧ ∀ P, rates_ok P (mHalEventSubscribeOptions s) → Forall (rate_ok P) opts →
           Forall (rate_ok P) us.
Proof.
  revert sp s. induction opts as [|o opts IH]; intros sp s Hsim Ha.
  { exists s, []. by destruct sp. }
  destruct (sim_subscribe_one sp s cid a o Hsim Ha) as (s1 & us1 & E1 & H1 & Hc1 & Hh1 & HP1).
  rewrite <- Hc1 in Ha. destruct (IH _ _ H1 Ha) as (s2 & us2 & E2 & H2 & Hh2 & HP2).
  exists s2, (us1 ++ us2). cbn [subscribe_all].
  rewrite (bind_val _ _ _ _ _ E1), (bind_val _ _ _ _ _ E2). split_and!; [done|exact H2| |].
  - rewrite Hh2, Hh1. unfold apply_updates. by rewrite foldl_app.
  - intros P HP [Ho Hopts]%Forall_cons_1. specialize (HP1 P HP Ho).
    apply Forall_app. split; [done|]. apply HP2; [|done]. rewrite Hh1. by apply apply_updates_rates.
Qed.

Definition fresh_addr (s : SubscriptionManager) (addr : Z) : Prop :=
  map_Forall (λ _ a, a ≠ addr) (mClients s).

(** A new client object joins the tables without a subscription. *)
Lemma sim_new_client sp s cid addr cb lg :
  sim sp s → mClients s !! cid = None → fresh_addr s addr →
  lost_of lg = lost_of (sm_log s) →
  sim (MkSubs (sp_clients sp ∪ {[cid]}) (sp_req sp) (sp_lost sp))
    (MkSM (<[addr := MkClient cb ∅]> (heap s)) (<[cid := addr]> (mClients s))
       (mPropToClients s) (mHalEventSubscribeOptions s) lg).
Proof.
  intros [Ht Ho Hh Hl] Hnew Hfresh Hlg.
  assert (∀ p, sp_req sp !! (cid, p) = None) as Hnoreq.
  { intros p. apply eq_None_not_Some. intros H%(tab_req _ _ Ht).
    apply (tab_clients _ _ Ht) in H. by rewrite Hnew in H; destruct H. }
  assert (∀ cid' a', <[cid := addr]> (mClients s) !! cid' = Some a' →
            (cid' = cid ∧ a' = addr) ∨ (cid' ≠ cid ∧ a' ≠ addr ∧ mClients s !! cid' = Some a'))
    as Hlook.
  { intros cid' a' [[<- <-]|[Hne H]]%lookup_insert_Some; [by left|]. right.
    split_and!; [done|by apply (Hfresh _ _ H)|done]. }
  split; [split|..]; cbn [mClients heap mPropToClients mHalEventSubscribeOptions sm_log sp_clients
                          sp_req sp_lost].
  - intros cid'. rewrite lookup_insert_is_Some', (tab_clients _ _ Ht). set_solver.
  - intros c1 c2 a H1%Hlook H2%Hlook.
    destruct H1 as [[? ?]|(? & ? & ?)], H2 as [[? ?]|(? & ? & ?)]; try congruence.
    by apply (tab_inj _ _ Ht _ _ a).
  - apply (tab_sorted _ _ Ht).
  - apply (tab_nonempty _ _ Ht).
  - intros p a Ha. destruct (tab_owner _ _ Ht p a Ha) as [cid' H]. exists cid'.
    rewrite lookup_insert_ne; [done|congruence].
  - intros cid' a p [[-> ->]|(_ & _ & H)]%Hlook; [|by apply (tab_vec _ _ Ht)].
    rewrite Hnoreq. split; [|by intros []].
    intros Ha. destruct (tab_owner _ _ Ht p _ Ha) as [cid' H]. by destruct (Hfresh _ _ H).
  - intros cid' p H%(tab_req _ _ Ht). set_solver.
  - intros cid' a [[-> ->]|(_ & Hne & H)]%Hlook; cbn [heap].
    + rewrite lookup_insert_eq. eexists. split; [done|]. intros p rs. cbn. by rewrite Hnoreq.
    + rewrite lookup_insert_ne by done. apply (Ho _ _ H).
  - split; apply Hh.
  - by rewrite Hlg.
Qed.

Lemma lost_of_app l1 l2 : lost_of (l1 ++ l2) = lost_of l1 ++ lost_of l2.
Proof. apply omap_app. Qed.

Lemma sim_relog sp s lg :
  sim sp s → lost_of lg = lost_of (sm_log s) →
  sim sp (MkSM (heap s) (mClients s) (mPropToClients s) (mHalEventSubscribeOptions s) lg).
Proof.
  intros [Ht Ho Hh Hl] Hlg. split; [split; apply Ht|exact Ho|split; apply Hh|].
  rewrite <- Hl. exact Hlg.
Qed.

(** Subscribing does to the manager what it does to the abstract view; it fails
    only when the callback of a new client cannot be watched; and the reported
    updates are exactly the changes of what is held with the car. *)
Lemma sim_subscribe sp s cid cb opts linked addr :
  sim sp s → fresh_addr s addr →
  ∃ s' us, addOrUpdateSubscription cid cb opts linked addr s
           = Val s' ((spec_subscribe cid opts linked sp).1, us)
    ∧ sim (spec_subscribe cid opts linked sp).2 s'
    ∧ mHalEventSubscribeOptions s' = apply_updates (mHalEventSubscribeOptions s) us
    ∧ (∀ P, rates_ok P (mHalEventSubscribeOptions s) → Forall (rate_ok P) opts →
           Forall (rate_ok P) us)
    ∧ ((spec_subscribe cid opts linked sp).1 ≠ OK → us = []).
Proof.
  intros Hsim Hfresh. unfold addOrUpdateSubscription, getOrCreateHalClientLocked, spec_subscribe.
  run_m. pose proof (tab_clients _ _ (sim_tables _ _ Hsim) cid) as Hcid.
  destruct (mClients s !! cid) as [a|] eqn:Ea.
  - assert (cid ∈ sp_clients sp) as Hin by (by apply Hcid).
    rewrite decide_True by (by left). cbn [fst snd].
    replace (sp_clients sp ∪ {[cid]}) with (sp_clients sp) by set_solver.
    destruct (sim_subscribe_all opts sp s cid a Hsim Ea) as (s' & us & E & H' & Hh' & HP').
    exists s', us. by rewrite E.
  - assert (cid ∉ sp_clients sp) as Hout by (intros H%Hcid; by destruct H).
    unfold log, set_client. run_m. cbn [heap mClients mPropToClients mHalEventSubscribeOptions sm_log].
    assert (lost_of (sm_log s ++ [LinkToDeath cb cid]) = lost_of (sm_log s)) as Hlg.
    { rewrite lost_of_app. apply app_nil_r. }
    destruct linked.
    + rewrite decide_True by (by right). cbn [fst snd].
      match goal with |- context [subscribe_all addr opts ?st] => set (s1 := st) end.
      destruct (sim_subscribe_all opts (MkSubs (sp_clients sp ∪ {[cid]}) (sp_req sp) (sp_lost sp))
                  s1 cid addr) as (s' & us & E & H' & Hh' & HP').
      * exact (sim_new_client sp s cid addr cb _ Hsim Ea Hfresh Hlg).
      * apply lookup_insert_eq.
      * exists s', us. by rewrite E.
    + rewrite decide_False by naive_solver. eexists _, []. split_and!; [done| |done|done|done].
      by apply sim_relog.
Qed.

(** *** Unsubscribing *)

(** The property map after a client left a property. *)
Definition unsub_props (s : SubscriptionManager) (a p : Z) : gmap Z (list Z) :=
  match sv_remove a <$> mPropToClients s !! p with
  | None => mPropToClients s
  | Some [] => delete p (mPropToClients s)
  | Some l => <[p := l]> (mPropToClients s)
  end.

Lemma unsub_props_vec s a p q :
  default [] (unsub_props s a p !! q) = if decide (q = p) then sv_remove a (vec s p) else vec s q.
Proof.
  unfold unsub_props, vec. destruct (mPropToClients s !! p) as [l|] eqn:El; cbn.
  - destruct (sv_remove a l) as [|x l'] eqn:Er;
      (destruct (decide (q = p)) as [->|Hne];
       [by rewrite ?lookup_delete_eq, ?lookup_insert_eq
       |by rewrite ?lookup_delete_ne, ?lookup_insert_ne by done]).
  - destruct (decide (q = p)) as [->|]; [by rewrite El|done].
Qed.

Lemma unsub_props_nonempty s a p q l :
  (∀ q l, mPropToClients s !! q = Some l → l ≠ []) → unsub_props s a p !! q = Some l → l ≠ [].
Proof.
  intros Hne. unfold unsub_props. destruct (sv_remove a <$> _) as [[|x l']|].
  - rewrite lookup_delete_Some. intros [_ H]. by apply (Hne q).
  - rewrite lookup_insert_Some. intros [[_ <-]|[_ H]]; [done|by apply (Hne q)].
  - apply Hne.
Qed.

(** The loop over the map finds the client in some vector or in none. *)
Lemma existsb_props (m : gmap Z (list Z)) a :
  existsb (λ e : Z * list Z, bool_decide (a ∈ e.2)) (map_to_list m) = true
  ↔ ∃ q, a ∈ default [] (m !! q).
Proof.
  rewrite existsb_exists. split.
  - intros ([q l] & Hin%list_elem_of_In%elem_of_map_to_list & Ha%bool_decide_eq_true).
    exists q. by rewrite Hin.
  - intros [q Hq]. destruct (m !! q) as [l|] eqn:E; [|by apply not_elem_of_nil in Hq].
    exists (q, l). split; [by apply list_elem_of_In, elem_of_map_to_list|].
    by apply bool_decide_eq_true.
Qed.

(** After the first half of [unsubscribe]: the tables fit the abstract view with the
    subscription gone, the rest is as before. *)
Definition spec_dropped (cid p : Z) (sp : subs) : subs :=
  MkSubs (sp_clients (spec_unsubscribe cid p sp)) (delete (cid, p) (sp_req sp)) (sp_lost sp).

Definition dropped (s : SubscriptionManager) (cid a p : Z) : SubscriptionManager :=
  MkSM (heap s)
    (if existsb (λ e : Z * list Z, bool_decide (a ∈ e.2)) (map_to_list (unsub_props s a p))
     then mClients s else delete cid (mClients s))
    (unsub_props s a p) (mHalEventSubscribeOptions s) (sm_log s).

Lemma vec_dropped s cid a p q :
  vec (dropped s cid a p) q = if decide (q = p) then sv_remove a (vec s p) else vec s q.
Proof. apply unsub_props_vec. Qed.

Lemma elem_of_vec_dropped s cid a p q b :
  b ∈ vec (dropped s cid a p) q ↔ b ∈ vec s q ∧ (q = p → b ≠ a).
Proof.
  rewrite vec_dropped. destruct (decide (q = p)) as [->|]; [rewrite elem_of_sv_remove|];
    naive_solver.
Qed.

Lemma dropped_req sp s cid a p cid' a' q :
  tables_ok sp s → mClients s !! cid = Some a → mClients s !! cid' = Some a' →
  a' ∈ vec (dropped s cid a p) q ↔ is_Some (delete (cid, p) (sp_req sp) !! (cid', q)).
Proof.
  intros Ht Ha Ha'. rewrite elem_of_vec_dropped, (tab_vec _ _ Ht _ _ _ Ha'), lookup_delete_is_Some.
  assert (a' = a ↔ cid' = cid) as Hiff.
  { split; [intros ->; by apply (tab_inj _ _ Ht _ _ a)|intros ->; congruence]. }
  split; intros [H1 H2]; split; try done; [intros [= -> ->]|intros -> ->]; naive_solver.
Qed.

(** The client is forgotten exactly when it has no subscription left. *)
Lemma dropped_last sp s cid a p :
  tables_ok sp s → mClients s !! cid = Some a →
  existsb (λ e : Z * list Z, bool_decide (a ∈ e.2)) (map_to_list (unsub_props s a p))
  = bool_decide (¬ map_Forall (λ k _, k.1 ≠ cid) (delete (cid, p) (sp_req sp))).
Proof.
  intros Ht Ha. apply eq_iff_eq_true. rewrite existsb_props, bool_decide_eq_true. split.
  - intros [q Hq]. change (a ∈ vec (dropped s cid a p) q) in Hq.
    apply (dropped_req sp s cid a p cid a q Ht Ha Ha) in Hq as [rs Hrs].
    intros Hall. by apply (Hall _ _ Hrs).
  - intros Hnot. apply map_not_Forall in Hnot as ([cid' q] & rs & Hrs & Hc); [|apply _].
    apply dec_stable in Hc. cbn in Hc. subst cid'. exists q.
    apply (dropped_req sp s cid a p cid a q Ht Ha Ha). by rewrite Hrs.
Qed.

Lemma tables_dropped sp s cid a p :
  tables_ok sp s → mClients s !! cid = Some a →
  tables_ok (spec_dropped cid p sp) (dropped s cid a p).
Proof.
  intros Ht Ha. pose proof (dropped_last sp s cid a p Ht Ha) as Hlast.
  pose proof (dropped_req sp s cid a p) as Hreq.
  assert (∀ cid' a', mClients (dropped s cid a p) !! cid' = Some a' → mClients s !! cid' = Some a')
    as Hsub.
  { intros cid' a'. cbn. destruct (existsb _ _); [done|]. by intros [_ ?]%lookup_delete_Some. }
  split; cbn [sp_clients sp_req spec_dropped spec_unsubscribe].
  - intros cid'. cbn. rewrite Hlast. pose proof (tab_clients _ _ Ht cid') as Hc.
    destruct (decide (map_Forall _ _)) as [Hall|Hall].
    + rewrite bool_decide_eq_false_2, lookup_delete_is_Some by tauto. set_solver.
    + by rewrite bool_decide_eq_true_2.
  - intros c1 c2 b H1%Hsub H2%Hsub. by apply (tab_inj _ _ Ht _ _ b).
  - intros q. rewrite vec_dropped. pose proof (tab_sorted _ _ Ht) as Hs.
    destruct (decide _); [by apply sv_remove_sorted|done].
  - intros q l. apply unsub_props_nonempty, (tab_nonempty _ _ Ht).
  - intros q b Hb. pose proof Hb as [Hb' _]%elem_of_vec_dropped.
    destruct (tab_owner _ _ Ht q b Hb') as [cid' Hcid']. exists cid'. cbn. rewrite Hlast.
    case_bool_decide as Hall; [done|]. rewrite lookup_delete_ne; [done|]. intros ->.
    apply (Hreq cid' b q Ht Ha Hcid') in Hb as [rs Hrs]. by apply (Hall _ _ Hrs).
  - intros cid' b q Hb%Hsub. by apply Hreq.
  - intros cid' q Hr. pose proof Hr as [_ Hr']%lookup_delete_is_Some.
    apply (tab_req _ _ Ht) in Hr'. destruct (decide (map_Forall _ _)) as [Hall|_]; [|done].
    apply elem_of_difference. split; [done|]. rewrite elem_of_singleton. intros ->.
    destruct Hr as [rs Hrs]. by apply (Hall _ _ Hrs).
Qed.

Lemma tables_dropped_unknown sp s cid p :
  tables_ok sp s → mClients s !! cid = None →
  tables_ok (spec_dropped cid p sp) s ∧ delete (cid, p) (sp_req sp) = sp_req sp.
Proof.
  intros Ht Hn. pose proof (tab_clients _ _ Ht cid) as Hc. rewrite Hn in Hc.
  assert (cid ∉ sp_clients sp) as Hout by (intros H%Hc; by destruct H).
  assert (delete (cid, p) (sp_req sp) = sp_req sp) as Hd.
  { apply delete_id, eq_None_not_Some. intros H%(tab_req _ _ Ht). done. }
  split; [|done]. unfold spec_dropped, spec_unsubscribe. cbn. rewrite Hd.
  replace (if decide _ then _ else _) with (sp_clients sp).
  { split; apply Ht. }
  destruct (decide _); [set_solver|done].
Qed.

Lemma objects_dropped sp s s' cid p :
  objects_ok sp s → heap s' = heap s →
  (∀ c a, mClients s' !! c = Some a → mClients s !! c = Some a) →
  objects_ok (spec_dropped cid p sp) s'.
Proof.
  intros Ho Hh Hsub cid' a Ha%Hsub. rewrite Hh. destruct (Ho _ _ Ha) as (c & Hc & Hok).
  exists c. split; [done|]. intros q rs. cbn. intros [_ Hr]%lookup_delete_Some. by apply Hok.
Qed.

(** The second half: without clients the subscription with the car ends. *)
Definition finish (s : SubscriptionManager) (p : Z) : SubscriptionManager :=
  if decide (vec s p = [])
  then MkSM (heap s) (mClients s) (mPropToClients s) (delete p (mHalEventSubscribeOptions s))
         (sm_log s ++ [PropertyUnsubscribed p])
  else s.

Lemma finish_hal s p q :
  mHalEventSubscribeOptions (finish s p) !! q
  = if decide (q = p ∧ vec s p = []) then None else mHalEventSubscribeOptions s !! q.
Proof.
  unfold finish. destruct (decide (vec s p = [])) as [Hv|Hv]; cbn.
  - destruct (decide (q = p ∧ _)) as [[-> _]|Hq]; [apply lookup_delete_eq|].
    apply lookup_delete_ne. naive_solver.
  - by rewrite decide_False by naive_solver.
Qed.

Lemma vec_empty_spec sp s p :
  tables_ok sp s → vec s p = [] ↔ map_Forall (λ k _, k.2 ≠ p) (sp_req sp).
Proof.
  intros Ht. split.
  - intros Hv [cid q] rs Hrs Heq. cbn in Heq. subst q.
    assert (is_Some (sp_req sp !! (cid, p))) as Hs by (by rewrite Hrs).
    destruct (proj2 (tab_clients _ _ Ht cid) (tab_req _ _ Ht _ _ Hs)) as [a Ha].
    apply (tab_vec _ _ Ht _ _ _ Ha) in Hs. rewrite Hv in Hs. by apply not_elem_of_nil in Hs.
  - intros Hall. destruct (vec s p) as [|a l] eqn:Ev; [done|].
    assert (a ∈ vec s p) as Hin by (rewrite Ev; by constructor).
    destruct (tab_owner _ _ Ht _ _ Hin) as [cid Ha].
    destruct (proj1 (tab_vec _ _ Ht _ _ p Ha) Hin) as [rs Hrs]. by destruct (Hall _ _ Hrs).
Qed.

Lemma hal_finish sp s s1 cid p :
  hal_ok sp s → tables_ok (spec_dropped cid p sp) s1 →
  mHalEventSubscribeOptions s1 = mHalEventSubscribeOptions s →
  (∀ q, q ≠ p → vec s1 q = vec s q) →
  hal_ok (spec_dropped cid p sp) (finish s1 p).
Proof.
  intros Hh Ht Hsame Hvec.
  assert (∀ q, vec (finish s1 p) q = vec s1 q) as Hfin by (intros q; unfold finish; by destruct (decide _)).
  split.
  - intros q. rewrite Hfin, finish_hal, Hsame. intros Hq.
    destruct (decide (q = p ∧ _)) as [|Hn]; [done|]. apply (hal_dom _ _ Hh).
    rewrite <- Hvec; [done|]. intros ->. by apply Hn.
  - intros q o. rewrite finish_hal, Hsame. destruct (decide _); [done|]. apply (hal_key _ _ Hh).
  - intros cid' q rs r Hrs Hr Hcar. rewrite finish_hal, Hsame. rewrite decide_False.
    + cbn in Hrs. apply lookup_delete_Some in Hrs as [_ Hrs]. by apply (hal_rate _ _ Hh cid' q rs).
    + intros [-> Hv]. rewrite (vec_empty_spec _ _ _ Ht) in Hv. by apply (Hv _ _ Hrs).
Qed.

Lemma notify_run s p rest :
  default [] rest = vec s p → notify_if_unused p rest s = Val (finish s p) tt.
Proof.
  intros Hr. unfold finish. rewrite <- Hr. by destruct rest as [[|]|].
Qed.

(** [unsubscribe] as one change of the state: the part of [drop_client], then
    [finish].  The log may hold the client's [UnlinkToDeath] in between. *)
Definition with_log (s : SubscriptionManager) (lg : list sm_event) : SubscriptionManager :=
  MkSM (heap s) (mClients s) (mPropToClients s) (mHalEventSubscribeOptions s) lg.

Lemma drop_client_run sp s cid a p :
  sim sp s → mClients s !! cid = Some a →
  ∃ lg rest, drop_client cid p a (mPropToClients s !! p) s = Val (with_log (dropped s cid a p) lg) rest
    ∧ default [] rest = vec (dropped s cid a p) p ∧ lost_of lg = lost_of (sm_log s).
Proof.
  intros [Ht Ho Hh Hl] Ha. destruct (Ho _ _ Ha) as (c & Hc & _).
  assert (default [] (sv_remove a <$> mPropToClients s !! p) = vec (dropped s cid a p) p) as Hrest.
  { rewrite vec_dropped, decide_True by done. unfold vec. by destruct (mPropToClients s !! p). }
  unfold drop_client, set_props, deref, log, erase_client, with_log, dropped. run_m.
  fold (unsub_props s a p). destruct (existsb _ _); run_m; cbn [heap]; [|rewrite Hc]; run_m;
    do 2 eexists; (split_and!; [reflexivity|exact Hrest|]); [done|].
  etrans; [apply lost_of_app|]. apply app_nil_r.
Qed.

Lemma sim_finish sp s s1 cid p lg :
  sim sp s → tables_ok (spec_dropped cid p sp) s1 → heap s1 = heap s →
  (∀ c a, mClients s1 !! c = Some a → mClients s !! c = Some a) →
  mHalEventSubscribeOptions s1 = mHalEventSubscribeOptions s →
  (∀ q, q ≠ p → vec s1 q = vec s q) → lost_of lg = lost_of (sm_log s) →
  sim (spec_unsubscribe cid p sp) (finish (with_log s1 lg) p)
  ∧ mHalEventSubscribeOptions (finish (with_log s1 lg) p)
    = if decide (map_Forall (λ k _, k.2 ≠ p) (delete (cid, p) (sp_req sp)))
      then delete p (mHalEventSubscribeOptions s) else mHalEventSubscribeOptions s.
Proof.
  intros [Ht Ho Hh Hl] Ht1 Hheap Hsub Hhal Hvec Hlg.
  pose proof (vec_empty_spec _ _ p Ht1) as Hlast. cbn [spec_dropped sp_req] in Hlast.
  assert (hal_ok (spec_dropped cid p sp) (finish (with_log s1 lg) p)) as Hh1.
  { apply (hal_finish sp s); [done|split; apply Ht1|done|exact Hvec]. }
  assert (objects_ok (spec_dropped cid p sp) s1) as Ho1 by (by apply (objects_dropped sp s)).
  change (vec s1 p) with (vec (with_log s1 lg) p) in Hlast. unfold finish in *.
  destruct (decide (vec (with_log s1 lg) p = [])) as [Hv|Hv].
  - split; [|rewrite decide_True by tauto; cbn; by rewrite Hhal].
    split; [split; apply Ht1|exact Ho1|split; apply Hh1|].
    unfold spec_unsubscribe. cbn [sm_log sp_lost]. rewrite decide_True by tauto.
    rewrite lost_of_app. cbn [with_log sm_log]. by rewrite Hlg, Hl.
  - split; [|rewrite decide_False by tauto; exact Hhal].
    split; [split; apply Ht1|exact Ho1|split; apply Hh1|].
    unfold spec_unsubscribe. cbn [with_log sm_log sp_lost]. rewrite decide_False by tauto.
    by rewrite Hlg, Hl.
Qed.

Lemma unsubscribe_known sp s cid a p :
  sim sp s → mClients s !! cid = Some a →
  ∃ lg, unsubscribe cid p s = Val (finish (with_log (dropped s cid a p) lg) p) tt
    ∧ lost_of lg = lost_of (sm_log s).
Proof.
  intros Hsim Ha. unfold unsubscribe, getClientsForPropertyLocked. run_m. rewrite Ha.
  destruct (drop_client_run sp s cid a p Hsim Ha) as (lg & rest & E & Hrest & Hlg). rewrite E.
  exists lg. by rewrite (notify_run (with_log (dropped s cid a p) lg) _ _ Hrest).
Qed.

Lemma sim_unsubscribe sp s cid p :
  sim sp s →
  ∃ s', unsubscribe cid p s = Val s' tt ∧ sim (spec_unsubscribe cid p sp) s'
    ∧ mHalEventSubscribeOptions s'
      = if decide (map_Forall (λ k _, k.2 ≠ p) (delete (cid, p) (sp_req sp)))
        then delete p (mHalEventSubscribeOptions s) else mHalEventSubscribeOptions s.
Proof.
  intros Hsim. destruct (mClients s !! cid) as [a|] eqn:Ha.
  - destruct (unsubscribe_known sp s cid a p Hsim Ha) as (lg & E & Hlg).
    eexists. split; [exact E|]. apply (sim_finish sp s); try done.
    + apply tables_dropped; [apply Hsim|done].
    + intros c b. cbn. destruct (existsb _ _); [done|]. by intros [_ ?]%lookup_delete_Some.
    + intros q Hq. by rewrite vec_dropped, decide_False.
  - unfold unsubscribe, getClientsForPropertyLocked. run_m. rewrite Ha.
    rewrite (notify_run s p (mPropToClients s !! p)) by done. eexists. split; [done|].
    assert (with_log s (sm_log s) = s) as <- by (by destruct s).
    apply (sim_finish sp s); try done.
    by apply tables_dropped_unknown; [apply Hsim|].
Qed.

(** ** Interleaved operations *)

Inductive label : Type :=
  | LSubscribe (clientId : Z) (opts : list SubscribeOptions) (linked : bool)
  | LUnsubscribe (clientId p : Z)
  | LDied (clientId : Z).

Definition spec_label (sp : subs) (l : label) : subs :=
  match l with
  | LSubscribe cid opts linked => (spec_subscribe cid opts linked sp).2
  | LUnsubscribe cid p => spec_unsubscribe cid p sp
  | LDied _ => sp
  end.
Definition spec_trace (ls : list label) : subs := foldl spec_label (MkSubs ∅ ∅ []) ls.

(** The manager, and for each death being handled the properties still to go: the
    handler takes the lock anew for each of them, so anything may happen between. *)
Inductive sm_step : label → SubscriptionManager * list (Z * list Z)
                  → SubscriptionManager * list (Z * list Z) → Prop :=
  | step_subscribe cid cb opts linked addr s s' r d :
      fresh_addr s addr → addOrUpdateSubscription cid cb opts linked addr s = Val s' r →
      sm_step (LSubscribe cid opts linked) (s, d) (s', d)
  | step_unsubscribe cid p s s' d :
      unsubscribe cid p s = Val s' tt → sm_step (LUnsubscribe cid p) (s, d) (s', d)
  | step_died cid props s s' d :
      dead_properties cid s = Val s' props → sm_step (LDied cid) (s, d) (s', (cid, props) :: d)
  | step_cleanup cid p props s s' d1 d2 :
      unsubscribe cid p s = Val s' tt →
      sm_step (LUnsubscribe cid p) (s, d1 ++ (cid, p :: props) :: d2) (s', d1 ++ (cid, props) :: d2).

Inductive sm_steps : list label → SubscriptionManager * list (Z * list Z) → Prop :=
  | steps_init : sm_steps [] (empty_sm, [])
  | steps_step ls l w w' : sm_steps ls w → sm_step l w w' → sm_steps (ls ++ [l]) w'.

Lemma dead_properties_run sp s cid :
  sim sp s → ∃ props, dead_properties cid s = Val s props
    ∧ ∀ p, is_Some (sp_req sp !! (cid, p)) → p ∈ props.
Proof.
  intros Hsim. unfold dead_properties, deref. run_m.
  destruct (mClients s !! cid) as [a|] eqn:Ha.
  - destruct (sim_objects _ _ Hsim _ _ Ha) as (c & Hc & Hok). rewrite Hc. eexists.
    split; [done|]. intros p [rs Hrs]. destruct (Hok _ _ Hrs) as (o & Hp & _).
    apply list_elem_of_fmap. exists (p, o). split; [done|]. by apply elem_of_sorted_entries.
  - eexists. split; [done|]. intros p H.
    apply (tab_req _ _ (sim_tables _ _ Hsim)), (tab_clients _ _ (sim_tables _ _ Hsim)) in H.
    rewrite Ha in H. by destruct H.
Qed.

Lemma sim_unsubscribe_all cid props sp s :
  sim sp s → ∃ s', for_each props (unsubscribe cid) s = Val s' tt
    ∧ sim (foldl (λ sp p, spec_unsubscribe cid p sp) sp props) s'.
Proof.
  revert sp s. induction props as [|p props IH]; intros sp s Hsim; [by exists s|].
  destruct (sim_unsubscribe sp s cid p Hsim) as (s1 & E & H1 & _).
  cbn [for_each foldl]. rewrite (bind_val _ _ _ _ _ E). by apply IH.
Qed.

Lemma sim_dead sp s cid :
  sim sp s → ∃ s' props, onCallbackDead cid s = Val s' tt
    ∧ sim (foldl (λ sp p, spec_unsubscribe cid p sp) sp props) s'
    ∧ ∀ p, is_Some (sp_req sp !! (cid, p)) → p ∈ props.
Proof.
  intros Hsim. destruct (dead_properties_run sp s cid Hsim) as (props & E & Hin).
  destruct (sim_unsubscribe_all cid props sp s Hsim) as (s' & E' & H').
  exists s', props. unfold onCallbackDead. by rewrite (bind_val _ _ _ _ _ E).
Qed.

Lemma sm_steps_sim ls w : sm_steps ls w → sim (spec_trace ls) w.1.
Proof.
  induction 1 as [|ls l w w' _ IH Hstep]; [apply sim_empty|].
  unfold spec_trace in *. rewrite foldl_app. cbn [foldl].
  destruct Hstep as [cid cb opts linked addr s s' r d Hf E|cid p s s' d E|cid props s s' d E
                    |cid p props s s' d1 d2 E]; cbn [fst spec_label] in *.
  - destruct (sim_subscribe _ _ cid cb opts linked addr IH Hf) as (s2 & us & E2 & H2 & _).
    by rewrite E in E2; injection E2 as -> _.
  - destruct (sim_unsubscribe _ _ cid p IH) as (s2 & E2 & H2 & _).
    by rewrite E in E2; injection E2 as ->.
  - destruct (dead_properties_run _ _ cid IH) as (ps & E2 & _).
    by rewrite E in E2; injection E2 as -> _.
  - destruct (sim_unsubscribe _ _ cid p IH) as (s2 & E2 & H2 & _).
    by rewrite E in E2; injection E2 as ->.
Qed.

(** The options of a call. *)
Definition asked_by (l : label) : list SubscribeOptions :=
  match l with LSubscribe _ opts _ => opts | _ => [] end.

(** Every rate held with the car is one a client asked for. *)
Lemma sm_steps_rates ls w : sm_steps ls w →
  rates_ok (λ p f, ∃ l o, l ∈ ls ∧ o ∈ asked_by l ∧ propId o = p ∧ sampleRate o = f) (mHalEventSubscribeOptions w.1).
Proof.
  induction 1 as [|ls l w w' Hr IH Hstep]; [apply map_Forall_empty|]. apply sm_steps_sim in Hr.
  assert (Hmono : ∀ m, rates_ok (λ p f, ∃ l o, l ∈ ls ∧ o ∈ asked_by l ∧ propId o = p ∧ sampleRate o = f) m →
    rates_ok (λ p f, ∃ l' o, l' ∈ ls ++ [l] ∧ o ∈ asked_by l' ∧ propId o = p ∧ sampleRate o = f) m).
  { intros m Hm p o Ho. destruct (Hm _ _ Ho) as (l' & o' & ? & ?). exists l', o'. by rewrite elem_of_app; auto. }
  destruct Hstep as [cid cb opts linked addr s s' r d Hf E|cid p s s' d E|cid props s s' d E
                    |cid p props s s' d1 d2 E]; cbn [fst] in *.
  - destruct (sim_subscribe _ _ cid cb opts linked addr Hr Hf) as (s2 & us & E2 & _ & Hhal & HP & _).
    rewrite E in E2; injection E2 as -> ->. rewrite Hhal. apply apply_updates_rates; [by apply Hmono|]. apply HP; [by apply Hmono|].
    apply List.Forall_forall. intros o Ho%list_elem_of_In. exists (LSubscribe cid opts linked), o.
    split; [apply elem_of_app; right; by apply list_elem_of_singleton|done].
  - destruct (sim_unsubscribe _ _ cid p Hr) as (s2 & E2 & _ & Hhal). rewrite E in E2; injection E2 as ->. rewrite Hhal.
    destruct (decide _); [by apply map_Forall_delete, Hmono|by apply Hmono].
  - destruct (dead_properties_run _ _ cid Hr) as (ps & E2 & _). rewrite E in E2; injection E2 as -> _. by apply Hmono.
  - destruct (sim_unsubscribe _ _ cid p Hr) as (s2 & E2 & _ & Hhal). rewrite E in E2; injection E2 as ->. rewrite Hhal.
    destruct (decide _); [by apply map_Forall_delete, Hmono|by apply Hmono].
Qed.


Lemma spec_unsubscribe_all cid props sp k :
  sp_req (foldl (λ sp p, spec_unsubscribe cid p sp) sp props) !! k
  = if decide (k.1 = cid ∧ k.2 ∈ props) then None else sp_req sp !! k.
Proof.
  revert sp. induction props as [|p props IH]; intros sp; cbn [foldl].
  - rewrite decide_False; [done|]. by intros [_ ?%not_elem_of_nil].
  - rewrite IH. cbn [spec_unsubscribe sp_req]. destruct k as [c q]. cbn [fst snd].
    destruct (decide (c = cid ∧ q ∈ props)) as [[-> Hq]|Hn].
    + rewrite decide_True; [done|]. split; [done|by constructor].
    + destruct (decide (c = cid ∧ q = p)) as [[-> ->]|Hn'].
      * rewrite lookup_delete_eq, decide_True; [done|]. split; [done|by constructor].
      * rewrite lookup_delete_ne by (intros [= -> ->]; by apply Hn'). rewrite decide_False; [done|].
        rewrite elem_of_cons. tauto.
Qed.

(** Unsubscribing from the last property forgets the client. *)
Lemma spec_unsubscribe_forgets cid p sp :
  (∀ q, sp_req (spec_unsubscribe cid p sp) !! (cid, q) = None) →
  cid ∉ sp_clients (spec_unsubscribe cid p sp).
Proof.
  cbn. intros Hnone. rewrite decide_True; [set_solver|].
  intros [c q] rs Hrs Hc. cbn in Hc. subst c. by rewrite Hnone in Hrs.
Qed.

Lemma spec_unsubscribe_all_forgets cid props sp :
  props ≠ [] → (∀ q, is_Some (sp_req sp !! (cid, q)) → q ∈ props) →
  cid ∉ sp_clients (foldl (λ sp p, spec_unsubscribe cid p sp) sp props).
Proof.
  intros Hne Hin. pose proof (spec_unsubscribe_all cid props sp) as Hreq.
  destruct props as [|p props _] using rev_ind; [done|]. rewrite foldl_app in *.
  apply spec_unsubscribe_forgets. intros q. etrans; [apply (Hreq (cid, q))|]. cbn [fst snd].
  destruct (decide _) as [|Hn]; [done|]. apply eq_None_not_Some. intros Hq. by apply Hn, conj, Hin.
Qed.

(** when a client with a subscription dies, all its subscriptions and its entry
    go, and nobody else's change. *)
Theorem sm_dead_client_removed ls s d cid p :
  sm_steps ls (s, d) → is_Some (sp_req (spec_trace ls) !! (cid, p)) →
  ∃ s' sp', onCallbackDead cid s = Val s' tt ∧ sim sp' s' ∧ mClients s' !! cid = None
    ∧ sp_req sp' = filter (λ e, e.1.1 ≠ cid) (sp_req (spec_trace ls)).
Proof.
  intros Hsim%sm_steps_sim Hp. cbn [fst] in Hsim.
  destruct (sim_dead _ _ cid Hsim) as (s' & props & E & H' & Hin).
  eexists s', _. split_and!; [done|exact H'| |].
  - apply eq_None_not_Some. intros Hc%(tab_clients _ _ (sim_tables _ _ H')).
    revert Hc. apply spec_unsubscribe_all_forgets; [|exact Hin].
    intros ->. by apply Hin, not_elem_of_nil in Hp.
  - apply map_eq. intros [c q]. rewrite spec_unsubscribe_all, map_lookup_filter. cbn [fst snd].
    destruct (sp_req (spec_trace ls) !! (c, q)) as [rs|] eqn:Ers; cbn.
    + destruct (decide (c = cid)) as [->|Hc].
      * rewrite decide_True; [by rewrite option_guard_False by tauto|].
        split; [done|]. apply Hin. by rewrite Ers.
      * by rewrite decide_False, option_guard_True by tauto.
    + by destruct (decide _).
Qed.

(** a client that subscribes with an empty list of options is linked and
    remembered, and stays remembered after its death: nothing removes it.  (The
    code means to drop a dead client.) *)
Theorem sm_empty_subscription_leaks s cid cb addr :
  mClients s !! cid = None →
  ∃ s', addOrUpdateSubscription cid cb [] true addr s = Val s' (OK, [])
    ∧ onCallbackDead cid s' = Val s' tt ∧ mClients s' !! cid = Some addr.
Proof.
  intros Hn. unfold addOrUpdateSubscription, getOrCreateHalClientLocked, log, set_client.
  run_m. rewrite Hn. eexists. split_and!; [reflexivity| |apply lookup_insert_eq].
  unfold onCallbackDead, dead_properties, deref. run_m. cbn [mClients heap].
  rewrite lookup_insert_eq. cbn [heap]. by rewrite lookup_insert_eq.
Qed.

(** ** Delivery *)

(** The client at [a] is in the vector of [p] and its recorded flags meet [f]. *)
Definition receives (s : SubscriptionManager) (f a p : Z) : bool :=
  bool_decide (a ∈ vec s p)
  && match heap s !! a with Some c => isSubscribed c p f | None => false end.

Lemma subscribed_of_run s l p f :
  Forall (λ a, is_Some (heap s !! a)) l →
  subscribed_of l p f s
  = Val s (filter (λ a, match heap s !! a with Some c => isSubscribed c p f | None => false end
                        = true) l).
Proof.
  induction 1 as [|a l [c Hc] _ IH]; [done|]. cbn [subscribed_of]. unfold deref. run_m. rewrite Hc.
  rewrite IH. destruct (isSubscribed c p f) eqn:Ei.
  - rewrite filter_cons_True; [done|]. by rewrite Hc.
  - rewrite filter_cons_False; [done|]. by rewrite Hc, Ei.
Qed.

Lemma subscribed_clients_run sp s p f :
  sim sp s →
  getSubscribedClientsLocked p f s = Val s (filter (λ a, receives s f a p = true) (vec s p)).
Proof.
  intros Hsim. unfold getSubscribedClientsLocked, getClientsForPropertyLocked. run_m.
  pose proof (tab_owner _ _ (sim_tables _ _ Hsim) p) as Hown. unfold receives.
  unfold vec in *. destruct (mPropToClients s !! p) as [l|]; [|done].
  cbn [default from_option id] in *. rewrite subscribed_of_run.
  - f_equal. apply list_filter_iff_in. intros a Ha. by rewrite bool_decide_eq_true_2.
  - apply List.Forall_forall. intros a Ha%list_elem_of_In. destruct (Hown a Ha) as [cid Hcid].
    destruct (sim_objects _ _ Hsim _ _ Hcid) as (c & Hc & _). by exists c.
Qed.

Lemma push_all_lookup (v : VehiclePropValue) cs (m : gmap Z (list VehiclePropValue)) a :
  NoDup cs →
  foldl (λ m a, <[a := default [] (m !! a) ++ [v]]> m) m cs !! a
  = if decide (a ∈ cs) then Some (default [] (m !! a) ++ [v]) else m !! a.
Proof.
  intros Hnd. revert m. induction Hnd as [|b cs Hb _ IH]; intros m; [done|].
  cbn [foldl]. rewrite IH. destruct (decide (a = b)) as [->|Hab].
  - rewrite decide_False by done. rewrite decide_True by constructor. by rewrite lookup_insert_eq.
  - rewrite !lookup_insert_ne by done. apply decide_ext. rewrite elem_of_cons. naive_solver.
Qed.

Lemma sorted_NoDup l : StronglySorted Z.lt l → NoDup l.
Proof.
  induction 1 as [|a l _ IH Hall]; constructor; [|done]. intros Ha.
  rewrite List.Forall_forall in Hall. apply list_elem_of_In, Hall in Ha. lia.
Qed.

(** The values a client gets, appended to what it had; no entry without values. *)
Definition extend (old : option (list VehiclePropValue)) (new : list VehiclePropValue)
    : option (list VehiclePropValue) :=
  match new with [] => old | _ => Some (default [] old ++ new) end.

Lemma collect_run sp s f vs acc :
  sim sp s →
  ∃ m, collect_values vs f acc s = Val s m
    ∧ ∀ a, m !! a = extend (acc !! a) (filter (λ v, receives s f a (prop v) = true) vs).
Proof.
  intros Hsim. revert acc. induction vs as [|v vs IH]; intros acc; [by exists acc|].
  cbn [collect_values]. rewrite (bind_val _ _ _ _ _ (subscribed_clients_run sp s (prop v) f Hsim)).
  match goal with |- context [collect_values vs f ?x] => destruct (IH x) as (m & E & Hm) end.
  exists m. split; [exact E|]. intros a. rewrite Hm, push_all_lookup.
  2:{ apply list.NoDup_filter, sorted_NoDup, Hsim. }
  destruct (receives s f a (prop v)) eqn:Er.
  - rewrite filter_cons_True, decide_True; [|apply list_elem_of_filter|done].
    2:{ split; [done|]. by apply andb_true_iff in Er as [Er%bool_decide_eq_true _]. }
    unfold extend. destruct (filter _ vs); cbn; by rewrite <- ?app_assoc.
  - rewrite decide_False, filter_cons_False; [done|by rewrite Er|].
    intros [Hr _]%list_elem_of_filter. congruence.
Qed.

(** every client gets exactly the values of the properties it is subscribed to
    (with flags that match), in the order in which they arrived; clients without
    such values are not called. *)
Theorem sm_distribute ls s d vs f :
  sm_steps ls (s, d) →
  ∃ l, distributeValuesToClients vs f s = Val s l
    ∧ (∀ a xs, (a, xs) ∈ l ↔ xs ≠ [] ∧ xs = filter (λ v, receives s f a (prop v) = true) vs)
    ∧ (∀ cid a r rs p, mClients s !! cid = Some a → sp_req (spec_trace ls) !! (cid, p) = Some rs →
         r ∈ rs → Z.land (flags r) f ≠ 0 → receives s f a p = true)
    ∧ (∀ a p, receives s f a p = true →
         ∃ cid, mClients s !! cid = Some a ∧ is_Some (sp_req (spec_trace ls) !! (cid, p))).
Proof.
  intros Hsim%sm_steps_sim. cbn [fst] in Hsim.
  destruct (collect_run _ s f vs ∅ Hsim) as (m & E & Hm).
  exists (sorted_entries m). split_and!.
  - unfold distributeValuesToClients. by rewrite (bind_val _ _ _ _ _ E).
  - intros a xs. rewrite elem_of_sorted_entries, Hm, lookup_empty. unfold extend.
    destruct (filter _ vs) as [|x l]; cbn; split; try naive_solver.
  - intros cid a r rs p Ha Hrs Hr Hf. unfold receives.
    destruct (sim_objects _ _ Hsim _ _ Ha) as (c & Hc & Hok). rewrite Hc.
    destruct (Hok _ _ Hrs) as (o & Ho & Hflags). unfold isSubscribed. rewrite Ho.
    apply andb_true_iff. split; apply bool_decide_eq_true.
    + apply (tab_vec _ _ (sim_tables _ _ Hsim) _ _ _ Ha). by rewrite Hrs.
    + rewrite List.Forall_forall in Hflags. apply list_elem_of_In, Hflags in Hr.
      intros H0. apply Hf. by rewrite <- Hr, <- Z.land_assoc, H0, Z.land_0_r.
  - intros a p [Ha%bool_decide_eq_true _]%andb_true_iff.
    destruct (tab_owner _ _ (sim_tables _ _ Hsim) _ _ Ha) as [cid Hcid].
    exists cid. split; [done|]. by apply (tab_vec _ _ (sim_tables _ _ Hsim) _ _ _ Hcid).
Qed.

Lemma finish_fields s p :
  heap (finish s p) = heap s ∧ mClients (finish s p) = mClients s.
Proof. unfold finish. by destruct (decide _). Qed.

(** unsubscribing leaves the client's own record of the property behind: a
    client that keeps another subscription and subscribes to the property again
    receives everything its old flags covered, whatever it asks for now. *)
Theorem sm_resubscribe_keeps_flags ls s d cid a c p q o r f cb linked addr :
  sm_steps ls (s, d) → mClients s !! cid = Some a → heap s !! a = Some c →
  mSubscriptions c !! p = Some o → is_Some (sp_req (spec_trace ls) !! (cid, q)) → q ≠ p →
  ∃ s1 s2 us c2, unsubscribe cid p s = Val s1 tt
    ∧ addOrUpdateSubscription cid cb [MkOpts p r f] linked addr s1 = Val s2 (OK, us)
    ∧ heap s2 !! a = Some c2 ∧ ∀ g, Z.land (flags o) g ≠ 0 → isSubscribed c2 p g = true.
Proof.
  intros Hsim%sm_steps_sim Ha Hc Ho [rs Hq] Hqp. cbn [fst] in Hsim.
  destruct (unsubscribe_known _ s cid a p Hsim Ha) as (lg & E & _).
  destruct (sim_unsubscribe _ s cid p Hsim) as (s1 & E1 & H1 & _). rewrite E in E1. injection E1 as Hs1.
  destruct (finish_fields (with_log (dropped s cid a p) lg) p) as [Hheap Hcl].
  rewrite Hs1 in Hheap, Hcl, E. cbn [with_log dropped heap mClients] in Hheap, Hcl.
  rewrite (dropped_last _ _ _ _ _ (sim_tables _ _ Hsim) Ha), bool_decide_eq_true_2 in Hcl.
  2:{ intros Hall. apply (Hall (cid, q) rs); [|done]. rewrite lookup_delete_ne; congruence. }
  rewrite <- Hcl in Ha. rewrite <- Hheap in Hc.
  destruct (subscribe_one_run s1 a (MkOpts p r f) c Hc (hal_key _ _ (sim_hal _ _ H1)))
    as (us & hal & E2 & _).
  eexists s1, _, (us ++ []), (client_addOrUpdateSubscription c (MkOpts p r f)).
  split_and!; [exact E| | |].
  - unfold addOrUpdateSubscription, getOrCreateHalClientLocked. run_m. rewrite Ha.
    cbn [subscribe_all]. run_m. rewrite E2. reflexivity.
  - apply lookup_insert_eq.
  - intros g Hg. unfold isSubscribed. rewrite client_updated, decide_True by done.
    cbn [propId]. rewrite Ho. cbn [from_option]. rewrite merged_flags.
    apply bool_decide_eq_true. rewrite Z.land_lor_distr_l. intros [H0 _]%Z.lor_eq_0_iff. done.
Qed.
End manager.

(** ** Witnesses: two clients, one of them with two properties *)

Definition ex_rate (m : positive) : spec_float := S754_finite false m 0.
Definition ex_labels : list label :=
  [LSubscribe 1 [MkOpts 100 (ex_rate 5) 3; MkOpts 101 (ex_rate 1) 1] true;
   LSubscribe 2 [MkOpts 100 (ex_rate 9) 1] true;
   LUnsubscribe 2 101].
Definition ex_run : M SubscriptionManager unit :=
  addOrUpdateSubscription 1 11 [MkOpts 100 (ex_rate 5) 3; MkOpts 101 (ex_rate 1) 1] true 0x1000;;
  addOrUpdateSubscription 2 22 [MkOpts 100 (ex_rate 9) 1] true 0x2000;;
  unsubscribe 2 101.
Definition run_or_empty (m : M SubscriptionManager unit) : SubscriptionManager :=
  match m empty_sm with Val s _ => s | _ => empty_sm end.
Definition ex_sm : SubscriptionManager := run_or_empty ex_run.

Lemma ex_sm_steps : sm_steps ex_labels (ex_sm, []).
Proof.
  set (s1 := run_or_empty (addOrUpdateSubscription 1 11
               [MkOpts 100 (ex_rate 5) 3; MkOpts 101 (ex_rate 1) 1] true 0x1000;; mret tt)).
  set (s2 := run_or_empty (addOrUpdateSubscription 1 11
               [MkOpts 100 (ex_rate 5) 3; MkOpts 101 (ex_rate 1) 1] true 0x1000;;
               addOrUpdateSubscription 2 22 [MkOpts 100 (ex_rate 9) 1] true 0x2000;; mret tt)).
  apply (steps_step [LSubscribe 1 [MkOpts 100 (ex_rate 5) 3; MkOpts 101 (ex_rate 1) 1] true;
                     LSubscribe 2 [MkOpts 100 (ex_rate 9) 1] true] _ (s2, [])).
  2:{ apply step_unsubscribe. vm_compute. reflexivity. }
  apply (steps_step [LSubscribe 1 [MkOpts 100 (ex_rate 5) 3; MkOpts 101 (ex_rate 1) 1] true]
           _ (s1, [])).
  2:{ apply (step_subscribe 2 22 _ true 0x2000 _ _ (OK, [MkOpts 100 (ex_rate 9) 3]));
        [|vm_compute; reflexivity].
      apply (bool_decide_eq_true_1 _). vm_compute. reflexivity. }
  apply (steps_step [] _ (empty_sm, [])); [constructor|].
  apply (step_subscribe 1 11 _ true 0x1000 _ _
           (OK, [MkOpts 100 (ex_rate 5) 3; MkOpts 101 (ex_rate 1) 1])); [|vm_compute; reflexivity].
  apply (bool_decide_eq_true_1 _). vm_compute. reflexivity.
Qed.


Lemma sm_dead_client_removed_witness :
  ∃ s' sp', onCallbackDead 1 ex_sm = Val s' tt ∧ sim sp' s' ∧ mClients s' !! 1 = None
    ∧ sp_req sp' = filter (λ e, e.1.1 ≠ 1) (sp_req (spec_trace ex_labels)).
Proof.
  apply (sm_dead_client_removed ex_labels ex_sm [] 1 101); [exact ex_sm_steps|].
  vm_compute. by eexists.
Defined.

Lemma sm_empty_subscription_leaks_witness :
  ∃ s', addOrUpdateSubscription 7 77 [] true 0x7000 ex_sm = Val s' (OK, [])
    ∧ onCallbackDead 7 s' = Val s' tt ∧ mClients s' !! 7 = Some 0x7000.
Proof. apply (sm_empty_subscription_leaks ex_sm 7 77 0x7000). vm_compute. reflexivity. Defined.

Lemma sm_distribute_witness :
  ∃ l, distributeValuesToClients [ex_value 101 0 1; ex_value 100 0 2; ex_value 100 0 3]
         EVENTS_FROM_CAR ex_sm = Val ex_sm l
    ∧ (0x2000, [ex_value 100 0 2; ex_value 100 0 3]) ∈ l.
Proof.
  destruct (sm_distribute ex_labels ex_sm []
              [ex_value 101 0 1; ex_value 100 0 2; ex_value 100 0 3] EVENTS_FROM_CAR ex_sm_steps)
    as (l & E & Hl & _).
  exists l. split; [exact E|]. apply Hl. split; [done|]. vm_compute. reflexivity.
Defined.

Lemma sm_resubscribe_keeps_flags_witness :
  ∃ s1 s2 us c2, unsubscribe 1 100 ex_sm = Val s1 tt
    ∧ addOrUpdateSubscription 1 11 [MkOpts 100 (ex_rate 1) EVENTS_FROM_CAR] true 0x3000 s1
      = Val s2 (OK, us)
    ∧ heap s2 !! 0x1000 = Some c2 ∧ ∀ g, Z.land 3 g ≠ 0 → isSubscribed c2 100 g = true.
Proof.
  apply (sm_resubscribe_keeps_flags ex_labels ex_sm [] 1 0x1000
           (MkClient 11 {[100 := MkOpts 100 (ex_rate 5) 3; 101 := MkOpts 101 (ex_rate 1) 1]})
           100 101 (MkOpts 100 (ex_rate 5) 3)); [exact ex_sm_steps| | | | |done].
  - vm_compute. reflexivity.
  - vm_compute. reflexivity.
  - vm_compute. reflexivity.
  - vm_compute. by eexists.
Defined.
