(* ===== verification/VehicleQueue.v ===== *)
(** * Vehicle HAL: the event queue and its batching consumer

    Models android/hardware/xbox/vehicle/common/include/vhal_v2_0/ConcurrentQueue.h:
    the queue as a record, and the consumer's worker thread as a program counter
    that advances one shared access at a time, so that pushing, deactivating and
    requesting to stop may fall between any two of them. *)

From S2P Require Import Prelude.

Section queue.
Context {T : Type}.

(** ** ConcurrentQueue *)

Record ConcurrentQueue : Type := MkQueue { mIsActive : bool; mQueue : list T }.
Definition new_queue : ConcurrentQueue := MkQueue true [].

(** [waitForItems] returns when this holds. *)
Definition can_proceed (q : ConcurrentQueue) : bool :=
  negb (bool_decide (mQueue q = []) && mIsActive q).

Definition flush (q : ConcurrentQueue) : ConcurrentQueue * list T :=
  if bool_decide (mQueue q = []) || negb (mIsActive q) then (q, [])
  else (MkQueue (mIsActive q) [], mQueue q).

Definition push (x : T) (q : ConcurrentQueue) : ConcurrentQueue :=
  if mIsActive q then MkQueue true (mQueue q ++ [x]) else q.

Definition deactivate (q : ConcurrentQueue) : ConcurrentQueue := MkQueue false (mQueue q).

(** ** BatchingConsumer *)

Inductive State : Type := INIT | RUNNING | STOP_REQUESTED | STOPPED.
#[global] Instance State_eq_dec : EqDecision State.
Proof. solve_decision. Defined.

(** Where [runInternal] stands. *)
Inductive worker : Type :=
  | WNone                      (* no thread yet *)
  | WStart                     (* before the exchange *)
  | WLoop                      (* the condition of the while loop *)
  | WWait                      (* in waitForItems *)
  | WCheck1                    (* the test after it *)
  | WSleep                     (* in sleep_for *)
  | WCheck2                    (* the test after it *)
  | WFlush                     (* before flush *)
  | WDeliver (items : list T)  (* before the call of onBatchReceived, if any *)
  | WStop                      (* before mState = STOPPED *)
  | WDone.

Record BatchingConsumer : Type := MkConsumer {
  mState : State;
  queue : ConcurrentQueue;
  pc : worker;
  batches : list (list T);   (* arguments of onBatchReceived, in order *)
}.

Definition new_consumer : BatchingConsumer := MkConsumer INIT new_queue WNone [].

Definition goto (c : BatchingConsumer) (w : worker) : BatchingConsumer :=
  MkConsumer (mState c) (queue c) w (batches c).

(** One step of the worker; [None] when it is blocked or has ended. *)
Definition runInternal (c : BatchingConsumer) : option BatchingConsumer :=
  match pc c with
  | WNone | WDone => None
  | WStart =>
      Some (MkConsumer RUNNING (queue c)
              (if decide (mState c = INIT) then WLoop else WStop) (batches c))
  | WLoop => Some (goto c (if decide (mState c = RUNNING) then WWait else WStop))
  | WWait => if can_proceed (queue c) then Some (goto c WCheck1) else None
  | WCheck1 => Some (goto c (if decide (mState c = STOP_REQUESTED) then WStop else WSleep))
  | WSleep => Some (goto c WCheck2)
  | WCheck2 => Some (goto c (if decide (mState c = STOP_REQUESTED) then WStop else WFlush))
  | WFlush =>
      let '(q, items) := flush (queue c) in
      Some (MkConsumer (mState c) q (WDeliver items) (batches c))
  | WDeliver items =>
      Some (MkConsumer (mState c) (queue c) WLoop
              (if decide (0 < length items)%nat then batches c ++ [items] else batches c))
  | WStop => Some (MkConsumer STOPPED (queue c) WDone (batches c))
  end.

(** [run]: starts the thread. *)
Definition run (c : BatchingConsumer) : BatchingConsumer := goto c WStart.
Definition requestStop (c : BatchingConsumer) : BatchingConsumer :=
  MkConsumer STOP_REQUESTED (queue c) (pc c) (batches c).
(** [waitStopped] returns when the thread has ended or was never started. *)
Definition waitStopped (c : BatchingConsumer) : bool :=
  match pc c with WNone | WDone => true | _ => false end.

Definition on_queue (f : ConcurrentQueue → ConcurrentQueue) (c : BatchingConsumer)
    : BatchingConsumer := MkConsumer (mState c) (f (queue c)) (pc c) (batches c).

(** What other threads do. [accepted]: the items [push] took. *)
Inductive action : Type := APush (x : T) | ADeactivate | ARequestStop.
Definition act (a : action) (c : BatchingConsumer) : BatchingConsumer :=
  match a with
  | APush x => on_queue (push x) c
  | ADeactivate => on_queue deactivate c
  | ARequestStop => requestStop c
  end.

Inductive reach : list T → BatchingConsumer → Prop :=
  | reach_run : reach [] (run new_consumer)
  | reach_worker acc c c' : reach acc c → runInternal c = Some c' → reach acc c'
  | reach_act acc c a : reach acc c →
      reach (match a with
             | APush x => if mIsActive (queue c) then acc ++ [x] else acc
             | _ => acc
             end) (act a c).

(** The items on their way to the callback. *)
Definition in_flight (w : worker) : list T := match w with WDeliver items => items | _ => [] end.

Lemma flush_spec q : (flush q).2 ++ mQueue (flush q).1 = mQueue q.
Proof.
  unfold flush. destruct (_ || _); [done|]. cbn. apply app_nil_r.
Qed.

Lemma worker_keeps acc c c' :
  concat (batches c) ++ in_flight (pc c) ++ mQueue (queue c) = acc →
  Forall (λ b, b ≠ []) (batches c) → runInternal c = Some c' →
  concat (batches c') ++ in_flight (pc c') ++ mQueue (queue c') = acc
  ∧ Forall (λ b, b ≠ []) (batches c').
Proof.
  intros IH Hne. unfold runInternal, goto. destruct (pc c) as [| | | | | | | |items| |] eqn:Epc;
    cbn [in_flight] in IH; try done.
  - intros [= <-]. cbn. by destruct (decide _).
  - intros [= <-]. cbn. by destruct (decide _).
  - destruct (can_proceed _); [|done]. by intros [= <-].
  - intros [= <-]. cbn. by destruct (decide _).
  - by intros [= <-].
  - intros [= <-]. cbn. by destruct (decide _).
  - pose proof (flush_spec (queue c)) as Hf. destruct (flush (queue c)) as [q items].
    intros [= <-]. cbn in *. by rewrite Hf.
  - intros [= <-]. cbn. destruct items as [|x items]; [done|].
    rewrite decide_True by (cbn; lia). rewrite concat_app. cbn. rewrite app_nil_r, <- app_assoc.
    split; [done|]. apply Forall_app. by repeat constructor.
  - by intros [= <-].
Qed.

(** C29: whatever the threads do, the batches, the batch being delivered and the
    queue together are exactly the accepted items in the order they were pushed:
    nothing is lost, repeated or reordered, and no batch is empty. *)
Theorem queue_batches_in_order acc c :
  reach acc c →
  concat (batches c) ++ in_flight (pc c) ++ mQueue (queue c) = acc
  ∧ Forall (λ b, b ≠ []) (batches c).
Proof.
  induction 1 as [|acc c c' _ [IH Hne] E|acc c a _ [IH Hne]]; [done|by eapply worker_keeps|].
  destruct a as [x| |]; [|done..]. unfold act, on_queue, push. cbn [queue].
  destruct (mIsActive (queue c)); [|done]. cbn [batches pc queue mQueue].
  by rewrite <- IH, <- !app_assoc.
Qed.

(** A stop that takes effect: requested (or already past the loop), and the queue
    deactivated so that the worker cannot block. *)
Definition stopping (c : BatchingConsumer) : Prop :=
  mIsActive (queue c) = false ∧ pc c ≠ WNone
  ∧ (mState c = STOP_REQUESTED ∨ pc c = WStop ∨ pc c = WDone).

(** Steps the worker has left once it is stopping. *)
Definition steps_left (w : worker) : nat :=
  match w with
  | WNone | WDone => 0 | WStop => 1 | WStart => 2 | WLoop => 2
  | WDeliver _ => 3 | WFlush => 4 | WCheck2 => 5 | WSleep => 6 | WCheck1 => 7 | WWait => 8
  end.

(** once a stop was requested and the queue deactivated (in this order or the
    other, at any point of the worker's run), the worker is never blocked and ends
    after at most eight of its own steps, whatever other threads do in between; so
    the destructor's [waitStopped] returns. *)
Theorem queue_stop_terminates c :
  stopping c →
  (waitStopped c = true
   ∨ ∃ c', runInternal c = Some c' ∧ stopping c' ∧ (steps_left (pc c') < steps_left (pc c) ≤ 8)%nat)
  ∧ ∀ a, stopping (act a c) ∧ steps_left (pc (act a c)) = steps_left (pc c).
Proof.
  intros (Ha & Hpc & Hst). split.
  - unfold runInternal, waitStopped, can_proceed, flush, goto, stopping. rewrite Ha.
    destruct c as [st [active items] w bs]. cbn [pc queue mState batches mIsActive mQueue] in *.
    subst active. destruct w; try (by left); right;
      rewrite ?andb_false_r, ?orb_true_r; cbn [negb];
      (eexists; split; [reflexivity|]; cbn [pc queue mState mIsActive]);
      destruct Hst as [->|[|]]; try done;
      repeat first [rewrite decide_True by done | rewrite decide_False by done];
      (split; [by split_and!; eauto|cbn; lia]).
  - intros a. split; [|by destruct a].
    unfold stopping. destruct a as [x| |]; cbn; split_and!; try done; eauto.
    unfold push. by rewrite Ha.
Qed.
End queue.

(** ** Witnesses *)

(** Two items pushed, one batch delivered, a third item left in the queue. *)
Definition ex_after (n : nat) (c : BatchingConsumer (T := Z)) : BatchingConsumer (T := Z) :=
  Nat.iter n (λ c, default c (runInternal c)) c.
Definition ex_consumer : BatchingConsumer :=
  act (APush 3) (ex_after 9 (act (APush 2) (act (APush 1) (run new_consumer)))).

Lemma ex_iter_reach n acc (c : BatchingConsumer (T := Z)) : reach acc c → reach acc (ex_after n c).
Proof.
  intros Hr. induction n as [|n IH]; [done|]. cbn. destruct (runInternal _) as [c'|] eqn:E; [|done].
  by apply (reach_worker acc (ex_after n c)).
Qed.

Lemma ex_consumer_reach : reach [1; 2; 3] ex_consumer.
Proof.
  pose proof (reach_act _ _ (APush 1) reach_run) as H1.
  pose proof (reach_act _ _ (APush 2) H1) as H2.
  exact (reach_act _ _ (APush 3) (ex_iter_reach 9 _ _ H2)).
Qed.

Lemma queue_batches_in_order_witness :
  concat (batches ex_consumer) ++ in_flight (pc ex_consumer) ++ mQueue (queue ex_consumer)
  = [1; 2; 3] ∧ batches ex_consumer = [[1; 2]].
Proof.
  split; [exact (proj1 (queue_batches_in_order _ _ ex_consumer_reach))|]. vm_compute. reflexivity.
Defined.

Lemma queue_stop_terminates_witness :
  let c := act ADeactivate (act ARequestStop ex_consumer) in
  ∃ c', runInternal c = Some c' ∧ stopping c' ∧ (steps_left (pc c') < steps_left (pc c) ≤ 8)%nat.
Proof.
  destruct (queue_stop_terminates (act ADeactivate (act ARequestStop ex_consumer)))
    as [[H|H] _]; [|discriminate H|exact H].
  split_and!; [reflexivity|discriminate|by left].
Defined.
