(* ===== verification/VehicleManager.v ===== *)
(** * Vehicle HAL: the manager behind the HIDL interface

    Models android/hardware/xbox/vehicle/common: VehiclePropConfigIndex.h and
    VehicleHalManager.{h,cpp}, on top of the subscription manager ([VehicleSubs]).
    The vendor implementation it drives is the class [VehicleHal] (VehicleHal.h); the
    calls made on it and on the clients' callbacks are recorded in order.  A
    [KeyedVector] replaces an entry added twice, as its documentation says. *)

From Stdlib Require Import SpecFloat.
From S2P Require Import Prelude VehicleStore VehicleSubs.

(** The interface to be implemented by a vendor. *)
Class VehicleHal (H : Type) : Type := {
  hal_listProperties : H → list VehiclePropConfig;
  hal_get : VehiclePropValue → M H (StatusCode * option VehiclePropValue);
  hal_set : VehiclePropValue → M H StatusCode;
  hal_subscribe : Z → spec_float → M H StatusCode;
  hal_unsubscribe : Z → M H StatusCode;
}.

(** ** VehiclePropConfigIndex *)

Record VehiclePropConfigIndex : Type := MkIndex {
  allConfigs : list VehiclePropConfig;
  mPropToConfig : gmap Z VehiclePropConfig;
}.
Definition make_index (properties : list VehiclePropConfig) : VehiclePropConfigIndex :=
  MkIndex properties (foldl (λ m c, <[cfg_prop c := c]> m) ∅ properties).
Definition hasConfig (ix : VehiclePropConfigIndex) (p : Z) : bool :=
  bool_decide (is_Some (mPropToConfig ix !! p)).

(** ** VehicleHalManager *)

Inductive hal_call : Type :=
  | HSubscribe (p : Z) (rate : spec_float)
  | HUnsubscribe (p : Z)
  | HSet (v : VehiclePropValue)
  | HGet (v : VehiclePropValue).

Inductive out : Type :=
  | OnPropertyEvent (callback : Z) (values : list VehiclePropValue)
  | OnPropertySet (callback : Z) (v : VehiclePropValue)
  | OnPropertySetError (callback : Z) (code : StatusCode) (p area : Z).

(** A callback proxy: its address, and its binder's when it is remote. *)
Record IVehicleCallback : Type := MkCallback { cb_ptr : Z; cb_binder : option Z }.

Section manager.
Context {HT : HidlTypes} {H : Type} {VH : VehicleHal H}.

Record VehicleHalManager : Type := MkManager {
  mHal : H;
  mConfigIndex : VehiclePropConfigIndex;
  mSubscriptionManager : SubscriptionManager;
  mHidlVecPool : list VehiclePropValue;   (* mHidlVecOfVehiclePropValuePool *)
  calls : list hal_call;
  outs : list out;
}.

Definition kMaxHidlVecOfVehiclPropValuePoolSize : nat := 20.

(** [init], after the HAL has been initialised. *)
Definition init (hal : H) : VehicleHalManager :=
  MkManager hal (make_index (hal_listProperties hal)) empty_sm
    (replicate kMaxHidlVecOfVehiclPropValuePoolSize kEmptyValue) [] [].

Definition in_subs {A} (m : M SubscriptionManager A) : M VehicleHalManager A :=
  zoom mSubscriptionManager
    (λ t s, MkManager (mHal s) (mConfigIndex s) t (mHidlVecPool s) (calls s) (outs s)) m.
Definition in_hal {A} (c : hal_call) (m : M H A) : M VehicleHalManager A :=
  modify (λ s, MkManager (mHal s) (mConfigIndex s) (mSubscriptionManager s) (mHidlVecPool s)
                 (calls s ++ [c]) (outs s));;
  zoom mHal
    (λ t s, MkManager t (mConfigIndex s) (mSubscriptionManager s) (mHidlVecPool s) (calls s)
              (outs s)) m.
Definition emit (o : out) : M VehicleHalManager unit :=
  modify (λ s, MkManager (mHal s) (mConfigIndex s) (mSubscriptionManager s) (mHidlVecPool s)
                 (calls s) (outs s ++ [o])).

Definition getPropConfigOrNull (s : VehicleHalManager) (p : Z) : option VehiclePropConfig :=
  if hasConfig (mConfigIndex s) p then mPropToConfig (mConfigIndex s) !! p else None.

Definition checkWritePermission (c : VehiclePropConfig) : bool :=
  bool_decide (Z.land (access c) ACCESS_WRITE ≠ 0).
Definition checkReadPermission (c : VehiclePropConfig) : bool :=
  bool_decide (Z.land (access c) ACCESS_READ ≠ 0).

Definition isSampleRateFixed (mode : Z) : bool := bool_decide (Z.land mode CHANGE_ON_CHANGE ≠ 0).

Definition checkSampleRate (c : VehiclePropConfig) (rate : spec_float) : spec_float :=
  if isSampleRateFixed (changeMode c) then S754_zero false
  else if SFltb (maxSampleRate c) rate then maxSampleRate c
  else if SFltb rate (minSampleRate c) then minSampleRate c
  else rate.

Definition isSubscribable (c : VehiclePropConfig) (f : Z) : bool :=
  let isReadable := bool_decide (Z.land (access c) ACCESS_READ ≠ 0) in
  if negb isReadable && bool_decide (Z.land EVENTS_FROM_CAR f ≠ 0) then false
  else if bool_decide (changeMode c = CHANGE_STATIC) then false
  else true.

(** The calls of [_hidl_cb], in order. *)
Definition getAllPropConfigs (s : VehicleHalManager) : list (list VehiclePropConfig) :=
  [allConfigs (mConfigIndex s)].

Fixpoint getPropConfigs_loop (ix : VehiclePropConfigIndex) (properties : list Z)
    (configs : list VehiclePropConfig) : list (StatusCode * list VehiclePropConfig) :=
  match properties with
  | [] => [(OK, configs)]
  | p :: rest =>
      match mPropToConfig ix !! p with
      | Some c => getPropConfigs_loop ix rest (configs ++ [c])
      | None => (INVALID_ARG, []) :: getPropConfigs_loop ix rest configs
      end
  end.
Definition getPropConfigs (s : VehicleHalManager) (properties : list Z)
    : list (StatusCode * list VehiclePropConfig) :=
  getPropConfigs_loop (mConfigIndex s) properties [].

Definition get_value (requested : VehiclePropValue)
    : M VehicleHalManager (StatusCode * VehiclePropValue) :=
  s ← get;
  match getPropConfigOrNull s (prop requested) with
  | None => mret (INVALID_ARG, kEmptyValue)
  | Some c =>
      if checkReadPermission c then
        r ← in_hal (HGet requested) (hal_get requested);
        mret (r.1, default kEmptyValue r.2)
      else mret (ACCESS_DENIED, kEmptyValue)
  end.

(** Calls [f] with every client's callback. *)
Fixpoint notify_clients (clients : list Z) (f : Z → out) : M VehicleHalManager unit :=
  match clients with
  | [] => mret tt
  | a :: rest =>
      c ← in_subs (deref a);
      emit (f (mCallback c));;
      notify_clients rest f
  end.

Definition handlePropertySetEvent (v : VehiclePropValue) : M VehicleHalManager unit :=
  clients ← in_subs (getSubscribedClients (prop v) EVENTS_FROM_ANDROID);
  notify_clients clients (λ cb, OnPropertySet cb v).

Definition set_value (v : VehiclePropValue) : M VehicleHalManager StatusCode :=
  s ← get;
  match getPropConfigOrNull s (prop v) with
  | None => mret INVALID_ARG
  | Some c =>
      if checkWritePermission c then
        handlePropertySetEvent v;;
        in_hal (HSet v) (hal_set v)
      else mret ACCESS_DENIED
  end.

Definition getClientId (cb : IVehicleCallback) : Z := u64 (default (cb_ptr cb) (cb_binder cb)).

(** The verification loop of [subscribe]: [None] is [INVALID_ARG]. *)
Fixpoint verifyOptions (s : VehicleHalManager) (options : list SubscribeOptions)
    : option (list SubscribeOptions) :=
  match options with
  | [] => Some []
  | ops :: rest =>
      match getPropConfigOrNull s (propId ops) with
      | None => None
      | Some c =>
          if bool_decide (flags ops = 0) then None
          else if isSubscribable c (flags ops) then
            vs ← verifyOptions s rest;
            Some (MkOpts (propId ops) (checkSampleRate c (sampleRate ops)) (flags ops) :: vs)
          else None
      end
  end.

(** First half of [subscribe], up to the return of the subscription manager: the
    updates still to be passed on to the HAL, outside of any lock. *)
Definition subscribe_begin (cb : IVehicleCallback) (options : list SubscribeOptions)
    (linked : bool) (addr : Z) : M VehicleHalManager (StatusCode * list SubscribeOptions) :=
  s ← get;
  match verifyOptions s options with
  | None => mret (INVALID_ARG, [])
  | Some verifiedOptions =>
      in_subs (addOrUpdateSubscription (getClientId cb) (cb_ptr cb) verifiedOptions linked addr)
  end.

Definition hal_update (o : SubscribeOptions) : M VehicleHalManager unit :=
  in_hal (HSubscribe (propId o) (sampleRate o)) (hal_subscribe (propId o) (sampleRate o));; mret tt.

Definition subscribe (cb : IVehicleCallback) (options : list SubscribeOptions)
    (linked : bool) (addr : Z) : M VehicleHalManager StatusCode :=
  r ← subscribe_begin cb options linked addr;
  match r.1 with
  | OK => for_each r.2 hal_update;; mret OK
  | res => mret res
  end.

Definition onAllClientsUnsubscribed (p : Z) : M VehicleHalManager unit :=
  in_hal (HUnsubscribe p) (hal_unsubscribe p);; mret tt.

(** The subscription manager's [unsubscribe] with its notification, which it makes
    as its last action, holding its lock. *)
Definition unsubscribe_client (clientId p : Z) : M VehicleHalManager unit :=
  s ← get;
  in_subs (VehicleSubs.unsubscribe clientId p);;
  s' ← get;
  for_each (drop (length (lost_of (sm_log (mSubscriptionManager s))))
              (lost_of (sm_log (mSubscriptionManager s')))) onAllClientsUnsubscribed.

Definition unsubscribe (cb : IVehicleCallback) (p : Z) : M VehicleHalManager StatusCode :=
  unsubscribe_client (getClientId cb) p;; mret OK.

(** [SubscriptionManager::onCallbackDead] with those notifications. *)
Definition callback_dead (cookie : Z) : M VehicleHalManager unit :=
  props ← in_subs (dead_properties cookie);
  for_each props (unsubscribe_client cookie).

Definition onHalPropertySetError (code : StatusCode) (p area : Z) : M VehicleHalManager unit :=
  clients ← in_subs (getSubscribedClients p EVENTS_FROM_CAR);
  notify_clients clients (λ cb, OnPropertySetError cb code p area).

(** Copying the values into [vec], element by element. *)
Fixpoint fill (vec values : list VehiclePropValue) : list VehiclePropValue :=
  match vec, values with
  | d :: vec', v :: values' => shallowCopy d v :: fill vec' values'
  | _, _ => vec
  end.

Definition set_vec_pool (l : list VehiclePropValue) : M VehicleHalManager unit :=
  modify (λ s, MkManager (mHal s) (mConfigIndex s) (mSubscriptionManager s) l (calls s) (outs s)).

(** A client with fewer than twenty values gets a view of the shared vector, whose
    elements keep what was copied into them; others get a vector of their own. *)
Definition deliver (cv : Z * list VehiclePropValue) : M VehicleHalManager unit :=
  s ← get;
  let vecSize := length cv.2 in
  vec ← (if decide (vecSize < kMaxHidlVecOfVehiclPropValuePoolSize)%nat then
           set_vec_pool (fill (take vecSize (mHidlVecPool s)) cv.2
                         ++ drop vecSize (mHidlVecPool s));;
           mret (fill (take vecSize (mHidlVecPool s)) cv.2)
         else mret (fill (replicate vecSize kEmptyValue) cv.2));
  c ← in_subs (deref cv.1);
  emit (OnPropertyEvent (mCallback c) vec).

Definition onBatchHalEvent (values : list VehiclePropValue) : M VehicleHalManager unit :=
  clientValues ← in_subs (distributeValuesToClients values EVENTS_FROM_CAR);
  for_each clientValues deliver.

(** ** Invariant of the manager *)

(** What the HAL was asked to keep running: the rate of the last subscription. *)
Definition held_step (m : gmap Z spec_float) (c : hal_call) : gmap Z spec_float :=
  match c with
  | HSubscribe p r => <[p := r]> m
  | HUnsubscribe p => delete p m
  | _ => m
  end.
Definition held (cs : list hal_call) : gmap Z spec_float := foldl held_step ∅ cs.

(** With [real], histories in which no client asks for a NaN. *)
Variable real : bool.

(** A rate the configuration of the property allows: 0 where the rate is fixed,
    and otherwise a number within the limits, or a NaN if one was asked for. *)
Definition rate_allowed (ix : VehiclePropConfigIndex) (p : Z) (r : spec_float) : Prop :=
  ∃ c, mPropToConfig ix !! p = Some c ∧ changeMode c ≠ CHANGE_STATIC
    ∧ if isSampleRateFixed (changeMode c) then r = S754_zero false
      else (is_nan r = true ∧ real = false)
           ∨ (SFleb (minSampleRate c) r = true ∧ SFleb r (maxSampleRate c) = true).

Definition call_ok (ix : VehiclePropConfigIndex) (c : hal_call) : Prop :=
  match c with
  | HSubscribe p r => rate_allowed ix p r
  | HUnsubscribe _ => True
  | HSet v => ∃ c, mPropToConfig ix !! prop v = Some c ∧ checkWritePermission c = true
  | HGet v => ∃ c, mPropToConfig ix !! prop v = Some c ∧ checkReadPermission c = true
  end.

(** Limits that exclude each other cannot be respected. *)
Definition index_sane (ix : VehiclePropConfigIndex) : Prop :=
  map_Forall (λ _ c, SFleb (minSampleRate c) (maxSampleRate c) = true) (mPropToConfig ix).

(** The rates of these options are numbers. *)
Definition numbers (options : list SubscribeOptions) : Prop :=
  Forall (λ o, is_nan (sampleRate o) = false) options.

Definition in_sync (s : VehicleHalManager) : Prop :=
  held (calls s) = sampleRate <$> mHalEventSubscribeOptions (mSubscriptionManager s).

Record manager_ok (sp : subs) (s : VehicleHalManager) : Prop := {
  ok_sim : sim sp (mSubscriptionManager s);
  ok_sync : in_sync s;
  ok_rates : rates_ok (rate_allowed (mConfigIndex s))
               (mHalEventSubscribeOptions (mSubscriptionManager s));
  ok_calls : Forall (call_ok (mConfigIndex s)) (calls s);
  ok_pool : length (mHidlVecPool s) = kMaxHidlVecOfVehiclPropValuePoolSize;
}.

Lemma in_subs_val {A} (m : M SubscriptionManager A) s t a :
  m (mSubscriptionManager s) = Val t a →
  in_subs m s = Val (MkManager (mHal s) (mConfigIndex s) t (mHidlVecPool s) (calls s) (outs s)) a.
Proof. unfold in_subs, zoom. by intros ->. Qed.

Lemma in_hal_inv {A} c (m : M H A) s s' a :
  in_hal c m s = Val s' a →
  ∃ h, s' = MkManager h (mConfigIndex s) (mSubscriptionManager s) (mHidlVecPool s)
              (calls s ++ [c]) (outs s).
Proof.
  unfold in_hal. run_m. cbn [mHal]. destruct (m (mHal s)) as [h b| |]; [|done..].
  intros [= <- <-]. by exists h.
Qed.

Lemma held_app cs c : held (cs ++ [c]) = held_step (held cs) c.
Proof. unfold held. by rewrite foldl_app. Qed.

Lemma hal_updates_inv us s s' :
  for_each us hal_update s = Val s' tt →
  mConfigIndex s' = mConfigIndex s ∧ mSubscriptionManager s' = mSubscriptionManager s
  ∧ mHidlVecPool s' = mHidlVecPool s
  ∧ calls s' = calls s ++ ((λ o, HSubscribe (propId o) (sampleRate o)) <$> us).
Proof.
  revert s. induction us as [|u us IH]; intros s; cbn [for_each fmap list_fmap].
  - intros [= <-]. by rewrite app_nil_r.
  - intros (s1 & [] & E1 & E2)%bind_inv. apply IH in E2 as (H1 & H2 & H3 & H4).
    unfold hal_update in E1. apply bind_inv in E1 as (s2 & a & E & [= <-]).
    apply in_hal_inv in E as [h ->]. cbn in *. by rewrite H4, <- app_assoc.
Qed.

Lemma held_updates cs us (m : gmap Z SubscribeOptions) :
  held cs = sampleRate <$> m →
  held (cs ++ ((λ o, HSubscribe (propId o) (sampleRate o)) <$> us))
  = sampleRate <$> apply_updates m us.
Proof.
  revert cs m. induction us as [|u us IH]; intros cs m Hm; cbn [fmap list_fmap].
  - by rewrite app_nil_r.
  - rewrite (cons_middle _ cs), app_assoc. unfold apply_updates. cbn [foldl].
    apply IH. rewrite held_app, Hm. cbn. by rewrite fmap_insert.
Qed.

Lemma SFleb_real f g : SFleb f g = true → is_nan f = false ∧ is_nan g = false.
Proof. by destruct f as [|[]| |[]], g as [|[]| |[]]. Qed.
Lemma SFleb_refl f : is_nan f = false → SFleb f f = true.
Proof. intros Hf. apply as_fast_real; [done|done|apply as_fast_refl]. Qed.

Lemma checked_rate_allowed ix c p r :
  index_sane ix → mPropToConfig ix !! p = Some c → changeMode c ≠ CHANGE_STATIC →
  (real = true → is_nan r = false) → rate_allowed ix p (checkSampleRate c r).
Proof.
  intros Hs Hc Hm Hreal. exists c. split_and!; [done..|]. unfold checkSampleRate.
  assert (Hlim : SFleb (minSampleRate c) (maxSampleRate c) = true) by exact (Hs _ _ Hc). destruct (SFleb_real _ _ Hlim) as [Hmin Hmax].
  destruct (isSampleRateFixed _); [done|].
  destruct (SFltb (maxSampleRate c) r) eqn:E1; [right; split; [done|by apply SFleb_refl]|].
  destruct (SFltb r (minSampleRate c)) eqn:E2; [right; split; [by apply SFleb_refl|done]|].
  destruct (is_nan r) eqn:Er; [left; split; [done|]; destruct real; [by specialize (Hreal eq_refl)|done]|].
  right. split; apply as_fast_real; try done; by apply not_slower.
Qed.

Lemma rate_allowed_real ix p r : real = true → rate_allowed ix p r → is_nan r = false.
Proof.
  intros Hreal (c & _ & _ & Hr). destruct (isSampleRateFixed _); [by subst r|].
  destruct Hr as [[_ Hf]|[Hr _]]; [congruence|]. by destruct (SFleb_real _ _ Hr).
Qed.

Lemma getPropConfigOrNull_lookup s p :
  getPropConfigOrNull s p = mPropToConfig (mConfigIndex s) !! p.
Proof.
  unfold getPropConfigOrNull, hasConfig. destruct (mPropToConfig _ !! p); [done|].
  by destruct (bool_decide _).
Qed.

Lemma verify_rates s opts vs :
  index_sane (mConfigIndex s) → (real = true → numbers opts) → verifyOptions s opts = Some vs →
  Forall (rate_ok (rate_allowed (mConfigIndex s))) vs.
Proof.
  intros Hs. revert vs. induction opts as [|o opts IH]; intros vs Hreal; cbn [verifyOptions].
  - intros [= <-]. constructor.
  - rewrite getPropConfigOrNull_lookup.
    destruct (mPropToConfig _ !! propId o) as [c|] eqn:Ec; [|done].
    destruct (bool_decide (flags o = 0)); [done|].
    destruct (isSubscribable c (flags o)) eqn:Es; [|done].
    destruct (verifyOptions s opts) as [vs'|]; [|done]. cbn. intros [= <-].
    constructor; [|apply IH; [|done]; intros Hr; by apply Hreal, Forall_cons_iff in Hr as [_ ?]].
    apply checked_rate_allowed; [done|done| |intros Hr; by apply Hreal, Forall_cons_iff in Hr as [? _]].
    unfold isSubscribable in Es. destruct (_ && _); [done|].
    by destruct (bool_decide (changeMode c = CHANGE_STATIC)) eqn:E; [|apply bool_decide_eq_false in E].
Qed.

Lemma subscribe_ok sp s cb opts linked addr s' r :
  manager_ok sp s → index_sane (mConfigIndex s) → (real = true → numbers opts) → fresh_addr (mSubscriptionManager s) addr →
  subscribe cb opts linked addr s = Val s' r →
  mConfigIndex s' = mConfigIndex s
  ∧ match verifyOptions s opts with
    | None => r = INVALID_ARG ∧ s' = s
    | Some vs => r = (spec_subscribe (getClientId cb) vs linked sp).1
                 ∧ manager_ok (spec_subscribe (getClientId cb) vs linked sp).2 s'
    end.
Proof.
  intros [Hsim Hsync Hrates Hcalls Hpool] Hsane Hreal Hfresh. unfold subscribe.
  intros (s1 & [st us] & E1 & E2)%bind_inv. unfold subscribe_begin in E1. run_m_in E1.
  destruct (verifyOptions s opts) as [vs|] eqn:Ev.
  2:{ injection E1 as <- <- <-. by injection E2 as <- <-. }
  destruct (sim_subscribe sp _ (getClientId cb) (cb_ptr cb) vs linked addr Hsim Hfresh)
    as (t & us' & Et & Hsim' & Hhal & HP & Hfail).
  rewrite (in_subs_val _ _ _ _ Et) in E1. injection E1 as <- Hst ->.
  specialize (HP _ Hrates (verify_rates _ _ _ Hsane Hreal Ev)).
  assert (r = st ∧ mConfigIndex s' = mConfigIndex s ∧ mSubscriptionManager s' = t
          ∧ mHidlVecPool s' = mHidlVecPool s
          ∧ calls s' = calls s ++ ((λ o, HSubscribe (propId o) (sampleRate o)) <$> us))
    as (-> & Hix & Ht & Hp' & Hc').
  { subst st. unfold spec_subscribe in *. destruct (decide _) as [Hd|Hd]; cbn [fst snd] in *.
    - apply bind_inv in E2 as (s2 & [] & E & [= <- <-]).
      apply hal_updates_inv in E as (H1 & H2 & H3 & H4). done.
    - injection E2 as <- <-. rewrite (Hfail ltac:(done)). cbn. by rewrite app_nil_r. }
  split; [done|]. split; [done|]. split; rewrite ?Hix.
  - by rewrite Ht.
  - unfold in_sync. rewrite Ht, Hc', Hhal. by apply held_updates.
  - rewrite Ht, Hhal. by apply apply_updates_rates.
  - rewrite Hc'. apply Forall_app. split; [done|]. apply Forall_fmap.
    eapply Forall_impl; [|exact HP]. done.
  - by rewrite Hp'.
Qed.

(** *** Unsubscribing *)

Lemma lost_since sp cid p :
  drop (length (sp_lost sp)) (sp_lost (spec_unsubscribe cid p sp))
  = if decide (map_Forall (λ k _, k.2 ≠ p) (delete (cid, p) (sp_req sp))) then [p] else [].
Proof.
  cbn. destruct (decide _); [apply drop_app_length|apply drop_all].
Qed.

Lemma unsubscribe_client_ok sp s cid p s' :
  manager_ok sp s → unsubscribe_client cid p s = Val s' tt →
  mConfigIndex s' = mConfigIndex s ∧ manager_ok (spec_unsubscribe cid p sp) s'.
Proof.
  intros [Hsim Hsync Hrates Hcalls Hpool]. unfold unsubscribe_client.
  destruct (sim_unsubscribe sp _ cid p Hsim) as (t & Et & Hsim' & Hhal).
  intros (s0 & a & [= <- <-] & E)%bind_inv. apply bind_inv in E as (s1 & [] & E1 & E2).
  rewrite (in_subs_val _ _ _ _ Et) in E1. injection E1 as <-.
  apply bind_inv in E2 as (s2 & a & [= <- <-] & E2). cbn [mSubscriptionManager] in E2.
  rewrite (sim_lost _ _ Hsim), (sim_lost _ _ Hsim'), lost_since in E2.
  destruct (decide (map_Forall _ _)).
  - cbn [for_each] in E2. apply bind_inv in E2 as (s3 & [] & E3 & [= <-]).
    unfold onAllClientsUnsubscribed in E3. apply bind_inv in E3 as (s4 & b & E4 & [= <-]).
    apply in_hal_inv in E4 as [h ->]. cbn [mConfigIndex calls mSubscriptionManager mHidlVecPool].
    split; [done|]. split; cbn [mConfigIndex calls mSubscriptionManager mHidlVecPool]; try done.
    + unfold in_sync in *. cbn [calls mSubscriptionManager].
      rewrite held_app, Hsync, Hhal. cbn [held_step]. by rewrite fmap_delete.
    + rewrite Hhal. by apply map_Forall_delete.
    + apply Forall_app. split; [done|by repeat constructor].
  - injection E2 as <-. split; [done|]. split; cbn; try done.
    + unfold in_sync in *. cbn [calls mSubscriptionManager]. by rewrite Hsync, Hhal.
    + by rewrite Hhal.
Qed.

Lemma callback_dead_ok sp s cid s' :
  manager_ok sp s → callback_dead cid s = Val s' tt →
  mConfigIndex s' = mConfigIndex s ∧ ∃ sp', manager_ok sp' s'.
Proof.
  intros Hok. unfold callback_dead.
  destruct (dead_properties_run sp _ cid (ok_sim _ _ Hok)) as (props & Ep & _).
  intros (s1 & ps & E1 & E2)%bind_inv. rewrite (in_subs_val _ _ _ _ Ep) in E1.
  injection E1 as <- <-.
  assert (manager_ok sp (MkManager (mHal s) (mConfigIndex s) (mSubscriptionManager s)
                           (mHidlVecPool s) (calls s) (outs s))) as Hok'.
  { by destruct s. }
  assert (mConfigIndex s = mConfigIndex (MkManager (mHal s) (mConfigIndex s) (mSubscriptionManager s)
                           (mHidlVecPool s) (calls s) (outs s))) as -> by done.
  revert Hok' E2. generalize (MkManager (mHal s) (mConfigIndex s) (mSubscriptionManager s)
                           (mHidlVecPool s) (calls s) (outs s)). clear Hok Ep s.
  revert sp. induction props as [|p props IH]; intros sp s Hok; cbn [for_each].
  - intros [= <-]. eauto.
  - intros (s1 & [] & E1 & E2)%bind_inv.
    destruct (unsubscribe_client_ok _ _ _ _ _ Hok E1) as [Hix Hok1].
    rewrite <- Hix. by apply (IH _ _ Hok1).
Qed.

(** *** Operations that only talk to clients or the HAL *)

Definition same_core (s s' : VehicleHalManager) : Prop :=
  mConfigIndex s' = mConfigIndex s ∧ mSubscriptionManager s' = mSubscriptionManager s
  ∧ calls s' = calls s ∧ length (mHidlVecPool s') = length (mHidlVecPool s).

Lemma same_core_trans s1 s2 s3 : same_core s1 s2 → same_core s2 s3 → same_core s1 s3.
Proof. unfold same_core. intros (-> & -> & -> & ->) (-> & -> & -> & ->). done. Qed.

Lemma same_core_ok sp s s' : same_core s s' → manager_ok sp s → manager_ok sp s'.
Proof.
  intros (H1 & H2 & H3 & H4) [K1 K2 K3 K4 K5]. unfold in_sync in *.
  split; unfold in_sync; rewrite ?H1, ?H2, ?H3, ?H4; done.
Qed.

Lemma deref_core a s s' c : in_subs (deref a) s = Val s' c → same_core s s'.
Proof.
  unfold in_subs, deref. run_m. destruct (heap _ !! a); [|done]. intros [= <- _]. done.
Qed.

Lemma notify_core clients f s s' : notify_clients clients f s = Val s' tt → same_core s s'.
Proof.
  revert s. induction clients as [|a l IH]; intros s; cbn [notify_clients].
  - by intros [= <-].
  - intros (s1 & c & E1%deref_core & E2)%bind_inv. apply (same_core_trans _ _ _ E1).
    apply bind_inv in E2 as (s2 & [] & [= <-] & E3%IH). done.
Qed.

Lemma fill_length l1 l2 : length (fill l1 l2) = length l1.
Proof. revert l2. induction l1; intros [|]; cbn; [done..|]. by rewrite IHl1. Qed.

Lemma deliver_core cv s s' : deliver cv s = Val s' tt → same_core s s'.
Proof.
  unfold deliver. intros (s0 & a & [= <- <-] & E)%bind_inv.
  apply bind_inv in E as (s1 & vec & E1 & E2).
  apply bind_inv in E2 as (s2 & c & E2%deref_core & [= <-]).
  apply (same_core_trans _ s1); [|exact E2]. clear E2.
  destruct (decide _); [|by injection E1 as <- _].
  run_m_in E1. injection E1 as <- _. split_and!; try done. cbn [mHidlVecPool].
  rewrite length_app, fill_length, <- length_app. by rewrite take_drop.
Qed.

Lemma deliver_all_core l s s' : for_each l deliver s = Val s' tt → same_core s s'.
Proof.
  revert s. induction l as [|cv l IH]; intros s; cbn [for_each].
  - by intros [= <-].
  - intros (s1 & [] & E1%deliver_core & E2%IH)%bind_inv. by apply (same_core_trans _ s1).
Qed.

Lemma get_clients_core {A} sp (m : M SubscriptionManager A) s s' a :
  manager_ok sp s → (∃ b, m (mSubscriptionManager s) = Val (mSubscriptionManager s) b) →
  in_subs m s = Val s' a → same_core s s'.
Proof. intros _ [b Eb]. rewrite (in_subs_val _ _ _ _ Eb). by intros [= <- _]. Qed.

Lemma batch_ok sp s vs s' :
  manager_ok sp s → onBatchHalEvent vs s = Val s' tt → same_core s s'.
Proof.
  intros Hok. unfold onBatchHalEvent. intros (s1 & l & E1 & E2%deliver_all_core)%bind_inv.
  apply (same_core_trans _ s1); [|done]. apply (get_clients_core sp _ _ _ _ Hok) in E1; [done|].
  destruct (collect_run sp (mSubscriptionManager s) EVENTS_FROM_CAR vs ∅ (ok_sim _ _ Hok))
    as (m & E & _).
  unfold distributeValuesToClients. rewrite (bind_val _ _ _ _ _ E). by eexists.
Qed.

Lemma notify_property_core sp s p f g s' :
  manager_ok sp s →
  (clients ← in_subs (getSubscribedClients p f); notify_clients clients g) s = Val s' tt →
  same_core s s'.
Proof.
  intros Hok (s1 & l & E1 & E2%notify_core)%bind_inv.
  apply (same_core_trans _ s1); [|done]. apply (get_clients_core sp _ _ _ _ Hok) in E1; [done|].
  unfold getSubscribedClients. rewrite (subscribed_clients_run sp) by apply Hok. by eexists.
Qed.

(** A call on the HAL that is neither a subscription nor its end. *)
Lemma plain_call_ok {A} sp s c (m : M H A) s' a :
  manager_ok sp s → call_ok (mConfigIndex s) c → (∀ g, held_step g c = g) →
  in_hal c m s = Val s' a → mConfigIndex s' = mConfigIndex s ∧ manager_ok sp s'.
Proof.
  intros [K1 K2 K3 K4 K5] Hc Hh [h ->]%in_hal_inv. split; [done|]. split; cbn; try done.
  - unfold in_sync in *. cbn [calls mSubscriptionManager]. by rewrite held_app, Hh.
  - apply Forall_app. split; [done|by repeat constructor].
Qed.

Lemma set_ok sp s v s' r :
  manager_ok sp s → set_value v s = Val s' r →
  mConfigIndex s' = mConfigIndex s ∧ manager_ok sp s'.
Proof.
  intros Hok. unfold set_value. intros (s0 & a & [= <- <-] & E)%bind_inv.
  rewrite getPropConfigOrNull_lookup in E.
  destruct (mPropToConfig _ !! prop v) as [c|] eqn:Ec; [|by injection E as <- _].
  destruct (checkWritePermission c) eqn:Ew; [|by injection E as <- _].
  apply bind_inv in E as (s1 & [] & E1%(notify_property_core sp _ _ _ _ _ Hok) & E2).
  pose proof E1 as (Hix & _). rewrite <- Hix.
  apply (plain_call_ok sp _ _ _ _ _ (same_core_ok _ _ _ E1 Hok)) in E2; [done| |done].
  cbn. rewrite Hix. by exists c.
Qed.

Lemma get_ok sp s v s' r :
  manager_ok sp s → get_value v s = Val s' r →
  mConfigIndex s' = mConfigIndex s ∧ manager_ok sp s'.
Proof.
  intros Hok. unfold get_value. intros (s0 & a & [= <- <-] & E)%bind_inv.
  rewrite getPropConfigOrNull_lookup in E.
  destruct (mPropToConfig _ !! prop v) as [c|] eqn:Ec; [|by injection E as <- _].
  destruct (checkReadPermission c) eqn:Er; [|by injection E as <- _].
  apply bind_inv in E as (s1 & b & E1 & [= <- _]).
  apply (plain_call_ok sp _ _ _ _ _ Hok) in E1; [done| |done]. by exists c.
Qed.

(** *** Reachable managers *)

Inductive hm_op : Type :=
  | OpSubscribe (cb : IVehicleCallback) (options : list SubscribeOptions) (linked : bool) (addr : Z)
  | OpUnsubscribe (cb : IVehicleCallback) (p : Z)
  | OpDead (cookie : Z)
  | OpGet (v : VehiclePropValue)
  | OpSet (v : VehiclePropValue)
  | OpBatch (values : list VehiclePropValue)
  | OpSetError (code : StatusCode) (p area : Z).

Definition run_op (o : hm_op) : M VehicleHalManager unit :=
  match o with
  | OpSubscribe cb opts linked addr => subscribe cb opts linked addr;; mret tt
  | OpUnsubscribe cb p => unsubscribe cb p;; mret tt
  | OpDead cookie => callback_dead cookie
  | OpGet v => get_value v;; mret tt
  | OpSet v => set_value v;; mret tt
  | OpBatch vs => onBatchHalEvent vs
  | OpSetError code p area => onHalPropertySetError code p area
  end.

(** [new] never returns an address in use; with [real], rates are numbers. *)
Definition op_fresh (s : VehicleHalManager) (o : hm_op) : Prop :=
  match o with
  | OpSubscribe _ options _ addr => fresh_addr (mSubscriptionManager s) addr ∧ (real = true → numbers options)
  | _ => True
  end.

Inductive hm_reach (hal : H) : VehicleHalManager → Prop :=
  | hm_init : hm_reach hal (init hal)
  | hm_step s o s' : hm_reach hal s → op_fresh s o → run_op o s = Val s' tt → hm_reach hal s'.

Lemma run_op_ok sp s o s' :
  manager_ok sp s → index_sane (mConfigIndex s) → op_fresh s o → run_op o s = Val s' tt →
  mConfigIndex s' = mConfigIndex s ∧ ∃ sp', manager_ok sp' s'.
Proof.
  intros Hok Hsane Hf. destruct o as [cb opts linked addr|cb p|cookie|v|v|vs|code p area];
    cbn [run_op op_fresh] in *.
  - intros (s1 & r & E & [= <-])%bind_inv.
    destruct Hf as [Hf Hn]. destruct (subscribe_ok _ _ _ _ _ _ _ _ Hok Hsane Hn Hf E) as [Hix Hr]. split; [done|].
    destruct (verifyOptions s opts); [by destruct Hr as [_ Hr]; eexists|].
    destruct Hr as [_ ->]. by eexists.
  - intros (s1 & r & E & [= <-])%bind_inv. unfold unsubscribe in E.
    apply bind_inv in E as (s2 & [] & E & [= <- _]).
    destruct (unsubscribe_client_ok _ _ _ _ _ Hok E). eauto.
  - by apply callback_dead_ok with (sp := sp).
  - intros (s1 & r & E & [= <-])%bind_inv. destruct (get_ok _ _ _ _ _ Hok E). eauto.
  - intros (s1 & r & E & [= <-])%bind_inv. destruct (set_ok _ _ _ _ _ Hok E). eauto.
  - intros E%(batch_ok _ _ _ _ Hok). split; [apply E|]. exists sp. by apply (same_core_ok _ s).
  - intros E%(notify_property_core sp _ _ _ _ _ Hok). split; [apply E|].
    exists sp. by apply (same_core_ok _ s).
Qed.

Lemma init_ok hal : manager_ok (MkSubs ∅ ∅ []) (init hal).
Proof. split; [apply sim_empty|done|apply map_Forall_empty|constructor|done]. Qed.

Lemma hm_reach_ok hal s :
  index_sane (make_index (hal_listProperties hal)) → hm_reach hal s →
  mConfigIndex s = make_index (hal_listProperties hal) ∧ ∃ sp, manager_ok sp s.
Proof.
  intros Hsane. induction 1 as [|s o s' _ [Hix [sp Hok]] Hf E].
  - split; [done|]. eexists. apply init_ok.
  - rewrite <- Hix in Hsane. destruct (run_op_ok _ _ _ _ Hok Hsane Hf E) as [Hix' Hsp].
    by rewrite Hix', Hix.
Qed.


(** ** Delivery of events *)

Lemma shallowCopy_eq d v : shallowCopy d v = v.
Proof.
  assert (∀ {T} (a b : list T), shallowCopyHidlVec a b = b) as Hv.
  { intros T a b. unfold shallowCopyHidlVec. destruct b as [|x b]; [|done]. by destruct a. }
  unfold shallowCopy, shallowCopyHidlStr. rewrite !Hv. destruct v as [? ? ? ? [? ? ? ? str]]. cbn.
  by destruct (decide (str = "")) as [->|].
Qed.

Lemma fill_eq l vs : length l = length vs → fill l vs = vs.
Proof.
  revert vs. induction l as [|d l IH]; intros [|v vs]; cbn; try done.
  intros [= Hl]. by rewrite shallowCopy_eq, IH.
Qed.

(** The callback behind a client's address. *)
Definition callback_of (s : VehicleHalManager) (a : Z) : Z :=
  from_option mCallback 0 (heap (mSubscriptionManager s) !! a).

Lemma deliver_run s a xs :
  length (mHidlVecPool s) = kMaxHidlVecOfVehiclPropValuePoolSize →
  is_Some (heap (mSubscriptionManager s) !! a) →
  ∃ s', deliver (a, xs) s = Val s' tt ∧ same_core s s'
    ∧ outs s' = outs s ++ [OnPropertyEvent (callback_of s a) xs].
Proof.
  intros Hlen [c Hc]. unfold callback_of. rewrite Hc. cbn [from_option].
  assert (∀ s1 l, mSubscriptionManager s1 = mSubscriptionManager s → length l = length xs →
    ∃ s', (c ← in_subs (deref a); emit (OnPropertyEvent (mCallback c) (fill l xs))) s1 = Val s' tt
      ∧ outs s' = outs s1 ++ [OnPropertyEvent (mCallback c) xs]) as Hend.
  { intros s1 l Hs1 Hl. rewrite (fill_eq l xs Hl). unfold in_subs, deref, emit. run_m.
    rewrite Hs1, Hc. by eexists. }
  assert (∃ s', deliver (a, xs) s = Val s' tt
            ∧ outs s' = outs s ++ [OnPropertyEvent (mCallback c) xs]) as (s' & E & Ho).
  { unfold deliver. cbn [fst snd]. unfold mbind at 1 2. unfold M_bind, get.
    destruct (decide (length xs < _)%nat) as [Hlt|Hge].
    - apply (Hend (MkManager (mHal s) (mConfigIndex s) (mSubscriptionManager s)
                     (fill (take (length xs) (mHidlVecPool s)) xs ++ drop (length xs) (mHidlVecPool s))
                     (calls s) (outs s)) (take (length xs) (mHidlVecPool s))); [done|].
      rewrite length_take. lia.
    - apply (Hend s (replicate (length xs) kEmptyValue)); [done|]. apply length_replicate. }
  exists s'. split_and!; [done|by apply deliver_core in E|done].
Qed.

Lemma deliver_all_run l s :
  length (mHidlVecPool s) = kMaxHidlVecOfVehiclPropValuePoolSize →
  Forall (λ e, is_Some (heap (mSubscriptionManager s) !! e.1)) l →
  ∃ s', for_each l deliver s = Val s' tt
    ∧ outs s' = outs s ++ ((λ e, OnPropertyEvent (callback_of s e.1) e.2) <$> l).
Proof.
  revert s. induction l as [|[a xs] l IH]; intros s Hlen Hall.
  { exists s. by rewrite app_nil_r. }
  apply Forall_cons_1 in Hall as [Ha Hall].
  destruct (deliver_run s a xs Hlen Ha) as (s1 & E1 & Hcore & Ho1).
  pose proof Hcore as (_ & Hs & _ & Hl).
  destruct (IH s1) as (s2 & E2 & Ho2); [by rewrite Hl|by rewrite Hs|].
  exists s2. cbn [for_each]. rewrite (bind_val _ _ _ _ _ E1). split; [done|].
  unfold callback_of in *. rewrite Ho2, Ho1, Hs, <- app_assoc. done.
Qed.

(** a batch of events reaches each client in one call, with exactly the values
    of the properties it subscribed to, in order and complete in every field, although
    clients share one vector of value objects. *)
Theorem hm_batch_delivered hal s values :
  index_sane (make_index (hal_listProperties hal)) → hm_reach hal s →
  ∃ s' l, onBatchHalEvent values s = Val s' tt
    ∧ outs s' = outs s ++ ((λ e, OnPropertyEvent (callback_of s e.1) e.2) <$> l)
    ∧ NoDup l.*1
    ∧ ∀ a xs, (a, xs) ∈ l ↔ xs ≠ []
        ∧ xs = filter (λ v, receives (mSubscriptionManager s) EVENTS_FROM_CAR a (prop v) = true) values.
Proof.
  intros Hsane Hr. destruct (hm_reach_ok _ _ Hsane Hr) as [_ [sp Hok]].
  pose proof (ok_sim _ _ Hok) as Hsim.
  destruct (collect_run sp _ EVENTS_FROM_CAR values ∅ Hsim) as (m & E & Hm).
  set (s0 := MkManager (mHal s) (mConfigIndex s) (mSubscriptionManager s) (mHidlVecPool s)
               (calls s) (outs s)).
  assert (in_subs (distributeValuesToClients values EVENTS_FROM_CAR) s = Val s0 (sorted_entries m))
    as Ed.
  { apply in_subs_val. unfold distributeValuesToClients. by rewrite (bind_val _ _ _ _ _ E). }
  assert (∀ a xs, (a, xs) ∈ sorted_entries m ↔ xs ≠ [] ∧
    xs = filter (λ v, receives (mSubscriptionManager s) EVENTS_FROM_CAR a (prop v) = true) values)
    as Hin.
  { intros a xs. rewrite elem_of_sorted_entries, Hm, lookup_empty. unfold extend.
    destruct (filter _ values) as [|x l]; cbn; split; naive_solver. }
  destruct (deliver_all_run (sorted_entries m) s0) as (s' & E' & Ho); [apply Hok| |].
  - apply List.Forall_forall. intros [a xs] Ha%list_elem_of_In%Hin. cbn [fst].
    destruct Ha as [Hne ->]. destruct (filter _ values) as [|v l] eqn:Ef; [done|].
    assert (v ∈ v :: l) as Hv by constructor. rewrite <- Ef in Hv.
    apply list_elem_of_filter in Hv as [Hv _]. unfold receives in Hv.
    apply andb_true_iff in Hv as [_ Hv]. cbn. by destruct (heap _ !! a).
  - exists s', (sorted_entries m). unfold onBatchHalEvent. rewrite (bind_val _ _ _ _ _ Ed).
    split_and!; [done|done| |done]. unfold sorted_entries. rewrite merge_sort_Permutation.
    apply NoDup_fst_map_to_list.
Qed.

(** one invalid option (unknown property, no flags, a static property, events of
    a property that cannot be read) makes the whole subscription fail without any
    effect; otherwise every option is passed on with its rate brought into range. *)
Theorem hm_subscribe_verified hal s cb options linked addr s' r :
  index_sane (make_index (hal_listProperties hal)) → hm_reach hal s →
  fresh_addr (mSubscriptionManager s) addr → (real = true → numbers options) →
  subscribe cb options linked addr s = Val s' r →
  let valid o := match mPropToConfig (mConfigIndex s) !! propId o with
                 | Some c => flags o ≠ 0 ∧ isSubscribable c (flags o) = true
                 | None => False
                 end in
  (Forall valid options → r ≠ INVALID_ARG) ∧ (¬ Forall valid options → r = INVALID_ARG ∧ s' = s).
Proof.
  intros Hsane Hr Hf Hn E valid. destruct (hm_reach_ok _ _ Hsane Hr) as [Hix [sp Hok]].
  rewrite <- Hix in Hsane. destruct (subscribe_ok _ _ _ _ _ _ _ _ Hok Hsane Hn Hf E) as [_ Hcase].
  assert (is_Some (verifyOptions s options) ↔ Forall valid options) as Hv.
  { clear Hcase E Hn. induction options as [|o options IH]; cbn [verifyOptions]; [by split; eauto|].
    rewrite Forall_cons_iff, <- IH, getPropConfigOrNull_lookup. unfold valid.
    destruct (mPropToConfig _ !! propId o) as [c|]; [|by split; [intros []|intros [[] _]]].
    case_bool_decide as Hfl; [by split; [intros []|intros [[? _] _]]|].
    destruct (isSubscribable c (flags o)); [|by split; [intros []|intros [[_ ?] _]]].
    destruct (verifyOptions s options); cbn; [by split; eauto|]. by split; [intros []|intros [_ []]]. }
  destruct (verifyOptions s options) as [vs|].
  - split; [|by intros Hbad; destruct Hbad; apply Hv; eauto]. intros _. destruct Hcase as [-> _].
    unfold spec_subscribe. by destruct (decide _).
  - destruct Hcase as [-> ->]. split; [|done]. intros Hall. by apply Hv in Hall as [].
Qed.

Lemma omap_length {A B} (f : A → option B) (l : list A) : (length (omap f l) ≤ length l)%nat.
Proof. induction l as [|x l IH]; cbn; [done|]. destruct (f x); cbn; lia. Qed.

(** asking for the configurations of properties of which some are unknown calls
    the reply function once for each unknown property and once more with the rest,
    although the interface expects exactly one reply. *)
Theorem hm_getPropConfigs_replies s properties :
  let known := omap (λ p, mPropToConfig (mConfigIndex s) !! p) properties in
  getPropConfigs s properties
  = replicate (length properties - length known) (INVALID_ARG, []) ++ [(OK, known)].
Proof.
  cbn zeta. unfold getPropConfigs.
  assert (∀ acc, getPropConfigs_loop (mConfigIndex s) properties acc
    = replicate (length properties
                 - length (omap (λ p, mPropToConfig (mConfigIndex s) !! p) properties)) (INVALID_ARG, [])
      ++ [(OK, acc ++ omap (λ p, mPropToConfig (mConfigIndex s) !! p) properties)]) as Hgen;
    [|apply Hgen].
  induction properties as [|p ps IH]; intros acc; [by rewrite app_nil_r|].
  cbn [getPropConfigs_loop omap list_omap length].
  destruct (mPropToConfig (mConfigIndex s) !! p) as [c|]; cbn [length].
  - by rewrite IH, <- app_assoc.
  - rewrite IH. rewrite Nat.sub_succ_l by apply omap_length. done.
Qed.

End manager.

(** ** A HAL that accepts everything *)

Definition ex_hal_configs : list VehiclePropConfig :=
  [MkConfig 100 1 2 [] (ex_rate 1) (ex_rate 10); MkConfig 101 3 1 [] (S754_zero false) (S754_zero false);
   MkConfig 102 2 0 [] (S754_zero false) (S754_zero false)].
#[local] Instance ex_hal : VehicleHal (list VehiclePropConfig) := {|
  hal_listProperties h := h;
  hal_get v := mret (OK, Some v);
  hal_set _ := mret OK;
  hal_subscribe _ _ := mret OK;
  hal_unsubscribe _ := mret OK;
|}.

Definition ex_cb (n : Z) : IVehicleCallback := MkCallback n None.
Abbreviation ex_state := (VehicleHalManager (H := list VehiclePropConfig)).
Definition run_of {A} (m : M ex_state A) (s : ex_state) : ex_state :=
  match m s with Val s' _ => s' | _ => s end.

(** two clients subscribing at the same time, on two of the service's four
    threads: both are recorded, but the calls on the HAL are made outside the lock
    and can come in the opposite order.  Here the HAL is left at 5 although 9 was
    granted to the second client. *)
Theorem hm_subscribe_race :
  ∃ s1 u1 s2 u2 s3 s4,
    subscribe_begin (ex_cb 1) [MkOpts 100 (ex_rate 5) EVENTS_FROM_CAR] true 0x1000
      (init ex_hal_configs) = Val s1 (OK, [u1])
    ∧ subscribe_begin (ex_cb 2) [MkOpts 100 (ex_rate 9) EVENTS_FROM_CAR] true 0x2000 s1
      = Val s2 (OK, [u2])
    ∧ hal_update u2 s2 = Val s3 tt ∧ hal_update u1 s3 = Val s4 tt
    ∧ sampleRate <$> mHalEventSubscribeOptions (mSubscriptionManager s4) !! 100 = Some (ex_rate 9)
    ∧ held (calls s4) !! 100 = Some (ex_rate 5).
Proof.
  do 6 eexists. split_and!; [vm_compute; reflexivity..].
Qed.

(** A NaN is neither above the maximum nor below the minimum: it reaches the HAL. *)
Lemma hm_nan_rate_passes :
  held (calls (run_of (subscribe (ex_cb 1) [MkOpts 100 S754_nan EVENTS_FROM_CAR] true 0x1000) (init ex_hal_configs)))
  = {[100 := S754_nan]}.
Proof. vm_compute. reflexivity. Qed.

(** ** Witnesses *)

Definition ex_manager_ops : list hm_op :=
  [OpSubscribe (ex_cb 1) [MkOpts 100 (ex_rate 50) 1; MkOpts 101 (ex_rate 5) 3] true 0x1000;
   OpSubscribe (ex_cb 2) [MkOpts 100 (ex_rate 2) 1] true 0x2000;
   OpSubscribe (ex_cb 3) [MkOpts 102 (ex_rate 2) 1] true 0x3000;
   OpSet (ex_value 101 0 1); OpGet (ex_value 102 0 0); OpUnsubscribe (ex_cb 1) 101].
Definition ex_manager : ex_state :=
  run_of (for_each ex_manager_ops run_op) (init ex_hal_configs).

Lemma ex_manager_reach : hm_reach true ex_hal_configs ex_manager.
Proof.
  set (st n := run_of (for_each (take n ex_manager_ops) run_op) (init ex_hal_configs)).
  assert (∀ n o, ex_manager_ops !! n = Some o → hm_reach true ex_hal_configs (st n) →
            op_fresh true (st n) o → run_op o (st n) = Val (st (S n)) tt →
            hm_reach true ex_hal_configs (st (S n))) as Hstep.
  { intros n o _ Hr Hf E. by apply (hm_step _ _ (st n) o). }
  assert (hm_reach true ex_hal_configs (st 0%nat)) as H0 by apply hm_init.
  change (hm_reach true ex_hal_configs (st 6%nat)).
  do 6 (eapply Hstep; [reflexivity| |
    first [exact I | split; [|intros _]; apply (bool_decide_eq_true_1 _); vm_compute; reflexivity]|vm_compute; reflexivity]).
  exact H0.
Qed.

Lemma ex_sane : index_sane (make_index (hal_listProperties ex_hal_configs)).
Proof. apply (bool_decide_eq_true_1 _). vm_compute. reflexivity. Qed.


Lemma hm_batch_delivered_witness :
  ∃ s' l, onBatchHalEvent [ex_value 100 0 7; ex_value 101 0 8] ex_manager = Val s' tt
    ∧ outs s' = outs ex_manager
        ++ ((λ e, OnPropertyEvent (callback_of ex_manager e.1) e.2) <$> l)
    ∧ (0x2000, [ex_value 100 0 7]) ∈ l.
Proof.
  destruct (hm_batch_delivered true ex_hal_configs ex_manager [ex_value 100 0 7; ex_value 101 0 8]
              ex_sane ex_manager_reach) as (s' & l & E & Ho & _ & Hl).
  exists s', l. split_and!; [exact E|exact Ho|]. apply Hl. split; [done|]. vm_compute. reflexivity.
Defined.

Lemma hm_subscribe_verified_witness :
  ∃ s' r, subscribe (ex_cb 4) [MkOpts 100 (ex_rate 5) 1; MkOpts 102 (ex_rate 5) 1] true 0x4000
            ex_manager = Val s' r ∧ r = INVALID_ARG ∧ s' = ex_manager.
Proof.
  destruct (subscribe (ex_cb 4) [MkOpts 100 (ex_rate 5) 1; MkOpts 102 (ex_rate 5) 1] true 0x4000
              ex_manager) as [s' r| |] eqn:E; [|vm_compute in E; discriminate E..].
  exists s', r. split; [done|].
  refine (proj2 (hm_subscribe_verified true ex_hal_configs ex_manager _ _ true 0x4000 s' r
            ex_sane ex_manager_reach _ _ E) _).
  - apply (bool_decide_eq_true_1 _). vm_compute. reflexivity.
  - intros _. by repeat constructor.
  - intros [_ [H _]%Forall_cons_1]%Forall_cons_1. vm_compute in H. by destruct H.
Defined.
