(* ===== verification/VisClient.v ===== *)
(** * Vehicle HAL: the client of the Vehicle Information Service

    Models android/hardware/xbox/vehicle/common: VisClient.{h,cpp} (the same client
    is in libvisclient/, with other log messages): requests and their promises,
    subscriptions and their recovery after a reconnect, the flattening and the
    dispatch of JSON messages.  The mutex makes each call and each callback of the
    web socket library atomic; [doInit] and [handleError], which do not take it in the
    source, are steps of the same kind here: their races with locked sections are left out.

    Outside the repository: the web socket library (its events are the operations
    [handleConnection], [handleMessage], ...; what is sent on it is logged) and
    jsoncpp.  A JSON value is a tree whose scalars are of an arbitrary type with the
    accessors the code uses ([JsonScalar]); the reader is an argument.  A promise is
    named by the number of its future; a future is pending, ready, or broken when
    its promise was destroyed unfulfilled. *)

From Stdlib Require Import SpecFloat.
From S2P Require Import Prelude Utils.

(** Accessors of [Json::Value] on strings, numbers and booleans; [None] is a
    [Json::LogicError]. *)
Class JsonScalar (S : Type) : Type := {
  js_asCString : S → option string;
  js_asString : S → string;
  js_isString : S → bool;
  js_isBool : S → bool;
  js_asBool : S → bool;
  js_isInt : S → bool;
  js_asInt : S → option Z;
  js_isInt64 : S → bool;
  js_asInt64 : S → option Z;
  js_isReal : S → bool;   (* isConvertibleTo(realValue) *)
  js_asFloat : S → option spec_float;
}.

#[warnings="-register-all"]
Inductive json (S : Type) : Type :=
  | JNull
  | JScalar (s : S)
  | JArray (l : list (json S))
  | JObject (members : list (string * json S)).   (* in the order of the names *)
Arguments JNull {S}.
Arguments JScalar {S} s.
Arguments JArray {S} l.
Arguments JObject {S} members.

Inductive Status : Type := SOK | INVALID_STATE | UNKNOWN_ERROR.
#[global] Instance Status_eq_dec : EqDecision Status.
Proof. solve_decision. Defined.

Inductive ConnState : Type := STATE_DISCONNECTED | STATE_CONNECTING | STATE_CONNECTED.
#[global] Instance ConnState_eq_dec : EqDecision ConnState.
Proof. solve_decision. Defined.

(** Names of JSON members. *)
Definition kAllTag : string := "*".
Definition kValueTag : string := "value".
Definition kTimestampTag : string := "timestamp".
Definition kActionTag : string := "action".
Definition kErrorTag : string := "error".
Definition kRequestIdTag : string := "requestId".
Definition kSubscriptionIdTag : string := "subscriptionId".

Record SubscriptionRequest : Type := MkRequest {
  handler : Z;            (* the observer to call *)
  propertyName : string;
  requestId : Z;
}.

Section client.
Context {S : Type} {JS : JsonScalar S}.

Definition CommandResult : Type := gmap string (json S).

Record WMessageResult : Type := MkResult {
  r_status : Status;
  r_subscriptionId : Z;
  r_commandResult : CommandResult;
}.

Inductive future : Type :=
  | Pending
  | Ready (r : WMessageResult)
  | Broken.

Inductive ws_event : Type :=
  | Connect
  | Send (ws : Z) (message : string)
  | Close (ws : Z).

Record VisClient : Type := MkVis {
  mRequestId : Z;
  mConnectedState : ConnState;
  mWs : option Z;
  mSubscriptionObservers : gmap Z SubscriptionRequest;   (* by request *)
  mObservers : gmap Z SubscriptionRequest;               (* by subscription *)
  mRecoverObservers : gmap Z SubscriptionRequest;
  mPromised : gmap Z nat;
  futures : list future;
  ws_log : list ws_event;
  handled : list (Z * CommandResult);    (* calls of observers *)
  notified : list bool;                  (* calls of mServerConnectionHandler *)
}.

Definition new_client : VisClient := MkVis 0 STATE_DISCONNECTED None ∅ ∅ ∅ ∅ [] [] [] [].

(** ** Field updates *)

Definition set_id (n : Z) (c : VisClient) : VisClient :=
  MkVis n (mConnectedState c) (mWs c) (mSubscriptionObservers c) (mObservers c)
    (mRecoverObservers c) (mPromised c) (futures c) (ws_log c) (handled c) (notified c).
Definition set_conn (st : ConnState) (ws : option Z) (c : VisClient) : VisClient :=
  MkVis (mRequestId c) st ws (mSubscriptionObservers c) (mObservers c)
    (mRecoverObservers c) (mPromised c) (futures c) (ws_log c) (handled c) (notified c).
Definition set_observers (subs obs rec : gmap Z SubscriptionRequest) (c : VisClient) : VisClient :=
  MkVis (mRequestId c) (mConnectedState c) (mWs c) subs obs rec (mPromised c) (futures c)
    (ws_log c) (handled c) (notified c).
Definition set_promises (ps : gmap Z nat) (fs : list future) (c : VisClient) : VisClient :=
  MkVis (mRequestId c) (mConnectedState c) (mWs c) (mSubscriptionObservers c) (mObservers c)
    (mRecoverObservers c) ps fs (ws_log c) (handled c) (notified c).
Definition add_ws (e : ws_event) (c : VisClient) : VisClient :=
  MkVis (mRequestId c) (mConnectedState c) (mWs c) (mSubscriptionObservers c) (mObservers c)
    (mRecoverObservers c) (mPromised c) (futures c) (ws_log c ++ [e]) (handled c) (notified c).
Definition add_handled (h : Z) (r : CommandResult) (c : VisClient) : VisClient :=
  MkVis (mRequestId c) (mConnectedState c) (mWs c) (mSubscriptionObservers c) (mObservers c)
    (mRecoverObservers c) (mPromised c) (futures c) (ws_log c) (handled c ++ [(h, r)]) (notified c).
Definition add_notified (b : bool) (c : VisClient) : VisClient :=
  MkVis (mRequestId c) (mConnectedState c) (mWs c) (mSubscriptionObservers c) (mObservers c)
    (mRecoverObservers c) (mPromised c) (futures c) (ws_log c) (handled c) (notified c ++ [b]).

(** ** Requests *)

Definition q (s : string) : string := String quote (s +:+ String quote EmptyString).
Definition pad : string := "            ".
Definition member (name val : string) : string := q name +:+ ": " +:+ val.

Definition requestTemplateGet (path : string) (id : Z) : string :=
  "{" +:+ pad +:+ member "action" (q "get") +:+ "," +:+ pad +:+ member "path" (q path) +:+ ","
  +:+ pad +:+ member "requestId" (q (format_d id)) +:+ "    }".
Definition requestTemplateSubscribe (path : string) (id : Z) : string :=
  "{" +:+ pad +:+ member "action" (q "subscribe") +:+ "," +:+ pad +:+ member "path" (q path) +:+ ","
  +:+ pad +:+ member "requestId" (q (format_d id)) +:+ "    }".
Definition requestTemplateUnsubscribe (sid : string) (id : Z) : string :=
  "{" +:+ pad +:+ member "action" (q "unsubscribe") +:+ "," +:+ pad
  +:+ member "subscriptionId" (q sid) +:+ "," +:+ pad
  +:+ member "requestId" (q (format_d id)) +:+ "    }".
Definition requestTemplateUnsubscribeAll (action : string) (id : Z) : string :=
  "{" +:+ pad +:+ member "action" (q action) +:+ "," +:+ pad
  +:+ member "requestId" (q (format_d id)) +:+ "    }".
(** The value is inserted as it is, without quotation marks. *)
Definition requestTemplateSet (path val : string) (id : Z) : string :=
  "{" +:+ pad +:+ member "action" (q "set") +:+ "," +:+ pad +:+ member "path" (q path) +:+ ","
  +:+ pad +:+ member "value" val +:+ "," +:+ pad
  +:+ member "requestId" (q (format_d id)) +:+ "    }".

(** [snprintf] into a buffer of [kMaxBufferLength] characters cuts the text off. *)
Definition kMaxBufferLength : nat := 1024.
Definition snprintf_buffer (s : string) : string := String.substring 0 (kMaxBufferLength - 1) s.

Definition sendWSMessage_raw (request : string) : M VisClient Z :=
  c ← get;
  match mWs c with
  | Some ws => modify (add_ws (Send ws request));; mret 0
  | None => mret (-1)
  end.

(** The overloads that format a template with the next request number. *)
Definition sendWSMessage (templ : string → Z → string) (param : string) : M VisClient Z :=
  c ← get;
  match mWs c with
  | Some ws =>
      let id := i32 (mRequestId c + 1) in
      modify (set_id id);;
      modify (add_ws (Send ws (snprintf_buffer (templ param id))));;
      mret id
  | None => mret (-1)
  end.

(** [promise p; future = p.get_future(); mPromised.emplace(id, move(p))]: when the
    number is in use the map keeps the old promise and the new one is destroyed. *)
Definition new_promise (id : Z) : M VisClient nat :=
  c ← get;
  let f := length (futures c) in
  match mPromised c !! id with
  | None => put (set_promises (<[id := f]> (mPromised c)) (futures c ++ [Pending]) c)
  | Some _ => put (set_promises (mPromised c) (futures c ++ [Broken]) c)
  end;;
  mret f.

Definition connected_or_connecting (c : VisClient) : bool :=
  negb (bool_decide (mConnectedState c = STATE_DISCONNECTED)).

Definition getProperty (propertyPath : string) : M VisClient (Status * option nat) :=
  c ← get;
  if connected_or_connecting c then
    id ← sendWSMessage requestTemplateGet propertyPath;
    if decide (id < 0) then mret (UNKNOWN_ERROR, None)
    else f ← new_promise id; mret (SOK, Some f)
  else mret (INVALID_STATE, None).

(** The number is taken before it is known whether the request can be sent. *)
Definition setProperty (propertyPath propertyValue : string) : M VisClient (Status * option nat) :=
  c ← get;
  if connected_or_connecting c then
    let id := i32 (mRequestId c + 1) in
    modify (set_id id);;
    r ← sendWSMessage_raw (snprintf_buffer (requestTemplateSet propertyPath propertyValue id));
    if decide (r ≠ 0) then mret (UNKNOWN_ERROR, None)
    else f ← new_promise id; mret (SOK, Some f)
  else mret (INVALID_STATE, None).

Definition insert_request (id : Z) (r : SubscriptionRequest) : M VisClient unit :=
  modify (λ c,
    match mSubscriptionObservers c !! id with
    | Some _ => c
    | None => set_observers (<[id := r]> (mSubscriptionObservers c)) (mObservers c)
                (mRecoverObservers c) c
    end).

Definition subscribeProperty (name : string) (observer : Z) : M VisClient (Status * option nat) :=
  c ← get;
  if connected_or_connecting c then
    id ← sendWSMessage requestTemplateSubscribe name;
    if decide (id < 0) then mret (UNKNOWN_ERROR, None)
    else
      insert_request id (MkRequest observer name id);;
      f ← new_promise id; mret (SOK, Some f)
  else mret (INVALID_STATE, None).

Definition unsubscribe (sid : string) (observer : Z) : M VisClient (Status * option nat) :=
  c ← get;
  if connected_or_connecting c then
    id ← sendWSMessage requestTemplateUnsubscribe sid;
    if decide (id < 0) then mret (UNKNOWN_ERROR, None)
    else
      insert_request id (MkRequest observer sid id);;
      f ← new_promise id; mret (SOK, Some f)
  else mret (INVALID_STATE, None).

Definition unsubscribeAll : M VisClient (Status * option nat) :=
  c ← get;
  if connected_or_connecting c then
    id ← sendWSMessage requestTemplateUnsubscribeAll "unsubscribeAll";
    if decide (id < 0) then mret (UNKNOWN_ERROR, None)
    else f ← new_promise id; mret (SOK, Some f)
  else mret (INVALID_STATE, None).

(** The synchronous calls after the request was made: the state of the future when
    the wait ends ([Pending]: the time ran out). [get] on a broken future throws. *)
Definition await (f : future) : (Status * option WMessageResult) + exn :=
  match f with
  | Pending => inl (UNKNOWN_ERROR, None)
  | Ready r => inl (r_status r, Some r)
  | Broken => inr (logic_error "broken_promise")
  end.

(** ** Connection *)

Definition doInit : M VisClient unit :=
  modify (λ c, add_ws Connect (set_conn STATE_CONNECTING (mWs c) (set_id 0 c))).

(** One turn of the recovery loop. *)
Definition recover_one (sid : Z) (r : SubscriptionRequest) : M VisClient unit :=
  id ← sendWSMessage requestTemplateSubscribe (propertyName r);
  if decide (id < 0) then mret tt
  else
    insert_request id (MkRequest (handler r) (propertyName r) id);;
    new_promise id;;
    modify (λ c, set_observers (mSubscriptionObservers c) (mObservers c)
                   (delete sid (mRecoverObservers c)) c).

(** [poll] without the library's own [mHub.poll()], whose events are below. *)
Fixpoint recover_loop (items : list (Z * SubscriptionRequest)) : M VisClient unit :=
  match items with
  | [] => mret tt
  | (sid, r) :: rest => recover_one sid r;; recover_loop rest
  end.

Definition poll : M VisClient unit :=
  c ← get;
  match mConnectedState c with
  | STATE_DISCONNECTED => doInit
  | STATE_CONNECTED => recover_loop (sorted_entries (mRecoverObservers c))
  | STATE_CONNECTING => mret tt
  end.

Definition handleServerDisconnect : M VisClient unit := modify (set_conn STATE_DISCONNECTED None).
Definition handleError : M VisClient unit := handleServerDisconnect.

Definition close_ws (ws : Z) : M VisClient unit :=
  modify (λ c, set_conn (mConnectedState c) None (add_ws (Close ws) c)).
Definition handleTransfer (ws : Z) : M VisClient unit := close_ws ws.

(** [ssl]: the connection was made with [CONNECTION_MODE_SSL].  Both maps non-empty
    end the process. *)
Definition handleConnection (ws : Z) (ssl : bool) : M VisClient unit :=
  if ssl then
    modify (set_conn STATE_CONNECTED (Some ws));;
    c ← get;
    if decide (mRecoverObservers c ≠ ∅ ∧ mObservers c ≠ ∅)
    then throw (runtime_error "abort")
    else
      modify (set_observers ∅ ∅ (mRecoverObservers c ∪ mObservers c));;
      modify (add_notified true)
  else close_ws ws.

Definition handleDisconnection : M VisClient unit :=
  handleServerDisconnect;; modify (add_notified false).

(** ** Messages *)

(** The members of an object, and of the objects inside it, by name; [None] is the
    [abort] on a scalar.  Members are handled in the order of their names, inner
    objects before the member that holds them. *)
Fixpoint parseJsonToStrings (root : json S) (rootKey : string) (result : CommandResult)
    : option CommandResult :=
  match root with
  | JNull => Some (<[rootKey := JNull]> result)
  | JObject members =>
      (fix go (ms : list (string * json S)) (result : CommandResult) : option CommandResult :=
         match ms with
         | [] => Some result
         | (str, val) :: ms' =>
             result' ← match val with
                       | JObject _ | JArray _ => parseJsonToStrings val str result
                       | _ => Some result
                       end;
             go ms' (<[str := val]> result')
         end) members result
  | JArray l =>
      result' ←
        (fix go (xs : list (json S)) (result : CommandResult) : option CommandResult :=
           match xs with
           | [] => Some result
           | x :: xs' =>
               result' ← match x with
                         | JObject _ => parseJsonToStrings x rootKey result
                         | _ => Some result
                         end;
               go xs' result'
           end) l result;
      let hasNonObject := existsb (λ x, match x with JObject _ => false | _ => true end) l in
      Some (if hasNonObject then <[rootKey := JArray l]> result' else result')
  | JScalar _ => None
  end.

(** [std::stoi(value.asCString())], converted to [size_t] and back to the map's
    [int] keys. *)
Definition json_number (j : json S) : M VisClient Z :=
  match j with
  | JScalar s =>
      match js_asCString s with
      | None => throw (logic_error "json")
      | Some str =>
          match scan_d (bytes_of_string str) with
          | scan_int n => mret n
          | scan_none => throw (logic_error "invalid_argument")
          | scan_undefined => throw out_of_range
          end
      end
  | _ => throw (logic_error "json")
  end.

(** [promise.set_value(r); mPromised.erase(p)]. *)
Definition fulfil (id : Z) (f : nat) (r : WMessageResult) : M VisClient unit :=
  modify (λ c, set_promises (delete id (mPromised c)) (<[f := Ready r]> (futures c)) c).

Definition reply_error (id : Z) : M VisClient unit :=
  c ← get;
  match mPromised c !! id with
  | None => mret tt
  | Some f => fulfil id f (MkResult UNKNOWN_ERROR (u64 id) ∅)
  end.

Definition handleVisResponceGet (result : CommandResult) : M VisClient unit :=
  match result !! kRequestIdTag with
  | None => mret tt
  | Some rid =>
      id ← json_number rid;
      match result !! kErrorTag, result !! kValueTag, result !! kTimestampTag with
      | Some _, _, _ => reply_error id
      | None, Some _, Some _ =>
          c ← get;
          match mPromised c !! id with
          | None => mret tt
          | Some f => fulfil id f (MkResult SOK (u64 id) result)
          end
      | None, _, _ => mret tt
      end
  end.

Definition handleVisResponceSet (result : CommandResult) : M VisClient unit :=
  match result !! kRequestIdTag with
  | None => mret tt
  | Some rid =>
      id ← json_number rid;
      match result !! kErrorTag, result !! kTimestampTag with
      | Some _, _ => reply_error id
      | None, Some _ =>
          c ← get;
          match mPromised c !! id with
          | None => mret tt
          | Some f => fulfil id f (MkResult SOK (u64 id) ∅)
          end
      | None, None => mret tt
      end
  end.

Definition handleVisResponceSubscribe (result : CommandResult) : M VisClient unit :=
  match result !! kRequestIdTag with
  | None => mret tt
  | Some rid =>
      id ← json_number rid;
      match result !! kErrorTag, result !! kSubscriptionIdTag with
      | Some _, _ => reply_error id
      | None, None => mret tt
      | None, Some sidv =>
          sid ← json_number sidv;
          match result !! kTimestampTag with
          | None => mret tt
          | Some _ =>
              c ← get;
              match mSubscriptionObservers c !! id, mPromised c !! id with
              | None, Some f => fulfil id f (MkResult UNKNOWN_ERROR (u64 sid) ∅)
              | Some r, Some f =>
                  modify (set_observers (delete id (mSubscriptionObservers c))
                            (match mObservers c !! sid with
                             | Some _ => mObservers c
                             | None => <[sid := r]> (mObservers c)
                             end) (mRecoverObservers c));;
                  fulfil id f (MkResult SOK (u64 sid) ∅)
              | _, None => mret tt
              end
          end
      end
  end.

Definition handleVisResponceUnsubscribe (result : CommandResult) : M VisClient unit :=
  match result !! kRequestIdTag with
  | None => mret tt
  | Some rid =>
      id ← json_number rid;
      match result !! kSubscriptionIdTag with
      | None => mret tt
      | Some sidv =>
          sid ← json_number sidv;
          match result !! kTimestampTag, result !! kErrorTag with
          | None, _ => mret tt
          | Some _, Some _ => reply_error id
          | Some _, None =>
              c ← get;
              match mPromised c !! id with
              | None => mret tt
              | Some f =>
                  modify (set_observers (delete id (mSubscriptionObservers c))
                            (delete sid (mObservers c)) (mRecoverObservers c));;
                  fulfil id f (MkResult SOK (u64 sid) ∅)
              end
          end
      end
  end.

Definition handleVisResponceUnsubscribeAll (result : CommandResult) : M VisClient unit :=
  match result !! kRequestIdTag with
  | None => mret tt
  | Some rid =>
      id ← json_number rid;
      match result !! kTimestampTag, result !! kErrorTag with
      | None, _ => mret tt
      | Some _, Some _ => reply_error id
      | Some _, None =>
          c ← get;
          match mPromised c !! id with
          | None => mret tt
          | Some f =>
              modify (set_observers (mSubscriptionObservers c) ∅ (mRecoverObservers c));;
              fulfil id f (MkResult SOK 0 ∅)
          end
      end
  end.

Definition handleVisResponceSubscription (result : CommandResult) : M VisClient unit :=
  match result !! kSubscriptionIdTag with
  | None => mret tt
  | Some sidv =>
      sid ← json_number sidv;
      match result !! kValueTag, result !! kTimestampTag with
      | Some _, Some _ =>
          c ← get;
          match mObservers c !! sid with
          | Some r => modify (add_handled (handler r) result)
          | None => mret tt
          end
      | _, _ => mret tt
      end
  end.

Definition json_asString (j : json S) : M VisClient string :=
  match j with
  | JNull => mret EmptyString
  | JScalar s => mret (js_asString s)
  | _ => throw (logic_error "json")
  end.

Definition handleVisResponce (result : CommandResult) : M VisClient unit :=
  match result !! kActionTag with
  | None => throw out_of_range
  | Some a =>
      action ← json_asString a;
      if decide (action = "get") then handleVisResponceGet result
      else if decide (action = "subscribe") then handleVisResponceSubscribe result
      else if decide (action = "subscription") then handleVisResponceSubscription result
      else if decide (action = "unsubscribe") then handleVisResponceUnsubscribe result
      else if decide (action = "unsubscribeAll") then handleVisResponceUnsubscribeAll result
      else if decide (action = "set") then handleVisResponceSet result
      else mret tt
  end.

(** [parsed]: what the reader makes of the text ([None]: it is not JSON). *)
Definition handleMessage (ws : Z) (text : bool) (parsed : option (json S)) : M VisClient unit :=
  if text then
    match parsed with
    | None => mret tt
    | Some root =>
        match parseJsonToStrings root kAllTag ∅ with
        | None => throw (runtime_error "abort")
        | Some result => handleVisResponce result
        end
    end
  else close_ws ws.

(** ** Promises and futures *)

(** The promises kept in the map are exactly those whose futures are pending, each
    under one number. *)
Record promises_ok (c : VisClient) : Prop := {
  prom_pending id f : mPromised c !! id = Some f → futures c !! f = Some Pending;
  prom_inj id1 id2 f : mPromised c !! id1 = Some f → mPromised c !! id2 = Some f → id1 = id2;
}.

(** What an operation may do to futures: settled ones stay as they are. *)
Definition settled_kept (c c' : VisClient) : Prop :=
  ∀ f x, futures c !! f = Some x → x ≠ Pending → futures c' !! f = Some x.

Definition keeps_at {A} (c : VisClient) (m : M VisClient A) : Prop :=
  promises_ok c →
  match m c with
  | Val c' _ | Exc c' _ => promises_ok c' ∧ settled_kept c c'
  | Ub => False
  end.
Definition keeps {A} (m : M VisClient A) : Prop := ∀ c, keeps_at c m.

Lemma keeps_ret {A} (a : A) : keeps (mret a).
Proof. intros c Hc. split; [done|]. by intros f x. Qed.
Lemma keeps_throw {A} e : keeps (throw (A := A) e).
Proof. intros c Hc. split; [done|]. by intros f x. Qed.
Lemma keeps_bind {A B} (m : M VisClient A) (k : A → M VisClient B) :
  keeps m → (∀ a, keeps (k a)) → keeps (m ≫= k).
Proof.
  intros Hm Hk c Hc. specialize (Hm c Hc). unfold mbind, M_bind.
  destruct (m c) as [c1 a|c1 e|]; [|done|done]. destruct Hm as [H1 S1].
  specialize (Hk a c1 H1). unfold settled_kept in *.
  destruct (k a c1); try done; destruct Hk as [H2 S2]; (split; [done|]); intros f x Hf Hx;
    (apply S2; [by apply S1|done]).
Qed.
Lemma keeps_get : keeps get.
Proof. intros c Hc. split; [done|]. by intros f x. Qed.
Lemma keeps_modify f :
  (∀ c, mPromised (f c) = mPromised c ∧ futures (f c) = futures c) → keeps (modify f).
Proof.
  intros Hf c [H1 H2]. cbn. destruct (Hf c) as [E1 E2].
  split; [split; rewrite ?E1, ?E2; done|]. intros g x. by rewrite E2.
Qed.

Lemma keeps_new_promise id : keeps (new_promise id).
Proof.
  intros c [H1 H2]. unfold new_promise. run_m.
  assert (∀ f x, futures c !! f = Some x → (futures c ++ [Pending]) !! f = Some x
                 ∧ (futures c ++ [Broken]) !! f = Some x) as Happ.
  { intros f x Hf. by rewrite !(lookup_app_l_Some _ _ _ _ Hf). }
  destruct (mPromised c !! id) as [f0|] eqn:E; (split; [split|]); cbn.
  - intros id' f Hf. by apply Happ, (H1 id').
  - done.
  - intros f x Hf _. by apply Happ.
  - intros id' f [[_ <-]|[_ Hf]]%lookup_insert_Some.
    + by rewrite lookup_app_r, Nat.sub_diag by done.
    + by apply Happ, (H1 id').
  - assert (∀ id', mPromised c !! id' ≠ Some (length (futures c))) as Hnew.
    { intros id' Hf%H1%lookup_lt_Some. lia. }
    intros id1 id2 f [[<- <-]|[_ Hf1]]%lookup_insert_Some [[<- E2]|[_ Hf2]]%lookup_insert_Some;
      [done|by apply Hnew in Hf2|by subst f; apply Hnew in Hf1|by apply (H2 _ _ f)].
  - intros f x Hf _. by apply Happ.
Qed.

Lemma fulfil_ok c id f r :
  promises_ok c → mPromised c !! id = Some f →
  promises_ok (set_promises (delete id (mPromised c)) (<[f := Ready r]> (futures c)) c)
  ∧ settled_kept c (set_promises (delete id (mPromised c)) (<[f := Ready r]> (futures c)) c).
Proof.
  intros [H1 H2] Hf. split; [split|]; cbn.
  - intros id' f' [Hne Hf']%lookup_delete_Some. rewrite list_lookup_insert_ne; [by apply (H1 id')|].
    intros <-. by destruct (H2 id id' f Hf Hf').
  - intros id1 id2 f' [_ E1]%lookup_delete_Some [_ E2]%lookup_delete_Some. by apply (H2 _ _ f').
  - intros f' x Hx Hne. cbn. rewrite list_lookup_insert_ne; [done|]. intros <-.
    rewrite (H1 _ _ Hf) in Hx. by injection Hx as <-.
Qed.

(** Fulfilling a promise found in the map, after a change of the observers. *)
Lemma keeps_at_fulfil c id f r :
  mPromised c !! id = Some f → keeps_at c (fulfil id f r).
Proof. intros Hf Hc. by apply fulfil_ok. Qed.
Lemma keeps_at_change c id f r g :
  mPromised c !! id = Some f → mPromised (g c) = mPromised c → futures (g c) = futures c →
  keeps_at c (modify g;; fulfil id f r).
Proof.
  intros Hf E1 E2 Hc. unfold fulfil. run_m.
  assert (promises_ok (g c)) as Hc' by (destruct Hc; split; rewrite ?E1, ?E2; done).
  rewrite <- E1 in Hf. destruct (fulfil_ok _ id f r Hc' Hf) as [Ho Hs].
  split; [done|]. intros h x Hg Hx. apply Hs; [|done]. by rewrite E2.
Qed.
Lemma keeps_read {A} (k : VisClient → M VisClient A) :
  (∀ c, keeps_at c (k c)) → keeps (get ≫= k).
Proof. intros Hk c. exact (Hk c). Qed.

Create HintDb keeps discriminated.
#[local] Hint Resolve keeps_ret keeps_throw keeps_get keeps_new_promise : keeps.

Lemma keeps_send_raw m : keeps (sendWSMessage_raw m).
Proof.
  apply keeps_bind; [apply keeps_get|]. intros c. destruct (mWs c); [|apply keeps_ret].
  apply keeps_bind; [by apply keeps_modify|]. intros. apply keeps_ret.
Qed.
Lemma keeps_send t p : keeps (sendWSMessage t p).
Proof.
  apply keeps_bind; [apply keeps_get|]. intros c. destruct (mWs c); [|apply keeps_ret].
  repeat (apply keeps_bind; [by apply keeps_modify|intros []]). apply keeps_ret.
Qed.
Lemma keeps_insert_request id r : keeps (insert_request id r).
Proof. apply keeps_modify. intros c. by destruct (mSubscriptionObservers c !! id). Qed.
Lemma keeps_close ws : keeps (close_ws ws).
Proof. by apply keeps_modify. Qed.
Lemma keeps_json_number j : keeps (json_number j).
Proof.
  destruct j as [|x| |]; cbn [json_number]; auto with keeps.
  destruct (js_asCString x); auto with keeps. destruct (scan_d _); auto with keeps.
Qed.
#[local] Hint Resolve keeps_send keeps_send_raw keeps_insert_request keeps_close
  keeps_json_number : keeps.

(** Sequencing, case distinctions and the primitive steps. *)
Ltac keeps_step :=
  lazymatch goal with
  | |- keeps (get ≫= _) => apply keeps_read; intros
  | |- keeps (_ ≫= _) => apply keeps_bind; [|intros]
  | |- keeps (modify _) => apply keeps_modify; intros; split; reflexivity
  | |- keeps (match ?x with _ => _ end) => destruct x
  | |- keeps _ => solve [auto with keeps]
  | H : mPromised ?c !! ?id = Some ?f |- keeps_at ?c (fulfil ?id ?f _) => by apply keeps_at_fulfil
  | H : mPromised ?c !! ?id = Some ?f |- keeps_at ?c (modify _ ≫= _) =>
      by apply (keeps_at_change c id f)
  | |- keeps_at _ (match ?x with _ => _ end) => destruct x eqn:?
  | |- keeps_at ?c ?m => let H := fresh in assert (keeps m) as H; [|apply H]
  end.
Ltac keeps_auto := repeat keeps_step.

Lemma keeps_reply_error id : keeps (reply_error id).
Proof. unfold reply_error. keeps_auto. Qed.
#[local] Hint Resolve keeps_reply_error : keeps.

Lemma keeps_responce r : keeps (handleVisResponce r).
Proof.
  unfold handleVisResponce, handleVisResponceGet, handleVisResponceSet, handleVisResponceSubscribe,
    handleVisResponceUnsubscribe, handleVisResponceUnsubscribeAll, handleVisResponceSubscription,
    json_asString. keeps_auto.
Qed.
#[local] Hint Resolve keeps_responce : keeps.

Lemma keeps_recover items : keeps (recover_loop items).
Proof. induction items as [|[sid r] items IH]; cbn [recover_loop];
  unfold recover_one; keeps_auto. Qed.
#[local] Hint Resolve keeps_recover : keeps.

(** ** Operations and events in any order *)

Inductive vis_op : Type :=
  | VGet (path : string)
  | VSet (path val : string)
  | VSubscribe (name : string) (observer : Z)
  | VUnsubscribe (sid : string) (observer : Z)
  | VUnsubscribeAll
  | VPoll
  | VConnected (ws : Z) (ssl : bool)
  | VDisconnected
  | VError
  | VTransfer (ws : Z)
  | VMessage (ws : Z) (text : bool) (parsed : option (json S)).

Definition run_vis (o : vis_op) : M VisClient unit :=
  match o with
  | VGet p => getProperty p;; mret tt
  | VSet p v => setProperty p v;; mret tt
  | VSubscribe n h => subscribeProperty n h;; mret tt
  | VUnsubscribe n h => unsubscribe n h;; mret tt
  | VUnsubscribeAll => unsubscribeAll;; mret tt
  | VPoll => poll
  | VConnected ws ssl => handleConnection ws ssl
  | VDisconnected => handleDisconnection
  | VError => handleError
  | VTransfer ws => handleTransfer ws
  | VMessage ws text parsed => handleMessage ws text parsed
  end.

Lemma keeps_op o : keeps (run_vis o).
Proof.
  destruct o; cbn [run_vis]; unfold getProperty, setProperty, subscribeProperty, unsubscribe,
    unsubscribeAll, poll, doInit, handleConnection, handleDisconnection, handleError,
    handleServerDisconnect, handleTransfer, handleMessage; keeps_auto.
Qed.

Lemma keeps_ops ops : keeps (for_each ops run_vis).
Proof.
  induction ops as [|o ops IH]; cbn [for_each]; [apply keeps_ret|].
  apply keeps_bind; [apply keeps_op|done].
Qed.

Lemma new_client_ok : promises_ok new_client.
Proof. split; cbn; intros; by rewrite lookup_empty in *. Qed.

(** C26: whatever requests, messages (well-formed or not), connection losses and
    reconnects happen one after the other, up to a message whose handling throws, a
    future that has its result keeps it, and every number in the table of requests leads
    to exactly one waiting future. *)
Theorem vis_futures_settle_once ops1 ops2 c1 c2 :
  for_each ops1 run_vis new_client = Val c1 tt → for_each ops2 run_vis c1 = Val c2 tt →
  promises_ok c1 ∧ promises_ok c2 ∧ settled_kept c1 c2.
Proof.
  intros E1 E2. pose proof (keeps_ops ops1 new_client new_client_ok) as H1. rewrite E1 in H1.
  destruct H1 as [H1 _]. pose proof (keeps_ops ops2 c1 H1) as H2. rewrite E2 in H2. tauto.
Qed.

(** ** Flattening *)

Lemma bind_total {A B} (o : option A) (k : A → option B) :
  is_Some o → (∀ a, is_Some (k a)) → is_Some (o ≫= k).
Proof. intros [a ->] Hk. apply Hk. Qed.

(** Only a scalar at the root ends the process: below an object or array the
    recursion enters objects and arrays only. *)
Lemma parse_defined root key m :
  (∀ x, root ≠ JScalar x) → is_Some (parseJsonToStrings root key m).
Proof.
  revert root key m. fix IH 1. intros [|x|l|ms] key m Hne; [by eexists|by destruct (Hne x)| |].
  - cbn [parseJsonToStrings]. apply bind_total; [|by eexists]. clear Hne. revert m.
    induction l as [|x l IHl]; intros m; [by eexists|]. apply bind_total; [|intros; apply IHl].
    pose proof (IH x key m) as Hx. destruct x; try by eexists. by apply Hx.
  - cbn [parseJsonToStrings]. clear Hne. revert m.
    induction ms as [|[str val] ms IHl]; intros m; [by eexists|].
    apply bind_total; [|intros; apply IHl]. pose proof (IH val str m) as Hx.
    destruct val; [by eexists|by eexists|by apply Hx|by apply Hx].
Qed.

(** ** A request and its response *)

(** The response to a request in the form the service sends it. *)
Definition get_response (action rid ts : S) (v : json S) : json S :=
  JObject [(kActionTag, JScalar action); (kRequestIdTag, JScalar rid);
           (kTimestampTag, JScalar ts); (kValueTag, v)].

Lemma scan_printed n : is_i32 n → scan_d (bytes_of_string (format_d n)) = scan_int n.
Proof.
  intros Hn. rewrite <- (app_nil_r (bytes_of_string (format_d n))). by apply scan_d_format_d.
Qed.

(** What [sendWSMessage] and the promise do together. *)
Lemma getProperty_run c ws path :
  mConnectedState c = STATE_CONNECTED → mWs c = Some ws → 0 ≤ mRequestId c < 2147483647 →
  getProperty path c
  = Val (match mPromised c !! (mRequestId c + 1) with
         | None => set_promises (<[mRequestId c + 1 := length (futures c)]> (mPromised c))
                     (futures c ++ [Pending])
         | Some _ => set_promises (mPromised c) (futures c ++ [Broken])
         end
           (add_ws (Send ws (snprintf_buffer (requestTemplateGet path (mRequestId c + 1))))
              (set_id (mRequestId c + 1) c))) (SOK, Some (length (futures c))).
Proof.
  intros Hst Hws Hid. unfold getProperty, connected_or_connecting, sendWSMessage, new_promise.
  run_m. rewrite Hst, bool_decide_eq_false_2 by done. cbn [negb]. run_m. rewrite Hws. run_m.
  rewrite !(i32_small (mRequestId c + 1)) by (unfold is_i32; lia).
  rewrite decide_False by lia. cbn [mPromised add_ws set_id].
  by destruct (mPromised c !! (mRequestId c + 1)).
Qed.

(** a request gets its own answer.  While connected, asking for a property sends
    one message with the next number; when the service answers with that number and
    a value that is not an object, exactly this request's future becomes ready with
    that value, and every other future stays as it was. *)
Theorem vis_get_roundtrip c ws path action rid ts x :
  promises_ok c → mConnectedState c = STATE_CONNECTED → mWs c = Some ws →
  0 ≤ mRequestId c < 2147483647 → mPromised c !! (mRequestId c + 1) = None →
  js_asString action = "get" → js_asCString rid = Some (format_d (mRequestId c + 1)) →
  ∃ c1 c2 f r, getProperty path c = Val c1 (SOK, Some f)
    ∧ ws_log c1 = ws_log c ++ [Send ws (snprintf_buffer (requestTemplateGet path (mRequestId c + 1)))]
    ∧ handleMessage ws true (Some (get_response action rid ts (JScalar x))) c1 = Val c2 tt
    ∧ futures c2 !! f = Some (Ready r) ∧ r_status r = SOK
    ∧ r_commandResult r !! kValueTag = Some (JScalar x)
    ∧ (∀ g, g ≠ f → futures c2 !! g = futures c !! g).
Proof.
  intros Hok Hst Hws Hid Hnew Ha Hr. do 4 eexists.
  rewrite (getProperty_run c ws path), Hnew by done.
  split; [reflexivity|]. split; [reflexivity|].
  unfold handleMessage, get_response. cbn [parseJsonToStrings mbind option_bind].
  set (result := <[kValueTag := _]> _). unfold handleVisResponce.
  replace (result !! kActionTag) with (Some (JScalar (S := S) action)) by done.
  unfold json_asString. run_m. rewrite Ha, decide_True by done.
  unfold handleVisResponceGet.
  replace (result !! kRequestIdTag) with (Some (JScalar (S := S) rid)) by done.
  unfold json_number. rewrite Hr, scan_printed by (unfold is_i32; lia). run_m.
  replace (result !! kErrorTag) with (@None (json S)) by done.
  replace (result !! kValueTag) with (Some (JScalar (S := S) x)) by done.
  replace (result !! kTimestampTag) with (Some (JScalar (S := S) ts)) by done.
  cbn [mPromised set_promises]. rewrite lookup_insert_eq. unfold fulfil. run_m.
  split; [reflexivity|]. cbn [futures set_promises].
  split_and!.
  - apply list_lookup_insert_eq. rewrite length_app. cbn. lia.
  - done.
  - done.
  - intros g Hg. rewrite list_lookup_insert_ne by done.
    destruct (decide (g < length (futures c))%nat); [by apply lookup_app_l|].
    rewrite !lookup_ge_None_2; [done|lia|rewrite length_app; cbn; lia].
Qed.

(** an answer whose value is an object with a member [requestId] is taken for the
    answer to that request: the flattening puts the members of inner objects into
    the same map, and [value] comes last. *)
Theorem vis_value_overrides_id action rid ts y :
  ∃ m, parseJsonToStrings (get_response action rid ts (JObject [(kRequestIdTag, JScalar y)])) kAllTag ∅
       = Some m ∧ m !! kRequestIdTag = Some (JScalar y).
Proof. by eexists. Qed.

(** ** Reconnecting *)

(** a reconnect restarts the numbers at one but keeps the table of requests: when
    the first request was never answered, the next one is sent with its number, and
    its own promise is destroyed, so that waiting for it ends with an exception. *)
Theorem vis_reconnect_breaks_request c ws path f0 :
  mPromised c !! 1 = Some f0 → mRecoverObservers c = ∅ →
  ∃ c' f, (handleDisconnection;; poll;; handleConnection ws true;; getProperty path) c
          = Val c' (SOK, Some f)
    ∧ futures c' !! f = Some Broken ∧ await Broken = inr (logic_error "broken_promise").
Proof.
  intros Hp Hr.
  set (c3 := add_notified true (set_observers ∅ ∅ (∅ ∪ mObservers c)
               (set_conn STATE_CONNECTED (Some ws) (add_ws Connect (set_conn STATE_CONNECTING None
                 (set_id 0 (add_notified false (set_conn STATE_DISCONNECTED None c)))))))).
  assert ((handleDisconnection;; poll;; handleConnection ws true;; getProperty path) c
          = getProperty path c3) as ->.
  { unfold handleDisconnection, handleServerDisconnect, poll, doInit, handleConnection. run_m.
    cbn [mConnectedState mRecoverObservers mObservers set_conn add_notified add_ws set_id].
    by rewrite Hr, decide_False by tauto. }
  rewrite (getProperty_run c3 ws path) by (done || (cbn; lia)).
  change (mPromised c3 !! (mRequestId c3 + 1)) with (mPromised c !! 1). rewrite Hp.
  do 2 eexists. split; [reflexivity|]. split; [|done]. cbn.
  by rewrite lookup_app_r, Nat.sub_diag.
Qed.

(** ** Recovery of subscriptions *)

Lemma sendWSMessage_run c ws templ p :
  mWs c = Some ws → 0 ≤ mRequestId c < 2147483647 →
  sendWSMessage templ p c
  = Val (add_ws (Send ws (snprintf_buffer (templ p (mRequestId c + 1))))
           (set_id (mRequestId c + 1) c)) (mRequestId c + 1).
Proof.
  intros Hws Hid. unfold sendWSMessage. run_m. rewrite Hws. run_m.
  by rewrite !(i32_small (mRequestId c + 1)) by (unfold is_i32; lia).
Qed.

(** Numbers not yet given out since the connection was made. *)
Definition requests_below (c : VisClient) : Prop :=
  map_Forall (λ id _, id ≤ mRequestId c) (mSubscriptionObservers c).

Lemma recover_one_run c ws sid r :
  mWs c = Some ws → 0 ≤ mRequestId c < 2147483647 → requests_below c →
  ∃ c', recover_one sid r c = Val c' tt ∧ mWs c' = Some ws ∧ mRequestId c' = mRequestId c + 1
    ∧ mRecoverObservers c' = delete sid (mRecoverObservers c) ∧ mObservers c' = mObservers c
    ∧ mSubscriptionObservers c'
      = <[mRequestId c + 1 := MkRequest (handler r) (propertyName r) (mRequestId c + 1)]>
          (mSubscriptionObservers c)
    ∧ ws_log c' = ws_log c ++ [Send ws (snprintf_buffer
                    (requestTemplateSubscribe (propertyName r) (mRequestId c + 1)))].
Proof.
  intros Hws Hid Hbelow. unfold recover_one.
  rewrite (bind_val _ _ _ _ _ (sendWSMessage_run c ws _ _ Hws Hid)), decide_False by lia.
  unfold insert_request, new_promise. run_m. cbn [mSubscriptionObservers add_ws set_id].
  destruct (mSubscriptionObservers c !! (mRequestId c + 1)) as [r'|] eqn:E.
  { apply Hbelow in E. lia. }
  destruct (mPromised _ !! _); eexists; (split; [reflexivity|]); done.
Qed.

Lemma recover_run items c ws :
  mWs c = Some ws → 0 ≤ mRequestId c → mRequestId c + Z.of_nat (length items) < 2147483648 →
  requests_below c →
  ∃ c', recover_loop items c = Val c' tt
    ∧ (∀ sid, sid ∉ items.*1 → mRecoverObservers c' !! sid = mRecoverObservers c !! sid)
    ∧ (∀ sid, sid ∈ items.*1 → mRecoverObservers c' !! sid = None)
    ∧ mObservers c' = mObservers c
    ∧ mSubscriptionObservers c ⊆ mSubscriptionObservers c' ∧ ws_log c `prefix_of` ws_log c'
    ∧ ∀ sid r, (sid, r) ∈ items →
        ∃ id, mSubscriptionObservers c' !! id = Some (MkRequest (handler r) (propertyName r) id)
          ∧ Send ws (snprintf_buffer (requestTemplateSubscribe (propertyName r) id)) ∈ ws_log c'.
Proof.
  revert c. induction items as [|[sid r] items IH]; intros c Hws Hid Hmax Hbelow.
  { exists c. split_and!; try done; by intros ? ?%not_elem_of_nil || by intros ? ? ?%not_elem_of_nil. }
  cbn [length] in Hmax. destruct (recover_one_run c ws sid r Hws ltac:(lia) Hbelow)
    as (c1 & E1 & Hws1 & Hid1 & Hrec1 & Hobs1 & Hsub1 & Hlog1).
  destruct (IH c1 Hws1) as (c' & E' & Hkeep & Hgone & Hobs & Hsub & Hlog & Hall); [lia|lia| |].
  { unfold requests_below. rewrite Hsub1, Hid1. apply map_Forall_insert_2; [lia|].
    eapply map_Forall_impl; [exact Hbelow|]. intros; cbn in *; lia. }
  exists c'. split_and!.
  - cbn [recover_loop]. by rewrite (bind_val _ _ _ _ _ E1).
  - cbn. intros sid' [Hne Hin]%not_elem_of_cons. by rewrite Hkeep, Hrec1, lookup_delete_ne.
  - cbn. intros sid' Hin. destruct (decide (sid' ∈ items.*1)) as [|Hno]; [by apply Hgone|].
    apply elem_of_cons in Hin as [->|]; [|done]. by rewrite Hkeep, Hrec1, lookup_delete_eq.
  - by rewrite Hobs.
  - etrans; [|exact Hsub]. rewrite Hsub1. apply insert_subseteq.
    destruct (mSubscriptionObservers c !! _) eqn:E; [|done]. apply Hbelow in E. lia.
  - etrans; [|exact Hlog]. rewrite Hlog1. by apply prefix_app_r.
  - intros sid' r' [[= -> ->]|Hin]%elem_of_cons; [|by apply (Hall sid')].
    exists (mRequestId c + 1). split.
    + apply (lookup_weaken (mSubscriptionObservers c1)); [|done]. rewrite Hsub1. apply lookup_insert_eq.
    + destruct Hlog as [k ->]. rewrite Hlog1. apply elem_of_app. left. apply elem_of_app. right.
      by constructor.
Qed.

(** established subscriptions survive a reconnect: with the next poll a subscribe
    request goes out for every observer that was registered when the connection was
    lost, and its answer will be matched with that observer. *)
Theorem vis_observers_recovered c ws :
  mRecoverObservers c = ∅ → Z.of_nat (size (mObservers c)) < 2147483648 →
  ∃ c', (handleDisconnection;; poll;; handleConnection ws true;; poll) c = Val c' tt
    ∧ mRecoverObservers c' = ∅ ∧ mObservers c' = ∅
    ∧ ∀ sid r, mObservers c !! sid = Some r →
        ∃ id, mSubscriptionObservers c' !! id = Some (MkRequest (handler r) (propertyName r) id)
          ∧ Send ws (snprintf_buffer (requestTemplateSubscribe (propertyName r) id)) ∈ ws_log c'.
Proof.
  intros Hr Hsize.
  set (c3 := add_notified true (set_observers ∅ ∅ (∅ ∪ mObservers c)
               (set_conn STATE_CONNECTED (Some ws) (add_ws Connect (set_conn STATE_CONNECTING None
                 (set_id 0 (add_notified false (set_conn STATE_DISCONNECTED None c)))))))).
  assert ((handleDisconnection;; poll;; handleConnection ws true;; poll) c
          = recover_loop (sorted_entries (mRecoverObservers c3)) c3) as ->.
  { unfold handleDisconnection, handleServerDisconnect, poll, doInit, handleConnection. run_m.
    cbn [mConnectedState mRecoverObservers mObservers set_conn add_notified add_ws set_id].
    by rewrite Hr, decide_False by tauto. }
  assert (mRecoverObservers c3 = mObservers c) as Hc3 by (cbn; apply map_empty_union).
  destruct (recover_run (sorted_entries (mRecoverObservers c3)) c3 ws)
    as (c' & E & Hkeep & Hgone & Hobs & _ & _ & Hall); [done|done| |apply map_Forall_empty|].
  { rewrite Hc3. unfold sorted_entries. rewrite merge_sort_Permutation, length_map_to_list.
    cbn. lia. }
  exists c'. split_and!; [done| |by rewrite Hobs|].
  - apply map_empty. intros sid. destruct (mRecoverObservers c' !! sid) as [r|] eqn:Er; [|done].
    destruct (decide (sid ∈ (sorted_entries (mRecoverObservers c3)).*1)) as [Hin|Hno].
    + by rewrite (Hgone _ Hin) in Er.
    + rewrite (Hkeep _ Hno) in Er. destruct Hno. apply list_elem_of_fmap.
      exists (sid, r). split; [done|]. by apply elem_of_sorted_entries.
  - intros sid r Hsid. apply (Hall sid). apply elem_of_sorted_entries. by rewrite Hc3.
Qed.
End client.

(** ** Witnesses: scalars that are strings *)

#[local] Instance string_scalar : JsonScalar string := {|
  js_asCString := Some; js_asString := id; js_isString _ := true; js_isBool _ := false;
  js_asBool _ := false; js_isInt _ := false; js_asInt _ := None; js_isInt64 _ := false;
  js_asInt64 _ := None; js_isReal _ := false; js_asFloat _ := None
|}.

Definition ex_vis_ops : list (vis_op (S := string)) :=
  [VPoll; VConnected 5 true; VSubscribe "*" 77; VGet "Signal.Speed";
   VMessage 5 true (Some (JObject [("action", JScalar "subscribe"); ("requestId", JScalar "1");
                                   ("subscriptionId", JScalar "9"); ("timestamp", JScalar "0")]))].
Definition ex_client : VisClient (S := string) :=
  match for_each ex_vis_ops run_vis new_client with Val c _ => c | _ => new_client end.

Example ex_client_state :
  futures ex_client = [Ready (MkResult SOK 9 ∅); Pending]
  ∧ mObservers ex_client = {[9 := MkRequest 77 "*" 1]} ∧ mPromised ex_client = {[2 := 1%nat]}.
Proof. split_and!; vm_compute; reflexivity. Qed.

Lemma ex_client_run : for_each ex_vis_ops run_vis new_client = Val ex_client tt.
Proof. vm_compute. reflexivity. Qed.

Lemma vis_futures_settle_once_witness :
  promises_ok ex_client ∧ promises_ok ex_client ∧ settled_kept ex_client ex_client.
Proof. apply (vis_futures_settle_once ex_vis_ops []); [exact ex_client_run|reflexivity]. Defined.

Lemma ex_client_ok : promises_ok ex_client.
Proof.
  pose proof (keeps_ops ex_vis_ops new_client new_client_ok) as H. rewrite ex_client_run in H.
  apply H.
Qed.

Lemma vis_get_roundtrip_witness :
  ∃ c1 c2 f r, getProperty "Signal.Rpm" ex_client = Val c1 (SOK, Some f)
    ∧ handleMessage 5 true (Some (get_response "get" "3" "12" (JScalar "850"))) c1 = Val c2 tt
    ∧ futures c2 !! f = Some (Ready r)
    ∧ r_commandResult r !! kValueTag = Some (JScalar "850").
Proof.
  destruct (vis_get_roundtrip ex_client 5 "Signal.Rpm" "get" "3" "12" "850")
    as (c1 & c2 & f & r & E1 & _ & E2 & Hf & _ & Hv & _);
    [exact ex_client_ok|reflexivity|reflexivity|vm_compute; done|reflexivity|reflexivity|reflexivity|].
  exists c1, c2, f, r. exact (conj E1 (conj E2 (conj Hf Hv))).
Defined.

Lemma vis_reconnect_breaks_request_witness :
  let c := match for_each [VPoll; VConnected 5 true; VGet "Signal.Speed"] run_vis new_client with
           | Val c _ => c | _ => new_client (S := string) end in
  ∃ c' f, (handleDisconnection;; poll;; handleConnection 6 true;; getProperty "Signal.Rpm") c
          = Val c' (SOK, Some f) ∧ futures c' !! f = Some Broken.
Proof.
  intros c. destruct (vis_reconnect_breaks_request c 6 "Signal.Rpm" 0%nat) as (c' & f & E & Hf & _);
    [reflexivity|reflexivity|]. exists c', f. exact (conj E Hf).
Defined.

Lemma vis_observers_recovered_witness :
  ∃ c', (handleDisconnection;; poll;; handleConnection 6 true;; poll) ex_client = Val c' tt
    ∧ ∃ id, mSubscriptionObservers c' !! id = Some (MkRequest 77 "*" id).
Proof.
  destruct (vis_observers_recovered ex_client 6) as (c' & E & _ & _ & H); [reflexivity|vm_compute; done|].
  exists c'. split; [exact E|]. destruct (H 9 (MkRequest 77 "*" 1)) as (id & Hid & _); [reflexivity|].
  exists id. exact Hid.
Defined.
