(* ===== verification/VisHal.v ===== *)
(** * Vehicle HAL: the implementation on top of the Vehicle Information Service

    Models android/hardware/xbox/vehicle/common: VisVehicleHal.{h,cpp} and
    RecurrentTimer.h.  It implements the interface [VehicleManager.VehicleHal]: the
    properties live in a [VehiclePropertyStore], values are exchanged with the
    service as JSON, and continuous properties are reported by a timer.

    The service's answers (see [VisClient]) arrive on another thread; an operation
    takes what it would find as a [vis_env]: the connection state, the outcome of the
    synchronous calls, the clock.  The table of properties (DefaultConfig.h, written
    in constants of the HIDL interface) and the parsed mapping file are arguments, as
    is [std::to_string] of a [float]. *)

From Stdlib Require Import SpecFloat.
From S2P Require Import Prelude Utils VehicleStore VehicleSubs VehicleManager VisClient.

(** ** RecurrentTimer *)

Record RecurrentEvent : Type := MkEvent { interval : Z; cookie : Z; absoluteTime : Z }.

(** The remainder of a division by zero is undefined. *)
Definition registerRecurrentEvent (now ival ck : Z) : M (gmap Z RecurrentEvent) unit :=
  if decide (ival = 0) then undefined
  else modify (λ m, <[ck := MkEvent ival ck (now - Z.rem now ival)]> m).

Definition unregisterRecurrentEvent (ck : Z) : M (gmap Z RecurrentEvent) unit :=
  modify (delete ck).

(** The multiplier is an [int]. *)
Definition updateNextEventTime (now : Z) (e : RecurrentEvent) : RecurrentEvent :=
  let m := i32 (Z.quot (now - absoluteTime e) (interval e)) in
  let intervalMultiplier := if decide (m ≤ 0) then 1 else m in
  MkEvent (interval e) (cookie e) (absoluteTime e + intervalMultiplier * interval e).

(** One round of [loop]: the events that are due, their next times, and the time to
    wait for ([None]: for ever). *)
Definition timer_due (now : Z) (m : gmap Z RecurrentEvent) : list Z :=
  (λ e, cookie e.2) <$> filter (λ e, absoluteTime e.2 ≤ now) (map_to_list m).
Definition timer_advance (now : Z) (m : gmap Z RecurrentEvent) : gmap Z RecurrentEvent :=
  (λ e, if decide (absoluteTime e ≤ now) then updateNextEventTime now e else e) <$> m.
Definition timer_next (m : gmap Z RecurrentEvent) : option Z :=
  foldr (λ e acc, Some (match acc with None => absoluteTime e.2
                        | Some t => Z.min t (absoluteTime e.2) end)) None (map_to_list m).

(** ** VisVehicleHal *)

Section hal.
Context {HT : HidlTypes} {S : Type} {JS : JsonScalar S}.
Variable fmt_float : spec_float → string.   (* std::to_string(float) *)

Record VisVehicleHal : Type := MkVisHal {
  mPropStore : VehiclePropertyStore;
  valuePool : VehiclePropValuePool;
  mVPropertyToVisName : gmap RecordId string;
  mVisNameToVProperty : list (string * RecordId);   (* a multimap; equal keys in order of insertion *)
  mMainSubscriptionId : Z;
  mSubscribed : bool;
  mValuesAreDirty : bool;
  mRecurrentTimer : gmap Z RecurrentEvent;
  hal_events : list VehiclePropValue;               (* arguments of doHalEvent *)
}.

Definition in_store {A} (m : M VehiclePropertyStore A) : M VisVehicleHal A :=
  zoom mPropStore
    (λ t h, MkVisHal t (valuePool h) (mVPropertyToVisName h) (mVisNameToVProperty h)
              (mMainSubscriptionId h) (mSubscribed h) (mValuesAreDirty h) (mRecurrentTimer h)
              (hal_events h)) m.
Definition in_pool {A} (m : M VehiclePropValuePool A) : M VisVehicleHal A :=
  zoom valuePool
    (λ t h, MkVisHal (mPropStore h) t (mVPropertyToVisName h) (mVisNameToVProperty h)
              (mMainSubscriptionId h) (mSubscribed h) (mValuesAreDirty h) (mRecurrentTimer h)
              (hal_events h)) m.
Definition in_timer {A} (m : M (gmap Z RecurrentEvent) A) : M VisVehicleHal A :=
  zoom mRecurrentTimer
    (λ t h, MkVisHal (mPropStore h) (valuePool h) (mVPropertyToVisName h) (mVisNameToVProperty h)
              (mMainSubscriptionId h) (mSubscribed h) (mValuesAreDirty h) t (hal_events h)) m.
Definition set_dirty (b : bool) : M VisVehicleHal unit :=
  modify (λ h, MkVisHal (mPropStore h) (valuePool h) (mVPropertyToVisName h) (mVisNameToVProperty h)
                 (mMainSubscriptionId h) (mSubscribed h) b (mRecurrentTimer h) (hal_events h)).
Definition set_subscribed (id : Z) : M VisVehicleHal unit :=
  modify (λ h, MkVisHal (mPropStore h) (valuePool h) (mVPropertyToVisName h) (mVisNameToVProperty h)
                 id true (mValuesAreDirty h) (mRecurrentTimer h) (hal_events h)).
Definition set_mapping (m : gmap RecordId string) (n : list (string * RecordId)) : M VisVehicleHal unit :=
  modify (λ h, MkVisHal (mPropStore h) (valuePool h) m n (mMainSubscriptionId h) (mSubscribed h)
                 (mValuesAreDirty h) (mRecurrentTimer h) (hal_events h)).
Definition doHalEvent (v : VehiclePropValue) : M VisVehicleHal unit :=
  modify (λ h, MkVisHal (mPropStore h) (valuePool h) (mVPropertyToVisName h) (mVisNameToVProperty h)
                 (mMainSubscriptionId h) (mSubscribed h) (mValuesAreDirty h) (mRecurrentTimer h)
                 (hal_events h ++ [v])).

Record vis_env : Type := MkEnv {
  env_connected : bool;                               (* getConnectedState() == STATE_CONNECTED *)
  env_get_all : Status * CommandResult (S := S);      (* getPropertySync("star") *)
  env_set : Status;                                   (* setPropertySync *)
  env_subscribed : option (Status * Z);               (* subscribeProperty and the wait for it *)
  env_now : Z;                                        (* elapsedRealtimeNano, Clock::now *)
}.

(** *** JSON and property values *)

Definition json_isReal (j : json S) : bool :=
  match j with JNull => true | JScalar x => js_isReal x | _ => false end.
Definition json_scalar_is (f : S → bool) (j : json S) : bool :=
  match j with JScalar x => f x | _ => false end.
(** [asInt] and its like: null is zero, other values may throw. *)
Definition json_as {A} (zero : A) (f : S → option A) (j : json S) : M VisVehicleHal A :=
  match j with
  | JNull => mret zero
  | JScalar x => match f x with Some a => mret a | None => throw (logic_error "json") end
  | _ => throw (logic_error "json")
  end.

(** [auto v = pool.obtainX(x); val.value = v->value;], after which [v] is released. *)
Definition via_pool (m : M VehiclePropValuePool RecyclableType) (val : VehiclePropValue)
    : M VisVehicleHal VehiclePropValue :=
  r ← in_pool m;
  match r_ptr r with
  | None => undefined
  | Some v => in_pool (release r);; mret (with_raw val (value v))
  end.

(** The loop over an array: elements beyond the vector are skipped. *)
Fixpoint fill_vec {A} (conv : json S → M VisVehicleHal A) (js : list (json S)) (i : nat) (l : list A)
    : M VisVehicleHal (list A) :=
  match js with
  | [] => mret l
  | j :: rest =>
      if decide (i < length l)%nat then
        a ← conv j; fill_vec conv rest (Datatypes.S i) (<[i := a]> l)
      else fill_vec conv rest (Datatypes.S i) l
  end.

Definition first_is (f : json S → bool) (js : list (json S)) : bool :=
  match js with [] => f JNull | j :: _ => f j end.

(** The result: whether the conversion succeeded, and the value. *)
Definition jsonToVehicle (jval : json S) (val : VehiclePropValue)
    : M VisVehicleHal (bool * VehiclePropValue) :=
  let w := value val in
  match vtype_of (getPropType (prop val)) with
  | Some STRING =>
      match jval with
      | JScalar x =>
          if js_isString x then
            mret (true, with_raw val (MkRaw (int32Values w) (floatValues w) (int64Values w)
                                        (bytesValue w) (js_asString x)))
          else mret (false, val)
      | _ => mret (false, val)
      end
  | Some FLOAT =>
      if json_isReal jval then
        x ← json_as (S754_zero false) js_asFloat jval;
        v ← via_pool (obtainFloat x) val; mret (true, v)
      else mret (false, val)
  | Some INT32 =>
      if json_scalar_is js_isInt jval then
        x ← json_as 0 js_asInt jval; v ← via_pool (obtainInt32 x) val; mret (true, v)
      else mret (false, val)
  | Some INT64 =>
      if json_scalar_is js_isInt64 jval then
        x ← json_as 0 js_asInt64 jval; v ← via_pool (obtainInt64 x) val; mret (true, v)
      else mret (false, val)
  | Some BOOLEAN =>
      match jval with
      | JScalar x =>
          if js_isBool x then
            v ← via_pool (obtainBoolean (js_asBool x)) val; mret (true, v)
          else if js_isInt x then
            n ← json_as 0 js_asInt jval;
            v ← via_pool (obtainBoolean (bool_decide (n ≠ 0))) val; mret (true, v)
          else if js_isInt64 x then
            n ← json_as 0 js_asInt64 jval;
            v ← via_pool (obtainBoolean (bool_decide (n ≠ 0))) val; mret (true, v)
          else mret (false, val)
      | _ => mret (false, val)
      end
  | Some INT32_VEC =>
      match jval with
      | JArray js =>
          if first_is (json_scalar_is js_isInt) js then
            l ← fill_vec (json_as 0 js_asInt) js 0 (int32Values w);
            mret (true, with_raw val (MkRaw l (floatValues w) (int64Values w) (bytesValue w) (stringValue w)))
          else mret (false, val)
      | _ => mret (false, val)
      end
  | Some INT64_VEC =>
      match jval with
      | JArray js =>
          if first_is (json_scalar_is js_isInt64) js then
            l ← fill_vec (json_as 0 js_asInt64) js 0 (int64Values w);
            mret (true, with_raw val (MkRaw (int32Values w) (floatValues w) l (bytesValue w) (stringValue w)))
          else mret (false, val)
      | _ => mret (false, val)
      end
  | Some FLOAT_VEC =>
      match jval with
      | JArray js =>
          if first_is json_isReal js then
            l ← fill_vec (json_as (S754_zero false) js_asFloat) js 0 (floatValues w);
            mret (true, with_raw val (MkRaw (int32Values w) l (int64Values w) (bytesValue w) (stringValue w)))
          else mret (false, val)
      | _ => mret (false, val)
      end
  | Some BYTES | Some MIXED | None => mret (false, val)
  end.

(** [str += x + ","] for every element, then the last character becomes a bracket:
    for an empty vector that is the opening one. *)
Definition vec_string {A} (f : A → string) (l : list A) : string :=
  match l with
  | [] => "]"
  | _ => let body := foldl (λ s x, s +:+ f x +:+ ",") "[" l in
         String.substring 0 (String.length body - 1) body +:+ "]"
  end.

(** The first element of an empty vector is undefined. *)
Definition first_string {A} (f : A → string) (l : list A) : M VisVehicleHal string :=
  match l with [] => undefined | x :: _ => mret (f x) end.

Definition vehiclePropValueToString (val : VehiclePropValue) : M VisVehicleHal string :=
  let w := value val in
  match vtype_of (getPropType (prop val)) with
  | Some STRING => mret (stringValue w)
  | Some FLOAT => first_string fmt_float (floatValues w)
  | Some INT32 | Some BOOLEAN => first_string format_d (int32Values w)
  | Some INT64 => first_string format_d (int64Values w)
  | Some INT32_VEC => mret (vec_string format_d (int32Values w))
  | Some INT64_VEC => mret (vec_string format_d (int64Values w))
  | Some FLOAT_VEC => mret (vec_string fmt_float (floatValues w))
  | Some BYTES | Some MIXED | None => mret ""
  end.

Definition isContinuousProperty (h : VisVehicleHal) (p : Z) : bool :=
  match getConfigOrNull (mPropStore h) p with
  | None => false
  | Some c => bool_decide (changeMode c = CHANGE_CONTINUOUS)
  end.

(** *** Messages of the service *)

(** A copy from the pool with a new time stamp, handed to the manager (which owns it
    from then on). *)
Definition send_event (val : VehiclePropValue) (now : Z) : M VisVehicleHal unit :=
  r ← in_pool (obtain_copy val);
  match r_ptr r with
  | None => undefined
  | Some v => doHalEvent (MkValue now (areaId v) (prop v) (status v) (value v))
  end.

Definition update_property (id : RecordId) (j : json S) (now : Z) : M VisVehicleHal unit :=
  h ← get;
  match readValueOrNull_id (mPropStore h) (id_prop id) (id_area id) 0 with
  | None => mret tt
  | Some val =>
      '(converted, val') ← jsonToVehicle j val;
      if (converted : bool) then
        ok ← in_store (writeValue val' true);
        if (ok : bool) then
          h ← get;
          if isContinuousProperty h (prop val') then mret tt else send_event val' now
        else mret tt
      else mret tt
  end.

Definition equal_range (m : list (string * RecordId)) (name : string) : list RecordId :=
  (filter (λ e, e.1 = name) m).*2.

Definition string_le (p r : string * json S) : Prop := String.leb p.1 r.1 = true.
#[global] Instance string_le_dec p r : Decision (string_le p r).
Proof. unfold string_le. apply _. Defined.
(** [std::map<std::string, Json::Value>] in the order of its keys. *)
Definition result_items (r : CommandResult (S := S)) : list (string * json S) :=
  merge_sort string_le (map_to_list r).

Definition subscriptionHandler (result : CommandResult (S := S)) (now : Z) : M VisVehicleHal unit :=
  for_each (result_items result) (λ item,
    h ← get;
    for_each (equal_range (mVisNameToVProperty h) item.1) (λ id, update_property id item.2 now)).

Definition subscribeToAll (e : vis_env) : M VisVehicleHal unit :=
  match env_subscribed e with
  | Some (SOK, id) => set_subscribed id
  | _ => mret tt
  end.

(** Only the first property a name is mapped to is found. *)
Definition fetch_item (item : string * json S) : M VisVehicleHal unit :=
  h ← get;
  match equal_range (mVisNameToVProperty h) item.1 with
  | [] => mret tt
  | id :: _ =>
      match readValueOrNull_id (mPropStore h) (id_prop id) (id_area id) 0 with
      | None => mret tt
      | Some val =>
          '(converted, val') ← jsonToVehicle item.2 val;
          if (converted : bool) then in_store (writeValue val' false);; mret tt else mret tt
      end
  end.

Definition fetchAllAndSubscribe (e : vis_env) : M VisVehicleHal bool :=
  h ← get;
  if mValuesAreDirty h && env_connected e then
    match env_get_all e with
    | (SOK, result) =>
        for_each (result_items result) fetch_item;;
        subscribeToAll e;;
        set_dirty false;;
        mret true
    | _ => mret false
    end
  else mret false.

(** *** The interface of the HAL *)

Definition area_property (v : VehiclePropValue) : RecordId := MkId (prop v) (areaId v) 0.

(** What [get] and [set] do first for a property that is mapped: [false] is
    [TRY_AGAIN]. *)
Definition refresh (e : vis_env) : M VisVehicleHal bool :=
  h ← get;
  if negb (env_connected e) && mValuesAreDirty h then mret false
  else if mValuesAreDirty h then fetchAllAndSubscribe e
  else mret true.

Definition vis_get (e : vis_env) (requested : VehiclePropValue)
    : M VisVehicleHal (StatusCode * option VehiclePropValue) :=
  h ← get;
  ready ← (if mVPropertyToVisName h !! area_property requested is Some _ then refresh e else mret true);
  if (ready : bool) then
    h ← get;
    match readValueOrNull (mPropStore h) requested with
    | None => mret (INVALID_ARG, None)
    | Some internal =>
        r ← in_pool (obtain_copy internal);
        mret (match r_ptr r with Some v => (OK, Some v) | None => (INVALID_ARG, None) end)
    end
  else mret (TRY_AGAIN, None).

Definition vis_set (e : vis_env) (v : VehiclePropValue) : M VisVehicleHal StatusCode :=
  h ← get;
  sent ← match mVPropertyToVisName h !! area_property v with
         | None => mret true
         | Some _ =>
             ready ← refresh e;
             if (ready : bool) then
               vehiclePropValueToString v;;
               mret (bool_decide (env_set e = SOK))
             else mret false
         end;
  if (sent : bool) then
    ok ← in_store (writeValue v false);
    mret (if (ok : bool) then OK else INVALID_ARG)
  else mret TRY_AGAIN.

(** [1000000000L / hz] in [float], converted to [int64_t]: undefined when the result
    is not a number of that range. *)
Definition giga : spec_float := S754_finite false 15625000 6.
Definition to_int64 (f : spec_float) : option Z :=
  match f with
  | S754_zero _ => Some 0
  | S754_finite s m ex =>
      let a := if decide (0 ≤ ex) then Z.pos m * 2 ^ ex else Z.pos m / 2 ^ (- ex) in
      let z := if s then - a else a in
      if decide (- 2 ^ 63 ≤ z < 2 ^ 63) then Some z else None
  | _ => None
  end.
Definition hertzToNanoseconds (hz : spec_float) : option Z := to_int64 (SFdiv 24 128 giga hz).

Definition vis_subscribe (e : vis_env) (property : Z) (rate : spec_float)
    : M VisVehicleHal StatusCode :=
  fetchAllAndSubscribe e;;
  h ← get;
  (if isContinuousProperty h property then
     match hertzToNanoseconds rate with
     | None => undefined
     | Some ns => in_timer (registerRecurrentEvent (env_now e) ns property)
     end
   else mret tt);;
  mret OK.

Definition vis_unsubscribe (property : Z) : M VisVehicleHal StatusCode :=
  h ← get;
  (if isContinuousProperty h property then in_timer (unregisterRecurrentEvent property)
   else mret tt);;
  mret OK.

Definition listProperties (h : VisVehicleHal) : list VehiclePropConfig := getAllConfigs (mPropStore h).

Definition onVisConnectionStatusUpdate (connected : bool) : M VisVehicleHal unit :=
  if connected then mret tt else set_dirty true.

(** [v] is null again after each event was moved out of it. *)
Definition onContinuousPropertyTimer (properties : list Z) (now : Z) : M VisVehicleHal unit :=
  for_each properties (λ p,
    h ← get;
    if isContinuousProperty h p then
      match readValueOrNull_id (mPropStore h) p 0 0 with
      | None => mret tt
      | Some internal => send_event internal now
      end
    else mret tt).

(** *** Start-up *)

Record ConfigDeclaration : Type := MkDecl {
  d_config : VehiclePropConfig;
  initialValue : RawValue;
  initialAreaValues : gmap Z RawValue;
  initialAreaToVIS : gmap Z string;
}.

Definition initStaticConfig (decls : list ConfigDeclaration) : M VisVehicleHal unit :=
  for_each decls (λ d, in_store (registerProperty (d_config d) None)).

(** [emplace] on both maps: the first keeps an entry that is there. *)
Definition emplace_mapping (id : RecordId) (vis : string) : M VisVehicleHal unit :=
  h ← get;
  set_mapping (match mVPropertyToVisName h !! id with
               | Some _ => mVPropertyToVisName h
               | None => <[id := vis]> (mVPropertyToVisName h)
               end) (mVisNameToVProperty h ++ [(vis, id)]).

Definition create_area (d : ConfigDeclaration) (curArea : Z) : M VisVehicleHal unit :=
  let p := cfg_prop (d_config d) in
  let raw := if decide (initialAreaValues d = ∅) then initialValue d
             else default empty_raw (initialAreaValues d !! curArea) in
  (if decide (initialAreaToVIS d = ∅) then mret tt
   else match initialAreaToVIS d !! curArea with
        | Some vis => emplace_mapping (MkId p curArea 0) vis
        | None => mret tt
        end);;
  in_store (writeValue (MkValue 0 curArea p 0 raw) true);; mret tt.

(** The entries of the mapping file.  An entry for a property that is mapped erases
    it and then reads the erased element. *)
Definition createPropertyMappingsFromConfig (entries : list (Z * Z * string))
    : M VisVehicleHal unit :=
  for_each entries (λ '(androidId, area, vis),
    h ← get;
    match mVPropertyToVisName h !! MkId androidId area 0 with
    | Some _ => undefined
    | None => emplace_mapping (MkId androidId area 0) vis
    end).

Definition onCreate (decls : list ConfigDeclaration) (entries : list (Z * Z * string))
    (e : vis_env) : M VisVehicleHal unit :=
  for_each decls (λ d,
    let p := cfg_prop (d_config d) in
    for_each (if isGlobalProp p then [0] else areaConfigs (d_config d)) (create_area d));;
  createPropertyMappingsFromConfig entries;;
  subscribeToAll e.

(** ** What operations preserve *)

Context {HL : HidlLaws HT}.

Record hal_wf (h : VisVehicleHal) : Prop := {
  wf_store : store_wf (mPropStore h);
  wf_pool : pool_wf (valuePool h);
  wf_max : Z.of_nat (mMaxRecyclableVectorSize (valuePool h)) ≤ 65535;
}.

(** A scalar property holds exactly one element, of its own kind. *)
Definition shaped (v : VehiclePropValue) : Prop :=
  match vtype_of (getPropType (prop v)) with
  | Some BOOLEAN | Some INT32 => ∃ x, value v = MkRaw [x] [] [] [] ""
  | Some FLOAT => ∃ x, value v = MkRaw [] [x] [] [] ""
  | Some INT64 => ∃ x, value v = MkRaw [] [] [x] [] ""
  | _ => True
  end.
Definition values_shaped (s : VehiclePropertyStore) : Prop :=
  map_Forall (λ _ v, shaped v) (mPropertyValues s).

(** An operation that is defined, keeps the invariant and only adds or changes
    values: registered properties stay, mappings stay. *)
Definition stable (h h' : VisVehicleHal) : Prop :=
  hal_wf h' ∧ mConfigs (mPropStore h') = mConfigs (mPropStore h)
  ∧ mVPropertyToVisName h' = mVPropertyToVisName h
  ∧ mVisNameToVProperty h' = mVisNameToVProperty h
  ∧ mRecurrentTimer h' = mRecurrentTimer h
  ∧ (values_shaped (mPropStore h) → values_shaped (mPropStore h')).
Definition safe {A} (m : M VisVehicleHal A) : Prop :=
  ∀ h, hal_wf h →
  match m h with Val h' _ | Exc h' _ => stable h h' | Ub => False end.

Lemma stable_refl h : hal_wf h → stable h h.
Proof. done. Qed.
Lemma stable_trans h1 h2 h3 : stable h1 h2 → stable h2 h3 → stable h1 h3.
Proof.
  intros (_ & E1 & E2 & E3 & E4 & E5) (? & F1 & F2 & F3 & F4 & F5).
  split_and!; [done|congruence..|tauto].
Qed.
Lemma safe_ret {A} (a : A) : safe (mret a).
Proof. by intros h Hh. Qed.
Lemma safe_throw {A} e : safe (throw (A := A) e).
Proof. by intros h Hh. Qed.
Lemma safe_bind {A B} (m : M VisVehicleHal A) (k : A → M VisVehicleHal B) :
  safe m → (∀ a, safe (k a)) → safe (m ≫= k).
Proof.
  intros Hm Hk h Hh. specialize (Hm h Hh). unfold mbind, M_bind.
  destruct (m h) as [h1 a|h1 e|]; [|done|done]. specialize (Hk a h1 (proj1 Hm)).
  destruct (k a h1); try done; by apply (stable_trans _ h1).
Qed.
Lemma safe_get_bind {B} (k : VisVehicleHal → M VisVehicleHal B) :
  (∀ h, hal_wf h → match k h h with Val h' _ | Exc h' _ => stable h h' | Ub => False end) →
  safe (get ≫= k).
Proof. intros Hk h Hh. by apply Hk. Qed.
Lemma safe_modify f : (∀ h, hal_wf h → stable h (f h)) → safe (modify f).
Proof. intros Hf h Hh. by apply Hf. Qed.
Lemma safe_for_each {X} (l : list X) f : (∀ x, safe (f x)) → safe (for_each l f).
Proof.
  intros Hf. induction l; cbn [for_each]; [apply safe_ret|]. by apply safe_bind.
Qed.

Lemma in_pool_stable h p' :
  hal_wf h → pool_wf p' → mMaxRecyclableVectorSize p' = mMaxRecyclableVectorSize (valuePool h) →
  stable h (MkVisHal (mPropStore h) p' (mVPropertyToVisName h) (mVisNameToVProperty h)
              (mMainSubscriptionId h) (mSubscribed h) (mValuesAreDirty h) (mRecurrentTimer h)
              (hal_events h)).
Proof. intros [H1 H2 H3] Hp Hm. split_and!; try done. split; cbn; [done..|]. by rewrite Hm. Qed.

Lemma write_shaped s v u s' b :
  store_wf s → shaped v → values_shaped s → writeValue v u s = Val s' b → values_shaped s'.
Proof.
  intros [_ Hwf] Hv Hs. unfold writeValue. run_m.
  destruct (mConfigs s !! prop v) as [rc|] eqn:Erc; [|by intros [= <- _]].
  intros [= <- _]. apply map_Forall_insert_2; [|exact Hs]. unfold getValueOrNullLocked.
  destruct (mPropertyValues s !! getRecordIdLocked s v) as [old|] eqn:Eo; [|done].
  unfold shaped in *. cbn [prop value]. destruct (Hwf _ _ Eo) as (-> & _).
  unfold getRecordIdLocked. rewrite Erc. exact Hv.
Qed.

Lemma write_run h v u :
  hal_wf h → value_ok v →
  ∃ h' b, in_store (writeValue v u) h = Val h' b ∧ hal_wf h'
    ∧ mConfigs (mPropStore h') = mConfigs (mPropStore h)
    ∧ (shaped v → stable h h')
    ∧ mVPropertyToVisName h' = mVPropertyToVisName h ∧ mValuesAreDirty h' = mValuesAreDirty h
    ∧ writeValue v u (mPropStore h) = Val (mPropStore h') b.
Proof.
  intros Hh Hv. pose proof Hh as [H1 H2 H3].
  destruct (write_wf _ v u H1 Hv) as (s' & b & E & Hs').
  assert (mConfigs s' = mConfigs (mPropStore h)) as Hc.
  { unfold writeValue in E. run_m_in E.
    destruct (mConfigs (mPropStore h) !! prop v); by injection E as <- _. }
  exists (MkVisHal s' (valuePool h) (mVPropertyToVisName h) (mVisNameToVProperty h)
            (mMainSubscriptionId h) (mSubscribed h) (mValuesAreDirty h) (mRecurrentTimer h)
            (hal_events h)), b.
  unfold in_store, zoom. rewrite E. split_and!; try done.
  intros Hsh. split_and!; try done. intros Hss. by apply (write_shaped _ _ _ _ _ H1 Hsh Hss E).
Qed.

(** Conversions through the pool leave the rest of the value alone. *)
Lemma via_pool_spec h m val w :
  hal_wf h → obtains (valuePool h) m w →
  ∃ h', via_pool m val h = Val h' (with_raw val w) ∧ stable h h'.
Proof.
  intros Hh (p1 & v & d & E & Hw & Hp1 & Hm1). unfold via_pool, in_pool. run_m. rewrite E.
  cbn [valuePool r_ptr]. destruct (release (MkRecyclable (Some v) d) p1) as [p2 []| |] eqn:E2; [|done..].
  destruct (release_wf _ _ _ Hp1 E2) as [Hp2 Hm2]. eexists. split; [by rewrite Hw|].
  by apply (in_pool_stable h p2); [| |rewrite Hm2].
Qed.

Lemma fill_vec_safe {A} (conv : json S → M VisVehicleHal A) js i l :
  (∀ j, safe (conv j)) →
  ∀ h, hal_wf h → match fill_vec conv js i l h with
                  | Val h' l' => stable h h' ∧ length l' = length l
                  | Exc h' _ => stable h h' | Ub => False end.
Proof.
  intros Hconv. revert i l. induction js as [|j js IH]; intros i l h Hh; cbn [fill_vec]; [done|].
  destruct (decide _); [|by apply IH]. specialize (Hconv j h Hh). unfold mbind, M_bind.
  destruct (conv j h) as [h1 a| |]; [|done..].
  specialize (IH (Datatypes.S i) (<[i := a]> l) h1 (proj1 Hconv)).
  destruct (fill_vec _ _ _ _ h1) as [h2 l2| |]; [|by apply (stable_trans _ h1)|done].
  destruct IH as [Hst Hlen]. split; [by apply (stable_trans _ h1)|].
  by rewrite Hlen, length_insert.
Qed.

Lemma json_as_safe {A} (z : A) f j : safe (json_as z f j).
Proof.
  destruct j as [|x| |]; cbn; [apply safe_ret| |apply safe_throw..].
  destruct (f x); [apply safe_ret|apply safe_throw].
Qed.

(** The shape of a value: which vector holds how many elements. *)
Definition same_shape (w w' : RawValue) : Prop :=
  length (int32Values w') = length (int32Values w) ∧ length (floatValues w') = length (floatValues w)
  ∧ length (int64Values w') = length (int64Values w) ∧ length (bytesValue w') = length (bytesValue w).
Definition json_typed (val val' : VehiclePropValue) : Prop :=
  ∃ w, val' = with_raw val w
    ∧ match vtype_of (getPropType (prop val)) with
      | Some BOOLEAN | Some INT32 => ∃ x, w = MkRaw [x] [] [] [] ""
      | Some FLOAT => ∃ x, w = MkRaw [] [x] [] [] ""
      | Some INT64 => ∃ x, w = MkRaw [] [] [x] [] ""
      | Some _ => same_shape (value val) w
      | None => False
      end.

(** The outcome of a conversion. *)
Definition json_outcome (h : VisVehicleHal) (val : VehiclePropValue)
    (o : outcome VisVehicleHal (bool * VehiclePropValue)) : Prop :=
  match o with
  | Val h' (true, val') => stable h h' ∧ json_typed val val'
  | Val h' (false, val') => stable h h' ∧ val' = val
  | Exc h' _ => stable h h'
  | Ub => False
  end.

(** Read a number, pass it through the pool. *)
Lemma convert_scalar {A} h val (z : A) f j (mk : A → M VehiclePropValuePool RecyclableType)
    (w : A → RawValue) :
  hal_wf h →
  (∀ a p, pool_wf p → Z.of_nat (mMaxRecyclableVectorSize p) ≤ 65535 → obtains p (mk a) (w a)) →
  (∀ a, json_typed val (with_raw val (w a))) →
  json_outcome h val
    ((x ← json_as z f j; v ← via_pool (mk x) val; mret (true, v)) h).
Proof.
  intros Hh Hmk Hty. pose proof (json_as_safe z f j h Hh) as Hj. unfold mbind at 1. unfold M_bind.
  destruct (json_as z f j h) as [h1 a| |]; [|done..].
  destruct (via_pool_spec h1 (mk a) val (w a) (proj1 Hj)) as (h2 & E & Hst).
  { apply Hmk; apply Hj. }
  rewrite (bind_val _ _ _ _ _ E). cbn. split; [by apply (stable_trans _ h1)|apply Hty].
Qed.

Lemma convert_vec {A} h val (z : A) f js l (build : list A → RawValue) :
  hal_wf h → (∀ l', length l' = length l → json_typed val (with_raw val (build l'))) →
  json_outcome h val
    ((l' ← fill_vec (json_as z f) js 0 l; mret (true, with_raw val (build l'))) h).
Proof.
  intros Hh Hty. pose proof (fill_vec_safe (json_as z f) js 0 l (json_as_safe z f) h Hh) as Hf.
  unfold mbind, M_bind. destruct (fill_vec _ _ _ _ h) as [h1 l'| |]; [|done..].
  destruct Hf as [Hst Hlen]. cbn. split; [done|by apply Hty].
Qed.

(** A JSON value received for a property either changes nothing or gives a value
    of the property's type: one element of the right kind for a scalar (also when the
    object that carries it came back from the pool), a vector of unchanged length for
    a vector; identity, area, status and time stamp stay.  Conversions may throw, but
    are never undefined. *)
Lemma jsonToVehicle_outcome h jval val :
  hal_wf h → json_outcome h val (jsonToVehicle jval val h).
Proof.
  intros Hh. unfold jsonToVehicle.
  assert (json_outcome h val (Val h (false, val))) as Hno by done.
  destruct (vtype_of (getPropType (prop val))) as [t|] eqn:Et; [|done].
  assert (∀ w, match t with
               | BOOLEAN | INT32 => ∃ x, w = MkRaw [x] [] [] [] ""
               | FLOAT => ∃ x, w = MkRaw [] [x] [] [] ""
               | INT64 => ∃ x, w = MkRaw [] [] [x] [] ""
               | _ => same_shape (value val) w
               end → json_typed val (with_raw val w)) as Hty.
  { intros w Hw. exists w. rewrite Et. split; [done|]. by destruct t. }
  destruct t; try done.
  - destruct jval as [|x| |]; try done. destruct (js_isString x); [|done]. cbn. split; [done|].
    by apply Hty.
  - assert (∀ a p, pool_wf p → Z.of_nat (mMaxRecyclableVectorSize p) ≤ 65535 →
              obtains p (obtainBoolean a) (MkRaw [if a then 1 else 0] [] [] [] "")) as Hb.
    { intros a p Hp Hm. by apply obtainInt32_spec. }
    destruct jval as [|x| |]; try done. destruct (js_isBool x).
    { apply (convert_scalar h val true (λ x, Some (js_asBool x)) (JScalar x) obtainBoolean
               (λ a, MkRaw [if a then 1 else 0] [] [] [] "")); [done|done|]. intros a. apply Hty. eauto. }
    destruct (js_isInt x); [|destruct (js_isInt64 x); [|done]];
      (apply (convert_scalar h val _ _ _ (λ n, obtainBoolean (bool_decide (n ≠ 0)))
                (λ n, MkRaw [if bool_decide (n ≠ 0) then 1 else 0] [] [] [] ""));
       [done|intros; by apply Hb|intros; apply Hty; eauto]).
  - destruct (json_scalar_is js_isInt jval); [|done].
    apply (convert_scalar h val _ _ _ obtainInt32 (λ x, MkRaw [x] [] [] [] ""));
      [done|intros; by apply obtainInt32_spec|intros; apply Hty; eauto].
  - destruct jval; try done. destruct (first_is _ _); [|done].
    apply (convert_vec h val 0 js_asInt l (int32Values (value val)) (λ l, MkRaw l _ _ _ _)); [done|].
    intros l' Hl. by apply Hty.
  - destruct (json_scalar_is js_isInt64 jval); [|done].
    apply (convert_scalar h val _ _ _ obtainInt64 (λ x, MkRaw [] [] [x] [] ""));
      [done|intros; by apply obtainInt64_spec|intros; apply Hty; eauto].
  - destruct jval; try done. destruct (first_is _ _); [|done].
    apply (convert_vec h val 0 js_asInt64 l (int64Values (value val)) (λ l, MkRaw _ _ l _ _)); [done|].
    intros l' Hl. by apply Hty.
  - destruct (json_isReal jval); [|done].
    apply (convert_scalar h val _ _ _ obtainFloat (λ x, MkRaw [] [x] [] [] ""));
      [done|intros; by apply obtainFloat_spec|intros; apply Hty; eauto].
  - destruct jval; try done. destruct (first_is _ _); [|done].
    apply (convert_vec h val _ js_asFloat l (floatValues (value val)) (λ l, MkRaw _ l _ _ _)); [done|].
    intros l' Hl. by apply Hty.
Qed.

Lemma json_typed_shaped val val' : json_typed val val' → shaped val'.
Proof.
  intros (w & -> & Hw). unfold shaped, with_raw. cbn [prop value].
  destruct (vtype_of (getPropType (prop val))) as [[]|]; done.
Qed.
Lemma json_typed_ids val val' :
  json_typed val val' → prop val' = prop val ∧ areaId val' = areaId val
  ∧ is_Some (vtype_of (getPropType (prop val))).
Proof.
  intros (w & -> & Hw). destruct (vtype_of (getPropType (prop val))) as [t|]; [|done].
  by split_and!.
Qed.

(** A value read by property and area can be written back. *)
Lemma read_value_ok h p a t v :
  hal_wf h → readValueOrNull_id (mPropStore h) p a t = Some v → value_ok v.
Proof.
  intros Hh Hr. destruct (wf_store _ Hh) as [_ Hwf].
  destruct (Hwf _ _ Hr) as (Hp & _ & Hi & _ & Ha & _). split; [|done]. by rewrite Hp.
Qed.

Lemma send_event_safe val now :
  is_Some (vtype_of (getPropType (prop val))) → safe (send_event val now).
Proof.
  intros Hty h Hh. pose proof Hh as [H1 H2 H3]. unfold send_event, in_pool. run_m.
  destruct (obtain_copy_spec (valuePool h) val H2 H3 Hty) as (p' & r & E & Hp' & Hm & Hr).
  rewrite E. rewrite decide_False in Hr.
  - rewrite Hr. unfold doHalEvent. run_m. split_and!; try done. split; cbn; [done..|]. by rewrite Hm.
  - intros Hinv. destruct Hty as [t Ht]. apply vtype_of_Some in Ht.
    apply (invalid_untyped t). rewrite <- Ht. unfold getPropType. by rewrite Hinv.
Qed.

(** Convert, then write: the common part of the two ways a value arrives. *)
Lemma convert_and_write h j val u (k : VehiclePropValue → M VisVehicleHal unit) :
  hal_wf h → value_ok val →
  (∀ v, is_Some (vtype_of (getPropType (prop v))) → safe (k v)) →
  match ('(converted, val') ← jsonToVehicle j val;
         if (converted : bool) then
           ok ← in_store (writeValue val' u);
           if (ok : bool) then k val' else mret tt
         else mret tt) h with
  | Val h' _ | Exc h' _ => stable h h' | Ub => False
  end.
Proof.
  intros Hh Hv Hk. pose proof (jsonToVehicle_outcome h j val Hh) as Ho.
  unfold mbind at 1. unfold M_bind.
  destruct (jsonToVehicle j val h) as [h1 [[] val']| |]; cbn in Ho; [| |done|done].
  - destruct Ho as [Hst1 Hty]. destruct (json_typed_ids _ _ Hty) as (Hp & Ha & Hknown).
    assert (value_ok val') as Hv' by (destruct Hv; split; congruence).
    destruct (write_run h1 val' u (proj1 Hst1) Hv') as (h2 & b & E & Hw2 & _ & Hst2 & _).
    rewrite (bind_val _ _ _ _ _ E). specialize (Hst2 (json_typed_shaped _ _ Hty)).
    pose proof (stable_trans _ _ _ Hst1 Hst2) as Hst. destruct b; [|done].
    rewrite <- Hp in Hknown. specialize (Hk val' Hknown h2 Hw2).
    destruct (k val' h2); try done; by apply (stable_trans _ h2).
  - by destruct Ho as [Hst1 ->].
Qed.

Lemma update_property_safe id j now : safe (update_property id j now).
Proof.
  apply safe_get_bind. intros h Hh.
  destruct (readValueOrNull_id _ _ _ _) as [val|] eqn:Er; [|done].
  apply (convert_and_write h j val true (λ v, h ← get;
           if isContinuousProperty h (prop v) then mret tt else send_event v now)); [done| |].
  - by apply (read_value_ok h _ _ _ _ Hh Er).
  - intros v Hty. apply safe_get_bind. intros h1 Hh1.
    destruct (isContinuousProperty h1 (prop v)); [done|]. by apply send_event_safe.
Qed.

Lemma subscriptionHandler_safe result now : safe (subscriptionHandler result now).
Proof.
  apply safe_for_each. intros item. apply safe_get_bind. intros h Hh.
  apply safe_for_each; [|done]. intros id. apply update_property_safe.
Qed.

Lemma fetch_item_safe item : safe (fetch_item item).
Proof.
  apply safe_get_bind. intros h Hh. destruct (equal_range _ _) as [|id rest]; [done|].
  destruct (readValueOrNull_id _ _ _ _) as [val|] eqn:Er; [|done].
  pose proof (convert_and_write h item.2 val false (λ _, mret tt) Hh) as Hc.
  specialize (Hc (read_value_ok h _ _ _ _ Hh Er) (λ _ _, safe_ret tt)). revert Hc.
  unfold mbind, M_bind. destruct (jsonToVehicle item.2 val h) as [h1 [[] val']| |]; try done.
  destruct (in_store _ h1) as [h2 []| |]; done.
Qed.

Lemma subscribeToAll_safe e : safe (subscribeToAll e).
Proof.
  unfold subscribeToAll. destruct (env_subscribed e) as [[[] id]|]; try apply safe_ret.
  apply safe_modify. intros h [H1 H2 H3]. by split_and!.
Qed.
Lemma set_dirty_safe b : safe (set_dirty b).
Proof. apply safe_modify. intros h [H1 H2 H3]. by split_and!. Qed.

(** After a successful refresh the values are not dirty. *)
Lemma refresh_run e h :
  hal_wf h →
  match refresh e h with
  | Val h' b => stable h h' ∧ (b = true → mValuesAreDirty h' = false)
  | Exc h' _ => stable h h'
  | Ub => False
  end.
Proof.
  intros Hh. unfold refresh, fetchAllAndSubscribe. unfold mbind at 1. unfold M_bind, get at 1.
  destruct (mValuesAreDirty h) eqn:Ed, (env_connected e); cbn [negb andb]; try done.
  unfold mbind at 1. unfold M_bind, get at 1. rewrite Ed. cbn [andb].
  destruct (env_get_all e) as [[] result]; try done.
  assert (safe (for_each (result_items result) fetch_item;; subscribeToAll e;; set_dirty false)) as Hs.
  { apply safe_bind; [apply safe_for_each, fetch_item_safe|]. intros [].
    apply safe_bind; [apply subscribeToAll_safe|]. intros []. apply set_dirty_safe. }
  specialize (Hs h Hh). revert Hs. unfold mbind, M_bind.
  destruct (for_each _ _ h) as [h1 []| |]; try done.
  destruct (subscribeToAll e h1) as [h2 []| |]; done.
Qed.

(** no message of the service can put a value of the wrong shape into the store
    or make the HAL undefined: on a well-formed store whose scalar properties hold one
    element of their kind, handling any message ends (possibly with an exception of
    the JSON library) with such a store, the same properties and the same mappings. *)
Theorem vis_messages_typed h result now :
  hal_wf h → values_shaped (mPropStore h) →
  match subscriptionHandler result now h with
  | Val h' _ | Exc h' _ =>
      hal_wf h' ∧ values_shaped (mPropStore h')
      ∧ mConfigs (mPropStore h') = mConfigs (mPropStore h)
      ∧ mVisNameToVProperty h' = mVisNameToVProperty h
  | Ub => False
  end.
Proof.
  intros Hh Hs. pose proof (subscriptionHandler_safe result now h Hh) as H.
  destruct (subscriptionHandler result now h); try done;
    destruct H as (H1 & H2 & H3 & H4 & H5 & H6); split_and!; auto.
Qed.

Lemma record_id_config s s' v :
  mConfigs s' = mConfigs s → getRecordIdLocked s' v = getRecordIdLocked s v.
Proof. intros Hc. unfold getRecordIdLocked. by rewrite Hc. Qed.

(** Reading from a HAL that need not be refreshed. *)
Lemma get_clean e v h w :
  hal_wf h → (mVPropertyToVisName h !! area_property v = None ∨ mValuesAreDirty h = false) →
  readValueOrNull (mPropStore h) v = Some w → is_Some (vtype_of (getPropType (prop w))) →
  ∃ h', vis_get e v h = Val h' (OK, Some w).
Proof.
  intros Hh Hclean Hr Hty.
  assert (Val h true = (if mVPropertyToVisName h !! area_property v is Some _ then refresh e
                        else mret true) h) as Hready.
  { destruct Hclean as [Hn|Hd]; [by rewrite Hn|].
    destruct (mVPropertyToVisName h !! _); [|done]. unfold refresh. run_m. rewrite Hd.
    by rewrite andb_false_r. }
  unfold vis_get. unfold mbind at 1 2. unfold M_bind, get at 1. rewrite <- Hready.
  unfold mbind at 1. unfold M_bind, get at 1. rewrite Hr.
  destruct (obtain_copy_spec (valuePool h) w (wf_pool _ Hh) (wf_max _ Hh) Hty)
    as (p' & r & Ep & _ & _ & Hptr).
  unfold in_pool. run_m. rewrite Ep. rewrite decide_False in Hptr; [rewrite Hptr; by eexists|].
  intros Hinv. destruct Hty as [t Ht]. apply vtype_of_Some in Ht. rewrite Hinv in Ht.
  by apply (invalid_untyped t).
Qed.

Lemma write_then_get e v h h' :
  hal_wf h → value_ok v → is_Some (vtype_of (getPropType (prop v))) →
  (mVPropertyToVisName h !! area_property v = None ∨ mValuesAreDirty h = false) →
  (ok ← in_store (writeValue v false); mret (if (ok : bool) then OK else INVALID_ARG)) h = Val h' OK →
  ∃ h'' w, vis_get e v h' = Val h'' (OK, Some w)
    ∧ value w = value v ∧ timestamp w = timestamp v ∧ prop w = prop v.
Proof.
  intros Hh Hv Hty Hclean.
  destruct (write_run h v false Hh Hv) as (h2 & b & E & Hw2 & Hc2 & _ & Hn2 & Hd2 & Ew).
  rewrite (bind_val _ _ _ _ _ E). destruct b; [|done]. intros [= ->].
  assert (∃ w, readValueOrNull (mPropStore h') v = Some w
           ∧ value w = value v ∧ timestamp w = timestamp v ∧ prop w = prop v) as (w & Hr & ? & ? & Hp).
  { unfold readValueOrNull, getValueOrNullLocked. rewrite (record_id_config _ _ v Hc2).
    unfold writeValue in Ew. run_m_in Ew. destruct (mConfigs (mPropStore h) !! prop v) eqn:Erc; [|done].
    injection Ew as Es. rewrite <- Es. cbn [mPropertyValues]. rewrite lookup_insert_eq.
    eexists. split; [done|]. destruct (getValueOrNullLocked _ _) as [old|] eqn:Eo; [|done].
    destruct (wf_store _ Hh) as [_ Hwf]. destruct (Hwf _ _ Eo) as (Hp & _). cbn.
    split_and!; try done. rewrite Hp. unfold getRecordIdLocked. by rewrite Erc. }
  destruct (get_clean e v h' w Hw2) as [h'' E'']; [by rewrite Hn2, Hd2|done|by rewrite Hp|].
  by exists h'', w.
Qed.

(** a value that was set can be read back: once [set] has answered OK, [get] with
    the same property and area answers OK with the data and time stamp of that value,
    whatever the connection does in between. *)
Theorem vis_set_get h e e' v h' :
  hal_wf h → value_ok v → is_Some (vtype_of (getPropType (prop v))) →
  vis_set e v h = Val h' OK →
  ∃ h'' w, vis_get e' v h' = Val h'' (OK, Some w)
    ∧ value w = value v ∧ timestamp w = timestamp v ∧ prop w = prop v.
Proof.
  intros Hh Hv Hty. unfold vis_set.
  intros (h0 & a & [= <- <-] & E)%bind_inv. apply bind_inv in E as (h1 & sent & E1 & E2).
  destruct sent; [|done]. destruct (mVPropertyToVisName h !! area_property v) eqn:En.
  - apply bind_inv in E1 as (h2 & ready & Er & E3). pose proof (refresh_run e h Hh) as Hr.
    rewrite Er in Hr. destruct ready; [|done]. apply bind_inv in E3 as (h3 & str & Es & [= <- _]).
    assert (h3 = h2) as ->.
    { unfold vehiclePropValueToString, first_string in Es.
      repeat (case_match; try discriminate Es; try (by injection Es as -> _)). }
    apply (write_then_get _ v h2); [apply Hr|done|done|right; by apply Hr|done].
  - injection E1 as <-. apply (write_then_get _ v h); [done..|by left|done].
Qed.

(** the mapping file can be loaded exactly when it mentions no property that has a
    mapping already, from the built-in table or from an earlier line: otherwise the
    entry is erased and then read. *)
Theorem vis_mapping_defined h entries :
  is_Some (match createPropertyMappingsFromConfig entries h with
           | Val h' _ => Some h' | _ => None end)
  ↔ NoDup ((λ e, MkId e.1.1 e.1.2 0) <$> entries)
    ∧ ∀ e, e ∈ entries → mVPropertyToVisName h !! MkId e.1.1 e.1.2 0 = None.
Proof.
  unfold createPropertyMappingsFromConfig. revert h.
  induction entries as [|[[p a] vis] entries IH]; intros h; cbn [for_each].
  { split; [|by eexists]. intros _. split; [constructor|]. by intros e ?%not_elem_of_nil. }
  unfold mbind at 1. unfold M_bind. unfold mbind at 1. unfold M_bind, get at 1.
  destruct (mVPropertyToVisName h !! MkId p a 0) as [x|] eqn:E; cbn [undefined].
  { split; [by intros []|]. intros [_ Hall]. specialize (Hall (p, a, vis)). cbn in Hall.
    rewrite E in Hall. discriminate Hall. by constructor. }
  unfold emplace_mapping, set_mapping. run_m. rewrite E. run_m_in IH. rewrite IH.
  cbn [mVPropertyToVisName fmap list_fmap fst snd]. rewrite list.NoDup_cons.
  split.
  - intros [Hnd Hall]. split_and!; [|done|].
    + intros [[[p' a'] v'] [[= -> ->] Hin]]%list_elem_of_fmap. apply Hall in Hin. cbn in Hin.
      by rewrite lookup_insert_eq in Hin.
    + intros e [->|Hin]%elem_of_cons; [done|]. apply Hall in Hin.
      by apply lookup_insert_None in Hin as [Hin _].
  - intros [[Hno Hnd] Hall]. split; [done|]. intros e Hin. apply lookup_insert_None. split.
    + apply Hall. by constructor.
    + intros Heq. apply Hno. apply list_elem_of_fmap. by exists e.
Qed.
End hal.

(** ** The timer *)

(** Times are multiples of the intervals, as the comment in the code promises. *)
Definition timer_ok (m : gmap Z RecurrentEvent) : Prop :=
  map_Forall (λ k e, cookie e = k ∧ 0 < interval e ∧ (interval e | absoluteTime e)) m.

Lemma register_ok now ival ck m m' :
  timer_ok m → 0 < ival → registerRecurrentEvent now ival ck m = Val m' tt → timer_ok m'.
Proof.
  intros Hm Hi. unfold registerRecurrentEvent. rewrite decide_False by lia. intros [= <-].
  apply map_Forall_insert_2; [|done]. split_and!; [done|done|]. cbn.
  pose proof (Z.quot_rem' now ival). exists (Z.quot now ival). lia.
Qed.

(** one round of the timer reports exactly the events that are due, keeps every
    event at a multiple of its interval, and moves each due event to within one
    interval of the current time (past it, if it was less than an interval late). *)
Theorem timer_round now m :
  timer_ok m →
  timer_ok (timer_advance now m)
  ∧ (∀ k, k ∈ timer_due now m ↔ ∃ e, m !! k = Some e ∧ absoluteTime e ≤ now)
  ∧ ∀ k e, m !! k = Some e → absoluteTime e ≤ now → now - absoluteTime e < 2147483648 * interval e →
      ∃ e', timer_advance now m !! k = Some e' ∧ interval e' = interval e
        ∧ now - interval e < absoluteTime e' ≤ now + interval e
        ∧ (now - absoluteTime e < interval e → now < absoluteTime e').
Proof.
  intros Hm. split_and!.
  - intros k e'. unfold timer_advance. rewrite lookup_fmap.
    destruct (m !! k) as [e|] eqn:E; [|done]. cbn. intros [= <-].
    destruct (Hm k e E) as (Hk & Hi & [z Hz]). destruct (decide _); [|split_and!; [done|done|by exists z]].
    unfold updateNextEventTime. cbn. split_and!; [done|done|].
    exists (z + (if decide (i32 (Z.quot (now - absoluteTime e) (interval e)) ≤ 0) then 1
                 else i32 (Z.quot (now - absoluteTime e) (interval e)))). lia.
  - intros k. unfold timer_due. rewrite list_elem_of_fmap. split.
    + intros [[k' e] [-> [Hle Hin%elem_of_map_to_list]%list_elem_of_filter]]. cbn in *.
      destruct (Hm k' e Hin) as (-> & _). by exists e.
    + intros (e & E & Hle). destruct (Hm k e E) as (Hk & _). exists (k, e). split; [done|].
      apply list_elem_of_filter. split; [done|]. by apply elem_of_map_to_list.
  - intros k e E Hle Hlate. destruct (Hm k e E) as (Hk & Hi & _).
    unfold timer_advance. rewrite lookup_fmap, E. cbn. rewrite decide_True by done.
    eexists. split; [done|]. unfold updateNextEventTime. cbn.
    rewrite Z.quot_div_nonneg by lia.
    pose proof (Z.div_mod (now - absoluteTime e) (interval e) ltac:(lia)) as Hdm.
    pose proof (Z.mod_pos_bound (now - absoluteTime e) (interval e) Hi) as Hmod.
    set (k' := (now - absoluteTime e) / interval e) in *.
    assert (0 ≤ k' < 2147483648) as Hk'.
    { split; [apply Z.div_pos; lia|]. apply Z.div_lt_upper_bound; lia. }
    rewrite i32_small by (unfold is_i32; lia). split; [done|].
    destruct (decide (k' ≤ 0)); nia.
Qed.

(** ** The HAL as the manager sees it *)

(** The environment of the moment travels with the HAL. *)
Section instance.
Context {HT : HidlTypes} {S : Type} {JS : JsonScalar S}.

Definition with_env {A} (m : vis_env (S := S) → M VisVehicleHal A)
    : M (vis_env (S := S) * VisVehicleHal) A := λ s,
  match m s.1 s.2 with
  | Val h a => Val (s.1, h) a
  | Exc h e => Exc (s.1, h) e
  | Ub => Ub
  end.

#[global] Instance vis_vehicle_hal (fmt_float : spec_float → string)
    : VehicleHal (vis_env (S := S) * VisVehicleHal) := {|
  hal_listProperties s := listProperties s.2;
  hal_get v := with_env (λ e, vis_get e v);
  hal_set v := with_env (λ e, vis_set fmt_float e v);
  hal_subscribe p r := with_env (λ e, vis_subscribe e p r);
  hal_unsubscribe p := with_env (λ _, vis_unsubscribe p);
|}.
End instance.

(** ** Examples with the published constants *)

(** Scalars: integers. *)
#[local] Instance int_scalar : JsonScalar Z := {|
  js_asCString _ := None; js_asString _ := EmptyString; js_isString _ := false;
  js_isBool _ := false; js_asBool _ := false; js_isInt _ := true; js_asInt := Some;
  js_isInt64 _ := true; js_asInt64 := Some; js_isReal _ := false; js_asFloat _ := None
|}.

Definition ex_env : vis_env (S := Z) := MkEnv true (SOK, ∅) SOK (Some (SOK, 1)) 1000.
Definition ex_fmt (f : spec_float) : string := "0.000000".

(** A continuous property without limits for its rate, as PERF_ODOMETER in the
    built-in table. *)
Definition PERF_ODOMETER : Z := 0x11600204.
Definition ex_odometer : ConfigDeclaration :=
  MkDecl (MkConfig PERF_ODOMETER ACCESS_READ CHANGE_CONTINUOUS [] (S754_zero false) (S754_zero false))
    (MkRaw [] [S754_zero false] [] [] "") ∅ {[0 := "Signal.Emulator.telemetry.odo"]}.
(** Two integer properties mapped to the same name. *)
Definition ex_two (p : Z) : ConfigDeclaration :=
  MkDecl (MkConfig p 3 CHANGE_ON_CHANGE [] (S754_zero false) (S754_zero false))
    (MkRaw [5] [] [] [] "") ∅ {[0 := "Signal.Gear"]}.
Definition ex_decls : list ConfigDeclaration := [ex_odometer; ex_two 0x11400400; ex_two 0x11400401].

Definition ex_hal_new : VisVehicleHal := MkVisHal empty_store (empty_pool 4) ∅ [] 0 false true ∅ [].
Definition ex_hal_state : VisVehicleHal :=
  match (initStaticConfig ex_decls;; onCreate ex_decls [(0x11400402, 0, "Signal.Other")] ex_env)
          ex_hal_new with
  | Val h _ => h
  | _ => ex_hal_new
  end.

(** subscribing to a continuous property whose configuration gives no limits for
    the rate (such as PERF_ODOMETER) is undefined: the manager brings every rate into
    the range from zero to zero, and the HAL divides by it. *)
Theorem vis_unlimited_rate_undefined :
  subscribe (VH := vis_vehicle_hal ex_fmt) (ex_cb 1)
    [MkOpts PERF_ODOMETER (ex_rate 1) EVENTS_FROM_CAR] true 0x1000
    (init (VH := vis_vehicle_hal ex_fmt) (ex_env, ex_hal_state)) = Ub.
Proof. vm_compute. reflexivity. Qed.

(** when all values are fetched, of several properties mapped to one name only the
    first is updated, although a notification for that name updates all of them. *)
Theorem vis_fetch_updates_first_only :
  let values h := (λ p, int32Values ∘ value <$> readValueOrNull_id (mPropStore h) p 0 0)
                    <$> [0x11400400; 0x11400401] in
  (∃ h, fetchAllAndSubscribe (MkEnv true (SOK, {["Signal.Gear" := JScalar 3]}) SOK None 0) ex_hal_state
        = Val h true ∧ values h = [Some [3]; Some [5]])
  ∧ (∃ h, subscriptionHandler {["Signal.Gear" := JScalar 3]} 0 ex_hal_state = Val h tt
          ∧ values h = [Some [3]; Some [3]]).
Proof. split; eexists; (split; [vm_compute; reflexivity|vm_compute; reflexivity]). Qed.

(** ** Witnesses *)

Definition ex_hal_ops : list store_op :=
  [ORegister (d_config ex_odometer) None; ORegister (d_config (ex_two 0x11400400)) None;
   ORegister (d_config (ex_two 0x11400401)) None;
   OWrite (MkValue 0 0 PERF_ODOMETER 0 (initialValue ex_odometer)) true;
   OWrite (MkValue 0 0 0x11400400 0 (MkRaw [5] [] [] [] "")) true;
   OWrite (MkValue 0 0 0x11400401 0 (MkRaw [5] [] [] [] "")) true].

Lemma ex_hal_ops_ok : Forall store_op_ok ex_hal_ops.
Proof.
  unfold ex_hal_ops.
  do 3 (apply Forall_cons_2; [exact I|]).
  do 3 (apply Forall_cons_2;
    [cbn [store_op_ok]; unfold value_ok, is_i32; cbn [prop areaId]; unfold PERF_ODOMETER; lia|]).
  apply Forall_nil_2.
Qed.

Lemma ex_hal_wf : hal_wf ex_hal_state ∧ values_shaped (mPropStore ex_hal_state).
Proof.
  destruct (store_ops_wf ex_hal_ops empty_store empty_store_wf ex_hal_ops_ok) as (s & E & Hs).
  assert (mPropStore ex_hal_state
    = match for_each ex_hal_ops run_store_op empty_store with Val s _ => s | _ => empty_store end) as Es
    by (vm_compute; reflexivity).
  rewrite E in Es.
  assert (valuePool ex_hal_state = empty_pool 4) as Ep by (vm_compute; reflexivity).
  split; [split|].
  - by rewrite Es.
  - rewrite Ep. apply map_Forall_empty.
  - rewrite Ep. cbn [empty_pool mMaxRecyclableVectorSize]. lia.
  - intros i v Hi. apply elem_of_map_to_list in Hi.
    let l := eval vm_compute in (map_to_list (mPropertyValues (mPropStore ex_hal_state))) in
    assert (map_to_list (mPropertyValues (mPropStore ex_hal_state)) = l) as El
      by (vm_compute; reflexivity).
    rewrite El in Hi.
    repeat (apply elem_of_cons in Hi as [Hi|Hi]; [injection Hi as -> ->; unfold shaped; vm_compute; by eexists|]).
    destruct (not_elem_of_nil _ Hi).
Qed.

Lemma vis_messages_typed_witness :
  match subscriptionHandler {["Signal.Gear" := JScalar 3]} 7 ex_hal_state with
  | Val h' _ | Exc h' _ => hal_wf h' ∧ values_shaped (mPropStore h')
  | Ub => False
  end.
Proof.
  pose proof (vis_messages_typed ex_hal_state {["Signal.Gear" := JScalar 3]} 7
                (proj1 ex_hal_wf) (proj2 ex_hal_wf)) as H.
  destruct (subscriptionHandler _ _ _); [tauto|tauto|exact H].
Defined.

Lemma vis_set_get_witness :
  ∃ h' h'' w, vis_set ex_fmt ex_env (ex_value 0x11400401 0 8) ex_hal_state = Val h' OK
    ∧ vis_get ex_env (ex_value 0x11400401 0 8) h' = Val h'' (OK, Some w)
    ∧ value w = MkRaw [8] [] [] [] "".
Proof.
  destruct (vis_set ex_fmt ex_env (ex_value 0x11400401 0 8) ex_hal_state) as [h' st| |] eqn:E;
    [|vm_compute in E; discriminate E..].
  assert (st = OK) as -> by (vm_compute in E; congruence).
  destruct (vis_set_get ex_fmt ex_hal_state ex_env ex_env (ex_value 0x11400401 0 8) h'
              (proj1 ex_hal_wf)) as (h'' & w & Eg & Hv & _); [|by eexists|exact E|].
  - split; unfold is_i32; cbn; lia.
  - exists h', h'', w. split; [done|]. exact (conj Eg Hv).
Defined.

Definition ex_timer_one : gmap Z RecurrentEvent :=
  match registerRecurrentEvent 1005 10 7 ∅ with Val m _ => m | _ => ∅ end.
Definition ex_timer : gmap Z RecurrentEvent :=
  match registerRecurrentEvent 1005 200 8 ex_timer_one with Val m _ => m | _ => ∅ end.
Lemma timer_round_witness :
  timer_ok ex_timer ∧ timer_ok (timer_advance 1023 ex_timer)
  ∧ (absoluteTime <$> timer_advance 1023 ex_timer) = {[7 := 1020; 8 := 1200]}.
Proof.
  assert (timer_ok ex_timer) as Hok.
  { apply (register_ok 1005 200 8 ex_timer_one); [|done|vm_compute; reflexivity].
    apply (register_ok 1005 10 7 ∅); [apply map_Forall_empty|done|vm_compute; reflexivity]. }
  split; [exact Hok|]. split; [exact (proj1 (timer_round 1023 ex_timer Hok))|].
  vm_compute. reflexivity.
Defined.
