(* ===== verification/EvsDriver.v ===== *)
(** * EVS: the camera driver

    Models android/hardware/xbox/evs/sampleDriver: VideoCapture.{h,cpp} (the capture
    device and its thread) and EvsV4lCamera.{h,cpp} (the graphics buffers lent to the
    client).  What the kernel answers to an [ioctl] or [mmap], what the graphics
    allocator returns and whether a callback reaches its client are arguments; frames
    handed out and buffers allocated and freed are recorded in a log.  Assertions are
    compiled out, as in the platform's builds, and log messages are left out. *)

From S2P Require Import Prelude.

(** ** VideoCapture *)

Module Capture.

Definition STOPPED : Z := 0.
Definition RUN : Z := 1.
Definition STOPPING : Z := 2.
Definition NUMBER_OF_BUFFERS_USED : nat := 2.

(** [Finished]: the thread has returned but was not joined. *)
Inductive thread : Type := NoThread | Collecting | Finished.
#[global] Instance thread_eq_dec : EqDecision thread.
Proof. solve_decision. Defined.

(** The formats the sources name. *)
Inductive v4l_format : Type := FMT_YUYV | FMT_UYVY | FMT_NV21 | FMT_other (code : Z).
#[global] Instance v4l_format_eq_dec : EqDecision v4l_format.
Proof. solve_decision. Defined.

(** [mRunMode] has no value before a device was opened completely. *)
Record VideoCapture : Type := MkVideo {
  mDeviceFd : option Z;
  mPixelBuffer : list bool;          (* mapped or null *)
  mPixFormat : v4l_format;
  mWidth : Z; mHeight : Z; mPitch : Z;
  mCallback : bool;
  mCaptureThread : thread;
  mRunMode : option Z;
  mFrameReady : bool;
}.
Definition new_capture : VideoCapture :=
  MkVideo None [] (FMT_other 0) 0 0 0 false NoThread None false.
Definition isOpen (v : VideoCapture) : bool := bool_decide (is_Some (mDeviceFd v)).

Definition set_mode (m : Z) : M VideoCapture unit :=
  modify (λ v, MkVideo (mDeviceFd v) (mPixelBuffer v) (mPixFormat v) (mWidth v) (mHeight v)
                 (mPitch v) (mCallback v) (mCaptureThread v) (Some m) (mFrameReady v)).
Definition set_pixels (l : list bool) : M VideoCapture unit :=
  modify (λ v, MkVideo (mDeviceFd v) l (mPixFormat v) (mWidth v) (mHeight v)
                 (mPitch v) (mCallback v) (mCaptureThread v) (mRunMode v) (mFrameReady v)).
Definition set_callback (b : bool) : M VideoCapture unit :=
  modify (λ v, MkVideo (mDeviceFd v) (mPixelBuffer v) (mPixFormat v) (mWidth v) (mHeight v)
                 (mPitch v) b (mCaptureThread v) (mRunMode v) (mFrameReady v)).
Definition set_thread (t : thread) : M VideoCapture unit :=
  modify (λ v, MkVideo (mDeviceFd v) (mPixelBuffer v) (mPixFormat v) (mWidth v) (mHeight v)
                 (mPitch v) (mCallback v) t (mRunMode v) (mFrameReady v)).
Definition set_fd (fd : option Z) : M VideoCapture unit :=
  modify (λ v, MkVideo fd (mPixelBuffer v) (mPixFormat v) (mWidth v) (mHeight v)
                 (mPitch v) (mCallback v) (mCaptureThread v) (mRunMode v) (mFrameReady v)).
Definition set_ready (b : bool) : M VideoCapture unit :=
  modify (λ v, MkVideo (mDeviceFd v) (mPixelBuffer v) (mPixFormat v) (mWidth v) (mHeight v)
                 (mPitch v) (mCallback v) (mCaptureThread v) (mRunMode v) b).
Definition set_format (f : v4l_format) (w h p : Z) : M VideoCapture unit :=
  modify (λ v, MkVideo (mDeviceFd v) (mPixelBuffer v) f w h p (mCallback v) (mCaptureThread v)
                 (mRunMode v) (mFrameReady v)).

(** What the device answers while it is opened. *)
Record open_env : Type := MkOpenEnv {
  o_fd : option Z;                                     (* ::open *)
  o_querycap : bool;                                   (* VIDIOC_QUERYCAP succeeds *)
  o_capture : bool;                                    (* it can capture and stream *)
  o_format : option (v4l_format * (Z * Z * Z));        (* VIDIOC_G_FMT *)
}.

Definition open (e : open_env) : M VideoCapture bool :=
  v ← get;
  if isOpen v then mret false
  else
    set_fd (o_fd e);;
    match o_fd e with
    | None => mret false
    | Some _ =>
        if o_querycap e then
          set_pixels (replicate NUMBER_OF_BUFFERS_USED false);;
          if o_capture e then
            match o_format e with
            | None => mret false
            | Some (f, (w, h, p)) =>
                set_format f w h p;; set_mode STOPPED;; set_ready false;; mret true
            end
          else mret false
        else mret false
    end.

Definition close : M VideoCapture unit :=
  v ← get; if isOpen v then set_fd None else mret tt.

(** [mRunMode.fetch_or(flag)]; reading it before it has a value is undefined. *)
Definition fetch_or (flag : Z) : M VideoCapture Z :=
  v ← get;
  match mRunMode v with
  | None => undefined
  | Some m => set_mode (Z.lor m flag);; mret m
  end.

(** The answers for one buffer: VIDIOC_QUERYBUF, mmap, VIDIOC_QBUF. *)
Record buffer_env : Type := MkBufferEnv { b_query : bool; b_map : bool; b_queue : bool }.

Fixpoint map_buffers (i : nat) (l : list buffer_env) : M VideoCapture bool :=
  match l with
  | [] => mret true
  | e :: rest =>
      if b_query e then
        v ← get;
        match mPixelBuffer v !! i with
        | None => undefined
        | Some true => mret false
        | Some false =>
            if b_map e then
              set_pixels (<[i := true]> (mPixelBuffer v));;
              if b_queue e then map_buffers (S i) rest else mret false
            else mret false
        end
      else mret false
  end.

Record start_env : Type := MkStartEnv {
  s_reqbufs : bool; s_buffers : list buffer_env; s_streamon : bool }.

(** A thread object that still owns a thread must not be assigned: std::terminate. *)
Definition startStream (e : start_env) : M VideoCapture bool :=
  prevRunMode ← fetch_or RUN;
  if decide (Z.land prevRunMode RUN ≠ 0) then mret false
  else if s_reqbufs e then
    mapped ← map_buffers 0 (take NUMBER_OF_BUFFERS_USED (s_buffers e));
    if (mapped : bool) then
      if s_streamon e then
        set_callback true;;
        v ← get;
        match mCaptureThread v with
        | NoThread => set_thread Collecting;; mret true
        | _ => throw (runtime_error "std::terminate")
        end
      else mret false
    else mret false
  else mret false.

(** [join] waits for [collectFrames] to leave its loop, which stores STOPPED last. *)
Definition join : M VideoCapture unit :=
  v ← get;
  match mCaptureThread v with
  | NoThread => mret tt
  | Finished => set_thread NoThread
  | Collecting => set_mode STOPPED;; set_thread NoThread
  end.

Definition unmap_all : M VideoCapture unit :=
  v ← get; set_pixels ((λ _, false) <$> mPixelBuffer v);; set_callback false.

Definition stopStream : M VideoCapture unit :=
  prevRunMode ← fetch_or STOPPING;
  if decide (prevRunMode = STOPPED) then set_mode STOPPED;; unmap_all
  else if decide (Z.land prevRunMode STOPPING ≠ 0) then mret tt
  else join;; unmap_all.

(** One iteration of [collectFrames]; [dequeued]: VIDIOC_DQBUF succeeds.  Returns
    whether the callback is made. *)
Definition collectFrames_step (dequeued : bool) : M VideoCapture bool :=
  v ← get;
  if decide (mRunMode v = Some RUN) then
    if dequeued then set_ready true;; mret (mCallback v)
    else set_mode STOPPED;; set_thread Finished;; mret false
  else set_mode STOPPED;; set_thread Finished;; mret false.

Definition returnFrame : M VideoCapture unit := set_ready false.

End Capture.
Import Capture.

(** ** EvsV4lCamera *)

Inductive EvsResult : Type :=
  | EOK | INVALID_ARG | STREAM_ALREADY_RUNNING | BUFFER_NOT_AVAILABLE | OWNERSHIP_LOST
  | UNDERLYING_SERVICE_ERROR.
#[global] Instance EvsResult_eq_dec : EqDecision EvsResult.
Proof. solve_decision. Defined.

(** What the services read of a [BufferDesc]. *)
Record BufferDesc : Type := MkBuffer { bufferId : Z; memHandle : option Z }.
#[global] Instance BufferDesc_eq_dec : EqDecision BufferDesc.
Proof. solve_decision. Defined.
Definition nullBuff : BufferDesc := MkBuffer 0 None.

Inductive hal_format : Type := YCRCB_420_SP | RGBA_8888 | YCBCR_422_I.
Inductive filler : Type :=
  | fillNV21FromNV21 | fillNV21FromYUYV | fillRGBAFromYUYV | fillYUYVFromYUYV | fillYUYVFromUYVY.
#[global] Instance filler_eq_dec : EqDecision filler.
Proof. solve_decision. Defined.

Record BufferRecord : Type := MkRecord { handle : option Z; inUse : bool }.

Inductive cam_event : Type :=
  | Allocated (h : Z)
  | Freed (h : Z)
  | DeliverFrame (stream : Z) (b : BufferDesc).

Record EvsV4lCamera : Type := MkCamera {
  mStream : option Z;
  mVideo : VideoCapture;
  mFormat : hal_format;
  mStride : Z;
  mBuffers : list BufferRecord;
  mFramesAllowed : Z;
  mFramesInUse : Z;
  mFillBufferFromVideo : option filler;
  cam_log : list cam_event;
}.

Definition MAX_BUFFERS_IN_FLIGHT : Z := 100.

Definition in_video {A} (m : M VideoCapture A) : M EvsV4lCamera A :=
  zoom mVideo (λ v c, MkCamera (mStream c) v (mFormat c) (mStride c) (mBuffers c) (mFramesAllowed c)
                        (mFramesInUse c) (mFillBufferFromVideo c) (cam_log c)) m.
Definition set_buffers (l : list BufferRecord) (allowed used : Z) (ev : list cam_event)
    (c : EvsV4lCamera) : EvsV4lCamera :=
  MkCamera (mStream c) (mVideo c) (mFormat c) (mStride c) l allowed used
    (mFillBufferFromVideo c) (cam_log c ++ ev).
Definition set_stream (s : option Z) (ev : list cam_event) (c : EvsV4lCamera) : EvsV4lCamera :=
  MkCamera s (mVideo c) (mFormat c) (mStride c) (mBuffers c) (mFramesAllowed c) (mFramesInUse c)
    (mFillBufferFromVideo c) (cam_log c ++ ev).
Definition set_stride (n : Z) (c : EvsV4lCamera) : EvsV4lCamera :=
  MkCamera (mStream c) (mVideo c) (mFormat c) n (mBuffers c) (mFramesAllowed c) (mFramesInUse c)
    (mFillBufferFromVideo c) (cam_log c).
Definition set_fill (f : option filler) (c : EvsV4lCamera) : EvsV4lCamera :=
  MkCamera (mStream c) (mVideo c) (mFormat c) (mStride c) (mBuffers c) (mFramesAllowed c)
    (mFramesInUse c) f (cam_log c).

(** The constructor; a device that fails to open is only logged. *)
Definition new_camera (e : open_env) : outcome EvsV4lCamera unit :=
  (in_video (open e);; mret tt)
    (MkCamera None new_capture RGBA_8888 0 [] 0 0 None []).

(** *** Buffers *)

(** Where a new buffer is kept: the first record without one, or a new record. *)
Fixpoint store_handle (h : Z) (l : list BufferRecord) : list BufferRecord :=
  match l with
  | [] => [MkRecord (Some h) false]
  | r :: l' =>
      match handle r with
      | None => MkRecord (Some h) false :: l'
      | Some _ => r :: store_handle h l'
      end
  end.

(** The allocator's answers: a handle and the pixels per line, or a failure; when there
    are no more answers the next allocation fails. *)
Fixpoint increaseAvailableFrames_Locked (answers : list (option (Z * Z))) (numToAdd added : Z)
    : M EvsV4lCamera Z :=
  match answers with
  | [] => mret added
  | a :: rest =>
      if decide (added < numToAdd) then
        match a with
        | None => mret added
        | Some (h, pixelsPerLine) =>
            modify (λ c, if decide (mStride c = 0) then set_stride pixelsPerLine c else c);;
            modify (λ c, set_buffers (store_handle h (mBuffers c)) (u32 (mFramesAllowed c + 1))
                           (mFramesInUse c) [Allocated h] c);;
            increaseAvailableFrames_Locked rest numToAdd (added + 1)
        end
      else mret added
  end.

(** The loop over the records: the new records, the handles freed and [removed]. *)
Fixpoint release_idle (numToRemove removed : Z) (l : list BufferRecord)
    : list BufferRecord * list Z * Z :=
  match l with
  | [] => ([], [], removed)
  | r :: l' =>
      match inUse r, handle r with
      | false, Some h =>
          if decide (removed + 1 = numToRemove) then
            (MkRecord None false :: l', [h], removed + 1)
          else
            match release_idle numToRemove (removed + 1) l' with
            | (l'', freed, n) => (MkRecord None false :: l'', h :: freed, n)
            end
      | _, _ =>
          match release_idle numToRemove removed l' with
          | (l'', freed, n) => (r :: l'', freed, n)
          end
      end
  end.

Definition decreaseAvailableFrames_Locked (numToRemove : Z) : M EvsV4lCamera Z :=
  c ← get;
  match release_idle numToRemove 0 (mBuffers c) with
  | (l, freed, removed) =>
      put (set_buffers l (u32 (mFramesAllowed c - removed)) (mFramesInUse c) (Freed <$> freed) c);;
      mret removed
  end.

Definition setAvailableFrames_Locked (bufferCount : Z) (answers : list (option (Z * Z)))
    : M EvsV4lCamera bool :=
  if decide (bufferCount < 1) then mret false
  else if decide (MAX_BUFFERS_IN_FLIGHT < bufferCount) then mret false
  else
    c ← get;
    if decide (mFramesAllowed c < bufferCount) then
      let needed := bufferCount - mFramesAllowed c in
      added ← increaseAvailableFrames_Locked answers needed 0;
      if decide (added ≠ needed) then
        decreaseAvailableFrames_Locked added;; mret false
      else mret true
    else if decide (bufferCount < mFramesAllowed c) then
      decreaseAvailableFrames_Locked (mFramesAllowed c - bufferCount);; mret true
    else mret true.

Definition setMaxFramesInFlight (bufferCount : Z) (answers : list (option (Z * Z)))
    : M EvsV4lCamera EvsResult :=
  c ← get;
  if isOpen (mVideo c) then
    if decide (bufferCount < 1) then mret INVALID_ARG
    else
      ok ← setAvailableFrames_Locked bufferCount answers;
      mret (if (ok : bool) then EOK else BUFFER_NOT_AVAILABLE)
  else mret OWNERSHIP_LOST.

(** *** The stream *)

(** The transfer function; an unhandled combination is only logged. *)
Definition select_fill (fmt : hal_format) (src : v4l_format) (old : option filler) : option filler :=
  match fmt, src with
  | YCRCB_420_SP, FMT_NV21 => Some fillNV21FromNV21
  | YCRCB_420_SP, FMT_YUYV => Some fillNV21FromYUYV
  | RGBA_8888, FMT_YUYV => Some fillRGBAFromYUYV
  | YCBCR_422_I, FMT_YUYV => Some fillYUYVFromYUYV
  | YCBCR_422_I, FMT_UYVY => Some fillYUYVFromUYVY
  | _, _ => old
  end.

Definition startVideoStream (stream : Z) (answers : list (option (Z * Z))) (e : start_env)
    : M EvsV4lCamera EvsResult :=
  c ← get;
  if isOpen (mVideo c) then
    match mStream c with
    | Some _ => mret STREAM_ALREADY_RUNNING
    | None =>
        ready ← (if decide (mFramesAllowed c < 1) then setAvailableFrames_Locked 1 answers
                 else mret true);
        if (ready : bool) then
          modify (λ c, set_fill (select_fill (mFormat c) (mPixFormat (mVideo c))
                                   (mFillBufferFromVideo c)) c);;
          modify (set_stream (Some stream) []);;
          started ← in_video (startStream e);
          if (started : bool) then mret EOK
          else modify (set_stream None []);; mret UNDERLYING_SERVICE_ERROR
        else mret BUFFER_NOT_AVAILABLE
    end
  else mret OWNERSHIP_LOST.

(** The index of the first record without a buffer. *)
Definition empty_slot (l : list BufferRecord) : option nat :=
  fst <$> list_find (λ r, handle r = None) l.

(** Moving the buffer of record [i] down to the first empty record. *)
Definition move_down (i : nat) (l : list BufferRecord) : list BufferRecord :=
  match l !! i, empty_slot l with
  | Some r, Some j =>
      let l1 := alter (λ s, MkRecord (handle r) (inUse s)) j l in
      alter (λ s, MkRecord None (inUse s)) i l1
  | _, _ => l
  end.

Definition doneWithFrame (buffer : BufferDesc) : M EvsV4lCamera unit :=
  c ← get;
  if isOpen (mVideo c) then
    match memHandle buffer with
    | None => mret tt
    | Some _ =>
        let i := Z.to_nat (bufferId buffer) in
        match mBuffers c !! i with
        | None => mret tt
        | Some r =>
            if inUse r then
              let l := <[i := MkRecord (handle r) false]> (mBuffers c) in
              let l' := if decide (mFramesAllowed c ≤ bufferId buffer) then move_down i l else l in
              put (set_buffers l' (mFramesAllowed c) (u32 (mFramesInUse c - 1)) [] c)
            else mret tt
        end
    end
  else mret tt.

Definition stopVideoStream : M EvsV4lCamera unit :=
  in_video stopStream;;
  modify (λ c, match mStream c with
               | Some s => set_stream None [DeliverFrame s nullBuff] c
               | None => c
               end).

Definition live_handles (l : list BufferRecord) : list Z := omap handle l.

Definition shutdown : M EvsV4lCamera unit :=
  stopVideoStream;;
  in_video close;;
  modify (λ c, set_buffers [] (mFramesAllowed c) (mFramesInUse c)
                 (Freed <$> live_handles (mBuffers c)) c).

(** *** Frames *)

(** The first part of [forwardFrame], under the lock: the record that is made busy. *)
Definition forwardFrame_begin : M EvsV4lCamera (option nat) :=
  c ← get;
  if decide (mFramesAllowed c ≤ mFramesInUse c) then mret None
  else
    match list_find (λ r, inUse r = false ∧ is_Some (handle r)) (mBuffers c) with
    | None => mret None
    | Some (i, r) =>
        put (set_buffers (<[i := MkRecord (handle r) true]> (mBuffers c)) (mFramesAllowed c)
               (u32 (mFramesInUse c + 1)) [] c);;
        mret (Some i)
    end.

(** The rest, without the lock; [locked]: the buffer could be mapped for writing,
    [delivered]: the callback reached the client. *)
Definition forwardFrame_end (idx : option nat) (locked delivered : bool) : M EvsV4lCamera unit :=
  match idx with
  | None => in_video returnFrame
  | Some i =>
      c ← get;
      match mBuffers c !! i, mFillBufferFromVideo c, mStream c with
      | Some r, Some _, Some s =>
          if locked then
            in_video returnFrame;;
            modify (set_stream (Some s) [DeliverFrame s (MkBuffer (Z.of_nat i) (handle r))]);;
            if delivered then mret tt
            else
              modify (λ c, set_buffers (alter (λ r, MkRecord (handle r) false) i (mBuffers c))
                             (mFramesAllowed c) (u32 (mFramesInUse c - 1)) [] c)
          else undefined
      | _, _, _ => undefined
      end
  end.

(** ** The capture device *)

(** A successful start, any number of collected frames and a stop lead back to a device
    that can be started again. *)
Definition capture_idle (v : VideoCapture) : Prop :=
  mRunMode v = Some STOPPED ∧ mCaptureThread v = NoThread
  ∧ mPixelBuffer v = replicate NUMBER_OF_BUFFERS_USED false ∧ mCallback v = false.
Definition good_buffer (e : buffer_env) : Prop := b_query e = true ∧ b_map e = true ∧ b_queue e = true.
Definition good_start (e : start_env) : Prop :=
  s_reqbufs e = true ∧ s_streamon e = true
  ∧ ∃ b1 b2 rest, s_buffers e = b1 :: b2 :: rest ∧ good_buffer b1 ∧ good_buffer b2.
Definition capturing (v : VideoCapture) : Prop :=
  mRunMode v = Some RUN ∧ mCaptureThread v = Collecting
  ∧ length (mPixelBuffer v) = NUMBER_OF_BUFFERS_USED ∧ mCallback v = true.

Lemma start_idle e v :
  capture_idle v → good_start e → ∃ v', startStream e v = Val v' true ∧ capturing v'.
Proof.
  intros (Hm & Ht & Hp & Hc) (Hr & Hs & b1 & b2 & rest & Eb & (Q1 & M1 & K1) & (Q2 & M2 & K2)).
  destruct v as [fd px f w h p cb t m rdy]. cbn in *. subst.
  unfold startStream, fetch_or. run_m. cbn. rewrite Hr, Eb. cbn. rewrite Q1. run_m. cbn.
  rewrite M1. run_m. cbn. rewrite K1, Q2. run_m. cbn. rewrite M2. run_m. cbn. rewrite K2. run_m.
  rewrite Hs. run_m. eexists. split; [reflexivity|]. by split_and!.
Qed.

Lemma collect_capturing v :
  capturing v → ∃ v', collectFrames_step true v = Val v' true ∧ capturing v'.
Proof.
  intros (Hm & Ht & Hp & Hc). unfold collectFrames_step. run_m. rewrite Hm, decide_True by done.
  eexists. rewrite Hc. by split.
Qed.

Lemma stop_capturing v : capturing v → ∃ v', stopStream v = Val v' tt ∧ capture_idle v'.
Proof.
  intros (Hm & Ht & Hp & Hc). destruct v as [fd px f w h p cb t m rdy]. cbn in *. subst.
  unfold stopStream, fetch_or, join, unmap_all. run_m. cbn.
  destruct px as [|a [|b [|]]]; try discriminate Hp. eexists. split; [reflexivity|]. by split_and!.
Qed.

Inductive capture_run : nat → VideoCapture → VideoCapture → Prop :=
  | run_none v : capture_run 0 v v
  | run_frame n v v1 v2 : collectFrames_step true v = Val v1 true → capture_run n v1 v2 →
      capture_run (S n) v v2.

Lemma capturing_run n v v' : capture_run n v v' → capturing v → capturing v'.
Proof.
  induction 1 as [|n v v1 v2 E _ IH]; intros Hv; [done|]. apply IH.
  destruct (collect_capturing v Hv) as (v'' & E' & H'). rewrite E in E'. by injection E' as ->.
Qed.

(** a capture that started on an idle device, whatever number of frames it has
    collected, is stopped back to an idle device, which can be started again. *)
Theorem capture_restartable e e' n v :
  capture_idle v → good_start e → good_start e' →
  ∃ v1, startStream e v = Val v1 true ∧
    ∀ v2, capture_run n v1 v2 →
      ∃ v3, stopStream v2 = Val v3 tt ∧ ∃ v4, startStream e' v3 = Val v4 true.
Proof.
  intros Hv He He'. destruct (start_idle e v Hv He) as (v1 & E1 & H1). exists v1. split; [done|].
  intros v2 Hr. destruct (stop_capturing v2 (capturing_run _ _ _ Hr H1)) as (v3 & E3 & H3).
  exists v3. split; [done|]. destruct (start_idle e' v3 H3 He') as (v4 & E4 & _). by exists v4.
Qed.

(** The device after a start that failed: no thread, the RUN flag set. *)
Definition wedged (v : VideoCapture) : Prop :=
  mCaptureThread v = NoThread ∧ (mRunMode v = Some RUN ∨ mRunMode v = Some (Z.lor RUN STOPPING)).

Inductive capture_op : Type := CStart (e : start_env) | CStop.
Definition run_capture (o : capture_op) : M VideoCapture (option bool) :=
  match o with
  | CStart e => b ← startStream e; mret (Some b)
  | CStop => stopStream;; mret None
  end.

Lemma wedged_step o v :
  wedged v → ∃ v' r, run_capture o v = Val v' r ∧ r ≠ Some true ∧ wedged v'.
Proof.
  intros [Ht Hm]. destruct v as [fd px f w h p cb t m rdy]. cbn in *. subst t.
  destruct Hm as [->| ->]; destruct o; cbn [run_capture];
    unfold startStream, stopStream, fetch_or, join, unmap_all; run_m; cbn; run_m.
  all: eexists _, _; split; [reflexivity|]; split; [done|].
  all: split; cbn; auto.
Qed.

Inductive capture_ops : list (option bool) → VideoCapture → VideoCapture → Prop :=
  | ops_none v : capture_ops [] v v
  | ops_cons o r rs v v1 v2 : run_capture o v = Val v1 r → capture_ops rs v1 v2 →
      capture_ops (r :: rs) v v2.

Lemma map_buffers_mode l i u b u' :
  mCaptureThread u = NoThread → mRunMode u = Some RUN → map_buffers i l u = Val u' b →
  mCaptureThread u' = NoThread ∧ mRunMode u' = Some RUN.
Proof.
  revert i u. induction l as [|e l IH]; intros i u H1 H2; cbn [map_buffers]; run_m.
  { by intros [= <- <-]. }
  destruct (b_query e); [|by intros [= <- <-]].
  destruct (mPixelBuffer u !! i) as [[]|]; [by intros [= <- <-]| |done].
  destruct (b_map e); [|by intros [= <- <-]].
  destruct (b_queue e); [|by intros [= <- <-]]. by apply IH.
Qed.

Lemma failed_start_wedged e v v' :
  capture_idle v → startStream e v = Val v' false → wedged v'.
Proof.
  intros (Hm & Ht & Hp & Hc). unfold startStream, fetch_or, set_mode, set_callback, set_thread. run_m. rewrite Hm.
  cbv beta iota. rewrite (decide_False (P := Z.land STOPPED RUN ≠ 0)) by auto.
  destruct (s_reqbufs e); [|by intros [= <-]; split; auto].
  destruct (map_buffers _ _ _) as [u b| |] eqn:Eu; [|done|done].
  apply map_buffers_mode in Eu as [U1 U2]; [|done|done].
  destruct b; [|by intros [= <-]; split; auto].
  destruct (s_streamon e); [|by intros [= <-]; split; auto].
  cbn [mCaptureThread]. by rewrite U1.
Qed.

(** C34: a start that fails after the flag was set (the kernel refuses a buffer, say)
    leaves the device unusable: whatever sequence of stops and starts follows, no start
    succeeds any more. *)
Theorem capture_wedged_by_failed_start e v v' rs v'' :
  capture_idle v → startStream e v = Val v' false → capture_ops rs v' v'' →
  Forall (λ r, r ≠ Some true) rs.
Proof.
  intros Hv E Hops. pose proof (failed_start_wedged e v v' Hv E) as Hw.
  clear E. induction Hops as [|o r rs v1 v2 v3 E _ IH]; [constructor|].
  destruct (wedged_step o v1 Hw) as (u & r' & E' & Hr & Hu). rewrite E in E'.
  injection E' as -> ->. constructor; [done|]. by apply IH.
Qed.

(** ** Buffers *)

(** A record in use has a buffer. *)
Definition record_ok (r : BufferRecord) : Prop := inUse r = true → is_Some (handle r).
Definition used (l : list BufferRecord) : nat := length (filter (λ r, inUse r = true) l).

#[global] Instance live_handles_Permutation : Proper (Permutation ==> Permutation) live_handles.
Proof. intros l1 l2 H. unfold live_handles. by rewrite H. Qed.
#[global] Instance used_Permutation : Proper (Permutation ==> eq) used.
Proof. intros l1 l2 H. unfold used. by rewrite H. Qed.

Lemma live_cons r l :
  live_handles (r :: l) = match handle r with Some h => h :: live_handles l | None => live_handles l end.
Proof. unfold live_handles. cbn. by destruct (handle r). Qed.
Lemma used_cons r l : used (r :: l) = ((if inUse r then 1 else 0) + used l)%nat.
Proof. unfold used. destruct (inUse r) eqn:E; [by rewrite filter_cons_True|by rewrite filter_cons_False by (by rewrite E)]. Qed.

(** Replacing one record. *)
Lemma record_replace (l : list BufferRecord) i r :
  l !! i = Some r → ∃ rest, l ≡ₚ r :: rest ∧ ∀ r', <[i := r']> l ≡ₚ r' :: rest.
Proof.
  intros Hi. exists (take i l ++ drop (S i) l). split.
  - rewrite <- (take_drop_middle l i r Hi) at 1. by rewrite Permutation_middle.
  - intros r'. assert (<[i := r']> l = take i l ++ r' :: drop (S i) l) as ->.
    { rewrite <- (take_drop_middle l i r Hi) at 1.
      rewrite insert_app_r_alt by (rewrite length_take; lia).
      rewrite length_take, Nat.min_l by (apply lookup_lt_Some in Hi; lia).
      by rewrite Nat.sub_diag. }
    by rewrite Permutation_middle.
Qed.

Lemma used_le_live l : Forall record_ok l → (used l ≤ length (live_handles l))%nat.
Proof.
  induction 1 as [|r l Hr _ IH]; [done|]. rewrite used_cons, live_cons.
  destruct (inUse r) eqn:E; [|destruct (handle r); cbn; lia].
  destruct (Hr E) as [h ->]. cbn. lia.
Qed.

Lemma idle_exists l :
  Forall record_ok l → (used l < length (live_handles l))%nat →
  ∃ i r, list_find (λ r, inUse r = false ∧ is_Some (handle r)) l = Some (i, r).
Proof.
  intros Hl Hlt. destruct (list_find _ l) as [[i r]|] eqn:E; [by exists i, r|].
  exfalso. apply list_find_None in E. cut (length (live_handles l) ≤ used l)%nat; [lia|].
  clear Hlt Hl. induction E as [|r l Hr _ IH]; [done|]. rewrite used_cons, live_cons.
  destruct (inUse r) eqn:E; destruct (handle r) eqn:Eh; cbn; try lia. destruct Hr. by split.
Qed.

Lemma store_handle_spec h l :
  Forall record_ok l →
  live_handles (store_handle h l) ≡ₚ h :: live_handles l
  ∧ used (store_handle h l) = used l ∧ Forall record_ok (store_handle h l)
  ∧ (∀ i r, l !! i = Some r → inUse r = true → store_handle h l !! i = Some r).
Proof.
  induction 1 as [|r l Hr Hl (IH1 & IH2 & IH3 & IH4)]; cbn [store_handle].
  { split_and!; [done|done|by repeat constructor|done]. }
  destruct (handle r) as [h'|] eqn:Eh.
  - split_and!.
    + rewrite !live_cons, Eh, IH1. by apply perm_swap.
    + by rewrite !used_cons, IH2.
    + by constructor.
    + intros [|i] r' Hi Hu; cbn in *; [done|]. by apply IH4.
  - assert (inUse r = false) as Eu.
    { destruct (inUse r) eqn:E; [|done]. destruct (Hr E). congruence. }
    split_and!.
    + by rewrite !live_cons, Eh.
    + by rewrite !used_cons, Eu.
    + by constructor.
    + intros [|i] r' Hi Hu; cbn in *; [congruence|done].
Qed.

(** How many records [release_idle] empties: all the idle ones when it is asked for
    none, since the count is compared only after it was increased. *)
Definition idle (l : list BufferRecord) : Z := Z.of_nat (length (live_handles l)) - Z.of_nat (used l).

Lemma idle_cons r l : record_ok r →
  idle (r :: l) = (if inUse r then 0 else match handle r with Some _ => 1 | None => 0 end) + idle l.
Proof.
  unfold idle. intros Hr. rewrite used_cons, live_cons. unfold record_ok in Hr.
  destruct (inUse r); destruct (handle r); cbn; try lia. destruct (Hr eq_refl). done.
Qed.
Lemma idle_nonneg l : Forall record_ok l → 0 ≤ idle l.
Proof. intros Hl. unfold idle. pose proof (used_le_live l Hl). lia. Qed.

Lemma release_idle_spec n k l l' freed m :
  Forall record_ok l → release_idle n k l = (l', freed, m) →
  live_handles l ≡ₚ freed ++ live_handles l'
  ∧ used l' = used l ∧ Forall record_ok l'
  ∧ m = k + Z.of_nat (length freed)
  ∧ Z.of_nat (length freed) = (if decide (k < n) then Z.min (n - k) (idle l) else idle l)
  ∧ (∀ i r, l !! i = Some r → inUse r = true → l' !! i = Some r).
Proof.
  intros Hl. revert k l' freed m. induction Hl as [|r l Hr Hl IH]; intros k l' freed m; cbn [release_idle].
  { intros [= <- <- <-]. unfold idle. cbn. split_and!; try done; [lia|]. case_decide; lia. }
  pose proof (idle_nonneg l Hl) as Hid. pose proof (idle_cons r l Hr) as Hc.
  destruct (inUse r) eqn:Eu; [|destruct (handle r) as [h|] eqn:Eh].
  - destruct (release_idle n k l) as [[l1 f1] m1] eqn:E. intros [= <- <- <-].
    destruct (IH _ _ _ _ E) as (H1 & H2 & H3 & H4 & H5 & H6). destruct (Hr Eu) as [h Eh].
    split_and!; [|by rewrite !used_cons, H2|by constructor|done|by rewrite Hc|].
    + rewrite !live_cons, Eh, H1. by apply Permutation_middle.
    + intros [|i] r' Hi Hu; cbn in *; [done|]. by apply H6.
  - case_decide as Hn.
    + intros [= <- <- <-]. split_and!.
      * by rewrite !live_cons, Eh.
      * by rewrite !used_cons, Eu.
      * by constructor.
      * cbn. lia.
      * rewrite decide_True, Hc by lia. cbn. lia.
      * intros [|i] r' Hi Hu; cbn in *; [congruence|done].
    + destruct (release_idle n (k + 1) l) as [[l1 f1] m1] eqn:E. intros [= <- <- <-].
      destruct (IH _ _ _ _ E) as (H1 & H2 & H3 & H4 & H5 & H6).
      split_and!.
      * rewrite !live_cons, Eh. cbn. by rewrite H1.
      * by rewrite !used_cons, Eu, H2.
      * by constructor.
      * cbn. lia.
      * rewrite Hc. cbn [length]. repeat case_decide; lia.
      * intros [|i] r' Hi Hu; cbn in *; [congruence|]. by apply H6.
  - destruct (release_idle n k l) as [[l1 f1] m1] eqn:E. intros [= <- <- <-].
    destruct (IH _ _ _ _ E) as (H1 & H2 & H3 & H4 & H5 & H6).
    split_and!; [by rewrite !live_cons, Eh|by rewrite !used_cons, Eu, H2|by constructor|done|by rewrite Hc|].
    intros [|i] r' Hi Hu; cbn in *; [congruence|]. by apply H6.
Qed.

(** *** The camera's bookkeeping *)

Definition allocated (log : list cam_event) : list Z :=
  omap (λ e, match e with Allocated h => Some h | _ => None end) log.
Definition freed_handles (log : list cam_event) : list Z :=
  omap (λ e, match e with Freed h => Some h | _ => None end) log.

Lemma allocated_app l1 l2 : allocated (l1 ++ l2) = allocated l1 ++ allocated l2.
Proof. apply omap_app. Qed.
Lemma freed_app l1 l2 : freed_handles (l1 ++ l2) = freed_handles l1 ++ freed_handles l2.
Proof. apply omap_app. Qed.
Lemma allocated_freed l : allocated (Freed <$> l) = [].
Proof. by induction l. Qed.
Lemma freed_freed l : freed_handles (Freed <$> l) = l.
Proof. unfold freed_handles. induction l; cbn; congruence. Qed.

(** Every buffer the allocator gave is either held by a record or was freed. *)
Definition balanced (c : EvsV4lCamera) : Prop :=
  allocated (cam_log c) ≡ₚ freed_handles (cam_log c) ++ live_handles (mBuffers c).

Record counts_ok (c : EvsV4lCamera) : Prop := {
  ok_records : Forall record_ok (mBuffers c);
  ok_allowed : mFramesAllowed c = Z.of_nat (length (live_handles (mBuffers c)));
  ok_used : mFramesInUse c = Z.of_nat (used (mBuffers c));
  ok_limit : mFramesAllowed c ≤ MAX_BUFFERS_IN_FLIGHT;
}.

(** The frames lent to a client keep their buffers. *)
Definition lent_kept (c c' : EvsV4lCamera) : Prop :=
  ∀ i r, mBuffers c !! i = Some r → inUse r = true → mBuffers c' !! i = Some r.
(** What the bookkeeping does not touch. *)
Definition same_stream (c c' : EvsV4lCamera) : Prop :=
  mStream c' = mStream c ∧ mVideo c' = mVideo c ∧ mFormat c' = mFormat c
  ∧ mFillBufferFromVideo c' = mFillBufferFromVideo c.
Definition resized (c c' : EvsV4lCamera) : Prop :=
  counts_ok c' ∧ (balanced c → balanced c') ∧ lent_kept c c' ∧ same_stream c c'
  ∧ mFramesInUse c' = mFramesInUse c.

Lemma resized_refl c : counts_ok c → resized c c.
Proof. intros Hc. split_and!; try done. intros i r Hi _. exact Hi. Qed.
Lemma resized_trans c1 c2 c3 : resized c1 c2 → resized c2 c3 → resized c1 c3.
Proof.
  intros (_ & B1 & L1 & S1 & U1) (C2 & B2 & L2 & S2 & U2).
  destruct S1 as (?&?&?&?), S2 as (?&?&?&?).
  split_and!; [done|auto| |split_and!; congruence|congruence].
  intros i r Hi Hr. apply L2; [|done]. by apply L1.
Qed.

(** The number of buffers the allocator grants before its first failure. *)
Fixpoint granted (answers : list (option (Z * Z))) : Z :=
  match answers with Some _ :: rest => 1 + granted rest | _ => 0 end.
Lemma granted_nonneg answers : 0 ≤ granted answers.
Proof. induction answers as [|[]]; cbn; lia. Qed.

Lemma increase_spec answers n k c :
  counts_ok c → 0 ≤ k ≤ n → mFramesAllowed c + (n - k) ≤ MAX_BUFFERS_IN_FLIGHT →
  ∃ c', increaseAvailableFrames_Locked answers n k c = Val c' (k + Z.min (n - k) (granted answers))
    ∧ resized c c' ∧ mFramesAllowed c' = mFramesAllowed c + Z.min (n - k) (granted answers).
Proof.
  revert k c. induction answers as [|a answers IH]; intros k c Hc Hk Hmax;
    cbn [increaseAvailableFrames_Locked granted].
  { exists c. rewrite Z.min_r, !Z.add_0_r by lia. split_and!; auto using resized_refl. }
  case_decide as Hd.
  2: { exists c. replace (n - k) with 0 by lia.
       rewrite Z.min_l, !Z.add_0_r by (destruct a; [pose proof (granted_nonneg answers)|]; lia).
       split_and!; auto using resized_refl. }
  destruct a as [[h ppl]|].
  2: { exists c. rewrite Z.min_r, !Z.add_0_r by lia. split_and!; auto using resized_refl. }
  destruct Hc as [H1 H2 H3 H4]. unfold MAX_BUFFERS_IN_FLIGHT in *.
  destruct (store_handle_spec h _ H1) as (P1 & P2 & P3 & P4).
  set (c0 := if decide (mStride c = 0) then set_stride ppl c else c).
  assert (mBuffers c0 = mBuffers c ∧ mFramesAllowed c0 = mFramesAllowed c
    ∧ mFramesInUse c0 = mFramesInUse c ∧ cam_log c0 = cam_log c ∧ same_stream c c0) as (E1 & E2 & E3 & E4 & E5).
  { unfold c0. case_decide; split_and!; done. }
  set (c1 := set_buffers (store_handle h (mBuffers c0)) (u32 (mFramesAllowed c0 + 1))
               (mFramesInUse c0) [Allocated h] c0).
  assert (u32 (mFramesAllowed c0 + 1) = mFramesAllowed c + 1) as Eu.
  { rewrite E2. apply u32_small. unfold is_u32. lia. }
  assert (resized c c1) as Hr.
  { split_and!.
    - split; cbn [c1 set_buffers mBuffers mFramesAllowed mFramesInUse]; rewrite ?E1, ?Eu.
      + done.
      + rewrite P1. cbn [length]. lia.
      + by rewrite P2, E3.
      + unfold MAX_BUFFERS_IN_FLIGHT. lia.
    - unfold balanced. cbn [c1 set_buffers mBuffers cam_log].
      rewrite E1, E4, allocated_app, freed_app, P1. cbn [allocated freed_handles omap list_omap]. rewrite app_nil_r.
      intros ->. rewrite <- app_assoc. apply Permutation_app_head. by rewrite Permutation_app_comm.
    - intros i r Hi Hu. cbn [c1 set_buffers mBuffers]. rewrite E1. by apply P4.
    - exact E5.
    - exact E3. }
  destruct (IH (k + 1) c1) as (c' & E & Hr' & Ha).
  { apply Hr. }
  { lia. }
  { cbn [c1 set_buffers mFramesAllowed]. rewrite Eu. unfold MAX_BUFFERS_IN_FLIGHT. lia. }
  exists c'. pose proof (granted_nonneg answers).
  replace (k + Z.min (n - k) (1 + granted answers)) with (k + 1 + Z.min (n - (k + 1)) (granted answers)) by lia.
  split_and!; [exact E|by eapply resized_trans|]. rewrite Ha. cbn [c1 set_buffers mFramesAllowed]. rewrite Eu. lia.
Qed.

Lemma decrease_spec n c :
  counts_ok c → 0 ≤ n →
  ∃ c' removed, decreaseAvailableFrames_Locked n c = Val c' removed ∧ resized c c'
    ∧ mFramesAllowed c' = mFramesAllowed c - removed
    ∧ removed = (if decide (0 < n) then Z.min n (mFramesAllowed c - mFramesInUse c)
                 else mFramesAllowed c - mFramesInUse c).
Proof.
  intros [H1 H2 H3 H4] Hn. unfold decreaseAvailableFrames_Locked. run_m.
  destruct (release_idle n 0 (mBuffers c)) as [[l freed] m] eqn:E.
  destruct (release_idle_spec _ _ _ _ _ _ H1 E) as (P1 & P2 & P3 & P4 & P5 & P6).
  assert (idle (mBuffers c) = mFramesAllowed c - mFramesInUse c) as Ei by (unfold idle; lia).
  assert (Z.of_nat (length (live_handles l)) = mFramesAllowed c - m) as El.
  { rewrite H2, P1, length_app. lia. }
  unfold MAX_BUFFERS_IN_FLIGHT in *.
  assert (u32 (mFramesAllowed c - m) = mFramesAllowed c - m) as Eu.
  { apply u32_small. unfold is_u32. lia. }
  eexists _, _. split; [reflexivity|]. split_and!.
  - split_and!; [split| | | |]; cbn [set_buffers mBuffers mFramesAllowed mFramesInUse].
    + done.
    + by rewrite Eu, El.
    + by rewrite P2, H3.
    + rewrite Eu. unfold MAX_BUFFERS_IN_FLIGHT. lia.
    + unfold balanced. cbn [set_buffers mBuffers cam_log]. rewrite allocated_app, freed_app, allocated_freed, freed_freed, app_nil_r.
      intros ->. by rewrite P1, app_assoc.
    + intros i r Hi Hr. by apply P6.
    + done.
    + done.
  - exact Eu.
  - rewrite <- Ei. rewrite Z.sub_0_r in P5. lia.
Qed.

Lemma set_available_spec c n answers :
  counts_ok c → 1 ≤ n →
  ∃ c' r, setAvailableFrames_Locked n answers c = Val c' r ∧ resized c c'
    ∧ (r = true ↔ n ≤ MAX_BUFFERS_IN_FLIGHT ∧ n - mFramesAllowed c ≤ granted answers)
    ∧ (r = true → mFramesAllowed c' = Z.max n (mFramesInUse c))
    ∧ (r = false →
        mFramesAllowed c' = if decide (n ≤ MAX_BUFFERS_IN_FLIGHT ∧ granted answers = 0)
                            then mFramesInUse c else mFramesAllowed c).
Proof.
  intros Hc Hn. pose proof Hc as [H1 H2 H3 H4]. pose proof (used_le_live _ H1) as Hu.
  pose proof (granted_nonneg answers) as Hg.
  unfold setAvailableFrames_Locked, MAX_BUFFERS_IN_FLIGHT in *.
  rewrite (decide_False (P := n < 1)) by lia.
  case_decide as Hl.
  { exists c, false. split_and!; try done.
    - by apply resized_refl.
    - split; [done|]. lia.
    - intros _. rewrite decide_False; [done|]. lia. }
  run_m. case_decide as Hi.
  { destruct (increase_spec answers (n - mFramesAllowed c) 0 c) as (c1 & E & Hr & Ha);
      [done|lia|unfold MAX_BUFFERS_IN_FLIGHT; lia|].
    rewrite Z.sub_0_r, Z.add_0_l in E. rewrite Z.sub_0_r in Ha. rewrite E. case_decide as Hneed.
    - destruct (decrease_spec (Z.min (n - mFramesAllowed c) (granted answers)) c1) as (c2 & m & E2 & Hr2 & Ha2 & Em);
        [apply Hr|lia|]. rewrite E2.
      exists c2, false. split_and!; try done.
      + by eapply resized_trans.
      + split; [done|]. lia.
      + intros _. rewrite Ha2, Em.
        destruct Hr as (_ & _ & _ & _ & EU). rewrite EU. repeat case_decide; lia.
    - exists c1, true. split_and!; try done.
      + split; [lia|done].
      + lia. }
  case_decide as Hd.
  { destruct (decrease_spec (mFramesAllowed c - n) c) as (c2 & m & E2 & Hr2 & Ha2 & Em); [done|lia|].
    rewrite E2. exists c2, true. split_and!; try done.
    - split; [lia|done].
    - intros _. rewrite Ha2, Em. case_decide; lia. }
  exists c, true. split_and!; try done; [by apply resized_refl|split; [lia|done]|lia].
Qed.

(** resizing the set of buffers: a request for [n] of at most a hundred succeeds
    exactly when no more buffers are needed or the allocator grants them all, and then
    the camera has [n] of them (or as many as are lent out); a partial failure restores
    the old number, but when the very first allocation fails every idle buffer is freed.
    Lent frames keep their buffers and no buffer is leaked or freed twice. *)
Theorem v4l_set_frames c n answers :
  counts_ok c → isOpen (mVideo c) = true → 1 ≤ n →
  ∃ c' r, setMaxFramesInFlight n answers c = Val c' r ∧ resized c c'
    ∧ (r = EOK ↔ n ≤ MAX_BUFFERS_IN_FLIGHT ∧ n - mFramesAllowed c ≤ granted answers)
    ∧ (r = EOK → mFramesAllowed c' = Z.max n (mFramesInUse c))
    ∧ (r ≠ EOK → r = BUFFER_NOT_AVAILABLE ∧
        mFramesAllowed c' = if decide (n ≤ MAX_BUFFERS_IN_FLIGHT ∧ granted answers = 0)
                            then mFramesInUse c else mFramesAllowed c).
Proof.
  intros Hc Ho Hn. unfold setMaxFramesInFlight. run_m. rewrite Ho, decide_False by lia.
  destruct (set_available_spec c n answers Hc Hn) as (c' & r & E & Hr & Hiff & Ht & Hf). rewrite E.
  eexists _, _. split; [reflexivity|]. destruct r; split_and!; try done; try (by intros; auto).
  - by rewrite <- Hiff.
  - by rewrite <- Hiff.
Qed.

(** *** Returned frames *)

Lemma empty_slot_spec l j : empty_slot l = Some j → ∃ r, l !! j = Some r ∧ handle r = None.
Proof.
  unfold empty_slot. intros Hj. apply fmap_Some in Hj as [[i r] [Hf ->]].
  apply list_find_Some in Hf as (Hi & Hr & _). by exists r.
Qed.

Lemma move_down_spec i l r h :
  Forall record_ok l → l !! i = Some r → inUse r = false → handle r = Some h →
  live_handles (move_down i l) ≡ₚ live_handles l ∧ used (move_down i l) = used l
  ∧ Forall record_ok (move_down i l)
  ∧ (∀ k s, l !! k = Some s → inUse s = true → move_down i l !! k = Some s).
Proof.
  intros Hl Hi Hu Hh. unfold move_down. rewrite Hi. destruct (empty_slot l) as [j|] eqn:Ej; [|done].
  destruct (empty_slot_spec _ _ Ej) as (s & Hj & Hs).
  assert (i ≠ j) as Hij by congruence.
  assert (inUse s = false) as Hus.
  { destruct (inUse s) eqn:E; [|done]. pose proof (proj1 (Forall_lookup _ _) Hl j s Hj E) as [? ?]. congruence. }
  assert (alter (λ t, MkRecord (handle r) (inUse t)) j l = <[j := MkRecord (Some h) false]> l) as E1.
  { apply list_eq. intros k. rewrite Hh. destruct (decide (k = j)) as [->|].
    - rewrite list_lookup_alter_eq, Hj, list_lookup_insert_eq by (by eapply lookup_lt_Some).
      cbn. by rewrite Hus.
    - by rewrite list_lookup_alter_ne, list_lookup_insert_ne. }
  rewrite E1. set (l1 := <[j := _]> l).
  assert (l1 !! i = Some r) as Hi1 by (unfold l1; by rewrite list_lookup_insert_ne).
  assert (alter (λ t, MkRecord None (inUse t)) i l1 = <[i := MkRecord None false]> l1) as E2.
  { apply list_eq. intros k. destruct (decide (k = i)) as [->|].
    - rewrite list_lookup_alter_eq, Hi1, list_lookup_insert_eq by (by eapply lookup_lt_Some).
      cbn. by rewrite Hu.
    - by rewrite list_lookup_alter_ne, list_lookup_insert_ne. }
  rewrite E2.
  destruct (record_replace l j s Hj) as (rest1 & P1 & Q1).
  destruct (record_replace l1 i r Hi1) as (rest2 & P2 & Q2).
  assert (Forall record_ok l1) as Hl1 by (by apply Forall_insert).
  assert (h :: live_handles rest1 ≡ₚ h :: live_handles rest2) as HL.
  { pose proof (live_handles_Permutation _ _ (transitivity (symmetry (Q1 (MkRecord (Some h) false))) P2)) as HP.
    by rewrite !live_cons, Hh in HP. }
  apply Permutation_cons_inv in HL.
  assert (used rest1 = used rest2) as HU.
  { pose proof (used_Permutation _ _ (transitivity (symmetry (Q1 (MkRecord (Some h) false))) P2)) as HP.
    by rewrite !used_cons, Hu in HP. }
  split_and!.
  - rewrite (Q2 (MkRecord None false)), live_cons, P1, live_cons, Hs. by symmetry.
  - rewrite (Q2 (MkRecord None false)), used_cons, P1, used_cons, Hus. cbn. lia.
  - by apply Forall_insert.
  - intros k t Hk Ht. rewrite list_lookup_insert_ne by congruence.
    unfold l1. by rewrite list_lookup_insert_ne by congruence.
Qed.

(** when a frame whose index is beyond the number of buffers comes back, an empty
    record lower in the array exists, as the code claims, and its buffer moves there. *)
Theorem v4l_lower_slot_exists c i r :
  counts_ok c → mBuffers c !! i = Some r → is_Some (handle r) → mFramesAllowed c ≤ Z.of_nat i →
  ∃ j, empty_slot (mBuffers c) = Some j ∧ (j < i)%nat
    ∧ handle <$> move_down i (mBuffers c) !! j = Some (handle r).
Proof.
  intros [H1 H2 H3 H4] Hi [h Hh] Hge.
  assert (∃ j s, list_find (λ r, handle r = None) (mBuffers c) = Some (j, s) ∧ (j < i)%nat) as (j & s & Hf & Hlt).
  { destruct (list_find (λ r, handle r = None) (take i (mBuffers c))) as [[j s]|] eqn:E.
    - exists j, s. pose proof E as (Hj & _ & _)%list_find_Some.
      pose proof (lookup_lt_Some _ _ _ Hj) as Hlen. rewrite length_take in Hlen. split; [|lia].
      apply list_find_Some in E as (Hj' & Hs & Hm). apply list_find_Some. split_and!; [|done|].
      + rewrite lookup_take_Some in Hj'. by destruct Hj'.
      + intros k y Hk Hkj. apply (Hm k); [|done]. rewrite lookup_take_Some. split; [done|lia].
    - exfalso. apply list_find_None in E.
      assert (length (live_handles (take i (mBuffers c))) = i) as HL.
      { rewrite <- (length_take_le (mBuffers c) i) at 2 by (apply lookup_lt_Some in Hi; lia).
        induction E as [|x l Hx _ IH]; [done|]. rewrite live_cons. destruct (handle x); [cbn; lia|done]. }
      rewrite <- (take_drop_middle _ _ _ Hi) in H2. unfold live_handles in *.
      rewrite omap_app, length_app in H2. cbn in H2. rewrite Hh in H2. cbn in H2. lia. }
  assert (empty_slot (mBuffers c) = Some j) as He by (unfold empty_slot; by rewrite Hf).
  exists j. split_and!; [done|done|]. unfold move_down. rewrite Hi, He.
  apply list_find_Some in Hf as (Hj & _ & _).
  rewrite list_lookup_alter_ne by lia. rewrite list_lookup_alter_eq, Hj. done.
Qed.

Lemma done_spec b c :
  counts_ok c → balanced c → 0 ≤ bufferId b →
  ∃ c', doneWithFrame b c = Val c' tt ∧ counts_ok c' ∧ balanced c' ∧ same_stream c c'
    ∧ (∀ k s, mBuffers c !! k = Some s → inUse s = true → bufferId b ≠ Z.of_nat k →
        mBuffers c' !! k = Some s).
Proof.
  intros Hc Hb H0. pose proof Hc as [H1 H2 H3 H4]. unfold doneWithFrame. run_m.
  assert (∃ c', Val c tt = Val c' tt ∧ counts_ok c' ∧ balanced c' ∧ same_stream c c'
    ∧ (∀ k s, mBuffers c !! k = Some s → inUse s = true → bufferId b ≠ Z.of_nat k →
        mBuffers c' !! k = Some s)) as Hsame by (exists c; by split_and!).
  destruct (isOpen (mVideo c)); [|done]. destruct (memHandle b); [|done].
  destruct (mBuffers c !! Z.to_nat (bufferId b)) as [r|] eqn:Hi; [|done].
  destruct (inUse r) eqn:Hu; [|done]. clear Hsame.
  destruct (proj1 (Forall_lookup _ _) H1 _ _ Hi Hu) as [h Hh].
  set (i := Z.to_nat (bufferId b)) in *. set (l := <[i := MkRecord (handle r) false]> (mBuffers c)).
  destruct (record_replace _ _ _ Hi) as (rest & P & Q).
  assert (l !! i = Some (MkRecord (handle r) false)) as Hl
    by (apply list_lookup_insert_eq; by eapply lookup_lt_Some).
  assert (Forall record_ok l) as Hlok by (by apply Forall_insert).
  assert (live_handles l ≡ₚ live_handles (mBuffers c)) as HL.
  { unfold l. rewrite (Q _), P, !live_cons. done. }
  assert (used (mBuffers c) = S (used l)) as HU.
  { unfold l. rewrite (Q _), P, !used_cons, Hu. done. }
  set (l' := if decide (mFramesAllowed c ≤ bufferId b) then move_down i l else l).
  assert (live_handles l' ≡ₚ live_handles l ∧ used l' = used l ∧ Forall record_ok l'
    ∧ (∀ k s, l !! k = Some s → inUse s = true → l' !! k = Some s)) as (L1 & L2 & L3 & L4).
  { unfold l'. case_decide; [|done]. by apply (move_down_spec i l (MkRecord (handle r) false) h). }
  pose proof (used_le_live _ H1) as Hle. unfold MAX_BUFFERS_IN_FLIGHT in *.
  assert (u32 (mFramesInUse c - 1) = mFramesInUse c - 1) as Eu.
  { apply u32_small. unfold is_u32. lia. }
  eexists. split; [reflexivity|]. split_and!.
  - split; cbn [set_buffers mBuffers mFramesAllowed mFramesInUse]; [done|by rewrite L1, HL| |].
    + rewrite Eu, L2. lia.
    + done.
  - unfold balanced in *. cbn [set_buffers mBuffers cam_log]. by rewrite app_nil_r, L1, HL.
  - done.
  - intros k s Hk Hs Hne. cbn [set_buffers mBuffers]. apply L4; [|done].
    unfold l. rewrite list_lookup_insert_ne; [done|]. unfold i. lia.
Qed.

Lemma begin_spec c :
  counts_ok c →
  ∃ c' o, forwardFrame_begin c = Val c' o
    ∧ (is_Some o ↔ mFramesInUse c < mFramesAllowed c)
    ∧ counts_ok c' ∧ (balanced c → balanced c') ∧ same_stream c c'
    ∧ (∀ i, o = Some i → ∃ r h, mBuffers c !! i = Some r ∧ inUse r = false
          ∧ mBuffers c' !! i = Some (MkRecord (Some h) true)).
Proof.
  intros Hc. pose proof Hc as [H1 H2 H3 H4]. unfold forwardFrame_begin. run_m.
  case_decide as Hd.
  { exists c, None. split_and!; try done. split; [by intros []|lia]. }
  destruct (idle_exists _ H1) as (i & r & E); [lia|]. rewrite E.
  apply list_find_Some in E as (Hi & [Hu [h Hh]] & _).
  destruct (record_replace _ _ _ Hi) as (rest & P & Q). unfold MAX_BUFFERS_IN_FLIGHT in *.
  pose proof (used_le_live _ H1).
  assert (u32 (mFramesInUse c + 1) = mFramesInUse c + 1) as Eu.
  { apply u32_small. unfold is_u32. lia. }
  eexists _, _. split; [reflexivity|]. split_and!.
  - split; [lia|by eexists].
  - split; cbn [set_buffers mBuffers mFramesAllowed mFramesInUse].
    + apply Forall_insert; [done|]. intros _. by rewrite Hh.
    + rewrite (Q _), H2, P, !live_cons. done.
    + rewrite (Q _), Eu, H3, P, !used_cons, Hu. cbn. lia.
    + done.
  - unfold balanced. cbn [set_buffers mBuffers cam_log]. rewrite app_nil_r, (Q _), P, !live_cons. done.
  - done.
  - intros k [= <-]. exists r, h. split_and!; [done|done|]. cbn [set_buffers mBuffers].
    rewrite list_lookup_insert_eq by (by eapply lookup_lt_Some). by rewrite Hh.
Qed.

(** A buffer that could not be mapped is written through a null pointer. *)
Lemma forward_unmapped i d c : forwardFrame_end (Some i) false d c = Ub.
Proof. unfold forwardFrame_end. run_m. by destruct (mBuffers c !! i), (mFillBufferFromVideo c), (mStream c). Qed.

Lemma end_spec c i r d c' :
  counts_ok c → balanced c → mBuffers c !! i = Some r → inUse r = true →
  forwardFrame_end (Some i) true d c = Val c' tt →
  counts_ok c' ∧ balanced c' ∧ mStream c' = mStream c ∧ mFormat c' = mFormat c
  ∧ mFillBufferFromVideo c' = mFillBufferFromVideo c
  ∧ mCaptureThread (mVideo c') = mCaptureThread (mVideo c) ∧ mRunMode (mVideo c') = mRunMode (mVideo c)
  ∧ mDeviceFd (mVideo c') = mDeviceFd (mVideo c) ∧ mPixFormat (mVideo c') = mPixFormat (mVideo c).
Proof.
  intros [H1 H2 H3 H4] Hb Hi Hu. unfold forwardFrame_end, in_video, returnFrame, set_ready. run_m. rewrite Hi.
  destruct (mFillBufferFromVideo c) as [f|] eqn:Ef; [|done]. destruct (mStream c) as [s|] eqn:Es; [|done].
  assert (balanced (MkCamera (Some s) (mVideo c) (mFormat c) (mStride c) (mBuffers c) (mFramesAllowed c)
    (mFramesInUse c) (Some f) (cam_log c ++ [DeliverFrame s (MkBuffer (Z.of_nat i) (handle r))]))) as Hb'.
  { unfold balanced in *. cbn [cam_log mBuffers]. rewrite allocated_app, freed_app. cbn [allocated freed_handles omap list_omap].
    by rewrite !app_nil_r. }
  destruct d; intros [= <-].
  { split_and!; try done. }
  destruct (record_replace _ _ _ Hi) as (rest & P & Q).
  assert (alter (λ r, MkRecord (handle r) false) i (mBuffers c) = <[i := MkRecord (handle r) false]> (mBuffers c)) as Ea.
  { apply list_eq. intros k. destruct (decide (k = i)) as [->|].
    - rewrite list_lookup_alter_eq, Hi, list_lookup_insert_eq by (by eapply lookup_lt_Some). done.
    - by rewrite list_lookup_alter_ne, list_lookup_insert_ne. }
  pose proof (used_le_live _ H1). unfold MAX_BUFFERS_IN_FLIGHT in *.
  assert (used (mBuffers c) = S (used rest)) as HU by (by rewrite P, used_cons, Hu).
  assert (u32 (mFramesInUse c - 1) = mFramesInUse c - 1) as Eu.
  { apply u32_small. unfold is_u32. lia. }
  split_and!; try done.
  - split; cbn [set_buffers set_stream mBuffers mFramesAllowed mFramesInUse]; rewrite ?Ea.
    + by apply Forall_insert.
    + rewrite (Q _), H2, P, !live_cons. done.
    + rewrite Eu, (Q _), used_cons. cbn. lia.
    + done.
  - unfold balanced in *. cbn [set_buffers set_stream mBuffers cam_log] in *.
    rewrite Ea, app_nil_r, (Q _), Hb', P, !live_cons. done.
Qed.

(** *** The device below the camera *)

Definition video_ok (v : VideoCapture) : Prop :=
  (mRunMode v = None ∨ mRunMode v = Some STOPPED ∨ mRunMode v = Some RUN
   ∨ mRunMode v = Some (Z.lor RUN STOPPING))
  ∧ (mCaptureThread v = Collecting → mRunMode v = Some RUN ∧ is_Some (mDeviceFd v)).
Definition same_device (v v' : VideoCapture) : Prop :=
  mDeviceFd v' = mDeviceFd v ∧ mPixFormat v' = mPixFormat v.

Lemma map_buffers_same l i u b u' :
  map_buffers i l u = Val u' b →
  same_device u u' ∧ mRunMode u' = mRunMode u ∧ mCaptureThread u' = mCaptureThread u.
Proof.
  revert i u. induction l as [|e l IH]; intros i u; cbn [map_buffers]; run_m.
  { by intros [= <- <-]. }
  destruct (b_query e); [|by intros [= <- <-]].
  destruct (mPixelBuffer u !! i) as [[]|]; [by intros [= <- <-]| |done].
  destruct (b_map e); [|by intros [= <- <-]].
  destruct (b_queue e); [|by intros [= <- <-]]. intros H. by destruct (IH _ _ H) as ([? ?] & ? & ?).
Qed.

Lemma start_video e v v' b :
  video_ok v → is_Some (mDeviceFd v) → startStream e v = Val v' b →
  video_ok v' ∧ same_device v v' ∧ (b = false → mCaptureThread v' = mCaptureThread v).
Proof.
  intros [Hm Ht] Hfd. unfold startStream, fetch_or, set_mode, set_callback, set_thread. run_m.
  destruct (mRunMode v) as [m|] eqn:Em; [|done]. cbv beta iota.
  case_decide as Hrun.
  { intros [= <- <-]. split_and!; [|done|done]. split; cbn.
    - destruct Hm as [|[[= ->]|[[= ->]|[= ->]]]]; [done|by destruct Hrun|by do 2 right; left|by do 3 right].
    - intros Hc. destruct (Ht Hc) as [[= ->] ?]. done. }
  assert (m = STOPPED) as -> by (destruct Hm as [|[[= ->]|[[= ->]|[= ->]]]]; done).
  assert (mCaptureThread v ≠ Collecting) as Hnc by (intros Hc; by destruct (Ht Hc)).
  destruct (s_reqbufs e).
  2: { intros [= <- <-]. split_and!; [|done|done]. split; cbn; [auto|done]. }
  destruct (map_buffers _ _ _) as [u ok| |] eqn:Eu; [|done|done].
  apply map_buffers_same in Eu as ([D1 D2] & U1 & U2). cbn in D1, D2, U1, U2.
  destruct ok.
  2: { intros [= <- <-]. split_and!; [|by split|done]. split; rewrite ?U1, ?U2; auto. done. }
  destruct (s_streamon e).
  2: { intros [= <- <-]. split_and!; [|by split|done]. split; rewrite ?U1, ?U2; auto. done. }
  cbn [mCaptureThread]. destruct (mCaptureThread u) eqn:Ec; [|done|done].
  intros [= <- <-]. split_and!; [|by split|done]. split; cbn; rewrite ?U1, ?D1; auto.
Qed.

Lemma stop_video v v' :
  video_ok v → stopStream v = Val v' tt →
  video_ok v' ∧ same_device v v' ∧ mCaptureThread v' ≠ Collecting.
Proof.
  intros [Hm Ht]. unfold stopStream, fetch_or, join, unmap_all, set_mode, set_pixels, set_callback, set_thread.
  run_m. destruct (mRunMode v) as [m|] eqn:Em; [|done]. cbv beta iota.
  destruct Hm as [|[[= ->]|[[= ->]|[= ->]]]]; [done|..]; cbn.
  - assert (mCaptureThread v ≠ Collecting) as Hnc by (intros Hc; by destruct (Ht Hc)).
    intros [= <-]. split_and!; [|done|done]. split; cbn; [auto|done].
  - destruct (mCaptureThread v) eqn:Ec; intros [= <-]; (split_and!; [|done|done]); (split; cbn; [auto|done]).
  - assert (mCaptureThread v ≠ Collecting) as Hnc by (intros Hc; by destruct (Ht Hc)).
    intros [= <-]. split_and!; [|done|done]. split; cbn; [auto|done].
Qed.

(** ** The camera and its capture thread

    The client's calls take the lock one at a time; the capture thread runs the two
    parts of [forwardFrame] between them.  [Some i]: record [i] was made busy and its
    frame is not yet delivered.  Stopping waits for the thread.  Clients do not return the
    frame that is on its way to them ([v4l_early_return] shows why); any other return, of
    frames that are not lent out and of unknown ones included, is allowed. *)

Inductive cam_step : EvsV4lCamera * option nat → EvsV4lCamera * option nat → Prop :=
  | step_set c t n answers c' r :
      setMaxFramesInFlight n answers c = Val c' r → cam_step (c, t) (c', t)
  | step_start c t stream answers e c' r :
      startVideoStream stream answers e c = Val c' r → cam_step (c, t) (c', t)
  | step_done c t b c' :
      0 ≤ bufferId b → (∀ i, t = Some i → bufferId b ≠ Z.of_nat i) →
      doneWithFrame b c = Val c' tt → cam_step (c, t) (c', t)
  | step_stop c c' : stopVideoStream c = Val c' tt → cam_step (c, None) (c', None)
  | step_shutdown c c' : shutdown c = Val c' tt → cam_step (c, None) (c', None)
  | step_collect c dequeued c' b :
      mCaptureThread (mVideo c) = Collecting →
      in_video (collectFrames_step dequeued) c = Val c' b → cam_step (c, None) (c', None)
  | step_begin c c' o :
      mCaptureThread (mVideo c) = Collecting → forwardFrame_begin c = Val c' o →
      cam_step (c, None) (c', o)
  | step_end c i locked delivered c' :
      forwardFrame_end (Some i) locked delivered c = Val c' tt → cam_step (c, Some i) (c', None).

Inductive cam_reach : EvsV4lCamera * option nat → Prop :=
  | reach_new e c : new_camera e = Val c tt → cam_reach (c, None)
  | reach_step x y : cam_reach x → cam_step x y → cam_reach y.

Record cam_inv (c : EvsV4lCamera) (t : option nat) : Prop := {
  inv_counts : isOpen (mVideo c) = true → counts_ok c;
  inv_balanced : balanced c;
  inv_transit : ∀ i, t = Some i → is_Some (mStream c) ∧ isOpen (mVideo c) = true
                  ∧ ∃ h, mBuffers c !! i = Some (MkRecord (Some h) true);
  inv_thread : mCaptureThread (mVideo c) = Collecting → is_Some (mStream c);
  inv_video : video_ok (mVideo c);
  inv_format : mFormat c = RGBA_8888;
  inv_fill : is_Some (mFillBufferFromVideo c) → mPixFormat (mVideo c) = FMT_YUYV;
  inv_filled : is_Some (mStream c) → mPixFormat (mVideo c) = FMT_YUYV →
               is_Some (mFillBufferFromVideo c);
}.

Lemma isOpen_same v v' : mDeviceFd v' = mDeviceFd v → isOpen v' = isOpen v.
Proof. unfold isOpen. by intros ->. Qed.
Lemma isOpen_some v : isOpen v = true → is_Some (mDeviceFd v).
Proof. unfold isOpen. by intros H%bool_decide_eq_true. Qed.

(** A change of the buffers alone. *)
Lemma inv_resized c c' t :
  cam_inv c t → same_stream c c' → (isOpen (mVideo c) = true → counts_ok c') → balanced c' →
  (∀ i h, t = Some i → mBuffers c !! i = Some (MkRecord (Some h) true) →
     mBuffers c' !! i = Some (MkRecord (Some h) true)) → cam_inv c' t.
Proof.
  intros [I1 I2 I3 I4 I5 I6 I7 I8] (S1 & S2 & S3 & S4) Hc Hb Ht. split; rewrite ?S1, ?S2, ?S3, ?S4; auto.
  intros i Hi. destruct (I3 i Hi) as (? & ? & h & Hh). split_and!; [done|done|]. exists h. eauto.
Qed.

Lemma inv_set c t n answers c' r :
  cam_inv c t → setMaxFramesInFlight n answers c = Val c' r → cam_inv c' t.
Proof.
  intros Hi. unfold setMaxFramesInFlight. run_m. destruct (isOpen (mVideo c)) eqn:Ho; [|by intros [= <- _]].
  case_decide as Hn; [by intros [= <- _]|].
  destruct (set_available_spec c n answers (inv_counts _ _ Hi Ho)) as (c1 & b & E & (R1 & R2 & R3 & R4 & _) & _); [lia|].
  rewrite E. intros [= <- _]. apply (inv_resized c c1 t Hi); auto.
  - apply R2, Hi.
Qed.

Lemma inv_start c t stream answers e c' r :
  cam_inv c t → startVideoStream stream answers e c = Val c' r → cam_inv c' t.
Proof.
  intros Hi. unfold startVideoStream. run_m. destruct (isOpen (mVideo c)) eqn:Ho; [|by intros [= <- _]].
  destruct (mStream c) eqn:Es; [by intros [= <- _]|].
  assert (t = None) as ->.
  { destruct t as [i|]; [|done]. destruct (inv_transit _ _ Hi i eq_refl) as [[s Hs] _]. congruence. }
  assert (∃ c1 b, (if decide (mFramesAllowed c < 1) then setAvailableFrames_Locked 1 answers
                   else λ s, Val s true) c = Val c1 b ∧ cam_inv c1 None ∧ same_stream c c1) as (c1 & b & E & Hi1 & S1 & S2 & S3 & S4).
  { case_decide; [|by exists c, true].
    destruct (set_available_spec c 1 answers (inv_counts _ _ Hi Ho)) as (c1 & b & E & (R1 & R2 & R3 & R4 & _) & _); [done|].
    exists c1, b. split; [done|]. split; [|exact R4].
    apply (inv_resized c c1 None Hi); auto. apply R2, Hi. }
  rewrite E. destruct b; [|by intros [= <- _]]. unfold in_video. run_m. cbn [mVideo set_stream set_fill].
  destruct (startStream e (mVideo c1)) as [v b| |] eqn:Ev; [|done|done].
  destruct Hi1 as [I1 I2 I3 I4 I5 I6 I7 I8].
  apply start_video in Ev as (V1 & [V2 V3] & V4); [|done|apply isOpen_some; by rewrite S2].
  assert (mCaptureThread (mVideo c1) ≠ Collecting) as Hnc.
  { intros Hc. destruct (I4 Hc). congruence. }
  assert (balanced (MkCamera None (mVideo c1) (mFormat c1) (mStride c1) (mBuffers c1) (mFramesAllowed c1)
    (mFramesInUse c1) None (cam_log c1))) as Hb by done.
  assert (isOpen v = true → counts_ok c1) as Hcnt.
  { rewrite (isOpen_same (mVideo c1) v V2). auto. }
  destruct b; intros [= <- _]; split; cbn [mVideo mStream mFormat mFillBufferFromVideo mBuffers set_stream set_fill]; try done.
  all: try (unfold balanced; cbn [cam_log mBuffers set_stream set_fill]; rewrite ?app_nil_r; done).
  all: try (intros Ho'; destruct (Hcnt Ho'); by split).
  - rewrite I6, V3. intros [f Hf]. destruct (mPixFormat (mVideo c1)) eqn:Ef; cbn in Hf; try done; apply I7; by rewrite Hf.
  - rewrite I6, V3. intros _ ->. by eexists.
  - intros Hc. by rewrite V4 in Hc.
  - rewrite I6, V3. intros [f Hf]. destruct (mPixFormat (mVideo c1)) eqn:Ef; cbn in Hf; try done; apply I7; by rewrite Hf.
Qed.

Lemma inv_stop c c' :
  cam_inv c None → stopVideoStream c = Val c' tt →
  cam_inv c' None ∧ mCaptureThread (mVideo c') ≠ Collecting ∧ mStream c' = None
  ∧ mBuffers c' = mBuffers c.
Proof.
  intros [I1 I2 I3 I4 I5 I6 I7 I8]. unfold stopVideoStream, in_video. run_m.
  destruct (stopStream (mVideo c)) as [v []| |] eqn:Ev; [|done|done].
  apply stop_video in Ev as (V1 & [V2 V3] & V4); [|done]. cbn [mStream].
  destruct (mStream c) as [s|] eqn:Es; intros [= <-]; (split_and!; [split|..]);
    cbn [mVideo mStream mFormat mFillBufferFromVideo mBuffers set_stream]; rewrite ?V3; try done.
  all: try (intros Ho; rewrite (isOpen_same (mVideo c) v V2) in Ho; destruct (I1 Ho); by split).
  - unfold balanced in *. cbn [cam_log mBuffers set_stream]. rewrite allocated_app, freed_app. by rewrite !app_nil_r.
Qed.

Lemma inv_shutdown c c' : cam_inv c None → shutdown c = Val c' tt → cam_inv c' None.
Proof.
  intros Hi. unfold shutdown. run_m.
  destruct (stopVideoStream c) as [c1 []| |] eqn:E1; [|done|done].
  destruct (inv_stop c c1 Hi E1) as ([I1 I2 I3 I4 I5 I6 I7 I8] & Hnc & Hs & _).
  unfold in_video, close, set_fd. run_m.
  assert (∀ v, mRunMode v = mRunMode (mVideo c1) → mCaptureThread v = mCaptureThread (mVideo c1) →
    mPixFormat v = mPixFormat (mVideo c1) → isOpen v = false →
    cam_inv (set_buffers [] (mFramesAllowed c1) (mFramesInUse c1) (Freed <$> live_handles (mBuffers c1))
      (MkCamera (mStream c1) v (mFormat c1) (mStride c1) (mBuffers c1) (mFramesAllowed c1) (mFramesInUse c1)
         (mFillBufferFromVideo c1) (cam_log c1))) None) as Hgo.
  { intros v W1 W2 W3 W4. split; cbn [mVideo mStream mFormat mFillBufferFromVideo set_buffers]; rewrite ?W3, ?W2, ?W4; auto.
    - done.
    - unfold balanced in *. cbn [cam_log mBuffers set_buffers].
      rewrite allocated_app, freed_app, allocated_freed, freed_freed, !app_nil_r. done.
    - done.
    - destruct I5 as [J1 J2]. split; [by rewrite W1|by rewrite W2]. }
  destruct (isOpen (mVideo c1)) eqn:Ho; intros [= <-]; by apply Hgo.
Qed.

Lemma inv_step x y : cam_inv x.1 x.2 → cam_step x y → cam_inv y.1 y.2.
Proof.
  intros Hi Hs. destruct Hs as [c t n a c' r E|c t s a e c' r E|c t b c' H0 Ht E|c c' E|c c' E|c dq c' b Hc E
    |c c' o Hc E|c i lk d c' E]; cbn in *.
  - by eapply inv_set.
  - by eapply inv_start.
  - destruct (isOpen (mVideo c)) eqn:Ho.
    + destruct (done_spec b c (inv_counts _ _ Hi Ho) (inv_balanced _ _ Hi) H0) as (c1 & E1 & D1 & D2 & D3 & D4).
      rewrite E in E1. injection E1 as ->. apply (inv_resized c c1 t Hi); auto.
    + revert E. unfold doneWithFrame. run_m. rewrite Ho. by intros [= <-].
  - by destruct (inv_stop c c' Hi E).
  - by eapply inv_shutdown.
  - destruct Hi as [I1 I2 I3 I4 I5 I6 I7 I8].
    revert E. unfold in_video, collectFrames_step, set_ready, set_mode, set_thread. run_m.
    destruct (proj2 I5 Hc) as [Hm Hfd]. rewrite Hm, decide_True by done.
    destruct dq; intros [= <- _]; split; cbn [mVideo mStream mFormat mFillBufferFromVideo mBuffers]; try done.
    all: try (intros Ho; destruct (I1 Ho); by split).
    split; cbn; [auto|done].
  - assert (isOpen (mVideo c) = true) as Ho by (unfold isOpen; apply bool_decide_eq_true, (proj2 (inv_video _ _ Hi) Hc)).
    destruct (begin_spec c (inv_counts _ _ Hi Ho)) as (c1 & o1 & E1 & _ & B2 & B3 & B4 & B5).
    rewrite E in E1. injection E1 as -> ->. destruct Hi as [I1 I2 I3 I4 I5 I6 I7 I8]. pose proof B4 as (S1 & S2 & S3 & S4).
    split; rewrite ?S1, ?S2, ?S3, ?S4; auto. intros i ->. destruct (B5 i eq_refl) as (r & h & _ & _ & Hh).
    split_and!; [auto|done|by exists h].
  - destruct (inv_transit _ _ Hi i eq_refl) as (Hst & Ho & h & Hh).
    change (forwardFrame_end (Some i) lk d c = Val c' tt) in E. destruct lk; [|by rewrite forward_unmapped in E].
    destruct (end_spec c i _ d c' (inv_counts _ _ Hi Ho) (inv_balanced _ _ Hi) Hh eq_refl E)
      as (D1 & D2 & D3 & D4 & D5 & D6 & D7 & D8 & D9).
    destruct Hi as [I1 I2 I3 I4 I5 I6 I7 I8].
    split; rewrite ?D3, ?D4, ?D5, ?D6, ?D9; auto; [done|].
    destruct I5 as [J1 J2]. split; rewrite ?D6, ?D7, ?D8; auto.
Qed.

Lemma cam_reach_inv x : cam_reach x → cam_inv x.1 x.2.
Proof.
  induction 1 as [e c E|x y _ IH Hs]; [|by eapply inv_step].
  cbn. revert E. unfold new_camera, in_video, open, set_fd, set_pixels, set_format, set_mode, set_ready. run_m.
  cbn. destruct (o_fd e); [destruct (o_querycap e), (o_capture e), (o_format e) as [[f [[w h] p]]|]|];
    intros [= <-]; split; cbn; try done.
  all: first [by intros [? ?] | by unfold balanced | (intros _; by split) | (split; cbn; [auto|done])].
Qed.


(** delivering a captured frame is defined exactly when the camera produces YUYV
    images: for any other format no transfer function was chosen, and the null function
    pointer is called. *)
Theorem v4l_frame_defined c i delivered :
  cam_reach (c, Some i) →
  forwardFrame_end (Some i) true delivered c ≠ Ub ↔ mPixFormat (mVideo c) = FMT_YUYV.
Proof.
  intros Hr. pose proof (cam_reach_inv _ Hr) as [I1 I2 I3 I4 I5 I6 I7 I8]. cbn in *.
  destruct (I3 i eq_refl) as ([s Hs] & _ & h & Hh).
  unfold forwardFrame_end, in_video, returnFrame, set_ready. run_m. rewrite Hh, Hs. split.
  - intros Hd. destruct (mFillBufferFromVideo c) eqn:E; [|done]. apply I7. by eexists.
  - intros Hf. destruct (I8 ltac:(by eexists) Hf) as [f ->]. by destruct delivered.
Qed.

(** shutting the camera down frees every buffer it was given exactly once, and ends
    the client's stream. *)
Theorem v4l_shutdown_frees_all c c' :
  cam_reach (c, None) → shutdown c = Val c' tt →
  allocated (cam_log c') ≡ₚ freed_handles (cam_log c') ∧ isOpen (mVideo c') = false
  ∧ mStream c' = None.
Proof.
  intros Hr Hs. pose proof (cam_reach_inv _ (reach_step _ _ Hr (step_shutdown _ _ Hs))) as Hi.
  cbn in Hi. pose proof (inv_balanced _ _ Hi) as Hb. revert Hs. unfold shutdown. run_m.
  destruct (stopVideoStream c) as [c1 []| |] eqn:E1; [|done|done].
  destruct (inv_stop c c1 (cam_reach_inv _ Hr) E1) as (_ & _ & Hst & _).
  unfold in_video, close, set_fd. run_m.
  destruct (isOpen (mVideo c1)) eqn:Ho; intros [= <-]; unfold balanced in Hb;
    cbn [set_buffers mBuffers cam_log mVideo mStream live_handles omap list_omap] in *;
    rewrite app_nil_r in Hb; by split_and!.
Qed.

(** ** Witnesses: a YUYV camera that lends one of its two buffers *)

Definition ex_open : open_env := MkOpenEnv (Some 7) true true (Some (FMT_YUYV, (640, 480, 1280))).
Definition ex_buffer : buffer_env := MkBufferEnv true true true.
Definition ex_start : start_env := MkStartEnv true [ex_buffer; ex_buffer] true.
Definition ex_bad_start : start_env := MkStartEnv true [ex_buffer; MkBufferEnv true false true] true.
Definition ex_answers : list (option (Z * Z)) := [Some (100, 640); Some (101, 640)].
Definition cam_of {A} (o : outcome EvsV4lCamera A) : EvsV4lCamera :=
  match o with
  | Val c _ => c
  | _ => MkCamera None new_capture RGBA_8888 0 [] 0 0 None []
  end.
Definition ex_cam0 : EvsV4lCamera := Eval vm_compute in cam_of (new_camera ex_open).
Definition ex_cam1 : EvsV4lCamera := Eval vm_compute in cam_of (setMaxFramesInFlight 2 ex_answers ex_cam0).
Definition ex_cam2 : EvsV4lCamera := Eval vm_compute in cam_of (startVideoStream 5 [] ex_start ex_cam1).
Definition ex_cam3 : EvsV4lCamera := Eval vm_compute in cam_of (forwardFrame_begin ex_cam2).
Definition ex_cam4 : EvsV4lCamera := Eval vm_compute in cam_of (forwardFrame_end (Some 0%nat) true true ex_cam3).

Lemma ex_cam_reach :
  cam_reach (ex_cam1, None) ∧ cam_reach (ex_cam3, Some 0%nat) ∧ cam_reach (ex_cam4, None).
Proof.
  assert (cam_reach (ex_cam0, None)) as R0 by (apply (reach_new ex_open); reflexivity).
  assert (cam_reach (ex_cam1, None)) as R1.
  { eapply reach_step; [exact R0|]. by apply (step_set _ _ 2 ex_answers _ EOK). }
  assert (cam_reach (ex_cam2, None)) as R2.
  { eapply reach_step; [exact R1|]. by apply (step_start _ _ 5 [] ex_start _ EOK). }
  assert (cam_reach (ex_cam3, Some 0%nat)) as R3.
  { eapply reach_step; [exact R2|]. by apply step_begin. }
  split_and!; [done|done|]. eapply reach_step; [exact R3|]. by apply (step_end _ _ true true).
Qed.
Lemma ex_cam_counts : counts_ok ex_cam4.
Proof. apply (inv_counts _ None); [|reflexivity]. apply (cam_reach_inv (ex_cam4, None)), ex_cam_reach. Qed.

Lemma v4l_set_frames_witness :
  ∃ c', setMaxFramesInFlight 3 [None] ex_cam4 = Val c' BUFFER_NOT_AVAILABLE
    ∧ mFramesAllowed ex_cam4 = 2 ∧ mFramesAllowed c' = 1.
Proof.
  destruct (v4l_set_frames ex_cam4 3 [None] ex_cam_counts eq_refl ltac:(lia))
    as (c' & r & E & _ & Hiff & _ & Hf).
  assert (r ≠ EOK) as Hr by (intros ->; destruct (proj1 Hiff eq_refl) as [_ Hc]; revert Hc; vm_compute; congruence).
  destruct (Hf Hr) as [-> Ha]. exists c'. split; [exact E|]. split; [reflexivity|]. rewrite Ha. reflexivity.
Defined.


Lemma v4l_frame_defined_witness : forwardFrame_end (Some 0%nat) true false ex_cam3 ≠ Ub.
Proof. apply (v4l_frame_defined ex_cam3 0 false (proj1 (proj2 ex_cam_reach))). reflexivity. Defined.

(** A client that returns the frame that is on its way, whose delivery fails then: it is
    given back twice, and the number of frames in use wraps around. *)
Lemma v4l_early_return :
  let c := cam_of (doneWithFrame (MkBuffer 0 (Some 100)) ex_cam3) in
  mFramesInUse ex_cam3 = 1 ∧ mFramesInUse c = 0
  ∧ mFramesInUse (cam_of (forwardFrame_end (Some 0%nat) true false c)) = 2 ^ 32 - 1.
Proof. vm_compute. split; [reflexivity|split; reflexivity]. Qed.

Definition ex_cam5 : EvsV4lCamera := Eval vm_compute in cam_of (shutdown ex_cam4).
Lemma v4l_shutdown_frees_all_witness :
  shutdown ex_cam4 = Val ex_cam5 tt ∧ allocated (cam_log ex_cam5) ≡ₚ freed_handles (cam_log ex_cam5).
Proof.
  assert (shutdown ex_cam4 = Val ex_cam5 tt) as E by (vm_compute; reflexivity).
  split; [exact E|].
  exact (proj1 (v4l_shutdown_frees_all ex_cam4 ex_cam5 (proj2 (proj2 ex_cam_reach)) E)).
Defined.

(** Three buffers, of which the third is lent and the first was freed. *)
Definition ex_sparse : EvsV4lCamera :=
  MkCamera (Some 5) (mVideo ex_cam4) RGBA_8888 640
    [MkRecord None false; MkRecord (Some 101) false; MkRecord (Some 102) true] 2 1
    (Some fillRGBAFromYUYV) [].
Lemma v4l_lower_slot_exists_witness :
  empty_slot (mBuffers ex_sparse) = Some 0%nat
  ∧ move_down 2 (mBuffers ex_sparse)
    = [MkRecord (Some 102) false; MkRecord (Some 101) false; MkRecord None true].
Proof.
  assert (counts_ok ex_sparse) as Hc.
  { split; [|reflexivity|reflexivity|done].
    repeat (apply Forall_cons_2; [intros [=]; by eexists|]). apply Forall_nil_2. }
  destruct (v4l_lower_slot_exists ex_sparse 2 _ Hc eq_refl ltac:(by eexists) ltac:(done)) as (j & Ej & _).
  split; reflexivity.
Defined.

Lemma capture_restartable_witness :
  ∃ v1 v3 v4, startStream ex_start (mVideo ex_cam0) = Val v1 true ∧ stopStream v1 = Val v3 tt
    ∧ startStream ex_start v3 = Val v4 true.
Proof.
  assert (good_start ex_start) as Hg by (split_and!; [done|done|]; by eexists _, _, _).
  destruct (capture_restartable ex_start ex_start 0 (mVideo ex_cam0)) as (v1 & E1 & H1); [by split_and!|done|done|].
  destruct (H1 v1 (run_none v1)) as (v3 & E3 & v4 & E4). exists v1, v3, v4. by split_and!.
Defined.

Definition video_of {A} (o : outcome VideoCapture A) : VideoCapture :=
  match o with Val v _ => v | _ => new_capture end.
Definition ex_failed : VideoCapture := Eval vm_compute in video_of (startStream ex_bad_start (mVideo ex_cam0)).
Definition ex_stopped : VideoCapture := Eval vm_compute in video_of (stopStream ex_failed).
Definition ex_retried : VideoCapture := Eval vm_compute in video_of (startStream ex_start ex_stopped).
Lemma capture_wedged_by_failed_start_witness :
  startStream ex_bad_start (mVideo ex_cam0) = Val ex_failed false
  ∧ capture_ops [None; Some false] ex_failed ex_retried ∧ Forall (λ r, r ≠ Some true) [None; Some false].
Proof.
  assert (startStream ex_bad_start (mVideo ex_cam0) = Val ex_failed false) as E by (vm_compute; reflexivity).
  assert (capture_ops [None; Some false] ex_failed ex_retried) as Hops.
  { apply (ops_cons CStop _ _ _ ex_stopped); [vm_compute; reflexivity|].
    apply (ops_cons (CStart ex_start) _ _ _ ex_retried); [vm_compute; reflexivity|]. apply ops_none. }
  split; [exact E|]. split; [exact Hops|].
  refine (capture_wedged_by_failed_start ex_bad_start (mVideo ex_cam0) ex_failed _ ex_retried _ E Hops).
  by split_and!.
Defined.
