(* ===== verification/EvsManager.v ===== *)
(** * EVS: the camera manager

    Models android/hardware/xbox/evs/manager: HalCamera.{h,cpp} (one hardware camera
    shared by its clients), VirtualCamera.{h,cpp} (what a client sees of it) and
    Enumerator.{h,cpp}.  The service has a single thread, so calls do not interleave.
    The hardware camera is another process behind a binder: the class [HwCamera], whose
    operations always return, with an error when the process fails; [EvsDriver] gives an
    instance.  Calls to it and frames from it are recorded.  Objects that were closed or
    destroyed stay in the heap, marked, so that what they still held can be spoken of. *)

From S2P Require Import Prelude EvsDriver.

(** The hardware side of [IEvsCamera]. *)
Class HwCamera (H : Type) : Type := {
  hw_setMaxFramesInFlight : Z → H → H * EvsResult;
  hw_startVideoStream : H → H * EvsResult;
  hw_stopVideoStream : H → H;
  hw_doneWithFrame : BufferDesc → H → H;
  hw_cameraId : H → option Z;      (* getCameraInfo *)
}.

Inductive StreamState : Type := STOPPED | RUNNING | STOPPING.
#[global] Instance StreamState_eq_dec : EqDecision StreamState.
Proof. solve_decision. Defined.

Record FrameRecord : Type := MkFrame { frameId : Z; refCount : Z }.

Record VirtualCamera : Type := MkVirtual {
  attached : bool;                 (* mHalCamera is not null *)
  vStream : option Z;              (* mStream *)
  mFramesHeld : list BufferDesc;
  vFramesAllowed : Z;
  vState : StreamState;
  alive : bool;                    (* not yet destroyed *)
}.

Inductive hw_event : Type :=
  | HwSetMax (n : Z) (r : EvsResult)
  | HwStart (r : EvsResult)
  | HwStop
  | HwFrame (b : BufferDesc)       (* a frame from the hardware *)
  | HwDone (b : BufferDesc).

Section manager.
Context {H : Type} {HW : HwCamera H}.

Record HalCamera : Type := MkHal {
  mHwCamera : H;
  mClients : list Z;               (* weak pointers *)
  mStreamState : StreamState;
  mFrames : list FrameRecord;
  heap : gmap Z VirtualCamera;
  hw_log : list hw_event;
  delivered : list (Z * BufferDesc);
}.
Definition new_hal (hw : H) : HalCamera := MkHal hw [] STOPPED [] ∅ [] [].

Definition with_hw {A} (f : H → H * A) (ev : A → hw_event) : M HalCamera A :=
  s ← get;
  let '(hw, a) := f (mHwCamera s) in
  put (MkHal hw (mClients s) (mStreamState s) (mFrames s) (heap s) (hw_log s ++ [ev a]) (delivered s));;
  mret a.
Definition set_clients (l : list Z) : M HalCamera unit :=
  modify (λ s, MkHal (mHwCamera s) l (mStreamState s) (mFrames s) (heap s) (hw_log s) (delivered s)).
Definition set_frames (l : list FrameRecord) : M HalCamera unit :=
  modify (λ s, MkHal (mHwCamera s) (mClients s) (mStreamState s) l (heap s) (hw_log s) (delivered s)).
Definition set_virtual (id : Z) (v : VirtualCamera) : M HalCamera unit :=
  modify (λ s, MkHal (mHwCamera s) (mClients s) (mStreamState s) (mFrames s) (<[id := v]> (heap s))
                 (hw_log s) (delivered s)).
Definition log_frame (b : BufferDesc) : M HalCamera unit :=
  modify (λ s, MkHal (mHwCamera s) (mClients s) (mStreamState s) (mFrames s) (heap s)
                 (hw_log s ++ [HwFrame b]) (delivered s)).
Definition deref (id : Z) : M HalCamera VirtualCamera :=
  s ← get; match heap s !! id with Some v => mret v | None => undefined end.
(** A call on the client's stream object, which may be null. *)
Definition send (stream : option Z) (b : BufferDesc) : M HalCamera unit :=
  match stream with
  | None => undefined
  | Some st =>
      modify (λ s, MkHal (mHwCamera s) (mClients s) (mStreamState s) (mFrames s) (heap s)
                     (hw_log s) (delivered s ++ [(st, b)]))
  end.

(** [promote()]: the live clients, in the order of the list. *)
Definition promoted (s : HalCamera) : list (Z * VirtualCamera) :=
  omap (λ id, match heap s !! id with
              | Some v => if alive v then Some (id, v) else None
              | None => None
              end) (mClients s).

(** ** HalCamera *)

Definition changeFramesInFlight (delta : Z) : M HalCamera bool :=
  s ← get;
  let bufferCount := foldl (λ n p, u32 (n + vFramesAllowed p.2)) 0 (promoted s) in
  let bufferCount := u32 (bufferCount + delta) in
  let bufferCount := if decide (bufferCount < 1) then 1 else bufferCount in
  r ← with_hw (hw_setMaxFramesInFlight bufferCount) (HwSetMax bufferCount);
  if decide (r = EOK) then
    s ← get; set_frames (filter (λ f, 0 < refCount f) (mFrames s));; mret true
  else mret false.

Definition clientStreamStarting : M HalCamera EvsResult :=
  s ← get;
  if decide (mStreamState s = STOPPED) then with_hw hw_startVideoStream HwStart else mret EOK.

Definition clientStreamEnding : M HalCamera unit :=
  s ← get;
  let stillRunning := existsb (λ p, bool_decide (vState p.2 = RUNNING)) (promoted s) in
  if stillRunning then mret tt
  else with_hw (λ h, (hw_stopVideoStream h, tt)) (λ _, HwStop).

(** The count of the first record of a frame, and the records with it decreased. *)
Fixpoint refs (x : Z) (l : list FrameRecord) : Z :=
  match l with
  | [] => 0
  | r :: l' => if decide (frameId r = x) then refCount r else refs x l'
  end.
Fixpoint drop_ref (x : Z) (l : list FrameRecord) : option (list FrameRecord) :=
  match l with
  | [] => None
  | r :: l' =>
      if decide (frameId r = x) then Some (MkFrame x (u32 (refCount r - 1)) :: l')
      else cons r <$> drop_ref x l'
  end.

Definition hal_doneWithFrame (b : BufferDesc) : M HalCamera unit :=
  s ← get;
  match drop_ref (bufferId b) (mFrames s) with
  | None => mret tt
  | Some l =>
      set_frames l;;
      if decide (refs (bufferId b) l ≤ 0) then
        with_hw (λ h, (hw_doneWithFrame b h, tt)) (λ _, HwDone b)
      else mret tt
  end.

(** A free record is reused, otherwise one is added. *)
Fixpoint record_frame (x k : Z) (l : list FrameRecord) : list FrameRecord :=
  match l with
  | [] => [MkFrame x k]
  | r :: l' => if decide (refCount r = 0) then MkFrame x k :: l' else r :: record_frame x k l'
  end.

(** ** VirtualCamera *)

Definition deliver_virtual (id : Z) (b : BufferDesc) : M HalCamera bool :=
  v ← deref id;
  match memHandle b with
  | None =>
      send (vStream v) b;;
      set_virtual id (MkVirtual (attached v) (vStream v) (mFramesHeld v) (vFramesAllowed v) STOPPED (alive v));;
      mret true
  | Some _ =>
      if decide (vState v = STOPPED) then mret false
      else if decide (vFramesAllowed v ≤ Z.of_nat (length (mFramesHeld v))) then mret false
      else
        set_virtual id (MkVirtual (attached v) (vStream v) (mFramesHeld v ++ [b]) (vFramesAllowed v)
                          (vState v) (alive v));;
        send (vStream v) b;;
        mret true
  end.

(** [HalCamera::deliverFrame]: the loop over the clients counts the deliveries. *)
Fixpoint deliver_loop (ids : list Z) (b : BufferDesc) (n : Z) : M HalCamera Z :=
  match ids with
  | [] => mret n
  | id :: rest =>
      s ← get;
      match heap s !! id with
      | Some v =>
          if alive v then
            ok ← deliver_virtual id b;
            deliver_loop rest b (if (ok : bool) then u32 (n + 1) else n)
          else deliver_loop rest b n
      | None => deliver_loop rest b n
      end
  end.
Definition hal_deliverFrame (b : BufferDesc) : M HalCamera unit :=
  log_frame b;;
  s ← get;
  frameDeliveries ← deliver_loop (mClients s) b 0;
  if decide (frameDeliveries < 1) then
    with_hw (λ h, (hw_doneWithFrame b h, tt)) (λ _, HwDone b)
  else
    s ← get; set_frames (record_frame (bufferId b) frameDeliveries (mFrames s)).

(** A call on [mHalCamera], undefined when it is null. *)
Definition on_hal {A} (v : VirtualCamera) (m : M HalCamera A) : M HalCamera A :=
  if attached v then m else undefined.

Definition setMaxFramesInFlight (id n : Z) : M HalCamera EvsResult :=
  v ← deref id;
  let bufferCountChange := i32 (n - vFramesAllowed v) in
  ok ← on_hal v (changeFramesInFlight bufferCountChange);
  if (ok : bool) then
    v ← deref id;
    set_virtual id (MkVirtual (attached v) (vStream v) (mFramesHeld v) n (vState v) (alive v));;
    mret EOK
  else mret BUFFER_NOT_AVAILABLE.

(** [assert(mFramesHeld.size() == 0)]: the service aborts, which is [undefined] here. *)
Definition startVideoStream (id : Z) (stream : option Z) : M HalCamera EvsResult :=
  v ← deref id;
  if decide (vState v = STOPPED) then
    (if decide (mFramesHeld v = []) then mret tt else undefined);;
    set_virtual id (MkVirtual (attached v) stream (mFramesHeld v) (vFramesAllowed v) RUNNING (alive v));;
    r ← on_hal v clientStreamStarting;
    if decide (r = EOK) then mret EOK
    else
      set_virtual id (MkVirtual (attached v) None (mFramesHeld v) (vFramesAllowed v) STOPPED (alive v));;
      mret UNDERLYING_SERVICE_ERROR
  else mret STREAM_ALREADY_RUNNING.

(** The frame with the given id taken out of the list of held frames. *)
Fixpoint take_held (x : Z) (l : list BufferDesc) : option (list BufferDesc) :=
  match l with
  | [] => None
  | b :: l' => if decide (bufferId b = x) then Some l' else cons b <$> take_held x l'
  end.

Definition doneWithFrame (id : Z) (b : BufferDesc) : M HalCamera unit :=
  match memHandle b with
  | None => mret tt
  | Some _ =>
      v ← deref id;
      match take_held (bufferId b) (mFramesHeld v) with
      | None => mret tt
      | Some l =>
          set_virtual id (MkVirtual (attached v) (vStream v) l (vFramesAllowed v) (vState v) (alive v));;
          on_hal v (hal_doneWithFrame b)
      end
  end.

Definition stopVideoStream (id : Z) : M HalCamera unit :=
  v ← deref id;
  if decide (vState v = RUNNING) then
    send (vStream v) nullBuff;;
    set_virtual id (MkVirtual (attached v) (vStream v) (mFramesHeld v) (vFramesAllowed v) STOPPED (alive v));;
    on_hal v clientStreamEnding
  else mret tt.

Definition shutdown (id : Z) : M HalCamera unit :=
  v ← deref id;
  (if decide (vState v = STOPPED) then mret tt
   else
     for_each (mFramesHeld v) (λ b, on_hal v (hal_doneWithFrame b));;
     set_virtual id (MkVirtual (attached v) (vStream v) [] (vFramesAllowed v) STOPPED (alive v)));;
  v ← deref id;
  set_virtual id (MkVirtual false (vStream v) (mFramesHeld v) (vFramesAllowed v) (vState v) (alive v)).

(** The last strong reference is dropped. *)
Definition destroy (id : Z) : M HalCamera unit :=
  shutdown id;;
  v ← deref id;
  set_virtual id (MkVirtual (attached v) (vStream v) (mFramesHeld v) (vFramesAllowed v) (vState v) false).

(** ** Clients of a HalCamera *)

(** [id] is the address of the new object. *)
Definition makeVirtualCamera (id : Z) : M HalCamera bool :=
  set_virtual id (MkVirtual true None [] 1 STOPPED true);;
  ok ← changeFramesInFlight 1;
  if (ok : bool) then
    s ← get; set_clients (mClients s ++ [id]);; mret true
  else destroy id;; mret false.

Definition disownVirtualCamera (id : Z) : M HalCamera unit :=
  stopVideoStream id;;
  s ← get;
  set_clients (filter (λ i, i ≠ id) (mClients s));;
  shutdown id;;
  changeFramesInFlight 0;; mret tt.

(** ** Who holds which frame *)

Definition count_held (x : Z) (l : list BufferDesc) : Z :=
  Z.of_nat (length (filter (λ b, bufferId b = x) l)).
(** All objects count, closed and destroyed ones too. *)
Definition holders (x : Z) (m : gmap Z VirtualCamera) : Z :=
  map_fold (λ _ v n, count_held x (mFramesHeld v) + n) 0 m.
(** Frames the hardware has given and not got back. *)
Definition event_weight (x : Z) (e : hw_event) : Z :=
  match e with
  | HwFrame b => if decide (bufferId b = x) then 1 else 0
  | HwDone b => if decide (bufferId b = x) then -1 else 0
  | _ => 0
  end.
Definition outstanding (x : Z) (log : list hw_event) : Z :=
  foldr (λ e n, event_weight x e + n) 0 log.

Lemma outstanding_app x l1 l2 : outstanding x (l1 ++ l2) = outstanding x l1 + outstanding x l2.
Proof. unfold outstanding. induction l1 as [|e l1 IH]; [done|]. cbn. rewrite IH. lia. Qed.
Lemma outstanding_snoc x l e : outstanding x (l ++ [e]) = outstanding x l + event_weight x e.
Proof. rewrite outstanding_app. cbn. lia. Qed.

Lemma count_held_nonneg x l : 0 ≤ count_held x l.
Proof. unfold count_held. lia. Qed.
Lemma count_held_app x l1 l2 : count_held x (l1 ++ l2) = count_held x l1 + count_held x l2.
Proof. unfold count_held. rewrite list.filter_app, length_app. lia. Qed.
Lemma count_held_cons x b l :
  count_held x (b :: l) = (if decide (bufferId b = x) then 1 else 0) + count_held x l.
Proof. unfold count_held. rewrite filter_cons. case_decide; cbn [length]; lia. Qed.

Lemma holders_lookup x (m : gmap Z VirtualCamera) i v :
  m !! i = Some v → holders x m = count_held x (mFramesHeld v) + holders x (delete i m).
Proof.
  intros Hi. unfold holders.
  by rewrite (map_fold_delete_L _ _ i v m) by (intros; lia || done).
Qed.
Lemma holders_insert x (m : gmap Z VirtualCamera) i v w :
  m !! i = Some v →
  holders x (<[i := w]> m) = holders x m - count_held x (mFramesHeld v) + count_held x (mFramesHeld w).
Proof.
  intros Hi. rewrite (holders_lookup x m i v Hi), (holders_lookup x (<[i := w]> m) i w), delete_insert_eq;
    [lia|apply lookup_insert_eq].
Qed.
Lemma holders_insert_new x (m : gmap Z VirtualCamera) i w :
  m !! i = None → holders x (<[i := w]> m) = holders x m + count_held x (mFramesHeld w).
Proof.
  intros Hi. rewrite (holders_lookup x (<[i := w]> m) i w) by apply lookup_insert_eq.
  rewrite delete_insert_eq, delete_id by done. lia.
Qed.
Lemma holders_nonneg x (m : gmap Z VirtualCamera) : 0 ≤ holders x m.
Proof.
  unfold holders. induction m as [|i v m Hi Hf IH] using map_first_key_ind; [by rewrite map_fold_empty|].
  rewrite map_fold_insert_first_key by done. pose proof (count_held_nonneg x (mFramesHeld v)). lia.
Qed.
Lemma holders_ge x (m : gmap Z VirtualCamera) i v :
  m !! i = Some v → count_held x (mFramesHeld v) ≤ holders x m.
Proof.
  intros Hi. rewrite (holders_lookup x m i v Hi). pose proof (holders_nonneg x (delete i m)). lia.
Qed.

Lemma take_held_spec x l l' y :
  take_held x l = Some l' → count_held y l = count_held y l' + (if decide (x = y) then 1 else 0).
Proof.
  revert l'. induction l as [|b l IH]; intros l'; cbn [take_held]; [done|].
  destruct (decide (bufferId b = x)) as [Hb|Hb].
  - intros [= <-]. rewrite count_held_cons, Hb. lia.
  - intros Hl. apply fmap_Some in Hl as (l1 & Hl1 & ->). rewrite !count_held_cons, (IH _ Hl1). lia.
Qed.

Lemma take_held_some b l : b ∈ l → is_Some (take_held (bufferId b) l).
Proof.
  induction 1 as [b l|b b' l Hin IH]; cbn; [by rewrite decide_True|]. case_decide; [done|].
  destruct IH as [l' ->]. by eexists.
Qed.
Lemma count_held_pos b l : b ∈ l → 0 < count_held (bufferId b) l.
Proof.
  induction 1 as [b l|b b' l Hin IH]; rewrite count_held_cons; [rewrite decide_True by done|].
  - pose proof (count_held_nonneg (bufferId b) l). lia.
  - case_decide; lia.
Qed.

(** ** The records of frames

    [good] are the frames that are spoken of: all of them, or all but frame 0, whose id the
    end-of-stream marker carries too. *)

Variable good : Z → bool.

(** A record's frame never has a live record behind it, so that the first record of a
    frame is the one that counts. *)
Fixpoint frames_ok (l : list FrameRecord) : Prop :=
  match l with
  | [] => True
  | r :: l' =>
      is_u32 (refCount r)
      ∧ (good (frameId r) = true → Forall (λ r', frameId r' = frameId r → refCount r' = 0) l')
      ∧ frames_ok l'
  end.

Lemma refs_zero x l : Forall (λ r, frameId r = x → refCount r = 0) l → refs x l = 0.
Proof. induction 1 as [|r l Hr _ IH]; [done|]. cbn. case_decide; auto. Qed.
Lemma refs_zero_inv x l :
  good x = true → frames_ok l → refs x l = 0 → Forall (λ r, frameId r = x → refCount r = 0) l.
Proof.
  intros Hx. induction l as [|r l IH]; [constructor|]. cbn. intros (_ & Hr & Hl) H0.
  case_decide as Hd.
  - subst x. constructor; [done|by apply Hr].
  - constructor; [done|]. by apply IH.
Qed.
Lemma refs_range x l : frames_ok l → is_u32 (refs x l).
Proof. unfold is_u32. induction l as [|r l IH]; cbn; [lia|]. intros (? & _ & Hl). case_decide; auto. Qed.

Lemma record_frame_Forall (P : FrameRecord → Prop) x k l :
  Forall P l → P (MkFrame x k) → Forall P (record_frame x k l).
Proof. induction 1 as [|r l Hr Hl IH]; intros HP; cbn [record_frame]; [by constructor|]. case_decide; constructor; auto. Qed.

Lemma record_frame_ok x k l :
  frames_ok l → (good x = true → refs x l = 0) → 0 < k < 4294967296 → frames_ok (record_frame x k l).
Proof.
  intros Hl H0 Hk. induction l as [|r l IH].
  { cbn. split_and!; [unfold is_u32; lia|constructor|done]. }
  assert (good x = true → Forall (λ r, frameId r = x → refCount r = 0) (r :: l)) as Hz.
  { intros Hx. apply refs_zero_inv; auto. }
  cbn [record_frame]. destruct Hl as (Hu & Hr & Hl). case_decide as Hd.
  - cbn. split_and!; [unfold is_u32; lia| |done]. intros Hx. by apply Hz in Hx as [_ Hx]%Forall_cons_1.
  - cbn. split_and!; [done| |].
    + intros Hx. apply record_frame_Forall; [by apply Hr|]. cbn. intros ->.
      apply Hz in Hx as [Hx _]%Forall_cons_1. by destruct Hd; apply Hx.
    + apply IH; [done|]. intros Hx. apply refs_zero. by apply Hz in Hx as [_ Hx]%Forall_cons_1.
Qed.
Lemma record_frame_refs x k l y :
  frames_ok l → (good x = true → refs x l = 0) → good y = true →
  refs y (record_frame x k l) = if decide (y = x) then k else refs y l.
Proof.
  intros Hl H0 Hy. induction l as [|r l IH].
  { cbn. repeat case_decide; congruence. }
  cbn [record_frame]. destruct Hl as (Hu & Hr & Hl). destruct (decide (refCount r = 0)) as [Hd|Hd].
  - cbn. destruct (decide (y = x)) as [->|Hne]; [by rewrite decide_True|].
    rewrite decide_False by done. case_decide as E; [|done]. subst y. rewrite Hd. by apply refs_zero, Hr.
  - cbn in H0 |- *. destruct (decide (frameId r = y)) as [E|E].
    + destruct (decide (y = x)) as [<-|Hne]; [|done]. specialize (H0 Hy). by rewrite decide_True in H0.
    + apply IH; [done|]. intros Hx. specialize (H0 Hx). destruct (decide (frameId r = x)) as [E'|E']; [|done].
      subst x. apply refs_zero. apply Hr, Hx.
Qed.

Lemma drop_ref_Forall (P : FrameRecord → Prop) x l l' :
  drop_ref x l = Some l' → Forall P l → (∀ k, P (MkFrame x k)) → Forall P l'.
Proof.
  intros Hd Hl HP. revert l' Hd. induction Hl as [|r l Hr Hl IH]; intros l'; cbn [drop_ref]; [done|].
  case_decide; [intros [= <-]; by constructor|]. intros (l1 & H1 & ->)%fmap_Some. constructor; auto.
Qed.
Lemma drop_ref_ok x l l' :
  frames_ok l → drop_ref x l = Some l' →
  frames_ok l' ∧ (∀ y, y ≠ x → refs y l' = refs y l) ∧ refs x l' = u32 (refs x l - 1).
Proof.
  revert l'. induction l as [|r l IH]; intros l'; cbn [frames_ok drop_ref]; [done|].
  intros (Hu & Hr & Hl). case_decide as Hd.
  - intros [= <-]. subst x. cbn. rewrite !decide_True by done. split_and!; auto; [apply u32_range|].
    intros y Hy. by rewrite !decide_False by done.
  - intros (l1 & E1 & ->)%fmap_Some. destruct (IH l1 Hl E1) as (H1 & H2 & H3). cbn.
    rewrite !(decide_False (P := frameId r = x)) by done. split_and!; auto.
    + intros Hg. eapply drop_ref_Forall; [done|by apply Hr|]. intros k Hk. cbn in Hk. congruence.
    + intros y Hy. by rewrite H2.
Qed.
Lemma drop_ref_some x l : 0 < refs x l → is_Some (drop_ref x l).
Proof. induction l as [|r l IH]; cbn; [lia|]. case_decide; [by eexists|]. intros [l' ->]%IH. by eexists. Qed.

Lemma compact_Forall (P : FrameRecord → Prop) l : Forall P l → Forall P (filter (λ f, 0 < refCount f) l).
Proof. induction 1; [constructor|]. rewrite filter_cons. case_decide; [by constructor|done]. Qed.
Lemma compact_ok l : frames_ok l → frames_ok (filter (λ f, 0 < refCount f) l).
Proof.
  induction l as [|r l IH]; [done|]. cbn [frames_ok]. intros (Hu & Hr & Hl).
  rewrite filter_cons. case_decide as Hd; [|auto].
  cbn. split_and!; auto. intros Hg. apply compact_Forall, Hr, Hg.
Qed.
Lemma compact_refs l y :
  frames_ok l → good y = true → refs y (filter (λ f, 0 < refCount f) l) = refs y l.
Proof.
  intros Hl Hy. induction l as [|r l IH]; [done|]. destruct Hl as (Hu & Hr & Hl).
  rewrite filter_cons. case_decide as Hd; cbn [refs]; rewrite IH by done; [done|].
  case_decide as E; [|done]. subst y. rewrite refs_zero by auto. unfold is_u32 in Hu. lia.
Qed.

(** ** The invariant *)

Definition virtual_ok (v : VirtualCamera) : Prop :=
  (vState v = RUNNING → is_Some (vStream v) ∧ attached v = true) ∧ vState v ≠ STOPPING.

Record struct_ok (s : HalCamera) : Prop := {
  so_nodup : NoDup (mClients s);
  so_few : Z.of_nat (length (mClients s)) < 4294967296;
  so_clients : ∀ id, id ∈ mClients s → ∃ v, heap s !! id = Some v ∧ (alive v = true → attached v = true);
  so_attached : ∀ id v, heap s !! id = Some v → attached v = true → id ∈ mClients s;
  so_virtual : map_Forall (λ _ v, virtual_ok v) (heap s);
}.

(** The counts, up to a correction for frames in the hands of a running operation. *)
Record frames_counted (d : Z → Z) (s : HalCamera) : Prop := {
  fc_records : frames_ok (mFrames s);
  fc_refs : ∀ x, good x = true → refs x (mFrames s) = holders x (heap s) + d x;
  fc_hw : ∀ x, good x = true →
    outstanding x (hw_log s) = if decide (0 < holders x (heap s) + d x) then 1 else 0;
}.

(** *** Changes that keep the counts *)

Definition is_frame_event (e : hw_event) : bool :=
  match e with HwFrame _ | HwDone _ => true | _ => false end.
Lemma weight_other x e : is_frame_event e = false → event_weight x e = 0.
Proof. by destruct e. Qed.

Lemma counted_ext d d' s s' :
  frames_counted d s → mFrames s' = mFrames s → hw_log s' = hw_log s →
  (∀ x, holders x (heap s') + d' x = holders x (heap s) + d x) → frames_counted d' s'.
Proof.
  intros [H1 H2 H3] E1 E2 Ed. split; rewrite ?E1, ?E2; [done|intros x Hx; by rewrite H2, Ed|].
  intros x Hx. by rewrite H3, Ed.
Qed.

(** Replacing an object by one that holds the same frames. *)
Lemma holders_same x (m : gmap Z VirtualCamera) id v w :
  m !! id = Some v → mFramesHeld w = mFramesHeld v → holders x (<[id := w]> m) = holders x m.
Proof. intros Hi Hw. rewrite (holders_insert x m id v w Hi), Hw. lia. Qed.

Definition put_virtual (id : Z) (w : VirtualCamera) (s : HalCamera) : HalCamera :=
  MkHal (mHwCamera s) (mClients s) (mStreamState s) (mFrames s) (<[id := w]> (heap s)) (hw_log s) (delivered s).

(** An object may change as long as it stays attached, or is dead. *)
Lemma struct_virtual s id v w :
  struct_ok s → heap s !! id = Some v → virtual_ok w →
  (alive w = true → attached w = attached v) → (attached w = true → attached v = true) →
  (alive w = true → alive v = true) → struct_ok (put_virtual id w s).
Proof.
  intros [S1 S2 S3 S4 S5] Hi Hw Hat Hc Hal. split; cbn; auto; [| |by apply map_Forall_insert_2].
  - intros i Hin. destruct (decide (i = id)) as [->|Hne].
    + exists w. rewrite lookup_insert_eq. split; [done|]. intros Hl. rewrite Hat by done.
      destruct (S3 _ Hin) as (v' & Hv & Ha). simplify_eq. auto.
    + rewrite lookup_insert_ne by done. by apply S3.
  - intros i u. destruct (decide (i = id)) as [->|Hne].
    + rewrite lookup_insert_eq. intros [= <-] Ha. apply (S4 _ v); auto.
    + rewrite lookup_insert_ne by done. apply S4.
Qed.

Lemma with_hw_spec {A} (f : H → H * A) (ev : A → hw_event) s :
  ∃ hw a, with_hw f ev s
    = Val (MkHal hw (mClients s) (mStreamState s) (mFrames s) (heap s) (hw_log s ++ [ev a]) (delivered s)) a.
Proof. unfold with_hw. run_m. destruct (f (mHwCamera s)) as [hw a]. by exists hw, a. Qed.

Lemma counted_log d s hw e :
  frames_counted d s → is_frame_event e = false →
  frames_counted d (MkHal hw (mClients s) (mStreamState s) (mFrames s) (heap s) (hw_log s ++ [e]) (delivered s)).
Proof.
  intros [H1 H2 H3] He. split; cbn [mFrames heap hw_log]; auto.
  intros x Hx. rewrite outstanding_snoc, weight_other by done. rewrite Z.add_0_r. by apply H3.
Qed.

(** What an operation that does not touch the objects may change. *)
Definition core_same (s s' : HalCamera) : Prop :=
  mClients s' = mClients s ∧ heap s' = heap s.
Lemma struct_same s s' : core_same s s' → struct_ok s → struct_ok s'.
Proof. intros (E1 & E2) [S1 S2 S3 S4 S5]. split; rewrite ?E1, ?E2; auto. Qed.
Lemma core_same_trans s1 s2 s3 : core_same s1 s2 → core_same s2 s3 → core_same s1 s3.
Proof. intros (A1 & A2) (B1 & B2). split_and!; congruence. Qed.

Lemma change_frames_spec delta d s :
  frames_counted d s →
  ∃ s' b, changeFramesInFlight delta s = Val s' b ∧ core_same s s' ∧ frames_counted d s'.
Proof.
  intros Hs. unfold changeFramesInFlight. run_m. set (n := if decide (_ < 1) then 1 else _).
  destruct (with_hw_spec (hw_setMaxFramesInFlight n) (HwSetMax n) s) as (hw & r & ->).
  pose proof (counted_log d s hw (HwSetMax n r) Hs eq_refl) as Hc.
  case_decide; [|by eexists _, _; split; [reflexivity|]].
  eexists _, _. split; [reflexivity|]. split; [done|]. destruct Hc as [H1 H2 H3]. cbn [mFrames] in *.
  split; cbn [mFrames heap hw_log]; [by apply compact_ok|intros x Hx; rewrite compact_refs by done; auto|auto].
Qed.

Lemma starting_spec d s :
  frames_counted d s →
  ∃ s' r, clientStreamStarting s = Val s' r ∧ core_same s s' ∧ frames_counted d s'.
Proof.
  intros Hs. unfold clientStreamStarting. run_m. case_decide; [|by exists s, EOK].
  destruct (with_hw_spec hw_startVideoStream HwStart s) as (hw & r & ->).
  eexists _, _. split; [reflexivity|]. split; [done|]. by apply counted_log.
Qed.

Lemma ending_spec d s :
  frames_counted d s →
  ∃ s', clientStreamEnding s = Val s' tt ∧ core_same s s' ∧ frames_counted d s'.
Proof.
  intros Hs. unfold clientStreamEnding. run_m. destruct (existsb _ _); [by exists s|].
  destruct (with_hw_spec (λ h, (hw_stopVideoStream h, tt)) (λ _, HwStop) s) as (hw & [] & ->).
  eexists. split; [reflexivity|]. split; [done|]. by apply counted_log.
Qed.

(** Returning a frame that is counted. *)
Lemma hal_done_spec d s b :
  frames_counted d s →
  (good (bufferId b) = true → 0 < holders (bufferId b) (heap s) + d (bufferId b)) →
  ∃ s', hal_doneWithFrame b s = Val s' tt ∧ core_same s s'
    ∧ frames_counted (λ y, d y - (if decide (bufferId b = y) then 1 else 0)) s'.
Proof.
  intros [H1 H2 H3] Hpos. unfold hal_doneWithFrame. run_m. set (x := bufferId b) in *.
  destruct (drop_ref x (mFrames s)) as [l|] eqn:El.
  2:{ exists s. split; [done|]. split; [done|].
      assert (good x = false) as Hg.
      { destruct (good x) eqn:Hg; [|done]. destruct (drop_ref_some x (mFrames s)); [|congruence].
        rewrite H2 by done. auto. }
      split; auto; intros y Hy; rewrite (decide_False (P := x = y)) by congruence; rewrite Z.sub_0_r; auto. }
  destruct (drop_ref_ok x _ l H1 El) as (L1 & L2 & L3).
  assert (∀ y, good y = true → refs y l = holders y (heap s) + (d y - (if decide (x = y) then 1 else 0))) as L4.
  { intros y Hy. specialize (H2 y Hy). pose proof (refs_range y (mFrames s) H1) as Hr.
    destruct (decide (x = y)) as [<-|Hne]; [|rewrite L2 by done; lia].
    specialize (Hpos Hy). rewrite L3, u32_small; [lia|]. unfold is_u32 in *. lia. }
  unfold set_frames. case_decide as Hd; run_m.
  - match goal with |- context [with_hw ?f ?e ?t] => destruct (with_hw_spec f e t) as (hw & [] & ->) end.
    eexists. split; [reflexivity|]. split; [done|]. split; cbn [mFrames heap hw_log]; auto.
    intros y Hy. rewrite outstanding_snoc, H3 by done. cbn [event_weight]. pose proof (refs_range y l L1) as Hr.
    rewrite L4 in Hr by done. unfold is_u32 in Hr. fold x. destruct (decide (x = y)) as [<-|Hne].
    + rewrite L4, decide_True in Hd by done. specialize (Hpos Hy). repeat case_decide; lia.
    + rewrite Z.sub_0_r, Z.add_0_r. done.
  - eexists. split; [reflexivity|]. split; [done|]. split; cbn [mFrames heap hw_log]; auto.
    intros y Hy. rewrite H3 by done. destruct (decide (x = y)) as [<-|Hne]; [|by rewrite Z.sub_0_r].
    rewrite L4, decide_True in Hd by done. specialize (Hpos Hy). repeat case_decide; lia.
Qed.

(** *** Delivery *)

Definition hal_ok (s : HalCamera) : Prop := struct_ok s ∧ frames_counted (λ _, 0) s.

(** What delivering to the clients leaves alone. *)
Definition frame_same (s s' : HalCamera) : Prop :=
  mFrames s' = mFrames s ∧ hw_log s' = hw_log s ∧ mClients s' = mClients s.
Lemma frame_same_trans s1 s2 s3 : frame_same s1 s2 → frame_same s2 s3 → frame_same s1 s3.
Proof. intros (A1 & A2 & A3) (B1 & B2 & B3). split_and!; congruence. Qed.

(** The marker needs a stream to be sent to. *)
Definition streams_ok (b : BufferDesc) (ids : list Z) (s : HalCamera) : Prop :=
  memHandle b = None → ∀ id v, id ∈ ids → heap s !! id = Some v → alive v = true → is_Some (vStream v).
Definition held_gain (b : BufferDesc) (y k : Z) : Z :=
  match memHandle b with Some _ => if decide (bufferId b = y) then k else 0 | None => 0 end.

Lemma deliver_virtual_spec b id v s :
  struct_ok s → heap s !! id = Some v → alive v = true → (memHandle b = None → is_Some (vStream v)) →
  ∃ s' (ok : bool), deliver_virtual id b s = Val s' ok ∧ frame_same s s' ∧ struct_ok s'
    ∧ (∀ y, holders y (heap s') = holders y (heap s) + held_gain b y (if ok then 1 else 0))
    ∧ ∃ w, heap s' = <[id := w]> (heap s) ∧ vStream w = vStream v.
Proof.
  intros Hs Hi Ha Hn. unfold deliver_virtual, deref, send, held_gain. run_m. rewrite Hi.
  pose proof (so_virtual s Hs id v Hi) as [V1 V2]. destruct (memHandle b) as [h|].
  - assert (∃ s', Val s false = Val (A := bool) s' false ∧ frame_same s s' ∧ struct_ok s'
      ∧ (∀ y, holders y (heap s') = holders y (heap s) + (if decide (bufferId b = y) then 0 else 0))
      ∧ ∃ w, heap s' = <[id := w]> (heap s) ∧ vStream w = vStream v) as Hrej.
    { exists s. split_and!; auto; [done|intros y; case_decide; lia|].
      exists v. by rewrite insert_id. }
    destruct (decide (vState v = STOPPED)) as [Hst|Hst].
    { destruct Hrej as (s' & E & Hrej). by exists s', false. }
    destruct (decide (vFramesAllowed v ≤ _)) as [Hq|Hq].
    { destruct Hrej as (s' & E & Hrej). by exists s', false. }
    destruct V1 as [[st Hvs] Hat]; [by destruct (vState v)|].
    unfold set_virtual. run_m. rewrite Hvs. run_m. eexists _, true. split; [reflexivity|]. split; [done|].
    split; [|split].
    + refine (struct_same (put_virtual id _ s) _ _ _); [done|].
      apply (struct_virtual s id v); cbn; auto. all: split; cbn; auto; by rewrite Hvs.
    + intros y. cbn [heap]. rewrite (holders_insert y _ id v _ Hi). cbn [mFramesHeld].
      rewrite count_held_app, count_held_cons. change (count_held y []) with 0. case_decide; lia.
    + eexists. split; [reflexivity|done].
  - destruct Hn as [st Hvs]; [done|]. rewrite Hvs. unfold set_virtual. run_m. eexists _, true.
    split; [reflexivity|]. split; [done|]. split; [|split].
    + refine (struct_same (put_virtual id _ s) _ _ _); [done|].
      apply (struct_virtual s id v); cbn; auto. all: by split.
    + intros y. cbn [heap]. rewrite (holders_same y _ id v _ Hi) by done. lia.
    + eexists. split; [reflexivity|done].
Qed.

Lemma held_gain_add b y j k : held_gain b y j + held_gain b y k = held_gain b y (j + k).
Proof. unfold held_gain. destruct (memHandle b); [case_decide|]; lia. Qed.
Lemma held_gain_zero b y : held_gain b y 0 = 0.
Proof. unfold held_gain. destruct (memHandle b); [case_decide|]; lia. Qed.

Lemma deliver_loop_spec b ids n s :
  struct_ok s → streams_ok b ids s → 0 ≤ n → n + Z.of_nat (length ids) < 4294967296 →
  ∃ s' n', deliver_loop ids b n s = Val s' n' ∧ frame_same s s' ∧ struct_ok s'
    ∧ n ≤ n' ≤ n + Z.of_nat (length ids)
    ∧ ∀ y, holders y (heap s') = holders y (heap s) + held_gain b y (n' - n).
Proof.
  revert n s. induction ids as [|id ids IH]; intros n s Hs Hst Hn Hl; cbn [deliver_loop].
  { exists s, n. split; [done|]. split; [done|]. split; [done|]. split; [cbn; lia|].
    intros y. rewrite Z.sub_diag, held_gain_zero. lia. }
  assert (streams_ok b ids s) as Hst'.
  { intros Hb i v Hin. apply (Hst Hb). by constructor. }
  cbn [length] in Hl.
  assert (∃ s' n', deliver_loop ids b n s = Val s' n' ∧ frame_same s s' ∧ struct_ok s'
    ∧ n ≤ n' ≤ n + Z.of_nat (S (length ids))
    ∧ ∀ y, holders y (heap s') = holders y (heap s) + held_gain b y (n' - n)) as Hskip.
  { destruct (IH n s) as (s' & n' & E & F & S' & Hn' & Hh); auto; [lia|].
    exists s', n'. split_and!; auto; lia. }
  run_m. destruct (heap s !! id) as [v|] eqn:Hi; [|exact Hskip].
  destruct (alive v) eqn:Ha; [|exact Hskip]. clear Hskip.
  destruct (deliver_virtual_spec b id v s Hs Hi Ha) as (s1 & ok & E1 & F1 & S1 & Hh1 & w & Ew & Ev).
  { intros Hb. apply (Hst Hb id v); [by constructor|done|done]. }
  rewrite E1.
  destruct (IH (if ok then u32 (n + 1) else n) s1) as (s' & n' & E & F & S' & Hn' & Hh).
  - done.
  - intros Hb i u Hin. rewrite Ew. destruct (decide (i = id)) as [->|Hne].
    + rewrite lookup_insert_eq. intros [= <-] _. rewrite Ev. apply (Hst Hb id v); [by constructor|done|done].
    + rewrite lookup_insert_ne by done. by apply Hst'.
  - destruct ok; [|done]. rewrite u32_small; unfold is_u32; lia.
  - destruct ok; [|lia]. rewrite u32_small; unfold is_u32; lia.
  - exists s', n'. split; [done|]. split; [by apply (frame_same_trans _ s1)|]. split; [done|].
    assert ((if ok then u32 (n + 1) else n) = n + if ok then 1 else 0) as En.
    { destruct ok; [rewrite u32_small; unfold is_u32; lia|lia]. }
    rewrite En in *. cbn [length]. split; [destruct ok; lia|].
    intros y. rewrite Hh, Hh1, <- Z.add_assoc, held_gain_add. f_equal. f_equal. lia.
Qed.

Lemma deliver_spec b s :
  hal_ok s → streams_ok b (mClients s) s →
  (good (bufferId b) = true → memHandle b ≠ None ∧ outstanding (bufferId b) (hw_log s) = 0) →
  ∃ s', hal_deliverFrame b s = Val s' tt ∧ hal_ok s'.
Proof.
  intros [Hs [C1 C2 C3]] Hst Hb. unfold hal_deliverFrame, log_frame. run_m. set (x := bufferId b) in *.
  match goal with |- context [deliver_loop ?l b 0 ?t] => set (s0 := t) end.
  assert (struct_ok s0) as Hs0 by (by apply (struct_same s)).
  destruct (deliver_loop_spec b (mClients s) 0 s0 Hs0) as (s1 & n & E & (F1 & F2 & F3) & S1 & Hn & Hh); [done|lia|by apply so_few|].
  change (mClients s0) with (mClients s). rewrite E. rewrite Z.sub_0_r in Hh. cbn in F1, F2, F3, Hh.
  assert (∀ y, y ≠ x → holders y (heap s1) = holders y (heap s)) as Hne.
  { intros y Hy. rewrite Hh. unfold held_gain. fold x. destruct (memHandle b); [rewrite decide_False by done|]; lia. }
  assert (good x = true → holders x (heap s) = 0 ∧ holders x (heap s1) = n) as Hx.
  { intros Hg. destruct (Hb Hg) as [Hm Ho]. rewrite C3, Z.add_0_r in Ho by done.
    pose proof (holders_nonneg x (heap s)). rewrite Hh. unfold held_gain. fold x.
    destruct (memHandle b); [|done]. rewrite (decide_True (P := x = x)) by done. case_decide; [done|]. lia. }
  destruct (decide (n < 1)) as [Hn1|Hn1].
  - match goal with |- context [with_hw ?f ?e ?t] => destruct (with_hw_spec f e t) as (hw & [] & ->) end.
    eexists. split; [reflexivity|]. split; [by apply (struct_same s1)|].
    assert (∀ y, good y = true → holders y (heap s1) = holders y (heap s)) as Hsame.
    { intros y Hy. destruct (decide (y = x)) as [->|Hyx]; [|by apply Hne].
      destruct (Hx Hy) as [-> ->]. lia. }
    split; cbn [mFrames heap hw_log]; rewrite ?F1, ?F2; [done|intros y Hy; rewrite Hsame; auto|].
    intros y Hy. rewrite Hsame, !outstanding_snoc, C3 by done. cbn [event_weight]. case_decide; case_decide; lia.
  - run_m. unfold set_frames. run_m. eexists. split; [reflexivity|]. split; [by apply (struct_same s1)|].
    assert (good x = true → refs x (mFrames s) = 0) as Hr0.
    { intros Hg. rewrite C2, Z.add_0_r by done. by apply Hx. }
    pose proof (so_few s Hs).
    split; cbn [mFrames heap hw_log]; rewrite ?F1, ?F2.
    + apply record_frame_ok; [done|done|lia].
    + intros y Hy. rewrite record_frame_refs by done. destruct (decide (y = x)) as [->|Hyx].
      * destruct (Hx Hy) as [_ ->]. lia.
      * rewrite Hne by done. by apply C2.
    + intros y Hy. rewrite outstanding_snoc, C3 by done. cbn [event_weight]. fold x.
      destruct (decide (y = x)) as [->|Hyx].
      * destruct (Hx Hy) as [-> ->]. rewrite (decide_True (P := x = x)) by done. repeat case_decide; lia.
      * rewrite (Hne y) by done. rewrite (decide_False (P := x = y)) by done. lia.
Qed.

(** *** The client's calls *)

Lemma counted_virtual d s id v w :
  frames_counted d s → heap s !! id = Some v → mFramesHeld w = mFramesHeld v →
  frames_counted d (put_virtual id w s).
Proof.
  intros Hc Hi Hw. apply (counted_ext d d s); [done..|]. intros x. cbn [heap put_virtual].
  by rewrite (holders_same x _ id v).
Qed.
Lemma ok_virtual s id v w :
  hal_ok s → heap s !! id = Some v → mFramesHeld w = mFramesHeld v → virtual_ok w →
  attached w = attached v → alive w = alive v → hal_ok (put_virtual id w s).
Proof.
  intros [Hs Hc] Hi Hw Hv Ea El. split; [|by apply (counted_virtual _ s id v)].
  apply (struct_virtual s id v); auto; congruence.
Qed.
Lemma ok_same s s' : core_same s s' → frames_counted (λ _, 0) s' → hal_ok s → hal_ok s'.
Proof. intros Hc Hf [Hs _]. split; [by apply (struct_same s)|done]. Qed.

Lemma set_max_spec id n v s :
  hal_ok s → heap s !! id = Some v → attached v = true →
  ∃ s' r, setMaxFramesInFlight id n s = Val s' r ∧ hal_ok s'.
Proof.
  intros Hok Hi Ha. unfold setMaxFramesInFlight, deref, on_hal. run_m. rewrite Hi, Ha. run_m.
  destruct (change_frames_spec (i32 (n - vFramesAllowed v)) _ s (proj2 Hok)) as (s1 & b & -> & Hc & Hf).
  pose proof (ok_same _ _ Hc Hf Hok) as Hok1. destruct b; [|by exists s1, BUFFER_NOT_AVAILABLE].
  destruct Hc as (_ & E2). rewrite E2, Hi. eexists _, _. split; [reflexivity|].
  apply (ok_virtual s1 id v); [done|by rewrite E2|done| |done|done].
  exact (so_virtual _ (proj1 Hok) id v Hi).
Qed.

Lemma start_spec id st v s :
  hal_ok s → heap s !! id = Some v → attached v = true →
  (vState v = STOPPED → mFramesHeld v = []) →
  ∃ s' r, startVideoStream id (Some st) s = Val s' r ∧ hal_ok s'.
Proof.
  intros Hok Hi Ha Hheld. unfold startVideoStream, deref, on_hal, set_virtual. run_m. rewrite Hi.
  case_decide as Hst; [|by exists s, STREAM_ALREADY_RUNNING]. rewrite (decide_True (P := mFramesHeld v = [])) by auto.
  rewrite Ha. run_m.
  match goal with |- context [clientStreamStarting ?t] => set (s1 := t) end.
  assert (hal_ok s1) as Hok1 by (apply (ok_virtual s id v); auto; split; cbn; [by eauto|done]).
  destruct (starting_spec _ s1 (proj2 Hok1)) as (s2 & r & -> & Hc & Hf).
  pose proof (ok_same _ _ Hc Hf Hok1) as Hok2.
  case_decide; [by exists s2, EOK|]. eexists _, _. split; [reflexivity|].
  eapply (ok_virtual s2 id); [done| |..].
  { destruct Hc as (_ & ->). apply lookup_insert_eq. }
  all: done.
Qed.

Lemma stop_spec id v s :
  hal_ok s → heap s !! id = Some v →
  ∃ s' w, stopVideoStream id s = Val s' tt ∧ hal_ok s' ∧ mClients s' = mClients s
    ∧ heap s' = <[id := w]> (heap s)
    ∧ vState w ≠ RUNNING ∧ attached w = attached v ∧ alive w = alive v ∧ mFramesHeld w = mFramesHeld v
    ∧ vFramesAllowed w = vFramesAllowed v.
Proof.
  intros Hok Hi. unfold stopVideoStream, deref, on_hal, set_virtual. run_m. rewrite Hi.
  case_decide as Hst; [|exists s, v; by rewrite insert_id].
  destruct (so_virtual _ (proj1 Hok) id v Hi) as [[[st Hs] Ha] _]; [done|]. rewrite Hs, Ha. unfold send. run_m.
  match goal with |- context [clientStreamEnding ?t] => set (s1 := t) end.
  assert (hal_ok s1) as Hok1.
  { assert (hal_ok (put_virtual id (MkVirtual (attached v) (vStream v) (mFramesHeld v) (vFramesAllowed v) STOPPED (alive v)) s)) as Hp.
    { by apply (ok_virtual s id v). }
    rewrite Hs, Ha in Hp. apply (ok_same _ s1) in Hp; [done|done|]. by apply (counted_ext _ _ _ s1 (proj2 Hp)). }
  destruct (ending_spec _ s1 (proj2 Hok1)) as (s2 & -> & Hc & Hf).
  pose proof (ok_same _ _ Hc Hf Hok1) as Hok2. destruct Hc as (E1 & E2).
  eexists _, _. split; [reflexivity|]. split; [done|]. split; [by rewrite E1|]. by rewrite E2.
Qed.

Lemma client_done_spec id b v s :
  hal_ok s → heap s !! id = Some v → attached v = true →
  ∃ s', doneWithFrame id b s = Val s' tt ∧ hal_ok s'.
Proof.
  intros Hok Hi Ha. unfold doneWithFrame, deref, on_hal, set_virtual.
  destruct (memHandle b); [|by exists s]. run_m. rewrite Hi.
  destruct (take_held (bufferId b) (mFramesHeld v)) as [l|] eqn:El; [|by exists s]. run_m. rewrite Ha.
  match goal with |- context [hal_doneWithFrame b ?t] => set (s1 := t) end.
  assert (∀ x, holders x (heap s) = holders x (heap s1) + (if decide (bufferId b = x) then 1 else 0)) as Hh.
  { intros x. cbn [heap s1]. rewrite (holders_insert x _ id v _ Hi). cbn [mFramesHeld].
    rewrite (take_held_spec _ _ _ x El). lia. }
  assert (struct_ok s1) as Hs1.
  { refine (struct_virtual s id v _ (proj1 Hok) Hi _ _ _ _); cbn; auto.
    pose proof (so_virtual _ (proj1 Hok) id v Hi) as [V1 V2]. split; cbn; [|done]. intros Hr. split; [|done]. by apply V1. }
  destruct (hal_done_spec (λ y, if decide (bufferId b = y) then 1 else 0) s1 b) as (s2 & -> & Hc & Hf).
  - apply (counted_ext (λ _, 0) _ s); [apply Hok|done|done|]. intros x. rewrite Hh. lia.
  - intros _. rewrite decide_True by done. pose proof (holders_nonneg (bufferId b) (heap s1)). lia.
  - exists s2. split; [done|]. split; [by apply (struct_same s1)|].
    apply (counted_ext _ _ s2 s2 Hf); [done|done|]. intros x. lia.
Qed.

(** *** Closing *)

(** Returning the frames of a list, one after the other. *)
Lemma done_loop_spec l d s :
  frames_counted d s → (∀ x, count_held x l ≤ holders x (heap s) + d x) →
  ∃ s', for_each l hal_doneWithFrame s = Val s' tt ∧ core_same s s'
    ∧ frames_counted (λ y, d y - count_held y l) s'.
Proof.
  revert d s. induction l as [|b l IH]; intros d s Hc Hl; cbn [for_each].
  { exists s. split; [done|]. split; [done|]. apply (counted_ext d _ s); auto. intros x.
    change (count_held x []) with 0. lia. }
  destruct (hal_done_spec d s b Hc) as (s1 & E1 & C1 & F1).
  { intros _. specialize (Hl (bufferId b)). rewrite count_held_cons, decide_True in Hl by done.
    pose proof (count_held_nonneg (bufferId b) l). lia. }
  rewrite (bind_val _ _ _ _ _ E1).
  destruct (IH _ s1 F1) as (s2 & E2 & C2 & F2).
  { intros x. specialize (Hl x). rewrite count_held_cons in Hl. destruct C1 as (_ & ->). lia. }
  exists s2. split; [done|]. split; [by apply (core_same_trans _ s1)|].
  apply (counted_ext _ _ s2 s2 F2); [done|done|]. intros x. rewrite count_held_cons. lia.
Qed.

(** The object after it was shut down. *)
Definition shut (v w : VirtualCamera) : Prop :=
  attached w = false ∧ vState w ≠ RUNNING ∧ vState w ≠ STOPPING ∧ alive w = alive v
  ∧ mFramesHeld w = (if decide (vState v = STOPPED) then mFramesHeld v else []).

Lemma shutdown_spec id v s :
  frames_counted (λ _, 0) s → heap s !! id = Some v → virtual_ok v →
  ∃ s' w, shutdown id s = Val s' tt ∧ mClients s' = mClients s
    ∧ heap s' = <[id := w]> (heap s) ∧ shut v w ∧ frames_counted (λ _, 0) s'.
Proof.
  intros Hc Hi [V1 V2]. unfold shutdown, deref, set_virtual, shut. run_m. rewrite Hi.
  destruct (decide (vState v = STOPPED)) as [Hst|Hst].
  - rewrite Hi. eexists _, _. split; [reflexivity|]. cbn [mClients heap]. split; [done|]. split; [reflexivity|].
    cbn. rewrite Hst. split; [done|]. by apply (counted_virtual _ s id v).
  - destruct V1 as [_ Ha]; [by destruct (vState v)|]. unfold on_hal. rewrite Ha.
    destruct (done_loop_spec (mFramesHeld v) _ s Hc) as (s1 & E1 & (C1 & C2) & F1).
    { intros x. rewrite Z.add_0_r. by apply holders_ge with id. }
    change (λ b : BufferDesc, hal_doneWithFrame b) with hal_doneWithFrame.
    rewrite E1. cbn [heap]. rewrite lookup_insert_eq. eexists _, _. split; [reflexivity|]. cbn [mClients heap].
    split; [done|]. split; [rewrite insert_insert_eq, C2; reflexivity|]. cbn. split; [done|].
    apply (counted_ext _ _ _ _ F1); [done|done|]. intros x. cbn [heap].
    rewrite insert_insert_eq, (holders_insert x _ id v _) by (by rewrite C2). cbn [mFramesHeld].
    change (count_held x []) with 0. lia.
Qed.

Lemma shut_ok v w : shut v w → virtual_ok w.
Proof. intros (_ & H1 & H2 & _). by split. Qed.

Lemma destroy_spec id v s :
  frames_counted (λ _, 0) s → heap s !! id = Some v → virtual_ok v →
  ∃ s' w, destroy id s = Val s' tt ∧ mClients s' = mClients s ∧ heap s' = <[id := w]> (heap s)
    ∧ alive w = false ∧ attached w = false ∧ virtual_ok w ∧ frames_counted (λ _, 0) s'
    ∧ mFramesHeld w = (if decide (vState v = STOPPED) then mFramesHeld v else []).
Proof.
  intros Hc Hi Hv. unfold destroy, deref, set_virtual.
  destruct (shutdown_spec id v s Hc Hi Hv) as (s1 & w & E1 & C1 & H1 & Hw & F1).
  rewrite (bind_val _ _ _ _ _ E1). run_m. rewrite H1, lookup_insert_eq.
  eexists _, _. split; [reflexivity|]. cbn [mClients heap].
  split; [done|]. split; [rewrite H1, insert_insert_eq; reflexivity|]. cbn. split; [done|]. split; [apply Hw|].
  split; [by apply shut_ok in Hw|]. split; [|apply Hw].
  apply (counted_ext (λ _, 0) _ s1); [done..|]. intros x. cbn [heap]. rewrite H1, insert_insert_eq, !(holders_insert x _ id v) by done.
  done.
Qed.

Lemma destroy_ok id v s :
  hal_ok s → heap s !! id = Some v → ∃ s', destroy id s = Val s' tt ∧ hal_ok s'.
Proof.
  intros [Hs Hc] Hi. destruct (destroy_spec id v s Hc Hi) as (s' & w & E & C & Hh & W1 & W2 & W3 & F & _).
  { exact (so_virtual _ Hs id v Hi). }
  exists s'. split; [done|]. split; [|done]. apply (struct_same (put_virtual id w s)); [done|].
  apply (struct_virtual s id v); auto; congruence.
Qed.

Lemma struct_open s s' id w :
  struct_ok s → heap s !! id = None → Z.of_nat (length (mClients s)) + 1 < 4294967296 →
  mClients s' = mClients s ++ [id] → heap s' = <[id := w]> (heap s) → virtual_ok w →
  attached w = true → struct_ok s'.
Proof.
  intros [S1 S2 S3 S4 S5] Hi Hl Ec Eh Hw Ha.
  assert (id ∉ mClients s) as Hid by (intros (v & Hv & _)%S3; congruence).
  split; rewrite ?Ec, ?Eh.
  - apply list.NoDup_app. split_and!; [done| |apply list.NoDup_singleton]. intros i Hin ->%list_elem_of_singleton. done.
  - rewrite length_app. cbn. lia.
  - intros i [Hin| ->%list_elem_of_singleton]%elem_of_app.
    + rewrite lookup_insert_ne by (intros ->; done). by apply S3.
    + rewrite lookup_insert_eq. by exists w.
  - intros i u. destruct (decide (i = id)) as [->|Hne].
    + intros _ _. apply elem_of_app. right. by constructor.
    + rewrite lookup_insert_ne by done. intros Hu Hat. apply elem_of_app. left. by apply (S4 i u).
  - by apply map_Forall_insert_2.
Qed.

Lemma struct_close s s' id w :
  struct_ok s → mClients s' = filter (λ i, i ≠ id) (mClients s) → heap s' = <[id := w]> (heap s) →
  virtual_ok w → attached w = false → struct_ok s'.
Proof.
  intros [S1 S2 S3 S4 S5] Ec Eh Hw Ha. split; rewrite ?Ec, ?Eh.
  - by apply list.NoDup_filter.
  - pose proof (length_filter (λ i, i ≠ id) (mClients s)). lia.
  - intros i [Hne Hin]%list_elem_of_filter. rewrite lookup_insert_ne by done. by apply S3.
  - intros i u. destruct (decide (i = id)) as [->|Hne].
    + rewrite lookup_insert_eq. intros [= <-]. congruence.
    + rewrite lookup_insert_ne by done. intros Hu Hat. apply list_elem_of_filter. split; [done|]. by apply (S4 i u).
  - by apply map_Forall_insert_2.
Qed.

Lemma make_spec id s :
  hal_ok s → heap s !! id = None → Z.of_nat (length (mClients s)) + 1 < 4294967296 →
  ∃ s' b, makeVirtualCamera id s = Val s' b ∧ hal_ok s'.
Proof.
  intros [Hs Hc] Hi Hl. unfold makeVirtualCamera, set_virtual, set_clients. run_m.
  match goal with |- context [changeFramesInFlight 1 ?t] => set (s1 := t) end.
  assert (frames_counted (λ _, 0) s1) as Hc1.
  { apply (counted_ext (λ _, 0) _ s); [done..|]. intros x. cbn [heap s1].
    by rewrite holders_insert_new, Z.add_0_r by done. }
  destruct (change_frames_spec 1 _ s1 Hc1) as (s2 & b & -> & [E1 E2] & F2). destruct b.
  - eexists _, _. split; [reflexivity|]. split; [|by apply (counted_ext (λ _, 0) _ s2)].
    eapply (struct_open s); [done|done|done|by cbn; rewrite E1|by cbn; rewrite E2|..]; done.
  - destruct (destroy_spec id (MkVirtual true None [] 1 STOPPED true) s2) as (s3 & w & -> & C & Hh & W1 & W2 & W3 & F & _);
      [done|by rewrite E2; cbn; rewrite lookup_insert_eq|done|].
    eexists _, _. split; [reflexivity|]. split; [|done].
    eapply (struct_close s _ id w); [done| |by rewrite Hh, E2; cbn; rewrite insert_insert_eq|done|done].
    rewrite C, E1. cbn [mClients s1]. symmetry. apply filter_all.
    apply List.Forall_forall. intros i Hin%list_elem_of_In ->. destruct (so_clients _ Hs _ Hin) as (v & Hv & _). congruence.
Qed.

(** The stream is stopped first, so that the shutdown finds nothing to return. *)
Lemma disown_keeps id v s :
  hal_ok s → heap s !! id = Some v →
  ∃ s' w, disownVirtualCamera id s = Val s' tt ∧ hal_ok s' ∧ heap s' = <[id := w]> (heap s)
    ∧ mFramesHeld w = mFramesHeld v ∧ attached w = false.
Proof.
  intros Hok Hi. unfold disownVirtualCamera.
  destruct (stop_spec id v s Hok Hi) as (s1 & w & E1 & [S1 F1] & C1 & H1 & Wr & _ & _ & Wh & _).
  rewrite (bind_val _ _ _ _ _ E1). unfold set_clients. run_m.
  match goal with |- context [shutdown id ?t] => set (s2 := t) end.
  assert (heap s2 !! id = Some w) as Hi2 by (cbn [heap s2]; rewrite H1; apply lookup_insert_eq).
  pose proof (so_virtual _ S1 id w Hi2) as Vw.
  destruct (shutdown_spec id w s2) as (s3 & w' & -> & C3 & H3 & Hw & F3); [by apply (counted_ext (λ _, 0) _ s1)|done|done|].
  destruct (change_frames_spec 0 _ s3 F3) as (s4 & b0 & -> & C4 & F4).
  exists s4, w'. split; [done|]. split; [split; [|done]|].
  - apply (struct_same s3); [done|]. apply (struct_close s1 s3 id w'); auto; [by apply shut_ok in Hw|apply Hw].
  - destruct C4 as [_ ->]. split; [rewrite H3; cbn [heap s2]; by rewrite H1, insert_insert_eq|].
    destruct Hw as (W1 & _ & _ & _ & W5). split; [|done].
    rewrite decide_True in W5 by (destruct Vw as [_ V2]; by destruct (vState w)). congruence.
Qed.
Lemma disown_spec id v s :
  hal_ok s → heap s !! id = Some v → ∃ s', disownVirtualCamera id s = Val s' tt ∧ hal_ok s'.
Proof. intros Hok Hi. destruct (disown_keeps id v s Hok Hi) as (s' & w & E & Ho & _). by exists s'. Qed.

(** A client that has lost its camera cannot return a frame it holds. *)
Lemma detached_done id b w h s :
  heap s !! id = Some w → attached w = false → is_Some (take_held (bufferId b) (mFramesHeld w)) →
  memHandle b = Some h → doneWithFrame id b s = Ub.
Proof.
  intros Hi Ha [l Hl] Hh. unfold doneWithFrame, deref, on_hal, set_virtual. rewrite Hh. run_m. by rewrite Hi, Hl, Ha.
Qed.

(** ** Runs *)

Inductive hal_call : Type :=
  | OMake (id : Z)
  | ODisown (id : Z)
  | ODestroy (id : Z)
  | OSetMax (id n : Z)
  | OStart (id stream : Z)
  | OStop (id : Z)
  | ODone (id : Z) (b : BufferDesc)
  | OFrame (b : BufferDesc).

Definition run_call (o : hal_call) : M HalCamera unit :=
  match o with
  | OMake id => makeVirtualCamera id;; mret tt
  | ODisown id => disownVirtualCamera id
  | ODestroy id => destroy id
  | OSetMax id n => setMaxFramesInFlight id n;; mret tt
  | OStart id st => startVideoStream id (Some st);; mret tt
  | OStop id => stopVideoStream id
  | ODone id b => doneWithFrame id b
  | OFrame b => hal_deliverFrame b
  end.

Definition open_client (s : HalCamera) (id : Z) : bool :=
  match heap s !! id with Some v => attached v && alive v | None => false end.
Definition has_stream (s : HalCamera) (id : Z) : bool :=
  match heap s !! id with Some v => negb (alive v) || bool_decide (is_Some (vStream v)) | None => true end.

(** A stream may be started: one is running already, or no frame is held. *)
Definition may_start (s : HalCamera) (id : Z) : bool :=
  match heap s !! id with
  | Some v => bool_decide (vState v ≠ STOPPED ∨ mFramesHeld v = [])
  | None => false
  end.

(** When a call may come: clients use cameras that are open and start no stream while they
    hold frames of the last one, new objects are new, and the hardware does not give out a
    frame it has not got back.  The end-of-stream marker is only spoken of when frame 0 is
    not, and when every client has had a stream. *)
Definition call_ok (s : HalCamera) (o : hal_call) : bool :=
  match o with
  | OMake id =>
      bool_decide (heap s !! id = None ∧ Z.of_nat (length (mClients s)) + 1 < 4294967296)
  | ODestroy id => bool_decide (is_Some (heap s !! id))
  | OStart id _ => open_client s id && may_start s id
  | ODisown id | OSetMax id _ | OStop id | ODone id _ => open_client s id
  | OFrame b =>
      match memHandle b with
      | Some _ => negb (good (bufferId b)) || bool_decide (outstanding (bufferId b) (hw_log s) = 0)
      | None => negb (good (bufferId b)) && forallb (has_stream s) (mClients s)
      end
  end.

(** [sane]: further restrictions on the calls. *)
Inductive hal_reach (sane : hal_call → bool) (hw : H) : HalCamera → Prop :=
  | hal_reach_new : hal_reach sane hw (new_hal hw)
  | hal_reach_call s o s' :
      hal_reach sane hw s → call_ok s o = true → sane o = true → run_call o s = Val s' tt →
      hal_reach sane hw s'.

Lemma open_client_inv s id :
  open_client s id = true → ∃ v, heap s !! id = Some v ∧ attached v = true.
Proof.
  unfold open_client. destruct (heap s !! id) as [v|]; [|done]. intros [Ha _]%andb_true_iff. by exists v.
Qed.

Lemma call_spec s o : hal_ok s → call_ok s o = true → ∃ s', run_call o s = Val s' tt ∧ hal_ok s'.
Proof.
  intros Hok. destruct o as [id|id|id|id n|id st|id|id b|b]; cbn [call_ok run_call]; intros Hg.
  1: { apply bool_decide_eq_true in Hg as [Hg Hl].
       destruct (make_spec id s Hok Hg Hl) as (s' & r & E & Hs'). rewrite (bind_val _ _ _ _ _ E). by exists s'. }
  2: { apply bool_decide_eq_true in Hg as [v Hv]. by apply (destroy_ok id v). }
  6: { apply deliver_spec; [done| |].
       - intros Hb id v Hid Hv Ha. rewrite Hb in Hg. apply andb_true_iff in Hg as [_ Hg].
         rewrite forallb_forall in Hg. apply list_elem_of_In in Hid. specialize (Hg id Hid).
         unfold has_stream in Hg. rewrite Hv, Ha in Hg. by apply bool_decide_eq_true in Hg.
       - intros Hx. rewrite Hx in Hg. destruct (memHandle b); [|done]. by apply bool_decide_eq_true in Hg. }
  3: { apply andb_true_iff in Hg as [(v & Hv & Ha)%open_client_inv Hm]. unfold may_start in Hm. rewrite Hv in Hm.
       apply bool_decide_eq_true in Hm.
       destruct (start_spec id st v s Hok Hv Ha) as (s' & r & E & Hs'); [by destruct Hm|]. rewrite (bind_val _ _ _ _ _ E). by exists s'. }
  all: apply open_client_inv in Hg as (v & Hv & Ha).
  - by apply (disown_spec id v).
  - destruct (set_max_spec id n v s Hok Hv Ha) as (s' & r & E & Hs'). rewrite (bind_val _ _ _ _ _ E). by exists s'.
  - destruct (stop_spec id v s Hok Hv) as (s' & w & E & Hs' & _). by exists s'.
  - by apply (client_done_spec id b v).
Qed.

Lemma new_hal_ok hw : hal_ok (new_hal hw).
Proof.
  split.
  - split; cbn; [constructor|lia|by intros id ?%elem_of_nil|done|apply map_Forall_empty].
  - split; cbn; done.
Qed.
Lemma reach_ok sane hw s : hal_reach sane hw s → hal_ok s.
Proof.
  induction 1 as [|s o s' _ IH Hg _ E]; [apply new_hal_ok|].
  destruct (call_spec s o IH Hg) as (s1 & E1 & Hs1). congruence.
Qed.

(** Starting a stream again with a frame of the last one in hand aborts the service. *)
Lemma start_aborts id st v s :
  heap s !! id = Some v → vState v = STOPPED → mFramesHeld v ≠ [] → startVideoStream id st s = Ub.
Proof. intros Hi Hst Hh. unfold startVideoStream, deref. run_m. rewrite Hi, decide_True, decide_False by done. done. Qed.


(** ** Quotas *)

(** What the live clients may hold together, and what the hardware last agreed to. *)
Definition contribution (m : gmap Z VirtualCamera) (id : Z) : Z :=
  match m !! id with Some v => if alive v then vFramesAllowed v else 0 | None => 0 end.
Fixpoint demand_of (ids : list Z) (m : gmap Z VirtualCamera) : Z :=
  match ids with
  | [] => 0
  | id :: ids' => contribution m id + demand_of ids' m
  end.
Definition demand (s : HalCamera) : Z := demand_of (mClients s) (heap s).
Definition granted_step (g : Z) (e : hw_event) : Z :=
  match e with HwSetMax n EOK => n | _ => g end.
Definition granted_frames (log : list hw_event) : Z := foldl granted_step 0 log.

Lemma granted_snoc log e : granted_frames (log ++ [e]) = granted_step (granted_frames log) e.
Proof. unfold granted_frames. by rewrite foldl_app. Qed.

Definition allowed_ok (m : gmap Z VirtualCamera) : Prop := map_Forall (λ _ v, 0 ≤ vFramesAllowed v) m.

Lemma contribution_nonneg m id : allowed_ok m → 0 ≤ contribution m id.
Proof.
  intros Hm. unfold contribution. destruct (m !! id) as [v|] eqn:E; [|lia]. destruct (alive v); [|lia].
  exact (Hm id v E).
Qed.
Lemma demand_nonneg ids m : allowed_ok m → 0 ≤ demand_of ids m.
Proof.
  intros Hm. induction ids as [|id ids IH]; cbn; [lia|]. pose proof (contribution_nonneg m id Hm). lia.
Qed.
Lemma demand_app ids1 ids2 m : demand_of (ids1 ++ ids2) m = demand_of ids1 m + demand_of ids2 m.
Proof. induction ids1 as [|id ids IH]; cbn; [done|]. rewrite IH. lia. Qed.
Lemma demand_filter ids m id : allowed_ok m → demand_of (filter (λ i, i ≠ id) ids) m ≤ demand_of ids m.
Proof.
  intros Hm. induction ids as [|i ids IH]; [done|]. rewrite filter_cons. pose proof (contribution_nonneg m i Hm).
  case_decide; cbn [demand_of]; lia.
Qed.
Lemma demand_other ids m id w : id ∉ ids → demand_of ids (<[id := w]> m) = demand_of ids m.
Proof.
  induction ids as [|i ids IH]; [done|]. intros [Hne Hni]%not_elem_of_cons. cbn. rewrite (IH Hni).
  unfold contribution. by rewrite lookup_insert_ne.
Qed.
Lemma demand_insert ids m id w :
  NoDup ids → id ∈ ids →
  demand_of ids (<[id := w]> m) = demand_of ids m - contribution m id + contribution (<[id := w]> m) id.
Proof.
  induction ids as [|i ids IH]; [by intros _ ?%elem_of_nil|]. intros [Hni Hnd]%list.NoDup_cons. cbn [demand_of].
  destruct (decide (id = i)) as [->|Hne].
  - intros _. rewrite demand_other by done. lia.
  - intros [->|Hin]%elem_of_cons; [done|]. rewrite IH by done. unfold contribution at 1.
    rewrite lookup_insert_ne by done. fold (contribution m i). lia.
Qed.

Lemma demand_sum s :
  allowed_ok (heap s) → demand s < 4294967296 →
  foldl (λ n (p : Z * VirtualCamera), u32 (n + vFramesAllowed p.2)) 0 (promoted s) = demand s.
Proof.
  unfold demand, promoted. intros Hm. enough (∀ k, 0 ≤ k → k + demand_of (mClients s) (heap s) < 4294967296 →
    foldl (λ n (p : Z * VirtualCamera), u32 (n + vFramesAllowed p.2)) k (promoted s)
    = k + demand_of (mClients s) (heap s)) as Hk by (intros Hlt; apply (Hk 0); lia).
  unfold promoted. induction (mClients s) as [|id ids IH]; intros k Hk Hlt; cbn [omap list_omap foldl demand_of] in *; [lia|].
  pose proof (demand_nonneg ids _ Hm). pose proof (contribution_nonneg (heap s) id Hm).
  unfold contribution in *. destruct (heap s !! id) as [v|]; [destruct (alive v)|]; cbn [foldl snd].
  - rewrite (u32_small (k + vFramesAllowed v)) by (unfold is_u32; lia). rewrite IH; lia.
  - rewrite IH; lia.
  - rewrite IH; lia.
Qed.

(** What changes neither the quotas nor what was granted. *)
Definition quota_of (v : VirtualCamera) : bool * Z := (alive v, vFramesAllowed v).
Definition quota_same (s s' : HalCamera) : Prop :=
  mClients s' = mClients s ∧ quota_of <$> heap s' = quota_of <$> heap s
  ∧ granted_frames (hw_log s') = granted_frames (hw_log s).
Definition keeps {A} (P : HalCamera → Prop) (m : M HalCamera A) : Prop :=
  ∀ s s' a, P s → m s = Val s' a → quota_same s s' ∧ P s'.

Lemma quota_same_trans s1 s2 s3 : quota_same s1 s2 → quota_same s2 s3 → quota_same s1 s3.
Proof. intros (A1 & A2 & A3) (B1 & B2 & B3). split_and!; congruence. Qed.
Lemma qkeeps_ret {A} P (a : A) : keeps P (mret a).
Proof. by intros s s' b HP [= <- <-]. Qed.
Lemma qkeeps_undefined {A} P : keeps P (undefined : M HalCamera A).
Proof. by intros s s' b HP ?. Qed.
Lemma qkeeps_bind {A B} P (m : M HalCamera A) (k : A → M HalCamera B) :
  keeps P m → (∀ a, keeps P (k a)) → keeps P (m ≫= k).
Proof.
  intros Hm Hk s s' b HP. unfold mbind, M_bind. destruct (m s) as [s1 a|?|] eqn:E; [|done..].
  destruct (Hm _ _ _ HP E) as [Q1 P1]. intros E2. destruct (Hk a _ _ _ P1 E2) as [Q2 P2].
  split; [by apply (quota_same_trans _ s1)|done].
Qed.
Lemma qkeeps_get {A} P (k : HalCamera → M HalCamera A) : (∀ t, keeps P (k t)) → keeps P (s ← get; k s).
Proof. intros Hk s s' a HP E. by apply (Hk s s s' a). Qed.

(** The state of one object, as far as quotas go. *)
Definition at_quota (id : Z) (v : VirtualCamera) (s : HalCamera) : Prop :=
  quota_of <$> heap s !! id = Some (quota_of v).
Definition nothing (s : HalCamera) : Prop := True.

Lemma qkeeps_deref {A} id (k : VirtualCamera → M HalCamera A) :
  (∀ v, keeps (at_quota id v) (k v)) → keeps nothing (v ← deref id; k v).
Proof.
  intros Hk s s' a _. unfold deref. run_m. destruct (heap s !! id) as [v|] eqn:E; [|done].
  intros E'. destruct (Hk v s s' a) as [Hq _]; [by unfold at_quota; rewrite E|done|done].
Qed.
Lemma qkeeps_any {A} id v (m : M HalCamera A) : keeps nothing m → keeps (at_quota id v) m.
Proof.
  intros Hm s s' a HP E. destruct (Hm s s' a I E) as [Hq _]. split; [done|].
  unfold at_quota in *. destruct Hq as (_ & Hq & _). by rewrite <- lookup_fmap, Hq, lookup_fmap.
Qed.
Lemma qkeeps_deref_at {A} id v (k : VirtualCamera → M HalCamera A) :
  (∀ u, quota_of u = quota_of v → keeps (at_quota id v) (k u)) → keeps (at_quota id v) (u ← deref id; k u).
Proof.
  intros Hk s s' a HP. unfold deref. run_m. destruct (heap s !! id) as [u|] eqn:E; [|done].
  intros E'. apply (Hk u) in E'; [done| |done]. unfold at_quota in HP. rewrite E in HP.
  cbn in HP. congruence.
Qed.
Lemma qkeeps_virtual id v w : quota_of w = quota_of v → keeps (at_quota id v) (set_virtual id w).
Proof.
  intros Hw s s' a HP [= <- <-]. unfold at_quota, quota_same in *. cbn [heap mClients hw_log]. split.
  - split_and!; auto. rewrite fmap_insert, Hw. apply insert_id. by rewrite lookup_fmap.
  - rewrite lookup_insert_eq. cbn. by rewrite Hw.
Qed.
Lemma qkeeps_modify (f : HalCamera → HalCamera) :
  (∀ s, mClients (f s) = mClients s ∧ heap (f s) = heap s ∧ hw_log (f s) = hw_log s) →
  keeps nothing (modify f).
Proof.
  intros Hf s s' a _ [= <- <-]. destruct (Hf s) as (E1 & E2 & E3). split; [|done]. split_and!; congruence.
Qed.
Lemma qkeeps_hw {A} (f : H → H * A) (ev : A → hw_event) :
  (∀ a g, granted_step g (ev a) = g) → keeps nothing (with_hw f ev).
Proof.
  intros Hev s s' a _. destruct (with_hw_spec f ev s) as (hw & b & ->). intros [= <- <-].
  split; [|done]. unfold quota_same. cbn. by rewrite granted_snoc, Hev.
Qed.
Lemma qkeeps_send st b : keeps nothing (send st b).
Proof. destruct st; [by apply qkeeps_modify|apply qkeeps_undefined]. Qed.
Lemma qkeeps_on_hal {A} P v (m : M HalCamera A) : keeps P m → keeps P (on_hal v m).
Proof. unfold on_hal. destruct (attached v); [done|]. intros _. apply qkeeps_undefined. Qed.

(** Follows the structure of a body. *)
Ltac qkeeps_step :=
  lazymatch goal with
  | |- keeps _ (mret _) => apply qkeeps_ret
  | |- keeps _ undefined => apply qkeeps_undefined
  | |- keeps _ (get ≫= _) => apply qkeeps_get; intros ?
  | |- keeps (at_quota _ _) (deref _ ≫= _) => apply qkeeps_deref_at; intros ? ?
  | |- keeps _ (_ ≫= _) => apply qkeeps_bind; [|intros ?]
  | |- keeps _ (on_hal _ _) => apply qkeeps_on_hal
  | |- keeps (at_quota _ _) (set_virtual _ _) => apply qkeeps_virtual; unfold quota_of in *; cbn; congruence
  | |- keeps nothing (with_hw _ _) => by apply qkeeps_hw
  | |- keeps nothing (modify _) => by apply qkeeps_modify
  | |- keeps nothing (send _ _) => apply qkeeps_send
  | |- keeps _ (if ?c then _ else _) => destruct c
  | |- keeps _ (match ?c with _ => _ end) => destruct c
  | |- keeps (at_quota _ _) _ => apply qkeeps_any
  | |- keeps nothing _ => assumption
  end.
Ltac qkeeps_auto := repeat qkeeps_step.

Lemma qkeeps_hal_done b : keeps nothing (hal_doneWithFrame b).
Proof. unfold hal_doneWithFrame, set_frames. qkeeps_auto. Qed.
Lemma qkeeps_starting : keeps nothing clientStreamStarting.
Proof. unfold clientStreamStarting. qkeeps_auto. Qed.
Lemma qkeeps_ending : keeps nothing clientStreamEnding.
Proof. unfold clientStreamEnding. qkeeps_auto. Qed.
Lemma qkeeps_for_each l : keeps nothing (for_each l hal_doneWithFrame).
Proof.
  induction l as [|b l IH]; [apply qkeeps_ret|]. cbn. apply qkeeps_bind; [apply qkeeps_hal_done|done].
Qed.
Lemma qkeeps_deliver_virtual id b : keeps nothing (deliver_virtual id b).
Proof. unfold deliver_virtual. apply qkeeps_deref. intros v. destruct (memHandle b); qkeeps_auto. Qed.
Lemma qkeeps_deliver_loop b ids n : keeps nothing (deliver_loop ids b n).
Proof.
  revert n. induction ids as [|id ids IH]; intros n; [apply qkeeps_ret|]. cbn [deliver_loop].
  pose proof (qkeeps_deliver_virtual id b). qkeeps_auto; apply IH.
Qed.
Lemma qkeeps_deliver b : keeps nothing (hal_deliverFrame b).
Proof.
  unfold hal_deliverFrame, log_frame, set_frames. apply qkeeps_bind.
  { intros s s' a _ [= <- <-]. split; [|done]. unfold quota_same. cbn. by rewrite granted_snoc. }
  intros []. apply qkeeps_get. intros s. pose proof (qkeeps_deliver_loop b (mClients s) 0). qkeeps_auto.
Qed.
Lemma qkeeps_start id st : keeps nothing (startVideoStream id st).
Proof. unfold startVideoStream. apply qkeeps_deref. intros v. pose proof qkeeps_starting. qkeeps_auto. Qed.
Lemma qkeeps_stop id : keeps nothing (stopVideoStream id).
Proof. unfold stopVideoStream. apply qkeeps_deref. intros v. pose proof qkeeps_ending. qkeeps_auto. Qed.
Lemma qkeeps_client_done id b : keeps nothing (doneWithFrame id b).
Proof.
  unfold doneWithFrame. destruct (memHandle b); [|apply qkeeps_ret]. apply qkeeps_deref. intros v.
  pose proof (qkeeps_hal_done b). qkeeps_auto.
Qed.
Lemma qkeeps_shutdown id : keeps nothing (shutdown id).
Proof.
  unfold shutdown. apply qkeeps_deref. intros v. pose proof (qkeeps_for_each (mFramesHeld v)) as Hf.
  qkeeps_auto. unfold on_hal. destruct (attached v); [exact Hf|].
  destruct (mFramesHeld v); [apply qkeeps_ret|]. cbn. intros s s' a _. by run_m.
Qed.

(** The hardware's promise: it never agrees to more than its own limit. *)
Section quota.
Context (limit : Z).
Hypothesis limit_range : 1 ≤ limit < 2147483648.
Hypothesis hw_limited : ∀ n h h', hw_setMaxFramesInFlight n h = (h', EOK) → n ≤ limit.

Record quota_ok (s : HalCamera) : Prop := {
  qo_allowed : allowed_ok (heap s);
  qo_demand : demand s ≤ granted_frames (hw_log s);
  qo_limit : granted_frames (hw_log s) ≤ limit;
}.

Lemma contribution_quota m id :
  contribution m id = match (quota_of <$> m) !! id with Some (true, n) => n | _ => 0 end.
Proof. unfold contribution. rewrite lookup_fmap. by destruct (m !! id) as [[? ? ? ? ? []]|]. Qed.
Lemma demand_quota ids (m m' : gmap Z VirtualCamera) :
  quota_of <$> m' = quota_of <$> m → demand_of ids m' = demand_of ids m.
Proof.
  intros E. induction ids as [|id ids IH]; [done|]. cbn. by rewrite IH, !contribution_quota, E.
Qed.
Lemma allowed_quota (m m' : gmap Z VirtualCamera) :
  quota_of <$> m' = quota_of <$> m → allowed_ok m → allowed_ok m'.
Proof.
  intros E Hm id v Hi.
  assert ((quota_of <$> m') !! id = Some (quota_of v)) as Hq by (by rewrite lookup_fmap, Hi).
  rewrite E, lookup_fmap in Hq. destruct (m !! id) as [u|] eqn:Hu; [|done]. cbn in Hq.
  pose proof (Hm id u Hu) as Hn. unfold quota_of in Hq. cbn in Hn. congruence.
Qed.
Lemma quota_keep s s' : quota_same s s' → quota_ok s → quota_ok s'.
Proof.
  intros (E1 & E2 & E3) [Q1 Q2 Q3]. split; [by apply (allowed_quota (heap s))| |by rewrite E3].
  unfold demand in *. by rewrite E1, E3, (demand_quota _ _ _ E2).
Qed.
Lemma quota_keeps {A} (m : M HalCamera A) s s' a :
  keeps nothing m → m s = Val s' a → quota_ok s → quota_ok s'.
Proof. intros Hm E. apply quota_keep. by apply (Hm s s' a). Qed.

Lemma change_quota delta s s' b :
  allowed_ok (heap s) → demand s < 4294967296 → 0 ≤ demand s + delta < 4294967296 →
  changeFramesInFlight delta s = Val s' b →
  core_same s s'
  ∧ granted_frames (hw_log s') = (if b then Z.max 1 (demand s + delta) else granted_frames (hw_log s))
  ∧ (b = true → granted_frames (hw_log s') ≤ limit).
Proof.
  intros Hm Hd Hr. unfold changeFramesInFlight, with_hw, set_frames. run_m. rewrite demand_sum by done.
  rewrite u32_small by done.
  assert ((if decide (demand s + delta < 1) then 1 else demand s + delta) = Z.max 1 (demand s + delta)) as ->
    by (case_decide; lia).
  destruct (hw_setMaxFramesInFlight _ _) as [hw r] eqn:Eh. cbn [mFrames].
  destruct (decide (r = EOK)) as [->|Hne]; intros [= <- <-]; cbn [hw_log].
  - rewrite granted_snoc. cbn. split; [done|]. split; [done|]. intros _. by apply (hw_limited _ _ _ Eh).
  - rewrite granted_snoc. split; [done|]. split; [by destruct r|done].
Qed.

Definition small_request (o : hal_call) : bool :=
  match o with OSetMax _ n => bool_decide (0 ≤ n < 2147483648) | _ => true end.

Lemma quota_demand s : quota_ok s → 0 ≤ demand s ≤ limit.
Proof. intros [Q1 Q2 Q3]. pose proof (demand_nonneg (mClients s) _ Q1). unfold demand in *. lia. Qed.

Lemma quota_lower s s' :
  quota_ok s → allowed_ok (heap s') → demand s' ≤ demand s →
  granted_frames (hw_log s') = granted_frames (hw_log s) → quota_ok s'.
Proof. intros [Q1 Q2 Q3] Ha Hd Eg. split; [done|lia|lia]. Qed.

Lemma quota_destroy id v s s' :
  NoDup (mClients s) → quota_ok s → heap s !! id = Some v → destroy id s = Val s' tt → quota_ok s'.
Proof.
  intros Hs Hq Hi. unfold destroy.
  destruct (shutdown id s) as [s1 []|?|] eqn:E; unfold mbind, M_bind; rewrite E; [|done..].
  pose proof (proj1 (qkeeps_shutdown id s s1 tt I E)) as (C1 & C2 & C3).
  pose proof (quota_keeps _ _ _ _ (qkeeps_shutdown id) E Hq) as Hq1.
  unfold deref, set_virtual. run_m. destruct (heap s1 !! id) as [w|] eqn:Hw; [|done]. intros [= <-].
  pose proof (qo_allowed _ Hq1 id w Hw) as Hn. cbn beta in Hn.
  apply (quota_lower s1); [done| | |done].
  - by apply map_Forall_insert_2; [|apply Hq1].
  - unfold demand. cbn [mClients heap]. destruct (decide (id ∈ mClients s1)) as [Hin|Hni].
    + rewrite demand_insert by (done || by rewrite C1). unfold contribution.
      rewrite Hw, lookup_insert_eq. cbn [alive]. destruct (alive w); lia.
    + by rewrite demand_other.
Qed.

Lemma quota_make id s s' b :
  struct_ok s → quota_ok s → heap s !! id = None → makeVirtualCamera id s = Val s' b → quota_ok s'.
Proof.
  intros Hs Hq Hi. unfold makeVirtualCamera, set_virtual, set_clients. run_m.
  match goal with |- context [changeFramesInFlight 1 ?t] => set (s1 := t) end.
  assert (id ∉ mClients s) as Hid by (intros (v & Hv & _)%(so_clients _ Hs); congruence).
  assert (demand s1 = demand s) as Ed by (unfold demand; cbn [mClients heap s1]; by rewrite demand_other).
  pose proof (quota_demand s Hq) as Hd. pose proof (qo_demand _ Hq). pose proof (qo_limit _ Hq).
  assert (allowed_ok (heap s1)) as Ha1 by (apply map_Forall_insert_2; [done|apply Hq]).
  assert (quota_ok s1) as Hq1 by (apply (quota_lower s); [done|done|lia|done]).
  destruct (changeFramesInFlight 1 s1) as [s2 ok|?|] eqn:E; [|done..].
  destruct (change_quota 1 s1 s2 ok) as ((E1 & E2) & Eg & El); [done|lia|lia|done|]. destruct ok.
  - intros [= <- <-]. split; cbn [heap hw_log]; [by rewrite E2| |auto].
    unfold demand. cbn [mClients heap]. rewrite Eg, E1, E2, demand_app.
    fold (demand s1). cbn [demand_of]. unfold contribution. cbn [heap s1]. rewrite lookup_insert_eq. cbn. lia.
  - destruct (destroy id s2) as [s3 []|?|] eqn:E3; [|done..]. intros [= <- <-].
    assert (quota_ok s2) as Hq2.
    { apply (quota_lower s1); [done|by rewrite E2| |done]. unfold demand. rewrite E1, E2. done. }
    apply (quota_destroy id (MkVirtual true None [] 1 STOPPED true) s2); [|done| |done].
    + rewrite E1. apply Hs.
    + rewrite E2. apply lookup_insert_eq.
Qed.

Lemma quota_set_max id n v s s' r :
  struct_ok s → quota_ok s → heap s !! id = Some v → attached v = true → alive v = true → 0 ≤ n < 2147483648 →
  setMaxFramesInFlight id n s = Val s' r → quota_ok s'.
Proof.
  intros Hs Hq Hi Ha Hl Hn. unfold setMaxFramesInFlight, deref, on_hal, set_virtual. run_m. rewrite Hi, Ha. run_m.
  pose proof (so_attached _ Hs id v Hi Ha) as Hin. pose proof (quota_demand s Hq) as Hd.
  assert (contribution (heap s) id = vFramesAllowed v) as Ec by (unfold contribution; by rewrite Hi, Hl).
  set (w := MkVirtual (attached v) (vStream v) (mFramesHeld v) n (vState v) (alive v)).
  pose proof (demand_insert (mClients s) (heap s) id w (so_nodup _ Hs) Hin) as Ew.
  assert (contribution (<[id := w]> (heap s)) id = n) as Ecw
    by (unfold contribution; rewrite lookup_insert_eq; cbn; by rewrite Hl).
  assert (allowed_ok (<[id := w]> (heap s))) as Haw by (apply map_Forall_insert_2; [cbn; lia|apply Hq]).
  pose proof (demand_nonneg (mClients s) _ Haw) as Hdw. fold (demand s) in Ew.
  pose proof (qo_allowed _ Hq id v Hi) as Hv. cbn beta in Hv.
  assert (vFramesAllowed v ≤ demand s) as Hvd.
  { set (z := MkVirtual true None [] 0 STOPPED true).
    pose proof (demand_insert (mClients s) (heap s) id z (so_nodup _ Hs) Hin) as Ez.
    unfold contribution at 2 in Ez. rewrite lookup_insert_eq in Ez. cbn in Ez. fold (demand s) in Ez.
    pose proof (demand_nonneg (mClients s) (<[id := z]> (heap s))) as Hz. rewrite Ez, Ec in Hz.
    enough (0 ≤ demand s - vFramesAllowed v + 0) by lia. apply Hz, map_Forall_insert_2; [cbn; lia|apply Hq]. }
  rewrite i32_small by (unfold is_i32; lia).
  destruct (changeFramesInFlight _ s) as [s1 ok|?|] eqn:E; [|done..].
  destruct (change_quota (n - vFramesAllowed v) s s1 ok) as ((E1 & E2) & Eg & El); [apply Hq|lia|lia|done|].
  destruct ok.
  - rewrite E2, Hi. intros [= <- <-]. fold w. split; cbn [heap hw_log]; rewrite ?E2; [done| |auto].
    unfold demand. cbn [mClients heap]. rewrite E1, Ew, Eg. lia.
  - intros [= <- <-]. apply (quota_lower s); [done|by rewrite E2; apply Hq| |done].
    unfold demand. by rewrite E1, E2.
Qed.

Lemma quota_disown id s s' :
  quota_ok s → disownVirtualCamera id s = Val s' tt → quota_ok s'.
Proof.
  intros Hq. unfold disownVirtualCamera, set_clients. run_m.
  destruct (stopVideoStream id s) as [s1 []|?|] eqn:E1; [|done..].
  pose proof (quota_keeps _ _ _ _ (qkeeps_stop id) E1 Hq) as Hq1.
  match goal with |- context [shutdown id ?t] => set (s2 := t) end.
  assert (quota_ok s2) as Hq2.
  { apply (quota_lower s1); [done|apply Hq1| |done]. apply demand_filter. apply Hq1. }
  destruct (shutdown id s2) as [s3 []|?|] eqn:E3; [|done..].
  pose proof (quota_keeps _ _ _ _ (qkeeps_shutdown id) E3 Hq2) as Hq3.
  destruct (changeFramesInFlight 0 s3) as [s4 ok|?|] eqn:E4; [|done..]. intros [= <-].
  pose proof (quota_demand s3 Hq3). pose proof (qo_demand _ Hq3). pose proof (qo_limit _ Hq3).
  destruct (change_quota 0 s3 s4 ok) as ((C1 & C2) & Eg & El); [apply Hq3|lia|lia|done|].
  assert (demand s4 = demand s3) as Ed by (unfold demand; by rewrite C1, C2).
  split; [rewrite C2; apply Hq3|rewrite Ed; destruct ok; lia|destruct ok; [auto|lia]].
Qed.

Lemma quota_call s o s' :
  hal_ok s → quota_ok s → call_ok s o = true → small_request o = true → run_call o s = Val s' tt → quota_ok s'.
Proof.
  intros [Hs _] Hq Hg Hsm. destruct o as [id|id|id|id n|id st|id|id b|b]; cbn [call_ok run_call] in *; intros E.
  - apply bool_decide_eq_true in Hg as [Hg _]. run_m_in E.
    destruct (makeVirtualCamera id s) as [s1 ok|?|] eqn:E1; [|done..]. injection E as <-.
    by apply (quota_make id s s1 ok).
  - by apply (quota_disown id s).
  - apply bool_decide_eq_true in Hg as [v Hv]. by apply (quota_destroy id v s s' (so_nodup _ Hs)).
  - run_m_in E. destruct (setMaxFramesInFlight id n s) as [s1 r|?|] eqn:E1; [|done..]. injection E as <-.
    unfold open_client in Hg. destruct (heap s !! id) as [v|] eqn:Hv; [|done].
    apply andb_true_iff in Hg as [Ha Hl]. apply bool_decide_eq_true in Hsm.
    by apply (quota_set_max id n v s s1 r).
  - run_m_in E. destruct (startVideoStream id (Some st) s) as [s1 r|?|] eqn:E1; [|done..]. injection E as <-.
    by apply (quota_keeps _ _ _ _ (qkeeps_start id (Some st)) E1).
  - by apply (quota_keeps _ _ _ _ (qkeeps_stop id) E).
  - by apply (quota_keeps _ _ _ _ (qkeeps_client_done id b) E).
  - by apply (quota_keeps _ _ _ _ (qkeeps_deliver b) E).
Qed.

(** C31: for a hardware camera that never agrees to more frames than its limit: as long as
    clients ask for less than 2^31 frames, the number of frames the hardware last agreed to
    covers the quotas of all live clients together. *)
Theorem evs_quota_covered hw s :
  hal_reach small_request hw s → demand s ≤ granted_frames (hw_log s) ≤ limit.
Proof.
  intros Hr. enough (quota_ok s) as [Q1 Q2 Q3] by done.
  induction Hr as [|s o s' Hr IH Hg Hsm E].
  - split; cbn; [apply map_Forall_empty|done|lia].
  - apply (quota_call s o); auto. by apply reach_ok in Hr.
Qed.
End quota.

(** ** Closing a camera *)

(** a client that dies while it streams gives back what it holds: its object ends
    detached with no frame, and every frame's count is again the number of its holders. *)
Theorem evs_death_returns_frames sane hw id v s :
  hal_reach sane hw s → heap s !! id = Some v → vState v = RUNNING →
  ∃ s' w, destroy id s = Val s' tt ∧ heap s' = <[id := w]> (heap s)
    ∧ mFramesHeld w = [] ∧ alive w = false
    ∧ ∀ x, good x = true →
        refs x (mFrames s') = refs x (mFrames s) - count_held x (mFramesHeld v)
        ∧ outstanding x (hw_log s') = if decide (0 < holders x (heap s')) then 1 else 0.
Proof.
  intros [Hs Hc]%reach_ok Hi Hv.
  destruct (destroy_spec id v s Hc Hi (so_virtual _ Hs id v Hi)) as (s' & w & E & C & Hh & W1 & W2 & W3 & F & Ew).
  rewrite decide_False in Ew by (by rewrite Hv). exists s', w. split_and!; auto.
  intros x Hx. destruct Hc as [_ Hr _], F as [_ Hr' Ho]. specialize (Hr x Hx). specialize (Hr' x Hx). specialize (Ho x Hx).
  rewrite Z.add_0_r in *. rewrite Hr, Hr', Ho, Hh, (holders_insert x _ id v _ Hi), Ew.
  change (count_held x []) with 0. split; [lia|done].
Qed.

(** closing a camera in order keeps what the client holds: the stream is stopped first,
    so that the shutdown finds nothing to do.  The object keeps its frames, the hardware
    stays owed each of them, and the client cannot return them any more, as the object has
    lost its camera. *)
Theorem evs_close_keeps_frames sane hw id v s :
  hal_reach sane hw s → heap s !! id = Some v →
  ∃ s' w, disownVirtualCamera id s = Val s' tt ∧ heap s' = <[id := w]> (heap s)
    ∧ mFramesHeld w = mFramesHeld v
    ∧ (∀ b h, b ∈ mFramesHeld v → memHandle b = Some h →
         (good (bufferId b) = true → outstanding (bufferId b) (hw_log s') = 1)
         ∧ doneWithFrame id b s' = Ub).
Proof.
  intros Hok%reach_ok Hi. destruct (disown_keeps id v s Hok Hi) as (s' & w & E & [_ F] & Hh & Wh & Wa).
  exists s', w. split; [done|]. split; [done|]. split; [done|].
  intros b h Hb Hm. rewrite <- Wh in Hb. split.
  - intros Hx. rewrite (fc_hw _ _ F) by done. rewrite Z.add_0_r, decide_True; [done|].
    pose proof (holders_ge (bufferId b) (heap s') id w) as Hge.
    rewrite Hh, lookup_insert_eq in Hge. specialize (Hge eq_refl). rewrite Hh.
    pose proof (count_held_pos b (mFramesHeld w) Hb). lia.
  - apply (detached_done id b w h); [rewrite Hh; apply lookup_insert_eq|done|by apply take_held_some|done].
Qed.

End manager.

(** ** The enumerator *)

Section enumerator.
Context {H : Type} {HW : HwCamera H}.
Implicit Types (s : @HalCamera H).

Lemma change_clients delta s s' b : changeFramesInFlight delta s = Val s' b → core_same s s'.
Proof.
  unfold changeFramesInFlight, set_frames. run_m. set (n := if decide (_ < 1) then 1 else _).
  destruct (with_hw_spec (hw_setMaxFramesInFlight n) (HwSetMax n) s) as (hw & r & ->).
  case_decide; by intros [= <- <-].
Qed.
Lemma destroy_clients id s s' a : destroy id s = Val s' a → mClients s' = mClients s.
Proof.
  unfold destroy, set_virtual, deref. run_m. destruct (shutdown id s) as [s1 []|?|] eqn:E; [|done..].
  destruct (heap s1 !! id); [|done]. intros [= <- <-]. cbn. by apply (qkeeps_shutdown id s s1 tt I).
Qed.
Lemma make_clients id s s' b :
  makeVirtualCamera id s = Val s' b → mClients s' = if b then mClients s ++ [id] else mClients s.
Proof.
  unfold makeVirtualCamera, set_virtual, set_clients. run_m.
  match goal with |- context [changeFramesInFlight 1 ?t] => set (s1 := t) end.
  destruct (changeFramesInFlight 1 s1) as [s2 ok|?|] eqn:E; [|done..].
  apply change_clients in E as [E _]. destruct ok.
  - intros [= <- <-]. cbn. by rewrite E.
  - destruct (destroy id s2) as [s3 []|?|] eqn:E3; [|done..]. intros [= <- <-].
    apply destroy_clients in E3. by rewrite E3, E.
Qed.
Lemma disown_clients id s s' a :
  disownVirtualCamera id s = Val s' a → mClients s' = filter (λ i, i ≠ id) (mClients s).
Proof.
  unfold disownVirtualCamera, set_clients. run_m.
  destruct (stopVideoStream id s) as [s1 []|?|] eqn:E1; [|done..].
  match goal with |- context [shutdown id ?t] => set (s2 := t) end.
  destruct (shutdown id s2) as [s3 []|?|] eqn:E3; [|done..].
  destruct (changeFramesInFlight 0 s3) as [s4 ok|?|] eqn:E4; [|done..]. intros [= <- <-].
  apply change_clients in E4 as [E4 _]. rewrite E4.
  rewrite (proj1 (proj1 (qkeeps_shutdown id s2 s3 tt I E3))). cbn.
  by rewrite (proj1 (proj1 (qkeeps_stop id s s1 tt I E1))).
Qed.

Record Enumerator : Type := MkEnum {
  mCameras : list Z;               (* addresses of HalCameras *)
  hals : gmap Z (@HalCamera H);
  owner : gmap Z Z;                (* the HalCamera a VirtualCamera was made by *)
  mActiveDisplay : option Z;       (* a weak pointer *)
  displays : gset Z;               (* the displays that are alive *)
  closed_displays : list (option Z); (* closeDisplay calls to the hardware *)
}.
Definition new_enum : Enumerator := MkEnum [] ∅ ∅ None ∅ [].

Definition in_hal {A} (a : Z) (m : M (@HalCamera H) A) : M Enumerator A :=
  e ← get;
  match hals e !! a with
  | None => undefined
  | Some h =>
      match m h with
      | Val h' x =>
          put (MkEnum (mCameras e) (<[a := h']> (hals e)) (owner e) (mActiveDisplay e) (displays e)
                 (closed_displays e));; mret x
      | _ => undefined
      end
  end.

(** The camera of the list whose hardware says it is [cameraId]. *)
Definition find_camera (e : Enumerator) (cameraId : Z) : option Z :=
  snd <$> list_find (λ a, (hals e !! a) ≫= (λ h, hw_cameraId (mHwCamera h)) = Some cameraId) (mCameras e).

(** [device]: what the hardware's enumerator answers; [id] and [addr]: the addresses of the
    client object and of a new HalCamera. *)
Definition openCamera (cameraId : Z) (device : option H) (id addr : Z) : M Enumerator (option Z) :=
  e ← get;
  cam ← match find_camera e cameraId with
        | Some a => mret (Some a)
        | None =>
            match device with
            | None => mret None
            | Some d =>
                put (MkEnum (mCameras e) (<[addr := new_hal d]> (hals e)) (owner e) (mActiveDisplay e)
                       (displays e) (closed_displays e));; mret (Some addr)
            end
        end;
  match cam with
  | None => mret None
  | Some a =>
      ok ← in_hal a (makeVirtualCamera id);
      if (ok : bool) then
        modify (λ e, MkEnum (mCameras e ++ [a]) (hals e) (<[id := a]> (owner e)) (mActiveDisplay e)
                       (displays e) (closed_displays e));;
        mret (Some id)
      else mret None
  end.

(** [getHalCamera] of a client object, null once it was shut down. *)
Definition getHalCamera (e : Enumerator) (id : Z) : option Z :=
  a ← owner e !! id; h ← hals e !! a; v ← heap h !! id; if attached v then Some a else None.

Definition closeCamera (id : option Z) : M Enumerator unit :=
  match id with
  | None => mret tt
  | Some id =>
      e ← get;
      match getHalCamera e id with
      | None => undefined
      | Some a =>
          in_hal a (disownVirtualCamera id);;
          n ← in_hal a (s ← get; mret (length (mClients s)));
          if decide (n = 0%nat) then
            modify (λ e, MkEnum (filter (λ c, c ≠ a) (mCameras e)) (hals e) (owner e) (mActiveDisplay e)
                           (displays e) (closed_displays e))
          else mret tt
      end
  end.

Definition promote_display (e : Enumerator) : option Z :=
  d ← mActiveDisplay e; if decide (d ∈ displays e) then Some d else None.
Definition set_display (d : option Z) (live : gset Z) (log : list (option Z)) : M Enumerator unit :=
  modify (λ e, MkEnum (mCameras e) (hals e) (owner e) d live log).
Definition openDisplay (answer : option Z) : M Enumerator (option Z) :=
  e ← get;
  set_display answer (match answer with Some d => {[d]} ∪ displays e | None => displays e end)
    (closed_displays e);;
  mret answer.
Definition closeDisplay (display : option Z) : M Enumerator unit :=
  e ← get;
  if decide (display = promote_display e) then
    set_display None (displays e) (closed_displays e ++ [display])
  else mret tt.
(** The state the active display answers, or [NOT_OPEN]. *)
Definition getDisplayState (answer : Z → Z) (NOT_OPEN : Z) : M Enumerator Z :=
  e ← get;
  match promote_display e with
  | Some d => mret (answer d)
  | None => set_display None (displays e) (closed_displays e);; mret NOT_OPEN
  end.

(** *** Runs of the enumerator *)

(** Calls on a camera other than those the enumerator makes. *)
Definition other_call (o : hal_call) : bool :=
  match o with OMake _ | ODisown _ => false | _ => true end.
Inductive enum_step : Enumerator → Enumerator → Prop :=
  | enum_open cameraId device id addr e e' r :
      hals e !! addr = None → openCamera cameraId device id addr e = Val e' r → enum_step e e'
  | enum_close id e e' : closeCamera id e = Val e' tt → enum_step e e'
  | enum_call a o e e' :
      other_call o = true → in_hal a (run_call o) e = Val e' tt → enum_step e e'
  | enum_open_display d e e' r : openDisplay d e = Val e' r → enum_step e e'
  | enum_close_display d e e' : closeDisplay d e = Val e' tt → enum_step e e'
  | enum_display_state f n e e' r : getDisplayState f n e = Val e' r → enum_step e e'.
Inductive enum_reach : Enumerator → Prop :=
  | enum_reach_new : enum_reach new_enum
  | enum_reach_step e e' : enum_reach e → enum_step e e' → enum_reach e'.

(** The cameras of the list are those that have clients. *)
Definition cameras_used (e : Enumerator) : Prop :=
  ∀ a, a ∈ mCameras e ↔ ∃ h, hals e !! a = Some h ∧ mClients h ≠ [].

Lemma in_camera_inv {A} a (m : M (@HalCamera H) A) e e' x :
  in_hal a m e = Val e' x →
  ∃ h h', hals e !! a = Some h ∧ m h = Val h' x
    ∧ e' = MkEnum (mCameras e) (<[a := h']> (hals e)) (owner e) (mActiveDisplay e) (displays e) (closed_displays e).
Proof.
  unfold in_hal. run_m. destruct (hals e !! a) as [h|]; [|done]. destruct (m h) as [h' y|?|] eqn:E; [|done..].
  intros [= <- <-]. by exists h, h'.
Qed.

Lemma other_clients o s s' : other_call o = true → run_call o s = Val s' tt → mClients s' = mClients s.
Proof.
  destruct o as [id|id|id|id n|id st|id|id b|b]; cbn [other_call run_call]; intros Ho E; try done.
  - by apply destroy_clients in E.
  - run_m_in E. destruct (setMaxFramesInFlight id n s) as [s1 r|?|] eqn:E1; [|done..]. injection E as <-.
    revert E1. unfold setMaxFramesInFlight, deref, on_hal, set_virtual. run_m.
    destruct (heap s !! id) as [v|]; [|done]. destruct (attached v); [|done].
    destruct (changeFramesInFlight _ s) as [s2 ok|?|] eqn:E2; [|done..]. apply change_clients in E2 as [E2 _].
    destruct ok; [|by intros [= <- <-]]. destruct (heap s2 !! id); [|done]. by intros [= <- <-].
  - run_m_in E. destruct (startVideoStream id (Some st) s) as [s1 r|?|] eqn:E1; [|done..]. injection E as <-.
    apply (qkeeps_start id (Some st) s s1 r I E1).
  - apply (qkeeps_stop id s s' tt I E).
  - apply (qkeeps_client_done id b s s' tt I E).
  - apply (qkeeps_deliver b s s' tt I E).
Qed.

(** Replacing a camera whose clients stay as they are, or get one more. *)
Lemma used_same e e' h h' a :
  cameras_used e → hals e !! a = Some h → (mClients h' ≠ [] ↔ mClients h ≠ []) →
  mCameras e' = mCameras e → hals e' = <[a := h']> (hals e) → cameras_used e'.
Proof.
  intros Hu Ha Hc E1 E2 c. rewrite E1, E2, (Hu c). destruct (decide (c = a)) as [->|Hne].
  - rewrite Ha, lookup_insert_eq. split; intros (u & [= <-] & Hu'); eexists; (split; [done|]); tauto.
  - by rewrite lookup_insert_ne.
Qed.

Lemma used_open cameraId device id addr e e' r :
  cameras_used e → hals e !! addr = None → openCamera cameraId device id addr e = Val e' r → cameras_used e'.
Proof.
  intros Hu Hf. unfold openCamera. run_m.
  (* the camera that is used, and the state when the client is made *)
  assert (∀ e1 a, cameras_used e1 →
    (ok ← in_hal a (makeVirtualCamera id);
     if (ok : bool) then
       modify (λ e, MkEnum (mCameras e ++ [a]) (hals e) (<[id := a]> (owner e)) (mActiveDisplay e)
                      (displays e) (closed_displays e));;
       mret (Some id)
     else mret None) e1 = Val e' r → cameras_used e') as Hmake.
  { intros e1 a Hu1. run_m. destruct (in_hal a (makeVirtualCamera id) e1) as [e2 ok|?|] eqn:E; [|done..].
    apply in_camera_inv in E as (h & h' & Ha & Em & ->). apply make_clients in Em. destruct ok; intros [= <- <-].
    - intros c. cbn [mCameras hals]. rewrite elem_of_app, list_elem_of_singleton.
      destruct (decide (c = a)) as [->|Hne].
      + rewrite lookup_insert_eq. split; [|by right]. intros _. exists h'. split; [done|]. rewrite Em.
        by destruct (mClients h).
      + rewrite lookup_insert_ne, (Hu1 c) by done. split; [by intros [?|?]|by left].
    - apply (used_same e1 _ h h' a Hu1 Ha); [by rewrite Em|done|done]. }
  unfold mbind, M_bind in Hmake. destruct (find_camera e cameraId) as [a|]; [by apply Hmake|].
  destruct device as [d|]; [|by intros [= <- <-]]. apply Hmake.
  intros c. cbn [mCameras hals]. rewrite (Hu c). destruct (decide (c = addr)) as [->|Hne].
  - rewrite Hf, lookup_insert_eq. split; [by intros (u & ? & _)|]. intros (u & [= <-] & Hn). done.
  - by rewrite lookup_insert_ne.
Qed.

Lemma used_close id e e' : cameras_used e → closeCamera id e = Val e' tt → cameras_used e'.
Proof.
  intros Hu. unfold closeCamera. destruct id as [id|]; [|by intros [= <-]]. run_m.
  destruct (getHalCamera e id) as [a|]; [|done].
  destruct (in_hal a (disownVirtualCamera id) e) as [e1 []|?|] eqn:E1; [|done..].
  apply in_camera_inv in E1 as (h & h1 & Ha & Ed & ->). apply disown_clients in Ed.
  unfold in_hal. run_m. cbn [hals]. rewrite lookup_insert_eq. cbn [mCameras hals]. rewrite insert_insert_eq.
  destruct (decide (length (mClients h1) = 0%nat)) as [Hn|Hn]; intros [= <-].
  - intros c. cbn [mCameras hals]. rewrite list_elem_of_filter. destruct (decide (c = a)) as [->|Hne].
    + rewrite lookup_insert_eq. split; [by intros [? _]|]. intros (u & [= <-] & Hc). by destruct (mClients h1).
    + rewrite lookup_insert_ne, (Hu c) by done. tauto.
  - apply (used_same e _ h h1 a Hu Ha); [|done|done]. split; [|by destruct (mClients h1)].
    intros _ Hh. rewrite Ed, Hh in Hn. done.
Qed.

(** over every run of the camera service, whatever its clients and the hardware do, the
    hardware cameras the enumerator keeps are those with at least one client (dead ones
    included): a camera is listed from its first client on, and dropped with the close of
    its last. *)
Theorem evs_enumerator_lists_used e : enum_reach e → cameras_used e.
Proof.
  induction 1 as [|e e' _ IH Hs].
  { intros a. cbn. split; [by intros ?%elem_of_nil|]. by intros (h & ? & _). }
  destruct Hs as [cameraId device id addr e e' r Hf E|id e e' E|a o e e' Ho E|d e e' r E|d e e' E|f n e e' r E].
  - by apply (used_open cameraId device id addr e e' r).
  - by apply (used_close id e).
  - apply in_camera_inv in E as (h & h' & Ha & Er & ->). apply other_clients in Er; [|done].
    apply (used_same e _ h h' a IH Ha); [by rewrite Er|done|done].
  - revert E. unfold openDisplay, set_display. run_m. by intros [= <- <-].
  - revert E. unfold closeDisplay, set_display. run_m. case_decide; by intros [= <-].
  - revert E. unfold getDisplayState, set_display. run_m. destruct (promote_display e); by intros [= <- <-].
Qed.
End enumerator.

(** ** The driver as the hardware

    The process that runs [EvsV4lCamera], with the allocator's and the device's answers to
    come; once it has crashed every call fails. *)
Record HwProcess : Type := MkProcess {
  p_id : Z;
  p_camera : option EvsV4lCamera;
  p_allocs : list (list (option (Z * Z)));
  p_starts : list Capture.start_env;
}.
Definition in_process {A} (m : M EvsV4lCamera A) (dead : A) (p : HwProcess) : HwProcess * A :=
  match p_camera p with
  | None => (p, dead)
  | Some c =>
      match m c with
      | Val c' a => (MkProcess (p_id p) (Some c') (p_allocs p) (p_starts p), a)
      | _ => (MkProcess (p_id p) None (p_allocs p) (p_starts p), dead)
      end
  end.
Definition next_start (p : HwProcess) : Capture.start_env := default (Capture.MkStartEnv false [] false) (head (p_starts p)).
#[global] Instance v4l_hardware : HwCamera HwProcess := {
  hw_setMaxFramesInFlight n p :=
    in_process (EvsDriver.setMaxFramesInFlight n (default [] (head (p_allocs p)))) UNDERLYING_SERVICE_ERROR
      (MkProcess (p_id p) (p_camera p) (tail (p_allocs p)) (p_starts p));
  hw_startVideoStream p :=
    in_process (EvsDriver.startVideoStream 0 (default [] (head (p_allocs p))) (next_start p)) UNDERLYING_SERVICE_ERROR
      (MkProcess (p_id p) (p_camera p) (tail (p_allocs p)) (tail (p_starts p)));
  hw_stopVideoStream p := (in_process EvsDriver.stopVideoStream tt p).1;
  hw_doneWithFrame b p := (in_process (EvsDriver.doneWithFrame b) tt p).1;
  hw_cameraId p := match p_camera p with Some _ => Some (p_id p) | None => None end;
}.

(** The driver keeps the promise the quotas rest on. *)
Lemma v4l_limited n (p p' : HwProcess) :
  hw_setMaxFramesInFlight n p = (p', EOK) → n ≤ MAX_BUFFERS_IN_FLIGHT.
Proof.
  cbn [hw_setMaxFramesInFlight v4l_hardware]. unfold in_process, EvsDriver.setMaxFramesInFlight. cbn [p_camera].
  destruct (p_camera p) as [c|]; [|done]. run_m. destruct (Capture.isOpen _); [|done].
  destruct (decide (n < 1)); [done|]. unfold setAvailableFrames_Locked. destruct (decide (n < 1)); [done|].
  destruct (decide (MAX_BUFFERS_IN_FLIGHT < n)); [done|]. lia.
Qed.

(** ** Concrete runs *)

Definition hal_of {A} (o : outcome (@HalCamera HwProcess) A) : @HalCamera HwProcess :=
  match o with Val s _ => s | _ => new_hal (MkProcess 0 None [] []) end.
Definition run_calls (l : list hal_call) (s : @HalCamera HwProcess) : outcome (@HalCamera HwProcess) unit :=
  for_each l run_call s.
Definition ex_process : HwProcess :=
  Eval vm_compute in
    MkProcess 3 (Some ex_cam0) [[Some (100, 640)]; [Some (101, 640)]; [Some (102, 640)]] [ex_start; ex_start].
Definition ex_hal0 : HalCamera := Eval vm_compute in new_hal ex_process.
Definition frame (x : Z) : BufferDesc := MkBuffer x (Some (100 + x)).
Definition every (x : Z) : bool := true.
Definition any_call (o : hal_call) : bool := true.

(** Two clients, one of which streams and holds frame 0. *)
Definition ex_prefix : list hal_call := [OMake 1; OMake 2; OStart 1 11; OFrame (frame 0)].
Definition ex_hal : HalCamera := Eval vm_compute in hal_of (run_calls ex_prefix ex_hal0).

Lemma run_reach good sane (l : list hal_call) hw (s s' : @HalCamera HwProcess) :
  hal_reach good sane hw s → run_calls l s = Val s' tt →
  (fix ok l s := match l with
                 | [] => True
                 | o :: l' => call_ok good s o = true ∧ sane o = true ∧ ok l' (hal_of (run_call o s))
                 end) l s → hal_reach good sane hw s'.
Proof.
  revert s. induction l as [|o l IH]; intros s Hr E Hok; [injection E as <-; done|].
  destruct Hok as (H1 & H2 & H3). unfold run_calls in E. cbn [for_each] in E. unfold mbind, M_bind in E.
  destruct (run_call o s) as [s1 []|?|] eqn:E1; [|done..].
  apply (IH s1); [|done|done]. by apply (hal_reach_call _ _ _ s o).
Qed.

Lemma ex_hal_reach : hal_reach every small_request ex_process ex_hal.
Proof.
  apply (run_reach every small_request ex_prefix ex_process ex_hal0); [apply hal_reach_new|vm_compute; reflexivity|].
  vm_compute. auto 20.
Qed.

Lemma evs_quota_covered_witness : demand ex_hal = 2 ∧ demand ex_hal ≤ granted_frames (hw_log ex_hal) ≤ 100.
Proof.
  split; [vm_compute; reflexivity|].
  apply (evs_quota_covered every 100) with ex_process; [lia|exact v4l_limited|exact ex_hal_reach].
Defined.
Definition ex_died : HalCamera := Eval vm_compute in hal_of (destroy 1 ex_hal).
Definition ex_closed : HalCamera := Eval vm_compute in hal_of (disownVirtualCamera 1 ex_hal).
Definition ex_client : VirtualCamera := Eval vm_compute in default (MkVirtual false None [] 0 STOPPED false) (heap ex_hal !! 1).

Lemma evs_death_returns_frames_witness :
  destroy 1 ex_hal = Val ex_died tt ∧ refs 0 (mFrames ex_died) = refs 0 (mFrames ex_hal) - 1
  ∧ outstanding 0 (hw_log ex_died) = 0.
Proof.
  destruct (evs_death_returns_frames every small_request ex_process 1 ex_client ex_hal ex_hal_reach)
    as (s' & w & E & _ & _ & _ & Hx).
  { vm_compute. reflexivity. }
  { reflexivity. }
  assert (destroy 1 ex_hal = Val ex_died tt) as E' by (vm_compute; reflexivity).
  rewrite E' in E. injection E as <-. destruct (Hx 0 eq_refl) as [H1 H2].
  split; [exact E'|]. split; [exact H1|exact H2].
Defined.

Lemma evs_close_keeps_frames_witness :
  disownVirtualCamera 1 ex_hal = Val ex_closed tt ∧ outstanding 0 (hw_log ex_closed) = 1
  ∧ doneWithFrame 1 (frame 0) ex_closed = Ub.
Proof.
  destruct (evs_close_keeps_frames every small_request ex_process 1 ex_client ex_hal ex_hal_reach)
    as (s' & w & E & _ & _ & Hx).
  { vm_compute. reflexivity. }
  assert (disownVirtualCamera 1 ex_hal = Val ex_closed tt) as E' by (vm_compute; reflexivity).
  rewrite E' in E. injection E as <-. destruct (Hx (frame 0) 100) as [H1 H2].
  { by constructor. }
  { reflexivity. }
  split; [exact E'|]. split; [apply H1; reflexivity|exact H2].
Defined.

(** A second client of a camera that streams cannot start: the manager asks the hardware to
    start again, since it never records that the stream runs. *)
Lemma evs_second_client_refused :
  ∃ s, startVideoStream 2 (Some 12) ex_hal = Val s UNDERLYING_SERVICE_ERROR.
Proof. eexists. vm_compute. reflexivity. Qed.
(** A client that stops its stream with a frame in hand and starts it again aborts the
    service for all. *)
Lemma evs_restart_aborts :
  (stopVideoStream 1;; startVideoStream 1 (Some 11)) ex_hal = Ub.
Proof. vm_compute. reflexivity. Qed.
(** The end-of-stream marker is sent to clients that never had a stream. *)
Lemma evs_marker_without_stream : hal_deliverFrame nullBuff ex_hal = Ub.
Proof. vm_compute. reflexivity. Qed.
(** A request for 2^32 - 1 frames is granted although the hardware is asked for one. *)
Lemma evs_quota_overflow :
  ∃ s, setMaxFramesInFlight 1 4294967295 ex_hal = Val s EOK ∧ granted_frames (hw_log s) = 1
    ∧ demand s = 4294967296.
Proof. eexists. split; [vm_compute; reflexivity|]. split; vm_compute; reflexivity. Qed.

Definition enum_of {A} (o : outcome (@Enumerator HwProcess) A) : @Enumerator HwProcess :=
  match o with Val e _ => e | _ => new_enum end.
Definition ex_enum1 : Enumerator := Eval vm_compute in enum_of (openCamera 3 (Some ex_process) 1 50 new_enum).
Definition ex_enum2 : Enumerator := Eval vm_compute in enum_of (openCamera 3 None 2 51 ex_enum1).
Definition ex_enum3 : Enumerator := Eval vm_compute in enum_of (closeCamera (Some 1) ex_enum2).
Lemma ex_enum_reach : enum_reach ex_enum3.
Proof.
  apply (enum_reach_step ex_enum2); [apply (enum_reach_step ex_enum1);
    [apply (enum_reach_step new_enum); [constructor|]|]|].
  - apply (enum_open 3 (Some ex_process) 1 50 _ _ (Some 1)); [reflexivity|vm_compute; reflexivity].
  - apply (enum_open 3 None 2 51 _ _ (Some 2)); [reflexivity|vm_compute; reflexivity].
  - apply (enum_close (Some 1)). vm_compute. reflexivity.
Qed.
Lemma evs_enumerator_lists_used_witness :
  mCameras ex_enum3 = [50; 50] ∧ ∃ h, hals ex_enum3 !! 50 = Some h ∧ mClients h ≠ [].
Proof.
  split; [reflexivity|]. apply (evs_enumerator_lists_used ex_enum3 ex_enum_reach 50). by constructor.
Defined.
