(* ===== verification/EvsPixels.v ===== *)
(** * EVS: pixel conversions

    Models the conversions between the camera formats, the driver's in
    android/hardware/xbox/evs/sampleDriver/bufferCopy.cpp and the application's in
    android/hardware/xbox/evs/app/FormatConvert.cpp.  Images are arrays of bytes; a
    [uint32_t] pointer is a word index into one, with the bytes of a word in
    little-endian order, and is advanced as in the code, by paddings that are computed in
    [unsigned] and converted to [int].  A read or a write outside the image is undefined.
    [float] arithmetic is the IEEE single format of the Standard Library's SpecFloat
    (24 bits of precision, exponents below 128), one rounding per operation. *)

From Stdlib Require Import Floats.SpecFloat.
From S2P Require Import Prelude.

(** ** Images *)

(** What the copies read of a [BufferDesc]; [stride] is in pixels. *)
Record ImageDesc : Type := MkImage { width : Z; height : Z; stride : Z }.

Definition byte_at (m : bytes) (a : Z) : option Z := if decide (0 ≤ a) then m !! Z.to_nat a else None.

(** The state is the image that is written. *)
Definition load8 (img : bytes) (a : Z) : M bytes Z :=
  match byte_at img a with Some v => mret v | None => undefined end.
Definition store8 (a v : Z) : M bytes unit :=
  t ← get;
  if decide (0 ≤ a < Z.of_nat (length t)) then put (<[Z.to_nat a := v]> t) else undefined.
Definition load32 (img : bytes) (k : Z) : M bytes Z :=
  b0 ← load8 img (4 * k); b1 ← load8 img (4 * k + 1);
  b2 ← load8 img (4 * k + 2); b3 ← load8 img (4 * k + 3);
  mret (b0 + 256 * b1 + 65536 * b2 + 16777216 * b3).
Definition lane (i v : Z) : Z := Z.land (Z.shiftr v (8 * i)) 255.
Definition store32 (k v : Z) : M bytes unit :=
  store8 (4 * k) (lane 0 v);; store8 (4 * k + 1) (lane 1 v);;
  store8 (4 * k + 2) (lane 2 v);; store8 (4 * k + 3) (lane 3 v).

(** [for (unsigned i = i0; ...; i++)], [n] times, over the pointers [x]. *)
Fixpoint loop {S X} (n : nat) (i : Z) (x : X) (f : Z → X → M S X) : M S X :=
  match n with
  | O => mret x
  | Datatypes.S n' => y ← f i x; loop n' (i + 1) y f
  end.
Definition memcpy (dst : Z) (img : bytes) (src n : Z) : M bytes unit :=
  loop (Z.to_nat n) 0 tt (λ k _, v ← load8 img (src + k); store8 (dst + k) v).

(** [align<16>]; the mask is unsigned. *)
Definition align16 (value : Z) : Z := Z.land (u32 (value + 15)) 4294967280.

(** ** One pixel *)

Definition to_float (z : Z) : spec_float := binary_normalize 24 128 z 0 false.
Abbreviation fadd := (SFadd 24 128).
Abbreviation fsub := (SFsub 24 128).
Abbreviation fmul := (SFmul 24 128).
(** The literal [n / 1000] of the sources, rounded to a [float]. *)
Definition thousandths (n : Z) : spec_float := SFdiv 24 128 (to_float n) (to_float 1000).

Definition clamp (v min max : spec_float) : spec_float :=
  if SFltb v min then min else if SFltb max v then max else v.
(** [(unsigned char) f]: truncated towards zero. *)
Definition to_uchar (f : spec_float) : Z :=
  match f with
  | S754_finite s m e => let a := Z.shiftl (Zpos m) e in u8 (if s then - a else a)
  | _ => 0
  end.

Definition red (Y Vin : Z) : Z :=
  let V := fsub (to_float Vin) (to_float 128) in
  to_uchar (clamp (fadd (to_float Y) (fmul (thousandths 1140) V)) (to_float 0) (to_float 255)).
Definition green (Y Uin Vin : Z) : Z :=
  let U := fsub (to_float Uin) (to_float 128) in
  let V := fsub (to_float Vin) (to_float 128) in
  to_uchar (clamp (fsub (fsub (to_float Y) (fmul (thousandths 395) U)) (fmul (thousandths 581) V))
              (to_float 0) (to_float 255)).
Definition blue (Y Uin : Z) : Z :=
  let U := fsub (to_float Uin) (to_float 128) in
  to_uchar (clamp (fadd (to_float Y) (fmul (thousandths 2032) U)) (to_float 0) (to_float 255)).
Definition yuvToRgbx (Y U V : Z) : Z :=
  Z.lor (Z.lor (Z.lor (Z.land (red Y V) 255) (Z.shiftl (Z.land (green Y U V) 255) 8))
    (Z.shiftl (Z.land (blue Y U) 255) 16)) 4278190080.
(** The application has its own copy, which leaves out the masks. *)
Definition app_yuvToRgbx (Y U V : Z) : Z :=
  Z.lor (Z.lor (Z.lor (red Y V) (Z.shiftl (green Y U V) 8)) (Z.shiftl (blue Y U) 16)) 4278190080.

(** ** The driver's copies *)

Definition fillNV21FromNV21 (tgtBuff : ImageDesc) (imgData : bytes) : M bytes unit :=
  let strideLum := align16 (width tgtBuff) in
  let sizeY := u32 (strideLum * height tgtBuff) in
  let strideColor := strideLum in
  let sizeColor := u32 (strideColor * height tgtBuff) / 2 in
  let totalBytes := u32 (sizeY + sizeColor) in
  memcpy 0 imgData 0 totalBytes.

(** One 2x2 cell: two macro pixels, one below the other. *)
Definition nv21_cell (img : bytes) (top bot yTopRow yBotRow uvRow cellCol : Z) : M bytes unit :=
  tY1 ← load8 img (4 * (top + cellCol)); tU ← load8 img (4 * (top + cellCol) + 1);
  tY2 ← load8 img (4 * (top + cellCol) + 2); tV ← load8 img (4 * (top + cellCol) + 3);
  bY1 ← load8 img (4 * (bot + cellCol)); bU ← load8 img (4 * (bot + cellCol) + 1);
  bY2 ← load8 img (4 * (bot + cellCol) + 2); bV ← load8 img (4 * (bot + cellCol) + 3);
  let uValue := u8 (Z.shiftr (tU + bU) 1) in
  let vValue := u8 (Z.shiftr (tV + bV) 1) in
  store8 (yTopRow + cellCol * 2) tY1;;
  store8 (yTopRow + (cellCol * 2 + 1)) tY2;;
  store8 (yBotRow + cellCol * 2) bY1;;
  store8 (yBotRow + (cellCol * 2 + 1)) bY2;;
  store8 (uvRow + cellCol * 2) uValue;;
  store8 (uvRow + (cellCol * 2 + 1)) vValue.

Definition fillNV21FromYUYV (tgtBuff : ImageDesc) (imgData : bytes) (imgStride : Z) : M bytes unit :=
  let strideLum := align16 (width tgtBuff) in
  let sizeY := u32 (strideLum * height tgtBuff) in
  let strideColor := strideLum in
  let srcRowPixels := imgStride / 4 in
  let srcRowDoubleStep := u32 (srcRowPixels * 2) in
  loop (Z.to_nat (height tgtBuff / 2)) 0 (0, srcRowPixels) (λ cellRow p,
    let '(topSrcRow, botSrcRow) := p in
    let yTopRow := u32 (u32 (cellRow * 2) * strideLum) in
    let yBotRow := yTopRow + strideLum in
    let uvRow := sizeY + u32 (cellRow * strideColor) in
    loop (Z.to_nat (width tgtBuff / 2)) 0 tt (λ cellCol _,
      nv21_cell imgData topSrcRow botSrcRow yTopRow yBotRow uvRow cellCol);;
    mret (topSrcRow + srcRowDoubleStep, botSrcRow + srcRowDoubleStep));;
  mret tt.

(** The walk over macro pixels shared by the word-wise conversions: two pixels a step. *)
Definition walk_words (w h srcRowPadding32 dstRowPadding32 : Z)
    (step : Z → Z → M bytes (Z * Z)) : M bytes unit :=
  loop (Z.to_nat h) 0 (0, 0) (λ _ p,
    q ← loop (Z.to_nat (w / 2)) 0 p (λ _ p, step p.1 p.2);
    mret (q.1 + srcRowPadding32, q.2 + dstRowPadding32));;
  mret tt.

Definition rgb_step (convert : Z → Z → Z → Z) (img : bytes) (src dst : Z) : M bytes (Z * Z) :=
  srcPixel ← load32 img src;
  let Y1 := Z.land srcPixel 255 in
  let U := Z.land (Z.shiftr srcPixel 8) 255 in
  let Y2 := Z.land (Z.shiftr srcPixel 16) 255 in
  let V := Z.land (Z.shiftr srcPixel 24) 255 in
  store32 (dst + 0) (convert Y1 U V);;
  store32 (dst + 1) (convert Y2 U V);;
  mret (src + 1, dst + 2).

Definition fillRGBAFromYUYV (tgtBuff : ImageDesc) (imgData : bytes) (imgStride : Z) : M bytes unit :=
  let srcStridePixels := imgStride / 2 in
  let dstStridePixels := stride tgtBuff in
  let srcRowPadding32 := i32 (srcStridePixels / 2 - width tgtBuff / 2) in
  let dstRowPadding32 := i32 (dstStridePixels - width tgtBuff) in
  walk_words (width tgtBuff) (height tgtBuff) srcRowPadding32 dstRowPadding32 (rgb_step yuvToRgbx imgData).

Definition fillYUYVFromYUYV (tgtBuff : ImageDesc) (imgData : bytes) (imgStride : Z) : M bytes unit :=
  let srcStrideBytes := imgStride in
  let dstStrideBytes := u32 (stride tgtBuff * 2) in
  loop (Z.to_nat (height tgtBuff)) 0 tt (λ r _,
    memcpy (u32 (r * dstStrideBytes)) imgData (u32 (r * srcStrideBytes)) (u32 (width tgtBuff * 2))).

Definition swizzle_step (img : bytes) (src dst : Z) : M bytes (Z * Z) :=
  srcPixel ← load32 img src;
  let Y1 := Z.land srcPixel 255 in
  let U := Z.land (Z.shiftr srcPixel 8) 255 in
  let Y2 := Z.land (Z.shiftr srcPixel 16) 255 in
  let V := Z.land (Z.shiftr srcPixel 24) 255 in
  store32 dst (u32 (Z.lor (Z.lor (Z.lor U (Z.shiftl Y1 8)) (Z.shiftl V 16)) (Z.shiftl Y2 24)));;
  mret (src + 1, dst + 1).

Definition fillYUYVFromUYVY (tgtBuff : ImageDesc) (imgData : bytes) (imgStride : Z) : M bytes unit :=
  let srcStridePixels := imgStride / 2 in
  let dstStridePixels := stride tgtBuff in
  let srcRowPadding32 := i32 (srcStridePixels / 2 - width tgtBuff / 2) in
  let dstRowPadding32 := i32 (dstStridePixels / 2 - width tgtBuff / 2) in
  walk_words (width tgtBuff) (height tgtBuff) srcRowPadding32 dstRowPadding32 (swizzle_step imgData).

(** ** The application's copies *)

Definition copyNV21toRGB32 (w h : Z) (src : bytes) (dstStridePixels : Z) : M bytes unit :=
  let strideLum := align16 w in
  let sizeY := u32 (strideLum * h) in
  let strideColor := strideLum in
  let offsetUV := sizeY in
  loop (Z.to_nat h) 0 tt (λ r _,
    let rowY := u32 (r * strideLum) in
    let rowUV := offsetUV + u32 (r / 2 * strideColor) in
    let rowDest := u32 (r * dstStridePixels) in
    loop (Z.to_nat w) 0 tt (λ c _,
      let uCol := Z.land c 4294967294 in
      let vCol := Z.lor uCol 1 in
      y ← load8 src (rowY + c); u ← load8 src (rowUV + uCol); v ← load8 src (rowUV + vCol);
      store32 (rowDest + c) (app_yuvToRgbx y u v))).

Definition copyYV12toRGB32 (w h : Z) (src : bytes) (dstStridePixels : Z) : M bytes unit :=
  let strideLum := align16 w in
  let sizeY := u32 (strideLum * h) in
  let strideColor := align16 (strideLum / 2) in
  let sizeColor := u32 (strideColor * h) / 2 in
  let offsetU := sizeY in
  let offsetV := u32 (sizeY + sizeColor) in
  loop (Z.to_nat h) 0 tt (λ r _,
    let rowY := u32 (r * strideLum) in
    let rowU := offsetU + u32 (r / 2 * strideColor) in
    let rowV := offsetV + u32 (r / 2 * strideColor) in
    let rowDest := u32 (r * dstStridePixels) in
    loop (Z.to_nat w) 0 tt (λ c _,
      y ← load8 src (rowY + c); u ← load8 src (rowU + c); v ← load8 src (rowV + c);
      store32 (rowDest + c) (app_yuvToRgbx y u v))).

Definition copyYUYVtoRGB32 (w h : Z) (src : bytes) (srcStridePixels dstStridePixels : Z) : M bytes unit :=
  let srcRowPadding32 := i32 (srcStridePixels / 2 - w / 2) in
  let dstRowPadding32 := i32 (dstStridePixels - w) in
  walk_words w h srcRowPadding32 dstRowPadding32 (rgb_step app_yuvToRgbx src).

Definition copyMatchedInterleavedFormats (w h : Z) (src : bytes) (srcStridePixels dstStridePixels pixelSize : Z)
    : M bytes unit :=
  loop (Z.to_nat h) 0 (0, 0) (λ _ p,
    let '(s, d) := p in
    memcpy d src s (u32 (w * pixelSize));;
    mret (s + u32 (srcStridePixels * pixelSize), d + u32 (dstStridePixels * pixelSize)));;
  mret tt.

(** ** Loops as lists of writes

    None of the copies reads the image it writes: each is a list of (address, value)
    writes in some order. *)

Definition write (p : Z * Z) (t : bytes) : bytes := <[Z.to_nat p.1 := p.2]> t.
Definition apply_writes (ws : list (Z * Z)) (t : bytes) : bytes := foldl (λ t p, write p t) t ws.
Definition inside (ws : list (Z * Z)) (t : bytes) : Prop :=
  ∀ a v, (a, v) ∈ ws → 0 ≤ a < Z.of_nat (length t).

Lemma length_apply ws t : length (apply_writes ws t) = length t.
Proof.
  revert t. induction ws as [|p ws IH]; intros t; [done|]. cbn. fold (apply_writes ws (write p t)).
  rewrite IH. unfold write. apply length_insert.
Qed.
Lemma apply_app ws1 ws2 t : apply_writes (ws1 ++ ws2) t = apply_writes ws2 (apply_writes ws1 t).
Proof. apply foldl_app. Qed.
Lemma inside_app ws1 ws2 t : inside (ws1 ++ ws2) t → inside ws1 t ∧ inside ws2 t.
Proof. intros Hi. split; intros a v Ha; apply (Hi a v), elem_of_app; auto. Qed.
Lemma inside_length ws t t' : length t = length t' → inside ws t → inside ws t'.
Proof. intros E Hi a v Ha. rewrite <- E. by apply (Hi a v). Qed.

(** An address nobody writes keeps its value; one that is always written with the same
    value has it. *)
Lemma apply_other ws t a : (∀ v, (a, v) ∉ ws) → inside ws t → 0 ≤ a → byte_at (apply_writes ws t) a = byte_at t a.
Proof.
  revert t. induction ws as [|[b v] ws IH]; intros t Hn Hi Ha; [done|]. cbn [apply_writes foldl].
  fold (apply_writes ws (write (b, v) t)). rewrite IH; [| | |done].
  - unfold byte_at, write. cbn [fst snd]. rewrite !decide_True by done. apply list_lookup_insert_ne.
    intros E. apply (Hn v), list_elem_of_In. left. f_equal.
    assert (0 ≤ b) by (apply (Hi b v); constructor). lia.
  - intros w Hw. apply (Hn w). by constructor.
  - apply inside_length with (t := t); [unfold write; by rewrite length_insert|].
    intros c w Hc. apply (Hi c w). by constructor.
Qed.
Lemma apply_at ws t a v :
  (a, v) ∈ ws → (∀ w, (a, w) ∈ ws → w = v) → inside ws t → byte_at (apply_writes ws t) a = Some v.
Proof.
  intros Hin Hf Hi.
  destruct (proj1 (list_elem_of_lookup _ _) Hin) as [n Hn].
  assert (∃ l1 l2, ws = l1 ++ (a, v) :: l2 ∧ ∀ w, (a, w) ∉ l2) as (l1 & l2 & -> & Hl2).
  { clear Hn n Hi. induction ws as [|[b w] ws IH]; [by apply elem_of_nil in Hin|].
    destruct (decide ((a, v) ∈ ws)) as [H1|H1].
    - destruct IH as (l1 & l2 & -> & Hl); [done|intros; apply Hf; by constructor|].
      by exists ((b, w) :: l1), l2.
    - apply list_elem_of_In in Hin as [E|E%list_elem_of_In]; [|done]. simplify_eq. exists [], ws. split; [done|].
      intros u Hu. assert (u = v) as -> by (apply Hf; by constructor). done. }
  assert (0 ≤ a < Z.of_nat (length t)) as Ha by by apply (Hi a v).
  rewrite apply_app. cbn. fold (apply_writes l2 (write (a, v) (apply_writes l1 t))).
  rewrite apply_other; [|done| |lia].
  - unfold byte_at, write. rewrite decide_True by lia. apply list_lookup_insert_eq. cbn. rewrite length_apply. lia.
  - apply inside_length with (t := t); [unfold write; rewrite length_insert, length_apply; done|].
    apply inside_app in Hi as [_ Hi]. intros c w Hc. apply (Hi c w). by constructor.
Qed.

Lemma apply_wf ws t : wf_bytes t → (∀ a v, (a, v) ∈ ws → is_u8 v) → wf_bytes (apply_writes ws t).
Proof.
  revert t. induction ws as [|[b v] ws IH]; intros t Ht Hv; [done|]. cbn.
  fold (apply_writes ws (write (b, v) t)). apply IH.
  - unfold write. apply Forall_insert; [done|]. apply (Hv b). constructor.
  - intros a u Ha. apply (Hv a). by constructor.
Qed.

(** [m] makes the writes [ws] and returns [x], on every image they fit in. *)
Definition emits {X} (m : M bytes X) (ws : list (Z * Z)) (x : X) : Prop :=
  ∀ t, inside ws t → m t = Val (apply_writes ws t) x.

Lemma emits_ret {X} (x : X) : emits (mret x) [] x.
Proof. by intros t _. Qed.
Lemma emits_bind {X Y} (m : M bytes X) (k : X → M bytes Y) ws1 ws2 x y :
  emits m ws1 x → emits (k x) ws2 y → emits (m ≫= k) (ws1 ++ ws2) y.
Proof.
  intros Hm Hk t [H1 H2]%inside_app. rewrite (bind_val _ _ _ _ _ (Hm t H1)), apply_app. apply Hk.
  by apply inside_length with (t := t); [rewrite length_apply|].
Qed.
Lemma emits_store8 a v : emits (store8 a v) [(a, v)] tt.
Proof.
  intros t Hi. assert (0 ≤ a < Z.of_nat (length t)) by (apply (Hi a v); constructor).
  unfold store8. run_m. by rewrite decide_True by lia.
Qed.
Lemma emits_load8 {X} img a v (k : Z → M bytes X) ws x :
  byte_at img a = Some v → emits (k v) ws x → emits (load8 img a ≫= k) ws x.
Proof.
  intros E Hk t Hi. unfold load8. rewrite E. exact (Hk t Hi).
Qed.
Lemma emits_loop {X} (st : Z → X) (w : Z → list (Z * Z)) (f : Z → X → M bytes X) n i0 :
  (∀ i, i0 ≤ i < i0 + Z.of_nat n → emits (f i (st i)) (w i) (st (i + 1))) →
  emits (loop n i0 (st i0) f) (seqZ i0 (Z.of_nat n) ≫= w) (st (i0 + Z.of_nat n)).
Proof.
  revert i0. induction n as [|n IH]; intros i0 Hf.
  - rewrite Z.add_0_r. apply emits_ret.
  - rewrite Nat2Z.inj_succ, seqZ_cons by lia. cbn [mbind list_bind].
    replace (Z.pred (Z.succ (Z.of_nat n))) with (Z.of_nat n) by lia.
    cbn [loop]. eapply emits_bind; [apply Hf; lia|].
    replace (i0 + Z.succ (Z.of_nat n)) with (i0 + 1 + Z.of_nat n) by lia.
    replace (Z.succ i0) with (i0 + 1) by lia. apply IH. intros i Hi. apply Hf. lia.
Qed.
(** The unit-state loops. *)
Lemma emits_for (w : Z → list (Z * Z)) (f : Z → unit → M bytes unit) n :
  (∀ i, 0 ≤ i < n → emits (f i tt) (w i) tt) → emits (loop (Z.to_nat n) 0 tt f) (seqZ 0 n ≫= w) tt.
Proof.
  intros Hf. destruct (decide (0 ≤ n)) as [Hn|Hn].
  - pose proof (emits_loop (λ _, tt) w f (Z.to_nat n) 0) as E.
    rewrite Z2Nat.id in E by done. apply E. exact Hf.
  - replace (Z.to_nat n) with 0%nat by lia. rewrite seqZ_nil by lia. apply emits_ret.
Qed.
Lemma elem_of_rows {A} (w : Z → list A) n x : x ∈ (seqZ 0 n ≫= w) ↔ ∃ i, 0 ≤ i < n ∧ x ∈ w i.
Proof.
  rewrite list_elem_of_bind. split.
  - intros (i & Hx & Hi%elem_of_seqZ). exists i. split; [lia|done].
  - intros (i & Hi & Hx). exists i. split; [done|]. apply elem_of_seqZ. lia.
Qed.

(** ** Words and rows *)

Definition at8 (m : bytes) (a : Z) : Z := default 0 (byte_at m a).
Definition word_at (m : bytes) (k : Z) : option Z :=
  b0 ← byte_at m (4 * k); b1 ← byte_at m (4 * k + 1);
  b2 ← byte_at m (4 * k + 2); b3 ← byte_at m (4 * k + 3);
  Some (b0 + 256 * b1 + 65536 * b2 + 16777216 * b3).
Definition word_writes (k v : Z) : list (Z * Z) :=
  (λ j, (4 * k + j, lane j v)) <$> [0; 1; 2; 3].

Lemma byte_at_inside m a : 0 ≤ a < Z.of_nat (length m) → byte_at m a = Some (at8 m a).
Proof.
  intros Ha. unfold at8, byte_at. rewrite decide_True by lia.
  destruct (m !! Z.to_nat a) eqn:E; [done|]. apply lookup_ge_None in E. lia.
Qed.
Lemma at8_range m a : wf_bytes m → is_u8 (at8 m a).
Proof.
  intros Hm. unfold at8, byte_at. case_decide; [|done]. destruct (m !! Z.to_nat a) eqn:E; [|done].
  exact (Forall_lookup_1 _ _ _ _ Hm E).
Qed.

Lemma lane_div i v : 0 ≤ i → lane i v = v / 2 ^ (8 * i) mod 256.
Proof.
  intros Hi. unfold lane. change 255 with (Z.ones 8). rewrite Z.land_ones, Z.shiftr_div_pow2 by lia. done.
Qed.
Lemma lane_range i v : 0 ≤ i → is_u8 (lane i v).
Proof. intros Hi. rewrite lane_div by done. apply Z.mod_pos_bound. done. Qed.
Lemma lanes v : is_u32 v → lane 0 v + 256 * lane 1 v + 65536 * lane 2 v + 16777216 * lane 3 v = v.
Proof.
  unfold is_u32. intros Hv. rewrite !lane_div by lia.
  change (2 ^ (8 * 0)) with 1. change (2 ^ (8 * 1)) with 256. change (2 ^ (8 * 2)) with 65536.
  change (2 ^ (8 * 3)) with 16777216. Z.div_mod_to_equations. lia.
Qed.
Lemma lane_word b0 b1 b2 b3 :
  is_u8 b0 → is_u8 b1 → is_u8 b2 → is_u8 b3 →
  ∀ v, v = b0 + 256 * b1 + 65536 * b2 + 16777216 * b3 →
  is_u32 v ∧ lane 0 v = b0 ∧ lane 1 v = b1 ∧ lane 2 v = b2 ∧ lane 3 v = b3.
Proof.
  unfold is_u8, is_u32. intros H0 H1 H2 H3 v ->. rewrite !lane_div by lia.
  change (2 ^ (8 * 0)) with 1. change (2 ^ (8 * 1)) with 256. change (2 ^ (8 * 2)) with 65536.
  change (2 ^ (8 * 3)) with 16777216. repeat split; Z.div_mod_to_equations; lia.
Qed.

Lemma elem_of_word_writes a u k v :
  (a, u) ∈ word_writes k v ↔ ∃ j, 0 ≤ j < 4 ∧ a = 4 * k + j ∧ u = lane j v.
Proof.
  unfold word_writes. rewrite list_elem_of_fmap. split.
  - intros (j & [= -> ->] & Hj). exists j. split; [|done].
    repeat (apply list_elem_of_In in Hj as [<-|Hj%list_elem_of_In]; [lia|]). by apply elem_of_nil in Hj.
  - intros (j & Hj & -> & ->). exists j. split; [done|].
    assert (j = 0 ∨ j = 1 ∨ j = 2 ∨ j = 3) as [->|[->|[->| ->]]] by lia; set_solver.
Qed.
Lemma emits_store32 k v : emits (store32 k v) (word_writes k v) tt.
Proof.
  unfold store32, word_writes. cbn [fmap list_fmap]. rewrite Z.add_0_r.
  change [(4 * k, lane 0 v); (4 * k + 1, lane 1 v); (4 * k + 2, lane 2 v); (4 * k + 3, lane 3 v)]
    with ([(4 * k, lane 0 v)] ++ [(4 * k + 1, lane 1 v)] ++ [(4 * k + 2, lane 2 v)] ++ [(4 * k + 3, lane 3 v)]).
  do 3 (eapply emits_bind; [apply emits_store8|]). apply emits_store8.
Qed.
(** A load of a word gives the four bytes to what follows. *)
Lemma emits_load32 {X} img k (f : Z → M bytes X) ws x :
  0 ≤ k → 4 * k + 4 ≤ Z.of_nat (length img) →
  emits (f (at8 img (4 * k) + 256 * at8 img (4 * k + 1) + 65536 * at8 img (4 * k + 2)
            + 16777216 * at8 img (4 * k + 3))) ws x →
  emits (load32 img k ≫= f) ws x.
Proof.
  intros Hk Hl Hf t Hi. unfold load32, load8.
  rewrite (byte_at_inside img (4 * k)), (byte_at_inside img (4 * k + 1)), (byte_at_inside img (4 * k + 2)),
    (byte_at_inside img (4 * k + 3)) by lia.
  exact (Hf t Hi).
Qed.

Lemma row_inj s r c r' c' : 0 ≤ c < s → 0 ≤ c' < s → r * s + c = r' * s + c' → r = r' ∧ c = c'.
Proof. intros. assert (r = r') by nia. nia. Qed.
Lemma row_start s h r : 0 ≤ r < h → 0 ≤ s → 0 ≤ r * s ≤ s * h.
Proof. nia. Qed.
Lemma row_inside s h r c : 0 ≤ r < h → 0 ≤ c < s → 0 ≤ r * s + c < s * h.
Proof. nia. Qed.

(** ** RGB images: [h] rows of [w] pixels in rows of [s], the padding as it was *)

Record rgb_image (t t' : bytes) (w h s : Z) (px : Z → Z → Z) : Prop := {
  rgb_length : length t' = length t;
  rgb_wf : wf_bytes t → wf_bytes t';
  rgb_pixels r c : 0 ≤ r < h → 0 ≤ c < w → word_at t' (r * s + c) = Some (px r c);
  rgb_padding a : 0 ≤ a → (∀ r c, 0 ≤ r < h → 0 ≤ c < w → a / 4 ≠ r * s + c) → byte_at t' a = byte_at t a;
}.

(** Any order of the pixels gives the image. *)
Lemma rgb_writes ws t w h s px :
  0 ≤ w ≤ s → 4 * (s * h) ≤ Z.of_nat (length t) → (∀ r c, is_u32 (px r c)) →
  (∀ a v, (a, v) ∈ ws ↔ ∃ r c, (0 ≤ r < h ∧ 0 ≤ c < w) ∧ (a, v) ∈ word_writes (r * s + c) (px r c)) →
  inside ws t ∧ rgb_image t (apply_writes ws t) w h s px.
Proof.
  intros Hw Hlen Hpx Hws.
  assert (inside ws t) as Hi.
  { intros a v (r & c & [Hr Hc] & (j & Hj & -> & _)%elem_of_word_writes)%Hws.
    pose proof (row_inside s h r c Hr ltac:(lia)). lia. }
  split; [done|]. split.
  - apply length_apply.
  - intros Ht. apply apply_wf; [done|].
    intros a v (r & c & _ & (j & Hj & _ & ->)%elem_of_word_writes)%Hws. apply lane_range. lia.
  - intros r c Hr Hc.
    assert (∀ j, 0 ≤ j < 4 → byte_at (apply_writes ws t) (4 * (r * s + c) + j) = Some (lane j (px r c))) as Hb.
    { intros j Hj. apply apply_at; [| |done].
      - apply Hws. exists r, c. split; [done|]. apply elem_of_word_writes. by exists j.
      - intros v (r' & c' & [Hr' Hc'] & (j' & Hj' & E & ->)%elem_of_word_writes)%Hws.
        assert (r' * s + c' = r * s + c) as E' by lia.
        apply row_inj in E' as [-> ->]; [|lia..]. f_equal. lia. }
    unfold word_at. rewrite <- (Z.add_0_r (4 * (r * s + c))) at 1. rewrite !Hb by lia. cbn [mbind option_bind].
    f_equal. apply lanes, Hpx.
  - intros a Ha Hn. apply apply_other; [|done..].
    intros v (r & c & [Hr Hc] & (j & Hj & -> & _)%elem_of_word_writes)%Hws.
    apply (Hn r c Hr Hc). Z.div_mod_to_equations. lia.
Qed.

Lemma emits_bind_ret {X Y} (m : M bytes X) ws x (y : Y) : emits m ws x → emits (m;; mret y) ws y.
Proof. intros Hm. rewrite <- (app_nil_r ws). eapply emits_bind; [done|]. apply emits_ret. Qed.

(** The pointers of [walk_words] are where rows of [P] and [D] words put them. *)
Lemma emits_walk w h P D kd step (ws : Z → Z → list (Z * Z)) :
  0 ≤ w → 0 ≤ h →
  (∀ r j, 0 ≤ r < h → 0 ≤ j < w / 2 →
     emits (step (r * P + j) (r * D + kd * j)) (ws r j) (r * P + j + 1, r * D + kd * j + kd)) →
  emits (walk_words w h (P - w / 2) (D - kd * (w / 2)) step)
    (seqZ 0 h ≫= λ r, seqZ 0 (w / 2) ≫= ws r) tt.
Proof.
  intros Hw Hh Hs. assert (0 ≤ w / 2) by (apply Z.div_pos; lia). unfold walk_words.
  eapply emits_bind_ret.
  rewrite <- (Z2Nat.id h) at 2 by done.
  refine (emits_loop (λ r, (r * P, r * D)) _ _ _ 0 _).
  intros r Hr. rewrite <- (app_nil_r (_ ≫= _)). eapply emits_bind.
  - rewrite <- (Z2Nat.id (w / 2)) at 2 by done.
    pose proof (emits_loop (λ j, (r * P + j, r * D + kd * j)) (ws r) (λ _ p, step p.1 p.2) (Z.to_nat (w / 2)) 0) as E.
    cbn beta in E. rewrite !Z.mul_0_r, !Z.add_0_r in E. apply E.
    intros j Hj. cbn [fst snd].
    replace (r * P + (j + 1), r * D + kd * (j + 1)) with (r * P + j + 1, r * D + kd * j + kd) by (f_equal; lia).
    apply Hs; lia.
  - cbn [fst snd]. rewrite Z2Nat.id by done.
    replace (r * P + (0 + w / 2) + (P - w / 2), r * D + kd * (0 + w / 2) + (D - kd * (w / 2)))
      with ((r + 1) * P, (r + 1) * D) by (f_equal; lia).
    apply emits_ret.
Qed.

(** ** A pixel's value *)

Lemma to_uchar_range f : is_u8 (to_uchar f).
Proof.
  destruct f as [s|s| |s m e]; cbn [to_uchar]; try done. apply (wrap_range 8). lia.
Qed.

Lemma lor_lanes b0 b1 b2 b3 :
  is_u8 b0 → is_u8 b1 → is_u8 b2 → is_u8 b3 →
  Z.lor (Z.lor (Z.lor b0 (Z.shiftl b1 8)) (Z.shiftl b2 16)) (Z.shiftl b3 24)
  = b0 + 256 * b1 + 65536 * b2 + 16777216 * b3.
Proof.
  unfold is_u8. intros H0 H1 H2 H3.
  assert (∀ a b n, 0 ≤ n → 0 ≤ a < 2 ^ n → Z.lor a (Z.shiftl b n) = a + b * 2 ^ n) as Hl.
  { intros a b n Hn Ha. rewrite <- Z.shiftl_mul_pow2 by done.
    assert (Z.land a (Z.shiftl b n) = 0) as E; [|pose proof (Z.add_lor_land a (Z.shiftl b n)); lia].
    apply Z.bits_inj'. intros i Hi. rewrite Z.land_spec, Z.bits_0. destruct (decide (i < n)).
    - rewrite Z.shiftl_spec_low by lia. apply andb_false_r.
    - replace a with (a mod 2 ^ n) by (apply Z.mod_small; lia). by rewrite Z.mod_pow2_bits_high by lia. }
  rewrite (Hl b0 b1 8), (Hl _ b2 16), (Hl _ b3 24) by lia. lia.
Qed.

(** The two copies agree: the channels are bytes. *)
Lemma app_same Y U V : app_yuvToRgbx Y U V = yuvToRgbx Y U V.
Proof.
  unfold yuvToRgbx, app_yuvToRgbx. change 255 with (Z.ones 8).
  pose proof (to_uchar_range) as Hr. unfold is_u8 in Hr. rewrite !Z.land_ones, !Z.mod_small by (done || apply Hr). done.
Qed.

(** The four bytes of a converted pixel, in memory order. *)
Lemma yuvToRgbx_bytes Y U V :
  is_u32 (yuvToRgbx Y U V) ∧ lane 0 (yuvToRgbx Y U V) = red Y V ∧ lane 1 (yuvToRgbx Y U V) = green Y U V
  ∧ lane 2 (yuvToRgbx Y U V) = blue Y U ∧ lane 3 (yuvToRgbx Y U V) = 255.
Proof.
  rewrite <- app_same. apply lane_word; [apply to_uchar_range..|done|]. unfold app_yuvToRgbx.
  change 4278190080 with (Z.shiftl 255 24). apply lor_lanes; [apply to_uchar_range..|done].
Qed.
Lemma yuvToRgbx_range Y U V : is_u32 (yuvToRgbx Y U V).
Proof. apply yuvToRgbx_bytes. Qed.
#[local] Hint Resolve yuvToRgbx_range : core.

(** The exact value of [Y + k/1000 * (X - 128)], clamped and rounded down. *)
Definition exact (k Y X : Z) : Z := Z.max 0 (Z.min 255 ((1000 * Y + k * (X - 128)) / 1000)).

(** The same computation with the shared subterms evaluated once, for all lumas. *)
Definition u8_values : list Z := Eval vm_compute in seqZ 0 256.
Definition lumas : list (Z * spec_float) := Eval vm_compute in (λ y, (y, to_float y)) <$> u8_values.
Definition c1140 : spec_float := Eval vm_compute in thousandths 1140.
Definition c2032 : spec_float := Eval vm_compute in thousandths 2032.
Definition f0 : spec_float := Eval vm_compute in to_float 0.
Definition f255 : spec_float := Eval vm_compute in to_float 255.
Definition column_ok (c : spec_float) (k : Z) (odd : Z → Z → bool) (x : Z) : bool :=
  let p := fmul c (fsub (to_float x) (to_float 128)) in
  let q := k * (x - 128) in
  forallb (λ yf, Z.eqb (to_uchar (clamp (fadd yf.2 p) f0 f255))
                       (if odd yf.1 x then 0 else Z.max 0 (Z.min 255 ((1000 * yf.1 + q) / 1000)))) lumas.
Definition no_case (y x : Z) : bool := false.
Definition one_case (y x : Z) : bool := Z.eqb y 255 && Z.eqb x 3.

Lemma red_columns : forallb (column_ok c1140 1140 no_case) u8_values = true.
Proof. vm_compute. reflexivity. Qed.
Lemma blue_columns : forallb (column_ok c2032 2032 one_case) u8_values = true.
Proof. vm_compute. reflexivity. Qed.
Lemma gray_row : forallb (λ y, Z.eqb (green y 128 128) y) u8_values = true.
Proof. vm_compute. reflexivity. Qed.

Lemma in_u8_values z : is_u8 z → In z u8_values.
Proof. intros Hz. apply list_elem_of_In. change u8_values with (seqZ 0 256). apply elem_of_seqZ. unfold is_u8 in Hz. lia. Qed.
Lemma in_lumas y : is_u8 y → In (y, to_float y) lumas.
Proof.
  intros Hy. apply list_elem_of_In. change lumas with ((λ y, (y, to_float y)) <$> u8_values).
  apply (list_elem_of_fmap_2 (λ y, (y, to_float y))), list_elem_of_In, in_u8_values, Hy.
Qed.
Lemma column_spec c k odd y x :
  forallb (column_ok c k odd) u8_values = true → is_u8 y → is_u8 x →
  to_uchar (clamp (fadd (to_float y) (fmul c (fsub (to_float x) (to_float 128)))) f0 f255)
  = if odd y x then 0 else exact k y x.
Proof.
  intros Hc Hy Hx. rewrite forallb_forall in Hc. specialize (Hc x (in_u8_values x Hx)).
  unfold column_ok in Hc. cbv zeta in Hc. rewrite forallb_forall in Hc.
  specialize (Hc _ (in_lumas y Hy)). apply Z.eqb_eq in Hc. exact Hc.
Qed.

(** the colour conversion, for all inputs: the red and the blue channel, computed in
    single precision, are the exact linear forms with the coefficients 1.140 and 2.032,
    clamped to a byte and rounded down, except for the blue channel at Y = 255, U = 3,
    where the exact value is 1 and rounding leaves 0.  Without colour (U = V = 128) all
    three channels are the luma, and the alpha byte is always 255. *)
Theorem yuv_channels Y U V :
  is_u8 Y → is_u8 U → is_u8 V →
  lane 0 (yuvToRgbx Y U V) = exact 1140 Y V
  ∧ lane 2 (yuvToRgbx Y U V) = (if decide (Y = 255 ∧ U = 3) then 0 else exact 2032 Y U)
  ∧ lane 3 (yuvToRgbx Y U V) = 255
  ∧ (U = 128 → V = 128 → lane 0 (yuvToRgbx Y U V) = Y ∧ lane 1 (yuvToRgbx Y U V) = Y
                          ∧ lane 2 (yuvToRgbx Y U V) = Y).
Proof.
  intros HY HU HV. destruct (yuvToRgbx_bytes Y U V) as (_ & -> & -> & -> & ->).
  assert (red Y V = exact 1140 Y V) as Hr by exact (column_spec c1140 1140 no_case _ _ red_columns HY HV).
  assert (blue Y U = if decide (Y = 255 ∧ U = 3) then 0 else exact 2032 Y U) as Hb.
  { unfold blue. change (thousandths 2032) with c2032. change (to_float 0) with f0. change (to_float 255) with f255.
    rewrite (column_spec c2032 2032 one_case _ _ blue_columns HY HU). unfold one_case.
    destruct (Z.eqb_spec Y 255), (Z.eqb_spec U 3); cbn [andb]; destruct (decide _); tauto || done. }
  split; [done|]. split; [done|]. split; [done|].
  intros -> ->. rewrite Hr, Hb, decide_False by lia.
  pose proof gray_row as Hg. rewrite forallb_forall in Hg. specialize (Hg Y (in_u8_values Y HY)).
  apply Z.eqb_eq in Hg. unfold is_u8 in *. unfold exact. rewrite Hg, Z.sub_diag, !Z.mul_0_r, !Z.add_0_r.
  rewrite (Z.mul_comm 1000), Z.div_mul by lia. lia.
Qed.
Lemma yuv_channels_witness :
  lane 2 (yuvToRgbx 255 3 200) = 0 ∧ exact 2032 255 3 = 1 ∧ lane 0 (yuvToRgbx 255 3 200) = exact 1140 255 200.
Proof.
  assert (is_u8 255 ∧ is_u8 3 ∧ is_u8 200) as (H1 & H2 & H3) by (unfold is_u8; lia).
  destruct (yuv_channels 255 3 200 H1 H2 H3) as (A & B & _).
  split; [exact B|]. split; [reflexivity|exact A].
Defined.

(** ** Strides *)

Lemma align16_spec v : 0 ≤ v → v + 15 < 4294967296 → align16 v = 16 * ((v + 15) / 16).
Proof.
  intros Hv Hb. unfold align16. rewrite u32_small by (unfold is_u32; lia).
  replace 4294967280 with (Z.ldiff (Z.ones 32) (Z.ones 4)) by reflexivity.
  rewrite Z.ldiff_land, Z.land_assoc, Z.land_ones by lia. rewrite Z.mod_small by lia.
  rewrite <- Z.ldiff_land, Z.ldiff_ones_r by lia. rewrite Z.shiftr_div_pow2, Z.shiftl_mul_pow2 by lia.
  change (2 ^ 4) with 16. lia.
Qed.
Lemma align16_ge v : 0 ≤ v → v + 15 < 4294967296 → v ≤ align16 v < v + 16 ∧ align16 v mod 16 = 0.
Proof. intros Hv Hb. rewrite align16_spec by done. Z.div_mod_to_equations. lia. Qed.

(** ** Word-wise conversions *)

(** The macro pixel [j] of row [r] in rows of [P] words. *)
Definition yuyv_pixel (img : bytes) (P r c : Z) : Z :=
  let a := 4 * (r * P + c / 2) in
  yuvToRgbx (at8 img (a + 2 * (c mod 2))) (at8 img (a + 1)) (at8 img (a + 3)).

Lemma mask_lanes img a :
  wf_bytes img →
  let v := at8 img a + 256 * at8 img (a + 1) + 65536 * at8 img (a + 2) + 16777216 * at8 img (a + 3) in
  Z.land v 255 = at8 img a ∧ Z.land (Z.shiftr v 8) 255 = at8 img (a + 1)
  ∧ Z.land (Z.shiftr v 16) 255 = at8 img (a + 2) ∧ Z.land (Z.shiftr v 24) 255 = at8 img (a + 3).
Proof.
  intros Hm v.
  destruct (lane_word _ _ _ _ (at8_range img a Hm) (at8_range img (a + 1) Hm) (at8_range img (a + 2) Hm)
              (at8_range img (a + 3) Hm) v eq_refl) as (_ & H0 & H1 & H2 & H3).
  unfold lane in *. change (8 * 0) with 0 in H0. rewrite Z.shiftr_0_r in H0. auto.
Qed.

Lemma rgb_step_emits convert img P r j src dst :
  (∀ Y U V, convert Y U V = yuvToRgbx Y U V) → wf_bytes img → src = r * P + j → 0 ≤ src → 4 * src + 4 ≤ Z.of_nat (length img) →
  emits (rgb_step convert img src dst)
    (word_writes (dst + 0) (yuyv_pixel img P r (2 * j)) ++ word_writes (dst + 1) (yuyv_pixel img P r (2 * j + 1)))
    (src + 1, dst + 2).
Proof.
  intros Hc Hm -> Hs Hl. unfold rgb_step. apply emits_load32; [done..|].
  destruct (mask_lanes img (4 * (r * P + j)) Hm) as (-> & -> & -> & ->). rewrite !Hc. unfold yuyv_pixel.
  replace (2 * j / 2) with j by (Z.div_mod_to_equations; lia).
  replace ((2 * j + 1) / 2) with j by (Z.div_mod_to_equations; lia).
  replace (2 * ((2 * j) mod 2)) with 0 by (Z.div_mod_to_equations; lia).
  replace (2 * ((2 * j + 1) mod 2)) with 2 by (Z.div_mod_to_equations; lia).
  cbv zeta. rewrite !Z.add_0_r.
  eapply emits_bind; [apply emits_store32|]. eapply emits_bind_ret, emits_store32.
Qed.

(** The rows of pixels the walk writes are those of the image. *)
Lemma pair_rows h w D (px : Z → Z → Z) a v :
  0 ≤ w →
  (a, v) ∈ (seqZ 0 h ≫= λ r, seqZ 0 (w / 2) ≫= λ j,
              word_writes (r * D + 2 * j + 0) (px r (2 * j)) ++ word_writes (r * D + 2 * j + 1) (px r (2 * j + 1)))
  ↔ ∃ r c, (0 ≤ r < h ∧ 0 ≤ c < 2 * (w / 2)) ∧ (a, v) ∈ word_writes (r * D + c) (px r c).
Proof.
  intros Hw. rewrite elem_of_rows. split.
  - intros (r & Hr & (j & Hj & [Hin|Hin]%elem_of_app)%elem_of_rows).
    + exists r, (2 * j). rewrite Z.add_0_r in Hin. split; [lia|done].
    + exists r, (2 * j + 1). split; [lia|]. by rewrite Z.add_assoc.
  - intros (r & c & [Hr Hc] & Hin). exists r. split; [done|]. apply elem_of_rows. exists (c / 2).
    split; [Z.div_mod_to_equations; lia|]. apply elem_of_app.
    destruct (decide (c mod 2 = 0)).
    + left. rewrite Z.add_0_r. by replace (2 * (c / 2)) with c by (Z.div_mod_to_equations; lia).
    + right. rewrite <- Z.add_assoc. by replace (2 * (c / 2) + 1) with c by (Z.div_mod_to_equations; lia).
Qed.

Lemma rgb_walk_spec convert w h img P D t :
  (∀ Y U V, convert Y U V = yuvToRgbx Y U V) →
  0 ≤ w ≤ D → 0 ≤ h → w / 2 ≤ P → wf_bytes img →
  4 * (P * h) ≤ Z.of_nat (length img) → 4 * (D * h) ≤ Z.of_nat (length t) →
  ∃ t', walk_words w h (P - w / 2) (D - 2 * (w / 2)) (rgb_step convert img) t = Val t' tt
        ∧ rgb_image t t' (2 * (w / 2)) h D (yuyv_pixel img P).
Proof.
  intros Hc Hw Hh HP Hm Hi Ht.
  assert (0 ≤ 2 * (w / 2) ≤ w) by (Z.div_mod_to_equations; lia).
  eapply (rgb_writes _ t (2 * (w / 2)) h D (yuyv_pixel img P)) in Ht as [Hin Hrgb];
    [|lia|intros; apply yuvToRgbx_range|intros a v; apply (pair_rows h w D (yuyv_pixel img P)); lia].
  eexists. split; [|exact Hrgb].
  pose proof (emits_walk w h P D 2 (rgb_step convert img)) as E.
  apply E; [lia..| |exact Hin].
  intros r j Hr Hj. apply rgb_step_emits; [done..|nia|].
  pose proof (row_inside P h r j Hr ltac:(lia)). lia.
Qed.

(** With an even width, the paddings of the code are those of the walk. *)
Lemma fillRGBA_spec tb img imgStride t :
  let w := width tb in let h := height tb in let P := imgStride / 2 / 2 in
  0 ≤ w ≤ stride tb → stride tb < 2147483648 → w mod 2 = 0 → 0 ≤ h → w / 2 ≤ P < 2147483648 → wf_bytes img →
  4 * (P * h) ≤ Z.of_nat (length img) → 4 * (stride tb * h) ≤ Z.of_nat (length t) →
  ∃ t', fillRGBAFromYUYV tb img imgStride t = Val t' tt
        ∧ rgb_image t t' w h (stride tb) (yuyv_pixel img P).
Proof.
  intros w h P Hw Hs He Hh HP Hm Hi Ht.
  assert (2 * (w / 2) = w) as Ew by (Z.div_mod_to_equations; lia).
  unfold fillRGBAFromYUYV. fold w h P.
  rewrite !i32_small by (unfold is_i32; lia).
  destruct (rgb_walk_spec yuvToRgbx w h img P (stride tb) t) as (t' & E & Himg); [lia..|done|lia|lia|].
  rewrite Ew in E, Himg. by exists t'.
Qed.

(** ** YUYV to NV21 *)

(** The chroma byte [c] of cell row [i]: U and V alternate, each the mean of two rows. *)
Definition mean (a b : Z) : Z := u8 (Z.shiftr (a + b) 1).
Definition chroma (img : bytes) (P i c : Z) : Z :=
  let k := c / 2 in
  let o := 1 + 2 * (c mod 2) in
  mean (at8 img (4 * (2 * i * P + k) + o)) (at8 img (4 * ((2 * i + 1) * P + k) + o)).

Definition cell_writes (img : bytes) (P L sizeY i j : Z) : list (Z * Z) :=
  [((2 * i) * L + j * 2, at8 img (4 * (2 * i * P + j)));
   ((2 * i) * L + (j * 2 + 1), at8 img (4 * (2 * i * P + j) + 2));
   ((2 * i + 1) * L + j * 2, at8 img (4 * ((2 * i + 1) * P + j)));
   ((2 * i + 1) * L + (j * 2 + 1), at8 img (4 * ((2 * i + 1) * P + j) + 2));
   (sizeY + (i * L + j * 2), chroma img P i (2 * j));
   (sizeY + (i * L + (j * 2 + 1)), chroma img P i (2 * j + 1))].

Lemma nv21_cell_emits img P L sizeY i j top bot yT yB uv :
  top = 2 * i * P → bot = (2 * i + 1) * P → yT = (2 * i) * L → yB = (2 * i + 1) * L → uv = sizeY + i * L →
  0 ≤ top + j → 0 ≤ bot + j → 4 * (top + j) + 4 ≤ Z.of_nat (length img) → 4 * (bot + j) + 4 ≤ Z.of_nat (length img) →
  emits (nv21_cell img top bot yT yB uv j) (cell_writes img P L sizeY i j) tt.
Proof.
  intros -> -> -> -> -> Ht Hb Hlt Hlb. unfold nv21_cell.
  do 8 (eapply emits_load8; [apply byte_at_inside; lia|]). cbv zeta. unfold cell_writes, chroma, mean.
  replace (2 * j / 2) with j by (Z.div_mod_to_equations; lia).
  replace ((2 * j + 1) / 2) with j by (Z.div_mod_to_equations; lia).
  replace (1 + 2 * ((2 * j) mod 2)) with 1 by (Z.div_mod_to_equations; lia).
  replace (1 + 2 * ((2 * j + 1) mod 2)) with 3 by (Z.div_mod_to_equations; lia).
  rewrite !(Z.add_assoc sizeY).
  do 5 (eapply (emits_bind _ _ [_]); [apply emits_store8|]). rewrite <- !Z.add_assoc. apply emits_store8.
Qed.

Lemma elem_of_cells img P L sizeY w h a v :
  0 ≤ w → 0 ≤ h →
  (a, v) ∈ (seqZ 0 (h / 2) ≫= λ i, seqZ 0 (w / 2) ≫= cell_writes img P L sizeY i) ↔
  (∃ r c, (0 ≤ r < 2 * (h / 2) ∧ 0 ≤ c < 2 * (w / 2)) ∧ a = r * L + c ∧ v = at8 img (4 * (r * P) + 2 * c))
  ∨ (∃ i c, (0 ≤ i < h / 2 ∧ 0 ≤ c < 2 * (w / 2)) ∧ a = sizeY + (i * L + c) ∧ v = chroma img P i c).
Proof.
  intros Hw Hh. rewrite elem_of_rows. split.
  - intros (i & Hi & (j & Hj & Hin)%elem_of_rows). unfold cell_writes in Hin.
    repeat (apply list_elem_of_In in Hin as [[= <- <-]|Hin%list_elem_of_In]);
      [left; exists (2 * i), (j * 2)|left; exists (2 * i), (j * 2 + 1)
      |left; exists (2 * i + 1), (j * 2)|left; exists (2 * i + 1), (j * 2 + 1)
      |right; exists i, (j * 2)|right; exists i, (j * 2 + 1)|by apply elem_of_nil in Hin];
      (split; [lia|]); (split; [lia|]); f_equal; lia.
  - intros [(r & c & [Hr Hc] & -> & ->)|(i & c & [Hi Hc] & -> & ->)].
    + exists (r / 2). split; [Z.div_mod_to_equations; lia|]. apply elem_of_rows. exists (c / 2).
      split; [Z.div_mod_to_equations; lia|]. apply list_elem_of_In. unfold cell_writes.
      assert (r = 2 * (r / 2) ∨ r = 2 * (r / 2) + 1) as [Er|Er] by (Z.div_mod_to_equations; lia);
      assert (c = c / 2 * 2 ∨ c = c / 2 * 2 + 1) as [Ec|Ec] by (Z.div_mod_to_equations; lia);
      revert Er Ec; generalize (r / 2), (c / 2); intros i j -> ->.
      * left. do 2 f_equal; lia.
      * right; left. do 2 f_equal; lia.
      * do 2 right; left. do 2 f_equal; lia.
      * do 3 right; left. do 2 f_equal; lia.
    + exists i. split; [done|]. apply elem_of_rows. exists (c / 2).
      split; [Z.div_mod_to_equations; lia|]. apply list_elem_of_In. unfold cell_writes.
      assert (c = c / 2 * 2 ∨ c = c / 2 * 2 + 1) as [Ec|Ec] by (Z.div_mod_to_equations; lia);
      revert Ec; generalize (c / 2); intros j ->.
      * do 4 right; left. do 2 f_equal; lia.
      * do 5 right; left. do 2 f_equal; lia.
Qed.

(** The two planes of an NV21 image in rows of [L] bytes, and what is left alone. *)
Record nv21_image (t t' : bytes) (w h L : Z) (img : bytes) (P : Z) : Prop := {
  nv21_length : length t' = length t;
  nv21_luma r c : 0 ≤ r < h → 0 ≤ c < w → byte_at t' (r * L + c) = Some (at8 img (4 * (r * P) + 2 * c));
  nv21_chroma i c : 0 ≤ i < h / 2 → 0 ≤ c < w → byte_at t' (L * h + (i * L + c)) = Some (chroma img P i c);
  nv21_padding a : 0 ≤ a →
    (∀ r c, 0 ≤ r < h + h / 2 → 0 ≤ c < w → a ≠ r * L + c) → byte_at t' a = byte_at t a;
}.

Lemma fillNV21_spec tb img imgStride t :
  let w := width tb in let h := height tb in let L := align16 w in let P := imgStride / 4 in
  0 ≤ w < 2147483648 → w mod 2 = 0 → 0 ≤ h → h mod 2 = 0 → L * h < 4294967296 →
  w / 2 ≤ P < 2147483648 → 4 * (P * h) ≤ Z.of_nat (length img) → L * h + L * (h / 2) ≤ Z.of_nat (length t) →
  ∃ t', fillNV21FromYUYV tb img imgStride t = Val t' tt ∧ nv21_image t t' w h L img P.
Proof.
  intros w h L P Hw Ew Hh Eh HL HP Hi Ht.
  pose proof (align16_ge w) as [HwL _]; [lia..|]. fold L in HwL.
  assert (2 * (w / 2) = w) as E2w by (Z.div_mod_to_equations; lia).
  assert (2 * (h / 2) = h) as E2h by (Z.div_mod_to_equations; lia).
  set (ws := seqZ 0 (h / 2) ≫= λ i, seqZ 0 (w / 2) ≫= cell_writes img P L (L * h) i).
  assert (∀ a v, (a, v) ∈ ws ↔ _) as Hws by (intros a v; apply (elem_of_cells img P L (L * h) w h); lia).
  rewrite E2w, E2h in Hws.
  assert (inside ws t) as Hin.
  { intros a v [(r & c & [Hr Hc] & -> & _)|(i & c & [Hr Hc] & -> & _)]%Hws.
    - pose proof (row_inside L h r c Hr ltac:(lia)). nia.
    - pose proof (row_inside L (h / 2) i c Hr ltac:(lia)). nia. }
  assert (emits (fillNV21FromYUYV tb img imgStride) ws tt) as Hem.
  { unfold fillNV21FromYUYV. fold w h L P. rewrite (u32_small (L * h)), (u32_small (P * 2)) by (unfold is_u32; nia).
    eapply emits_bind_ret. unfold ws. rewrite <- (Z2Nat.id (h / 2)) at 2 by lia.
    pose proof (emits_loop (λ i, (2 * i * P, (2 * i + 1) * P))) as El.
    specialize (El (λ i, seqZ 0 (w / 2) ≫= cell_writes img P L (L * h) i)). cbn beta in El.
    replace (0, P) with (2 * 0 * P, (2 * 0 + 1) * P) by (f_equal; lia). apply El.
    intros i Hr. rewrite Z2Nat.id in Hr by lia.
    replace (2 * (i + 1) * P, (2 * (i + 1) + 1) * P) with (2 * i * P + P * 2, (2 * i + 1) * P + P * 2) by (f_equal; lia).
    eapply emits_bind_ret, emits_for. intros j Hj.
    rewrite (u32_small (i * 2)), (u32_small (i * 2 * L)), (u32_small (i * L)) by (unfold is_u32; nia).
    apply nv21_cell_emits; try lia; nia. }
  exists (apply_writes ws t). split; [by apply Hem|]. split.
  - apply length_apply.
  - intros r c Hr Hc. apply apply_at; [|intros v Hv|done].
    + apply Hws. left. by exists r, c.
    + apply Hws in Hv as [(r' & c' & [Hr' Hc'] & E & ->)|(i & c' & [Hr' Hc'] & E & ->)].
      * by apply row_inj in E as [-> ->]; [|lia..].
      * pose proof (row_inside L h r c Hr ltac:(lia)). nia.
  - intros i c Hr Hc. apply apply_at; [|intros v Hv|done].
    + apply Hws. right. by exists i, c.
    + apply Hws in Hv as [(r' & c' & [Hr' Hc'] & E & ->)|(i' & c' & [Hr' Hc'] & E & ->)].
      * pose proof (row_inside L h r' c' Hr' ltac:(lia)). nia.
      * apply Z.add_cancel_l in E. by apply row_inj in E as [-> ->]; [|lia..].
  - intros a Ha Hn. apply apply_other; [|done..].
    intros v [(r & c & [Hr Hc] & -> & _)|(i & c & [Hr Hc] & -> & _)]%Hws.
    + by apply (Hn r c); [lia..|].
    + apply (Hn (h + i) c); [lia..|]. lia.
Qed.

(** ** NV21 to RGB *)

Lemma even_col c : 0 ≤ c < 4294967296 → Z.land c 4294967294 = 2 * (c / 2) ∧ Z.lor (Z.land c 4294967294) 1 = 2 * (c / 2) + 1.
Proof.
  intros Hc.
  assert (Z.land c 4294967294 = 2 * (c / 2)) as E.
  { replace 4294967294 with (Z.ldiff (Z.ones 32) (Z.ones 1)) by reflexivity.
    rewrite Z.ldiff_land, Z.land_assoc, Z.land_ones by lia. rewrite Z.mod_small by lia.
    rewrite <- Z.ldiff_land, Z.ldiff_ones_r by lia. rewrite Z.shiftr_div_pow2, Z.shiftl_mul_pow2 by lia.
    change (2 ^ 1) with 2. lia. }
  rewrite E. split; [done|].
  pose proof (Z.add_lor_land (2 * (c / 2)) 1) as Hs.
  assert (Z.land (2 * (c / 2)) 1 = 0) as H0.
  { change 1 with (Z.ones 1) at 1. rewrite Z.land_ones by lia. change (2 ^ 1) with 2. rewrite Z.mul_comm.
    by rewrite Z.mod_mul by lia. }
  lia.
Qed.

Definition nv21_pixel (src : bytes) (L sizeY r c : Z) : Z :=
  let uv := sizeY + (r / 2 * L + 2 * (c / 2)) in
  yuvToRgbx (at8 src (r * L + c)) (at8 src uv) (at8 src (uv + 1)).

(** Rows of pixels, written one by one. *)
Lemma pixel_rows h w s (px : Z → Z → Z) a v :
  (a, v) ∈ (seqZ 0 h ≫= λ r, seqZ 0 w ≫= λ c, word_writes (r * s + c) (px r c))
  ↔ ∃ r c, (0 ≤ r < h ∧ 0 ≤ c < w) ∧ (a, v) ∈ word_writes (r * s + c) (px r c).
Proof.
  rewrite elem_of_rows. split.
  - intros (r & Hr & (c & Hc & Hin)%elem_of_rows). by exists r, c.
  - intros (r & c & [Hr Hc] & Hin). exists r. split; [done|]. apply elem_of_rows. by exists c.
Qed.

Lemma copyNV21_spec w h src ds t :
  let L := align16 w in
  0 ≤ w < 2147483648 → w mod 2 = 0 → 0 ≤ h → h mod 2 = 0 → L * h < 4294967296 →
  L * h + L * (h / 2) ≤ Z.of_nat (length src) → w ≤ ds → ds * h < 4294967296 →
  4 * (ds * h) ≤ Z.of_nat (length t) →
  ∃ t', copyNV21toRGB32 w h src ds t = Val t' tt ∧ rgb_image t t' w h ds (nv21_pixel src L (L * h)).
Proof.
  intros L Hw Ew Hh Eh HL Hs Hds Hdh Ht.
  pose proof (align16_ge w) as [HwL _]; [lia..|]. fold L in HwL.
  eapply (rgb_writes _ t w h ds (nv21_pixel src L (L * h))) in Ht as [Hin Hrgb];
    [|lia|intros; apply yuvToRgbx_range|intros a v; apply pixel_rows].
  eexists. split; [|exact Hrgb].
  assert (2 * (h / 2) = h) as E2h by (Z.div_mod_to_equations; lia).
  enough (emits (copyNV21toRGB32 w h src ds)
    (seqZ 0 h ≫= λ r, seqZ 0 w ≫= λ c, word_writes (r * ds + c) (nv21_pixel src L (L * h) r c)) tt) as E by by apply E.
  unfold copyNV21toRGB32. fold L. rewrite (u32_small (L * h)) by (unfold is_u32; nia).
  apply emits_for. intros r Hr. apply emits_for. intros c Hc. cbv zeta.
  assert (0 ≤ r / 2 < h / 2) as Hr2 by (Z.div_mod_to_equations; lia).
  pose proof (row_inside L h r c Hr ltac:(lia)).
  pose proof (row_inside L (h / 2) (r / 2) (2 * (c / 2) + 1) Hr2 ltac:(Z.div_mod_to_equations; lia)).
  pose proof (row_inside ds h r c Hr ltac:(lia)).
  assert (0 ≤ 2 * (c / 2)) by (Z.div_mod_to_equations; lia).
  pose proof (row_start L h r Hr ltac:(lia)). pose proof (row_start ds h r Hr ltac:(lia)).
  pose proof (row_start L h (r / 2) ltac:(lia) ltac:(lia)).
  rewrite (u32_small (r * L)), (u32_small (r / 2 * L)), (u32_small (r * ds)) by (unfold is_u32; lia).
  destruct (even_col c) as [-> ->]; [lia|].
  do 3 (eapply emits_load8; [apply byte_at_inside; lia|]). rewrite app_same.
  unfold nv21_pixel. cbv zeta. rewrite !Z.add_assoc. apply emits_store32.
Qed.

Definition ex_yuyv : bytes := [10; 100; 20; 200;  30; 50; 40; 150;  50; 102; 60; 202;  70; 52; 80; 152].
Definition ex_tb : ImageDesc := MkImage 4 2 4.

(** With a stride of ten bytes the second row is read from byte 8 on, not from byte 10. *)
Lemma nv21_odd_stride :
  let img := seqZ 0 20 in
  (λ o, match o with Val t _ => byte_at t 16 | _ => None end) (fillNV21FromYUYV ex_tb img 10 (repeat 0 48)) = Some 8
  ∧ byte_at img 10 = Some 10.
Proof. vm_compute. split; reflexivity. Qed.

(** ** UYVY to YUYV *)

(** The bytes of each 16-bit half exchanged. *)
Definition swapped (img : bytes) (P r j : Z) : Z :=
  let a := 4 * (r * P + j) in
  at8 img (a + 1) + 256 * at8 img a + 65536 * at8 img (a + 3) + 16777216 * at8 img (a + 2).

Lemma swapped_lanes img P r j :
  wf_bytes img →
  let a := 4 * (r * P + j) in
  is_u32 (swapped img P r j) ∧ lane 0 (swapped img P r j) = at8 img (a + 1) ∧ lane 1 (swapped img P r j) = at8 img a
  ∧ lane 2 (swapped img P r j) = at8 img (a + 3) ∧ lane 3 (swapped img P r j) = at8 img (a + 2).
Proof. intros Hm a. apply lane_word; [by apply at8_range..|done]. Qed.

Lemma swizzle_step_emits img P r j src dst :
  wf_bytes img → src = r * P + j → 0 ≤ src → 4 * src + 4 ≤ Z.of_nat (length img) →
  emits (swizzle_step img src dst) (word_writes dst (swapped img P r j)) (src + 1, dst + 1).
Proof.
  intros Hm -> Hs Hl. unfold swizzle_step. apply emits_load32; [done..|].
  destruct (mask_lanes img (4 * (r * P + j)) Hm) as (-> & -> & -> & ->). cbv zeta.
  rewrite lor_lanes by by apply at8_range.
  pose proof (swapped_lanes img P r j Hm) as [Hu _]. fold (swapped img P r j). rewrite u32_small by exact Hu.
  eapply emits_bind_ret, emits_store32.
Qed.

Lemma fillUYVY_spec tb img imgStride t :
  let w := width tb in let h := height tb in let P := imgStride / 2 / 2 in let D := stride tb / 2 in
  0 ≤ w → w / 2 ≤ D < 2147483648 → 0 ≤ h → w / 2 ≤ P < 2147483648 → wf_bytes img →
  4 * (P * h) ≤ Z.of_nat (length img) → 4 * (D * h) ≤ Z.of_nat (length t) →
  ∃ t', fillYUYVFromUYVY tb img imgStride t = Val t' tt
        ∧ rgb_image t t' (w / 2) h D (swapped img P).
Proof.
  intros w h P D Hw HD Hh HP Hm Hi Ht. assert (0 ≤ w / 2) by (apply Z.div_pos; lia).
  eapply (rgb_writes _ t (w / 2) h D (swapped img P)) in Ht as [Hin Hrgb];
    [|lia|intros; by apply swapped_lanes|intros a v; apply pixel_rows].
  eexists. split; [|exact Hrgb]. unfold fillYUYVFromUYVY. fold w h P D.
  rewrite !i32_small by (unfold is_i32; lia).
  pose proof (emits_walk w h P D 1 (swizzle_step img)
    (λ r c, word_writes (r * D + c) (swapped img P r c))) as E.
  rewrite Z.mul_1_l in E. apply E; [lia..| |exact Hin].
  intros r j Hr Hj. rewrite Z.mul_1_l. apply swizzle_step_emits; [done..|nia|].
  pose proof (row_inside P h r j Hr ltac:(lia)). lia.
Qed.

Lemma word_at_bytes m k b0 b1 b2 b3 :
  wf_bytes m → is_u8 b0 → is_u8 b1 → is_u8 b2 → is_u8 b3 →
  word_at m k = Some (b0 + 256 * b1 + 65536 * b2 + 16777216 * b3) →
  at8 m (4 * k) = b0 ∧ at8 m (4 * k + 1) = b1 ∧ at8 m (4 * k + 2) = b2 ∧ at8 m (4 * k + 3) = b3.
Proof.
  intros Hm H0 H1 H2 H3 E. unfold word_at in E.
  pose proof (at8_range m (4 * k) Hm) as R0. pose proof (at8_range m (4 * k + 1) Hm) as R1.
  pose proof (at8_range m (4 * k + 2) Hm) as R2. pose proof (at8_range m (4 * k + 3) Hm) as R3.
  unfold at8 in *.
  destruct (byte_at m (4 * k)) as [c0|], (byte_at m (4 * k + 1)) as [c1|], (byte_at m (4 * k + 2)) as [c2|],
    (byte_at m (4 * k + 3)) as [c3|]; cbn [mbind option_bind default] in *; try discriminate E.
  injection E as E. unfold is_u8, id in *. lia.
Qed.

(** the conversion from UYVY to YUYV exchanges the bytes of every 16-bit half of the
    picture and is its own inverse: a picture with rows of any length converted into one
    with rows of another length, and back, is there again, macro pixel by macro pixel,
    and no conversion leaves its images. *)
Theorem uyvy_involution tb tb' img imgStride t t2 :
  let w := width tb in let h := height tb in let P := imgStride / 2 / 2 in let D := stride tb / 2 in
  let D' := stride tb' / 2 in
  width tb' = w → height tb' = h →
  0 ≤ w → w / 2 ≤ D < 1073741824 → w / 2 ≤ D' < 1073741824 → 0 ≤ h → w / 2 ≤ P < 2147483648 →
  wf_bytes img → wf_bytes t →
  4 * (P * h) ≤ Z.of_nat (length img) → 4 * (D * h) ≤ Z.of_nat (length t) → 4 * (D' * h) ≤ Z.of_nat (length t2) →
  ∃ t' t2', fillYUYVFromUYVY tb img imgStride t = Val t' tt
    ∧ fillYUYVFromUYVY tb' t' (4 * D) t2 = Val t2' tt
    ∧ ∀ r j, 0 ≤ r < h → 0 ≤ j < w / 2 →
        word_at t' (r * D + j) = Some (swapped img P r j)
        ∧ word_at t2' (r * D' + j) = word_at img (r * P + j).
Proof.
  intros w h P D D' Ew Eh Hw HD HD' Hh HP Hm Hmt Hi Ht Ht2.
  destruct (fillUYVY_spec tb img imgStride t) as (t' & E & Himg); [fold w h P D; done || lia..|].
  fold w h P D in Himg. destruct Himg as [Hl Hwf Hp _]. specialize (Hwf Hmt).
  assert (4 * D / 2 / 2 = D) as E4 by (rewrite Z.div_div by lia; change (2 * 2) with 4; rewrite (Z.mul_comm 4); by apply Z.div_mul).
  destruct (fillUYVY_spec tb' t' (4 * D) t2) as (t2' & E2 & [_ _ Hp2 _]);
    [rewrite ?Ew, ?Eh, ?E4, ?Hl; done || lia..|].
  rewrite Ew, Eh, E4 in Hp2. fold D' in Hp2.
  exists t', t2'. split; [done|]. split; [done|]. intros r j Hr Hj. split; [by apply Hp|].
  rewrite (Hp2 r j Hr Hj). unfold swapped at 1.
  destruct (word_at_bytes t' (r * D + j) _ _ _ _ Hwf (at8_range img _ Hm) (at8_range img _ Hm) (at8_range img _ Hm)
              (at8_range img _ Hm) (Hp r j Hr Hj)) as (-> & -> & -> & ->).
  pose proof (row_inside P h r j Hr ltac:(lia)).
  unfold word_at. rewrite !byte_at_inside by lia. done.
Qed.
Definition ex_uyvy : bytes := [1; 2; 3; 4;  5; 6; 7; 8;  0; 0; 0; 0;  9; 10; 11; 12;  13; 14; 15; 16;  0; 0; 0; 0].
Lemma uyvy_involution_witness :
  ∃ t' t2', fillYUYVFromUYVY (MkImage 4 2 4) ex_uyvy 12 (repeat 0 16) = Val t' tt
    ∧ fillYUYVFromUYVY (MkImage 4 2 6) t' (4 * 2) (repeat 0 24) = Val t2' tt
    ∧ word_at t' 3 = Some (swapped ex_uyvy 3 1 1) ∧ word_at t2' 4 = word_at ex_uyvy 4.
Proof.
  destruct (uyvy_involution (MkImage 4 2 4) (MkImage 4 2 6) ex_uyvy 12 (repeat 0 16) (repeat 0 24))
    as (t' & t2' & H1 & H2 & Hp);
    [first [reflexivity | discriminate | split; [discriminate|reflexivity]
           | apply Forall_forall; intros x Hx; cbn in Hx; unfold is_u8; lia]..|].
  exists t', t2'. split; [exact H1|]. split; [exact H2|].
  exact (Hp 1 1 ltac:(split; [discriminate|reflexivity]) ltac:(split; [discriminate|reflexivity])).
Defined.

(** ** Copies of rows *)

(** [h] rows of [n] bytes, in rows of [S] bytes, copied into rows of [D] bytes. *)
Record rows_copied (t t' : bytes) (n h D : Z) (img : bytes) (S : Z) : Prop := {
  rows_length : length t' = length t;
  rows_bytes r c : 0 ≤ r < h → 0 ≤ c < n → byte_at t' (r * D + c) = byte_at img (r * S + c);
  rows_padding a : 0 ≤ a → (∀ r c, 0 ≤ r < h → 0 ≤ c < n → a ≠ r * D + c) → byte_at t' a = byte_at t a;
}.
Definition row_writes (img : bytes) (D S n r : Z) : list (Z * Z) :=
  seqZ 0 n ≫= λ c, [(r * D + c, at8 img (r * S + c))].

Lemma emits_memcpy img D S n r :
  0 ≤ r * S → r * S + n ≤ Z.of_nat (length img) → emits (memcpy (r * D) img (r * S) n) (row_writes img D S n r) tt.
Proof.
  intros Hs Hl. apply emits_for. intros c Hc. eapply emits_load8; [apply byte_at_inside; lia|]. apply emits_store8.
Qed.
Lemma rows_writes t n h D img S :
  0 ≤ n ≤ D → n ≤ S → D * h ≤ Z.of_nat (length t) → S * h ≤ Z.of_nat (length img) →
  inside (seqZ 0 h ≫= row_writes img D S n) t
  ∧ rows_copied t (apply_writes (seqZ 0 h ≫= row_writes img D S n) t) n h D img S.
Proof.
  intros Hn HS Ht Hi. set (ws := seqZ 0 h ≫= row_writes img D S n).
  assert (∀ a v, (a, v) ∈ ws ↔ ∃ r c, (0 ≤ r < h ∧ 0 ≤ c < n) ∧ a = r * D + c ∧ v = at8 img (r * S + c)) as Hws.
  { intros a v. unfold ws, row_writes. rewrite elem_of_rows. split.
    - intros (r & Hr & (c & Hc & [[= <- <-]|[]]%list_elem_of_In)%elem_of_rows). by exists r, c.
    - intros (r & c & [Hr Hc] & -> & ->). exists r. split; [done|]. apply elem_of_rows. exists c.
      split; [done|]. constructor. }
  assert (inside ws t) as Hin.
  { intros a v (r & c & [Hr Hc] & -> & _)%Hws. pose proof (row_inside D h r c Hr ltac:(lia)). lia. }
  split; [done|]. split; [apply length_apply| |].
  - intros r c Hr Hc. pose proof (row_inside S h r c Hr ltac:(lia)).
    rewrite (byte_at_inside img) by lia. apply apply_at; [apply Hws; by exists r, c| |done].
    intros v (r' & c' & [Hr' Hc'] & E & ->)%Hws. by apply row_inj in E as [-> ->]; [|lia..].
  - intros a Ha Hno. apply apply_other; [|done..].
    intros v (r & c & [Hr Hc] & -> & _)%Hws. by apply (Hno r c).
Qed.

Lemma fillYUYV_spec tb img imgStride t :
  let n := 2 * width tb in let h := height tb in let D := 2 * stride tb in
  0 ≤ n ≤ D → n ≤ imgStride → D * h < 4294967296 → imgStride * h < 4294967296 → D < 4294967296 →
  D * h ≤ Z.of_nat (length t) → imgStride * h ≤ Z.of_nat (length img) →
  ∃ t', fillYUYVFromYUYV tb img imgStride t = Val t' tt ∧ rows_copied t t' n h D img imgStride.
Proof.
  intros n h D Hn HS HD Hh HDb Ht Hi. destruct (rows_writes t n h D img imgStride) as [Hin Hr]; [done..|].
  eexists. split; [|exact Hr].
  enough (emits (fillYUYVFromYUYV tb img imgStride) (seqZ 0 h ≫= row_writes img D imgStride n) tt) as E by by apply E.
  unfold fillYUYVFromYUYV. fold h. rewrite !(Z.mul_comm _ 2). fold n D.
  apply emits_for. intros r Hrr.
  pose proof (row_start D h r Hrr ltac:(lia)). pose proof (row_start imgStride h r Hrr ltac:(lia)).
  rewrite (u32_small D), (u32_small n) by (unfold is_u32; lia).
  rewrite (u32_small (r * D)), (u32_small (r * imgStride)) by (unfold is_u32; lia).
  apply emits_memcpy; [lia|]. nia.
Qed.

Lemma copyMatched_spec w h img ss ds size t :
  let n := w * size in let D := ds * size in let S := ss * size in
  0 ≤ h → 0 ≤ n ≤ D → n ≤ S → D < 4294967296 → S < 4294967296 →
  D * h ≤ Z.of_nat (length t) → S * h ≤ Z.of_nat (length img) →
  ∃ t', copyMatchedInterleavedFormats w h img ss ds size t = Val t' tt ∧ rows_copied t t' n h D img S.
Proof.
  intros n D S Hh Hn HS HD HSb Ht Hi. destruct (rows_writes t n h D img S) as [Hin Hr]; [done..|].
  eexists. split; [|exact Hr].
  enough (emits (copyMatchedInterleavedFormats w h img ss ds size) (seqZ 0 h ≫= row_writes img D S n) tt) as E by by apply E.
  unfold copyMatchedInterleavedFormats. fold n D S. rewrite !u32_small by (unfold is_u32; lia).
  eapply emits_bind_ret. rewrite <- (Z2Nat.id h) at 2 by done.
  refine (emits_loop (λ r, (r * S, r * D)) _ _ _ 0 _). intros r Hrr.
  replace ((r + 1) * S, (r + 1) * D) with (r * S + S, r * D + D) by (f_equal; lia).
  eapply emits_bind_ret, emits_memcpy; [nia|]. assert (r + 1 ≤ h) by lia. nia.
Qed.

(** ** YV12 to RGB *)

(** The chroma planes have half as many columns as the picture, but the code indexes them
    with the picture's column. *)
Definition yv12_pixel (src : bytes) (L C sizeY sizeC r c : Z) : Z :=
  yuvToRgbx (at8 src (r * L + c)) (at8 src (sizeY + r / 2 * C + c)) (at8 src (sizeY + sizeC + r / 2 * C + c)).

Lemma copyYV12_spec w h src ds t :
  let L := align16 w in let C := align16 (L / 2) in
  0 ≤ w < 2147483648 → 0 ≤ h → h mod 2 = 0 → 2 * (L * h) < 4294967296 → C ≤ L →
  L * h + C * h / 2 + C * (h / 2) + w ≤ Z.of_nat (length src) → w ≤ ds → ds * h < 4294967296 →
  4 * (ds * h) ≤ Z.of_nat (length t) →
  ∃ t', copyYV12toRGB32 w h src ds t = Val t' tt
        ∧ rgb_image t t' w h ds (yv12_pixel src L C (L * h) (C * h / 2)).
Proof.
  intros L C Hw Hh Eh HL HC Hs Hds Hdh Ht.
  pose proof (align16_ge w) as [HwL _]; [lia..|]. fold L in HwL.
  destruct (decide (h = 0)) as [->|Hh0].
  { exists t. split; [done|]. split; [done|done|lia|done]. }
  assert (0 ≤ L / 2 ∧ L < 4294967296 / 2) as [HL2 HLb].
  { split; [apply Z.div_pos; lia|]. change (4294967296 / 2) with 2147483648. nia. }
  pose proof (align16_ge (L / 2)) as [HCL _];
    [lia|change (4294967296 / 2) with 2147483648 in HLb; Z.div_mod_to_equations; lia|]. fold C in HCL.
  eapply (rgb_writes _ t w h ds (yv12_pixel src L C (L * h) (C * h / 2))) in Ht as [Hin Hrgb];
    [|lia|intros; apply yuvToRgbx_range|intros a v; apply pixel_rows].
  eexists. split; [|exact Hrgb].
  enough (emits (copyYV12toRGB32 w h src ds)
    (seqZ 0 h ≫= λ r, seqZ 0 w ≫= λ c, word_writes (r * ds + c) (yv12_pixel src L C (L * h) (C * h / 2) r c)) tt)
    as E by by apply E.
  unfold copyYV12toRGB32. fold L. fold C.
  assert (0 ≤ C * h ≤ L * h) as HCh by nia.
  assert (0 ≤ C * h / 2 ≤ C * h) as HCh2 by (Z.div_mod_to_equations; lia).
  rewrite (u32_small (L * h)), (u32_small (C * h)) by (unfold is_u32; lia).
  rewrite (u32_small (L * h + C * h / 2)) by (unfold is_u32; lia).
  apply emits_for. intros r Hr. apply emits_for. intros c Hc. cbv zeta.
  assert (0 ≤ r / 2 < h / 2) as Hr2 by (Z.div_mod_to_equations; lia).
  pose proof (row_inside L h r c Hr ltac:(lia)).
  pose proof (row_start C (h / 2) (r / 2) Hr2 ltac:(lia)).
  assert (0 ≤ r / 2 < h) as Hr3 by (clear -Hr; Z.div_mod_to_equations; lia).
  pose proof (row_start C h (r / 2) Hr3 ltac:(lia)).
  pose proof (row_start L h r Hr ltac:(lia)). pose proof (row_start ds h r Hr ltac:(lia)).
  rewrite (u32_small (r * L)), (u32_small (r / 2 * C)), (u32_small (r * ds)) by (unfold is_u32; lia).
  do 3 (eapply emits_load8; [apply byte_at_inside; lia|]). rewrite app_same. apply emits_store32.
Qed.

(** An image 32 pixels wide has 16 chroma columns; the last pixels of its last rows are
    read past the end of an image of exactly the right size. *)
Lemma yv12_overrun : copyYV12toRGB32 32 2 (repeat 128 (32 * 2 + 16 + 16)) 32 (repeat 0 256) = Ub.
Proof. vm_compute. reflexivity. Qed.
(** And in an image where only the chroma column 8 differs, pixel 8 is the one coloured. *)
Lemma yv12_wrong_column :
  let src := repeat 100 64 ++ (repeat 128 8 ++ [0] ++ repeat 128 7) ++ repeat 128 32 in
  (λ o, match o with Val t _ => (word_at t 8, word_at t 16) | _ => (None, None) end)
    (copyYV12toRGB32 32 2 src 32 (repeat 0 256))
  = (Some (yuvToRgbx 100 0 128), Some (yuvToRgbx 100 128 128)).
Proof. vm_compute. reflexivity. Qed.
