(* ===== verification/EvsDisplay.v ===== *)
(** * EVS: the display and the enumerator of the driver

    Models android/hardware/xbox/evs/sampleDriver: GlWrapper.{h,cpp} (the window on the
    screen), EvsGlDisplay.{h,cpp} (the one buffer lent to the client that owns the
    display) and EvsEnumerator.{h,cpp} (which hands out cameras and the display, taking
    them from whoever had them).  The answers of SurfaceFlinger, EGL, GL and the graphics
    allocator are arguments; what is allocated, freed, created and put on the screen is
    recorded.  The service has a single thread.  Objects that were destroyed stay in their
    heap, marked.  Handles the constructor leaves without a value are [Garbage]. *)

From S2P Require Import Prelude EvsDriver.

(** ** GlWrapper *)

Inductive gfx_event : Type :=
  | GAlloc (h : Z)                 (* GraphicBufferAllocator *)
  | GFree (h : Z)
  | GShow | GHide                  (* the window *)
  | GCreate                        (* an EGL surface or context *)
  | GTerminate                     (* eglTerminate: all of them are released *)
  | GPresent (image : option Z).   (* the buffer the texture shows, on the screen *)

Inductive egl : Type := Garbage | NoObject | Object.
#[global] Instance egl_eq_dec : EqDecision egl.
Proof. solve_decision. Defined.

Record GlWrapper : Type := MkGl {
  mFlinger : bool; mFlingerSurfaceControl : bool; mFlingerSurface : bool;    (* not null *)
  mDisplay : egl; mSurface : egl; mContext : egl;
  gWidth : Z; gHeight : Z;
  mKHRimage : option Z;            (* the buffer the image wraps *)
  mTextureMap : bool; mShaderProgram : bool;                                 (* not 0 *)
  texture_image : option Z;        (* what glEGLImageTargetTexture2DOES made the texture show *)
}.
Definition new_gl : GlWrapper :=
  MkGl false false false Garbage Garbage Garbage 0 0 None false false None.

(** *** Shaders *)

Inductive gl_object : Type := Program | VertexShader | PixelShader.
#[global] Instance gl_object_eq_dec : EqDecision gl_object.
Proof. solve_decision. Defined.
Record shader_env : Type := MkShaderEnv { s_created : bool; s_compiled : bool }.
Record program_env : Type := MkProgramEnv {
  p_created : bool; p_vertex : shader_env; p_pixel : shader_env; p_linked : bool;
}.

(** The state is the list of GL objects that exist. *)
Definition delete_object (o : gl_object) : M (list gl_object) unit := modify (filter (λ x, x ≠ o)).
Definition loadShader (type : gl_object) (e : shader_env) : M (list gl_object) bool :=
  if s_created e then
    modify (cons type);;
    if s_compiled e then mret true else delete_object type;; mret false
  else mret false.
Definition buildShaderProgram (e : program_env) : M (list gl_object) bool :=
  if p_created e then
    modify (cons Program);;
    vertexShader ← loadShader VertexShader (p_vertex e);
    if negb vertexShader then delete_object Program;; mret false
    else
      pixelShader ← loadShader PixelShader (p_pixel e);
      if negb pixelShader then
        delete_object Program;; delete_object VertexShader;; mret false
      else if p_linked e then mret true
      else
        delete_object Program;; delete_object VertexShader;; delete_object PixelShader;; mret false
  else mret false.
Definition program_built (e : program_env) : bool :=
  match buildShaderProgram e [] with Val _ b => b | _ => false end.

(** *** The window *)

Record DisplayInfo : Type := MkInfo { info_w : Z; info_h : Z; info_rotated : bool }.
Record init_env : Type := MkInit {
  i_check : bool;                        (* initCheck *)
  i_info : option DisplayInfo;           (* getDisplayInfo *)
  i_control : option bool;               (* createSurface: null, or whether it is valid *)
  i_display : bool; i_egl : bool; i_config : bool;
  i_surface : bool; i_context : bool; i_current : bool;
  i_program : program_env; i_texture : bool;
}.

(** The display object with the wrapper in it; the log is the process's. *)
Inductive DisplayState : Type :=
  | NOT_OPEN | NOT_VISIBLE | VISIBLE_ON_NEXT_FRAME | VISIBLE | DEAD
  | Unknown.                             (* NUM_STATES and above *)
#[global] Instance DisplayState_eq_dec : EqDecision DisplayState.
Proof. solve_decision. Defined.

Record EvsGlDisplay : Type := MkDisplay {
  mBuffer : BufferDesc;
  mBufferSize : Z * Z; mBufferStride : Z;
  mFrameBusy : bool;
  mRequestedState : DisplayState;
  mGlWrapper : GlWrapper;
  glog : list gfx_event;
}.
Definition new_display : EvsGlDisplay :=
  MkDisplay nullBuff (0, 0) 0 false NOT_VISIBLE new_gl [].

Definition set_gl (g : GlWrapper) : M EvsGlDisplay unit :=
  modify (λ d, MkDisplay (mBuffer d) (mBufferSize d) (mBufferStride d) (mFrameBusy d) (mRequestedState d) g (glog d)).
Definition emit (e : gfx_event) : M EvsGlDisplay unit :=
  modify (λ d, MkDisplay (mBuffer d) (mBufferSize d) (mBufferStride d) (mFrameBusy d) (mRequestedState d)
                 (mGlWrapper d) (glog d ++ [e])).
Definition gets {A} (f : EvsGlDisplay → A) : M EvsGlDisplay A := d ← get; mret (f d).

Definition gl_flinger (f c s : bool) (g : GlWrapper) : GlWrapper :=
  MkGl f c s (mDisplay g) (mSurface g) (mContext g) (gWidth g) (gHeight g) (mKHRimage g)
    (mTextureMap g) (mShaderProgram g) (texture_image g).
Definition gl_size (w h : Z) (g : GlWrapper) : GlWrapper :=
  MkGl (mFlinger g) (mFlingerSurfaceControl g) (mFlingerSurface g) (mDisplay g) (mSurface g) (mContext g) w h
    (mKHRimage g) (mTextureMap g) (mShaderProgram g) (texture_image g).
Definition gl_egl (d s c : egl) (g : GlWrapper) : GlWrapper :=
  MkGl (mFlinger g) (mFlingerSurfaceControl g) (mFlingerSurface g) d s c (gWidth g) (gHeight g) (mKHRimage g)
    (mTextureMap g) (mShaderProgram g) (texture_image g).
Definition gl_program (p t : bool) (i : option Z) (g : GlWrapper) : GlWrapper :=
  MkGl (mFlinger g) (mFlingerSurfaceControl g) (mFlingerSurface g) (mDisplay g) (mSurface g) (mContext g)
    (gWidth g) (gHeight g) (mKHRimage g) t p i.
Definition gl_image (k i : option Z) (g : GlWrapper) : GlWrapper :=
  MkGl (mFlinger g) (mFlingerSurfaceControl g) (mFlingerSurface g) (mDisplay g) (mSurface g) (mContext g)
    (gWidth g) (gHeight g) k (mTextureMap g) (mShaderProgram g) i.
Definition upd_gl (f : GlWrapper → GlWrapper) : M EvsGlDisplay unit := g ← gets mGlWrapper; set_gl (f g).

(** The EGL part of [initialize]; each failure leaves what was created before it. *)
Definition initialize_egl (e : init_env) : M EvsGlDisplay bool :=
  if negb (i_display e) then upd_gl (λ g, gl_egl NoObject (mSurface g) (mContext g) g);; mret false
  else
    upd_gl (λ g, gl_egl Object (mSurface g) (mContext g) g);;
    if negb (i_egl e) then mret false
    else if negb (i_config e) then mret false
    else if negb (i_surface e) then upd_gl (λ g, gl_egl (mDisplay g) NoObject (mContext g) g);; mret false
    else
      upd_gl (λ g, gl_egl (mDisplay g) Object (mContext g) g);; emit GCreate;;
      if negb (i_context e) then upd_gl (λ g, gl_egl (mDisplay g) (mSurface g) NoObject g);; mret false
      else
        upd_gl (λ g, gl_egl (mDisplay g) (mSurface g) Object g);; emit GCreate;;
        if negb (i_current e) then mret false
        else
          upd_gl (λ g, gl_program (program_built (i_program e)) (mTextureMap g) (texture_image g) g);;
          if negb (program_built (i_program e)) then mret false
          else
            upd_gl (λ g, gl_program (mShaderProgram g) (i_texture e) None g);;
            mret (i_texture e).

Definition initialize (e : init_env) : M EvsGlDisplay bool :=
  upd_gl (λ g, gl_flinger true (mFlingerSurfaceControl g) (mFlingerSurface g) g);;
  if negb (i_check e) then mret false
  else
    match i_info e with
    | None => mret false
    | Some info =>
        upd_gl (λ g, if info_rotated info then gl_size (info_h info) (info_w info) g
                     else gl_size (info_w info) (info_h info) g);;
        upd_gl (λ g, gl_flinger (mFlinger g) (bool_decide (is_Some (i_control e))) (mFlingerSurface g) g);;
        match i_control e with
        | Some true =>
            upd_gl (λ g, gl_flinger (mFlinger g) (mFlingerSurfaceControl g) true g);;
            initialize_egl e
        | _ => mret false
        end
    end.

(** EGL is called with the handles as they are: garbage is undefined. *)
Definition gl_shutdown : M EvsGlDisplay unit :=
  upd_gl (λ g, gl_image None (texture_image g) g);;
  g ← gets mGlWrapper;
  if decide (mDisplay g = Garbage ∨ mSurface g = Garbage ∨ mContext g = Garbage) then undefined
  else
    emit GTerminate;;
    upd_gl (gl_egl NoObject NoObject NoObject);;
    upd_gl (gl_flinger false false false).

Definition showWindow : M EvsGlDisplay unit :=
  g ← gets mGlWrapper; if mFlingerSurfaceControl g then emit GShow else mret tt.
Definition hideWindow : M EvsGlDisplay unit :=
  g ← gets mGlWrapper; if mFlingerSurfaceControl g then emit GHide else mret tt.

(** [created]: whether eglCreateImageKHR succeeds.  The image of a null handle is undefined. *)
Definition updateImageTexture (buffer : BufferDesc) (created : bool) : M EvsGlDisplay bool :=
  g ← gets mGlWrapper;
  match mKHRimage g with
  | Some _ => mret true
  | None =>
      match memHandle buffer with
      | None => undefined
      | Some h =>
          if created then upd_gl (gl_image (Some h) (Some h));; mret true else mret false
      end
  end.
Definition renderImageToScreen : M EvsGlDisplay unit :=
  g ← gets mGlWrapper; emit (GPresent (texture_image g)).

(** ** EvsGlDisplay *)

Definition set_state (s : DisplayState) : M EvsGlDisplay unit :=
  modify (λ d, MkDisplay (mBuffer d) (mBufferSize d) (mBufferStride d) (mFrameBusy d) s (mGlWrapper d) (glog d)).
Definition set_busy (b : bool) : M EvsGlDisplay unit :=
  modify (λ d, MkDisplay (mBuffer d) (mBufferSize d) (mBufferStride d) b (mRequestedState d) (mGlWrapper d) (glog d)).
Definition set_buffer (b : BufferDesc) (size : Z * Z) (st : Z) : M EvsGlDisplay unit :=
  modify (λ d, MkDisplay b size st (mFrameBusy d) (mRequestedState d) (mGlWrapper d) (glog d)).

Definition forceShutdown : M EvsGlDisplay unit :=
  d ← get;
  (match memHandle (mBuffer d) with
   | Some h =>
       emit (GFree h);;
       set_buffer (MkBuffer (bufferId (mBuffer d)) None) (mBufferSize d) (mBufferStride d);;
       gl_shutdown
   | None => mret tt
   end);;
  set_state DEAD.

Definition setDisplayState (state : DisplayState) : M EvsGlDisplay EvsResult :=
  d ← get;
  if decide (mRequestedState d = DEAD) then mret OWNERSHIP_LOST
  else if decide (state = Unknown) then mret INVALID_ARG
  else
    (match state with NOT_VISIBLE => hideWindow | VISIBLE => showWindow | _ => mret tt end);;
    set_state state;; mret EOK.

Definition getDisplayState : M EvsGlDisplay DisplayState := gets mRequestedState.

Record target_env : Type := MkTarget {
  t_init : init_env;
  t_error : bool;                        (* allocate reported an error *)
  t_handle : option Z;                   (* the handle it gave *)
  t_stride : Z;
}.
Definition DISPLAY_BUFFER_ID : Z := 14448.   (* 0x3870 *)

(** The buffer, allocated when there is none. *)
Definition ensure_buffer (e : target_env) : M EvsGlDisplay bool :=
  d ← get;
  match memHandle (mBuffer d) with
  | Some _ => mret true
  | None =>
      ok ← initialize (t_init e);
      if negb ok then mret false
      else
        g ← gets mGlWrapper;
        set_buffer (MkBuffer DISPLAY_BUFFER_ID None) (gWidth g, gHeight g) (t_stride e);;
        if t_error e then gl_shutdown;; mret false
        else
          match t_handle e with
          | None => gl_shutdown;; mret false
          | Some h =>
              emit (GAlloc h);;
              set_buffer (MkBuffer DISPLAY_BUFFER_ID (Some h)) (gWidth g, gHeight g) (t_stride e);;
              set_busy false;; mret true
          end
  end.

Definition getTargetBuffer (e : target_env) : M EvsGlDisplay BufferDesc :=
  d ← get;
  if decide (mRequestedState d = DEAD) then mret nullBuff
  else
    ok ← ensure_buffer e;
    if negb ok then mret nullBuff
    else
      d ← get;
      if mFrameBusy d then mret nullBuff
      else set_busy true;; mret (mBuffer d).

Definition returnTargetBufferForDisplay (buffer : BufferDesc) (created : bool) : M EvsGlDisplay EvsResult :=
  d ← get;
  if decide (memHandle buffer = None) then mret INVALID_ARG
  else if decide (bufferId buffer ≠ bufferId (mBuffer d)) then mret INVALID_ARG
  else if negb (mFrameBusy d) then mret BUFFER_NOT_AVAILABLE
  else
    set_busy false;;
    if decide (mRequestedState d = DEAD) then mret OWNERSHIP_LOST
    else
      (if decide (mRequestedState d = VISIBLE_ON_NEXT_FRAME) then set_state VISIBLE;; showWindow else mret tt);;
      d ← get;
      if decide (mRequestedState d = VISIBLE) then
        ok ← updateImageTexture (mBuffer d) created;
        if negb ok then mret UNDERLYING_SERVICE_ERROR
        else renderImageToScreen;; mret EOK
      else mret EOK.

(** ** What a display does to the screen *)

(** The log read as the life of one buffer: it is allocated when there is none, freed when
    it is there, and only it is put on the screen. *)
Definition replay_event (cur : option Z) (e : gfx_event) : option (option Z) :=
  match e with
  | GAlloc h => if decide (cur = None) then Some (Some h) else None
  | GFree h => if decide (cur = Some h) then Some None else None
  | GPresent i => if decide (is_Some i ∧ i = cur) then Some cur else None
  | _ => Some cur
  end.
Fixpoint replay (cur : option Z) (l : list gfx_event) : option (option Z) :=
  match l with
  | [] => Some cur
  | e :: l' => cur' ← replay_event cur e; replay cur' l'
  end.
Lemma replay_app cur l1 l2 : replay cur (l1 ++ l2) = cur' ← replay cur l1; replay cur' l2.
Proof.
  revert cur. induction l1 as [|e l1 IH]; intros cur; [done|]. cbn [app replay].
  destruct (replay_event cur e); cbn [mbind option_bind]; [apply IH|done].
Qed.

(** [gone]: another client has the display. *)
Definition gone (d : EvsGlDisplay) : Prop := mRequestedState d = DEAD ∧ memHandle (mBuffer d) = None.
Definition initialized (g : GlWrapper) : Prop := mDisplay g = Object ∧ mSurface g = Object ∧ mContext g = Object.

Record display_ok (d : EvsGlDisplay) : Prop := {
  dok_gl : is_Some (memHandle (mBuffer d)) → initialized (mGlWrapper d);
  dok_image i : mKHRimage (mGlWrapper d) = Some i →
    memHandle (mBuffer d) = Some i ∧ texture_image (mGlWrapper d) = Some i;
  dok_busy : mFrameBusy d = true → mRequestedState d ≠ DEAD → is_Some (memHandle (mBuffer d));
}.

(** A call on a display: the events it adds, read from the buffer before to the one after. *)
Definition moves (d d' : EvsGlDisplay) (ev : list gfx_event) : Prop :=
  display_ok d' ∧ glog d' = glog d ++ ev
  ∧ replay (memHandle (mBuffer d)) ev = Some (memHandle (mBuffer d'))
  ∧ (gone d → gone d' ∧ ev = []).
Definition call_safe {A} (m : M EvsGlDisplay A) : Prop :=
  ∀ d, display_ok d → ∃ d' r ev, m d = Val d' r ∧ moves d d' ev.

Lemma new_display_ok : display_ok new_display.
Proof. split; cbn; [by intros [? ?]|done|done]. Qed.

(** *** The wrapper *)

Definition only_gl (d d' : EvsGlDisplay) : Prop :=
  mBuffer d' = mBuffer d ∧ mFrameBusy d' = mFrameBusy d ∧ mRequestedState d' = mRequestedState d
  ∧ mKHRimage (mGlWrapper d') = mKHRimage (mGlWrapper d).
Definition creates (l : list gfx_event) : Prop := Forall (λ e, e = GCreate) l.

Lemma replay_creates cur l : creates l → replay cur l = Some cur.
Proof. induction 1 as [|e l -> _ IH]; [done|]. exact IH. Qed.

(** Evaluation of a call on a display given by its fields. *)
Ltac run_d :=
  lazy beta iota zeta delta
    [mbind mret M_bind M_ret get put modify undefined gets emit set_gl upd_gl gl_flinger gl_size gl_egl gl_program
     gl_image set_state set_busy set_buffer negb
     mFlinger mFlingerSurfaceControl mFlingerSurface mDisplay mSurface mContext gWidth gHeight mKHRimage mTextureMap
     mShaderProgram texture_image mBuffer mBufferSize mBufferStride mFrameBusy mRequestedState mGlWrapper glog
     fst snd].
Ltac end_init l :=
  eexists _, _, l; split; [reflexivity|]; split; [by repeat split|]; cbn; rewrite ?app_nil_r, <- ?app_assoc;
  split; [reflexivity|]; split; [by repeat constructor|]; first [discriminate | intros _; by repeat split].

Lemma init_egl_spec e d :
  ∃ d' b ev, initialize_egl e d = Val d' b ∧ only_gl d d' ∧ glog d' = glog d ++ ev ∧ creates ev
    ∧ (b = true → initialized (mGlWrapper d')).
Proof.
  destruct d as [bd sz st busy req [fl fc fs ed es ec w h khr tm sp ti] log]. unfold initialize_egl. run_d.
  destruct (i_display e); [|end_init (@nil gfx_event)].
  destruct (i_egl e); [|end_init (@nil gfx_event)].
  destruct (i_config e); [|end_init (@nil gfx_event)].
  destruct (i_surface e); [|end_init (@nil gfx_event)].
  destruct (i_context e); [|end_init [GCreate]].
  destruct (i_current e); [|end_init [GCreate; GCreate]].
  destruct (program_built (i_program e)); [|end_init [GCreate; GCreate]].
  end_init [GCreate; GCreate].
Qed.

Lemma init_spec e d :
  ∃ d' b ev, initialize e d = Val d' b ∧ only_gl d d' ∧ glog d' = glog d ++ ev ∧ creates ev
    ∧ (b = true → initialized (mGlWrapper d')).
Proof.
  destruct d as [bd sz st busy req [fl fc fs ed es ec w h khr tm sp ti] log]. unfold initialize. run_d.
  destruct (i_check e); [|end_init (@nil gfx_event)].
  destruct (i_info e) as [[iw ih []]|]; [| |end_init (@nil gfx_event)].
  all: destruct (i_control e) as [[]|]; [|end_init (@nil gfx_event)..].
  all: match goal with |- context [initialize_egl ?y ?x] =>
         destruct (init_egl_spec y x) as (d' & b & ev & -> & (E1 & E2 & E3 & E4) & Hl & Hc & Hb) end.
  all: exists d', b, ev; split; [done|]; split; [by repeat split|]; split; [exact Hl|by split].
Qed.

Lemma gl_shutdown_spec d :
  initialized (mGlWrapper d) →
  ∃ d', gl_shutdown d = Val d' tt ∧ mBuffer d' = mBuffer d ∧ mFrameBusy d' = mFrameBusy d
    ∧ mRequestedState d' = mRequestedState d ∧ mKHRimage (mGlWrapper d') = None ∧ glog d' = glog d ++ [GTerminate].
Proof.
  destruct d as [bd sz st busy req [fl fc fs ed es ec w h khr tm sp ti] log]. intros (H1 & H2 & H3).
  cbn in H1, H2, H3. subst. unfold gl_shutdown. run_d.
  rewrite decide_False by (intros [?|[?|?]]; discriminate). eexists. split; [reflexivity|]. by repeat split.
Qed.

(** *** The display's calls *)

Lemma moves_same d d' :
  display_ok d' → glog d' = glog d → memHandle (mBuffer d') = memHandle (mBuffer d) → (gone d → gone d') →
  moves d d' [].
Proof. intros H1 H2 H3 H4. split; [done|]. rewrite app_nil_r, H3. split; [done|]. split; [done|]. auto. Qed.
Lemma moves_one d d' e :
  display_ok d' → glog d' = glog d ++ [e] → replay_event (memHandle (mBuffer d)) e = Some (memHandle (mBuffer d')) →
  ¬ gone d → moves d d' [e].
Proof. intros H1 H2 H3 H4. split; [done|]. split; [done|]. cbn [replay]. rewrite H3. by split. Qed.
Lemma moves_trans d1 d2 d3 ev1 ev2 : moves d1 d2 ev1 → moves d2 d3 ev2 → moves d1 d3 (ev1 ++ ev2).
Proof.
  intros (_ & L1 & R1 & G1) (H2 & L2 & R2 & G2). split; [done|]. rewrite L2, L1, app_assoc. split; [done|].
  rewrite replay_app, R1. split; [exact R2|]. intros [H ->]%G1. by destruct (G2 H) as [? ->].
Qed.

Lemma forceShutdown_spec d :
  display_ok d → ∃ d' ev, forceShutdown d = Val d' tt ∧ moves d d' ev ∧ gone d'.
Proof.
  intros [Hgl Himg Hbusy]. unfold forceShutdown. run_m.
  destruct (memHandle (mBuffer d)) as [h|] eqn:Eh.
  - unfold emit at 1, set_buffer at 1. run_m. cbn [mBuffer mBufferSize mBufferStride mFrameBusy mRequestedState mGlWrapper glog].
    match goal with |- context [gl_shutdown ?x] => destruct (gl_shutdown_spec x) as (d' & -> & E1 & E2 & E3 & E4 & E5) end.
    { apply Hgl. by eexists. }
    cbn in E1, E2, E3, E5. unfold set_state. run_m. eexists _, [GFree h; GTerminate].
    split; [reflexivity|]. unfold moves, gone. cbn [mBuffer mRequestedState glog]. rewrite E1, E5, <- app_assoc, Eh.
    cbn [memHandle replay replay_event]. rewrite decide_True by done. split; [|done].
    split; [|split; [done|split; [done|by intros [_ ?]]]].
    split; cbn; rewrite ?E1, ?E4; [by intros [? ?]|done|done].
  - unfold set_state. eexists _, []. split; [reflexivity|]. split; [|by split].
    apply moves_same; cbn; [|done|done|by split]. split; cbn; rewrite Eh; [by intros [? ?]|exact Himg|done].
Qed.

Lemma set_state_spec d st : display_ok d → mRequestedState d ≠ DEAD → ∃ d', set_state st d = Val d' tt ∧ moves d d' [].
Proof.
  intros [H1 H2 H3] Hd. eexists. split; [reflexivity|]. apply moves_same; [|done|done|by intros [? _]].
  split; cbn; [done|done|]. intros Hb _. by apply H3.
Qed.
Lemma emit_spec d e : display_ok d → ¬ gone d → replay_event (memHandle (mBuffer d)) e = Some (memHandle (mBuffer d)) →
  ∃ d', emit e d = Val d' tt ∧ moves d d' [e] ∧ mRequestedState d' = mRequestedState d.
Proof.
  intros [H1 H2 H3] Hg Hr. eexists. split; [reflexivity|]. split; [|done].
  apply moves_one; [by split|done|done|done].
Qed.
Lemma window_spec d (show : bool) :
  display_ok d → ¬ gone d →
  ∃ d' ev, (if show then showWindow else hideWindow) d = Val d' tt ∧ moves d d' ev ∧ mRequestedState d' = mRequestedState d.
Proof.
  intros Hd Hg.
  destruct (emit_spec d (if show then GShow else GHide) Hd Hg) as (d' & E & Hm & Hs); [by destruct show|].
  assert (moves d d []) as H0 by (apply moves_same; done).
  destruct show; unfold showWindow, hideWindow, gets; run_m;
    (destruct (mFlingerSurfaceControl (mGlWrapper d)); [by eexists d', _|by exists d, []]).
Qed.

Lemma setDisplayState_spec state : call_safe (setDisplayState state).
Proof.
  intros d Hd. unfold setDisplayState. rewrite (bind_val get _ d d d) by done.
  destruct (decide (mRequestedState d = DEAD)) as [Ed|Ed];
    [exists d, OWNERSHIP_LOST, []; split; [done|]; by apply moves_same|].
  destruct (decide (state = Unknown)) as [Eu|Eu];
    [exists d, INVALID_ARG, []; split; [done|]; by apply moves_same|].
  assert (¬ gone d) as Hg by by intros [? _].
  assert (∃ d' ev, (match state with NOT_VISIBLE => hideWindow | VISIBLE => showWindow | _ => mret tt end) d = Val d' tt
            ∧ moves d d' ev ∧ mRequestedState d' = mRequestedState d) as (d1 & ev & E1 & Hm & Es).
  { destruct state; try (exists d, []; split; [done|]; split; [by apply moves_same|done]).
    - exact (window_spec d false Hd Hg).
    - exact (window_spec d true Hd Hg). }
  rewrite (bind_val _ _ _ _ _ E1).
  destruct (set_state_spec d1 state (proj1 Hm)) as (d2 & E2 & Hm2); [by rewrite Es|].
  rewrite (bind_val _ _ _ _ _ E2). exists d2, EOK, (ev ++ []). split; [done|]. by eapply moves_trans.
Qed.

Lemma ensure_buffer_spec e d :
  display_ok d → mRequestedState d ≠ DEAD →
  ∃ d' b ev, ensure_buffer e d = Val d' b ∧ moves d d' ev ∧ mRequestedState d' = mRequestedState d
    ∧ (b = true → is_Some (memHandle (mBuffer d'))).
Proof.
  intros Hd Hs. assert (¬ gone d) as Hg by by intros [? _].
  unfold ensure_buffer. rewrite (bind_val get _ d d d) by done.
  destruct (memHandle (mBuffer d)) as [h|] eqn:Eh.
  { exists d, true, []. split; [done|]. split; [by apply moves_same|]. by rewrite Eh. }
  destruct (init_spec (t_init e) d) as (d1 & ok & ev & E & (B1 & B2 & B3 & B4) & Hl & Hc & Hi).
  rewrite (bind_val _ _ _ _ _ E). destruct Hd as [Hgl Himg Hbusy]. rewrite Eh in Hgl, Himg, Hbusy.
  assert (mKHRimage (mGlWrapper d) = None) as Ek.
  { destruct (mKHRimage (mGlWrapper d)) as [i|]; [|done]. by destruct (Himg i eq_refl). }
  assert (mFrameBusy d = false) as Eb.
  { destruct (mFrameBusy d); [|done]. by destruct (Hbusy eq_refl Hs). }
  assert (∀ d' ev', memHandle (mBuffer d') = None → mFrameBusy d' = false → mKHRimage (mGlWrapper d') = None →
            glog d' = glog d ++ ev' → replay None ev' = Some None → moves d d' ev') as Hnone.
  { intros d' ev' M1 M2 M3 M4 M5. split; [|split; [done|split; [by rewrite Eh, M1|done]]].
    split; rewrite ?M1, ?M2, ?M3; [by intros [? ?]|done|done]. }
  destruct ok; cbn [negb].
  2: { exists d1, false, ev. split; [done|]. split; [|by split]. apply Hnone; [by rewrite B1|by rewrite B2|by rewrite B4|done|].
       by apply replay_creates. }
  unfold gets at 1. unfold set_buffer. run_m.
  cbn [mBuffer mBufferSize mBufferStride mFrameBusy mRequestedState mGlWrapper glog].
  assert (∀ x, mGlWrapper x = mGlWrapper d1 → mFrameBusy x = mFrameBusy d1 → memHandle (mBuffer x) = None →
            mRequestedState x = mRequestedState d1 → glog x = glog d1 →
            ∃ d' ev, gl_shutdown x = Val d' tt ∧ moves d d' ev ∧ mRequestedState d' = mRequestedState d) as Hdown.
  { intros x X1 X2 X3 X4 X5. destruct (gl_shutdown_spec x) as (d' & Ed & M1 & M2 & M3 & M4 & M5); [rewrite X1; by apply Hi|].
    exists d', (ev ++ [GTerminate]). split; [done|]. split; [|congruence]. apply Hnone; [congruence..| |].
    - rewrite M5, X5, Hl. by rewrite <- app_assoc.
    - rewrite replay_app, replay_creates by done. done. }
  destruct (t_error e); [|destruct (t_handle e) as [h|]]; cbn beta.
  1,3: match goal with |- context [gl_shutdown ?x] => destruct (Hdown x) as (d' & ev' & -> & Hm & Hst) end; [done..|];
       exists d', false, ev'; by split.
  unfold emit, set_busy. run_m. eexists _, true, (ev ++ [GAlloc h]). split; [reflexivity|]. cbn.
  split; [|split; [done|by eexists]]. split; [|split; [by rewrite Hl, <- app_assoc|split; [|done]]].
  - split; cbn; [intros _; by apply Hi| |done]. rewrite B4, Ek. done.
  - rewrite Eh, replay_app, replay_creates by done. done.
Qed.

Lemma getTargetBuffer_spec e : call_safe (getTargetBuffer e).
Proof.
  intros d Hd. unfold getTargetBuffer. rewrite (bind_val get _ d d d) by done.
  destruct (decide (mRequestedState d = DEAD)) as [Ed|Ed];
    [exists d, nullBuff, []; split; [done|]; by apply moves_same|].
  destruct (ensure_buffer_spec e d Hd Ed) as (d1 & ok & ev & E & Hm & Es & Hb).
  rewrite (bind_val _ _ _ _ _ E). destruct ok; cbn [negb]; [|by exists d1, nullBuff, ev].
  rewrite (bind_val get _ d1 d1 d1) by done. destruct (mFrameBusy d1) eqn:Ebusy; [by exists d1, nullBuff, ev|].
  unfold set_busy. run_m. eexists _, (mBuffer d1), (ev ++ []). split; [reflexivity|].
  eapply moves_trans; [exact Hm|]. destruct Hm as ([H1 H2 H3] & _). apply moves_same; [|done|done|by intros [? ?]; split].
  split; cbn; [done|done|]. intros _ _. by apply Hb.
Qed.

Lemma present_spec d created :
  display_ok d → ¬ gone d → is_Some (memHandle (mBuffer d)) →
  ∃ d' r ev, (ok ← updateImageTexture (mBuffer d) created;
              if negb ok then mret UNDERLYING_SERVICE_ERROR else renderImageToScreen;; mret EOK) d = Val d' r
             ∧ moves d d' ev.
Proof.
  intros Hd Hg [h Eh]. destruct Hd as [H1 H2 H3] eqn:EHd. clear EHd.
  assert (∀ d1, display_ok d1 → memHandle (mBuffer d1) = Some h → texture_image (mGlWrapper d1) = Some h →
            moves d d1 [] → ∃ d' r ev, (renderImageToScreen;; mret EOK) d1 = Val d' r ∧ moves d d' ev) as Hr.
  { intros d1 O1 M1 T1 Hm. unfold renderImageToScreen, gets, emit. run_m. rewrite T1.
    eexists _, EOK, ([] ++ [GPresent (Some h)]). split; [reflexivity|]. eapply moves_trans; [exact Hm|].
    apply moves_one; [destruct O1; by split|done| |by intros [_ ?]; congruence]. cbn. rewrite M1. by rewrite decide_True by done. }
  unfold updateImageTexture at 1, gets at 1. run_m.
  destruct (mKHRimage (mGlWrapper d)) as [i|] eqn:Ei.
  - destruct (H2 i eq_refl) as [M1 T1]. cbn [negb]. apply Hr; [done|done|congruence|by apply moves_same].
  - rewrite Eh. destruct created; cbn [negb].
    + unfold upd_gl, gets, set_gl. run_m. cbn [mGlWrapper]. apply Hr; cbn; [|done|done|].
      * split; cbn; [by rewrite Eh in *|intros j [= <-]; done|exact H3].
      * apply moves_same; [|done|done|by intros]. split; cbn; [by rewrite Eh in *|intros j [= <-]; done|exact H3].
    + eexists _, _, []. split; [reflexivity|]. by apply moves_same.
Qed.

Lemma set_busy_spec d : display_ok d → ∃ d', set_busy false d = Val d' tt ∧ moves d d' []
  ∧ mRequestedState d' = mRequestedState d ∧ mBuffer d' = mBuffer d ∧ mGlWrapper d' = mGlWrapper d.
Proof.
  intros [H1 H2 H3]. eexists. split; [reflexivity|]. split; [|done].
  apply moves_same; [by split|done|done|by intros [? ?]].
Qed.

Lemma returnTarget_spec buffer created : call_safe (returnTargetBufferForDisplay buffer created).
Proof.
  intros d Hd. unfold returnTargetBufferForDisplay. rewrite (bind_val get _ d d d) by done.
  assert (moves d d []) as H0 by by apply moves_same.
  destruct (decide (memHandle buffer = None)); [by exists d, INVALID_ARG, []|].
  destruct (decide (bufferId buffer ≠ bufferId (mBuffer d))); [by exists d, INVALID_ARG, []|].
  destruct (mFrameBusy d) eqn:Eb; cbn [negb]; [|by exists d, BUFFER_NOT_AVAILABLE, []].
  destruct (set_busy_spec d Hd) as (d1 & E1 & Hm1 & S1 & B1 & G1). rewrite (bind_val _ _ _ _ _ E1).
  destruct (decide (mRequestedState d = DEAD)) as [Ed|Ed]; [by exists d1, OWNERSHIP_LOST, []|].
  assert (is_Some (memHandle (mBuffer d))) as Hbuf by by apply (dok_busy d Hd).
  assert (∃ d2 ev, (if decide (mRequestedState d = VISIBLE_ON_NEXT_FRAME) then set_state VISIBLE;; showWindow else mret tt) d1
             = Val d2 tt ∧ moves d1 d2 ev ∧ mRequestedState d2 ≠ DEAD ∧ is_Some (memHandle (mBuffer d2)))
    as (d2 & ev & E2 & Hm2 & Hs2 & Hb2).
  { destruct (decide (mRequestedState d = VISIBLE_ON_NEXT_FRAME)).
    - destruct (set_state_spec d1 VISIBLE (proj1 Hm1)) as (d2 & E2 & Hm2); [by rewrite S1|].
      assert (mRequestedState d2 = VISIBLE ∧ mBuffer d2 = mBuffer d1) as [S2 B2] by (injection E2 as <-; done).
      destruct (window_spec d2 true (proj1 Hm2)) as (d3 & ev & E3 & Hm3 & S3); [intros [? _]; congruence|].
      exists d3, ([] ++ ev). rewrite (bind_val _ _ _ _ _ E2). split; [exact E3|]. split; [by eapply moves_trans|].
      split; [by rewrite S3, S2|]. destruct Hm3 as (_ & _ & R3 & _).
      unfold showWindow, gets, emit in E3. run_m_in E3. destruct (mFlingerSurfaceControl (mGlWrapper d2));
        injection E3 as <-; cbn; by rewrite B2, B1.
    - exists d1, []. split; [done|]. split; [by apply moves_same; [apply Hm1|..]|]. by rewrite S1, B1. }
  rewrite (bind_val _ _ _ _ _ E2). rewrite (bind_val get _ d2 d2 d2) by done.
  assert (moves d d2 ([] ++ ev)) as Hm by by eapply moves_trans.
  destruct (decide (mRequestedState d2 = VISIBLE)); [|by exists d2, EOK, ([] ++ ev)].
  destruct (present_spec d2 created (proj1 Hm)) as (d3 & r & ev3 & E3 & Hm3); [by intros [? _]|done|].
  exists d3, r, (([] ++ ev) ++ ev3). split; [exact E3|]. by eapply moves_trans.
Qed.

(** ** The enumerator *)

(** *** Which devices are cameras *)

Definition fourcc (a b c d : Z) : Z := a + 256 * b + 65536 * c + 16777216 * d.
Definition V4L2_CAP_VIDEO_CAPTURE : Z := 1.
Definition V4L2_CAP_STREAMING : Z := 67108864.
Definition usable_formats : list Z :=
  [fourcc 89 85 89 86;     (* YUYV *)
   fourcc 78 86 50 49;     (* NV21 *)
   fourcc 78 86 49 54;     (* NV16 *)
   fourcc 89 86 49 50;     (* YVU420 *)
   fourcc 82 71 66 52;     (* RGB32 *)
   fourcc 66 65 50 52;     (* ARGB32 *)
   fourcc 66 88 50 52].    (* XRGB32 *)

(** The kernel's answers: the descriptor, VIDIOC_QUERYCAP, and the formats VIDIOC_ENUM_FMT
    gives until it fails. *)
Record device_env : Type := MkDevice { v_fd : Z; v_caps : option Z; v_formats : list Z }.

Definition qualifyCaptureDevice (e : device_env) : bool :=
  if decide (v_fd e < 0) then false
  else
    match v_caps e with
    | None => false
    | Some caps =>
        if decide (Z.land caps V4L2_CAP_VIDEO_CAPTURE = 0 ∨ Z.land caps V4L2_CAP_STREAMING = 0) then false
        else existsb (λ f, bool_decide (f ∈ usable_formats)) (v_formats e)
    end.

(** *** State *)

Record CameraRecord : Type := MkCameraRecord { desc_id : string; activeInstance : option Z }.
Record CameraObject : Type := MkCameraObject { co_id : string; co_camera : EvsV4lCamera; co_live : bool }.
Record DisplayObject : Type := MkDisplayObject { do_display : EvsGlDisplay; do_live : bool }.

Record EvsEnumerator : Type := MkEnumerator {
  sCameraList : list CameraRecord;
  sActiveDisplay : option Z;               (* weak *)
  cameras : gmap Z CameraObject;
  displays : gmap Z DisplayObject;
  screen_log : list gfx_event;
}.
Definition no_enumerator : EvsEnumerator := MkEnumerator [] None ∅ ∅ [].

Definition set_list (l : list CameraRecord) : M EvsEnumerator unit :=
  modify (λ e, MkEnumerator l (sActiveDisplay e) (cameras e) (displays e) (screen_log e)).
Definition set_active_display (a : option Z) : M EvsEnumerator unit :=
  modify (λ e, MkEnumerator (sCameraList e) a (cameras e) (displays e) (screen_log e)).
Definition set_camera (a : Z) (c : CameraObject) : M EvsEnumerator unit :=
  modify (λ e, MkEnumerator (sCameraList e) (sActiveDisplay e) (<[a := c]> (cameras e)) (displays e) (screen_log e)).
Definition set_display (a : Z) (d : DisplayObject) : M EvsEnumerator unit :=
  modify (λ e, MkEnumerator (sCameraList e) (sActiveDisplay e) (cameras e) (<[a := d]> (displays e)) (screen_log e)).

(** A call on an object of a heap; a display's call adds to the log of the screen. *)
Definition in_camera {A} (a : Z) (m : M EvsV4lCamera A) : M EvsEnumerator A := λ e,
  match cameras e !! a with
  | None => Ub
  | Some o =>
      let put c := MkEnumerator (sCameraList e) (sActiveDisplay e)
                     (<[a := MkCameraObject (co_id o) c (co_live o)]> (cameras e)) (displays e) (screen_log e) in
      match m (co_camera o) with
      | Val c x => Val (put c) x
      | Exc c x => Exc (put c) x
      | Ub => Ub
      end
  end.
Definition with_log (l : list gfx_event) (d : EvsGlDisplay) : EvsGlDisplay :=
  MkDisplay (mBuffer d) (mBufferSize d) (mBufferStride d) (mFrameBusy d) (mRequestedState d) (mGlWrapper d) l.
Definition in_display {A} (a : Z) (m : M EvsGlDisplay A) : M EvsEnumerator A := λ e,
  match displays e !! a with
  | None => Ub
  | Some o =>
      let put d := MkEnumerator (sCameraList e) (sActiveDisplay e) (cameras e)
                     (<[a := MkDisplayObject (with_log [] d) (do_live o)]> (displays e)) (glog d) in
      match m (with_log (screen_log e) (do_display o)) with
      | Val d x => Val (put d) x
      | Exc d x => Exc (put d) x
      | Ub => Ub
      end
  end.

(** *** Its operations *)

(** The entries of /dev with what the kernel says of each; without /dev the directory
    pointer that is read is null.  Every client's instance adds to the one list. *)
Definition EvsEnumerator_new (dev : option (list (string * device_env))) : M EvsEnumerator unit :=
  match dev with
  | None => undefined
  | Some entries =>
      for_each entries (λ p,
        if String.prefix "video" p.1 then
          if qualifyCaptureDevice p.2 then
            e ← get; set_list (sCameraList e ++ [MkCameraRecord ("/dev/" +:+ p.1) None])
          else mret tt
        else mret tt)
  end.

Definition getCameraList : M EvsEnumerator (list string) := e ← get; mret (desc_id <$> sCameraList e).

Definition findCameraById (l : list CameraRecord) (id : string) : option nat :=
  fst <$> list_find (λ r, desc_id r = id) l.

Definition promote_camera (e : EvsEnumerator) (a : option Z) : option Z :=
  a ≫= λ x, match cameras e !! x with Some o => if co_live o then Some x else None | None => None end.
Definition set_instance (i : nat) (a : option Z) : M EvsEnumerator unit :=
  e ← get; set_list (alter (λ r, MkCameraRecord (desc_id r) a) i (sCameraList e)).

Definition closeCamera (pCamera : option Z) : M EvsEnumerator unit :=
  match pCamera with
  | None => mret tt
  | Some a =>
      e ← get;
      match cameras e !! a with
      | None => undefined
      | Some o =>
          match findCameraById (sCameraList e) (co_id o) with
          | None => mret tt
          | Some i =>
              match promote_camera e (r ← sCameraList e !! i; activeInstance r) with
              | None => mret tt
              | Some active =>
                  if decide (active ≠ a) then mret tt
                  else in_camera active shutdown;; set_instance i None
              end
          end
      end
  end.

(** [a] is the address of the new object, [dev] what its device answers. *)
Definition openCamera (cameraId : string) (dev : Capture.open_env) (a : Z) : M EvsEnumerator (option Z) :=
  e ← get;
  match findCameraById (sCameraList e) cameraId with
  | None => mret None
  | Some i =>
      (match promote_camera e (r ← sCameraList e !! i; activeInstance r) with
       | Some active => closeCamera (Some active)
       | None => mret tt
       end);;
      match new_camera dev with
      | Val c _ =>
          set_camera a (MkCameraObject cameraId c true);; set_instance i (Some a);; mret (Some a)
      | _ => undefined
      end
  end.

(** The last client of a camera lets go of it. *)
Definition destroy_camera (a : Z) : M EvsEnumerator unit :=
  in_camera a shutdown;;
  e ← get;
  match cameras e !! a with
  | Some o => set_camera a (MkCameraObject (co_id o) (co_camera o) false)
  | None => mret tt
  end.

Definition promote_display (e : EvsEnumerator) : option Z :=
  a ← sActiveDisplay e;
  match displays e !! a with Some o => if do_live o then Some a else None | None => None end.

Definition closeDisplay (pDisplay : option Z) : M EvsEnumerator unit :=
  e ← get;
  match promote_display e with
  | None => mret tt
  | Some active =>
      if decide (pDisplay ≠ sActiveDisplay e) then mret tt
      else in_display active forceShutdown;; set_active_display None
  end.

Definition openDisplay (a : Z) : M EvsEnumerator Z :=
  e ← get;
  (match promote_display e with Some active => closeDisplay (Some active) | None => mret tt end);;
  set_display a (MkDisplayObject new_display true);;
  set_active_display (Some a);; mret a.

Definition enum_getDisplayState : M EvsEnumerator DisplayState :=
  e ← get;
  match promote_display e with
  | Some a => in_display a getDisplayState
  | None => mret NOT_OPEN
  end.

(** The last client of a display lets go of it. *)
Definition destroy_display (a : Z) : M EvsEnumerator unit :=
  in_display a forceShutdown;;
  e ← get;
  match displays e !! a with
  | Some o => set_display a (MkDisplayObject (do_display o) false)
  | None => mret tt
  end.

(** ** Exclusive use *)

Inductive display_call : Type :=
  | DSetState (s : DisplayState)
  | DGetState
  | DGetTarget (env : target_env)
  | DReturn (b : BufferDesc) (created : bool).
Definition run_display_call (c : display_call) : M EvsGlDisplay unit :=
  match c with
  | DSetState s => setDisplayState s;; mret tt
  | DGetState => getDisplayState;; mret tt
  | DGetTarget env => getTargetBuffer env;; mret tt
  | DReturn b created => returnTargetBufferForDisplay b created;; mret tt
  end.

(** What happens in the service; clients call objects they hold, in any order. *)
Inductive enum_step (e : EvsEnumerator) : EvsEnumerator → Prop :=
  | es_new entries e' : EvsEnumerator_new (Some entries) e = Val e' tt → enum_step e e'
  | es_open_camera id dev a r e' :
      cameras e !! a = None → openCamera id dev a e = Val e' r → enum_step e e'
  | es_close_camera p e' : closeCamera p e = Val e' tt → enum_step e e'
  | es_camera a o c t t' :
      cameras e !! a = Some o → cam_step (co_camera o, t) (c, t') →
      enum_step e (MkEnumerator (sCameraList e) (sActiveDisplay e)
                     (<[a := MkCameraObject (co_id o) c (co_live o)]> (cameras e)) (displays e) (screen_log e))
  | es_destroy_camera a e' : destroy_camera a e = Val e' tt → enum_step e e'
  | es_open_display a r e' : displays e !! a = None → openDisplay a e = Val e' r → enum_step e e'
  | es_close_display p e' : closeDisplay p e = Val e' tt → enum_step e e'
  | es_display a c e' : in_display a (run_display_call c) e = Val e' tt → enum_step e e'
  | es_destroy_display a e' : destroy_display a e = Val e' tt → enum_step e e'.
Inductive enum_reach : EvsEnumerator → Prop :=
  | er_start : enum_reach no_enumerator
  | er_step e e' : enum_reach e → enum_step e e' → enum_reach e'.

(** The buffer of the display's owner. *)
Definition owner_buffer (e : EvsEnumerator) : option Z :=
  a ← promote_display e; o ← displays e !! a; memHandle (mBuffer (do_display o)).

Record displays_ok (e : EvsEnumerator) : Prop := {
  dsp_ok a o : displays e !! a = Some o → display_ok (do_display o);
  dsp_gone a o : displays e !! a = Some o → promote_display e ≠ Some a → gone (do_display o);
  dsp_log : replay None (screen_log e) = Some (owner_buffer e);
}.

Lemma display_ok_log l d : display_ok d → display_ok (with_log l d).
Proof. intros [? ? ?]. by split. Qed.
Lemma call_safe_bind {A B} (m : M EvsGlDisplay A) (b : B) : call_safe m → call_safe (m;; mret b).
Proof.
  intros Hm d Hd. destruct (Hm d Hd) as (d' & r & ev & E & Hmv). exists d', b, ev.
  by rewrite (bind_val _ _ _ _ _ E).
Qed.
Lemma display_call_safe c : call_safe (run_display_call c).
Proof.
  destruct c; cbn [run_display_call]; apply call_safe_bind.
  - apply setDisplayState_spec.
  - intros d Hd. eexists _, _, []. split; [reflexivity|]. by apply moves_same.
  - apply getTargetBuffer_spec.
  - apply returnTarget_spec.
Qed.

Lemma promote_display_spec e a :
  promote_display e = Some a ↔ sActiveDisplay e = Some a ∧ ∃ o, displays e !! a = Some o ∧ do_live o = true.
Proof.
  unfold promote_display. destruct (sActiveDisplay e) as [x|]; cbn [mbind option_bind].
  - destruct (displays e !! x) as [o|] eqn:Eo.
    + destruct (do_live o) eqn:El.
      * split; [intros [= <-]; by eauto|]. by intros [[= <-] _].
      * split; [done|]. intros [[= <-] (o' & E & L)]. congruence.
    + split; [done|]. intros [[= <-] (o' & E & L)]. congruence.
  - split; [done|]. by intros [? _].
Qed.

(** A safe call on any display keeps the invariant. *)
Lemma in_display_ok {A} (m : M EvsGlDisplay A) a o e :
  call_safe m → displays_ok e → displays e !! a = Some o →
  ∃ d r, in_display a m e = Val (MkEnumerator (sCameraList e) (sActiveDisplay e) (cameras e)
                     (<[a := MkDisplayObject (with_log [] d) (do_live o)]> (displays e)) (glog d)) r
    ∧ (∃ ev, moves (with_log (screen_log e) (do_display o)) d ev)
    ∧ m (with_log (screen_log e) (do_display o)) = Val d r
    ∧ displays_ok (MkEnumerator (sCameraList e) (sActiveDisplay e) (cameras e)
                     (<[a := MkDisplayObject (with_log [] d) (do_live o)]> (displays e)) (glog d)).
Proof.
  intros Hm [Hok Hgone Hlog] Ha. unfold in_display. rewrite Ha.
  destruct (Hm (with_log (screen_log e) (do_display o))) as (d & r & ev & E & Hmv);
    [apply display_ok_log, (Hok a o Ha)|].
  rewrite E. exists d, r. split; [done|]. split; [by exists ev|]. split; [done|].
  destruct Hmv as (Hd & Hl & Hr & Hg). cbn [glog with_log mBuffer] in Hl, Hr.
  set (e' := MkEnumerator _ _ _ _ _).
  assert (∀ x, promote_display e' = Some x ↔ promote_display e = Some x) as Hp.
  { intros x. rewrite !promote_display_spec. cbn. split; intros [Hx (o' & E' & L)]; (split; [done|]).
    - destruct (decide (x = a)) as [->|Hne].
      + rewrite lookup_insert_eq in E'. injection E' as <-. by exists o.
      + rewrite lookup_insert_ne in E' by done. by exists o'.
    - destruct (decide (x = a)) as [->|Hne].
      + rewrite Ha in E'. injection E' as <-. eexists. by rewrite lookup_insert_eq.
      + exists o'. by rewrite lookup_insert_ne. }
  split.
  - intros x o' Hx. cbn in Hx. destruct (decide (x = a)) as [->|Hne].
    + rewrite lookup_insert_eq in Hx. injection Hx as <-. cbn. by apply display_ok_log.
    + rewrite lookup_insert_ne in Hx by done. by apply (Hok x).
  - intros x o' Hx Hn. rewrite Hp in Hn. cbn in Hx. destruct (decide (x = a)) as [->|Hne].
    + rewrite lookup_insert_eq in Hx. injection Hx as <-. cbn.
      destruct Hg as [[? ?] _]; [|by split]. exact (Hgone a o Ha Hn).
    + rewrite lookup_insert_ne in Hx by done. by apply (Hgone x).
  - cbn [screen_log e']. rewrite Hl, replay_app, Hlog. cbn [mbind option_bind].
    destruct (decide (promote_display e = Some a)) as [Ep|Ep].
    + assert (owner_buffer e = memHandle (mBuffer (do_display o))) as Ho by (unfold owner_buffer; rewrite Ep; cbn; by rewrite Ha).
      rewrite Ho. apply Hp in Ep. rewrite Hr. unfold owner_buffer. rewrite Ep. cbn. by rewrite lookup_insert_eq.
    + destruct Hg as [_ ->]; [exact (Hgone a o Ha Ep)|]. cbn [replay]. f_equal. unfold owner_buffer.
      destruct (promote_display e) as [x|] eqn:Ex.
      * rewrite (proj2 (Hp x) eq_refl). cbn. by rewrite lookup_insert_ne by congruence.
      * destruct (promote_display e') as [x|] eqn:Ex'; [|done]. discriminate (proj1 (Hp x) eq_refl).
Qed.

Lemma forceShutdown_safe : call_safe forceShutdown.
Proof. intros d Hd. destruct (forceShutdown_spec d Hd) as (d' & ev & E & Hm & _). by exists d', tt, ev. Qed.

(** Letting go of an owner that has nothing any more. *)
Lemma displays_ok_drop e active' :
  displays_ok e → (∀ a o, promote_display e = Some a → displays e !! a = Some o → gone (do_display o)) →
  (∀ a o, active' = Some a → displays e !! a = Some o → gone (do_display o)) →
  displays_ok (MkEnumerator (sCameraList e) active' (cameras e) (displays e) (screen_log e)).
Proof.
  intros [H1 H2 H3] Hg Hg'.
  assert (∀ a o, displays e !! a = Some o → gone (do_display o)) as Hall.
  { intros a o Ha. destruct (decide (promote_display e = Some a)); [by apply (Hg a)|by apply (H2 a)]. }
  split; cbn; [done|by intros a o Ha _; apply (Hall a)|].
  rewrite H3. f_equal. unfold owner_buffer. cbn.
  assert (∀ x : option Z, (a ← x; o ← displays e !! a; memHandle (mBuffer (do_display o))) = None) as Hn.
  { intros [x|]; [|done]. cbn. destruct (displays e !! x) as [o|] eqn:Ex; [|done]. cbn. apply (Hall x o Ex). }
  by rewrite !Hn.
Qed.

Lemma closeDisplay_ok p e :
  displays_ok e →
  ∃ e', closeDisplay p e = Val e' tt ∧ displays_ok e' ∧ sCameraList e' = sCameraList e ∧ cameras e' = cameras e
    ∧ dom (displays e') = dom (displays e)
    ∧ (p = promote_display e → is_Some p → promote_display e' = None).
Proof.
  intros Hd. unfold closeDisplay. rewrite (bind_val get _ e e e) by done.
  destruct (promote_display e) as [a|] eqn:Ep; [|exists e; by split_and!; [..|intros ->; intros [? ?]]].
  pose proof Ep as (Ea & o & Ho & Hl)%promote_display_spec. rewrite Ea.
  destruct (decide (p ≠ Some a)) as [Hne|Heq]; [exists e; by split_and!|].
  destruct (in_display_ok forceShutdown a o e forceShutdown_safe Hd Ho) as (d & [] & E & _ & Ef & Hd').
  rewrite (bind_val _ _ _ _ _ E). unfold set_active_display. eexists. split; [reflexivity|]. cbn [sCameraList cameras displays screen_log].
  destruct (forceShutdown_spec (with_log (screen_log e) (do_display o))) as (d1 & ev & E1 & _ & Hg);
    [apply display_ok_log, (dsp_ok e Hd a o Ho)|].
  assert (d1 = d) as -> by congruence.
  split; [|split_and!; [done|done| |done]].
  - refine (displays_ok_drop _ None Hd' _ _); [|done].
    intros x o' Hx Ho'. apply promote_display_spec in Hx as [Hx _]. cbn in Hx, Ho'.
    assert (x = a) as -> by congruence. rewrite lookup_insert_eq in Ho'. injection Ho' as <-. exact Hg.
  - rewrite dom_insert_L. apply elem_of_dom_2 in Ho. set_solver.
Qed.

Lemma openDisplay_ok a e :
  displays_ok e → displays e !! a = None →
  ∃ e', openDisplay a e = Val e' a ∧ displays_ok e' ∧ sCameraList e' = sCameraList e ∧ cameras e' = cameras e
    ∧ promote_display e' = Some a ∧ displays e' !! a = Some (MkDisplayObject new_display true).
Proof.
  intros Hd Ha. unfold openDisplay. rewrite (bind_val get _ e e e) by done.
  assert (∃ e1, (match promote_display e with Some active => closeDisplay (Some active) | None => mret tt end) e = Val e1 tt
            ∧ displays_ok e1 ∧ sCameraList e1 = sCameraList e ∧ cameras e1 = cameras e
            ∧ dom (displays e1) = dom (displays e) ∧ promote_display e1 = None)
    as (e1 & E1 & Hd1 & L1 & C1 & D1 & P1).
  { destruct (promote_display e) as [x|] eqn:Ep; [|by exists e].
    destruct (closeDisplay_ok (Some x) e Hd) as (e1 & E1 & ? & ? & ? & ? & Hp). exists e1.
    split_and!; [done..|]. by apply Hp; [rewrite Ep|]. }
  rewrite (bind_val _ _ _ _ _ E1). unfold set_display, set_active_display. run_m. cbn [sCameraList cameras displays screen_log sActiveDisplay].
  eexists. split; [reflexivity|]. cbn [sCameraList cameras displays].
  assert (displays e1 !! a = None) as Ha1 by (apply not_elem_of_dom; rewrite D1; by apply not_elem_of_dom).
  assert (promote_display (MkEnumerator (sCameraList e1) (Some a) (cameras e1)
            (<[a := MkDisplayObject new_display true]> (displays e1)) (screen_log e1)) = Some a) as Hp.
  { apply promote_display_spec. cbn. split; [done|]. eexists. by rewrite lookup_insert_eq. }
  split; [|split_and!; [done|done|exact Hp|by rewrite lookup_insert_eq]].
  destruct Hd1 as [H1 H2 H3]. split.
  - intros x o Hx. cbn in Hx. destruct (decide (x = a)) as [->|Hne].
    + rewrite lookup_insert_eq in Hx. injection Hx as <-. apply new_display_ok.
    + rewrite lookup_insert_ne in Hx by done. by apply (H1 x).
  - intros x o Hx Hn. rewrite Hp in Hn. cbn in Hx. rewrite lookup_insert_ne in Hx by congruence.
    apply (H2 x o Hx). by rewrite P1.
  - cbn [screen_log]. rewrite H3. f_equal. unfold owner_buffer. rewrite Hp, P1. cbn. by rewrite lookup_insert_eq.
Qed.

Lemma destroyDisplay_ok a o e :
  displays_ok e → displays e !! a = Some o →
  ∃ e', destroy_display a e = Val e' tt ∧ displays_ok e' ∧ sCameraList e' = sCameraList e ∧ cameras e' = cameras e.
Proof.
  intros Hd Ho. unfold destroy_display.
  destruct (in_display_ok forceShutdown a o e forceShutdown_safe Hd Ho) as (d & [] & E & _ & Ef & Hd').
  destruct (forceShutdown_spec (with_log (screen_log e) (do_display o))) as (d1 & ev & E1 & _ & Hg);
    [apply display_ok_log, (dsp_ok e Hd a o Ho)|].
  assert (d1 = d) as -> by congruence. clear E1.
  rewrite (bind_val _ _ _ _ _ E). unfold set_display. run_m. cbn [displays sCameraList cameras sActiveDisplay screen_log].
  rewrite lookup_insert_eq. eexists. split; [reflexivity|]. cbn [sCameraList cameras]. split; [|done].
  cbn [do_display displays sCameraList cameras sActiveDisplay screen_log]. rewrite insert_insert_eq.
  set (e1 := MkEnumerator _ _ _ _ _) in Hd'. set (e2 := MkEnumerator _ _ _ _ _).
  assert (∀ x o', displays e2 !! x = Some o' → ∃ o1, displays e1 !! x = Some o1 ∧ do_display o1 = do_display o'
            ∧ (x ≠ a → o1 = o')) as Hsame.
  { intros x o' Hx. cbn in Hx |- *. destruct (decide (x = a)) as [->|Hne].
    - rewrite lookup_insert_eq in Hx. injection Hx as <-. eexists. by rewrite lookup_insert_eq.
    - rewrite lookup_insert_ne in Hx by done. exists o'. by rewrite lookup_insert_ne. }
  assert (∀ x, promote_display e1 = Some x → x ≠ a → promote_display e2 = Some x) as Hp.
  { intros x (Hx & o1 & Ho1 & L)%promote_display_spec Hne. apply promote_display_spec. split; [exact Hx|].
    exists o1. cbn in Ho1 |- *. rewrite lookup_insert_ne in Ho1 |- * by done. done. }
  assert (∀ x, promote_display e2 = Some x → promote_display e1 = Some x ∧ x ≠ a) as Hp2.
  { intros x (Hx & o2 & Ho2 & L)%promote_display_spec. cbn in Ho2. destruct (decide (x = a)) as [->|Hne].
    - rewrite lookup_insert_eq in Ho2. injection Ho2 as <-. done.
    - split; [|done]. apply promote_display_spec. split; [exact Hx|]. exists o2. cbn.
      rewrite lookup_insert_ne in Ho2 |- * by done. done. }
  destruct Hd' as [H1 H2 H3]. split.
  - intros x o' (o1 & Ho1 & <- & _)%Hsame. by apply (H1 x).
  - intros x o' Hx Hn. destruct (decide (x = a)) as [->|Hne].
    + cbn in Hx. rewrite lookup_insert_eq in Hx. injection Hx as <-. exact Hg.
    + destruct (Hsame x o' Hx) as (o1 & Ho1 & <- & _). apply (H2 x o1 Ho1). intros Hx1. by apply Hn, Hp.
  - cbn [screen_log e2]. change (glog d) with (screen_log e1). rewrite H3. f_equal. unfold owner_buffer.
    destruct (promote_display e2) as [x|] eqn:E2.
    + destruct (Hp2 x eq_refl) as [-> Hne]. cbn. by rewrite !lookup_insert_ne by done.
    + destruct (promote_display e1) as [x|] eqn:Ex; [|done]. cbn.
      destruct (decide (x = a)) as [->|Hne]; [|discriminate (Hp x eq_refl Hne)].
      rewrite lookup_insert_eq. cbn. apply Hg.
Qed.

(** *** Cameras *)

Definition is_open (o : CameraObject) : bool := Capture.isOpen (mVideo (co_camera o)).
Definition is_active (l : list CameraRecord) (id : string) (a : Z) : Prop :=
  ∃ i r, findCameraById l id = Some i ∧ l !! i = Some r ∧ activeInstance r = Some a.

Record cameras_ok (e : EvsEnumerator) : Prop := {
  cam_open a o : cameras e !! a = Some o → is_open o = true → co_live o = true ∧ is_active (sCameraList e) (co_id o) a;
  cam_active i r a : sCameraList e !! i = Some r → activeInstance r = Some a →
    ∃ o, cameras e !! a = Some o ∧ co_id o = desc_id r;
}.

Lemma find_spec l id i :
  findCameraById l id = Some i →
  ∃ r, l !! i = Some r ∧ desc_id r = id.
Proof. unfold findCameraById. intros ([j r] & E & ->)%fmap_Some. apply list_find_Some in E as (H1 & H2 & _). by exists r. Qed.
Lemma find_app l l2 id i : findCameraById l id = Some i → findCameraById (l ++ l2) id = Some i.
Proof.
  unfold findCameraById. intros ([j r] & E & ->)%fmap_Some. apply fmap_Some. exists (j, r). split; [|done].
  by apply list_find_app_l.
Qed.
Lemma find_alter l id j a :
  findCameraById (alter (λ r, MkCameraRecord (desc_id r) a) j l) id = findCameraById l id.
Proof.
  unfold findCameraById. revert j. induction l as [|r l IH]; intros [|j]; [done|done| |].
  - cbn. by destruct (decide (desc_id r = id)).
  - cbn. destruct (decide (desc_id r = id)); [done|]. specialize (IH j).
    destruct (list_find _ (alter _ j l)) as [[? ?]|], (list_find _ l) as [[? ?]|]; cbn in *; congruence.
Qed.

(** Objects may close; others stay as they are. *)
Lemma cameras_ok_object e a o o' :
  cameras_ok e → cameras e !! a = Some o → co_id o' = co_id o →
  (is_open o' = true → is_open o = true ∧ co_live o' = co_live o) →
  cameras_ok (MkEnumerator (sCameraList e) (sActiveDisplay e) (<[a := o']> (cameras e)) (displays e) (screen_log e)).
Proof.
  intros [H1 H2] Ha Eid Ho. split; cbn.
  - intros x y Hx Hop. destruct (decide (x = a)) as [->|Hne].
    + rewrite lookup_insert_eq in Hx. injection Hx as <-. destruct (Ho Hop) as [Hop' ->]. rewrite Eid. by apply H1.
    + rewrite lookup_insert_ne in Hx by done. by apply H1.
  - intros i r x Hi Hr. destruct (H2 i r x Hi Hr) as (y & Hy & Ey). destruct (decide (x = a)) as [->|Hne].
    + exists o'. rewrite lookup_insert_eq. split; [done|]. congruence.
    + exists y. by rewrite lookup_insert_ne.
Qed.
(** An instance of a record that is not open any more may be forgotten. *)
Lemma cameras_ok_forget e i :
  cameras_ok e →
  (∀ r a o, sCameraList e !! i = Some r → activeInstance r = Some a → cameras e !! a = Some o → is_open o = false) →
  cameras_ok (MkEnumerator (alter (λ r, MkCameraRecord (desc_id r) None) i (sCameraList e)) (sActiveDisplay e)
                (cameras e) (displays e) (screen_log e)).
Proof.
  intros [H1 H2] Hi. split; cbn.
  - intros a o Ha Hop. destruct (H1 a o Ha Hop) as [Hl (j & r & Ej & Hr & Er)]. split; [done|].
    exists j, r. rewrite find_alter. split; [done|]. split; [|done].
    rewrite list_lookup_alter_ne; [done|]. intros <-. specialize (Hi r a o Hr Er Ha). congruence.
  - intros j r a Hj Er. destruct (decide (j = i)) as [->|Hne].
    + rewrite list_lookup_alter_eq in Hj. apply fmap_Some in Hj as (r' & _ & ->). done.
    + rewrite list_lookup_alter_ne in Hj by done. by apply (H2 j).
Qed.

Lemma closed_video {A} (m : M Capture.VideoCapture A) c c' x :
  (∀ v v' y, m v = Val v' y → Capture.mDeviceFd v' = Capture.mDeviceFd v) → in_video m c = Val c' x →
  Capture.mDeviceFd (mVideo c') = Capture.mDeviceFd (mVideo c).
Proof.
  intros Hm. unfold in_video, zoom. destruct (m (mVideo c)) as [v y|v y|] eqn:E; [|done|done].
  intros [= <- _]. exact (Hm _ _ _ E).
Qed.
Lemma stop_fd c c' x : stopVideoStream c = Val c' x → Capture.mDeviceFd (mVideo c') = Capture.mDeviceFd (mVideo c).
Proof.
  unfold stopVideoStream. intros E. unfold mbind at 1, M_bind at 1 in E.
  destruct (in_video Capture.stopStream c) as [c1 y|c1 y|] eqn:E1; [|done|done].
  apply closed_video in E1 as E1'.
  - injection E as <- _. destruct (mStream c1); exact E1'.
  - intros v v' z. unfold Capture.stopStream, Capture.fetch_or, Capture.join, Capture.unmap_all, Capture.set_mode,
      Capture.set_pixels, Capture.set_callback, Capture.set_thread. run_m.
    destruct (Capture.mRunMode v); [|done]. cbv beta iota.
    repeat case_decide; [by intros [= <- _]..|]. cbn. destruct (Capture.mCaptureThread v); by intros [= <- _].
Qed.
Lemma shutdown_closes c c' x : shutdown c = Val c' x → Capture.isOpen (mVideo c') = false.
Proof.
  unfold shutdown. intros E. unfold mbind at 1, M_bind at 1 in E.
  destruct (stopVideoStream c) as [c1 y|c1 y|]; [|done|done]. revert E.
  unfold in_video, Capture.close, Capture.set_fd. run_m.
  destruct (Capture.isOpen (mVideo c1)) eqn:Eo; intros [= <- _]; [done|exact Eo].
Qed.
Lemma closed_step c t c' t' :
  cam_step (c, t) (c', t') → Capture.isOpen (mVideo c) = false → Capture.isOpen (mVideo c') = false.
Proof.
  intros Hs Ho. inversion Hs as [? ? ? ? ? ? E|? ? ? ? ? ? ? E|? ? ? ? ? ? E|? ? E|? ? E|? dq ? ? ? E|? ? ? ? E|? ? lk dl ? E]; subst.
  - revert E. unfold setMaxFramesInFlight. run_m. rewrite Ho. by intros [= <- _].
  - revert E. unfold startVideoStream. run_m. rewrite Ho. by intros [= <- _].
  - revert E. unfold doneWithFrame. run_m. rewrite Ho. by intros [= <-].
  - apply stop_fd in E. unfold Capture.isOpen in *. by rewrite E.
  - by eapply shutdown_closes.
  - apply closed_video in E as E'; [unfold Capture.isOpen in *; by rewrite E'|].
    intros v v' z. unfold Capture.collectFrames_step, Capture.set_ready, Capture.set_mode, Capture.set_thread. run_m.
    destruct (decide _); [destruct dq|]; by intros [= <- _].
  - revert E. unfold forwardFrame_begin. run_m. destruct (decide _); [by intros [= <- _]|].
    destruct (list_find _ _) as [[? ?]|]; by intros [= <- _].
  - revert E. unfold forwardFrame_end, in_video, Capture.returnFrame, Capture.set_ready. run_m.
    destruct (mBuffers c !! _), (mFillBufferFromVideo c), (mStream c); try done. destruct lk; [|done].
    destruct dl; by intros [= <-].
Qed.

(** What a call leaves alone. *)
Definition same_displays (e e' : EvsEnumerator) : Prop :=
  sActiveDisplay e' = sActiveDisplay e ∧ displays e' = displays e ∧ screen_log e' = screen_log e.
Definition same_cameras (e e' : EvsEnumerator) : Prop :=
  sCameraList e' = sCameraList e ∧ cameras e' = cameras e.
Lemma displays_ok_same e e' : same_displays e e' → displays_ok e → displays_ok e'.
Proof.
  intros (E1 & E2 & E3) [H1 H2 H3].
  assert (promote_display e' = promote_display e) as Ep by (unfold promote_display; by rewrite E1, E2).
  split; rewrite ?E2, ?Ep, ?E3; [done|done|]. rewrite H3. f_equal. unfold owner_buffer. by rewrite Ep, E2.
Qed.
Lemma cameras_ok_same e e' : same_cameras e e' → cameras_ok e → cameras_ok e'.
Proof. intros (E1 & E2) [H1 H2]. by split; rewrite ?E1, ?E2. Qed.

Lemma camera_object_inv {A} a (m : M EvsV4lCamera A) e e' x :
  in_camera a m e = Val e' x →
  ∃ o c, cameras e !! a = Some o ∧ m (co_camera o) = Val c x
    ∧ e' = MkEnumerator (sCameraList e) (sActiveDisplay e) (<[a := MkCameraObject (co_id o) c (co_live o)]> (cameras e))
             (displays e) (screen_log e).
Proof.
  unfold in_camera. destruct (cameras e !! a) as [o|]; [|done]. destruct (m (co_camera o)) as [c y|c y|] eqn:E; [|done|done].
  intros [= <- <-]. by exists o, c.
Qed.

Lemma promote_camera_spec e x a :
  promote_camera e x = Some a → x = Some a ∧ ∃ o, cameras e !! a = Some o ∧ co_live o = true.
Proof.
  unfold promote_camera. destruct x as [y|]; [|done]. cbn. destruct (cameras e !! y) as [o|] eqn:Eo; [|done].
  destruct (co_live o) eqn:El; [|done]. intros [= <-]. by eauto.
Qed.

Lemma closeCamera_ok p e e' :
  cameras_ok e → closeCamera p e = Val e' tt →
  same_displays e e' ∧ cameras_ok e' ∧ dom (cameras e') = dom (cameras e)
  ∧ (∀ id, findCameraById (sCameraList e') id = findCameraById (sCameraList e) id)
  ∧ (∀ a o, p = Some a → cameras e' !! a = Some o → is_open o = false)
  ∧ (∀ a o, cameras e' !! a = Some o → is_open o = true → cameras e !! a = Some o).
Proof.
  intros Hc. unfold closeCamera. destruct p as [a|]; [|intros [= <-]; by split_and!].
  rewrite (bind_val get _ e e e) by done. destruct (cameras e !! a) as [o|] eqn:Ea; [|done].
  assert (is_open o = false →
    same_displays e e ∧ cameras_ok e ∧ dom (cameras e) = dom (cameras e)
    ∧ (∀ id, findCameraById (sCameraList e) id = findCameraById (sCameraList e) id)
    ∧ (∀ x y, Some a = Some x → cameras e !! x = Some y → is_open y = false)
    ∧ (∀ x y, cameras e !! x = Some y → is_open y = true → cameras e !! x = Some y)) as Hclosed.
  { intros Ho. split_and!; [done..| |done]. intros x y [= <-]. rewrite Ea. by intros [= <-]. }
  assert (∀ i, is_open o = true → findCameraById (sCameraList e) (co_id o) = Some i →
            promote_camera e (r ← sCameraList e !! i; activeInstance r) = Some a) as Hact.
  { intros i Ho Ei. destruct (cam_open e Hc a o Ea Ho) as [Hl (j & r & Ej & Hr & Er)].
    assert (j = i) as -> by congruence. rewrite Hr. cbn. rewrite Er. unfold promote_camera. cbn. by rewrite Ea, Hl. }
  destruct (findCameraById (sCameraList e) (co_id o)) as [i|] eqn:Ei.
  2: { intros [= <-]. apply Hclosed. destruct (is_open o) eqn:Ho; [|done].
       destruct (cam_open e Hc a o Ea Ho) as [_ (j & ? & Ej & _)]. congruence. }
  destruct (promote_camera e _) as [act|] eqn:Ep.
  2: { intros [= <-]. apply Hclosed. destruct (is_open o) eqn:Ho; [|done]. specialize (Hact i eq_refl eq_refl); congruence. }
  destruct (decide (act ≠ a)) as [Hne|Heq].
  { intros [= <-]. apply Hclosed. destruct (is_open o) eqn:Ho; [|done].
    specialize (Hact i eq_refl eq_refl). congruence. }
  assert (act = a) as -> by (destruct (decide (act = a)); [done|by destruct Heq]).
  unfold mbind at 1, M_bind at 1. destruct (in_camera a shutdown e) as [e1 []| |] eqn:E1; [|done|done].
  apply camera_object_inv in E1 as (o1 & c & Ho1 & Es & ->). assert (o1 = o) as -> by congruence.
  apply shutdown_closes in Es. unfold set_instance, set_list. run_m. intros [= <-].
  cbn [sCameraList sActiveDisplay cameras displays screen_log].
  set (o' := MkCameraObject (co_id o) c (co_live o)).
  assert (is_open o' = false) as Ho' by exact Es.
  pose proof (cameras_ok_object e a o o' Hc Ea eq_refl) as Hc1. rewrite Ho' in Hc1. specialize (Hc1 ltac:(done)).
  split; [done|]. split_and!.
  - refine (cameras_ok_forget _ i Hc1 _). cbn. intros r x y Hr Er Hx.
    apply promote_camera_spec in Ep as [Ep _]. rewrite Hr in Ep. cbn in Ep.
    assert (x = a) as -> by congruence. rewrite lookup_insert_eq in Hx. by injection Hx as <-.
  - cbn. rewrite dom_insert_L. apply elem_of_dom_2 in Ea. set_solver.
  - intros id. cbn. apply find_alter.
  - intros x y [= <-]. cbn. rewrite lookup_insert_eq. by intros [= <-].
  - cbn. intros x y Hx Hop. destruct (decide (x = a)) as [->|Hne].
    + rewrite lookup_insert_eq in Hx. injection Hx as <-. congruence.
    + by rewrite lookup_insert_ne in Hx.
Qed.

Lemma openCamera_ok id dev a e e' r :
  cameras_ok e → cameras e !! a = None → openCamera id dev a e = Val e' r → same_displays e e' ∧ cameras_ok e'.
Proof.
  intros Hc Ha. unfold openCamera. rewrite (bind_val get _ e e e) by done.
  destruct (findCameraById (sCameraList e) id) as [i|] eqn:Ei; [|by intros [= <- _]].
  unfold mbind at 1, M_bind at 1.
  set (close := match promote_camera e _ with Some active => _ | None => _ end).
  assert (∀ e1, close e = Val e1 tt → same_displays e e1 ∧ cameras_ok e1 ∧ dom (cameras e1) = dom (cameras e)
            ∧ findCameraById (sCameraList e1) id = Some i
            ∧ ∀ x y, cameras e1 !! x = Some y → is_open y = true → co_id y ≠ id) as Hclose.
  { intros e1. unfold close.
    assert (∀ x y, cameras e !! x = Some y → is_open y = true → co_id y = id →
              promote_camera e (r ← sCameraList e !! i; activeInstance r) = Some x) as Hact.
    { intros x y Hx Hop <-. destruct (cam_open e Hc x y Hx Hop) as [Hl (j & r1 & Ej & Hr & Er)].
      assert (j = i) as -> by congruence. rewrite Hr. cbn. rewrite Er. unfold promote_camera. cbn. by rewrite Hx, Hl. }
    destruct (promote_camera e _) as [act|] eqn:Ep.
    - intros E1. destruct (closeCamera_ok (Some act) e e1 Hc E1) as (H1 & H2 & H3 & H4 & H5 & H6).
      split_and!; [done..|by rewrite H4|]. intros x y Hx Hop Eid.
      specialize (Hact x y (H6 x y Hx Hop) Hop Eid). injection Hact as ->.
      specialize (H5 x y eq_refl Hx). congruence.
    - intros [= <-]. split_and!; [done..|]. intros x y Hx Hop Eid. by specialize (Hact x y Hx Hop Eid). }
  destruct (close e) as [e1 []| |] eqn:E1; [|done|done].
  destruct (Hclose e1 eq_refl) as (Hs & Hc1 & Hdom & Ei1 & Hfree). clear Hclose.
  destruct (new_camera dev) as [c y|c y|]; [|done|done].
  unfold set_camera, set_instance, set_list. run_m. intros [= <- _].
  cbn [sCameraList sActiveDisplay cameras displays screen_log]. split; [exact Hs|].
  assert (cameras e1 !! a = None) as Ha1 by (apply not_elem_of_dom; rewrite Hdom; by apply not_elem_of_dom).
  destruct (find_spec _ _ _ Ei1) as (r1 & Hr1 & Er1). destruct Hc1 as [H1 H2]. split; cbn.
  - intros x y' Hx Hop. destruct (decide (x = a)) as [->|Hne].
    + rewrite lookup_insert_eq in Hx. injection Hx as <-. split; [done|]. cbn.
      exists i, (MkCameraRecord (desc_id r1) (Some a)). rewrite find_alter. split; [done|].
      split; [|done]. by rewrite list_lookup_alter_eq, Hr1.
    + rewrite lookup_insert_ne in Hx by done. destruct (H1 x y' Hx Hop) as [Hl (j & r2 & Ej & Hr & Er)].
      split; [done|]. exists j, r2. rewrite find_alter. split; [done|]. split; [|done].
      rewrite list_lookup_alter_ne; [done|]. intros ->. destruct (find_spec _ _ _ Ej) as (r3 & Hr3 & Er3).
      apply (Hfree x y' Hx Hop). congruence.
  - intros j r2 x Hj Er. destruct (decide (j = i)) as [->|Hne].
    + rewrite list_lookup_alter_eq, Hr1 in Hj. injection Hj as <-. injection Er as <-.
      eexists. by rewrite lookup_insert_eq.
    + rewrite list_lookup_alter_ne in Hj by done. destruct (H2 j r2 x Hj Er) as (y' & Hy & Ey).
      exists y'. rewrite lookup_insert_ne; [done|]. intros <-. congruence.
Qed.

Lemma cameras_ok_append e id :
  cameras_ok e →
  cameras_ok (MkEnumerator (sCameraList e ++ [MkCameraRecord id None]) (sActiveDisplay e) (cameras e) (displays e) (screen_log e)).
Proof.
  intros [H1 H2]. split; cbn.
  - intros a o Ha Ho. destruct (H1 a o Ha Ho) as [Hl (i & r & Ei & Hr & Er)]. split; [done|].
    exists i, r. split; [by apply find_app|]. split; [|done]. by apply lookup_app_l_Some.
  - intros i r a Hi Er. apply lookup_app_Some in Hi as [Hi|[_ Hi]]; [by apply (H2 i)|].
    apply list_lookup_singleton_Some in Hi as [_ <-]. done.
Qed.
Lemma new_ok entries e e' :
  cameras_ok e → EvsEnumerator_new (Some entries) e = Val e' tt → same_displays e e' ∧ cameras_ok e'.
Proof.
  unfold EvsEnumerator_new. revert e. induction entries as [|[n dev] l IH]; intros e Hc; [by intros [= <-]|].
  cbn [for_each fst snd]. destruct (String.prefix "video" n); [|exact (IH e Hc)].
  destruct (qualifyCaptureDevice dev); [|exact (IH e Hc)].
  unfold set_list. intros E. destruct (IH _ (cameras_ok_append e ("/dev/" +:+ n) Hc) E) as [Hs Hc']. done.
Qed.
Lemma destroyCamera_ok a e e' :
  cameras_ok e → destroy_camera a e = Val e' tt → same_displays e e' ∧ cameras_ok e'.
Proof.
  intros Hc. unfold destroy_camera. unfold mbind at 1, M_bind at 1.
  destruct (in_camera a shutdown e) as [e1 []| |] eqn:E1; [|done|done].
  apply camera_object_inv in E1 as (o & c & Ho & Es & ->). apply shutdown_closes in Es.
  unfold set_camera. run_m. cbn [cameras sCameraList sActiveDisplay displays screen_log]. rewrite lookup_insert_eq.
  cbn [cameras sCameraList sActiveDisplay displays screen_log]. intros [= <-]. cbn [cameras sCameraList sActiveDisplay displays screen_log].
  split; [done|]. rewrite insert_insert_eq.
  apply (cameras_ok_object e a o _ Hc Ho); [done|]. unfold is_open. cbn. by rewrite Es.
Qed.

Lemma step_inv e e' : enum_step e e' → displays_ok e → cameras_ok e → displays_ok e' ∧ cameras_ok e'.
Proof.
  intros Hs Hd Hc.
  assert (∀ x, same_displays e x ∧ cameras_ok x → displays_ok x ∧ cameras_ok x) as Hcam
    by (intros x [H1 H2]; split; [by eapply displays_ok_same|done]).
  assert (∀ x, displays_ok x → same_cameras e x → displays_ok x ∧ cameras_ok x) as Hdis
    by (intros x H1 H2; split; [done|by eapply cameras_ok_same]).
  destruct Hs as [entries e' E|id dev a r e' Ha E|p e' E|a o c t t' Ha Hst|a e' E|a r e' Ha E|p e' E|a c e' E|a e' E].
  - apply Hcam. by eapply new_ok.
  - apply Hcam. by eapply openCamera_ok.
  - apply Hcam. destruct (closeCamera_ok p e e' Hc E) as (H1 & H2 & _). done.
  - apply Hcam. split; [done|]. apply (cameras_ok_object e a o _ Hc Ha); [done|]. unfold is_open. cbn. intros Ho.
    split; [|done]. destruct (Capture.isOpen (mVideo (co_camera o))) eqn:E; [done|].
    pose proof (closed_step _ _ _ _ Hst E). congruence.
  - apply Hcam. by eapply destroyCamera_ok.
  - destruct (openDisplay_ok a e Hd Ha) as (e1 & E1 & H1 & H2 & H3 & _). assert (e1 = e') as -> by congruence. by apply Hdis.
  - destruct (closeDisplay_ok p e Hd) as (e1 & E1 & H1 & H2 & H3 & _). assert (e1 = e') as -> by congruence. by apply Hdis.
  - destruct (displays e !! a) as [o|] eqn:Ea; [|unfold in_display in E; by rewrite Ea in E].
    destruct (in_display_ok _ a o e (display_call_safe c) Hd Ea) as (d & r & E1 & _ & _ & H1).
    rewrite E1 in E. injection E as <-. by apply Hdis.
  - destruct (displays e !! a) as [o|] eqn:Ea.
    + destruct (destroyDisplay_ok a o e Hd Ea) as (e1 & E1 & H1 & H2 & H3). assert (e1 = e') as -> by congruence. by apply Hdis.
    + unfold destroy_display, mbind at 1, M_bind at 1, in_display in E. by rewrite Ea in E.
Qed.
Lemma enum_inv e : enum_reach e → displays_ok e ∧ cameras_ok e.
Proof.
  induction 1 as [|e e' _ [Hd Hc] Hs]; [|by eapply step_inv].
  split; split; cbn; [by intros ? ? ?%lookup_empty_Some..|done|by intros ? ? ?%lookup_empty_Some|].
  intros i r a Hi. by rewrite lookup_nil in Hi.
Qed.

(** C25: the driver's service, over every run of its clients (opening and closing cameras and
    the display, calls on objects that were taken away, objects dying, enumerators being
    constructed again): a camera device is open through one object at most; every display
    object but the owner's is dead and has no graphics buffer; the display buffers are
    allocated and freed one after the other, the one that is there belongs to the owner, and
    only it is ever put on the screen.  Every call on a display is defined: no EGL call is
    made with an uninitialised handle and no image of a null buffer is made. *)
Theorem evs_driver_exclusive e :
  enum_reach e →
  (∀ a b o o', cameras e !! a = Some o → cameras e !! b = Some o' → is_open o = true → is_open o' = true →
     co_id o = co_id o' → a = b)
  ∧ (∀ a o, displays e !! a = Some o → promote_display e ≠ Some a → gone (do_display o))
  ∧ replay None (screen_log e) = Some (owner_buffer e)
  ∧ (∀ a o c, displays e !! a = Some o → ∃ e', in_display a (run_display_call c) e = Val e' tt)
  ∧ (∀ p, ∃ e', closeDisplay p e = Val e' tt)
  ∧ (∀ a, displays e !! a = None → ∃ e', openDisplay a e = Val e' a ∧ promote_display e' = Some a).
Proof.
  intros Hr. apply enum_inv in Hr as [Hd Hc]. split_and!.
  - intros a b o o' Ha Hb Ho Ho' Eid.
    destruct (cam_open e Hc a o Ha Ho) as [_ (i & r & Ei & Hi & Er)].
    destruct (cam_open e Hc b o' Hb Ho') as [_ (j & r' & Ej & Hj & Er')]. congruence.
  - apply Hd.
  - apply Hd.
  - intros a o c Ha. destruct (in_display_ok _ a o e (display_call_safe c) Hd Ha) as (d & [] & E & _). by eexists.
  - intros p. destruct (closeDisplay_ok p e Hd) as (e' & E & _). by exists e'.
  - intros a Ha. destruct (openDisplay_ok a e Hd Ha) as (e' & E & _ & _ & _ & Hp & _). by exists e'.
Qed.

(** A client whose display was taken away is told so and changes nothing but its own flag. *)
Theorem display_displaced d :
  gone d →
  (∀ s, setDisplayState s d = Val d OWNERSHIP_LOST)
  ∧ (∀ env, getTargetBuffer env d = Val d nullBuff)
  ∧ (∀ b created, ∃ d' r, returnTargetBufferForDisplay b created d = Val d' r ∧ r ≠ EOK ∧ glog d' = glog d ∧ gone d').
Proof.
  intros [Hs Hb]. split_and!.
  - intros s. unfold setDisplayState. run_m. by rewrite decide_True.
  - intros env. unfold getTargetBuffer. run_m. by rewrite decide_True.
  - intros b created. unfold returnTargetBufferForDisplay, set_busy. run_m.
    destruct (decide (memHandle b = None)); [by exists d, INVALID_ARG|].
    destruct (decide (bufferId b ≠ bufferId (mBuffer d))); [by exists d, INVALID_ARG|].
    destruct (mFrameBusy d); cbn [negb]; [|by exists d, BUFFER_NOT_AVAILABLE].
    rewrite decide_True by done. eexists _, OWNERSHIP_LOST. by split.
Qed.

(** A frame of the owner: the buffer it gets is the one that is put on the screen when it
    comes back, and the window becomes visible with the first frame after it was asked for. *)
Theorem display_shows env d d1 b h :
  display_ok d → getTargetBuffer env d = Val d1 b → memHandle b = Some h →
  mRequestedState d1 = VISIBLE_ON_NEXT_FRAME ∨ mRequestedState d1 = VISIBLE →
  ∃ d2, returnTargetBufferForDisplay b true d1 = Val d2 EOK ∧ mRequestedState d2 = VISIBLE
    ∧ mFrameBusy d2 = false ∧ ∃ l, glog d2 = l ++ [GPresent (Some h)].
Proof.
  intros Hd E Hh Hs. destruct (getTargetBuffer_spec env d Hd) as (x & r & ev & E' & Hm).
  rewrite E in E'. injection E' as <- <-. destruct Hm as ([O1 O2 O3] & _).
  assert (mBuffer d1 = b ∧ mFrameBusy d1 = true) as [Eb Ef].
  { revert E. unfold getTargetBuffer. rewrite (bind_val get _ d d d) by done.
    destruct (decide (mRequestedState d = DEAD)); [intros [= _ <-]; done|].
    unfold mbind at 1, M_bind at 1. destruct (ensure_buffer env d) as [y [|]|y ?|]; cbn [negb]; [|intros [= _ <-]; done|done|done].
    unfold set_busy. run_m. destruct (mFrameBusy y); [intros [= _ <-]; done|]. by intros [= <- <-]. }
  destruct d1 as [bd sz st busy req [fl fc fs ed es ec w h' khr tm sp ti] log]. cbn in Eb, Ef, Hs, O2. subst bd busy.
  unfold returnTargetBufferForDisplay, updateImageTexture, renderImageToScreen, showWindow. run_d.
  rewrite decide_False by congruence. rewrite decide_False by (intros H; by apply H).
  rewrite decide_False by (destruct Hs as [-> | ->]; discriminate).
  destruct Hs as [-> | ->].
  - rewrite decide_True by done. destruct fc; rewrite decide_True by done;
      (destruct khr as [i|]; [destruct (O2 i eq_refl) as [Ei Et]; assert (i = h) as -> by congruence; rewrite Et|rewrite Hh]);
      eexists; (split; [reflexivity|]); cbn [mRequestedState mFrameBusy glog]; (split; [reflexivity|]); (split; [reflexivity|]); eexists; reflexivity.
  - rewrite decide_False by discriminate. rewrite decide_True by done.
    destruct khr as [i|]; [destruct (O2 i eq_refl) as [Ei Et]; assert (i = h) as -> by congruence; rewrite Et|rewrite Hh];
      eexists; (split; [reflexivity|]); cbn [mRequestedState mFrameBusy glog]; (split; [reflexivity|]); (split; [reflexivity|]); eexists; reflexivity.
Qed.

(** ** Examples *)

Definition ex_shader : shader_env := MkShaderEnv true true.
Definition ex_init : init_env :=
  MkInit true (Some (MkInfo 640 480 false)) (Some true) true true true true true true
    (MkProgramEnv true ex_shader ex_shader true) true.
(** The last GL object cannot be had. *)
Definition ex_bad_init : init_env :=
  MkInit true (Some (MkInfo 640 480 false)) (Some true) true true true true true true
    (MkProgramEnv true ex_shader ex_shader true) false.
Definition ex_target (h : Z) : target_env := MkTarget ex_init false (Some h) 640.
Definition ex_dev : device_env := MkDevice 5 (Some 67108865) [fourcc 89 85 89 86].
Definition ex_entries : list (string * device_env) :=
  [("null", ex_dev); ("video0", ex_dev); ("video1", MkDevice (-1) None [])]%string.
Definition enum_of {A} (o : outcome EvsEnumerator A) : EvsEnumerator :=
  match o with Val e _ => e | _ => no_enumerator end.

Definition ex_e1 : EvsEnumerator := Eval vm_compute in enum_of (EvsEnumerator_new (Some ex_entries) no_enumerator).
Definition ex_e2 : EvsEnumerator := Eval vm_compute in enum_of (openCamera "/dev/video0" ex_open 1 ex_e1).
Definition ex_e3 : EvsEnumerator := Eval vm_compute in enum_of (openCamera "/dev/video0" ex_open 2 ex_e2).
Definition ex_e4 : EvsEnumerator := Eval vm_compute in enum_of (openDisplay 10 ex_e3).
Definition ex_e5 : EvsEnumerator := Eval vm_compute in enum_of (in_display 10 (run_display_call (DGetTarget (ex_target 77))) ex_e4).
Definition ex_e6 : EvsEnumerator := Eval vm_compute in enum_of (in_display 10 (run_display_call (DSetState VISIBLE_ON_NEXT_FRAME)) ex_e5).
Definition ex_e7 : EvsEnumerator :=
  Eval vm_compute in enum_of (in_display 10 (run_display_call (DReturn (MkBuffer DISPLAY_BUFFER_ID (Some 77)) true)) ex_e6).
Definition ex_e8 : EvsEnumerator := Eval vm_compute in enum_of (openDisplay 11 ex_e7).

Lemma ex_e8_reach : enum_reach ex_e8.
Proof.
  apply er_step with ex_e7; [|eapply (es_open_display _ 11); vm_compute; reflexivity].
  apply er_step with ex_e6;
    [|eapply (es_display _ 10 (DReturn (MkBuffer DISPLAY_BUFFER_ID (Some 77)) true)); vm_compute; reflexivity].
  apply er_step with ex_e5; [|eapply (es_display _ 10 (DSetState VISIBLE_ON_NEXT_FRAME)); vm_compute; reflexivity].
  apply er_step with ex_e4; [|eapply (es_display _ 10 (DGetTarget (ex_target 77))); vm_compute; reflexivity].
  apply er_step with ex_e3; [|eapply (es_open_display _ 10); vm_compute; reflexivity].
  apply er_step with ex_e2; [|eapply (es_open_camera _ "/dev/video0" ex_open 2); vm_compute; reflexivity].
  apply er_step with ex_e1; [|eapply (es_open_camera _ "/dev/video0" ex_open 1); vm_compute; reflexivity].
  apply er_step with no_enumerator; [|eapply (es_new _ ex_entries); vm_compute; reflexivity].
  apply er_start.
Qed.

Lemma evs_driver_exclusive_witness :
  (∃ o, displays ex_e8 !! 10 = Some o ∧ gone (do_display o))
  ∧ replay None (screen_log ex_e8) = Some None
  ∧ screen_log ex_e8 = [GCreate; GCreate; GAlloc 77; GShow; GPresent (Some 77); GFree 77; GTerminate]
  ∧ (is_open <$> cameras ex_e8 !! 1, is_open <$> cameras ex_e8 !! 2) = (Some false, Some true).
Proof.
  destruct (evs_driver_exclusive ex_e8 ex_e8_reach) as (_ & Hg & Hl & _).
  split; [|split; [exact Hl|split; reflexivity]].
  eexists. split; [reflexivity|]. apply (Hg 10); [reflexivity|discriminate].
Defined.

(** A failed initialisation is not undone: the EGL objects of every attempt stay, and
    neither the next attempt nor the shutdown releases them. *)
Lemma init_failure_leaks :
  match (getTargetBuffer (MkTarget ex_bad_init false (Some 77) 640);;
         getTargetBuffer (MkTarget ex_bad_init false (Some 77) 640);; forceShutdown) new_display with
  | Val d _ => glog d = [GCreate; GCreate; GCreate; GCreate]
  | _ => False
  end.
Proof. vm_compute. reflexivity. Qed.

(** Constructing the enumerator again adds every camera again. *)
Lemma enumerator_twice :
  match (EvsEnumerator_new (Some ex_entries);; EvsEnumerator_new (Some ex_entries);; getCameraList) no_enumerator with
  | Val _ l => l = ["/dev/video0"; "/dev/video0"]%string
  | _ => False
  end.
Proof. vm_compute. reflexivity. Qed.

(** A shader program that fails to build leaves nothing behind; one that is built leaves
    its two shaders. *)
Lemma program_objects e :
  buildShaderProgram e []
  = if p_created e && s_created (p_vertex e) && s_compiled (p_vertex e) && s_created (p_pixel e) && s_compiled (p_pixel e)
       && p_linked e
    then Val [PixelShader; VertexShader; Program] true else Val [] false.
Proof. destruct e as [[] [[] []] [[] []] []]; reflexivity. Qed.
