(* ===== verification/EvsApp.v ===== *)
(** * EVS: the application

    Models android/hardware/xbox/evs/app: StreamHandler.{h,cpp} (the two frames the
    application may hold), VideoTex.{h,cpp} (the texture that shows the newest of them),
    RenderBase, RenderDirectView.{h,cpp} (drawing it into the display's buffer) and
    EvsStateControl.{h,cpp} (choosing what to show from the state of the car, and the loop
    of the render thread).  The EVS service is another process: the classes [CameraService] and
    [EvsService]; [EvsSystem] instantiates the first with the camera manager.  What GL, EGL
    and the vehicle answer are arguments.  Frames come in on another thread: [deliverFrame]
    is a step of its own, between the steps of the render thread. *)

From S2P Require Import Prelude EvsDriver EvsManager EvsDisplay.

(** What the application calls; cameras and streams are addresses. *)
Class CameraService (E : Type) : Type := {
  svc_setMaxFramesInFlight : Z → Z → M E EvsResult;
  svc_startVideoStream : Z → Z → M E EvsResult;
  svc_stopVideoStream : Z → M E unit;
  svc_doneWithFrame : Z → BufferDesc → M E unit;
}.
Class EvsService (E : Type) : Type := {
  svc_cameras :: CameraService E;
  svc_openCamera : string → M E (option Z);
  svc_closeCamera : Z → M E unit;
  svc_getTargetBuffer : M E BufferDesc;
  svc_returnTargetBuffer : BufferDesc → M E EvsResult;
  svc_setDisplayState : DisplayState → M E EvsResult;
}.

(** ** StreamHandler *)

Record StreamHandler : Type := MkHandler {
  mCamera : option Z;              (* null after shutdown *)
  mRunning : bool;
  slot0 : BufferDesc; slot1 : BufferDesc;      (* mBuffers *)
  mHeldBuffer : Z;
  mReadyBuffer : Z;
}.
Definition slot (h : StreamHandler) (i : Z) : option BufferDesc :=
  if decide (i = 0) then Some (slot0 h) else if decide (i = 1) then Some (slot1 h) else None.
Definition set_slot (i : Z) (b : BufferDesc) (h : StreamHandler) : StreamHandler :=
  MkHandler (mCamera h) (mRunning h) (if decide (i = 0) then b else slot0 h) (if decide (i = 1) then b else slot1 h)
    (mHeldBuffer h) (mReadyBuffer h).
Definition set_held (i : Z) (h : StreamHandler) : StreamHandler :=
  MkHandler (mCamera h) (mRunning h) (slot0 h) (slot1 h) i (mReadyBuffer h).
Definition set_ready (i : Z) (h : StreamHandler) : StreamHandler :=
  MkHandler (mCamera h) (mRunning h) (slot0 h) (slot1 h) (mHeldBuffer h) i.
Definition set_running (b : bool) (h : StreamHandler) : StreamHandler :=
  MkHandler (mCamera h) b (slot0 h) (slot1 h) (mHeldBuffer h) (mReadyBuffer h).
Definition set_cam (c : option Z) (h : StreamHandler) : StreamHandler :=
  MkHandler c (mRunning h) (slot0 h) (slot1 h) (mHeldBuffer h) (mReadyBuffer h).

(** The handler beside the service it calls. *)
Record Client (E : Type) : Type := MkClient { svc : E; hnd : StreamHandler }.
Arguments MkClient {E} _ _.
Arguments svc {E} _.
Arguments hnd {E} _.

Section handler.
Context {E : Type} {SVC : CameraService E}.

Definition call {A} (m : M E A) : M (Client E) A := zoom svc (λ e c, MkClient e (hnd c)) m.
Definition upd (f : StreamHandler → StreamHandler) : M (Client E) unit :=
  modify (λ c, MkClient (svc c) (f (hnd c))).
Definition handler : M (Client E) StreamHandler := c ← get; mret (hnd c).
(** A use of [mCamera], or of a slot by its index: undefined when it is null or outside. *)
Definition on_camera {A} (f : Z → M E A) : M (Client E) A :=
  h ← handler; match mCamera h with Some cam => call (f cam) | None => undefined end.
Definition read_slot (i : Z) : M (Client E) BufferDesc :=
  h ← handler; match slot h i with Some b => mret b | None => undefined end.

(** The constructor; the answer to the request for two buffers is ignored. *)
Definition StreamHandler_new (cam : Z) (e : E) : outcome (Client E) unit :=
  (call (svc_setMaxFramesInFlight cam 2);; mret tt)
    (MkClient e (MkHandler (Some cam) false nullBuff nullBuff (-1) (-1))).

Definition startStream (self : Z) : M (Client E) bool :=
  h ← handler;
  if mRunning h then mret true
  else
    result ← on_camera (λ cam, svc_startVideoStream cam self);
    if decide (result = EOK) then upd (set_running true);; mret true else mret false.

Definition asyncStopStream : M (Client E) unit := on_camera svc_stopVideoStream.

Definition newFrameAvailable : M (Client E) bool := h ← handler; mret (bool_decide (0 ≤ mReadyBuffer h)).

Definition getNewFrame : M (Client E) BufferDesc :=
  h ← handler;
  (if decide (0 ≤ mHeldBuffer h) then mret tt
   else
     (if decide (mReadyBuffer h < 0) then upd (set_ready 0) else mret tt);;
     h ← handler;
     upd (set_held (mReadyBuffer h));; upd (set_ready (-1)));;
  h ← handler;
  read_slot (mHeldBuffer h).

(** The buffer that is passed in is only compared. *)
Definition doneWithFrame (buffer : BufferDesc) : M (Client E) unit :=
  h ← handler;
  b ← read_slot (mHeldBuffer h);
  on_camera (λ cam, svc_doneWithFrame cam b);;
  upd (set_held (-1)).

Definition deliverFrame (buffer : BufferDesc) : M (Client E) unit :=
  match memHandle buffer with
  | None => upd (set_running false)
  | Some _ =>
      h ← handler;
      (if decide (0 ≤ mReadyBuffer h) then
         b ← read_slot (mReadyBuffer h); on_camera (λ cam, svc_doneWithFrame cam b)
       else if decide (0 ≤ mHeldBuffer h) then upd (set_ready (1 - mHeldBuffer h))
       else upd (set_ready 0));;
      h ← handler;
      if decide (mReadyBuffer h = 0 ∨ mReadyBuffer h = 1) then upd (set_slot (mReadyBuffer h) buffer)
      else undefined
  end.

(** [blockingStopStream] up to its wait; the wait ends when [mRunning] is false, and only
    then can [shutdown] drop the camera. *)
Definition blockingStopStream_begin : M (Client E) unit := asyncStopStream.
Definition wait_over (h : StreamHandler) : bool := negb (mRunning h).
Definition shutdown_end : M (Client E) unit := upd (set_cam None).

(** *** What the handler promises: a mailbox

    One frame may be held and one may wait; a newer frame replaces the waiting one, which
    goes back to the camera.  [Mailbox] is the abstract state. *)

Record Mailbox : Type := MkMailbox { held : option BufferDesc; waiting : option BufferDesc }.
Definition abs (h : StreamHandler) : Mailbox := MkMailbox (slot h (mHeldBuffer h)) (slot h (mReadyBuffer h)).

Record handler_ok (h : StreamHandler) : Prop := {
  hok_held : mHeldBuffer h = -1 ∨ mHeldBuffer h = 0 ∨ mHeldBuffer h = 1;
  hok_ready : mReadyBuffer h = -1 ∨ mReadyBuffer h = 0 ∨ mReadyBuffer h = 1;
  hok_apart : 0 ≤ mHeldBuffer h → mHeldBuffer h ≠ mReadyBuffer h;
}.

Inductive mail_op : Type := MDeliver (b : BufferDesc) | MTake | MDone (b : BufferDesc).
(** The next mailbox, the frames that go back to the camera and the frame that is handed
    out; [None]: the client asks for a frame that is not there or returns one it has not. *)
Definition mail_step (m : Mailbox) (o : mail_op) : option (Mailbox * list BufferDesc * option BufferDesc) :=
  match o with
  | MDeliver b =>
      match memHandle b with
      | None => Some (m, [], None)
      | Some _ => Some (MkMailbox (held m) (Some b), option_list (waiting m), None)
      end
  | MTake =>
      match held m, waiting m with
      | Some f, _ => Some (m, [], Some f)
      | None, Some w => Some (MkMailbox (Some w) None, [], Some w)
      | None, None => None
      end
  | MDone _ => match held m with Some f => Some (MkMailbox None (waiting m), [f], None) | None => None end
  end.
Fixpoint mail_run (m : Mailbox) (l : list mail_op) : option (Mailbox * list BufferDesc * list (option BufferDesc)) :=
  match l with
  | [] => Some (m, [], [])
  | o :: l' =>
      '(m1, ret, x) ← mail_step m o;
      '(m2, rets, xs) ← mail_run m1 l';
      Some (m2, ret ++ rets, x :: xs)
  end.

Definition run_mail (o : mail_op) : M (Client E) (option BufferDesc) :=
  match o with
  | MDeliver b => deliverFrame b;; mret None
  | MTake => b ← getNewFrame; mret (Some b)
  | MDone b => doneWithFrame b;; mret None
  end.
Fixpoint run_mails (l : list mail_op) : M (Client E) (list (option BufferDesc)) :=
  match l with
  | [] => mret []
  | o :: l' => x ← run_mail o; xs ← run_mails l'; mret (x :: xs)
  end.

Ltac run_h :=
  lazy beta iota zeta delta
    [mbind mret M_bind M_ret get put modify undefined zoom call upd handler on_camera read_slot svc hnd
     set_slot set_held set_ready set_running set_cam mCamera mRunning slot0 slot1 mHeldBuffer mReadyBuffer slot].

(** Decide the tests on indices. *)
Ltac dec_lia :=
  repeat (match goal with
          | |- context [decide ?P] =>
              first [rewrite (decide_True (P := P)) by lia | rewrite (decide_False (P := P)) by lia]
          end; cbv beta iota).
Ltac run_idx := repeat (progress (run_h; dec_lia)).

(** A call that only touches the service, seen from outside. *)
Lemma for_one (f : BufferDesc → M E unit) x e :
  for_each [x] f e = match f x e with Val e' _ => Val e' tt | Exc e' y => Exc e' y | Ub => Ub end.
Proof. cbn. unfold mbind, M_bind. by destruct (f x e) as [? []| |]. Qed.

(** The handler after an operation. *)
Definition mail_after (o : mail_op) (h : StreamHandler) : StreamHandler :=
  match o with
  | MDeliver b =>
      match memHandle b with
      | None => set_running false h
      | Some _ =>
          let r := if decide (0 ≤ mReadyBuffer h) then mReadyBuffer h
                   else if decide (0 ≤ mHeldBuffer h) then 1 - mHeldBuffer h else 0 in
          set_slot r b (set_ready r h)
      end
  | MTake => if decide (0 ≤ mHeldBuffer h) then h else set_ready (-1) (set_held (mReadyBuffer h) h)
  | MDone _ => set_held (-1) h
  end.
Ltac finish_mail :=
  cbn [mCamera mRunning slot0 slot1 mHeldBuffer mReadyBuffer set_slot set_held set_ready set_running];
  unfold slot; cbn [mCamera mRunning slot0 slot1 mHeldBuffer mReadyBuffer]; dec_lia;
  (split; [split; cbn; lia|]); (split; [reflexivity|]); (split; [reflexivity|]); split; reflexivity.

Lemma mail_refines_step o c cam m' ret x :
  handler_ok (hnd c) → mCamera (hnd c) = Some cam → mail_step (abs (hnd c)) o = Some (m', ret, x) →
  ∃ h', handler_ok h' ∧ mCamera h' = Some cam ∧ abs h' = m'
    ∧ mRunning h' = (match o with MDeliver b => bool_decide (is_Some (memHandle b)) && mRunning (hnd c) | _ => mRunning (hnd c) end)
    ∧ run_mail o c = match for_each ret (svc_doneWithFrame cam) (svc c) with
                     | Val e _ => Val (MkClient e h') x
                     | Exc e y => Exc (MkClient e (hnd c)) y
                     | Ub => Ub
                     end.
Proof.
  destruct c as [e [cm run s0 s1 hi ri]]. intros [H1 H2 H3] Hcam. cbn in H1, H2, H3, Hcam. subst cm.
  unfold abs at 1, slot at 1 2. cbn [mHeldBuffer mReadyBuffer slot0 slot1 hnd svc mRunning].
  intros Hstep. exists (mail_after o (MkHandler (Some cam) run s0 s1 hi ri)). revert Hstep.
  unfold mail_after, abs. cbn [mHeldBuffer mReadyBuffer].
  destruct o as [b| |b]; cbn [mail_step run_mail].
  - unfold deliverFrame. destruct (memHandle b) as [z|] eqn:Eb.
    + rewrite bool_decide_eq_true_2 by done. cbn [andb].
      destruct H1 as [-> | [-> | ->]], H2 as [-> | [-> | ->]]; try (exfalso; apply H3; lia);
        dec_lia; intros [= <- <- <-]; rewrite ?for_one; run_idx;
        try destruct (svc_doneWithFrame cam _ e) as [e' []|e' y|] eqn:Ed; finish_mail.
    + rewrite bool_decide_eq_false_2 by (by intros [? ?]). cbn [andb]. intros [= <- <- <-].
      split; [by split|]. split; [done|]. split; [reflexivity|]. split; reflexivity.
  - destruct H1 as [-> | [-> | ->]], H2 as [-> | [-> | ->]]; try (exfalso; apply H3; lia);
      dec_lia; cbn [held waiting]; first [discriminate|intros [= <- <- <-]];
      unfold getNewFrame; run_idx; finish_mail.
  - destruct H1 as [-> | [-> | ->]], H2 as [-> | [-> | ->]]; try (exfalso; apply H3; lia);
      dec_lia; cbn [held waiting]; first [discriminate|intros [= <- <- <-]];
      rewrite ?for_one; unfold doneWithFrame; run_idx;
      destruct (svc_doneWithFrame cam _ e) as [e' []|e' y|] eqn:Ed; finish_mail.
Qed.

Definition frames (m : Mailbox) : list BufferDesc := option_list (held m) ++ option_list (waiting m).
Definition is_frame (b : BufferDesc) : bool := bool_decide (is_Some (memHandle b)).
Definition delivered_frames (l : list mail_op) : list BufferDesc :=
  omap (λ o, match o with MDeliver b => if is_frame b then Some b else None | _ => None end) l.

Lemma mail_conserves_step m o m' ret x :
  mail_step m o = Some (m', ret, x) → ret ++ frames m' ≡ₚ frames m ++ delivered_frames [o].
Proof.
  destruct m as [h w], o as [b| |b]; cbn [mail_step held waiting]; unfold frames, delivered_frames; cbn [omap list_omap].
  - unfold is_frame. destruct (memHandle b) as [z|].
    + rewrite bool_decide_eq_true_2 by done. intros [= <- <- <-]. cbn. destruct h, w; cbn; solve_Permutation.
    + rewrite bool_decide_eq_false_2 by (by intros [? ?]). intros [= <- <- <-]. cbn. by rewrite app_nil_r.
  - destruct h as [f|]; [intros [= <- <- <-]; cbn; by rewrite app_nil_r|].
    destruct w as [w|]; [|done]. by intros [= <- <- <-].
  - destruct h as [f|]; [|done]. intros [= <- <- <-]. cbn. by rewrite app_nil_r.
Qed.
Lemma mail_conserves l m m' rets xs :
  mail_run m l = Some (m', rets, xs) → rets ++ frames m' ≡ₚ frames m ++ delivered_frames l.
Proof.
  revert m rets xs. induction l as [|o l IH]; intros m rets xs; cbn [mail_run].
  { intros [= <- <- <-]. cbn. by rewrite app_nil_r. }
  destruct (mail_step m o) as [[[m1 ret] x]|] eqn:E1; [|done]. cbn [mbind option_bind].
  destruct (mail_run m1 l) as [[[m2 rets2] xs2]|] eqn:E2; [|done]. cbn [mbind option_bind]. intros [= <- <- <-].
  apply mail_conserves_step in E1. apply IH in E2. rewrite <- app_assoc, E2.
  replace (delivered_frames (o :: l)) with (delivered_frames [o] ++ delivered_frames l)
    by (unfold delivered_frames; change (o :: l) with ([o] ++ l); by rewrite omap_app).
  rewrite app_assoc, E1. by rewrite <- app_assoc.
Qed.

(** C8: the stream handler refines a mailbox, for every EVS service and every run in which
    frames and stream markers come in at any moment and the client takes a frame only when
    one waits and returns only what it took: its two buffers and two indices hand out the
    same frames as the mailbox, in which a newer frame replaces the waiting one, and return
    the same frames to the camera in the same order.  Every frame delivered was returned
    once or is one of the at most two that are kept. *)
Theorem stream_handler_refines l c cam m' rets xs e' :
  handler_ok (hnd c) → mCamera (hnd c) = Some cam → mail_run (abs (hnd c)) l = Some (m', rets, xs) →
  for_each rets (svc_doneWithFrame cam) (svc c) = Val e' tt →
  (∃ h', run_mails l c = Val (MkClient e' h') xs ∧ handler_ok h' ∧ abs h' = m')
  ∧ rets ++ frames m' ≡ₚ frames (abs (hnd c)) ++ delivered_frames l
  ∧ (length (frames m') ≤ 2)%nat.
Proof.
  intros Hok Hcam Hrun Hsvc. split; [|split; [by eapply mail_conserves|destruct m' as [[] []]; cbn; lia]].
  revert c m' rets xs Hok Hcam Hrun Hsvc. induction l as [|o l IH]; intros c m' rets xs Hok Hcam; cbn [mail_run].
  { intros [= <- <- <-] [= <-]. exists (hnd c). by destruct c. }
  destruct (mail_step (abs (hnd c)) o) as [[[m1 ret] x]|] eqn:E1; [|done]. cbn [mbind option_bind].
  destruct (mail_refines_step o c cam m1 ret x Hok Hcam E1) as (h1 & Hok1 & Hc1 & <- & _ & Er).
  destruct (mail_run (abs h1) l) as [[[m2 rets2] xs2]|] eqn:E2; [|done]. cbn [mbind option_bind].
  intros [= <- <- <-] Hsvc. rewrite for_each_app in Hsvc. unfold mbind, M_bind in Hsvc.
  destruct (for_each ret (svc_doneWithFrame cam) (svc c)) as [e1 []| |]; [|done|done].
  cbn [run_mails]. rewrite (bind_val _ _ _ _ _ Er).
  destruct (IH (MkClient e1 h1) m2 rets2 xs2 Hok1 Hc1 E2 Hsvc) as (h' & Er' & Hok' & Ha).
  rewrite (bind_val _ _ _ _ _ Er'). by exists h'.
Qed.
End handler.

(** A service that only records the frames it gets back. *)
#[local] Instance recorder_cameras : CameraService (list (Z * BufferDesc)) := {
  svc_setMaxFramesInFlight _ _ := mret EOK;
  svc_startVideoStream _ _ := mret EOK;
  svc_stopVideoStream _ := mret tt;
  svc_doneWithFrame cam b := modify (λ l, l ++ [(cam, b)]);
}.
#[local] Instance recorder : EvsService (list (Z * BufferDesc)) := {
  svc_openCamera _ := mret (Some 1);
  svc_closeCamera _ := mret tt;
  svc_getTargetBuffer := mret (MkBuffer DISPLAY_BUFFER_ID (Some 77));
  svc_returnTargetBuffer _ := mret EOK;
  svc_setDisplayState _ := mret EOK;
}.
Definition ex_frame (x : Z) : BufferDesc := MkBuffer x (Some (100 + x)).
Definition ex_handler : StreamHandler := MkHandler (Some 1) true nullBuff nullBuff (-1) (-1).
Definition ex_mails : list mail_op :=
  [MDeliver (ex_frame 1); MTake; MDeliver (ex_frame 2); MDeliver (ex_frame 3); MDone (ex_frame 1); MTake; MDeliver nullBuff].
Lemma stream_handler_refines_witness :
  ∃ h', run_mails ex_mails (MkClient [] ex_handler)
    = Val (MkClient [(1, ex_frame 2); (1, ex_frame 1)] h') [None; Some (ex_frame 1); None; None; None; Some (ex_frame 3); None]
    ∧ abs h' = MkMailbox (Some (ex_frame 3)) None.
Proof.
  destruct (stream_handler_refines ex_mails (MkClient [] ex_handler) 1
              (MkMailbox (Some (ex_frame 3)) None) [ex_frame 2; ex_frame 1]
              [None; Some (ex_frame 1); None; None; None; Some (ex_frame 3); None]
              [(1, ex_frame 2); (1, ex_frame 1)]) as [(h' & E & _ & Ha) _];
    [split; cbn; lia|reflexivity|vm_compute; reflexivity|reflexivity|].
  exists h'. split; [exact E|exact Ha].
Defined.

(** ** The application's state *)

Record VideoTex : Type := MkTex {
  vt_camera : Z;
  vt_handler : Z;
  mImageBuffer : BufferDesc;
  vt_image : bool;                 (* mKHRimage *)
}.
(** The statics of RenderBase, with what exists in EGL and GL. *)
Record RenderGL : Type := MkRenderGL {
  rb_ready : bool;                 (* sDisplay *)
  rb_image : bool;                 (* sKHRimage *)
  rb_size : Z * Z;
  live_images : Z; live_surfaces : Z; live_contexts : Z; live_programs : Z;
}.
Definition new_render_gl : RenderGL := MkRenderGL false false (0, 0) 0 0 0 0.

Record CameraInfo : Type := MkCamInfo { cameraId : string; function : string }.
Record RenderDirectView : Type := MkView {
  mCameraInfo : CameraInfo;
  mTexture : option VideoTex;
  mShaderProgram : bool;
}.

Inductive State : Type := OFF | REVERSE | LEFT | RIGHT | PARKING.
#[global] Instance State_eq_dec : EqDecision State.
Proof. solve_decision. Defined.
Definition state_index (s : State) : nat :=
  match s with OFF => 0 | REVERSE => 1 | LEFT => 2 | RIGHT => 3 | PARKING => 4 end.
Inductive Op : Type := EXIT | CHECK_VEHICLE_STATE | TOUCH_EVENT.
Record Command : Type := MkCommand { operation : Op; arg1 : Z; arg2 : Z }.

(** What is read of a [VehiclePropValue]. *)
Record PropValue : Type := MkProp { prop : Z; int32Values : list Z }.
Definition GEAR_SELECTION : Z := 289408000.          (* 0x11400400 *)
Definition TURN_SIGNAL_STATE : Z := 289408008.       (* 0x11400408 *)
Definition GEAR_REVERSE : Z := 2.
Definition GEAR_PARK : Z := 4.
Definition GEAR_DRIVE : Z := 8.
Definition SIGNAL_NONE : Z := 0.
Definition SIGNAL_RIGHT : Z := 1.
Definition SIGNAL_LEFT : Z := 2.

(** Calls on the service, in order. *)
Inductive svc_event : Type :=
  | EvOpen (name : string) (cam : option Z)
  | EvClose (cam : Z)
  | EvStop (cam : Z)
  | EvState (s : DisplayState) (r : EvsResult)
  | EvTarget (b : BufferDesc)
  | EvShown (b : BufferDesc).

Section app.
Context {E : Type} {SVC : EvsService E}.

Record App : Type := MkApp {
  a_svc : E;
  a_handlers : gmap Z StreamHandler;
  a_gl : RenderGL;
  a_vehicle : bool;                (* mVehicle is not null *)
  mGearValue : PropValue; mTurnSignalValue : PropValue;
  sDummyGear : Z;
  mCurrentState : State;
  mCameraList : list (list CameraInfo);
  mCurrentRenderer : option RenderDirectView;
  mCommandQueue : list Command;
  a_log : list svc_event;
}.

Definition with_svc (e : E) (a : App) : App :=
  MkApp e (a_handlers a) (a_gl a) (a_vehicle a) (mGearValue a) (mTurnSignalValue a) (sDummyGear a) (mCurrentState a)
    (mCameraList a) (mCurrentRenderer a) (mCommandQueue a) (a_log a).
Definition with_handlers (h : gmap Z StreamHandler) (a : App) : App :=
  MkApp (a_svc a) h (a_gl a) (a_vehicle a) (mGearValue a) (mTurnSignalValue a) (sDummyGear a) (mCurrentState a)
    (mCameraList a) (mCurrentRenderer a) (mCommandQueue a) (a_log a).
Definition with_gl (g : RenderGL) (a : App) : App :=
  MkApp (a_svc a) (a_handlers a) g (a_vehicle a) (mGearValue a) (mTurnSignalValue a) (sDummyGear a) (mCurrentState a)
    (mCameraList a) (mCurrentRenderer a) (mCommandQueue a) (a_log a).
Definition with_car (g t : PropValue) (dummy : Z) (a : App) : App :=
  MkApp (a_svc a) (a_handlers a) (a_gl a) (a_vehicle a) g t dummy (mCurrentState a)
    (mCameraList a) (mCurrentRenderer a) (mCommandQueue a) (a_log a).
Definition with_state (s : State) (a : App) : App :=
  MkApp (a_svc a) (a_handlers a) (a_gl a) (a_vehicle a) (mGearValue a) (mTurnSignalValue a) (sDummyGear a) s
    (mCameraList a) (mCurrentRenderer a) (mCommandQueue a) (a_log a).
Definition with_renderer (r : option RenderDirectView) (a : App) : App :=
  MkApp (a_svc a) (a_handlers a) (a_gl a) (a_vehicle a) (mGearValue a) (mTurnSignalValue a) (sDummyGear a)
    (mCurrentState a) (mCameraList a) r (mCommandQueue a) (a_log a).
Definition with_queue (q : list Command) (a : App) : App :=
  MkApp (a_svc a) (a_handlers a) (a_gl a) (a_vehicle a) (mGearValue a) (mTurnSignalValue a) (sDummyGear a)
    (mCurrentState a) (mCameraList a) (mCurrentRenderer a) q (a_log a).
Definition with_event (ev : svc_event) (a : App) : App :=
  MkApp (a_svc a) (a_handlers a) (a_gl a) (a_vehicle a) (mGearValue a) (mTurnSignalValue a) (sDummyGear a)
    (mCurrentState a) (mCameraList a) (mCurrentRenderer a) (mCommandQueue a) (a_log a ++ [ev]).

Definition service {A} (m : M E A) (ev : A → option svc_event) : M App A :=
  r ← zoom a_svc with_svc m;
  (match ev r with Some e => modify (with_event e) | None => mret tt end);;
  mret r.
(** A call on a handler, which is one of the objects of the heap. *)
Definition in_handler {A} (st : Z) (m : M (Client E) A) : M App A := λ a,
  match a_handlers a !! st with
  | None => Ub
  | Some h =>
      match m (MkClient (a_svc a) h) with
      | Val c r => Val (with_svc (svc c) (with_handlers (<[st := hnd c]> (a_handlers a)) a)) r
      | Exc c x => Exc (with_svc (svc c) (with_handlers (<[st := hnd c]> (a_handlers a)) a)) x
      | Ub => Ub
      end
  end.
(** The callbacks that come in on the other thread. *)
Definition deliver_all (l : list (Z * BufferDesc)) : M App unit :=
  for_each l (λ p, in_handler p.1 (deliverFrame p.2)).

Definition upd_render (f : RenderGL → RenderGL) : M App unit := modify (λ a, with_gl (f (a_gl a)) a).
Definition add_image (n : Z) (g : RenderGL) : RenderGL :=
  MkRenderGL (rb_ready g) (rb_image g) (rb_size g) (live_images g + n) (live_surfaces g) (live_contexts g) (live_programs g).

(** ** VideoTex *)

(** [r_before], [r_between]: the frames that arrive after the test and after the return of
    the old frame; [r_image]: whether the EGL image can be made. *)
Record refresh_env : Type := MkRefresh {
  r_before : list (Z * BufferDesc); r_between : list (Z * BufferDesc); r_image : bool;
}.

Definition drop_image (t : VideoTex) : M App VideoTex :=
  if vt_image t then
    upd_render (add_image (-1));; mret (MkTex (vt_camera t) (vt_handler t) (mImageBuffer t) false)
  else mret t.

Definition refresh (env : refresh_env) (t : VideoTex) : M App (VideoTex * bool) :=
  available ← in_handler (vt_handler t) newFrameAvailable;
  if negb available then mret (t, false)
  else
    deliver_all (r_before env);;
    t ← (match memHandle (mImageBuffer t) with
         | Some _ =>
             t' ← drop_image t;
             in_handler (vt_handler t') (doneWithFrame (mImageBuffer t'));;
             mret t'
         | None => mret t
         end);
    deliver_all (r_between env);;
    b ← in_handler (vt_handler t) getNewFrame;
    (if r_image env then upd_render (add_image 1) else mret tt);;
    mret (MkTex (vt_camera t) (vt_handler t) b (r_image env), true).

Definition destroy_texture (t : VideoTex) : M App unit :=
  in_handler (vt_handler t) asyncStopStream;;
  service (svc_closeCamera (vt_camera t)) (λ _, Some (EvClose (vt_camera t)));;
  drop_image t;; mret tt.

(** [self] is the address of the new handler. *)
Definition createVideoTexture (name : string) (self : Z) : M App (option VideoTex) :=
  pCamera ← service (svc_openCamera name) (λ r, Some (EvOpen name r));
  match pCamera with
  | None => mret None
  | Some cam =>
      a ← get;
      match StreamHandler_new cam (a_svc a) with
      | Val c _ =>
          put (with_svc (svc c) (with_handlers (<[self := hnd c]> (a_handlers a)) a));;
          started ← in_handler self (startStream self);
          if negb started then
            (* the handler is destroyed: nothing runs, so that nothing is waited for *)
            in_handler self blockingStopStream_begin;; in_handler self shutdown_end;; mret None
          else mret (Some (MkTex cam self nullBuff false))
      | _ => undefined
      end
  end.

(** ** RenderBase and RenderDirectView *)

Record prepare_env : Type := MkPrepare {
  g_display : bool; g_init : bool; g_config : bool; g_surface : bool; g_context : bool; g_current : bool;
}.
Definition add_surface (g : RenderGL) : RenderGL :=
  MkRenderGL (rb_ready g) (rb_image g) (rb_size g) (live_images g) (live_surfaces g + 1) (live_contexts g) (live_programs g).
Definition add_context (g : RenderGL) : RenderGL :=
  MkRenderGL (rb_ready g) (rb_image g) (rb_size g) (live_images g) (live_surfaces g) (live_contexts g + 1) (live_programs g).
Definition add_program (g : RenderGL) : RenderGL :=
  MkRenderGL (rb_ready g) (rb_image g) (rb_size g) (live_images g) (live_surfaces g) (live_contexts g) (live_programs g + 1).
Definition set_gl_ready (g : RenderGL) : RenderGL :=
  MkRenderGL true (rb_image g) (rb_size g) (live_images g) (live_surfaces g) (live_contexts g) (live_programs g).
Definition set_target (w h : Z) (g : RenderGL) : RenderGL :=
  MkRenderGL (rb_ready g) (rb_image g) (w, h) (live_images g) (live_surfaces g) (live_contexts g) (live_programs g).
Definition set_target_image (b : bool) (g : RenderGL) : RenderGL :=
  MkRenderGL (rb_ready g) b (rb_size g) (live_images g) (live_surfaces g) (live_contexts g) (live_programs g).

Definition prepareGL (e : prepare_env) : M App bool :=
  a ← get;
  if rb_ready (a_gl a) then mret true
  else if negb (g_display e) then mret false
  else if negb (g_init e) then mret false
  else if negb (g_config e) then mret false
  else if negb (g_surface e) then mret false
  else
    upd_render add_surface;;
    if negb (g_context e) then mret false
    else
      upd_render add_context;;
      if negb (g_current e) then mret false
      else upd_render set_gl_ready;; mret true.

(** [t_rgba]: the buffer has the supported format; the others are the answers of EGL and GL. *)
Record attach_env : Type := MkAttach {
  t_rgba : bool; t_image : bool; t_storage : bool; t_attached : bool; t_complete : bool; t_size : Z * Z;
}.
Definition attachRenderTarget (e : attach_env) : M App bool :=
  if negb (t_rgba e) then mret false
  else
    upd_render (set_target_image (t_image e));;
    if negb (t_image e) then mret false
    else
      upd_render (add_image 1);;
      if negb (t_storage e) then mret false
      else if negb (t_attached e) then mret false
      else if negb (t_complete e) then mret false
      else upd_render (set_target (t_size e).1 (t_size e).2);; mret true.
Definition detachRenderTarget : M App unit :=
  a ← get;
  if rb_image (a_gl a) then upd_render (add_image (-1));; upd_render (set_target_image false) else mret tt.

Record activate_env : Type := MkActivate {
  x_prepare : prepare_env; x_program : program_env; x_handler : Z;
}.
Definition activate (e : activate_env) (v : RenderDirectView) : M App (RenderDirectView * bool) :=
  ok ← prepareGL (x_prepare e);
  if negb ok then mret (v, false)
  else
    let built := mShaderProgram v || program_built (x_program e) in
    (if negb (mShaderProgram v) && program_built (x_program e) then upd_render add_program else mret tt);;
    if negb built then mret (v, false)
    else
      t ← createVideoTexture (cameraId (mCameraInfo v)) (x_handler e);
      (match mTexture v with Some old => destroy_texture old | None => mret tt end);;
      mret (MkView (mCameraInfo v) t true, bool_decide (is_Some t)).

Definition deactivate (v : RenderDirectView) : M App RenderDirectView :=
  (match mTexture v with Some t => destroy_texture t | None => mret tt end);;
  mret (MkView (mCameraInfo v) None (mShaderProgram v)).

Record draw_env : Type := MkDraw {
  w_attach : attach_env; w_matrix : bool; w_refresh : refresh_env; w_sampler : bool;
}.
Definition drawFrame (e : draw_env) (v : RenderDirectView) : M App (RenderDirectView * bool) :=
  ok ← attachRenderTarget (w_attach e);
  if negb ok then mret (v, false)
  else if negb (w_matrix e) then mret (v, false)
  else
    match mTexture v with
    | None => undefined
    | Some t =>
        r ← refresh (w_refresh e) t;
        mret (MkView (mCameraInfo v) (Some r.1) (mShaderProgram v), w_sampler e)
    end.

(** ** EvsStateControl *)

(** [function.find(word) != npos]. *)
Fixpoint contains (word s : string) : bool :=
  String.prefix word s || match s with EmptyString => false | String _ s' => contains word s' end.
Definition cameras_for (word : string) (config : list CameraInfo) : list CameraInfo :=
  List.filter (λ c, contains word (function c)) config.
Definition build_lists (config : list CameraInfo) : list (list CameraInfo) :=
  [[]; cameras_for "reverse" config; cameras_for "left" config; cameras_for "right" config; cameras_for "park" config].

Definition EvsStateControl_new (vehicle : bool) (e : E) (config : list CameraInfo) : App :=
  MkApp e ∅ new_render_gl vehicle (MkProp GEAR_SELECTION []) (MkProp TURN_SIGNAL_STATE []) GEAR_REVERSE OFF
    (build_lists config) None [] [].

Definition postCommand (cmd : Command) : M App unit := modify (λ a, with_queue (mCommandQueue a ++ [cmd]) a).

Definition configureEvsPipeline (e : activate_env) (desiredState : State) : M App bool :=
  a ← get;
  if decide (mCurrentState a = desiredState) then mret true
  else
    (match mCurrentRenderer a with
     | Some v => v' ← deactivate v; modify (with_renderer None)
     | None => mret tt
     end);;
    match mCameraList a !! state_index desiredState with
    | Some (info :: _) =>
        let v := MkView info None false in
        r ← activate e v;
        modify (with_renderer (Some r.1));;
        if negb r.2 then mret false
        else
          result ← service (svc_setDisplayState VISIBLE_ON_NEXT_FRAME) (λ r, Some (EvState VISIBLE_ON_NEXT_FRAME r));
          if decide (result ≠ EOK) then mret false
          else modify (with_state desiredState);; mret true
    | _ => undefined
    end.

(** [k_gear], [k_turn]: what the vehicle answers to a get, [None] for an error; [k_late]:
    more than 20 seconds have passed, for a run without a vehicle. *)
Record car_env : Type := MkCar { k_gear : option PropValue; k_turn : option PropValue; k_late : bool }.

Definition read_car (e : car_env) : M App bool :=
  a ← get;
  if a_vehicle a then
    match k_gear e with
    | None => mret false
    | Some gear =>
        let turn := if decide (prop (mTurnSignalValue a) = 0) then None else k_turn e in
        put (with_car gear (match turn with Some t => t | None => MkProp 0 [SIGNAL_NONE] end) (sDummyGear a) a);;
        mret true
    end
  else
    let dummy := if k_late e then GEAR_DRIVE else sDummyGear a in
    put (with_car (MkProp (prop (mGearValue a)) [dummy]) (MkProp (prop (mTurnSignalValue a)) [SIGNAL_NONE]) dummy a);;
    mret true.

Definition choose_state (gear turn : Z) : State :=
  if decide (gear = GEAR_REVERSE) then REVERSE
  else if decide (turn = SIGNAL_RIGHT) then RIGHT
  else if decide (turn = SIGNAL_LEFT) then LEFT
  else if decide (gear = GEAR_PARK) then PARKING
  else REVERSE.

(** [int32Values[0]] of an empty vector is undefined; the turn signal is only read when the
    gear is not reverse. *)
Definition selectStateForCurrentConditions (c : car_env) (e : activate_env) : M App bool :=
  ok ← read_car c;
  if negb ok then mret false
  else
    a ← get;
    match int32Values (mGearValue a), int32Values (mTurnSignalValue a) with
    | gear :: _, turn :: _ => configureEvsPipeline e (choose_state gear turn)
    | gear :: _, [] => if decide (gear = GEAR_REVERSE) then configureEvsPipeline e REVERSE else undefined
    | [], _ => undefined
    end.

(** One iteration of [updateLoop]: whether the loop goes on.  Without a renderer the thread
    waits for the next signal. *)
Record loop_env : Type := MkLoop { l_car : car_env; l_activate : activate_env; l_draw : draw_env }.
Definition updateLoop_step (e : loop_env) : M App bool :=
  a ← get;
  let run := negb (existsb (λ c, match operation c with EXIT => true | _ => false end) (mCommandQueue a)) in
  put (with_queue [] a);;
  ok ← selectStateForCurrentConditions (l_car e) (l_activate e);
  if negb ok then mret false
  else
    a ← get;
    match mCurrentRenderer a with
    | None => mret run
    | Some v =>
        tgt ← service svc_getTargetBuffer (λ b, Some (EvTarget b));
        match memHandle tgt with
        | None => mret run
        | Some _ =>
            r ← drawFrame (l_draw e) v;
            modify (with_renderer (Some r.1));;
            service (svc_returnTargetBuffer tgt) (λ _, Some (EvShown tgt));;
            mret (run && r.2)
        end
    end.

(** ** The start of the application *)

Record main_options : Type := MkOptions { useVehicleHal : bool; printHelp : bool; evsServiceName : string }.
Definition parse_arg (o : main_options) (s : string) : main_options :=
  if String.eqb s "--test" then MkOptions false (printHelp o) (evsServiceName o)
  else if String.eqb s "--hw" then MkOptions (useVehicleHal o) (printHelp o) "EvsEnumeratorHw"
  else if String.eqb s "--mock" then MkOptions (useVehicleHal o) (printHelp o) "EvsEnumeratorHw-Mock"
  else MkOptions (useVehicleHal o) true (evsServiceName o).
Definition parse_args (args : list string) : main_options := foldl parse_arg (MkOptions true false "default") args.

(** The configuration, [None] when it is missing or incomplete; the services that answer. *)
Record main_env : Type := MkMain {
  n_config : option (list CameraInfo); n_enumerator : string → option E; n_display : bool;
  n_vehicle : bool; n_gear : bool; n_turn : bool; n_thread : bool;
}.
(** [None]: exit code 1. *)
Definition app_main (args : list string) (e : main_env) : option App :=
  let o := parse_args args in
  config ← n_config e;
  svc ← n_enumerator e (evsServiceName o);
  if negb (n_display e) then None
  else if useVehicleHal o && negb (n_vehicle e && n_gear e) then None
  else if n_thread e then Some (EvsStateControl_new (useVehicleHal o) svc config) else None.

(** ** What the render thread keeps *)

Definition same_control (a a' : App) : Prop :=
  a_vehicle a' = a_vehicle a ∧ mGearValue a' = mGearValue a ∧ mTurnSignalValue a' = mTurnSignalValue a
  ∧ mCurrentState a' = mCurrentState a ∧ mCameraList a' = mCameraList a ∧ mCurrentRenderer a' = mCurrentRenderer a
  ∧ mCommandQueue a' = mCommandQueue a ∧ a_log a' = a_log a.
(** Calls that change at most the service, the handlers and GL. *)
Definition quiet {A} (m : M App A) : Prop := ∀ a a' r, m a = Val a' r → same_control a a'.

Lemma same_control_trans a b c : same_control a b → same_control b c → same_control a c.
Proof. unfold same_control. intros H1 H2. destruct_and!. by split_and!; etrans. Qed.
Lemma quiet_ret {A} (x : A) : quiet (mret x).
Proof. by intros a a' r [= <- _]. Qed.
Lemma quiet_bind {A B} (m : M App A) (k : A → M App B) : quiet m → (∀ x, quiet (k x)) → quiet (m ≫= k).
Proof.
  intros Hm Hk a a' r Er. unfold mbind, M_bind in Er. destruct (m a) as [a1 x|a1 x|] eqn:E1; [|done|done].
  eapply same_control_trans; [by eapply Hm|by eapply Hk].
Qed.
Lemma quiet_get : quiet get.
Proof. by intros a a' r [= <- _]. Qed.
Lemma quiet_handler {A} st (m : M (Client E) A) : quiet (in_handler st m).
Proof.
  intros a a' r. unfold in_handler. destruct (a_handlers a !! st) as [h|]; [|done].
  destruct (m _) as [c x|c x|]; [|done|done]. intros [= <- _]. done.
Qed.
Lemma quiet_render f : quiet (upd_render f).
Proof. by intros a a' r [= <- _]. Qed.
Lemma quiet_if {A} (b : bool) (m1 m2 : M App A) : quiet m1 → quiet m2 → quiet (if b then m1 else m2).
Proof. by destruct b. Qed.
Create HintDb quiet.
#[local] Hint Resolve quiet_ret quiet_get quiet_handler quiet_render quiet_bind quiet_if : quiet.
Lemma quiet_deliver l : quiet (deliver_all l).
Proof. induction l as [|p l IH]; cbn; eauto with quiet. Qed.
#[local] Hint Resolve quiet_deliver : quiet.
Lemma quiet_drop t : quiet (drop_image t).
Proof. unfold drop_image. eauto with quiet. Qed.
#[local] Hint Resolve quiet_drop : quiet.
Lemma quiet_refresh env t : quiet (refresh env t).
Proof. unfold refresh. apply quiet_bind; [auto with quiet|]. intros x. destruct (memHandle (mImageBuffer t)); eauto 12 with quiet. Qed.
Lemma quiet_prepare e : quiet (prepareGL e).
Proof. unfold prepareGL. eauto 15 with quiet. Qed.
Lemma quiet_attach e : quiet (attachRenderTarget e).
Proof. unfold attachRenderTarget. eauto 12 with quiet. Qed.

(** ... and that log the given calls. *)
Definition logged (ev : list svc_event) (a a' : App) : Prop :=
  a_vehicle a' = a_vehicle a ∧ mGearValue a' = mGearValue a ∧ mTurnSignalValue a' = mTurnSignalValue a
  ∧ mCurrentState a' = mCurrentState a ∧ mCameraList a' = mCameraList a ∧ mCurrentRenderer a' = mCurrentRenderer a
  ∧ mCommandQueue a' = mCommandQueue a ∧ a_log a' = a_log a ++ ev.
Lemma logged_quiet a a' : same_control a a' → logged [] a a'.
Proof. unfold same_control, logged. by rewrite app_nil_r. Qed.
Lemma logged_trans ev1 ev2 a b c : logged ev1 a b → logged ev2 b c → logged (ev1 ++ ev2) a c.
Proof.
  unfold logged. intros H1 H2. destruct_and!. split_and!; try (by etrans). rewrite app_assoc. congruence.
Qed.
Lemma service_log {A} (m : M E A) ev a a' r :
  service m ev a = Val a' r → logged (option_list (ev r)) a a' ∧ a_handlers a' = a_handlers a.
Proof.
  unfold service. intros (a1 & x & E1 & E2)%bind_inv. unfold zoom in E1.
  destruct (m (a_svc a)) as [e y|e y|]; [|done|done]. injection E1 as <- <-.
  destruct (ev y) as [s|] eqn:Es; run_m_in E2; injection E2 as <- <-; rewrite Es; cbn; unfold logged; cbn; by rewrite ?app_nil_r.
Qed.
Lemma destroy_log t a a' r : destroy_texture t a = Val a' r → logged [EvClose (vt_camera t)] a a'.
Proof.
  unfold destroy_texture. intros (a1 & [] & E1 & (a2 & [] & E2 & (a3 & t' & E3 & [= <- _])%bind_inv)%bind_inv)%bind_inv.
  apply quiet_handler, logged_quiet in E1. apply service_log in E2 as [E2 _]. apply quiet_drop, logged_quiet in E3.
  exact (logged_trans _ _ _ _ _ E1 (logged_trans _ _ _ _ _ E2 E3)).
Qed.

Lemma create_log name self a a' t :
  createVideoTexture name self a = Val a' (Some t) →
  logged [EvOpen name (Some (vt_camera t))] a a' ∧ mImageBuffer t = nullBuff ∧ vt_handler t = self ∧ vt_image t = false.
Proof.
  unfold createVideoTexture. intros (a1 & cam & E1 & E2)%bind_inv. apply service_log in E1 as [E1 _].
  destruct cam as [cam|]; [|by injection E2].
  apply bind_inv in E2 as (a2 & x & [= <- <-] & E2).
  destruct (StreamHandler_new cam (a_svc a1)) as [c y|c y|]; [|done|done].
  apply bind_inv in E2 as (a3 & [] & [= <-] & E2).
  apply bind_inv in E2 as (a4 & ok & E3 & E2). apply quiet_handler, logged_quiet in E3.
  destruct ok; cbn [negb] in E2.
  - injection E2 as <- <-. cbn [vt_camera vt_handler mImageBuffer vt_image]. split; [|done].
    exact (logged_trans _ _ _ _ _ E1 E3).
  - by apply bind_inv in E2 as (a5 & [] & _ & (a6 & [] & _ & [=])%bind_inv).
Qed.

Lemma activate_log e info a a' v :
  activate e (MkView info None false) a = Val a' (v, true) →
  ∃ t, v = MkView info (Some t) true ∧ logged [EvOpen (cameraId info) (Some (vt_camera t))] a a'.
Proof.
  unfold activate. cbn [mShaderProgram mCameraInfo mTexture negb orb andb].
  intros (a1 & ok & E1 & E2)%bind_inv. apply quiet_prepare, logged_quiet in E1.
  destruct ok; cbn [negb] in E2; [|by injection E2].
  apply bind_inv in E2 as (a2 & [] & E2 & E3).
  assert (logged [] a1 a2) as L2.
  { apply logged_quiet. destruct (program_built (x_program e)); [by eapply quiet_render|by eapply quiet_ret]. }
  destruct (program_built (x_program e)); cbn [negb] in E3; [|by injection E3].
  apply bind_inv in E3 as (a3 & t & E3 & E4). apply bind_inv in E4 as (a4 & [] & [= <-] & [= <- <- Ht]).
  destruct t as [t|]; [|done]. exists t. split; [done|]. apply create_log in E3 as [L3 _].
  exact (logged_trans _ _ _ _ _ E1 (logged_trans _ _ _ _ _ L2 L3)).
Qed.

(** The camera of the renderer, and what closing it logs. *)
Definition open_camera (a : App) : option Z :=
  v ← mCurrentRenderer a; t ← mTexture v; Some (vt_camera t).
Definition close_event (a : App) : list svc_event := EvClose <$> option_list (open_camera a).

(** A successful change of state. *)
Lemma configure_spec e s a a' :
  configureEvsPipeline e s a = Val a' true → mCurrentState a ≠ s →
  ∃ info rest t, mCameraList a !! state_index s = Some (info :: rest)
    ∧ mCurrentRenderer a' = Some (MkView info (Some t) true)
    ∧ mCurrentState a' = s ∧ mCameraList a' = mCameraList a
    ∧ a_log a' = a_log a ++ close_event a
        ++ [EvOpen (cameraId info) (Some (vt_camera t)); EvState VISIBLE_ON_NEXT_FRAME EOK].
Proof.
  intros Er Hs. unfold configureEvsPipeline in Er. rewrite (bind_val get _ a a a) in Er by done.
  rewrite decide_False in Er by done. apply bind_inv in Er as (a1 & [] & E1 & E2).
  assert (mCameraList a1 = mCameraList a ∧ a_log a1 = a_log a ++ close_event a) as [L1 G1].
  { unfold close_event, open_camera. destruct (mCurrentRenderer a) as [v|]; cbn.
    - apply bind_inv in E1 as (a0 & v' & E0 & [= <-]). unfold deactivate in E0.
      apply bind_inv in E0 as (a2 & [] & E0 & [= <- _]). destruct (mTexture v) as [t|]; cbn.
      + apply destroy_log in E0. unfold logged in E0. destruct_and!. by split.
      + injection E0 as <-. by rewrite app_nil_r.
    - injection E1 as <-. by rewrite app_nil_r. }
  destruct (mCameraList a !! state_index s) as [[|info rest]|] eqn:El; [done| |done].
  apply bind_inv in E2 as (a2 & [v ok] & E2 & E3). cbn [fst snd] in E3.
  apply bind_inv in E3 as (a3 & [] & [= <-] & E3). destruct ok; cbn [negb] in E3; [|by injection E3].
  apply activate_log in E2 as (t & -> & L2). apply bind_inv in E3 as (a4 & res & E4 & E5).
  apply service_log in E4 as [L4 _]. cbn [option_list] in L4.
  destruct (decide (res ≠ EOK)) as [|Hres]; [by injection E5|].
  assert (res = EOK) as -> by (destruct (decide (res = EOK)); [done|by destruct Hres]).
  apply bind_inv in E5 as (a5 & [] & [= <-] & [= <-]).
  exists info, rest, t. cbn. unfold logged in L2, L4. cbn in L4. destruct_and!.
  split_and!; [done|congruence|done|congruence|].
  match goal with H : a_log a4 = _ |- _ => rewrite H end.
  match goal with H : a_log a2 = _ |- _ => rewrite H end. rewrite G1, <- !app_assoc. done.
Qed.

Lemma refresh_keeps env t a a' t' b :
  refresh env t a = Val a' (t', b) → vt_camera t' = vt_camera t ∧ vt_handler t' = vt_handler t.
Proof.
  unfold refresh. intros (a1 & av & _ & E2)%bind_inv. destruct av; cbn [negb] in E2; [|by injection E2 as <- <-].
  apply bind_inv in E2 as (a2 & [] & _ & E2). apply bind_inv in E2 as (a3 & t1 & E3 & E2).
  assert (vt_camera t1 = vt_camera t ∧ vt_handler t1 = vt_handler t) as [<- <-].
  { destruct (memHandle (mImageBuffer t)); [|by injection E3 as _ <-].
    apply bind_inv in E3 as (a4 & t2 & E4 & (a5 & [] & _ & [= _ <-])%bind_inv).
    unfold drop_image in E4. destruct (vt_image t); [|by injection E4 as _ <-].
    by apply bind_inv in E4 as (a6 & [] & _ & [= _ <-]). }
  apply bind_inv in E2 as (a4 & [] & _ & E2). apply bind_inv in E2 as (a5 & bb & _ & E2).
  by apply bind_inv in E2 as (a6 & [] & _ & [= _ <- _]).
Qed.
Lemma draw_keeps env v a a' v' ok :
  drawFrame env v a = Val a' (v', ok) →
  same_control a a' ∧ mCameraInfo v' = mCameraInfo v ∧ mShaderProgram v' = mShaderProgram v
  ∧ (vt_camera <$> mTexture v') = (vt_camera <$> mTexture v).
Proof.
  unfold drawFrame. intros (a1 & b & E1 & E2)%bind_inv. apply quiet_attach in E1.
  destruct b; cbn [negb] in E2; [|by injection E2 as <- <- _].
  destruct (w_matrix env); cbn [negb] in E2; [|by injection E2 as <- <- _].
  destruct (mTexture v) as [t|] eqn:Et; [|done].
  apply bind_inv in E2 as (a2 & [t' c] & E2 & [= <- <- _]). cbn.
  pose proof (refresh_keeps _ _ _ _ _ _ E2) as [Hc _]. apply quiet_refresh in E2.
  split; [by eapply same_control_trans|]. by rewrite Hc.
Qed.

(** *** The invariant *)

Definition camera_event (cur : option Z) (e : svc_event) : option (option Z) :=
  match e with
  | EvOpen _ (Some c) => if decide (cur = None) then Some (Some c) else None
  | EvClose c => if decide (cur = Some c) then Some None else None
  | _ => Some cur
  end.
Fixpoint camera_replay (cur : option Z) (l : list svc_event) : option (option Z) :=
  match l with
  | [] => Some cur
  | e :: l' => cur' ← camera_event cur e; camera_replay cur' l'
  end.
Lemma camera_replay_app cur l1 l2 : camera_replay cur (l1 ++ l2) = cur' ← camera_replay cur l1; camera_replay cur' l2.
Proof.
  revert cur. induction l1 as [|e l1 IH]; intros cur; [done|]. cbn [app camera_replay].
  destruct (camera_event cur e); cbn [mbind option_bind]; [apply IH|done].
Qed.

Definition shows_first (a : App) : Prop :=
  ∃ info rest t, mCameraList a !! state_index (mCurrentState a) = Some (info :: rest)
                 ∧ mCurrentRenderer a = Some (MkView info (Some t) true).
Record app_ok (a : App) : Prop := {
  aok_off : mCurrentState a = OFF → mCurrentRenderer a = None;
  aok_on : mCurrentState a ≠ OFF → shows_first a;
  aok_log : camera_replay None (a_log a) = Some (open_camera a);
}.

(** The renderer may change in what it has on the texture. *)
Lemma ok_view a a' :
  app_ok a → mCurrentState a' = mCurrentState a → mCameraList a' = mCameraList a → a_log a' = a_log a →
  (mCurrentRenderer a' = mCurrentRenderer a
   ∨ ∃ v v', mCurrentRenderer a = Some v ∧ mCurrentRenderer a' = Some v' ∧ mCameraInfo v' = mCameraInfo v
       ∧ mShaderProgram v' = mShaderProgram v ∧ (vt_camera <$> mTexture v') = (vt_camera <$> mTexture v)) →
  app_ok a'.
Proof.
  intros [H1 H2 H3] Es El Eg Hr. unfold shows_first, open_camera in *.
  destruct Hr as [Er|(v & v' & Ev & Ev' & Ei & Ep & Et)].
  { split; unfold shows_first, open_camera; rewrite ?Es, ?El, ?Eg, ?Er; done. }
  split; unfold shows_first, open_camera; rewrite ?Es, ?El, ?Eg, ?Ev'.
  - intros Ho. specialize (H1 Ho). congruence.
  - intros Ho. destruct (H2 Ho) as (i & r & t & Hl & Hv). exists i, r. destruct v' as [i' [t'|] p']; cbn in *.
    + exists t'. split; [done|]. assert (v = MkView i (Some t) true) as -> by congruence. cbn in *. congruence.
    + assert (v = MkView i (Some t) true) as -> by congruence. done.
  - rewrite H3, Ev. cbn. f_equal. destruct (mTexture v), (mTexture v'); cbn in *; congruence.
Qed.
Lemma app_ok_same a a' : same_control a a' → app_ok a → app_ok a'.
Proof. intros (_ & _ & _ & H1 & H2 & H3 & _ & H4) Ha. apply (ok_view a); auto. Qed.
(** An event that opens and closes nothing. *)
Lemma ok_event a a' ev :
  logged [ev] a a' → (∀ cur, camera_event cur ev = Some cur) → app_ok a → app_ok a'.
Proof.
  intros (_ & _ & _ & Es & El & Er & _ & Eg) He [H1 H2 H3].
  split; unfold shows_first, open_camera in *; rewrite ?Es, ?El, ?Er; [done|done|].
  rewrite Eg, camera_replay_app, H3. cbn. by rewrite He.
Qed.

(** The chosen state is never [OFF]. *)
Lemma choose_on gear turn : choose_state gear turn ≠ OFF.
Proof. unfold choose_state. repeat case_decide; discriminate. Qed.

Lemma configure_ok e s a a' :
  app_ok a → s ≠ OFF → configureEvsPipeline e s a = Val a' true →
  app_ok a' ∧ mCurrentState a' = s.
Proof.
  intros Ha Hs Er. destruct (decide (mCurrentState a = s)) as [Es|Es].
  - unfold configureEvsPipeline in Er. rewrite (bind_val get _ a a a) in Er by done.
    rewrite decide_True in Er by done. by injection Er as <-.
  - destruct (configure_spec e s a a' Er Es) as (info & rest & t & L & R & S & C & G).
    split; [|done]. destruct Ha as [_ _ Hlog]. split; [by rewrite S|intros _|].
    + exists info, rest, t. by rewrite S, C.
    + rewrite G, !camera_replay_app, Hlog. unfold close_event. unfold open_camera at 3. rewrite R.
      destruct (open_camera a) as [c|]; cbn; [by rewrite decide_True by done|done].
Qed.

(** The gear and the turn signal that hold now.  A vehicle has answered with single values; a
    turn signal that is not available, now or once before, is none.  Without a vehicle the
    gear is reverse at first, and drive from the twentieth second on. *)
Definition car_says (a : App) (c : car_env) (gear turn : Z) : Prop :=
  if a_vehicle a then
    int32Values <$> k_gear c = Some [gear]
    ∧ match k_turn c with
      | Some t => if decide (prop (mTurnSignalValue a) = 0) then turn = SIGNAL_NONE else int32Values t = [turn]
      | None => turn = SIGNAL_NONE
      end
  else gear = (if k_late c then GEAR_DRIVE else sDummyGear a) ∧ turn = SIGNAL_NONE.

(** The view that a gear and a turn signal call for: reverse gear goes first, then the turn
    signal, then parking; the reverse view is also the default. *)
Inductive calls_for (gear turn : Z) : State → Prop :=
  | for_reverse : gear = 2 → calls_for gear turn REVERSE
  | for_right : gear ≠ 2 → turn = 1 → calls_for gear turn RIGHT
  | for_left : gear ≠ 2 → turn = 2 → calls_for gear turn LEFT
  | for_parking : gear = 4 → turn ≠ 1 → turn ≠ 2 → calls_for gear turn PARKING
  | for_default : gear ≠ 2 → gear ≠ 4 → turn ≠ 1 → turn ≠ 2 → calls_for gear turn REVERSE.
Lemma choose_calls gear turn : calls_for gear turn (choose_state gear turn).
Proof. unfold choose_state. repeat case_decide; by constructor. Qed.

Lemma read_car_spec c a a' :
  read_car c a = Val a' true →
  (app_ok a → app_ok a')
  ∧ ∀ gear turn, car_says a c gear turn → int32Values (mGearValue a') = [gear] ∧ int32Values (mTurnSignalValue a') = [turn].
Proof.
  unfold read_car. intros Er. rewrite (bind_val get _ a a a) in Er by done. destruct (a_vehicle a) eqn:Ev.
  - destruct (k_gear c) as [g|] eqn:Eg; [|by injection Er]. injection Er as <-. split.
    + intros Ha. apply (ok_view a); auto.
    + intros gear turn. unfold car_says. rewrite Ev, Eg. intros [[= Hg] Ht]. cbn. split; [done|].
      destruct (decide (prop (mTurnSignalValue a) = 0)); destruct (k_turn c); by subst.
  - injection Er as <-. split; [intros Ha; apply (ok_view a); auto|]. intros gear turn. unfold car_says. rewrite Ev.
    by intros [-> ->].
Qed.
Lemma select_ok c e a a' :
  app_ok a → selectStateForCurrentConditions c e a = Val a' true →
  app_ok a' ∧ mCurrentState a' ≠ OFF ∧ ∀ gear turn, car_says a c gear turn → mCurrentState a' = choose_state gear turn.
Proof.
  intros Ha E1. unfold selectStateForCurrentConditions in E1. apply bind_inv in E1 as (a2 & ok & E2 & E1).
  destruct ok; cbn [negb] in E1; [|by injection E1].
  apply read_car_spec in E2 as [H2 V2]. specialize (H2 Ha).
  rewrite (bind_val get _ a2 a2 a2) in E1 by done.
  assert (∀ s, s ≠ OFF → configureEvsPipeline e s a2 = Val a' true →
            (∀ gear turn, car_says a c gear turn → s = choose_state gear turn) →
            app_ok a' ∧ mCurrentState a' ≠ OFF
            ∧ ∀ gear turn, car_says a c gear turn → mCurrentState a' = choose_state gear turn) as Hconf.
  { intros s Hs Es Hc. destruct (configure_ok e s a2 a' H2 Hs Es) as [H3 H4]. split; [done|]. rewrite H4. by split. }
  destruct (int32Values (mGearValue a2)) as [|gear gs] eqn:Eg; [done|].
  destruct (int32Values (mTurnSignalValue a2)) as [|turn ts] eqn:Et.
  - destruct (decide (gear = GEAR_REVERSE)) as [->|]; [|done]. apply (Hconf REVERSE); [done|done|].
    intros g t' Hc. by destruct (V2 g t' Hc) as [_ ?].
  - apply (Hconf (choose_state gear turn)); [apply choose_on|done|].
    intros g t' Hc. destruct (V2 g t' Hc) as [[= -> _] [= -> _]]. done.
Qed.

Lemma update_ok e a a' :
  app_ok a → updateLoop_step e a = Val a' true →
  app_ok a' ∧ mCurrentState a' ≠ OFF
  ∧ ∀ gear turn, car_says a (l_car e) gear turn → mCurrentState a' = choose_state gear turn.
Proof.
  intros Ha Er. unfold updateLoop_step in Er. rewrite (bind_val get _ a a a) in Er by done.
  apply bind_inv in Er as (a0 & [] & [= <-] & Er).
  assert (app_ok (with_queue [] a)) as Ha0 by (apply (ok_view a); auto).
  apply bind_inv in Er as (a1 & ok & E1 & Er). destruct ok; cbn [negb] in Er; [|by injection Er].
  destruct (select_ok _ _ _ _ Ha0 E1) as (Ha1 & Hn1 & Hs1).
  rewrite (bind_val get _ a1 a1 a1) in Er by done.
  destruct (mCurrentRenderer a1) as [v|] eqn:Ev; [|injection Er as <- _; by split].
  apply bind_inv in Er as (a2 & tgt & E2 & Er). apply service_log in E2 as [L2 _].
  pose proof (ok_event a1 a2 _ L2 ltac:(done) Ha1) as Ha2. destruct L2 as (_ & _ & _ & S2 & _ & R2 & _ & _).
  destruct (memHandle tgt) as [h|]; [|injection Er as <- _; rewrite S2; by split].
  apply bind_inv in Er as (a3 & [v' okd] & E3 & Er). cbn [fst snd] in Er.
  apply draw_keeps in E3 as (Q3 & I3 & P3 & T3).
  apply bind_inv in Er as (a4 & [] & [= <-] & Er). apply bind_inv in Er as (a5 & res & E5 & [= <- _]).
  pose proof (app_ok_same a2 a3 Q3 Ha2) as Ha3. destruct Q3 as (_ & _ & _ & S3 & _ & R3 & _ & _).
  assert (app_ok (with_renderer (Some v') a3)) as Ha4.
  { apply (ok_view a3); [done..|]. right. exists v, v'. by rewrite R3, R2, Ev. }
  apply service_log in E5 as [L5 _]. pose proof (ok_event _ _ _ L5 ltac:(done) Ha4) as Ha5.
  destruct L5 as (_ & _ & _ & S5 & _). cbn in S5. rewrite S5, S3, S2. by split.
Qed.

(** The render thread's iterations, commands and frames. *)
Inductive app_step (a : App) : App → Prop :=
  | ap_loop env a' : updateLoop_step env a = Val a' true → app_step a a'
  | ap_post cmd a' : postCommand cmd a = Val a' tt → app_step a a'
  | ap_frames l a' : deliver_all l a = Val a' tt → app_step a a'.
Inductive app_reach (vehicle : bool) (e : E) (config : list CameraInfo) : App → Prop :=
  | app_new : app_reach vehicle e config (EvsStateControl_new vehicle e config)
  | app_next a a' : app_reach vehicle e config a → app_step a a' → app_reach vehicle e config a'.

Lemma app_inv vehicle e config a : app_reach vehicle e config a → app_ok a.
Proof.
  induction 1 as [|a a' _ IH Hs].
  - split; [done|by intros []|done].
  - destruct Hs as [env a' Er|cmd a' Er|l a' Er].
    + by apply (update_ok env a a').
    + injection Er as <-. apply (ok_view a); auto.
    + apply quiet_deliver in Er. by eapply app_ok_same.
Qed.

(** C21: the render thread of the application, with any EVS service and over any run of
    updates, commands and incoming frames: once it shows something, it shows the first
    camera that is configured for the current state, through a texture of its own; a camera
    is closed before the next one is opened, so that the one of the renderer is the only one
    open; and an update after which the loop goes on leaves the state that the gear and the
    turn signal call for: reverse in reverse gear, else the side of the turn signal, else
    parking in the parking gear, else reverse.  Gear and turn signal are the single values the
    vehicle answers with (no signal, if it has no answer to that, or once had none; without a
    vehicle, reverse and from the twentieth second drive). *)
Theorem evs_app_one_camera vehicle e config a :
  app_reach vehicle e config a →
  (mCurrentState a ≠ OFF → shows_first a)
  ∧ camera_replay None (a_log a) = Some (open_camera a)
  ∧ ∀ env a', updateLoop_step env a = Val a' true →
      shows_first a'
      ∧ ∀ gear turn, car_says a (l_car env) gear turn → calls_for gear turn (mCurrentState a').
Proof.
  intros Hr. apply app_inv in Hr as Ha. split; [apply Ha|]. split; [apply Ha|].
  intros env a' Er. destruct (update_ok env a a' Ha Er) as (Ha' & Hn & Hs). split; [by apply Ha'|].
  intros gear turn Hc. rewrite (Hs _ _ Hc). apply choose_calls.
Qed.

(** a state the configuration has no camera for is not survived: the element of an empty
    vector is read.  (The configuration that is installed has a camera for reversing and
    parking only, so that the turn signal is enough, in any other gear.) *)
Theorem evs_unconfigured_state gear turn c e a :
  car_says a c gear turn → mCurrentState a ≠ choose_state gear turn →
  mCameraList a !! state_index (choose_state gear turn) = Some [] →
  ∀ a' ok, selectStateForCurrentConditions c e a ≠ Val a' ok.
Proof.
  intros Hc Hs Hl a' ok E1. unfold selectStateForCurrentConditions in E1.
  apply bind_inv in E1 as (a2 & ok2 & E2 & E1).
  assert (ok2 = true ∧ mCurrentState a2 = mCurrentState a ∧ mCameraList a2 = mCameraList a) as (-> & S2 & L2).
  { unfold car_says in Hc. unfold read_car in E2. rewrite (bind_val get _ a a a) in E2 by done.
    destruct (a_vehicle a); [|by injection E2 as <- <-]. destruct Hc as [Hg _]. destruct (k_gear c); [|done]. by injection E2 as <- <-. }
  cbn [negb] in E1. apply read_car_spec in E2 as [_ V2]. destruct (V2 _ _ Hc) as [Eg Et].
  rewrite (bind_val get _ a2 a2 a2) in E1 by done. rewrite Eg, Et in E1. unfold configureEvsPipeline in E1.
  rewrite (bind_val get _ a2 a2 a2) in E1 by done. rewrite decide_False in E1 by congruence.
  apply bind_inv in E1 as (a3 & [] & _ & E1). by rewrite L2, Hl in E1.
Qed.

(** ** Images *)

Definition tex_images (v : RenderDirectView) : Z :=
  match mTexture v with Some t => if vt_image t then 1 else 0 | None => 0 end.
Definition gl_same {A} (m : M App A) : Prop := ∀ a a' r, m a = Val a' r → a_gl a' = a_gl a.
Lemma gl_same_handler {A} st (m : M (Client E) A) : gl_same (in_handler st m).
Proof.
  intros a a' r. unfold in_handler. destruct (a_handlers a !! st) as [h|]; [|done].
  destruct (m _) as [c x|c x|]; [|done|done]. by intros [= <- _].
Qed.
Lemma gl_same_deliver l : gl_same (deliver_all l).
Proof.
  induction l as [|p l IH]; intros a a' r Er; [by injection Er as <-|].
  apply bind_inv in Er as (a1 & [] & E1 & E2). apply gl_same_handler in E1. apply IH in E2. congruence.
Qed.

Lemma refresh_images env t a a' t' b :
  (vt_image t = true → is_Some (memHandle (mImageBuffer t))) → refresh env t a = Val a' (t', b) →
  live_images (a_gl a') - (if vt_image t' then 1 else 0) = live_images (a_gl a) - (if vt_image t then 1 else 0).
Proof.
  intros Ht. unfold refresh. intros (a1 & av & E1 & E2)%bind_inv. apply gl_same_handler in E1.
  destruct av; cbn [negb] in E2; [|injection E2 as <- <- _; by rewrite E1].
  apply bind_inv in E2 as (a2 & [] & D2 & E2). apply gl_same_deliver in D2.
  apply bind_inv in E2 as (a3 & t1 & E3 & E2).
  assert (live_images (a_gl a3) = live_images (a_gl a) - (if vt_image t then 1 else 0)) as L3.
  { destruct (memHandle (mImageBuffer t)).
    - apply bind_inv in E3 as (a4 & t2 & E4 & (a5 & [] & E5 & [= <- _])%bind_inv). apply gl_same_handler in E5.
      rewrite E5. unfold drop_image in E4. destruct (vt_image t).
      + apply bind_inv in E4 as (a6 & [] & [= <-] & [= <- _]). cbn. rewrite D2, E1. lia.
      + injection E4 as <- _. rewrite D2, E1. lia.
    - injection E3 as <- _. destruct (vt_image t); [by destruct (Ht eq_refl)|]. rewrite D2, E1. lia. }
  apply bind_inv in E2 as (a4 & [] & D4 & E2). apply gl_same_deliver in D4.
  apply bind_inv in E2 as (a5 & bb & E5 & E2). apply gl_same_handler in E5.
  apply bind_inv in E2 as (a6 & [] & E6 & [= <- <- _]). cbn [vt_image].
  destruct (r_image env); injection E6 as <-; cbn; rewrite E5, D4; lia.
Qed.

(** Every frame that is drawn makes an image of the display's buffer, and nothing ever
    destroys it: [detachRenderTarget] has no caller. *)
Theorem draw_leaks_image env v a a' v' :
  (∀ t, mTexture v = Some t → vt_image t = true → is_Some (memHandle (mImageBuffer t))) →
  drawFrame env v a = Val a' (v', true) →
  live_images (a_gl a') - tex_images v' = live_images (a_gl a) - tex_images v + 1.
Proof.
  intros Ht. unfold drawFrame. intros (a1 & ok & E1 & E2)%bind_inv.
  destruct ok; cbn [negb] in E2; [|by injection E2].
  destruct (w_matrix env); cbn [negb] in E2; [|by injection E2].
  destruct (mTexture v) as [t|] eqn:Et; [|done].
  apply bind_inv in E2 as (a2 & [t' c] & E2 & [= <- <- _]). cbn [fst].
  apply refresh_images in E2; [|by apply Ht]. unfold tex_images. cbn [mTexture]. rewrite Et.
  assert (live_images (a_gl a1) = live_images (a_gl a) + 1) as L1; [|lia].
  revert E1. unfold attachRenderTarget.
  destruct (t_rgba _); [|by intros [=]]. destruct (t_image _); [|by intros [=]].
  destruct (t_storage _); [|by intros [=]]. destruct (t_attached _); [|by intros [=]].
  destruct (t_complete _); [|by intros [=]]. by intros [= <-].
Qed.
End app.
Arguments App : clear implicits.

(** ** Examples *)

Definition shipped_config : list CameraInfo := [MkCamInfo "/dev/video0" "reverse,park"].
Definition ex_activate (st : Z) : activate_env :=
  MkActivate (MkPrepare true true true true true true) (MkProgramEnv true ex_shader ex_shader true) st.
Definition ex_draw (l : list (Z * BufferDesc)) : draw_env :=
  MkDraw (MkAttach true true true true true (640, 480)) true (MkRefresh l [] true) true.
Definition ex_car (gear turn : Z) : car_env :=
  MkCar (Some (MkProp GEAR_SELECTION [gear])) (Some (MkProp TURN_SIGNAL_STATE [turn])) false.
Definition app_of {A} (o : outcome (App (list (Z * BufferDesc))) A) : App (list (Z * BufferDesc)) :=
  match o with Val a _ => a | _ => EvsStateControl_new true [] [] end.

Definition ex_app0 : App (list (Z * BufferDesc)) := EvsStateControl_new true [] shipped_config.
Definition ex_loop1 : loop_env := MkLoop (ex_car GEAR_REVERSE SIGNAL_NONE) (ex_activate 11) (ex_draw []).
Definition ex_app1 : App (list (Z * BufferDesc)) := Eval vm_compute in app_of (updateLoop_step ex_loop1 ex_app0).
Definition ex_app2 : App (list (Z * BufferDesc)) := Eval vm_compute in app_of (deliver_all [(11, ex_frame 1)] ex_app1).
Definition ex_loop3 : loop_env := MkLoop (ex_car GEAR_REVERSE SIGNAL_NONE) (ex_activate 12) (ex_draw [(11, ex_frame 2)]).
Definition ex_app3 : App (list (Z * BufferDesc)) := Eval vm_compute in app_of (updateLoop_step ex_loop3 ex_app2).
Definition ex_loop4 : loop_env := MkLoop (ex_car GEAR_PARK SIGNAL_NONE) (ex_activate 12) (ex_draw []).
Definition ex_app4 : App (list (Z * BufferDesc)) := Eval vm_compute in app_of (updateLoop_step ex_loop4 ex_app3).

Lemma ex_app_reach : app_reach true [] shipped_config ex_app3.
Proof.
  apply app_next with ex_app2; [|apply (ap_loop _ ex_loop3); vm_compute; reflexivity].
  apply app_next with ex_app1; [|apply (ap_frames _ [(11, ex_frame 1)]); vm_compute; reflexivity].
  apply app_next with ex_app0; [|apply (ap_loop _ ex_loop1); vm_compute; reflexivity].
  apply app_new.
Qed.
Lemma evs_app_one_camera_witness :
  shows_first ex_app4 ∧ calls_for GEAR_PARK SIGNAL_NONE (mCurrentState ex_app4) ∧ mCurrentState ex_app4 = PARKING
  ∧ camera_replay None (a_log ex_app3) = Some (Some 1)
  ∧ a_log ex_app4 = a_log ex_app3 ++ [EvClose 1; EvOpen "/dev/video0" (Some 1); EvState VISIBLE_ON_NEXT_FRAME EOK;
                                      EvTarget (MkBuffer DISPLAY_BUFFER_ID (Some 77)); EvShown (MkBuffer DISPLAY_BUFFER_ID (Some 77))].
Proof.
  destruct (evs_app_one_camera true [] shipped_config ex_app3 ex_app_reach) as (_ & Hl & Hu).
  destruct (Hu ex_loop4 ex_app4) as [Hs Hc]; [vm_compute; reflexivity|].
  split; [exact Hs|]. split; [apply (Hc GEAR_PARK SIGNAL_NONE); split; reflexivity|].
  split; [reflexivity|]. split; [exact Hl|vm_compute; reflexivity].
Defined.
(** A frame that arrives after the test replaces the one that waits; two images of the
    display's buffer and one of the camera's are there. *)
Lemma ex_app3_frames : a_svc ex_app3 = [(1, ex_frame 1)] ∧ live_images (a_gl ex_app3) = 3.
Proof. split; reflexivity. Qed.

Lemma evs_unconfigured_state_witness :
  mCameraList ex_app3 !! state_index RIGHT = Some []
  ∧ ∀ a' ok, selectStateForCurrentConditions (ex_car GEAR_DRIVE SIGNAL_RIGHT) (ex_activate 12) ex_app3 ≠ Val a' ok.
Proof.
  split; [reflexivity|].
  apply (evs_unconfigured_state GEAR_DRIVE SIGNAL_RIGHT); [split; reflexivity|discriminate|reflexivity].
Defined.
