(* ===== verification/EvsSystem.v ===== *)
(** * EVS: the application and the camera manager together

    The stream handler and the texture of the application ([EvsApp]) as a client of a
    camera of the manager ([EvsManager]), with the manager's other clients and the hardware
    acting at any moment.  A frame the manager sends is on its way until the handler's
    [deliverFrame] runs, and, [doneWithFrame] being a oneway call, a frame the application
    returns is on its way until the manager takes the call up; the other calls of the
    application wait for their answer, and may overtake returns.  The refresh of the
    texture is three steps, between which frames come in. *)

From S2P Require Import Prelude EvsDriver EvsManager EvsDisplay EvsApp.

(** The manager, and the returns that were sent to it and not yet taken up, oldest first. *)
Record Link (H : Type) : Type := MkLink { lk_hal : @HalCamera H; lk_returns : list BufferDesc }.
Arguments MkLink {H} _ _.
Arguments lk_hal {H} _.
Arguments lk_returns {H} _.

(** A call that waits for the manager's answer. *)
Definition at_manager {H A} (m : M (@HalCamera H) A) : M (Link H) A :=
  zoom lk_hal (λ h l, MkLink h (lk_returns l)) m.

(** The camera calls of the application, answered by the manager. *)
#[global] Instance manager_cameras {H} {HW : HwCamera H} : CameraService (Link H) := {
  svc_setMaxFramesInFlight id n := at_manager (EvsManager.setMaxFramesInFlight id n);
  svc_startVideoStream id st := at_manager (EvsManager.startVideoStream id (Some st));
  svc_stopVideoStream id := at_manager (EvsManager.stopVideoStream id);
  svc_doneWithFrame _ b := modify (λ l, MkLink (lk_hal l) (lk_returns l ++ [b]));
}.

Definition stream_frames (st : Z) (l : list (Z * BufferDesc)) : list BufferDesc :=
  omap (λ p, if decide (p.1 = st) then Some p.2 else None) l.
Lemma stream_frames_app st l1 l2 : stream_frames st (l1 ++ l2) = stream_frames st l1 ++ stream_frames st l2.
Proof. apply omap_app. Qed.

Section frame.
Context {H : Type} {HW : HwCamera H} (id st : Z).

(** ** What the calls of others leave alone *)

(** Nobody else uses the client's stream. *)
Definition lone (s : @HalCamera H) : Prop := ∀ i w, i ≠ id → heap s !! i = Some w → vStream w ≠ Some st.
Definition away (s s' : @HalCamera H) : Prop :=
  heap s' !! id = heap s !! id ∧ lone s' ∧ stream_frames st (delivered s') = stream_frames st (delivered s).
Definition stays {A} (m : M (@HalCamera H) A) : Prop := ∀ s s' a, lone s → m s = Val s' a → away s s'.

Lemma away_refl s : lone s → away s s.
Proof. by split. Qed.
Lemma away_trans s1 s2 s3 : away s1 s2 → away s2 s3 → away s1 s3.
Proof. intros (A1 & A2 & A3) (B1 & B2 & B3). split; [congruence|]. split; [done|]. congruence. Qed.

Lemma stays_ret {A} (x : A) : stays (mret x).
Proof. intros s s' a Hs [= <- _]. by apply away_refl. Qed.
Lemma stays_get : stays get.
Proof. intros s s' a Hs [= <- _]. by apply away_refl. Qed.
Lemma stays_undefined {A} : stays (undefined : M _ A).
Proof. by intros s s' a _ [=]. Qed.
Lemma stays_bind {A B} (m : M (@HalCamera H) A) (k : A → M HalCamera B) :
  stays m → (∀ x, stays (k x)) → stays (m ≫= k).
Proof.
  intros Hm Hk s s' a Hs (s1 & x & E1 & E2)%bind_inv. pose proof (Hm _ _ _ Hs E1) as A1.
  eapply away_trans; [exact A1|]. eapply Hk; [apply A1|exact E2].
Qed.
Lemma stays_hw {A} (f : H → H * A) ev : stays (with_hw f ev).
Proof.
  intros s s' a Hs. unfold with_hw. run_m. destruct (f (mHwCamera s)) as [hw x]. intros [= <- _]. done.
Qed.
Lemma stays_clients l : stays (set_clients l).
Proof. intros s s' a Hs [= <- _]. done. Qed.
Lemma stays_set_frames l : stays (set_frames l).
Proof. intros s s' a Hs [= <- _]. done. Qed.
Lemma stays_log_frame b : stays (log_frame b).
Proof. intros s s' a Hs [= <- _]. done. Qed.
Lemma stays_send x b : x ≠ Some st → stays (send x b).
Proof.
  intros Hx s s' a Hs. destruct x as [y|]; [|done]. intros [= <- _]. split; [done|]. split; [done|].
  cbn [delivered]. rewrite stream_frames_app. cbn. rewrite decide_False by congruence. apply app_nil_r.
Qed.
Lemma stays_deref {A} i (k : VirtualCamera → M (@HalCamera H) A) :
  i ≠ id → (∀ v, vStream v ≠ Some st → stays (k v)) → stays (deref i ≫= k).
Proof.
  intros Hi Hk s s' a Hs (s1 & v & E1 & E2)%bind_inv. unfold deref in E1. run_m_in E1.
  destruct (heap s !! i) as [w|] eqn:Ew; [|done]. injection E1 as <- <-.
  eapply Hk; [by apply (Hs i)|exact Hs|exact E2].
Qed.
Lemma stays_virtual i w : i ≠ id → vStream w ≠ Some st → stays (set_virtual i w).
Proof.
  intros Hi Hw s s' a Hs [= <- _]. split; [cbn; by rewrite lookup_insert_ne|]. split; [|done].
  intros j v Hj Hv. cbn in Hv. destruct (decide (j = i)) as [->|Hne].
  - rewrite lookup_insert_eq in Hv. by injection Hv as <-.
  - rewrite lookup_insert_ne in Hv by done. by apply (Hs j).
Qed.
Lemma stays_if {A} (b : bool) (m1 m2 : M (@HalCamera H) A) : stays m1 → stays m2 → stays (if b then m1 else m2).
Proof. by destruct b. Qed.
Lemma stays_dec {A} P `{Decision P} (m1 m2 : M (@HalCamera H) A) :
  stays m1 → stays m2 → stays (if decide P then m1 else m2).
Proof. by destruct (decide P). Qed.
Lemma stays_for {X} (l : list X) (f : X → M (@HalCamera H) unit) : (∀ x, stays (f x)) → stays (for_each l f).
Proof. intros Hf. induction l as [|x l IH]; cbn; [apply stays_ret|]. by apply stays_bind. Qed.

Lemma stays_on_hal {A} v (m : M (@HalCamera H) A) : stays m → stays (on_hal v m).
Proof. unfold on_hal. intros Hm. by destruct (attached v); [|apply stays_undefined]. Qed.

(** Goes through an operation of another client. *)
Create HintDb stays.
Ltac stays_step :=
  first [ solve [auto with stays nocore]
        | apply stays_ret | apply stays_get | apply stays_undefined | apply stays_hw | apply stays_clients
        | apply stays_set_frames | apply stays_log_frame
        | apply stays_send; first [done | discriminate | congruence]
        | apply stays_virtual; [done | cbn; first [done | discriminate | congruence]]
        | apply stays_deref; [done | intros ? ?]
        | apply stays_if | apply stays_dec
        | apply stays_for; intros ?
        | apply stays_bind; [|intros ?] ].
Ltac stays_all := repeat stays_step.

Lemma stays_change delta : stays (changeFramesInFlight delta).
Proof. unfold changeFramesInFlight. stays_all. Qed.
Lemma stays_starting : stays clientStreamStarting.
Proof. unfold clientStreamStarting. stays_all. Qed.
Lemma stays_ending : stays clientStreamEnding.
Proof. unfold clientStreamEnding. stays_all. Qed.
Lemma stays_hal_done b : stays (hal_doneWithFrame b).
Proof.
  unfold hal_doneWithFrame. apply stays_bind; [apply stays_get|]. intros s. destruct (drop_ref _ _); stays_all.
Qed.
#[local] Hint Resolve stays_on_hal stays_change stays_starting stays_ending stays_hal_done : stays.

Lemma stays_stop i : i ≠ id → stays (EvsManager.stopVideoStream i).
Proof.
  intros Hi. unfold EvsManager.stopVideoStream. apply stays_deref; [done|]. intros v Hv. stays_all.
Qed.
Lemma stays_shutdown i : i ≠ id → stays (EvsManager.shutdown i).
Proof.
  intros Hi. unfold EvsManager.shutdown. apply stays_deref; [done|]. intros v Hv. stays_all.
Qed.
Lemma stays_destroy i : i ≠ id → stays (destroy i).
Proof.
  intros Hi. unfold destroy. apply stays_bind; [by apply stays_shutdown|]. intros _. stays_all.
Qed.
Lemma stays_make i : i ≠ id → stays (makeVirtualCamera i).
Proof.
  intros Hi. unfold makeVirtualCamera. apply stays_bind; [by stays_all|]. intros _.
  apply stays_bind; [apply stays_change|]. intros ok. apply stays_if; stays_all; by apply stays_destroy.
Qed.
Lemma stays_disown i : i ≠ id → stays (disownVirtualCamera i).
Proof.
  intros Hi. unfold disownVirtualCamera. apply stays_bind; [by apply stays_stop|]. intros _.
  apply stays_bind; [apply stays_get|]. intros s. apply stays_bind; [apply stays_clients|]. intros _.
  apply stays_bind; [by apply stays_shutdown|]. intros _. stays_all.
Qed.
Lemma stays_set_max i n : i ≠ id → stays (EvsManager.setMaxFramesInFlight i n).
Proof.
  intros Hi. unfold EvsManager.setMaxFramesInFlight. apply stays_deref; [done|]. intros v Hv.
  apply stays_bind; [apply stays_on_hal, stays_change|]. intros ok. stays_all.
Qed.
Lemma stays_start i x : i ≠ id → x ≠ Some st → stays (EvsManager.startVideoStream i x).
Proof.
  intros Hi Hx. unfold EvsManager.startVideoStream. apply stays_deref; [done|]. intros v Hv. stays_all.
Qed.
Lemma stays_client_done i b : i ≠ id → stays (EvsManager.doneWithFrame i b).
Proof.
  intros Hi. unfold EvsManager.doneWithFrame. destruct (memHandle b); [|stays_all].
  apply stays_deref; [done|]. intros v Hv. destruct (take_held _ _); stays_all.
Qed.

(** ** A frame for everybody *)

Definition arrives (b : BufferDesc) (s s' : @HalCamera H) : Prop :=
  ∃ v w, heap s !! id = Some v ∧ heap s' !! id = Some w ∧ lone s'
    ∧ (attached w, vStream w, vFramesAllowed w, alive w) = (attached v, vStream v, vFramesAllowed v, alive v)
    ∧ mFramesHeld w = mFramesHeld v ++ (if is_frame b then [b] else [])
    ∧ (is_frame b = true → Z.of_nat (length (mFramesHeld v)) < vFramesAllowed v)
    ∧ stream_frames st (delivered s') = stream_frames st (delivered s) ++ [b].

Lemma away_arrives b s1 s2 s3 : away s1 s2 → arrives b s2 s3 → arrives b s1 s3.
Proof. intros (A1 & A2 & A3) (v & w & B). destruct_and!. exists v, w. split_and!; first [done | congruence]. Qed.
Lemma arrives_away b s1 s2 s3 : arrives b s1 s2 → away s2 s3 → arrives b s1 s3.
Proof. intros (v & w & B) (A1 & A2 & A3). destruct_and!. exists v, w. split_and!; first [done | congruence]. Qed.

Lemma stays_deliver_other i b : i ≠ id → stays (deliver_virtual i b).
Proof.
  intros Hi. unfold deliver_virtual. apply stays_deref; [done|]. intros v Hv.
  destruct (memHandle b); stays_all.
Qed.
Lemma stays_loop_other ids b n : id ∉ ids → stays (deliver_loop ids b n).
Proof.
  revert n. induction ids as [|i ids IH]; intros n Hn; cbn [deliver_loop]; [apply stays_ret|].
  apply not_elem_of_cons in Hn as [Hi Hn]. apply stays_bind; [apply stays_get|]. intros s.
  destruct (heap s !! i) as [v|]; [|by apply IH]. destruct (alive v); [|by apply IH].
  apply stays_bind; [by apply stays_deliver_other|]. intros ok. by apply IH.
Qed.

Lemma deliver_own b s s' r v :
  lone s → heap s !! id = Some v → vStream v = Some st → deliver_virtual id b s = Val s' r → away s s' ∨ arrives b s s'.
Proof.
  intros Hs Hv Hst. unfold deliver_virtual, deref, set_virtual, send. run_m. rewrite Hv, Hst.
  assert (∀ w, lone (MkHal (mHwCamera s) (mClients s) (mStreamState s) (mFrames s) (<[id := w]> (heap s))
                       (hw_log s) (delivered s ++ [(st, b)]))) as Hl.
  { intros w i u Hi Hu. cbn in Hu. rewrite lookup_insert_ne in Hu by done. by apply (Hs i). }
  assert (stream_frames st (delivered s ++ [(st, b)]) = stream_frames st (delivered s) ++ [b]) as Hf.
  { rewrite stream_frames_app. cbn. by rewrite decide_True. }
  unfold arrives, is_frame. destruct (memHandle b) as [h|] eqn:Eb.
  - rewrite bool_decide_eq_true_2 by done.
    destruct (decide (vState v = EvsManager.STOPPED)); [intros [= <- _]; left; by apply away_refl|].
    destruct (decide (vFramesAllowed v ≤ Z.of_nat (length (mFramesHeld v)))); [intros [= <- _]; left; by apply away_refl|].
    intros [= <- _]. right. eexists v, _. cbn [heap delivered]. rewrite lookup_insert_eq.
    split_and!; first [done | lia | exact Hf | apply Hl | cbn; congruence].
  - rewrite bool_decide_eq_false_2 by (by intros [? ?]). intros [= <- _]. right. eexists v, _. cbn [heap delivered].
    rewrite lookup_insert_eq, app_nil_r. split_and!; first [done | exact Hf | apply Hl | cbn; congruence].
Qed.

Lemma loop_own ids b n s s' r v :
  NoDup ids → lone s → heap s !! id = Some v → vStream v = Some st → deliver_loop ids b n s = Val s' r →
  away s s' ∨ arrives b s s'.
Proof.
  revert n s v. induction ids as [|i ids IH]; intros n s v Hnd Hs Hv Hst Er; cbn [deliver_loop] in Er.
  { injection Er as <- _. left. by apply away_refl. }
  apply list.NoDup_cons in Hnd as [Hni Hnd]. rewrite (bind_val get _ s s s) in Er by done.
  destruct (heap s !! i) as [u|] eqn:Eu; [|by eapply IH]. destruct (alive u); [|by eapply IH].
  apply bind_inv in Er as (s1 & ok & E1 & E2). destruct (decide (i = id)) as [->|Hi].
  - destruct (deliver_own b s s1 ok v Hs Hv Hst E1) as [A1|A1].
    + left. eapply away_trans; [exact A1|]. eapply stays_loop_other; [exact Hni|apply A1|exact E2].
    + right. eapply arrives_away; [exact A1|]. eapply stays_loop_other; [exact Hni| |exact E2].
      destruct A1 as (? & ? & ? & ? & ? & _). done.
  - pose proof (stays_deliver_other i b Hi _ _ _ Hs E1) as A1.
    destruct (IH _ _ v Hnd (proj1 (proj2 A1)) ltac:(rewrite (proj1 A1); exact Hv) Hst E2) as [A2|A2].
    + left. by eapply away_trans.
    + right. by eapply away_arrives.
Qed.

Lemma frame_own b s s' v :
  NoDup (mClients s) → lone s → heap s !! id = Some v → vStream v = Some st → hal_deliverFrame b s = Val s' tt →
  away s s' ∨ arrives b s s'.
Proof.
  intros Hnd Hs Hv Hst. unfold hal_deliverFrame. intros (s1 & [] & E1 & E2)%bind_inv.
  pose proof (stays_log_frame b _ _ _ Hs E1) as A1. injection E1 as <-.
  rewrite (bind_val get _ _ _ _ eq_refl) in E2. apply bind_inv in E2 as (s2 & n & E2 & E3).
  assert (stays (if decide (n < 1) then with_hw (λ h, (hw_doneWithFrame b h, tt)) (λ _, HwDone b)
                 else s ← get; set_frames (record_frame (bufferId b) n (mFrames s)))) as Hlast by stays_all.
  destruct (loop_own _ b 0 _ s2 n v Hnd (proj1 (proj2 A1)) ltac:(rewrite (proj1 A1); exact Hv) Hst E2) as [A2|A2].
  - left. eapply away_trans; [exact A1|]. eapply away_trans; [exact A2|]. eapply Hlast; [apply A2|exact E3].
  - right. eapply away_arrives; [exact A1|]. eapply arrives_away; [exact A2|]. eapply Hlast; [|exact E3].
    destruct A2 as (? & ? & ? & ? & ? & _). done.
Qed.
End frame.

(** ** The system *)

Section system.
Context {H : Type} {HW : HwCamera H} (good : Z → bool) (id st : Z).

Inductive tex_pc : Type := Idle | Checked | Released.
Record System : Type := MkSystem {
  sy_hal : @HalCamera H;
  sy_returns : list BufferDesc;    (* oneway calls the manager has not taken up *)
  sy_handler : StreamHandler;
  sy_received : nat;               (* callbacks the handler has had *)
  sy_image : BufferDesc;           (* mImageBuffer of the texture *)
  sy_pc : tex_pc;                  (* where its refresh is *)
}.
Definition client (s : System) : Client (Link H) := MkClient (MkLink (sy_hal s) (sy_returns s)) (sy_handler s).
Definition with_client (c : Client (Link H)) (n : nat) (image : BufferDesc) (pc : tex_pc) : System :=
  MkSystem (lk_hal (svc c)) (lk_returns (svc c)) (hnd c) n image pc.
(** What the manager sent and the handler has not had. *)
Definition inbox (s : System) : list BufferDesc :=
  drop (sy_received s) (stream_frames st (delivered (sy_hal s))).

Definition foreign (o : hal_call) : bool :=
  match o with
  | OMake i | ODisown i | ODestroy i | OSetMax i _ | OStop i | ODone i _ => bool_decide (i ≠ id)
  | OStart i x => bool_decide (i ≠ id ∧ x ≠ st)
  | OFrame _ => true
  end.

Inductive sys_step (s : System) : System → Prop :=
  | sy_others o hal' :
      foreign o = true → call_ok good (sy_hal s) o = true → run_call o (sy_hal s) = Val hal' tt →
      sys_step s (MkSystem hal' (sy_returns s) (sy_handler s) (sy_received s) (sy_image s) (sy_pc s))
  | sy_return b rest hal' :
      sy_returns s = b :: rest → EvsManager.doneWithFrame id b (sy_hal s) = Val hal' tt →
      sys_step s (MkSystem hal' rest (sy_handler s) (sy_received s) (sy_image s) (sy_pc s))
  | sy_receive b rest c :
      inbox s = b :: rest → deliverFrame b (client s) = Val c tt →
      sys_step s (with_client c (S (sy_received s)) (sy_image s) (sy_pc s))
  | sy_check c :
      sy_pc s = Idle → newFrameAvailable (client s) = Val c true →
      sys_step s (with_client c (sy_received s) (sy_image s)
                    (match memHandle (sy_image s) with Some _ => Checked | None => Released end))
  | sy_release c :
      sy_pc s = Checked → doneWithFrame (sy_image s) (client s) = Val c tt →
      sys_step s (with_client c (sy_received s) (sy_image s) Released)
  | sy_take c b :
      sy_pc s = Released → getNewFrame (client s) = Val c b →
      sys_step s (with_client c (sy_received s) b Idle)
  | sy_stop c :
      asyncStopStream (client s) = Val c tt →
      sys_step s (with_client c (sy_received s) (sy_image s) (sy_pc s)).
Inductive sys_reach (s0 : System) : System → Prop :=
  | sys_start : sys_reach s0 s0
  | sys_next s s' : sys_reach s0 s → sys_step s s' → sys_reach s0 s'.

Definition ids (l : list BufferDesc) : list Z := bufferId <$> l.
(** The frames the application has or is about to have. *)
Definition app_frames (s : System) : list BufferDesc :=
  frames (abs (sy_handler s)) ++ List.filter is_frame (inbox s).

Record camera_ok (hal : @HalCamera H) (v : VirtualCamera) : Prop := {
  co_lookup : heap hal !! id = Some v;
  co_stream : vStream v = Some st;
  co_attached : attached v = true;
  co_allowed : vFramesAllowed v ≤ 2;
  co_room : (length (mFramesHeld v) ≤ 2)%nat;
  co_lone : lone id st hal;
  co_hal : hal_ok good hal;
}.
Record texture_ok (s : System) : Prop := {
  to_handler : handler_ok (sy_handler s);
  to_camera : mCamera (sy_handler s) = Some id;
  to_frames : Forall (λ b, is_frame b = true) (frames (abs (sy_handler s)));
  to_image : sy_pc s ≠ Released → sy_image s = default nullBuff (held (abs (sy_handler s)));
  to_waiting : sy_pc s ≠ Idle → is_Some (waiting (abs (sy_handler s)));
  to_checked : sy_pc s = Checked → is_Some (held (abs (sy_handler s)));
  to_free : sy_pc s = Released → held (abs (sy_handler s)) = None;
}.
Record sys_ok (s : System) : Prop := {
  sok_camera : ∃ v, camera_ok (sy_hal s) v ∧ ids (mFramesHeld v) ≡ₚ ids (app_frames s ++ sy_returns s);
  sok_returns : Forall (λ b, is_frame b = true) (sy_returns s);
  sok_texture : texture_ok s;
  sok_received : (sy_received s ≤ length (stream_frames st (delivered (sy_hal s))))%nat;
}.

Lemma foreign_call o hal hal' v :
  hal_ok good hal → lone id st hal → heap hal !! id = Some v → vStream v = Some st →
  foreign o = true → run_call o hal = Val hal' tt →
  away id st hal hal' ∨ ∃ b, o = OFrame b ∧ arrives id st b hal hal'.
Proof.
  intros Hok Hl Hv Hst Hf Er.
  assert (∀ A (m : M (@HalCamera H) A), stays id st m → (m;; mret tt) hal = Val hal' tt → away id st hal hal') as Hs.
  { intros A m Hm (h1 & x & E1 & [= <-])%bind_inv. exact (Hm _ _ _ Hl E1). }
  destruct o as [i|i|i|i n|i x|i|i b|b]; cbn in Hf; try apply bool_decide_eq_true in Hf; cbn [run_call] in Er.
  - left. eapply Hs; [by apply stays_make|exact Er].
  - left. by eapply stays_disown.
  - left. by eapply stays_destroy.
  - left. eapply Hs; [by apply stays_set_max|exact Er].
  - left. destruct Hf as [Hi Hx]. eapply Hs; [|exact Er]. apply stays_start; [done|congruence].
  - left. by eapply stays_stop.
  - left. by eapply stays_client_done.
  - destruct (frame_own id st b hal hal' v) as [A|A]; [apply Hok|done..|by left|right]. by exists b.
Qed.

Lemma take_held_ids x l l' : take_held x l = Some l' → ids l ≡ₚ x :: ids l' ∧ length l = S (length l').
Proof.
  revert l'. induction l as [|b l IH]; intros l'; cbn; [done|]. destruct (decide (bufferId b = x)) as [<-|].
  - by intros [= <-].
  - destruct (take_held x l) as [l1|]; [|done]. cbn. intros [= <-]. destruct (IH l1 eq_refl) as [-> ->].
    cbn. split; [apply Permutation_swap|done].
Qed.
Lemma take_held_in x l : x ∈ ids l → is_Some (take_held x l).
Proof.
  induction l as [|b l IH]; cbn; [by intros ?%elem_of_nil|]. intros Hx.
  destruct (decide (bufferId b = x)); [by eexists|]. apply elem_of_cons in Hx as [->|Hx]; [done|].
  destruct (IH Hx) as [l' ->]. by eexists.
Qed.

(** A frame the manager lent comes back. *)
Lemma own_done b hal v z :
  camera_ok hal v → memHandle b = Some z → bufferId b ∈ ids (mFramesHeld v) →
  ∃ hal' v', EvsManager.doneWithFrame id b hal = Val hal' tt ∧ camera_ok hal' v'
    ∧ ids (mFramesHeld v) ≡ₚ bufferId b :: ids (mFramesHeld v')
    ∧ stream_frames st (delivered hal') = stream_frames st (delivered hal).
Proof.
  intros [C1 C2 C3 C4 C5 C6 C7] Hz Hb. destruct (take_held_in _ _ Hb) as [l El].
  destruct (take_held_ids _ _ _ El) as [Hp Hlen].
  destruct (client_done_spec good id b v hal C7 C1 C3) as (hal' & E & Hok').
  set (v' := MkVirtual (attached v) (vStream v) l (vFramesAllowed v) (vState v) (alive v)).
  assert (away id st (MkHal (mHwCamera hal) (mClients hal) (mStreamState hal) (mFrames hal) (<[id := v']> (heap hal))
                 (hw_log hal) (delivered hal)) hal') as (A1 & A2 & A3).
  { revert E. unfold EvsManager.doneWithFrame, deref, set_virtual, on_hal. rewrite Hz. run_m. rewrite C1, El, C3.
    intros E. unfold v'. rewrite C3. eapply stays_hal_done; [|exact E]. intros i w Hi Hw. cbn in Hw. rewrite lookup_insert_ne in Hw by done.
    by apply (C6 i). }
  cbn in A1, A3. rewrite lookup_insert_eq in A1.
  exists hal', v'. split; [done|]. split; [|done]. split; try done. cbn. lia.
Qed.
Lemma own_stop hal v :
  camera_ok hal v →
  ∃ hal' v', EvsManager.stopVideoStream id hal = Val hal' tt ∧ camera_ok hal' v' ∧ mFramesHeld v' = mFramesHeld v
    ∧ (stream_frames st (delivered hal') = stream_frames st (delivered hal)
       ∨ stream_frames st (delivered hal') = stream_frames st (delivered hal) ++ [nullBuff]).
Proof.
  intros [C1 C2 C3 C4 C5 C6 C7].
  destruct (stop_spec good id v hal C7 C1) as (hal' & w & E & Hok' & _).
  destruct (decide (vState v = RUNNING)) as [Er|Er].
  2: { assert (hal' = hal) as ->.
       { revert E. unfold EvsManager.stopVideoStream, deref. run_m. rewrite C1, decide_False by done. by intros [= <-]. }
       exists hal, v. split; [done|]. split; [by split|]. auto. }
  set (v' := MkVirtual (attached v) (vStream v) (mFramesHeld v) (vFramesAllowed v) EvsManager.STOPPED (alive v)).
  assert (away id st (MkHal (mHwCamera hal) (mClients hal) (mStreamState hal) (mFrames hal) (<[id := v']> (heap hal))
                 (hw_log hal) (delivered hal ++ [(st, nullBuff)])) hal') as (A1 & A2 & A3).
  { revert E. unfold EvsManager.stopVideoStream, deref, set_virtual, on_hal, send. run_m.
    rewrite C1, decide_True, C2, C3 by done. intros E. unfold v'. rewrite C2, C3. eapply stays_ending; [|exact E].
    intros i x Hi Hx. cbn in Hx. rewrite lookup_insert_ne in Hx by done. by apply (C6 i). }
  cbn [heap delivered] in A1, A3. rewrite lookup_insert_eq in A1. rewrite stream_frames_app in A3.
  exists hal', v'. split; [done|]. split; [by split|]. split; [done|]. right. rewrite A3. cbn. by rewrite decide_True.
Qed.

(** ** Operations of the handler *)

Lemma send_all ret (l : Link H) :
  for_each ret (svc_doneWithFrame id) l = Val (MkLink (lk_hal l) (lk_returns l ++ ret)) tt.
Proof.
  revert l. induction ret as [|b ret IH]; intros [hal rs]; cbn [for_each]; [by rewrite app_nil_r|].
  etrans; [exact (IH (MkLink hal (rs ++ [b])))|]. cbn. by rewrite <- app_assoc.
Qed.

Lemma mail_ok o s m' ret x :
  texture_ok s → mail_step (abs (sy_handler s)) o = Some (m', ret, x) →
  ∃ h', run_mail o (client s) = Val (MkClient (MkLink (sy_hal s) (sy_returns s ++ ret)) h') x
    ∧ handler_ok h' ∧ mCamera h' = Some id ∧ abs h' = m' ∧ Forall (λ b, is_frame b = true) (frames m')
    ∧ Forall (λ b, is_frame b = true) ret
    ∧ ret ++ frames m' ≡ₚ frames (abs (sy_handler s)) ++ delivered_frames [o].
Proof.
  intros [T1 T2 T3 _ _ _ _] Hm. pose proof (mail_conserves_step _ _ _ _ _ Hm) as Hcons.
  assert (Forall (λ b, is_frame b = true) (ret ++ frames m')) as Hf.
  { rewrite Hcons. apply Forall_app. split; [done|]. unfold delivered_frames. destruct o as [b| |b]; cbn; try constructor.
    destruct (is_frame b) eqn:Eb; by repeat constructor. }
  apply Forall_app in Hf as [Hf1 Hf2].
  destruct (mail_refines_step o (client s) id m' ret x T1 T2 Hm) as (h' & H1 & H2 & H3 & _ & Er).
  rewrite send_all in Er. exists h'. by split_and!.
Qed.

(** The frames in flight after an operation of the handler. *)
Lemma held_after v s m' ret o frest :
  ids (mFramesHeld v) ≡ₚ ids ((frames (abs (sy_handler s)) ++ delivered_frames [o] ++ frest) ++ sy_returns s) →
  ret ++ frames m' ≡ₚ frames (abs (sy_handler s)) ++ delivered_frames [o] →
  ids (mFramesHeld v) ≡ₚ ids ((frames m' ++ frest) ++ sy_returns s ++ ret).
Proof.
  intros -> Hc. unfold ids. apply fmap_Permutation. rewrite (app_assoc (frames _) (delivered_frames _)), <- Hc.
  rewrite <- !app_assoc. rewrite (Permutation_app_comm ret). rewrite <- !app_assoc. done.
Qed.

Lemma run_deliver b c c' : run_mail (MDeliver b) c = Val c' None ↔ deliverFrame b c = Val c' tt.
Proof.
  cbn [run_mail]. split.
  - by intros (c1 & [] & E1 & [= <-])%bind_inv.
  - intros E1. by rewrite (bind_val _ _ _ _ _ E1).
Qed.
Lemma run_done b c c' : run_mail (MDone b) c = Val c' None ↔ doneWithFrame b c = Val c' tt.
Proof.
  cbn [run_mail]. split.
  - by intros (c1 & [] & E1 & [= <-])%bind_inv.
  - intros E1. by rewrite (bind_val _ _ _ _ _ E1).
Qed.
Lemma run_take b c c' : run_mail MTake c = Val c' (Some b) ↔ getNewFrame c = Val c' b.
Proof.
  cbn [run_mail]. split.
  - by intros (c1 & x & E1 & [= <- <-])%bind_inv.
  - intros E1. by rewrite (bind_val _ _ _ _ _ E1).
Qed.

Lemma receive_ok s b rest :
  sys_ok s → inbox s = b :: rest →
  ∃ c, deliverFrame b (client s) = Val c tt
    ∧ sys_ok (with_client c (S (sy_received s)) (sy_image s) (sy_pc s)).
Proof.
  intros [(v & Hc & Hp) Hret Ht Hr] Hi.
  set (m := abs (sy_handler s)).
  assert (∃ m' ret, mail_step m (MDeliver b) = Some (m', ret, None) ∧ held m' = held m
            ∧ (is_Some (waiting m) → is_Some (waiting m'))) as (m' & ret & Hm & Hh & Hw).
  { cbn. destruct (memHandle b); eexists _, _; (split; [reflexivity|]); by split. }
  destruct (mail_ok (MDeliver b) s m' ret None Ht Hm) as (h' & Er & H1 & H2 & H3 & H4 & H5 & H6).
  apply run_deliver in Er. eexists. split; [exact Er|].
  set (s' := with_client _ _ _ _).
  assert (inbox s' = rest) as Hi'.
  { unfold inbox in Hi |- *. cbn. by rewrite <- skipn_skipn with (x := 1%nat), Hi. }
  split.
  - exists v. split; [done|]. unfold app_frames. rewrite Hi'. cbn [s' with_client sy_handler hnd sy_returns svc lk_returns]. rewrite H3.
    apply (held_after v s m' ret (MDeliver b)); [|done]. rewrite Hp. unfold app_frames. rewrite Hi. unfold delivered_frames.
    cbn. by destruct (is_frame b).
  - by apply Forall_app.
  - destruct Ht as [_ _ _ T4 T5 T6 T7]. fold m in T4, T5, T6, T7.
    split; cbn [s' with_client sy_handler sy_pc sy_image hnd]; rewrite ?H3, ?Hh; auto.
  - cbn. unfold inbox in Hi. apply (f_equal length) in Hi. rewrite length_drop in Hi. cbn in Hi. lia.
Qed.

(** The manager takes up a return. *)
Lemma return_ok s b rest :
  sys_ok s → sy_returns s = b :: rest →
  ∃ hal', EvsManager.doneWithFrame id b (sy_hal s) = Val hal' tt
    ∧ sys_ok (MkSystem hal' rest (sy_handler s) (sy_received s) (sy_image s) (sy_pc s)).
Proof.
  intros [(v & Hc & Hp) Hret Ht Hr] Hb. rewrite Hb in Hret, Hp. apply Forall_cons_1 in Hret as [Hfb Hret].
  unfold is_frame in Hfb. apply bool_decide_eq_true in Hfb as [z Hz].
  destruct (own_done b (sy_hal s) v z Hc Hz) as (hal' & v' & E & Hc' & Hp' & Hs').
  { rewrite Hp. unfold ids. rewrite fmap_app. set_solver. }
  exists hal'. split; [done|]. split; [|done|by destruct Ht|cbn; by rewrite Hs'].
  exists v'. split; [done|]. unfold app_frames, inbox. cbn. rewrite Hs'. fold (inbox s). fold (app_frames s).
  apply (Permutation_cons_inv (a := bufferId b)). rewrite <- Hp', Hp. unfold ids. rewrite !fmap_app. cbn.
  by rewrite Permutation_middle.
Qed.

(** The three parts of a refresh. *)
Lemma check_ok s :
  sys_ok s → sy_pc s = Idle → newFrameAvailable (client s) = Val (client s) true →
  sys_ok (with_client (client s) (sy_received s) (sy_image s)
            (match memHandle (sy_image s) with Some _ => Checked | None => Released end)).
Proof.
  intros [Hv Hret [T1 T2 T3 T4 T5 T6 T7] Hr] Hpc Ha. rewrite Hpc in *. split; [exact Hv|exact Hret| |exact Hr].
  unfold newFrameAvailable, handler in Ha. run_m_in Ha. cbn in Ha. injection Ha as Ha. apply bool_decide_eq_true in Ha.
  assert (is_Some (waiting (abs (sy_handler s)))) as Hw.
  { destruct T1 as [_ Hrd _]. unfold abs, slot. cbn. destruct Hrd as [E|[-> | ->]]; [lia|by eexists|by eexists]. }
  specialize (T4 ltac:(done)).
  assert (memHandle (sy_image s) = None ↔ held (abs (sy_handler s)) = None) as Him.
  { rewrite T4. destruct (held (abs (sy_handler s))) as [f|] eqn:Eh; cbn; [|done].
    unfold frames in T3. rewrite Eh in T3. cbn in T3. apply Forall_cons_1 in T3 as [Hf _].
    unfold is_frame in Hf. apply bool_decide_eq_true in Hf as [z ->]. done. }
  split; cbn [with_client sy_handler sy_pc sy_image hnd client svc]; auto.
  - destruct (memHandle (sy_image s)) eqn:Em; [|done]. intros _.
    destruct (held (abs (sy_handler s))) eqn:Eh; [by eexists|].
    discriminate (proj2 Him eq_refl).
  - destruct (memHandle (sy_image s)) eqn:Em; [done|]. intros _. by apply Him.
Qed.

Lemma release_ok s :
  sys_ok s → sy_pc s = Checked →
  ∃ c, doneWithFrame (sy_image s) (client s) = Val c tt ∧ sys_ok (with_client c (sy_received s) (sy_image s) Released).
Proof.
  intros [(v & Hc & Hp) Hret Ht Hr] Hpc. destruct Ht as [T1 T2 T3 T4 T5 T6 T7] eqn:Et. clear Et.
  destruct (T6 Hpc) as [f Hf].
  assert (mail_step (abs (sy_handler s)) (MDone (sy_image s))
            = Some (MkMailbox None (waiting (abs (sy_handler s))), [f], None)) as Hm by (cbn [mail_step]; by rewrite Hf).
  destruct (mail_ok _ s _ _ _ Ht Hm) as (h' & Er & H1 & H2 & H3 & H4 & H5 & H6).
  apply run_done in Er. eexists. split; [exact Er|].
  split; cbn [with_client sy_hal sy_returns svc sy_received lk_hal lk_returns]; [|by apply Forall_app| |exact Hr].
  - exists v. split; [done|]. unfold app_frames, inbox. cbn [with_client sy_hal svc sy_handler hnd sy_received lk_hal]. rewrite H3.
    by apply (held_after v s _ [f] (MDone (sy_image s))).
  - split; cbn [with_client sy_handler sy_pc sy_image hnd]; rewrite ?H3; try done. intros _. apply T5. by rewrite Hpc.
Qed.

Lemma take_ok s :
  sys_ok s → sy_pc s = Released →
  ∃ c b, getNewFrame (client s) = Val c b ∧ waiting (abs (sy_handler s)) = Some b ∧ is_frame b = true
    ∧ sys_ok (with_client c (sy_received s) b Idle).
Proof.
  intros [(v & Hc & Hp) Hret Ht Hr] Hpc. destruct Ht as [T1 T2 T3 T4 T5 T6 T7] eqn:Et. clear Et.
  destruct (T5 ltac:(by rewrite Hpc)) as [b Hw]. specialize (T7 Hpc).
  assert (mail_step (abs (sy_handler s)) MTake = Some (MkMailbox (Some b) None, [], Some b)) as Hm by (cbn [mail_step]; by rewrite T7, Hw).
  destruct (mail_ok _ s _ _ _ Ht Hm) as (h' & Er & H1 & H2 & H3 & H4 & H5 & H6).
  apply run_take in Er. eexists _, b. split; [exact Er|]. split; [done|].
  split; [unfold frames in T3; rewrite T7, Hw in T3; by apply Forall_cons_1 in T3 as [? _]|].
  split; cbn [with_client sy_hal sy_returns svc sy_received lk_hal lk_returns]; [|by apply Forall_app| |exact Hr].
  - exists v. split; [done|]. unfold app_frames, inbox. cbn [with_client sy_hal svc sy_handler hnd sy_received lk_hal]. rewrite H3.
    by apply (held_after v s _ [] MTake).
  - split; cbn [with_client sy_handler sy_pc sy_image hnd]; rewrite ?H3; done.
Qed.

Lemma stop_ok s :
  sys_ok s → ∃ c, asyncStopStream (client s) = Val c tt ∧ sys_ok (with_client c (sy_received s) (sy_image s) (sy_pc s)).
Proof.
  intros [(v & Hc & Hp) Hret Ht Hr]. destruct (own_stop (sy_hal s) v Hc) as (hal' & v' & E & Hc' & Hh & Hs).
  exists (MkClient (MkLink hal' (sy_returns s)) (sy_handler s)). split.
  { unfold asyncStopStream, on_camera, handler, call, at_manager. run_m. cbn. rewrite (to_camera s Ht). cbn. unfold at_manager, zoom. cbn. by rewrite E. }
  assert (inbox (with_client (MkClient (MkLink hal' (sy_returns s)) (sy_handler s)) (sy_received s) (sy_image s) (sy_pc s)) = inbox s
          ∨ inbox (with_client (MkClient (MkLink hal' (sy_returns s)) (sy_handler s)) (sy_received s) (sy_image s) (sy_pc s)) = inbox s ++ [nullBuff]) as Hi.
  { unfold inbox. cbn [with_client sy_hal svc sy_received lk_hal].
    destruct Hs as [-> | ->]; [by left|right]. by rewrite drop_app_le. }
  split; [|exact Hret| |cbn; destruct Hs as [-> | ->]; rewrite ?length_app; lia].
  - exists v'. split; [done|]. rewrite Hh, Hp. unfold app_frames. destruct Hi as [-> | ->]; [done|].
    rewrite List.filter_app. cbn. by rewrite app_nil_r.
  - destruct Ht as [T1 T2 T3 T4 T5 T6 T7]. by split.
Qed.

Lemma others_ok s o hal' :
  sys_ok s → foreign o = true → call_ok good (sy_hal s) o = true → run_call o (sy_hal s) = Val hal' tt →
  sys_ok (MkSystem hal' (sy_returns s) (sy_handler s) (sy_received s) (sy_image s) (sy_pc s)).
Proof.
  intros [(v & [C1 C2 C3 C4 C5 C6 C7] & Hp) Hret [T1 T2 T3 T4 T5 T6 T7] Hr] Hf Hg Er.
  assert (hal_ok good hal') as Hok' by (destruct (call_spec good (sy_hal s) o C7 Hg) as (x & E & Hx); congruence).
  destruct (foreign_call o (sy_hal s) hal' v C7 C6 C1 C2 Hf Er) as [(A1 & A2 & A3)|(b & -> & (v0 & w & B1 & B2 & B3 & B4 & B5 & B6 & B7))].
  - split; cbn; [|done|by split|by rewrite A3].
    exists v. split; [split; try done; by rewrite A1|]. rewrite Hp. unfold app_frames, inbox. cbn. by rewrite A3.
  - assert (v0 = v) as -> by congruence. injection B4 as W1 W2 W3 W4.
    split; cbn; [|done|by split|rewrite B7, length_app; lia].
    exists w. split.
    + split; try done; try congruence. rewrite B5, length_app. destruct (is_frame b); cbn; [|lia]. specialize (B6 eq_refl). lia.
    + rewrite B5. unfold ids. rewrite fmap_app. fold (ids (mFramesHeld v)). rewrite Hp. unfold app_frames, inbox.
      cbn. rewrite B7, drop_app_le, List.filter_app by done. unfold ids. rewrite !fmap_app. cbn.
      destruct (is_frame b); cbn; rewrite ?app_nil_r; [|done]. solve_Permutation.
Qed.
Lemma sys_keep s s' : sys_ok s → sys_step s s' → sys_ok s'.
Proof.
  intros Hs Hst. destruct Hst as [o hal' Hf Hg Er|b rest hal' Hb E|b rest c Hi E|c Hpc E|c Hpc E|c b Hpc E|c E].
  - by apply (others_ok s o).
  - destruct (return_ok s b rest Hs Hb) as (hal1 & E' & Hs'). by replace hal' with hal1 by congruence.
  - destruct (receive_ok s b rest Hs Hi) as (c' & E' & Hs'). by replace c with c' by congruence.
  - assert (c = client s) as -> by (unfold newFrameAvailable, handler in E; run_m_in E; by injection E as <- _).
    by apply check_ok.
  - destruct (release_ok s Hs Hpc) as (c' & E' & Hs'). by replace c with c' by congruence.
  - destruct (take_ok s Hs Hpc) as (c' & b' & E' & _ & _ & Hs').
    by replace c with c' by congruence; replace b with b' by congruence.
  - destruct (stop_ok s Hs) as (c' & E' & Hs'). by replace c with c' by congruence.
Qed.
Lemma sys_reach_ok s0 s : sys_ok s0 → sys_reach s0 s → sys_ok s.
Proof. induction 2; [done|]. by eapply sys_keep. Qed.

(** ** The start of a stream *)

(** The camera is open, never streamed, and nobody has used the stream. *)
Record fresh_camera (hal : @HalCamera H) : Prop := {
  fr_hal : hal_ok good hal;
  fr_camera : ∃ v, heap hal !! id = Some v ∧ attached v = true ∧ mFramesHeld v = [] ∧ vFramesAllowed v = 1;
  fr_lone : lone id st hal;
  fr_unused : stream_frames st (delivered hal) = [];
}.
(** The texture is made: the handler, which asks for two frames, and its stream. *)
Definition stream_up (hal : @HalCamera H) (c : Client (Link H)) : Prop :=
  ∃ c0, StreamHandler_new id (MkLink hal []) = Val c0 tt ∧ startStream st c0 = Val c true.
Definition start (c : Client (Link H)) : System := with_client c 0 nullBuff Idle.

Lemma lone_put (s : @HalCamera H) w : lone id st s → lone id st (put_virtual id w s).
Proof. intros Hs i u Hi Hu. cbn in Hu. rewrite lookup_insert_ne in Hu by done. by apply (Hs i). Qed.

Lemma own_set_max hal hal' r v :
  lone id st hal → heap hal !! id = Some v → attached v = true → vFramesAllowed v ≤ 2 →
  EvsManager.setMaxFramesInFlight id 2 hal = Val hal' r →
  ∃ w, heap hal' !! id = Some w ∧ attached w = true ∧ mFramesHeld w = mFramesHeld v ∧ vFramesAllowed w ≤ 2
    ∧ lone id st hal' ∧ stream_frames st (delivered hal') = stream_frames st (delivered hal).
Proof.
  intros Hl Hv Ha Hq. unfold EvsManager.setMaxFramesInFlight. intros (h1 & v1 & E1 & E2)%bind_inv.
  unfold deref in E1. run_m_in E1. rewrite Hv in E1. injection E1 as <- <-.
  apply bind_inv in E2 as (h2 & ok & E2 & E3). unfold on_hal in E2. rewrite Ha in E2.
  destruct (stays_change id st _ _ _ _ Hl E2) as (A1 & A2 & A3). rewrite Hv in A1.
  destruct ok; unfold deref, set_virtual in E3; run_m_in E3.
  - rewrite A1 in E3. injection E3 as <- _. eexists. cbn [heap delivered]. rewrite lookup_insert_eq.
    split; [reflexivity|]. cbn [attached mFramesHeld vFramesAllowed]. split_and!; [done|done|lia|by apply lone_put|done].
  - injection E3 as <- _. by exists v.
Qed.

Lemma own_start hal hal' v :
  lone id st hal → heap hal !! id = Some v → attached v = true → mFramesHeld v = [] →
  EvsManager.startVideoStream id (Some st) hal = Val hal' EOK →
  ∃ w, heap hal' !! id = Some w ∧ vStream w = Some st ∧ attached w = true ∧ mFramesHeld w = mFramesHeld v
    ∧ vFramesAllowed w = vFramesAllowed v ∧ lone id st hal'
    ∧ stream_frames st (delivered hal') = stream_frames st (delivered hal).
Proof.
  intros Hl Hv Ha Hh. unfold EvsManager.startVideoStream. intros (h1 & v1 & E1 & E2)%bind_inv.
  unfold deref in E1. run_m_in E1. rewrite Hv in E1. injection E1 as <- <-.
  destruct (decide (vState v = EvsManager.STOPPED)); [|by injection E2].
  rewrite Hh in E2. rewrite (decide_True (P := [] = [])) in E2 by done.
  apply bind_inv in E2 as (h0 & [] & [= <-] & E2).
  apply bind_inv in E2 as (h2 & [] & E2 & E3). apply bind_inv in E3 as (h3 & r & E3 & E4).
  unfold on_hal in E3. rewrite Ha in E3, E2. injection E2 as <-.
  destruct (stays_starting id st _ _ _ (lone_put hal _ Hl) E3) as (A1 & A2 & A3).
  cbn [heap put_virtual] in A1. rewrite lookup_insert_eq in A1.
  destruct (decide (r = EOK)).
  - injection E4 as <-. eexists. split; [exact A1|]. cbn. done.
  - unfold set_virtual in E4. run_m_in E4. discriminate E4.
Qed.

Lemma start_ok hal c : fresh_camera hal → stream_up hal c → sys_ok (start c).
Proof.
  intros [Hok (v & Hv & Ha & Hh & Hq) Hl Hu] (c0 & En & Es).
  destruct (set_max_spec good id 2 v hal Hok Hv Ha) as (hal0 & r & Em & Hok0).
  destruct (own_set_max hal hal0 r v Hl Hv Ha ltac:(lia) Em) as (v0 & Hv0 & Ha0 & Hh0 & Hq0 & Hl0 & Hu0).
  unfold StreamHandler_new, call in En. run_m_in En. cbn in En. unfold at_manager, zoom in En. cbn in En. rewrite Em in En. cbn in En. injection En as <-.
  destruct (start_spec good id st v0 hal0 Hok0 Hv0 Ha0) as (hal1 & r1 & Et & Hok1); [congruence|].
  unfold startStream, on_camera, handler, call, upd in Es. run_m_in Es. cbn in Es. unfold at_manager, zoom in Es. cbn in Es. rewrite Et in Es. cbn in Es.
  destruct (decide (r1 = EOK)) as [->|]; [|discriminate Es]. cbn in Es. injection Es as <-.
  destruct (own_start hal0 hal1 v0 Hl0 Hv0 Ha0 ltac:(congruence) Et) as (w & Hw & W1 & W2 & W3 & W4 & Hl1 & Hu1).
  assert (mFramesHeld w = []) as Wh by congruence.
  assert (stream_frames st (delivered hal1) = []) as Wu by congruence.
  split.
  - exists w. split; [split; try done; [lia|rewrite Wh; cbn; lia]|]. unfold app_frames, inbox. cbn. by rewrite Wu, Wh.
  - constructor.
  - split; cbn; try done. split; cbn; auto.
  - cbn. lia.
Qed.


(** A frame that comes in while another waits sends the waiting one back. *)
Lemma deliver_over b w z l h :
  handler_ok h → mCamera h = Some id → waiting (abs h) = Some w → memHandle b = Some z →
  ∃ h', deliverFrame b (MkClient l h) = Val (MkClient (MkLink (lk_hal l) (lk_returns l ++ [w])) h') tt.
Proof.
  intros H1 H2 Hw Hb.
  assert (mail_step (abs h) (MDeliver b) = Some (MkMailbox (held (abs h)) (Some b), [w], None)) as Hm
    by (cbn [mail_step]; by rewrite Hb, Hw).
  destruct (mail_refines_step _ (MkClient l h) id _ _ _ H1 H2 Hm) as (h' & _ & _ & _ & _ & E).
  exists h'. apply run_deliver. by rewrite send_all in E.
Qed.

(** C36: closing the camera while a frame is on its way brings the manager down.  The texture
    stops the stream and closes the camera without waiting for the end of the stream; when
    another frame is waiting in the handler, the late callback gives that one back to a
    camera that has already lost its hardware: the oneway call is sent, and the manager
    dereferences a null pointer as it takes it up, as it does for any return that was still
    on its way when the camera was closed. *)
Theorem evs_close_race hal c s b rest w z :
  fresh_camera hal → stream_up hal c → sys_reach (start c) s →
  waiting (abs (sy_handler s)) = Some w → inbox s = b :: rest → memHandle b = Some z →
  ∃ c' c'', (asyncStopStream;; call (at_manager (disownVirtualCamera id))) (client s) = Val c' tt
    ∧ deliverFrame b c' = Val c'' tt
    ∧ lk_hal (svc c'') = lk_hal (svc c') ∧ lk_returns (svc c'') = sy_returns s ++ [w]
    ∧ ∀ x, x ∈ lk_returns (svc c'') → EvsManager.doneWithFrame id x (lk_hal (svc c'')) = Ub.
Proof.
  intros Hf Hu Hr Hw Hi Hb. pose proof (sys_reach_ok _ s (start_ok hal c Hf Hu) Hr) as Hok.
  destruct (stop_ok s Hok) as (c1 & E1 & [(v & Hc & Hp) Hret [T1 T2 T3 _ _ _ _] _]).
  destruct (disown_keeps good id v (lk_hal (svc c1)) (co_hal _ _ Hc) (co_lookup _ _ Hc)) as (hal' & u & E2 & _ & Hh & Wh & Wa).
  assert (hnd c1 = sy_handler s ∧ lk_returns (svc c1) = sy_returns s) as [Eh Er].
  { revert E1. unfold asyncStopStream, on_camera, handler, call. run_m. cbn [hnd client].
    destruct (mCamera (sy_handler s)); [|done]. run_m. cbn [svc svc_stopVideoStream manager_cameras]. unfold at_manager, zoom. cbn [lk_hal].
    destruct (EvsManager.stopVideoStream _ _) as [? []| |]; [|done|done]. by intros [= <-]. }
  set (l' := MkLink hal' (sy_returns s)).
  destruct (deliver_over b w z l' (hnd c1)) as [h' E3]; [done|done|by rewrite Eh|done|].
  exists (MkClient l' (hnd c1)). eexists. split.
  { rewrite (bind_val _ _ _ _ _ E1). unfold call, at_manager, zoom. by rewrite E2, Er. }
  split; [exact E3|]. split; [done|]. split; [done|]. cbn [svc lk_hal lk_returns l'].
  cbn [with_client sy_handler sy_hal sy_returns] in *. rewrite Er in *. rewrite Eh in *.
  assert (Forall (λ b, is_frame b = true) (sy_returns s ++ [w])) as Hall.
  { apply Forall_app. split; [done|]. unfold frames in T3. rewrite Hw in T3. by apply Forall_app in T3 as [_ T3]. }
  intros x Hx. assert (is_frame x = true) as Hfx by (rewrite List.Forall_forall in Hall; by apply Hall, list_elem_of_In).
  unfold is_frame in Hfx. apply bool_decide_eq_true in Hfx as [zx Hzx].
  apply (detached_done id x u zx); [rewrite Hh; apply lookup_insert_eq|done| |done].
  rewrite Wh. apply take_held_in. rewrite Hp. unfold app_frames, frames. cbn [with_client sy_handler].
  rewrite Eh, Hw. unfold ids. apply (list_elem_of_fmap_2 bufferId). rewrite !elem_of_app in *.
  destruct Hx as [Hx|Hx]; [by right|]. left. left. by right.
Qed.
End system.

(** ** A run *)

(** The camera is opened; the application makes its stream; a frame comes in, the handler
    takes it, and the next one is on its way. *)
Definition app_hal : @HalCamera HwProcess := Eval vm_compute in hal_of (run_calls [OMake 1] ex_hal0).
Definition client_of {A} (o : outcome (Client (Link HwProcess)) A) : Client (Link HwProcess) :=
  match o with Val c _ => c | _ => MkClient (MkLink ex_hal0 []) (MkHandler None false nullBuff nullBuff (-1) (-1)) end.
Definition app_client0 : Client (Link HwProcess) := Eval vm_compute in client_of (StreamHandler_new 1 (MkLink app_hal [])).
Definition app_client : Client (Link HwProcess) := Eval vm_compute in client_of (startStream 11 app_client0).
Definition app_sys0 : @System HwProcess := Eval vm_compute in start app_client.
Definition frame_in (x : Z) (s : @System HwProcess) : @System HwProcess :=
  MkSystem (hal_of (hal_deliverFrame (frame x) (sy_hal s))) (sy_returns s) (sy_handler s) (sy_received s) (sy_image s) (sy_pc s).
Definition app_sys1 : @System HwProcess := Eval vm_compute in frame_in 0 app_sys0.
Definition app_client1 : Client (Link HwProcess) := Eval vm_compute in client_of (deliverFrame (frame 0) (client app_sys1)).
Definition app_sys2 : @System HwProcess := Eval vm_compute in with_client app_client1 1 nullBuff Idle.
Definition app_sys3 : @System HwProcess := Eval vm_compute in frame_in 1 app_sys2.

(** The second frame replaces the first, which is then on its way back. *)
Definition app_client4 : Client (Link HwProcess) := Eval vm_compute in client_of (deliverFrame (frame 1) (client app_sys3)).
Definition app_sys4 : @System HwProcess := Eval vm_compute in with_client app_client4 2 nullBuff Idle.

Lemma app_fresh : fresh_camera every 1 11 app_hal.
Proof.
  split.
  - apply (reach_ok every any_call ex_process).
    apply (run_reach every any_call [OMake 1] ex_process ex_hal0); [apply hal_reach_new|vm_compute; reflexivity|].
    vm_compute. auto.
  - eexists. split; [vm_compute; reflexivity|]. done.
  - intros i w _ Hw.
    assert (map_Forall (λ _ w, vStream w ≠ Some 11) (heap app_hal)) as Hall by (refine (bool_decide_unpack _ _); vm_compute; exact I).
    exact (Hall i w Hw).
  - reflexivity.
Qed.
Lemma app_up : stream_up 1 11 app_hal app_client.
Proof. exists app_client0. split; vm_compute; reflexivity. Qed.
Lemma app_reach : sys_reach every 1 11 app_sys0 app_sys3.
Proof.
  eapply (sys_next _ _ _ _ app_sys2); [eapply (sys_next _ _ _ _ app_sys1); [eapply (sys_next _ _ _ _ app_sys0); [constructor|]|]|].
  - apply (sy_others every 1 11 app_sys0 (OFrame (frame 0))); vm_compute; reflexivity.
  - apply (sy_receive every 1 11 app_sys1 (frame 0) [] app_client1); vm_compute; reflexivity.
  - apply (sy_others every 1 11 app_sys2 (OFrame (frame 1))); vm_compute; reflexivity.
Qed.

Lemma app_reach4 : sys_reach every 1 11 app_sys0 app_sys4.
Proof.
  apply (sys_next _ _ _ _ app_sys3); [exact app_reach|].
  apply (sy_receive every 1 11 app_sys3 (frame 1) [] app_client4); vm_compute; reflexivity.
Qed.


Lemma evs_close_race_witness :
  ∃ c' c'', (asyncStopStream;; call (at_manager (disownVirtualCamera 1))) (client app_sys3) = Val c' tt
    ∧ deliverFrame (frame 1) c' = Val c'' tt ∧ EvsManager.doneWithFrame 1 (frame 0) (lk_hal (svc c'')) = Ub.
Proof.
  destruct (evs_close_race every 1 11 app_hal app_client app_sys3 (frame 1) [] (frame 0) 101 app_fresh app_up app_reach)
    as (c' & c'' & E1 & E2 & _ & Hr & Hx); [reflexivity..|].
  exists c', c''. split; [exact E1|]. split; [exact E2|]. apply Hx. rewrite Hr. apply elem_of_app. right. by constructor.
Defined.
