(* ===== verification/DrmDevice.v ===== *)
(** * Hardware composer: the DRM device

    Models android/hardware/xbox/hwcomposer/drmdevice.cpp and the objects it keeps
    (drmcrtc.cpp, drmencoder.cpp, drmconnector.cpp, drmplane.cpp, drmproperty.cpp,
    drmmode.cpp), and the arithmetic of vsyncworker.cpp.  Objects live in vectors that
    only grow, so pointers are indices.  What libdrm returns is the record [k_device]. *)

From S2P Require Import Prelude.

Definition ENOENT : Z := 2.
Definition EAGAIN : Z := 11.
Definition ENOMEM : Z := 12.
Definition ENODEV : Z := 19.
Definition EINVAL : Z := 22.

(** An [int] that is an error, or a value. *)
#[export] Instance result_ret : MRet (sum Z) := λ A a, inr a.
#[export] Instance result_bind : MBind (sum Z) := λ A B k m,
  match m with inl e => inl e | inr a => k a end.

(** ** Properties (drmproperty.cpp) *)

Inductive DrmPropertyType : Type :=
  | DRM_PROPERTY_TYPE_INT | DRM_PROPERTY_TYPE_ENUM | DRM_PROPERTY_TYPE_OBJECT
  | DRM_PROPERTY_TYPE_BLOB | DRM_PROPERTY_TYPE_INVALID.

(** The kernel's description of a property, with the value it has for an object. *)
Record k_property : Type := MkKProperty {
  kp_id : Z; kp_flags : Z; kp_name : string; kp_values : list Z; kp_enums : list Z; kp_value : Z }.

Record DrmProperty : Type := MkProperty {
  prop_id : Z; prop_type : DrmPropertyType; prop_value : Z; prop_values : list Z; prop_enums : list Z }.
(** A default-constructed property. *)
Definition no_property : DrmProperty := MkProperty 0 DRM_PROPERTY_TYPE_INVALID 0 [] [].

Definition has_flag (flags bit : Z) : bool := negb (Z.land flags bit =? 0).
Definition DRM_MODE_PROP_RANGE : Z := 2.
Definition DRM_MODE_PROP_ENUM : Z := 8.
Definition DRM_MODE_PROP_BLOB : Z := 16.
Definition DRM_MODE_PROP_OBJECT : Z := 64.

Definition property_init (p : k_property) : DrmProperty :=
  MkProperty (kp_id p)
    (if has_flag (kp_flags p) DRM_MODE_PROP_RANGE then DRM_PROPERTY_TYPE_INT
     else if has_flag (kp_flags p) DRM_MODE_PROP_ENUM then DRM_PROPERTY_TYPE_ENUM
     else if has_flag (kp_flags p) DRM_MODE_PROP_OBJECT then DRM_PROPERTY_TYPE_OBJECT
     else if has_flag (kp_flags p) DRM_MODE_PROP_BLOB then DRM_PROPERTY_TYPE_BLOB
     else DRM_PROPERTY_TYPE_INVALID)
    (kp_value p) (kp_values p) (kp_enums p).

Definition property_value (p : DrmProperty) : Z + Z :=
  match prop_type p with
  | DRM_PROPERTY_TYPE_BLOB => inr (prop_value p)
  | ty =>
      if decide (prop_values p = []) then inl (-ENOENT)
      else
        match ty with
        | DRM_PROPERTY_TYPE_INT => inr (prop_value p)
        | DRM_PROPERTY_TYPE_ENUM =>
            match prop_enums p !! Z.to_nat (prop_value p) with
            | Some v => inr v
            | None => inl (-ENOENT)
            end
        | DRM_PROPERTY_TYPE_OBJECT => inr (prop_value p)
        | _ => inl (-EINVAL)
        end
  end.

(** [GetProperty], [GetPlaneProperty] and the like: the properties of the object, or none
    when the kernel does not answer. *)
Definition GetProperty (props : option (list k_property)) (prop_name : string) : Z + DrmProperty :=
  match props with
  | None => inl (-ENODEV)
  | Some l =>
      match list_find (λ p, kp_name p = prop_name) l with
      | Some (_, p) => inr (property_init p)
      | None => inl (-ENOENT)
      end
  end.
(** A property whose absence is only logged. *)
Definition optional_property (r : Z + DrmProperty) : DrmProperty :=
  match r with inr p => p | inl _ => no_property end.

(** ** CRTCs, encoders, planes *)

Record DrmCrtc : Type := MkCrtc {
  crtc_id : Z;
  pipe : Z;
  crtc_display : Z;
  active_property : Z;
  mode_property : Z;
  out_fence_ptr_property : Z;
}.
Definition crtc_can_bind (display : Z) (c : DrmCrtc) : bool :=
  bool_decide (crtc_display c = -1 ∨ crtc_display c = display).
Definition crtc_set_display (display : Z) (c : DrmCrtc) : DrmCrtc :=
  MkCrtc (crtc_id c) (pipe c) display (active_property c) (mode_property c) (out_fence_ptr_property c).

Record k_crtc : Type := MkKCrtc { kc_id : Z; kc_props : option (list k_property) }.
Definition new_crtc (i : nat) (c : k_crtc) : Z + DrmCrtc :=
  a ← GetProperty (kc_props c) "ACTIVE";
  m ← GetProperty (kc_props c) "MODE_ID";
  f ← GetProperty (kc_props c) "OUT_FENCE_PTR";
  mret (MkCrtc (kc_id c) (Z.of_nat i) (-1) (prop_id a) (prop_id m) (prop_id f)).

Record DrmEncoder : Type := MkEncoder {
  enc_id : Z;
  enc_crtc : option nat;
  enc_display : Z;
  possible_crtcs : list nat;
  possible_clones : list nat;
}.
Definition enc_can_bind (display : Z) (e : DrmEncoder) : bool :=
  bool_decide (enc_display e = -1 ∨ enc_display e = display).

Inductive plane_type : Type := DRM_PLANE_TYPE_OVERLAY | DRM_PLANE_TYPE_PRIMARY | DRM_PLANE_TYPE_CURSOR.
#[global] Instance plane_type_eq_dec : EqDecision plane_type.
Proof. solve_decision. Defined.

Record DrmPlane : Type := MkPlane {
  plane_id : Z;
  possible_crtc_mask : Z;
  plane_kind : plane_type;
  crtc_property : Z; fb_property : Z;
  crtc_x_property : Z; crtc_y_property : Z; crtc_w_property : Z; crtc_h_property : Z;
  src_x_property : Z; src_y_property : Z; src_w_property : Z; src_h_property : Z;
  rotation_property : Z; alpha_property : Z; in_fence_fd_property : Z;
}.
#[global] Instance DrmPlane_eq_dec : EqDecision DrmPlane.
Proof. solve_decision. Defined.

Record k_plane : Type := MkKPlane { kpl_id : Z; kpl_crtcs : Z; kpl_props : option (list k_property) }.
Definition plane_type_of (v : Z) : Z + plane_type :=
  if decide (v = 0) then inr DRM_PLANE_TYPE_OVERLAY
  else if decide (v = 1) then inr DRM_PLANE_TYPE_PRIMARY
  else if decide (v = 2) then inr DRM_PLANE_TYPE_CURSOR
  else inl (-EINVAL).
(** The constructor and [DrmPlane::Init]. *)
Definition new_plane (k : k_plane) : Z + DrmPlane :=
  let get name := GetProperty (kpl_props k) name in
  p ← get "type"; v ← property_value p; ty ← plane_type_of v;
  crtc ← get "CRTC_ID"; fb ← get "FB_ID";
  cx ← get "CRTC_X"; cy ← get "CRTC_Y"; cw ← get "CRTC_W"; ch ← get "CRTC_H";
  sx ← get "SRC_X"; sy ← get "SRC_Y"; sw ← get "SRC_W"; sh ← get "SRC_H";
  mret (MkPlane (kpl_id k) (kpl_crtcs k) ty (prop_id crtc) (prop_id fb)
          (prop_id cx) (prop_id cy) (prop_id cw) (prop_id ch)
          (prop_id sx) (prop_id sy) (prop_id sw) (prop_id sh)
          (prop_id (optional_property (get "rotation")))
          (prop_id (optional_property (get "alpha")))
          (prop_id (optional_property (get "IN_FENCE_FD")))).

(** [1 << pipe], a 32-bit shift. *)
Definition pipe_bit (p : Z) : Z := u32 (Z.shiftl 1 p).
Definition GetCrtcSupported (p : DrmPlane) (c : DrmCrtc) : bool :=
  has_flag (pipe_bit (pipe c)) (possible_crtc_mask p).

(** ** Modes and connectors *)

Record mode_info : Type := MkModeInfo {
  clock : Z;
  hdisplay : Z; hsync_start : Z; hsync_end : Z; htotal : Z; hskew : Z;
  vdisplay : Z; vsync_start : Z; vsync_end : Z; vtotal : Z; vscan : Z;
  vrefresh : Z; mode_flags : Z; mode_type : Z; mode_name : string;
}.
Record DrmMode : Type := MkMode { mode_id : Z; info : mode_info }.
Definition no_mode : DrmMode := MkMode 0 (MkModeInfo 0 0 0 0 0 0 0 0 0 0 0 0 0 0 "").

(** [operator==] with the kernel's modes: neither the refresh rate nor the name count. *)
Definition same_timing (m : DrmMode) (k : mode_info) : Prop :=
  let i := info m in
  clock i = clock k ∧ hdisplay i = hdisplay k ∧ hsync_start i = hsync_start k ∧ hsync_end i = hsync_end k
  ∧ htotal i = htotal k ∧ hskew i = hskew k ∧ vdisplay i = vdisplay k ∧ vsync_start i = vsync_start k
  ∧ vsync_end i = vsync_end k ∧ vtotal i = vtotal k ∧ vscan i = vscan k ∧ mode_flags i = mode_flags k
  ∧ mode_type i = mode_type k.
#[global] Instance same_timing_dec m k : Decision (same_timing m k).
Proof. unfold same_timing. apply _. Defined.

Inductive connection : Type := DRM_MODE_CONNECTED | DRM_MODE_DISCONNECTED | DRM_MODE_UNKNOWNCONNECTION.
#[global] Instance connection_eq_dec : EqDecision connection.
Proof. solve_decision. Defined.

Record DrmConnector : Type := MkConnector {
  conn_id : Z;
  conn_encoder : option nat;
  conn_display : Z;
  conn_type : Z;
  conn_state : connection;
  mm_width : Z;
  mm_height : Z;
  possible_encoders : list nat;
  modes : list DrmMode;
  active_mode : DrmMode;
  dpms_property : Z;
  crtc_id_property : Z;
  writeback_fb_id : Z;
  writeback_out_fence : Z;
}.
Definition internal (c : DrmConnector) : bool := bool_decide (conn_type c ∈ [7; 14; 16; 15]).
Definition external (c : DrmConnector) : bool := bool_decide (conn_type c ∈ [11; 10; 3; 2; 1]).
Definition DRM_MODE_CONNECTOR_WRITEBACK : Z := 18.
Definition writeback (c : DrmConnector) : bool := bool_decide (conn_type c = DRM_MODE_CONNECTOR_WRITEBACK).

Definition conn_set_display (d : Z) (c : DrmConnector) : DrmConnector :=
  MkConnector (conn_id c) (conn_encoder c) d (conn_type c) (conn_state c) (mm_width c) (mm_height c)
    (possible_encoders c) (modes c) (active_mode c) (dpms_property c) (crtc_id_property c)
    (writeback_fb_id c) (writeback_out_fence c).
Definition conn_set_encoder (e : nat) (c : DrmConnector) : DrmConnector :=
  MkConnector (conn_id c) (Some e) (conn_display c) (conn_type c) (conn_state c) (mm_width c) (mm_height c)
    (possible_encoders c) (modes c) (active_mode c) (dpms_property c) (crtc_id_property c)
    (writeback_fb_id c) (writeback_out_fence c).
Definition conn_set_modes (st : connection) (l : list DrmMode) (c : DrmConnector) : DrmConnector :=
  MkConnector (conn_id c) (conn_encoder c) (conn_display c) (conn_type c) st (mm_width c) (mm_height c)
    (possible_encoders c) l (active_mode c) (dpms_property c) (crtc_id_property c)
    (writeback_fb_id c) (writeback_out_fence c).
Definition set_active_mode (m : DrmMode) (c : DrmConnector) : DrmConnector :=
  MkConnector (conn_id c) (conn_encoder c) (conn_display c) (conn_type c) (conn_state c) (mm_width c) (mm_height c)
    (possible_encoders c) (modes c) m (dpms_property c) (crtc_id_property c)
    (writeback_fb_id c) (writeback_out_fence c).

Record k_encoder : Type := MkKEncoder { ke_id : Z; ke_crtc : Z; ke_possible : Z; ke_clones : Z }.
Record k_connector : Type := MkKConnector {
  kn_id : Z; kn_type : Z; kn_state : connection; kn_width : Z; kn_height : Z;
  kn_encoders : list Z; kn_encoder : Z; kn_props : option (list k_property) }.

(** The indices of a vector whose elements pass a test, and the last of them. *)
Definition indices {A} (f : A → bool) (l : list A) : list nat :=
  omap (λ i, match l !! i with Some x => if f x then Some i else None | None => None end)
    (seq 0 (length l)).

(** The encoder of the kernel's answer, given the CRTCs. *)
Definition new_encoder (crtcs : list DrmCrtc) (e : k_encoder) : DrmEncoder :=
  MkEncoder (ke_id e) (list.last (indices (λ c, crtc_id c =? ke_crtc e) crtcs)) (-1)
    (indices (λ c, has_flag (pipe_bit (pipe c)) (ke_possible e)) crtcs) [].
Definition add_clones (n : nat) (clones : Z) (e : DrmEncoder) : DrmEncoder :=
  MkEncoder (enc_id e) (enc_crtc e) (enc_display e) (possible_crtcs e)
    (filter (λ j, has_flag clones (pipe_bit (Z.of_nat j)) = true) (seq 0 n)).

(** The constructor and [DrmConnector::Init]. *)
Definition new_connector (encoders : list DrmEncoder) (k : k_connector) : Z + DrmConnector :=
  let get name := GetProperty (kn_props k) name in
  let possible := kn_encoders k ≫= λ id, indices (λ e, enc_id e =? id) encoders in
  let current := if decide (kn_encoders k = []) then None
                 else list.last (indices (λ e, enc_id e =? kn_encoder k) encoders) in
  dpms ← get "DPMS"; crtc ← get "CRTC_ID";
  wb ← (if decide (kn_type k = DRM_MODE_CONNECTOR_WRITEBACK) then
          _ ← get "WRITEBACK_PIXEL_FORMATS"; fb ← get "WRITEBACK_FB_ID";
          fence ← get "WRITEBACK_OUT_FENCE_PTR"; mret (prop_id fb, prop_id fence)
        else mret (0, 0));
  mret (MkConnector (kn_id k) current (-1) (kn_type k) (kn_state k) (kn_width k) (kn_height k)
          possible [] no_mode (prop_id dpms) (prop_id crtc) wb.1 wb.2).

(** ** The device *)

Record DrmDevice : Type := MkDevice {
  crtcs : list DrmCrtc;
  encoders : list DrmEncoder;
  connectors : list DrmConnector;
  writeback_connectors : list DrmConnector;
  planes : list DrmPlane;
  displays : list Z;
  last_mode_id : Z;               (* mode_id_ *)
}.
Definition set_crtcs (l : list DrmCrtc) (d : DrmDevice) : DrmDevice :=
  MkDevice l (encoders d) (connectors d) (writeback_connectors d) (planes d) (displays d) (last_mode_id d).
Definition set_encoders (l : list DrmEncoder) (d : DrmDevice) : DrmDevice :=
  MkDevice (crtcs d) l (connectors d) (writeback_connectors d) (planes d) (displays d) (last_mode_id d).
Definition set_connectors (l : list DrmConnector) (d : DrmDevice) : DrmDevice :=
  MkDevice (crtcs d) (encoders d) l (writeback_connectors d) (planes d) (displays d) (last_mode_id d).
Definition set_writebacks (l : list DrmConnector) (n : Z) (d : DrmDevice) : DrmDevice :=
  MkDevice (crtcs d) (encoders d) (connectors d) l (planes d) (displays d) n.

Definition HandlesDisplay (display : Z) (d : DrmDevice) : bool := bool_decide (display ∈ displays d).
Definition GetConnectorForDisplay (display : Z) (d : DrmDevice) : option nat :=
  fst <$> list_find (λ c, conn_display c = display) (connectors d).
Definition GetWritebackConnectorForDisplay (display : Z) (d : DrmDevice) : option nat :=
  fst <$> list_find (λ c, conn_display c = display) (writeback_connectors d).
Definition GetCrtcForDisplay (display : Z) (d : DrmDevice) : option nat :=
  fst <$> list_find (λ c, crtc_display c = display) (crtcs d).

(** *** Display pipes *)

Definition at_index {A} (o : option A) : M DrmDevice A :=
  match o with Some x => mret x | None => undefined end.

(** [set_display] of the CRTC and [set_crtc] of the encoder. *)
Definition bind_crtc (display : Z) (c e : nat) : M DrmDevice unit :=
  modify (λ d, set_crtcs (alter (crtc_set_display display) c (crtcs d)) d);;
  modify (λ d, set_encoders (alter (λ x, MkEncoder (enc_id x) (Some c) display (possible_crtcs x)
                                            (possible_clones x)) e (encoders d)) d).

Fixpoint try_crtcs (display : Z) (e : nat) (tried : option nat) (l : list nat) : M DrmDevice Z :=
  match l with
  | [] => mret (-EAGAIN)
  | c :: l' =>
      if decide (tried = Some c) then try_crtcs display e tried l'
      else
        d ← get; x ← at_index (crtcs d !! c);
        if crtc_can_bind display x then bind_crtc display c e;; mret 0
        else try_crtcs display e tried l'
  end.

Definition TryEncoderForDisplay (display : Z) (e : nat) : M DrmDevice Z :=
  d ← get; enc ← at_index (encoders d !! e);
  match enc_crtc enc with
  | None => try_crtcs display e None (possible_crtcs enc)
  | Some c =>
      x ← at_index (crtcs d !! c);
      if crtc_can_bind display x then bind_crtc display c e;; mret 0
      else try_crtcs display e (Some c) (possible_crtcs enc)
  end.

Fixpoint try_encoders (display : Z) (conn : nat) (l : list nat) : M DrmDevice Z :=
  match l with
  | [] => mret (-ENODEV)
  | e :: l' =>
      ret ← TryEncoderForDisplay display e;
      if decide (ret = 0) then
        modify (λ d, set_connectors (alter (conn_set_encoder e) conn (connectors d)) d);; mret 0
      else if decide (ret = -EAGAIN) then try_encoders display conn l'
      else mret ret
  end.

Definition CreateDisplayPipe (conn : nat) : M DrmDevice Z :=
  d ← get; c ← at_index (connectors d !! conn);
  match conn_encoder c with
  | None => try_encoders (conn_display c) conn (possible_encoders c)
  | Some e =>
      ret ← TryEncoderForDisplay (conn_display c) e;
      if decide (ret = 0) then mret 0
      else if decide (ret = -EAGAIN) then try_encoders (conn_display c) conn (possible_encoders c)
      else mret ret
  end.

(** *** Modes *)

(** What [drmModeGetConnector] answers. *)
Definition mode_answer : Type := option (connection * list mode_info).

(** The new list: a mode that is known keeps its object, others get the next id. *)
Fixpoint merge_modes (old : list DrmMode) (next : Z) (l : list mode_info) : list DrmMode * Z :=
  match l with
  | [] => ([], next)
  | k :: l' =>
      match list_find (λ m, same_timing m k) old with
      | Some (_, m) => let '(r, n) := merge_modes old next l' in (m :: r, n)
      | None =>
          let id := u32 (next + 1) in
          let '(r, n) := merge_modes old id l' in (MkMode id k :: r, n)
      end
  end.
(** [UpdateModes] of a connector; the device's counter goes through it. *)
Definition UpdateModes (answer : mode_answer) (next : Z) (c : DrmConnector) : DrmConnector * Z * Z :=
  match answer with
  | None => (c, next, -ENODEV)
  | Some (st, l) =>
      let '(ms, n) := merge_modes (modes c) next l in (conn_set_modes st ms c, n, 0)
  end.

(** *** Writeback connectors *)

(** The loops over the encoders of a writeback connector and their CRTCs. *)
Fixpoint bindable_encoder (d : DrmDevice) (crtc : nat) (display : Z) (l : list nat) : option nat :=
  match l with
  | [] => None
  | e :: l' =>
      match encoders d !! e with
      | Some x =>
          if bool_decide (crtc ∈ possible_crtcs x) && enc_can_bind display x then Some e
          else bindable_encoder d crtc display l'
      | None => bindable_encoder d crtc display l'
      end
  end.
Fixpoint free_writeback (d : DrmDevice) (crtc : nat) (display : Z) (l : list DrmConnector) : option (nat * nat) :=
  match l with
  | [] => None
  | w :: l' =>
      let next := (λ p : nat * nat, (S p.1, p.2)) <$> free_writeback d crtc display l' in
      if decide (0 ≤ conn_display w) then next
      else match bindable_encoder d crtc display (possible_encoders w) with
           | Some e => Some (0%nat, e)
           | None => next
           end
  end.
Definition AttachWriteback (answer : mode_answer) (conn : nat) : M DrmDevice Z :=
  d ← get; c ← at_index (connectors d !! conn);
  e ← at_index (conn_encoder c); x ← at_index (encoders d !! e);
  k ← at_index (enc_crtc x); crtc ← at_index (crtcs d !! k);
  let display := crtc_display crtc in
  if decide (is_Some (GetWritebackConnectorForDisplay display d)) then mret (-EINVAL)
  else
    match free_writeback d k display (writeback_connectors d) with
    | None => mret (-EINVAL)
    | Some (w, we) =>
        modify (λ d, set_encoders (alter (λ x, MkEncoder (enc_id x) (Some k) display (possible_crtcs x)
                                                  (possible_clones x)) we (encoders d)) d);;
        d ← get; wc ← at_index (writeback_connectors d !! w);
        let '(wc', n, _) := UpdateModes answer (last_mode_id d)
                              (conn_set_display display (conn_set_encoder we wc)) in
        put (set_writebacks (<[w := wc']> (writeback_connectors d)) n d);;
        mret 0
    end.

(** The writeback connector of the display's own CRTC, or one of a CRTC without a connected
    display. *)
Fixpoint spare_writeback (display : Z) (d : DrmDevice) (l : list DrmCrtc) : option nat :=
  match l with
  | [] => None
  | c :: l' =>
      if decide (crtc_display c = display) then spare_writeback display d l'
      else
        let connected :=
          match GetConnectorForDisplay (crtc_display c) d ≫= λ i, connectors d !! i with
          | Some x => bool_decide (conn_state x = DRM_MODE_CONNECTED)
          | None => false
          end in
        if connected then spare_writeback display d l'
        else match GetWritebackConnectorForDisplay (crtc_display c) d with
             | Some w => Some w
             | None => spare_writeback display d l'
             end
  end.
Definition can_clone (d : DrmDevice) (e e' : option nat) : bool :=
  match e, e' with
  | Some i, Some j =>
      match encoders d !! i with Some x => bool_decide (j ∈ possible_clones x) | None => false end
  | _, _ => false
  end.
Definition AvailableWritebackConnector (display : Z) (d : DrmDevice) : option nat :=
  let own :=
    match GetWritebackConnectorForDisplay display d, GetConnectorForDisplay display d with
    | Some w, Some c =>
        match writeback_connectors d !! w, connectors d !! c with
        | Some wc, Some cc => if can_clone d (conn_encoder wc) (conn_encoder cc) then Some w else None
        | _, _ => None
        end
    | _, _ => None
    end in
  match own with
  | Some w => Some w
  | None => spare_writeback display d (crtcs d)
  end.

(** *** Numbering of the displays *)

Fixpoint assign_internal (n : Z) (l : list DrmConnector) : option (list DrmConnector) :=
  match l with
  | [] => None
  | c :: l' => if internal c then Some (conn_set_display n c :: l') else cons c <$> assign_internal n l'
  end.
Fixpoint assign_rest (found : bool) (n : Z) (l : list DrmConnector) : list DrmConnector * Z :=
  match l with
  | [] => ([], n)
  | c :: l' =>
      if (external c || internal c) && (negb found || bool_decide (conn_display c < 0)) then
        let '(r, m) := assign_rest true (n + 1) l' in (conn_set_display n c :: r, m)
      else
        let '(r, m) := assign_rest found n l' in (c :: r, m)
  end.
(** The connectors with their displays, and the next free number. *)
Definition assign_displays (num_displays : Z) (l : list DrmConnector) : list DrmConnector * Z :=
  if decide (num_displays = 0) then
    match assign_internal num_displays l with
    | Some l' => assign_rest true (num_displays + 1) l'
    | None => assign_rest false num_displays l
    end
  else assign_rest true num_displays l.

(** *** Start-up *)

Record k_device : Type := MkKDevice {
  kd_fd : Z;
  kd_universal : Z; kd_atomic : Z;              (* results of drmSetClientCap *)
  kd_crtcs : option (list (option k_crtc));     (* none: drmModeGetResources failed *)
  kd_encoders : list (option k_encoder);
  kd_connectors : list (option k_connector);
  kd_planes : option (list (option k_plane));
  kd_listener : Z;
  kd_modes : mode_answer;
}.

(** A loop over the kernel's objects that stops at the first that cannot be read. *)
Fixpoint collect {A B} (f : nat → A → Z + B) (i : nat) (l : list (option A)) : Z + list B :=
  match l with
  | [] => mret []
  | None :: _ => inl (-ENODEV)
  | Some x :: l' => y ← f i x; r ← collect f (S i) l'; mret (y :: r)
  end.

Definition read_device (k : k_device) (num_displays : Z) : Z + DrmDevice :=
  if decide (kd_fd k < 0) then inl (-ENODEV)
  else if decide (kd_universal k ≠ 0) then inl (kd_universal k)
  else if decide (kd_atomic k ≠ 0) then inl (kd_atomic k)
  else
    match kd_crtcs k with
    | None => inl (-ENODEV)
    | Some kcrtcs =>
        cs ← collect new_crtc 0 kcrtcs;
        es ← collect (λ _ e, mret (new_encoder cs e, ke_clones e)) 0 (kd_encoders k);
        let encs := (λ p, add_clones (length es) p.2 p.1) <$> es in
        conns ← collect (λ _ c, new_connector encs c) 0 (kd_connectors k);
        let own := filter (λ c, writeback c = false) conns in
        let wbs := filter (λ c, writeback c = true) conns in
        let '(shown, n) := assign_displays num_displays own in
        match kd_planes k with
        | None => inl (-ENOENT)
        | Some kplanes =>
            ps ← collect (λ _ p, new_plane p) 0 kplanes;
            if decide (kd_listener k ≠ 0) then inl (kd_listener k)
            else mret (MkDevice cs encs shown wbs ps (seqZ num_displays (n - num_displays)) 0)
        end
    end.

Fixpoint create_pipes (answer : mode_answer) (l : list nat) : M DrmDevice Z :=
  match l with
  | [] => mret 0
  | i :: l' =>
      ret ← CreateDisplayPipe i;
      if decide (ret = 0) then AttachWriteback answer i;; create_pipes answer l'
      else mret ret
  end.

(** [DrmDevice::Init]: an error, or the device and the number of its displays. *)
Definition device_init (k : k_device) (num_displays : Z) : outcome DrmDevice (Z + Z) :=
  match read_device k num_displays with
  | inl e => Val (MkDevice [] [] [] [] [] [] 0) (inl e)
  | inr d =>
      match create_pipes (kd_modes k) (seq 0 (length (connectors d))) d with
      | Val d' ret => Val d' (if decide (ret = 0) then inr (Z.of_nat (length (displays d'))) else inl ret)
      | Exc d' e => Exc d' e
      | Ub => Ub
      end
  end.

(** ** Vertical sync (vsyncworker.cpp) *)

Definition GetPhasedVSync (last_timestamp frame_ns current : Z) : Z :=
  if decide (last_timestamp < 0) then current + frame_ns
  else frame_ns * (Z.quot (current - last_timestamp) frame_ns + 1) + last_timestamp.

(** ** Displays are numbered without gaps *)

Definition shown (l : list DrmConnector) : list Z := filter (λ d, 0 ≤ d) (conn_display <$> l).
Definition valid_type (c : DrmConnector) : bool := internal c || external c.
Definition numbered (c : DrmConnector) : Prop :=
  if valid_type c then 0 ≤ conn_display c else conn_display c = -1.

Lemma shown_cons c l : shown (c :: l) = if decide (0 ≤ conn_display c) then conn_display c :: shown l else shown l.
Proof. unfold shown. by rewrite fmap_cons, filter_cons. Qed.

Lemma valid_set_display d c : valid_type (conn_set_display d c) = valid_type c.
Proof. done. Qed.

Lemma assign_rest_spec found n l l' m :
  0 ≤ n → assign_rest found n l = (l', m) →
  Forall (λ c, conn_display c = -1 ∨ 0 ≤ conn_display c ∧ found = true ∧ valid_type c = true) l →
  n ≤ m ∧ shown l' ≡ₚ shown l ++ seqZ n (m - n) ∧ Forall numbered l'.
Proof.
  revert found n l' m. induction l as [|c l IH]; intros found n l' m Hn E Hl; cbn [assign_rest] in E.
  { injection E as <- <-. rewrite Z.sub_diag. by split_and!. }
  apply Forall_cons_1 in Hl as [Hc Hl]. rewrite shown_cons.
  destruct ((external c || internal c) && _) eqn:Ec.
  - destruct (assign_rest true (n + 1) l) as [r k] eqn:Er. injection E as <- <-.
    destruct (IH true (n + 1) r k) as (H1 & H2 & H3); [lia|done| |].
    { eapply Forall_impl; [|exact Hl]. cbn. intros x [?|(? & _ & ?)]; auto. }
    apply andb_true_iff in Ec as [Ev Ed]. split; [lia|]. split.
    + rewrite shown_cons. cbn [conn_display conn_set_display]. rewrite (decide_True (P := 0 ≤ n)), H2 by done.
      destruct (decide (0 ≤ conn_display c)) as [Hd|Hd].
      * exfalso. destruct Hc as [?|(_ & -> & _)]; [lia|]. cbn in Ed. apply bool_decide_eq_true in Ed. lia.
      * rewrite (seqZ_cons n) by lia. replace (Z.pred (k - n)) with (k - (n + 1)) by lia.
        replace (Z.succ n) with (n + 1) by lia. by rewrite Permutation_middle.
    + constructor; [|done]. unfold numbered. rewrite valid_set_display. unfold valid_type. rewrite orb_comm, Ev. done.
  - destruct (assign_rest found n l) as [r k] eqn:Er. injection E as <- <-.
    destruct (IH found n r k) as (H1 & H2 & H3); [lia|done|done|]. split; [done|]. split.
    + rewrite shown_cons. destruct (decide (0 ≤ conn_display c)); [cbn; by constructor|exact H2].
    + constructor; [|done]. unfold numbered. destruct (valid_type c) eqn:Hv.
      * unfold valid_type in Hv. rewrite orb_comm in Hv. rewrite Hv in Ec. cbn in Ec.
        apply orb_false_iff in Ec as [_ Ed]. apply bool_decide_eq_false in Ed. lia.
      * destruct Hc as [?|(_ & _ & ?)]; [done|congruence].
Qed.

Lemma assign_internal_spec n l l' :
  0 ≤ n → assign_internal n l = Some l' → Forall (λ c, conn_display c = -1) l →
  shown l' = [n] ∧ Forall (λ c, conn_display c = -1 ∨ 0 ≤ conn_display c ∧ true = true ∧ valid_type c = true) l'.
Proof.
  intros Hn. revert l'. induction l as [|c l IH]; intros l' E Hl; cbn [assign_internal] in E; [done|].
  apply Forall_cons_1 in Hl as [Hc Hl]. destruct (internal c) eqn:Ei.
  - injection E as <-. rewrite shown_cons. cbn [conn_display conn_set_display]. rewrite decide_True by done.
    assert (shown l = []) as ->.
    { clear -Hl. induction Hl as [|c l Hc Hl IH]; [done|]. rewrite shown_cons, Hc, decide_False by lia. done. }
    split; [done|]. constructor; [right; rewrite valid_set_display; unfold valid_type; by rewrite Ei|].
    eapply Forall_impl; [|exact Hl]. cbn. intros x Hx. by left.
  - apply fmap_Some in E as (r & Er & ->). destruct (IH r Er Hl) as [H1 H2].
    rewrite shown_cons, Hc, decide_False by lia. split; [done|]. constructor; [by left|done].
Qed.

Lemma assign_displays_spec n l l' m :
  0 ≤ n → assign_displays n l = (l', m) → Forall (λ c, conn_display c = -1) l →
  n ≤ m ∧ shown l' ≡ₚ seqZ n (m - n) ∧ Forall numbered l'.
Proof.
  intros Hn E Hl. assert (shown l = []) as H0.
  { clear -Hl. induction Hl as [|c l Hc Hl IH]; [done|]. rewrite shown_cons, Hc, decide_False by lia. done. }
  assert (∀ f, Forall (λ c, conn_display c = -1 ∨ 0 ≤ conn_display c ∧ f = true ∧ valid_type c = true) l) as Hneg.
  { intros f. eapply Forall_impl; [|exact Hl]. cbn. intros x Hx. by left. }
  unfold assign_displays in E. case_decide as Hz.
  - destruct (assign_internal n l) as [r|] eqn:Ei.
    + destruct (assign_internal_spec n l r Hn Ei Hl) as [H1 H2].
      destruct (assign_rest_spec true (n + 1) r l' m) as (A1 & A2 & A3); [lia|done|done|].
      split; [lia|]. split; [|done]. rewrite A2, H1, (seqZ_cons n) by lia.
      replace (Z.pred (m - n)) with (m - (n + 1)) by lia. replace (Z.succ n) with (n + 1) by lia. done.
    + destruct (assign_rest_spec false n l l' m) as (A1 & A2 & A3); [done|done|apply Hneg|].
      by rewrite H0 in A2.
  - destruct (assign_rest_spec true n l l' m) as (A1 & A2 & A3); [done|done|apply Hneg|].
    by rewrite H0 in A2.
Qed.

Lemma shown_inj l i j c c' :
  NoDup (shown l) → l !! i = Some c → l !! j = Some c' → conn_display c = conn_display c' →
  0 ≤ conn_display c → i = j.
Proof.
  assert (∀ (l : list DrmConnector) j c, l !! j = Some c → 0 ≤ conn_display c → conn_display c ∈ shown l) as Hin.
  { clear. intros l j c Hj Hd. apply list_elem_of_filter. split; [done|].
    apply list_elem_of_fmap. exists c. split; [done|]. by eapply list_elem_of_lookup_2. }
  revert i j. induction l as [|x l IH]; intros i j Hnd Hi Hj Heq Hd; [done|]. rewrite shown_cons in Hnd.
  destruct i as [|i], j as [|j]; cbn in Hi, Hj; simplify_eq/=.
  - done.
  - rewrite decide_True in Hnd by done. apply list.NoDup_cons in Hnd as [Hnd _]. destruct Hnd.
    rewrite Heq. apply (Hin l j); [done|lia].
  - rewrite decide_True in Hnd by lia. apply list.NoDup_cons in Hnd as [Hnd _]. destruct Hnd.
    rewrite <- Heq. by apply (Hin l i).
  - f_equal. apply IH; auto. case_decide; [|done]. by apply list.NoDup_cons in Hnd as [_ Hnd].
Qed.

(** ** One CRTC per display *)

(** The displays [done] have exactly one CRTC each, the other CRTCs are free. *)
Record pipes_ok (done : list Z) (cs : list DrmCrtc) : Prop := {
  po_bound : ∀ i x, cs !! i = Some x → crtc_display x = -1 ∨ crtc_display x ∈ done;
  po_unique : ∀ i j x y, cs !! i = Some x → cs !! j = Some y →
    crtc_display x = crtc_display y → crtc_display x ≠ -1 → i = j;
  po_exists : ∀ D, D ∈ done → D ≠ -1 → ∃ i x, cs !! i = Some x ∧ crtc_display x = D;
}.

Lemma alter_crtc (cs : list DrmCrtc) c D i x :
  alter (crtc_set_display D) c cs !! i = Some x →
  (i = c ∧ crtc_display x = D ∧ is_Some (cs !! c)) ∨ (i ≠ c ∧ cs !! i = Some x).
Proof.
  destruct (decide (i = c)) as [->|Hne].
  - rewrite list_lookup_alter_eq. intros (y & Hy & ->)%fmap_Some. left. rewrite Hy. done.
  - rewrite list_lookup_alter_ne by done. by right.
Qed.

Lemma pipes_bind done (cs : list DrmCrtc) D c x :
  pipes_ok done cs → cs !! c = Some x → crtc_can_bind D x = true → D = -1 ∨ D ∉ done →
  pipes_ok (D :: done) (alter (crtc_set_display D) c cs).
Proof.
  intros [P1 P2 P3] Hc Hb Hd. unfold crtc_can_bind in Hb. apply bool_decide_eq_true in Hb.
  assert (crtc_display x = -1) as Hx.
  { destruct Hb as [Hb|Hb]; [done|]. destruct (P1 c x Hc) as [?|Hin]; [done|]. rewrite Hb in *. by destruct Hd. }
  split.
  - intros i y [(-> & -> & _)|(Hne & Hy)]%alter_crtc; [right; by constructor|].
    destruct (P1 i y Hy); [by left|right; by constructor].
  - intros i j y z [(-> & Ey & _)|(Hi & Hy)]%alter_crtc [(-> & Ez & _)|(Hj & Hz)]%alter_crtc Heq Hn; [done| | |by eauto].
    + destruct (P1 j z Hz) as [?|Hin]; [congruence|]. rewrite <- Heq, Ey in Hin. destruct Hd; congruence.
    + destruct (P1 i y Hy) as [?|Hin]; [congruence|]. rewrite Heq, Ez in Hin. destruct Hd; congruence.
  - intros E [->|Hin]%elem_of_cons HE.
    + exists c, (crtc_set_display D x). by rewrite list_lookup_alter_eq, Hc.
    + destruct (P3 E Hin HE) as (i & y & Hy & Ey). exists i, y. split; [|done].
      rewrite list_lookup_alter_ne; [done|]. intros ->. congruence.
Qed.
Lemma pipes_free done cs : pipes_ok done cs → pipes_ok (-1 :: done) cs.
Proof.
  intros [P1 P2 P3]. split; [|done|].
  - intros i x Hi. destruct (P1 i x Hi); [by left|right; by constructor].
  - intros D [->|Hin]%elem_of_cons HD; [done|by apply P3].
Qed.

(** What creating a pipe changes. *)
Definition conns_same (d d' : DrmDevice) : Prop :=
  conn_display <$> connectors d' = conn_display <$> connectors d
  ∧ valid_type <$> connectors d' = valid_type <$> connectors d
  ∧ displays d' = displays d ∧ planes d' = planes d.
Lemma conns_same_refl d : conns_same d d.
Proof. done. Qed.
Lemma conns_same_trans d1 d2 d3 : conns_same d1 d2 → conns_same d2 d3 → conns_same d1 d3.
Proof. intros (A1 & A2 & A3 & A4) (B1 & B2 & B3 & B4). split_and!; congruence. Qed.

(** The effect of a bind for [display]. *)
Definition bound (display : Z) (d d' : DrmDevice) : Prop :=
  ∃ c x, crtcs d !! c = Some x ∧ crtc_can_bind display x = true
    ∧ crtcs d' = alter (crtc_set_display display) c (crtcs d).

Lemma at_index_inv {A} (o : option A) d d' x : at_index o d = Val d' x → o = Some x ∧ d' = d.
Proof. destruct o; [|done]. by intros [= <- <-]. Qed.

Lemma try_crtcs_spec display e tried l d d' r :
  try_crtcs display e tried l d = Val d' r →
  (r = 0 ∧ bound display d d' ∧ conns_same d d') ∨ (r = -EAGAIN ∧ d' = d).
Proof.
  revert d. induction l as [|c l IH]; intros d; cbn [try_crtcs]; [intros [= <- <-]; by right|].
  case_decide; [by apply IH|]. run_m. destruct (at_index (crtcs d !! c) d) as [d1 x|?|] eqn:E; [|done..].
  apply at_index_inv in E as [Ex ->]. destruct (crtc_can_bind display x) eqn:Eb; [|by apply IH].
  intros [= <- <-]. left. split; [done|]. split; [|done]. by exists c, x.
Qed.

Lemma try_encoder_spec display e d d' r :
  TryEncoderForDisplay display e d = Val d' r →
  (r = 0 ∧ bound display d d' ∧ conns_same d d') ∨ (r = -EAGAIN ∧ d' = d).
Proof.
  unfold TryEncoderForDisplay. run_m. destruct (at_index (encoders d !! e) d) as [d1 enc|?|] eqn:E; [|done..].
  apply at_index_inv in E as [Ee ->]. destruct (enc_crtc enc) as [c|]; [|apply try_crtcs_spec]. run_m.
  destruct (at_index (crtcs d !! c) d) as [d1 x|?|] eqn:E; [|done..]. apply at_index_inv in E as [Ex ->].
  destruct (crtc_can_bind display x) eqn:Eb; [|apply try_crtcs_spec].
  intros [= <- <-]. left. split; [done|]. split; [|done]. by exists c, x.
Qed.

Lemma set_encoder_same e conn d :
  conns_same d (set_connectors (alter (conn_set_encoder e) conn (connectors d)) d).
Proof.
  assert (∀ {B} (f : DrmConnector → B), (∀ c, f (conn_set_encoder e c) = f c) →
    f <$> alter (conn_set_encoder e) conn (connectors d) = f <$> connectors d) as Hf.
  { intros B f Hf. apply list_eq. intros i. rewrite !list_lookup_fmap. destruct (decide (i = conn)) as [->|Hne].
    - rewrite list_lookup_alter_eq. destruct (connectors d !! conn) as [x|]; [|done]. cbn. by rewrite Hf.
    - by rewrite list_lookup_alter_ne. }
  split_and!; [by apply Hf|by apply Hf|done|done].
Qed.

Lemma try_encoders_spec display conn l d d' :
  try_encoders display conn l d = Val d' 0 → bound display d d' ∧ conns_same d d'.
Proof.
  revert d. induction l as [|e l IH]; intros d; cbn [try_encoders]; [done|]. run_m.
  destruct (TryEncoderForDisplay display e d) as [d1 r|?|] eqn:E; [|done..].
  apply try_encoder_spec in E as [(-> & (c & x & Hc & Hb & Ec) & Hs)|(-> & ->)].
  - cbn. intros [= <-]. split; [by exists c, x|]. eapply conns_same_trans; [exact Hs|apply set_encoder_same].
  - cbn. apply IH.
Qed.

Lemma create_pipe_spec conn c d d' :
  connectors d !! conn = Some c → CreateDisplayPipe conn d = Val d' 0 →
  bound (conn_display c) d d' ∧ conns_same d d'.
Proof.
  intros Hc. unfold CreateDisplayPipe. run_m. rewrite Hc. unfold at_index. run_m.
  destruct (conn_encoder c) as [e|]; [|apply try_encoders_spec].
  destruct (TryEncoderForDisplay (conn_display c) e d) as [d1 r|?|] eqn:E; [|done..].
  apply try_encoder_spec in E as [(-> & Hb & Hs)|(-> & ->)]; cbn; [by intros [= <-]|apply try_encoders_spec].
Qed.

Lemma attach_spec answer conn d d' r :
  AttachWriteback answer conn d = Val d' r → crtcs d' = crtcs d ∧ conns_same d d'.
Proof.
  unfold AttachWriteback. run_m.
  destruct (at_index (connectors d !! conn) d) as [d1 c|?|] eqn:E; [|done..]. apply at_index_inv in E as [_ ->].
  destruct (at_index (conn_encoder c) d) as [d1 e|?|] eqn:E; [|done..]. apply at_index_inv in E as [_ ->].
  destruct (at_index (encoders d !! e) d) as [d1 x|?|] eqn:E; [|done..]. apply at_index_inv in E as [_ ->].
  destruct (at_index (enc_crtc x) d) as [d1 k|?|] eqn:E; [|done..]. apply at_index_inv in E as [_ ->].
  destruct (at_index (crtcs d !! k) d) as [d1 crtc|?|] eqn:E; [|done..]. apply at_index_inv in E as [_ ->].
  case_decide; [by intros [= <- <-]|].
  destruct (free_writeback _ _ _ _) as [[w we]|]; [|by intros [= <- <-]].
  match goal with |- context [at_index ?o ?s] => destruct (at_index o s) as [d1 wc|?|] eqn:E; [|done..] end.
  apply at_index_inv in E as [_ ->]. destruct (UpdateModes _ _ _) as [[wc' n] z]. by intros [= <- <-].
Qed.

(** All connectors of a list get their pipes. *)
Lemma create_pipes_spec answer l done d d' :
  create_pipes answer l d = Val d' 0 → pipes_ok done (crtcs d) → NoDup l →
  (∀ i, i ∈ l → ∃ c, connectors d !! i = Some c ∧ (conn_display c = -1 ∨ conn_display c ∉ done)) →
  (∀ i j c c', i ∈ l → j ∈ l → connectors d !! i = Some c → connectors d !! j = Some c' →
     conn_display c = conn_display c' → conn_display c ≠ -1 → i = j) →
  conns_same d d' ∧ ∃ done', pipes_ok done' (crtcs d') ∧ (∀ D, D ∈ done → D ∈ done')
    ∧ (∀ i c, i ∈ l → connectors d !! i = Some c → conn_display c ∈ done').
Proof.
  revert done d. induction l as [|i l IH]; intros done d; cbn [create_pipes].
  { intros [= <-] Hp _ _ _. split; [done|]. exists done. split; [done|]. split; [done|]. by intros i c ?%elem_of_nil. }
  run_m. intros E Hp Hnd Hl Hinj. apply list.NoDup_cons in Hnd as [Hni Hnd].
  destruct (Hl i) as (c & Hc & Hdone); [by constructor|].
  destruct (CreateDisplayPipe i d) as [d1 r|?|] eqn:E1; [|done..].
  destruct (decide (r = 0)) as [->|Hr]; [|by injection E as _ ?].
  destruct (create_pipe_spec i c d d1 Hc E1) as [(k & x & Hk & Hb & Ek) Hs1].
  pose proof (pipes_bind done (crtcs d) (conn_display c) k x Hp Hk Hb Hdone) as Hp1. rewrite <- Ek in Hp1.
  destruct (AttachWriteback answer i d1) as [d2 r|?|] eqn:E2; [|done..].
  apply attach_spec in E2 as [Ec2 Hs2]. rewrite <- Ec2 in Hp1.
  pose proof (conns_same_trans _ _ _ Hs1 Hs2) as Hs. destruct Hs as (S1 & S2 & S3 & S4).
  assert (∀ j y, connectors d2 !! j = Some y → ∃ z, connectors d !! j = Some z ∧ conn_display z = conn_display y) as Hback.
  { intros j y Hy. assert ((conn_display <$> connectors d2) !! j = Some (conn_display y)) as Hj by (by rewrite list_lookup_fmap, Hy).
    rewrite S1, list_lookup_fmap in Hj. apply fmap_Some in Hj as (z & Hz & Ez). by exists z. }
  assert (∀ j y, connectors d !! j = Some y → ∃ z, connectors d2 !! j = Some z ∧ conn_display z = conn_display y) as Hfwd.
  { intros j y Hy. assert ((conn_display <$> connectors d) !! j = Some (conn_display y)) as Hj by (by rewrite list_lookup_fmap, Hy).
    rewrite <- S1, list_lookup_fmap in Hj. apply fmap_Some in Hj as (z & Hz & Ez). by exists z. }
  destruct (IH (conn_display c :: done) d2 E Hp1 Hnd) as (Hs' & done' & Hp' & Hsub & Hin').
  - intros j Hj. destruct (Hl j) as (y & Hy & Hyd); [by constructor|].
    destruct (Hfwd j y Hy) as (z & Hz & Ez). exists z. split; [done|]. rewrite Ez.
    destruct (decide (conn_display y = -1)) as [?|Hn]; [by left|]. right. intros [Heq|Hin]%elem_of_cons.
    + destruct Hni. rewrite (Hinj i j c y); [done|by constructor|by constructor|done|done|done|congruence].
    + destruct Hyd; [done|]. done.
  - intros j j' y y' Hj Hj' Hy Hy' Heq Hn. destruct (Hback j y Hy) as (z & Hz & Ez), (Hback j' y' Hy') as (z' & Hz' & Ez').
    apply (Hinj j j' z z'); [by constructor|by constructor|done|done|congruence|congruence].
  - split; [by apply (conns_same_trans _ d2)|].
    exists done'. split; [done|]. split; [intros D HD; apply Hsub; by constructor|].
    intros j y [->|Hj]%elem_of_cons Hy.
    + simplify_eq. apply Hsub. by constructor.
    + destruct (Hfwd j y Hy) as (z & Hz & <-). by apply (Hin' j).
Qed.

Lemma collect_Forall {A B} (f : nat → A → Z + B) (P : B → Prop) i l r :
  collect f i l = inr r → (∀ i x y, f i x = inr y → P y) → Forall P r.
Proof.
  intros E HP. revert i r E. induction l as [|[x|] l IH]; intros i r; cbn; [by intros [= <-]| |done].
  unfold mbind, result_bind. destruct (f i x) as [|y] eqn:Ef; [done|].
  destruct (collect f (S i) l) as [|r'] eqn:Er; [done|]. intros [= <-]. constructor; [by apply (HP i x)|by apply (IH (S i))].
Qed.

Lemma new_connector_display es k c : new_connector es k = inr c → conn_display c = -1.
Proof.
  unfold new_connector, mbind, result_bind, mret, result_ret.
  repeat (match goal with |- context [match ?x with _ => _ end] =>
            lazymatch x with context [match _ with _ => _ end] => fail | _ => destruct x end end; try done).
  all: by intros [= <-].
Qed.
Lemma new_crtc_display i k c : new_crtc i k = inr c → crtc_display c = -1.
Proof.
  unfold new_crtc, mbind, result_bind, mret, result_ret.
  repeat (match goal with |- context [match ?x with _ => _ end] => destruct x end; try done).
  by intros [= <-].
Qed.

(** What is known of a device that was just read. *)
Lemma read_device_spec k n d :
  0 ≤ n → read_device k n = inr d →
  Forall (λ c, crtc_display c = -1) (crtcs d)
  ∧ ∃ m, n ≤ m ∧ displays d = seqZ n (m - n) ∧ shown (connectors d) ≡ₚ seqZ n (m - n) ∧ Forall numbered (connectors d).
Proof.
  intros Hn. unfold read_device. do 3 (case_decide; [done|]). destruct (kd_crtcs k) as [kc|]; [|done].
  unfold mbind, result_bind.
  destruct (collect new_crtc 0 kc) as [|cs] eqn:Ec; [done|].
  destruct (collect _ 0 (kd_encoders k)) as [|es] eqn:Ee; [done|].
  destruct (collect _ 0 (kd_connectors k)) as [|conns] eqn:En; [done|].
  destruct (assign_displays n _) as [sh m] eqn:Ea. destruct (kd_planes k) as [kp|]; [|done].
  destruct (collect _ 0 kp) as [|ps] eqn:Ep; [done|]. case_decide; [done|]. intros [= <-]. cbn.
  split; [by eapply collect_Forall; [exact Ec|apply new_crtc_display]|]. exists m.
  destruct (assign_displays_spec n _ sh m Hn Ea) as (A1 & A2 & A3); [|done].
  assert (Forall (λ c, conn_display c = -1) conns) as Hc.
  { eapply collect_Forall; [exact En|]. intros i x y. apply new_connector_display. }
  clear -Hc. induction Hc as [|c l Hc Hl IH]; [done|]. rewrite filter_cons. case_decide; [by constructor|done].
Qed.

Lemma numbered_same d d' : conns_same d d' → Forall numbered (connectors d) → Forall numbered (connectors d').
Proof.
  intros (S1 & S2 & _) Hn. apply Forall_lookup. intros i c Hi.
  assert ((conn_display <$> connectors d') !! i = Some (conn_display c)) as H1 by (by rewrite list_lookup_fmap, Hi).
  assert ((valid_type <$> connectors d') !! i = Some (valid_type c)) as H2 by (by rewrite list_lookup_fmap, Hi).
  rewrite S1, list_lookup_fmap in H1. rewrite S2, list_lookup_fmap in H2.
  destruct (connectors d !! i) as [c0|] eqn:Hc0; [|done].
  assert (conn_display c0 = conn_display c) as E1 by (cbn in H1; congruence).
  assert (valid_type c0 = valid_type c) as E2 by (cbn in H2; congruence).
  pose proof (proj1 (Forall_lookup _ _) Hn i c0 Hc0) as Hx. unfold numbered in *. by rewrite <- E1, <- E2.
Qed.

(** when a DRM device starts up, its internal and external connectors are numbered
    [n], [n+1], ... without gaps or repetitions, other connectors have no number, and each
    numbered display has exactly one CRTC, the one [GetCrtcForDisplay] finds: no two
    displays share a pipe, whatever encoders the connectors share. *)
Theorem drm_display_pipes k n d count :
  0 ≤ n → device_init k n = Val d (inr count) →
  shown (connectors d) ≡ₚ seqZ n count
  ∧ Forall numbered (connectors d)
  ∧ ∀ D, n ≤ D < n + count →
      HandlesDisplay D d = true
      ∧ ∃ c x, GetCrtcForDisplay D d = Some c ∧ crtcs d !! c = Some x ∧ crtc_display x = D
        ∧ ∀ c' x', crtcs d !! c' = Some x' → crtc_display x' = D → c' = c.
Proof.
  intros Hn. unfold device_init. destruct (read_device k n) as [|d0] eqn:Er; [done|].
  destruct (create_pipes _ _ d0) as [d1 ret|?|] eqn:Ep; [|done..]. intros [= <- E].
  case_decide as Hr; [|done]. injection E as <-. subst ret.
  destruct (read_device_spec k n d0 Hn Er) as (Hc & m & Hm & Ed & Hsh & Hnum).
  assert (NoDup (shown (connectors d0))) as Hnd by (rewrite Hsh; apply NoDup_seqZ).
  assert (∀ i c, connectors d0 !! i = Some c → conn_display c ≠ -1 → 0 ≤ conn_display c) as Hpos.
  { intros i c Hi Hne. pose proof (proj1 (Forall_lookup _ _) Hnum i c Hi) as Hx. unfold numbered in Hx.
    by destruct (valid_type c). }
  destruct (create_pipes_spec _ _ [] d0 d1 Ep) as ((S1 & S2 & S3 & S4) & done' & Hp & _ & Hin).
  - split; [|intros i j x y Hx Hy; pose proof (proj1 (Forall_lookup _ _) Hc i x Hx) as Ex; cbn in Ex; congruence|by intros ? ?%elem_of_nil].
    intros i x Hx. left. exact (proj1 (Forall_lookup _ _) Hc i x Hx).
  - apply NoDup_seq.
  - intros i Hi. apply elem_of_seq in Hi. destruct (lookup_lt_is_Some_2 (connectors d0) i) as [c Hc']; [lia|].
    exists c. split; [done|]. right. by intros ?%elem_of_nil.
  - intros i j c c' _ _ Hi Hj Heq Hne. apply (shown_inj (connectors d0) i j c c'); auto. by apply (Hpos i).
  - assert (shown (connectors d1) = shown (connectors d0)) as Esh by (unfold shown; by rewrite S1).
    assert (Z.of_nat (length (displays d1)) = m - n) as El by (rewrite S3, Ed, length_seqZ; lia).
    rewrite El, Esh. split; [done|]. split; [by apply (numbered_same d0 d1)|].
    intros D HD. split.
    { unfold HandlesDisplay. rewrite S3, Ed. apply bool_decide_eq_true, elem_of_seqZ. lia. }
    assert (D ∈ shown (connectors d0)) as Hsd by (rewrite Hsh; apply elem_of_seqZ; lia).
    apply list_elem_of_filter in Hsd as [HD0 Hsd]. apply list_elem_of_fmap in Hsd as (c & -> & Hci).
    apply list_elem_of_lookup in Hci as [i Hi].
    assert (conn_display c ∈ done') as Hdone.
    { apply (Hin i); [|done]. apply elem_of_seq. pose proof (lookup_lt_Some _ _ _ Hi). lia. }
    destruct (po_exists _ _ Hp _ Hdone) as (k0 & x & Hx & Ex); [lia|].
    unfold GetCrtcForDisplay.
    destruct (list_find_elem_of (λ y, crtc_display y = conn_display c) (crtcs d1) x) as [[k1 y] Hf]; [by eapply list_elem_of_lookup_2|done|].
    rewrite Hf. apply list_find_Some in Hf as (Hy & Ey & _). exists k1, y. cbn. split_and!; auto.
    intros c' x' Hx' Ex'. apply (po_unique _ _ Hp c' k1 x' y); [done|done|congruence|lia].
Qed.

(** ** Modes keep their ids *)

Definition timing (k : mode_info) : list Z :=
  [clock k; hdisplay k; hsync_start k; hsync_end k; htotal k; hskew k; vdisplay k; vsync_start k;
   vsync_end k; vtotal k; vscan k; mode_flags k; mode_type k].
Lemma same_timing_eq m k : same_timing m k ↔ timing (info m) = timing k.
Proof.
  unfold same_timing, timing. split; [|intros Heq; cbn in Heq; injection Heq; intros; split_and!; done].
  intros (-> & -> & -> & -> & -> & -> & -> & -> & -> & -> & -> & -> & ->). done.
Qed.

(** Ids are positive, distinct and not above the device's counter. *)
Record modes_ok (next : Z) (ms : list DrmMode) : Prop := {
  mo_ids : NoDup (mode_id <$> ms);
  mo_range : Forall (λ m, 0 < mode_id m ≤ next) ms;
}.

Lemma merge_modes_spec old base next l r n' :
  merge_modes old next l = (r, n') → modes_ok base old → NoDup (timing <$> l) →
  0 ≤ base → base ≤ next → next + Z.of_nat (length l) < 4294967296 →
  next ≤ n' ≤ next + Z.of_nat (length l)
  ∧ Forall2 (λ k m, timing (info m) = timing k
             ∧ ((m ∈ old) ∨ (next < mode_id m ≤ n' ∧ ∀ o, o ∈ old → timing (info o) ≠ timing k))) l r
  ∧ NoDup (mode_id <$> filter (λ m, base < mode_id m) r)
  ∧ Forall (λ m, 0 < mode_id m ≤ n') r.
Proof.
  revert next r n'. induction l as [|k l IH]; intros next r n' E Ho Hnd Hb0 Hb Hl; cbn [merge_modes] in E.
  { injection E as <- <-. cbn. split_and!; [lia|lia|constructor|constructor|constructor]. }
  cbn [length] in *. apply list.NoDup_cons in Hnd as [Hnk Hnd].
  destruct (list_find (λ m, same_timing m k) old) as [[i m]|] eqn:Ef.
  - destruct (merge_modes old next l) as [r0 n0] eqn:Er. injection E as <- <-.
    destruct (IH next r0 n0 Er Ho Hnd) as (A1 & A2 & A3 & A4); [lia|lia|lia|].
    apply list_find_Some in Ef as (Hm & Ht & _). apply same_timing_eq in Ht.
    pose proof (proj1 (Forall_lookup _ _) (mo_range _ _ Ho) i m Hm) as Hid. cbn in Hid.
    split_and!; [lia|lia| | |].
    + constructor; [|done]. split; [done|]. left. by eapply list_elem_of_lookup_2.
    + rewrite filter_cons, decide_False by lia. done.
    + constructor; [lia|done].
  - assert (u32 (next + 1) = next + 1) as Eu by (apply u32_small; unfold is_u32; lia). rewrite Eu in E.
    destruct (merge_modes old (next + 1) l) as [r0 n0] eqn:Er. injection E as <- <-.
    destruct (IH (next + 1) r0 n0 Er Ho Hnd) as (A1 & A2 & A3 & A4); [lia|lia|lia|].
    split_and!; [lia|lia| | |].
    + constructor.
      * cbn. split; [done|]. right. split; [lia|]. intros o Ho' Et. apply list_find_None in Ef.
        apply List.Forall_forall with (x := o) in Ef; [|by apply list_elem_of_In]. apply Ef. by apply same_timing_eq.
      * revert A2. apply Forall2_impl. cbn. intros k' m' [Ht [Hin|[Hid Hn]]]; (split; [done|]); [by left|].
        right. split; [lia|done].
    + rewrite filter_cons, decide_True by (cbn; lia). cbn. apply list.NoDup_cons. split; [|done].
      intros (m' & Em & Hin)%list_elem_of_fmap. apply list_elem_of_filter in Hin as [Hb' Hin].
      apply list_elem_of_lookup in Hin as [j Hj].
      destruct (Forall2_lookup_r _ _ _ j m' A2 Hj) as (k' & Hk' & Ht & [Hold|[Hid _]]).
      * apply list_elem_of_lookup in Hold as [j' Hj'].
        pose proof (proj1 (Forall_lookup _ _) (mo_range _ _ Ho) j' m' Hj') as Hr. cbn in Hr. lia.
      * lia.
    + constructor; [cbn; lia|]. done.
Qed.

(** Old modes and new ids do not collide. *)
Lemma modes_distinct old next ms :
  modes_ok next old → NoDup ((λ m, timing (info m)) <$> old) → NoDup ((λ m, timing (info m)) <$> ms) →
  NoDup (mode_id <$> filter (λ m, next < mode_id m) ms) →
  Forall (λ m, m ∈ old ∨ next < mode_id m) ms → NoDup (mode_id <$> ms).
Proof.
  intros [Hids Hr] _ Ht Hnew Hms. induction ms as [|m ms IH]; [constructor|].
  apply Forall_cons_1 in Hms as [Hm Hms]. cbn in Ht |- *. apply list.NoDup_cons in Ht as [Hni Ht].
  rewrite filter_cons in Hnew. apply list.NoDup_cons. split.
  - intros (m' & Em & Hin)%list_elem_of_fmap. assert (m' ∈ old ∨ next < mode_id m') as Hm'.
    { apply list_elem_of_lookup in Hin as [i Hi]. exact (proj1 (Forall_lookup _ _) Hms i m' Hi). }
    assert (∀ o, o ∈ old → mode_id o ≤ next) as Hle.
    { intros o [i Ho]%list_elem_of_lookup. pose proof (proj1 (Forall_lookup _ _) Hr i o Ho) as Hx. cbn in Hx. lia. }
    destruct Hm as [Hm|Hm], Hm' as [Hm'|Hm'].
    + destruct Hni. apply list_elem_of_fmap. exists m'. split; [|done]. f_equal. f_equal.
      apply list_elem_of_lookup in Hm as [i Hi]. apply list_elem_of_lookup in Hm' as [j Hj].
      assert (i = j) as ->; [|congruence]. eapply (NoDup_lookup (mode_id <$> old)); [done|by rewrite list_lookup_fmap, Hi|].
      by rewrite list_lookup_fmap, Hj, Em.
    + specialize (Hle m Hm). lia.
    + specialize (Hle m' Hm'). lia.
    + rewrite decide_True in Hnew by done. cbn in Hnew. apply list.NoDup_cons in Hnew as [Hx _]. destruct Hx.
      apply list_elem_of_fmap. exists m'. split; [done|]. by apply list_elem_of_filter.
  - apply IH; auto. case_decide; [|done]. cbn in Hnew. by apply list.NoDup_cons in Hnew as [_ Hnew].
Qed.

(** when a connector's modes are read again, a mode that is still there keeps its id,
    a new one gets an id never used before, and ids stay unique, so that a configuration a
    client has chosen means the same mode as long as that mode exists. *)
Theorem drm_modes_stable answer next c c' n' ret :
  UpdateModes answer next c = (c', n', ret) → modes_ok next (modes c) → 0 ≤ next →
  NoDup ((λ m, timing (info m)) <$> modes c) →
  (∀ st l, answer = Some (st, l) → NoDup (timing <$> l) ∧ next + Z.of_nat (length l) < 4294967296) →
  modes_ok n' (modes c') ∧ next ≤ n'
  ∧ (answer = None → modes c' = modes c ∧ ret = -ENODEV)
  ∧ (∀ st l, answer = Some (st, l) →
       ret = 0 ∧ conn_state c' = st ∧ timing <$> l = (λ m, timing (info m)) <$> modes c'
       ∧ ∀ m, m ∈ modes c' → m ∈ modes c ∨ next < mode_id m ∧ ∀ o, o ∈ modes c → timing (info o) ≠ timing (info m)).
Proof.
  intros E Ho H0 Hold Hans. unfold UpdateModes in E. destruct answer as [[st l]|].
  2:{ injection E as <- <- <-. split_and!; auto; [lia|done]. }
  destruct (Hans st l eq_refl) as [Hnd Hlen]. clear Hans.
  destruct (merge_modes (modes c) next l) as [ms n] eqn:Em. injection E as <- <- <-.
  destruct (merge_modes_spec (modes c) next next l ms n Em Ho Hnd H0 ltac:(lia) Hlen) as (A1 & A2 & A3 & A4). cbn.
  assert (timing <$> l = (λ m, timing (info m)) <$> ms) as Et.
  { clear -A2. induction A2 as [|k m l ms [Ht _] _ IH]; [done|]. cbn. by rewrite IH, Ht. }
  split.
  { split; [|done]. apply (modes_distinct (modes c) next ms Ho Hold); [by rewrite <- Et|done|].
    apply Forall_lookup. intros i m Hm. destruct (Forall2_lookup_r _ _ _ i m A2 Hm) as (k & _ & _ & Hx). tauto. }
  split; [lia|]. split; [done|]. intros st' l' [= <- <-]. split_and!; [done|done|done|].
  intros m [i Hm]%list_elem_of_lookup. destruct (Forall2_lookup_r _ _ _ i m A2 Hm) as (k & _ & Ht & [?|[Hid Hn]]); [by left|].
  right. split; [lia|]. by rewrite Ht.
Qed.

(** ** The phase of vertical sync *)

(** the next synthetic vsync lies within one frame after now, and in phase with the last
    one. *)
Theorem vsync_in_phase last frame current :
  0 < frame → 0 ≤ last ≤ current →
  let t := GetPhasedVSync last frame current in
  current < t ≤ current + frame ∧ (t - last) mod frame = 0.
Proof.
  intros Hf Hl. cbn. unfold GetPhasedVSync. rewrite decide_False by lia.
  rewrite Z.quot_div_nonneg by lia. pose proof (Z.div_mod (current - last) frame ltac:(lia)) as Hd.
  pose proof (Z.mod_pos_bound (current - last) frame Hf). split; [nia|].
  replace (frame * ((current - last) / frame + 1) + last - last) with (((current - last) / frame + 1) * frame) by lia.
  by apply Z.mod_mul; lia.
Qed.

(** ** Concrete devices *)

Definition ex_prop (id : Z) (name : string) : k_property := MkKProperty id DRM_MODE_PROP_RANGE name [0; 1] [] 0.
Definition ex_kcrtc (id : Z) : option k_crtc :=
  Some (MkKCrtc id (Some [ex_prop 21 "ACTIVE"; ex_prop 22 "MODE_ID"; ex_prop 23 "OUT_FENCE_PTR"])).
Definition ex_kconn (id type encoder : Z) (encs : list Z) : option k_connector :=
  Some (MkKConnector id type DRM_MODE_CONNECTED 300 200 encs encoder (Some [ex_prop 31 "DPMS"; ex_prop 32 "CRTC_ID"])).
Definition ex_kplane (id kind : Z) : option k_plane :=
  Some (MkKPlane id 3 (Some [MkKProperty 40 DRM_MODE_PROP_ENUM "type" [0; 1; 2] [0; 1; 2] kind;
    ex_prop 41 "CRTC_ID"; ex_prop 42 "FB_ID"; ex_prop 43 "CRTC_X"; ex_prop 44 "CRTC_Y"; ex_prop 45 "CRTC_W";
    ex_prop 46 "CRTC_H"; ex_prop 47 "SRC_X"; ex_prop 48 "SRC_Y"; ex_prop 49 "SRC_W"; ex_prop 50 "SRC_H";
    ex_prop 51 "rotation"; ex_prop 52 "alpha"; ex_prop 53 "IN_FENCE_FD"])).
Definition ex_mode (w h : Z) : mode_info := MkModeInfo 100000 w (w + 8) (w + 16) (w + 24) 0 h (h + 2) (h + 4) (h + 6) 0 60 0 0 "m".
(** An HDMI and an LVDS connector that can both use either encoder and either CRTC. *)
Definition ex_kdevice : k_device :=
  MkKDevice 5 0 0 (Some [ex_kcrtc 1; ex_kcrtc 2])
    [Some (MkKEncoder 11 0 3 0); Some (MkKEncoder 12 0 3 0)]
    [ex_kconn 100 11 0 [11; 12]; ex_kconn 101 7 0 [11; 12]]
    (Some [ex_kplane 201 1; ex_kplane 202 0; ex_kplane 203 0]) 0
    (Some (DRM_MODE_CONNECTED, [ex_mode 640 480])).
Definition device_of {A} (o : outcome DrmDevice A) : DrmDevice :=
  match o with Val d _ => d | _ => MkDevice [] [] [] [] [] [] 0 end.
Definition ex_device : DrmDevice := Eval vm_compute in device_of (device_init ex_kdevice 0).

Lemma drm_display_pipes_witness :
  device_init ex_kdevice 0 = Val ex_device (inr 2) ∧ shown (connectors ex_device) ≡ₚ [0; 1]
  ∧ GetCrtcForDisplay 0 ex_device ≠ GetCrtcForDisplay 1 ex_device.
Proof.
  assert (device_init ex_kdevice 0 = Val ex_device (inr 2)) as E by (vm_compute; reflexivity).
  destruct (drm_display_pipes ex_kdevice 0 ex_device 2 ltac:(lia) E) as (H1 & _ & H3).
  split; [exact E|]. split; [exact H1|].
  destruct (H3 0 ltac:(lia)) as (_ & c & x & -> & Hx & Ex & _), (H3 1 ltac:(lia)) as (_ & c' & x' & -> & Hx' & Ex' & _).
  intros [= <-]. congruence.
Defined.

(** The encoder is not asked whether it is free: the second connector's pipe takes the
    encoder of the first away, whose connector then leads to the CRTC of the other display. *)
Lemma drm_shared_encoder :
  conn_encoder <$> connectors ex_device !! 0%nat = Some (Some 0%nat)
  ∧ conn_encoder <$> connectors ex_device !! 1%nat = Some (Some 0%nat)
  ∧ enc_display <$> encoders ex_device !! 0%nat = Some 0
  ∧ conn_display <$> connectors ex_device !! 0%nat = Some 1.
Proof. vm_compute. auto. Qed.

Definition ex_connector : DrmConnector :=
  Eval vm_compute in
    conn_set_modes DRM_MODE_CONNECTED [MkMode 1 (ex_mode 640 480); MkMode 2 (ex_mode 800 600)]
      (MkConnector 100 None 0 11 DRM_MODE_CONNECTED 300 200 [] [] no_mode 31 32 0 0).
Lemma drm_modes_stable_witness :
  ∃ c, UpdateModes (Some (DRM_MODE_CONNECTED, [ex_mode 1024 768; ex_mode 800 600])) 2 ex_connector = (c, 3, 0)
    ∧ modes_ok 3 (modes c) ∧ mode_id <$> modes c = [3; 2].
Proof.
  eexists. split; [vm_compute; reflexivity|]. split; [|reflexivity].
  refine (proj1 (drm_modes_stable (Some (DRM_MODE_CONNECTED, [ex_mode 1024 768; ex_mode 800 600])) 2 ex_connector
            _ 3 0 _ _ _ _ _)).
  - vm_compute. reflexivity.
  - split; [|repeat constructor; cbn; lia]. apply (bool_decide_unpack _). vm_compute. exact I.
  - lia.
  - apply (bool_decide_unpack _). vm_compute. exact I.
  - intros st l [= <- <-]. split; [|cbn; lia]. apply (bool_decide_unpack _). vm_compute. exact I.
Defined.
Lemma vsync_in_phase_witness : GetPhasedVSync 137 50 683 = 687 ∧ 683 < GetPhasedVSync 137 50 683 ≤ 683 + 50.
Proof. split; [reflexivity|]. apply (vsync_in_phase 137 50 683); lia. Defined.
