(* ===== verification/HwcCompositor.v ===== *)
(** * Hardware composer: planes and commits

    Models android/hardware/xbox/hwcomposer/platform.cpp (the planner), the composition of
    a frame (drmdisplaycomposition.cpp), and drmdisplaycompositor.cpp without the
    flattening of still scenes.  libdrm and the kernel are the class [DrmKernel].  Importing
    and releasing framebuffers is recorded, so that their life can be spoken of. *)

From Stdlib Require Import SpecFloat.
From S2P Require Import Prelude DrmDevice.

Record rect : Type := MkRect { left : Z; top : Z; right : Z; bottom : Z }.
Record frect : Type := MkFRect { fleft : spec_float; ftop : spec_float; fright : spec_float; fbottom : spec_float }.
Inductive DrmHwcBlending : Type := kNone | kPreMult | kCoverage.
#[global] Instance DrmHwcBlending_eq_dec : EqDecision DrmHwcBlending.
Proof. solve_decision. Defined.

(** [float] is binary32; the conversion to [int] truncates and is undefined out of range. *)
Definition fsub (a b : spec_float) : spec_float := SFsub 24 128 a b.
Definition f2i (f : spec_float) : option Z :=
  let in_range z := if decide (is_i32 z) then Some z else None in
  match f with
  | S754_zero _ => Some 0
  | S754_finite s m e =>
      let a := if decide (0 ≤ e) then Z.pos m * 2 ^ e else Z.pos m / 2 ^ (- e) in
      in_range (if s then - a else a)
  | _ => None
  end.

Definition kFlipH : Z := 1.
Definition kFlipV : Z := 2.
Definition kRotate90 : Z := 4.
Definition kRotate180 : Z := 8.
Definition kRotate270 : Z := 16.

(** [buffer]: the framebuffer id of the imported buffer, if there is one. *)
Record DrmHwcLayer : Type := MkLayer {
  sf_handle : Z;
  gralloc_buffer_usage : Z;
  buffer : option Z;
  transform : Z;
  blending : DrmHwcBlending;
  alpha : Z;
  source_crop : frect;
  display_frame : rect;
  acquire_fence : Z;
}.
Definition GRALLOC_USAGE_PROTECTED : Z := 16384.
Definition protected_usage (l : DrmHwcLayer) : bool :=
  bool_decide (Z.land (gralloc_buffer_usage l) GRALLOC_USAGE_PROTECTED = GRALLOC_USAGE_PROTECTED).

(** [SetTransform]: the HAL's transforms are flips (1, 2), a rotation by 90 degrees (4) and
    their combinations for 180 (3) and 270 degrees (7). *)
Definition HWC_TRANSFORM_ROT_180 : Z := 3.
Definition HWC_TRANSFORM_ROT_270 : Z := 7.
Definition SetTransform (sf_transform : Z) : Z :=
  if decide (sf_transform = HWC_TRANSFORM_ROT_270) then kRotate270
  else if decide (sf_transform = HWC_TRANSFORM_ROT_180) then kRotate180
  else
    Z.lor (Z.lor (if has_flag sf_transform 1 then kFlipH else 0) (if has_flag sf_transform 2 then kFlipV else 0))
      (if has_flag sf_transform 4 then kRotate90 else 0).

(** ** The planner *)

Inductive plane_use : Type := kDisable | kLayer.
#[global] Instance plane_use_eq_dec : EqDecision plane_use.
Proof. solve_decision. Defined.
Record DrmCompositionPlane : Type := MkCompPlane {
  use : plane_use; comp_plane : DrmPlane; source_layers : list nat }.

Definition GetUsablePlanes (crtc : DrmCrtc) (primary overlay : list DrmPlane) : list DrmPlane :=
  filter (λ p, GetCrtcSupported p crtc = true) primary ++ filter (λ p, GetCrtcSupported p crtc = true) overlay.

(** [Emplace], with [PopPlane]: the new composition and planes, or [-ENOENT]. *)
Definition Emplace (composition : list DrmCompositionPlane) (planes : list DrmPlane) (layer : nat)
    : option (list DrmCompositionPlane * list DrmPlane) :=
  match planes with
  | [] => None
  | p :: rest => Some (composition ++ [MkCompPlane kLayer p [layer]], rest)
  end.

(** A stage takes the layers in order of their index, and leaves those it does not place. *)
Definition plan_state : Type := list DrmCompositionPlane * list DrmPlane * list (nat * DrmHwcLayer).
Fixpoint PlanStageProtected (comp : list DrmCompositionPlane) (planes : list DrmPlane)
    (layers : list (nat * DrmHwcLayer)) : plan_state :=
  match layers with
  | [] => (comp, planes, [])
  | (i, l) :: rest =>
      if protected_usage l then
        match Emplace comp planes i with
        | Some (comp', planes') => PlanStageProtected comp' planes' rest
        | None => PlanStageProtected comp planes rest
        end
      else
        match PlanStageProtected comp planes rest with
        | (comp', planes', left) => (comp', planes', (i, l) :: left)
        end
  end.
Fixpoint PlanStageGreedy (comp : list DrmCompositionPlane) (planes : list DrmPlane)
    (layers : list (nat * DrmHwcLayer)) : plan_state :=
  match layers with
  | [] => (comp, planes, [])
  | (i, l) :: rest =>
      match Emplace comp planes i with
      | Some (comp', planes') => PlanStageGreedy comp' planes' rest
      | None => (comp, planes, layers)
      end
  end.

Inductive PlanStage : Type := StageProtected | StageGreedy.
Definition run_stage (st : PlanStage) (s : plan_state) : plan_state :=
  match s with
  | (comp, planes, layers) =>
      match st with
      | StageProtected => PlanStageProtected comp planes layers
      | StageGreedy => PlanStageGreedy comp planes layers
      end
  end.
Definition ProvisionPlanes (stages : list PlanStage) (layers : list DrmHwcLayer) (crtc : DrmCrtc)
    (primary overlay : list DrmPlane) : Z + list DrmCompositionPlane :=
  let planes := GetUsablePlanes crtc primary overlay in
  if decide (planes = []) then inl (-ENODEV)
  else inr (foldl (λ s st, run_stage st s) ([], planes, imap pair layers) stages).1.1.

(** ** Compositions *)

Inductive DrmCompositionType : Type :=
  | DRM_COMPOSITION_TYPE_EMPTY | DRM_COMPOSITION_TYPE_FRAME
  | DRM_COMPOSITION_TYPE_DPMS | DRM_COMPOSITION_TYPE_MODESET.
#[global] Instance DrmCompositionType_eq_dec : EqDecision DrmCompositionType.
Proof. solve_decision. Defined.
Definition DRM_MODE_DPMS_ON : Z := 0.
Definition DRM_MODE_DPMS_OFF : Z := 3.

Record DrmDisplayComposition : Type := MkComposition {
  comp_type : DrmCompositionType;
  comp_dpms : Z;
  comp_mode : DrmMode;
  out_fence : Z;
  geometry_changed : bool;
  comp_layers : list DrmHwcLayer;
  composition_planes : list DrmCompositionPlane;
}.
Definition new_composition : DrmDisplayComposition :=
  MkComposition DRM_COMPOSITION_TYPE_EMPTY DRM_MODE_DPMS_ON no_mode (-1) false [] [].
Definition validate_composition_type (c : DrmDisplayComposition) (des : DrmCompositionType) : bool :=
  bool_decide (comp_type c = DRM_COMPOSITION_TYPE_EMPTY ∨ comp_type c = des).

Definition SetLayers (layers : list DrmHwcLayer) (geometry : bool) (c : DrmDisplayComposition)
    : DrmDisplayComposition * Z :=
  if validate_composition_type c DRM_COMPOSITION_TYPE_FRAME then
    (MkComposition DRM_COMPOSITION_TYPE_FRAME (comp_dpms c) (comp_mode c) (out_fence c) geometry
       (comp_layers c ++ layers) (composition_planes c), 0)
  else (c, -EINVAL).
Definition SetDpmsMode (dpms : Z) (c : DrmDisplayComposition) : DrmDisplayComposition * Z :=
  if validate_composition_type c DRM_COMPOSITION_TYPE_DPMS then
    (MkComposition DRM_COMPOSITION_TYPE_DPMS dpms (comp_mode c) (out_fence c) (geometry_changed c)
       (comp_layers c) (composition_planes c), 0)
  else (c, -EINVAL).
Definition SetDisplayMode (m : DrmMode) (c : DrmDisplayComposition) : DrmDisplayComposition * Z :=
  if validate_composition_type c DRM_COMPOSITION_TYPE_MODESET then
    (MkComposition DRM_COMPOSITION_TYPE_MODESET DRM_MODE_DPMS_ON m (out_fence c) (geometry_changed c)
       (comp_layers c) (composition_planes c), 0)
  else (c, -EINVAL).
Definition set_planes (l : list DrmCompositionPlane) (c : DrmDisplayComposition) : DrmDisplayComposition :=
  MkComposition (comp_type c) (comp_dpms c) (comp_mode c) (out_fence c) (geometry_changed c) (comp_layers c) l.
Definition AddPlaneDisable (p : DrmPlane) (c : DrmDisplayComposition) : DrmDisplayComposition :=
  set_planes (composition_planes c ++ [MkCompPlane kDisable p []]) c.
Definition set_out_fence (f : Z) (c : DrmDisplayComposition) : DrmDisplayComposition :=
  MkComposition (comp_type c) (comp_dpms c) (comp_mode c) f (geometry_changed c) (comp_layers c)
    (composition_planes c).

(** Taking the first plane equal to a used one out of its pool. *)
Fixpoint erase_plane (p : DrmPlane) (l : list DrmPlane) : list DrmPlane :=
  match l with
  | [] => []
  | q :: l' => if decide (q = p) then l' else q :: erase_plane p l'
  end.
Definition take_plane (pools : list DrmPlane * list DrmPlane) (cp : DrmCompositionPlane)
    : list DrmPlane * list DrmPlane :=
  if decide (plane_kind (comp_plane cp) = DRM_PLANE_TYPE_PRIMARY)
  then (erase_plane (comp_plane cp) pools.1, pools.2)
  else (pools.1, erase_plane (comp_plane cp) pools.2).

(** [Plan]: the composition and the planes it leaves over. *)
Definition Plan (stages : list PlanStage) (crtc : DrmCrtc) (primary overlay : list DrmPlane)
    (c : DrmDisplayComposition) : Z + (DrmDisplayComposition * (list DrmPlane * list DrmPlane)) :=
  if decide (comp_type c = DRM_COMPOSITION_TYPE_FRAME) then
    match ProvisionPlanes stages (comp_layers c) crtc primary overlay with
    | inl e => inl e
    | inr planes => inr (set_planes planes c, foldl take_plane (primary, overlay) planes)
    end
  else inr (c, (primary, overlay)).

(** ** Plans use every plane once *)

Lemma greedy_spec comp planes layers comp' planes' left :
  PlanStageGreedy comp planes layers = (comp', planes', left) →
  (length layers ≤ length planes)%nat →
  comp' = comp ++ zip_with (λ p l, MkCompPlane kLayer p [l.1]) planes layers
  ∧ planes' = drop (length layers) planes ∧ left = [].
Proof.
  revert comp planes. induction layers as [|[i l] layers IH]; intros comp planes E Hlen; cbn in E.
  { injection E as <- <- <-. rewrite zip_with_nil_r, app_nil_r. done. }
  destruct planes as [|p planes]; cbn in E, Hlen; [lia|].
  destruct (IH _ planes E) as (-> & -> & ->); [lia|]. split; [|done]. cbn. by rewrite <- app_assoc.
Qed.

Lemma erase_plane_perm p l : p ∈ l → p :: erase_plane p l ≡ₚ l.
Proof.
  induction l as [|q l IH]; [by intros ?%elem_of_nil|]. cbn. case_decide as E; [by subst|].
  intros [->|Hin]%elem_of_cons; [congruence|]. rewrite Permutation_swap. by rewrite IH.
Qed.

Lemma Forall_erase (P : DrmPlane → Prop) p l : Forall P l → Forall P (erase_plane p l).
Proof. induction 1 as [|q l Hq Hl IH]; [constructor|]. cbn. case_decide; [done|by constructor]. Qed.

Lemma take_planes_perm cps primary overlay :
  (comp_plane <$> cps) ⊆+ primary ++ overlay →
  Forall (λ p, plane_kind p = DRM_PLANE_TYPE_PRIMARY) primary →
  Forall (λ p, plane_kind p ≠ DRM_PLANE_TYPE_PRIMARY) overlay →
  let pools := foldl take_plane (primary, overlay) cps in
  (comp_plane <$> cps) ++ pools.1 ++ pools.2 ≡ₚ primary ++ overlay.
Proof.
  revert primary overlay. induction cps as [|cp cps IH]; intros primary overlay Hsub Hp Ho; [done|].
  cbn [foldl fmap list_fmap] in *. unfold take_plane at 2 4. cbn [fst snd].
  assert (comp_plane cp ∈ primary ++ overlay) as Hin.
  { apply (elem_of_submseteq _ _ _ ltac:(by apply list_elem_of_here) Hsub). }
  apply elem_of_app in Hin. destruct (decide (plane_kind (comp_plane cp) = DRM_PLANE_TYPE_PRIMARY)) as [Hk|Hk].
  - assert (comp_plane cp ∈ primary) as Hin'.
    { destruct Hin as [?|Hin]; [done|]. apply list_elem_of_lookup in Hin as [i Hi].
      by destruct (proj1 (Forall_lookup _ _) Ho i _ Hi). }
    pose proof (erase_plane_perm _ _ Hin') as Hperm.
    assert (comp_plane <$> cps ⊆+ erase_plane (comp_plane cp) primary ++ overlay) as Hsub'.
    { rewrite <- Hperm in Hsub. cbn in Hsub. by apply (submseteq_app_inv_l _ _ [comp_plane cp]). }
    pose proof (IH _ _ Hsub' ltac:(by apply Forall_erase) Ho) as HI. cbn in HI |- *. rewrite HI.
    by apply (Permutation_app_tail overlay) in Hperm.
  - assert (comp_plane cp ∈ overlay) as Hin'.
    { destruct Hin as [Hin|?]; [|done]. apply list_elem_of_lookup in Hin as [i Hi].
      by destruct Hk; apply (proj1 (Forall_lookup _ _) Hp i). }
    pose proof (erase_plane_perm _ _ Hin') as Hperm.
    assert (comp_plane <$> cps ⊆+ primary ++ erase_plane (comp_plane cp) overlay) as Hsub'.
    { rewrite <- Hperm in Hsub. rewrite <- Permutation_middle in Hsub. by apply (submseteq_app_inv_l _ _ [comp_plane cp]). }
    pose proof (IH _ _ Hsub' Hp ltac:(by apply Forall_erase)) as HI. cbn in HI |- *. rewrite HI, Permutation_middle.
    by rewrite Hperm.
Qed.

(** Every plane the display was given, with its layer or disabled. *)
Definition plan_frame (stages : list PlanStage) (crtc : DrmCrtc) (primary overlay : list DrmPlane)
    (c : DrmDisplayComposition) : Z + DrmDisplayComposition :=
  match Plan stages crtc primary overlay c with
  | inl e => inl e
  | inr (c', (p, o)) => inr (foldl (λ c p, AddPlaneDisable p c) c' (p ++ o))
  end.

Lemma disable_planes_eq l c :
  foldl (λ c p, AddPlaneDisable p c) c l
  = set_planes (composition_planes c ++ ((λ p, MkCompPlane kDisable p []) <$> l)) c.
Proof.
  revert c. induction l as [|p l IH]; intros c; cbn; [rewrite app_nil_r; by destruct c|].
  rewrite IH. cbn. by rewrite <- app_assoc.
Qed.

(** The planes a display keeps: supported by its CRTC, sorted by kind. *)
Record pools_ok (crtc : DrmCrtc) (primary overlay : list DrmPlane) : Prop := {
  pl_supported : Forall (λ p, GetCrtcSupported p crtc = true) (primary ++ overlay);
  pl_primary : Forall (λ p, plane_kind p = DRM_PLANE_TYPE_PRIMARY) primary;
  pl_overlay : Forall (λ p, plane_kind p = DRM_PLANE_TYPE_OVERLAY) overlay;
}.
Lemma usable_all crtc primary overlay :
  pools_ok crtc primary overlay → GetUsablePlanes crtc primary overlay = primary ++ overlay.
Proof.
  intros [Hs _ _]. apply Forall_app in Hs as [H1 H2]. unfold GetUsablePlanes. by rewrite !filter_all.
Qed.

(** The planes of a frame, when there are enough. *)
Lemma plan_frame_spec crtc primary overlay c :
  pools_ok crtc primary overlay → comp_type c = DRM_COMPOSITION_TYPE_FRAME → primary ++ overlay ≠ [] →
  (length (comp_layers c) ≤ length (primary ++ overlay))%nat →
  ∃ rest, plan_frame [StageGreedy] crtc primary overlay c
    = inr (set_planes (imap (λ i p, MkCompPlane kLayer p [i]) (take (length (comp_layers c)) (primary ++ overlay))
                       ++ ((λ p, MkCompPlane kDisable p []) <$> rest)) c)
    ∧ rest ≡ₚ drop (length (comp_layers c)) (primary ++ overlay).
Proof.
  intros Hp Ht Hne Hlen. unfold plan_frame, Plan, ProvisionPlanes. rewrite decide_True by done.
  rewrite (usable_all _ _ _ Hp), decide_False by done. cbn [foldl run_stage].
  destruct (PlanStageGreedy [] (primary ++ overlay) (imap pair (comp_layers c))) as [[cps ps] lf] eqn:Eg.
  apply greedy_spec in Eg as (-> & -> & ->); [|by rewrite length_imap]. cbn [fst].
  set (all := primary ++ overlay) in *. rewrite app_nil_l.
  assert (zip_with (λ p l, MkCompPlane kLayer p [l.1]) all (imap pair (comp_layers c))
    = imap (λ i p, MkCompPlane kLayer p [i]) (take (length (comp_layers c)) all)) as ->.
  { apply list_eq. intros i. rewrite lookup_zip_with, !list_lookup_imap.
    destruct (decide (i < length (comp_layers c))%nat) as [Hi|Hi].
    - rewrite lookup_take_lt by done. destruct (lookup_lt_is_Some_2 (comp_layers c) i Hi) as [l ->].
      by destruct (all !! i).
    - rewrite lookup_take_ge, (lookup_ge_None_2 (comp_layers c)) by lia. by destruct (all !! i). }
  set (cps := imap _ _).
  assert (comp_plane <$> cps = take (length (comp_layers c)) all) as Ecps.
  { unfold cps. rewrite fmap_imap. apply list_eq. intros i. rewrite list_lookup_imap. by destruct (_ !! i). }
  pose proof (take_planes_perm cps primary overlay) as Hperm. cbn zeta in Hperm. rewrite Ecps in Hperm.
  destruct (foldl take_plane (primary, overlay) cps) as [p' o'] eqn:Ef. cbn [fst snd] in Hperm.
  rewrite disable_planes_eq. cbn. exists (p' ++ o'). split; [by destruct c|].
  assert (take (length (comp_layers c)) all ++ p' ++ o' ≡ₚ take (length (comp_layers c)) all ++ drop (length (comp_layers c)) all) as Hx.
  { rewrite take_drop. apply Hperm; [by apply submseteq_take|apply Hp|].
    eapply Forall_impl; [|exact (pl_overlay _ _ _ Hp)]. cbn. by intros q ->. }
  by apply Permutation_app_inv_l in Hx.
Qed.

(** ** The compositor *)

(** One property of an atomic request: object, property, value. *)
Definition atomic : Type := Z * Z * Z.

(** libdrm and the kernel. *)
Class DrmKernel (K : Type) : Type := {
  k_alloc : K → bool;                                   (* drmModeAtomicAlloc *)
  k_add : K → list atomic → atomic → Z;                 (* drmModeAtomicAddProperty: negative on failure *)
  k_commit : Z → list atomic → K → K * Z;               (* drmModeAtomicCommit *)
  k_out_fence : K → Z;                                  (* what the fence array holds afterwards, written or not *)
  k_create_blob : mode_info → K → K * (Z + Z);
  k_destroy_blob : Z → K → K * Z;
  k_set_dpms : Z → Z → Z → K → K * Z;                   (* drmModeConnectorSetProperty *)
}.

Definition DRM_MODE_ATOMIC_TEST_ONLY : Z := 256.
Definition DRM_MODE_ATOMIC_ALLOW_MODESET : Z := 1024.
Definition DRM_MODE_ROTATE_0 : Z := 1.
Definition DRM_MODE_ROTATE_90 : Z := 2.
Definition DRM_MODE_ROTATE_180 : Z := 4.
Definition DRM_MODE_ROTATE_270 : Z := 8.
Definition DRM_MODE_REFLECT_X : Z := 16.
Definition DRM_MODE_REFLECT_Y : Z := 32.
Definition FLATTEN_COUNTDOWN_INIT : Z := 60.

Inductive comp_event : Type :=
  | Imported (fb : Z)
  | Released (fb : Z)
  | Committed (test : bool) (pset : list atomic) (ret : Z).

Section compositor.
Context {K : Type} {KE : DrmKernel K}.

Record Compositor : Type := MkCompositor {
  kern : K;
  dev : DrmDevice;
  display : Z;
  needs_modeset : bool;
  pending_mode : DrmMode;
  blob_id : Z;
  old_blob_id : Z;
  active_composition : option DrmDisplayComposition;
  active : bool;
  vsync_enabled : bool;
  frames_composited : Z;
  flatten_countdown : Z;
  events : list comp_event;
}.
Definition set_kern (k : K) (s : Compositor) : Compositor :=
  MkCompositor k (dev s) (display s) (needs_modeset s) (pending_mode s) (blob_id s) (old_blob_id s)
    (active_composition s) (active s) (vsync_enabled s) (frames_composited s) (flatten_countdown s) (events s).
Definition set_dev (d : DrmDevice) (s : Compositor) : Compositor :=
  MkCompositor (kern s) d (display s) (needs_modeset s) (pending_mode s) (blob_id s) (old_blob_id s)
    (active_composition s) (active s) (vsync_enabled s) (frames_composited s) (flatten_countdown s) (events s).
Definition set_modeset (needs : bool) (m : DrmMode) (blob old : Z) (s : Compositor) : Compositor :=
  MkCompositor (kern s) (dev s) (display s) needs m blob old
    (active_composition s) (active s) (vsync_enabled s) (frames_composited s) (flatten_countdown s) (events s).
Definition set_active_composition (c : option DrmDisplayComposition) (vsync : bool) (s : Compositor) : Compositor :=
  MkCompositor (kern s) (dev s) (display s) (needs_modeset s) (pending_mode s) (blob_id s) (old_blob_id s)
    c (active s) vsync (frames_composited s) (flatten_countdown s) (events s).
Definition set_active (b : bool) (s : Compositor) : Compositor :=
  MkCompositor (kern s) (dev s) (display s) (needs_modeset s) (pending_mode s) (blob_id s) (old_blob_id s)
    (active_composition s) b (vsync_enabled s) (frames_composited s) (flatten_countdown s) (events s).
Definition count_frame (s : Compositor) : Compositor :=
  MkCompositor (kern s) (dev s) (display s) (needs_modeset s) (pending_mode s) (blob_id s) (old_blob_id s)
    (active_composition s) (active s) (vsync_enabled s) (frames_composited s + 1) FLATTEN_COUNTDOWN_INIT (events s).
Definition log (l : list comp_event) (s : Compositor) : Compositor :=
  MkCompositor (kern s) (dev s) (display s) (needs_modeset s) (pending_mode s) (blob_id s) (old_blob_id s)
    (active_composition s) (active s) (vsync_enabled s) (frames_composited s) (flatten_countdown s) (events s ++ l).

(** *** The property set of a frame *)

(** A property is added unless libdrm refuses it. *)
Definition add_property (k : K) (pset : list atomic) (x : atomic) : list atomic * Z :=
  let r := k_add k pset x in if decide (r < 0) then (pset, r) else (pset ++ [x], r).
(** [ret |= add(...) < 0] for several properties, and [add(a) < 0 || add(b) < 0]. *)
Fixpoint add_all (k : K) (pset : list atomic) (l : list atomic) : list atomic * bool :=
  match l with
  | [] => (pset, false)
  | x :: l' =>
      let '(p, r) := add_property k pset x in
      let '(p', f) := add_all k p l' in (p', bool_decide (r < 0) || f)
  end.
Definition add_two (k : K) (pset : list atomic) (a b : atomic) : list atomic * bool :=
  let '(p, r) := add_property k pset a in
  if decide (r < 0) then (p, true)
  else let '(p', r') := add_property k p b in (p', bool_decide (r' < 0)).

(** The end of one round of the loop over the planes. *)
Inductive plane_step : Type :=
  | Next (pset : list atomic) (ret : Z)
  | Stop (pset : list atomic) (ret : Z)
  | Undefined.

Definition layer_rotation (t : Z) : Z :=
  Z.lor (Z.lor (if has_flag t kFlipH then DRM_MODE_REFLECT_X else 0)
               (if has_flag t kFlipV then DRM_MODE_REFLECT_Y else 0))
    (if has_flag t kRotate90 then DRM_MODE_ROTATE_90
     else if has_flag t kRotate180 then DRM_MODE_ROTATE_180
     else if has_flag t kRotate270 then DRM_MODE_ROTATE_270
     else DRM_MODE_ROTATE_0).

Definition disable_plane (k : K) (p : DrmPlane) (pset : list atomic) : plane_step :=
  match add_two k pset (plane_id p, crtc_property p, 0) (plane_id p, fb_property p, 0) with
  | (pset', true) => Stop pset' 1
  | (pset', false) => Next pset' 0
  end.

(** The ten properties of a plane that shows a layer; fixed point, 16 bits of fraction. *)
Definition fixed16 (z : Z) : Z := u64 (i32 (Z.shiftl z 16)).
Definition plane_properties (p : DrmPlane) (crtc : DrmCrtc) (fb : Z) (frame : rect) (crop : frect)
    : option (list atomic) :=
  match f2i (fleft crop), f2i (ftop crop), f2i (fsub (fright crop) (fleft crop)),
        f2i (fsub (fbottom crop) (ftop crop)) with
  | Some l, Some t, Some w, Some h =>
      Some [ (plane_id p, crtc_property p, crtc_id crtc); (plane_id p, fb_property p, u64 fb);
             (plane_id p, crtc_x_property p, u64 (left frame)); (plane_id p, crtc_y_property p, u64 (top frame));
             (plane_id p, crtc_w_property p, u64 (i32 (right frame - left frame)));
             (plane_id p, crtc_h_property p, u64 (i32 (bottom frame - top frame)));
             (plane_id p, src_x_property p, fixed16 l); (plane_id p, src_y_property p, fixed16 t);
             (plane_id p, src_w_property p, fixed16 w); (plane_id p, src_h_property p, fixed16 h) ]
  | _, _, _, _ => None
  end.

(** An optional property: a plane without it has id 0. *)
Definition add_optional (k : K) (p : DrmPlane) (prop value : Z) (pset : list atomic) : plane_step :=
  if decide (prop = 0) then Next pset 0
  else let '(pset', r) := add_property k pset (plane_id p, prop, value) in
       if decide (r < 0) then Stop pset' 1 else Next pset' 0.

Definition show_layer (k : K) (p : DrmPlane) (crtc : DrmCrtc) (l : DrmHwcLayer) (fb : Z) (pset : list atomic)
    : plane_step :=
  let rotation := layer_rotation (transform l) in
  let a := if decide (blending l = kPreMult) then alpha l else 65535 in
  if decide (fb < 0) then disable_plane k p pset
  else if decide (rotation ≠ DRM_MODE_ROTATE_0 ∧ rotation_property p = 0) then Stop pset (-EINVAL)
  else if decide (a ≠ 65535 ∧ alpha_property p = 0) then Stop pset (-EINVAL)
  else
    match plane_properties p crtc fb (display_frame l) (source_crop l) with
    | None => Undefined
    | Some props =>
        match add_all k pset props with
        | (pset', true) => Stop pset' 1
        | (pset', false) =>
            match add_optional k p (rotation_property p) rotation pset' with
            | Next pset'' _ => add_optional k p (alpha_property p) a pset''
            | r => r
            end
        end
    end.

(** One round: [break]s leave [ret] as it is unless they set it. *)
Definition commit_plane (k : K) (crtc : DrmCrtc) (layers : list DrmHwcLayer) (cp : DrmCompositionPlane)
    (pset : list atomic) (ret : Z) : plane_step :=
  let p := comp_plane cp in
  match use cp with
  | kDisable => disable_plane k p pset
  | kLayer =>
      match source_layers cp with
      | [] => Undefined
      | [i] =>
          match layers !! i with
          | None => Stop pset ret
          | Some l =>
              match buffer l with
              | None => Stop pset ret
              | Some fb =>
                  if decide (0 ≤ acquire_fence l) then
                    if decide (in_fence_fd_property p = 0) then Stop pset ret
                    else
                      let '(pset', r) := add_property k pset (plane_id p, in_fence_fd_property p, acquire_fence l) in
                      if decide (r < 0) then Stop pset' r else show_layer k p crtc l fb pset'
                  else show_layer k p crtc l fb pset
              end
          end
      | _ :: _ :: _ => Next pset ret
      end
  end.
Fixpoint commit_planes (k : K) (crtc : DrmCrtc) (layers : list DrmHwcLayer) (cps : list DrmCompositionPlane)
    (pset : list atomic) (ret : Z) : option (list atomic * Z) :=
  match cps with
  | [] => Some (pset, ret)
  | cp :: cps' =>
      match commit_plane k crtc layers cp pset ret with
      | Next pset' ret' => commit_planes k crtc layers cps' pset' ret'
      | Stop pset' ret' => Some (pset', ret')
      | Undefined => None
      end
  end.

(** The writeback connector of a commit and the framebuffer it writes to; addresses are
    written as 0. *)
Definition SetupWritebackCommit (k : K) (crtc : Z) (conn : DrmConnector) (fb : Z) (pset : list atomic)
    : Z + list atomic :=
  if decide (writeback_fb_id conn = 0 ∨ writeback_out_fence conn = 0) then inl (-EINVAL)
  else if decide (fb = 0) then inl (-EINVAL)
  else
    let step x p := let '(p', r) := add_property k p x in if decide (r < 0) then inl r else inr p' in
    p1 ← step (conn_id conn, writeback_fb_id conn, fb) pset;
    p2 ← step (conn_id conn, writeback_out_fence conn, 0) p1;
    step (conn_id conn, crtc_id_property conn, crtc) p2.

(** What comes before the planes: writeback, the out fence and a pending mode; with the
    value [ret] has then, which is what [drmModeAtomicAddProperty] returned last. *)
Definition commit_header (s : Compositor) (conn : DrmConnector) (crtc : DrmCrtc)
    (wb : option (DrmConnector * Z)) : Z + (list atomic * Z) :=
  let k := kern s in
  p ← match wb with Some (w, fb) => SetupWritebackCommit k (crtc_id crtc) w fb [] | None => mret [] end;
  '(p, r) ← (if decide (out_fence_ptr_property crtc = 0) then mret (p, 0)
       else let '(p', r) := add_property k p (crtc_id crtc, out_fence_ptr_property crtc, 0) in
            if decide (r < 0) then inl r else mret (p', r));
  if needs_modeset s then
    let '(p1, r1) := add_property k p (crtc_id crtc, active_property crtc, 1) in
    if decide (r1 < 0) then inl r1
    else match add_two k p1 (crtc_id crtc, mode_property crtc, blob_id s)
                 (conn_id conn, crtc_id_property conn, crtc_id crtc) with
         | (_, true) => inl 1
         | (p2, false) => mret (p2, 0)
         end
  else mret (p, r).

(** *** Calls to the kernel *)

Definition DestroyPropertyBlob (id : Z) : M Compositor Z :=
  if decide (id = 0) then mret 0
  else s ← get; let '(k, r) := k_destroy_blob id (kern s) in put (set_kern k s);; mret r.
Definition CreateModeBlob (m : DrmMode) : M Compositor (Z * Z) :=
  s ← get;
  let '(k, r) := k_create_blob (info m) (kern s) in
  put (set_kern k s);;
  mret (match r with inl e => (e, 0) | inr id => (0, id) end).
Definition own_connector (s : Compositor) : option DrmConnector :=
  GetConnectorForDisplay (display s) (dev s) ≫= λ i, connectors (dev s) !! i.
Definition own_crtc (s : Compositor) : option DrmCrtc :=
  GetCrtcForDisplay (display s) (dev s) ≫= λ i, crtcs (dev s) !! i.
Definition ApplyDpms (dpms : Z) : M Compositor Z :=
  s ← get;
  match own_connector s with
  | None => mret (-ENODEV)
  | Some c => let '(k, r) := k_set_dpms (conn_id c) (dpms_property c) dpms (kern s) in put (set_kern k s);; mret r
  end.
Definition atomic_commit (test : bool) (flags : Z) (pset : list atomic) : M Compositor Z :=
  s ← get;
  let '(k, r) := k_commit flags pset (kern s) in
  put (log [Committed test pset r] (set_kern k s));; mret r.
Definition set_own_mode (m : DrmMode) (s : Compositor) : Compositor :=
  match GetConnectorForDisplay (display s) (dev s) with
  | Some i => set_dev (set_connectors (alter (set_active_mode m) i (connectors (dev s))) (dev s)) s
  | None => s
  end.

(** The mode set that a commit completes. *)
Definition finish_modeset (dpms : Z) : M Compositor Z :=
  s ← get;
  ret ← DestroyPropertyBlob (old_blob_id s);
  if decide (ret ≠ 0) then mret ret
  else
    ret ← ApplyDpms dpms;
    if decide (ret ≠ 0) then mret ret
    else
      modify (λ s, set_modeset false (pending_mode s) 0 (blob_id s) (set_own_mode (pending_mode s) s));;
      mret 0.

(** [CommitFrame]: the composition (whose out fence it may set) and the result. *)
Definition CommitFrame (comp : DrmDisplayComposition) (test_only : bool) (wb : option (DrmConnector * Z))
    : M Compositor (DrmDisplayComposition * Z) :=
  s ← get;
  match own_connector s, own_crtc s with
  | None, _ | _, None => mret (comp, -ENODEV)
  | Some conn, Some crtc =>
      if k_alloc (kern s) then
        match commit_header s conn crtc wb with
        | inl r => mret (comp, r)
        | inr (pset, ret) =>
            match commit_planes (kern s) crtc (comp_layers comp) (composition_planes comp) pset ret with
            | None => undefined
            | Some (pset, ret) =>
                let flags := if test_only then Z.lor DRM_MODE_ATOMIC_ALLOW_MODESET DRM_MODE_ATOMIC_TEST_ONLY
                             else DRM_MODE_ATOMIC_ALLOW_MODESET in
                r ← (if decide (ret = 0) then atomic_commit test_only flags pset else mret 0);
                if decide (r ≠ 0) then mret (comp, r)
                else
                  ret ← (if negb test_only && needs_modeset s then finish_modeset (comp_dpms comp) else mret ret);
                  if decide (negb test_only && needs_modeset s = true ∧ ret ≠ 0) then mret (comp, ret)
                  else
                    s ← get;
                    mret (if decide (out_fence_ptr_property crtc = 0) then comp
                          else set_out_fence (k_out_fence (kern s)) comp, ret)
            end
        end
      else mret (comp, -ENOMEM)
  end.

(** *** Applying compositions *)

Definition buffers (c : DrmDisplayComposition) : list Z := omap buffer (comp_layers c).
(** The destructor releases the imported buffers. *)
Definition destroy_composition (c : DrmDisplayComposition) : M Compositor unit :=
  modify (log (Released <$> buffers c)).

Fixpoint disable_all (k : K) (cps : list DrmCompositionPlane) (pset : list atomic) : Z + list atomic :=
  match cps with
  | [] => mret pset
  | cp :: cps' =>
      match disable_plane k (comp_plane cp) pset with
      | Next p _ => disable_all k cps' p
      | _ => inl 1
      end
  end.
Definition DisablePlanes (comp : DrmDisplayComposition) : M Compositor Z :=
  s ← get;
  if k_alloc (kern s) then
    match disable_all (kern s) (composition_planes comp) [] with
    | inl r => mret r
    | inr pset => atomic_commit false 0 pset
    end
  else mret (-ENOMEM).

Definition ClearDisplay : M Compositor unit :=
  s ← get;
  match active_composition s with
  | None => mret tt
  | Some c =>
      r ← DisablePlanes c;
      if decide (r ≠ 0) then mret tt
      else destroy_composition c;; modify (set_active_composition None false)
  end.

Definition ApplyFrame (comp : DrmDisplayComposition) (status : Z) : M Compositor unit :=
  '(comp, ret) ← (if decide (status = 0) then CommitFrame comp false None else mret (comp, status));
  if decide (ret ≠ 0) then ClearDisplay;; destroy_composition comp
  else
    modify count_frame;;
    s ← get;
    put (set_active_composition (Some comp) (vsync_enabled s) s);;
    match active_composition s with
    | Some old => destroy_composition old
    | None => mret tt
    end.

Definition ApplyComposition (comp : DrmDisplayComposition) : M Compositor Z :=
  match comp_type comp with
  | DRM_COMPOSITION_TYPE_FRAME =>
      '(comp, ret) ← (if geometry_changed comp then CommitFrame comp true None else mret (comp, 0));
      if decide (ret ≠ 0) then destroy_composition comp;; mret ret
      else ApplyFrame comp ret;; mret ret
  | DRM_COMPOSITION_TYPE_DPMS =>
      modify (set_active (bool_decide (comp_dpms comp = DRM_MODE_DPMS_ON)));;
      ret ← ApplyDpms (comp_dpms comp);
      destroy_composition comp;; mret ret
  | DRM_COMPOSITION_TYPE_MODESET =>
      s ← get;
      (if decide (blob_id s = 0) then mret 0 else DestroyPropertyBlob (blob_id s));;
      '(ret, id) ← CreateModeBlob (comp_mode comp);
      modify (λ s, set_modeset (needs_modeset s || bool_decide (ret = 0)) (comp_mode comp) id (old_blob_id s) s);;
      destroy_composition comp;; mret ret
  | DRM_COMPOSITION_TYPE_EMPTY => destroy_composition comp;; mret (-EINVAL)
  end.
(** The destructor. *)
Definition destroy_compositor : M Compositor unit :=
  s ← get;
  (if decide (blob_id s = 0) then mret 0 else DestroyPropertyBlob (blob_id s));;
  (if decide (old_blob_id s = 0) then mret 0 else DestroyPropertyBlob (old_blob_id s));;
  match active_composition s with
  | Some c => destroy_composition c;; modify (set_active_composition None (vsync_enabled s))
  | None => mret tt
  end.
Definition TestComposition (comp : DrmDisplayComposition) : M Compositor (DrmDisplayComposition * Z) :=
  CommitFrame comp true None.
End compositor.

(** ** Mode blobs *)

(** The blobs a file descriptor has created and not destroyed: a new one is fresh, only
    these can be destroyed, and nothing else changes them. *)
Class KernelBlobs (K : Type) `{DrmKernel K} : Type := {
  k_live : K → gset Z;
  k_live_nonzero k : 0 ∉ k_live k;
  k_create_ok m k k' id : k_create_blob m k = (k', inr id) → id ≠ 0 ∧ (id ∉ k_live k) ∧ k_live k' = {[id]} ∪ k_live k;
  k_create_bad m k k' e : k_create_blob m k = (k', inl e) → e ≠ 0 ∧ k_live k' = k_live k;
  k_destroy_live id k k' r : k_destroy_blob id k = (k', r) → id ∈ k_live k → r = 0 ∧ k_live k' = (k_live k ∖ {[id]});
  k_destroy_dead id k k' r : k_destroy_blob id k = (k', r) → id ∉ k_live k → r ≠ 0 ∧ k_live k' = k_live k;
  k_commit_blobs f p k : k_live (k_commit f p k).1 = k_live k;
  k_dpms_blobs c p v k : k_live (k_set_dpms c p v k).1 = k_live k;
}.

Section blobs.
Context {K : Type} {KE : DrmKernel K} {KB : KernelBlobs K}.
Abbreviation State := (@Compositor K).

Definition live (s : State) : gset Z := k_live (kern s).
Definition modeset (s : State) : bool * Z * Z := (needs_modeset s, blob_id s, old_blob_id s).

(** The blobs of this display are its pending and its active one, and no others are live
    than those of the device's other displays. *)
Record blobs_ok (others : gset Z) (s : State) : Prop := {
  bl_live : live s = others ∪ ({[blob_id s; old_blob_id s]} ∖ {[0]});
  bl_others : (blob_id s ∉ others) ∧ (old_blob_id s ∉ others);
  bl_distinct : blob_id s ≠ 0 → blob_id s ≠ old_blob_id s;
}.
(** The active blob is gone although the pending mode has not been set. *)
Definition wedged (s : State) : Prop := needs_modeset s = true ∧ old_blob_id s ≠ 0 ∧ old_blob_id s ∉ live s.

(** The kernel can refuse a DPMS value. *)
Definition dpms_fails : Prop := ∃ c p v (k : K), (k_set_dpms c p v k).2 ≠ 0.
(** What a step may do to the mode: nothing, complete it, or lose the old blob to a
    failure of DPMS. *)
Inductive mode_step (s s' : State) (ret : Z) : Prop :=
  | mode_same : modeset s' = modeset s → live s' = live s → mode_step s s' ret
  | mode_done : needs_modeset s = true → modeset s' = (false, 0, blob_id s) →
      live s' = live s ∖ {[old_blob_id s]} → old_blob_id s = 0 ∨ old_blob_id s ∈ live s → mode_step s s' ret
  | mode_dpms : dpms_fails → needs_modeset s = true → modeset s' = modeset s → ret ≠ 0 →
      live s' = live s ∖ {[old_blob_id s]} → old_blob_id s = 0 ∨ old_blob_id s ∈ live s → mode_step s s' ret.

(** What CommitFrame leaves alone. *)
Definition released (l : list comp_event) : list Z := omap (λ e, match e with Released fb => Some fb | _ => None end) l.
Definition imported (l : list comp_event) : list Z := omap (λ e, match e with Imported fb => Some fb | _ => None end) l.
Definition frame_view (s : State) :=
  (display s, active_composition s, active s, vsync_enabled s, frames_composited s, flatten_countdown s,
   released (events s), imported (events s)).

Lemma apply_dpms_spec dpms (s s' : State) r :
  ApplyDpms dpms s = Val s' r → modeset s' = modeset s ∧ live s' = live s ∧ frame_view s' = frame_view s
  ∧ (own_connector s ≠ None → r ≠ 0 → dpms_fails).
Proof.
  unfold ApplyDpms. run_m. destruct (own_connector s) as [c|]; [|by intros [= <- <-]].
  destruct (k_set_dpms _ _ _ _) as [k z] eqn:E. intros [= <- <-]. split_and!; [done| |done|].
  2: { intros _ Hz. exists (conn_id c), (dpms_property c), dpms, (kern s). by rewrite E. }
  unfold live. cbn [kern set_kern]. pose proof (k_dpms_blobs (conn_id c) (dpms_property c) dpms (kern s)) as Hb.
  by rewrite E in Hb.
Qed.

Lemma destroy_blob_spec id (s s' : State) r :
  DestroyPropertyBlob id s = Val s' r →
  modeset s' = modeset s ∧ frame_view s' = frame_view s ∧ own_connector s' = own_connector s ∧
  (r = 0 ∧ live s' = live s ∖ {[id]} ∧ (id = 0 ∨ id ∈ live s) ∨ r ≠ 0 ∧ live s' = live s ∧ id ≠ 0 ∧ id ∉ live s).
Proof.
  unfold DestroyPropertyBlob. case_decide as H0.
  { intros [= <- <-]. split_and!; [done..|]. left. split_and!; [done| |by left].
    pose proof (k_live_nonzero (kern s)). unfold live. set_solver. }
  run_m. destruct (k_destroy_blob id (kern s)) as [k z] eqn:E. intros [= <- <-]. split_and!; [done..|].
  unfold live in *. cbn [kern set_kern]. destruct (decide (id ∈ k_live (kern s))) as [Hin|Hin].
  - apply k_destroy_live in E as [-> ->]; [|done]. left. split_and!; [done..|by right].
  - apply k_destroy_dead in E as [? ->]; [|done]. by right.
Qed.

Lemma set_own_mode_view m (s : State) :
  modeset (set_own_mode m s) = modeset s ∧ live (set_own_mode m s) = live s ∧ frame_view (set_own_mode m s) = frame_view s
  ∧ pending_mode (set_own_mode m s) = pending_mode s.
Proof. unfold set_own_mode. by destruct (GetConnectorForDisplay _ _). Qed.

Lemma finish_modeset_spec dpms (s s' : State) r :
  needs_modeset s = true → own_connector s ≠ None → finish_modeset dpms s = Val s' r →
  mode_step s s' r ∧ frame_view s' = frame_view s ∧ (wedged s → r ≠ 0).
Proof.
  intros Hn Hc. unfold finish_modeset. run_m.
  destruct (DestroyPropertyBlob (old_blob_id s) s) as [s1 r1| |] eqn:E1; [|done..].
  apply destroy_blob_spec in E1 as (Em1 & Ef1 & Ec1 & [(-> & El1 & Hold)|(Hr & El1 & Hold & Hdead)]).
  2: { rewrite decide_True by done. intros [= <- <-]. split_and!; [by apply mode_same|done|done]. }
  assert (¬ wedged s) as Hw by (intros (_ & ? & ?); naive_solver).
  rewrite decide_False by naive_solver.
  destruct (ApplyDpms dpms s1) as [s2 r2| |] eqn:E2; [|done..].
  apply apply_dpms_spec in E2 as (Em2 & El2 & Ef2 & Hf). rewrite Ec1 in Hf. case_decide as H2.
  { intros [= <- <-]. split_and!; [|congruence|by intros ?]. apply mode_dpms; [by apply Hf|done|congruence|done|congruence|done]. }
  intros [= <- <-]. destruct (set_own_mode_view (pending_mode s2) s2) as (Em3 & El3 & Ef3 & _).
  split_and!; [apply mode_done; [done| | |done]| |by intros ?].
  - unfold modeset in *. cbn [needs_modeset blob_id old_blob_id set_modeset]. congruence.
  - unfold live in *. cbn [kern set_modeset]. congruence.
  - unfold frame_view in *. cbn [display active_composition active vsync_enabled frames_composited flatten_countdown events set_modeset].
    congruence.
Qed.

Lemma header_error (s : State) conn crtc wb r : commit_header s conn crtc wb = inl r → r ≠ 0.
Proof.
  unfold commit_header, SetupWritebackCommit, add_property, add_two, mbind, result_bind, mret, result_ret.
  intros E. repeat first [done | case_decide | progress simplify_eq | case_match]; lia.
Qed.

Lemma mode_step_from (s s1 s' : State) r :
  modeset s1 = modeset s → live s1 = live s → mode_step s1 s' r → mode_step s s' r.
Proof.
  intros Hm Hl. unfold modeset in Hm. injection Hm as Hn Hb Ho.
  destruct 1 as [E1 E2|E0 E1 E2 E3|Ed E0 E1 E2 E3 E4].
  - apply mode_same; [|congruence]. unfold modeset in *. congruence.
  - apply mode_done; [congruence..|by rewrite <- Hl, <- Ho].
  - apply mode_dpms; [done|congruence| |done|congruence|by rewrite <- Hl, <- Ho]. unfold modeset in *. congruence.
Qed.
Lemma wedged_from (s s1 : State) : modeset s1 = modeset s → live s1 = live s → wedged s → wedged s1.
Proof. unfold modeset, wedged. intros Hm ->. injection Hm as -> _ ->. done. Qed.

Lemma atomic_commit_spec test flags pset (s s' : State) r :
  atomic_commit test flags pset s = Val s' r →
  modeset s' = modeset s ∧ live s' = live s ∧ frame_view s' = frame_view s ∧ own_connector s' = own_connector s.
Proof.
  unfold atomic_commit. run_m. destruct (k_commit flags pset (kern s)) as [k z] eqn:E. intros [= <- <-].
  split_and!; [done| | |done].
  - unfold live. cbn [kern log set_kern]. pose proof (k_commit_blobs flags pset (kern s)) as Hb. by rewrite E in Hb.
  - unfold frame_view, released, imported. cbn [log set_kern events]. by rewrite !omap_app, !app_nil_r.
Qed.

(** A test leaves the mode alone; a commit makes one step of it, and fails when wedged. *)
Lemma commit_frame_spec comp test wb (s s' : State) comp' ret :
  CommitFrame comp test wb s = Val s' (comp', ret) →
  (∃ f, comp' = set_out_fence f comp) ∧ frame_view s' = frame_view s ∧
  (if test then modeset s' = modeset s ∧ live s' = live s else mode_step s s' ret ∧ (wedged s → ret ≠ 0)).
Proof.
  assert (comp = set_out_fence (out_fence comp) comp) as Hself by by destruct comp.
  assert (∀ r : Z, r ≠ 0 → Val s (comp, r) = Val s' (comp', ret) →
    (∃ f, comp' = set_out_fence f comp) ∧ frame_view s' = frame_view s ∧
    (if test then modeset s' = modeset s ∧ live s' = live s else mode_step s s' ret ∧ (wedged s → ret ≠ 0))) as Hstop.
  { intros r Hr [= <- <- <-]. split_and!; [by eexists|done|]. destruct test; [done|]. split; [by apply mode_same|done]. }
  unfold CommitFrame. run_m.
  destruct (own_connector s) as [conn|] eqn:Ec; [|by apply Hstop]. destruct (own_crtc s) as [crtc|]; [|by apply Hstop].
  destruct (k_alloc (kern s)); [|by apply Hstop].
  destruct (commit_header s conn crtc wb) as [r|[pset r0]] eqn:Eh; [apply header_error in Eh; by apply Hstop|].
  destruct (commit_planes _ _ _ _ pset r0) as [[pset' r1]|] eqn:Ep; [|done].
  match goal with |- match ?m with _ => _ end = _ → _ => destruct m as [s1 r| |] eqn:E1 end; [|done..].
  assert (modeset s1 = modeset s ∧ live s1 = live s ∧ frame_view s1 = frame_view s ∧ own_connector s1 = Some conn) as (Em1 & El1 & Ef1 & Ec1).
  { case_decide as Hd.
    - apply atomic_commit_spec in E1 as (? & ? & ? & ?). rewrite <- Ec. by split_and!.
    - injection E1 as <- <-. by split_and!. }
  clear E1. destruct (decide (r ≠ 0)) as [Hr|Hr].
  { intros [= <- <- <-]. split_and!; [by eexists|done|]. destruct test; [done|]. split; [by apply mode_same|done]. }
  destruct (negb test && needs_modeset s) eqn:Eneed.
  - apply andb_true_iff in Eneed as [Et%negb_true_iff Hn]. subst test.
    assert (needs_modeset s1 = true) as Hn1 by (unfold modeset in Em1; congruence).
    destruct (finish_modeset (comp_dpms comp) s1) as [s2 r2| |] eqn:E2; [|done..].
    apply finish_modeset_spec in E2 as (Hstep & Ef2 & Hw); [|done|by rewrite Ec1].
    assert (mode_step s s2 r2 ∧ (wedged s → r2 ≠ 0)) as Hgoal.
    { split; [by apply (mode_step_from s s1)|]. intros ?. by apply Hw, (wedged_from s s1). }
    case_decide as Hd; intros [= <- <- <-]; (split_and!; [|congruence|apply Hgoal..]); [by eexists|].
    case_decide; by eexists.
  - rewrite decide_False by (by intros [? _]). intros [= <- <- <-]. split_and!; [case_decide; by eexists|done|].
    destruct test; [done|]. split; [by apply mode_same|]. cbn in Eneed. intros (? & _). congruence.
Qed.
(** ** Compositions *)

Definition active_buffers (s : State) : list Z := from_option buffers [] (active_composition s).
(** The buffers of the active composition and the released ones, with some more. *)
Definition takes (extra : list Z) (s s' : State) : Prop :=
  imported (events s') = imported (events s) ∧
  released (events s') ++ active_buffers s' ≡ₚ released (events s) ++ active_buffers s ++ extra.
(** No new frame is shown, and the last one may be taken off. *)
Definition not_shown (s s' : State) : Prop :=
  frames_composited s' = frames_composited s ∧
  (active_composition s' = active_composition s ∨ active_composition s' = None).

Lemma released_app a b : released (a ++ b) = released a ++ released b.
Proof. apply omap_app. Qed.
Lemma imported_app a b : imported (a ++ b) = imported a ++ imported b.
Proof. apply omap_app. Qed.
Lemma released_released l : released (Released <$> l) = l.
Proof. induction l as [|x l IH]; [done|]. unfold released in *. cbn. by rewrite IH. Qed.
Lemma imported_released l : imported (Released <$> l) = [].
Proof. induction l as [|x l IH]; [done|]. unfold imported in *. cbn. by rewrite IH. Qed.

Lemma destroy_composition_spec c (s : State) :
  ∃ s', destroy_composition c s = Val s' tt ∧ modeset s' = modeset s ∧ live s' = live s
    ∧ frames_composited s' = frames_composited s ∧ active_composition s' = active_composition s
    ∧ imported (events s') = imported (events s) ∧ released (events s') = released (events s) ++ buffers c.
Proof.
  eexists. split; [done|]. split_and!; [done..| |]; cbn [log events].
  - by rewrite imported_app, imported_released, app_nil_r.
  - by rewrite released_app, released_released.
Qed.

Lemma clear_display_spec (s s' : State) :
  ClearDisplay s = Val s' tt →
  modeset s' = modeset s ∧ live s' = live s ∧ takes [] s s' ∧ not_shown s s'.
Proof.
  assert (∀ s1 : State, modeset s1 = modeset s → live s1 = live s → frame_view s1 = frame_view s →
    modeset s1 = modeset s ∧ live s1 = live s ∧ takes [] s s1 ∧ not_shown s s1) as Hsame.
  { intros s1 Hm Hl Hf. unfold frame_view in Hf. injection Hf as _ Ha _ _ Hn _ Hr Hi.
    split_and!; [done..| |by split; [|left]]. split; [done|]. unfold active_buffers. by rewrite Ha, Hr, app_nil_r. }
  unfold ClearDisplay. run_m. destruct (active_composition s) as [c|] eqn:Ea; [|intros [= <-]; by apply Hsame].
  destruct (DisablePlanes c s) as [s1 r| |] eqn:Ed; [|done..].
  assert (modeset s1 = modeset s ∧ live s1 = live s ∧ frame_view s1 = frame_view s) as (Em & El & Ef).
  { unfold DisablePlanes in Ed. run_m_in Ed. destruct (k_alloc _); [|by injection Ed as <- <-].
    destruct (disable_all _ _ _) as [e|pset]; [by injection Ed as <- <-|].
    apply atomic_commit_spec in Ed as (? & ? & ? & ?). by split_and!. }
  case_decide; [intros [= <-]; by apply Hsame|].
  destruct (destroy_composition_spec c s1) as (s2 & -> & Em2 & El2 & En2 & _ & Ei2 & Er2). intros [= <-].
  unfold frame_view in Ef. injection Ef as _ Ha _ _ Hn _ Hr Hi. split_and!.
  - unfold modeset in *. cbn [needs_modeset blob_id old_blob_id set_active_composition]. congruence.
  - unfold live in *. cbn [kern set_active_composition]. congruence.
  - split; cbn [events set_active_composition]; [congruence|]. unfold active_buffers.
    cbn [active_composition set_active_composition from_option]. rewrite Ea, Er2, Hr. cbn [from_option option_rect].
    by rewrite !app_nil_r.
  - split; [cbn [frames_composited set_active_composition]; congruence|by right].
Qed.

(** A frame: shown, and the composition it replaces is destroyed; or destroyed itself. *)
Lemma apply_frame_spec comp (s s' : State) u :
  ApplyFrame comp 0 s = Val s' u →
  (∃ r, mode_step s s' r) ∧ takes (buffers comp) s s' ∧ (wedged s → modeset s' = modeset s ∧ live s' = live s ∧ not_shown s s').
Proof.
  unfold ApplyFrame. rewrite decide_True by done. unfold mbind at 1, M_bind at 1.
  destruct (CommitFrame comp false None s) as [s1 [comp1 ret]| |] eqn:Ec; [|done..].
  apply commit_frame_spec in Ec as ([f ->] & Ef & Hstep & Hw). unfold frame_view in Ef.
  injection Ef as _ Ha _ _ Hn _ Hr Hi. cbn beta iota. case_decide as Hret.
  - run_m. destruct (ClearDisplay s1) as [s2 []| |] eqn:Ecl; [|done..].
    apply clear_display_spec in Ecl as (Em2 & El2 & [Ei2 Et2] & [En2 Ea2]).
    destruct (destroy_composition_spec (set_out_fence f comp) s2) as (s3 & -> & Em3 & El3 & En3 & Ea3 & Ei3 & Er3).
    intros [= <-]. assert (modeset s3 = modeset s1 ∧ live s3 = live s1) as [Em El] by (split; congruence).
    split_and!.
    + exists ret. destruct Hstep as [E1 E2|E0 E1 E2 E3|Ed E0 E1 E2 E3 E4];
        [apply mode_same|apply mode_done|apply mode_dpms]; congruence || done.
    + split; [congruence|]. unfold active_buffers in *. rewrite Ea3, Er3. change (buffers (set_out_fence f comp)) with (buffers comp).
      rewrite Ha, Hr, app_nil_r in Et2. rewrite <- app_assoc, (Permutation_app_comm (buffers comp)), app_assoc, Et2.
      by rewrite app_assoc.
    + intros Hws. specialize (Hw Hws). destruct Hws as (Hn0 & Ho0 & Hd0).
      destruct Hstep as [E1 E2|E0 E1 E2 E3|Ed E0 E1 E2 E3 E4]; [|naive_solver..].
      split_and!; [congruence..|]. split; [congruence|]. destruct Ea2; [left|right]; congruence.
  - run_m. assert (ret = 0) as -> by lia.
    assert (modeset (set_active_composition (Some (set_out_fence f comp)) (vsync_enabled (count_frame s1)) (count_frame s1)) = modeset s1) as Em by done.
    set (s2 := set_active_composition _ _ _) in *.
    assert (∃ s3, match active_composition (count_frame s1) with
                  | Some old => destroy_composition old | None => λ s, Val s tt end s2 = Val s3 tt
      ∧ modeset s3 = modeset s1 ∧ live s3 = live s1 ∧ active_composition s3 = Some (set_out_fence f comp)
      ∧ imported (events s3) = imported (events s1) ∧ released (events s3) = released (events s1) ++ active_buffers s1) as
      (s3 & -> & Em3 & El3 & Ea3 & Ei3 & Er3).
    { unfold active_buffers. cbn [active_composition count_frame]. destruct (active_composition s1) as [old|].
      - destruct (destroy_composition_spec old s2) as (s3 & E3 & ? & ? & ? & ? & ? & ?). exists s3. by split_and!.
      - exists s2. cbn [from_option option_rect]. rewrite app_nil_r. by split_and!. }
    intros [= <-]. split_and!.
    + exists 0. destruct Hstep as [E1 E2|E0 E1 E2 E3|Ed E0 E1 E2 E3 E4];
        [apply mode_same|apply mode_done|done]; congruence || done.
    + split; [congruence|]. unfold active_buffers in *. rewrite Ea3, Er3, Hr, Ha. by rewrite <- app_assoc.
    + intros ?. by destruct Hw.
Qed.
Lemma mode_step_blobs others (s s' : State) r :
  mode_step s s' r → blobs_ok others s → blobs_ok others s' ∨ dpms_fails ∧ wedged s'.
Proof.
  intros Hstep [Hl [Hb Ho] Hd]. destruct Hstep as [E1 E2|E0 E1 E2 E3|Ed E0 E1 E2 E3 E4]; unfold modeset in E1; injection E1 as En Eb Eo.
  - left. split; rewrite ?Eb, ?Eo; [by rewrite E2|done|done].
  - left. split; rewrite ?Eb, ?Eo; [|split; [|done]|done].
    + rewrite E2, Hl. destruct (decide (blob_id s = 0)) as [->|Hnz]; [set_solver|specialize (Hd Hnz); set_solver].
    + intros H0. pose proof (k_live_nonzero (kern s)) as Hz. apply Hz. fold (live s). rewrite Hl. set_solver.
  - destruct (decide (old_blob_id s = 0)) as [Hz|Hz].
    + left. split; rewrite ?Eb, ?Eo; [|done|done]. rewrite E3, Hz, <- Hz, Hl.
      pose proof (k_live_nonzero (kern s)) as Hk. fold (live s) in Hk. rewrite Hl in Hk. rewrite Hz in *. set_solver.
    + right. split; [done|]. split_and!; [by rewrite En|by rewrite Eo|]. rewrite Eo, E3. set_solver.
Qed.

(** Setting a mode: the pending blob is replaced. *)
Lemma replace_blob_spec (m : DrmMode) others (s s' : State) x :
  (if decide (blob_id s = 0) then mret 0 else DestroyPropertyBlob (blob_id s)) s = Val s' x →
  blobs_ok others s → modeset s' = modeset s ∧ live s' = others ∪ ({[old_blob_id s]} ∖ {[0]}).
Proof.
  intros E [Hl [Hb Ho] Hd]. case_decide as H0.
  - injection E as <- <-. split; [done|]. rewrite Hl, H0. set_solver.
  - apply destroy_blob_spec in E as (Em & _ & _ & [(_ & El & _)|(_ & _ & _ & Hdead)]); (split; [done|]).
    + rewrite El, Hl. specialize (Hd H0). set_solver.
    + rewrite Hl in Hdead. set_solver.
Qed.
Lemma set_mode_spec comp (s s' : State) r :
  comp_type comp = DRM_COMPOSITION_TYPE_MODESET → ApplyComposition comp s = Val s' r →
  takes (buffers comp) s s' ∧ not_shown s s' ∧ (∀ others, blobs_ok others s → blobs_ok others s').
Proof.
  intros Ht. unfold ApplyComposition. rewrite Ht. unfold mbind at 1, M_bind at 1, get at 1. cbn beta iota.
  unfold mbind at 1, M_bind at 1.
  destruct ((if decide (blob_id s = 0) then mret 0 else DestroyPropertyBlob (blob_id s)) s) as [s1 x| |] eqn:E1; [|done..].
  assert (frame_view s1 = frame_view s) as Ef1.
  { case_decide; [by injection E1 as <- _|]. by apply destroy_blob_spec in E1 as (_ & ? & _). }
  unfold CreateModeBlob. run_m. destruct (k_create_blob (info (comp_mode comp)) (kern s1)) as [k z] eqn:E2.
  destruct (match z with inl e => (e, 0) | inr id => (0, id) end) as [ret id] eqn:Ez. run_m. set (s2 := set_modeset _ _ _ _ _). destruct (destroy_composition_spec comp s2) as (s3 & E3 & Em3 & El3 & En3 & Ea3 & Ei3 & Er3).
  rewrite E3. intros [= <- <-]. unfold frame_view in Ef1. injection Ef1 as _ Ha _ _ Hn _ Hr Hi. split_and!.
  - split; [by rewrite Ei3|]. unfold active_buffers. rewrite Ea3, Er3. change (released (events s2)) with (released (events s1)).
    change (active_composition s2) with (active_composition s1). rewrite Ha, Hr, <- app_assoc. f_equiv. apply Permutation_app_comm.
  - split; [by rewrite En3|]. left. by rewrite Ea3.
  - intros others Hok. destruct (replace_blob_spec (comp_mode comp) others s s1 x E1 Hok) as [Em1 El1].
    unfold modeset in Em1, Em3. injection Em1 as _ _ Eo1. injection Em3 as _ Eb3 Eo3.
    assert (live s2 = k_live k) as El2 by done. unfold live in El1. destruct Hok as [Hl [Hb Ho] Hd].
    unfold s2 in Eb3, Eo3. cbn [blob_id old_blob_id set_modeset set_kern] in Eb3, Eo3.
    pose proof (k_live_nonzero (kern s)) as Hz. fold (live s) in Hz. rewrite Hl in Hz.
    split; rewrite ?El3, ?Eb3, ?Eo3, ?Eo1, ?El2; destruct z as [e|id']; injection Ez as <- <-.
    + apply k_create_bad in E2 as [_ ->]. rewrite El1. set_solver.
    + apply k_create_ok in E2 as (H0 & _ & ->). rewrite El1. set_solver.
    + split; [set_solver|done].
    + apply k_create_ok in E2 as (H0 & Hf & _). rewrite El1 in Hf. split; [set_solver|done].
    + done.
    + intros _. apply k_create_ok in E2 as (H0 & Hf & _). rewrite El1 in Hf. set_solver.
Qed.

Lemma apply_composition_spec comp (s s' : State) r :
  ApplyComposition comp s = Val s' r →
  takes (buffers comp) s s'
  ∧ (∀ others, blobs_ok others s → blobs_ok others s' ∨ dpms_fails ∧ wedged s')
  ∧ (wedged s → comp_type comp ≠ DRM_COMPOSITION_TYPE_MODESET → wedged s' ∧ not_shown s s').
Proof.
  assert (∀ c1 (s1 s2 : State), buffers c1 = buffers comp → modeset s1 = modeset s → live s1 = live s →
    frames_composited s1 = frames_composited s → active_composition s1 = active_composition s →
    imported (events s1) = imported (events s) → released (events s1) = released (events s) →
    destroy_composition c1 s1 = Val s2 tt →
    takes (buffers comp) s s2 ∧ (∀ others, blobs_ok others s → blobs_ok others s2 ∨ dpms_fails ∧ wedged s2)
    ∧ (wedged s → comp_type comp ≠ DRM_COMPOSITION_TYPE_MODESET → wedged s2 ∧ not_shown s s2)) as Hdrop.
  { intros c1 s1 s2 Hc Hm Hl Hn Ha Hi Hr Hd.
    destruct (destroy_composition_spec c1 s1) as (s3 & E3 & Em3 & El3 & En3 & Ea3 & Ei3 & Er3).
    rewrite E3 in Hd. injection Hd as ->. split_and!.
    - split; [congruence|]. unfold active_buffers. rewrite Ea3, Er3, Hc, Hr, Ha, <- app_assoc. f_equiv. apply Permutation_app_comm.
    - intros others Hok. apply (mode_step_blobs others s s2 0); [|done]. apply mode_same; congruence.
    - intros Hw _. split; [apply (wedged_from s s2); congruence || done|]. split; [congruence|left; congruence]. }
  destruct (decide (comp_type comp = DRM_COMPOSITION_TYPE_MODESET)) as [Ht|Ht].
  { intros E. destruct (set_mode_spec _ _ _ _ Ht E) as (? & ? & Hb). split_and!; [done|by left; apply Hb|done]. }
  unfold ApplyComposition. destruct (comp_type comp) eqn:Et; [..|done].
  - run_m. destruct (destroy_composition comp s) as [s1 []| |] eqn:E1; [|done..]. intros [= <- <-].
    by apply (Hdrop comp s s1).
  - unfold mbind at 1, M_bind at 1.
    destruct ((if geometry_changed comp then CommitFrame comp true None else mret (comp, 0)) s) as [s1 [c1 ret]| |] eqn:E1; [|done..].
    assert ((∃ f, c1 = set_out_fence f comp) ∧ frame_view s1 = frame_view s ∧ modeset s1 = modeset s ∧ live s1 = live s) as ([f ->] & Ef & Em & El).
    { destruct (geometry_changed comp); [by apply commit_frame_spec in E1 as (? & ? & ? & ?)|]. injection E1 as <- <- <-.
      split_and!; [|done..]. exists (out_fence comp). by destruct comp. }
    unfold frame_view in Ef. injection Ef as _ Ha _ _ Hn _ Hr Hi. cbn beta iota. case_decide as Hret; run_m.
    + destruct (destroy_composition (set_out_fence f comp) s1) as [s2 []| |] eqn:E2; [|done..]. intros [= <- <-].
      by apply (Hdrop (set_out_fence f comp) s1 s2).
    + assert (ret = 0) as -> by lia. destruct (ApplyFrame _ 0 s1) as [s2 u| |] eqn:E2; [|done..]. intros [= <- <-].
      apply apply_frame_spec in E2 as ([r1 Hstep] & [Hi2 Ht2] & Hw). split_and!.
      * split; [congruence|]. unfold active_buffers in *. by rewrite Hr, Ha in Ht2.
      * intros others. apply (mode_step_blobs others s s2 r1). by apply (mode_step_from s s1).
      * intros Hws _. destruct (Hw (wedged_from s s1 Em El Hws)) as (Em2 & El2 & Hn2 & Ha2).
        split; [apply (wedged_from s s2); congruence|]. split; [congruence|]. by rewrite Ha in Ha2.
  - run_m. set (s0 := set_active _ s). destruct (ApplyDpms (comp_dpms comp) s0) as [s1 r1| |] eqn:E1; [|done..].
    apply apply_dpms_spec in E1 as (Em & El & Ef & _). unfold frame_view in Ef. injection Ef as _ Ha _ _ Hn _ Hr Hi.
    destruct (destroy_composition comp s1) as [s2 []| |] eqn:E2; [|done..]. intros [= <- <-].
    by apply (Hdrop comp s1 s2).
Qed.
(** Compositions one after the other. *)
Definition apply_all (comps : list DrmDisplayComposition) : M State unit :=
  for_each comps (λ c, ApplyComposition c;; mret tt).

Lemma apply_all_cons c comps (s s' : State) :
  apply_all (c :: comps) s = Val s' tt → ∃ s1 r, ApplyComposition c s = Val s1 r ∧ apply_all comps s1 = Val s' tt.
Proof.
  unfold apply_all. cbn [for_each]. run_m. destruct (ApplyComposition c s) as [s1 r| |]; [|done..]. eauto.
Qed.

Lemma apply_all_blobs others comps (s s' : State) :
  ¬ dpms_fails → apply_all comps s = Val s' tt → blobs_ok others s → blobs_ok others s'.
Proof.
  intros Hd. revert s. induction comps as [|c comps IH]; intros s E Hok; [by injection E as <-|].
  apply apply_all_cons in E as (s1 & r & E1 & E). apply apply_composition_spec in E1 as (_ & Hb & _).
  apply (IH s1 E). destruct (Hb others Hok) as [?|[? _]]; done.
Qed.

(** C28: however modes are set and frames and power modes are applied by [ApplyComposition],
    the test commits it makes included, as long as DPMS does not fail, the mode blobs of a display that the kernel holds are exactly the pending
    and the active one: none leaks and none in use is destroyed.  Destroying the compositor
    leaves only the blobs of other displays. *)
Theorem hwc_mode_blobs others comps (s s' s'' : State) :
  ¬ dpms_fails → blobs_ok others s → apply_all comps s = Val s' tt → destroy_compositor s' = Val s'' tt →
  blobs_ok others s' ∧ live s'' = others.
Proof.
  intros Hd Hok E Ed. pose proof (apply_all_blobs others comps s s' Hd E Hok) as Hok'. split; [done|].
  clear Hok E. unfold destroy_compositor in Ed. unfold mbind at 1, M_bind at 1, get at 1 in Ed. cbn beta iota in Ed.
  unfold mbind at 1, M_bind at 1 in Ed.
  match type of Ed with match ?m with _ => _ end = _ => destruct m as [s1 x| |] eqn:E1 end; [|done..].
  destruct (replace_blob_spec no_mode others s' s1 x E1 Hok') as [_ El1]. destruct Hok' as [Hl [_ Ho] _].
  unfold mbind at 1, M_bind at 1 in Ed.
  match type of Ed with match ?m with _ => _ end = _ => destruct m as [s2 y| |] eqn:E2 end; [|done..].
  assert (live s2 = others) as El2.
  { case_decide as H0.
    - injection E2 as <- <-. rewrite El1, H0. set_solver.
    - apply destroy_blob_spec in E2 as (_ & _ & _ & [(_ & El & _)|(_ & _ & _ & Hdead)]); [|set_solver]. rewrite El, El1. set_solver. }
  rewrite <- El2. destruct (active_composition s') as [c|]; [|by injection Ed as <-].
  run_m_in Ed. destruct (destroy_composition_spec c s2) as (s3 & E3 & _ & El3 & _). rewrite E3 in Ed.
  injection Ed as <-. unfold live in *. done.
Qed.

(** While the mode is wedged nothing new counts as shown. *)
Lemma wedged_stays comps (s s' : State) :
  wedged s → Forall (λ c, comp_type c ≠ DRM_COMPOSITION_TYPE_MODESET) comps → apply_all comps s = Val s' tt →
  wedged s' ∧ not_shown s s'.
Proof.
  revert s. induction comps as [|c comps IH]; intros s Hw Hall E; [injection E as <-; split; [done|]; split; auto|].
  apply Forall_cons_1 in Hall as [Hc Hall]. apply apply_all_cons in E as (s1 & r & E1 & E).
  apply apply_composition_spec in E1 as (_ & _ & Hx). destruct (Hx Hw Hc) as (Hw1 & Hn1 & Ha1).
  destruct (IH s1 Hw1 Hall E) as (Hw2 & Hn2 & Ha2). split; [done|]. split; [congruence|].
  destruct Ha2 as [->|]; [done|by right].
Qed.
End blobs.

(** ** What a frame asks of the kernel *)

(** A plane without a layer is turned off; a layer is shown whole on its plane, if the
    plane can do what the layer needs. *)
Definition layer_request (crtc : DrmCrtc) (p : DrmPlane) (l : DrmHwcLayer) : option (list atomic) :=
  fb ← buffer l;
  let rotation := layer_rotation (transform l) in
  let a := if decide (blending l = kPreMult) then alpha l else 65535 in
  if decide (0 ≤ fb ∧ (rotation = DRM_MODE_ROTATE_0 ∨ rotation_property p ≠ 0) ∧ (a = 65535 ∨ alpha_property p ≠ 0)
             ∧ (acquire_fence l < 0 ∨ in_fence_fd_property p ≠ 0)) then
    props ← plane_properties p crtc fb (display_frame l) (source_crop l);
    Some ((if decide (0 ≤ acquire_fence l) then [(plane_id p, in_fence_fd_property p, acquire_fence l)] else [])
          ++ props
          ++ (if decide (rotation_property p = 0) then [] else [(plane_id p, rotation_property p, rotation)])
          ++ (if decide (alpha_property p = 0) then [] else [(plane_id p, alpha_property p, a)]))
  else None.
Definition disable_request (p : DrmPlane) : list atomic :=
  [(plane_id p, crtc_property p, 0); (plane_id p, fb_property p, 0)].
Definition plane_request (crtc : DrmCrtc) (layers : list DrmHwcLayer) (cp : DrmCompositionPlane) : option (list atomic) :=
  match use cp, source_layers cp with
  | kDisable, _ => Some (disable_request (comp_plane cp))
  | kLayer, [i] => l ← layers !! i; layer_request crtc (comp_plane cp) l
  | kLayer, _ => None
  end.

Section requests.
Context {K : Type} {KE : DrmKernel K}.
(** libdrm has room for the properties. *)
Definition adds_ok (k : K) : Prop := ∀ p x, 0 ≤ k_add k p x.

Lemma add_property_ok (k : K) p x : adds_ok k → add_property k p x = (p ++ [x], k_add k p x).
Proof. intros Hk. unfold add_property. specialize (Hk p x). by rewrite decide_False by lia. Qed.
Lemma add_two_ok (k : K) p a b : adds_ok k → add_two k p a b = (p ++ [a; b], false).
Proof.
  intros Hk. unfold add_two. rewrite !add_property_ok by done. pose proof (Hk p a). rewrite decide_False by lia.
  pose proof (Hk (p ++ [a]) b). rewrite bool_decide_false by lia. by rewrite <- app_assoc.
Qed.
Lemma add_all_ok (k : K) p l : adds_ok k → add_all k p l = (p ++ l, false).
Proof.
  intros Hk. revert p. induction l as [|x l IH]; intros p; cbn [add_all]; [by rewrite app_nil_r|].
  rewrite add_property_ok, IH by done. pose proof (Hk p x). by rewrite bool_decide_false, <- app_assoc by lia.
Qed.
Lemma add_optional_ok (k : K) p prop v pset :
  adds_ok k → add_optional k p prop v pset = Next (pset ++ (if decide (prop = 0) then [] else [(plane_id p, prop, v)])) 0.
Proof.
  intros Hk. unfold add_optional. case_decide; [by rewrite app_nil_r|]. rewrite add_property_ok by done.
  pose proof (Hk pset (plane_id p, prop, v)). by rewrite decide_False by lia.
Qed.

Lemma commit_plane_ok (k : K) crtc layers cp pset ret req :
  adds_ok k → plane_request crtc layers cp = Some req → commit_plane k crtc layers cp pset ret = Next (pset ++ req) 0.
Proof.
  intros Hk. unfold plane_request, commit_plane. destruct (use cp).
  { intros [= <-]. unfold disable_plane. by rewrite add_two_ok. }
  destruct (source_layers cp) as [|i [|]]; [done| |done]. cbn. destruct (layers !! i) as [l|]; [|done]. cbn.
  unfold layer_request. destruct (buffer l) as [fb|]; [|done]. cbn.
  destruct (decide (0 ≤ fb ∧ _)) as [(Hfb & Hrot & Ha & Hf)|]; [|done].
  destruct (plane_properties _ _ _ _ _) as [props|] eqn:Ep; [|done]. cbn. intros [= <-].
  assert (∀ ps, show_layer k (comp_plane cp) crtc l fb ps = Next (ps ++ props ++
    (if decide (rotation_property (comp_plane cp) = 0) then [] else [(plane_id (comp_plane cp), rotation_property (comp_plane cp), layer_rotation (transform l))])
    ++ (if decide (alpha_property (comp_plane cp) = 0) then [] else [(plane_id (comp_plane cp), alpha_property (comp_plane cp),
         if decide (blending l = kPreMult) then alpha l else 65535)])) 0) as Hs.
  { intros ps. unfold show_layer. rewrite decide_False by lia. rewrite decide_False by tauto. rewrite decide_False by tauto.
    rewrite Ep, add_all_ok, add_optional_ok, add_optional_ok by done. by rewrite <- !app_assoc. }
  destruct (decide (0 ≤ acquire_fence l)) as [Hfd|Hfd].
  - rewrite decide_False by (destruct Hf; [lia|done]). rewrite add_property_ok by done.
    pose proof (Hk pset (plane_id (comp_plane cp), in_fence_fd_property (comp_plane cp), acquire_fence l)).
    rewrite decide_False by lia. by rewrite Hs, <- !app_assoc.
  - by rewrite Hs.
Qed.

Lemma commit_planes_ok (k : K) crtc layers cps pset ret reqs :
  adds_ok k → mapM (plane_request crtc layers) cps = Some reqs →
  commit_planes k crtc layers cps pset ret = Some (pset ++ concat reqs, if decide (cps = []) then ret else 0).
Proof.
  intros Hk. revert pset ret reqs. induction cps as [|cp cps IH]; intros pset ret reqs E; cbn in E.
  { injection E as <-. cbn. by rewrite app_nil_r. }
  apply bind_Some in E as (req & E1 & (rest & E2 & [= <-])%bind_Some). cbn [commit_planes].
  rewrite (commit_plane_ok _ _ _ _ _ _ req) by done. rewrite (IH _ _ rest) by done. cbn [concat].
  rewrite <- app_assoc. repeat case_decide; done.
Qed.

(** A frame the kernel accepts, with no mode pending: the request is committed as a whole. *)
Lemma commit_frame_ok comp (test : bool) (s : @Compositor K) conn crtc hdr r0 reqs k' :
  own_connector s = Some conn → own_crtc s = Some crtc → k_alloc (kern s) = true → adds_ok (kern s) →
  commit_header s conn crtc None = inr (hdr, r0) →
  mapM (plane_request crtc (comp_layers comp)) (composition_planes comp) = Some reqs → composition_planes comp ≠ [] →
  k_commit (if test then Z.lor DRM_MODE_ATOMIC_ALLOW_MODESET DRM_MODE_ATOMIC_TEST_ONLY else DRM_MODE_ATOMIC_ALLOW_MODESET)
    (hdr ++ concat reqs) (kern s) = (k', 0) →
  negb test && needs_modeset s = false →
  ∃ f, CommitFrame comp test None s
    = Val (log [Committed test (hdr ++ concat reqs) 0] (set_kern k' s)) (set_out_fence f comp, 0).
Proof.
  intros Hc Hx Ha Hk Hh Hr Hne Hcm Hn. unfold CommitFrame. run_m. rewrite Hc, Hx, Ha, Hh.
  rewrite (commit_planes_ok _ _ _ _ _ _ reqs) by done. rewrite !(decide_False (P := composition_planes comp = [])) by done.
  rewrite (decide_True (P := (0 : Z) = 0)) by done. unfold atomic_commit. run_m. rewrite Hcm. cbn beta iota.
  rewrite (decide_False (P := (0 : Z) ≠ 0)) by lia. rewrite Hn. rewrite decide_False by (by intros [? _]).
  case_decide; [exists (out_fence comp); by destruct comp|by eexists].
Qed.

Lemma finish_modeset_events dpms (s s' : @Compositor K) r : finish_modeset dpms s = Val s' r → events s' = events s.
Proof.
  unfold finish_modeset, DestroyPropertyBlob, ApplyDpms. run_m. intros E.
  assert (∀ m (t : @Compositor K), events (set_own_mode m t) = events t) as Hm
    by (intros m t; unfold set_own_mode; by destruct (GetConnectorForDisplay _ _)).
  repeat (case_match; simplify_eq); try done; cbn; by rewrite ?Hm.
Qed.

(** A commit that succeeds has asked for every plane. *)
Lemma commit_frame_logged comp (s s' : @Compositor K) c' crtc reqs :
  CommitFrame comp false None s = Val s' (c', 0) → (∀ k : K, adds_ok k) → own_crtc s = Some crtc →
  mapM (plane_request crtc (comp_layers comp)) (composition_planes comp) = Some reqs → composition_planes comp ≠ [] →
  ∃ hdr, Committed false (hdr ++ concat reqs) 0 ∈ events s'.
Proof.
  intros E Hk Hx Hr Hne. unfold CommitFrame in E. run_m_in E. rewrite Hx in E. destruct (own_connector s) as [conn|]; [|done].
  destruct (k_alloc (kern s)); [|done]. destruct (commit_header s conn crtc None) as [r|[hdr r0]] eqn:Eh.
  { injection E as _ _ E. apply header_error in Eh. done. }
  rewrite (commit_planes_ok _ _ _ _ _ _ reqs) in E by done. rewrite !(decide_False (P := composition_planes comp = [])) in E by done.
  rewrite (decide_True (P := (0 : Z) = 0)) in E by done. unfold atomic_commit in E. run_m_in E.
  destruct (k_commit _ (hdr ++ concat reqs) (kern s)) as [k' r]. set (s1 := log _ _) in E.
  destruct (decide (r ≠ 0)) as [Hr0|Hr0]; [injection E as _ _ E; lia|]. assert (r = 0) as -> by lia. exists hdr.
  assert (Committed false (hdr ++ concat reqs) 0 ∈ events s1) as Hin.
  { unfold s1. cbn [events log]. apply elem_of_app. right. by left. }
  destruct (negb false && needs_modeset s).
  - destruct (finish_modeset (comp_dpms comp) s1) as [s2 r2| |] eqn:E2; [|done..]. apply finish_modeset_events in E2.
    rewrite <- E2 in Hin. case_decide; by injection E as <- _ _.
  - rewrite decide_False in E by (by intros [? _]). by injection E as <- _.
Qed.

(** A test changes nothing but the kernel's state. *)
Lemma commit_test_dev comp wb (s s' : @Compositor K) x : CommitFrame comp true wb s = Val s' x → dev s' = dev s.
Proof.
  unfold CommitFrame, atomic_commit. run_m. cbn [negb andb]. intros E.
  repeat (case_match; simplify_eq); try done.
Qed.

(** The kernel accepted the request of a frame. *)
Definition accepted (s s' : @Compositor K) : Prop := ∃ pset, events s' = events s ++ [Committed false pset 0].

(** A commit the kernel accepts is followed by the completion of a pending mode. *)
Lemma accepted_finishes {KB : KernelBlobs K} comp (s s' : @Compositor K) c' ret :
  CommitFrame comp false None s = Val s' (c', ret) → accepted s s' → needs_modeset s = true →
  ∃ s1, modeset s1 = modeset s ∧ live s1 = live s ∧ own_connector s1 ≠ None ∧ finish_modeset (comp_dpms comp) s1 = Val s' ret.
Proof.
  intros E [pset He] Hn. assert (events s ≠ events s') as Hne by (rewrite He; intros H%(f_equal length); rewrite length_app in H; cbn in H; lia).
  unfold CommitFrame in E. run_m_in E. destruct (own_connector s) as [conn|] eqn:Ec; [|by injection E as <-].
  destruct (own_crtc s) as [crtc|]; [|by injection E as <-]. destruct (k_alloc (kern s)); [|by injection E as <-].
  destruct (commit_header s conn crtc None) as [r|[ps r0]]; [by injection E as <-|].
  destruct (commit_planes _ _ _ _ ps r0) as [[ps' r1]|]; [|done].
  match type of E with match ?m with _ => _ end = _ => destruct m as [s1 r| |] eqn:E1 end; [|done..].
  assert (modeset s1 = modeset s ∧ live s1 = live s ∧ own_connector s1 = Some conn) as (Em & El & Ec1).
  { destruct (decide (r1 = 0)); [apply atomic_commit_spec in E1 as (? & ? & _ & ?); split_and!; congruence|by injection E1 as <- _]. }
  destruct (decide (r ≠ 0)) as [Hr|Hr].
  { injection E as -> _ _. destruct (decide (r1 = 0)); [|injection E1 as -> _; done]. unfold atomic_commit in E1. run_m_in E1.
    destruct (k_commit _ ps' (kern s)) as [k z]. injection E1 as <- <-. cbn in He. apply app_inv_head in He. injection He as _ Hz. lia. }
  rewrite Hn in E. cbn [negb andb] in E. destruct (finish_modeset (comp_dpms comp) s1) as [s2 r2| |] eqn:E2; [|done..].
  exists s1. split; [done|]. split; [done|]. split; [by rewrite Ec1|]. case_decide; injection E as <- _ <-; done.
Qed.

(** With the old blob there, the completion of a mode can only fail by DPMS; without it, it
    fails with the answer to its destruction. *)
Lemma finish_dpms_failed {KB : KernelBlobs K} dpms (s s' : @Compositor K) r :
  old_blob_id s ≠ 0 → old_blob_id s ∈ live s → own_connector s ≠ None → finish_modeset dpms s = Val s' r → r ≠ 0 →
  dpms_fails ∧ modeset s' = modeset s ∧ live s' = live s ∖ {[old_blob_id s]}.
Proof.
  intros Hold Hlive Hc E Hr. unfold finish_modeset in E. run_m_in E.
  destruct (DestroyPropertyBlob (old_blob_id s) s) as [s1 r1| |] eqn:E1; [|done..].
  apply destroy_blob_spec in E1 as (Em1 & _ & Ec1 & [(-> & El1 & _)|(_ & _ & _ & Hdead)]); [|done].
  rewrite decide_False in E by lia. destruct (ApplyDpms dpms s1) as [s2 r2| |] eqn:E2; [|done..].
  apply apply_dpms_spec in E2 as (Em2 & El2 & _ & Hf). rewrite Ec1 in Hf.
  destruct (decide (r2 ≠ 0)) as [H2|H2]; injection E as <- <-; [|done]. split; [by apply Hf|]. split; congruence.
Qed.
Lemma finish_wedged {KB : KernelBlobs K} dpms (s s' : @Compositor K) r :
  old_blob_id s ≠ 0 → old_blob_id s ∉ live s → finish_modeset dpms s = Val s' r →
  r ≠ 0 ∧ r = (k_destroy_blob (old_blob_id s) (kern s)).2 ∧ kern s' = (k_destroy_blob (old_blob_id s) (kern s)).1.
Proof.
  intros Hold Hdead. unfold finish_modeset, DestroyPropertyBlob. run_m.
  destruct (decide (old_blob_id s = 0)) as [|_]; [done|]. destruct (k_destroy_blob (old_blob_id s) (kern s)) as [k z] eqn:E.
  apply k_destroy_dead in E as [Hz _]; [|done]. destruct (decide (z ≠ 0)) as [_|]; [|done]. by intros [= <- <-].
Qed.

End requests.

(** A frame that is counted is the active composition, and was committed. *)
Lemma apply_frame_shown {K : Type} {KE : DrmKernel K} {KB : KernelBlobs K} comp (s s' : @Compositor K) u :
  ApplyFrame comp 0 s = Val s' u → frames_composited s' ≠ frames_composited s →
  ∃ f s2, active_composition s' = Some (set_out_fence f comp)
    ∧ CommitFrame comp false None s = Val s2 (set_out_fence f comp, 0) ∧ (∀ ev, ev ∈ events s2 → ev ∈ events s').
Proof.
  unfold ApplyFrame. rewrite decide_True by done. unfold mbind at 1, M_bind at 1.
  destruct (CommitFrame comp false None s) as [s1 [comp1 ret]| |] eqn:Ec; [|done..].
  pose proof Ec as Ec0. apply commit_frame_spec in Ec as ([f ->] & Ef & _). unfold frame_view in Ef.
  injection Ef as _ _ _ _ Hn _ _ _. cbn beta iota. destruct (decide (ret ≠ 0)) as [Hret|Hret].
  - run_m. destruct (ClearDisplay s1) as [s2 []| |] eqn:Ecl; [|done..].
    apply clear_display_spec in Ecl as (_ & _ & _ & [En2 _]).
    destruct (destroy_composition_spec (set_out_fence f comp) s2) as (s3 & -> & _ & _ & En3 & _). intros [= <-]. congruence.
  - assert (ret = 0) as -> by lia. run_m. intros E _. exists f, s1. split_and!; [|done|].
    + cbn [active_composition count_frame] in E. destruct (active_composition s1); by injection E as <-.
    + intros ev Hin. cbn [active_composition count_frame] in E. destruct (active_composition s1); injection E as <-; [|done].
      cbn. apply elem_of_app. by left.
Qed.
Lemma apply_shown {K : Type} {KE : DrmKernel K} {KB : KernelBlobs K} comp (s s' : @Compositor K) r :
  comp_type comp = DRM_COMPOSITION_TYPE_FRAME → ApplyComposition comp s = Val s' r → frames_composited s' ≠ frames_composited s →
  ∃ f f1 s1 s2, active_composition s' = Some (set_out_fence f comp) ∧ (dev s1 = dev s ∧ display s1 = display s)
    ∧ CommitFrame (set_out_fence f1 comp) false None s1 = Val s2 (set_out_fence f comp, 0) ∧ (∀ ev, ev ∈ events s2 → ev ∈ events s').
Proof.
  intros Ht. unfold ApplyComposition. rewrite Ht. unfold mbind at 1, M_bind at 1.
  destruct ((if geometry_changed comp then CommitFrame comp true None else mret (comp, 0)) s) as [s1 [c1 ret]| |] eqn:E1; [|done..].
  assert ((∃ f, c1 = set_out_fence f comp) ∧ frames_composited s1 = frames_composited s ∧ dev s1 = dev s ∧ display s1 = display s)
    as ([f1 ->] & Hn & Hd & Hdis).
  { destruct (geometry_changed comp).
    - pose proof E1 as E2. apply commit_frame_spec in E1 as (? & Ef & _). unfold frame_view in Ef. injection Ef as Hdis _ _ _ Hn _ _ _.
      split_and!; [done|done|by eapply commit_test_dev|done].
    - injection E1 as <- <- <-. split_and!; [|done..]. exists (out_fence comp). by destruct comp. }
  cbn beta iota. destruct (decide (ret ≠ 0)); run_m.
  - destruct (destroy_composition_spec (set_out_fence f1 comp) s1) as (s2 & -> & _ & _ & En & _). intros [= <- <-]. congruence.
  - assert (ret = 0) as -> by lia. destruct (ApplyFrame _ 0 s1) as [s2 u| |] eqn:E2; [|done..]. intros [= <- <-] Hne.
    apply apply_frame_shown in E2 as (f & s3 & Ha & Hc & Hev); [|congruence]. by exists f, f1, s1, s3.
Qed.

(** ** What never changes *)

Section pipeline.
Context {K : Type} {KE : DrmKernel K}.
(** The CRTCs of the device, and the display that is driven. *)
Definition pipe_view (s : @Compositor K) : list DrmCrtc * Z := (crtcs (dev s), display s).
Definition keeps_pipe {A} (m : M (@Compositor K) A) : Prop := ∀ s s' a, m s = Val s' a → pipe_view s' = pipe_view s.

Lemma kp_bind {A B} (m : M (@Compositor K) A) (k : A → M (@Compositor K) B) :
  keeps_pipe m → (∀ a, keeps_pipe (k a)) → keeps_pipe (m ≫= k).
Proof.
  intros Hm Hk s s' b. unfold mbind, M_bind. destruct (m s) as [s1 a| |] eqn:E; [|done..]. intros E2.
  etrans; [by eapply Hk|by eapply Hm].
Qed.
Lemma kp_ret {A} (a : A) : keeps_pipe (mret a).
Proof. by intros s s' x [= <- _]. Qed.
Lemma kp_modify f : (∀ s : @Compositor K, pipe_view (f s) = pipe_view s) → keeps_pipe (modify f).
Proof. intros Hf s s' x [= <- _]. apply Hf. Qed.
Lemma kp_destroy id : keeps_pipe (DestroyPropertyBlob id).
Proof. unfold DestroyPropertyBlob. intros s s' a E. run_m_in E. repeat (case_match; simplify_eq); done. Qed.
Lemma kp_dpms v : keeps_pipe (ApplyDpms v).
Proof. unfold ApplyDpms. intros s s' a E. run_m_in E. repeat (case_match; simplify_eq); done. Qed.
Lemma kp_commit test flags pset : keeps_pipe (atomic_commit test flags pset).
Proof. unfold atomic_commit. intros s s' a E. run_m_in E. repeat (case_match; simplify_eq); done. Qed.
Lemma kp_own_mode m (s : @Compositor K) : pipe_view (set_own_mode m s) = pipe_view s.
Proof. unfold set_own_mode. by destruct (GetConnectorForDisplay _ _). Qed.
Lemma kp_finish dpms : keeps_pipe (finish_modeset dpms).
Proof.
  unfold finish_modeset. intros s s' a E. run_m_in E.
  destruct (DestroyPropertyBlob _ s) as [s1 r1| |] eqn:E1; [|done..]. apply kp_destroy in E1.
  case_decide; [by injection E as <- _|]. destruct (ApplyDpms _ s1) as [s2 r2| |] eqn:E2; [|done..]. apply kp_dpms in E2.
  destruct (decide (r2 ≠ 0)); injection E as <- _; [congruence|]. rewrite <- E1, <- E2. apply (kp_own_mode (pending_mode s2) s2).
Qed.
Ltac kp_use :=
  repeat match goal with
    | H : atomic_commit _ _ _ _ = Val _ _ |- _ => apply kp_commit in H
    | H : finish_modeset _ _ = Val _ _ |- _ => apply kp_finish in H
    end.
Lemma kp_commit_frame comp test wb : keeps_pipe (CommitFrame comp test wb).
Proof.
  unfold CommitFrame. intros s s' a E. run_m_in E.
  repeat (case_match; [|by injection E as <- _]). all: try by injection E as <- _.
  all: repeat (case_match; simplify_eq); try done; kp_use; congruence.
Qed.
Lemma kp_disable comp : keeps_pipe (DisablePlanes comp).
Proof. unfold DisablePlanes. intros s s' a E. run_m_in E. repeat (case_match; simplify_eq); try done. by apply kp_commit in E. Qed.
Lemma kp_destroy_composition c : keeps_pipe (destroy_composition c : M (@Compositor K) unit).
Proof. by apply kp_modify. Qed.
Lemma kp_clear : keeps_pipe ClearDisplay.
Proof.
  unfold ClearDisplay. intros s s' a E. run_m_in E. destruct (active_composition s) as [c|]; [|by injection E as <- _].
  destruct (DisablePlanes c s) as [s1 r| |] eqn:E1; [|done..]. apply kp_disable in E1. by case_decide; injection E as <- _.
Qed.
Lemma kp_apply_frame comp st : keeps_pipe (ApplyFrame comp st).
Proof.
  apply kp_bind; [case_decide; [apply kp_commit_frame|apply kp_ret]|]. intros [c ret]. case_decide.
  - apply kp_bind; [apply kp_clear|]. intros _. apply kp_destroy_composition.
  - intros s s' a E. run_m_in E. cbn [active_composition count_frame] in E. destruct (active_composition s); by injection E as <- _.
Qed.
Lemma kp_apply comp : keeps_pipe (ApplyComposition comp).
Proof.
  unfold ApplyComposition. destruct (comp_type comp).
  - apply kp_bind; [apply kp_destroy_composition|intros _; apply kp_ret].
  - apply kp_bind; [case_match; [apply kp_commit_frame|apply kp_ret]|]. intros [c ret]. case_decide.
    + apply kp_bind; [apply kp_destroy_composition|intros _; apply kp_ret].
    + apply kp_bind; [apply kp_apply_frame|intros _; apply kp_ret].
  - apply kp_bind; [by apply kp_modify|intros _]. apply kp_bind; [apply kp_dpms|intros ret].
    apply kp_bind; [apply kp_destroy_composition|intros _; apply kp_ret].
  - apply kp_bind; [by intros s s' a [= <- _]|intros s]. apply kp_bind; [case_decide; [apply kp_ret|apply kp_destroy]|intros _].
    apply kp_bind; [|intros [ret id]].
    + unfold CreateModeBlob. intros t t' a E. run_m_in E. destruct (k_create_blob _ _) as [k z]. by injection E as <- _.
    + apply kp_bind; [by apply kp_modify|intros _]. apply kp_bind; [apply kp_destroy_composition|intros _; apply kp_ret].
Qed.
End pipeline.

(** ** A concrete kernel *)

(** Blobs are numbered from 1; DPMS answers [r] once there have been two; every atomic request is accepted. *)
Definition demo_k (r : Z) : Type := nat * gset Z.
Definition demo_create {r} (k : demo_k r) : demo_k r * (Z + Z) :=
  ((S k.1, k.2 ∖ {[Z.of_nat (S k.1)]}), inr (Z.of_nat (S k.1))).
Definition demo_live {r} (k : demo_k r) : gset Z := list_to_set (Z.of_nat <$> seq 1 k.1) ∖ k.2.
#[global] Instance demo_kernel r : DrmKernel (demo_k r) := {|
  k_alloc _ := true;
  k_add _ p _ := Z.of_nat (length p) + 1;
  k_commit _ _ k := (k, 0);
  k_out_fence _ := 7;
  k_create_blob _ k := demo_create k;
  k_destroy_blob id k := if decide (id ∈ demo_live k) then ((k.1, {[id]} ∪ k.2), 0) else (k, -EINVAL);
  k_set_dpms _ _ _ k := (k, if decide (k.1 < 2)%nat then 0 else r);
|}.
Lemma elem_of_demo_live {r} (k : demo_k r) id :
  id ∈ demo_live k ↔ 1 ≤ id ≤ Z.of_nat k.1 ∧ (id ∉ k.2).
Proof.
  unfold demo_live. rewrite elem_of_difference, elem_of_list_to_set, list_elem_of_fmap. split.
  - intros [(i & -> & Hi) ?]. apply elem_of_seq in Hi. split; [lia|done].
  - intros [? ?]. split; [|done]. exists (Z.to_nat id). split; [lia|]. apply elem_of_seq. lia.
Qed.
#[global, program] Instance demo_blobs r : KernelBlobs (demo_k r) := {| k_live := demo_live |}.
Next Obligation. intros r k Hin%elem_of_demo_live. lia. Qed.
Next Obligation.
  intros r m [n dead] k' id [= <- <-]. split_and!; [lia| |].
  - intros Hin%elem_of_demo_live. cbn in Hin. lia.
  - apply set_eq. intros x. rewrite elem_of_union, elem_of_singleton, !elem_of_demo_live. cbn.
    destruct (decide (x = Z.of_nat (S n))) as [->|]; set_solver by lia.
Qed.
Next Obligation. intros r m k k' e [=]. Qed.
Next Obligation.
  intros r id k k' z E Hin. cbn in E. rewrite decide_True in E by done. injection E as <- <-. split; [done|].
  apply set_eq. intros x. rewrite elem_of_difference, elem_of_singleton, !elem_of_demo_live. cbn. set_solver by lia.
Qed.
Next Obligation.
  intros r id k k' z E Hin. cbn in E. rewrite decide_False in E by done. by injection E as <- <-.
Qed.
Next Obligation. done. Qed.
Next Obligation. done. Qed.

Definition ex_crtc : DrmCrtc := Eval vm_compute in
  default (MkCrtc 0 0 0 0 0 0) (GetCrtcForDisplay 0 ex_device ≫= λ i, crtcs ex_device !! i).
Definition ex_primary : list DrmPlane := Eval vm_compute in take 1 (planes ex_device).
Definition ex_overlay : list DrmPlane := Eval vm_compute in drop 1 (planes ex_device).
Definition fzero : spec_float := S754_zero false.
(** 640 and 480 as floats. *)
Definition ex_crop : frect := MkFRect fzero fzero (S754_finite false 10485760 (-14)) (S754_finite false 15728640 (-15)).
Definition ex_layer (fb : Z) : DrmHwcLayer :=
  MkLayer 9 0 (Some fb) 0 kNone 65535 ex_crop (MkRect 0 0 640 480) (-1).
Definition ex_frame (fbs : list Z) : DrmDisplayComposition := Eval vm_compute in
  match plan_frame [StageGreedy] ex_crtc ex_primary ex_overlay (SetLayers (ex_layer <$> fbs) true new_composition).1 with
  | inr c => c | inl _ => new_composition end.
Definition ex_set_mode : DrmDisplayComposition := (SetDisplayMode (MkMode 1 (ex_mode 640 480)) new_composition).1.
Definition ex_comp (r : Z) : @Compositor (demo_k r) :=
  MkCompositor (0%nat, ∅) ex_device 0 false no_mode 0 0 None false false 0 FLATTEN_COUNTDOWN_INIT [].
Definition state_of {S A} (d : S) (o : outcome S A) : S := match o with Val s _ => s | _ => d end.

Definition ex_run (r : Z) : @Compositor (demo_k r) :=
  state_of (ex_comp r) (apply_all [ex_set_mode; ex_frame [5; 6]; ex_set_mode; ex_frame [7]] (ex_comp r)).
Lemma hwc_mode_blobs_witness :
  (blob_id (ex_run 0), old_blob_id (ex_run 0)) = (0, 2) ∧ live (ex_run 0) = {[2]}
  ∧ live (state_of (ex_comp 0) (destroy_compositor (ex_run 0))) = ∅.
Proof.
  split; [vm_compute; reflexivity|]. split; [apply (bool_decide_unpack _); vm_compute; exact I|].
  refine (proj2 (hwc_mode_blobs ∅ [ex_set_mode; ex_frame [5; 6]; ex_set_mode; ex_frame [7]] (ex_comp 0) (ex_run 0) _ _ _ _ _)).
  - intros (c & p & v & k & Hk). destruct Hk. cbn. by case_decide.
  - split; [apply (bool_decide_unpack _); vm_compute; exact I|split; apply not_elem_of_empty|done].
  - vm_compute. reflexivity.
  - vm_compute. reflexivity.
Defined.
(** The first frame set a mode; DPMS fails for the second: its frame, and those after it, do
    not count as shown, although the kernel accepts them. *)
Definition ex_pending : @Compositor (demo_k (-5)) := Eval vm_compute in
  state_of (ex_comp (-5)) (apply_all [ex_set_mode; ex_frame [5; 6]; ex_set_mode] (ex_comp (-5))).
Definition ex_failed : @Compositor (demo_k (-5)) := Eval vm_compute in
  state_of (ex_comp (-5)) (CommitFrame (ex_frame [7]) false None ex_pending).
Definition ex_wedged : @Compositor (demo_k (-5)) := Eval vm_compute in
  state_of (ex_comp (-5)) (apply_all [ex_frame [8]; ex_frame [9]] ex_failed).
