(* ===== verification/Hwc.v ===== *)
(** * Hardware composer: displays and layers

    Models android/hardware/xbox/hwcomposer/drmhwctwo.cpp: the layers SurfaceFlinger
    creates, the validation that decides which of them get a plane, and the frame that is
    presented, through the compositor of HwcCompositor.v.  Gralloc and file descriptors are
    the class [HwcEnv]; closing descriptors is not recorded.  Members a constructor leaves
    uninitialised are [None], and reading them is undefined. *)

From Stdlib Require Import SpecFloat.
From S2P Require Import Prelude DrmDevice HwcCompositor.

(** ** HWC2 values *)

Inductive Error : Type :=
  | ENone | BadConfig | BadDisplay | BadLayer | BadParameter | HasChanges | NoResources | Unsupported.
#[global] Instance Error_eq_dec : EqDecision Error.
Proof. solve_decision. Defined.

(** [HWC2::Composition], [HWC2::BlendMode]: clients can pass any number. *)
Definition CompInvalid : Z := 0.
Definition CompClient : Z := 1.
Definition CompDevice : Z := 2.
Definition CompSolidColor : Z := 3.
Definition CompCursor : Z := 4.
Definition CompSideband : Z := 5.
Definition BlendNone : Z := 1.
Definition BlendPremultiplied : Z := 2.
Definition BlendCoverage : Z := 3.
Definition HAL_DATASPACE_UNKNOWN : Z := 0.
Definition HAL_COLOR_MODE_NATIVE : Z := 0.
Definition PowerOff : Z := 0.
Definition PowerOn : Z := 2.
Definition UINT32_MAX : Z := 4294967295.
Definition i2f (z : Z) : spec_float := binary_normalize 24 128 z 0 false.

(** The rest of the system: buffers, file descriptors, modes. *)
Class HwcEnv (K : Type) : Type := {
  k_import : Z → K → K * (Z + (Z * Z));    (* ImportBuffer: framebuffer and usage *)
  k_copy_handle : Z → K → K * Z;           (* GraphicBufferMapper::importBuffer *)
  k_dup : Z → K → K * Z;                   (* dup *)
  k_merge : Z → Z → K → K * Z;             (* sync_merge *)
  k_modes : Z → K → mode_answer;           (* drmModeGetConnector *)
}.

(** ** Layers *)

Record HwcLayer : Type := MkHwcLayer {
  sf_type : Z;
  validated_type : Z;
  blending_ : Z;
  buffer_ : option Z;
  acquire_fence_ : Z;
  release_fence_raw : Z;
  release_fence_ : Z;
  display_frame_ : option rect;
  alpha_ : spec_float;
  source_crop_ : option frect;
  cursor_ : option (Z * Z);
  transform_ : Z;
  z_order : Z;
  dataspace_ : Z;
}.
Definition new_layer : HwcLayer :=
  MkHwcLayer CompInvalid CompInvalid BlendNone None (-1) (-1) (-1) None (i2f 1) None None 0 0 HAL_DATASPACE_UNKNOWN.

Definition set_sf_type (t : Z) (l : HwcLayer) : HwcLayer :=
  MkHwcLayer t (validated_type l) (blending_ l) (buffer_ l) (acquire_fence_ l) (release_fence_raw l) (release_fence_ l)
    (display_frame_ l) (alpha_ l) (source_crop_ l) (cursor_ l) (transform_ l) (z_order l) (dataspace_ l).
Definition set_validated_type (t : Z) (l : HwcLayer) : HwcLayer :=
  MkHwcLayer (sf_type l) t (blending_ l) (buffer_ l) (acquire_fence_ l) (release_fence_raw l) (release_fence_ l)
    (display_frame_ l) (alpha_ l) (source_crop_ l) (cursor_ l) (transform_ l) (z_order l) (dataspace_ l).
Definition set_blending (b : Z) (l : HwcLayer) : HwcLayer :=
  MkHwcLayer (sf_type l) (validated_type l) b (buffer_ l) (acquire_fence_ l) (release_fence_raw l) (release_fence_ l)
    (display_frame_ l) (alpha_ l) (source_crop_ l) (cursor_ l) (transform_ l) (z_order l) (dataspace_ l).
Definition set_buffer (b : Z) (l : HwcLayer) : HwcLayer :=
  MkHwcLayer (sf_type l) (validated_type l) (blending_ l) (Some b) (acquire_fence_ l) (release_fence_raw l) (release_fence_ l)
    (display_frame_ l) (alpha_ l) (source_crop_ l) (cursor_ l) (transform_ l) (z_order l) (dataspace_ l).
Definition set_fence (f : Z) (l : HwcLayer) : HwcLayer :=
  MkHwcLayer (sf_type l) (validated_type l) (blending_ l) (buffer_ l) f (release_fence_raw l) (release_fence_ l)
    (display_frame_ l) (alpha_ l) (source_crop_ l) (cursor_ l) (transform_ l) (z_order l) (dataspace_ l).
Definition set_release_fence (f : Z) (l : HwcLayer) : HwcLayer :=
  MkHwcLayer (sf_type l) (validated_type l) (blending_ l) (buffer_ l) (acquire_fence_ l) (release_fence_raw l) f
    (display_frame_ l) (alpha_ l) (source_crop_ l) (cursor_ l) (transform_ l) (z_order l) (dataspace_ l).
Definition SetLayerDisplayFrame (r : rect) (l : HwcLayer) : HwcLayer :=
  MkHwcLayer (sf_type l) (validated_type l) (blending_ l) (buffer_ l) (acquire_fence_ l) (release_fence_raw l) (release_fence_ l)
    (Some r) (alpha_ l) (source_crop_ l) (cursor_ l) (transform_ l) (z_order l) (dataspace_ l).
Definition SetLayerPlaneAlpha (a : spec_float) (l : HwcLayer) : HwcLayer :=
  MkHwcLayer (sf_type l) (validated_type l) (blending_ l) (buffer_ l) (acquire_fence_ l) (release_fence_raw l) (release_fence_ l)
    (display_frame_ l) a (source_crop_ l) (cursor_ l) (transform_ l) (z_order l) (dataspace_ l).
Definition SetLayerSourceCrop (r : frect) (l : HwcLayer) : HwcLayer :=
  MkHwcLayer (sf_type l) (validated_type l) (blending_ l) (buffer_ l) (acquire_fence_ l) (release_fence_raw l) (release_fence_ l)
    (display_frame_ l) (alpha_ l) (Some r) (cursor_ l) (transform_ l) (z_order l) (dataspace_ l).
Definition SetCursorPosition (x y : Z) (l : HwcLayer) : HwcLayer :=
  MkHwcLayer (sf_type l) (validated_type l) (blending_ l) (buffer_ l) (acquire_fence_ l) (release_fence_raw l) (release_fence_ l)
    (display_frame_ l) (alpha_ l) (source_crop_ l) (Some (x, y)) (transform_ l) (z_order l) (dataspace_ l).
Definition SetLayerTransform (t : Z) (l : HwcLayer) : HwcLayer :=
  MkHwcLayer (sf_type l) (validated_type l) (blending_ l) (buffer_ l) (acquire_fence_ l) (release_fence_raw l) (release_fence_ l)
    (display_frame_ l) (alpha_ l) (source_crop_ l) (cursor_ l) t (z_order l) (dataspace_ l).
Definition SetLayerZOrder (z : Z) (l : HwcLayer) : HwcLayer :=
  MkHwcLayer (sf_type l) (validated_type l) (blending_ l) (buffer_ l) (acquire_fence_ l) (release_fence_raw l) (release_fence_ l)
    (display_frame_ l) (alpha_ l) (source_crop_ l) (cursor_ l) (transform_ l) z (dataspace_ l).
Definition SetLayerDataspace (d : Z) (l : HwcLayer) : HwcLayer :=
  MkHwcLayer (sf_type l) (validated_type l) (blending_ l) (buffer_ l) (acquire_fence_ l) (release_fence_raw l) (release_fence_ l)
    (display_frame_ l) (alpha_ l) (source_crop_ l) (cursor_ l) (transform_ l) (z_order l) d.
Definition SetLayerBlendMode (m : Z) (l : HwcLayer) : HwcLayer := set_blending m l.
Definition SetLayerCompositionType (t : Z) (l : HwcLayer) : HwcLayer := set_sf_type t l.
Definition accept_type_change (l : HwcLayer) : HwcLayer := set_sf_type (validated_type l) l.
Definition type_changed (l : HwcLayer) : bool := bool_decide (sf_type l ≠ validated_type l).

(** [65535.0f * alpha + 0.5f] as a [uint16_t]; undefined out of its range. *)
Definition layer_alpha (a : spec_float) : option Z :=
  f2i (SFadd 24 128 (SFmul 24 128 (i2f 65535) a) (binary_normalize 24 128 1 (-1) false)) ≫= λ z,
  if decide (is_u16 z) then Some z else None.
Definition hwc_blending (b : Z) : DrmHwcBlending :=
  if decide (b = BlendPremultiplied) then kPreMult else if decide (b = BlendCoverage) then kCoverage else kNone.

(** [PopulateDrmLayer]: the layer for the composition takes the acquire fence with it. *)
Definition PopulateDrmLayer (l : HwcLayer) : option (HwcLayer * DrmHwcLayer) :=
  handle ← buffer_ l; frame ← display_frame_ l; crop ← source_crop_ l; a ← layer_alpha (alpha_ l);
  Some (set_fence (-1) l,
        MkLayer handle 0 None (SetTransform (transform_ l)) (hwc_blending (blending_ l)) a crop frame (acquire_fence_ l)).

(** ** Displays *)

Section display.
Context {K : Type} {KE : DrmKernel K} {KH : HwcEnv K}.

Record HwcDisplay : Type := MkDisplay {
  compositor_ : @Compositor K;
  stages : list PlanStage;
  primary_planes : list DrmPlane;
  overlay_planes : list DrmPlane;
  vsync_on : bool;
  connector_ : option nat;
  crtc_ : option nat;
  layer_idx : Z;
  layers_ : gmap Z HwcLayer;
  client_layer : HwcLayer;
  retire_fence : Z;
  next_retire_fence : Z;
  color_mode : option Z;
  frame_no : Z;
}.
Definition set_compositor (c : @Compositor K) (d : HwcDisplay) : HwcDisplay :=
  MkDisplay c (stages d) (primary_planes d) (overlay_planes d) (vsync_on d) (connector_ d) (crtc_ d) (layer_idx d)
    (layers_ d) (client_layer d) (retire_fence d) (next_retire_fence d) (color_mode d) (frame_no d).
Definition set_vsync (b : bool) (d : HwcDisplay) : HwcDisplay :=
  MkDisplay (compositor_ d) (stages d) (primary_planes d) (overlay_planes d) b (connector_ d) (crtc_ d) (layer_idx d)
    (layers_ d) (client_layer d) (retire_fence d) (next_retire_fence d) (color_mode d) (frame_no d).
Definition set_pipe (prim over : list DrmPlane) (conn crtc : option nat) (d : HwcDisplay) : HwcDisplay :=
  MkDisplay (compositor_ d) (stages d) prim over (vsync_on d) conn crtc (layer_idx d)
    (layers_ d) (client_layer d) (retire_fence d) (next_retire_fence d) (color_mode d) (frame_no d).
Definition set_layers (idx : Z) (m : gmap Z HwcLayer) (d : HwcDisplay) : HwcDisplay :=
  MkDisplay (compositor_ d) (stages d) (primary_planes d) (overlay_planes d) (vsync_on d) (connector_ d) (crtc_ d) idx
    m (client_layer d) (retire_fence d) (next_retire_fence d) (color_mode d) (frame_no d).
Definition set_client (l : HwcLayer) (d : HwcDisplay) : HwcDisplay :=
  MkDisplay (compositor_ d) (stages d) (primary_planes d) (overlay_planes d) (vsync_on d) (connector_ d) (crtc_ d) (layer_idx d)
    (layers_ d) l (retire_fence d) (next_retire_fence d) (color_mode d) (frame_no d).
Definition set_fences (now next : Z) (frame : Z) (d : HwcDisplay) : HwcDisplay :=
  MkDisplay (compositor_ d) (stages d) (primary_planes d) (overlay_planes d) (vsync_on d) (connector_ d) (crtc_ d) (layer_idx d)
    (layers_ d) (client_layer d) now next (color_mode d) frame.
Definition set_color_mode (m : Z) (d : HwcDisplay) : HwcDisplay :=
  MkDisplay (compositor_ d) (stages d) (primary_planes d) (overlay_planes d) (vsync_on d) (connector_ d) (crtc_ d) (layer_idx d)
    (layers_ d) (client_layer d) (retire_fence d) (next_retire_fence d) (Some m) (frame_no d).

Definition on_comp {A} (m : M (@Compositor K) A) : M HwcDisplay A := zoom compositor_ set_compositor m.
(** A call into the environment. *)
Definition with_kern {A} (f : K → K * A) : M HwcDisplay A :=
  d ← get;
  let '(k, a) := f (kern (compositor_ d)) in
  put (set_compositor (set_kern k (compositor_ d)) d);; mret a.
Definition update_layers (f : gmap Z HwcLayer → gmap Z HwcLayer) : M HwcDisplay unit :=
  modify (λ d, set_layers (layer_idx d) (f (layers_ d)) d).
(** [dup(fd)] for a fence that is kept. *)
Definition dup (fd : Z) : M HwcDisplay Z := with_kern (k_dup fd).
(** Dereferencing the display's connector and CRTC. *)
Definition the_connector : M HwcDisplay (nat * DrmConnector) :=
  d ← get;
  match connector_ d ≫= λ i, (i,.) <$> connectors (dev (compositor_ d)) !! i with
  | Some c => mret c
  | None => undefined
  end.
Definition the_crtc : M HwcDisplay DrmCrtc :=
  d ← get;
  match crtc_ d ≫= λ i, crtcs (dev (compositor_ d)) !! i with
  | Some c => mret c
  | None => undefined
  end.
Definition set_connector (i : nat) (c : DrmConnector) (n : Z) : M HwcDisplay unit :=
  modify (λ d, let s := compositor_ d in let v := dev s in
    set_compositor (set_dev (MkDevice (crtcs v) (encoders v) (<[i := c]> (connectors v)) (writeback_connectors v)
                               (planes v) (displays v) n) s) d).

(** *** Layer functions *)

(** [LayerHook]: [layers_.at] throws for a layer that does not exist. *)
Definition layer_hook {A} (id : Z) (f : HwcLayer → M HwcDisplay (HwcLayer * A)) : M HwcDisplay A :=
  d ← get;
  match layers_ d !! id with
  | None => throw out_of_range
  | Some l => '(l', a) ← f l; update_layers (<[id := l']>);; mret a
  end.
Definition set_layer (id : Z) (f : HwcLayer → HwcLayer) : M HwcDisplay Error :=
  layer_hook id (λ l, mret (f l, ENone)).
Definition SetLayerBuffer (handle fence : Z) (l : HwcLayer) : M HwcDisplay (HwcLayer * Error) :=
  if decide (sf_type l = CompClient ∨ sf_type l = CompSideband ∨ sf_type l = CompSolidColor) then mret (l, ENone)
  else fd ← dup fence; mret (set_fence fd (set_buffer handle l), ENone).

(** *** Display functions *)

Definition AcceptDisplayChanges : M HwcDisplay Error := update_layers (fmap accept_type_change);; mret ENone.
Definition CreateLayer : M HwcDisplay (Error * Z) :=
  d ← get;
  let id := layer_idx d in
  put (set_layers (u32 (id + 1)) (if decide (is_Some (layers_ d !! id)) then layers_ d else <[id := new_layer]> (layers_ d)) d);;
  mret (ENone, id).
Definition DestroyLayer (id : Z) : M HwcDisplay Error := update_layers (delete id);; mret ENone.

Definition GetActiveConfig : M HwcDisplay (Error * option Z) :=
  '(_, c) ← the_connector;
  mret (if decide (mode_id (active_mode c) = 0) then (BadConfig, None) else (ENone, Some (mode_id (active_mode c)))).

(** The changed layers with their types, cut at [num] when there are arrays to fill. *)
Definition GetChangedCompositionTypes (num : option Z) : M HwcDisplay (Error * Z * list (Z * Z)) :=
  d ← get;
  let changed := (λ p, (p.1, validated_type p.2)) <$> filter (λ p, type_changed p.2 = true) (sorted_entries (layers_ d)) in
  mret (match num with
        | None => (ENone, Z.of_nat (length changed), [])
        | Some n => (ENone, n, take (Z.to_nat n) changed)
        end).

Definition GetClientTargetSupport (min max : Z * Z) (width height dataspace : Z) : Error :=
  if decide (width < min.1 ∨ height < min.2) then Unsupported
  else if decide (width > max.1 ∨ height > max.2) then Unsupported
  else if decide (dataspace ≠ HAL_DATASPACE_UNKNOWN) then Unsupported
  else ENone.

(** [GetDisplayConfigs]: without an array the modes are read again and counted. *)
Definition GetDisplayConfigs (num : option Z) : M HwcDisplay (Error * Z * list Z) :=
  '(i, c) ← the_connector;
  d ← get;
  match num with
  | None =>
      let '(c', n, ret) := UpdateModes (k_modes (conn_id c) (kern (compositor_ d))) (last_mode_id (dev (compositor_ d))) c in
      set_connector i c' n;;
      mret (if decide (ret ≠ 0) then (BadDisplay, 0, []) else (ENone, u32 (Z.of_nat (length (modes c'))), []))
  | Some n =>
      let ids := take (Z.to_nat n) (mode_id <$> modes c) in
      mret (ENone, Z.of_nat (length ids), ids)
  end.

Definition find_mode (config : Z) (c : DrmConnector) : option DrmMode :=
  snd <$> list_find (λ m, mode_id m = config) (modes c).

(** A rectangle that covers a mode. *)
Definition mode_frame (m : DrmMode) : rect := MkRect 0 0 (i32 (hdisplay (info m))) (i32 (vdisplay (info m))).
Definition mode_crop (m : DrmMode) : frect :=
  MkFRect (S754_zero false) (S754_zero false) (i2f (hdisplay (info m))) (i2f (vdisplay (info m))).

Definition SetActiveConfig (config : Z) : M HwcDisplay Error :=
  '(i, c) ← the_connector;
  match find_mode config c with
  | None => mret BadConfig
  | Some m =>
      ret ← on_comp (ApplyComposition (SetDisplayMode m new_composition).1);
      if decide (ret ≠ 0) then mret BadConfig
      else
        d ← get;
        set_connector i (set_active_mode m c) (last_mode_id (dev (compositor_ d)));;
        modify (λ d, set_client (SetLayerSourceCrop (mode_crop m) (SetLayerDisplayFrame (mode_frame m) (client_layer d))) d);;
        mret ENone
  end.

Definition ChosePrefferedConfig : M HwcDisplay Error :=
  '(err, n, _) ← GetDisplayConfigs None;
  if decide (err ≠ ENone ∨ n = 0) then mret err
  else
    '(err, _, ids) ← GetDisplayConfigs (Some 1);
    if decide (err ≠ ENone) then mret err
    else match ids with
         | config :: _ => SetActiveConfig config
         | [] => undefined
         end.

(** What [Init] is answered: whether a planner was made, and what the compositor and the vsync
    worker return. *)
Record init_answers : Type := MkInit { made_planner : bool; compositor_init : Z; vsync_init : Z }.

(** [Init]: the planes given to the display, split by kind. *)
Definition display_init (ans : init_answers) (use_overlay : bool) (l : list DrmPlane) : M HwcDisplay Error :=
  d ← get;
  if negb (made_planner ans) then mret NoResources
  else if decide (compositor_init ans ≠ 0) then mret NoResources
  else
    let v := dev (compositor_ d) in
    let prim := filter (λ p, plane_kind p = DRM_PLANE_TYPE_PRIMARY) l in
    let over := if use_overlay then filter (λ p, plane_kind p = DRM_PLANE_TYPE_OVERLAY) l else [] in
    let crtc := GetCrtcForDisplay (display (compositor_ d)) v in
    let conn := GetConnectorForDisplay (display (compositor_ d)) v in
    put (set_pipe (primary_planes d ++ prim) (overlay_planes d ++ over) (match crtc with Some _ => conn | None => connector_ d end) crtc d);;
    match crtc, conn with
    | Some _, Some _ => if decide (vsync_init ans ≠ 0) then mret BadDisplay else ChosePrefferedConfig
    | _, _ => mret BadDisplay
    end.

(** [CreateDisplay]: the planes its CRTC supports; what [Init] returns is not looked at. *)
Definition CreateDisplay (ans : init_answers) (use_overlay : bool) : M HwcDisplay Error :=
  d ← get;
  let v := dev (compositor_ d) in
  match own_crtc (compositor_ d) with
  | None => mret BadDisplay
  | Some crtc => display_init ans use_overlay (filter (λ p, GetCrtcSupported p crtc = true) (planes v));; mret ENone
  end.

(** [GetReleaseFences]: with arrays of [n] elements the fences of so many layers are taken. *)
Definition take_fences (n : nat) (l : list (Z * HwcLayer)) (m : gmap Z HwcLayer) : gmap Z HwcLayer :=
  foldl (λ m p, <[p.1 := set_release_fence (-1) p.2]> m) m (take n l).
Definition GetReleaseFences (num : option Z) : M HwcDisplay (Error * Z * list (Z * Z)) :=
  d ← get;
  let l := sorted_entries (layers_ d) in
  match num with
  | None => mret (ENone, Z.of_nat (length l), [])
  | Some n =>
      let out := take (Z.to_nat n) ((λ p, (p.1, release_fence_ p.2)) <$> l) in
      update_layers (take_fences (Z.to_nat n) l);;
      mret (ENone, if decide (n < Z.of_nat (length l)) then n else Z.of_nat (length l), out)
  end.

Definition SetClientTarget (target fence dataspace : Z) : M HwcDisplay Error :=
  fd ← dup fence;
  modify (λ d, set_client (SetLayerDataspace dataspace (set_fence fd (set_buffer target (client_layer d)))) d);;
  mret ENone.
Definition SetColorMode (mode : Z) : M HwcDisplay Error :=
  if decide (mode ≠ HAL_COLOR_MODE_NATIVE) then mret Unsupported else modify (set_color_mode mode);; mret ENone.
Definition SetPowerMode (mode : Z) : M HwcDisplay Error :=
  let apply dpms :=
    ret ← on_comp (ApplyComposition (SetDpmsMode dpms new_composition).1);
    mret (if decide (ret ≠ 0) then BadParameter else ENone) in
  if decide (mode = PowerOff) then apply DRM_MODE_DPMS_OFF
  else if decide (mode = PowerOn) then apply DRM_MODE_DPMS_ON
  else mret Unsupported.
Definition SetVsyncEnabled (enabled : Z) : M HwcDisplay Error := modify (set_vsync (bool_decide (enabled = 1)));; mret ENone.

(** *** Frames *)

(** A place in the stack: a layer, or what the client composed itself. *)
Inductive zref : Type := OfLayer (id : Z) | OfClient.
#[global] Instance zref_eq_dec : EqDecision zref.
Proof. solve_decision. Defined.
(** [std::map::emplace] keeps an entry that is there. *)
Definition z_emplace (z : Z) (r : zref) (m : gmap Z zref) : gmap Z zref :=
  match m !! z with Some _ => m | None => <[z := r]> m end.
(** The layers by z order; the client's own at the lowest of its layers. *)
Definition z_step (test : bool) (acc : gmap Z zref * option Z) (p : Z * HwcLayer) : gmap Z zref * option Z :=
  let t := if test then sf_type p.2 else validated_type p.2 in
  if decide (t = CompDevice) then (z_emplace (z_order p.2) (OfLayer p.1) acc.1, acc.2)
  else if decide (t = CompClient) then (acc.1, Some (Z.min (default UINT32_MAX acc.2) (z_order p.2)))
  else acc.
Definition z_map (test : bool) (layers : gmap Z HwcLayer) : gmap Z zref :=
  match foldl (z_step test) (∅, None) (sorted_entries layers) with
  | (m, Some z) => z_emplace z OfClient m
  | (m, None) => m
  end.
Definition z_stack (test : bool) (layers : gmap Z HwcLayer) : list zref := snd <$> sorted_entries (z_map test layers).

Definition get_ref (r : zref) : M HwcDisplay HwcLayer :=
  d ← get;
  match r with
  | OfClient => mret (client_layer d)
  | OfLayer id => match layers_ d !! id with Some l => mret l | None => undefined end
  end.
Definition put_ref (r : zref) (l : HwcLayer) : M HwcDisplay unit :=
  match r with
  | OfClient => modify (set_client l)
  | OfLayer id => update_layers (<[id := l]>)
  end.
Definition set_imported (fb usage : Z) (l : DrmHwcLayer) : DrmHwcLayer :=
  MkLayer (sf_handle l) usage (Some fb) (transform l) (blending l) (alpha l) (source_crop l) (display_frame l) (acquire_fence l).
Definition release (l : list Z) : M HwcDisplay unit := on_comp (modify (log (Released <$> l))).

(** [ImportBuffer] of a layer; when the handle cannot be copied the buffer is released with
    the layer. *)
Definition ImportBuffer (l : DrmHwcLayer) : M HwcDisplay (Z + DrmHwcLayer) :=
  r ← with_kern (k_import (sf_handle l));
  match r with
  | inl e => mret (inl e)
  | inr (fb, usage) =>
      on_comp (modify (log [Imported fb]));;
      ret ← with_kern (k_copy_handle (sf_handle l));
      if decide (ret ≠ 0) then release [fb];; mret (inl ret)
      else mret (inr (set_imported fb usage l))
  end.
(** The layers of the frame, from the bottom; [None] when one cannot be imported. *)
Fixpoint gather (refs : list zref) (acc : list DrmHwcLayer) : M HwcDisplay (option (list DrmHwcLayer)) :=
  match refs with
  | [] => mret (Some acc)
  | r :: refs' =>
      l ← get_ref r;
      match PopulateDrmLayer l with
      | None => undefined
      | Some (l', layer) =>
          put_ref r l';;
          res ← ImportBuffer layer;
          match res with
          | inl _ => release (omap buffer acc);; mret None
          | inr layer' => gather refs' (acc ++ [layer'])
          end
      end
  end.

Definition AddFenceToRetireFence (fd : Z) : M HwcDisplay unit :=
  if decide (fd < 0) then mret tt
  else
    d ← get;
    if decide (0 ≤ next_retire_fence d) then
      f ← with_kern (k_merge (next_retire_fence d) fd);
      modify (λ d, set_fences (retire_fence d) f (frame_no d) d)
    else
      f ← dup fd;
      modify (λ d, set_fences (retire_fence d) f (frame_no d) d).

Definition CreateComposition (test : bool) : M HwcDisplay Error :=
  d ← get;
  let refs := z_stack test (layers_ d) in
  if decide (refs = []) then mret BadLayer
  else
    res ← gather refs [];
    match res with
    | None => mret NoResources
    | Some layers =>
        crtc ← the_crtc;
        d ← get;
        match plan_frame (stages d) crtc (primary_planes d) (overlay_planes d) (SetLayers layers true new_composition).1 with
        | inl _ => release (omap buffer layers);; mret BadConfig
        | inr comp =>
            if test then
              '(comp', ret) ← on_comp (TestComposition comp);
              release (buffers comp');;
              mret (if decide (ret ≠ 0) then BadParameter else ENone)
            else
              AddFenceToRetireFence (out_fence comp);;
              ret ← on_comp (ApplyComposition (set_out_fence (-1) comp));
              mret (if decide (ret ≠ 0) then BadParameter else ENone)
        end
    end.

(** [PresentDisplay]: the result and the retire fence, which belongs to the frame before. *)
Definition PresentDisplay : M HwcDisplay (Error * option Z) :=
  ret ← CreateComposition false;
  if decide (ret = BadLayer) then mret (ENone, Some (-1))
  else if decide (ret ≠ ENone) then mret (ret, None)
  else
    d ← get;
    put (set_fences (next_retire_fence d) (-1) (u32 (frame_no d + 1)) d);;
    mret (ENone, Some (retire_fence d)).

(** *** Validation *)

Definition set_validated (t : Z) (id : Z) (m : gmap Z HwcLayer) : gmap Z HwcLayer := alter (set_validated_type t) id m.
(** The layers that ask for a plane, from the top; [std::greater<int>] orders by the value
    as an [int]. *)
Definition device_step (m : gmap Z Z) (p : Z * HwcLayer) : gmap Z Z :=
  if decide (sf_type p.2 = CompDevice) then
    match m !! i32 (z_order p.2) with Some _ => m | None => <[i32 (z_order p.2) := p.1]> m end
  else m.
Definition device_map (layers : gmap Z HwcLayer) : gmap Z Z := foldl device_step ∅ (sorted_entries layers).
Definition device_refs (layers : gmap Z HwcLayer) : list Z := reverse (snd <$> sorted_entries (device_map layers)).
(** The last loop of the validation. *)
Definition finish_validation (layers : gmap Z HwcLayer) : gmap Z HwcLayer * Z :=
  let keep (l : HwcLayer) : Prop := sf_type l = CompDevice ∧ validated_type l = CompDevice in
  (fmap (λ l, if decide (keep l) then l else set_validated_type CompClient l) layers,
   Z.of_nat (size (filter (λ p, ¬ keep p.2) layers))).

Definition ValidateDisplay : M HwcDisplay (Error * Z) :=
  d ← get;
  let planes := (length (primary_planes d) + length (overlay_planes d))%nat in
  if decide (1 < planes)%nat then
    update_layers (fmap (set_validated_type CompInvalid));;
    ret ← CreateComposition true;
    d ← get;
    let avail := if decide (planes < size (layers_ d))%nat then (planes - 1)%nat else planes in
    let chosen := if decide (ret = ENone) then take avail (device_refs (layers_ d)) else [] in
    let '(ls, n) := finish_validation (foldl (λ m id, set_validated CompDevice id m) (layers_ d) chosen) in
    put (set_layers (layer_idx d) ls d);;
    mret (if decide (n = 0) then ENone else HasChanges, n)
  else
    update_layers (fmap (set_validated_type CompClient));;
    mret (HasChanges, Z.of_nat (size (layers_ d))).
End display.

(** ** Frames take their buffers and leave the rest alone *)

Section frames.
Context {K : Type} {KE : DrmKernel K} {KH : HwcEnv K} {KB : KernelBlobs K}.
Abbreviation Display := (@HwcDisplay K).

(** What SurfaceFlinger sees of a layer, and what drawing does not change. *)
Definition layer_core (l : HwcLayer) : Z * Z * Z := (sf_type l, validated_type l, z_order l).
Definition disp_view (d : Display) :=
  (stages d, primary_planes d, overlay_planes d, connector_ d, crtc_ d, layer_idx d, layer_core <$> layers_ d).
Definition fence_view (d : Display) := (retire_fence d, next_retire_fence d).

(** Every imported framebuffer is released, on the screen, or in hand. *)
Definition balance (held : list Z) (s : @Compositor K) : Prop :=
  imported (events s) ≡ₚ released (events s) ++ active_buffers s ++ held.
#[global] Instance balance_dec held s : Decision (balance held s).
Proof. unfold balance. apply _. Defined.

Lemma with_kern_spec {A} (f : K → K * A) (d d' : Display) a :
  with_kern f d = Val d' a → ∃ k, d' = set_compositor (set_kern k (compositor_ d)) d.
Proof. unfold with_kern. run_m. destruct (f _) as [k x]. intros [= <- <-]. by exists k. Qed.

Lemma put_ref_spec r l l' (d d' : Display) u :
  get_ref r d = Val d l → layer_core l' = layer_core l → put_ref r l' d = Val d' u →
  disp_view d' = disp_view d ∧ fence_view d' = fence_view d ∧ compositor_ d' = compositor_ d.
Proof.
  unfold get_ref, put_ref, update_layers. run_m. intros Hg Hc. destruct r as [id|].
  - destruct (layers_ d !! id) as [l0|] eqn:El; [|done]. injection Hg as ->. intros [= <- <-].
    split_and!; [|done..]. unfold disp_view. cbn [set_layers stages primary_planes overlay_planes connector_ crtc_ layer_idx layers_].
    assert (layer_core <$> <[id := l']> (layers_ d) = layer_core <$> layers_ d) as ->; [|done].
    rewrite fmap_insert, Hc. apply insert_id. by rewrite lookup_fmap, El.
  - by intros [= <- <-].
Qed.

Lemma populate_core l l' x :
  PopulateDrmLayer l = Some (l', x) → l' = set_fence (-1) l ∧ buffer x = None ∧ acquire_fence x = acquire_fence_ l.
Proof. unfold PopulateDrmLayer. intros E. repeat (apply bind_Some in E as (? & ? & E)). by injection E as <- <-. Qed.

Lemma log_balance held ev (s : @Compositor K) :
  balance held (log ev s) ↔ imported (events s) ++ imported ev ≡ₚ (released (events s) ++ released ev) ++ active_buffers s ++ held.
Proof. unfold balance. cbn [log events]. by rewrite imported_app, released_app. Qed.

Lemma release_spec l held (d d' : Display) u :
  release l d = Val d' u → balance (held ++ l) (compositor_ d) →
  balance held (compositor_ d') ∧ disp_view d' = disp_view d ∧ fence_view d' = fence_view d
  ∧ (layers_ d' = layers_ d ∧ client_layer d' = client_layer d).
Proof.
  unfold release, on_comp. run_m. intros [= <- <-] Hb. split_and!; [|done..]. cbn [compositor_ set_compositor].
  apply log_balance. rewrite imported_released, released_released, app_nil_r. unfold balance in Hb. rewrite Hb.
  solve_Permutation.
Qed.

Lemma import_buffer_spec x held (d d' : Display) r :
  ImportBuffer x d = Val d' r → buffer x = None → balance held (compositor_ d) →
  disp_view d' = disp_view d ∧ fence_view d' = fence_view d ∧ (layers_ d' = layers_ d ∧ client_layer d' = client_layer d) ∧
  match r with
  | inl _ => balance held (compositor_ d')
  | inr x' => balance (held ++ omap buffer [x']) (compositor_ d') ∧ ∃ fb usage, x' = set_imported fb usage x
  end.
Proof.
  intros E Hx Hb. unfold ImportBuffer in E. unfold mbind at 1, M_bind at 1 in E.
  destruct (with_kern (k_import (sf_handle x)) d) as [d1 r1| |] eqn:E1; [|done..].
  apply with_kern_spec in E1 as [k1 ->]. destruct r1 as [e|[fb usage]]; [by injection E as <- <-|].
  unfold mbind at 1, M_bind at 1 in E. set (d1 := set_compositor _ d) in *.
  destruct (on_comp (modify (log [Imported fb])) d1) as [d2 []| |] eqn:E2; [|done..].
  assert (d2 = set_compositor (log [Imported fb] (compositor_ d1)) d1) as -> by (by injection E2 as <-).
  unfold mbind at 1, M_bind at 1 in E.
  destruct (with_kern (k_copy_handle (sf_handle x)) _) as [d3 r3| |] eqn:E3; [|done..].
  apply with_kern_spec in E3 as [k3 ->]. set (d3 := set_compositor (set_kern k3 _) _) in *.
  assert (balance (held ++ [fb]) (compositor_ d3)) as Hb3.
  { unfold balance in *. cbn. rewrite imported_app, released_app. change (active_buffers _) with (active_buffers (compositor_ d)).
    cbn. rewrite app_nil_r, Hb. solve_Permutation. }
  destruct (decide (r3 ≠ 0)).
  - unfold mbind at 1, M_bind at 1 in E. destruct (release [fb] d3) as [d4 []| |] eqn:E4; [|done..].
    injection E as <- <-. apply (release_spec _ held) in E4 as (? & Hd & Hf & Hl & Hc); [|done]. by rewrite Hd, Hf, Hl, Hc.
  - injection E as <- <-. split_and!; [done..|by eexists _, _].
Qed.

Definition ref_layer (d : Display) (r : zref) : option HwcLayer :=
  match r with OfClient => Some (client_layer d) | OfLayer id => layers_ d !! id end.
(** A composition's layer is drawn from a layer and an imported buffer. *)
Definition drawn (l : HwcLayer) (x : DrmHwcLayer) : Prop :=
  ∃ l' y fb usage, PopulateDrmLayer l = Some (l', y) ∧ x = set_imported fb usage y.

Lemma get_ref_spec r (d d' : Display) l : get_ref r d = Val d' l → d' = d ∧ ref_layer d r = Some l.
Proof.
  unfold get_ref, ref_layer. run_m. destruct r as [id|]; [|by intros [= <- <-]].
  destruct (layers_ d !! id); [by intros [= <- <-]|done].
Qed.
Lemma put_ref_ref r r' l (d d' : Display) u :
  put_ref r l d = Val d' u → ref_layer d' r' = if decide (r' = r) then Some l else ref_layer d r'.
Proof.
  unfold put_ref, update_layers, ref_layer. run_m. destruct r as [id|]; intros [= <- <-]; cbn;
    destruct r' as [id'|]; [|done|done|by rewrite decide_True].
  case_decide as E; [injection E as ->; apply lookup_insert_eq|]. apply lookup_insert_ne. congruence.
Qed.

Lemma gather_spec refs acc (base : zref → option HwcLayer) (d d' : Display) res :
  gather refs acc d = Val d' res → NoDup refs → balance (omap buffer acc) (compositor_ d) →
  (∀ r, r ∈ refs → ref_layer d r = base r) →
  disp_view d' = disp_view d ∧ fence_view d' = fence_view d ∧
  match res with
  | None => balance [] (compositor_ d')
  | Some ls => ∃ new, ls = acc ++ new ∧ balance (omap buffer ls) (compositor_ d')
      ∧ Forall2 (λ r x, ∃ l, base r = Some l ∧ drawn l x) refs new
      ∧ (∀ r, r ∈ refs → ∃ l, ref_layer d' r = Some l ∧ acquire_fence_ l = -1)
      ∧ (∀ r, (r ∉ refs) → ref_layer d' r = ref_layer d r)
  end.
Proof.
  revert acc d. induction refs as [|r refs IH]; intros acc d E Hnd Hb Hbase; cbn [gather] in E.
  { injection E as <- <-. split_and!; [done..|]. exists []. rewrite app_nil_r. split_and!; [done|done|constructor| |done].
    by intros ? ?%elem_of_nil. }
  apply list.NoDup_cons in Hnd as [Hni Hnd]. unfold mbind at 1, M_bind at 1 in E.
  destruct (get_ref r d) as [d0 l| |] eqn:Eg; [|done..]. pose proof Eg as Eg0. apply get_ref_spec in Eg0 as [-> Hl].
  destruct (PopulateDrmLayer l) as [[l' y]|] eqn:Ep; [|done]. pose proof Ep as Epop. apply populate_core in Ep as (-> & Hy & _).
  unfold mbind at 1, M_bind at 1 in E. destruct (put_ref r (set_fence (-1) l) d) as [d1 u| |] eqn:E1; [|done..].
  assert (∀ r', ref_layer d1 r' = if decide (r' = r) then Some (set_fence (-1) l) else ref_layer d r') as Href
    by (intros; by eapply put_ref_ref).
  destruct (put_ref_spec r l (set_fence (-1) l) d d1 u Eg eq_refl E1) as (Hv1 & Hf1 & Hc1).
  unfold mbind at 1, M_bind at 1 in E. destruct (ImportBuffer y d1) as [d2 r2| |] eqn:E2; [|done..].
  apply (import_buffer_spec _ (omap buffer acc)) in E2 as (Hv2 & Hf2 & [Hl2 Hcl2] & Hb2); [|done|by rewrite Hc1].
  assert (∀ r', ref_layer d2 r' = ref_layer d1 r') as Hr2 by (intros []; unfold ref_layer; congruence).
  destruct r2 as [e|x].
  - unfold mbind at 1, M_bind at 1 in E. destruct (release (omap buffer acc) d2) as [d3 []| |] eqn:E3; [|done..].
    injection E as <- <-. apply (release_spec _ []) in E3 as (? & Hv3 & Hf3 & _); [|done]. split_and!; congruence || done.
  - destruct Hb2 as (Hb2 & fb & usage & ->). rewrite <- omap_app in Hb2.
    destruct (IH _ _ E Hnd Hb2) as (Hv3 & Hf3 & Hres).
    { intros r' Hr'. rewrite Hr2, Href, decide_False by (intros ->; done). apply Hbase. by right. }
    split_and!; [congruence..|]. destruct res as [ls|]; [|done]. destruct Hres as (new & -> & Hb3 & H2 & Hin & Hout).
    exists (set_imported fb usage y :: new). rewrite <- app_assoc in Hb3 |- *. split_and!; [done|done| | |].
    + constructor; [|done]. exists l. split; [rewrite <- Hbase by (by left); done|]. by eexists _, _, _, _.
    + intros r' [->|Hr']%elem_of_cons; [|by apply Hin]. exists (set_fence (-1) l).
      by rewrite (Hout r Hni), Hr2, Href, decide_True by done.
    + intros r' [Hne Hr']%not_elem_of_cons. by rewrite (Hout r' Hr'), Hr2, Href, decide_False by done.
Qed.
End frames.

(** ** The stack of a frame *)

Section stack.
Definition ztype (test : bool) (l : HwcLayer) : Z := if test then sf_type l else validated_type l.

Lemma z_fold_lookup test l acc z :
  (foldl (z_step test) acc l).1 !! z
  = match acc.1 !! z with
    | Some r => Some r
    | None => (λ p : nat * (Z * HwcLayer), OfLayer p.2.1) <$> list_find (λ p, ztype test p.2 = CompDevice ∧ z_order p.2 = z) l
    end.
Proof.
  revert acc. induction l as [|p l IH]; intros acc; [cbn; by destruct (acc.1 !! z)|].
  cbn [foldl]. rewrite IH. unfold z_step at 1. fold (ztype test p.2). cbn [list_find].
  destruct (decide (ztype test p.2 = CompDevice)) as [Hd|Hd].
  - cbn [fst]. unfold z_emplace. destruct (acc.1 !! z_order p.2) as [r0|] eqn:E0.
    + destruct (acc.1 !! z) as [r|] eqn:Ez; [done|]. rewrite decide_False by (intros [_ ?]; congruence).
      by rewrite <- option_fmap_compose.
    + destruct (decide (z_order p.2 = z)) as [<-|Hne].
      * rewrite lookup_insert_eq, E0. by rewrite decide_True.
      * rewrite lookup_insert_ne by done. destruct (acc.1 !! z); [done|]. rewrite decide_False by (intros [_ ?]; congruence).
        by rewrite <- option_fmap_compose.
  - assert (((if decide (ztype test p.2 = CompClient)
             then (acc.1, Some (Z.min (default UINT32_MAX acc.2) (z_order p.2))) else acc) : gmap Z zref * option Z).1 = acc.1) as ->
      by (by case_decide).
    destruct (acc.1 !! z); [done|]. rewrite decide_False by (by intros [? _]). by rewrite <- option_fmap_compose.
Qed.

(** The lowest of the client's layers. *)
Lemma z_fold_client test l acc :
  Forall (λ p, z_order p.2 ≤ UINT32_MAX) l →
  match (foldl (z_step test) acc l).2 with
  | None => acc.2 = None ∧ Forall (λ p, ztype test p.2 ≠ CompClient) l
  | Some c => Forall (λ p, ztype test p.2 = CompClient → c ≤ z_order p.2) l ∧ (∀ c0, acc.2 = Some c0 → c ≤ c0)
              ∧ (acc.2 = Some c ∨ ∃ p, p ∈ l ∧ ztype test p.2 = CompClient ∧ z_order p.2 = c)
  end.
Proof.
  revert acc. induction l as [|p l IH]; intros acc Hl.
  { cbn. destruct acc.2; [|done]. split_and!; [constructor|by intros ? [= ->]|by left]. }
  apply Forall_cons_1 in Hl as [Hp Hl]. cbn [foldl]. specialize (IH (z_step test acc p) Hl).
  assert (CompDevice ≠ CompClient) as Hdc by done.
  assert ((z_step test acc p).2 = if decide (ztype test p.2 = CompClient)
    then Some (Z.min (default UINT32_MAX acc.2) (z_order p.2)) else acc.2) as Estep.
  { unfold z_step. fold (ztype test p.2). repeat case_decide; congruence || done. }
  destruct (decide (ztype test p.2 = CompClient)) as [Hc|Hc]; rewrite Estep in IH;
    (destruct (foldl _ _ l).2 as [c|]; [|destruct IH as [IH1 IH2]; try discriminate IH1; (split; [exact IH1|by constructor])]);
    destruct IH as (A1 & A2 & A3).
  - specialize (A2 _ eq_refl). split_and!.
    + constructor; [intros _; lia|done].
    + intros c0 E0. rewrite E0 in A2. cbn in A2. lia.
    + destruct A3 as [A3|(q & ? & ?)]; [|right; exists q; by split; [right|]]. injection A3 as A3.
      destruct acc.2 as [c0|]; cbn in A3.
      * destruct (decide (z_order p.2 < c0)); [right; exists p; split_and!; [left|done|lia]|left; f_equal; lia].
      * right. exists p. split_and!; [left|done|lia].
  - split_and!; [constructor; [by intros ?|done]|done|]. destruct A3 as [|(q & ? & ?)]; [by left|right; exists q; by split; [right|]].
Qed.

(** Layers have different places in z order, as numbers of 32 bits. *)
Record z_ok (layers : gmap Z HwcLayer) : Prop := {
  zo_distinct i j a b : layers !! i = Some a → layers !! j = Some b → z_order a = z_order b → i = j;
  zo_range i a : layers !! i = Some a → is_u32 (z_order a);
}.
Definition lowest_client (test : bool) (layers : gmap Z HwcLayer) (z : Z) : Prop :=
  (∃ id l, layers !! id = Some l ∧ ztype test l = CompClient ∧ z_order l = z)
  ∧ ∀ id l, layers !! id = Some l → ztype test l = CompClient → z ≤ z_order l.

Lemma z_device_lookup test layers z id :
  z_ok layers →
  (λ p : nat * (Z * HwcLayer), OfLayer p.2.1) <$> list_find (λ p, ztype test p.2 = CompDevice ∧ z_order p.2 = z) (sorted_entries layers)
    = Some (OfLayer id)
  ↔ ∃ l, layers !! id = Some l ∧ ztype test l = CompDevice ∧ z_order l = z.
Proof.
  intros Hz. split.
  - intros ([n [i l]] & Hf & E)%fmap_Some. cbn in E. injection E as ->. apply list_find_Some in Hf as (Hn & [Hd Hzl] & _).
    exists l. split_and!; [|done..]. apply elem_of_sorted_entries. by eapply list_elem_of_lookup_2.
  - intros (l & Hl & Hd & Hzl).
    destruct (list_find _ (sorted_entries layers)) as [[n [i l']]|] eqn:Ef.
    + cbn. apply list_find_Some in Ef as (Hn & [_ Hzl'] & _). cbn in Hzl'. do 2 f_equal.
      apply list_elem_of_lookup_2, elem_of_sorted_entries in Hn. apply (zo_distinct _ Hz _ _ _ _ Hn Hl). congruence.
    + apply list_find_None in Ef. assert ((id, l) ∈ sorted_entries layers) as Hin by by apply elem_of_sorted_entries.
      apply List.Forall_forall with (x := (id, l)) in Ef; [|by apply list_elem_of_In]. by destruct Ef.
Qed.

Lemma sorted_entries_Forall {V} (P : Z * V → Prop) (m : gmap Z V) :
  Forall P (sorted_entries m) ↔ ∀ id l, m !! id = Some l → P (id, l).
Proof.
  rewrite List.Forall_forall. setoid_rewrite <- list_elem_of_In. split.
  - intros H id l Hl. apply H. by apply elem_of_sorted_entries.
  - intros H [id l] Hl. apply H. by apply elem_of_sorted_entries.
Qed.

Lemma z_map_spec test layers z r :
  z_ok layers →
  z_map test layers !! z = Some r ↔
  match r with
  | OfLayer id => ∃ l, layers !! id = Some l ∧ ztype test l = CompDevice ∧ z_order l = z
  | OfClient => lowest_client test layers z
  end.
Proof.
  intros Hz. unfold z_map.
  assert (∀ z, (foldl (z_step test) (∅, None) (sorted_entries layers)).1 !! z
    = (λ p : nat * (Z * HwcLayer), OfLayer p.2.1) <$> list_find (λ p, ztype test p.2 = CompDevice ∧ z_order p.2 = z) (sorted_entries layers)) as Hm.
  { intros z'. rewrite z_fold_lookup. cbn [fst]. by rewrite lookup_empty. }
  pose proof (z_fold_client test (sorted_entries layers) (∅, None)) as Hc.
  destruct (foldl (z_step test) (∅, None) (sorted_entries layers)) as [m c]. cbn [fst snd] in *.
  pose proof (λ P, sorted_entries_Forall P layers) as HF.
  rewrite HF in Hc. specialize (Hc ltac:(intros id l Hl; pose proof (zo_range _ Hz id l Hl); unfold is_u32, UINT32_MAX in *; cbn; lia)).
  assert (∀ z', m !! z' ≠ Some OfClient) as Hnc.
  { intros z' E. rewrite Hm in E. by apply fmap_Some in E as (? & ? & ?). }
  destruct c as [c|].
  - destruct Hc as (Hlow & _ & [?|([i l] & Hin & Ht & Hzl)]); [done|]. rewrite HF in Hlow. cbn in Hlow, Ht, Hzl.
    apply elem_of_sorted_entries in Hin.
    assert (m !! c = None) as Hmc.
    { destruct (m !! c) as [r'|] eqn:E; [|done]. destruct r' as [id|]; [|by destruct (Hnc c)]. rewrite Hm in E.
      apply z_device_lookup in E as (l' & Hl' & Ht' & Hz'); [|done].
      assert (id = i) as -> by (apply (zo_distinct _ Hz _ _ _ _ Hl' Hin); congruence). assert (l' = l) as -> by congruence. rewrite Ht in Ht'. discriminate Ht'. }
    unfold z_emplace. rewrite Hmc. destruct r as [id|].
    + rewrite <- z_device_lookup, <- Hm by done. destruct (decide (z = c)) as [->|Hne].
      * rewrite lookup_insert_eq. split; congruence.
      * by rewrite lookup_insert_ne.
    + destruct (decide (z = c)) as [->|Hne].
      * rewrite lookup_insert_eq. split; [intros _|done]. split; [by exists i, l|done].
      * rewrite lookup_insert_ne by done. split; [by intros ?%Hnc|]. intros [(id & l' & Hl' & Ht' & Hz') Hmin].
        pose proof (Hlow _ _ Hl' Ht'). pose proof (Hmin _ _ Hin Ht). lia.
  - destruct Hc as [_ Hc]. rewrite HF in Hc. destruct r as [id|].
    + by rewrite Hm, z_device_lookup.
    + split; [by intros ?%Hnc|]. intros [(id & l' & Hl' & Ht' & Hz') _]. by destruct (Hc _ _ Hl').
Qed.

Lemma lowest_exists test layers id l :
  z_ok layers → layers !! id = Some l → ztype test l = CompClient → ∃ z, lowest_client test layers z.
Proof.
  intros Hz Hl Ht. pose proof (z_fold_client test (sorted_entries layers) (∅, None)) as Hc.
  rewrite sorted_entries_Forall in Hc.
  specialize (Hc ltac:(intros i a Ha; pose proof (zo_range _ Hz i a Ha); unfold is_u32, UINT32_MAX in *; cbn; lia)).
  destruct (foldl _ _ _).2 as [c|].
  - destruct Hc as (Hlow & _ & [?|([i a] & Hin & Ha & Hza)]); [done|]. rewrite sorted_entries_Forall in Hlow.
    exists c. split; [|done]. apply elem_of_sorted_entries in Hin. by exists i, a.
  - destruct Hc as [_ Hc]. rewrite sorted_entries_Forall in Hc. by destruct (Hc id l Hl).
Qed.

(** Without any assumption: a layer stands only at its own place, the client's at one. *)
Lemma z_map_sound test layers :
  ∃ c, ∀ z r, z_map test layers !! z = Some r →
    match r with OfLayer id => ∃ l, layers !! id = Some l ∧ z_order l = z | OfClient => z = c end.
Proof.
  unfold z_map.
  assert (∀ z r, (foldl (z_step test) (∅, None) (sorted_entries layers)).1 !! z = Some r →
    match r with OfLayer id => ∃ l, layers !! id = Some l ∧ z_order l = z | OfClient => False end) as Hm.
  { intros z r. rewrite z_fold_lookup. cbn [fst]. rewrite lookup_empty. intros ([n [i l]] & Hf & ->)%fmap_Some.
    apply list_find_Some in Hf as (Hn & [_ Hz] & _). exists l. split; [|done]. apply elem_of_sorted_entries.
    by eapply list_elem_of_lookup_2. }
  destruct (foldl (z_step test) (∅, None) (sorted_entries layers)) as [m [c|]]; cbn [fst] in Hm.
  - exists c. intros z r. unfold z_emplace. destruct (m !! c) eqn:Ec.
    + intros Hr%Hm. by destruct r.
    + destruct (decide (c = z)) as [<-|Hne]; [rewrite lookup_insert_eq; by intros [= <-]|].
      rewrite lookup_insert_ne by done. intros Hr%Hm. by destruct r.
  - exists 0. intros z r Hr%Hm. by destruct r.
Qed.

Lemma z_stack_nodup test layers : NoDup (z_stack test layers).
Proof.
  destruct (z_map_sound test layers) as [c Hc]. unfold z_stack. apply NoDup_fmap_2_strong.
  2: { unfold sorted_entries. rewrite merge_sort_Permutation. apply NoDup_map_to_list. }
  intros [z1 r] [z2 r'] H1%elem_of_sorted_entries%Hc H2%elem_of_sorted_entries%Hc E. cbn in E. subst r'. f_equal.
  destruct r as [id|]; [|congruence]. destruct H1 as (l & Hl & <-), H2 as (l' & Hl' & <-). congruence.
Qed.
Lemma elem_of_z_stack test layers r :
  z_ok layers →
  r ∈ z_stack test layers ↔
  match r with
  | OfLayer id => ∃ l, layers !! id = Some l ∧ ztype test l = CompDevice
  | OfClient => ∃ z, lowest_client test layers z
  end.
Proof.
  intros Hz. unfold z_stack. rewrite list_elem_of_fmap. split.
  - intros ([z r'] & -> & Hin%elem_of_sorted_entries%z_map_spec); [|done]. cbn. destruct r'; naive_solver.
  - intros Hr. assert (∃ z, z_map test layers !! z = Some r) as [z Hzr].
    { destruct r as [id|]; [destruct Hr as (l & Hl & Ht); exists (z_order l)|destruct Hr as [z Hr]; exists z];
        apply z_map_spec; eauto. }
    exists (z, r). split; [done|]. by apply elem_of_sorted_entries.
Qed.
End stack.

Section present.
Context {K : Type} {KE : DrmKernel K} {KH : HwcEnv K} {KB : KernelBlobs K}.
Abbreviation Display := (@HwcDisplay K).

Lemma plan_frame_keeps st crtc prim over c c' :
  plan_frame st crtc prim over c = inr c' → comp_layers c' = comp_layers c ∧ out_fence c' = out_fence c.
Proof.
  unfold plan_frame, Plan. case_decide.
  - destruct (ProvisionPlanes _ _ _ _ _) as [e|ps]; [done|]. destruct (foldl take_plane _ _) as [p o].
    rewrite disable_planes_eq. by intros [= <-].
  - rewrite disable_planes_eq. by intros [= <-].
Qed.

Lemma on_comp_spec {A} (m : M (@Compositor K) A) (d d' : Display) a :
  on_comp m d = Val d' a → ∃ s, m (compositor_ d) = Val s a ∧ d' = set_compositor s d.
Proof. unfold on_comp. run_m. destruct (m _); [|done..]. intros [= <- <-]. eauto. Qed.
Lemma the_crtc_spec (d d' : Display) c :
  the_crtc d = Val d' c → d' = d ∧ ∃ i, crtc_ d = Some i ∧ crtcs (dev (compositor_ d)) !! i = Some c.
Proof.
  unfold the_crtc. run_m. destruct (crtc_ d) as [i|]; cbn; [|done]. destruct (crtcs _ !! i) as [c'|] eqn:E; [|done].
  intros [= <- <-]. eauto.
Qed.

Lemma takes_balance held (s s' : @Compositor K) : takes held s s' → balance held s → balance [] s'.
Proof. intros [Hi Ht] Hb. unfold balance in *. by rewrite Hi, app_nil_r, Ht. Qed.
Lemma same_balance held (s s' : @Compositor K) : frame_view s' = frame_view s → balance held s → balance held s'.
Proof.
  unfold frame_view, balance, active_buffers. intros Hf. injection Hf as _ -> _ _ _ _ -> ->. done.
Qed.

Lemma create_composition_spec test (d d' : Display) e :
  CreateComposition test d = Val d' e → balance [] (compositor_ d) →
  disp_view d' = disp_view d ∧ fence_view d' = fence_view d ∧ balance [] (compositor_ d')
  ∧ (e ≠ NoResources → ∀ r, r ∈ z_stack test (layers_ d) → ∃ l, ref_layer d' r = Some l ∧ acquire_fence_ l = -1).
Proof.
  intros E Hb. unfold CreateComposition in E. unfold mbind at 1, M_bind at 1, get at 1 in E. cbn beta iota in E.
  destruct (decide (z_stack test (layers_ d) = [])) as [Hnil|Hne].
  { injection E as <- <-. split_and!; [done..|]. rewrite Hnil. by intros _ r ?%elem_of_nil. }
  unfold mbind at 1, M_bind at 1 in E.
  destruct (gather (z_stack test (layers_ d)) [] d) as [d1 res| |] eqn:Eg; [|done..].
  apply (gather_spec _ _ (ref_layer d)) in Eg as (Hv & Hf & Hres); [|apply z_stack_nodup|done|done].
  destruct res as [ls|]; [|by injection E as <- <-]. destruct Hres as (new & -> & Hb1 & _ & Hfen & _).
  rewrite app_nil_l in *. unfold mbind at 1, M_bind at 1 in E.
  destruct (the_crtc d1) as [d2 crtc| |] eqn:Ec; [|done..]. apply the_crtc_spec in Ec as [-> _].
  unfold mbind at 1, M_bind at 1, get at 1 in E. cbn beta iota in E.
  destruct (plan_frame _ _ _ _ _) as [pe|comp] eqn:Ep.
  { unfold mbind at 1, M_bind at 1 in E. destruct (release _ d1) as [d3 []| |] eqn:E3; [|done..]. injection E as <- <-.
    apply (release_spec _ []) in E3 as (? & Hv3 & Hf3 & Hl3 & Hc3); [|done]. split_and!; [congruence..|done|].
    intros _ r Hr. destruct (Hfen r Hr) as (l & Hl & ?). exists l. split; [|done]. unfold ref_layer in *. by rewrite Hl3, Hc3. }
  apply plan_frame_keeps in Ep as [Elay Efen]. cbn in Elay, Efen.
  assert (buffers comp = omap buffer new) as Ebuf by (unfold buffers; by rewrite Elay).
  destruct test.
  - unfold mbind at 1, M_bind at 1 in E. destruct (on_comp (TestComposition comp) d1) as [d3 [comp' ret]| |] eqn:E3; [|done..].
    apply on_comp_spec in E3 as (s & Es & ->). apply commit_frame_spec in Es as ([f ->] & Hfv & _).
    unfold mbind at 1, M_bind at 1 in E. destruct (release _ _) as [d4 []| |] eqn:E4; [|done..]. injection E as <- <-.
    apply (release_spec _ []) in E4 as (? & Hv4 & Hf4 & Hl4 & Hc4).
    2: { change (buffers (set_out_fence f comp)) with (buffers comp). rewrite Ebuf. by eapply same_balance. }
    split_and!; [etrans; done..|done|]. intros _ r Hr. destruct (Hfen r Hr) as (l & Hl & ?). exists l. split; [|done].
    unfold ref_layer in *. by rewrite Hl4, Hc4.
  - unfold AddFenceToRetireFence in E. rewrite decide_True in E by (rewrite Efen; done).
    unfold mbind at 1, M_bind at 1, mret at 1, M_ret in E. unfold mbind at 1, M_bind at 1 in E.
    destruct (on_comp _ d1) as [d3 ret| |] eqn:E3; [|done..]. injection E as <- <-.
    apply on_comp_spec in E3 as (s & Es & ->). apply apply_composition_spec in Es as (Ht & _).
    split_and!; [done..| |done]. eapply takes_balance; [done|]. change (buffers (set_out_fence (-1) comp)) with (buffers comp).
    by rewrite Ebuf.
Qed.
End present.

(** ** Which layers get a plane *)

Section validation.
Lemma device_fold l m z :
  foldl device_step m l !! z
  = match m !! z with
    | Some r => Some r
    | None => (λ p : nat * (Z * HwcLayer), p.2.1) <$> list_find (λ p, sf_type p.2 = CompDevice ∧ i32 (z_order p.2) = z) l
    end.
Proof.
  revert m. induction l as [|p l IH]; intros m; [cbn; by destruct (m !! z)|].
  cbn [foldl]. rewrite IH. unfold device_step at 1. cbn [list_find].
  assert (∀ x : option (nat * (Z * HwcLayer)), (λ p : nat * (Z * HwcLayer), p.2.1) <$> (prod_map S id <$> x) = (λ p, p.2.1) <$> x) as Hs
    by (intros [[]|]; done).
  destruct (decide (sf_type p.2 = CompDevice)) as [Hd|Hd].
  - destruct (m !! i32 (z_order p.2)) as [r0|] eqn:E0.
    + destruct (m !! z) as [r|] eqn:Ez; [done|]. rewrite decide_False by (intros [_ ?]; congruence). by rewrite Hs.
    + destruct (decide (i32 (z_order p.2) = z)) as [<-|Hne].
      * rewrite lookup_insert_eq, E0. by rewrite decide_True.
      * rewrite lookup_insert_ne by done. destruct (m !! z); [done|]. rewrite decide_False by (intros [_ ?]; congruence). by rewrite Hs.
  - destruct (m !! z); [done|]. rewrite decide_False by (by intros [? _]). by rewrite Hs.
Qed.

Lemma device_map_spec layers z id :
  z_ok layers →
  device_map layers !! z = Some id ↔ ∃ l, layers !! id = Some l ∧ sf_type l = CompDevice ∧ i32 (z_order l) = z.
Proof.
  intros Hz. unfold device_map. rewrite device_fold, lookup_empty. split.
  - intros ([n [i l]] & Hf & E)%fmap_Some. cbn in E. subst i. apply list_find_Some in Hf as (Hn & [Hd Hzl] & _).
    exists l. split_and!; [|done..]. apply elem_of_sorted_entries. by eapply list_elem_of_lookup_2.
  - intros (l & Hl & Hd & Hzl).
    destruct (list_find _ (sorted_entries layers)) as [[n [i l']]|] eqn:Ef.
    + cbn. apply list_find_Some in Ef as (Hn & [_ Hzl'] & _). cbn in Hzl'. f_equal.
      apply list_elem_of_lookup_2, elem_of_sorted_entries in Hn. apply (zo_distinct _ Hz _ _ _ _ Hn Hl).
      apply i32_inj_u32; [by eapply zo_range|by eapply zo_range|congruence].
    + apply list_find_None in Ef. assert ((id, l) ∈ sorted_entries layers) as Hin by by apply elem_of_sorted_entries.
      apply List.Forall_forall with (x := (id, l)) in Ef; [|by apply list_elem_of_In]. by destruct Ef.
Qed.

Lemma device_refs_nodup layers : z_ok layers → NoDup (device_refs layers).
Proof.
  intros Hz. unfold device_refs. rewrite reverse_Permutation. apply NoDup_fmap_2_strong.
  2: { unfold sorted_entries. rewrite merge_sort_Permutation. apply NoDup_map_to_list. }
  intros [z1 r] [z2 r'] H1%elem_of_sorted_entries H2%elem_of_sorted_entries E. cbn in E. subst r'. f_equal.
  apply device_map_spec in H1 as (l & Hl & _ & <-); [|done]. apply device_map_spec in H2 as (l' & Hl' & _ & <-); [|done].
  congruence.
Qed.
Lemma elem_of_device_refs layers id :
  z_ok layers → id ∈ device_refs layers ↔ ∃ l, layers !! id = Some l ∧ sf_type l = CompDevice.
Proof.
  intros Hz. unfold device_refs. rewrite elem_of_reverse, list_elem_of_fmap. split.
  - intros ([z r'] & -> & Hin%elem_of_sorted_entries%device_map_spec); [|done]. destruct Hin as (l & ? & ? & ?). by exists l.
  - intros (l & Hl & Ht). exists (i32 (z_order l), id). split; [done|]. apply elem_of_sorted_entries, device_map_spec; eauto.
Qed.
(** The first ones are on top of the others. *)
Lemma device_refs_top layers k id id' l l' :
  z_ok layers → id ∈ take k (device_refs layers) → id' ∈ drop k (device_refs layers) →
  layers !! id = Some l → layers !! id' = Some l' → i32 (z_order l') ≤ i32 (z_order l).
Proof.
  intros Hz. unfold device_refs. rewrite <- fmap_reverse, <- fmap_take, <- fmap_drop.
  intros ([z i] & -> & Hin)%list_elem_of_fmap ([z' i'] & -> & Hin')%list_elem_of_fmap Hl Hl'. cbn in Hl, Hl'.
  set (L := sorted_entries (device_map layers)) in *.
  assert (∀ q, q ∈ reverse L → device_map layers !! q.1 = Some q.2) as HL.
  { intros [a b] Hq%elem_of_reverse%elem_of_sorted_entries. done. }
  assert (device_map layers !! z = Some i ∧ device_map layers !! z' = Some i') as [Hm Hm'].
  { split; [apply (HL (z, i))|apply (HL (z', i'))]; rewrite <- (take_drop k (reverse L)), elem_of_app; auto. }
  apply device_map_spec in Hm as (? & ? & _ & <-); [|done]. apply device_map_spec in Hm' as (? & ? & _ & <-); [|done]. simplify_eq.
  assert (StronglySorted key_le L) as Hs.
  { apply Sorted_StronglySorted; [|apply sorted_entries_sorted]. intros a b c. unfold key_le. lia. }
  assert (L = reverse (drop k (reverse L)) ++ reverse (take k (reverse L))) as E.
  { rewrite <- reverse_app, take_drop. by rewrite reverse_involutive. }
  rewrite E in Hs. apply (StronglySorted_app_1_elem_of _ _ _ (i32 (z_order l'), i') (i32 (z_order l), i)) in Hs; [exact Hs|..];
    by apply elem_of_reverse.
Qed.
End validation.

Section validate.
Context {K : Type} {KE : DrmKernel K} {KH : HwcEnv K} {KB : KernelBlobs K}.
Abbreviation Display := (@HwcDisplay K).

Lemma set_validated_all ids m id :
  foldl (λ m id, set_validated CompDevice id m) m ids !! id
  = (λ l, if decide (id ∈ ids) then set_validated_type CompDevice l else l) <$> m !! id.
Proof.
  revert m. induction ids as [|i ids IH]; intros m; cbn [foldl].
  { destruct (m !! id); cbn; [|done]. by rewrite decide_False by apply not_elem_of_nil. }
  rewrite IH. unfold set_validated. destruct (decide (i = id)) as [->|Hne].
  - rewrite lookup_alter_eq. destruct (m !! id) as [l|]; [|done]. cbn. f_equal.
    rewrite (decide_True (P := id ∈ id :: ids)) by left. by case_decide.
  - rewrite lookup_alter_ne by done. destruct (m !! id) as [l|]; [|done]. cbn. f_equal.
    destruct (decide (id ∈ ids)); [rewrite decide_True by (by right)|rewrite decide_False; [|intros [|]%elem_of_cons]]; done.
Qed.

Lemma finish_validation_spec m :
  (∀ id l, m !! id = Some l → validated_type l = CompInvalid ∨ validated_type l = CompDevice ∧ sf_type l = CompDevice) →
  (∀ id, (finish_validation m).1 !! id
     = (λ l, if decide (validated_type l = CompDevice) then l else set_validated_type CompClient l) <$> m !! id)
  ∧ (finish_validation m).2 = Z.of_nat (size (filter (λ p, validated_type p.2 = CompClient) (finish_validation m).1)).
Proof.
  intros Hm. unfold finish_validation. cbn [fst snd]. split.
  - intros id. rewrite lookup_fmap. destruct (m !! id) as [l|] eqn:El; [|done]. cbn. f_equal.
    destruct (Hm _ _ El) as [Hv|[Hv Hs]]; rewrite Hv; [|by rewrite !decide_True].
    rewrite !decide_False; [done|done|by intros [_ ?]].
  - f_equal. rewrite map_filter_fmap, map_size_fmap. f_equal. apply map_filter_strong_ext_1. intros id l. cbn.
    split; intros [H1 H2]; (split; [|done]).
    + by rewrite decide_False.
    + intros Hk. rewrite decide_True in H1 by done. destruct Hk as [_ Hk]. rewrite Hk in H1. done.
Qed.

Definition plane_count (d : Display) : nat := length (primary_planes d) + length (overlay_planes d).
Definition retyped (chosen : list Z) (id : Z) (c : Z * Z * Z) : Z * Z * Z :=
  (c.1.1, if decide (id ∈ chosen) then CompDevice else CompClient, c.2).

(** What a choice of layers for the planes does; only types and z order count. *)
Record chosen_for (avail : nat) (L ls : gmap Z HwcLayer) (chosen : list Z) : Prop := {
  ch_nodup : NoDup chosen;
  ch_device id : id ∈ chosen → ∃ l, L !! id = Some l ∧ sf_type l = CompDevice;
  ch_types id : layer_core <$> ls !! id = retyped chosen id <$> (layer_core <$> L !! id);
  ch_length : (length chosen ≤ avail)%nat;
  ch_top id id' l l' : id ∈ chosen → (id' ∉ chosen) → L !! id = Some l → L !! id' = Some l' →
    sf_type l' = CompDevice → i32 (z_order l') ≤ i32 (z_order l);
}.

Lemma choose_spec L avail (ok : bool) ls n :
  z_ok L → (∀ id l, L !! id = Some l → validated_type l = CompInvalid) →
  let chosen := if ok then take avail (device_refs L) else [] in
  finish_validation (foldl (λ m id, set_validated CompDevice id m) L chosen) = (ls, n) →
  chosen_for avail L ls chosen ∧ n = Z.of_nat (size (filter (λ p, validated_type p.2 = CompClient) ls)).
Proof.
  intros Hz Hinv chosen E.
  assert (∀ id, id ∈ chosen → ∃ l, L !! id = Some l ∧ sf_type l = CompDevice) as Hdev.
  { intros id Hin. apply elem_of_device_refs; [done|]. unfold chosen in Hin. destruct ok; [|by apply elem_of_nil in Hin].
    by eapply elem_of_take in Hin as (i & ? & _); eapply list_elem_of_lookup_2. }
  set (m := foldl _ L chosen) in E.
  assert (∀ id, m !! id = (λ l, if decide (id ∈ chosen) then set_validated_type CompDevice l else l) <$> L !! id) as Hm
    by apply set_validated_all.
  destruct (finish_validation_spec m) as [Hls Hn].
  { intros id l Hl. rewrite Hm in Hl. apply fmap_Some in Hl as (l0 & Hl0 & ->).
    destruct (decide (id ∈ chosen)) as [Hin|]; [|by left; eapply Hinv]. right. destruct (Hdev id Hin) as (l1 & ? & ?).
    split; [done|]. cbn. congruence. }
  rewrite E in Hls, Hn. cbn [fst snd] in Hls, Hn. split; [|done]. split.
  - unfold chosen. destruct ok; [|constructor]. eapply sublist_NoDup; [by apply device_refs_nodup|]. apply sublist_take.
  - done.
  - intros id. rewrite Hls, Hm. destruct (L !! id) as [l|] eqn:El; [|done]. cbn. unfold retyped. f_equal.
    destruct (decide (id ∈ chosen)); cbn; [done|]. rewrite (Hinv _ _ El). done.
  - unfold chosen. destruct ok; [|cbn; lia]. rewrite length_take. lia.
  - intros id id' l l' Hin Hni Hl Hl' Hd. unfold chosen in *. destruct ok; [|by apply elem_of_nil in Hin].
    eapply device_refs_top; eauto. assert (id' ∈ device_refs L) as Hr by (apply elem_of_device_refs; eauto).
    rewrite <- (take_drop avail (device_refs L)), elem_of_app in Hr. by destruct Hr.
Qed.

(** Layers that differ in nothing that counts. *)
Lemma chosen_for_core avail L0 L ls chosen :
  (∀ id, (λ l, (sf_type l, z_order l)) <$> L0 !! id = (λ l, (sf_type l, z_order l)) <$> L !! id) →
  chosen_for avail L ls chosen → chosen_for avail L0 ls chosen.
Proof.
  intros Hc [H1 H2 H3 H4 H5].
  assert (∀ id l, L0 !! id = Some l → ∃ l', L !! id = Some l' ∧ sf_type l' = sf_type l ∧ z_order l' = z_order l) as Hto.
  { intros id l Hl. specialize (Hc id). rewrite Hl in Hc. destruct (L !! id) as [l'|]; [|done]. cbn in Hc. exists l'. split_and!; congruence. }
  split; [done| | |done|].
  - intros id (l & Hl & Hs)%H2. specialize (Hc id). rewrite Hl in Hc. destruct (L0 !! id) as [l'|]; [|done]. cbn in Hc.
    exists l'. split; [done|]. congruence.
  - intros id. rewrite H3. specialize (Hc id). destruct (L0 !! id) as [l'|], (L !! id) as [l|]; try done.
    cbn in Hc |- *. unfold retyped. cbn. by injection Hc as -> ->.
  - intros id id' l l' Hin Hni (a & Ha & _ & <-)%Hto (b & Hb & <- & <-)%Hto. by apply (H5 id id').
Qed.

Lemma z_ok_core L0 L :
  (∀ id, (λ l, (sf_type l, z_order l)) <$> L0 !! id = (λ l, (sf_type l, z_order l)) <$> L !! id) → z_ok L → z_ok L0.
Proof.
  intros Hc [H1 H2].
  assert (∀ id l, L0 !! id = Some l → ∃ l', L !! id = Some l' ∧ z_order l' = z_order l) as Hto.
  { intros id l Hl. specialize (Hc id). rewrite Hl in Hc. destruct (L !! id) as [l'|]; [|done]. cbn in Hc. exists l'. split_and!; congruence. }
  split.
  - intros i j a b (a' & Ha & Ea)%Hto (b' & Hb & Eb)%Hto Eab. apply (H1 i j a' b'); congruence.
  - intros i a (a' & Ha & <-)%Hto. by apply (H2 i a').
Qed.

(** The layers with a plane are those on top, as many as there are planes for. *)
Lemma validate_spec (d d' : Display) e n :
  ValidateDisplay d = Val d' (e, n) → z_ok (layers_ d) → balance [] (compositor_ d) →
  ∃ chosen, chosen_for (if decide (plane_count d < size (layers_ d))%nat then plane_count d - 1 else plane_count d)
              (layers_ d) (layers_ d') chosen
  ∧ n = Z.of_nat (size (filter (λ p, validated_type p.2 = CompClient) (layers_ d')))
  ∧ (primary_planes d' = primary_planes d ∧ overlay_planes d' = overlay_planes d ∧ fence_view d' = fence_view d)
  ∧ balance [] (compositor_ d').
Proof.
  intros E Hz Hb. unfold ValidateDisplay in E. unfold mbind at 1, M_bind at 1, get at 1 in E. cbn beta iota in E.
  fold (plane_count d) in E. destruct (decide (1 < plane_count d)%nat) as [Hp|Hp].
  2: { unfold update_layers in E. run_m_in E. injection E as <- <- <-. exists []. split_and!; [|..|done|done|done|done].
       - split; [constructor|by intros ? ?%elem_of_nil| |cbn; lia|by intros ? ? ? ? ?%elem_of_nil].
         intros id. cbn [layers_ set_layers]. rewrite lookup_fmap. by destruct (layers_ d !! id).
       - f_equal. cbn [layers_ set_layers]. rewrite map_filter_id, map_size_fmap; [done|].
         intros id l Hl. rewrite lookup_fmap in Hl. by apply fmap_Some in Hl as (? & _ & ->). }
  unfold mbind at 1, M_bind at 1 in E. set (d0 := set_layers (layer_idx d) (set_validated_type CompInvalid <$> layers_ d) d).
  change (update_layers (fmap (set_validated_type CompInvalid)) d) with (Val d0 tt) in E. cbn beta iota in E.
  assert (z_ok (layers_ d0)) as Hz0.
  { apply (z_ok_core _ (layers_ d)); [|done]. intros id. cbn [d0 layers_ set_layers]. rewrite lookup_fmap. by destruct (layers_ d !! id). }
  unfold mbind at 1, M_bind at 1 in E. destruct (CreateComposition true d0) as [d1 ret| |] eqn:Ec; [|done..].
  apply create_composition_spec in Ec as (Hv & Hf & Hb1 & _); [|done].
  unfold mbind at 1, M_bind at 1, get at 1 in E. cbn beta iota in E.
  unfold disp_view in Hv. injection Hv as Est Eprim Eover Econn Ecrtc Eidx Ecore.
  assert (size (layers_ d1) = size (layers_ d)) as Esize.
  { rewrite <- (map_size_fmap layer_core (layers_ d1)), Ecore. cbn [d0 layers_ set_layers]. by rewrite !map_size_fmap. }
  assert (∀ id, layer_core <$> layers_ d1 !! id = (λ c, (c.1.1, CompInvalid, c.2)) <$> (layer_core <$> layers_ d !! id)) as Ecore1.
  { intros id. rewrite <- lookup_fmap, Ecore. cbn [d0 layers_ set_layers]. rewrite <- map_fmap_compose, lookup_fmap.
    by destruct (layers_ d !! id). }
  assert (∀ id, (λ l, (sf_type l, z_order l)) <$> layers_ d1 !! id = (λ l, (sf_type l, z_order l)) <$> layers_ d !! id) as Ecore2.
  { intros id. specialize (Ecore1 id). destruct (layers_ d1 !! id), (layers_ d !! id); try done. cbn in *. by injection Ecore1 as -> _ ->. }
  set (avail := if decide (plane_count d < size (layers_ d1))%nat then (plane_count d - 1)%nat else plane_count d) in E.
  replace (if decide (ret = ENone) then take avail (device_refs (layers_ d1)) else []) with
    (if bool_decide (ret = ENone) then take avail (device_refs (layers_ d1)) else []) in E by (by repeat case_decide).
  destruct (finish_validation _) as [ls k] eqn:Efin. apply choose_spec in Efin as [Hch Hn].
  - injection E as <- <- <-. eexists. split_and!; [|exact Hn|done..]. cbn [layers_ set_layers]. rewrite <- Esize.
    eapply chosen_for_core; [|exact Hch]. done.
  - by apply (z_ok_core _ (layers_ d)).
  - intros id l Hl. specialize (Ecore1 id). rewrite Hl in Ecore1. destruct (layers_ d !! id); [|done]. cbn in Ecore1. by injection Ecore1.
Qed.

Lemma chosen_layers avail L ls chosen :
  chosen_for avail L ls chosen →
  (∀ id l', ls !! id = Some l' → ∃ l, L !! id = Some l ∧ sf_type l' = sf_type l ∧ z_order l' = z_order l
     ∧ validated_type l' = if decide (id ∈ chosen) then CompDevice else CompClient)
  ∧ (∀ id l, L !! id = Some l → is_Some (ls !! id)) ∧ (z_ok L → z_ok ls).
Proof.
  intros [_ _ Ht _ _].
  assert (∀ id l', ls !! id = Some l' → ∃ l, L !! id = Some l ∧ sf_type l' = sf_type l ∧ z_order l' = z_order l
     ∧ validated_type l' = if decide (id ∈ chosen) then CompDevice else CompClient) as Hfrom.
  { intros id l' Hl. specialize (Ht id). rewrite Hl in Ht. destruct (L !! id) as [l|]; [|done]. cbn in Ht. exists l.
    by injection Ht as -> -> ->. }
  split_and!; [done| |].
  - intros id l Hl. specialize (Ht id). rewrite Hl in Ht. by destruct (ls !! id).
  - apply z_ok_core. intros id. specialize (Ht id). destruct (ls !! id), (L !! id); try done. cbn in *. by injection Ht as -> _ ->.
Qed.

(** A stack takes one plane per chosen layer, and one for the client's layers if there are any. *)
Lemma chosen_stack avail L ls chosen :
  chosen_for avail L ls chosen → z_ok L →
  (length (z_stack false ls) ≤ length chosen + if decide (OfClient ∈ z_stack false ls) then 1 else 0)%nat
  ∧ (OfClient ∈ z_stack false ls → (length chosen < size L)%nat).
Proof.
  intros Hc Hz. destruct (chosen_layers _ _ _ _ Hc) as (Hfrom & Hto & Hz'). specialize (Hz' Hz). split.
  - assert (z_stack false ls ⊆+ (OfLayer <$> chosen) ++ if decide (OfClient ∈ z_stack false ls) then [OfClient] else []) as Hsub.
    { apply NoDup_submseteq; [apply z_stack_nodup|]. intros r Hr. apply elem_of_app. destruct r as [id|].
      - left. apply elem_of_z_stack in Hr as (l & Hl & Hv); [|done]. apply list_elem_of_fmap. exists id. split; [done|].
        destruct (Hfrom id l Hl) as (_ & _ & _ & _ & Ev). cbn in Hv. rewrite Hv in Ev. by case_decide.
      - right. rewrite decide_True by done. by left. }
    apply submseteq_length in Hsub. rewrite length_app, length_fmap in Hsub. by case_decide.
  - intros Hr. apply elem_of_z_stack in Hr as (z & (id & l & Hl & Hv & _) & _); [|done]. cbn in Hv.
    destruct (Hfrom id l Hl) as (l0 & Hl0 & _ & _ & Ev). rewrite Hv in Ev.
    assert (id ∉ chosen) as Hni by (intros Hin; by rewrite decide_True in Ev).
    assert (id :: chosen ⊆+ elements (dom L)) as Hsub.
    { apply NoDup_submseteq; [constructor; [done|by apply Hc]|]. intros i Hi. apply elem_of_elements, elem_of_dom.
      apply elem_of_cons in Hi as [->|Hi]; [eauto|]. destruct (ch_device _ _ _ _ Hc i Hi) as (? & ? & _). eauto. }
    apply submseteq_length in Hsub. cbn in Hsub. change (length (elements (dom L))) with (size (dom L)) in Hsub.
    rewrite size_dom in Hsub. lia.
Qed.

Lemma validate_length (d d' : Display) e n :
  ValidateDisplay d = Val d' (e, n) → z_ok (layers_ d) → balance [] (compositor_ d) → (1 ≤ plane_count d)%nat →
  (length (z_stack false (layers_ d')) ≤ plane_count d')%nat.
Proof.
  intros E Hz Hb Hp. apply validate_spec in E as (chosen & Hc & _ & (Ep & Eo & _) & _); [|done..].
  destruct (chosen_stack _ _ _ _ Hc Hz) as [Hlen Hcl]. pose proof (ch_length _ _ _ _ Hc) as Hcn.
  assert (plane_count d' = plane_count d) as -> by (unfold plane_count; congruence).
  destruct (decide (OfClient ∈ z_stack false (layers_ d'))) as [Hin|]; [specialize (Hcl Hin)|]; case_decide; lia.
Qed.

(** validation gives every layer a plane or leaves it to the client, never a plane to a
    layer that did not ask for one; and the frame it leads to - the layers with planes, each
    once, and the client's target if some layer is left to the client - fits the planes of
    the display. *)
Theorem hwc_validate_fits (d d' : Display) e n :
  ValidateDisplay d = Val d' (e, n) → z_ok (layers_ d) → balance [] (compositor_ d) → (1 ≤ plane_count d)%nat →
  let stack := z_stack false (layers_ d') in
  (length stack ≤ plane_count d')%nat ∧ NoDup stack
  ∧ (∀ id, OfLayer id ∈ stack ↔ ∃ l, layers_ d' !! id = Some l ∧ validated_type l = CompDevice)
  ∧ (OfClient ∈ stack ↔ ∃ id l, layers_ d' !! id = Some l ∧ validated_type l = CompClient)
  ∧ (∀ id l', layers_ d' !! id = Some l' → ∃ l, layers_ d !! id = Some l ∧ sf_type l' = sf_type l ∧ z_order l' = z_order l
       ∧ (validated_type l' = CompDevice ∧ sf_type l = CompDevice ∨ validated_type l' = CompClient))
  ∧ (∀ id l, layers_ d !! id = Some l → is_Some (layers_ d' !! id)).
Proof.
  intros E Hz Hb Hp stack. pose proof (validate_length d d' e n E Hz Hb Hp) as Hlen.
  apply validate_spec in E as (chosen & Hc & _); [|done..].
  destruct (chosen_layers _ _ _ _ Hc) as (Hfrom & Hto & Hz'). specialize (Hz' Hz). split_and!.
  - exact Hlen.
  - apply z_stack_nodup.
  - intros id. by apply (elem_of_z_stack false (layers_ d') (OfLayer id)).
  - unfold stack. rewrite (elem_of_z_stack false (layers_ d') OfClient) by done. split.
    + intros (z & (id & l & ? & ? & _) & _). by exists id, l.
    + intros (id & l & Hl & Hv). by apply (lowest_exists _ _ id l).
  - intros id l' Hl'. destruct (Hfrom id l' Hl') as (l & Hl & Es & Ez & Ev). exists l. split_and!; [done..|].
    case_decide as Hin; [left|by right]. destruct (ch_device _ _ _ _ Hc id Hin) as (l1 & Hl1 & ?). split; [done|congruence].
  - done.
Qed.

(** ** The order on the screen *)

(** The layers that are drawn by an element of the stack. *)
Definition contents (layers : gmap Z HwcLayer) (r : zref) (id : Z) : Prop :=
  match r with
  | OfLayer i => id = i
  | OfClient => ∃ l, layers !! id = Some l ∧ validated_type l = CompClient
  end.

Lemma z_stack_sorted test layers i j r r' :
  z_stack test layers !! i = Some r → z_stack test layers !! j = Some r' → (i < j)%nat →
  ∃ z z', z_map test layers !! z = Some r ∧ z_map test layers !! z' = Some r' ∧ z < z'.
Proof.
  unfold z_stack. rewrite !list_lookup_fmap. intros ([z a] & Hi & ->)%fmap_Some ([z' a'] & Hj & ->)%fmap_Some Hij.
  exists z, z'. split_and!; [by apply elem_of_sorted_entries; eapply list_elem_of_lookup_2..|].
  assert (StronglySorted key_le (sorted_entries (z_map test layers))) as Hs.
  { apply Sorted_StronglySorted; [|apply sorted_entries_sorted]. intros x y w. unfold key_le. lia. }
  pose proof (take_drop (S i) (sorted_entries (z_map test layers))) as Et. rewrite <- Et in Hs.
  apply (StronglySorted_app_1_elem_of _ _ _ (z, a) (z', a')) in Hs.
  - unfold key_le in Hs. cbn in Hs. destruct (decide (z = z')) as [<-|]; [|lia]. exfalso.
    assert (NoDup (sorted_entries (z_map test layers)).*1) as Hnd.
    { unfold sorted_entries. rewrite merge_sort_Permutation. apply NoDup_fst_map_to_list. }
    assert (i = j); [|lia]. apply (NoDup_lookup _ _ _ z Hnd); by rewrite list_lookup_fmap, ?Hi, ?Hj.
  - apply (list_elem_of_lookup_2 _ i). by rewrite lookup_take_lt by lia.
  - apply (list_elem_of_lookup_2 _ (j - S i)). rewrite lookup_drop, <- Hj. f_equal. lia.
Qed.

(** The place of an element: the z order of its layer; the client's is that of the lowest of
    the layers left to it. *)
Definition place (layers : gmap Z HwcLayer) (r : zref) (z : Z) : Prop :=
  match r with
  | OfLayer id => ∃ l, layers !! id = Some l ∧ z_order l = z
  | OfClient =>
      (∃ id l, layers !! id = Some l ∧ validated_type l = CompClient ∧ z_order l = z)
      ∧ ∀ id l, layers !! id = Some l → validated_type l = CompClient → z ≤ z_order l
  end.

(** What a stack of validated layers is: each layer that got a plane, once, and the client's
    target if a layer was left to it, from the bottom to the top in z order. *)
Record stack_of (layers : gmap Z HwcLayer) (stack : list zref) : Prop := {
  sk_once : NoDup stack;
  sk_layers id : OfLayer id ∈ stack ↔ ∃ l, layers !! id = Some l ∧ validated_type l = CompDevice;
  sk_client : OfClient ∈ stack ↔ ∃ id l, layers !! id = Some l ∧ validated_type l = CompClient;
  sk_order i j r r' z z' : stack !! i = Some r → stack !! j = Some r' → (i < j)%nat →
    place layers r z → place layers r' z' → z < z';
}.

Lemma z_map_place layers z0 z r : z_ok layers → z_map false layers !! z0 = Some r → place layers r z → z0 = z.
Proof.
  intros Hz Hm Hp. apply z_map_spec in Hm; [|done]. destruct r as [id|]; cbn in Hm, Hp.
  - destruct Hm as (l & Hl & _ & <-), Hp as (l' & Hl' & <-). congruence.
  - destruct Hm as [(i & l & Hl & Hv & <-) Hmin], Hp as [(i' & l' & Hl' & Hv' & <-) Hmin'].
    specialize (Hmin i' l' Hl' Hv'). specialize (Hmin' i l Hl Hv). lia.
Qed.

Lemma z_stack_of layers : z_ok layers → stack_of layers (z_stack false layers).
Proof.
  intros Hz. split.
  - apply z_stack_nodup.
  - intros id. by apply (elem_of_z_stack false layers (OfLayer id)).
  - rewrite (elem_of_z_stack false layers OfClient) by done. split.
    + intros (z & (id & l & ? & ? & _) & _). by exists id, l.
    + intros (id & l & Hl & Hv). by apply (lowest_exists _ _ id l).
  - intros i j r r' z z' Hi Hj Hij Hr Hr'. destruct (z_stack_sorted _ _ _ _ _ _ Hi Hj Hij) as (z0 & z0' & Hm & Hm' & Hlt).
    rewrite <- (z_map_place _ _ _ _ Hz Hm Hr), <- (z_map_place _ _ _ _ Hz Hm' Hr'). exact Hlt.
Qed.

(** when all layers ask for planes, what is drawn further down in the stack of a validated
    frame lies below everything that is drawn further up, the layers left to the client
    included: the screen shows the layers in their z order. *)
Theorem hwc_stack_order (d d' : Display) e n i j r r' id id' l l' :
  ValidateDisplay d = Val d' (e, n) → z_ok (layers_ d) → balance [] (compositor_ d) →
  (∀ id l, layers_ d !! id = Some l → sf_type l = CompDevice ∧ z_order l < 2147483648) →
  let stack := z_stack false (layers_ d') in
  stack !! i = Some r → stack !! j = Some r' → (i < j)%nat →
  contents (layers_ d') r id → contents (layers_ d') r' id' →
  layers_ d' !! id = Some l → layers_ d' !! id' = Some l' → z_order l < z_order l'.
Proof.
  intros E Hz Hb Hall stack Hi Hj Hij Hr Hr' Hl Hl'. apply validate_spec in E as (chosen & Hc & _ & _ & _); [|done..].
  destruct (chosen_layers _ _ _ _ Hc) as (Hfrom & _ & Hz'). specialize (Hz' Hz).
  assert (∀ a b la lb, layers_ d' !! a = Some la → layers_ d' !! b = Some lb → validated_type la = CompClient →
            validated_type lb = CompDevice → z_order la < z_order lb) as Hbelow.
  { intros a b la lb Ha Hlb Hva Hvb. destruct (Hfrom a la Ha) as (la0 & Ha0 & _ & Eza & Eva).
    destruct (Hfrom b lb Hlb) as (lb0 & Hb0 & _ & Ezb & Evb). rewrite Hva in Eva. rewrite Hvb in Evb.
    destruct (Hall _ _ Ha0) as [Hsa Hra], (Hall _ _ Hb0) as [_ Hrb].
    pose proof (zo_range _ Hz _ _ Ha0) as Ra. pose proof (zo_range _ Hz _ _ Hb0) as Rb. unfold is_u32 in *.
    assert (i32 (z_order la0) ≤ i32 (z_order lb0)) as Hle.
    { apply (ch_top _ _ _ _ Hc b a lb0 la0); [by destruct (decide (b ∈ chosen))|destruct (decide (a ∈ chosen)); [discriminate Eva|done]|done..]. }
    rewrite !i32_small in Hle by (unfold is_i32; lia). rewrite Eza, Ezb.
    destruct (decide (z_order la0 = z_order lb0)) as [Eq|]; [|lia].
    assert (a = b) as -> by by apply (zo_distinct _ Hz a b la0 lb0). assert (la = lb) as -> by congruence. by rewrite Hva in Hvb. }
  destruct (z_stack_sorted _ _ _ _ _ _ Hi Hj Hij) as (z & z' & Hm & Hm' & Hlt).
  apply z_map_spec in Hm; [|done]. apply z_map_spec in Hm'; [|done].
  destruct r as [x|], r' as [x'|]; cbn in Hr, Hr'.
  - subst. destruct Hm as (a & Ha & _ & <-), Hm' as (b & Hb' & _ & <-). by simplify_eq.
  - subst. destruct Hm as (a & Ha & Hva & <-), Hm' as [(c & lc & Hlc & Hvc & <-) _]. cbn in Hva, Hvc.
    pose proof (Hbelow _ _ _ _ Hlc Ha Hvc Hva). lia.
  - subst. destruct Hm' as (b & Hb' & Hvb & <-), Hr as (l0 & Hl0 & Hv0). cbn in Hvb. assert (l0 = l) as -> by congruence.
    assert (b = l') as -> by congruence. by apply (Hbelow id x').
  - destruct Hm as [(c & lc & Hlc & Hvc & <-) Hmin], Hm' as [_ Hmin']. pose proof (Hmin' _ _ Hlc Hvc). lia.
Qed.
End validate.

(** ** The pipeline stays *)

Section pipeline.
Context {K : Type} {KE : DrmKernel K} {KH : HwcEnv K} {KB : KernelBlobs K}.
Abbreviation Display := (@HwcDisplay K).

Definition comp_view (d : Display) := (dev (compositor_ d), display (compositor_ d), frames_composited (compositor_ d)).
Lemma import_comp x (d d' : Display) r : ImportBuffer x d = Val d' r → comp_view d' = comp_view d.
Proof.
  unfold ImportBuffer, release, on_comp, with_kern. run_m. intros E. repeat (case_match; simplify_eq); done.
Qed.
Lemma gather_comp refs acc (d d' : Display) res : gather refs acc d = Val d' res → comp_view d' = comp_view d.
Proof.
  revert acc d. induction refs as [|r refs IH]; intros acc d E; cbn [gather] in E; [by injection E as <- _|].
  unfold mbind at 1, M_bind at 1 in E. destruct (get_ref r d) as [d0 l| |] eqn:Eg; [|done..].
  apply get_ref_spec in Eg as [-> _]. destruct (PopulateDrmLayer l) as [[l' y]|]; [|done].
  unfold mbind at 1, M_bind at 1 in E. destruct (put_ref r l' d) as [d1 u| |] eqn:E1; [|done..].
  assert (comp_view d1 = comp_view d) as Hv1.
  { unfold put_ref, update_layers in E1. run_m_in E1. destruct r; by injection E1 as <- _. }
  unfold mbind at 1, M_bind at 1 in E. destruct (ImportBuffer y d1) as [d2 r2| |] eqn:E2; [|done..].
  apply import_comp in E2. destruct r2 as [e|x].
  - unfold release, on_comp in E. run_m_in E. injection E as <- _. rewrite <- Hv1, <- E2. done.
  - apply IH in E. congruence.
Qed.

Lemma create_pipe test (d d' : Display) e :
  CreateComposition test d = Val d' e → pipe_view (compositor_ d') = pipe_view (compositor_ d).
Proof.
  intros E. unfold CreateComposition in E. unfold mbind at 1, M_bind at 1, get at 1 in E. cbn beta iota in E.
  destruct (decide (z_stack test (layers_ d) = [])); [by injection E as <- <-|].
  unfold mbind at 1, M_bind at 1 in E. destruct (gather _ [] d) as [d1 res| |] eqn:Eg; [|done..].
  apply gather_comp in Eg. assert (pipe_view (compositor_ d1) = pipe_view (compositor_ d)) as Hp.
  { unfold comp_view in Eg. unfold pipe_view. by injection Eg as -> -> _. }
  destruct res as [ls|]; [|by injection E as <- <-]. unfold mbind at 1, M_bind at 1 in E.
  destruct (the_crtc d1) as [d2 crtc| |] eqn:Ec; [|done..]. apply the_crtc_spec in Ec as [-> _].
  unfold mbind at 1, M_bind at 1, get at 1 in E. cbn beta iota in E.
  destruct (plan_frame _ _ _ _ _) as [pe|comp] eqn:Ep; [unfold release, on_comp in E; run_m_in E; by injection E as <- _|].
  apply plan_frame_keeps in Ep as [_ Efen]. cbn in Efen. destruct test.
  - unfold mbind at 1, M_bind at 1 in E. destruct (on_comp (TestComposition comp) d1) as [d3 [c' ret]| |] eqn:E3; [|done..].
    apply on_comp_spec in E3 as (s & Es & ->). apply kp_commit_frame in Es. unfold release, on_comp in E. run_m_in E.
    injection E as <- _. cbn. by rewrite <- Hp, <- Es.
  - unfold AddFenceToRetireFence in E. rewrite decide_True in E by (rewrite Efen; done).
    unfold mbind at 1, M_bind at 1, mret at 1, M_ret in E. unfold mbind at 1, M_bind at 1 in E.
    destruct (on_comp _ d1) as [d3 ret| |] eqn:E3; [|done..]. injection E as <- <-.
    apply on_comp_spec in E3 as (s & Es & ->). apply kp_apply in Es. cbn. by rewrite <- Hp, <- Es.
Qed.
End pipeline.

(** ** A display's life *)

Section calls.
Context {K : Type} {KE : DrmKernel K} {KH : HwcEnv K} {KB : KernelBlobs K}.
Abbreviation Display := (@HwcDisplay K).

(** The calls of SurfaceFlinger that change a display. *)
Inductive hwc_call : Type :=
  | CCreateLayer | CDestroyLayer (id : Z)
  | CSetBuffer (id handle fence : Z) | CSetType (id t : Z) | CSetZOrder (id z : Z)
  | CSetFrame (id : Z) (r : rect) | CSetCrop (id : Z) (r : frect) | CSetAlpha (id : Z) (a : spec_float)
  | CSetBlend (id m : Z) | CSetTransform (id t : Z) | CSetDataspace (id d : Z) | CSetCursor (id x y : Z)
  | CSetTarget (handle fence dataspace : Z)
  | CValidate | CAccept | CPresent | CReleaseFences (n : option Z)
  | CGetConfigs (n : option Z) | CSetConfig (config : Z) | CSetPower (mode : Z) | CSetColorMode (mode : Z) | CSetVsync (on : Z)
  | CHotplug | CClear.
(** A call, with the retire fence if it hands one out. *)
Definition do_call (c : hwc_call) : M Display (option Z) :=
  let quietly {A} (m : M Display A) : M Display (option Z) := m;; mret None in
  match c with
  | CCreateLayer => quietly CreateLayer
  | CDestroyLayer id => quietly (DestroyLayer id)
  | CSetBuffer id handle fence => quietly (layer_hook id (SetLayerBuffer handle fence))
  | CSetType id t => quietly (set_layer id (SetLayerCompositionType t))
  | CSetZOrder id z => quietly (set_layer id (SetLayerZOrder z))
  | CSetFrame id r => quietly (set_layer id (SetLayerDisplayFrame r))
  | CSetCrop id r => quietly (set_layer id (SetLayerSourceCrop r))
  | CSetAlpha id a => quietly (set_layer id (SetLayerPlaneAlpha a))
  | CSetBlend id m => quietly (set_layer id (SetLayerBlendMode m))
  | CSetTransform id t => quietly (set_layer id (SetLayerTransform t))
  | CSetDataspace id v => quietly (set_layer id (SetLayerDataspace v))
  | CSetCursor id x y => quietly (set_layer id (SetCursorPosition x y))
  | CSetTarget handle fence ds => quietly (SetClientTarget handle fence ds)
  | CValidate => quietly ValidateDisplay
  | CAccept => quietly AcceptDisplayChanges
  | CPresent => r ← PresentDisplay; mret r.2
  | CReleaseFences n => quietly (GetReleaseFences n)
  | CGetConfigs n => quietly (GetDisplayConfigs n)
  | CSetConfig c => quietly (SetActiveConfig c)
  | CSetPower m => quietly (SetPowerMode m)
  | CSetColorMode m => quietly (SetColorMode m)
  | CSetVsync v => quietly (SetVsyncEnabled v)
  | CHotplug => quietly ChosePrefferedConfig
  | CClear => quietly (on_comp ClearDisplay)
  end.
Fixpoint do_calls (cs : list hwc_call) : M Display (list Z) :=
  match cs with
  | [] => mret []
  | c :: cs' => f ← do_call c; fs ← do_calls cs'; mret (option_list f ++ fs)
  end.

(** What drawing depends on and no call changes. *)
Definition pipe_state (d : Display) := (pipe_view (compositor_ d), stages d, primary_planes d, overlay_planes d, crtc_ d).
(** Framebuffers are accounted for, there is no retire fence, and the pipeline is [v]. *)
Context (v : list DrmCrtc * Z * list PlanStage * list DrmPlane * list DrmPlane * option nat).
Definition display_ok (d : Display) : Prop := balance [] (compositor_ d) ∧ fence_view d = (-1, -1) ∧ pipe_state d = v.
Definition preserves {A} (m : M Display A) : Prop := ∀ d d' a, m d = Val d' a → display_ok d → display_ok d'.

Lemma pres_ret {A} (a : A) : preserves (mret a).
Proof. by intros d d' x [= <- <-]. Qed.
Lemma pres_undefined {A} : preserves (undefined : M Display A).
Proof. by intros d d' x. Qed.
Lemma pres_throw {A} e : preserves (throw e : M Display A).
Proof. by intros d d' x. Qed.
Lemma pres_bind {A B} (m : M Display A) (k : A → M Display B) : preserves m → (∀ a, preserves (k a)) → preserves (m ≫= k).
Proof.
  intros Hm Hk d d' b. unfold mbind, M_bind. destruct (m d) as [d1 a| |] eqn:E; [|done..]. intros E2 Hok.
  eapply Hk; eauto.
Qed.
Lemma pres_get : preserves get.
Proof. by intros d d' x [= <- <-]. Qed.
(** Nothing but layers, planes and the like changes. *)
Lemma pres_modify (f : Display → Display) :
  (∀ d, frame_view (compositor_ (f d)) = frame_view (compositor_ d) ∧ fence_view (f d) = fence_view d ∧ pipe_state (f d) = pipe_state d) →
  preserves (modify f).
Proof.
  intros Hf d d' x [= <- <-] (Hb & Hfe & Hp). destruct (Hf d) as (H1 & H2 & H3). split_and!; [by eapply same_balance|congruence..].
Qed.
Lemma pres_with_kern {A} (f : K → K * A) : preserves (with_kern f).
Proof. intros d d' a (k & ->)%with_kern_spec Hok. exact Hok. Qed.
Lemma pres_set_connector i c n : preserves (set_connector i c n : M Display unit).
Proof. by apply pres_modify. Qed.
Lemma pres_update f : preserves (update_layers f : M Display unit).
Proof. by apply pres_modify. Qed.
(** A composition without layers, or with layers that are in hand. *)
Lemma pres_apply comp : buffers comp = [] → preserves (on_comp (ApplyComposition comp)).
Proof.
  intros Hc d d' r (s & Es & ->)%on_comp_spec (Hb & Hf & Hp). split_and!; [|done|].
  - apply apply_composition_spec in Es as (Ht & _). eapply takes_balance; [exact Ht|]. by rewrite Hc.
  - rewrite <- Hp. unfold pipe_state. cbn. apply kp_apply in Es. by rewrite Es.
Qed.
Lemma pres_clear : preserves (on_comp ClearDisplay).
Proof.
  intros d d' [] (s & Es & ->)%on_comp_spec (Hb & Hf & Hp). split_and!; [|done|].
  - apply clear_display_spec in Es as (_ & _ & Ht & _). by eapply takes_balance.
  - rewrite <- Hp. unfold pipe_state. cbn. apply kp_clear in Es. by rewrite Es.
Qed.
Lemma pres_create test : preserves (CreateComposition test).
Proof.
  intros d d' e E (Hb & Hf & Hp). pose proof (create_pipe _ _ _ _ E) as Hpv.
  apply create_composition_spec in E as (Hv & Hf' & Hb' & _); [|done]. split_and!; [done|congruence|].
  unfold disp_view in Hv. injection Hv as H1 H2 H3 _ H4 _ _. rewrite <- Hp. unfold pipe_state. congruence.
Qed.

#[local] Create HintDb pres.
#[local] Hint Resolve pres_ret pres_undefined pres_throw pres_get pres_with_kern pres_set_connector pres_update
  pres_apply pres_clear pres_create : pres.
(** Walk through an operation. *)
Ltac pres_step :=
  lazymatch goal with
  | |- preserves (_ ≫= _) => apply pres_bind; [|intros]
  | |- preserves (match ?x with _ => _ end) => destruct x
  | |- preserves (modify _) => apply pres_modify; by intros
  | |- preserves (let _ := _ in _) => cbv zeta
  | _ => first [solve [auto with pres] | by apply pres_apply]
  end.
Ltac pres := repeat pres_step.

Lemma pres_layer_hook {A} id (f : HwcLayer → M Display (HwcLayer * A)) : (∀ l, preserves (f l)) → preserves (layer_hook id f).
Proof. intros Hf. unfold layer_hook. pres. Qed.
Lemma pres_set_layer id f : preserves (set_layer id f : M Display Error).
Proof. apply pres_layer_hook. intros l. pres. Qed.
Lemma pres_the_connector : preserves (the_connector : M Display _).
Proof. unfold the_connector. pres. Qed.
#[local] Hint Resolve pres_set_layer pres_the_connector : pres.
Lemma pres_configs n : preserves (GetDisplayConfigs n : M Display _).
Proof. unfold GetDisplayConfigs. pres. Qed.
Lemma pres_set_config c : preserves (SetActiveConfig c : M Display _).
Proof. unfold SetActiveConfig. pres. Qed.
#[local] Hint Resolve pres_configs pres_set_config : pres.

Lemma validate_balance : preserves (ValidateDisplay : M Display _).
Proof.
  unfold ValidateDisplay, update_layers. intros d d' a E Hok. run_m_in E.
  destruct (decide (1 < length (primary_planes d) + length (overlay_planes d))%nat); [|by injection E as <- <-].
  destruct (CreateComposition true _) as [d1 ret| |] eqn:Ec; [|done..]. apply pres_create in Ec. specialize (Ec Hok).
  destruct (finish_validation _) as [ls n]. by injection E as <- <-.
Qed.
Lemma present_fence (d d' : Display) e f :
  PresentDisplay d = Val d' (e, f) → display_ok d → display_ok d' ∧ (f = None ∨ f = Some (-1)).
Proof.
  unfold PresentDisplay. run_m. destruct (CreateComposition false d) as [d1 ret| |] eqn:Ec; [|done..].
  intros E Hok. apply pres_create in Ec. destruct (Ec Hok) as (Hb & Hf & Hp). destruct (decide (ret = BadLayer)); [injection E as <- <- <-; by auto|].
  case_decide; [injection E as <- <- <-; by auto|]. injection E as <- <- <-. unfold fence_view in Hf. injection Hf as -> Hn.
  split; [|by right]. split_and!; [done| |done]. unfold fence_view. cbn [retire_fence next_retire_fence set_fences]. congruence.
Qed.
#[local] Hint Resolve validate_balance : pres.

Lemma pres_create_layer : preserves (CreateLayer : M Display _).
Proof. unfold CreateLayer. intros d d' a E Hok. run_m_in E. by injection E as <- <-. Qed.
Lemma pres_set_buffer handle fence l : preserves (SetLayerBuffer handle fence l : M Display _).
Proof. unfold SetLayerBuffer, dup. pres. Qed.
Lemma pres_hotplug : preserves (ChosePrefferedConfig : M Display _).
Proof. unfold ChosePrefferedConfig. pres. Qed.
#[local] Hint Resolve pres_create_layer pres_set_buffer pres_hotplug : pres.

Lemma do_call_ok c (d d' : Display) f :
  do_call c d = Val d' f → display_ok d → display_ok d' ∧ (f = None ∨ f = Some (-1)).
Proof.
  assert (∀ A (m : M Display A), preserves m → (m;; mret None) d = Val d' f → display_ok d → display_ok d' ∧ (f = None ∨ f = Some (-1))) as Hq.
  { intros A m Hm E Hok. unfold mbind, M_bind in E. destruct (m d) as [d1 a| |] eqn:Em; [|done..]. injection E as <- <-.
    split; [by eapply Hm|by left]. }
  destruct c; cbn [do_call]; try (apply Hq; solve [auto with pres]).
  - apply Hq. unfold DestroyLayer. pres.
  - apply Hq. apply pres_layer_hook. auto with pres.
  - apply Hq. unfold SetClientTarget, dup. pres.
  - apply Hq. unfold AcceptDisplayChanges. pres.
  - unfold mbind, M_bind. destruct (PresentDisplay d) as [d1 [e f1]| |] eqn:E; [|done..]. intros [= <- <-]. by eapply present_fence.
  - apply Hq. unfold GetReleaseFences. pres.
  - apply Hq. unfold SetPowerMode. pres.
  - apply Hq. unfold SetColorMode. pres.
  - apply Hq. unfold SetVsyncEnabled. pres.
Qed.

Lemma do_calls_ok cs (d d' : Display) fs : do_calls cs d = Val d' fs → display_ok d → display_ok d' ∧ Forall (λ f, f = -1) fs.
Proof.
  revert d fs. induction cs as [|c cs IH]; intros d fs E Hok; cbn in E; [by injection E as <- <-|].
  run_m_in E. destruct (do_call c d) as [d1 f| |] eqn:E1; [|done..].
  destruct (do_calls cs d1) as [d2 fs2| |] eqn:E2; [|done..]. injection E as <- <-.
  apply do_call_ok in E1 as [Hok1 Hf]; [|done]. destruct (IH d1 fs2 E2 Hok1) as [Hok2 Hfs]. split; [done|].
  destruct Hf as [->| ->]; cbn; [done|by constructor].
Qed.

(** C20: whatever SurfaceFlinger calls on a display, in any order, every framebuffer that was
    imported is either released, exactly once, or shown by the active composition. *)
Theorem hwc_buffers_balanced cs (d d' : Display) fs :
  do_calls cs d = Val d' fs → display_ok d →
  imported (events (compositor_ d')) ≡ₚ released (events (compositor_ d')) ++ active_buffers (compositor_ d').
Proof.
  intros E Hok. destruct (do_calls_ok _ _ _ _ E Hok) as [[Hb _] _]. unfold balance in Hb. by rewrite app_nil_r in Hb.
Qed.

(** no call ever hands out a retire fence: the out fence of a composition is taken before
    the frame is committed, when there is none yet. *)
Theorem hwc_no_retire_fence cs (d d' : Display) fs :
  do_calls cs d = Val d' fs → display_ok d → Forall (λ f, f = -1) fs.
Proof. intros E Hok. by destruct (do_calls_ok _ _ _ _ E Hok). Qed.

(** validating a frame takes the acquire fences of its layers with it: when the frame is
    presented, no layer that asked for a plane has one, whatever SurfaceFlinger had passed. *)
Theorem hwc_fences_taken (d d' : Display) e n id l0 l :
  ValidateDisplay d = Val d' (e, n) → balance [] (compositor_ d) → (1 < plane_count d)%nat → z_ok (layers_ d) →
  (∀ d0, CreateComposition true (set_layers (layer_idx d) (set_validated_type CompInvalid <$> layers_ d) d) ≠ Val d0 NoResources) →
  layers_ d !! id = Some l0 → sf_type l0 = CompDevice → layers_ d' !! id = Some l → acquire_fence_ l = -1.
Proof.
  unfold ValidateDisplay, update_layers. intros E Hb Hp Hz Hres Hl0 Hs Hl. run_m_in E. fold (plane_count d) in E.
  rewrite (decide_True (P := (1 < plane_count d)%nat)) in E by done. set (d0 := set_layers _ _ d) in *.
  destruct (CreateComposition true d0) as [d1 ret| |] eqn:Ec; [|done..].
  assert (ret ≠ NoResources) as Hne by (intros ->; by destruct (Hres d1)).
  apply create_composition_spec in Ec as (_ & _ & _ & Hf); [|done].
  destruct (Hf Hne (OfLayer id)) as (l1 & Hl1 & Ha).
  { apply elem_of_z_stack.
    - apply (z_ok_core _ (layers_ d)); [|done]. intros i. cbn [d0 layers_ set_layers]. rewrite lookup_fmap. by destruct (layers_ d !! i).
    - exists (set_validated_type CompInvalid l0). cbn [d0 layers_ set_layers]. by rewrite lookup_fmap, Hl0. }
  cbn in Hl1. destruct (finish_validation _) as [ls k] eqn:Efin. injection E as <- <- <-. cbn in Hl.
  unfold finish_validation in Efin. injection Efin as <- _. rewrite lookup_fmap, set_validated_all, Hl1 in Hl. cbn in Hl.
  injection Hl as <-. repeat case_decide; done.
Qed.
End calls.

(** ** What is on the screen *)

Section shown.
Context {K : Type} {KE : DrmKernel K} {KH : HwcEnv K} {KB : KernelBlobs K}.
Abbreviation Display := (@HwcDisplay K).

(** The pipeline of a display as [Init] leaves it. *)
Record pipe_ok (crtc : DrmCrtc) (d : Display) : Prop := {
  pk_crtc : crtc_ d = GetCrtcForDisplay (display (compositor_ d)) (dev (compositor_ d));
  pk_own : own_crtc (compositor_ d) = Some crtc;
  pk_pools : pools_ok crtc (primary_planes d) (overlay_planes d);
  pk_stages : stages d = [StageGreedy];
}.

(** A frame that is shown: the layers of the stack from the bottom, each on a plane of its
    own, the primary plane first; every other plane off; and, when libdrm takes all properties
    and the planes can show their layers, one commit that the kernel accepted asked for it all. *)
Definition shows (crtc : DrmCrtc) (all : list DrmPlane) (stack : list zref) (base : zref → option HwcLayer)
    (s : @Compositor K) : Prop :=
  ∃ comp rest, active_composition s = Some comp
  ∧ Forall2 (λ r x, ∃ l, base r = Some l ∧ drawn l x) stack (comp_layers comp)
  ∧ composition_planes comp = imap (λ i p, MkCompPlane kLayer p [i]) (take (length stack) all)
      ++ ((λ p, MkCompPlane kDisable p []) <$> rest)
  ∧ rest ≡ₚ drop (length stack) all
  ∧ ((∀ k : K, adds_ok k) → ∀ reqs, mapM (plane_request crtc (comp_layers comp)) (composition_planes comp) = Some reqs →
     ∃ hdr, Committed false (hdr ++ concat reqs) 0 ∈ events s).

Lemma create_shows crtc (d d' : Display) e :
  CreateComposition false d = Val d' e → balance [] (compositor_ d) → pipe_ok crtc d →
  let stack := z_stack false (layers_ d) in
  (length stack ≤ plane_count d)%nat → frames_composited (compositor_ d') ≠ frames_composited (compositor_ d) →
  shows crtc (primary_planes d ++ overlay_planes d) stack (ref_layer d) (compositor_ d').
Proof.
  intros E Hb Hp stack Hlen Hne. unfold CreateComposition in E. unfold mbind at 1, M_bind at 1, get at 1 in E. cbn beta iota in E.
  fold stack in E. destruct (decide (stack = [])) as [Hnil|Hst]; [by injection E as <- <-|].
  unfold mbind at 1, M_bind at 1 in E. destruct (gather stack [] d) as [d1 res| |] eqn:Eg; [|done..].
  pose proof (gather_comp _ _ _ _ _ Eg) as Hcv. unfold comp_view in Hcv. injection Hcv as Hdev Hdis Hfr.
  apply (gather_spec _ _ (ref_layer d)) in Eg as (Hv & _ & Hres); [|apply z_stack_nodup|done|done].
  unfold disp_view in Hv. injection Hv as Est Eprim Eover _ Ecrtc _ _.
  destruct res as [ls|]; [|injection E as <- <-; congruence]. destruct Hres as (new & -> & _ & Hdraw & _). rewrite app_nil_l in E.
  unfold mbind at 1, M_bind at 1 in E. destruct (the_crtc d1) as [d2 crtc1| |] eqn:Ec; [|done..].
  apply the_crtc_spec in Ec as [-> (i & Hi & Hcrtc)].
  assert (crtc1 = crtc) as ->.
  { pose proof (pk_own _ _ Hp) as Ho. unfold own_crtc in Ho. rewrite Ecrtc, (pk_crtc _ _ Hp) in Hi. rewrite Hi in Ho. cbn in Ho. congruence. }
  unfold mbind at 1, M_bind at 1, get at 1 in E. cbn beta iota in E.
  rewrite Est, Eprim, Eover, (pk_stages _ _ Hp) in E.
  set (c0 := (SetLayers new true new_composition).1) in E.
  assert (length (comp_layers c0) = length stack) as El by (symmetry; exact (Forall2_length Hdraw)).
  assert ((primary_planes d ++ overlay_planes d) ≠ []) as Hall.
  { intros Hx. apply (f_equal length) in Hx. rewrite length_app in Hx. unfold plane_count in Hlen. destruct stack; [done|]. cbn in Hlen, Hx. lia. }
  destruct (plan_frame_spec crtc (primary_planes d) (overlay_planes d) c0) as (rest & Eplan & Hrest);
    [apply Hp|done|done|by rewrite El, length_app|].
  rewrite Eplan in E. unfold AddFenceToRetireFence in E. rewrite decide_True in E by done.
  unfold mbind at 1, M_bind at 1, mret at 1, M_ret in E. unfold mbind at 1, M_bind at 1 in E.
  match type of E with match on_comp (ApplyComposition ?c) _ with _ => _ end = _ => set (comp := c) in E end.
  destruct (on_comp (ApplyComposition comp) d1) as [d3 ret| |] eqn:E3; [|done..]. injection E as <- _.
  apply on_comp_spec in E3 as (s & Es & ->). cbn [compositor_ set_compositor] in *.
  apply apply_shown in Es as (f & f1 & s1 & s2 & Ha & [Hd1 Hd2] & Hc & Hev); [|done|congruence].
  exists (set_out_fence f comp), rest.
  rewrite El in Hrest. split_and!; [done|exact Hdraw| |done|].
  - unfold comp. cbn [composition_planes set_out_fence set_planes]. by rewrite El.
  - intros Hk reqs Hr. destruct (commit_frame_logged _ _ _ _ crtc reqs Hc Hk) as [hdr Hin]; [|exact Hr| |by exists hdr; apply Hev].
    + pose proof (pk_own _ _ Hp) as Ho. unfold own_crtc in *. by rewrite Hd1, Hd2, Hdev, Hdis.
    + unfold comp. cbn [composition_planes set_out_fence set_planes]. destruct (primary_planes d ++ overlay_planes d) as [|p ps]; [done|].
      rewrite El. destruct stack; [done|]. cbn. done.
Qed.

Lemma present_shows crtc (d d' : Display) e f :
  PresentDisplay d = Val d' (e, f) → balance [] (compositor_ d) → pipe_ok crtc d →
  (length (z_stack false (layers_ d)) ≤ plane_count d)%nat →
  frames_composited (compositor_ d') ≠ frames_composited (compositor_ d) →
  shows crtc (primary_planes d ++ overlay_planes d) (z_stack false (layers_ d)) (ref_layer d) (compositor_ d').
Proof.
  intros E Hb Hp Hlen Hne. unfold PresentDisplay in E. run_m_in E.
  destruct (CreateComposition false d) as [d1 ret| |] eqn:Ec; [|done..].
  pose proof (create_shows crtc d d1 ret Ec Hb Hp Hlen) as Hs.
  destruct (decide (ret = BadLayer)); [injection E as <- _ _; by apply Hs|].
  case_decide; [injection E as <- _ _; by apply Hs|]. injection E as <- _ _. by apply Hs.
Qed.

(** [CreateDisplay] sets the pipeline up. *)
Definition fresh (d : Display) : Prop :=
  stages d = [StageGreedy] ∧ primary_planes d = [] ∧ overlay_planes d = [] ∧ balance [] (compositor_ d) ∧ fence_view d = (-1, -1).
Lemma display_init_pipe ans use l (d d' : Display) e :
  display_init ans use l d = Val d' e → fresh d →
  d' = d ∨
  display_ok (pipe_view (compositor_ d), [StageGreedy], filter (λ p, plane_kind p = DRM_PLANE_TYPE_PRIMARY) l,
    if use then filter (λ p, plane_kind p = DRM_PLANE_TYPE_OVERLAY) l else [],
    GetCrtcForDisplay (display (compositor_ d)) (dev (compositor_ d))) d'.
Proof.
  intros E (Hst & Hp & Ho & Hb & Hf). unfold display_init in E. unfold mbind at 1, M_bind at 1, get at 1 in E. cbn beta iota zeta in E.
  destruct (made_planner ans); cbn [negb] in E; [|injection E as <- _; by left].
  destruct (decide (compositor_init ans ≠ 0)); [injection E as <- _; by left|]. right.
  unfold mbind at 1, M_bind at 1 in E.
  match type of E with match put ?x _ with _ => _ end = _ => set (d1 := x) in E end. cbn beta iota in E.
  assert (∀ w, pipe_state d1 = w → display_ok w d1) as Hok1 by (intros w Hw; by split_and!).
  set (w := (pipe_view (compositor_ d), _, _, _, _)). assert (display_ok w d1) as Hok.
  { apply Hok1. unfold pipe_state, w, d1. cbn. by rewrite Hst, Hp, Ho. }
  change (put d1 d) with (Val d1 tt : outcome Display unit) in E. cbn beta iota in E. clearbody d1 w.
  destruct (GetCrtcForDisplay _ _); [|by injection E as <- _].
  destruct (GetConnectorForDisplay _ _); [|by injection E as <- _].
  destruct (decide (vsync_init ans ≠ 0)); [by injection E as <- _|]. by eapply pres_hotplug.
Qed.

(** A display without planes stays without. *)
Lemma fresh_no_planes cs (d d' : Display) fs : fresh d → do_calls cs d = Val d' fs → plane_count d' = 0%nat.
Proof.
  intros (Hst & Hp & Ho & Hb & Hf) E. assert (display_ok (pipe_state d) d) as Hok by by split_and!.
  apply (do_calls_ok _ _ _ _ _ E) in Hok as [(_ & _ & Hv) _]. unfold pipe_state in Hv. injection Hv as _ _ _ Ep Eo _.
  unfold plane_count. by rewrite Ep, Eo, Hp, Ho.
Qed.
Lemma pipe_ok_of crtc (use : bool) (d d' : Display) :
  own_crtc (compositor_ d) = Some crtc →
  pipe_state d' = (pipe_view (compositor_ d), [StageGreedy],
    filter (λ p, plane_kind p = DRM_PLANE_TYPE_PRIMARY) (filter (λ p, GetCrtcSupported p crtc = true) (planes (dev (compositor_ d)))),
    (if use then filter (λ p, plane_kind p = DRM_PLANE_TYPE_OVERLAY) (filter (λ p, GetCrtcSupported p crtc = true) (planes (dev (compositor_ d)))) else []),
    GetCrtcForDisplay (display (compositor_ d)) (dev (compositor_ d))) → pipe_ok crtc d'.
Proof.
  unfold pipe_state, pipe_view. intros Ho E. injection E as Ec Ed Es Ep Eo Ei. unfold own_crtc, GetCrtcForDisplay in *. split.
  - unfold GetCrtcForDisplay. by rewrite Ei, Ed, Ec.
  - unfold own_crtc, GetCrtcForDisplay. by rewrite Ed, Ec.
  - rewrite Ep, Eo. split.
    + apply Forall_app. split; [|destruct use; [|constructor]]; apply Forall_forall; intros p Hp; apply list_elem_of_In in Hp;
        by apply list_elem_of_filter in Hp as [_ [? _]%list_elem_of_filter].
    + apply Forall_forall. intros p Hp. apply list_elem_of_In in Hp. by apply list_elem_of_filter in Hp as [? _].
    + destruct use; [|constructor]. apply Forall_forall. intros p Hp. apply list_elem_of_In in Hp. by apply list_elem_of_filter in Hp as [? _].
  - done.
Qed.

End shown.

(** ** A concrete display *)

Lemma z_ok_check layers :
  NoDup ((λ p, z_order p.2) <$> map_to_list layers) → Forall (λ p, is_u32 (z_order p.2)) (map_to_list layers) → z_ok layers.
Proof.
  intros Hnd Hr. split.
  - intros i j a b Hi%elem_of_map_to_list Hj%elem_of_map_to_list E.
    apply list_elem_of_lookup in Hi as [m Hm], Hj as [n Hn]. assert (m = n) as ->; [|congruence].
    eapply (NoDup_lookup _ _ _ (z_order a) Hnd); rewrite list_lookup_fmap; [by rewrite Hm|by rewrite Hn, E].
  - intros i a Hi%elem_of_map_to_list. apply list_elem_of_lookup in Hi as [m Hm]. exact (proj1 (Forall_lookup _ _) Hr m _ Hm).
Qed.

(** Buffers have the framebuffer of their number; there is one mode. *)
#[global] Instance demo_env r : HwcEnv (demo_k r) := {|
  k_import h k := (k, inr (h, 0));
  k_copy_handle _ k := (k, 0);
  k_dup fd k := (k, fd);
  k_merge a _ k := (k, a);
  k_modes _ _ := Some (DRM_MODE_CONNECTED, [ex_mode 640 480]);
|}.
Definition ex_empty : @HwcDisplay (demo_k 0) :=
  MkDisplay (ex_comp 0) [StageGreedy] [] [] false None None 0 ∅ new_layer (-1) (-1) None 0.
Definition ex_answers : init_answers := MkInit true 0 0.
Definition ex_add (id : Z) : list hwc_call :=
  [CCreateLayer; CSetType id CompDevice; CSetBuffer id (100 + id) (30 + id); CSetFrame id (MkRect 0 0 640 480);
   CSetCrop id ex_crop; CSetZOrder id (10 - id)].
(** Four layers for three planes, the first one on top. *)
Definition ex_calls : list hwc_call := CSetTarget 99 (-1) 0 :: ex_add 0 ++ ex_add 1 ++ ex_add 2 ++ ex_add 3.
Definition ex_ready : @HwcDisplay (demo_k 0) := Eval vm_compute in
  state_of ex_empty (do_calls ex_calls (state_of ex_empty (CreateDisplay ex_answers true ex_empty))).
Definition ex_valid : @HwcDisplay (demo_k 0) := Eval vm_compute in state_of ex_empty (ValidateDisplay ex_ready).
Definition ex_shown : @HwcDisplay (demo_k 0) := Eval vm_compute in state_of ex_empty (PresentDisplay ex_valid).

Lemma ex_z_ok : z_ok (layers_ ex_ready).
Proof. apply z_ok_check; apply (bool_decide_unpack _); vm_compute; exact I. Qed.
Lemma ex_all_device id l : layers_ ex_ready !! id = Some l → sf_type l = CompDevice ∧ z_order l < 2147483648.
Proof.
  intros Hl%elem_of_map_to_list. apply list_elem_of_In in Hl.
  assert (Forall (λ p : Z * HwcLayer, sf_type p.2 = CompDevice ∧ z_order p.2 < 2147483648) (map_to_list (layers_ ex_ready))) as HF
    by (apply (bool_decide_unpack _); vm_compute; exact I).
  exact (proj1 (List.Forall_forall _ _) HF _ Hl).
Qed.

Lemma hwc_validate_fits_witness :
  z_stack false (layers_ ex_valid) = [OfClient; OfLayer 1; OfLayer 0] ∧ plane_count ex_valid = 3%nat
  ∧ (length (z_stack false (layers_ ex_valid)) ≤ plane_count ex_valid)%nat.
Proof.
  split; [vm_compute; reflexivity|]. split; [vm_compute; reflexivity|].
  refine (proj1 (hwc_validate_fits ex_ready ex_valid HasChanges 2 _ ex_z_ok _ _)).
  - vm_compute. reflexivity.
  - apply (bool_decide_unpack _). vm_compute. exact I.
  - apply (bool_decide_unpack _). vm_compute. exact I.
Defined.
Lemma hwc_stack_order_witness :
  z_order <$> layers_ ex_valid !! 3 = Some 7 ∧ z_order <$> layers_ ex_valid !! 0 = Some 10 ∧ 7 < 10.
Proof.
  destruct (layers_ ex_valid !! 3) as [l3|] eqn:E3; [|vm_compute in E3; discriminate E3].
  destruct (layers_ ex_valid !! 0) as [l0|] eqn:E0; [|vm_compute in E0; discriminate E0].
  assert (z_order l3 < z_order l0) as Hlt.
  { refine (hwc_stack_order ex_ready ex_valid HasChanges 2 0%nat 2%nat OfClient (OfLayer 0) 3 0 l3 l0 _ ex_z_ok _ ex_all_device _ _ _ _ _ E3 E0).
    - vm_compute. reflexivity.
    - apply (bool_decide_unpack _). vm_compute. exact I.
    - vm_compute. reflexivity.
    - vm_compute. reflexivity.
    - lia.
    - exists l3. split; [exact E3|]. vm_compute in E3. injection E3 as <-. reflexivity.
    - reflexivity. }
  vm_compute in E3. injection E3 as <-. vm_compute in E0. injection E0 as <-. cbn in *. auto.
Defined.

Definition ex_script : list hwc_call := ex_calls ++ [CValidate; CAccept; CPresent; CSetBuffer 0 200 40; CValidate; CPresent; CClear].
Definition ex_start : @HwcDisplay (demo_k 0) := Eval vm_compute in state_of ex_empty (CreateDisplay ex_answers true ex_empty).
Definition ex_end : @HwcDisplay (demo_k 0) := Eval vm_compute in state_of ex_empty (do_calls ex_script ex_start).
Lemma ex_start_ok : display_ok (pipe_state ex_start) ex_start.
Proof. split_and!; [|reflexivity|reflexivity]. apply (bool_decide_unpack _). vm_compute. exact I. Qed.
Lemma hwc_buffers_balanced_witness :
  imported (events (compositor_ ex_end)) ≡ₚ released (events (compositor_ ex_end)) ++ active_buffers (compositor_ ex_end).
Proof. refine (hwc_buffers_balanced _ ex_script ex_start ex_end [-1; -1] _ ex_start_ok). vm_compute. reflexivity. Defined.
Lemma hwc_no_retire_fence_witness : Forall (λ f, f = -1) [-1; -1].
Proof. refine (hwc_no_retire_fence _ ex_script ex_start ex_end [-1; -1] _ ex_start_ok). vm_compute. reflexivity. Defined.
Lemma hwc_fences_taken_witness :
  acquire_fence_ <$> layers_ ex_ready !! 0 = Some 30 ∧ acquire_fence_ <$> layers_ ex_valid !! 0 = Some (-1).
Proof.
  destruct (layers_ ex_ready !! 0) as [l0|] eqn:E0; [|vm_compute in E0; discriminate E0].
  destruct (layers_ ex_valid !! 0) as [l|] eqn:El; [|vm_compute in El; discriminate El].
  split; [vm_compute in E0; injection E0 as <-; reflexivity|]. cbn. f_equal.
  refine (hwc_fences_taken ex_ready ex_valid HasChanges 2 0 l0 l _ _ _ ex_z_ok _ E0 _ El).
  - vm_compute. reflexivity.
  - apply (bool_decide_unpack _). vm_compute. exact I.
  - vm_compute. lia.
  - intros d0 E. vm_compute in E. discriminate E.
  - vm_compute in E0. injection E0 as <-. reflexivity.
Defined.

(** ** Uevents (drmeventlistener.cpp) *)

(** The strings of a kernel event; [strcmp] is not zero for strings that differ. *)
Definition uevent_step (acc : bool * bool) (event : string) : bool * bool :=
  if decide (event ≠ "DEVTYPE=drm_minor") then (true, acc.2)
  else if decide (event ≠ "HOTPLUG=1") then (acc.1, true)
  else acc.
(** Whether the hotplug handler is called. *)
Definition UEventHandler (events : list string) : bool :=
  let '(drm_event, hotplug_event) := foldl uevent_step (false, false) events in drm_event && hotplug_event.

(** The comparisons are the wrong way around: every event of a DRM device counts as a hotplug,
    whether it says so or not. *)
Lemma uevent_any_drm events :
  UEventHandler events = true ↔ "DEVTYPE=drm_minor" ∈ events ∧ ∃ s, s ∈ events ∧ s ≠ "DEVTYPE=drm_minor".
Proof.
  assert (∀ l acc, ((foldl uevent_step acc l).1 = true ↔ acc.1 = true ∨ ∃ s, s ∈ l ∧ s ≠ "DEVTYPE=drm_minor")
    ∧ ((foldl uevent_step acc l).2 = true ↔ acc.2 = true ∨ "DEVTYPE=drm_minor" ∈ l)) as Hf.
  { induction l as [|s l IH]; intros acc; cbn [foldl].
    { split; split; [auto|intros [?|(s & ?%elem_of_nil & _)]; done|auto|intros [?|?%elem_of_nil]; done]. }
    destruct (IH (uevent_step acc s)) as [-> ->]. unfold uevent_step. destruct (decide (s = "DEVTYPE=drm_minor")) as [->|Hne].
    - rewrite decide_False by auto. rewrite decide_True by done. cbn [fst snd]. setoid_rewrite elem_of_cons. split; [naive_solver|tauto].
    - rewrite decide_True by done. cbn [fst snd]. setoid_rewrite elem_of_cons. split; [|naive_solver].
      split; [intros _; right; exists s; auto|auto]. }
  unfold UEventHandler. destruct (Hf events (false, false)) as [H1 H2].
  destruct (foldl uevent_step (false, false) events) as [x y]. cbn [fst snd] in *. rewrite andb_true_iff, H1, H2. naive_solver.
Qed.

(** *** Where the stack is not what was asked for *)

Definition typed_layer (t z : Z) : HwcLayer := SetLayerZOrder z (set_validated_type t new_layer).
(** A layer left to the client is drawn with the lowest of them: here the one at 5, below the
    plane of the one at 3. *)
Lemma hwc_client_above :
  z_stack false {[0 := typed_layer CompClient 5; 1 := typed_layer CompDevice 3; 2 := typed_layer CompClient 1]} = [OfClient; OfLayer 1].
Proof. vm_compute. reflexivity. Qed.
(** Of two layers at the same place only one is drawn. *)
Lemma hwc_same_z :
  z_stack false {[0 := typed_layer CompDevice 3; 1 := typed_layer CompDevice 3]} = [OfLayer 0].
Proof. vm_compute. reflexivity. Qed.
(** Validating a layer for the client before its first target reads an uninitialised handle. *)
Lemma hwc_no_target :
  ValidateDisplay (set_layers 1 {[0 := SetLayerCompositionType CompClient new_layer]} ex_start) = Ub.
Proof. vm_compute. reflexivity. Qed.
