(* ===== verification/Kernel.v ===== *)
(** * What the kernel modules share

    Error numbers and the arithmetic of pages: rounding an address down to its page or up
    to the next one, and what these say about a page that starts at a multiple of its size. *)

From S2P Require Import Prelude.

Definition EPERM : Z := 1.
Definition EBADF : Z := 9.
Definition ENOMEM : Z := 12.
Definition EFAULT : Z := 14.
Definition EBUSY : Z := 16.
Definition EINVAL : Z := 22.
Definition ENOTTY : Z := 25.

Definition PAGE_SIZE : Z := 4096.
Definition PAGE_ALIGN (z : Z) : Z := Z.ldiff (u64 (z + 4095)) 4095.
(** [z & PAGE_MASK]. *)
Definition page_floor (z : Z) : Z := Z.ldiff z 4095.

Lemma u64_idemp x : u64 (u64 x) = u64 x.
Proof. apply Zmod_mod. Qed.
Lemma u64_sub x y : u64 (u64 x - y) = u64 (x - y).
Proof. apply Zminus_mod_idemp_l. Qed.
Lemma u64_sub_r x y : u64 (x - u64 y) = u64 (x - y).
Proof. apply Zminus_mod_idemp_r. Qed.
Lemma u64_add x y : u64 (u64 x + y) = u64 (x + y).
Proof. apply Zplus_mod_idemp_l. Qed.
Lemma u64_small z : 0 ≤ z < 18446744073709551616 → u64 z = z.
Proof. apply (wrap_small 64). Qed.

Lemma ldiff_4095 z : Z.ldiff z 4095 = z / 4096 * 4096.
Proof. change 4095 with (Z.ones 12). rewrite Z.ldiff_ones_r by lia. by rewrite Z.shiftl_mul_pow2, Z.shiftr_div_pow2 by lia. Qed.
Lemma page_align_eq z : PAGE_ALIGN z = u64 (z + 4095) / 4096 * 4096.
Proof. apply ldiff_4095. Qed.
Lemma page_floor_eq z : page_floor z = z / 4096 * 4096.
Proof. apply ldiff_4095. Qed.
Lemma aligned_both a b : Z.land (Z.lor a b) 4095 = 0 ↔ a mod 4096 = 0 ∧ b mod 4096 = 0.
Proof.
  rewrite Z.land_lor_distr_l, Z.lor_eq_0_iff. change 4095 with (Z.ones 12). by rewrite !Z.land_ones by lia.
Qed.

Definition aligned (p : Z) : Prop := p mod 4096 = 0.
Lemma aligned_floor z : aligned (page_floor z).
Proof. unfold aligned. rewrite page_floor_eq. Z.div_mod_to_equations. lia. Qed.
Lemma aligned_align z : aligned (PAGE_ALIGN z).
Proof. unfold aligned. rewrite page_align_eq. Z.div_mod_to_equations. lia. Qed.
Lemma aligned_add p : aligned p → aligned (p + 4096).
Proof. unfold aligned. intros. Z.div_mod_to_equations. lia. Qed.
Lemma aligned_le p q : aligned p → aligned q → p < q → p + 4096 ≤ q.
Proof. unfold aligned. intros. Z.div_mod_to_equations. lia. Qed.
Lemma le_page_floor p z : aligned p → p ≤ page_floor z ↔ p ≤ z.
Proof. unfold aligned. rewrite page_floor_eq. intros. Z.div_mod_to_equations. lia. Qed.
Lemma lt_page_floor p z : aligned p → p < page_floor z ↔ p + 4096 ≤ z.
Proof. unfold aligned. rewrite page_floor_eq. intros. Z.div_mod_to_equations. lia. Qed.
Lemma page_floor_le p z : aligned p → page_floor z ≤ p ↔ z < p + 4096.
Proof. intros. rewrite <- Z.nlt_ge, lt_page_floor by done. lia. Qed.
Lemma page_floor_bounds z : page_floor z ≤ z < page_floor z + 4096.
Proof. rewrite page_floor_eq. Z.div_mod_to_equations. lia. Qed.
Lemma page_align_bounds z : 0 ≤ z → z + 4095 < 18446744073709551616 → z ≤ PAGE_ALIGN z < z + 4096.
Proof. intros. rewrite page_align_eq, u64_small by lia. Z.div_mod_to_equations. lia. Qed.
Lemma page_align_le p z : aligned p → 0 ≤ z → z + 4095 < 18446744073709551616 → PAGE_ALIGN z ≤ p ↔ z ≤ p.
Proof. unfold aligned. intros. rewrite page_align_eq, u64_small by lia. Z.div_mod_to_equations. lia. Qed.
Lemma lt_page_align p z : aligned p → 0 ≤ z → z + 4095 < 18446744073709551616 → p < PAGE_ALIGN z ↔ p < z.
Proof. intros. rewrite Z.lt_nge, page_align_le by done. lia. Qed.
