(* ===== verification/Ashmem.v ===== *)
(** * The anonymous shared memory driver

    Models modules/anbox/ashmem/ashmem.c: areas of memory whose pages user space pins and
    unpins, the ranges of unpinned pages the kernel may take away, and the list it takes
    them from.  Ranges are objects of a heap that are linked into two lists; what the slab
    allocator, the shmem file system and the user's memory answer are arguments.  Every
    operation runs under [ashmem_mutex].  Sizes are 64 bits wide. *)

From S2P Require Import Prelude Kernel.

Definition ASHMEM_NAME_LEN : nat := 256.
Definition ASHMEM_NAME_PREFIX : bytes := Eval vm_compute in bytes_of_string "dev/ashmem/".
Definition ASHMEM_NAME_DEF : bytes := Eval vm_compute in bytes_of_string "dev/ashmem" ++ [0].
Definition PREFIX_LEN : nat := 11.
Definition PROT_READ : Z := 1.
Definition PROT_WRITE : Z := 2.
Definition PROT_EXEC : Z := 4.
Definition PROT_MASK : Z := 7.

(** ** The data *)

Record ashmem_range : Type := MkRange {
  r_asma : Z;
  pgstart : Z; pgend : Z;          (* both inclusive *)
  purged : bool;
}.
Record ashmem_area : Type := MkArea {
  name : bytes;
  unpinned_list : list Z;          (* addresses of ranges *)
  file : option Z;                 (* the backing file *)
  size : Z;
  prot_mask : Z;
}.
(** [refs]: the references to each backing file; [vmas]: what each mapping refers to; the
    positions of the device's files and of the backing files; [holes]: the calls of
    [vfs_fallocate]. *)
Record Ashmem : Type := MkAshmem {
  areas : gmap Z ashmem_area;
  ranges : gmap Z ashmem_range;
  lru_list : list Z;
  lru_count : Z;
  refs : gmap Z Z;
  vmas : gmap Z (option Z);
  f_pos : gmap Z Z; file_pos : gmap Z Z;
  holes : list (option Z * Z * Z);
}.
Definition ashmem0 : Ashmem := MkAshmem ∅ ∅ [] 0 ∅ ∅ ∅ ∅ [].

Definition set_areas (x : gmap Z ashmem_area) (s : Ashmem) : Ashmem :=
  MkAshmem x (ranges s) (lru_list s) (lru_count s) (refs s) (vmas s) (f_pos s) (file_pos s) (holes s).
Definition set_ranges (x : gmap Z ashmem_range) (s : Ashmem) : Ashmem :=
  MkAshmem (areas s) x (lru_list s) (lru_count s) (refs s) (vmas s) (f_pos s) (file_pos s) (holes s).
Definition set_lru (l : list Z) (n : Z) (s : Ashmem) : Ashmem :=
  MkAshmem (areas s) (ranges s) l n (refs s) (vmas s) (f_pos s) (file_pos s) (holes s).
Definition set_refs (x : gmap Z Z) (s : Ashmem) : Ashmem :=
  MkAshmem (areas s) (ranges s) (lru_list s) (lru_count s) x (vmas s) (f_pos s) (file_pos s) (holes s).
Definition set_vmas (x : gmap Z (option Z)) (s : Ashmem) : Ashmem :=
  MkAshmem (areas s) (ranges s) (lru_list s) (lru_count s) (refs s) x (f_pos s) (file_pos s) (holes s).
Definition set_pos (x y : gmap Z Z) (s : Ashmem) : Ashmem :=
  MkAshmem (areas s) (ranges s) (lru_list s) (lru_count s) (refs s) (vmas s) x y (holes s).
Definition add_hole (h : option Z * Z * Z) (s : Ashmem) : Ashmem :=
  MkAshmem (areas s) (ranges s) (lru_list s) (lru_count s) (refs s) (vmas s) (f_pos s) (file_pos s) (holes s ++ [h]).

Definition with_list (l : list Z) (A : ashmem_area) : ashmem_area :=
  MkArea (name A) l (file A) (size A) (prot_mask A).
Definition with_name (n : bytes) (A : ashmem_area) : ashmem_area :=
  MkArea n (unpinned_list A) (file A) (size A) (prot_mask A).
Definition with_file (f : option Z) (A : ashmem_area) : ashmem_area :=
  MkArea (name A) (unpinned_list A) f (size A) (prot_mask A).
Definition with_size (n : Z) (A : ashmem_area) : ashmem_area :=
  MkArea (name A) (unpinned_list A) (file A) n (prot_mask A).
Definition with_prot (p : Z) (A : ashmem_area) : ashmem_area :=
  MkArea (name A) (unpinned_list A) (file A) (size A) p.

(** Pointers into the heap; a dangling one is undefined. *)
Definition the_range (id : Z) : M Ashmem ashmem_range :=
  s ← get; match ranges s !! id with Some r => mret r | None => undefined end.
Definition the_area (a : Z) : M Ashmem ashmem_area :=
  s ← get; match areas s !! a with Some A => mret A | None => undefined end.
Definition put_range (id : Z) (r : ashmem_range) : M Ashmem unit := modify (λ s, set_ranges (<[id := r]> (ranges s)) s).
Definition put_area (a : Z) (A : ashmem_area) : M Ashmem unit := modify (λ s, set_areas (<[a := A]> (areas s)) s).

(** ** Ranges *)

Definition range_size (r : ashmem_range) : Z := u64 (u64 (pgend r - pgstart r) + 1).
Definition range_on_lru (r : ashmem_range) : bool := negb (purged r).
Definition page_range_subsumes_range (r : ashmem_range) (start end_ : Z) : bool :=
  bool_decide (start ≤ pgstart r ∧ pgend r ≤ end_).
Definition page_range_subsumed_by_range (r : ashmem_range) (start end_ : Z) : bool :=
  bool_decide (pgstart r ≤ start ∧ end_ ≤ pgend r).
Definition page_in_range (r : ashmem_range) (page : Z) : bool := bool_decide (pgstart r ≤ page ∧ page ≤ pgend r).
Definition page_range_in_range (r : ashmem_range) (start end_ : Z) : bool :=
  page_in_range r start || page_in_range r end_ || page_range_subsumes_range r start end_.
Definition range_before_page (r : ashmem_range) (page : Z) : bool := bool_decide (pgend r < page).

Definition lru_add (id : Z) (r : ashmem_range) : M Ashmem unit :=
  modify (λ s, set_lru (lru_list s ++ [id]) (u64 (lru_count s + range_size r)) s).
Definition lru_del (id : Z) (r : ashmem_range) : M Ashmem unit :=
  modify (λ s, set_lru (List.filter (λ x, negb (Z.eqb x id)) (lru_list s)) (u64 (lru_count s - range_size r)) s).

(** [list_add_tail] before an entry, or at the end when the entry is the head. *)
Fixpoint insert_before (new : Z) (prev : option Z) (l : list Z) : list Z :=
  match l with
  | [] => [new]
  | x :: l' => if decide (prev = Some x) then new :: x :: l' else x :: insert_before new prev l'
  end.

(** [slab]: the address of the new range, or no memory. *)
Definition range_alloc (a : Z) (prev_range : option Z) (was : bool) (start end_ : Z) (slab : option Z) : M Ashmem Z :=
  match slab with
  | None => mret (- ENOMEM)
  | Some id =>
      let r := MkRange a start end_ was in
      put_range id r;;
      A ← the_area a;
      put_area a (with_list (insert_before id prev_range (unpinned_list A)) A);;
      (if range_on_lru r then lru_add id r else mret tt);;
      mret 0
  end.

Definition range_del (id : Z) : M Ashmem unit :=
  r ← the_range id;
  A ← the_area (r_asma r);
  put_area (r_asma r) (with_list (List.filter (λ x, negb (Z.eqb x id)) (unpinned_list A)) A);;
  (if range_on_lru r then lru_del id r else mret tt);;
  modify (λ s, set_ranges (delete id (ranges s)) s).

Definition range_shrink (id start end_ : Z) : M Ashmem unit :=
  r ← the_range id;
  let r' := MkRange (r_asma r) start end_ (purged r) in
  put_range id r';;
  if range_on_lru r' then
    modify (λ s, set_lru (lru_list s) (u64 (lru_count s - u64 (range_size r - range_size r'))) s)
  else mret tt.

(** ** Pinning *)

(** The entries are visited in the order of the list as it was: only the entry at hand is
    ever removed. *)
Fixpoint pin_loop (a : Z) (l : list Z) (start end_ : Z) (slab : option Z) (ret : bool) : M Ashmem bool :=
  match l with
  | [] => mret ret
  | id :: l' =>
      r ← the_range id;
      if range_before_page r start then mret ret
      else if page_range_in_range r start end_ then
        let ret := ret || purged r in
        if page_range_subsumes_range r start end_ then range_del id;; pin_loop a l' start end_ slab ret
        else if bool_decide (start ≤ pgstart r) then
          range_shrink id (u64 (end_ + 1)) (pgend r);; pin_loop a l' start end_ slab ret
        else if bool_decide (pgend r ≤ end_) then
          range_shrink id (pgstart r) (u64 (start - 1));; pin_loop a l' start end_ slab ret
        else
          range_alloc a (Some id) (purged r) (u64 (end_ + 1)) (pgend r) slab;;
          range_shrink id (pgstart r) (u64 (start - 1));;
          mret ret
      else pin_loop a l' start end_ slab ret
  end.
Definition ashmem_pin (a start end_ : Z) (slab : option Z) : M Ashmem Z :=
  A ← the_area a;
  ret ← pin_loop a (unpinned_list A) start end_ slab false;
  mret (Z.b2z ret).

(** One walk over the list: the insertion point, or that nothing is to be done, or the
    range that was merged. *)
Inductive unpin_stop : Type := Insert (before : option Z) | Subsumed | Merged (id : Z) (r : ashmem_range).
Fixpoint unpin_scan (l : list Z) (start end_ : Z) : M Ashmem unpin_stop :=
  match l with
  | [] => mret (Insert None)
  | id :: l' =>
      r ← the_range id;
      if range_before_page r start then mret (Insert (Some id))
      else if page_range_subsumed_by_range r start end_ then mret Subsumed
      else if page_range_in_range r start end_ then mret (Merged id r)
      else unpin_scan l' start end_
  end.
(** Each restart removes a range, so that the length of the list bounds them. *)
Fixpoint unpin_loop (fuel : nat) (a start end_ : Z) (was : bool) (slab : option Z) : M Ashmem Z :=
  A ← the_area a;
  stop ← unpin_scan (unpinned_list A) start end_;
  match stop with
  | Subsumed => mret 0
  | Insert before => range_alloc a before was start end_ slab
  | Merged id r =>
      range_del id;;
      match fuel with
      | O => undefined
      | S n => unpin_loop n a (Z.min (pgstart r) start) (Z.max (pgend r) end_) (was || purged r) slab
      end
  end.
Definition ashmem_unpin (a start end_ : Z) (slab : option Z) : M Ashmem Z :=
  A ← the_area a; unpin_loop (length (unpinned_list A)) a start end_ false slab.

Definition ASHMEM_IS_UNPINNED : Z := 0.
Definition ASHMEM_IS_PINNED : Z := 1.
Fixpoint status_loop (l : list Z) (start end_ : Z) : M Ashmem Z :=
  match l with
  | [] => mret ASHMEM_IS_PINNED
  | id :: l' =>
      r ← the_range id;
      if range_before_page r start then mret ASHMEM_IS_PINNED
      else if page_range_in_range r start end_ then mret ASHMEM_IS_UNPINNED
      else status_loop l' start end_
  end.
Definition ashmem_get_pin_status (a start end_ : Z) : M Ashmem Z :=
  A ← the_area a; status_loop (unpinned_list A) start end_.

Inductive pin_cmd : Type := ASHMEM_PIN | ASHMEM_UNPIN | ASHMEM_GET_PIN_STATUS.
(** The pages a request names, with the code it is refused with. *)
Definition pin_pages (sz : Z) (pin : Z * Z) : Z + Z * Z :=
  let offset := pin.1 in
  let len := if decide (pin.2 = 0) then u32 (PAGE_ALIGN sz - offset) else pin.2 in
  if decide (Z.land (Z.lor offset len) 4095 ≠ 0) then inl (- EINVAL)
  else if decide (4294967295 - offset < len) then inl (- EINVAL)
  else if decide (PAGE_ALIGN sz < u32 (offset + len)) then inl (- EINVAL)
  else inr (offset / PAGE_SIZE, u64 (offset / PAGE_SIZE + len / PAGE_SIZE - 1)).
(** [pin]: the offset and length copied from the user, if they can be read. *)
Definition ashmem_pin_unpin (a : Z) (cmd : pin_cmd) (pin : option (Z * Z)) (slab : option Z) : M Ashmem Z :=
  A ← the_area a;
  match file A, pin with
  | None, _ => mret (- EINVAL)
  | Some _, None => mret (- EFAULT)
  | Some _, Some p =>
      match pin_pages (size A) p with
      | inl e => mret e
      | inr (start, end_) =>
          match cmd with
          | ASHMEM_PIN => ashmem_pin a start end_ slab
          | ASHMEM_UNPIN => ashmem_unpin a start end_ slab
          | ASHMEM_GET_PIN_STATUS => ashmem_get_pin_status a start end_
          end
      end
  end.

(** ** The shrinker *)

Definition loff_t : Z → Z := swrap 64.
Definition SHRINK_STOP : Z := 18446744073709551615.
(** [nr_to_scan] is an unsigned long. *)
Fixpoint shrink_loop (l : list Z) (nr_to_scan freed : Z) : M Ashmem Z :=
  match l with
  | [] => mret freed
  | id :: l' =>
      r ← the_range id;
      A ← the_area (r_asma r);
      let start := loff_t (pgstart r * PAGE_SIZE) in
      let end_ := loff_t ((pgend r + 1) * PAGE_SIZE) in
      modify (add_hole (file A, start, end_ - start));;
      put_range id (MkRange (r_asma r) (pgstart r) (pgend r) true);;
      lru_del id r;;
      let freed := u64 (freed + range_size r) in
      let nr := u64 (nr_to_scan - 1) in
      if decide (nr ≤ 0) then mret freed else shrink_loop l' nr freed
  end.
(** [fs]: the mask of the allocation has __GFP_FS. *)
Definition ashmem_shrink_scan (fs : bool) (nr_to_scan : Z) : M Ashmem Z :=
  if negb fs then mret SHRINK_STOP
  else s ← get; shrink_loop (lru_list s) nr_to_scan 0.
Definition ashmem_shrink_count : M Ashmem Z := s ← get; mret (lru_count s).

(** ** Files *)

Definition get_file (f : Z) : M Ashmem unit :=
  modify (λ s, set_refs (<[f := default 0 (refs s !! f) + 1]> (refs s)) s).
Definition fput (f : Z) : M Ashmem unit :=
  s ← get;
  match refs s !! f with
  | Some n => if decide (n = 1) then put (set_refs (delete f (refs s)) s) else put (set_refs (<[f := n - 1]> (refs s)) s)
  | None => undefined
  end.

(** [generic]: what [generic_file_open] returns; [slab]: the address of the new area. *)
Definition ashmem_open (generic : Z) (slab : option Z) : M Ashmem Z :=
  if decide (generic ≠ 0) then mret generic
  else
    match slab with
    | None => mret (- ENOMEM)
    | Some a =>
        put_area a (MkArea (ASHMEM_NAME_PREFIX ++ replicate ASHMEM_NAME_LEN 0) [] None 0 PROT_MASK);;
        mret 0
    end.

Definition ashmem_release (a : Z) : M Ashmem Z :=
  A ← the_area a;
  for_each (unpinned_list A) range_del;;
  A ← the_area a;
  (match file A with Some f => fput f | None => mret tt end);;
  modify (λ s, set_areas (delete a (areas s)) s);;
  mret 0.

(** [answer]: what [kernel_read] returns and the position it leaves. *)
Definition ashmem_read (a : Z) (answer : Z * Z) : M Ashmem Z :=
  A ← the_area a;
  if decide (size A = 0) then mret 0
  else
    match file A with
    | None => mret (- EBADF)
    | Some f =>
        let ret := i32 answer.1 in
        (if decide (0 ≤ ret) then
           modify (λ s, set_pos (<[a := answer.2]> (f_pos s)) (<[f := answer.2]> (file_pos s)) s)
         else mret tt);;
        mret ret
    end.

(** [target]: the position the backing file is sought to, or an error; the result is kept
    in an [int]. *)
Definition ashmem_llseek (a : Z) (target : Z) : M Ashmem Z :=
  A ← the_area a;
  if decide (size A = 0) then mret (- EINVAL)
  else
    match file A with
    | None => mret (- EBADF)
    | Some f =>
        (if decide (0 ≤ target) then modify (λ s, set_pos (f_pos s) (<[f := target]> (file_pos s)) s) else mret tt);;
        let ret := i32 target in
        if decide (ret < 0) then mret ret
        else
          modify (λ s, set_pos (<[a := default 0 (file_pos s !! f)]> (f_pos s)) (file_pos s) s);;
          mret ret
    end.

Definition VM_SHARED : Z := 8.
Definition VM_MAYREAD : Z := 16.
Definition VM_MAYWRITE : Z := 32.
Definition VM_MAYEXEC : Z := 64.
Definition _calc_vm_trans (x bit1 bit2 : Z) : Z := if decide (Z.land x bit1 ≠ 0) then bit2 else 0.
Definition calc_vm_may_flags (prot : Z) : Z :=
  Z.lor (Z.lor (_calc_vm_trans prot PROT_READ VM_MAYREAD) (_calc_vm_trans prot PROT_WRITE VM_MAYWRITE))
    (_calc_vm_trans prot PROT_EXEC VM_MAYEXEC).
(** The protection bits and the mapping's flags VM_READ, VM_WRITE and VM_EXEC have the same
    values. *)
Definition calc_vm_prot_bits (prot : Z) : Z := Z.land prot PROT_MASK.

(** [v]: the new mapping; [setup]: the backing file that is made, or an error; [zero]: the
    answer of [shmem_zero_setup] and the file it gives the mapping.  Returns the flags of
    the mapping too. *)
Definition ashmem_mmap (a v vm_flags : Z) (setup : Z + Z) (zero : Z * Z) : M Ashmem (Z * Z) :=
  A ← the_area a;
  if decide (size A = 0) then mret (- EINVAL, vm_flags)
  else if decide (Z.land (Z.ldiff vm_flags (calc_vm_prot_bits (prot_mask A))) (calc_vm_prot_bits PROT_MASK) ≠ 0) then
    mret (- EPERM, vm_flags)
  else
    let flags := Z.ldiff vm_flags (calc_vm_may_flags (Z.lnot (prot_mask A))) in
    made ← (match file A with
            | Some f => mret (inr f)
            | None =>
                match setup with
                | inl e => mret (inl e)
                | inr f =>
                    modify (λ s, set_refs (<[f := 1]> (refs s)) s);;
                    put_area a (with_file (Some f) A);; mret (inr f)
                end
            end);
    match made with
    | inl e => mret (e, flags)
    | inr f =>
        get_file f;;
        if decide (Z.land flags VM_SHARED ≠ 0) then
          if decide (zero.1 ≠ 0) then fput f;; mret (zero.1, flags)
          else
            modify (λ s, set_refs (<[zero.2 := 1]> (refs s)) s);;
            fput zero.2;;
            modify (λ s, set_vmas (<[v := Some f]> (vmas s)) s);; mret (0, flags)
        else modify (λ s, set_vmas (<[v := Some f]> (vmas s)) s);; mret (0, flags)
    end.
(** The kernel removes a mapping. *)
Definition munmap (v : Z) : M Ashmem unit :=
  s ← get;
  match vmas s !! v with
  | Some o =>
      put (set_vmas (delete v (vmas s)) s);;
      match o with Some f => fput f | None => mret tt end
  | None => undefined
  end.

(** ** Requests *)

(** [read_implies_exec]: the personality of the caller. *)
Definition set_prot_mask (a prot : Z) (read_implies_exec : bool) : M Ashmem Z :=
  A ← the_area a;
  if decide (Z.land (prot_mask A) prot ≠ prot) then mret (- EINVAL)
  else
    let prot := if decide (Z.land prot PROT_READ ≠ 0) then if read_implies_exec then Z.lor prot PROT_EXEC else prot
                else prot in
    put_area a (with_prot prot A);; mret 0.

(** A C string in memory: its bytes before the terminator, if there is one. *)
Fixpoint c_string (l : bytes) : option bytes :=
  match l with
  | [] => None
  | c :: l' => if decide (c = 0) then Some [] else cons c <$> c_string l'
  end.
(** [strncpy_from_user]: the string with its terminator, or the first bytes without one;
    then the last byte is set to zero. *)
Definition local_name (user : bytes) : bytes :=
  match c_string (take ASHMEM_NAME_LEN user) with
  | Some n => n ++ [0]
  | None => take (ASHMEM_NAME_LEN - 1) user ++ [0]
  end.
Definition set_name (a : Z) (user : option bytes) : M Ashmem Z :=
  match user with
  | None => mret (- EFAULT)
  | Some u =>
      A ← the_area a;
      match file A with
      | Some _ => mret (- EINVAL)
      | None =>
          let n := local_name u in
          if decide (PREFIX_LEN + length n ≤ length (name A))%nat then
            put_area a (with_name (take PREFIX_LEN (name A) ++ n ++ drop (PREFIX_LEN + length n) (name A)) A);; mret 0
          else undefined
      end
  end.
(** The bytes copied to the user; [writable]: whether they can be. *)
Definition get_name (a : Z) (writable : bool) : M Ashmem (Z * bytes) :=
  A ← the_area a;
  match name A !! PREFIX_LEN with
  | None => undefined
  | Some c =>
      local ← (if decide (c ≠ 0) then
                 match c_string (drop PREFIX_LEN (name A)) with
                 | Some n => if decide (length n < ASHMEM_NAME_LEN)%nat then mret (n ++ [0]) else undefined
                 | None => undefined
                 end
               else mret ASHMEM_NAME_DEF);
      if writable then mret (0, local) else mret (- EFAULT, [])
  end.

Inductive ashmem_cmd : Type :=
  | CSetName (user : option bytes) | CGetName (writable : bool)
  | CSetSize (n : Z) | CGetSize
  | CSetProtMask (prot : Z) (read_implies_exec : bool) | CGetProtMask
  | CPin (cmd : pin_cmd) (pin : option (Z * Z)) (slab : option Z)
  | CPurgeAll (capable : bool)
  | CUnknown.
Definition LONG_MAX : Z := 9223372036854775807.
Definition ashmem_ioctl (a : Z) (cmd : ashmem_cmd) : M Ashmem Z :=
  match cmd with
  | CSetName user => set_name a user
  | CGetName writable => r ← get_name a writable; mret r.1
  | CSetSize n =>
      A ← the_area a;
      match file A with
      | Some _ => mret (- EINVAL)
      | None => put_area a (with_size n A);; mret 0
      end
  | CGetSize => A ← the_area a; mret (size A)
  | CSetProtMask prot e => set_prot_mask a prot e
  | CGetProtMask => A ← the_area a; mret (prot_mask A)
  | CPin c pin slab => ashmem_pin_unpin a c pin slab
  | CPurgeAll capable =>
      if capable then
        ret ← ashmem_shrink_count;
        ashmem_shrink_scan true LONG_MAX;; mret ret
      else mret (- EPERM)
  | CUnknown => mret (- ENOTTY)
  end.

(** ** Lists of ranges

    What the walks do, on the ranges themselves: from high pages to low ones. *)

Definition status_of (r : ashmem_range) (p : Z) : option bool :=
  if decide (pgstart r ≤ p ≤ pgend r) then Some (purged r) else None.
Fixpoint status (l : list ashmem_range) (p : Z) : option bool :=
  match l with
  | [] => None
  | r :: l' => if decide (pgstart r ≤ p ≤ pgend r) then Some (purged r) else status l' p
  end.
(** Sorted, apart and below a page. *)
Fixpoint below (hi : Z) (l : list ashmem_range) : Prop :=
  match l with
  | [] => True
  | r :: l' => 0 ≤ pgstart r ≤ pgend r ∧ pgend r < hi ∧ below (pgstart r) l'
  end.
Definition resize (start end_ : Z) (r : ashmem_range) : ashmem_range := MkRange (r_asma r) start end_ (purged r).

Fixpoint pin_list (start end_ : Z) (ok : bool) (l : list ashmem_range) : list ashmem_range * bool :=
  match l with
  | [] => ([], false)
  | r :: l' =>
      let '(x, b) := pin_list start end_ ok l' in
      if range_before_page r start then (r :: l', false)
      else if page_range_in_range r start end_ then
        if page_range_subsumes_range r start end_ then (x, purged r || b)
        else if bool_decide (start ≤ pgstart r) then (resize (end_ + 1) (pgend r) r :: x, purged r || b)
        else if bool_decide (pgend r ≤ end_) then (resize (pgstart r) (start - 1) r :: x, purged r || b)
        else ((if ok then [resize (end_ + 1) (pgend r) r] else []) ++ resize (pgstart r) (start - 1) r :: l', purged r)
      else (r :: x, b)
  end.

Lemma below_mono hi hi' l : below hi l → hi ≤ hi' → below hi' l.
Proof. destruct l; cbn; [done|]. intros (? & ? & ?) ?. split_and!; try done; lia. Qed.
Lemma status_below hi l p : below hi l → hi ≤ p → status l p = None.
Proof.
  revert hi. induction l as [|r l IH]; intros hi; cbn; [done|]. intros (H1 & H2 & H3) Hp.
  rewrite decide_False by lia. apply (IH (pgstart r)); [done|lia].
Qed.
Lemma status_range hi l p b : below hi l → status l p = Some b → 0 ≤ p < hi.
Proof.
  revert hi. induction l as [|r l IH]; intros hi; cbn; [done|]. intros (H1 & H2 & H3).
  case_decide; [lia|]. intros Hs%(IH _ H3). lia.
Qed.

(** Unfolds the tests on a range and decides them. *)
Ltac range_tests :=
  unfold range_before_page, page_range_in_range, page_range_subsumes_range, page_range_subsumed_by_range,
    page_in_range in *;
  repeat (case_bool_decide || case_decide); cbn [orb andb fst snd app] in *; try lia.

Lemma pin_list_untouched start end_ ok l hi : below hi l → hi ≤ start → start ≤ end_ → pin_list start end_ ok l = (l, false).
Proof.
  destruct l as [|r l]; cbn; [done|]. intros (H1 & H2 & H3) Hs He. destruct (pin_list _ _ _ _).
  unfold range_before_page. by rewrite bool_decide_eq_true_2 by lia.
Qed.

Lemma pin_list_below start end_ ok l hi :
  0 ≤ start ≤ end_ → below hi l → below hi (pin_list start end_ ok l).1.
Proof.
  intros Hs. revert hi. induction l as [|r l IH]; intros hi; cbn; [done|]. intros (H1 & H2 & H3).
  pose proof (IH _ H3) as IH'. destruct (pin_list start end_ ok l) as [x b]. cbn [fst] in IH'.
  destruct ok; range_tests; cbn [below resize pgstart pgend];
    repeat match goal with |- _ ∧ _ => split end; try lia; try done;
    (eapply below_mono; [first [exact IH' | exact H3]|lia]).
Qed.

Lemma pin_list_status start end_ l hi p :
  0 ≤ start ≤ end_ → below hi l →
  status (pin_list start end_ true l).1 p = if decide (start ≤ p ≤ end_) then None else status l p.
Proof.
  intros Hs. revert hi. induction l as [|r l IH]; intros hi; cbn; [by destruct (decide _)|]. intros (H1 & H2 & H3).
  pose proof (IH _ H3) as IH'. pose proof (λ q, status_below _ l q H3) as Hout.
  destruct (pin_list start end_ true l) as [x b]. cbn [fst] in IH'.
  range_tests; cbn [status resize pgstart pgend purged]; rewrite ?IH'; repeat case_decide; try lia; try done;
    (symmetry; apply Hout; lia) || (apply Hout; lia).
Qed.
Definition meets (r : ashmem_range) (start end_ : Z) : Prop := Z.max (pgstart r) start ≤ Z.min (pgend r) end_.
Lemma status_cons_exists r l start end_ :
  below (pgstart r) l →
  (∃ p, start ≤ p ≤ end_ ∧ status (r :: l) p = Some true)
  ↔ (meets r start end_ ∧ purged r = true) ∨ ∃ p, start ≤ p ≤ end_ ∧ status l p = Some true.
Proof.
  intros Hl. unfold meets. cbn [status]. split.
  - intros (p & Hp & Hs). case_decide; [left|right; eauto]. split; [lia|by injection Hs].
  - intros [[Hm Hr]|(p & Hp & Hs)].
    + exists (Z.max (pgstart r) start). rewrite decide_True by lia. split; [lia|by rewrite Hr].
    + exists p. pose proof (status_range _ _ _ _ Hl Hs). by rewrite decide_False by lia.
Qed.
Lemma pin_list_flag start end_ ok l hi :
  0 ≤ start ≤ end_ → below hi l →
  (pin_list start end_ ok l).2 = true ↔ ∃ p, start ≤ p ≤ end_ ∧ status l p = Some true.
Proof.
  intros Hs. revert hi. induction l as [|r l IH]; intros hi; [cbn; intros _; naive_solver|]. intros (H1 & H2 & H3).
  rewrite status_cons_exists by done. cbn [pin_list].
  pose proof (IH _ H3) as IH'. destruct (pin_list start end_ ok l) as [x b]. cbn [snd] in IH'. rewrite <- IH'.
  assert (start ≤ pgstart r ∨ b = false) as Hb.
  { destruct b; [|by right]. left. destruct (proj1 IH' eq_refl) as (p & Hp & Hst).
    pose proof (status_range _ _ _ _ H3 Hst). lia. }
  unfold meets. range_tests; destruct (purged r), b; cbn [orb]; split; try done; try tauto; try lia;
    destruct Hb; first [done | lia | (intros [[? ?]|?]; first [done | lia]) | (intros ?; left; split; [lia|done]) | idtac].
Qed.

(** ** The heap *)

Definition lru_weight (r : ashmem_range) : Z := if purged r then 0 else range_size r.
Definition lru_pages (m : gmap Z ashmem_range) : Z := map_fold (λ _ r n, lru_weight r + n) 0 m.
Lemma lru_pages_insert id r m : m !! id = None → lru_pages (<[id := r]> m) = lru_weight r + lru_pages m.
Proof. intros Hi. unfold lru_pages. rewrite map_fold_insert_L; [done|intros; lia|done]. Qed.
Lemma lru_pages_delete id r m : m !! id = Some r → lru_pages m = lru_weight r + lru_pages (delete id m).
Proof. intros Hi. rewrite <- (insert_delete_id m id r Hi) at 1. by rewrite lru_pages_insert by apply lookup_delete_eq. Qed.
Lemma lru_pages_replace id r r' m :
  m !! id = Some r → lru_pages (<[id := r']> m) = lru_weight r' - lru_weight r + lru_pages m.
Proof.
  intros Hi. rewrite (lru_pages_delete id r m Hi), <- insert_delete_eq, lru_pages_insert by apply lookup_delete_eq. lia.
Qed.

(** The two lists and the count agree with the heap. *)
Record core (s : Ashmem) : Prop := {
  co_nodup : ∀ a A, areas s !! a = Some A → NoDup (unpinned_list A);
  co_list : ∀ a A id, areas s !! a = Some A →
    id ∈ unpinned_list A ↔ ∃ r, ranges s !! id = Some r ∧ r_asma r = a;
  co_owner : ∀ id r, ranges s !! id = Some r → is_Some (areas s !! r_asma r);
  co_lru_nodup : NoDup (lru_list s);
  co_lru : ∀ id, id ∈ lru_list s ↔ ∃ r, ranges s !! id = Some r ∧ purged r = false;
  co_count : lru_count s = u64 (lru_pages (ranges s));
}.

Definition frame (s s' : Ashmem) : Prop :=
  (refs s', vmas s', f_pos s', file_pos s', holes s') = (refs s, vmas s, f_pos s, file_pos s, holes s).
Definition elsewhere (a : Z) (s s' : Ashmem) : Prop :=
  ∀ id r, r_asma r ≠ a → ranges s !! id = Some r → ranges s' !! id = Some r.
Lemma elsewhere_trans a s1 s2 s3 : elsewhere a s1 s2 → elsewhere a s2 s3 → elsewhere a s1 s3.
Proof. unfold elsewhere. naive_solver. Qed.

Definition drop_id (id : Z) (l : list Z) : list Z := List.filter (λ x, negb (Z.eqb x id)) l.
Lemma elem_of_drop_id id x l : x ∈ drop_id id l ↔ x ∈ l ∧ x ≠ id.
Proof. unfold drop_id. rewrite !list_elem_of_In, filter_In, negb_true_iff, Z.eqb_neq. done. Qed.
Lemma drop_id_nodup id l : NoDup l → NoDup (drop_id id l).
Proof. rewrite !NoDup_ListNoDup. apply List.NoDup_filter. Qed.
Lemma drop_id_none id l : id ∉ l → drop_id id l = l.
Proof.
  induction l as [|x l IH]; cbn; [done|]. intros [Hx Hl]%not_elem_of_cons.
  destruct (Z.eqb_spec x id) as [->|]; [done|]. cbn. f_equal. by apply IH.
Qed.
Lemma drop_id_mid id l1 l2 : NoDup (l1 ++ id :: l2) → drop_id id (l1 ++ id :: l2) = l1 ++ l2.
Proof.
  intros (H1 & H2 & H3)%list.NoDup_app. apply list.NoDup_cons in H3 as [H3 H4].
  unfold drop_id. rewrite List.filter_app. cbn. rewrite Z.eqb_refl. cbn. f_equal.
  - apply drop_id_none. intros Hi. apply (H2 id Hi). by left.
  - by apply drop_id_none.
Qed.

Lemma range_del_spec id r A s :
  core s → ranges s !! id = Some r → areas s !! r_asma r = Some A →
  ∃ s', range_del id s = Val s' tt ∧ core s' ∧ ranges s' = delete id (ranges s)
    ∧ areas s' = <[r_asma r := with_list (drop_id id (unpinned_list A)) A]> (areas s) ∧ frame s s'.
Proof.
  intros [C1 C2 C3 C4 C5 C6] Hr HA. unfold range_del, the_range, the_area, put_area, lru_del, range_on_lru.
  run_m. rewrite Hr, HA.
  exists (MkAshmem (<[r_asma r := with_list (drop_id id (unpinned_list A)) A]> (areas s)) (delete id (ranges s))
     (drop_id id (lru_list s)) (u64 (lru_count s - lru_weight r)) (refs s) (vmas s) (f_pos s) (file_pos s) (holes s)).
  split; [|split; [|done]].
  - destruct (purged r) eqn:Ep; cbn; [|unfold lru_weight; rewrite Ep; done].
    unfold lru_weight. rewrite Ep, (drop_id_none id (lru_list s)), Z.sub_0_r.
    + by rewrite C6, u64_idemp, <- C6.
    + intros (r' & Hr' & Hp)%C5. congruence.
  - split; cbn [areas ranges lru_list lru_count].
    + intros a B. destruct (decide (a = r_asma r)) as [->|Hne].
      * rewrite lookup_insert_eq. intros [= <-]. by apply drop_id_nodup, (C1 (r_asma r)).
      * rewrite lookup_insert_ne by done. apply C1.
    + intros a B x. destruct (decide (a = r_asma r)) as [->|Hne].
      * rewrite lookup_insert_eq. intros [= <-]. cbn [unpinned_list with_list]. rewrite elem_of_drop_id, (C2 _ A) by done.
        destruct (decide (x = id)) as [->|]; [rewrite lookup_delete_eq|rewrite lookup_delete_ne by done]; naive_solver.
      * rewrite lookup_insert_ne by done. intros HB. rewrite (C2 a B) by done.
        destruct (decide (x = id)) as [->|]; [rewrite lookup_delete_eq, Hr|rewrite lookup_delete_ne by done]; naive_solver.
    + intros x r' [_ Hx]%lookup_delete_Some. destruct (decide (r_asma r' = r_asma r)) as [->|].
      * rewrite lookup_insert_eq. by eexists.
      * rewrite lookup_insert_ne by done. by apply (C3 x).
    + by apply drop_id_nodup.
    + intros x. rewrite elem_of_drop_id, C5.
      destruct (decide (x = id)) as [->|]; [rewrite lookup_delete_eq|rewrite lookup_delete_ne by done]; naive_solver.
    + rewrite C6, u64_sub. f_equal. rewrite (lru_pages_delete id r) by done. lia.
Qed.

Lemma range_shrink_spec id r start end_ s :
  core s → ranges s !! id = Some r →
  ∃ s', range_shrink id start end_ s = Val s' tt ∧ core s' ∧ ranges s' = <[id := resize start end_ r]> (ranges s)
    ∧ areas s' = areas s ∧ frame s s'.
Proof.
  intros [C1 C2 C3 C4 C5 C6] Hr. unfold range_shrink, the_range, put_range, range_on_lru. run_m. rewrite Hr. cbn [purged].
  exists (MkAshmem (areas s) (<[id := resize start end_ r]> (ranges s))
     (lru_list s) (u64 (lru_count s - (lru_weight r - lru_weight (resize start end_ r)))) (refs s) (vmas s) (f_pos s) (file_pos s) (holes s)).
  assert (∀ x (P : ashmem_range → Prop), (P (resize start end_ r) ↔ P r) →
    (∃ r', <[id := resize start end_ r]> (ranges s) !! x = Some r' ∧ P r') ↔ ∃ r', ranges s !! x = Some r' ∧ P r') as Hx.
  { intros x P HP. destruct (decide (x = id)) as [->|]; [rewrite lookup_insert_eq, Hr|by rewrite lookup_insert_ne by done].
    naive_solver. }
  split; [|split; [|done]].
  - change (MkRange (r_asma r) start end_ (purged r)) with (resize start end_ r).
    assert (lru_weight (resize start end_ r) = if purged r then 0 else range_size (resize start end_ r)) as -> by done.
    unfold lru_weight. destruct (purged r); cbn [negb].
    + by rewrite Z.sub_0_r, C6, u64_idemp, <- C6.
    + unfold set_lru. cbn [ranges areas lru_list lru_count refs vmas f_pos file_pos holes]. by rewrite u64_sub_r.
  - split; cbn [areas ranges lru_list lru_count]; try done.
    + intros a A x HA. rewrite (C2 a A x HA). symmetry. by apply (Hx x (λ r, r_asma r = a)).
    + intros x r' Hl. destruct (decide (x = id)) as [->|].
      * rewrite lookup_insert_eq in Hl. injection Hl as <-. exact (C3 id r Hr).
      * rewrite lookup_insert_ne in Hl by done. by apply (C3 x).
    + intros x. rewrite C5. symmetry. by apply (Hx x (λ r, purged r = false)).
    + rewrite C6, u64_sub. f_equal. rewrite (lru_pages_replace id r) by done. lia.
Qed.

Lemma elem_of_insert_before new prev l x : x ∈ insert_before new prev l ↔ x = new ∨ x ∈ l.
Proof.
  induction l as [|y l IH]; cbn; [rewrite list_elem_of_singleton; set_solver|].
  case_decide; rewrite !elem_of_cons; [done|]. rewrite IH. tauto.
Qed.
Lemma insert_before_nodup new prev l : NoDup l → new ∉ l → NoDup (insert_before new prev l).
Proof.
  induction l as [|y l IH]; cbn; [intros; apply list.NoDup_singleton|].
  intros [Hy Hl]%list.NoDup_cons [Hn Hn']%not_elem_of_cons. case_decide.
  - apply list.NoDup_cons. split; [set_solver|]. by apply list.NoDup_cons.
  - apply list.NoDup_cons. split; [rewrite elem_of_insert_before; naive_solver|by apply IH].
Qed.
Lemma insert_before_split new pre post :
  NoDup (pre ++ post) → insert_before new (head post) (pre ++ post) = pre ++ new :: post.
Proof.
  induction pre as [|x pre IH]; cbn; intros Hnd.
  - destruct post as [|y post]; cbn; [done|]. by rewrite decide_True.
  - apply list.NoDup_cons in Hnd as [Hx Hnd]. rewrite decide_False; [by rewrite IH|].
    destruct post as [|y post]; cbn; [done|]. intros [= ->]. apply Hx, elem_of_app. right. by left.
Qed.

Lemma range_alloc_spec a prev was start end_ id A s :
  core s → areas s !! a = Some A → ranges s !! id = None →
  ∃ s', range_alloc a prev was start end_ (Some id) s = Val s' 0 ∧ core s'
    ∧ ranges s' = <[id := MkRange a start end_ was]> (ranges s)
    ∧ areas s' = <[a := with_list (insert_before id prev (unpinned_list A)) A]> (areas s) ∧ frame s s'.
Proof.
  intros [C1 C2 C3 C4 C5 C6] HA Hi. unfold range_alloc, the_area, put_range, put_area, lru_add, range_on_lru.
  set (r := MkRange a start end_ was). run_m. cbn [areas set_ranges]. rewrite HA.
  exists (MkAshmem (<[a := with_list (insert_before id prev (unpinned_list A)) A]> (areas s)) (<[id := r]> (ranges s))
     (lru_list s ++ if was then [] else [id]) (u64 (lru_count s + lru_weight r)) (refs s) (vmas s) (f_pos s) (file_pos s) (holes s)).
  assert (∀ x (P : ashmem_range → Prop),
    (∃ r', <[id := r]> (ranges s) !! x = Some r' ∧ P r') ↔ (x = id ∧ P r) ∨ ∃ r', ranges s !! x = Some r' ∧ P r') as Hx.
  { intros x P. destruct (decide (x = id)) as [->|]; [rewrite lookup_insert_eq, Hi|rewrite lookup_insert_ne by done]; naive_solver. }
  assert (∀ B, areas s !! a = Some B → id ∉ unpinned_list B) as Hfresh.
  { intros B HB (r' & Hr' & _)%(C2 _ _ _ HB). congruence. }
  split; [|split; [|done]].
  - unfold lru_weight, r. cbn [purged]. destruct was; cbn [negb].
    + by rewrite app_nil_r, Z.add_0_r, C6, u64_idemp, <- C6.
    + done.
  - split; cbn [areas ranges lru_list lru_count].
    + intros b B. destruct (decide (b = a)) as [->|]; [rewrite lookup_insert_eq|rewrite lookup_insert_ne by done; apply C1].
      intros [= <-]. apply insert_before_nodup; [by apply (C1 a)|by apply Hfresh].
    + intros b B x HB. rewrite (Hx x (λ r', r_asma r' = b)). revert HB.
      destruct (decide (b = a)) as [->|]; [rewrite lookup_insert_eq|rewrite lookup_insert_ne by done].
      * intros [= <-]. cbn [unpinned_list with_list]. rewrite elem_of_insert_before, (C2 a A) by done. naive_solver.
      * intros HB. rewrite (C2 b B) by done. naive_solver.
    + intros x r' Hr'. assert (r_asma r' = a ∨ is_Some (areas s !! r_asma r')) as [->|Hs].
      { destruct (decide (x = id)) as [->|]; [rewrite lookup_insert_eq in Hr'; injection Hr' as <-; by left|].
        rewrite lookup_insert_ne in Hr' by done. right. by apply (C3 x). }
      { rewrite lookup_insert_eq. by eexists. }
      destruct (decide (r_asma r' = a)) as [->|]; [rewrite lookup_insert_eq; by eexists|by rewrite lookup_insert_ne].
    + assert (id ∉ lru_list s) as Hl by (intros (r' & Hr' & _)%C5; congruence). destruct was; [by rewrite app_nil_r|].
      apply list.NoDup_app. split_and!; [done| |apply list.NoDup_singleton]. intros x Hxl ->%list_elem_of_singleton. done.
    + intros x. rewrite (Hx x (λ r', purged r' = false)), elem_of_app, C5. unfold r. cbn [purged].
      destruct was; [rewrite elem_of_nil|rewrite list_elem_of_singleton]; naive_solver.
    + rewrite C6, u64_add. f_equal. rewrite lru_pages_insert by done. lia.
Qed.

(** ** The walks *)

Definition views (s : Ashmem) (ids : list Z) (rs : list ashmem_range) : Prop :=
  Forall2 (λ id r, ranges s !! id = Some r) ids rs.
Definition max_page : Z := 9223372036854775808.

Lemma views_frame s s' ids rs :
  (∀ id, id ∈ ids → ranges s' !! id = ranges s !! id) → views s ids rs → views s' ids rs.
Proof.
  intros Hsame. unfold views. induction 1 as [|id r ids rs Hr _ IH]; [constructor|].
  constructor; [rewrite Hsame by left; done|]. apply IH. intros x Hx. apply Hsame. by right.
Qed.
Lemma views_asma s a A rs : core s → areas s !! a = Some A → views s (unpinned_list A) rs → Forall (λ r, r_asma r = a) rs.
Proof.
  intros [_ C2 _ _ _ _] HA Hv.
  assert (∀ id, id ∈ unpinned_list A → ∃ r, ranges s !! id = Some r ∧ r_asma r = a) as Hin by (intros; by apply (C2 a A)).
  induction Hv as [|id r ids rs Hr _ IH]; constructor.
  - destruct (Hin id) as (r' & Hr' & <-); [by left|]. congruence.
  - apply IH. intros x Hx. apply Hin. by right.
Qed.
Lemma views_exist s a A : core s → areas s !! a = Some A → ∃ rs, views s (unpinned_list A) rs.
Proof.
  intros [_ C2 _ _ _ _] HA.
  assert (∀ id, id ∈ unpinned_list A → is_Some (ranges s !! id)) as Hin.
  { intros id (r & Hr & _)%(C2 a A id HA). by eexists. }
  induction (unpinned_list A) as [|id ids IH]; [exists []; constructor|].
  destruct (Hin id) as [r Hr]; [by left|]. destruct IH as [rs Hrs]; [intros x Hx; apply Hin; by right|].
  exists (r :: rs). by constructor.
Qed.


(** What an operation on an area leaves behind. *)
Record area_to (a : Z) (A : ashmem_area) (s s' : Ashmem) (ids : list Z) (rs : list ashmem_range) : Prop := {
  at_core : core s';
  at_areas : areas s' = <[a := with_list ids A]> (areas s);
  at_views : views s' ids rs;
  at_else : elsewhere a s s';
  at_frame : frame s s';
}.
Lemma area_to_trans a A s1 s2 s3 ids2 rs2 ids3 rs3 :
  area_to a A s1 s2 ids2 rs2 → area_to a (with_list ids2 A) s2 s3 ids3 rs3 → area_to a A s1 s3 ids3 rs3.
Proof.
  intros [_ A1 _ E1 F1] [C2 A2 V2 E2 F2]. split; try done.
  - rewrite A2, A1, insert_insert_eq. done.
  - by eapply elsewhere_trans.
  - unfold frame in *. congruence.
Qed.
Lemma area_to_refl a A s rs : core s → areas s !! a = Some A → views s (unpinned_list A) rs → area_to a A s s (unpinned_list A) rs.
Proof.
  intros Hc HA Hv. split; [done| |done|by intros ???|done]. symmetry. apply insert_id. rewrite HA. by destruct A.
Qed.

Lemma del_to a A s pre id post vpre r vpost :
  core s → areas s !! a = Some A → unpinned_list A = pre ++ id :: post →
  views s (pre ++ id :: post) (vpre ++ r :: vpost) → length pre = length vpre →
  ∃ s', range_del id s = Val s' tt ∧ area_to a A s s' (pre ++ post) (vpre ++ vpost)
    ∧ ∀ x, ranges s !! x = None → ranges s' !! x = None.
Proof.
  intros Hc HA HL Hv Hlen. pose proof (co_nodup _ Hc a A HA) as Hnd. rewrite HL in Hnd.
  pose proof Hv as Hv'. rewrite <- HL in Hv'. pose proof (views_asma _ _ _ _ Hc HA Hv') as Ha.
  apply Forall_app in Ha as [_ [Ha _]%Forall_cons_1].
  apply Forall2_app_inv in Hv as [Hv1 Hv2]; [|done]. apply Forall2_cons_1 in Hv2 as [Hr Hv2].
  destruct (range_del_spec id r A s Hc Hr) as (s' & E & C & Rg & Ar & F); [by rewrite Ha|].
  exists s'. split; [done|]. rewrite Ha, HL, drop_id_mid in Ar by done.
  split; [|intros x Hx; rewrite Rg; apply lookup_delete_None; by right]. split; try done.
  - unfold views. rewrite list.NoDup_app in Hnd. destruct Hnd as (_ & H2 & H3). apply list.NoDup_cons in H3 as [H3 _].
    apply Forall2_app; eapply views_frame; [|exact Hv1| |exact Hv2]; intros x Hx; rewrite Rg; apply lookup_delete_ne;
      intros ->; [apply (H2 x Hx); by left|done].
  - intros x r' Hne Hx. rewrite Rg, lookup_delete_ne; [done|]. intros ->. congruence.
Qed.
Lemma shrink_to a A s pre id post vpre r vpost start end_ :
  core s → areas s !! a = Some A → unpinned_list A = pre ++ id :: post →
  views s (pre ++ id :: post) (vpre ++ r :: vpost) → length pre = length vpre →
  ∃ s', range_shrink id start end_ s = Val s' tt
    ∧ area_to a A s s' (pre ++ id :: post) (vpre ++ resize start end_ r :: vpost)
    ∧ ∀ x, ranges s !! x = None → ranges s' !! x = None.
Proof.
  intros Hc HA HL Hv Hlen. pose proof (co_nodup _ Hc a A HA) as Hnd. rewrite HL in Hnd.
  pose proof Hv as Hv'. rewrite <- HL in Hv'. pose proof (views_asma _ _ _ _ Hc HA Hv') as Ha.
  apply Forall_app in Ha as [_ [Ha _]%Forall_cons_1].
  apply Forall2_app_inv in Hv as [Hv1 Hv2]; [|done]. apply Forall2_cons_1 in Hv2 as [Hr Hv2].
  destruct (range_shrink_spec id r start end_ s Hc Hr) as (s' & E & C & Rg & Ar & F).
  exists s'. split; [done|].
  split; [|intros x Hx; rewrite Rg, lookup_insert_ne; [done|intros <-; congruence]]. split; try done.
  - rewrite Ar. symmetry. apply insert_id. rewrite HA, <- HL. by destruct A.
  - rewrite list.NoDup_app in Hnd. destruct Hnd as (_ & H2 & H3). apply list.NoDup_cons in H3 as [H3 _].
    apply Forall2_app; [|constructor; [rewrite Rg; apply lookup_insert_eq|]];
      (eapply views_frame; [|first [exact Hv1 | exact Hv2]]); intros x Hx; rewrite Rg; apply lookup_insert_ne;
      intros <-; [apply (H2 id Hx); by left|done].
  - intros x r' Hne Hx. rewrite Rg, lookup_insert_ne; [done|]. intros <-. congruence.
Qed.
Lemma alloc_to a A s pre post vpre vpost was start end_ id :
  core s → areas s !! a = Some A → unpinned_list A = pre ++ post →
  views s (pre ++ post) (vpre ++ vpost) → length pre = length vpre → ranges s !! id = None →
  ∃ s', range_alloc a (head post) was start end_ (Some id) s = Val s' 0
    ∧ area_to a A s s' (pre ++ id :: post) (vpre ++ MkRange a start end_ was :: vpost).
Proof.
  intros Hc HA HL Hv Hlen Hi. pose proof (co_nodup _ Hc a A HA) as Hnd. rewrite HL in Hnd.
  destruct (range_alloc_spec a (head post) was start end_ id A s Hc HA Hi) as (s' & E & C & Rg & Ar & F).
  exists s'. split; [done|]. rewrite HL, insert_before_split in Ar by done. split; try done.
  - apply Forall2_app_inv in Hv as [Hv1 Hv2]; [|done].
    assert (∀ x, is_Some (ranges s !! x) → ranges s' !! x = ranges s !! x) as Hsame.
    { intros x [r Hr]. rewrite Rg. apply lookup_insert_ne. intros <-. congruence. }
    assert (∀ ids rs, views s ids rs → views s' ids rs) as Hkeep.
    { intros ids rs Hvs. unfold views in *. induction Hvs as [|x r ids rs Hr _ IH]; constructor; [|done]. rewrite Hsame; [done|by eexists]. }
    apply Forall2_app; [by apply Hkeep|]. constructor; [rewrite Rg; apply lookup_insert_eq|by apply Hkeep].
  - intros x r' Hne Hx. rewrite Rg, lookup_insert_ne; [done|]. intros <-. congruence.
Qed.

Lemma pin_loop_to a A s pre rest vpre vrest start end_ slab ret hi :
  core s → areas s !! a = Some A → unpinned_list A = pre ++ rest → views s (pre ++ rest) (vpre ++ vrest) →
  length pre = length vpre → below hi vrest → hi ≤ max_page → 0 ≤ start ≤ end_ → end_ < max_page →
  (∀ n, slab = Some n → ranges s !! n = None) →
  let p := pin_list start end_ (bool_decide (is_Some slab)) vrest in
  ∃ s' ids, pin_loop a rest start end_ slab ret s = Val s' (ret || p.2) ∧ area_to a A s s' (pre ++ ids) (vpre ++ p.1).
Proof.
  unfold max_page. revert A s pre vpre vrest ret hi.
  induction rest as [|id rest IH]; intros A s pre vpre vrest ret hi Hc HA HL Hv Hlen Hb Hhi Hs He Hn; cbn zeta.
  { apply Forall2_length in Hv as Hl. rewrite !length_app in Hl. destruct vrest; [|cbn in Hl; lia].
    exists s, []. cbn. rewrite orb_false_r. split; [done|]. rewrite <- HL. apply area_to_refl; by rewrite ?HL. }
  destruct vrest as [|r vrest].
  { apply Forall2_length in Hv. rewrite !length_app in Hv. cbn in Hv. lia. }
  pose proof Hv as Hv'. apply Forall2_app_inv in Hv' as [_ Hv']; [|done]. apply Forall2_cons_1 in Hv' as [Hr _].
  destruct Hb as (B1 & B2 & B3).
  assert (∀ A1 s1 pre1 vpre1 ret1, core s1 → areas s1 !! a = Some A1 → unpinned_list A1 = pre1 ++ rest →
            views s1 (pre1 ++ rest) (vpre1 ++ vrest) → length pre1 = length vpre1 →
            (∀ x, ranges s !! x = None → ranges s1 !! x = None) →
            ∃ s' ids, pin_loop a rest start end_ slab ret1 s1 = Val s' (ret1 || (pin_list start end_ (bool_decide (is_Some slab)) vrest).2)
              ∧ area_to a A1 s1 s' (pre1 ++ ids) (vpre1 ++ (pin_list start end_ (bool_decide (is_Some slab)) vrest).1)) as IH'.
  { intros A1 s1 pre1 vpre1 ret1 ????? Hx. apply (IH A1 s1 pre1 vpre1 vrest ret1 (pgstart r)); try done; [lia|]. intros n Hn'. apply Hx, Hn, Hn'. }
  clear IH. cbn [pin_loop pin_list]. destruct (pin_list start end_ (bool_decide (is_Some slab)) vrest) as [x b] eqn:Ep. cbn [fst snd] in IH'.
  unfold the_range. run_m. rewrite Hr.
  destruct (range_before_page r start) eqn:Eb.
  { exists s, (id :: rest). cbn [fst snd]. rewrite orb_false_r. split; [done|]. rewrite <- HL. apply area_to_refl; by rewrite ?HL. }
  destruct (page_range_in_range r start end_) eqn:Ei.
  2: { destruct (IH' A s (pre ++ [id]) (vpre ++ [r]) ret) as (s' & ids & E & T); try done.
       { by rewrite HL, <- app_assoc. } { by rewrite <- !app_assoc. } { rewrite !length_app. cbn. lia. }
       exists s', (id :: ids). split; [exact E|]. by rewrite <- !app_assoc in T. }
  assert (∀ start1 end1, ∃ s' ids,
            (range_shrink id start1 end1;; pin_loop a rest start end_ slab (ret || purged r)) s = Val s' (ret || (purged r || b))
            ∧ area_to a A s s' (pre ++ ids) (vpre ++ resize start1 end1 r :: x)) as Hshrink.
  { intros start1 end1. destruct (shrink_to a A s pre id rest vpre r vrest start1 end1 Hc HA HL Hv Hlen) as (s1 & E1 & T1 & N1).
    destruct (IH' (with_list (pre ++ id :: rest) A) s1 (pre ++ [id]) (vpre ++ [resize start1 end1 r]) (ret || purged r)) as (s' & ids & E & T).
    { apply T1. } { rewrite (at_areas _ _ _ _ _ _ T1). apply lookup_insert_eq. } { cbn. by rewrite <- app_assoc. }
    { rewrite <- !app_assoc. apply T1. } { rewrite !length_app. cbn. lia. } { done. }
    exists s', (id :: ids). rewrite (bind_val _ _ _ _ _ E1), E, orb_assoc. split; [done|].
    rewrite <- !app_assoc in T. by eapply area_to_trans. }
  unfold range_before_page in Eb. apply bool_decide_eq_false in Eb.
  destruct (page_range_subsumes_range r start end_) eqn:Es.
  { destruct (del_to a A s pre id rest vpre r vrest Hc HA HL Hv Hlen) as (s1 & E1 & T1 & N1).
    destruct (IH' (with_list (pre ++ rest) A) s1 pre vpre (ret || purged r)) as (s' & ids & E & T); try done.
    { apply T1. } { rewrite (at_areas _ _ _ _ _ _ T1). apply lookup_insert_eq. } { apply T1. }
    exists s', ids. rewrite E1, E, <- orb_assoc. cbn [fst snd]. split; [done|]. by eapply area_to_trans. }
  assert (pgstart r ≤ end_) as Eo.
  { unfold page_range_in_range, page_in_range, page_range_subsumes_range in Ei.
    repeat (apply orb_true_iff in Ei as [Ei|Ei]); apply bool_decide_eq_true in Ei; lia. }
  destruct (bool_decide (start ≤ pgstart r)) eqn:Ec.
  { rewrite u64_small by lia. apply Hshrink. }
  apply bool_decide_eq_false in Ec. rewrite (u64_small (start - 1)) by lia.
  destruct (bool_decide (pgend r ≤ end_)) eqn:Ed; [apply Hshrink|].
  rewrite u64_small by lia. cbn [fst snd].
  assert (r_asma r = a) as Hra.
  { pose proof Hv as Hw. rewrite <- HL in Hw. apply (views_asma _ _ _ _ Hc HA), Forall_app in Hw as [_ [Hw _]%Forall_cons_1]. done. }
  destruct slab as [n|].
  - destruct (alloc_to a A s pre (id :: rest) vpre (r :: vrest) (purged r) (end_ + 1) (pgend r) n Hc HA HL Hv Hlen (Hn n eq_refl)) as (s1 & E1 & T1).
    cbn [head] in E1. rewrite E1.
    destruct (shrink_to a (with_list (pre ++ n :: id :: rest) A) s1 (pre ++ [n]) id rest (vpre ++ [MkRange a (end_ + 1) (pgend r) (purged r)])
      r vrest (pgstart r) (start - 1)) as (s2 & E2 & T2 & _).
    { apply T1. } { rewrite (at_areas _ _ _ _ _ _ T1). apply lookup_insert_eq. } { cbn. by rewrite <- app_assoc. }
    { rewrite <- !app_assoc. apply T1. } { rewrite !length_app. cbn. lia. }
    exists s2, (n :: id :: rest). rewrite E2. rewrite bool_decide_eq_true_2 by by eexists. split; [done|].
    rewrite <- !app_assoc in T2. unfold resize at 1. rewrite Hra. by eapply area_to_trans.
  - unfold range_alloc. run_m.
    destruct (shrink_to a A s pre id rest vpre r vrest (pgstart r) (start - 1) Hc HA HL Hv Hlen) as (s2 & E2 & T2 & _).
    exists s2, (id :: rest). rewrite E2. rewrite bool_decide_eq_false_2 by (by intros [? ?]). done.
Qed.

(** Pages and statuses of an area. *)
Definition area_ranges (s : Ashmem) (A : ashmem_area) : list ashmem_range := omap (ranges s !!.) (unpinned_list A).
Definition page_status (s : Ashmem) (a p : Z) : option bool := A ← areas s !! a; status (area_ranges s A) p.
Lemma views_area s A rs : views s (unpinned_list A) rs → area_ranges s A = rs.
Proof. unfold area_ranges. induction 1 as [|id r ids rs Hr _ IH]; cbn; [done|]. by rewrite Hr, IH. Qed.

Lemma ashmem_pin_to a A s start end_ slab rs :
  core s → areas s !! a = Some A → views s (unpinned_list A) rs → below max_page rs → 0 ≤ start ≤ end_ → end_ < max_page →
  (∀ n, slab = Some n → ranges s !! n = None) →
  let p := pin_list start end_ (bool_decide (is_Some slab)) rs in
  ∃ s' ids, ashmem_pin a start end_ slab s = Val s' (Z.b2z p.2) ∧ area_to a A s s' ids p.1.
Proof.
  intros Hc HA Hv Hb Hs He Hn. cbn zeta.
  destruct (pin_loop_to a A s [] (unpinned_list A) [] rs start end_ slab false max_page) as (s' & ids & E & T); try done.
  exists s', ids. split; [|done]. unfold ashmem_pin, the_area. run_m. by rewrite HA, E.
Qed.

Lemma status_app l1 l2 p : status (l1 ++ l2) p = match status l1 p with Some b => Some b | None => status l2 p end.
Proof. induction l1 as [|r l1 IH]; cbn; [done|]. by case_decide. Qed.
Lemma status_above l p : Forall (λ r, p < pgstart r) l → status l p = None.
Proof. induction 1 as [|r l Hr _ IH]; cbn; [done|]. by rewrite decide_False by lia. Qed.
Lemma status_in hi l r p : below hi l → r ∈ l → pgstart r ≤ p ≤ pgend r → status l p = Some (purged r).
Proof.
  revert hi. induction l as [|x l IH]; intros hi; cbn; [by intros _ ?%elem_of_nil|].
  intros (H1 & H2 & H3) [->|Hr]%elem_of_cons Hp; [by rewrite decide_True|].
  pose proof (IH _ H3 Hr Hp) as Hs. pose proof (status_range _ _ _ _ H3 Hs). by rewrite decide_False by lia.
Qed.
Lemma below_remove hi l1 r l2 : below hi (l1 ++ r :: l2) → below hi (l1 ++ l2).
Proof.
  revert hi. induction l1 as [|x l1 IH]; intros hi; cbn; [|naive_solver].
  intros (H1 & H2 & H3). eapply below_mono; [exact H3|lia].
Qed.
Lemma below_status_removed hi l1 r l2 p :
  below hi (l1 ++ r :: l2) → pgstart r ≤ p ≤ pgend r → status (l1 ++ l2) p = None.
Proof.
  revert hi. induction l1 as [|x l1 IH]; intros hi; cbn.
  - intros (H1 & H2 & H3) Hp. apply (status_below (pgstart r)); [done|lia].
  - intros (H1 & H2 & H3) Hp. pose proof (status_in _ _ r p H3 ltac:(set_solver) Hp) as Hs.
    pose proof (status_range _ _ _ _ H3 Hs). rewrite decide_False by lia. by apply (IH _ H3).
Qed.
Lemma status_removed hi l1 r l2 p :
  below hi (l1 ++ r :: l2) →
  status (l1 ++ r :: l2) p = if decide (pgstart r ≤ p ≤ pgend r) then Some (purged r) else status (l1 ++ l2) p.
Proof.
  intros Hb. case_decide as Hp; [apply (status_in hi); [done|set_solver|done]|].
  rewrite !status_app. cbn. by rewrite decide_False.
Qed.
Lemma below_insert hi l1 r l2 :
  below hi (l1 ++ l2) → Forall (λ x, pgend r < pgstart x) l1 → below (pgstart r) l2 → 0 ≤ pgstart r ≤ pgend r → pgend r < hi →
  below hi (l1 ++ r :: l2).
Proof.
  intros Hb Hl. revert hi Hb. induction Hl as [|x l1 Hx _ IH]; intros hi; cbn; [done|]. naive_solver.
Qed.

(** What unpinning a range of pages may do; [was]: something merged before was purged. *)
Record unpinned_to (start end_ : Z) (was : bool) (l l' : list ashmem_range) : Prop := {
  ut_pages : ∀ p, is_Some (status l' p) ↔ is_Some (status l p) ∨ start ≤ p ≤ end_;
  ut_keep : ∀ p, status l p = Some true → status l' p = Some true;
  ut_was : was = true → ∀ p, start ≤ p ≤ end_ → status l' p = Some true;
  ut_only : ∀ p, status l' p = Some true →
    status l p = Some true ∨ was = true ∨ ∃ q, start ≤ q ≤ end_ ∧ status l q = Some true;
}.

Lemma unpinned_subsumed start end_ l r hi :
  below hi l → r ∈ l → pgstart r ≤ start → end_ ≤ pgend r → unpinned_to start end_ false l l.
Proof.
  intros Hb Hr H1 H2. split; [|done|done|auto]. intros p. split; [auto|]. intros [?|Hp]; [done|].
  rewrite (status_in hi l r) by (done || lia). by eexists.
Qed.
Lemma unpinned_insert a start end_ was l1 l2 hi :
  below hi (l1 ++ l2) → Forall (λ r, end_ < pgstart r) l1 → below start l2 → start ≤ end_ →
  unpinned_to start end_ was (l1 ++ l2) (l1 ++ MkRange a start end_ was :: l2).
Proof.
  intros Hb Hl H2 Hse.
  assert (∀ p, start ≤ p ≤ end_ → status (l1 ++ l2) p = None) as Hout.
  { intros p Hp. rewrite status_app, status_above; [apply (status_below start); [done|lia]|].
    eapply Forall_impl; [|exact Hl]. cbn. lia. }
  assert (∀ p, status (l1 ++ MkRange a start end_ was :: l2) p
               = if decide (start ≤ p ≤ end_) then Some was else status (l1 ++ l2) p) as Hst.
  { intros p. case_decide as Hp.
    - rewrite status_app, status_above; [cbn; by rewrite decide_True|]. eapply Forall_impl; [|exact Hl]. cbn. lia.
    - rewrite !status_app. cbn. by rewrite decide_False. }
  split.
  - intros p. rewrite Hst. case_decide; [|tauto]. rewrite Hout by done. split; [by right|by eexists].
  - intros p Hp. rewrite Hst, decide_False; [done|]. intros Hi. by rewrite Hout in Hp.
  - intros -> p Hp. by rewrite Hst, decide_True.
  - intros p. rewrite Hst. case_decide; [|by left]. intros [= ->]. auto.
Qed.
Lemma unpinned_merge start end_ was l1 r l2 l' hi :
  below hi (l1 ++ r :: l2) → meets r start end_ →
  unpinned_to (Z.min (pgstart r) start) (Z.max (pgend r) end_) (was || purged r) (l1 ++ l2) l' →
  unpinned_to start end_ was (l1 ++ r :: l2) l'.
Proof.
  unfold meets. intros Hb Hm [U1 U2 U3 U4].
  pose proof (λ p, status_removed hi l1 r l2 p Hb) as Hst.
  assert (∀ p, Z.min (pgstart r) start ≤ p ≤ Z.max (pgend r) end_ ↔ pgstart r ≤ p ≤ pgend r ∨ start ≤ p ≤ end_) as Hu by lia.
  split.
  - intros p. rewrite U1, Hst, Hu. case_decide; [|tauto]. split; [left; by eexists|tauto].
  - intros p. rewrite Hst. case_decide as Hp; [|apply U2]. intros [= Hr]. apply U3; [by rewrite Hr, orb_true_r|lia].
  - intros -> p Hp. apply U3; [done|lia].
  - intros p Hp. destruct (U4 p Hp) as [H4|[H4|(q & Hq & H4)]].
    + left. rewrite Hst. case_decide; [|done]. by rewrite (below_status_removed hi l1 r l2) in H4.
    + apply orb_true_iff in H4 as [->|H4]; [auto|]. right; right. exists (Z.max (pgstart r) start).
      split; [lia|]. rewrite Hst, decide_True by lia. by rewrite H4.
    + assert (¬ (pgstart r ≤ q ≤ pgend r)) as Hn.
      { intros Hr. by rewrite (below_status_removed hi l1 r l2) in H4. }
      right; right. exists q. split; [lia|]. by rewrite Hst, decide_False.
Qed.

Lemma unpin_scan_to s ids rs start end_ hi :
  views s ids rs → below hi rs → start ≤ end_ →
  ∃ stop, unpin_scan ids start end_ s = Val s stop ∧
    match stop with
    | Insert before => ∃ pre post vpre vpost, ids = pre ++ post ∧ before = head post ∧ rs = vpre ++ vpost
        ∧ length pre = length vpre ∧ Forall (λ r, end_ < pgstart r) vpre ∧ below start vpost
    | Subsumed => ∃ r, r ∈ rs ∧ pgstart r ≤ start ∧ end_ ≤ pgend r
    | Merged id r => ∃ pre post vpre vpost, ids = pre ++ id :: post ∧ rs = vpre ++ r :: vpost
        ∧ length pre = length vpre ∧ meets r start end_
    end.
Proof.
  intros Hv. revert hi. induction Hv as [|id r ids rs Hr _ IH]; intros hi Hb Hse; cbn [unpin_scan].
  { eexists. split; [reflexivity|]. by exists [], [], [], []. }
  destruct Hb as (B1 & B2 & B3). unfold the_range. run_m. rewrite Hr.
  destruct (range_before_page r start) eqn:E1.
  { eexists. split; [reflexivity|]. exists [], (id :: ids), [], (r :: rs). apply bool_decide_eq_true in E1.
    split_and!; [done..|constructor|]. cbn. split_and!; [lia|lia|lia|done]. }
  destruct (page_range_subsumed_by_range r start end_) eqn:E2.
  { eexists. split; [reflexivity|]. apply bool_decide_eq_true in E2. exists r. split; [by left|lia]. }
  destruct (page_range_in_range r start end_) eqn:E3.
  { eexists. split; [reflexivity|]. exists [], ids, [], rs. split_and!; try done. unfold meets. range_tests; done. }
  destruct (IH _ B3 Hse) as (stop & E & Hstop). exists stop. split; [exact E|].
  assert (end_ < pgstart r) as Habove by (range_tests; done).
  destruct stop as [before| |id' r'].
  - destruct Hstop as (pre & post & vpre & vpost & -> & -> & -> & ? & ? & ?).
    exists (id :: pre), post, (r :: vpre), vpost. split_and!; try done; [cbn; lia|by constructor].
  - destruct Hstop as (x & ? & ?). exists x. split; [by right|done].
  - destruct Hstop as (pre & post & vpre & vpost & -> & -> & ? & ?).
    exists (id :: pre), post, (r :: vpre), vpost. split_and!; try done. cbn; lia.
Qed.

Lemma unpin_loop_to fuel a A s rs start end_ was n hi :
  core s → areas s !! a = Some A → views s (unpinned_list A) rs → below hi rs → 0 ≤ start ≤ end_ → end_ < hi →
  ranges s !! n = None → (length (unpinned_list A) ≤ fuel)%nat →
  (was = true → ∃ q, start ≤ q ≤ end_ ∧ status rs q = None) →
  ∃ s' ids' rs', unpin_loop fuel a start end_ was (Some n) s = Val s' 0 ∧ area_to a A s s' ids' rs'
    ∧ below hi rs' ∧ unpinned_to start end_ was rs rs'.
Proof.
  revert A s rs start end_ was. induction fuel as [|fuel IH]; intros A s rs start end_ was Hc HA Hv Hb Hs He Hn Hf Hk;
    cbn [unpin_loop]; unfold the_area; rewrite (bind_val _ _ s s A) by (run_m; by rewrite HA);
    destruct (unpin_scan_to s _ _ start end_ hi Hv Hb ltac:(lia)) as (stop & E & Hstop); rewrite (bind_val _ _ _ _ _ E).
  all: destruct stop as [before| |id r].
  1, 4: destruct Hstop as (pre & post & vpre & vpost & HL & -> & -> & Hlen & Hup & Hlow);
    rewrite HL in Hv; destruct (alloc_to a A s pre post vpre vpost was start end_ n Hc HA HL Hv Hlen Hn) as (s' & E' & T);
    exists s', (pre ++ n :: post), (vpre ++ MkRange a start end_ was :: vpost);
    (split; [exact E'|]); (split; [exact T|]); (split; [by apply below_insert|]);
    apply (unpinned_insert a start end_ was vpre vpost hi); [done|done|done|lia].
  1, 3: destruct Hstop as (x & Hx & H1 & H2); exists s, (unpinned_list A), rs; (split; [done|]);
    (split; [by apply area_to_refl|]); (split; [done|]);
    destruct was; [|by apply (unpinned_subsumed start end_ rs x hi)]; exfalso; destruct (Hk eq_refl) as (q & Hq & Hnone);
    rewrite (status_in hi rs x q Hb Hx) in Hnone by lia; discriminate.
  - destruct Hstop as (pre & post & vpre & vpost & HL & _). rewrite HL, length_app in Hf. cbn in Hf. lia.
  - destruct Hstop as (pre & post & vpre & vpost & HL & -> & Hlen & Hm).
    pose proof Hv as Hv0. rewrite HL in Hv. destruct (del_to a A s pre id post vpre r vpost Hc HA HL Hv Hlen) as (s1 & E1 & T1 & N1).
    rewrite (bind_val _ _ _ _ _ E1).
    assert (0 ≤ pgstart r ≤ pgend r ∧ pgend r < hi) as [Hr1 Hr2].
    { clear -Hb. revert hi Hb. induction vpre as [|x l IH]; intros hi; cbn; [naive_solver|]. intros (? & ? & Hb%IH). lia. }
    destruct (IH (with_list (pre ++ post) A) s1 (vpre ++ vpost) (Z.min (pgstart r) start) (Z.max (pgend r) end_) (was || purged r))
      as (s' & ids' & rs' & E2 & T2 & B2 & U2).
    + apply T1.
    + rewrite (at_areas _ _ _ _ _ _ T1). apply lookup_insert_eq.
    + apply T1.
    + by eapply below_remove.
    + lia.
    + lia.
    + by apply N1.
    + cbn [unpinned_list with_list]. rewrite HL, length_app in Hf. rewrite length_app. cbn in Hf. lia.
    + intros _. exists (pgstart r). split; [lia|]. apply (below_status_removed hi vpre r vpost); [done|lia].
    + exists s', ids', rs'. split; [exact E2|]. split; [by eapply area_to_trans|]. split; [done|].
      by apply (unpinned_merge start end_ was vpre r vpost rs' hi).
Qed.

Lemma ashmem_unpin_to a A s rs start end_ n hi :
  core s → areas s !! a = Some A → views s (unpinned_list A) rs → below hi rs → 0 ≤ start ≤ end_ → end_ < hi →
  ranges s !! n = None →
  ∃ s' ids' rs', ashmem_unpin a start end_ (Some n) s = Val s' 0 ∧ area_to a A s s' ids' rs'
    ∧ below hi rs' ∧ unpinned_to start end_ false rs rs'.
Proof.
  intros Hc HA Hv Hb Hs He Hn.
  destruct (unpin_loop_to (length (unpinned_list A)) a A s rs start end_ false n hi) as (s' & ids' & rs' & E & T); try done.
  exists s', ids', rs'. split; [|done]. unfold ashmem_unpin, the_area. run_m. by rewrite HA, E.
Qed.

Lemma status_loop_to s ids rs start end_ hi :
  views s ids rs → below hi rs → start ≤ end_ →
  ∃ b : bool, status_loop ids start end_ s = Val s (if b then ASHMEM_IS_UNPINNED else ASHMEM_IS_PINNED)
    ∧ (b = true ↔ ∃ p, start ≤ p ≤ end_ ∧ is_Some (status rs p)).
Proof.
  intros Hv. revert hi. induction Hv as [|id r ids rs Hr _ IH]; intros hi Hb Hse; cbn [status_loop].
  { exists false. split; [done|]. split; [done|]. by intros (p & _ & ? & ?). }
  destruct Hb as (B1 & B2 & B3). unfold the_range. run_m. rewrite Hr.
  destruct (range_before_page r start) eqn:E1.
  { exists false. split; [done|]. split; [done|]. intros (p & Hp & x & Hx). apply bool_decide_eq_true in E1.
    cbn in Hx. rewrite decide_False in Hx by lia. pose proof (status_range _ _ _ _ B3 Hx). lia. }
  destruct (page_range_in_range r start end_) eqn:E3.
  { exists true. split; [done|]. split; [|done]. intros _. exists (Z.max (pgstart r) start).
    assert (meets r start end_) as Hm by (unfold meets; range_tests; done). unfold meets in Hm.
    split; [lia|]. cbn. rewrite decide_True by lia. by eexists. }
  destruct (IH _ B3 Hse) as (b & E & Hiff). exists b. split; [exact E|]. rewrite Hiff.
  assert (end_ < pgstart r) as Habove by (range_tests; done). cbn [status].
  split; intros (p & Hp & Hx); exists p; (split; [done|]); by rewrite decide_False in * by lia.
Qed.

(** ** Taking pages away *)

Definition purge (r : ashmem_range) : ashmem_range := MkRange (r_asma r) (pgstart r) (pgend r) true.
Definition hole_of (s : Ashmem) (r : ashmem_range) : option Z * Z * Z :=
  let start := loff_t (pgstart r * PAGE_SIZE) in
  let end_ := loff_t ((pgend r + 1) * PAGE_SIZE) in
  (A ← areas s !! r_asma r; file A, start, end_ - start).

Lemma core_purge s id r :
  core s → ranges s !! id = Some r → purged r = false →
  core (MkAshmem (areas s) (<[id := purge r]> (ranges s)) (drop_id id (lru_list s)) (u64 (lru_count s - range_size r))
          (refs s) (vmas s) (f_pos s) (file_pos s) (holes s)).
Proof.
  intros [C1 C2 C3 C4 C5 C6] Hr Hp. split; cbn [areas ranges lru_list lru_count]; try done.
  - intros a A x HA. rewrite (C2 a A x HA).
    destruct (decide (x = id)) as [->|]; [rewrite lookup_insert_eq, Hr|by rewrite lookup_insert_ne].
    split; intros (r' & [= <-] & E); eexists; by split.
  - intros x r' Hx. destruct (decide (x = id)) as [->|].
    + rewrite lookup_insert_eq in Hx. injection Hx as <-. exact (C3 id r Hr).
    + rewrite lookup_insert_ne in Hx by done. by apply (C3 x).
  - by apply drop_id_nodup.
  - intros x. rewrite elem_of_drop_id, C5.
    destruct (decide (x = id)) as [->|]; [rewrite lookup_insert_eq|rewrite lookup_insert_ne by done]; naive_solver.
  - rewrite C6, u64_sub. f_equal. rewrite (lru_pages_replace id r) by done. unfold lru_weight. rewrite Hp. cbn. lia.
Qed.

(** [ids]: the ranges that were taken. *)
Record purged_to (s s' : Ashmem) (ids : list Z) : Prop := {
  pt_core : core s';
  pt_areas : areas s' = areas s;
  pt_other : (refs s', vmas s', f_pos s', file_pos s') = (refs s, vmas s, f_pos s, file_pos s);
  pt_ranges : ∀ id, ranges s' !! id = (λ r, if decide (id ∈ ids) then purge r else r) <$> ranges s !! id;
  pt_holes : ∃ rs, views s ids rs ∧ holes s' = holes s ++ (hole_of s <$> rs) ∧ Forall (λ r, purged r = false) rs;
}.

Lemma shrink_loop_to l nr freed s :
  core s → l = lru_list s → 0 ≤ freed < 18446744073709551616 →
  ∃ s' ids freed', shrink_loop l nr freed s = Val s' freed' ∧ purged_to s s' ids ∧ prefix ids l
    ∧ u64 (freed' - freed) = u64 (lru_count s - lru_count s').
Proof.
  revert nr freed s. induction l as [|id l IH]; intros nr freed s Hc Hl Hfr; cbn [shrink_loop].
  { exists s, [], freed. split; [done|]. split; [|split; [done|by rewrite !Z.sub_diag]]. split; try done.
    - intros id. destruct (ranges s !! id); cbn; [|done]. by rewrite decide_False by by intros ?%elem_of_nil.
    - exists []. split; [constructor|]. cbn. by rewrite app_nil_r. }
  pose proof (co_lru_nodup _ Hc) as Hnd. rewrite <- Hl in Hnd. apply list.NoDup_cons in Hnd as [Hid Hnd].
  assert (id ∈ lru_list s) as (r & Hr & Hp)%(co_lru _ Hc) by (rewrite <- Hl; by left).
  destruct (co_owner _ Hc id r Hr) as [A HA].
  unfold the_range, the_area, put_range, lru_del. run_m. rewrite Hr, HA. cbn [areas ranges set_ranges add_hole].
  set (s1 := set_lru _ _ _).
  assert (core s1) as Hc1.
  { pose proof (core_purge s id r Hc Hr Hp) as [D1 D2 D3 D4 D5 D6]. split; done. }
  assert (lru_list s1 = l) as Hl1.
  { unfold s1. cbn. rewrite <- Hl. cbn. rewrite Z.eqb_refl. cbn. apply (drop_id_none id l Hid). }
  assert (ranges s1 = <[id := purge r]> (ranges s)) as Hr1 by done.
  assert (lru_count s1 = u64 (lru_count s - range_size r)) as Hn1 by done.
  assert (purged_to s s1 [id]) as H1.
  { split; try done.
    - intros x. rewrite Hr1. destruct (decide (x = id)) as [->|].
      + rewrite lookup_insert_eq, Hr. cbn. by rewrite decide_True by by left.
      + rewrite lookup_insert_ne by done. destruct (ranges s !! x); cbn; [|done].
        rewrite decide_False; [done|]. by rewrite list_elem_of_singleton.
    - exists [r]. split; [by repeat constructor|]. split; [|by repeat constructor]. unfold s1, hole_of. cbn. by rewrite HA. }
  case_decide as Hle.
  - exists s1, [id], (u64 (freed + range_size r)). split; [done|]. split; [done|].
    split; [exists l; done|]. rewrite Hn1, u64_sub_r, u64_sub. f_equal. lia.
  - destruct (IH (u64 (nr - 1)) (u64 (freed + range_size r)) s1 Hc1 (eq_sym Hl1)) as (s' & ids & freed' & E & H2 & [k Hk] & Hf).
    { apply (wrap_range 64). lia. }
    exists s', (id :: ids), freed'. split; [exact E|]. split; [|split].
    + destruct H1 as [_ A1 O1 R1 (rs1 & V1 & L1 & F1)], H2 as [C2 A2 O2 R2 (rs2 & V2 & L2 & F2)].
      assert (id ∉ ids) as Hni by (intros Hi; apply Hid; rewrite Hk; apply elem_of_app; by left).
      split; [done|by rewrite A2|congruence| |].
      * intros x. rewrite R2, R1. destruct (ranges s !! x) as [r'|]; cbn; [|done]. f_equal.
        rewrite (decide_ext (x ∈ id :: ids) (x ∈ [id] ∨ x ∈ ids)) by set_solver.
        destruct (decide (x ∈ ids)), (decide (x ∈ [id])); [| |rewrite decide_True by auto; done|rewrite decide_False by tauto; done].
        { rewrite decide_True by auto. done. } { rewrite decide_True by auto. done. }
      * exists (r :: rs2). split; [|split].
        -- constructor; [done|]. eapply (views_frame s1); [|exact V2]. intros x Hx. rewrite Hr1, lookup_insert_ne; [done|]. by intros <-.
        -- rewrite L2, L1. rewrite <- app_assoc. f_equal. inversion V1 as [|? r0 ? ? Hr0 V1']; subst. inversion V1'; subst.
           rewrite Hr in Hr0. injection Hr0 as <-. done.
        -- constructor; done.
    + exists k. by rewrite Hk.
    + rewrite Hn1, u64_sub in Hf. rewrite u64_sub_r in Hf.
      transitivity (u64 (u64 (freed' - (freed + range_size r)) + range_size r)); [rewrite u64_add; f_equal; lia|].
      rewrite Hf, u64_add. f_equal. lia.
Qed.

(** ** The driver *)

(** The pages of an area that a request can name: offsets are 32 bits wide. *)
Definition npages (A : ashmem_area) : Z := Z.min (PAGE_ALIGN (size A) / PAGE_SIZE) 1048576.
Definition name_ok (n : bytes) : Prop :=
  length n = (PREFIX_LEN + ASHMEM_NAME_LEN)%nat ∧ take PREFIX_LEN n = ASHMEM_NAME_PREFIX
  ∧ ∃ k, c_string (drop PREFIX_LEN n) = Some k ∧ (length k < ASHMEM_NAME_LEN)%nat.

Definition area_owners (m : gmap Z ashmem_area) (f : Z) : Z :=
  map_fold (λ _ A n, (if decide (file A = Some f) then 1 else 0) + n) 0 m.
Definition vma_owners (m : gmap Z (option Z)) (f : Z) : Z :=
  map_fold (λ _ o n, (if decide (o = Some f) then 1 else 0) + n) 0 m.
Definition owners (s : Ashmem) (f : Z) : Z := area_owners (areas s) f + vma_owners (vmas s) f.

Record area_ok (s : Ashmem) (A : ashmem_area) : Prop := {
  ao_ranges : below (npages A) (area_ranges s A);
  ao_file : file A = None → unpinned_list A = [];
  ao_name : name_ok (name A);
}.
Record ash_ok (s : Ashmem) : Prop := {
  ok_core : core s;
  ok_area : ∀ a A, areas s !! a = Some A → area_ok s A;
  ok_files : ∀ f, refs s !! f = if decide (owners s f = 0) then None else Some (owners s f);
  ok_inj : ∀ a b A B f, areas s !! a = Some A → areas s !! b = Some B → file A = Some f → file B = Some f → a = b;
}.

Inductive ash_op : Type :=
  | OOpen (a : Z) | ORelease (a : Z) | OIoctl (a : Z) (cmd : ashmem_cmd)
  | OMmap (a v vm_flags : Z) (setup : Z + Z) (zero : Z * Z) | OMunmap (v : Z)
  | ORead (a : Z) (answer : Z * Z) | OSeek (a target : Z)
  | OShrink (fs : bool) (nr : Z).
Definition run_op (o : ash_op) : M Ashmem Z :=
  match o with
  | OOpen a => ashmem_open 0 (Some a)
  | ORelease a => ashmem_release a
  | OIoctl a cmd => ashmem_ioctl a cmd
  | OMmap a v flags setup zero => r ← ashmem_mmap a v flags setup zero; mret r.1
  | OMunmap v => munmap v;; mret 0
  | ORead a answer => ashmem_read a answer
  | OSeek a target => ashmem_llseek a target
  | OShrink fs nr => ashmem_shrink_scan fs nr
  end.

(** The request names at least one page, and no more than there are numbers for: this
    leaves out a zero length at the very end of an area, and zero lengths in areas of 4 GB. *)
Definition pin_sane (sz : Z) (pin : option (Z * Z)) : bool :=
  match pin with
  | Some p =>
      bool_decide (0 ≤ p.1 < 4294967296 ∧ 0 ≤ p.2 < 4294967296)
      && match pin_pages sz p with inr (start, end_) => bool_decide (start ≤ end_ < max_page) | inl _ => true end
  | None => true
  end.
(** The histories spoken of: objects that are made are new, operations are on open areas
    and live mappings, there is memory for the range a pin or unpin may need ([Some n]), a
    request names pages ([pin_sane]), and a name ends within the bytes that are read. *)
Definition op_ok (s : Ashmem) (o : ash_op) : bool :=
  match o with
  | OOpen a => bool_decide (areas s !! a = None)
  | OIoctl a cmd =>
      match areas s !! a, cmd with
      | Some A, CPin _ pin (Some n) => bool_decide (ranges s !! n = None) && pin_sane (size A) pin
      | Some A, CPin ASHMEM_GET_PIN_STATUS pin None => pin_sane (size A) pin
      | Some A, CPin _ _ None => false
      | Some A, CSetName (Some u) =>
          bool_decide ((ASHMEM_NAME_LEN ≤ length u)%nat ∨ is_Some (c_string (take ASHMEM_NAME_LEN u)))
      | Some A, _ => true
      | None, _ => false
      end
  | ORelease a | ORead a _ | OSeek a _ => bool_decide (is_Some (areas s !! a))
  | OMmap a v _ setup zero =>
      bool_decide (is_Some (areas s !! a) ∧ vmas s !! v = None ∧ refs s !! zero.2 = None ∧ setup ≠ inr zero.2)
      && match setup with inr f => bool_decide (refs s !! f = None) | inl _ => true end
  | OMunmap v => bool_decide (is_Some (vmas s !! v))
  | OShrink _ _ => true
  end.

Lemma views_of_area s a A : core s → areas s !! a = Some A → views s (unpinned_list A) (area_ranges s A).
Proof. intros Hc HA. destruct (views_exist s a A Hc HA) as [rs Hv]. by rewrite (views_area s A rs Hv). Qed.

Lemma area_ranges_same s s' A : (∀ id, id ∈ unpinned_list A → ranges s' !! id = ranges s !! id) → area_ranges s' A = area_ranges s A.
Proof.
  unfold area_ranges. induction (unpinned_list A) as [|id l IH]; intros Hs; cbn; [done|].
  rewrite (Hs id) by left. rewrite IH; [done|]. intros x Hx. apply Hs. by right.
Qed.
Lemma elsewhere_area a b s s' B :
  core s → areas s !! b = Some B → b ≠ a → elsewhere a s s' → area_ranges s' B = area_ranges s B.
Proof.
  intros Hc HB Hne He. apply area_ranges_same. intros id (r & Hr & Hb)%(co_list _ Hc b B id HB).
  rewrite Hr. apply He; [congruence|done].
Qed.

Lemma area_owners_insert m a A f :
  m !! a = None → area_owners (<[a := A]> m) f = (if decide (file A = Some f) then 1 else 0) + area_owners m f.
Proof. intros Hi. unfold area_owners. rewrite map_fold_insert_L; [done|intros; lia|done]. Qed.
Lemma area_owners_delete m a A f :
  m !! a = Some A → area_owners m f = (if decide (file A = Some f) then 1 else 0) + area_owners (delete a m) f.
Proof. intros Hi. rewrite <- (insert_delete_id m a A Hi) at 1. by rewrite area_owners_insert by apply lookup_delete_eq. Qed.
Lemma area_owners_replace m a A B f :
  m !! a = Some A → area_owners (<[a := B]> m) f
    = (if decide (file B = Some f) then 1 else 0) - (if decide (file A = Some f) then 1 else 0) + area_owners m f.
Proof.
  intros Hi. rewrite (area_owners_delete m a A f Hi), <- insert_delete_eq, area_owners_insert by apply lookup_delete_eq. lia.
Qed.
Lemma vma_owners_insert m v o f :
  m !! v = None → vma_owners (<[v := o]> m) f = (if decide (o = Some f) then 1 else 0) + vma_owners m f.
Proof. intros Hi. unfold vma_owners. rewrite map_fold_insert_L; [done|intros; lia|done]. Qed.
Lemma vma_owners_delete m v o f :
  m !! v = Some o → vma_owners m f = (if decide (o = Some f) then 1 else 0) + vma_owners (delete v m) f.
Proof. intros Hi. rewrite <- (insert_delete_id m v o Hi) at 1. by rewrite vma_owners_insert by apply lookup_delete_eq. Qed.
Lemma area_owners_nonneg m f : 0 ≤ area_owners m f.
Proof.
  induction m as [|a A m Hm IH] using map_ind; [done|]. rewrite area_owners_insert by done. case_decide; lia.
Qed.
Lemma vma_owners_nonneg m f : 0 ≤ vma_owners m f.
Proof.
  induction m as [|a A m Hm IH] using map_ind; [done|]. rewrite vma_owners_insert by done. case_decide; lia.
Qed.

Lemma owners_list s a A ids f :
  areas s !! a = Some A → area_owners (<[a := with_list ids A]> (areas s)) f = area_owners (areas s) f.
Proof. intros HA. rewrite (area_owners_replace _ a A) by done. cbn. lia. Qed.

Lemma area_ok_ext s s' A : area_ranges s' A = area_ranges s A → area_ok s A → area_ok s' A.
Proof. intros E [H1 H2 H3]. split; [by rewrite E|done|done]. Qed.

Lemma ok_area_to a A s s' ids rs :
  ash_ok s → areas s !! a = Some A → area_to a A s s' ids rs → below (npages A) rs → (file A = None → ids = []) → ash_ok s'.
Proof.
  intros [Hc Ha Hf Hi] HA [C Ar V E F] Hb Hn. injection F as F1 F2 F3 F4 F5.
  assert (∀ b B, areas s' !! b = Some B → ∃ B0, areas s !! b = Some B0 ∧ file B0 = file B) as Hfile.
  { intros b B. rewrite Ar. destruct (decide (b = a)) as [->|Hne].
    - rewrite lookup_insert_eq. intros [= <-]. by exists A.
    - rewrite lookup_insert_ne by done. intros HB. by exists B. }
  split; [done| | |].
  - intros b B. rewrite Ar. destruct (decide (b = a)) as [->|Hne].
    + rewrite lookup_insert_eq. intros [= <-]. destruct (Ha a A HA) as [_ _ H3].
      split; [by rewrite (views_area s' (with_list ids A) rs V)|exact Hn|exact H3].
    + rewrite lookup_insert_ne by done. intros HB. by apply (area_ok_ext s); [apply (elsewhere_area a b)|apply (Ha b)].
  - intros f. unfold owners. rewrite F1, F2, Ar, (owners_list s a A) by done. apply Hf.
  - intros b c B C' f HB HC HfB HfC. destruct (Hfile b B HB) as (B0 & HB0 & EB). destruct (Hfile c C' HC) as (C0 & HC0 & EC).
    apply (Hi b c B0 C0 f); congruence.
Qed.

Lemma ok_put a A B s :
  ash_ok s → areas s !! a = Some A → unpinned_list B = unpinned_list A → file B = file A → area_ok s B →
  ash_ok (set_areas (<[a := B]> (areas s)) s).
Proof.
  intros [[C1 C2 C3 C4 C5 C6] Ha Hf Hi] HA HL HF HB.
  assert (∀ b X, <[a := B]> (areas s) !! b = Some X →
            ∃ X0, areas s !! b = Some X0 ∧ file X0 = file X ∧ unpinned_list X0 = unpinned_list X) as Hback.
  { intros b X. destruct (decide (b = a)) as [->|Hne].
    - rewrite lookup_insert_eq. intros [= <-]. by exists A.
    - rewrite lookup_insert_ne by done. intros HX. by exists X. }
  split; [split; cbn [areas ranges lru_list lru_count set_areas]; try done| | |].
  - intros b X (X0 & HX0 & _ & <-)%Hback. by apply (C1 b).
  - intros b X id (X0 & HX0 & _ & <-)%Hback. by apply (C2 b).
  - intros id r Hr%C3. destruct (decide (r_asma r = a)) as [->|]; [rewrite lookup_insert_eq; by eexists|by rewrite lookup_insert_ne].
  - intros b X. cbn [areas set_areas]. destruct (decide (b = a)) as [->|Hne].
    + rewrite lookup_insert_eq. intros [= <-]. by apply (area_ok_ext s).
    + rewrite lookup_insert_ne by done. intros HX. by apply (area_ok_ext s), (Ha b).
  - intros f. unfold owners. cbn [areas vmas refs set_areas]. rewrite (area_owners_replace _ a A), HF by done.
    rewrite Z.sub_diag. apply Hf.
  - intros b c X Y f (X0 & HX & EX & _)%Hback (Y0 & HY & EY & _)%Hback H1 H2. apply (Hi b c X0 Y0 f); congruence.
Qed.

Definition same_bounds (r r' : ashmem_range) : Prop := pgstart r' = pgstart r ∧ pgend r' = pgend r.
Lemma below_same hi l l' : Forall2 same_bounds l l' → below hi l → below hi l'.
Proof.
  intros Hs. revert hi. induction Hs as [|r r' l l' [E1 E2] _ IH]; intros hi; cbn; [done|].
  rewrite E1, E2. naive_solver.
Qed.
Lemma purged_ranges s s' ids A :
  purged_to s s' ids → Forall2 same_bounds (area_ranges s A) (area_ranges s' A).
Proof.
  intros [_ _ _ R _]. unfold area_ranges. induction (unpinned_list A) as [|id l IH]; cbn; [constructor|].
  rewrite R. destruct (ranges s !! id); cbn; [|done]. constructor; [by case_decide|done].
Qed.
Lemma ok_purged s s' ids : ash_ok s → purged_to s s' ids → ash_ok s'.
Proof.
  intros [Hc Ha Hf Hi] Hp. pose proof Hp as [C Ar O R _]. injection O as O1 O2 O3 O4. split; [done| | |].
  - intros a A. rewrite Ar. intros HA. destruct (Ha a A HA) as [H1 H2 H3]. split; [|done|done].
    eapply below_same; [by eapply purged_ranges|done].
  - intros f. unfold owners. rewrite O1, O2, Ar. apply Hf.
  - rewrite Ar. exact Hi.
Qed.
(** A page whose range was taken is purged; the others stay as they were. *)
Lemma purged_status s s' ids a p :
  purged_to s s' ids → page_status s' a p = page_status s a p ∨ (is_Some (page_status s a p) ∧ page_status s' a p = Some true).
Proof.
  intros [_ Ar _ R _]. unfold page_status. rewrite Ar. destruct (areas s !! a) as [A|]; cbn; [|by left].
  unfold area_ranges. induction (unpinned_list A) as [|id l IH]; cbn; [by left|].
  rewrite R. destruct (ranges s !! id) as [r|]; cbn; [|done].
  assert (∀ x : ashmem_range, x = purge r ∨ x = r → pgstart x = pgstart r ∧ pgend x = pgend r) as Hx by (intros x [->| ->]; done).
  set (x := if decide (id ∈ ids) then purge r else r).
  assert (x = purge r ∨ x = r) as Hor by (unfold x; case_decide; auto). destruct (Hx x Hor) as [-> ->].
  case_decide; [|exact IH]. destruct Hor as [->| ->]; [right; split; [by eexists|done]|by left].
Qed.

Lemma pin_pages_bound sz p start end_ :
  pin_sane sz (Some p) = true → pin_pages sz p = inr (start, end_) →
  0 ≤ start ≤ end_ ∧ end_ < Z.min (PAGE_ALIGN sz / PAGE_SIZE) 1048576 ∧ end_ < max_page.
Proof.
  unfold pin_sane. intros [Hu Hs]%andb_true_iff Hp. rewrite Hp in Hs. apply bool_decide_eq_true in Hu, Hs. revert Hp Hs.
  unfold pin_pages, PAGE_SIZE, max_page. destruct p as [o l]. cbn [fst snd] in *.
  set (len := if decide (l = 0) then u32 (PAGE_ALIGN sz - o) else l).
  assert (0 ≤ len < 4294967296) as Hlen by (unfold len; case_decide; [apply u32_range|lia]).
  rewrite page_align_eq. set (pa := u64 (sz + 4095)). assert (0 ≤ pa) as Hpa by (apply (wrap_range 64); lia).
  destruct (decide (Z.land (Z.lor o len) 4095 ≠ 0)) as [|Ha]; [done|].
  assert (Z.land (Z.lor o len) 4095 = 0) as [Ho Hl]%aligned_both by lia.
  destruct (decide (4294967295 - o < len)); [done|]. destruct (decide (pa / 4096 * 4096 < u32 (o + len))) as [|Hle]; [done|].
  rewrite u32_small in Hle by (unfold is_u32; lia). intros [= <- <-].
  assert (len = 0 ∨ 4096 ≤ len) as [E|Hge] by (Z.div_mod_to_equations; lia).
  - rewrite E. change (0 / 4096) with 0. unfold u64, wrap. Z.div_mod_to_equations. lia.
  - rewrite u64_small by (Z.div_mod_to_equations; lia). intros _. rewrite Z.div_mul by lia. Z.div_mod_to_equations. lia.
Qed.

Lemma npages_max A : npages A ≤ max_page.
Proof. unfold npages, max_page. lia. Qed.

(** *** Names *)

Lemma c_string_split n l : Forall (λ c, c ≠ 0) n → c_string (n ++ 0 :: l) = Some n.
Proof. induction 1 as [|c n Hc _ IH]; cbn; [done|]. by rewrite decide_False, IH. Qed.
Lemma c_string_some l n : c_string l = Some n → ∃ l', l = n ++ 0 :: l' ∧ Forall (λ c, c ≠ 0) n.
Proof.
  revert n. induction l as [|c l IH]; intros n; cbn; [done|]. case_decide as Hc.
  - intros [= <-]. exists l. by subst.
  - destruct (c_string l) as [m|]; [|done]. intros [= <-]. destruct (IH m eq_refl) as (l' & -> & Hm).
    exists l'. split; [done|by constructor].
Qed.
Lemma c_string_none l : c_string l = None → Forall (λ c, c ≠ 0) l.
Proof.
  induction l as [|c l IH]; cbn; [constructor|]. case_decide; [done|]. destruct (c_string l); [done|]. intros _. constructor; auto.
Qed.
(** The name that is kept of what the user passes. *)
Definition kept_name (u : bytes) : bytes :=
  match c_string (take ASHMEM_NAME_LEN u) with Some n => n | None => take (ASHMEM_NAME_LEN - 1) u end.
Lemma local_name_eq u : local_name u = kept_name u ++ [0].
Proof. unfold local_name, kept_name. by destruct (c_string _). Qed.
Lemma kept_name_ok u : Forall (λ c, c ≠ 0) (kept_name u) ∧ (length (kept_name u) < ASHMEM_NAME_LEN)%nat.
Proof.
  unfold kept_name. destruct (c_string (take ASHMEM_NAME_LEN u)) as [n|] eqn:E.
  - apply c_string_some in E as (l' & E & Hn). split; [done|]. apply (f_equal length) in E.
    rewrite length_take, length_app in E. cbn [length] in E. unfold ASHMEM_NAME_LEN in *. lia.
  - apply c_string_none in E. unfold ASHMEM_NAME_LEN in *. split; [|rewrite length_take; lia].
    replace (take (256 - 1) u) with (take 255 (take 256 u)) by by rewrite take_take. by apply Forall_take.
Qed.
Lemma set_name_bytes n u :
  name_ok n → (PREFIX_LEN + length (local_name u) ≤ length n)%nat
    ∧ name_ok (take PREFIX_LEN n ++ local_name u ++ drop (PREFIX_LEN + length (local_name u)) n).
Proof.
  intros (H1 & H2 & _). rewrite local_name_eq. destruct (kept_name_ok u) as [K1 K2]. rewrite length_app. cbn [length].
  assert (length ASHMEM_NAME_PREFIX = PREFIX_LEN) as Hp by reflexivity.
  unfold PREFIX_LEN, ASHMEM_NAME_LEN in *. split; [lia|].
  rewrite H2. split; [|split].
  - rewrite !length_app, length_drop, Hp. unfold PREFIX_LEN, ASHMEM_NAME_LEN. cbn [length]. lia.
  - by rewrite take_app_length' by done.
  - rewrite drop_app_length' by done. exists (kept_name u). split; [|done]. rewrite <- app_assoc. by apply c_string_split.
Qed.

(** *** Every operation keeps the invariant *)

Lemma ok_core_same s s' :
  ash_ok s → core s' → areas s' = areas s → ranges s' = ranges s → refs s' = refs s → vmas s' = vmas s → ash_ok s'.
Proof.
  intros [_ Ha Hf Hi] Hc E1 E2 E3 E4. split; [done| | |].
  - intros a A. rewrite E1. intros HA. apply (area_ok_ext s); [|by apply (Ha a)]. unfold area_ranges. by rewrite E2.
  - intros f. unfold owners. rewrite E1, E3, E4. apply Hf.
  - by rewrite E1.
Qed.
Lemma ok_pos s x y : ash_ok s → ash_ok (set_pos x y s).
Proof. intros H. apply (ok_core_same s); try done. destruct (ok_core _ H). by split. Qed.

(** *** What a request does to the pages *)

Lemma the_area_eq a A s : areas s !! a = Some A → the_area a s = Val s A.
Proof. intros HA. unfold the_area. run_m. by rewrite HA. Qed.

Lemma area_to_status a A s s' ids rs b p :
  core s → area_to a A s s' ids rs → page_status s' b p = if decide (b = a) then status rs p else page_status s b p.
Proof.
  intros Hc [_ Ar V E _]. unfold page_status. rewrite Ar. destruct (decide (b = a)) as [->|Hne].
  - rewrite lookup_insert_eq. change (status (area_ranges s' (with_list ids A)) p = status rs p).
    by rewrite (views_area s' (with_list ids A) rs V).
  - rewrite lookup_insert_ne by done. destruct (areas s !! b) as [B|] eqn:HB; [|done].
    change (status (area_ranges s' B) p = status (area_ranges s B) p). by rewrite (elsewhere_area a b s s' B).
Qed.
Lemma page_status_area s a A p : areas s !! a = Some A → page_status s a p = status (area_ranges s A) p.
Proof. intros HA. unfold page_status. by rewrite HA. Qed.

Section requests.
Context (s : Ashmem) (a : Z) (A : ashmem_area) (f : Z) (q : Z * Z) (start end_ : Z).
Context (Hok : ash_ok s) (HA : areas s !! a = Some A) (Hf : file A = Some f).
Context (Hsane : pin_sane (size A) (Some q) = true) (Hq : pin_pages (size A) q = inr (start, end_)).

Lemma pin_effect n :
  ranges s !! n = None →
  ∃ s' (b : bool), ashmem_pin_unpin a ASHMEM_PIN (Some q) (Some n) s = Val s' (Z.b2z b) ∧ ash_ok s' ∧ holes s' = holes s
    ∧ (b = true ↔ ∃ p, start ≤ p ≤ end_ ∧ page_status s a p = Some true)
    ∧ ∀ c p, page_status s' c p = if decide (c = a ∧ start ≤ p ≤ end_) then None else page_status s c p.
Proof using All.
  intros Hn. destruct (pin_pages_bound _ _ _ _ Hsane Hq) as (H1 & H2 & H3).
  pose proof (ok_core _ Hok) as Hc. pose proof (views_of_area s a A Hc HA) as Hv.
  pose proof (ao_ranges _ _ (ok_area _ Hok a A HA)) as Hb. pose proof (below_mono _ max_page _ Hb (npages_max A)) as Hb'.
  destruct (ashmem_pin_to a A s start end_ (Some n) _ Hc HA Hv Hb' H1 H3) as (s' & ids & E & T); [by intros ? [= <-]|].
  change (bool_decide (is_Some (Some n))) with true in *.
  eexists s', _. split; [unfold ashmem_pin_unpin; rewrite (bind_val _ _ _ _ _ (the_area_eq a A s HA)), Hf, Hq; exact E|].
  split; [|split; [|split]].
  - eapply (ok_area_to a A s s'); try done; [by apply pin_list_below|by rewrite Hf].
  - by injection (at_frame _ _ _ _ _ _ T).
  - rewrite (pin_list_flag _ _ _ _ _ H1 Hb). by setoid_rewrite (page_status_area s a A _ HA).
  - intros c p. rewrite (area_to_status a A s s' ids _ c p Hc T). destruct (decide (c = a)) as [->|].
    + rewrite (pin_list_status _ _ _ _ p H1 Hb), (page_status_area s a A p HA). by repeat case_decide; try tauto.
    + by rewrite decide_False by tauto.
Qed.

Lemma unpin_effect n :
  ranges s !! n = None →
  ∃ s', ashmem_pin_unpin a ASHMEM_UNPIN (Some q) (Some n) s = Val s' 0 ∧ ash_ok s' ∧ holes s' = holes s
    ∧ (∀ p, is_Some (page_status s' a p) ↔ is_Some (page_status s a p) ∨ start ≤ p ≤ end_)
    ∧ (∀ c p, page_status s c p = Some true → page_status s' c p = Some true)
    ∧ ((∀ p, start ≤ p ≤ end_ → page_status s a p ≠ Some true) →
         ∀ p, page_status s' a p = Some true → page_status s a p = Some true).
Proof using All.
  intros Hn. destruct (pin_pages_bound _ _ _ _ Hsane Hq) as (H1 & H2 & H3).
  pose proof (ok_core _ Hok) as Hc. pose proof (views_of_area s a A Hc HA) as Hv.
  pose proof (ao_ranges _ _ (ok_area _ Hok a A HA)) as Hb.
  destruct (ashmem_unpin_to a A s _ start end_ n (npages A) Hc HA Hv Hb H1 H2 Hn) as (s' & ids & rs' & E & T & B & [U1 U2 _ U4]).
  exists s'. split; [unfold ashmem_pin_unpin; rewrite (bind_val _ _ _ _ _ (the_area_eq a A s HA)), Hf, Hq; exact E|].
  split; [eapply (ok_area_to a A s s'); try done; by rewrite Hf|]. split; [by injection (at_frame _ _ _ _ _ _ T)|].
  assert (∀ p, page_status s' a p = status rs' p) as Hst.
  { intros p. rewrite (area_to_status a A s s' ids rs' a p Hc T). by rewrite decide_True. }
  pose proof (λ p, page_status_area s a A p HA) as Hst0. split; [|split].
  - intros p. rewrite Hst, Hst0. apply U1.
  - intros c p. destruct (decide (c = a)) as [->|]; [rewrite Hst, Hst0; apply U2|].
    by rewrite (area_to_status a A s s' ids rs' c p Hc T), decide_False.
  - intros Hno p. rewrite Hst, Hst0. intros [?|[?|(r & Hr & Hs)]]%U4; [done|done|]. destruct (Hno r Hr). by rewrite Hst0.
Qed.

Lemma status_effect slab :
  ∃ b : bool, ashmem_pin_unpin a ASHMEM_GET_PIN_STATUS (Some q) slab s
      = Val s (if b then ASHMEM_IS_UNPINNED else ASHMEM_IS_PINNED)
    ∧ (b = true ↔ ∃ p, start ≤ p ≤ end_ ∧ is_Some (page_status s a p)).
Proof using All.
  destruct (pin_pages_bound _ _ _ _ Hsane Hq) as (H1 & _ & _). pose proof (ok_core _ Hok) as Hc.
  destruct (status_loop_to s _ _ start end_ _ (views_of_area s a A Hc HA) (ao_ranges _ _ (ok_area _ Hok a A HA)))
    as (b & E & Hiff); [lia|].
  exists b. setoid_rewrite (page_status_area s a A _ HA). split; [|done].
  unfold ashmem_pin_unpin, ashmem_get_pin_status. rewrite (bind_val _ _ _ _ _ (the_area_eq a A s HA)), Hf, Hq.
  by rewrite (bind_val _ _ _ _ _ (the_area_eq a A s HA)).
Qed.
End requests.

(** The pages a request pins again, and those of a released area: what was lost of them has been told, or does not
    matter any more. *)
Definition forgiven (s : Ashmem) (o : ash_op) (b p : Z) : Prop :=
  match o with
  | ORelease a => a = b
  | OIoctl a (CPin ASHMEM_PIN (Some q) _) =>
      a = b ∧ ∃ A f start end_, areas s !! a = Some A ∧ file A = Some f ∧ pin_pages (size A) q = inr (start, end_)
        ∧ start ≤ p ≤ end_
  | _ => False
  end.
(** No page is taken and the flags of those that were stay, or pages are taken and nothing else happens. *)
Definition effect (s : Ashmem) (o : ash_op) (s' : Ashmem) : Prop :=
  (∃ ids, purged_to s s' ids)
  ∨ (holes s' = holes s
     ∧ ∀ b p, page_status s b p = Some true → page_status s' b p = Some true ∨ forgiven s o b p).
Lemma effect_same s o : effect s o s.
Proof. right. auto. Qed.
Lemma effect_put s o a A B :
  areas s !! a = Some A → unpinned_list B = unpinned_list A → effect s o (set_areas (<[a := B]> (areas s)) s).
Proof.
  intros HA HB. right. split; [done|]. intros b p Hs. left. revert Hs. unfold page_status. cbn [areas set_areas].
  destruct (decide (b = a)) as [->|]; [|by rewrite lookup_insert_ne]. rewrite lookup_insert_eq, HA. cbn.
  unfold area_ranges. by rewrite HB.
Qed.

Lemma pin_unpin_ok a A s c pin slab :
  ash_ok s → areas s !! a = Some A → op_ok s (OIoctl a (CPin c pin slab)) = true →
  ∃ s' r, ashmem_pin_unpin a c pin slab s = Val s' r ∧ ash_ok s' ∧ effect s (OIoctl a (CPin c pin slab)) s'.
Proof.
  intros Hok HA Ho. cbn in Ho. rewrite HA in Ho.
  destruct (file A) as [f|] eqn:Ef.
  2: { exists s, (- EINVAL). split; [|split; [done|apply effect_same]]. unfold ashmem_pin_unpin.
       by rewrite (bind_val _ _ _ _ _ (the_area_eq a A s HA)), Ef. }
  destruct pin as [q|].
  2: { exists s, (- EFAULT). split; [|split; [done|apply effect_same]]. unfold ashmem_pin_unpin.
       by rewrite (bind_val _ _ _ _ _ (the_area_eq a A s HA)), Ef. }
  destruct (pin_pages (size A) q) as [e|[start end_]] eqn:Ep.
  { exists s, e. split; [|split; [done|apply effect_same]]. unfold ashmem_pin_unpin.
    by rewrite (bind_val _ _ _ _ _ (the_area_eq a A s HA)), Ef, Ep. }
  assert (pin_sane (size A) (Some q) = true) as Hs.
  { destruct slab, c; by first [done|apply andb_true_iff in Ho as [_ ?]]. }
  destruct c.
  - destruct slab as [n|]; [|done]. apply andb_true_iff in Ho as [Hn _]. apply bool_decide_eq_true in Hn.
    destruct (pin_effect s a A f q start end_ Hok HA Ef Hs Ep n Hn) as (s' & b & E & H1 & H2 & _ & H4).
    exists s'. eexists. split; [exact E|]. split; [done|]. right. split; [done|]. intros c p Hc. rewrite H4.
    destruct (decide (c = a ∧ start ≤ p ≤ end_)) as [[-> Hp]|]; [right|by left]. split; [done|].
    by exists A, f, start, end_.
  - destruct slab as [n|]; [|done]. apply andb_true_iff in Ho as [Hn _]. apply bool_decide_eq_true in Hn.
    destruct (unpin_effect s a A f q start end_ Hok HA Ef Hs Ep n Hn) as (s' & E & H1 & H2 & _ & H4 & _).
    exists s', 0. split; [exact E|]. split; [done|]. right. split; [done|]. auto.
  - destruct (status_effect s a A f q start end_ Hok HA Ef Hs Ep slab) as (b & E & _). exists s. eexists.
    split; [exact E|]. split; [done|apply effect_same].
Qed.

Lemma shrink_scan_ok s fs nr :
  ash_ok s → ∃ s' r ids, ashmem_shrink_scan fs nr s = Val s' r ∧ ash_ok s' ∧ purged_to s s' ids
    ∧ (fs = true → u64 r = u64 (lru_count s - lru_count s')).
Proof.
  intros Hok. unfold ashmem_shrink_scan. destruct fs; cbn [negb].
  - destruct (shrink_loop_to (lru_list s) nr 0 s (ok_core _ Hok) eq_refl ltac:(lia)) as (s' & ids & freed & E & P & _ & F).
    exists s', freed, ids. run_m. split; [done|]. split; [by apply (ok_purged s s' ids)|]. split; [done|].
    intros _. by rewrite <- F, Z.sub_0_r.
  - exists s, SHRINK_STOP, []. split; [done|]. split; [done|]. split; [|done]. split; try done.
    + apply Hok.
    + intros id. destruct (ranges s !! id); cbn; [|done]. by rewrite decide_False by by intros ?%elem_of_nil.
    + exists []. split; [constructor|]. cbn. by rewrite app_nil_r.
Qed.

Lemma ioctl_ok a s cmd :
  ash_ok s → op_ok s (OIoctl a cmd) = true →
  ∃ s' r, ashmem_ioctl a cmd s = Val s' r ∧ ash_ok s' ∧ effect s (OIoctl a cmd) s'.
Proof.
  intros Hok Ho. destruct (areas s !! a) as [A|] eqn:HA; [|cbn in Ho; by rewrite HA in Ho].
  pose proof (ok_area _ Hok a A HA) as HokA.
  assert (∀ B (r : Z), unpinned_list B = unpinned_list A → file B = file A → area_ok s B →
            ∃ s' r', (put_area a B;; mret r : M Ashmem Z) s = Val s' r' ∧ ash_ok s' ∧ effect s (OIoctl a cmd) s') as Hput.
  { intros B r E1 E2 HB. eexists _, _. split; [reflexivity|]. split; [by apply (ok_put a A)|by apply (effect_put s _ a A)]. }
  pose proof (effect_same s (OIoctl a cmd)) as Hsame.
  destruct cmd as [user|wr|n| |prot e| |c pin slab|cap|]; cbn [ashmem_ioctl].
  - destruct user as [u|]; cbn [set_name]; [|by exists s, (- EFAULT)].
    unfold the_area. rewrite (bind_val _ _ s s A) by (run_m; by rewrite HA).
    destruct (file A) as [f|] eqn:Ef; [by exists s, (- EINVAL)|].
    destruct (set_name_bytes (name A) u (ao_name _ _ HokA)) as [Hl Hn]. rewrite decide_True by done.
    apply Hput; [done|done|]. destruct HokA as [H1 H2 H3]. by split.
  - destruct (ao_name _ _ HokA) as (H1 & _ & k & Hk & Hl). unfold get_name, the_area. run_m. rewrite HA.
    destruct (name A !! PREFIX_LEN) as [c|] eqn:Ec.
    2: { apply lookup_ge_None in Ec. unfold PREFIX_LEN, ASHMEM_NAME_LEN in *. lia. }
    case_decide; rewrite ?Hk, ?decide_True by done; destruct wr; eexists _, _; (split; [reflexivity|done]).
  - unfold the_area. rewrite (bind_val _ _ s s A) by (run_m; by rewrite HA).
    destruct (file A) as [f|] eqn:Ef; [by exists s, (- EINVAL)|]. apply Hput; [done|done|].
    destruct HokA as [H1 H2 H3]. split; [|done|done]. unfold area_ranges. cbn [unpinned_list with_size]. by rewrite H2.
  - unfold the_area. run_m. rewrite HA. by exists s, (size A).
  - unfold set_prot_mask, the_area. rewrite (bind_val _ _ s s A) by (run_m; by rewrite HA).
    case_decide; [by exists s, (- EINVAL)|]. apply Hput; [done|done|]. destruct HokA as [H1 H2 H3]. by split.
  - unfold the_area. run_m. rewrite HA. by exists s, (prot_mask A).
  - by apply (pin_unpin_ok a A).
  - destruct cap; [|by exists s, (- EPERM)]. unfold ashmem_shrink_count. run_m.
    destruct (shrink_scan_ok s true LONG_MAX Hok) as (s' & r & ids & -> & Hs' & Hp & _).
    exists s', (lru_count s). split; [done|]. split; [done|]. left. by exists ids.
  - by exists s, (- ENOTTY).
Qed.

(** *** Files and mappings *)

Definition refmap (n : Z) : option Z := if decide (n = 0) then None else Some n.
Definition one (f g : Z) : Z := if decide (f = g) then 1 else 0.

Lemma get_file_spec f s cnt :
  (∀ g, refs s !! g = refmap (cnt g)) → 0 ≤ cnt f →
  ∃ m, get_file f s = Val (set_refs m s) tt ∧ ∀ g, m !! g = refmap (cnt g + one f g).
Proof.
  intros Hr Hf. unfold get_file. run_m. eexists. split; [reflexivity|]. intros g. unfold one. rewrite Hr.
  destruct (decide (f = g)) as [<-|Hne]; [|by rewrite lookup_insert_ne, Hr, Z.add_0_r].
  rewrite lookup_insert_eq. unfold refmap. rewrite (decide_False (P := cnt f + 1 = 0)) by lia.
  destruct (decide (cnt f = 0)) as [->|]; done.
Qed.
Lemma fput_spec f s cnt :
  (∀ g, refs s !! g = refmap (cnt g)) → 0 < cnt f →
  ∃ m, fput f s = Val (set_refs m s) tt ∧ ∀ g, m !! g = refmap (cnt g - one f g).
Proof.
  intros Hr Hf. unfold fput. run_m. rewrite Hr. unfold refmap at 1. rewrite decide_False by lia. unfold one.
  destruct (decide (cnt f = 1)) as [E|Hne]; (eexists; split; [reflexivity|]); intros g;
    (destruct (decide (f = g)) as [<-|Hg];
      [rewrite ?lookup_delete_eq, ?lookup_insert_eq|rewrite ?lookup_delete_ne, ?lookup_insert_ne, Hr, Z.sub_0_r by done; done]);
    unfold refmap; [rewrite decide_True by lia|rewrite decide_False by lia]; done.
Qed.

Lemma ok_refs s s' :
  ash_ok s → (areas s', ranges s', lru_list s', lru_count s') = (areas s, ranges s, lru_list s, lru_count s) →
  (∀ f, refs s' !! f = refmap (owners s' f)) → ash_ok s'.
Proof.
  intros [[C1 C2 C3 C4 C5 C6] Ha _ Hi] [= E1 E2 E3 E4] Hf. split.
  - split; rewrite ?E1, ?E2, ?E3, ?E4; done.
  - intros a A. rewrite E1. intros HA. apply (area_ok_ext s); [|by apply (Ha a)]. unfold area_ranges. by rewrite E2.
  - exact Hf.
  - by rewrite E1.
Qed.
Lemma owned_file s a A f : ash_ok s → areas s !! a = Some A → file A = Some f → 0 < owners s f.
Proof.
  intros Hok HA Hf. unfold owners. rewrite (area_owners_delete _ a A) by done. rewrite decide_True by done.
  pose proof (area_owners_nonneg (delete a (areas s)) f). pose proof (vma_owners_nonneg (vmas s) f). lia.
Qed.

(** The mapping of an area that has its file. *)
Lemma map_file_ok a A f v shared (zero : Z * Z) flags s :
  ash_ok s → areas s !! a = Some A → file A = Some f → vmas s !! v = None → refs s !! zero.2 = None →
  ∃ s' r, (get_file f;;
     if shared : bool then
       if decide (zero.1 ≠ 0) then fput f;; mret (zero.1, flags)
       else
         modify (λ s, set_refs (<[zero.2 := 1]> (refs s)) s);;
         fput zero.2;;
         modify (λ s, set_vmas (<[v := Some f]> (vmas s)) s);; mret (0, flags)
     else modify (λ s, set_vmas (<[v := Some f]> (vmas s)) s);; mret (0, flags) : M Ashmem (Z * Z)) s = Val s' r
    ∧ ash_ok s' ∧ areas s' = areas s ∧ ranges s' = ranges s ∧ holes s' = holes s
    ∧ vmas s' = if decide (r.1 = 0) then <[v := Some f]> (vmas s) else vmas s.
Proof.
  intros Hok HA Hf Hv Hz. pose proof (owned_file s a A f Hok HA Hf) as Hpos.
  destruct (get_file_spec f s (owners s) (ok_files _ Hok)) as (m & E & Hm); [lia|]. rewrite (bind_val _ _ _ _ _ E).
  assert (∀ m', (∀ g, m' !! g = refmap (owners s g + one f g)) →
            ash_ok (set_vmas (<[v := Some f]> (vmas s)) (set_refs m' s))) as Hdone.
  { intros m' Hm'. apply (ok_refs s); [done|done|]. intros g. cbn [refs set_vmas set_refs]. rewrite Hm'. f_equal.
    unfold owners. cbn [areas vmas set_vmas set_refs]. rewrite vma_owners_insert by done. unfold one.
    rewrite (decide_ext (Some f = Some g) (f = g)) by naive_solver. lia. }
  destruct shared; [case_decide as Hz1|].
  - destruct (fput_spec f (set_refs m s) _ Hm) as (m' & E' & Hm'); [unfold one; case_decide; lia|].
    rewrite (bind_val _ _ _ _ _ E'). eexists _, _. split; [reflexivity|]. cbn [fst]. rewrite decide_False by done.
    split; [|done]. apply (ok_refs s); [done|done|]. intros g. cbn [refs set_refs]. rewrite Hm'. f_equal.
    change (owners s g + one f g - one f g = owners s g). lia.
  - assert (zero.2 ≠ f) as Hne. { intros E0. rewrite E0, (ok_files _ Hok), decide_False in Hz; [done|lia]. }
    assert (owners s zero.2 = 0) as H0.
    { rewrite (ok_files _ Hok) in Hz. by destruct (decide (owners s zero.2 = 0)). }
    rewrite (bind_val (modify _) _ _ (set_refs (<[zero.2 := 1]> m) s) tt) by done.
    destruct (fput_spec zero.2 (set_refs (<[zero.2 := 1]> m) s) (λ g, owners s g + one f g + one zero.2 g)) as (m' & E' & Hm').
    { intros g. cbn [refs set_refs]. destruct (decide (zero.2 = g)) as [<-|Hg].
      - rewrite lookup_insert_eq, H0. unfold one. rewrite decide_False, decide_True by done. done.
      - rewrite lookup_insert_ne, Hm by done. f_equal. unfold one at 3. rewrite decide_False by done. lia. }
    { unfold one. rewrite H0, decide_False, decide_True by done. done. }
    rewrite (bind_val _ _ _ _ _ E'). eexists _, _. split; [reflexivity|]. split; [|done].
    apply Hdone. intros g. rewrite Hm'. f_equal. lia.
  - eexists _, _. split; [reflexivity|]. split; [by apply Hdone|done].
Qed.

(** The backing file is made: the area is its first owner. *)
Lemma new_file_ok a A f s :
  ash_ok s → areas s !! a = Some A → file A = None → refs s !! f = None →
  ash_ok (set_areas (<[a := with_file (Some f) A]> (areas s)) (set_refs (<[f := 1]> (refs s)) s)).
Proof.
  intros Hok HA HfA Hf. pose proof (ok_put a A A s Hok HA eq_refl eq_refl (ok_area _ Hok a A HA)) as [[C1 C2 C3 C4 C5 C6] _ _ _].
  pose proof Hok as [[D1 D2 D3 _ _ _] Ha Hr Hi].
  assert (owners s f = 0) as H0. { rewrite Hr in Hf. by destruct (decide (owners s f = 0)). }
  assert (∀ b B, areas s !! b = Some B → file B ≠ Some f) as Hnone.
  { intros b B HB E. pose proof (owned_file s b B f Hok HB E). lia. }
  split; [split; cbn [areas ranges lru_list lru_count set_areas set_refs] in *; try done| | |].
  - intros b B. destruct (decide (b = a)) as [->|]; [rewrite lookup_insert_eq; intros [= <-]; exact (D1 a A HA)|].
    rewrite lookup_insert_ne by done. by apply D1.
  - intros b B id. destruct (decide (b = a)) as [->|]; [rewrite lookup_insert_eq; intros [= <-]; exact (D2 a A id HA)|].
    rewrite lookup_insert_ne by done. by apply D2.
  - intros id r Hid. destruct (decide (r_asma r = a)) as [->|]; [rewrite lookup_insert_eq; by eexists|].
    rewrite lookup_insert_ne by done. by apply (D3 id).
  - intros b B. cbn [areas set_areas]. destruct (decide (b = a)) as [->|].
    + rewrite lookup_insert_eq. intros [= <-]. destruct (Ha a A HA) as [H1 H2 H3]. split; [exact H1|done|exact H3].
    + rewrite lookup_insert_ne by done. intros HB. by apply (area_ok_ext s), (Ha b).
  - intros g. unfold owners. cbn [areas vmas refs set_areas set_refs].
    rewrite (area_owners_replace _ a A), HfA by done. cbn [file with_file].
    rewrite (decide_False (P := None = Some g)) by done. unfold owners in H0. destruct (decide (f = g)) as [<-|Hg].
    + rewrite lookup_insert_eq, (decide_True (P := Some f = Some f)) by done. rewrite decide_False by lia. f_equal. lia.
    + rewrite lookup_insert_ne, Hr, (decide_False (P := Some f = Some g)) by (done || naive_solver). done.
  - intros b c B C g. cbn [areas set_areas]. destruct (decide (b = a)) as [->|]; destruct (decide (c = a)) as [->|];
      rewrite ?lookup_insert_eq, ?lookup_insert_ne by done; try done.
    + intros [= <-] HC [= <-] HC'. by destruct (Hnone c C HC).
    + intros HB [= <-] HB' [= <-]. by destruct (Hnone b B HB).
    + apply Hi.
Qed.

Lemma mmap_ok a v flags setup zero s :
  ash_ok s → op_ok s (OMmap a v flags setup zero) = true →
  ∃ s' r, ashmem_mmap a v flags setup zero s = Val s' r ∧ ash_ok s' ∧ ranges s' = ranges s ∧ holes s' = holes s
    ∧ ∀ b B, areas s !! b = Some B →
        ∃ B', areas s' !! b = Some B' ∧ unpinned_list B' = unpinned_list B ∧ (file B = file B' ∨ (file B = None ∧ b = a)).
Proof.
  intros Hok Ho. cbn in Ho. apply andb_true_iff in Ho as [H1 H2]. apply bool_decide_eq_true in H1 as ((A & HA) & Hv & Hz & Hzs).
  assert (∀ b B, areas s !! b = Some B → ∃ B', areas s !! b = Some B' ∧ unpinned_list B' = unpinned_list B
            ∧ (file B = file B' ∨ (file B = None ∧ b = a))) as Hsame by (intros b B HB; exists B; auto).
  unfold ashmem_mmap. unfold the_area at 1. rewrite (bind_val _ _ s s A) by (run_m; by rewrite HA).
  case_decide; [by exists s, (- EINVAL, flags)|]. case_decide; [by exists s, (- EPERM, flags)|].
  set (fl := Z.ldiff flags _).
  destruct (file A) as [f|] eqn:Ef.
  - rewrite (bind_val (mret _) _ s s (inr f)) by done.
    destruct (map_file_ok a A f v (bool_decide (Z.land fl VM_SHARED ≠ 0)) zero fl s Hok HA Ef Hv Hz) as (s' & r & E & H').
    exists s', r. rewrite bool_decide_decide in E. destruct (decide (Z.land fl VM_SHARED ≠ 0)); cbn beta iota in E |- *;
      (split; [exact E|]); destruct H' as (H3 & H4 & H5 & H6 & _); rewrite H4; done.
  - destruct setup as [e|f]; [by exists s, (e, fl)|]. apply bool_decide_eq_true in H2.
    set (s1 := set_areas (<[a := with_file (Some f) A]> (areas s)) (set_refs (<[f := 1]> (refs s)) s)).
    rewrite (bind_val _ _ s s1 (inr f)) by done.
    assert (areas s1 !! a = Some (with_file (Some f) A)) as HA1 by apply lookup_insert_eq.
    destruct (map_file_ok a (with_file (Some f) A) f v (bool_decide (Z.land fl VM_SHARED ≠ 0)) zero fl s1
      (new_file_ok a A f s Hok HA Ef H2) HA1 eq_refl Hv) as (s' & r & E & H').
    { cbn. rewrite lookup_insert_ne; [done|]. by intros ->. }
    exists s', r. rewrite bool_decide_decide in E. destruct (decide (Z.land fl VM_SHARED ≠ 0)); cbn beta iota in E |- *;
      (split; [exact E|]); destruct H' as (H3 & H4 & H5 & H6 & _); rewrite H4; (split; [done|]); (split; [exact H5|]);
      (split; [exact H6|]); intros b B HB; cbn [s1 areas set_areas];
      (destruct (decide (b = a)) as [->|]; [rewrite lookup_insert_eq; eexists; split; [reflexivity|]|rewrite lookup_insert_ne by done; by apply Hsame]);
      rewrite HA in HB; injection HB as <-; cbn; auto.
Qed.

Lemma munmap_ok v s :
  ash_ok s → is_Some (vmas s !! v) →
  ∃ s', munmap v s = Val s' tt ∧ ash_ok s' ∧ areas s' = areas s ∧ ranges s' = ranges s ∧ holes s' = holes s
    ∧ vmas s' = delete v (vmas s).
Proof.
  intros Hok [o Ho]. unfold munmap. rewrite (bind_val get _ s s s) by done. rewrite Ho.
  set (s1 := set_vmas (delete v (vmas s)) s). rewrite (bind_val (put s1) _ s s1 tt) by done.
  assert (∀ g, owners s g = (if decide (o = Some g) then 1 else 0) + owners s1 g) as Hown.
  { intros g. unfold owners. cbn [s1 areas vmas set_vmas]. rewrite (vma_owners_delete _ v o) by done. lia. }
  destruct o as [f|].
  - destruct (fput_spec f s1 (owners s) (ok_files _ Hok)) as (m & E & Hm).
    { pose proof (area_owners_nonneg (areas s1) f). pose proof (vma_owners_nonneg (vmas s1) f).
      rewrite Hown, decide_True by done. unfold owners. lia. }
    exists (set_refs m s1). split; [exact E|]. split; [|done]. apply (ok_refs s); [done|done|]. intros g. cbn [refs set_refs].
    rewrite Hm, Hown. f_equal. unfold one. rewrite (decide_ext (Some f = Some g) (f = g)) by naive_solver.
    change (owners (set_refs m s1) g) with (owners s1 g). lia.
  - exists s1. split; [done|]. split; [|done]. apply (ok_refs s); [done|done|]. intros g. cbn [refs s1 set_vmas].
    rewrite (ok_files _ Hok), Hown. done.
Qed.

Definition area0 : ashmem_area := MkArea (ASHMEM_NAME_PREFIX ++ replicate ASHMEM_NAME_LEN 0) [] None 0 PROT_MASK.
Lemma open_ok a s : ash_ok s → areas s !! a = None → ash_ok (set_areas (<[a := area0]> (areas s)) s).
Proof.
  intros Hok Ha0. pose proof Hok as [[C1 C2 C3 C4 C5 C6] Ha Hr Hi].
  split; [split; cbn [areas ranges lru_list lru_count set_areas]; try done| | |].
  - intros b B. destruct (decide (b = a)) as [->|]; [|rewrite lookup_insert_ne by done; by apply C1].
    rewrite lookup_insert_eq. intros [= <-]. constructor.
  - intros b B id. destruct (decide (b = a)) as [->|]; [|rewrite lookup_insert_ne by done; by apply C2].
    rewrite lookup_insert_eq. intros [= <-]. cbn. split; [by intros ?%elem_of_nil|].
    intros (r & Hid & E). destruct (C3 id r Hid) as [? Hx]. by rewrite E, Ha0 in Hx.
  - intros id r Hid. destruct (C3 id r Hid) as [B HB]. rewrite lookup_insert_ne; [by eexists|]. intros ->. congruence.
  - intros b B. cbn [areas set_areas]. destruct (decide (b = a)) as [->|].
    + rewrite lookup_insert_eq. intros [= <-]. split; [done|done|]. split; [done|]. split; [done|]. exists []. split; [done|by apply Nat.ltb_lt].
    + rewrite lookup_insert_ne by done. intros HB. by apply (area_ok_ext s), (Ha b).
  - intros f. unfold owners. cbn [areas vmas refs set_areas]. rewrite area_owners_insert by done. apply Hr.
  - intros b c B C f. cbn [areas set_areas]. destruct (decide (b = a)) as [->|]; destruct (decide (c = a)) as [->|];
      rewrite ?lookup_insert_eq, ?lookup_insert_ne by done; try done; [by intros [= <-]|by intros ? [= <-]|]. apply Hi.
Qed.

(** Every range goes. *)
Lemma del_all_to a A s rs :
  core s → areas s !! a = Some A → views s (unpinned_list A) rs →
  ∃ s', for_each (unpinned_list A) range_del s = Val s' tt ∧ area_to a A s s' [] [].
Proof.
  remember (unpinned_list A) as l eqn:El. revert A s rs El. induction l as [|id l IH]; intros A s rs El Hc HA Hv.
  { exists s. split; [done|]. inversion Hv; subst. rewrite El. apply area_to_refl; [done|done|by rewrite <- El]. }
  inversion Hv as [|? r ? rs' Hr Hv']; subst.
  destruct (del_to a A s [] id l [] r rs' Hc HA (eq_sym El) Hv eq_refl) as (s1 & E1 & T1 & _).
  destruct (IH (with_list l A) s1 rs' eq_refl (at_core _ _ _ _ _ _ T1)) as (s' & E & T).
  - rewrite (at_areas _ _ _ _ _ _ T1). apply lookup_insert_eq.
  - apply T1.
  - exists s'. split; [|by eapply area_to_trans]. cbn [for_each]. by rewrite (bind_val _ _ _ _ _ E1).
Qed.

Lemma ash_release_ok a s :
  ash_ok s → is_Some (areas s !! a) →
  ∃ s', ashmem_release a s = Val s' 0 ∧ ash_ok s' ∧ areas s' = delete a (areas s) ∧ elsewhere a s s'
    ∧ holes s' = holes s ∧ vmas s' = vmas s.
Proof.
  intros Hok [A HA]. unfold ashmem_release. rewrite (bind_val _ _ _ _ _ (the_area_eq a A s HA)).
  destruct (del_all_to a A s _ (ok_core _ Hok) HA (views_of_area s a A (ok_core _ Hok) HA)) as (s1 & E1 & T1).
  rewrite (bind_val _ _ _ _ _ E1).
  assert (ash_ok s1) as Hok1 by (by eapply (ok_area_to a A s s1)).
  destruct T1 as [Hc1 A1 V1 El1 F1]. injection F1 as F1 F2 F3 F4 F5.
  assert (areas s1 !! a = Some (with_list [] A)) as HA1 by (rewrite A1; apply lookup_insert_eq).
  assert (∀ m, (∀ g, m !! g = refmap (owners s1 g - if decide (file A = Some g) then 1 else 0)) →
            ash_ok (set_areas (delete a (areas s1)) (set_refs m s1))) as Hdel.
  { intros m Hm. pose proof Hok1 as [[C1 C2 C3 C4 C5 C6] Ha Hr Hi].
    split; [split; cbn [areas ranges lru_list lru_count set_areas set_refs]; try done| | |].
    - intros b B [_ HB]%lookup_delete_Some. by apply (C1 b).
    - intros b B id [_ HB]%lookup_delete_Some. by apply (C2 b).
    - intros id r Hid. rewrite lookup_delete_ne; [by apply (C3 id)|]. intros E.
      assert (id ∈ @nil Z) as []%elem_of_nil. apply (C2 a (with_list [] A) id HA1). by exists r.
    - intros b B. cbn [areas set_areas]. intros [_ HB]%lookup_delete_Some. by apply (area_ok_ext s1), (Ha b).
    - intros g. cbn [refs set_areas set_refs]. rewrite Hm. unfold owners. cbn [areas vmas set_areas set_refs].
      rewrite (area_owners_delete (areas s1) a (with_list [] A)) by done. cbn [file with_list].
      set (k := if decide (file A = Some g) then 1 else 0). set (m0 := area_owners (delete a (areas s1)) g).
      fold (refmap (m0 + vma_owners (vmas s1) g)). f_equal. lia.
    - intros b c B C f. cbn [areas set_areas]. intros [_ HB]%lookup_delete_Some [_ HC]%lookup_delete_Some. by apply Hi. }
  rewrite (bind_val _ _ _ _ _ (the_area_eq a _ s1 HA1)). cbn [file with_list].
  destruct (file A) as [f|] eqn:Ef.
  - destruct (fput_spec f s1 (owners s1) (ok_files _ Hok1)) as (m & E & Hm).
    { by apply (owned_file s1 a (with_list [] A)). }
    rewrite (bind_val _ _ _ _ _ E). eexists. split; [reflexivity|]. split.
    + apply Hdel. intros g. rewrite Hm. f_equal. unfold one. by rewrite (decide_ext (Some f = Some g) (f = g)) by naive_solver.
    + cbn [areas set_areas set_refs holes vmas]. split; [by rewrite A1, delete_insert_eq|done].
  - eexists. split; [reflexivity|]. split.
    + change (set_areas (delete a (areas s1)) s1) with (set_areas (delete a (areas s1)) (set_refs (refs s1) s1)).
      apply Hdel. intros g. rewrite ?Ef, (decide_False (P := None = Some g)), Z.sub_0_r by done. apply Hok1.
    + cbn [areas set_areas holes vmas]. split; [by rewrite A1, delete_insert_eq|done].
Qed.

(** *** Every operation *)

Lemma same_list_status s s' b p :
  ranges s' = ranges s → (∀ B, areas s !! b = Some B → ∃ B', areas s' !! b = Some B' ∧ unpinned_list B' = unpinned_list B) →
  page_status s b p = Some true → page_status s' b p = Some true.
Proof.
  intros Hr Ha. unfold page_status. destruct (areas s !! b) as [B|]; [|done]. destruct (Ha B eq_refl) as (B' & -> & E).
  cbn. unfold area_ranges. by rewrite Hr, E.
Qed.
Lemma run_op_effect s o :
  ash_ok s → op_ok s o = true → ∃ s' r, run_op o s = Val s' r ∧ ash_ok s' ∧ effect s o s'.
Proof.
  intros Hok Ho. destruct o as [a|a|a cmd|a v flags setup zero|v|a answer|a target|fs nr]; cbn [run_op].
  - cbn in Ho. apply bool_decide_eq_true in Ho. exists (set_areas (<[a := area0]> (areas s)) s), 0.
    split; [done|]. split; [by apply open_ok|]. right. split; [done|]. intros b p Hs. left. revert Hs. apply same_list_status; [done|].
    intros B HB. exists B. split; [|done]. cbn. rewrite lookup_insert_ne; [done|]. by intros ->; rewrite Ho in HB.
  - cbn in Ho. apply bool_decide_eq_true in Ho. destruct (ash_release_ok a s Hok Ho) as (s' & E & H1 & H2 & H3 & H4 & _).
    exists s', 0. split; [done|]. split; [done|]. right. split; [done|]. intros b p Hs.
    destruct (decide (a = b)) as [->|Hne]; [by right|left]. revert Hs. unfold page_status. rewrite H2, lookup_delete_ne by done.
    destruct (areas s !! b) as [B|] eqn:HB; [|done].
    change (status (area_ranges s B) p = Some true → status (area_ranges s' B) p = Some true).
    by rewrite (elsewhere_area a b s s' B (ok_core _ Hok) HB (not_eq_sym Hne) H3).
  - by apply ioctl_ok.
  - destruct (mmap_ok a v flags setup zero s Hok Ho) as (s' & r & E & H1 & H2 & H3 & H4).
    exists s', r.1. rewrite (bind_val _ _ _ _ _ E). split; [done|]. split; [done|]. right. split; [done|].
    intros b p Hs. left. revert Hs. apply same_list_status; [done|]. intros B HB. destruct (H4 b B HB) as (B' & ? & ? & _). eauto.
  - cbn in Ho. apply bool_decide_eq_true in Ho. destruct (munmap_ok v s Hok Ho) as (s' & E & H1 & H2 & H3 & H4 & _).
    exists s', 0. rewrite (bind_val _ _ _ _ _ E). split; [done|]. split; [done|]. right. split; [done|].
    intros b p Hs. left. revert Hs. apply same_list_status; [done|]. rewrite H2. eauto.
  - cbn in Ho. apply bool_decide_eq_true in Ho as [A HA]. unfold ashmem_read. rewrite (bind_val _ _ _ _ _ (the_area_eq a A s HA)).
    case_decide; [exists s, 0; split; [done|]; split; [done|apply effect_same]|].
    destruct (file A) as [f|]; [|exists s, (- EBADF); split; [done|]; split; [done|apply effect_same]].
    case_decide; (eexists _, _; split; [reflexivity|]; split; [by try apply ok_pos|right; auto]).
  - cbn in Ho. apply bool_decide_eq_true in Ho as [A HA]. unfold ashmem_llseek. rewrite (bind_val _ _ _ _ _ (the_area_eq a A s HA)).
    case_decide; [exists s, (- EINVAL); split; [done|]; split; [done|apply effect_same]|].
    destruct (file A) as [f|]; [|exists s, (- EBADF); split; [done|]; split; [done|apply effect_same]].
    case_decide; run_m; case_decide; (eexists _, _; split; [reflexivity|]; split; [repeat apply ok_pos; done|right; auto]).
  - destruct (shrink_scan_ok s fs nr Hok) as (s' & r & ids & E & H1 & H2 & _). exists s', r.
    split; [done|]. split; [done|]. left. by exists ids.
Qed.

(** A page whose backing store was thrown away by the operation. *)
Definition hit (s s' : Ashmem) (b p : Z) : Prop :=
  ∃ B f start len, areas s !! b = Some B ∧ file B = Some f
    ∧ (Some f, start, len) ∈ drop (length (holes s)) (holes s') ∧ start ≤ p * PAGE_SIZE < start + len.

Lemma hole_of_bounds s id r A :
  ash_ok s → ranges s !! id = Some r → areas s !! r_asma r = Some A →
  hole_of s r = (file A, pgstart r * PAGE_SIZE, (pgend r + 1 - pgstart r) * PAGE_SIZE)
  ∧ r ∈ area_ranges s A.
Proof.
  intros Hok Hr HA. pose proof (ao_ranges _ _ (ok_area _ Hok _ A HA)) as Hb.
  assert (r ∈ area_ranges s A) as Hin.
  { unfold area_ranges. apply list_elem_of_omap. exists id. split; [|done]. apply (co_list _ (ok_core _ Hok) _ A id HA). by exists r. }
  split; [|done]. assert (0 ≤ pgstart r ≤ pgend r ∧ pgend r < npages A) as [H1 H2].
  { destruct (list_elem_of_split _ _ Hin) as (l1 & l2 & E). rewrite E in Hb. clear -Hb. revert Hb. generalize (npages A).
    induction l1 as [|x l IH]; intros hi; cbn; [naive_solver|]. intros (? & ? & Hb%IH). lia. }
  unfold npages in H2. unfold hole_of, loff_t, swrap, PAGE_SIZE. rewrite HA. cbn [mbind option_bind].
  change (2 ^ (64 - 1)) with 9223372036854775808. change (2 ^ 64) with 18446744073709551616.
  rewrite !Z.mod_small by lia. f_equal; [f_equal; lia|lia].
Qed.

(** Only unpinned pages are taken, and they are marked. *)
Lemma hit_purged s s' ids b p :
  ash_ok s → purged_to s s' ids → hit s s' b p → page_status s b p = Some false ∧ page_status s' b p = Some true.
Proof.
  intros Hok Hp (B & f & start & len & HB & Hf & Hin & Hpage). pose proof Hp as [Hc' Ar _ R (rs & V & Hh & Hu)].
  rewrite Hh, drop_app_length in Hin. apply list_elem_of_fmap in Hin as (r & Er & Hr).
  destruct (list_elem_of_lookup_1 _ _ Hr) as [i Hi]. destruct (Forall2_lookup_r _ _ _ _ _ V Hi) as (id & Hid & Hlr).
  destruct (co_owner _ (ok_core _ Hok) id r Hlr) as [A HA].
  destruct (hole_of_bounds s id r A Hok Hlr HA) as [Eh Hin]. rewrite Eh in Er. injection Er as E1 E2 E3.
  assert (b = r_asma r) as Hbr by (by apply (ok_inj _ Hok b (r_asma r) B A f)). subst b.
  assert (pgstart r ≤ p ≤ pgend r) as Hpr by (unfold PAGE_SIZE in *; lia).
  pose proof (ao_ranges _ _ (ok_area _ Hok _ A HA)) as Hb.
  rewrite Forall_forall in Hu. pose proof (Hu r (proj1 (list_elem_of_In _ _) Hr)) as Hun.
  rewrite (page_status_area s _ A p HA), (status_in _ _ r p Hb Hin), Hun by done. split; [done|].
  rewrite <- Ar in HA. rewrite (page_status_area s' _ A p HA).
  assert (below (npages A) (area_ranges s' A)) as Hb' by (by eapply below_same; [eapply purged_ranges|]).
  rewrite (status_in _ _ (purge r) p Hb'); [done| |done].
  unfold area_ranges. apply list_elem_of_omap. exists id. split.
  - apply (co_list _ Hc' _ A id HA). exists (purge r). split; [|done].
    rewrite R, Hlr. cbn. rewrite decide_True; [done|]. by eapply list_elem_of_lookup_2.
  - rewrite R, Hlr. cbn. rewrite decide_True; [done|]. by eapply list_elem_of_lookup_2.
Qed.
Lemma effect_hit s o s' b p :
  ash_ok s → effect s o s' → hit s s' b p → page_status s b p = Some false ∧ page_status s' b p = Some true.
Proof.
  intros Hok [[ids Hp]|[Hh _]] Hhit; [by eapply hit_purged|]. destruct Hhit as (B & f & start & len & _ & _ & Hin & _).
  rewrite Hh, drop_all in Hin. by apply elem_of_nil in Hin.
Qed.

(** ** Histories

    [lost]: the pages of an area whose contents were taken and that no request to pin has
    answered for since. *)

Inductive ash_reach : Ashmem → (Z → Z → Prop) → Prop :=
  | reach_init : ash_reach ashmem0 (λ _ _, False)
  | reach_step s lost o s' r :
      ash_reach s lost → op_ok s o = true → run_op o s = Val s' r →
      ash_reach s' (λ b p, (lost b p ∨ hit s s' b p) ∧ ¬ forgiven s o b p).

Lemma ash_ok0 : ash_ok ashmem0.
Proof.
  split; [split; cbn| | |]; try done; try constructor; try (by intros ? (? & ? & _)).
  - by intros ?%elem_of_nil.
  - by intros (r & Hr & _).
Qed.
Lemma ash_reach_ok s lost : ash_reach s lost → ash_ok s ∧ ∀ b p, lost b p → page_status s b p = Some true.
Proof.
  induction 1 as [|s lost o s' r _ [Hok Hl] Ho E]; [split; [apply ash_ok0|done]|].
  destruct (run_op_effect s o Hok Ho) as (s1 & r1 & E1 & Hok1 & He). rewrite E in E1. injection E1 as <- <-.
  split; [done|]. intros b p [[Hlost|Hhit] Hf]; [|by apply (effect_hit s o s' b p Hok He)].
  apply Hl in Hlost. destruct He as [[ids Hp]|[_ Hs]].
  - destruct (purged_status s s' ids b p Hp) as [->|[_ ->]]; done.
  - by destruct (Hs b p Hlost).
Qed.

(** Histories that can be run. *)
Fixpoint run_all (os : list ash_op) (s : Ashmem) : option Ashmem :=
  match os with
  | [] => Some s
  | o :: os' => if op_ok s o then match run_op o s with Val s' _ => run_all os' s' | _ => None end else None
  end.
Lemma run_all_reach os s lost s' : ash_reach s lost → run_all os s = Some s' → ∃ lost', ash_reach s' lost'.
Proof.
  revert s lost. induction os as [|o os IH]; intros s lost Hr; cbn; [intros [= <-]; by exists lost|].
  destruct (op_ok s o) eqn:Ho; [|done]. destruct (run_op o s) as [s1 r| | ] eqn:E; try done.
  apply (IH s1 _ (reach_step s lost o s1 r Hr Ho E)).
Qed.

(** An area of four pages, all of them unpinned; then the second page is pinned again and the kernel takes the
    others. *)
Definition ash_area_ops : list ash_op :=
  [OOpen 1; OIoctl 1 (CSetName (Some [104; 105; 0])); OIoctl 1 (CSetSize 16384); OMmap 1 5 3 (inr 7) (0, 8)].
Definition ash_unpinned_ops : list ash_op :=
  ash_area_ops ++ [OIoctl 1 (CPin ASHMEM_UNPIN (Some (0, 0)) (Some 100))].
Definition ash_split_ops : list ash_op :=
  ash_unpinned_ops ++ [OIoctl 1 (CPin ASHMEM_PIN (Some (4096, 4096)) (Some 101)); OShrink true 2].
Definition ash_unpinned : Ashmem := Eval vm_compute in default ashmem0 (run_all ash_unpinned_ops ashmem0).
Definition ash_split : Ashmem := Eval vm_compute in default ashmem0 (run_all ash_split_ops ashmem0).
Definition ash_named : Ashmem := Eval vm_compute in default ashmem0 (run_all (take 1 ash_area_ops) ashmem0).
Definition ash_area : ashmem_area := Eval vm_compute in default area0 (areas ash_split !! 1).
Definition ash_area4 : ashmem_area := Eval vm_compute in default area0 (areas ash_unpinned !! 1).
Lemma ash_unpinned_reach : ∃ lost, ash_reach ash_unpinned lost.
Proof. apply (run_all_reach ash_unpinned_ops ashmem0 _ _ reach_init). by vm_compute. Qed.
Lemma ash_split_reach : ∃ lost, ash_reach ash_split lost.
Proof. apply (run_all_reach ash_split_ops ashmem0 _ _ reach_init). by vm_compute. Qed.
Lemma ash_named_reach : ∃ lost, ash_reach ash_named lost.
Proof. apply (run_all_reach (take 1 ash_area_ops) ashmem0 _ _ reach_init). by vm_compute. Qed.



(** C13: a page that is pinned keeps its contents.  Whatever the operation, the backing store it punches holes into is that
    of unpinned pages that had not been taken yet, and they are marked as taken. *)
Theorem ashmem_pinned_pages_stay s lost o s' r b p :
  ash_reach s lost → op_ok s o = true → run_op o s = Val s' r → hit s s' b p →
  page_status s b p = Some false ∧ page_status s' b p = Some true.
Proof.
  intros [Hok _]%ash_reach_ok Ho E Hhit. destruct (run_op_effect s o Hok Ho) as (s1 & r1 & E1 & _ & He).
  rewrite E in E1. injection E1 as <- <-. by apply (effect_hit s o s').
Qed.
Lemma ashmem_pinned_pages_stay_witness :
  ∃ s' r, run_op (OShrink true 1) ash_unpinned = Val s' r ∧ page_status ash_unpinned 1 3 = Some false
    ∧ page_status s' 1 3 = Some true.
Proof.
  destruct ash_unpinned_reach as [lost H]. eexists _, _. split; [by vm_compute|].
  apply (ashmem_pinned_pages_stay ash_unpinned lost (OShrink true 1) _ 4 1 3 H); [by vm_compute|by vm_compute|].
  exists ash_area4, 7, 0, 16384. split; [by vm_compute|]. split; [done|]. split; [by left|]. unfold PAGE_SIZE. lia.
Defined.


(** The answer to a question about pages: unpinned when some page of them is. *)
Lemma ashmem_get_pin_status_pages s lost a A f q start end_ :
  ash_reach s lost → areas s !! a = Some A → file A = Some f →
  op_ok s (OIoctl a (CPin ASHMEM_GET_PIN_STATUS (Some q) None)) = true → pin_pages (size A) q = inr (start, end_) →
  ∃ r, run_op (OIoctl a (CPin ASHMEM_GET_PIN_STATUS (Some q) None)) s = Val s r
    ∧ (r = ASHMEM_IS_UNPINNED ↔ ∃ p, start ≤ p ≤ end_ ∧ is_Some (page_status s a p)).
Proof.
  intros [Hok _]%ash_reach_ok HA Hf Ho Hq. cbn in Ho. rewrite HA in Ho.
  destruct (status_effect s a A f q start end_ Hok HA Hf Ho Hq None) as (b & E & Hb). eexists. split; [exact E|].
  rewrite <- Hb. by destruct b.
Qed.

(** the name that is read back is the one that was set: up to its terminator, and cut at 255 bytes. *)
Theorem ashmem_name_roundtrip s lost a A u :
  ash_reach s lost → areas s !! a = Some A → file A = None → kept_name u ≠ [] →
  ∃ s', set_name a (Some u) s = Val s' 0 ∧ get_name a true s' = Val s' (0, kept_name u ++ [0]).
Proof.
  intros [Hok _]%ash_reach_ok HA Hf Hne. pose proof (ao_name _ _ (ok_area _ Hok a A HA)) as Hn.
  destruct (set_name_bytes (name A) u Hn) as [Hl _]. destruct Hn as (H1 & H2 & _). destruct (kept_name_ok u) as [K1 K2].
  eexists. unfold set_name, get_name. rewrite (bind_val _ _ _ _ _ (the_area_eq a A s HA)), Hf, decide_True by done.
  split; [reflexivity|]. set (B := with_name _ A). set (s' := set_areas _ s).
  assert (areas s' !! a = Some B) as HB by apply lookup_insert_eq. rewrite (bind_val _ _ _ _ _ (the_area_eq a B s' HB)).
  assert (name B = ASHMEM_NAME_PREFIX ++ kept_name u ++ 0 :: drop (PREFIX_LEN + length (local_name u)) (name A)) as En.
  { unfold B. cbn [name with_name]. by rewrite H2, local_name_eq, <- app_assoc. }
  rewrite En. destruct (kept_name u) as [|c k] eqn:Ek; [done|]. inversion K1 as [|? ? Hc _]; subst.
  change (lookup PREFIX_LEN (ASHMEM_NAME_PREFIX ++ (c :: k) ++ ?l)) with (Some c). cbn beta iota. rewrite decide_True by done.
  rewrite drop_app_length' by done. rewrite c_string_split by done. rewrite decide_True by done. done.
Qed.
Lemma ashmem_name_roundtrip_witness :
  ∃ s', set_name 1 (Some [104; 105; 0; 9]) ash_named = Val s' 0 ∧ get_name 1 true s' = Val s' (0, [104; 105; 0]).
Proof.
  destruct ash_named_reach as [lost H].
  exact (ashmem_name_roundtrip ash_named lost 1 area0 [104; 105; 0; 9] H eq_refl eq_refl ltac:(done)).
Defined.

(** ** Where a loss can go untold, and other surprises *)

(** Pinning pages in the middle of a range without memory for its upper part drops that part: its pages count as pinned
    without having been pinned, and their loss is not told. *)
Lemma pin_without_memory_forgets :
  let purge_all := ashmem_shrink_scan true 0 in
  let ops := (purge_all;; ashmem_pin_unpin 1 ASHMEM_PIN (Some (4096, 4096)) None;;
              ashmem_pin_unpin 1 ASHMEM_PIN (Some (8192, 8192)) (Some 102)) : M Ashmem Z in
  match ops ash_unpinned with
  | Val s' r => r = 0 ∧ holes s' = [(Some 7, 0, 16384)]
  | _ => False
  end.
Proof. by vm_compute. Qed.

(** Unpinning without memory for the merged range has removed the ranges it overlaps: pages that were unpinned, and marked
    as taken, count as pinned. *)
Lemma unpin_without_memory_pins :
  page_status ash_split 1 2 = Some true ∧
  match ashmem_pin_unpin 1 ASHMEM_UNPIN (Some (4096, 8192)) None ash_split with
  | Val s' r => r = - ENOMEM ∧ page_status s' 1 2 = None ∧ page_status s' 1 3 = None
  | _ => False
  end.
Proof. by vm_compute. Qed.

(** Unpinning nothing, at the end of an area, makes a range that ends before it starts. *)
Lemma unpin_nothing_is_seen :
  let ops := (ashmem_pin_unpin 1 ASHMEM_PIN (Some (0, 0)) None;;
              ashmem_pin_unpin 1 ASHMEM_UNPIN (Some (16384, 0)) (Some 102);;
              s ← get; mret (ranges s !! 102, lru_count s)) : M Ashmem (option ashmem_range * Z) in
  match ops ash_unpinned with
  | Val s' r => r = (Some (MkRange 1 4 3 false), 0)
  | _ => False
  end.
Proof. by vm_compute. Qed.

(** A position of two gigabytes reads as an error, although the backing file has moved. *)
Lemma seek_far_fails :
  match run_op (OSeek 1 2147483648) ash_unpinned with
  | Val s' r => r = - 2147483648 ∧ file_pos s' !! 7 = Some 2147483648 ∧ f_pos s' !! 1 = None
  | _ => False
  end.
Proof. by vm_compute. Qed.

(** Asked to remove a permission, a caller whose reads imply execution gets it back. *)
Lemma prot_mask_regained :
  match (set_prot_mask 1 PROT_READ false;; set_prot_mask 1 PROT_READ true;; ashmem_ioctl 1 CGetProtMask) ash_unpinned with
  | Val _ r => r = Z.lor PROT_READ PROT_EXEC
  | _ => False
  end.
Proof. by vm_compute. Qed.
