(* ===== verification/Trees.v ===== *)
(** * Trees of the kernel

    The binder driver keeps its objects in red-black trees and writes the walks itself ([find_key], [link_key]); lib/rbtree.c
    rebalances and erases ([RbTree]).  What matters of a tree is the order of its elements. *)

From S2P Require Import Prelude.

Inductive tree : Type := Leaf | Node (l : tree) (b : Z) (r : tree).
Fixpoint inorder (t : tree) : list Z :=
  match t with Leaf => [] | Node l b r => inorder l ++ b :: inorder r end.
Definition without (b : Z) (l : list Z) : list Z := List.filter (λ x, negb (Z.eqb x b)) l.

(** lib/rbtree.c: after a node is linked the tree is rebalanced; erasing takes one node out. *)
Class RbTree : Type := {
  rb_insert_color : Z → tree → tree;
  rb_erase : Z → tree → tree;
  rb_insert_inorder : ∀ b t, inorder (rb_insert_color b t) = inorder t;
  rb_erase_inorder : ∀ b t, b ∈ inorder t → inorder (rb_erase b t) = without b (inorder t);
}.

Fixpoint leftmost (t : tree) : option Z :=
  match t with Leaf => None | Node Leaf b _ => Some b | Node l _ _ => leftmost l end.
Lemma without_none b l : b ∉ l → without b l = l.
Proof.
  unfold without. induction l as [|x l IH]; cbn; [done|]. intros [Hx Hb]%not_elem_of_cons.
  rewrite (proj2 (Z.eqb_neq x b)) by congruence. cbn. by rewrite IH.
Qed.
Lemma without_app b l k : without b (l ++ k) = without b l ++ without b k.
Proof. apply List.filter_app. Qed.
Lemma without_mid pre b post : b ∉ pre → b ∉ post → without b (pre ++ b :: post) = pre ++ post.
Proof.
  intros Hp Hq. rewrite without_app.
  change (without b (b :: post)) with (if negb (b =? b) then b :: without b post else without b post).
  rewrite Z.eqb_refl. cbn [negb]. by rewrite !without_none.
Qed.
Lemma elem_of_without b l x : x ∈ without b l ↔ x ∈ l ∧ x ≠ b.
Proof.
  unfold without. rewrite !list_elem_of_In, List.filter_In, negb_true_iff, Z.eqb_neq. done.
Qed.

Fixpoint sorted_by (f : Z → Z) (l : list Z) : Prop :=
  match l with [] => True | x :: l' => (∀ y, y ∈ l' → f x ≤ f y) ∧ sorted_by f l' end.
Lemma sorted_by_app f l k :
  sorted_by f (l ++ k) ↔ sorted_by f l ∧ sorted_by f k ∧ ∀ x y, x ∈ l → y ∈ k → f x ≤ f y.
Proof.
  induction l as [|a l IH]; cbn; [split; [|tauto]; intros ?; split_and!; try done; by intros ? ? ?%elem_of_nil|].
  rewrite IH. setoid_rewrite elem_of_app. setoid_rewrite elem_of_cons. naive_solver.
Qed.
Lemma sorted_by_ext f g l : (∀ x, x ∈ l → f x = g x) → sorted_by f l → sorted_by g l.
Proof.
  induction l as [|a l IH]; intros He; cbn; [done|]. intros [H1 H2]. split.
  - intros y Hy. rewrite <- !He by (by left || by right). by apply H1.
  - apply IH; [|done]. intros x Hx. apply He. by right.
Qed.
Lemma sorted_by_without f b l : sorted_by f l → sorted_by f (without b l).
Proof.
  unfold without. induction l as [|a l IH]; cbn; [done|]. intros [H1 H2]. destruct (negb (a =? b)); cbn; [|by apply IH].
  split; [|by apply IH]. intros y [Hy _]%elem_of_without. by apply H1.
Qed.
Lemma sorted_by_insert f l k new :
  sorted_by f (l ++ k) → (∀ x, x ∈ l → f x ≤ f new) → (∀ x, x ∈ k → f new ≤ f x) → sorted_by f (l ++ new :: k).
Proof.
  rewrite !sorted_by_app. intros (H1 & H2 & H3) H4 H5. split; [done|]. split; [by split|].
  intros x y Hx [->|Hy]%elem_of_cons; [by apply H4|by apply H3].
Qed.

Lemma leftmost_inorder t : leftmost t = head (inorder t).
Proof.
  induction t as [|l IHl b r IHr]; [done|]. cbn. destruct l as [|l' c r']; [done|]. rewrite IHl. cbn.
  by destruct (inorder l').
Qed.
(** Two ways to cut a list at a point agree. *)
Lemma cut_unique (b : Z) l1 l2 k1 k2 :
  l1 ++ l2 = k1 ++ k2 → (∀ x, x ∈ l1 → x < b) → (∀ x, x ∈ l2 → b < x) → (∀ x, x ∈ k1 → x < b) → (∀ x, x ∈ k2 → b < x) →
  l1 = k1 ∧ l2 = k2.
Proof.
  revert k1. induction l1 as [|x l1 IH]; intros [|y k1]; cbn; try done.
  - intros -> _ H2 H3 _. pose proof (H2 y ltac:(by left)). pose proof (H3 y ltac:(by left)). lia.
  - intros <- H1 _ _ H4. pose proof (H1 x ltac:(by left)). pose proof (H4 x ltac:(by left)). lia.
  - intros [= <- E] H1 H2 H3 H4. destruct (IH k1 E) as [-> ->]; try done.
    + intros z Hz. apply H1. by right.
    + intros z Hz. apply H3. by right.
Qed.

(** ** Search by key

    The walks of binder.c that look an element up, or find the place of a new one, in a tree ordered by a
    key.  [key] reads the element's key; an element that cannot be read makes the walk undefined. *)

Section by_key.
Context (key : Z → option Z).

Fixpoint find_key (k : Z) (t : tree) : option (option Z) :=
  match t with
  | Leaf => Some None
  | Node l x r =>
      match key x with
      | None => None
      | Some kx => if k <? kx then find_key k l else if kx <? k then find_key k r else Some (Some x)
      end
  end.

(** The place for a new element, or the element that has the key. *)
Fixpoint link_key (k : Z) (t : tree) : option ((Z → tree) + Z) :=
  match t with
  | Leaf => Some (inl (λ new, Node Leaf new Leaf))
  | Node l x r =>
      match key x with
      | None => None
      | Some kx =>
          if k <? kx
          then match link_key k l with
               | Some (inl f) => Some (inl (λ new, Node (f new) x r))
               | other => other
               end
          else if kx <? k
          then match link_key k r with
               | Some (inl f) => Some (inl (λ new, Node l x (f new)))
               | other => other
               end
          else Some (inr x)
      end
  end.

(** The elements' keys grow strictly. *)
Fixpoint increasing (l : list Z) : Prop :=
  match l with
  | [] => True
  | x :: l' => (∃ kx, key x = Some kx ∧ ∀ y ky, y ∈ l' → key y = Some ky → kx < ky) ∧ increasing l'
  end.

Lemma increasing_app l k :
  increasing (l ++ k) ↔
  increasing l ∧ increasing k ∧ ∀ x y kx ky, x ∈ l → y ∈ k → key x = Some kx → key y = Some ky → kx < ky.
Proof.
  induction l as [|a l IH]; cbn.
  - split; [|tauto]. intros H. split_and!; [done|done|]. by intros ? ? ? ? ?%elem_of_nil.
  - rewrite IH. split.
    + intros [(ka & Ea & Ha) (H1 & H2 & H3)]. split; [split; [|done]|split; [done|]].
      * exists ka. split; [done|]. intros y ky Hy. apply Ha. apply elem_of_app. by left.
      * intros x y kx ky [->|Hx]%elem_of_cons Hy Ex Ey; [|by eapply H3].
        rewrite Ea in Ex. injection Ex as <-. eapply Ha; [|done]. apply elem_of_app. by right.
    + intros [[(ka & Ea & Ha) H1] [H2 H3]]. split; [|split; [done|split; [done|]]].
      * exists ka. split; [done|]. intros y ky [Hy|Hy]%elem_of_app Ey; [by eapply Ha|].
        eapply (H3 a y); [by left|done..].
      * intros x y kx ky Hx. apply H3. by right.
Qed.
Lemma increasing_key l x : increasing l → x ∈ l → ∃ kx, key x = Some kx.
Proof. induction l as [|a l IH]; cbn; [by intros _ ?%elem_of_nil|]. intros [(ka & Ea & _) Hl] [->|Hx]%elem_of_cons; eauto. Qed.
Lemma increasing_nodup l : increasing l → NoDup l.
Proof.
  induction l as [|a l IH]; cbn; [constructor|]. intros [(ka & Ea & Ha) Hl]. constructor; [|by apply IH].
  intros Hin. pose proof (Ha a ka Hin Ea). lia.
Qed.
Lemma increasing_inj l x y k : increasing l → x ∈ l → y ∈ l → key x = Some k → key y = Some k → x = y.
Proof.
  induction l as [|a l IH]; cbn; [by intros _ ?%elem_of_nil|].
  intros [(ka & Ea & Ha) Hl] [->|Hx]%elem_of_cons [->|Hy]%elem_of_cons Ex Ey; [done| | |by apply IH].
  - rewrite Ea in Ex. injection Ex as ->. pose proof (Ha y k Hy Ey). lia.
  - rewrite Ea in Ey. injection Ey as ->. pose proof (Ha x k Hx Ex). lia.
Qed.
Lemma increasing_without b l : increasing l → increasing (without b l).
Proof.
  induction l as [|a l IH]; [done|]. cbn [increasing]. intros [(ka & Ea & Ha) Hl].
  change (without b (a :: l)) with (if negb (a =? b) then a :: without b l else without b l).
  destruct (negb (a =? b)); [|by apply IH]. split; [|by apply IH].
  exists ka. split; [done|]. intros y ky [Hy _]%elem_of_without. by apply Ha.
Qed.
Lemma increasing_insert l k new kn :
  increasing (l ++ k) → key new = Some kn → (∀ x kx, x ∈ l → key x = Some kx → kx < kn) →
  (∀ x kx, x ∈ k → key x = Some kx → kn < kx) → increasing (l ++ new :: k).
Proof.
  rewrite !increasing_app. intros (H1 & H2 & H3) En Hl Hk. split; [done|]. split.
  - cbn. split; [|done]. exists kn. split; [done|]. intros y ky Hy. by apply Hk.
  - intros x y kx ky Hx [->|Hy]%elem_of_cons Ex Ey; [|by eapply H3].
    rewrite En in Ey. injection Ey as <-. by eapply Hl.
Qed.

Lemma find_key_spec k t :
  increasing (inorder t) →
  ∃ r, find_key k t = Some r ∧
    match r with
    | Some x => x ∈ inorder t ∧ key x = Some k
    | None => ∀ x, x ∈ inorder t → key x ≠ Some k
    end.
Proof.
  induction t as [|l IHl x r IHr]; cbn; [eexists; split; [done|]; by intros ? ?%elem_of_nil|].
  rewrite increasing_app. cbn. intros (Hl & [(kx & Ex & Hx) Hr] & Hlr). rewrite Ex.
  destruct (IHl Hl) as (rl & El & Sl). destruct (IHr Hr) as (rr & Er & Sr).
  destruct (Z.ltb_spec k kx); [|destruct (Z.ltb_spec kx k)].
  - exists rl. split; [done|]. destruct rl as [y|]; [destruct Sl; split; [apply elem_of_app; by left|done]|].
    intros y [Hy|[->|Hy]%elem_of_cons]%elem_of_app Ey; [by eapply Sl|rewrite Ex in Ey; injection Ey as <-; lia|]. pose proof (Hx y k Hy Ey). lia.
  - exists rr. split; [done|]. destruct rr as [y|]; [destruct Sr; split; [apply elem_of_app; right; by right|done]|].
    intros y [Hy|[->|Hy]%elem_of_cons]%elem_of_app Ey; [|rewrite Ex in Ey; injection Ey as <-; lia|by eapply Sr].
    pose proof (Hlr y x k kx Hy ltac:(by left) Ey Ex). lia.
  - exists (Some x). split; [done|]. split; [apply elem_of_app; right; by left|]. rewrite Ex. f_equal. lia.
Qed.
Lemma link_key_spec k t :
  increasing (inorder t) →
  match link_key k t with
  | None => False
  | Some (inr x) => x ∈ inorder t ∧ key x = Some k
  | Some (inl f) =>
      ∃ a b, inorder t = a ++ b ∧ (∀ new, inorder (f new) = a ++ new :: b) ∧
        (∀ x kx, x ∈ a → key x = Some kx → kx < k) ∧ (∀ x kx, x ∈ b → key x = Some kx → k < kx)
  end.
Proof.
  induction t as [|l IHl x r IHr]; cbn.
  - intros _. exists [], []. split_and!; [done|done| |]; by intros ? ? ?%elem_of_nil.
  - rewrite increasing_app. cbn. intros (Hl & [(kx & Ex & Hx) Hr] & Hlr). rewrite Ex.
    specialize (IHl Hl). specialize (IHr Hr).
    destruct (Z.ltb_spec k kx); [|destruct (Z.ltb_spec kx k)].
    + destruct (link_key k l) as [[f|y]|]; [| |done].
      * destruct IHl as (a & b & E1 & E2 & Ha & Hb). exists a, (b ++ x :: inorder r).
        split_and!; [by rewrite E1, <- app_assoc|intros new; cbn; by rewrite E2, <- app_assoc|done|].
        intros y ky [Hy|[->|Hy]%elem_of_cons]%elem_of_app Ey; [by eapply Hb|rewrite Ex in Ey; injection Ey as <-; lia|].
        pose proof (Hx y ky Hy Ey). lia.
      * destruct IHl. split; [apply elem_of_app; by left|done].
    + destruct (link_key k r) as [[f|y]|]; [| |done].
      * destruct IHr as (a & b & E1 & E2 & Ha & Hb). exists (inorder l ++ x :: a), b.
        split_and!; [by rewrite E1, <- app_assoc|intros new; cbn; by rewrite E2, <- app_assoc| |done].
        intros y ky [Hy|[->|Hy]%elem_of_cons]%elem_of_app Ey; [|rewrite Ex in Ey; injection Ey as <-; lia|by eapply Ha].
        pose proof (Hlr y x ky kx Hy ltac:(by left) Ey Ex). lia.
      * destruct IHr. split; [apply elem_of_app; right; by right|done].
    + split; [apply elem_of_app; right; by left|]. rewrite Ex. f_equal. lia.
Qed.
End by_key.

(** Only the keys of the elements matter. *)
Lemma increasing_ext key key' l : (∀ x, x ∈ l → key' x = key x) → increasing key l → increasing key' l.
Proof.
  induction l as [|a l IH]; cbn; [done|]. intros He [(ka & Ea & Ha) Hl]. split.
  - exists ka. rewrite He by (by left). split; [done|]. intros y ky Hy. rewrite He by (by right). by apply Ha.
  - apply IH; [|done]. intros x Hx. apply He. by right.
Qed.

(** ** A tree that is not balanced *)

Fixpoint join (l r : tree) : tree := match l with Leaf => r | Node a x c => Node a x (join c r) end.
Fixpoint tree_erase (b : Z) (t : tree) : tree :=
  match t with
  | Leaf => Leaf
  | Node l x r => if decide (x = b) then join (tree_erase b l) (tree_erase b r) else Node (tree_erase b l) x (tree_erase b r)
  end.
Lemma join_inorder l r : inorder (join l r) = inorder l ++ inorder r.
Proof. induction l as [|a _ x c IH]; cbn; [done|]. by rewrite IH, <- app_assoc. Qed.
Lemma tree_erase_inorder b t : inorder (tree_erase b t) = without b (inorder t).
Proof.
  induction t as [|l IHl x r IHr]; [done|]. cbn [tree_erase inorder]. rewrite without_app.
  change (without b (x :: inorder r)) with (if negb (x =? b) then x :: without b (inorder r) else without b (inorder r)).
  destruct (decide (x = b)) as [->|Hne].
  - rewrite Z.eqb_refl, join_inorder, IHl, IHr. done.
  - rewrite (proj2 (Z.eqb_neq x b) Hne). cbn. by rewrite IHl, IHr.
Qed.
#[global] Program Instance plain_tree : RbTree := {| rb_insert_color := λ _ t, t; rb_erase := tree_erase |}.
Next Obligation. done. Qed.
Next Obligation. intros. apply tree_erase_inorder. Qed.
