(* ===== verification/BinderAlloc.v ===== *)
(** * The buffers of the binder driver

    Models the part of modules/anbox/binder/binder.c that gives out memory for
    transactions: a process maps one region of at most 4 MB, in which every buffer starts
    with a header and is followed by the next one.  Free buffers are found by size in one
    tree, allocated ones by address in another, and the pages under a buffer come and go
    with it.  The red-black trees are the kernel's ([RbTree]: rebalancing keeps the order);
    what the page allocator and the memory map of the process answer are arguments.  A
    failed BUG_ON is undefined.  The mapping of a page into the process is made and removed
    with the kernel's own and is not recorded. *)

From S2P Require Import Prelude Kernel Trees.

(** ** The data *)

Definition sizeof_binder_buffer : Z := 88.
Definition SZ_4M : Z := 4194304.
Record binder_buffer : Type := MkBuffer {
  b_free : bool; allow_user_free : bool; async_transaction : bool;
  transaction : option Z;
  data_size : Z; offsets_size : Z; extra_buffers_size : Z;
}.
(** The members of a process that the allocator uses: [headers] is what lies at an address,
    [pages] the pages that are there. *)
Record binder_proc : Type := MkProc {
  vma : bool;
  buffer : Z; user_buffer_offset : Z; buffer_size : Z;
  buffers : list Z;
  headers : gmap Z binder_buffer;
  free_buffers : tree; allocated_buffers : tree;
  pages : gset Z;
  free_async_space : Z;
}.
Definition proc0 : binder_proc := MkProc false 0 0 0 [] ∅ Leaf Leaf ∅ 0.

Definition set_vma (x : bool) (s : binder_proc) : binder_proc :=
  MkProc x (buffer s) (user_buffer_offset s) (buffer_size s) (buffers s) (headers s) (free_buffers s) (allocated_buffers s) (pages s) (free_async_space s).
Definition set_region (b off n : Z) (s : binder_proc) : binder_proc :=
  MkProc (vma s) b off n (buffers s) (headers s) (free_buffers s) (allocated_buffers s) (pages s) (free_async_space s).
Definition set_buffers (x : list Z) (s : binder_proc) : binder_proc :=
  MkProc (vma s) (buffer s) (user_buffer_offset s) (buffer_size s) x (headers s) (free_buffers s) (allocated_buffers s) (pages s) (free_async_space s).
Definition set_headers (x : gmap Z binder_buffer) (s : binder_proc) : binder_proc :=
  MkProc (vma s) (buffer s) (user_buffer_offset s) (buffer_size s) (buffers s) x (free_buffers s) (allocated_buffers s) (pages s) (free_async_space s).
Definition set_free_buffers (x : tree) (s : binder_proc) : binder_proc :=
  MkProc (vma s) (buffer s) (user_buffer_offset s) (buffer_size s) (buffers s) (headers s) x (allocated_buffers s) (pages s) (free_async_space s).
Definition set_allocated_buffers (x : tree) (s : binder_proc) : binder_proc :=
  MkProc (vma s) (buffer s) (user_buffer_offset s) (buffer_size s) (buffers s) (headers s) (free_buffers s) x (pages s) (free_async_space s).
Definition set_pages (x : gset Z) (s : binder_proc) : binder_proc :=
  MkProc (vma s) (buffer s) (user_buffer_offset s) (buffer_size s) (buffers s) (headers s) (free_buffers s) (allocated_buffers s) x (free_async_space s).
Definition set_async (x : Z) (s : binder_proc) : binder_proc :=
  MkProc (vma s) (buffer s) (user_buffer_offset s) (buffer_size s) (buffers s) (headers s) (free_buffers s) (allocated_buffers s) (pages s) x.

Definition with_free (f : bool) (h : binder_buffer) : binder_buffer :=
  MkBuffer f (allow_user_free h) (async_transaction h) (transaction h) (data_size h) (offsets_size h) (extra_buffers_size h).
Definition with_request (is_async : bool) (d o e : Z) (h : binder_buffer) : binder_buffer :=
  MkBuffer (b_free h) (allow_user_free h) is_async (transaction h) d o e.
Definition with_transaction (t : option Z) (h : binder_buffer) : binder_buffer :=
  MkBuffer (b_free h) (allow_user_free h) (async_transaction h) t (data_size h) (offsets_size h) (extra_buffers_size h).
Definition with_user_free (u : bool) (h : binder_buffer) : binder_buffer :=
  MkBuffer (b_free h) u (async_transaction h) (transaction h) (data_size h) (offsets_size h) (extra_buffers_size h).

Definition the_buffer (b : Z) : M binder_proc binder_buffer :=
  s ← get; match headers s !! b with Some h => mret h | None => undefined end.
Definition put_buffer (b : Z) (h : binder_buffer) : M binder_proc unit :=
  modify (λ s, set_headers (<[b := h]> (headers s)) s).
Definition BUG_ON (c : bool) : M binder_proc unit := if c then undefined else mret tt.
Definition or_bug {A} (x : option A) : M binder_proc A := match x with Some a => mret a | None => undefined end.

(** The entries of the list around one. *)
Fixpoint next_entry (b : Z) (l : list Z) : option Z :=
  match l with
  | [] => None
  | x :: l' => if decide (x = b) then head l' else next_entry b l'
  end.
Fixpoint prev_entry (b : Z) (l : list Z) : option Z :=
  match l with
  | x :: (y :: _) as l' => if decide (y = b) then Some x else prev_entry b l'
  | _ => None
  end.
Fixpoint list_add_after (b new : Z) (l : list Z) : list Z :=
  match l with
  | [] => []
  | x :: l' => if decide (x = b) then x :: new :: l' else x :: list_add_after b new l'
  end.

(** ** Sizes and trees *)

Definition data_of (b : Z) : Z := b + sizeof_binder_buffer.
Definition binder_buffer_size (s : binder_proc) (b : Z) : Z :=
  match next_entry b (buffers s) with
  | None => u64 (buffer s + buffer_size s - data_of b)
  | Some c => u64 (c - data_of b)
  end.
(** What [buffer->free] reads. *)
Definition is_free (s : binder_proc) (b : Z) : option bool := b_free <$> headers s !! b.

(** The walks of the trees; no result where a BUG_ON fails. *)
Fixpoint link_free (size_of : Z → Z) (fr : Z → option bool) (new n : Z) (t : tree) : option tree :=
  match t with
  | Leaf => Some (Node Leaf new Leaf)
  | Node l b r =>
      match fr b with
      | Some true =>
          if decide (n < size_of b) then l' ← link_free size_of fr new n l; Some (Node l' b r)
          else r' ← link_free size_of fr new n r; Some (Node l b r')
      | _ => None
      end
  end.
Fixpoint link_allocated (fr : Z → option bool) (new : Z) (t : tree) : option tree :=
  match t with
  | Leaf => Some (Node Leaf new Leaf)
  | Node l b r =>
      match fr b with
      | Some false =>
          if decide (new < b) then l' ← link_allocated fr new l; Some (Node l' b r)
          else if decide (b < new) then r' ← link_allocated fr new r; Some (Node l b r')
          else None
      | _ => None
      end
  end.
Fixpoint find_allocated (fr : Z → option bool) (k : Z) (t : tree) : option (option Z) :=
  match t with
  | Leaf => Some None
  | Node l b r =>
      match fr b with
      | Some false =>
          if decide (k < b) then find_allocated fr k l
          else if decide (b < k) then find_allocated fr k r
          else Some (Some b)
      | _ => None
      end
  end.
(** The best fit so far, and whether it is exact. *)
Fixpoint best_fit (size_of : Z → Z) (fr : Z → option bool) (size : Z) (t : tree) (best : option Z) : option (option Z * bool) :=
  match t with
  | Leaf => Some (best, false)
  | Node l b r =>
      match fr b with
      | Some true =>
          if decide (size < size_of b) then best_fit size_of fr size l (Some b)
          else if decide (size_of b < size) then best_fit size_of fr size r best
          else Some (Some b, true)
      | _ => None
      end
  end.

Section allocator.
Context `{RbTree}.

Definition binder_insert_free_buffer (new : Z) : M binder_proc unit :=
  h ← the_buffer new;
  BUG_ON (negb (b_free h));;
  s ← get;
  t ← or_bug (link_free (binder_buffer_size s) (is_free s) new (binder_buffer_size s new) (free_buffers s));
  put (set_free_buffers (rb_insert_color new t) s).

Definition binder_insert_allocated_buffer (new : Z) : M binder_proc unit :=
  h ← the_buffer new;
  BUG_ON (b_free h);;
  s ← get;
  t ← or_bug (link_allocated (is_free s) new (allocated_buffers s));
  put (set_allocated_buffers (rb_insert_color new t) s).

Definition binder_buffer_lookup (user_ptr : Z) : M binder_proc (option Z) :=
  s ← get;
  let kern_ptr := u64 (u64 (user_ptr - user_buffer_offset s) - sizeof_binder_buffer) in
  or_bug (find_allocated (is_free s) kern_ptr (allocated_buffers s)).

(** ** Pages *)

Inductive page_answer : Type := PageOk | NoPage | NoKernelMapping | NoUserMapping.
(** The process's memory map, if it is still there, and whether it is the one of the vma. *)
Inductive mm_answer : Type := NoMm | Mm (same : bool).

(** A place in the array of pages. *)
Definition page_at (p : Z) : M binder_proc bool :=
  s ← get;
  if decide (buffer s ≤ p < buffer s + buffer_size s) then mret (bool_decide (p ∈ pages s)) else undefined.

(** Freeing a page that is not there is undefined. *)
Fixpoint free_pages (l : list Z) : M binder_proc unit :=
  match l with
  | [] => mret tt
  | p :: l' =>
      there ← page_at p;
      BUG_ON (negb there);;
      modify (λ s, set_pages (pages s ∖ {[p]}) s);;
      free_pages l'
  end.
(** [done]: the pages of this call so far, the last one first. *)
Fixpoint alloc_pages (answer : Z → page_answer) (l done : list Z) : M binder_proc Z :=
  match l with
  | [] => mret 0
  | p :: l' =>
      there ← page_at p;
      BUG_ON there;;
      match answer p with
      | PageOk => modify (λ s, set_pages (pages s ∪ {[p]}) s);; alloc_pages answer l' (p :: done)
      | NoPage | NoKernelMapping | NoUserMapping => free_pages done;; mret (- ENOMEM)
      end
  end.
(** From a page up to an end, and down from an end to a page. *)
Definition pages_up (start end_ : Z) : list Z := (λ i, start + i * PAGE_SIZE) <$> seqZ 0 ((end_ - start + (PAGE_SIZE - 1)) / PAGE_SIZE).
Definition pages_down (start end_ : Z) : list Z := (λ i, end_ - (i + 1) * PAGE_SIZE) <$> seqZ 0 ((end_ - start) / PAGE_SIZE).

(** [v]: the vma that is passed in, or the process's own. *)
Definition binder_alloc_pages (start end_ : Z) (v : bool) (answer : Z → page_answer) : M binder_proc Z :=
  if decide (end_ ≤ start) then mret 0
  else if v then alloc_pages answer (pages_up start end_) [] else mret (- ENOMEM).
Definition binder_free_pages (start end_ : Z) : M binder_proc Z :=
  if decide (end_ ≤ start) then mret 0 else free_pages (pages_down start end_);; mret (- ENOMEM).
Definition proc_vma (s : binder_proc) (mm : mm_answer) : bool :=
  match mm with NoMm => false | Mm same => vma s && same end.

(** ** Allocating *)

Definition ALIGN (z : Z) : Z := Z.ldiff (u64 (z + 7)) 7.
(** The size of a request, unless it does not fit into a [size_t]. *)
Definition request_size (d o e : Z) : option Z :=
  let data_offsets_size := u64 (ALIGN d + ALIGN o) in
  if decide (data_offsets_size < d ∨ data_offsets_size < o) then None
  else
    let size := u64 (data_offsets_size + ALIGN e) in
    if decide (size < data_offsets_size ∨ size < e) then None else Some size.

(** Once its pages are there: the buffer changes trees, and what it does not need becomes a free buffer.  [stale]: what
    lies where a new header is put. *)
Definition take_buffer (b size bs d o e : Z) (is_async : bool) (stale : binder_buffer) : M binder_proc unit :=
  modify (λ s, set_free_buffers (rb_erase b (free_buffers s)) s);;
  h ← the_buffer b;
  put_buffer b (with_free false h);;
  binder_insert_allocated_buffer b;;
  (if decide (bs ≠ size) then
     let new := data_of b + size in
     modify (λ s, set_buffers (list_add_after b new (buffers s)) s);;
     put_buffer new (with_free true stale);;
     binder_insert_free_buffer new
   else mret tt);;
  h ← the_buffer b;
  put_buffer b (with_request is_async d o e h);;
  if is_async then
    modify (λ s, set_async (u64 (free_async_space s - u64 (size + sizeof_binder_buffer))) s)
  else mret tt.
Definition binder_alloc_buf (d o e : Z) (is_async : bool) (mm : mm_answer) (answer : Z → page_answer) (stale : binder_buffer)
    : M binder_proc (option Z) :=
  s ← get;
  if negb (vma s) then mret None
  else
    match request_size d o e with
    | None => mret None
    | Some size =>
        if decide (is_async = true ∧ free_async_space s < u64 (size + sizeof_binder_buffer)) then mret None
        else
          fit ← or_bug (best_fit (binder_buffer_size s) (is_free s) size (free_buffers s) None);
          match fit with
          | (None, _) => mret None
          | (Some b, exact) =>
              let full := binder_buffer_size s b in
              let has_page_addr := page_floor (u64 (data_of b + full)) in
              let bs := if exact : bool then full
                        else if decide (full ≤ u64 (u64 (size + sizeof_binder_buffer) + 4)) then size
                        else u64 (size + sizeof_binder_buffer) in
              let end_page_addr := Z.min (PAGE_ALIGN (data_of b + bs)) has_page_addr in
              ret ← binder_alloc_pages (PAGE_ALIGN (data_of b)) end_page_addr (proc_vma s mm) answer;
              if decide (ret ≠ 0) then mret None
              else take_buffer b size bs d o e is_async stale;; mret (Some b)
          end
    end.

(** ** Freeing *)

Definition buffer_start_page (b : Z) : Z := page_floor b.
Definition buffer_end_page (b : Z) : Z := page_floor (b + sizeof_binder_buffer - 1).

(** The pages that go with a header: those that it shares with neither neighbour. *)
Definition freed_pages (prev b : Z) (next : option Z) : option (Z * Z) :=
  let share_start := bool_decide (buffer_end_page prev = buffer_start_page b) in
  let free_page_start := negb share_start in
  let free_page_end := negb (share_start && bool_decide (buffer_end_page prev = buffer_end_page b)) in
  let '(free_page_start, free_page_end) :=
    match next with
    | None => (free_page_start, free_page_end)
    | Some n =>
        if decide (buffer_start_page n = buffer_end_page b) then
          (free_page_start && negb (bool_decide (buffer_start_page n = buffer_start_page b)), false)
        else (free_page_start, free_page_end)
    end in
  if free_page_start || free_page_end then
    Some (if free_page_start then buffer_start_page b else buffer_end_page b,
          (if free_page_end then buffer_end_page b else buffer_start_page b) + PAGE_SIZE)
  else None.

Definition binder_delete_free_buffer (b : Z) : M binder_proc unit :=
  s ← get;
  BUG_ON (bool_decide (head (buffers s) = Some b));;
  prev ← or_bug (prev_entry b (buffers s));
  hp ← the_buffer prev;
  BUG_ON (negb (b_free hp));;
  let range := freed_pages prev b (next_entry b (buffers s)) in
  put (set_buffers (without b (buffers s)) s);;
  match range with
  | Some (start, end_) => binder_free_pages start end_;; mret tt
  | None => mret tt
  end.

Definition buffer_request (h : binder_buffer) : Z :=
  u64 (u64 (ALIGN (data_size h) + ALIGN (offsets_size h)) + ALIGN (extra_buffers_size h)).

Definition binder_free_buf (b : Z) : M binder_proc unit :=
  s ← get;
  h ← the_buffer b;
  let bs := binder_buffer_size s b in
  let size := buffer_request h in
  BUG_ON (b_free h);;
  BUG_ON (bool_decide (bs < size));;
  BUG_ON (bool_decide (is_Some (transaction h)));;
  BUG_ON (bool_decide (b < buffer s));;
  BUG_ON (bool_decide (buffer s + buffer_size s < b));;
  (if async_transaction h then
     modify (λ s, set_async (u64 (free_async_space s + u64 (size + sizeof_binder_buffer))) s)
   else mret tt);;
  binder_free_pages (PAGE_ALIGN (data_of b)) (page_floor (data_of b + bs));;
  modify (λ s, set_allocated_buffers (rb_erase b (allocated_buffers s)) s);;
  put_buffer b (with_free true h);;
  s ← get;
  (match next_entry b (buffers s) with
   | None => mret tt
   | Some next =>
       hn ← the_buffer next;
       if b_free hn then
         modify (λ s, set_free_buffers (rb_erase next (free_buffers s)) s);;
         binder_delete_free_buffer next
       else mret tt
   end);;
  s ← get;
  if decide (head (buffers s) ≠ Some b) then
    prev ← or_bug (prev_entry b (buffers s));
    hp ← the_buffer prev;
    if b_free hp then
      binder_delete_free_buffer b;;
      modify (λ s, set_free_buffers (rb_erase prev (free_buffers s)) s);;
      binder_insert_free_buffer prev
    else binder_insert_free_buffer b
  else binder_insert_free_buffer b.

(** ** The mapping of a process *)

(** [ours]: the caller is the process; [area]: the kernel's address range; [array]: memory
    for the array of pages; [stale]: what lies at the start of the region. *)
Definition binder_mmap (ours : bool) (vm_start vm_end : Z) (forbidden : bool) (area : option Z) (array : bool)
    (answer : Z → page_answer) (stale : binder_buffer) : M binder_proc Z :=
  if negb ours then mret (- EINVAL)
  else
    let vm_end := if decide (SZ_4M < vm_end - vm_start) then vm_start + SZ_4M else vm_end in
    if forbidden then mret (- EPERM)
    else
      s ← get;
      if decide (buffer s ≠ 0) then mret (- EBUSY)
      else
        match area with
        | None => mret (- ENOMEM)
        | Some addr =>
            put (set_region addr (u64 (vm_start - addr)) (buffer_size s) s);;
            if negb array then modify (λ s, set_region 0 (user_buffer_offset s) (buffer_size s) s);; mret (- ENOMEM)
            else
              modify (λ s, set_pages ∅ (set_region (buffer s) (user_buffer_offset s) (vm_end - vm_start) s));;
              ret ← binder_alloc_pages addr (addr + PAGE_SIZE) true answer;
              if decide (ret ≠ 0) then
                modify (λ s, set_pages ∅ (set_region 0 (user_buffer_offset s) (buffer_size s) s));; mret (- ENOMEM)
              else
                modify (set_buffers [addr]);;
                put_buffer addr (with_free true stale);;
                binder_insert_free_buffer addr;;
                modify (λ s, set_vma true (set_async (buffer_size s / 2) s));;
                mret 0
        end.
Definition binder_vma_close : M binder_proc unit := modify (set_vma false).

(** ** The users of the buffers *)

(** The transaction that was given a buffer, and its delivery to the process. *)
Definition attach_transaction (b t : Z) : M binder_proc unit :=
  h ← the_buffer b; put_buffer b (with_transaction (Some t) (with_user_free false h)).
Definition allow_free (b : Z) : M binder_proc unit :=
  h ← the_buffer b; put_buffer b (with_user_free true h).

(** BC_FREE_BUFFER: the address comes from the process.  What the transaction's node and the objects in the buffer go
    through before is not part of the allocator. *)
Definition bc_free_buffer (data_ptr : Z) : M binder_proc bool :=
  found ← binder_buffer_lookup data_ptr;
  match found with
  | None => mret false
  | Some b =>
      h ← the_buffer b;
      if negb (allow_user_free h) then mret false
      else
        put_buffer b (with_transaction None h);;
        binder_free_buf b;; mret true
  end.

(** The end of the process: every buffer that is left is freed, then every page. *)
Fixpoint release_buffers (fuel : nat) : M binder_proc nat :=
  s ← get;
  match leftmost (allocated_buffers s) with
  | None => mret 0%nat
  | Some b =>
      match fuel with
      | O => undefined
      | S fuel' =>
          h ← the_buffer b;
          put_buffer b (with_transaction None h);;
          binder_free_buf b;;
          n ← release_buffers fuel'; mret (S n)
      end
  end.
Definition binder_release_buffers : M binder_proc (nat * nat) :=
  s ← get;
  n ← release_buffers (length (inorder (allocated_buffers s)));
  s ← get;
  put (set_pages ∅ s);;
  mret (n, size (pages s)).
End allocator.

(** ** Lists of buffers

    [hi] is where the region ends. *)

Fixpoint chain (l : list Z) (hi : Z) : Prop :=
  match l with [] => True | b :: l' => b + 88 ≤ List.hd hi l' ∧ chain l' hi end.
(** The bytes after the header of a buffer. *)
Definition bsize (l : list Z) (hi b : Z) : Z := default hi (next_entry b l) - (b + 88).
(** No two free neighbours. *)
Fixpoint apart (fr : Z → bool) (l : list Z) : Prop :=
  match l with
  | b :: ((c :: _) as l') => ¬ (fr b = true ∧ fr c = true) ∧ apart fr l'
  | _ => True
  end.
(** A page that a header touches. *)
Definition touches (b p : Z) : Prop := p < b + 88 ∧ b < p + 4096.
(** The pages that are needed: those of headers, and those inside allocated buffers. *)
Fixpoint needed (fr : Z → bool) (l : list Z) (hi p : Z) : Prop :=
  match l with
  | [] => False
  | b :: l' => touches b p ∨ (fr b = false ∧ b + 88 ≤ p ∧ p + 4096 ≤ List.hd hi l') ∨ needed fr l' hi p
  end.

Lemma hd_app {A} (l : list A) (c : A) post hi : List.hd hi (l ++ c :: post) = List.hd c l.
Proof. by destruct l. Qed.
Lemma chain_app pre c post hi : chain (pre ++ c :: post) hi ↔ chain pre c ∧ chain (c :: post) hi.
Proof.
  induction pre as [|b pre IH]; cbn [app chain]; [cbn [chain]; tauto|]. rewrite hd_app, IH. cbn [chain]. tauto.
Qed.
Lemma needed_app fr pre c post hi p : needed fr (pre ++ c :: post) hi p ↔ needed fr pre c p ∨ needed fr (c :: post) hi p.
Proof.
  induction pre as [|b pre IH]; cbn [app needed]; [cbn [needed]; tauto|]. rewrite hd_app, IH. cbn [needed]. tauto.
Qed.
Lemma chain_below l hi x : chain l hi → x ∈ l → x + 88 ≤ hi.
Proof.
  revert x. induction l as [|b l IH]; intros x; [by intros _ ?%elem_of_nil|].
  intros [Hb Hc] [->|Hx]%elem_of_cons; [|by apply IH].
  destruct l as [|c l]; [done|]. cbn in Hb. assert (c + 88 ≤ hi) by (apply IH; [done|by left]). lia.
Qed.
Lemma chain_above b l hi x : chain (b :: l) hi → x ∈ l → b + 88 ≤ x.
Proof.
  revert b. induction l as [|c l IH]; intros b; [by intros _ ?%elem_of_nil|].
  intros [Hb Hc] [->|Hx]%elem_of_cons; [done|]. cbn in Hb. pose proof (IH c Hc Hx). lia.
Qed.
Lemma chain_nodup l hi : chain l hi → NoDup l.
Proof.
  induction l as [|b l IH]; [constructor|]. intros Hc. constructor; [|by apply IH, Hc].
  intros Hb. pose proof (chain_above b l hi b Hc Hb). lia.
Qed.
Lemma chain_split pre b post hi :
  chain (pre ++ b :: post) hi → (∀ x, x ∈ pre → x + 88 ≤ b) ∧ (∀ x, x ∈ post → b + 88 ≤ x) ∧ (b ∉ pre) ∧ (b ∉ post).
Proof.
  intros [H1 H2]%chain_app. pose proof (λ x, chain_below pre b x H1) as Hp. pose proof (λ x, chain_above b post hi x H2) as Hq.
  split; [done|]. split; [done|]. split; intros Hb; [apply Hp in Hb|apply Hq in Hb]; lia.
Qed.

Lemma next_entry_mid pre b post : b ∉ pre → next_entry b (pre ++ b :: post) = head post.
Proof.
  induction pre as [|x pre IH]; cbn; [by rewrite decide_True|]. intros [Hx Hb]%not_elem_of_cons.
  rewrite decide_False by congruence. by apply IH.
Qed.
Lemma next_entry_pre pre c post x : x ∈ pre → next_entry x (pre ++ c :: post) = Some (default c (next_entry x pre)).
Proof.
  induction pre as [|y pre IH]; [by intros ?%elem_of_nil|]. intros Hx. cbn. case_decide; [by destruct pre|].
  apply elem_of_cons in Hx as [->|Hx]; [done|]. by apply IH.
Qed.
Lemma next_entry_post pre l x : x ∉ pre → next_entry x (pre ++ l) = next_entry x l.
Proof.
  induction pre as [|y pre IH]; cbn; [done|]. intros [Hy Hx]%not_elem_of_cons. rewrite decide_False by congruence. by apply IH.
Qed.
Lemma prev_entry_mid pre a b post : b ∉ pre → a ≠ b → prev_entry b (pre ++ a :: b :: post) = Some a.
Proof.
  induction pre as [|x pre IH]; intros Hb Ha; cbn; [by rewrite decide_True|]. apply not_elem_of_cons in Hb as [Hx Hb].
  destruct pre as [|y pre]; cbn [app]; [rewrite decide_False by congruence; by apply IH|].
  apply not_elem_of_cons in Hb as [Hy Hb]. rewrite decide_False by congruence. apply IH; [|done]. by apply not_elem_of_cons.
Qed.
Lemma list_add_mid pre b post new : b ∉ pre → list_add_after b new (pre ++ b :: post) = pre ++ b :: new :: post.
Proof.
  induction pre as [|x pre IH]; cbn; [by rewrite decide_True|]. intros [Hx Hb]%not_elem_of_cons.
  rewrite decide_False by congruence. by rewrite IH.
Qed.
Lemma bsize_mid pre b post hi : b ∉ pre → bsize (pre ++ b :: post) hi b = List.hd hi post - (b + 88).
Proof. intros Hb. unfold bsize. rewrite next_entry_mid by done. by destruct post. Qed.
Lemma bsize_pre pre c post hi x : x ∈ pre → bsize (pre ++ c :: post) hi x = bsize pre c x.
Proof. intros Hx. unfold bsize. by rewrite next_entry_pre. Qed.
Lemma bsize_post pre l hi x : x ∉ pre → bsize (pre ++ l) hi x = bsize l hi x.
Proof. intros Hx. unfold bsize. by rewrite next_entry_post. Qed.
Lemma chain_next b l hi : chain (b :: l) hi → b + 88 ≤ List.hd hi l ≤ hi.
Proof.
  intros [Hb Hc]. split; [done|]. destruct l as [|c l]; cbn; [lia|]. pose proof (chain_below (c :: l) hi c Hc ltac:(by left)). lia.
Qed.
Lemma bsize_bounds l hi lo x : chain l hi → x ∈ l → lo ≤ x → 0 ≤ bsize l hi x ≤ hi - lo - 88.
Proof.
  intros Hc (pre & post & ->)%list_elem_of_split Hlo. pose proof (chain_split _ _ _ _ Hc) as (_ & _ & Hp & _).
  rewrite bsize_mid by done. apply chain_app in Hc as [_ Hc]. pose proof (chain_next _ _ _ Hc). lia.
Qed.
Lemma needed_ext fr fr' l hi p : (∀ x, x ∈ l → fr x = fr' x) → needed fr l hi p ↔ needed fr' l hi p.
Proof.
  induction l as [|b l IH]; intros Hf; cbn; [done|]. rewrite (Hf b) by left. rewrite IH; [done|]. intros x Hx. apply Hf. by right.
Qed.
(** Pages that something before an address needs start before it; pages that something from an address on needs end after it. *)
Lemma needed_below fr l hi p : chain l hi → needed fr l hi p → p < hi.
Proof.
  induction l as [|b l IH]; [done|]. intros Hc [Ht|[Ha|Hn]].
  - pose proof (chain_next _ _ _ Hc). unfold touches in Ht. lia.
  - pose proof (chain_next _ _ _ Hc). lia.
  - by apply IH; [apply Hc|].
Qed.
Lemma needed_above fr b l hi p : chain (b :: l) hi → needed fr (b :: l) hi p → b < p + 4096.
Proof.
  revert b. induction l as [|c l IH]; intros b Hc [Ht|[Ha|Hn]]; unfold touches in *; try lia; [done|].
  apply IH in Hn; [|apply Hc]. pose proof (chain_next _ _ _ Hc). cbn in *. lia.
Qed.

(** ** Pages of buffers *)

Section geometry.
Context (fr fr' : Z → bool) (pre post : list Z) (b hi p : Z).
Context (Hc : chain (pre ++ b :: post) hi).
Let fe := List.hd hi post.
Context (Hsame : ∀ x, x ∈ pre ++ post → fr' x = fr x).

Lemma needed_others l :
  needed fr' (pre ++ b :: l) hi p ↔ needed fr pre b p ∨ needed fr' (b :: l) hi p.
Proof using Hsame.
  rewrite needed_app. rewrite (needed_ext fr' fr pre); [done|]. intros x Hx. apply Hsame, elem_of_app. by left.
Qed.
Lemma needed_rest : needed fr' post hi p ↔ needed fr post hi p.
Proof using Hsame. apply needed_ext. intros x Hx. apply Hsame, elem_of_app. by right. Qed.

Lemma gap_not_needed : fr b = true → b + 88 ≤ p → p + 4096 ≤ fe → ¬ needed fr (pre ++ b :: post) hi p.
Proof using Hc.
  clear Hsame. intros Hf H1 H2. rewrite needed_app. apply chain_app in Hc as [C1 C2]. intros [Hn|[Ht|[Ha|Hn]]].
  - apply needed_below in Hn; [|done]. lia.
  - unfold touches in Ht. lia.
  - destruct Ha. congruence.
  - unfold fe in H2. destruct post as [|c post']; [done|]. apply needed_above in Hn; [|apply C2]. cbn in H2. lia.
Qed.

(** A buffer that is allocated as a whole. *)
Lemma needed_whole :
  fr b = true → fr' b = false →
  needed fr' (pre ++ b :: post) hi p ↔ needed fr (pre ++ b :: post) hi p ∨ (b + 88 ≤ p ∧ p + 4096 ≤ fe).
Proof using Hsame.
  intros Hf Hf'. rewrite needed_others, needed_app. cbn [needed]. rewrite needed_rest. fold fe. rewrite Hf, Hf'. naive_solver.
Qed.
(** The first part of a buffer is allocated, and the rest gets a header. *)
Lemma needed_split N :
  fr b = true → fr' b = false → fr' N = true → b + 88 ≤ N → N + 88 ≤ fe → aligned p → aligned hi →
  needed fr' (pre ++ b :: N :: post) hi p
    ↔ needed fr (pre ++ b :: post) hi p ∨ (b + 88 ≤ p ∧ p < N + 88 ∧ p + 4096 ≤ fe).
Proof using Hsame Hc.
  intros Hf Hf' HN H1 H2 Ha Hh. rewrite needed_others, needed_app. cbn [needed List.hd]. rewrite needed_rest, Hf, Hf', HN.
  assert (∀ q, post = [] → q = hi → q = fe) as Hfe by (unfold fe; by intros ? -> ->).
  assert (touches N p → touches b p ∨ (b + 88 ≤ p ∧ p + 4096 ≤ fe) ∨ (post ≠ [] ∧ p < fe + 88 ∧ fe < p + 4096)) as HT.
  { unfold touches. intros [T1 T2]. destruct (decide (p < b + 88)); [left; lia|].
    destruct (decide (p + 4096 ≤ fe)); [right; left; lia|]. right. right. split; [|lia].
    intros ->. unfold fe in *. cbn in *. pose proof (aligned_le p hi Ha Hh). lia. }
  assert (post ≠ [] → p < fe + 88 → fe < p + 4096 → needed fr post hi p) as Hnext.
  { unfold fe. destruct post as [|c post']; [done|]. cbn. intros _ ? ?. left. by split. }
  unfold touches in *. split.
  - intros [?|[?|[(_ & ? & ?)|[T|[(? & _)|?]]]]]; [tauto|tauto|right; lia| |done|tauto].
    destruct (HT T) as [?|[?|(? & ? & ?)]]; [tauto|right; lia|]. left. right. right. right. by apply Hnext.
  - intros [[?|[?|[(? & _)|?]]]|(? & ? & ?)]; [tauto|tauto|done|tauto|].
    destruct (decide (p + 4096 ≤ N)); [|right; right; right; left; lia]. right. right. left. split; [done|lia].
Qed.
(** A buffer that is freed. *)
Lemma needed_freed :
  fr b = false → fr' b = true →
  needed fr' (pre ++ b :: post) hi p ↔ needed fr (pre ++ b :: post) hi p ∧ ¬ (b + 88 ≤ p ∧ p + 4096 ≤ fe).
Proof using Hsame Hc.
  intros Hf Hf'. rewrite needed_others, needed_app. cbn [needed]. rewrite needed_rest. fold fe. rewrite Hf, Hf'.
  apply chain_app in Hc as [C1 C2]. pose proof (needed_below fr pre b p C1) as Hlo.
  assert (needed fr post hi p → fe < p + 4096) as Hup.
  { unfold fe. destruct post as [|c post']; [done|]. intros Hn. by apply needed_above in Hn; [|apply C2]. }
  unfold touches. split.
  - intros [Hn|[Ht|[[? _]|Hn]]]; [split; [tauto|]; apply Hlo in Hn; lia|split; [tauto|lia]|done|split; [tauto|]; apply Hup in Hn; lia].
  - intros [[?|[?|[(_ & ?)|?]]] Hno]; tauto.
Qed.
End geometry.

(** A header that is removed: its pages go unless a neighbour's header is on them. *)
Definition next_touches (post : list Z) (p : Z) : Prop := match post with c :: _ => touches c p | [] => False end.
Lemma needed_deleted fr pre a b post hi p :
  chain (pre ++ a :: b :: post) hi → fr a = true → fr b = true →
  needed fr (pre ++ a :: post) hi p
    ↔ needed fr (pre ++ a :: b :: post) hi p ∧ ¬ (touches b p ∧ ¬ touches a p ∧ ¬ next_touches post p).
Proof.
  intros Hc Ha Hb. rewrite !needed_app. cbn [needed]. rewrite Ha, Hb. apply chain_app in Hc as [C1 C2].
  pose proof (needed_below fr pre a p C1) as Hlo. pose proof (chain_next _ _ _ C2) as C3. cbn in C3. destruct C2 as [_ C2].
  pose proof (chain_next _ _ _ C2) as C4. destruct C2 as [_ C2].
  assert (needed fr post hi p → ¬ touches b p ∨ next_touches post p) as Hup.
  { destruct post as [|c post']; [done|]. intros Hn. pose proof (needed_above fr c post' hi p C2 Hn). unfold touches. cbn.
    destruct (decide (p < b + 88)); [|left; lia]. right. unfold touches. cbn in C4. lia. }
  unfold touches in *. split.
  - intros [Hn|[Ht|[[? _]|Hn]]]; [|tauto|done|tauto]. split; [tauto|]. intros (T1 & T2 & _). apply Hlo in Hn. apply T2. lia.
  - intros [[?|[?|[(? & _)|[T|[(? & _)|?]]]]] Hno]; try tauto; try done.
    destruct (decide (p < a + 88 ∧ a < p + 4096)) as [|HnA]; [tauto|]. right. right. right.
    destruct post as [|c post']; [destruct Hno; tauto|]. cbn [next_touches] in Hno. unfold touches in Hno.
    destruct (decide (p < c + 88 ∧ c < p + 4096)); [|tauto]. left. done.
Qed.

(** The pages of a list. *)
Lemma elem_of_pages_up start end_ p :
  aligned start → aligned end_ → start ≤ end_ → p ∈ pages_up start end_ ↔ aligned p ∧ start ≤ p < end_.
Proof.
  unfold pages_up, aligned, PAGE_SIZE. intros Hs He Hle. rewrite list_elem_of_fmap. split.
  - intros (i & -> & Hi%elem_of_seqZ). revert Hs He Hi. Z.div_mod_to_equations. lia.
  - intros (Hp & H1). exists ((p - start) / 4096). rewrite elem_of_seqZ. revert Hs He Hp H1. Z.div_mod_to_equations. lia.
Qed.
Lemma elem_of_pages_down start end_ p :
  aligned start → aligned end_ → start ≤ end_ → p ∈ pages_down start end_ ↔ aligned p ∧ start ≤ p < end_.
Proof.
  unfold pages_down, aligned, PAGE_SIZE. intros Hs He Hle. rewrite list_elem_of_fmap. split.
  - intros (i & -> & Hi%elem_of_seqZ). revert Hs He Hi. Z.div_mod_to_equations. lia.
  - intros (Hp & H1). exists ((end_ - p) / 4096 - 1). rewrite elem_of_seqZ. revert Hs He Hp H1. Z.div_mod_to_equations. lia.
Qed.
Lemma nodup_pages (f : Z → Z) n : (∀ i j, f i = f j → i = j) → NoDup (f <$> seqZ 0 n).
Proof. intros Hf. apply NoDup_fmap_2; [intros i j; apply Hf|apply NoDup_seqZ]. Qed.

(** ** Walks *)

Section walks.
Context (size_of : Z → Z) (fr : Z → option bool).

Lemma link_free_spec new n t :
  (∀ x, x ∈ inorder t → fr x = Some true) → sorted_by size_of (inorder t) →
  ∃ t' l k, link_free size_of fr new n t = Some t' ∧ inorder t = l ++ k ∧ inorder t' = l ++ new :: k
    ∧ (∀ x, x ∈ l → size_of x ≤ n) ∧ (∀ x, x ∈ k → n < size_of x).
Proof using Type.
  induction t as [|l IHl b r IHr]; cbn.
  { intros _ _. exists (Node Leaf new Leaf), [], []. cbn. split_and!; try done; by intros ? ?%elem_of_nil. }
  intros Hf (S1 & (S2 & S3) & S4)%sorted_by_app. rewrite (Hf b) by (apply elem_of_app; right; left). case_decide as Hn.
  - destruct IHl as (t' & l1 & k1 & -> & E1 & E2 & L1 & K1); [|done|].
    { intros x Hx. apply Hf, elem_of_app. by left. }
    exists (Node t' b r), l1, (k1 ++ b :: inorder r). cbn. rewrite E1, E2, <- !app_assoc. cbn. split_and!; try done.
    intros x [Hx|[->|Hx]%elem_of_cons]%elem_of_app; [by apply K1|done|]. pose proof (S2 x Hx). lia.
  - destruct IHr as (t' & l1 & k1 & -> & E1 & E2 & L1 & K1); [|done|].
    { intros x Hx. apply Hf, elem_of_app. right. by right. }
    exists (Node l b t'), (inorder l ++ b :: l1), k1. cbn. rewrite E1, E2, <- !app_assoc. cbn. split_and!; try done.
    intros x [Hx|[->|Hx]%elem_of_cons]%elem_of_app; [|lia|by apply L1]. pose proof (S4 x b Hx ltac:(by left)). lia.
Qed.

(** The smallest buffer that is large enough. *)
Definition fits (t : tree) (size : Z) (r : option Z * bool) (best : option Z) : Prop :=
  if r.2 then ∃ b, r.1 = Some b ∧ b ∈ inorder t ∧ size_of b = size
  else
    (∀ x, x ∈ inorder t → size_of x ≠ size)
    ∧ ((r.1 = best ∧ ∀ x, x ∈ inorder t → size_of x < size)
       ∨ ∃ b, r.1 = Some b ∧ b ∈ inorder t ∧ size < size_of b ∧ ∀ x, x ∈ inorder t → size ≤ size_of x → size_of b ≤ size_of x).
Lemma best_fit_spec size t best :
  (∀ x, x ∈ inorder t → fr x = Some true) → sorted_by size_of (inorder t) →
  ∃ r, best_fit size_of fr size t best = Some r ∧ fits t size r best.
Proof using Type.
  revert best. induction t as [|l IHl b r IHr]; intros best; cbn.
  { intros _ _. exists (best, false). split; [done|]. split; [by intros ? ?%elem_of_nil|].
    left. split; [done|]. by intros ? ?%elem_of_nil. }
  intros Hf (S1 & (S2 & S3) & S4)%sorted_by_app. rewrite (Hf b) by (apply elem_of_app; right; left).
  assert (∀ x, x ∈ inorder l → size_of x ≤ size_of b) as Sl by (intros x Hx; apply S4; [done|by left]).
  assert (∀ (P : Z → Prop), (∀ x, x ∈ inorder l ++ b :: inorder r → P x) ↔ (∀ x, x ∈ inorder l → P x) ∧ P b ∧ ∀ x, x ∈ inorder r → P x) as Hall.
  { intros P. setoid_rewrite elem_of_app. setoid_rewrite elem_of_cons. naive_solver. }
  apply Hall in Hf as (F1 & _ & F3). repeat case_decide.
  - destruct (IHl (Some b) F1 S1) as ([c e] & -> & Hfit). exists (c, e). split; [done|]. revert Hfit.
    unfold fits. cbn [fst snd inorder]. destruct e; [intros (x & -> & ? & ?); exists x; rewrite elem_of_app; auto|].
    rewrite Hall. intros [H1 H2]. split; [split_and!; [done|lia|intros x Hx; pose proof (S2 x Hx); lia]|].
    right. destruct H2 as [[-> H2]|(c' & -> & Hc & H3 & H4)].
    + exists b. split_and!; [done|apply elem_of_app; right; by left|done|]. rewrite Hall.
      split_and!; [intros x Hx ?; pose proof (H2 x Hx); lia|lia|intros x Hx _; by apply S2].
    + exists c'. split_and!; [done|apply elem_of_app; by left|done|]. rewrite Hall. pose proof (Sl c' Hc).
      split_and!; [done|done|intros x Hx _; pose proof (S2 x Hx); lia].
  - destruct (IHr best F3 S3) as ([c e] & -> & Hfit). exists (c, e). split; [done|]. revert Hfit.
    unfold fits. cbn [fst snd inorder].
    destruct e; [intros (x & -> & ? & ?); exists x; rewrite elem_of_app, elem_of_cons; auto|].
    assert (∀ x, x ∈ inorder l → size_of x < size) as Hl by (intros x Hx; pose proof (Sl x Hx); lia).
    rewrite !Hall. intros [H1 H2]. split; [split_and!; [intros x Hx; pose proof (Hl x Hx); lia|lia|done]|].
    destruct H2 as [[-> H2]|(c' & -> & Hc & H3 & H4)]; [by left|]. right.
    exists c'. split_and!; [done|apply elem_of_app; right; by right|done|]. rewrite Hall.
    split_and!; [intros x Hx ?; pose proof (Hl x Hx); lia|lia|done].
  - exists (Some b, true). split; [done|]. exists b. split; [done|]. cbn. split; [apply elem_of_app; right; by left|lia].
Qed.

End walks.

Section address_walks.
Context (fr : Z → option bool).

Lemma link_allocated_spec new t :
  (∀ x, x ∈ inorder t → fr x = Some false) → sorted_by (λ x, x) (inorder t) → new ∉ inorder t →
  ∃ t' l k, link_allocated fr new t = Some t' ∧ inorder t = l ++ k ∧ inorder t' = l ++ new :: k
    ∧ (∀ x, x ∈ l → x < new) ∧ (∀ x, x ∈ k → new < x).
Proof using Type.
  induction t as [|l IHl b r IHr]; cbn.
  { intros _ _ _. exists (Node Leaf new Leaf), [], []. cbn. split_and!; try done; by intros ? ?%elem_of_nil. }
  intros Hf (S1 & (S2 & S3) & S4)%sorted_by_app Hn. rewrite (Hf b) by (apply elem_of_app; right; left).
  rewrite elem_of_app, elem_of_cons in Hn. case_decide as Hlt; [|rewrite decide_True by (destruct (decide (new = b)); [tauto|lia])].
  - destruct IHl as (t' & l1 & k1 & -> & E1 & E2 & L1 & K1); [|done|tauto|].
    { intros x Hx. apply Hf, elem_of_app. by left. }
    exists (Node t' b r), l1, (k1 ++ b :: inorder r). cbn. rewrite E1, E2, <- !app_assoc. cbn. split_and!; try done.
    intros x [Hx|[->|Hx]%elem_of_cons]%elem_of_app; [by apply K1|done|]. pose proof (S2 x Hx). lia.
  - destruct IHr as (t' & l1 & k1 & -> & E1 & E2 & L1 & K1); [|done|tauto|].
    { intros x Hx. apply Hf, elem_of_app. right. by right. }
    exists (Node l b t'), (inorder l ++ b :: l1), k1. cbn. rewrite E1, E2, <- !app_assoc. cbn. split_and!; try done.
    assert (b < new) by (destruct (decide (new = b)); [tauto|lia]).
    intros x [Hx|[->|Hx]%elem_of_cons]%elem_of_app; [|lia|by apply L1]. pose proof (S4 x b Hx ltac:(by left)). lia.
Qed.

Lemma find_allocated_spec k t :
  (∀ x, x ∈ inorder t → fr x = Some false) → sorted_by (λ x, x) (inorder t) → NoDup (inorder t) →
  find_allocated fr k t = Some (if decide (k ∈ inorder t) then Some k else None).
Proof using Type.
  induction t as [|l IHl b r IHr]; cbn; [done|].
  intros Hf (S1 & (S2 & S3) & S4)%sorted_by_app (N1 & N2 & [N3 N4]%list.NoDup_cons)%list.NoDup_app.
  rewrite (Hf b) by (apply elem_of_app; right; left).
  assert (∀ x, x ∈ inorder l → x < b) as Hl.
  { intros x Hx. pose proof (S4 x b Hx ltac:(by left)). destruct (decide (x = b)) as [->|]; [|lia]. destruct (N2 b Hx). by left. }
  assert (∀ x, x ∈ inorder r → b < x) as Hr.
  { intros x Hx. pose proof (S2 x Hx). destruct (decide (x = b)) as [->|]; [done|lia]. }
  destruct (decide (k < b)); [|destruct (decide (b < k))].
  - rewrite IHl; [|intros x Hx; apply Hf, elem_of_app; by left|done|done]. f_equal. apply decide_ext.
    rewrite elem_of_app, elem_of_cons. split; [tauto|]. intros [?|[->|Hx]]; [done|lia|]. apply Hr in Hx. lia.
  - rewrite IHr; [|intros x Hx; apply Hf, elem_of_app; right; by right|done|done]. f_equal. apply decide_ext.
    rewrite elem_of_app, elem_of_cons. split; [tauto|]. intros [Hx|[->|Hx]]; [|lia|done]. apply Hl in Hx. lia.
  - assert (k = b) as -> by lia. rewrite decide_True; [done|]. apply elem_of_app. right. by left.
Qed.
End address_walks.


(** ** The invariant *)

Definition fr (s : binder_proc) (b : Z) : bool := default true (is_free s b).
Definition region_end (s : binder_proc) : Z := buffer s + buffer_size s.
Definition extent (s : binder_proc) (b : Z) : Z := bsize (buffers s) (region_end s) b.
(** What a buffer takes of the space for asynchronous transactions. *)
Definition async_cost (s : binder_proc) (b : Z) : Z :=
  match headers s !! b with
  | Some h => if negb (b_free h) && async_transaction h then buffer_request h + 88 else 0
  | None => 0
  end.
Definition async_total (s : binder_proc) : Z := foldr (λ b n, async_cost s b + n) 0 (buffers s).

Record region_ok (s : binder_proc) : Prop := {
  rg_pos : 0 < buffer s;
  rg_aligned : aligned (buffer s) ∧ aligned (buffer_size s);
  rg_size : 4096 ≤ buffer_size s ≤ SZ_4M;
  rg_end : region_end s + 8192 < 18446744073709551616;
}.
(** The buffers fill the region, each with its header, and the pages are those that are needed. *)
Record shape (s : binder_proc) : Prop := {
  ly_region : region_ok s;
  ly_head : head (buffers s) = Some (buffer s);
  ly_chain : chain (buffers s) (region_end s);
}.
Record layout (s : binder_proc) : Prop := {
  ly_shape : shape s;
  ly_align : ∀ b, b ∈ buffers s → b mod 8 = 0;
  ly_headers : ∀ b, b ∈ buffers s → is_Some (headers s !! b);
  ly_pages : ∀ p, p ∈ pages s ↔ aligned p ∧ needed (fr s) (buffers s) (region_end s) p;
}.
Record alloc_ok (s : binder_proc) : Prop := {
  ok_layout : layout s;
  ok_apart : apart (fr s) (buffers s);
  ok_free_nodup : NoDup (inorder (free_buffers s));
  ok_free : ∀ b, b ∈ inorder (free_buffers s) ↔ b ∈ buffers s ∧ fr s b = true;
  ok_free_sorted : sorted_by (extent s) (inorder (free_buffers s));
  ok_allocated : inorder (allocated_buffers s) = List.filter (λ b, negb (fr s b)) (buffers s);
  ok_capacity : ∀ b h, b ∈ buffers s → headers s !! b = Some h → b_free h = false →
    request_size (data_size h) (offsets_size h) (extra_buffers_size h) = Some (buffer_request h)
    ∧ buffer_request h ≤ extent s b;
  ok_async : 0 ≤ free_async_space s ∧ free_async_space s + async_total s = buffer_size s / 2;
}.

Lemma shape_above s b : shape s → b ∈ buffers s → buffer s ≤ b.
Proof.
  intros Hl Hb. pose proof (ly_head _ Hl) as Hh. pose proof (ly_chain _ Hl) as Hc.
  destruct (buffers s) as [|x l]; [done|]. injection Hh as ->. apply elem_of_cons in Hb as [->|Hb]; [lia|].
  pose proof (chain_above _ _ _ _ Hc Hb). lia.
Qed.
Lemma shape_below s b : shape s → b ∈ buffers s → b + 88 ≤ region_end s.
Proof. intros Hl Hb. by eapply chain_below; [apply Hl|]. Qed.
Lemma size_eq s b : shape s → b ∈ buffers s → binder_buffer_size s b = extent s b.
Proof.
  intros Hl Hb. pose proof (shape_above s b Hl Hb) as H1. pose proof (rg_pos _ (ly_region _ Hl)).
  pose proof (rg_end _ (ly_region _ Hl)) as He.
  pose proof (bsize_bounds _ _ _ _ (ly_chain _ Hl) Hb H1) as H2. unfold extent. unfold binder_buffer_size, data_of, sizeof_binder_buffer.
  revert H2. unfold bsize. change (buffer s + buffer_size s) with (region_end s).
  destruct (next_entry b (buffers s)); cbn [default from_option]; unfold id; intros H2; rewrite u64_small; lia.
Qed.
Lemma extent_bounds s b : shape s → b ∈ buffers s → 0 ≤ extent s b ≤ 4194304.
Proof.
  intros Hl Hb. pose proof (bsize_bounds _ _ _ _ (ly_chain _ Hl) Hb (shape_above s b Hl Hb)).
  pose proof (rg_size _ (ly_region _ Hl)). unfold extent, region_end, SZ_4M in *. lia.
Qed.
Lemma needed_in_region fr' b l hi p : aligned b → aligned p → chain (b :: l) hi → needed fr' (b :: l) hi p → b ≤ p < hi.
Proof.
  intros Hb Hp Hc Hn. pose proof (needed_above _ _ _ _ _ Hc Hn). pose proof (needed_below _ _ _ _ Hc Hn).
  split; [|done]. destruct (decide (b ≤ p)); [done|]. pose proof (aligned_le p b Hp Hb). lia.
Qed.
Lemma is_free_fr s b : layout s → b ∈ buffers s → is_free s b = Some (fr s b).
Proof. intros Hl [h Hh]%(ly_headers _ Hl). unfold fr, is_free. by rewrite Hh. Qed.

(** ** Pages and trees of the driver *)

Lemma the_buffer_eq b h s : headers s !! b = Some h → the_buffer b s = Val s h.
Proof. intros Hh. unfold the_buffer. run_m. by rewrite Hh. Qed.
Lemma put_buffer_eq b h s : put_buffer b h s = Val (set_headers (<[b := h]> (headers s)) s) tt.
Proof. done. Qed.
Lemma page_at_eq p s : buffer s ≤ p < region_end s → page_at p s = Val s (bool_decide (p ∈ pages s)).
Proof. intros Hp. unfold page_at. run_m. unfold region_end in Hp. by rewrite decide_True. Qed.

Lemma set_pages_set P Q s : set_pages P (set_pages Q s) = set_pages P s.
Proof. done. Qed.
Lemma set_pages_same s : set_pages (pages s) s = s.
Proof. by destruct s. Qed.

Lemma free_pages_spec l s :
  NoDup l → (∀ p, p ∈ l → buffer s ≤ p < region_end s ∧ p ∈ pages s) →
  free_pages l s = Val (set_pages (pages s ∖ list_to_set l) s) tt.
Proof.
  revert s. induction l as [|p l IH]; intros s Hnd Hl; cbn [free_pages].
  { rewrite list_to_set_nil, difference_empty_L, set_pages_same. done. }
  apply list.NoDup_cons in Hnd as [Hp Hnd]. destruct (Hl p ltac:(by left)) as [Hr Hin].
  rewrite (bind_val _ _ _ _ _ (page_at_eq p s Hr)), bool_decide_eq_true_2 by done.
  cbn [negb BUG_ON]. rewrite (bind_val (mret tt) _ s s tt) by done.
  rewrite (bind_val (modify _) _ s (set_pages (pages s ∖ {[p]}) s) tt) by done.
  rewrite IH; [|done|].
  - f_equal. rewrite set_pages_set. cbn [pages set_pages]. f_equal. rewrite list_to_set_cons. set_solver.
  - intros q Hq. destruct (Hl q ltac:(by right)) as [? ?]. split; [done|]. cbn. set_solver.
Qed.
Lemma alloc_pages_spec answer l done s :
  NoDup (l ++ done) → (∀ p, p ∈ l → buffer s ≤ p < region_end s ∧ p ∉ pages s) →
  (∀ p, p ∈ done → buffer s ≤ p < region_end s ∧ p ∈ pages s) →
  alloc_pages answer l done s = Val (set_pages (pages s ∪ list_to_set l) s) 0
  ∨ (alloc_pages answer l done s = Val (set_pages (pages s ∖ list_to_set done) s) (- ENOMEM) ∧ ∃ p, answer p ≠ PageOk).
Proof.
  revert done s. induction l as [|p l IH]; intros dn s Hnd Hl Hd; cbn [alloc_pages].
  { left. rewrite list_to_set_nil, union_empty_r_L, set_pages_same. done. }
  destruct (Hl p ltac:(by left)) as [Hr Hin]. cbn [app] in Hnd. apply list.NoDup_cons in Hnd as [Hp Hnd].
  rewrite elem_of_app in Hp.
  rewrite (bind_val _ _ _ _ _ (page_at_eq p s Hr)), bool_decide_eq_false_2 by done.
  cbn [BUG_ON]. rewrite (bind_val (mret tt) _ s s tt) by done.
  assert (∀ e : Z, (free_pages dn;; mret e : M binder_proc Z) s = Val (set_pages (pages s ∖ list_to_set dn) s) e) as Hfail.
  { intros e. rewrite (bind_val _ _ _ _ _ (free_pages_spec dn s (proj2 (proj2 (proj1 (list.NoDup_app _ _) Hnd))) Hd)). done. }
  destruct (answer p) eqn:Ea; [|right; (split; [by rewrite Hfail|exists p; by rewrite Ea])..].
  rewrite (bind_val (modify _) _ s (set_pages (pages s ∪ {[p]}) s) tt) by done.
  destruct (IH (p :: dn) (set_pages (pages s ∪ {[p]}) s)) as [E|[E Hbad]].
  - rewrite <- Permutation_middle. cbn [app]. apply list.NoDup_cons. split; [by rewrite elem_of_app|done].
  - intros q Hq. destruct (Hl q ltac:(by right)) as [? ?]. split; [done|]. cbn. rewrite elem_of_union, elem_of_singleton.
    intros [?| ->]; [done|]. tauto.
  - intros q [->|Hq]%elem_of_cons; [split; [done|cbn; set_solver]|]. destruct (Hd q Hq). split; [done|]. cbn. set_solver.
  - left. rewrite E, set_pages_set. f_equal. cbn [pages set_pages]. f_equal. rewrite list_to_set_cons. set_solver.
  - right. split; [|done]. rewrite E, set_pages_set. f_equal. cbn [pages set_pages]. f_equal. rewrite list_to_set_cons. set_solver.
Qed.

Section driver.
Context `{RbTree}.

Lemma insert_free_spec new h s :
  headers s !! new = Some h → b_free h = true →
  (∀ x, x ∈ inorder (free_buffers s) → is_free s x = Some true) →
  sorted_by (binder_buffer_size s) (inorder (free_buffers s)) →
  ∃ t, binder_insert_free_buffer new s = Val (set_free_buffers t s) tt
    ∧ inorder t ≡ₚ new :: inorder (free_buffers s) ∧ sorted_by (binder_buffer_size s) (inorder t).
Proof.
  intros Hh Hf Ht Hs. unfold binder_insert_free_buffer. rewrite (bind_val _ _ _ _ _ (the_buffer_eq new h s Hh)), Hf.
  cbn [negb BUG_ON]. rewrite (bind_val (mret tt) _ s s tt), (bind_val get _ s s s) by done.
  destruct (link_free_spec (binder_buffer_size s) (is_free s) new (binder_buffer_size s new) _ Ht Hs)
    as (t & l & k & E & E1 & E2 & L & K).
  rewrite (bind_val _ _ s s t) by (by rewrite E).
  exists (rb_insert_color new t). split; [done|]. rewrite rb_insert_inorder, E2, E1. split; [by rewrite Permutation_middle|].
  apply sorted_by_insert; [by rewrite <- E1|done|]. intros x Hx. pose proof (K x Hx). lia.
Qed.
Lemma insert_allocated_spec new h s l k :
  headers s !! new = Some h → b_free h = false →
  (∀ x, x ∈ inorder (allocated_buffers s) → is_free s x = Some false) →
  sorted_by (λ x, x) (inorder (allocated_buffers s)) →
  inorder (allocated_buffers s) = l ++ k → (∀ x, x ∈ l → x < new) → (∀ x, x ∈ k → new < x) →
  ∃ t, binder_insert_allocated_buffer new s = Val (set_allocated_buffers t s) tt ∧ inorder t = l ++ new :: k.
Proof.
  intros Hh Hf Ht Hs E Hl Hk. unfold binder_insert_allocated_buffer. rewrite (bind_val _ _ _ _ _ (the_buffer_eq new h s Hh)), Hf.
  cbn [BUG_ON]. rewrite (bind_val (mret tt) _ s s tt), (bind_val get _ s s s) by done.
  destruct (link_allocated_spec (is_free s) new _ Ht Hs) as (t & l' & k' & E1 & E2 & E3 & L & K).
  { rewrite E, elem_of_app. intros [Hx|Hx]; [apply Hl in Hx|apply Hk in Hx]; lia. }
  rewrite (bind_val _ _ s s t) by (by rewrite E1).
  exists (rb_insert_color new t). split; [done|]. rewrite rb_insert_inorder, E3.
  rewrite E in E2. by destruct (cut_unique new l k l' k' E2 Hl Hk L K) as [-> ->].
Qed.
End driver.

(** ** Requests *)

Definition up8 (z : Z) : Z := (z + 7) / 8 * 8.
Lemma ALIGN_eq z : ALIGN z = u64 (z + 7) / 8 * 8.
Proof. unfold ALIGN. change 7 with (Z.ones 3) at 2. rewrite Z.ldiff_ones_r by lia. by rewrite Z.shiftl_mul_pow2, Z.shiftr_div_pow2 by lia. Qed.
Lemma u64_cases z : 0 ≤ z < 2 * 18446744073709551616 → u64 z = if decide (z < 18446744073709551616) then z else z - 18446744073709551616.
Proof.
  intros Hz. case_decide; [apply u64_small; lia|]. unfold u64, wrap. change (2 ^ 64) with 18446744073709551616.
  Z.div_mod_to_equations. lia.
Qed.
Lemma ALIGN_cases z :
  0 ≤ z < 18446744073709551616 → ALIGN z = (if decide (up8 z < 18446744073709551616) then up8 z else 0) ∧ z ≤ up8 z < z + 8 ∧ up8 z mod 8 = 0.
Proof.
  intros Hz. rewrite ALIGN_eq, u64_cases by lia. unfold up8. repeat case_decide; Z.div_mod_to_equations; lia.
Qed.
Lemma request_size_exact d o e :
  0 ≤ d < 18446744073709551616 → 0 ≤ o < 18446744073709551616 → 0 ≤ e < 18446744073709551616 →
  request_size d o e = if decide (up8 d + up8 o + up8 e < 18446744073709551616) then Some (up8 d + up8 o + up8 e) else None.
Proof.
  intros Hd Ho He. destruct (ALIGN_cases d Hd) as (Ad & Bd & Md), (ALIGN_cases o Ho) as (Ao & Bo & Mo), (ALIGN_cases e He) as (Ae & Be & Me).
  unfold request_size. rewrite Ad, Ao, Ae. clear Ad Ao Ae.
  destruct (decide (up8 d < _)), (decide (up8 o < _)), (decide (up8 e < _)); rewrite !u64_cases by (rewrite ?u64_cases; repeat case_decide; lia);
    repeat case_decide; try done; try lia; try (f_equal; lia); Z.div_mod_to_equations; lia.
Qed.

(** ** Changes of one buffer *)

Lemma apart_weaken fr1 fr2 l : (∀ x, x ∈ l → fr2 x = true → fr1 x = true) → apart fr1 l → apart fr2 l.
Proof.
  induction l as [|b [|c l] IH]; cbn [apart]; [done|done|]. intros Hw [H1 H2]. split.
  - intros [? ?]. apply H1. split; apply Hw; try done; [by left|right; by left].
  - apply IH; [|done]. intros x Hx. apply Hw. by right.
Qed.
Lemma apart_app fr0 pre b post : apart fr0 (pre ++ b :: post) ↔ apart fr0 (pre ++ [b]) ∧ apart fr0 (b :: post).
Proof.
  induction pre as [|x pre IH]; [cbn; tauto|]. destruct pre as [|y pre]; cbn [app apart] in *; [tauto|]. rewrite IH. tauto.
Qed.
Lemma chain_insert pre b N post hi :
  chain (pre ++ b :: post) hi → b + 88 ≤ N → N + 88 ≤ List.hd hi post → chain (pre ++ b :: N :: post) hi.
Proof. rewrite !chain_app. cbn. tauto. Qed.
Lemma chain_delete pre a b post hi : chain (pre ++ a :: b :: post) hi → chain (pre ++ a :: post) hi.
Proof. rewrite !chain_app. cbn. intros (? & ? & ? & ?). split_and!; try done. lia. Qed.
(** Around a buffer that comes or goes the others keep their size. *)
Lemma bsize_other pre b N post hi x :
  chain (pre ++ b :: N :: post) hi → x ∈ pre ∨ x ∈ post → bsize (pre ++ b :: N :: post) hi x = bsize (pre ++ b :: post) hi x.
Proof.
  intros Hc [Hx|Hx]; [by rewrite !bsize_pre|]. pose proof (chain_split _ _ _ _ Hc) as (Hp & Hq & _ & _).
  apply chain_app in Hc as [_ [Hb Hc]]. pose proof (chain_above _ _ _ _ Hc Hx). cbn in Hb.
  change (pre ++ b :: N :: post) with (pre ++ [b; N] ++ post). change (pre ++ b :: post) with (pre ++ [b] ++ post).
  rewrite !app_assoc, !bsize_post; [done| |]; rewrite elem_of_app, ?elem_of_cons, elem_of_nil;
    intros [Hy%Hp|?]; [lia|naive_solver lia|lia|naive_solver lia].
Qed.
Lemma async_total_split s pre b post :
  buffers s = pre ++ b :: post → async_total s = foldr (λ b n, async_cost s b + n) 0 (pre ++ post) + async_cost s b.
Proof.
  intros E. unfold async_total. rewrite E. clear E. induction pre as [|x pre IH]; cbn [app foldr]; [lia|]. rewrite IH. lia.
Qed.
Lemma foldr_cost_ext s s' l :
  (∀ x, x ∈ l → async_cost s' x = async_cost s x) →
  foldr (λ b n, async_cost s' b + n) 0 l = foldr (λ b n, async_cost s b + n) 0 l.
Proof.
  induction l as [|x l IH]; intros Hx; cbn; [done|]. rewrite (Hx x) by left. f_equal. apply IH. intros y Hy. apply Hx. by right.
Qed.
Lemma filter_ext_in {A} (f g : A → bool) l : (∀ x, x ∈ l → f x = g x) → List.filter f l = List.filter g l.
Proof. intros Hf. apply List.filter_ext_in. intros x Hx. apply Hf. by apply list_elem_of_In. Qed.
Lemma elem_of_filter_list (f : Z → bool) l x : x ∈ List.filter f l ↔ x ∈ l ∧ f x = true.
Proof. by rewrite !list_elem_of_In, List.filter_In. Qed.
Lemma sorted_chain f l hi : chain l hi → sorted_by (λ x, x) (List.filter f l).
Proof.
  induction l as [|b l IH]; [done|]. intros Hc. cbn [List.filter]. destruct (f b); [|by apply IH, Hc]. split; [|by apply IH, Hc].
  intros y [Hy _]%elem_of_filter_list. pose proof (chain_above _ _ _ _ Hc Hy). lia.
Qed.
Lemma async_cost_free s b : fr s b = true → async_cost s b = 0.
Proof. unfold fr, is_free, async_cost. destruct (headers s !! b) as [h|]; cbn; [|done]. by intros ->. Qed.

(** A free buffer becomes an allocated one; what is left over becomes the buffers [ins]. *)
Record took (s s' : binder_proc) (pre : list Z) (b : Z) (ins post : list Z) (hb : binder_buffer) : Prop := {
  tk_list : buffers s = pre ++ b :: post;
  tk_list' : buffers s' = pre ++ b :: ins ++ post;
  tk_region : (buffer s', buffer_size s') = (buffer s, buffer_size s);
  tk_was : fr s b = true;
  tk_header : headers s' !! b = Some hb;
  tk_taken : b_free hb = false;
  tk_ins : ins = [] ∨ ∃ N hN, ins = [N] ∧ headers s' !! N = Some hN ∧ b_free hN = true ∧ N mod 8 = 0
    ∧ b + 88 ≤ N ∧ N + 88 ≤ List.hd (region_end s) post;
  tk_same : ∀ x, x ∈ pre ∨ x ∈ post → headers s' !! x = headers s !! x;
}.

Section taken.
Context (s s' : binder_proc) (pre post ins : list Z) (b : Z) (hb : binder_buffer).
Context (Hok : alloc_ok s) (T : took s s' pre b ins post hb).

Lemma took_end : region_end s' = region_end s.
Proof using T. pose proof (tk_region _ _ _ _ _ _ _ T) as E. unfold region_end. by injection E as -> ->. Qed.
Lemma took_fr_other x : x ∈ pre ∨ x ∈ post → fr s' x = fr s x.
Proof using T. intros Hx. unfold fr, is_free. by rewrite (tk_same _ _ _ _ _ _ _ T x Hx). Qed.
Lemma took_fr : fr s' b = false.
Proof using T. unfold fr, is_free. rewrite (tk_header _ _ _ _ _ _ _ T). cbn. apply T. Qed.
Lemma took_fr_ins x : x ∈ ins → fr s' x = true.
Proof using T.
  destruct (tk_ins _ _ _ _ _ _ _ T) as [->|(N & hN & -> & HN & Hf & _)]; [by intros ?%elem_of_nil|].
  intros ->%list_elem_of_singleton. unfold fr, is_free. by rewrite HN.
Qed.
Lemma took_chain0 : chain (pre ++ b :: post) (region_end s).
Proof using Hok T. rewrite <- (tk_list _ _ _ _ _ _ _ T). apply Hok. Qed.
Lemma took_chain : chain (buffers s') (region_end s').
Proof using Hok T.
  rewrite took_end, (tk_list' _ _ _ _ _ _ _ T). pose proof took_chain0 as Hc.
  destruct (tk_ins _ _ _ _ _ _ _ T) as [->|(N & hN & -> & _ & _ & _ & H1 & H2)]; [done|]. by apply chain_insert.
Qed.
Lemma took_shape : shape s'.
Proof using Hok T.
  pose proof (ly_shape _ (ok_layout _ Hok)) as [[R1 R2 R3 R4] Hh Hc]. pose proof (tk_region _ _ _ _ _ _ _ T) as E.
  injection E as E1 E2. pose proof took_end as E3. split; [split; rewrite ?E1, ?E2, ?E3; done| |apply took_chain].
  rewrite (tk_list' _ _ _ _ _ _ _ T), E1. rewrite (tk_list _ _ _ _ _ _ _ T) in Hh. by destruct pre.
Qed.
Lemma took_extent x : x ∈ pre ∨ x ∈ post → extent s' x = extent s x.
Proof using Hok T.
  intros Hx. pose proof took_chain as Hc. unfold extent. rewrite took_end in *.
  rewrite (tk_list _ _ _ _ _ _ _ T), (tk_list' _ _ _ _ _ _ _ T) in *.
  destruct (tk_ins _ _ _ _ _ _ _ T) as [->|(N & hN & -> & _)]; [done|]. by apply bsize_other.
Qed.
Lemma took_extent_b : extent s' b = List.hd (List.hd (region_end s) post) ins - (b + 88).
Proof using Hok T.
  unfold extent. rewrite took_end, (tk_list' _ _ _ _ _ _ _ T).
  pose proof (chain_split _ _ _ _ took_chain0) as (_ & _ & Hb & _). rewrite bsize_mid by done. f_equal.
  destruct (tk_ins _ _ _ _ _ _ _ T) as [->|(N & hN & -> & _)]; done.
Qed.
Lemma took_elem x : x ∈ buffers s' ↔ x = b ∨ x ∈ ins ∨ x ∈ pre ∨ x ∈ post.
Proof using T. rewrite (tk_list' _ _ _ _ _ _ _ T), elem_of_app, elem_of_cons, elem_of_app. tauto. Qed.
Lemma took_cost x : x ∈ pre ∨ x ∈ post → async_cost s' x = async_cost s x.
Proof using T. intros Hx. unfold async_cost. by rewrite (tk_same _ _ _ _ _ _ _ T x Hx). Qed.
Lemma took_total : async_total s' = async_total s + async_cost s' b.
Proof using T.
  rewrite (async_total_split s pre b post (tk_list _ _ _ _ _ _ _ T)), (async_total_split s' pre b (ins ++ post) (tk_list' _ _ _ _ _ _ _ T)).
  rewrite (async_cost_free s b) by apply T.
  assert (foldr (λ b n, async_cost s' b + n) 0 (pre ++ ins ++ post) = foldr (λ b n, async_cost s' b + n) 0 (pre ++ post)) as ->.
  { destruct (tk_ins _ _ _ _ _ _ _ T) as [E|(N & hN & E & _)]; rewrite E; [done|]. rewrite !foldr_app. f_equal. cbn.
    rewrite (async_cost_free s' N); [done|]. apply took_fr_ins. rewrite E. by left. }
  rewrite (foldr_cost_ext s s' (pre ++ post)); [lia|]. intros x Hx%elem_of_app. by apply took_cost.
Qed.
Lemma took_apart : apart (fr s') (buffers s').
Proof using Hok T.
  pose proof (ok_apart _ Hok) as Ha. rewrite (tk_list' _ _ _ _ _ _ _ T). rewrite (tk_list _ _ _ _ _ _ _ T) in Ha.
  assert (apart (fr s') (pre ++ b :: post)) as Ha'.
  { revert Ha. apply apart_weaken. intros x. rewrite elem_of_app, elem_of_cons.
    intros [Hx|[->|Hx]]; [by rewrite took_fr_other by auto|by rewrite took_fr|by rewrite took_fr_other by auto]. }
  destruct (tk_ins _ _ _ _ _ _ _ T) as [Ei|(N & hN & Ei & _)]; rewrite Ei; [done|].
  apply apart_app in Ha as [_ Ha]. apply apart_app in Ha' as [A1 A2]. apply apart_app. split; [done|]. cbn [app].
  split; [rewrite took_fr; by intros [? _]|]. pose proof took_fr_other as Ho. pose proof (tk_was _ _ _ _ _ _ _ T) as Hw.
  clear T. destruct post as [|c post']; [done|]. destruct Ha as [Hbc _].
  split; [|apply A2]. rewrite (Ho c) by (right; by left). intros [_ Hc]. by apply Hbc.
Qed.

Lemma took_ok :
  (∀ p, p ∈ pages s' ↔ aligned p ∧ needed (fr s') (buffers s') (region_end s') p) →
  b_free hb = false → request_size (data_size hb) (offsets_size hb) (extra_buffers_size hb) = Some (buffer_request hb) →
  buffer_request hb ≤ extent s' b →
  inorder (free_buffers s') ≡ₚ ins ++ without b (inorder (free_buffers s)) → sorted_by (extent s') (inorder (free_buffers s')) →
  inorder (allocated_buffers s')
    = List.filter (λ x, negb (fr s x)) pre ++ b :: List.filter (λ x, negb (fr s x)) post →
  0 ≤ free_async_space s' → free_async_space s' = free_async_space s - async_cost s' b →
  alloc_ok s'.
Proof using Hok T.
  intros Hp Hb Hreq Hcap Hfree Hsort Halloc Has0 Has.
  pose proof (chain_split _ _ _ _ took_chain0) as (Hlo & Hup & Hbp & Hbq).
  pose proof (tk_list _ _ _ _ _ _ _ T) as EL.
  assert (∀ x, x ∈ pre ∨ x ∈ post → x ∈ buffers s) as Hold by (intros x; rewrite EL, elem_of_app, elem_of_cons; tauto).
  assert (∀ x, x ∈ pre ∨ x ∈ post → x ≠ b) as Hnb by (intros x [Hx|Hx] ->; done).
  assert (∀ x, x ∈ ins → (x ∉ buffers s) ∧ x ≠ b) as Hnew.
  { intros x Hx. pose proof took_chain as Hc. rewrite (tk_list' _ _ _ _ _ _ _ T) in Hc.
    destruct (tk_ins _ _ _ _ _ _ _ T) as [E|(N & hN & E & _)]; rewrite E in *; [by apply elem_of_nil in Hx|].
    apply list_elem_of_singleton in Hx as ->. change (pre ++ b :: [N] ++ post) with (pre ++ [b] ++ N :: post) in Hc.
    rewrite app_assoc in Hc. pose proof (chain_split _ _ _ _ Hc) as (_ & _ & H1 & H2).
    rewrite elem_of_app, list_elem_of_singleton in H1. rewrite EL, elem_of_app, elem_of_cons. split; tauto. }
  split.
  - split; [apply took_shape| | |exact Hp].
    + intros x. rewrite took_elem. intros [->|[Hx|Hx]].
      * apply (ly_align _ (ok_layout _ Hok)). rewrite EL. apply elem_of_app. right. by left.
      * destruct (tk_ins _ _ _ _ _ _ _ T) as [E|(N & hN & E & _ & _ & HN & _)]; rewrite E in Hx; [by apply elem_of_nil in Hx|].
        by apply list_elem_of_singleton in Hx as ->.
      * by apply (ly_align _ (ok_layout _ Hok)), Hold.
    + intros x. rewrite took_elem. intros [->|[Hx|Hx]].
      * rewrite (tk_header _ _ _ _ _ _ _ T). by eexists.
      * destruct (tk_ins _ _ _ _ _ _ _ T) as [E|(N & hN & E & HN & _)]; rewrite E in Hx; [by apply elem_of_nil in Hx|].
        apply list_elem_of_singleton in Hx as ->. rewrite HN. by eexists.
      * rewrite (tk_same _ _ _ _ _ _ _ T x Hx). by apply (ly_headers _ (ok_layout _ Hok)), Hold.
  - apply took_apart.
  - rewrite Hfree. apply list.NoDup_app. split; [|split].
    + destruct (tk_ins _ _ _ _ _ _ _ T) as [->|(N & hN & -> & _)]; [constructor|apply list.NoDup_singleton].
    + intros x Hx [Hy _]%elem_of_without. apply (ok_free _ Hok) in Hy as [Hy _]. by destruct (Hnew x Hx).
    + unfold without. apply NoDup_ListNoDup, List.NoDup_filter, NoDup_ListNoDup, Hok.
  - intros x. rewrite Hfree, elem_of_app, elem_of_without, (ok_free _ Hok), took_elem. split.
    + intros [Hx|[[Hx Hf] Hne]]; [split; [tauto|by apply took_fr_ins]|].
      assert (x ∈ pre ∨ x ∈ post) as Hpp by (rewrite EL, elem_of_app, elem_of_cons in Hx; tauto).
      split; [tauto|by rewrite took_fr_other].
    + intros [[->|[Hx|Hx]] Hf]; [by rewrite took_fr in Hf|by left|]. right. rewrite took_fr_other in Hf by done. auto.
  - exact Hsort.
  - rewrite Halloc, (tk_list' _ _ _ _ _ _ _ T), List.filter_app. cbn [List.filter]. rewrite took_fr, List.filter_app. cbn [negb].
    f_equal; [apply filter_ext_in; intros x Hx; by rewrite took_fr_other by auto|]. f_equal.
    assert (List.filter (λ x, negb (fr s' x)) post = List.filter (λ x, negb (fr s x)) post) as ->.
    { apply filter_ext_in. intros x Hx. by rewrite took_fr_other by auto. }
    assert (List.filter (λ x, negb (fr s' x)) ins = []) as ->; [|done].
    destruct (tk_ins _ _ _ _ _ _ _ T) as [E|(N & hN & E & _)]; rewrite E; [done|]. cbn.
    rewrite took_fr_ins; [done|]. rewrite E. by left.
  - intros x h. rewrite took_elem. intros [->|[Hx|Hx]] Hh Hf.
    + rewrite (tk_header _ _ _ _ _ _ _ T) in Hh. injection Hh as <-. done.
    + pose proof (took_fr_ins x Hx) as Hfx. unfold fr, is_free in Hfx. rewrite Hh in Hfx. cbn in Hfx. congruence.
    + rewrite took_extent by done. apply (ok_capacity _ Hok); [by apply Hold| |done]. by rewrite <- (tk_same _ _ _ _ _ _ _ T x Hx).
  - split; [done|]. rewrite took_total, Has. pose proof (tk_region _ _ _ _ _ _ _ T) as E. injection E as _ ->.
    pose proof (proj2 (ok_async _ Hok)). lia.
Qed.
End taken.

Lemma fr_header s b h : headers s !! b = Some h → fr s b = b_free h.
Proof. intros Hh. unfold fr, is_free. by rewrite Hh. Qed.
Lemma chain_between pre b post hi N x :
  chain (pre ++ b :: post) hi → b + 88 ≤ N → N + 88 ≤ List.hd hi post → x ∈ pre ∨ x ∈ post → x ≠ N ∧ x ≠ b.
Proof.
  intros Hc H1 H2 Hx. pose proof (chain_split _ _ _ _ Hc) as (Hp & Hq & Hbp & Hbq).
  destruct Hx as [Hx|Hx]; [pose proof (Hp x Hx); lia|]. pose proof (Hq x Hx). apply chain_app in Hc as [_ [_ Hc]].
  destruct post as [|c post']; [by apply elem_of_nil in Hx|]. cbn in H2. apply elem_of_cons in Hx as [->|Hx]; [lia|].
  pose proof (chain_above _ _ _ _ Hc Hx). lia.
Qed.

Lemma buffer_request_nonneg h : 0 ≤ buffer_request h.
Proof. apply (wrap_range 64). lia. Qed.
Lemma async_cost_nonneg s b : 0 ≤ async_cost s b.
Proof.
  unfold async_cost. destruct (headers s !! b) as [h|]; [|lia]. pose proof (buffer_request_nonneg h).
  destruct (negb (b_free h) && async_transaction h); lia.
Qed.
Lemma async_total_nonneg s : 0 ≤ async_total s.
Proof.
  unfold async_total. induction (buffers s) as [|x l IH]; cbn [foldr]; [lia|]. pose proof (async_cost_nonneg s x). lia.
Qed.

Section take.
Context `{RbTree}.
Context (s : binder_proc) (P : gset Z) (pre post : list Z) (b n : Z) (h : binder_buffer).
Context (d o e : Z) (is_async : bool) (stale : binder_buffer).
Context (Hok : alloc_ok s) (HL : buffers s = pre ++ b :: post) (Hh : headers s !! b = Some h) (Hf : b_free h = true).
Context (Hreq : request_size d o e = Some n) (Hn : 0 ≤ n) (Hn8 : n mod 8 = 0).
Context (Has : is_async = true → n + 88 ≤ free_async_space s).
Let hb : binder_buffer := with_request is_async d o e (with_free false h).
Let F (l : list Z) : list Z := List.filter (λ x, negb (fr s x)) l.

Lemma take_request : buffer_request hb = n.
Proof using Hreq.
  revert Hreq. unfold request_size, hb, buffer_request. cbn [data_size offsets_size extra_buffers_size with_request].
  do 2 (case_decide; [done|]). by intros [= E].
Qed.
Lemma take_chain : chain (pre ++ b :: post) (region_end s).
Proof using Hok HL. rewrite <- HL. apply Hok. Qed.
Lemma take_extent : extent s b = List.hd (region_end s) post - (b + 88).
Proof using Hok HL.
  unfold extent. rewrite HL. apply bsize_mid. by pose proof (chain_split _ _ _ _ take_chain) as (_ & _ & ? & _).
Qed.
Lemma take_in_tree : b ∈ inorder (free_buffers s).
Proof using Hok HL Hh Hf.
  apply (ok_free _ Hok). rewrite (fr_header s b h Hh). split; [|done]. rewrite HL. apply elem_of_app. right. by left.
Qed.
(** The first half: the buffer has left one tree and is in the other. *)
Lemma take_moves s1 :
  s1 = set_headers (<[b := with_free false h]> (headers s)) (set_free_buffers (rb_erase b (free_buffers s)) (set_pages P s)) →
  ∃ t, binder_insert_allocated_buffer b s1 = Val (set_allocated_buffers t s1) tt ∧ inorder t = F pre ++ b :: F post.
Proof using Hok HL Hh Hf.
  intros Es1. pose proof (chain_split _ _ _ _ take_chain) as (Hp & Hq & Hbp & Hbq). pose proof (ok_allocated _ Hok) as Ha.
  assert (inorder (allocated_buffers s1) = F pre ++ F post) as Ea.
  { rewrite Es1. cbn [allocated_buffers set_headers set_free_buffers set_pages]. rewrite Ha, HL, List.filter_app. cbn [List.filter].
    by rewrite (fr_header s b h Hh), Hf. }
  assert (∀ x, x ∈ F pre ∨ x ∈ F post → (x ∈ pre ∨ x ∈ post) ∧ fr s x = false) as HF.
  { intros x [[Hx E]%elem_of_filter_list|[Hx E]%elem_of_filter_list]; apply negb_true_iff in E; auto. }
  apply (insert_allocated_spec b (with_free false h)).
  - rewrite Es1. apply lookup_insert_eq.
  - done.
  - intros x. rewrite Ea, elem_of_app. intros Hx. destruct (HF x Hx) as [Hpp Hfx]. rewrite Es1. unfold is_free. cbn [headers set_headers].
    rewrite lookup_insert_ne by (intros <-; tauto).
    assert (x ∈ buffers s) as Hxb by (rewrite HL, elem_of_app, elem_of_cons; tauto).
    rewrite <- Hfx. apply (is_free_fr s x (ok_layout _ Hok) Hxb).
  - rewrite Es1. cbn [allocated_buffers set_headers set_free_buffers set_pages]. rewrite Ha.
    apply (sorted_chain _ _ (region_end s)), Hok.
  - exact Ea.
  - intros x Hx. destruct (HF x) as [Hx' _]; [by left|]. apply elem_of_filter_list in Hx as [Hx _]. pose proof (Hp x Hx). lia.
  - intros x Hx. apply elem_of_filter_list in Hx as [Hx _]. pose proof (Hq x Hx). lia.
Qed.
Lemma take_async s1 :
  free_async_space s1 = free_async_space s →
  ∃ s2, (if is_async then modify (λ s, set_async (u64 (free_async_space s - u64 (n + sizeof_binder_buffer))) s) else mret tt) s1
      = Val s2 tt
    ∧ s2 = set_async (free_async_space s - if is_async then n + 88 else 0) s1.
Proof using All.
  intros Es. eexists. split; [|reflexivity]. pose proof (ok_async _ Hok) as [A0 A1].
  assert (buffer_size s / 2 < 18446744073709551616) as Hlt.
  { pose proof (rg_size _ (ly_region _ (ly_shape _ (ok_layout _ Hok)))). unfold SZ_4M in *. Z.div_mod_to_equations. lia. }
  pose proof (async_total_nonneg s) as Ht.
  destruct is_async.
  - pose proof (Has eq_refl). unfold modify, sizeof_binder_buffer. rewrite Es, (u64_small (n + 88)), u64_small by lia. done.
  - rewrite Z.sub_0_r, <- Es. by destruct s1.
Qed.

Definition taken_pages (ins : list Z) : Prop :=
  ∀ p, p ∈ P ↔ p ∈ pages s ∨ (aligned p ∧ b + 88 ≤ p ∧ p + 4096 ≤ b + 88 + extent s b ∧ (ins = [] ∨ p < b + 88 + n + 88)).
Definition take_result (bs : Z) (ins : list Z) : Prop :=
  ∃ s', take_buffer b n bs d o e is_async stale (set_pages P s) = Val s' tt ∧ alloc_ok s'
    ∧ took s s' pre b ins post hb ∧ (vma s', user_buffer_offset s') = (vma s, user_buffer_offset s).

Lemma take_whole : n ≤ extent s b → taken_pages [] → take_result n [].
Proof using All.
  intros Hle HP. destruct (take_moves _ eq_refl) as (t & E & Et). unfold take_result, take_buffer.
  rewrite (bind_val (modify _) _ _ (set_free_buffers (rb_erase b (free_buffers s)) (set_pages P s)) tt) by done.
  rewrite (bind_val _ _ _ _ _ (the_buffer_eq b h (set_free_buffers (rb_erase b (free_buffers s)) (set_pages P s)) Hh)).
  rewrite (bind_val _ _ _ _ _ (put_buffer_eq _ _ _)). cbn [headers set_free_buffers set_pages]. rewrite (bind_val _ _ _ _ _ E).
  rewrite decide_False by (intros X; by apply X). rewrite (bind_val (mret tt) _ _ _ tt eq_refl).
  set (s1 := set_allocated_buffers t _).
  assert (headers s1 !! b = Some (with_free false h)) as Hh1 by apply lookup_insert_eq.
  rewrite (bind_val _ _ _ _ _ (the_buffer_eq b _ _ Hh1)), (bind_val _ _ _ _ _ (put_buffer_eq _ _ _)).
  set (s2 := set_headers _ s1). destruct (take_async s2 eq_refl) as (s' & Ea & Es'). exists s'. split; [exact Ea|].
  assert (headers s' = <[b := hb]> (headers s)) as EH by (rewrite Es'; cbn; by rewrite insert_insert_eq).
  pose proof (chain_split _ _ _ _ take_chain) as (_ & _ & Hbp & Hbq).
  assert (took s s' pre b [] post hb) as T.
  { split; rewrite ?EH, ?Es'; try done; try (by left).
    - by rewrite (fr_header s b h Hh).
    - apply lookup_insert_eq.
    - intros x Hx. rewrite lookup_insert_ne; [done|]. intros <-. tauto. }
  split; [|split; [exact T|by rewrite Es']].
  assert (async_cost s' b = if is_async then n + 88 else 0) as Ec.
  { unfold async_cost. rewrite EH, lookup_insert_eq, take_request. cbn. by destruct is_async. }
  apply (took_ok s s' pre post [] b hb Hok T); try (rewrite ?take_request; done).
  - intros p. rewrite Es'. cbn [pages set_async]. change (pages s2) with P. rewrite (HP p), (ly_pages _ (ok_layout _ Hok) p), <- Es'.
    rewrite (took_end _ _ _ _ _ _ _ T), (tk_list' _ _ _ _ _ _ _ T), HL. cbn [app].
    rewrite (needed_whole (fr s) (fr s') pre post b (region_end s) p); [rewrite take_extent; split; [|intuition lia]| | |].
    + intros [[? ?]|(? & ? & ? & _)]; [tauto|]. split; [done|]. right. lia.
    + intros x Hx. apply (took_fr_other _ _ _ _ _ _ _ T). by apply elem_of_app.
    + by rewrite (fr_header s b h Hh).
    + apply (took_fr _ _ _ _ _ _ _ T).
  - rewrite take_request, (took_extent_b s s' pre post [] b hb Hok T). rewrite take_extent in Hle. done.
  - rewrite Es'. cbn [free_buffers set_async]. change (free_buffers s2) with (rb_erase b (free_buffers s)).
    by rewrite rb_erase_inorder by apply take_in_tree.
  - rewrite Es'. cbn [free_buffers set_async]. change (free_buffers s2) with (rb_erase b (free_buffers s)).
    rewrite rb_erase_inorder by apply take_in_tree. apply (sorted_by_ext (extent s)); [|by apply sorted_by_without, Hok].
    intros x [Hx Hne]%elem_of_without. symmetry. rewrite <- Es'. apply (took_extent s s' pre post [] b hb Hok T).
    apply (ok_free _ Hok) in Hx as [Hx _]. rewrite HL, elem_of_app, elem_of_cons in Hx. tauto.
  - rewrite Es'. exact Et.
  - rewrite Es'. cbn. pose proof (proj1 (ok_async _ Hok)). destruct is_async; [pose proof (Has eq_refl); lia|lia].
  - rewrite Ec, Es'. done.
Qed.

Lemma take_split bs :
  bs ≠ n → n + 88 ≤ extent s b → taken_pages [b + 88 + n] → take_result bs [b + 88 + n].
Proof using All.
  intros Hbs Hle HP. destruct (take_moves _ eq_refl) as (t & E & Et). unfold take_result, take_buffer.
  rewrite (bind_val (modify _) _ _ (set_free_buffers (rb_erase b (free_buffers s)) (set_pages P s)) tt) by done.
  rewrite (bind_val _ _ _ _ _ (the_buffer_eq b h (set_free_buffers (rb_erase b (free_buffers s)) (set_pages P s)) Hh)).
  rewrite (bind_val _ _ _ _ _ (put_buffer_eq _ _ _)). cbn [headers set_free_buffers set_pages]. rewrite (bind_val _ _ _ _ _ E).
  rewrite decide_True by done. cbn zeta. change (data_of b + n) with (b + 88 + n). set (N := b + 88 + n) in *.
  set (s1 := set_allocated_buffers t _).
  pose proof (chain_split _ _ _ _ take_chain) as (_ & _ & Hbp & Hbq). pose proof take_extent as Hext.
  assert (b + 88 ≤ N) as HN1 by (unfold N; lia). assert (N + 88 ≤ List.hd (region_end s) post) as HN2 by (unfold N; lia).
  pose proof (λ x, chain_between _ _ _ _ N x take_chain HN1 HN2) as Hne.
  set (s2 := set_headers (<[N := with_free true stale]> (headers s1)) (set_buffers (pre ++ b :: N :: post) s1)).
  assert (∀ (k : unit → M binder_proc unit), ((modify (λ s, set_buffers (list_add_after b N (buffers s)) s);;
      put_buffer N (with_free true stale);; binder_insert_free_buffer N) ≫= k) s1 = (binder_insert_free_buffer N ≫= k) s2) as ->.
  { intros k. unfold put_buffer. run_m. change (buffers s1) with (buffers s). rewrite HL, list_add_mid by done. done. }
  assert (headers s2 !! b = Some (with_free false h)) as Hb2.
  { unfold s2. cbn [headers set_headers]. rewrite lookup_insert_ne by lia. apply lookup_insert_eq. }
  assert (headers s2 !! N = Some (with_free true stale)) as HN by apply lookup_insert_eq.
  assert (∀ x, x ∈ pre ∨ x ∈ post → headers s2 !! x = headers s !! x) as Hsame.
  { intros x Hx. destruct (Hne x Hx). unfold s2, s1. cbn [headers set_headers set_allocated_buffers set_buffers].
    by rewrite !lookup_insert_ne by congruence. }
  assert (N mod 8 = 0) as HN8.
  { pose proof (ly_align _ (ok_layout _ Hok) b) as Hb8. rewrite HL in Hb8. specialize (Hb8 ltac:(apply elem_of_app; right; by left)).
    unfold N. clear -Hb8 Hn8. Z.div_mod_to_equations. lia. }
  assert (took s s2 pre b [N] post (with_free false h)) as T2.
  { split; try done; [by rewrite (fr_header s b h Hh)|]. right. by exists N, (with_free true stale). }
  pose proof (took_shape _ _ _ _ _ _ _ Hok T2) as Hsh2.
  assert (inorder (free_buffers s2) = without b (inorder (free_buffers s))) as Hfree2.
  { change (free_buffers s2) with (rb_erase b (free_buffers s)). by rewrite rb_erase_inorder by apply take_in_tree. }
  assert (∀ x, x ∈ inorder (free_buffers s2) → (x ∈ pre ∨ x ∈ post) ∧ fr s x = true) as Hold.
  { intros x. rewrite Hfree2, elem_of_without, (ok_free _ Hok), HL, elem_of_app, elem_of_cons. tauto. }
  assert (∀ x, x ∈ buffers s2 → binder_buffer_size s2 x = extent s2 x) as Hsz by (intros x; by apply size_eq).
  assert (∀ x, x ∈ pre ∨ x ∈ post → x ∈ buffers s2) as Hin2.
  { intros x Hx. apply (took_elem _ _ _ _ _ _ _ T2). tauto. }
  destruct (insert_free_spec N (with_free true stale) s2 HN eq_refl) as (tf & Ef & Ep & Es).
  { intros x [Hx Hfx]%Hold. rewrite <- Hfx. unfold is_free. rewrite Hsame by done.
    apply (is_free_fr s x (ok_layout _ Hok)). rewrite HL, elem_of_app, elem_of_cons. tauto. }
  { apply (sorted_by_ext (extent s)); [|rewrite Hfree2; by apply sorted_by_without, Hok].
    intros x [Hx _]%Hold. by rewrite Hsz, (took_extent _ _ _ _ _ _ _ Hok T2 x Hx) by auto. }
  rewrite (bind_val _ _ _ _ _ Ef). set (s3 := set_free_buffers tf s2).
  rewrite (bind_val _ _ _ _ _ (the_buffer_eq b (with_free false h) s3 Hb2)), (bind_val _ _ _ _ _ (put_buffer_eq _ _ _)).
  set (s4 := set_headers _ s3). destruct (take_async s4 eq_refl) as (s' & Ea & Es'). exists s'. split; [exact Ea|].
  assert (headers s' = <[b := hb]> (headers s2)) as EH by (by rewrite Es').
  assert (took s s' pre b [N] post hb) as T.
  { split; rewrite ?EH, ?Es'; try done.
    - by rewrite (fr_header s b h Hh).
    - apply lookup_insert_eq.
    - right. exists N, (with_free true stale). rewrite lookup_insert_ne by lia. done.
    - intros x Hx. destruct (Hne x Hx). rewrite lookup_insert_ne by congruence. by apply Hsame. }
  split; [|split; [exact T|by rewrite Es']].
  assert (async_cost s' b = if is_async then n + 88 else 0) as Ec.
  { unfold async_cost. rewrite EH, lookup_insert_eq, take_request. cbn. by destruct is_async. }
  assert (∀ x, extent s' x = extent s2 x) as Eext by (intros x; by rewrite Es').
  apply (took_ok s s' pre post [N] b hb Hok T); try (rewrite ?take_request; done).
  - intros p. assert (pages s' = P) as -> by (by rewrite Es'). rewrite (HP p), (ly_pages _ (ok_layout _ Hok) p).
    rewrite (took_end _ _ _ _ _ _ _ T), (tk_list' _ _ _ _ _ _ _ T), HL. cbn [app].
    destruct (rg_aligned _ (ly_region _ (ly_shape _ (ok_layout _ Hok)))) as [R1 R2].
    assert (aligned (region_end s)) as Rh by (unfold aligned, region_end in *; clear -R1 R2; Z.div_mod_to_equations; lia).
    pose proof (needed_split (fr s) (fr s') pre post b (region_end s) p take_chain) as Hsplit.
    assert (aligned p → needed (fr s') (pre ++ b :: N :: post) (region_end s) p
      ↔ needed (fr s) (pre ++ b :: post) (region_end s) p ∨ (b + 88 ≤ p ∧ p < N + 88 ∧ p + 4096 ≤ List.hd (region_end s) post)) as Hq.
    { intros Hp. apply Hsplit; try done.
      - intros x Hx. apply (took_fr_other _ _ _ _ _ _ _ T). by apply elem_of_app.
      - by rewrite (fr_header s b h Hh).
      - apply (took_fr _ _ _ _ _ _ _ T).
      - apply (took_fr_ins _ _ _ _ _ _ _ T). by left. }
    rewrite Hext. split.
    + intros [[? ?]|(Hp & ? & ? & [?|?])]; [split; [done|]; apply Hq; auto|done|]. split; [done|]. apply Hq; [done|]. right. unfold N. lia.
    + intros [Hp [?|(? & ? & ?)]%(Hq ltac:(assumption))]; [by left|]. right. unfold N in *. split_and!; try done; [lia|right; lia].
  - rewrite take_request, (took_extent_b s s' pre post [N] b hb Hok T). cbn. unfold N. lia.
  - assert (free_buffers s' = tf) as -> by (by rewrite Es'). rewrite Ep, Hfree2. done.
  - assert (free_buffers s' = tf) as -> by (by rewrite Es'). apply (sorted_by_ext (binder_buffer_size s2)); [|done].
    intros x. rewrite Ep, elem_of_cons. intros Hx. rewrite Eext. apply Hsz, (took_elem _ _ _ _ _ _ _ T2).
    destruct Hx as [->|Hx]; [right; left; by left|]. apply Hold in Hx. tauto.
  - rewrite Es'. exact Et.
  - rewrite Es'. cbn. pose proof (proj1 (ok_async _ Hok)). destruct is_async; [pose proof (Has eq_refl); lia|lia].
  - rewrite Ec, Es'. done.
Qed.
End take.

(** ** Allocating *)

Lemma nodup_pages_up start end_ : NoDup (pages_up start end_).
Proof. apply nodup_pages. unfold PAGE_SIZE. lia. Qed.
Lemma nodup_pages_down start end_ : NoDup (pages_down start end_).
Proof. apply nodup_pages. unfold PAGE_SIZE. lia. Qed.

Lemma alloc_range_spec start end_ v answer s :
  aligned start → aligned end_ →
  (∀ p, aligned p → start ≤ p < end_ → buffer s ≤ p < region_end s ∧ p ∉ pages s) →
  (∃ P, binder_alloc_pages start end_ v answer s = Val (set_pages P s) 0
     ∧ ∀ p, p ∈ P ↔ p ∈ pages s ∨ (aligned p ∧ start ≤ p < end_))
  ∨ (binder_alloc_pages start end_ v answer s = Val s (- ENOMEM) ∧ (v = false ∨ ∃ p, answer p ≠ PageOk)).
Proof.
  intros Hs He Hp. unfold binder_alloc_pages. case_decide as Hle.
  { left. exists (pages s). rewrite set_pages_same. split; [done|]. intros p. split; [auto|]. intros [?|(_ & ?)]; [done|lia]. }
  destruct v; [|right; auto]. assert (∀ p, p ∈ pages_up start end_ ↔ aligned p ∧ start ≤ p < end_) as Hup.
  { intros p. apply elem_of_pages_up; [done|done|lia]. }
  destruct (alloc_pages_spec answer (pages_up start end_) [] s) as [E|[E Hbad]].
  - rewrite app_nil_r. apply nodup_pages_up.
  - intros p [? ?]%Hup. by apply Hp.
  - by intros p ?%elem_of_nil.
  - left. eexists. split; [exact E|]. intros p. by rewrite elem_of_union, elem_of_list_to_set, Hup.
  - right. split; [|by right]. rewrite E, list_to_set_nil, difference_empty_L, set_pages_same. done.
Qed.
Lemma free_range_spec start end_ s :
  aligned start → aligned end_ → (∀ p, aligned p → start ≤ p < end_ → buffer s ≤ p < region_end s ∧ p ∈ pages s) →
  ∃ P r, binder_free_pages start end_ s = Val (set_pages P s) r ∧ ∀ p, p ∈ P ↔ p ∈ pages s ∧ ¬ (aligned p ∧ start ≤ p < end_).
Proof.
  intros Hs He Hp. unfold binder_free_pages. case_decide as Hle.
  { exists (pages s), 0. rewrite set_pages_same. split; [done|]. intros p. split; [|tauto]. intros ?. split; [done|]. intros [_ ?]. lia. }
  assert (∀ p, p ∈ pages_down start end_ ↔ aligned p ∧ start ≤ p < end_) as Hdn.
  { intros p. apply elem_of_pages_down; [done|done|lia]. }
  eexists _, _. rewrite (bind_val _ _ _ _ _ (free_pages_spec _ s (nodup_pages_down _ _) (λ p Hin, Hp p (proj1 (proj1 (Hdn p) Hin)) (proj2 (proj1 (Hdn p) Hin))))).
  split; [done|]. intros p. by rewrite elem_of_difference, elem_of_list_to_set, Hdn.
Qed.

(** A buffer that is given out, and how it was chosen. *)
Record given (s s' : binder_proc) (b n : Z) (hb : binder_buffer) : Prop := {
  gv_took : ∃ pre ins post, took s s' pre b ins post hb;
  gv_fits : n ≤ extent s b;
  gv_best : ∀ x, x ∈ buffers s → fr s x = true → n ≤ extent s x → extent s b ≤ extent s x;
  gv_frame : (vma s', user_buffer_offset s') = (vma s, user_buffer_offset s);
}.
(** Why none is. *)
Definition refused (s : binder_proc) (d o e : Z) (is_async : bool) (mm : mm_answer) (answer : Z → page_answer) : Prop :=
  proc_vma s mm = false ∨ request_size d o e = None ∨ (∃ p, answer p ≠ PageOk)
  ∨ ∃ n, request_size d o e = Some n
      ∧ ((is_async = true ∧ free_async_space s < n + 88) ∨ ∀ x, x ∈ buffers s → fr s x = true → extent s x < n).
Definition alloc_result (s : binder_proc) (d o e : Z) (is_async : bool) (mm : mm_answer) (answer : Z → page_answer)
    (s' : binder_proc) (r : option Z) : Prop :=
  match r with
  | None => s' = s ∧ refused s d o e is_async mm answer
  | Some b => ∃ n h, request_size d o e = Some n ∧ headers s !! b = Some h
      ∧ given s s' b n (with_request is_async d o e (with_free false h))
  end.

Section alloc.
Context `{RbTree}.

Lemma region_pages s b p :
  layout s → b ∈ buffers s → aligned p → b + 88 ≤ p → p + 4096 ≤ b + 88 + extent s b → buffer s ≤ p < region_end s.
Proof.
  intros Hl Hb _ H1 H2. pose proof (shape_above s b (ly_shape _ Hl) Hb).
  pose proof (bsize_bounds _ _ b _ (ly_chain _ (ly_shape _ Hl)) Hb ltac:(lia)). unfold extent in *. lia.
Qed.
Lemma alloc_buf_spec s d o e is_async mm answer stale :
  alloc_ok s → 0 ≤ d < 18446744073709551616 → 0 ≤ o < 18446744073709551616 → 0 ≤ e < 18446744073709551616 →
  ∃ s' r, binder_alloc_buf d o e is_async mm answer stale s = Val s' r ∧ alloc_ok s'
    ∧ alloc_result s d o e is_async mm answer s' r.
Proof.
  intros Hok Hd Ho He. unfold binder_alloc_buf. rewrite (bind_val get _ s s s) by done.
  assert (∀ w, refused s d o e is_async mm answer → w = Val s None →
    ∃ s' r, w = Val s' r ∧ alloc_ok s' ∧ alloc_result s d o e is_async mm answer s' r) as Hnone by (intros w Hr ->; by exists s, None).
  destruct (vma s) eqn:Ev; cbn [negb]; [|apply Hnone; [left; by destruct mm as [|[]]; cbn; rewrite ?Ev|done]].
  destruct (request_size d o e) as [n|] eqn:En; [|apply Hnone; [right; by left|done]].
  pose proof En as En'. rewrite request_size_exact in En' by done. case_decide as Hsum; [|done].
  destruct (ALIGN_cases d Hd) as (_ & Bd & Md), (ALIGN_cases o Ho) as (_ & Bo & Mo), (ALIGN_cases e He) as (_ & Be & Me).
  assert (0 ≤ n < 18446744073709551616 ∧ n mod 8 = 0) as [Hn Hn8].
  { injection En' as <-. split; [lia|]. clear -Md Mo Me. Z.div_mod_to_equations. lia. }
  unfold sizeof_binder_buffer. case_decide as Has.
  { apply Hnone; [|done]. right. right. right. exists n. split; [done|]. left. destruct Has as [? Has]. split; [done|].
    rewrite u64_cases in Has by lia. case_decide; lia. }
  pose proof (ok_layout _ Hok) as Hl. pose proof (ly_shape _ Hl) as Hsh.
  assert (∀ x, x ∈ inorder (free_buffers s) → binder_buffer_size s x = extent s x) as Hsz.
  { intros x [Hx _]%(ok_free _ Hok). by apply size_eq. }
  destruct (best_fit_spec (binder_buffer_size s) (is_free s) n (free_buffers s) None) as ([r exact] & Eb & Hfit).
  { intros x [Hx Hfx]%(ok_free _ Hok). by rewrite (is_free_fr s x Hl Hx), Hfx. }
  { apply (sorted_by_ext (extent s)); [|apply Hok]. intros x Hx. by rewrite Hsz. }
  rewrite (bind_val _ _ s s (r, exact)) by (by rewrite Eb).
  assert (r = None ∧ (∀ x, x ∈ buffers s → fr s x = true → extent s x < n)
    ∨ ∃ b, r = Some b ∧ b ∈ inorder (free_buffers s) ∧ n ≤ extent s b ∧ (exact = true ↔ extent s b = n)
        ∧ ∀ x, x ∈ buffers s → fr s x = true → n ≤ extent s x → extent s b ≤ extent s x) as Hfit'.
  { unfold fits in Hfit. cbn [fst snd] in Hfit. destruct exact.
    - destruct Hfit as (b & -> & Hb & Eq). rewrite Hsz in Eq by done. right. exists b. split_and!; try done; lia.
    - destruct Hfit as [Hno [[-> Hlt]|(b & -> & Hb & Hlt & Hmin)]].
      + left. split; [done|]. intros x Hx Hfx. assert (x ∈ inorder (free_buffers s)) as Hx' by (by apply (ok_free _ Hok)).
        rewrite <- Hsz by done. by apply Hlt.
      + right. exists b. rewrite Hsz in Hlt by done. split_and!; try done; [lia|split; [done|lia]|].
        intros x Hx Hfx. assert (x ∈ inorder (free_buffers s)) as Hx' by (by apply (ok_free _ Hok)).
        rewrite <- !Hsz by done. by apply Hmin. }
  destruct Hfit' as [[-> Hsmall]|(b & -> & Hb & Hle & Hexact & Hbest)].
  { apply Hnone; [|done]. right. right. right. exists n. split; [done|by right]. }
  rewrite Hsz by done. apply (ok_free _ Hok) in Hb as [Hb Hfb]. destruct (ly_headers _ Hl b Hb) as [h Hh].
  pose proof Hfb as Hfh. rewrite (fr_header s b h Hh) in Hfh.
  pose proof (extent_bounds s b Hsh Hb) as Hx. pose proof (shape_above s b Hsh Hb) as Hab. pose proof (shape_below s b Hsh Hb) as Hbe.
  destruct (ly_region _ Hsh) as [R1 R2 R3 R4].
  pose proof (bsize_bounds _ _ b _ (ly_chain _ Hsh) Hb ltac:(lia)) as Hend. fold (extent s b) in Hend.
  rewrite (u64_small (n + 88)), (u64_small (n + 88 + 4)) by lia.
  unfold data_of, sizeof_binder_buffer. rewrite (u64_small (b + 88 + extent s b)) by (unfold region_end, SZ_4M in *; lia).
  set (bs := if exact then extent s b else if decide (extent s b ≤ n + 88 + 4) then n else n + 88).
  assert (0 ≤ bs ≤ extent s b + 88) as Hbs by (unfold bs; destruct exact; [|case_decide]; lia).
  set (start := PAGE_ALIGN (b + 88)). set (end_ := Z.min _ _).
  assert (∀ p, aligned p → start ≤ p < end_ ↔ b + 88 ≤ p ∧ p < b + 88 + bs ∧ p + 4096 ≤ b + 88 + extent s b) as Hrange.
  { intros p Hp. unfold start, end_. rewrite Z.min_glb_lt_iff, page_align_le, lt_page_align, lt_page_floor by (done || lia). done. }
  assert (aligned end_) as Hae by (unfold end_; destruct (Z.min_spec (PAGE_ALIGN (b + 88 + bs)) (page_floor (b + 88 + extent s b))) as [[_ ->]|[_ ->]];
    [apply aligned_align|apply aligned_floor]).
  pose proof Hb as (pre & post & HL)%list_elem_of_split.
  assert (chain (pre ++ b :: post) (region_end s)) as Hc by (rewrite <- HL; apply Hsh).
  assert (extent s b = List.hd (region_end s) post - (b + 88)) as Hext by (by eapply take_extent).
  destruct (alloc_range_spec start end_ (proc_vma s mm) answer s (aligned_align _) Hae) as [(P & EP & HP)|[EP Hbad]].
  { intros p Hp Hr%Hrange; [|done]. destruct Hr as (H1 & H2 & H3). split; [by apply (region_pages s b)|].
    rewrite (ly_pages _ Hl). intros [_ Hneed]. rewrite HL in Hneed. revert Hneed. apply gap_not_needed; [done|done|done|lia]. }
  2: { rewrite (bind_val _ _ _ _ _ EP). rewrite decide_True by done. apply Hnone; [|done]. destruct Hbad as [?|?]; [by left|right; right; by left]. }
  rewrite (bind_val _ _ _ _ _ EP). rewrite decide_False by (intros X; by apply X).
  assert (∀ ins, taken_pages s P b n ins → take_result s P pre post b n h d o e is_async stale bs ins → 
    ∃ s' r, (take_buffer b n bs d o e is_async stale;; mret (Some b) : M binder_proc (option Z)) (set_pages P s) = Val s' r
      ∧ alloc_ok s' ∧ alloc_result s d o e is_async mm answer s' r) as Hdone.
  { intros ins _ (s' & E & Hok' & T & Fr). exists s', (Some b). rewrite (bind_val _ _ _ _ _ E). split; [done|]. split; [done|].
    exists n, h. split; [done|]. split; [done|]. split; try done. by exists pre, ins, post. }
  assert (is_async = true → n + 88 ≤ free_async_space s) as Has'.
  { intros Ha. destruct (decide (n + 88 ≤ free_async_space s)); [done|]. destruct Has. split; [done|]. rewrite u64_small by lia. lia. }
  destruct (decide (bs = n)) as [Ebs|Ebs].
  - apply (Hdone []); [|rewrite Ebs; apply take_whole; try done; [lia|]].
    all: intros p; rewrite HP.
    all: split; [intros [?|[Hp Hr%Hrange]]; [by left|right; split_and!; try done; try tauto|done]|].
    all: intros [?|(Hp & H1 & H2 & _)]; [by left|right; split; [done|]; apply Hrange; [done|]; split_and!; try done].
    all: unfold bs in Ebs |- *; destruct exact; [pose proof (proj1 Hexact eq_refl); lia|]; case_decide; lia.
  - assert (bs = n + 88 ∧ n + 92 < extent s b) as [Eb' Hroom].
    { unfold bs in *. destruct exact; [pose proof (proj1 Hexact eq_refl); lia|]. case_decide; lia. }
    assert (taken_pages s P b n [b + 88 + n]) as HT.
    { intros p. rewrite HP. split.
      - intros [?|[Hp Hr%Hrange]]; [by left| |done]. right. split_and!; try tauto. right. lia.
      - intros [?|(Hp & H1 & H2 & [?|H3])]; [by left|done|]. right. split; [done|]. apply Hrange; [done|]. lia. }
    apply (Hdone [b + 88 + n]); [done|]. apply take_split; try done; lia.
Qed.
End alloc.

(** ** Freeing *)

Lemma touches_pages b p : aligned p → touches b p ↔ buffer_start_page b ≤ p ≤ buffer_end_page b.
Proof.
  intros Hp. unfold touches, buffer_start_page, buffer_end_page, sizeof_binder_buffer. rewrite page_floor_le, le_page_floor by done. lia.
Qed.
Lemma page_floor_mono x y : x ≤ y → page_floor x ≤ page_floor y.
Proof. rewrite !page_floor_eq. Z.div_mod_to_equations. lia. Qed.
Lemma header_pages b :
  aligned (buffer_start_page b) ∧ aligned (buffer_end_page b)
  ∧ (buffer_end_page b = buffer_start_page b ∨ buffer_end_page b = buffer_start_page b + 4096).
Proof.
  split; [apply aligned_floor|]. split; [apply aligned_floor|]. unfold buffer_end_page, buffer_start_page, sizeof_binder_buffer.
  rewrite !page_floor_eq. Z.div_mod_to_equations. lia.
Qed.
Lemma headers_apart b c : b + 88 ≤ c → buffer_end_page b ≤ buffer_start_page c.
Proof. intros Hbc. apply page_floor_mono. unfold sizeof_binder_buffer. lia. Qed.
Lemma aligned_lt_add p x : aligned p → aligned x → p < x + 4096 ↔ p ≤ x.
Proof. intros Hp Hx. split; [|lia]. intros Hlt. destruct (decide (p ≤ x)); [done|]. pose proof (aligned_le x p Hx Hp). lia. Qed.

Lemma freed_pages_spec a c next p :
  a + 88 ≤ c → (∀ n, next = Some n → c + 88 ≤ n) → aligned p → 0 ≤ p →
  ((default (0, 0) (freed_pages a c next)).1 ≤ p < (default (0, 0) (freed_pages a c next)).2
    ↔ touches c p ∧ ¬ touches a p ∧ ∀ n, next = Some n → ¬ touches n p)
  ∧ aligned (default (0, 0) (freed_pages a c next)).1 ∧ aligned (default (0, 0) (freed_pages a c next)).2.
Proof.
  intros Hac Hn Hp Hp0. pose proof (headers_apart a c Hac) as H1. destruct (header_pages c) as (A1 & A2 & A3), (header_pages a) as (B1 & B2 & B3).
  pose proof (touches_pages c p Hp) as Tc. pose proof (touches_pages a p Hp) as Ta.
  pose proof (aligned_lt_add p _ Hp A1) as L1. pose proof (aligned_lt_add p _ Hp A2) as L2.
  pose proof (aligned_add _ A1) as A1'. pose proof (aligned_add _ A2) as A2'.
  assert (∀ n, next = Some n → buffer_end_page c ≤ buffer_start_page n ∧ (touches n p ↔ buffer_start_page n ≤ p ≤ buffer_end_page n)
    ∧ buffer_start_page n ≤ buffer_end_page n) as HN.
  { intros n E. split; [by apply headers_apart, Hn|]. split; [by apply touches_pages|]. destruct (header_pages n) as (_ & _ & ?). lia. }
  unfold freed_pages, PAGE_SIZE. rewrite Tc, Ta. destruct next as [n|].
  - destruct (HN n eq_refl) as (N1 & N2 & N3).
    assert ((∀ n0, Some n = Some n0 → ¬ touches n0 p) ↔ ¬ (buffer_start_page n ≤ p ≤ buffer_end_page n)) as ->.
    { rewrite <- N2. naive_solver. }
    repeat case_bool_decide; repeat case_decide; cbn [negb andb orb fst snd default from_option]; unfold id; cbn [fst snd]; (split; [try lia|by split]).
  - assert ((∀ n0, None = Some n0 → ¬ touches n0 p) ↔ True) as -> by naive_solver.
    repeat case_bool_decide; cbn [negb andb orb fst snd default from_option]; unfold id; cbn [fst snd]; (split; [try lia|by split]).
Qed.

Lemma region_page s p : layout s → p ∈ pages s → buffer s ≤ p < region_end s.
Proof.
  intros Hl [Hp Hn]%(ly_pages _ Hl). pose proof (ly_shape _ Hl) as [[R1 [R2 _] _ _] Hh Hc].
  destruct (buffers s) as [|x l]; [done|]. injection Hh as ->. by eapply needed_in_region.
Qed.

Lemma delete_spec s pre a c post :
  layout s → buffers s = pre ++ a :: c :: post → fr s a = true → fr s c = true →
  ∃ P, binder_delete_free_buffer c s = Val (set_pages P (set_buffers (pre ++ a :: post) s)) tt
    ∧ layout (set_pages P (set_buffers (pre ++ a :: post) s)).
Proof.
  intros Hl HL Ha Hc. pose proof (ly_shape _ Hl) as [R Hh Hch]. rewrite HL in Hch, Hh.
  pose proof Hch as Hch'. rewrite (app_assoc _ [a] (c :: post) : pre ++ a :: c :: post = (pre ++ [a]) ++ c :: post) in Hch'.
  pose proof (chain_split _ _ _ _ Hch') as (Hlo & Hup & Hcp & Hcq). clear Hch'.
  rewrite elem_of_app, list_elem_of_singleton in Hcp.
  assert (a + 88 ≤ c) as Hac by (apply Hlo, elem_of_app; right; by left).
  assert (∀ n, head post = Some n → c + 88 ≤ n) as Hcn.
  { intros n Hn. apply Hup. destruct post as [|x post]; [done|]. injection Hn as ->. by left. }
  destruct (ly_headers _ Hl a) as [ha Hha]; [rewrite HL; apply elem_of_app; right; by left|].
  unfold binder_delete_free_buffer. rewrite (bind_val get _ s s s) by done.
  rewrite bool_decide_eq_false_2.
  2: { rewrite HL. destruct pre as [|x pre]; cbn; intros [= ->]; [lia|]. apply Hcp. left. by left. }
  cbn [BUG_ON]. rewrite (bind_val (mret tt) _ s s tt) by done.
  rewrite (bind_val _ _ s s a) by (rewrite HL, prev_entry_mid by (tauto || lia); done).
  rewrite (bind_val _ _ _ _ _ (the_buffer_eq a ha s Hha)). rewrite (fr_header s a ha Hha) in Ha. rewrite Ha. cbn [negb BUG_ON].
  rewrite (bind_val (mret tt) _ s s tt) by done.
  assert (next_entry c (buffers s) = head post) as ->.
  { rewrite HL, (app_assoc _ [a] (c :: post) : pre ++ a :: c :: post = (pre ++ [a]) ++ c :: post), next_entry_mid; [done|].
    rewrite elem_of_app, list_elem_of_singleton. tauto. }
  assert (without c (buffers s) = pre ++ a :: post) as ->.
  { rewrite HL, (app_assoc _ [a] (c :: post) : pre ++ a :: c :: post = (pre ++ [a]) ++ c :: post).
    rewrite without_mid; [by rewrite <- app_assoc| |done]. rewrite elem_of_app, list_elem_of_singleton. tauto. }
  set (s1 := set_buffers (pre ++ a :: post) s). rewrite (bind_val (put s1) _ s s1 tt) by done.
  set (range := default (0, 0) (freed_pages a c (head post))).
  assert (∀ p, aligned p → 0 ≤ p → range.1 ≤ p < range.2 ↔ touches c p ∧ ¬ touches a p ∧ ¬ next_touches post p) as Hfreed.
  { intros p Hp Hp0. destruct (freed_pages_spec a c (head post) p Hac Hcn Hp Hp0) as [E _]. unfold range. rewrite E.
    destruct post as [|n post']; cbn; [|naive_solver]. split; [naive_solver|]. intros (? & ? & _). split_and!; try done. }
  assert (∀ p, p ∈ pages s → aligned p ∧ 0 ≤ p) as Hpos.
  { intros p Hp. pose proof (region_page s p Hl Hp) as Hr. pose proof (rg_pos _ R). split; [by apply (ly_pages _ Hl)|lia]. }
  assert (∀ p, aligned p → 0 ≤ p → range.1 ≤ p < range.2 → p ∈ pages s) as Hthere.
  { intros p Hp Hp0 (Ht & _ & _)%Hfreed; [|done|done]. apply (ly_pages _ Hl). split; [done|]. rewrite HL, needed_app. right. cbn. tauto. }
  assert (∃ P, match freed_pages a c (head post) with Some (start, end_) => binder_free_pages start end_;; mret tt | None => mret tt end s1
      = Val (set_pages P s1) tt ∧ ∀ p, p ∈ P ↔ p ∈ pages s ∧ ¬ (aligned p ∧ range.1 ≤ p < range.2)) as (P & E & HP).
  { unfold range in *. pose proof (freed_pages_spec a c (head post) 0 Hac Hcn eq_refl ltac:(lia)) as (_ & A1 & A2).
    destruct (freed_pages a c (head post)) as [[st en]|] eqn:Ef; cbn [default from_option] in *; unfold id in *; cbn [fst snd] in *.
    - assert (0 ≤ st) as Hst.
      { unfold freed_pages in Ef. revert Ef. destruct (header_pages c) as (_ & _ & ?). pose proof (page_floor_bounds c).
        assert (0 ≤ page_floor c) as Hfl. { apply le_page_floor; [done|]. pose proof (rg_pos _ R). assert (buffer s ≤ c); [|lia].
          apply (shape_above s c (ly_shape _ Hl)). rewrite HL. apply elem_of_app. right. right. by left. }
        fold (buffer_start_page c) in Hfl. repeat (case_bool_decide || case_match); cbn; intros; simplify_eq; lia. }
      destruct (free_range_spec st en s1 A1 A2) as (P & r & E & HP).
      + intros p Hp Hr. assert (p ∈ pages s) as Hin by (apply Hthere; [done|lia|done]). split; [|done]. by apply (region_page s p Hl).
      + exists P. rewrite (bind_val _ _ _ _ _ E). done.
    - exists (pages s). split; [done|]. intros p. split; [intros ?; split; [done|lia]|tauto]. }
  exists P. split; [exact E|].
  assert (chain (pre ++ a :: post) (region_end s)) as Hch2 by (by eapply chain_delete).
  split; [split; [by destruct R; split| |exact Hch2]| | |].
  - cbn [buffers set_pages s1 set_buffers]. by destruct pre.
  - intros x Hx. apply (ly_align _ Hl). cbn in Hx. rewrite HL. revert Hx. rewrite !elem_of_app, !elem_of_cons. tauto.
  - intros x Hx. apply (ly_headers _ Hl). cbn in Hx. rewrite HL. revert Hx. rewrite !elem_of_app, !elem_of_cons. tauto.
  - intros p. cbn [pages set_pages buffers s1 set_buffers]. rewrite HP.
    change (fr (set_pages P s1)) with (fr s). change (region_end (set_pages P s1)) with (region_end s).
    rewrite (needed_deleted (fr s) pre a c post (region_end s) p Hch) by (rewrite ?(fr_header s a ha Hha); done). rewrite <- HL. split.
    + intros [Hin Hno]. destruct (Hpos p Hin) as [Hp Hp0]. split; [done|]. split; [by apply (ly_pages _ Hl)|].
      rewrite <- Hfreed by done. tauto.
    + intros (Hp & Hn & Hno). assert (p ∈ pages s) as Hin by (by apply (ly_pages _ Hl)). split; [done|]. intros [_ Hr].
      apply Hno, Hfreed; [done|by apply Hpos|done].
Qed.

Lemma layout_tree s t : layout s → layout (set_free_buffers t s).
Proof. intros [[[R1 R2 R3 R4] Hh Hc] A B C]. split; [split; [by split|done|done]|done|done|done]. Qed.

(** A free buffer that is in no tree yet; its neighbours may be free. *)
Record floating (s : binder_proc) (b : Z) : Prop := {
  fl_layout : layout s;
  fl_in : b ∈ buffers s;
  fl_fr : fr s b = true;
  fl_nodup : NoDup (inorder (free_buffers s));
  fl_tree : ∀ x, x ∈ inorder (free_buffers s) ↔ x ∈ buffers s ∧ fr s x = true ∧ x ≠ b;
  fl_sorted : sorted_by (extent s) (inorder (free_buffers s));
  fl_allocated : inorder (allocated_buffers s) = List.filter (λ b, negb (fr s b)) (buffers s);
  fl_capacity : ∀ b h, b ∈ buffers s → headers s !! b = Some h → b_free h = false →
    request_size (data_size h) (offsets_size h) (extra_buffers_size h) = Some (buffer_request h)
    ∧ buffer_request h ≤ extent s b;
  fl_async : 0 ≤ free_async_space s ∧ free_async_space s + async_total s = buffer_size s / 2;
  fl_apart : ∀ pre post, buffers s = pre ++ b :: post → apart (fr s) pre ∧ apart (fr s) post;
}.

Lemma apart_prefix fr0 pre x : apart fr0 (pre ++ [x]) → apart fr0 pre.
Proof.
  induction pre as [|y pre IH]; [done|]. destruct pre as [|z pre]; [done|]. cbn [app apart]. intros [H1 H2]. split; [done|by apply IH].
Qed.

Lemma split_unique (b : Z) l1 l2 k1 k2 : b ∉ l1 → b ∉ k1 → l1 ++ b :: l2 = k1 ++ b :: k2 → l1 = k1 ∧ l2 = k2.
Proof.
  revert k1. induction l1 as [|u l1 IH]; intros [|v k1] H1 H2; cbn; [naive_solver| | |]; rewrite ?elem_of_cons in *;
    intros [= <- E]; [tauto|tauto|]. destruct (IH k1) as [-> ->]; tauto.
Qed.

(** Two free neighbours, one of them in no tree, become one buffer that is in no tree. *)
Lemma merge_floating s pre a c post x y t P :
  floating s y → buffers s = pre ++ a :: c :: post → fr s a = true → fr s c = true →
  ((x = a ∧ y = c) ∨ (x = c ∧ y = a)) →
  inorder t = without x (inorder (free_buffers s)) →
  layout (set_pages P (set_buffers (pre ++ a :: post) s)) →
  floating (set_free_buffers t (set_pages P (set_buffers (pre ++ a :: post) s))) a.
Proof.
  intros Hf HL Ha Hc Hxy Et Hl'. set (s' := set_free_buffers t _).
  pose proof (ly_chain _ (ly_shape _ (fl_layout _ _ Hf))) as Hch. rewrite HL in Hch.
  pose proof (chain_nodup _ _ Hch) as Hnd.
  assert (layout s') as Hl by (by apply layout_tree).
  assert (∀ z, z ∈ buffers s' ↔ z ∈ buffers s ∧ z ≠ c) as Hin.
  { intros z. cbn. rewrite HL, !elem_of_app, !elem_of_cons. apply list.NoDup_app in Hnd as (_ & Hd & Hnd2).
    apply list.NoDup_cons in Hnd2 as [Hac Hnd2]. apply list.NoDup_cons in Hnd2 as [Hcp _]. rewrite elem_of_cons in Hac. split.
    - intros [Hz|[->|Hz]]; (split; [tauto|]); intros ->; [|tauto|done]. apply (Hd c Hz). right. by left.
    - intros [[?|[?|[?|?]]] ?]; tauto. }
  assert (∀ z, z ∈ buffers s' → z ≠ a → extent s' z = extent s z) as Hext.
  { intros z Hz Hne. unfold extent. cbn [s' buffers set_free_buffers set_pages set_buffers] in *.
    change (region_end s') with (region_end s). rewrite HL. symmetry. apply bsize_other; [done|].
    revert Hz. rewrite elem_of_app, elem_of_cons. tauto. }
  split; try done.
  - cbn. apply elem_of_app. right. by left.
  - cbn [s' free_buffers set_free_buffers]. rewrite Et. apply NoDup_ListNoDup, List.NoDup_filter, NoDup_ListNoDup, Hf.
  - intros z. cbn [s' free_buffers set_free_buffers]. rewrite Et, elem_of_without, (fl_tree _ _ Hf), Hin.
    change (fr s') with (fr s). destruct Hxy as [[-> ->]|[-> ->]]; split; [intros ((?&?&?)&?)|intros ((?&?)&?&?)|intros ((?&?&?)&?)|intros ((?&?)&?&?)]; tauto.
  - cbn [s' free_buffers set_free_buffers]. rewrite Et. apply (sorted_by_ext (extent s)); [|by apply sorted_by_without, Hf].
    intros z [(Hz & Hfz & Hzy)%(fl_tree _ _ Hf) Hzx]%elem_of_without. symmetry. apply Hext; [apply Hin; split; [done|]|];
      destruct Hxy as [[-> ->]|[-> ->]]; done.
  - change (allocated_buffers s') with (allocated_buffers s). rewrite (fl_allocated _ _ Hf), HL. change (fr s') with (fr s).
    cbn [s' buffers set_free_buffers set_pages set_buffers]. rewrite !List.filter_app. cbn [List.filter]. by rewrite Hc.
  - intros z h Hz Hh Hfz. pose proof (fr_header s z h Hh) as Efr. rewrite Hext; [by apply (fl_capacity _ _ Hf); [apply Hin in Hz as [? _]|..]|done|].
    intros ->. congruence.
  - change (free_async_space s') with (free_async_space s). change (buffer_size s') with (buffer_size s).
    assert (async_total s' = async_total s) as ->; [|apply Hf]. unfold async_total. rewrite HL.
    cbn [s' buffers set_free_buffers set_pages set_buffers]. rewrite !foldr_app. cbn [foldr].
    change (async_cost s') with (async_cost s). by rewrite (async_cost_free s c Hc).
  - intros pre' post' E. cbn [s' buffers set_free_buffers set_pages set_buffers] in E. change (fr s') with (fr s).
    pose proof (chain_nodup _ _ (chain_delete _ _ _ _ _ Hch)) as Hnd'.
    assert (pre' = pre ∧ post' = post) as [-> ->].
    { assert (a ∉ pre) as Hap. { apply list.NoDup_app in Hnd' as (_ & Hd & _). intros Hx. apply (Hd a Hx). by left. }
      assert (a ∉ pre') as Hap'. { rewrite E in Hnd'. apply list.NoDup_app in Hnd' as (_ & Hd & _). intros Hx. apply (Hd a Hx). by left. }
      destruct (split_unique a pre post pre' post' Hap Hap' E). done. }
    destruct Hxy as [[-> ->]|[-> ->]].
    + destruct (fl_apart _ _ Hf (pre ++ [a]) post) as [H1 H2]; [by rewrite HL, <- app_assoc|]. split; [by eapply apart_prefix|done].
    + destruct (fl_apart _ _ Hf pre (c :: post)) as [H1 H2]; [done|]. split; [done|]. by destruct post; [|apply H2].
Qed.

Section free.
Context `{RbTree}.

(** A buffer whose neighbours are in use goes into the tree. *)
Lemma land_ok s b :
  floating s b → apart (fr s) (buffers s) →
  ∃ t, binder_insert_free_buffer b s = Val (set_free_buffers t s) tt ∧ alloc_ok (set_free_buffers t s).
Proof.
  intros Hf Ha. pose proof (fl_layout _ _ Hf) as Hl. destruct (ly_headers _ Hl b (fl_in _ _ Hf)) as [h Hh].
  assert (∀ x, x ∈ buffers s → binder_buffer_size s x = extent s x) as Hsz by (intros x; apply size_eq, Hl).
  destruct (insert_free_spec b h s Hh) as (t & E & Ep & Es).
  - rewrite <- (fr_header s b h Hh). apply Hf.
  - intros x (Hx & Hfx & _)%(fl_tree _ _ Hf). by rewrite (is_free_fr s x Hl Hx), Hfx.
  - apply (sorted_by_ext (extent s)); [|apply Hf]. intros x (Hx & _)%(fl_tree _ _ Hf). by rewrite Hsz.
  - exists t. split; [exact E|]. set (s' := set_free_buffers t s).
    assert (layout s') as Hl' by (by apply layout_tree).
    assert (∀ x, x ∈ inorder t ↔ x ∈ buffers s ∧ fr s x = true) as Ht.
    { intros x. rewrite Ep, elem_of_cons, (fl_tree _ _ Hf). pose proof (fl_in _ _ Hf). pose proof (fl_fr _ _ Hf).
      destruct (decide (x = b)) as [->|]; tauto. }
    split; try done; try apply Hf.
    + cbn [s' free_buffers set_free_buffers]. rewrite Ep. apply list.NoDup_cons. split; [|apply Hf]. rewrite (fl_tree _ _ Hf). tauto.
    + cbn [s' free_buffers set_free_buffers]. apply (sorted_by_ext (binder_buffer_size s)); [|done].
      intros x [Hx _]%Ht. by rewrite Hsz.
Qed.

(** The state when the pages are gone and the buffer has left the tree of allocated ones. *)
Definition let_go (s : binder_proc) (b : Z) (h : binder_buffer) (P : gset Z) : binder_proc :=
  MkProc (vma s) (buffer s) (user_buffer_offset s) (buffer_size s) (buffers s) (<[b := with_free true h]> (headers s))
    (free_buffers s) (rb_erase b (allocated_buffers s)) P (free_async_space s + async_cost s b).

Section released.
Context (s : binder_proc) (pre post : list Z) (b : Z) (h : binder_buffer) (P : gset Z).
Context (Hok : alloc_ok s) (HL : buffers s = pre ++ b :: post) (Hh : headers s !! b = Some h) (Hf : b_free h = false).
Context (HP : ∀ p, p ∈ P ↔ p ∈ pages s ∧ ¬ (aligned p ∧ b + 88 ≤ p ∧ p + 4096 ≤ b + 88 + extent s b)).
Let s' := let_go s b h P.

Lemma go_fr x : fr s' x = if decide (x = b) then true else fr s x.
Proof using Type.
  unfold fr, is_free, s', let_go. cbn [headers]. destruct (decide (x = b)) as [->|]; [by rewrite lookup_insert_eq|].
  by rewrite lookup_insert_ne by congruence.
Qed.
Lemma go_chain : chain (pre ++ b :: post) (region_end s).
Proof using Hok HL. rewrite <- HL. apply Hok. Qed.
Lemma go_other x : x ∈ pre ∨ x ∈ post → x ≠ b.
Proof using Hok HL. pose proof (chain_split _ _ _ _ go_chain) as (_ & _ & H1 & H2). intros [Hx|Hx] ->; done. Qed.
Lemma go_in : b ∈ buffers s.
Proof using HL. rewrite HL. apply elem_of_app. right. by left. Qed.
Lemma go_filter : List.filter (λ x, negb (fr s x)) (buffers s)
  = List.filter (λ x, negb (fr s x)) pre ++ b :: List.filter (λ x, negb (fr s x)) post.
Proof using HL Hh Hf. rewrite HL, List.filter_app. cbn. by rewrite (fr_header s b h Hh), Hf. Qed.

Lemma go_layout : layout s'.
Proof using All.
  pose proof (ok_layout _ Hok) as Hl. pose proof (ly_shape _ Hl) as [[R1 R2 R3 R4] Hhd Hc].
  split; [split; [by split|done|done]|apply Hl| |].
  - intros x Hx. cbn. destruct (decide (x = b)) as [->|]; [rewrite lookup_insert_eq; by eexists|].
    rewrite lookup_insert_ne by congruence. by apply (ly_headers _ Hl).
  - intros p. cbn [pages s' let_go]. rewrite (HP p), (ly_pages _ Hl p). change (region_end s') with (region_end s).
    change (buffers s') with (buffers s). rewrite HL.
    rewrite (needed_freed (fr s) (fr s') pre post b (region_end s) p go_chain); [|intros x Hx|by rewrite (fr_header s b h Hh)|].
    + rewrite (take_extent s pre post b Hok HL). set (E := List.hd (region_end s) post).
      split; [intros [[? ?] Hn]; split; [done|]; split; [done|]; intros [? ?]; apply Hn; split; [done|lia]|].
      intros [? [? Hn]]. split; [done|]. intros (_ & ? & ?). apply Hn. lia.
    + rewrite go_fr, decide_False; [done|]. apply go_other. by apply elem_of_app.
    + rewrite go_fr. by rewrite decide_True.
Qed.
Lemma go_floating : floating s' b.
Proof using All.
  pose proof (chain_split _ _ _ _ go_chain) as (_ & _ & Hbp & Hbq).
  assert (∀ x, x ∈ buffers s → x ≠ b → fr s' x = fr s x) as Hfr by (intros x _ Hne; by rewrite go_fr, decide_False).
  assert (fr s b = false) as Hfb by (by rewrite (fr_header s b h Hh)).
  split.
  - apply go_layout.
  - apply go_in.
  - by rewrite go_fr, decide_True.
  - apply Hok.
  - intros x. change (free_buffers s') with (free_buffers s). rewrite (ok_free _ Hok), go_fr. change (buffers s') with (buffers s).
    destruct (decide (x = b)) as [->|]; [|tauto]. split; [intros [_ ?]; congruence|tauto].
  - apply Hok.
  - cbn [s' let_go allocated_buffers buffers]. rewrite rb_erase_inorder, (ok_allocated _ Hok), go_filter.
    + rewrite without_mid by (rewrite elem_of_filter_list; tauto). rewrite HL, List.filter_app. cbn [List.filter].
      rewrite go_fr, decide_True by done. cbn [negb]. f_equal; apply filter_ext_in; intros x Hx; rewrite go_fr, decide_False; try done;
        apply go_other; auto.
    + rewrite (ok_allocated _ Hok), go_filter. apply elem_of_app. right. by left.
  - intros x hx Hx Hhx Hfx. cbn [s' let_go headers] in Hhx. destruct (decide (x = b)) as [->|Hne].
    { rewrite lookup_insert_eq in Hhx. injection Hhx as <-. done. }
    rewrite lookup_insert_ne in Hhx by congruence. by apply (ok_capacity _ Hok).
  - cbn [s' let_go free_async_space buffer_size]. pose proof (async_cost_nonneg s b). destruct (ok_async _ Hok) as [A0 A1].
    split; [lia|]. rewrite <- A1. rewrite (async_total_split s pre b post HL), (async_total_split s' pre b post HL).
    rewrite (async_cost_free s' b) by (by rewrite go_fr, decide_True).
    rewrite (foldr_cost_ext s s' (pre ++ post)); [lia|]. intros x Hx%elem_of_app%go_other. unfold async_cost. cbn [s' let_go headers].
    by rewrite lookup_insert_ne by congruence.
  - intros pre' post' E. change (buffers s') with (buffers s) in E.
    assert (apart (fr s) pre' ∧ apart (fr s) post') as [A1 A2].
    { pose proof (ok_apart _ Hok) as Ha. rewrite E in Ha. apply apart_app in Ha as [A1 A2].
      split; [by eapply apart_prefix|]. by destruct post'; [|apply A2]. }
    pose proof (ly_chain _ (ly_shape _ (ok_layout _ Hok))) as Hc. rewrite E in Hc.
    pose proof (chain_split _ _ _ _ Hc) as (_ & _ & N1 & N2).
    split; [revert A1|revert A2]; apply apart_weaken; intros x Hx; (rewrite go_fr, decide_False; [done|]); intros ->; done.
Qed.
End released.

(** The list when a buffer has been freed. *)
Definition freed_list (f : Z → bool) (pre : list Z) (b : Z) (post : list Z) : list Z :=
  let post' := match post with c :: post' => if f c then post' else post | [] => [] end in
  match list.last pre with Some a => if f a then pre ++ post' else pre ++ b :: post' | None => b :: post' end.

(** Everything but the list, the tree of free buffers and the pages. *)
Definition kept (s s' : binder_proc) : Prop :=
  (vma s', buffer s', user_buffer_offset s', buffer_size s', headers s', free_async_space s')
  = (vma s, buffer s, user_buffer_offset s, buffer_size s, headers s, free_async_space s).
Lemma kept_fr s s' x : kept s s' → fr s' x = fr s x.
Proof. intros [=]. unfold fr, is_free. congruence. Qed.
Definition merged_post (f : Z → bool) (post : list Z) : list Z :=
  match post with c :: post' => if f c then post' else post | [] => [] end.

Lemma free_next s b pre post :
  floating s b → buffers s = pre ++ b :: post →
  ∃ s', (match next_entry b (buffers s) with
         | None => mret tt
         | Some next =>
             hn ← the_buffer next;
             if b_free hn then
               modify (λ s, set_free_buffers (rb_erase next (free_buffers s)) s);;
               binder_delete_free_buffer next
             else mret tt
         end) s = Val s' tt
    ∧ floating s' b ∧ buffers s' = pre ++ b :: merged_post (fr s) post ∧ kept s s'
    ∧ ∀ c, head (merged_post (fr s) post) = Some c → fr s c = false.
Proof.
  intros Hf HL. pose proof (fl_layout _ _ Hf) as Hl. pose proof (ly_chain _ (ly_shape _ Hl)) as Hc. rewrite HL in Hc.
  pose proof (chain_split _ _ _ _ Hc) as (_ & Hup & Hbp & Hbq). rewrite HL, next_entry_mid by done.
  destruct post as [|c post]; cbn [head merged_post]; [by exists s|].
  destruct (ly_headers _ Hl c) as [hc Hhc]; [rewrite HL; apply elem_of_app; right; right; by left|].
  rewrite (bind_val _ _ _ _ _ (the_buffer_eq c hc s Hhc)), <- (fr_header s c hc Hhc). destruct (fr s c) eqn:Ec.
  2: { exists s. split; [done|]. split; [done|]. split; [done|]. split; [done|]. by intros c' [= <-]. }
  set (s1 := set_free_buffers (rb_erase c (free_buffers s)) s). rewrite (bind_val (modify _) _ s s1 tt) by done.
  assert (layout s1) as Hl1 by (by apply layout_tree).
  destruct (delete_spec s1 pre b c post Hl1 HL (fl_fr _ _ Hf) Ec) as (P & E & Hl2). exists (set_pages P (set_buffers (pre ++ b :: post) s1)).
  split; [exact E|]. split; [|split; [done|split; [done|]]].
  - change (set_pages P (set_buffers (pre ++ b :: post) s1)) with
      (set_free_buffers (rb_erase c (free_buffers s)) (set_pages P (set_buffers (pre ++ b :: post) s))).
    apply (merge_floating s pre b c post c b _ P Hf HL (fl_fr _ _ Hf) Ec); [by right| |].
    + apply rb_erase_inorder. apply (fl_tree _ _ Hf). split; [rewrite HL; apply elem_of_app; right; right; by left|].
      split; [done|]. pose proof (Hup c ltac:(by left)). lia.
    + destruct Hl2 as [[[R1 R2 R3 R4] Hhd Hch] A B C]. split; [split; [by split|done|done]|done|done|done].
  - intros c' Hc'. destruct (fl_apart _ _ Hf pre (c :: post) HL) as [_ Ha]. destruct post as [|x post]; [done|]. injection Hc' as ->.
    destruct Ha as [Ha _]. destruct (fr s c') eqn:E'; [|done]. destruct Ha. done.
Qed.

Lemma apart_cons fr0 b l : apart fr0 l → (∀ c, head l = Some c → fr0 b = true → fr0 c = false) → apart fr0 (b :: l).
Proof.
  destruct l as [|c l]; [done|]. intros Ha Hb. split; [|done]. intros [H1 H2]. rewrite (Hb c eq_refl H1) in H2. done.
Qed.
Lemma apart_join fr0 pre b l :
  apart fr0 pre → apart fr0 (b :: l) → (∀ a, list.last pre = Some a → fr0 a = true → fr0 b = false) → apart fr0 (pre ++ b :: l).
Proof.
  induction pre as [|x pre IH]; intros H1 H2 H3; [done|]. destruct pre as [|y pre]; cbn [app].
  - split; [|done]. intros [Hx Hb]. rewrite (H3 x eq_refl Hx) in Hb. done.
  - destruct H1 as [H1 H1']. split; [done|]. apply IH; [done|done|]. intros a Ha. apply H3. exact Ha.
Qed.

Lemma free_prev s b pre post :
  floating s b → buffers s = pre ++ b :: post → (∀ c, head post = Some c → fr s c = false) →
  ∃ s', (if decide (head (buffers s) ≠ Some b) then
           prev ← or_bug (prev_entry b (buffers s));
           hp ← the_buffer prev;
           if b_free hp then
             binder_delete_free_buffer b;;
             modify (λ s, set_free_buffers (rb_erase prev (free_buffers s)) s);;
             binder_insert_free_buffer prev
           else binder_insert_free_buffer b
         else binder_insert_free_buffer b) s = Val s' tt
    ∧ alloc_ok s' ∧ kept s s'
    ∧ buffers s' = match list.last pre with Some a => if fr s a then pre ++ post else pre ++ b :: post | None => b :: post end.
Proof.
  intros Hf HL Hpost. pose proof (fl_layout _ _ Hf) as Hl. pose proof (ly_chain _ (ly_shape _ Hl)) as Hc. rewrite HL in Hc.
  pose proof (chain_split _ _ _ _ Hc) as (Hlo & Hup & Hbp & Hbq).
  destruct (fl_apart _ _ Hf pre post HL) as [Ap Aq].
  assert (apart (fr s) (b :: post)) as Ab by (apply apart_cons; [done|intros c Hc' _; by apply Hpost]).
  assert ((∀ a, list.last pre = Some a → fr s a = false) →
    ∃ s', binder_insert_free_buffer b s = Val s' tt ∧ alloc_ok s' ∧ kept s s' ∧ buffers s' = pre ++ b :: post) as Hplain.
  { intros Hlast. destruct (land_ok s b Hf) as (t & E & Hok').
    - rewrite HL. apply apart_join; [done|done|]. intros a Ha Hfa. rewrite (Hlast a Ha) in Hfa. done.
    - eexists. split; [exact E|]. split; [done|]. by split. }
  destruct (list.last pre) as [a|] eqn:Elast.
  2: { apply last_None in Elast as ->. cbn [app] in *. rewrite HL. cbn [head]. rewrite decide_False by (intros X; by apply X).
       destruct Hplain as (s' & E & H1 & H2 & H3); [done|]. eauto 6. }
  apply last_Some in Elast as [pre0 ->]. rewrite <- app_assoc in HL, Hc. cbn [app] in HL, Hc.
  assert (a + 88 ≤ b) as Hab by (apply Hlo, elem_of_app; right; by left).
  rewrite decide_True.
  2: { rewrite HL. destruct pre0 as [|x pre0]; cbn; intros [= ->]; [lia|]. apply Hbp. by left. }
  rewrite (bind_val _ _ s s a).
  2: { rewrite HL, prev_entry_mid; [done| |lia]. intros Hx. apply Hbp, elem_of_app. by left. }
  destruct (ly_headers _ Hl a) as [ha Hha]; [rewrite HL; apply elem_of_app; right; by left|].
  rewrite (bind_val _ _ _ _ _ (the_buffer_eq a ha s Hha)), <- (fr_header s a ha Hha). destruct (fr s a) eqn:Ea.
  2: { destruct Hplain as (s' & E & H1 & H2 & H3); [by intros a' [= <-]|]. eauto 6. }
  destruct (delete_spec s pre0 a b post Hl HL Ea (fl_fr _ _ Hf)) as (P & E & Hl2). rewrite (bind_val _ _ _ _ _ E).
  set (s1 := set_pages P (set_buffers (pre0 ++ a :: post) s)) in *.
  set (s2 := set_free_buffers (rb_erase a (free_buffers s)) s1). rewrite (bind_val (modify _) _ s1 s2 tt) by done.
  assert (floating s2 a) as Hf2.
  { apply (merge_floating s pre0 a b post a b _ P Hf HL Ea (fl_fr _ _ Hf)); [by left| |done].
    apply rb_erase_inorder, (fl_tree _ _ Hf). split; [rewrite HL; apply elem_of_app; right; by left|]. split; [done|lia]. }
  destruct (land_ok s2 a Hf2) as (t & Et & Hok').
  - change (fr s2) with (fr s). change (buffers s2) with (pre0 ++ a :: post). apply apart_app. split; [done|].
    apply apart_cons; [done|]. intros c Hc' _. by apply Hpost.
  - eexists. split; [exact Et|]. split; [done|]. split; [done|]. cbn. by rewrite <- app_assoc.
Qed.

(** What freeing leaves. *)
Record freed (s s' : binder_proc) (b : Z) (h : binder_buffer) : Prop := {
  fd_list : ∀ pre post, buffers s = pre ++ b :: post → buffers s' = freed_list (fr s) pre b post;
  fd_headers : headers s' = <[b := with_free true h]> (headers s);
  fd_async : free_async_space s' = free_async_space s + async_cost s b;
  fd_frame : (vma s', buffer s', user_buffer_offset s', buffer_size s') = (vma s, buffer s, user_buffer_offset s, buffer_size s);
  }.

Lemma free_buf_spec s b h :
  alloc_ok s → b ∈ buffers s → headers s !! b = Some h → b_free h = false → transaction h = None →
  ∃ s', binder_free_buf b s = Val s' tt ∧ alloc_ok s' ∧ freed s s' b h.
Proof.
  intros Hok Hb Hh Hf Ht. pose proof (ok_layout _ Hok) as Hl. pose proof (ly_shape _ Hl) as Hsh. destruct (ly_region _ Hsh) as [R1 R2 R3 R4].
  destruct (ok_capacity _ Hok b h Hb Hh Hf) as [_ Hcap]. pose proof (shape_above s b Hsh Hb) as Hab. pose proof (shape_below s b Hsh Hb) as Hbe.
  pose proof (extent_bounds s b Hsh Hb) as Hx. pose proof (buffer_request_nonneg h) as Hq.
  unfold binder_free_buf. rewrite (bind_val get _ s s s) by done. rewrite (bind_val _ _ _ _ _ (the_buffer_eq b h s Hh)).
  rewrite (size_eq s b Hsh Hb), Hf, Ht. cbn zeta. unfold region_end in *.
  rewrite (bool_decide_eq_false_2 (extent s b < buffer_request h)), (bool_decide_eq_false_2 (is_Some None)),
    (bool_decide_eq_false_2 (b < buffer s)), (bool_decide_eq_false_2 (buffer s + buffer_size s < b)) by (lia || by intros [? ?]).
  cbn [BUG_ON]. do 5 (rewrite (bind_val (mret tt) _ s s tt) by done).
  set (s1 := set_async (free_async_space s + async_cost s b) s).
  assert (∀ (k : unit → M binder_proc unit), ((if async_transaction h then
      modify (λ s, set_async (u64 (free_async_space s + u64 (buffer_request h + sizeof_binder_buffer))) s) else mret tt) ≫= k) s = k tt s1) as ->.
  { intros k. unfold s1, async_cost. rewrite Hh, Hf. cbn [negb andb]. destruct (async_transaction h) eqn:Ea.
    - destruct (ok_async _ Hok) as [A0 A1]. pose proof (async_total_nonneg s).
      assert (buffer_size s / 2 < 4194304) by (unfold SZ_4M in *; Z.div_mod_to_equations; lia).
      run_m. unfold sizeof_binder_buffer. rewrite (u64_small (buffer_request h + 88)), u64_small by lia. done.
    - run_m. rewrite Z.add_0_r. by destruct s. }
  pose proof Hb as (pre & post & HL)%list_elem_of_split. unfold data_of, sizeof_binder_buffer.
  assert (chain (pre ++ b :: post) (region_end s)) as Hc by (rewrite <- HL; apply Hsh).
  pose proof (take_extent s pre post b Hok HL) as Hext.
  assert (∀ p, aligned p → PAGE_ALIGN (b + 88) ≤ p < page_floor (b + 88 + extent s b) ↔ b + 88 ≤ p ∧ p + 4096 ≤ b + 88 + extent s b) as Hr.
  { intros p Hp. rewrite page_align_le, lt_page_floor by (done || lia). done. }
  destruct (free_range_spec (PAGE_ALIGN (b + 88)) (page_floor (b + 88 + extent s b)) s1 (aligned_align _) (aligned_floor _))
    as (P & r & EP & HP).
  { intros p Hp Hpr%Hr; [|done]. change (pages s1) with (pages s).
    assert (p ∈ pages s) as Hin; [|split; [by apply (region_page s p Hl)|done]].
    apply (ly_pages _ Hl). split; [done|]. rewrite HL, needed_app. right. right. left. rewrite (fr_header s b h Hh). split; [done|lia]. }
  rewrite (bind_val _ _ _ _ _ EP).
  rewrite (bind_val (modify _) _ _ (set_allocated_buffers (rb_erase b (allocated_buffers s)) (set_pages P s1)) tt) by done.
  rewrite (bind_val _ _ _ _ _ (put_buffer_eq _ _ _)).
  match goal with |- context [(get ≫= _) ?x] => change x with (let_go s b h P) end. set (s2 := let_go s b h P).
  assert (floating s2 b) as Hf2.
  { apply (go_floating s pre post b h P); try done. intros p. rewrite HP. change (pages s1) with (pages s).
    split; intros [Hin Hno]; (split; [done|]); intros [Hp Hpr]; apply Hno; (split; [done|]); by apply Hr. }
  rewrite (bind_val get _ s2 s2 s2) by done.
  destruct (free_next s2 b pre post Hf2 HL) as (s3 & E3 & Hf3 & HL3 & K3 & Hp3). rewrite (bind_val _ _ _ _ _ E3).
  rewrite (bind_val get _ s3 s3 s3) by done.
  destruct (free_prev s3 b pre (merged_post (fr s2) post) Hf3 HL3) as (s4 & E4 & Hok4 & K4 & HL4).
  { intros c Hc'. rewrite (kept_fr s2 s3 c K3). by apply Hp3. }
  exists s4. split; [exact E4|]. split; [done|]. pose proof (λ x, kept_fr s2 s3 x K3) as Hfr3. injection K3 as K31 K32 K33 K34 K35 K36. injection K4 as K41 K42 K43 K44 K45 K46.
  assert (∀ x, x ≠ b → fr s2 x = fr s x) as Hfr2 by (intros x Hne; unfold s2; rewrite go_fr; by rewrite decide_False).
  pose proof (chain_split _ _ _ _ Hc) as (_ & _ & Hbp & Hbq).
  split.
  - intros pre' post' E'. assert (pre' = pre ∧ post' = post) as [-> ->].
    { rewrite HL in E'. rewrite E' in Hc. pose proof (chain_split _ _ _ _ Hc) as (_ & _ & Hbp' & _).
      by destruct (split_unique b pre post pre' post' Hbp Hbp' E') as [-> ->]. }
    rewrite HL4. unfold freed_list. fold (merged_post (fr s) post).
    assert (merged_post (fr s2) post = merged_post (fr s) post) as ->.
    { destruct post as [|c post0]; [done|]. cbn. rewrite Hfr2; [done|]. intros ->. apply Hbq. by left. }
    destruct (list.last pre) as [a|] eqn:Elast; [|done]. rewrite Hfr3, Hfr2; [done|]. intros ->. apply Hbp. apply last_Some in Elast as [l ->]. apply elem_of_app. right. by left.
  - by rewrite K45, K35.
  - by rewrite K46, K36.
  - rewrite K41, K42, K43, K44, K31, K32, K33, K34. done.
Qed.
End free.

(** ** Buffers in use *)

Definition live (s : binder_proc) : list Z := inorder (allocated_buffers s).
Lemma elem_of_live s b : alloc_ok s → b ∈ live s ↔ b ∈ buffers s ∧ fr s b = false.
Proof. intros Hok. unfold live. rewrite (ok_allocated _ Hok), elem_of_filter_list, negb_true_iff. done. Qed.
Lemma live_header s b : alloc_ok s → b ∈ live s → ∃ h, headers s !! b = Some h ∧ b_free h = false.
Proof.
  intros Hok [Hb Hf]%elem_of_live; [|done]. destruct (ly_headers _ (ok_layout _ Hok) b Hb) as [h Hh]. exists h.
  by rewrite (fr_header s b h Hh) in Hf.
Qed.
Lemma live_nodup s : alloc_ok s → NoDup (live s).
Proof.
  intros Hok. unfold live. rewrite (ok_allocated _ Hok). apply NoDup_ListNoDup, List.NoDup_filter, NoDup_ListNoDup.
  by eapply chain_nodup, ly_chain, ly_shape, ok_layout.
Qed.

(** A header changes in what the allocator does not look at. *)
Lemma ok_header s b h h' :
  alloc_ok s → headers s !! b = Some h → b_free h' = b_free h → async_transaction h' = async_transaction h →
  (data_size h', offsets_size h', extra_buffers_size h') = (data_size h, offsets_size h, extra_buffers_size h) →
  alloc_ok (set_headers (<[b := h']> (headers s)) s).
Proof.
  intros [[[[R1 R2 R3 R4] Hhd Hc] A B C] O1 O2 O3 O4 O5 O6 O7] Hh Hf Ha [= E1 E2 E3]. set (s' := set_headers _ s).
  assert (∀ x, fr s' x = fr s x) as Hfr.
  { intros x. unfold fr, is_free. cbn. destruct (decide (x = b)) as [->|]; [|by rewrite lookup_insert_ne by congruence].
    rewrite lookup_insert_eq, Hh. cbn. by rewrite Hf. }
  assert (buffer_request h' = buffer_request h) as Hr by (unfold buffer_request; by rewrite E1, E2, E3).
  split.
  - split; [split; [by split|done|done]|done| |].
    + intros x Hx. cbn. destruct (decide (x = b)) as [->|]; [rewrite lookup_insert_eq; by eexists|].
      rewrite lookup_insert_ne by congruence. by apply B.
    + intros p. change (pages s') with (pages s). rewrite C. by rewrite (needed_ext (fr s') (fr s)) by (intros; apply Hfr).
  - revert O1. apply apart_weaken. intros x _. by rewrite Hfr.
  - done.
  - intros x. rewrite Hfr. apply O3.
  - done.
  - change (allocated_buffers s') with (allocated_buffers s). rewrite O5. apply filter_ext_in. intros x _. by rewrite Hfr.
  - intros x hx Hx Hhx Hfx. cbn in Hhx. destruct (decide (x = b)) as [->|].
    + rewrite lookup_insert_eq in Hhx. injection Hhx as <-. rewrite E1, E2, E3, Hr. apply (O6 b h); [done|done|congruence].
    + rewrite lookup_insert_ne in Hhx by congruence. by apply O6.
  - change (free_async_space s') with (free_async_space s). change (buffer_size s') with (buffer_size s).
    assert (async_total s' = async_total s) as ->; [|done]. apply (foldr_cost_ext s s'). intros x _. unfold async_cost. cbn.
    destruct (decide (x = b)) as [->|]; [|by rewrite lookup_insert_ne by congruence]. rewrite lookup_insert_eq, Hh, Hf, Ha, Hr. done.
Qed.

(** The pages under a buffer in use are there. *)
Lemma live_pages s b q :
  alloc_ok s → b ∈ live s → b ≤ q < b + 88 + extent s b → page_floor q ∈ pages s.
Proof.
  intros Hok [Hb Hf]%elem_of_live Hq; [|done]. pose proof (ok_layout _ Hok) as Hl. pose proof (ly_shape _ Hl) as Hsh.
  pose proof (aligned_floor q) as Hp. pose proof (page_floor_bounds q) as Hb'. set (p := page_floor q) in *.
  apply (ly_pages _ Hl). split; [done|]. pose proof Hb as (pre & post & HL)%list_elem_of_split.
  rewrite (take_extent s pre post b Hok HL) in Hq. rewrite HL, needed_app. right. cbn [needed].
  destruct (decide (p < b + 88)); [left; unfold touches; lia|].
  destruct (decide (p + 4096 ≤ List.hd (region_end s) post)); [right; left; split; [done|lia]|]. right. right.
  destruct post as [|c post]; cbn [List.hd] in *; [|left; unfold touches; lia].
  destruct (rg_aligned _ (ly_region _ Hsh)) as [A1 A2]. exfalso.
  assert (aligned (region_end s)) as Ae by (unfold aligned, region_end in *; clear -A1 A2; Z.div_mod_to_equations; lia).
  pose proof (aligned_le p (region_end s) Hp Ae). lia.
Qed.
(** Buffers do not overlap. *)
Lemma buffers_disjoint s b c :
  alloc_ok s → b ∈ buffers s → c ∈ buffers s → b ≠ c → b + 88 + extent s b ≤ c ∨ c + 88 + extent s c ≤ b.
Proof.
  intros Hok Hb Hc Hne. pose proof (ly_chain _ (ly_shape _ (ok_layout _ Hok))) as Hch.
  pose proof Hb as (pre & post & HL)%list_elem_of_split. rewrite HL in Hch, Hc.
  rewrite (take_extent s pre post b Hok HL). apply elem_of_app in Hc as [Hc|[Hc|Hc]%elem_of_cons]; [right|congruence|left].
  - unfold extent. rewrite HL, bsize_pre by done. apply chain_app in Hch as [Hch _].
    apply list_elem_of_split in Hc as (l & k & ->). pose proof (chain_split _ _ _ _ Hch) as (_ & _ & N & _).
    rewrite bsize_mid by done. apply chain_app in Hch as [_ Hch]. pose proof (chain_next _ _ _ Hch). lia.
  - apply chain_app in Hch as [_ [_ Hch]]. destruct post as [|x post]; [by apply elem_of_nil in Hc|]. cbn [List.hd].
    apply elem_of_cons in Hc as [->|Hc]; [lia|]. pose proof (chain_above _ _ _ _ Hch Hc). lia.
Qed.
Lemma buffers_inside s b : alloc_ok s → b ∈ buffers s → buffer s ≤ b ∧ b + 88 + extent s b ≤ region_end s.
Proof.
  intros Hok Hb. pose proof (ly_shape _ (ok_layout _ Hok)) as Hsh. split; [by apply shape_above|].
  pose proof (bsize_bounds _ _ b _ (ly_chain _ Hsh) Hb ltac:(lia)). unfold extent. lia.
Qed.

(** What is in use after a buffer was given out, and after one was freed. *)
Lemma took_live s s' pre b ins post hb :
  alloc_ok s → alloc_ok s' → took s s' pre b ins post hb → ∀ x, x ∈ live s' ↔ x = b ∨ x ∈ live s.
Proof.
  intros Hok Hok' T x. rewrite !elem_of_live by done. rewrite (took_elem _ _ _ _ _ _ _ T).
  rewrite (tk_list _ _ _ _ _ _ _ T), elem_of_app, elem_of_cons.
  pose proof (took_fr _ _ _ _ _ _ _ T) as F1. pose proof (tk_was _ _ _ _ _ _ _ T) as F2. split.
  - intros [[->|[Hx|Hx]] Hf]; [by left|by rewrite (took_fr_ins _ _ _ _ _ _ _ T x Hx) in Hf|].
    rewrite (took_fr_other _ _ _ _ _ _ _ T x Hx) in Hf. right. split; [tauto|done].
  - intros [->|[[Hx|[->|Hx]] Hf]]; [split; [by left|done]| |congruence|];
      (split; [tauto|]); rewrite (took_fr_other _ _ _ _ _ _ _ T x) by tauto; done.
Qed.

Lemma freed_fr s s' b h x : freed s s' b h → fr s' x = if decide (x = b) then true else fr s x.
Proof.
  intros F. unfold fr, is_free. rewrite (fd_headers _ _ _ _ F). destruct (decide (x = b)) as [->|]; [by rewrite lookup_insert_eq|].
  by rewrite lookup_insert_ne by congruence.
Qed.
Lemma freed_live s s' b h :
  alloc_ok s → alloc_ok s' → b ∈ live s → freed s s' b h → live s' = without b (live s).
Proof.
  intros Hok Hok' Hb F. apply elem_of_live in Hb as [Hb Hfb]; [|done]. unfold live. rewrite !ok_allocated by done.
  pose proof Hb as (pre & post & HL)%list_elem_of_split. pose proof (ly_chain _ (ly_shape _ (ok_layout _ Hok))) as Hc.
  rewrite HL in Hc. pose proof (chain_split _ _ _ _ Hc) as (_ & _ & Hbp & Hbq).
  set (f := λ x, negb (fr s x)). assert (∀ l, b ∉ l → List.filter (λ x, negb (fr s' x)) l = List.filter f l) as Hf.
  { intros l Hl. apply filter_ext_in. intros x Hx. rewrite (freed_fr s s' b h x F), decide_False by (by intros ->). done. }
  assert (without b (List.filter f (buffers s)) = List.filter f pre ++ List.filter f post) as ->.
  { rewrite HL, List.filter_app. cbn [List.filter]. unfold f at 2. rewrite Hfb. cbn [negb]. apply without_mid; rewrite elem_of_filter_list; tauto. }
  assert (List.filter f (merged_post (fr s) post) = List.filter f post) as Hm.
  { destruct post as [|c post]; [done|]. cbn [merged_post List.filter]. unfold f at 2. destruct (fr s c) eqn:Ec; cbn [negb]; [done|].
    cbn [List.filter]. unfold f at 1. by rewrite Ec. }
  assert (b ∉ merged_post (fr s) post) as Hbm.
  { destruct post as [|c post]; [done|]. cbn. destruct (fr s c); [|done]. intros ?. apply Hbq. by right. }
  assert (negb (fr s' b) = false) as Hb' by (by rewrite (freed_fr s s' b h b F), decide_True).
  rewrite (fd_list _ _ _ _ F pre post HL). unfold freed_list. fold (merged_post (fr s) post).
  destruct (list.last pre) as [a|] eqn:El; [destruct (fr s a)|].
  - rewrite List.filter_app, !Hf, Hm by done. done.
  - rewrite List.filter_app. cbn [List.filter]. by rewrite Hb', !Hf, Hm by done.
  - apply last_None in El as ->. cbn [List.filter app]. by rewrite Hb', Hf, Hm by done.
Qed.

(** ** Histories of a process *)

(** The transaction could not be completed. *)
Definition fail_transaction `{RbTree} (b : Z) : M binder_proc unit :=
  h ← the_buffer b; put_buffer b (with_transaction None h);; binder_free_buf b.

Inductive alloc_op : Type :=
  | OAlloc (d o e : Z) (is_async : bool) (mm : mm_answer) (answer : Z → page_answer) (stale : binder_buffer)
  | OAttach (b t : Z) | OAllow (b : Z) | OFail (b : Z) | OUserFree (data_ptr : Z) | OVmaClose.
Definition run_op `{RbTree} (op : alloc_op) : M binder_proc (option Z) :=
  match op with
  | OAlloc d o e is_async mm answer stale => binder_alloc_buf d o e is_async mm answer stale
  | OAttach b t => attach_transaction b t;; mret None
  | OAllow b => allow_free b;; mret None
  | OFail b => fail_transaction b;; mret None
  | OUserFree p => bc_free_buffer p;; mret None
  | OVmaClose => binder_vma_close;; mret None
  end.
(** Sizes are 64 bits wide; the driver names buffers it has allocated. *)
Definition op_ok (s : binder_proc) (op : alloc_op) : bool :=
  match op with
  | OAlloc d o e _ _ _ _ =>
      bool_decide (0 ≤ d < 18446744073709551616 ∧ 0 ≤ o < 18446744073709551616 ∧ 0 ≤ e < 18446744073709551616)
  | OAttach b _ | OAllow b | OFail b => bool_decide (b ∈ live s)
  | OUserFree _ | OVmaClose => true
  end.
(** What the kernel gives for a mapping. *)
Definition map_ok (vm_start vm_end addr : Z) : bool :=
  bool_decide (0 < addr ∧ addr mod 4096 = 0 ∧ (vm_end - vm_start) mod 4096 = 0 ∧ 4096 ≤ vm_end - vm_start
    ∧ addr + SZ_4M + 8192 < 18446744073709551616).

Inductive alloc_reach `{RbTree} : binder_proc → Prop :=
  | reach_mmap vm_start vm_end addr answer stale s :
      map_ok vm_start vm_end addr = true → binder_mmap true vm_start vm_end false (Some addr) true answer stale proc0 = Val s 0 → alloc_reach s
  | reach_op s op s' r : alloc_reach s → op_ok s op = true → run_op op s = Val s' r → alloc_reach s'.

Section histories.
Context `{RbTree}.

Lemma one_buffer_pages addr hi f p :
  aligned addr → aligned p → f addr = true → p = addr ↔ needed f [addr] hi p.
Proof.
  intros Ha Hp Hf. cbn [needed]. rewrite Hf. unfold touches. split; [intros ->; left; lia|]. intros [[H1 H2]|[[? _]|[]]]; [|done].
  destruct (decide (p < addr)); [pose proof (aligned_le p addr Hp Ha ltac:(done)); lia|].
  destruct (decide (addr < p)); [pose proof (aligned_le addr p Ha Hp ltac:(done)); lia|]. lia.
Qed.
Lemma insert_first b h s :
  headers s !! b = Some h → b_free h = true → free_buffers s = Leaf →
  binder_insert_free_buffer b s = Val (set_free_buffers (rb_insert_color b (Node Leaf b Leaf)) s) tt.
Proof.
  intros Hh Hf Ht. unfold binder_insert_free_buffer. rewrite (bind_val _ _ _ _ _ (the_buffer_eq b h s Hh)), Hf.
  cbn [negb BUG_ON]. rewrite (bind_val (mret tt) _ s s tt), (bind_val get _ s s s), Ht by done. done.
Qed.
Lemma mmap_spec vm_start vm_end addr answer stale :
  map_ok vm_start vm_end addr = true →
  ∃ s r, binder_mmap true vm_start vm_end false (Some addr) true answer stale proc0 = Val s r
    ∧ ((r = 0 ∧ alloc_ok s ∧ vma s = true ∧ live s = [] ∧ buffers s = [addr]) ∨ (r = - ENOMEM ∧ buffer s = 0 ∧ pages s = ∅ ∧ vma s = false)).
Proof.
  intros (H1 & H2 & H3 & H4 & H5)%bool_decide_eq_true. unfold binder_mmap. cbn [negb].
  set (ve := if decide (SZ_4M < vm_end - vm_start) then vm_start + SZ_4M else vm_end).
  assert ((ve - vm_start) mod 4096 = 0 ∧ 4096 ≤ ve - vm_start ≤ SZ_4M) as [V1 V2].
  { unfold ve, SZ_4M in *. case_decide; [|lia]. split; [|lia]. replace (vm_start + 4194304 - vm_start) with 4194304 by lia. done. }
  rewrite (bind_val get _ proc0 proc0 proc0) by done. rewrite decide_False by (cbn; lia).
  set (s0 := set_region addr (u64 (vm_start - addr)) (buffer_size proc0) proc0). rewrite (bind_val (put s0) _ proc0 s0 tt) by done.
  set (s1 := set_pages ∅ (set_region addr (u64 (vm_start - addr)) (ve - vm_start) s0)).
  rewrite (bind_val (modify _) _ s0 s1 tt) by done. unfold PAGE_SIZE.
  assert (∀ p, aligned p → addr ≤ p < addr + 4096 ↔ p = addr) as Hone.
  { intros p Hp. unfold aligned in Hp. split; [|lia]. intros ?. Z.div_mod_to_equations. lia. }
  destruct (alloc_range_spec addr (addr + 4096) true answer s1) as [(P & E & HP)|[E _]].
  { done. } { by apply aligned_add. }
  { intros p Hp ->%Hone; [|done]. split; [unfold region_end; cbn; lia|]. cbn. set_solver. }
  2: { rewrite (bind_val _ _ _ _ _ E). rewrite decide_True by done. eexists _, _. split; [reflexivity|]. right. done. }
  rewrite (bind_val _ _ _ _ _ E). rewrite decide_False by (intros X; by apply X).
  set (s2 := set_headers {[addr := with_free true stale]} (set_buffers [addr] (set_pages P s1))).
  rewrite (bind_val (modify _) _ _ (set_buffers [addr] (set_pages P s1)) tt) by done.
  rewrite (bind_val (put_buffer _ _) _ _ s2 tt) by done.
  assert (headers s2 !! addr = Some (with_free true stale)) as Hh by apply lookup_insert_eq.
  assert (fr s2 addr = true) as Hf by (by rewrite (fr_header s2 addr _ Hh)).
  assert (∀ p, p ∈ P ↔ aligned p ∧ p = addr) as HP'.
  { intros p. rewrite HP. cbn. rewrite elem_of_empty. split; [intros [?|[? ?%Hone]]; tauto|]. intros [? ->]. right. split; [done|lia]. }
  rewrite (bind_val _ _ _ _ _ (insert_first addr _ s2 Hh eq_refl eq_refl)).
  set (s3 := set_vma true (set_async ((ve - vm_start) / 2) s2)).
  assert (floating s3 addr) as Hfl.
  { split; try done.
    - split; [split; [split|done|]| | |].
      + cbn. lia.
      + split; [done|]. exact V1.
      + exact V2.
      + unfold region_end. cbn [buffer buffer_size s3 s2 set_vma set_async set_headers set_buffers set_pages s1 set_region]. unfold SZ_4M in *. lia.
      + cbn. split; [|done]. unfold region_end. cbn. lia.
      + intros x ->%list_elem_of_singleton. Z.div_mod_to_equations. lia.
      + intros x ->%list_elem_of_singleton. change (headers s3) with (headers s2). rewrite Hh. by eexists.
      + intros p. change (pages s3) with P. rewrite HP'. split; intros [Hp Hx]; (split; [done|]);
          by apply (one_buffer_pages addr (region_end s3) (fr s3) p).
    - cbn. by left.
    - cbn. constructor.
    - intros x. change (inorder (free_buffers s3)) with (@nil Z). rewrite elem_of_nil. change (buffers s3) with [addr].
      rewrite list_elem_of_singleton. tauto.
    - change (inorder (allocated_buffers s3)) with (@nil Z). change (buffers s3) with [addr]. cbn [List.filter].
      change (fr s3) with (fr s2). by rewrite Hf.
    - intros x h' ->%list_elem_of_singleton Hx Hff. change (headers s3) with (headers s2) in Hx. rewrite Hh in Hx. injection Hx as <-. done.
    - unfold async_total. change (buffers s3) with [addr]. cbn [foldr]. change (async_cost s3) with (async_cost s2).
      rewrite (async_cost_free s2 addr Hf). cbn. split; [Z.div_mod_to_equations; lia|lia].
    - intros pre post E'. change (buffers s3) with [addr] in E'. destruct pre as [|x [|y pre]]; cbn in E'; simplify_eq. done. }
  destruct (land_ok s3 addr Hfl) as (t & Et & Hok); [done|].
  rewrite (insert_first addr _ s3 Hh eq_refl eq_refl) in Et.
  assert (t = rb_insert_color addr (Node Leaf addr Leaf)) as -> by (by injection Et).
  eexists _, _. split; [reflexivity|]. left. split; [done|]. split; [exact Hok|]. done.
Qed.

Lemma lookup_spec s u :
  alloc_ok s →
  let k := u64 (u64 (u - user_buffer_offset s) - 88) in
  binder_buffer_lookup u s = Val s (if decide (k ∈ live s) then Some k else None).
Proof.
  intros Hok k. unfold binder_buffer_lookup. rewrite (bind_val get _ s s s) by done. fold k.
  pose proof (ok_layout _ Hok) as Hl. change sizeof_binder_buffer with 88. fold k.
  rewrite (find_allocated_spec (is_free s) k (allocated_buffers s)); [done| | |].
  - intros x Hx. destruct (proj1 (elem_of_live s x Hok) Hx) as [Hb Hf]. by rewrite (is_free_fr s x Hl Hb), Hf.
  - rewrite (ok_allocated _ Hok). eapply sorted_chain, Hl.
  - by apply live_nodup.
Qed.

Lemma header_op s b (f : binder_buffer → binder_buffer) :
  alloc_ok s → b ∈ live s → (∀ h, b_free (f h) = b_free h ∧ async_transaction (f h) = async_transaction h
    ∧ (data_size (f h), offsets_size (f h), extra_buffers_size (f h)) = (data_size h, offsets_size h, extra_buffers_size h)) →
  ∃ h, headers s !! b = Some h ∧ b_free h = false
    ∧ (h ← the_buffer b; put_buffer b (f h)) s = Val (set_headers (<[b := f h]> (headers s)) s) tt
    ∧ alloc_ok (set_headers (<[b := f h]> (headers s)) s).
Proof.
  intros Hok Hb Hf. destruct (live_header s b Hok Hb) as (h & Hh & Hfree). exists h. split; [done|]. split; [done|].
  destruct (Hf h) as (F1 & F2 & F3). split; [by rewrite (bind_val _ _ _ _ _ (the_buffer_eq b h s Hh))|].
  by apply (ok_header s b h).
Qed.
Lemma fail_spec s b :
  alloc_ok s → b ∈ live s →
  ∃ s' h, headers s !! b = Some h ∧ fail_transaction b s = Val s' tt ∧ alloc_ok s'
    ∧ freed (set_headers (<[b := with_transaction None h]> (headers s)) s) s' b (with_transaction None h)
    ∧ live s' = without b (live s).
Proof.
  intros Hok Hb. destruct (header_op s b (with_transaction None) Hok Hb) as (h & Hh & Hf & E & Hok1); [done|].
  set (s1 := set_headers _ s) in *.
  assert (headers s1 !! b = Some (with_transaction None h)) as Hh1 by apply lookup_insert_eq.
  destruct (free_buf_spec s1 b (with_transaction None h) Hok1) as (s' & E' & Hok' & F).
  { by apply elem_of_live in Hb as [? _]. } { done. } { done. } { done. }
  exists s', h. split; [done|]. split.
  - unfold fail_transaction. rewrite (bind_val _ _ _ _ _ (the_buffer_eq b h s Hh)), (bind_val _ _ _ _ _ (put_buffer_eq _ _ _)). exact E'.
  - split; [done|]. split; [done|]. apply (freed_live s1 s' b _ Hok1 Hok' Hb F).
Qed.
Lemma run_op_spec s op : alloc_ok s → op_ok s op = true → ∃ s' r, run_op op s = Val s' r ∧ alloc_ok s'.
Proof.
  intros Hok Ho. destruct op as [d o e a mm answer stale|b t|b|b|u|]; cbn [op_ok run_op] in *.
  - apply bool_decide_eq_true in Ho as (H1 & H2 & H3).
    destruct (alloc_buf_spec s d o e a mm answer stale Hok H1 H2 H3) as (s' & r & E & Hok' & _). eauto.
  - apply bool_decide_eq_true in Ho.
    destruct (header_op s b (λ h, with_transaction (Some t) (with_user_free false h)) Hok Ho) as (h & _ & _ & E & Hok'); [done|].
    eexists _, None. unfold attach_transaction. rewrite (bind_val _ _ _ _ _ E). done.
  - apply bool_decide_eq_true in Ho. destruct (header_op s b (with_user_free true) Hok Ho) as (h & _ & _ & E & Hok'); [done|].
    eexists _, None. unfold allow_free. rewrite (bind_val _ _ _ _ _ E). done.
  - apply bool_decide_eq_true in Ho. destruct (fail_spec s b Hok Ho) as (s' & h & _ & E & Hok' & _).
    exists s', None. rewrite (bind_val _ _ _ _ _ E). done.
  - unfold bc_free_buffer. pose proof (lookup_spec s u Hok) as El. cbn zeta in El. case_decide as Hk.
    2: { exists s, None. split; [|done]. rewrite (bind_val _ _ s s false); [done|]. by rewrite (bind_val _ _ _ _ _ El). }
    set (b := u64 _) in *. destruct (fail_spec s b Hok Hk) as (s' & h & Hh & E & Hok' & _).
    unfold fail_transaction in E. rewrite (bind_val _ _ _ _ _ (the_buffer_eq b h s Hh)) in E.
    destruct (allow_user_free h) eqn:Eu.
    + exists s', None. split; [|done]. rewrite (bind_val _ _ s s' true); [done|].
      rewrite (bind_val _ _ _ _ _ El), (bind_val _ _ _ _ _ (the_buffer_eq b h s Hh)), Eu. cbn [negb].
      rewrite (bind_val _ _ _ _ _ (put_buffer_eq _ _ _)) in E. rewrite (bind_val _ _ _ _ _ (put_buffer_eq _ _ _)).
      by rewrite (bind_val _ _ _ _ _ E).
    + exists s, None. split; [|done]. rewrite (bind_val _ _ s s false); [done|].
      by rewrite (bind_val _ _ _ _ _ El), (bind_val _ _ _ _ _ (the_buffer_eq b h s Hh)), Eu.
  - exists (set_vma false s), None. split; [done|].
    destruct Hok as [[[[R1 R2 R3 R4] Hhd Hc] A B C] O1 O2 O3 O4 O5 O6 O7]. by split; try done.
Qed.
Lemma reach_alloc_ok s : alloc_reach s → alloc_ok s.
Proof.
  induction 1 as [vs ve addr answer stale s Hm E|s op s' r _ IH Ho E].
  - destruct (mmap_spec vs ve addr answer stale Hm) as (s1 & r & E1 & [(_ & Hok & _)|(-> & _)]); rewrite E in E1;
      [injection E1 as <- <-; done|done].
  - destruct (run_op_spec s op IH Ho) as (s1 & r1 & E1 & Hok). rewrite E in E1. by injection E1 as <- <-.
Qed.

(** C10: no operation of a process's buffers ever meets a state that a BUG_ON forbids: in every history that starts with a
    mapping, the next operation returns, the buffers fill the region without overlap, no two neighbours are free, the two
    trees hold exactly the free and the allocated buffers in their order, the pages present are exactly those that a header
    or an allocated buffer lies on, and the space for asynchronous transactions adds up. *)
Theorem binder_buffers_consistent s op :
  alloc_reach s → op_ok s op = true → alloc_ok s ∧ ∃ s' r, run_op op s = Val s' r ∧ alloc_ok s'.
Proof. intros Hr Ho. apply reach_alloc_ok in Hr. split; [done|]. by apply run_op_spec. Qed.

(** C9: a buffer that is given out was not in use, has room for the request, lies in the region, overlaps no other buffer
    and has all its pages; it is the smallest free one that is large enough; the buffers in use stay as they are.  When none
    is given out nothing changes, and there is a reason: no mapping, sizes that do not fit into 64 bits, no asynchronous
    space, no free buffer that is large enough, or no page. *)
Theorem binder_alloc_gives s d o e is_async mm answer stale :
  alloc_reach s → 0 ≤ d < 18446744073709551616 → 0 ≤ o < 18446744073709551616 → 0 ≤ e < 18446744073709551616 →
  ∃ s' r, binder_alloc_buf d o e is_async mm answer stale s = Val s' r ∧
    match r with
    | None => s' = s ∧ refused s d o e is_async mm answer
    | Some b =>
        let n := up8 d + up8 o + up8 e in
        (b ∉ live s) ∧ (∀ x, x ∈ live s' ↔ x = b ∨ x ∈ live s)
        ∧ n ≤ extent s' b ∧ buffer s ≤ b ∧ b + 88 + extent s' b ≤ region_end s
        ∧ (∀ c, c ∈ live s → b + 88 + extent s' b ≤ c ∨ c + 88 + extent s c ≤ b)
        ∧ (∀ c, c ∈ live s → headers s' !! c = headers s !! c ∧ extent s' c = extent s c)
        ∧ (∀ q, b ≤ q < b + 88 + n → page_floor q ∈ pages s')
        ∧ (∀ x, x ∈ buffers s → fr s x = true → n ≤ extent s x → extent s b ≤ extent s x)
    end.
Proof.
  intros Hok%reach_alloc_ok Hd Ho He.
  destruct (alloc_buf_spec s d o e is_async mm answer stale Hok Hd Ho He) as (s' & r & E & Hok' & Hr). exists s', r.
  split; [exact E|]. destruct r as [b|]; [|exact Hr].
  destruct Hr as (n & h & Hn & Hh & [(pre & ins & post & T) Hle Hbest Hfr]).
  rewrite request_size_exact in Hn by done. case_decide; [|done]. injection Hn as Hn. cbn zeta. rewrite Hn.
  pose proof (took_live s s' pre b ins post _ Hok Hok' T) as Hlive.
  assert (b ∈ live s') as Hb' by (apply Hlive; by left). assert (b ∈ buffers s') as Hbb by (by apply elem_of_live in Hb' as [? _]).
  assert (b ∉ live s) as Hbs. { intros [_ Hf]%elem_of_live; [|done]. pose proof (tk_was _ _ _ _ _ _ _ T). congruence. }
  assert (∀ c, c ∈ live s → c ≠ b ∧ (c ∈ pre ∨ c ∈ post)) as Hpp.
  { intros c Hc. assert (c ≠ b) by congruence. split; [done|]. apply elem_of_live in Hc as [Hc _]; [|done].
    rewrite (tk_list _ _ _ _ _ _ _ T), elem_of_app, elem_of_cons in Hc. tauto. }
  assert (n ≤ extent s' b) as Hcap.
  { destruct (ok_capacity _ Hok' b _ Hbb (tk_header _ _ _ _ _ _ _ T) (tk_taken _ _ _ _ _ _ _ T)) as [Hq Hc].
    cbn [data_size offsets_size extra_buffers_size with_request] in Hq. rewrite request_size_exact in Hq by done.
    rewrite decide_True in Hq by lia. injection Hq as Hq. lia. }
  destruct (buffers_inside s' b Hok' Hbb) as [I1 I2]. rewrite (took_end _ _ _ _ _ _ _ T) in I2.
  assert (buffer s' = buffer s) as Eb by (pose proof (tk_region _ _ _ _ _ _ _ T) as Er; by injection Er).
  split_and!; try done; [lia| | |].
  - intros c Hc. destruct (Hpp c Hc) as [Hne Hin]. rewrite <- (took_extent _ _ _ _ _ _ _ Hok T c Hin).
    apply buffers_disjoint; [done|done| |congruence]. apply (took_elem _ _ _ _ _ _ _ T). tauto.
  - intros c Hc. destruct (Hpp c Hc) as [Hne Hin]. split; [apply (tk_same _ _ _ _ _ _ _ T c Hin)|by apply (took_extent _ _ _ _ _ _ _ Hok T)].
  - intros q Hq. apply (live_pages s' b q Hok' Hb'). lia.
Qed.

Lemma apart_neighbours f pre b post :
  apart f (pre ++ b :: post) → f b = true →
  (∀ a, list.last pre = Some a → f a = false) ∧ (∀ c, head post = Some c → f c = false).
Proof.
  intros Ha Hb. split.
  - intros a [l ->]%last_Some. rewrite <- app_assoc in Ha. apply apart_app in Ha as [_ [Ha _]].
    destruct (f a); [destruct Ha; by split|done].
  - intros c Hc. apply apart_app in Ha as [_ Ha]. destruct post as [|x post]; [done|]. injection Hc as ->. destruct Ha as [Ha _].
    destruct (f c); [destruct Ha; by split|done].
Qed.
(** The same buffers with the same marks: the same pages, the same buffers in use, the same space. *)
Lemma same_layout s s' :
  alloc_ok s → alloc_ok s' → buffers s' = buffers s → (buffer s', buffer_size s') = (buffer s, buffer_size s) →
  (∀ x, x ∈ buffers s → fr s' x = fr s x ∧ async_cost s' x = async_cost s x) →
  pages s' = pages s ∧ live s' = live s ∧ free_async_space s' = free_async_space s.
Proof.
  intros Hok Hok' HL [= E1 E2] Hx.
  assert (region_end s' = region_end s) as Ee by (unfold region_end; congruence). split; [|split].
  - apply set_eq. intros p. rewrite (ly_pages _ (ok_layout _ Hok)), (ly_pages _ (ok_layout _ Hok')), HL, Ee.
    by rewrite (needed_ext (fr s') (fr s)) by (intros x ?; by apply Hx).
  - unfold live. rewrite !ok_allocated, HL by done. apply filter_ext_in. intros x ?. by rewrite (proj1 (Hx x ltac:(done))).
  - destruct (ok_async _ Hok) as [_ A], (ok_async _ Hok') as [_ A']. rewrite E2 in A'.
    assert (async_total s' = async_total s) as E; [|lia]. unfold async_total. rewrite HL. apply (foldr_cost_ext s s').
    intros x ?. by apply Hx.
Qed.

(** C11: freeing undoes allocating: when a transaction that was given a buffer fails, the buffers, their sizes and marks, the
    pages and the space for asynchronous transactions are what they were before, whether the buffer had been cut off a larger
    one or not. *)
Theorem binder_alloc_free_roundtrip s d o e is_async mm answer stale s1 b t :
  alloc_reach s → 0 ≤ d < 18446744073709551616 → 0 ≤ o < 18446744073709551616 → 0 ≤ e < 18446744073709551616 →
  binder_alloc_buf d o e is_async mm answer stale s = Val s1 (Some b) →
  ∃ s2, (attach_transaction b t;; fail_transaction b) s1 = Val s2 tt
    ∧ buffers s2 = buffers s ∧ pages s2 = pages s ∧ live s2 = live s ∧ free_async_space s2 = free_async_space s
    ∧ ∀ x, x ∈ buffers s → fr s2 x = fr s x ∧ extent s2 x = extent s x.
Proof.
  intros Hok%reach_alloc_ok Hd Ho He E.
  destruct (alloc_buf_spec s d o e is_async mm answer stale Hok Hd Ho He) as (s1' & r & E1 & Hok1 & Hr).
  rewrite E in E1. injection E1 as <- <-. destruct Hr as (n & h & Hn & Hh & [(pre & ins & post & T) _ _ _]).
  assert (b ∈ live s1) as Hb by (apply (took_live s s1 pre b ins post _ Hok Hok1 T); by left).
  destruct (header_op s1 b (λ h, with_transaction (Some t) (with_user_free false h)) Hok1 Hb) as (h1 & Hh1 & Hf1 & E2 & Hok2); [done|].
  set (s2 := set_headers _ s1) in *. destruct (fail_spec s2 b Hok2 Hb) as (s3 & h2 & Hh2 & E3 & Hok3 & F & _).
  exists s3. split; [by unfold attach_transaction; rewrite (bind_val _ _ _ _ _ E2)|].
  set (s2' := set_headers _ s2) in F.
  assert (∀ x, headers s2' !! x = if decide (x = b) then Some (with_transaction None h2) else headers s1 !! x) as HH.
  { intros x. cbn. destruct (decide (x = b)) as [->|]; [by rewrite lookup_insert_eq|]. by rewrite !lookup_insert_ne by congruence. }
  assert (∀ x, x ≠ b → fr s2' x = fr s1 x) as Hfr2 by (intros x Hne; unfold fr, is_free; by rewrite HH, decide_False).
  pose proof (tk_list _ _ _ _ _ _ _ T) as HL. pose proof (tk_was _ _ _ _ _ _ _ T) as Hw.
  pose proof (chain_split _ _ _ _ (took_chain0 s s1 pre post ins b _ Hok T)) as (_ & _ & Hbp & Hbq).
  pose proof (ok_apart _ Hok) as Ha. rewrite HL in Ha. destruct (apart_neighbours _ _ _ _ Ha Hw) as [Ha1 Ha2].
  assert (buffers s3 = buffers s) as HL3.
  { rewrite (fd_list _ _ _ _ F pre (ins ++ post) (tk_list' _ _ _ _ _ _ _ T)). unfold freed_list. fold (merged_post (fr s2') (ins ++ post)).
    assert (merged_post (fr s2') (ins ++ post) = post) as ->.
    { destruct (tk_ins _ _ _ _ _ _ _ T) as [->|(N & hN & EN & _ & _ & _ & HN & _)].
      - destruct post as [|c post']; [done|]. cbn. rewrite Hfr2 by (intros ->; apply Hbq; by left).
        rewrite (took_fr_other _ _ _ _ _ _ _ T) by (right; by left). by rewrite Ha2.
      - rewrite EN. cbn. rewrite Hfr2 by lia. rewrite (took_fr_ins _ _ _ _ _ _ _ T); [done|]. rewrite EN. by left. }
    destruct (list.last pre) as [a|] eqn:El; [|apply last_None in El; rewrite HL, El; done].
    assert (a ∈ pre) as Hin by (apply last_Some in El as [l ->]; apply elem_of_app; right; by left).
    rewrite Hfr2 by (by intros ->). rewrite (took_fr_other _ _ _ _ _ _ _ T) by auto. by rewrite Ha1, HL. }
  pose proof (fd_frame _ _ _ _ F) as Ff. injection Ff as _ F2 _ F4. pose proof (tk_region _ _ _ _ _ _ _ T) as Tr. injection Tr as T1 T2.
  assert (∀ x, x ∈ buffers s → x ≠ b → headers s3 !! x = headers s !! x) as Hsame.
  { intros x Hx Hne. rewrite (fd_headers _ _ _ _ F), lookup_insert_ne, HH, decide_False by congruence.
    apply (tk_same _ _ _ _ _ _ _ T). rewrite HL, elem_of_app, elem_of_cons in Hx. tauto. }
  assert (∀ x, x ∈ buffers s → fr s3 x = fr s x ∧ async_cost s3 x = async_cost s x) as Hx3.
  { intros x Hx. destruct (decide (x = b)) as [->|Hne].
    - assert (fr s3 b = true) as Hb3 by (rewrite (freed_fr _ _ _ _ b F); by rewrite decide_True).
      rewrite Hb3, Hw, !async_cost_free by done. done.
    - unfold fr, is_free, async_cost. by rewrite (Hsame x Hx Hne). }
  destruct (same_layout s s3 Hok Hok3 HL3) as (H1 & H2 & H3); [|done|].
  { change (buffer s2') with (buffer s1) in F2. change (buffer_size s2') with (buffer_size s1) in F4. congruence. }
  split_and!; try done. intros x Hx. split; [by apply Hx3|]. unfold extent, region_end. rewrite HL3.
  change (buffer s2') with (buffer s1) in F2. change (buffer_size s2') with (buffer_size s1) in F4. congruence.
Qed.

(** the address a process frees is looked up among the buffers in use: a buffer is found exactly when the address is that
    of its data in the process. *)
Theorem binder_lookup_exact s u b :
  alloc_reach s → 0 ≤ u < 18446744073709551616 →
  binder_buffer_lookup u s = Val s (Some b) ↔ b ∈ live s ∧ u = u64 (b + 88 + user_buffer_offset s).
Proof.
  intros Hok%reach_alloc_ok Hu. pose proof (lookup_spec s u Hok) as E. cbn zeta in E. rewrite E.
  set (k := u64 (u64 (u - user_buffer_offset s) - 88)) in *.
  assert (k = b ↔ u64 b = b ∧ u = u64 (b + 88 + user_buffer_offset s)) as Hk.
  { unfold k. rewrite u64_sub. unfold u64, wrap. change (2 ^ 64) with 18446744073709551616. Z.div_mod_to_equations. lia. }
  assert (∀ x, x ∈ live s → u64 x = x) as Hr.
  { intros x [Hx _]%elem_of_live; [|done]. destruct (buffers_inside s x Hok Hx) as [I1 I2].
    pose proof (ok_layout _ Hok) as Hl. destruct (ly_region _ (ly_shape _ Hl)) as [R1 _ _ R4].
    pose proof (extent_bounds s x (ly_shape _ Hl) Hx). apply u64_small. lia. }
  split.
  - intros Ev. injection Ev as Ev. case_decide as Hd; [|done]. injection Ev as Ev. rewrite Ev in Hd. split; [done|]. by apply Hk.
  - intros [Hb Hu']. assert (k = b) as -> by (apply Hk; auto). by rewrite decide_True.
Qed.

Lemma release_loop fuel s :
  alloc_ok s → (length (live s) ≤ fuel)%nat →
  ∃ s', release_buffers fuel s = Val s' (length (live s)) ∧ alloc_ok s' ∧ live s' = [] ∧ buffer s' = buffer s.
Proof.
  revert s. induction fuel as [|fuel IH]; intros s Hok Hlen; cbn [release_buffers]; rewrite (bind_val get _ s s s) by done;
    rewrite leftmost_inorder; fold (live s); (destruct (live s) as [|b l] eqn:El; cbn [head length]; [by exists s|]); [cbn in Hlen; lia|].
  destruct (fail_spec s b Hok) as (s1 & h & Hh & E & Hok1 & F & Hl1); [rewrite El; by left|].
  assert (live s1 = l) as El1.
  { rewrite Hl1, El. pose proof (live_nodup s Hok) as Hnd. rewrite El in Hnd. apply list.NoDup_cons in Hnd as [Hn _].
    by apply (without_mid [] b l); [by intros ?%elem_of_nil|]. }
  unfold fail_transaction in E. rewrite (bind_val _ _ _ _ _ (the_buffer_eq b h s Hh)) in E.
  rewrite (bind_val _ _ _ _ _ (put_buffer_eq _ _ _)) in E.
  rewrite (bind_val _ _ _ _ _ (the_buffer_eq b h s Hh)), (bind_val _ _ _ _ _ (put_buffer_eq _ _ _)), (bind_val _ _ _ _ _ E).
  destruct (IH s1 Hok1) as (s' & E' & Hok' & Hl' & Hb'); [rewrite El1; cbn in Hlen; lia|]. exists s'.
  rewrite (bind_val _ _ _ _ _ E'), El1. split; [done|]. split; [done|]. split; [done|]. rewrite Hb'.
  pose proof (fd_frame _ _ _ _ F) as Ff. by injection Ff.
Qed.
(** With nothing in use there is one free buffer, and one page. *)
Lemma idle_region s : alloc_ok s → live s = [] → buffers s = [buffer s] ∧ pages s = {[buffer s]}.
Proof.
  intros Hok Hl. pose proof (ly_head _ (ly_shape _ (ok_layout _ Hok))) as Hh. pose proof (ok_apart _ Hok) as Ha.
  assert (∀ x, x ∈ buffers s → fr s x = true) as Hf.
  { intros x Hx. destruct (fr s x) eqn:E; [done|]. assert (x ∈ live s) as Hin by (by apply elem_of_live). rewrite Hl in Hin. by apply elem_of_nil in Hin. }
  assert (buffers s = [buffer s]) as HL.
  { destruct (buffers s) as [|x [|y l]]; [done| |]; injection Hh as ->; [done|]. destruct Ha as [Ha _]. destruct Ha.
    split; apply Hf; [by left|right; by left]. }
  split; [done|]. apply set_eq. intros p. rewrite (ly_pages _ (ok_layout _ Hok)), elem_of_singleton, HL.
  destruct (rg_aligned _ (ly_region _ (ly_shape _ (ok_layout _ Hok)))) as [A1 _].
  assert (fr s (buffer s) = true) as Hfb by (apply Hf; rewrite HL; by left).
  split; [intros [Hp Hn]; by apply (one_buffer_pages (buffer s) (region_end s) (fr s) p)|]. intros ->. split; [done|].
  by apply (one_buffer_pages (buffer s) (region_end s) (fr s) (buffer s)).
Qed.

(** C39: when a process goes away the loop over its buffers ends after as many rounds as buffers are in use, none of them
    meeting a BUG_ON; then one page is left, the one of the first header, and it is freed too. *)
Theorem binder_release_frees_all s :
  alloc_reach s →
  ∃ s', binder_release_buffers s = Val s' (length (live s), 1%nat) ∧ live s' = [] ∧ pages s' = ∅ ∧ buffers s' = [buffer s].
Proof.
  intros Hok%reach_alloc_ok. unfold binder_release_buffers. rewrite (bind_val get _ s s s) by done.
  destruct (release_loop (length (inorder (allocated_buffers s))) s Hok) as (s1 & E & Hok1 & Hl1 & Hb1); [done|].
  rewrite (bind_val _ _ _ _ _ E), (bind_val get _ s1 s1 s1) by done. destruct (idle_region s1 Hok1 Hl1) as [HL HP].
  exists (set_pages ∅ s1). rewrite (bind_val (put _) _ s1 (set_pages ∅ s1) tt) by done. rewrite HP, size_singleton.
  split; [done|]. split; [done|]. split; [done|]. cbn. by rewrite HL, Hb1.
Qed.
End histories.

(** C40: the checks of a request's sizes refuse exactly those whose rounded sum does not fit into 64 bits; for the others the
    computed size is that sum. *)
Theorem binder_request_bounds d o e :
  0 ≤ d < 18446744073709551616 → 0 ≤ o < 18446744073709551616 → 0 ≤ e < 18446744073709551616 →
  request_size d o e = if decide (up8 d + up8 o + up8 e < 18446744073709551616) then Some (up8 d + up8 o + up8 e) else None.
Proof. apply request_size_exact. Qed.
Lemma binder_request_bounds_witness :
  request_size 9 1 0 = Some 24 ∧ request_size 18446744073709551615 8 0 = None ∧ request_size 18446744073709551600 8 8 = None.
Proof. rewrite !binder_request_bounds by lia. by vm_compute. Defined.

(** ** An example *)

(** A region of 16 pages in which three requests were granted and the second one was freed. *)
Definition no_header : binder_buffer := MkBuffer false false false None 0 0 0.
Definition granted : Z → page_answer := λ _, PageOk.
Fixpoint run_all (l : list alloc_op) (s : binder_proc) : option binder_proc :=
  match l with
  | [] => Some s
  | op :: l' => if op_ok s op then match run_op op s with Val s' _ => run_all l' s' | _ => None end else None
  end.
Lemma run_all_alloc_reach l s s' : alloc_reach s → run_all l s = Some s' → alloc_reach s'.
Proof.
  revert s. induction l as [|op l IH]; intros s Hr; cbn [run_all]; [by intros [= <-]|].
  destruct (op_ok s op) eqn:Ho; [|done]. destruct (run_op op s) as [s1 r| |] eqn:E; try done. apply IH. by eapply reach_op.
Qed.
Definition mapped_proc : binder_proc := Eval vm_compute in
  match binder_mmap true 65536 131072 false (Some 1048576) true granted no_header proc0 with Val s _ => s | _ => proc0 end.
Lemma mapped_reach : alloc_reach mapped_proc.
Proof. apply (reach_mmap 65536 131072 1048576 granted no_header); by vm_compute. Qed.
Definition used_ops : list alloc_op :=
  [OAlloc 100 8 0 false (Mm true) granted no_header; OAlloc 5000 0 0 true (Mm true) granted no_header;
   OAlloc 4 0 0 false (Mm true) granted no_header; OFail 1048776].
Definition used_proc : binder_proc := Eval vm_compute in default mapped_proc (run_all used_ops mapped_proc).
Lemma used_reach : alloc_reach used_proc.
Proof. apply (run_all_alloc_reach used_ops mapped_proc); [apply mapped_reach|]. by vm_compute. Qed.
Definition given_proc : binder_proc := Eval vm_compute in
  match binder_alloc_buf 4000 0 0 true (Mm true) granted no_header used_proc with Val s _ => s | _ => proc0 end.

Lemma binder_buffers_consistent_witness :
  alloc_ok used_proc ∧ ∃ s' r, run_op (OUserFree 65624) used_proc = Val s' r ∧ alloc_ok s'.
Proof. exact (binder_buffers_consistent used_proc (OUserFree 65624) used_reach eq_refl). Defined.
Lemma binder_alloc_gives_witness :
  binder_alloc_buf 4000 0 0 true (Mm true) granted no_header used_proc = Val given_proc (Some 1048776)
  ∧ ∃ s', binder_alloc_buf 4000 0 0 true (Mm true) granted no_header used_proc = Val s' (Some 1048776)
      ∧ 4000 ≤ extent s' 1048776 ∧ ∀ x, x ∈ live s' ↔ x = 1048776 ∨ x ∈ live used_proc.
Proof.
  assert (binder_alloc_buf 4000 0 0 true (Mm true) granted no_header used_proc = Val given_proc (Some 1048776)) as E by (by vm_compute).
  split; [exact E|].
  destruct (binder_alloc_gives used_proc 4000 0 0 true (Mm true) granted no_header used_reach) as (s' & r & E' & Hr); [lia..|].
  rewrite E in E'. injection E' as <- <-. cbn beta iota zeta in Hr. destruct Hr as (_ & Hl & Hn & _). exists given_proc.
  split; [exact E|]. split; [exact Hn|exact Hl].
Defined.
Lemma binder_alloc_free_roundtrip_witness :
  ∃ s2, (attach_transaction 1048776 1;; fail_transaction 1048776) given_proc = Val s2 tt
    ∧ buffers s2 = [1048576; 1048776; 1053864; 1053960] ∧ pages s2 = pages used_proc.
Proof.
  destruct (binder_alloc_free_roundtrip used_proc 4000 0 0 true (Mm true) granted no_header given_proc 1048776 1 used_reach)
    as (s2 & E & HL & HP & _); [lia..|by vm_compute|]. exists s2. split; [exact E|]. by rewrite HL.
Defined.
Lemma binder_lookup_exact_witness :
  binder_buffer_lookup 65624 used_proc = Val used_proc (Some 1048576) ∧ (1048576 ∈ live used_proc).
Proof.
  assert (binder_buffer_lookup 65624 used_proc = Val used_proc (Some 1048576)) as E by (by vm_compute). split; [exact E|].
  by apply (binder_lookup_exact used_proc 65624 1048576 used_reach ltac:(lia)).
Defined.
Lemma binder_release_frees_all_witness :
  ∃ s', binder_release_buffers used_proc = Val s' (2%nat, 1%nat) ∧ pages s' = ∅.
Proof.
  destruct (binder_release_frees_all used_proc used_reach) as (s' & E & _ & HP & _). exists s'. split; [exact E|exact HP].
Defined.

(** A request without memory for all its pages leaves none of them behind. *)
Lemma alloc_without_pages :
  binder_alloc_buf 20000 0 0 false (Mm true) (λ p, if decide (p = 1056768) then NoPage else PageOk) no_header used_proc
  = Val used_proc None.
Proof. by vm_compute. Qed.
