(* ===== verification/BinderRefs.v ===== *)
(** * Objects and references of the binder driver

    binder/binder.c: an object that a process offers to others is a node; a process that was given one has a
    reference with a number of its own, the descriptor.  The driver counts what keeps a node: strong and weak
    references of processes, messages that mention it, requests to its owner that are not answered.  The owner learns
    through its work queues when the first reference appears and the last goes; who asked for it learns when the owner
    dies.  This file models the nodes, the references, the death notifications and the work queues of both, the
    commands and transactions that change them, and the end of threads and processes.

    Objects are entries of tables by address, so that what is freed cannot be read: reading it is undefined, and so is
    linking a work item that is linked already.  The kernel's allocator answers with an address or has no memory.  Of
    the work queues only the items of nodes and death notifications are modelled, in one list of pairs of a queue and
    an item, in which every queue appears in its own order; the buffers of transactions are modelled by the objects
    in them. *)

From S2P Require Import Prelude Kernel Trees.

(** ** Data *)

Inductive work : Type := WNode (n : Z) | WDeath (d : Z).
Inductive queue : Type := ProcTodo (p : Z) | ThreadTodo (p t : Z) | Delivered (p : Z).
#[global] Instance work_eq_dec : EqDecision work.
Proof. solve_decision. Defined.
#[global] Instance queue_eq_dec : EqDecision queue.
Proof. solve_decision. Defined.
Definition queue_proc (q : queue) : Z := match q with ProcTodo p | ThreadTodo p _ | Delivered p => p end.

(** The type of a death notification's work; a new one has none. *)
Inductive death_type : Type :=
  | NO_WORK
  | BINDER_WORK_DEAD_BINDER
  | BINDER_WORK_DEAD_BINDER_AND_CLEAR
  | BINDER_WORK_CLEAR_DEATH_NOTIFICATION.
#[global] Instance death_type_eq_dec : EqDecision death_type.
Proof. solve_decision. Defined.

Record binder_node : Type := MkNode {
  n_proc : option Z;
  n_refs : list Z;
  internal_strong_refs : Z;
  local_weak_refs : Z;
  local_strong_refs : Z;
  n_ptr : Z;
  n_cookie : Z;
  has_strong_ref : bool;
  pending_strong_ref : bool;
  has_weak_ref : bool;
  pending_weak_ref : bool;
  accept_fds : bool;
  min_priority : Z;
}.
Record binder_ref : Type := MkRef {
  r_proc : Z;
  r_node : Z;
  r_desc : Z;
  r_strong : Z;
  r_weak : Z;
  r_death : option Z;
}.
Record binder_ref_death : Type := MkDeath { d_type : death_type; d_cookie : Z }.
Record binder_process : Type := MkProcess {
  p_context : Z;
  p_nodes : tree;
  refs_by_desc : tree;
  refs_by_node : tree;
}.
Record binder_context : Type := MkContext {
  binder_context_mgr_node : option Z;
  binder_context_mgr_uid : option Z;
}.
Record world : Type := MkWorld {
  procs : gmap Z binder_process;
  contexts : gmap Z binder_context;
  nodes : gmap Z binder_node;
  refs : gmap Z binder_ref;
  deaths : gmap Z binder_ref_death;
  dead_nodes : list Z;
  todo : list (queue * work);
}.

Definition set_procs (x : gmap Z binder_process) (s : world) : world :=
  MkWorld x (contexts s) (nodes s) (refs s) (deaths s) (dead_nodes s) (todo s).
Definition set_contexts (x : gmap Z binder_context) (s : world) : world :=
  MkWorld (procs s) x (nodes s) (refs s) (deaths s) (dead_nodes s) (todo s).
Definition set_nodes (x : gmap Z binder_node) (s : world) : world :=
  MkWorld (procs s) (contexts s) x (refs s) (deaths s) (dead_nodes s) (todo s).
Definition set_refs (x : gmap Z binder_ref) (s : world) : world :=
  MkWorld (procs s) (contexts s) (nodes s) x (deaths s) (dead_nodes s) (todo s).
Definition set_deaths (x : gmap Z binder_ref_death) (s : world) : world :=
  MkWorld (procs s) (contexts s) (nodes s) (refs s) x (dead_nodes s) (todo s).
Definition set_dead_nodes (x : list Z) (s : world) : world :=
  MkWorld (procs s) (contexts s) (nodes s) (refs s) (deaths s) x (todo s).
Definition set_todo (x : list (queue * work)) (s : world) : world :=
  MkWorld (procs s) (contexts s) (nodes s) (refs s) (deaths s) (dead_nodes s) x.

Definition with_owner (x : option Z) (nd : binder_node) : binder_node :=
  MkNode x (n_refs nd) (internal_strong_refs nd) (local_weak_refs nd) (local_strong_refs nd) (n_ptr nd) (n_cookie nd)
    (has_strong_ref nd) (pending_strong_ref nd) (has_weak_ref nd) (pending_weak_ref nd) (accept_fds nd) (min_priority nd).
Definition with_refs (x : list Z) (nd : binder_node) : binder_node :=
  MkNode (n_proc nd) x (internal_strong_refs nd) (local_weak_refs nd) (local_strong_refs nd) (n_ptr nd) (n_cookie nd)
    (has_strong_ref nd) (pending_strong_ref nd) (has_weak_ref nd) (pending_weak_ref nd) (accept_fds nd) (min_priority nd).
Definition with_counts (i w l : Z) (nd : binder_node) : binder_node :=
  MkNode (n_proc nd) (n_refs nd) i w l (n_ptr nd) (n_cookie nd)
    (has_strong_ref nd) (pending_strong_ref nd) (has_weak_ref nd) (pending_weak_ref nd) (accept_fds nd) (min_priority nd).
Definition with_flags (hs ps hw pw : bool) (nd : binder_node) : binder_node :=
  MkNode (n_proc nd) (n_refs nd) (internal_strong_refs nd) (local_weak_refs nd) (local_strong_refs nd) (n_ptr nd)
    (n_cookie nd) hs ps hw pw (accept_fds nd) (min_priority nd).
Definition with_profile (fds : bool) (prio : Z) (nd : binder_node) : binder_node :=
  MkNode (n_proc nd) (n_refs nd) (internal_strong_refs nd) (local_weak_refs nd) (local_strong_refs nd) (n_ptr nd)
    (n_cookie nd) (has_strong_ref nd) (pending_strong_ref nd) (has_weak_ref nd) (pending_weak_ref nd) fds prio.

Definition add_internal (k : Z) (nd : binder_node) : binder_node :=
  with_counts (i32 (internal_strong_refs nd + k)) (local_weak_refs nd) (local_strong_refs nd) nd.
Definition add_weak (k : Z) (nd : binder_node) : binder_node :=
  with_counts (internal_strong_refs nd) (i32 (local_weak_refs nd + k)) (local_strong_refs nd) nd.
Definition add_strong (k : Z) (nd : binder_node) : binder_node :=
  with_counts (internal_strong_refs nd) (local_weak_refs nd) (i32 (local_strong_refs nd + k)) nd.

Definition set_strong (k : Z) (r : binder_ref) : binder_ref :=
  MkRef (r_proc r) (r_node r) (r_desc r) k (r_weak r) (r_death r).
Definition set_weak (k : Z) (r : binder_ref) : binder_ref :=
  MkRef (r_proc r) (r_node r) (r_desc r) (r_strong r) k (r_death r).
Definition set_death (d : option Z) (r : binder_ref) : binder_ref :=
  MkRef (r_proc r) (r_node r) (r_desc r) (r_strong r) (r_weak r) d.

Definition set_p_nodes (t : tree) (P : binder_process) : binder_process :=
  MkProcess (p_context P) t (refs_by_desc P) (refs_by_node P).
Definition set_p_refs (td tn : tree) (P : binder_process) : binder_process :=
  MkProcess (p_context P) (p_nodes P) td tn.

(** Reading an object that is not there is undefined. *)
Definition deref {A} (x : option A) : M world A := match x with Some a => mret a | None => undefined end.
Definition the_node (n : Z) : M world binder_node := λ s, deref (nodes s !! n) s.
Definition the_ref (r : Z) : M world binder_ref := λ s, deref (refs s !! r) s.
Definition the_death (d : Z) : M world binder_ref_death := λ s, deref (deaths s !! d) s.
Definition the_proc (p : Z) : M world binder_process := λ s, deref (procs s !! p) s.
Definition the_context (c : Z) : M world binder_context := λ s, deref (contexts s !! c) s.
Definition put_node (n : Z) (x : binder_node) : M world unit := modify (λ s, set_nodes (<[n := x]> (nodes s)) s).
Definition put_ref (r : Z) (x : binder_ref) : M world unit := modify (λ s, set_refs (<[r := x]> (refs s)) s).
Definition put_death (d : Z) (x : binder_ref_death) : M world unit := modify (λ s, set_deaths (<[d := x]> (deaths s)) s).
Definition put_proc (p : Z) (x : binder_process) : M world unit := modify (λ s, set_procs (<[p := x]> (procs s)) s).
Definition kfree_node (n : Z) : M world unit := modify (λ s, set_nodes (delete n (nodes s)) s).
Definition kfree_ref (r : Z) : M world unit := modify (λ s, set_refs (delete r (refs s)) s).
Definition kfree_death (d : Z) : M world unit := modify (λ s, set_deaths (delete d (deaths s)) s).

(** ** Work queues *)

Definition linked (w : work) (l : list (queue * work)) : bool := existsb (λ e, bool_decide (e.2 = w)) l.
Definition unlink (w : work) (l : list (queue * work)) : list (queue * work) :=
  List.filter (λ e, negb (bool_decide (e.2 = w))) l.
Definition list_empty (w : work) : M world bool := λ s, Val s (negb (linked w (todo s))).
Definition list_del_init (w : work) : M world unit := modify (λ s, set_todo (unlink w (todo s)) s).
Definition list_add_tail (w : work) (q : queue) : M world unit := λ s,
  if linked w (todo s) then Ub else Val (set_todo (todo s ++ [(q, w)]) s) tt.
(** [list_move]: to the front. *)
Definition list_move (w : work) (q : queue) : M world unit := modify (λ s, set_todo ((q, w) :: unlink w (todo s)) s).
Definition first_of (q : queue) (l : list (queue * work)) : option work :=
  snd <$> List.find (λ e, bool_decide (e.1 = q)) l.

(** ** Nodes *)

Section driver.
Context `{RbTree}.

Definition node_key (s : world) (n : Z) : option Z := n_ptr <$> nodes s !! n.
Definition desc_key (s : world) (r : Z) : option Z := r_desc <$> refs s !! r.
Definition ref_node_key (s : world) (r : Z) : option Z := r_node <$> refs s !! r.

Definition binder_get_node (p ptr : Z) : M world (option Z) :=
  P ← the_proc p;
  s ← get;
  deref (find_key (node_key s) ptr (p_nodes P)).

Definition new_node (p ptr cookie : Z) : binder_node := MkNode (Some p) [] 0 0 0 ptr cookie false false false false false 0.
Definition binder_new_node (p ptr cookie : Z) (kzalloc : option Z) : M world (option Z) :=
  P ← the_proc p;
  s ← get;
  place ← deref (link_key (node_key s) ptr (p_nodes P));
  match place, kzalloc with
  | inl link, Some n =>
      put_node n (new_node p ptr cookie);;
      put_proc p (set_p_nodes (rb_insert_color n (link n)) P);;
      mret (Some n)
  | _, _ => mret None
  end.

(** Whether the node is the context manager of its process's context. *)
Definition is_context_mgr (n : Z) (nd : binder_node) : M world bool :=
  match n_proc nd with
  | None => mret false
  | Some p =>
      P ← the_proc p;
      C ← the_context (p_context P);
      mret (bool_decide (binder_context_mgr_node C = Some n))
  end.

Definition binder_inc_node (n : Z) (strong internal : bool) (target_list : option queue) : M world Z :=
  nd ← the_node n;
  if strong then
    refused ← (if internal && negb (bool_decide (is_Some target_list)) && (internal_strong_refs nd =? 0)
               then mgr ← is_context_mgr n nd; mret (negb (mgr && has_strong_ref nd))
               else mret false);
    if (refused : bool) then mret (- EINVAL)
    else
      put_node n (if internal then add_internal 1 nd else add_strong 1 nd);;
      match target_list with
      | Some q => if has_strong_ref nd then mret 0 else list_del_init (WNode n);; list_add_tail (WNode n) q;; mret 0
      | None => mret 0
      end
  else
    (if internal then mret tt else put_node n (add_weak 1 nd));;
    off ← list_empty (WNode n);
    if negb (has_weak_ref nd) && off then
      match target_list with
      | None => mret (- EINVAL)
      | Some q => list_add_tail (WNode n) q;; mret 0
      end
    else mret 0.

Definition hlist_del_dead (n : Z) : M world unit := λ s,
  if bool_decide (n ∈ dead_nodes s) then Val (set_dead_nodes (without n (dead_nodes s)) s) tt else Ub.

(** The second half of [binder_dec_node]: nothing of the kind that was dropped is left. *)
Definition dec_node_tail (n : Z) : M world Z :=
  nd ← the_node n;
  match n_proc nd with
  | Some p =>
      if has_strong_ref nd || has_weak_ref nd then
        off ← list_empty (WNode n);
        if (off : bool) then list_add_tail (WNode n) (ProcTodo p);; mret 0 else mret 0
      else if bool_decide (n_refs nd = []) && (local_strong_refs nd =? 0) && (local_weak_refs nd =? 0) then
        list_del_init (WNode n);;
        P ← the_proc p;
        put_proc p (set_p_nodes (rb_erase n (p_nodes P)) P);;
        kfree_node n;; mret 0
      else mret 0
  | None =>
      if bool_decide (n_refs nd = []) && (local_strong_refs nd =? 0) && (local_weak_refs nd =? 0) then
        list_del_init (WNode n);;
        hlist_del_dead n;;
        kfree_node n;; mret 0
      else mret 0
  end.

Definition binder_dec_node (n : Z) (strong internal : bool) : M world Z :=
  nd ← the_node n;
  if strong then
    let nd' := if internal then add_internal (-1) nd else add_strong (-1) nd in
    put_node n nd';;
    if negb (local_strong_refs nd' =? 0) || negb (internal_strong_refs nd' =? 0) then mret 0 else dec_node_tail n
  else
    let nd' := if internal then nd else add_weak (-1) nd in
    put_node n nd';;
    if negb (local_weak_refs nd' =? 0) || negb (bool_decide (n_refs nd' = [])) then mret 0 else dec_node_tail n.

(** ** References *)

Definition binder_get_ref (p desc : Z) (need_strong_ref : bool) : M world (option Z) :=
  P ← the_proc p;
  s ← get;
  found ← deref (find_key (desc_key s) desc (refs_by_desc P));
  match found with
  | None => mret None
  | Some r => ref ← the_ref r; mret (if need_strong_ref && (r_strong ref =? 0) then None else Some r)
  end.

(** The descriptor of a new reference: the walk through the references in the order of their descriptors. *)
Fixpoint free_desc (desc_of : Z → option Z) (l : list Z) (desc : Z) : option Z :=
  match l with
  | [] => Some desc
  | r :: l' =>
      match desc_of r with
      | None => None
      | Some d => if desc <? d then Some desc else free_desc desc_of l' (u32 (d + 1))
      end
  end.

Definition binder_get_ref_for_node (p n : Z) (kzalloc : option Z) : M world (option Z) :=
  P ← the_proc p;
  C ← the_context (p_context P);
  s ← get;
  place ← deref (link_key (ref_node_key s) n (refs_by_node P));
  match place, kzalloc with
  | inr r, _ => mret (Some r)
  | inl _, None => mret None
  | inl link, Some r =>
      desc ← deref (free_desc (desc_key s) (inorder (refs_by_desc P))
                      (if bool_decide (binder_context_mgr_node C = Some n) then 0 else 1));
      place' ← deref (link_key (desc_key s) desc (refs_by_desc P));
      match place' with
      | inr _ => undefined
      | inl link' =>
          put_ref r (MkRef p n desc 0 0 None);;
          put_proc p (set_p_refs (rb_insert_color r (link' r)) (rb_insert_color r (link r)) P);;
          nd ← the_node n;
          put_node n (with_refs (r :: n_refs nd) nd);;
          mret (Some r)
      end
  end.

Definition binder_delete_ref (r : Z) : M world unit :=
  ref ← the_ref r;
  P ← the_proc (r_proc ref);
  put_proc (r_proc ref) (set_p_refs (rb_erase r (refs_by_desc P)) (rb_erase r (refs_by_node P)) P);;
  (if r_strong ref =? 0 then mret 0 else binder_dec_node (r_node ref) true true);;
  nd ← the_node (r_node ref);
  put_node (r_node ref) (with_refs (without r (n_refs nd)) nd);;
  binder_dec_node (r_node ref) false true;;
  match r_death ref with
  | Some d => list_del_init (WDeath d);; the_death d;; kfree_death d
  | None => mret tt
  end;;
  kfree_ref r.

Definition binder_inc_ref (r : Z) (strong : bool) (target_list : option queue) : M world Z :=
  ref ← the_ref r;
  if strong then
    ret ← (if r_strong ref =? 0 then binder_inc_node (r_node ref) true true target_list else mret 0);
    if negb (ret =? 0) then mret ret
    else put_ref r (set_strong (i32 (r_strong ref + 1)) ref);; mret 0
  else
    ret ← (if r_weak ref =? 0 then binder_inc_node (r_node ref) false true target_list else mret 0);
    if negb (ret =? 0) then mret ret
    else put_ref r (set_weak (i32 (r_weak ref + 1)) ref);; mret 0.

Definition binder_dec_ref (r : Z) (strong : bool) : M world Z :=
  ref ← the_ref r;
  if strong then
    if r_strong ref =? 0 then mret (- EINVAL)
    else
      let ref' := set_strong (i32 (r_strong ref - 1)) ref in
      put_ref r ref';;
      (if r_strong ref' =? 0 then binder_dec_node (r_node ref') true true else mret 0);;
      if (r_strong ref' =? 0) && (r_weak ref' =? 0) then binder_delete_ref r;; mret 0 else mret 0
  else
    if r_weak ref =? 0 then mret (- EINVAL)
    else
      let ref' := set_weak (i32 (r_weak ref - 1)) ref in
      put_ref r ref';;
      if (r_strong ref' =? 0) && (r_weak ref' =? 0) then binder_delete_ref r;; mret 0 else mret 0.

(** ** Commands of a process about its references and nodes

    With [debug] the driver prints what it did (BINDER_DEBUG_USER_REFS, which is off at first). *)

Inductive ref_command : Type := BC_INCREFS | BC_ACQUIRE | BC_RELEASE | BC_DECREFS.
#[global] Instance ref_command_eq_dec : EqDecision ref_command.
Proof. solve_decision. Defined.

Definition binder_ref_command (p : Z) (cmd : ref_command) (target : Z) (debug : bool) (kzalloc : option Z) : M world unit :=
  P ← the_proc p;
  C ← the_context (p_context P);
  found ← match binder_context_mgr_node C with
          | Some mgr =>
              if (target =? 0) && bool_decide (cmd = BC_INCREFS ∨ cmd = BC_ACQUIRE) then
                r ← binder_get_ref_for_node p mgr kzalloc;
                match r with Some r => the_ref r;; mret (Some r) | None => undefined end
              else binder_get_ref p target (bool_decide (cmd = BC_ACQUIRE ∨ cmd = BC_RELEASE))
          | None => binder_get_ref p target (bool_decide (cmd = BC_ACQUIRE ∨ cmd = BC_RELEASE))
          end;
  match found with
  | None => mret tt
  | Some r =>
      match cmd with
      | BC_INCREFS => binder_inc_ref r false None
      | BC_ACQUIRE => binder_inc_ref r true None
      | BC_RELEASE => binder_dec_ref r true
      | BC_DECREFS => binder_dec_ref r false
      end;;
      if debug then ref ← the_ref r; the_node (r_node ref);; mret tt else mret tt
  end.

(** BC_INCREFS_DONE ([strong] false) and BC_ACQUIRE_DONE. *)
Definition binder_done_command (p : Z) (strong : bool) (node_ptr cookie : Z) (debug : bool) : M world unit :=
  found ← binder_get_node p node_ptr;
  match found with
  | None => mret tt
  | Some n =>
      nd ← the_node n;
      if negb (cookie =? n_cookie nd) then mret tt
      else if negb (if strong then pending_strong_ref nd else pending_weak_ref nd) then mret tt
      else
        put_node n (if strong
                    then with_flags (has_strong_ref nd) false (has_weak_ref nd) (pending_weak_ref nd) nd
                    else with_flags (has_strong_ref nd) (pending_strong_ref nd) (has_weak_ref nd) false nd);;
        binder_dec_node n strong false;;
        if debug then the_node n;; mret tt else mret tt
  end.

Definition BINDER_LOOPER_STATE_REGISTERED : Z := 1.
Definition BINDER_LOOPER_STATE_ENTERED : Z := 2.
(** Where a notification goes: to the thread if it serves the process's requests, else to the process. *)
Definition notify_queue (p t looper : Z) : queue :=
  if Z.land looper (Z.lor BINDER_LOOPER_STATE_REGISTERED BINDER_LOOPER_STATE_ENTERED) =? 0
  then ProcTodo p else ThreadTodo p t.

(** The result says whether the thread's next read starts with BR_ERROR. *)
Definition binder_request_death (p t looper target cookie : Z) (kzalloc : option Z) : M world bool :=
  found ← binder_get_ref p target false;
  match found with
  | None => mret false
  | Some r =>
      ref ← the_ref r;
      match r_death ref, kzalloc with
      | Some _, _ => mret false
      | None, None => mret true
      | None, Some d =>
          put_death d (MkDeath NO_WORK cookie);;
          put_ref r (set_death (Some d) ref);;
          nd ← the_node (r_node ref);
          match n_proc nd with
          | Some _ => mret false
          | None =>
              put_death d (MkDeath BINDER_WORK_DEAD_BINDER cookie);;
              list_add_tail (WDeath d) (notify_queue p t looper);; mret false
          end
      end
  end.

Definition binder_clear_death (p t looper target cookie : Z) : M world unit :=
  found ← binder_get_ref p target false;
  match found with
  | None => mret tt
  | Some r =>
      ref ← the_ref r;
      match r_death ref with
      | None => mret tt
      | Some d =>
          death ← the_death d;
          if negb (d_cookie death =? cookie) then mret tt
          else
            put_ref r (set_death None ref);;
            off ← list_empty (WDeath d);
            if (off : bool) then
              put_death d (MkDeath BINDER_WORK_CLEAR_DEATH_NOTIFICATION (d_cookie death));;
              list_add_tail (WDeath d) (notify_queue p t looper)
            else if bool_decide (d_type death = BINDER_WORK_DEAD_BINDER)
            then put_death d (MkDeath BINDER_WORK_DEAD_BINDER_AND_CLEAR (d_cookie death))
            else undefined
      end
  end.

(** The delivered notifications of a process, in order. *)
Definition delivered (p : Z) (l : list (queue * work)) : list Z :=
  omap (λ e, match e with (Delivered p', WDeath d) => if decide (p' = p) then Some d else None | _ => None end) l.
Fixpoint find_cookie (ds : list Z) (cookie : Z) : M world (option Z) :=
  match ds with
  | [] => mret None
  | d :: ds' => death ← the_death d; if d_cookie death =? cookie then mret (Some d) else find_cookie ds' cookie
  end.
Definition binder_dead_binder_done (p t looper cookie : Z) : M world unit :=
  s ← get;
  found ← find_cookie (delivered p (todo s)) cookie;
  match found with
  | None => mret tt
  | Some d =>
      list_del_init (WDeath d);;
      death ← the_death d;
      if bool_decide (d_type death = BINDER_WORK_DEAD_BINDER_AND_CLEAR) then
        put_death d (MkDeath BINDER_WORK_CLEAR_DEATH_NOTIFICATION (d_cookie death));;
        list_add_tail (WDeath d) (notify_queue p t looper)
      else mret tt
  end.

(** ** What a thread reads *)

Inductive br : Type :=
  | BR_NOOP
  | BR_INCREFS (ptr cookie : Z)
  | BR_ACQUIRE (ptr cookie : Z)
  | BR_RELEASE (ptr cookie : Z)
  | BR_DECREFS (ptr cookie : Z)
  | BR_DEAD_BINDER (cookie : Z)
  | BR_CLEAR_DEATH_NOTIFICATION_DONE (cookie : Z)
  | Fault.

Definition node_strong (nd : binder_node) : bool :=
  negb (internal_strong_refs nd =? 0) || negb (local_strong_refs nd =? 0).
Definition node_weak (nd : binder_node) : bool :=
  negb (bool_decide (n_refs nd = [])) || negb (local_weak_refs nd =? 0) || node_strong nd.

(** BINDER_WORK_NODE.  [fault]: the thread's buffer cannot be written. *)
Definition read_node_work (p n : Z) (fault : bool) : M world br :=
  nd ← the_node n;
  let strong := node_strong nd in
  let weak := node_weak nd in
  let tell (nd' : binder_node) (cmd : Z → Z → br) : M world br :=
    put_node n nd';; mret (if fault then Fault else cmd (n_ptr nd) (n_cookie nd)) in
  if weak && negb (has_weak_ref nd)
  then tell (add_weak 1 (with_flags (has_strong_ref nd) (pending_strong_ref nd) true true nd)) BR_INCREFS
  else if strong && negb (has_strong_ref nd)
  then tell (add_strong 1 (with_flags true true (has_weak_ref nd) (pending_weak_ref nd) nd)) BR_ACQUIRE
  else if negb strong && has_strong_ref nd
  then tell (with_flags false (pending_strong_ref nd) (has_weak_ref nd) (pending_weak_ref nd) nd) BR_RELEASE
  else if negb weak && has_weak_ref nd
  then tell (with_flags (has_strong_ref nd) (pending_strong_ref nd) false (pending_weak_ref nd) nd) BR_DECREFS
  else
    list_del_init (WNode n);;
    if negb weak && negb strong then
      P ← the_proc p;
      put_proc p (set_p_nodes (rb_erase n (p_nodes P)) P);;
      kfree_node n;; mret BR_NOOP
    else mret BR_NOOP.

(** BINDER_WORK_DEAD_BINDER, BINDER_WORK_DEAD_BINDER_AND_CLEAR and BINDER_WORK_CLEAR_DEATH_NOTIFICATION. *)
Definition read_death_work (p d : Z) (fault : bool) : M world br :=
  death ← the_death d;
  if fault then mret Fault
  else if bool_decide (d_type death = BINDER_WORK_CLEAR_DEATH_NOTIFICATION) then
    list_del_init (WDeath d);; kfree_death d;; mret (BR_CLEAR_DEATH_NOTIFICATION_DONE (d_cookie death))
  else
    list_move (WDeath d) (Delivered p);; mret (BR_DEAD_BINDER (d_cookie death)).

(** One item: the thread's own work comes first; the process's only if the thread waits for it. *)
Definition binder_read_work (p t : Z) (wait_for_proc_work fault : bool) : M world (option br) :=
  s ← get;
  let w := match first_of (ThreadTodo p t) (todo s) with
           | Some w => Some w
           | None => if wait_for_proc_work then first_of (ProcTodo p) (todo s) else None
           end in
  match w with
  | None => mret None
  | Some (WNode n) => b ← read_node_work p n fault; mret (Some b)
  | Some (WDeath d) => b ← read_death_work p d fault; mret (Some b)
  end.

(** ** Objects in transactions *)

Inductive object_type : Type := BINDER_TYPE_BINDER | BINDER_TYPE_WEAK_BINDER | BINDER_TYPE_HANDLE | BINDER_TYPE_WEAK_HANDLE.
#[global] Instance object_type_eq_dec : EqDecision object_type.
Proof. solve_decision. Defined.
(** [o_value]: the union of the object's address in its owner and the descriptor. *)
Record flat_binder_object : Type := MkObject {
  o_type : object_type;
  o_flags : Z;
  o_value : Z;
  o_cookie : Z;
}.
(** What the kernel answers while an object is translated: the memory for a node and for a reference, and whether the
    security module refuses the transfer; the memory depends on what is in use then. *)
Record answers : Type := MkAnswers { a_node : option Z; a_ref : option Z; a_denied : bool }.

Definition FLAT_BINDER_FLAG_PRIORITY_MASK : Z := 255.
Definition FLAT_BINDER_FLAG_ACCEPTS_FDS : Z := 256.

Definition translated : Type := Z + flat_binder_object.
Definition get_or_new_node (fp : flat_binder_object) (p : Z) (kzalloc : option Z) : M world (option Z) :=
  found ← binder_get_node p (o_value fp);
  match found with
  | Some n => mret (Some n)
  | None =>
      new ← binder_new_node p (o_value fp) (o_cookie fp) kzalloc;
      match new with
      | None => mret None
      | Some n =>
          nd ← the_node n;
          put_node n (with_profile (negb (Z.land (o_flags fp) FLAT_BINDER_FLAG_ACCEPTS_FDS =? 0))
                        (Z.land (o_flags fp) FLAT_BINDER_FLAG_PRIORITY_MASK) nd);;
          mret (Some n)
      end
  end.
Definition binder_translate_binder (fp : flat_binder_object) (p t target_proc : Z) (a : answers) : M world translated :=
  node ← get_or_new_node fp p (a_node a);
  match node with
  | None => mret (inl (- ENOMEM))
  | Some n =>
      nd ← the_node n;
      if negb (o_cookie fp =? n_cookie nd) then mret (inl (- EINVAL))
      else if a_denied a then mret (inl (- EPERM))
      else
        found ← binder_get_ref_for_node target_proc n (a_ref a);
        match found with
        | None => mret (inl (- EINVAL))
        | Some r =>
            ref ← the_ref r;
            let type := if bool_decide (o_type fp = BINDER_TYPE_BINDER) then BINDER_TYPE_HANDLE else BINDER_TYPE_WEAK_HANDLE in
            binder_inc_ref r (bool_decide (type = BINDER_TYPE_HANDLE)) (Some (ThreadTodo p t));;
            mret (inr (MkObject type (o_flags fp) (r_desc ref) 0))
        end
  end.

Definition binder_translate_handle (fp : flat_binder_object) (p target_proc : Z) (a : answers) : M world translated :=
  found ← binder_get_ref p (u32 (o_value fp)) (bool_decide (o_type fp = BINDER_TYPE_HANDLE));
  match found with
  | None => mret (inl (- EINVAL))
  | Some r =>
      if a_denied a then mret (inl (- EPERM))
      else
        ref ← the_ref r;
        nd ← the_node (r_node ref);
        if bool_decide (n_proc nd = Some target_proc) then
          let type := if bool_decide (o_type fp = BINDER_TYPE_HANDLE) then BINDER_TYPE_BINDER else BINDER_TYPE_WEAK_BINDER in
          binder_inc_node (r_node ref) (bool_decide (type = BINDER_TYPE_BINDER)) false None;;
          mret (inr (MkObject type (o_flags fp) (n_ptr nd) (n_cookie nd)))
        else
          found' ← binder_get_ref_for_node target_proc (r_node ref) (a_ref a);
          match found' with
          | None => mret (inl (- EINVAL))
          | Some r' =>
              ref' ← the_ref r';
              binder_inc_ref r' (bool_decide (o_type fp = BINDER_TYPE_HANDLE)) None;;
              mret (inr (MkObject (o_type fp) (o_flags fp) (r_desc ref') 0))
          end
  end.

Definition binder_translate (fp : flat_binder_object) (p t target_proc : Z) (a : answers) : M world translated :=
  match o_type fp with
  | BINDER_TYPE_BINDER | BINDER_TYPE_WEAK_BINDER => binder_translate_binder fp p t target_proc a
  | BINDER_TYPE_HANDLE | BINDER_TYPE_WEAK_HANDLE => binder_translate_handle fp p target_proc a
  end.

(** The loop over the objects of a message, up to the first that fails: whether all went well, and the objects as the
    receiver gets them. *)
Fixpoint translate_objects (p t target_proc : Z) (l : list (flat_binder_object * (world → answers))) (done : list flat_binder_object)
    : M world (bool * list flat_binder_object) :=
  match l with
  | [] => mret (true, done)
  | (fp, a) :: l' =>
      s ← get;
      res ← binder_translate fp p t target_proc (a s);
      match res with
      | inl _ => mret (false, done)
      | inr fp' => translate_objects p t target_proc l' (done ++ [fp'])
      end
  end.

Definition release_object (p : Z) (fp : flat_binder_object) : M world unit :=
  match o_type fp with
  | BINDER_TYPE_BINDER | BINDER_TYPE_WEAK_BINDER =>
      found ← binder_get_node p (o_value fp);
      match found with
      | None => mret tt
      | Some n => binder_dec_node n (bool_decide (o_type fp = BINDER_TYPE_BINDER)) false;; mret tt
      end
  | BINDER_TYPE_HANDLE | BINDER_TYPE_WEAK_HANDLE =>
      found ← binder_get_ref p (u32 (o_value fp)) (bool_decide (o_type fp = BINDER_TYPE_HANDLE));
      match found with
      | None => mret tt
      | Some r => binder_dec_ref r (bool_decide (o_type fp = BINDER_TYPE_HANDLE));; mret tt
      end
  end.

Definition binder_transaction_buffer_release (p : Z) (target_node : option Z) (objects : list flat_binder_object) : M world unit :=
  match target_node with Some n => binder_dec_node n true false;; mret tt | None => mret tt end;;
  for_each objects (release_object p).

(** ** The context manager *)

Definition put_context (c : Z) (x : binder_context) : M world unit := modify (λ s, set_contexts (<[c := x]> (contexts s)) s).

(** [security]: what the security module returns. *)
Definition binder_ioctl_set_ctx_mgr (p euid security : Z) (kzalloc : option Z) : M world Z :=
  P ← the_proc p;
  C ← the_context (p_context P);
  if bool_decide (is_Some (binder_context_mgr_node C)) then mret (- EBUSY)
  else if security <? 0 then mret security
  else if bool_decide (is_Some (binder_context_mgr_uid C) ∧ binder_context_mgr_uid C ≠ Some euid) then mret (- EPERM)
  else
    put_context (p_context P) (MkContext None (Some euid));;
    node ← binder_new_node p 0 0 kzalloc;
    match node with
    | None => mret (- ENOMEM)
    | Some n =>
        put_context (p_context P) (MkContext (Some n) (Some euid));;
        nd ← the_node n;
        put_node n (with_flags true (pending_strong_ref nd) true (pending_weak_ref nd) (add_strong 1 (add_weak 1 nd)));;
        mret 0
    end.

(** ** The end of threads and processes *)

Fixpoint binder_release_work (fuel : nat) (q : queue) : M world unit :=
  s ← get;
  match first_of q (todo s) with
  | None => mret tt
  | Some w =>
      match fuel with
      | O => undefined
      | S fuel' =>
          list_del_init w;;
          match w with
          | WNode _ => mret tt
          | WDeath d =>
              death ← the_death d;
              match d_type death with
              | BINDER_WORK_DEAD_BINDER_AND_CLEAR | BINDER_WORK_CLEAR_DEATH_NOTIFICATION => kfree_death d
              | _ => mret tt
              end
          end;;
          binder_release_work fuel' q
      end
  end.
Definition release_work (q : queue) : M world unit := λ s, binder_release_work (length (todo s)) q s.
Definition binder_free_thread (p t : Z) : M world unit := release_work (ThreadTodo p t).

(** The references of a node that dies. *)
Definition notify_death (r : Z) : M world unit :=
  ref ← the_ref r;
  match r_death ref with
  | None => mret tt
  | Some d =>
      death ← the_death d;
      off ← list_empty (WDeath d);
      if (off : bool) then
        put_death d (MkDeath BINDER_WORK_DEAD_BINDER (d_cookie death));;
        list_add_tail (WDeath d) (ProcTodo (r_proc ref))
      else undefined
  end.
Definition binder_node_release (n : Z) : M world unit :=
  list_del_init (WNode n);;
  nd ← the_node n;
  if bool_decide (n_refs nd = []) then kfree_node n
  else
    put_node n (with_owner None (with_counts (internal_strong_refs nd) 0 0 nd));;
    modify (λ s, set_dead_nodes (n :: dead_nodes s) s);;
    for_each (n_refs nd) notify_death.

Fixpoint release_nodes (fuel : nat) (p : Z) : M world unit :=
  P ← the_proc p;
  match leftmost (p_nodes P) with
  | None => mret tt
  | Some n =>
      match fuel with
      | O => undefined
      | S fuel' =>
          put_proc p (set_p_nodes (rb_erase n (p_nodes P)) P);;
          binder_node_release n;;
          release_nodes fuel' p
      end
  end.
Fixpoint release_refs (fuel : nat) (p : Z) : M world unit :=
  P ← the_proc p;
  match leftmost (refs_by_desc P) with
  | None => mret tt
  | Some r =>
      match fuel with
      | O => undefined
      | S fuel' => binder_delete_ref r;; release_refs fuel' p
      end
  end.

Definition threads_of (p : Z) (l : list (queue * work)) : list Z :=
  omap (λ e, match e.1 with ThreadTodo p' t => if decide (p' = p) then Some t else None | _ => None end) l.
Definition forget_context_mgr (p : Z) : M world unit :=
  P ← the_proc p;
  C ← the_context (p_context P);
  match binder_context_mgr_node C with
  | None => mret tt
  | Some n =>
      nd ← the_node n;
      if bool_decide (n_proc nd = Some p) then put_context (p_context P) (MkContext None (binder_context_mgr_uid C)) else mret tt
  end.
Definition release_process (p : Z) : M world unit :=
  forget_context_mgr p;;
  s ← get;
  for_each (threads_of p (todo s)) (binder_free_thread p);;
  P ← the_proc p;
  release_nodes (length (inorder (p_nodes P))) p;;
  P ← the_proc p;
  release_refs (length (inorder (refs_by_desc P))) p;;
  release_work (ProcTodo p);;
  release_work (Delivered p);;
  modify (λ s, set_procs (delete p (procs s)) s).

Definition binder_open (p c : Z) : M world unit := put_proc p (MkProcess c Leaf Leaf Leaf).

(** ** The system: the driver's objects and the buffers that mention them *)

Record held_buffer : Type := MkHeld {
  h_proc : Z;
  h_addr : Z;
  h_target : option Z;
  h_objects : list flat_binder_object;
}.
Record system : Type := MkSystem { sys_world : world; held : list held_buffer }.
Definition on_world {A} (m : M world A) : M system A := zoom sys_world (λ w s, MkSystem w (held s)) m.

(** A transaction is sent to a handle; a reply to the process that waits for it. *)
Inductive destination : Type := ToHandle (handle : Z) | ReplyTo (q : Z).
Inductive reply : Type := BR_TRANSACTION_COMPLETE | BR_FAILED_REPLY | BR_DEAD_REPLY.

Definition find_target (p : Z) (d : destination) : M world (reply + option Z * Z) :=
  match d with
  | ReplyTo q => mret (inr (None, q))
  | ToHandle h =>
      node ← (if h =? 0 then
                P ← the_proc p;
                C ← the_context (p_context P);
                mret (match binder_context_mgr_node C with Some n => inr n | None => inl BR_DEAD_REPLY end)
              else
                found ← binder_get_ref p h true;
                match found with
                | None => mret (inl BR_FAILED_REPLY)
                | Some r => ref ← the_ref r; mret (inr (r_node ref))
                end);
      match node with
      | inl e => mret (inl e)
      | inr n =>
          nd ← the_node n;
          mret (match n_proc nd with Some q => inr (Some n, q) | None => inl BR_DEAD_REPLY end)
      end
  end.

(** [buffer]: where the receiver's buffer is, if the kernel has the memory and nothing else refuses the transaction
    before it is needed; [copied]: whether the data and the offsets could be read from the sender. *)
Definition binder_transaction (p t : Z) (d : destination) (buffer : option Z) (copied : bool)
    (objects : list (flat_binder_object * (world → answers))) : M system reply :=
  found ← on_world (find_target p d);
  match found, buffer with
  | inl e, _ => mret e
  | inr _, None => mret BR_FAILED_REPLY
  | inr (target_node, target_proc), Some b =>
      on_world (match target_node with Some n => binder_inc_node n true false None | None => mret 0 end);;
      res ← on_world (if copied then translate_objects p t target_proc objects [] else mret (false, []));
      if (res.1 : bool) then
        modify (λ s, MkSystem (sys_world s) (MkHeld target_proc b target_node res.2 :: held s));; mret BR_TRANSACTION_COMPLETE
      else on_world (binder_transaction_buffer_release target_proc target_node res.2);; mret BR_FAILED_REPLY
  end.

Fixpoint take_held (p b : Z) (l : list held_buffer) : option (held_buffer * list held_buffer) :=
  match l with
  | [] => None
  | h :: l' =>
      if decide (h_proc h = p ∧ h_addr h = b) then Some (h, l')
      else match take_held p b l' with Some (h', rest) => Some (h', h :: rest) | None => None end
  end.
(** BC_FREE_BUFFER, what it does to the objects in the buffer. *)
Definition release_buffer (p b : Z) : M system bool :=
  s ← get;
  match take_held p b (held s) with
  | None => mret false
  | Some (h, rest) =>
      put (MkSystem (sys_world s) rest);;
      on_world (binder_transaction_buffer_release p (h_target h) (h_objects h));; mret true
  end.

Definition binder_deferred_release (p : Z) : M system unit :=
  on_world (release_process p);;
  modify (λ s, MkSystem (sys_world s) (List.filter (λ h, negb (bool_decide (h_proc h = p))) (held s))).
End driver.
