(* ===== verification/BinderRefsInv.v ===== *)
(** * The invariant of the binder driver's objects

    What holds between the commands of [BinderRefs]: the trees and lists of processes, nodes and references agree
    ([tables]), the counts of a node are what keeps it ([counts]), the owner of a node has been told of its references
    or will be ([told]), and every death notification has one owner ([works]); and that the driver's functions keep it,
    which includes that they return. *)

From S2P Require Import Prelude Kernel Trees BinderRefs.

(** ** What keeps a node *)

(** A buffer of process [p] that was sent to node [n], or that holds a local object of [p]. *)
Inductive hold : Type := OnNode (p n : Z) | OnPtr (p ptr : Z) (strong : bool).
Definition on (n : Z) (nd : binder_node) (strong : bool) (h : hold) : bool :=
  match h with
  | OnNode _ m => strong && (m =? n)
  | OnPtr p a b => Bool.eqb b strong && bool_decide (n_proc nd = Some p) && (n_ptr nd =? a)
  end.
Definition held_on (n : Z) (nd : binder_node) (strong : bool) (L : list hold) : Z := Z.of_nat (length (List.filter (on n nd strong) L)).
Definition strong_of (s : world) (r : Z) : bool := match refs s !! r with Some x => negb (r_strong x =? 0) | None => false end.
Definition strong_count (s : world) (l : list Z) : Z := Z.of_nat (length (List.filter (strong_of s) l)).
Definition manages (s : world) (n : Z) : bool := bool_decide (map_Exists (λ _ C, binder_context_mgr_node C = Some n) (contexts s)).

(** How far the driver is with a change: a reference is new and nobody has been told; something went and the owner is
    not told yet; the same, and only the last reference is in question. *)
Inductive pass : Type := Settled | Rising (n : Z) | Falling (n : Z) | Leaving (n : Z).
(** The state of affairs beside the driver's: what the buffers hold, the nodes whose work went with a thread, how far
    the driver is, and the process that is being released. *)
Record view : Type := MkView { v_holds : list hold; v_lost : gset Z; v_pass : pass; v_dying : option Z }.
Definition set_holds (L : list hold) (V : view) : view := MkView L (v_lost V) (v_pass V) (v_dying V).
Definition set_pass (x : pass) (V : view) : view := MkView (v_holds V) (v_lost V) x (v_dying V).

Definition node_id (s : world) (n : Z) : option (option Z * Z * list Z) := (λ nd, (n_proc nd, n_ptr nd, n_refs nd)) <$> nodes s !! n.
Definition ref_id (s : world) (r : Z) : option (Z * Z * Z) := (λ x, (r_proc x, r_node x, r_desc x)) <$> refs s !! r.

Record tables (s : world) : Prop := {
  tb_context : ∀ p P, procs s !! p = Some P → is_Some (contexts s !! p_context P);
  tb_mgr : ∀ c C n, contexts s !! c = Some C → binder_context_mgr_node C = Some n →
    ∃ p P a l, node_id s n = Some (Some p, a, l) ∧ procs s !! p = Some P ∧ p_context P = c;
  tb_nodes : ∀ p P, procs s !! p = Some P → increasing (node_key s) (inorder (p_nodes P)) ∧
    ∀ n, n ∈ inorder (p_nodes P) ↔ ∃ a l, node_id s n = Some (Some p, a, l);
  tb_by_desc : ∀ p P, procs s !! p = Some P → increasing (desc_key s) (inorder (refs_by_desc P)) ∧
    ∀ r, r ∈ inorder (refs_by_desc P) ↔ ∃ n d, ref_id s r = Some (p, n, d);
  tb_by_node : ∀ p P, procs s !! p = Some P → increasing (ref_node_key s) (inorder (refs_by_node P)) ∧
    ∀ r, r ∈ inorder (refs_by_node P) ↔ ∃ n d, ref_id s r = Some (p, n, d);
  tb_owner : ∀ n p a l, node_id s n = Some (Some p, a, l) → is_Some (procs s !! p);
  tb_dead : NoDup (dead_nodes s) ∧ ∀ n, n ∈ dead_nodes s ↔ ∃ a l, node_id s n = Some (None, a, l);
  tb_refs : ∀ n o a l, node_id s n = Some (o, a, l) → NoDup l ∧ ∀ r, r ∈ l ↔ ∃ p d, ref_id s r = Some (p, n, d);
  tb_ref : ∀ r p n d, ref_id s r = Some (p, n, d) → is_Some (procs s !! p) ∧ is_Some (node_id s n) ∧ 0 ≤ d < 4294967296;
}.

(** The counts of a node whose process lives. *)
Record local_counts (s : world) (L : list hold) (n : Z) (nd : binder_node) : Prop := {
  lc_strong : local_strong_refs nd = Z.b2z (pending_strong_ref nd) + Z.b2z (manages s n) + held_on n nd true L;
  lc_weak : local_weak_refs nd = Z.b2z (pending_weak_ref nd) + Z.b2z (manages s n) + held_on n nd false L;
  lc_asked_strong : pending_strong_ref nd = true → has_strong_ref nd = true;
  lc_asked_weak : pending_weak_ref nd = true → has_weak_ref nd = true;
}.
Definition node_counts (s : world) (V : view) (n : Z) (nd : binder_node) : Prop :=
  internal_strong_refs nd = strong_count s (n_refs nd) ∧
  match n_proc nd with
  | Some p => v_dying V = Some p ∨ local_counts s (v_holds V) n nd
  | None => local_strong_refs nd = 0 ∧ local_weak_refs nd = 0 ∧ (n_refs nd ≠ [] ∨ v_pass V = Falling n ∨ v_pass V = Leaving n)
  end.
Definition hold_ok (s : world) (h : hold) : Prop :=
  match h with
  | OnNode p n => ∃ a l, node_id s n = Some (Some p, a, l)
  | OnPtr p a _ => ∃ n l, node_id s n = Some (Some p, a, l)
  end.
Record counts (s : world) (V : view) : Prop := {
  ct_nodes : ∀ n nd, nodes s !! n = Some nd → node_counts s V n nd;
  ct_refs : ∀ r x, refs s !! r = Some x → 0 ≤ r_strong x < 2147483648 ∧ 0 ≤ r_weak x < 2147483648;
  ct_holds : ∀ h, h ∈ v_holds V → hold_ok s h;
  ct_room : Z.of_nat (length (v_holds V)) + 3 < 2147483648 ∧ Z.of_nat (size (refs s)) < 2147483648;
}.

(** What the owner of a node knows. *)
Definition informed (x : pass) (n : Z) (nd : binder_node) : Prop :=
  ((node_strong nd = true → has_strong_ref nd = true ∧ has_weak_ref nd = true) ∧
   (x = Rising n ∨ (node_weak nd = true → has_weak_ref nd = true))) ∧
  (x = Falling n ∨
   (has_strong_ref nd = true → node_strong nd = true) ∧ (x = Leaving n ∨ (has_weak_ref nd = true → node_weak nd = true))).
Definition told (s : world) (V : view) : Prop := ∀ n nd p,
  nodes s !! n = Some nd → n_proc nd = Some p → v_dying V ≠ Some p →
  linked (WNode n) (todo s) = true ∨ n ∈ v_lost V ∨ informed (v_pass V) n nd.

Definition is_delivered (q : queue) : bool := match q with Delivered _ => true | _ => false end.
Record works (s : world) : Prop := {
  wk_nodup : NoDup (todo s).*2;
  wk_nodes : ∀ q n, (q, WNode n) ∈ todo s → is_delivered q = false ∧ ∃ a l, node_id s n = Some (Some (queue_proc q), a, l);
  wk_deaths : ∀ q d, (q, WDeath d) ∈ todo s → is_Some (procs s !! queue_proc q) ∧ is_Some (deaths s !! d);
  wk_owned : ∀ r x d, refs s !! r = Some x → r_death x = Some d →
    ∃ y, deaths s !! d = Some y ∧
      ∀ q, (q, WDeath d) ∈ todo s →
        queue_proc q = r_proc x ∧ d_type y = BINDER_WORK_DEAD_BINDER ∧ ∃ a l, node_id s (r_node x) = Some (None, a, l);
  wk_owner : ∀ r1 r2 x1 x2 d, refs s !! r1 = Some x1 → refs s !! r2 = Some x2 → r_death x1 = Some d → r_death x2 = Some d → r1 = r2;
  wk_loose : ∀ d y, deaths s !! d = Some y → (∀ r x, refs s !! r = Some x → r_death x ≠ Some d) →
    ∃ q, (q, WDeath d) ∈ todo s ∧
      (d_type y = BINDER_WORK_CLEAR_DEATH_NOTIFICATION ∧ is_delivered q = false ∨ d_type y = BINDER_WORK_DEAD_BINDER_AND_CLEAR);
}.

Record core_ok (s : world) (V : view) : Prop := {
  co_tables : tables s;
  co_counts : counts s V;
  co_told : told s V;
  co_works : works s;
}.

(** ** Work lists *)

Lemma linked_true w l : linked w l = true ↔ ∃ q, (q, w) ∈ l.
Proof.
  unfold linked. rewrite existsb_exists. split.
  - intros ([q w'] & Hin & Hw). apply bool_decide_eq_true in Hw. cbn in Hw. subst. exists q. by apply list_elem_of_In.
  - intros [q Hq]. exists (q, w). split; [by apply list_elem_of_In|]. by apply bool_decide_eq_true.
Qed.
Lemma linked_false w l : linked w l = false ↔ ∀ q, (q, w) ∉ l.
Proof.
  rewrite <- not_true_iff_false, linked_true. split; [intros H q Hq; apply H; eauto|]. intros H [q Hq]. by apply (H q).
Qed.
Lemma linked_app w l k : linked w (l ++ k) = linked w l || linked w k.
Proof. apply existsb_app. Qed.
Lemma linked_add q w l : linked w (l ++ [(q, w)]) = true.
Proof. apply linked_true. exists q. apply elem_of_app. right. by left. Qed.
Lemma elem_of_unlink e w l : e ∈ unlink w l ↔ e ∈ l ∧ e.2 ≠ w.
Proof.
  unfold unlink. rewrite !list_elem_of_In, filter_In, negb_true_iff, bool_decide_eq_false. done.
Qed.
Lemma linked_unlink w w' l : linked w (unlink w' l) = linked w l && negb (bool_decide (w = w')).
Proof.
  apply eq_true_iff_eq. rewrite andb_true_iff, negb_true_iff, bool_decide_eq_false, !linked_true.
  setoid_rewrite elem_of_unlink. cbn. naive_solver.
Qed.
Lemma unlink_off w l : linked w l = false → unlink w l = l.
Proof.
  intros Hl. unfold unlink. induction l as [|[q w'] l IH]; [done|]. cbn in *.
  apply orb_false_iff in Hl as [H1 H2]. rewrite H1. cbn. by rewrite IH.
Qed.
Lemma unlink_app w l k : unlink w (l ++ k) = unlink w l ++ unlink w k.
Proof. apply List.filter_app. Qed.
Lemma unlink_nodup w l : NoDup l.*2 → NoDup (unlink w l).*2.
Proof.
  unfold unlink. induction l as [|[q w'] l IH]; cbn; [done|]. intros [Hn Hl]%list.NoDup_cons.
  destruct (negb (bool_decide (w' = w))); [|by apply IH]. cbn. apply list.NoDup_cons. split; [|by apply IH].
  intros (e & He & Hin)%list_elem_of_fmap. apply Hn. apply list_elem_of_fmap. exists e. split; [done|].
  by apply elem_of_unlink in Hin as [? _].
Qed.
Lemma in_todo_works q w (l : list (queue * work)) : (q, w) ∈ l → w ∈ l.*2.
Proof. intros Hin. apply list_elem_of_fmap. by exists (q, w). Qed.
Lemma add_nodup (q : queue) w l : linked w l = false → NoDup l.*2 → NoDup (l ++ [(q, w)]).*2.
Proof.
  intros Hl Hn. rewrite fmap_app. cbn. apply list.NoDup_app. split; [done|]. split; [|apply list.NoDup_singleton].
  intros x ([q' w'] & -> & Hin)%list_elem_of_fmap [Ew|[]%elem_of_nil]%elem_of_cons. cbn in Ew. subst.
  by eapply (proj1 (linked_false w l) Hl).
Qed.
Lemma todo_fun (l : list (queue * work)) q q' w : NoDup l.*2 → (q, w) ∈ l → (q', w) ∈ l → q = q'.
Proof.
  induction l as [|[q0 w0] l IH]; cbn; [by intros _ ?%elem_of_nil|]. intros [Hn Hl]%list.NoDup_cons.
  intros [E|H1]%elem_of_cons [E'|H2]%elem_of_cons; [congruence| | |by apply IH];
    [injection E as -> ->|injection E' as -> ->]; exfalso; apply Hn; by eapply in_todo_works.
Qed.
Lemma first_of_some q l w : first_of q l = Some w → (q, w) ∈ l.
Proof.
  unfold first_of. destruct (List.find _ l) as [[q' w']|] eqn:E; [|done]. cbn. intros [= ->].
  apply find_some in E as [Hin Hq]. apply bool_decide_eq_true in Hq. cbn in Hq. subst. by apply list_elem_of_In.
Qed.
Lemma first_of_none q l : first_of q l = None → ∀ w, (q, w) ∉ l.
Proof.
  unfold first_of. destruct (List.find _ l) as [[q' w']|] eqn:E; [done|]. intros _ w Hin.
  eapply find_none in E; [|by apply list_elem_of_In]. cbn in E. rewrite bool_decide_eq_true_2 in E; done.
Qed.

(** ** What the invariant depends on *)

Lemma node_id_some s n nd : nodes s !! n = Some nd → node_id s n = Some (n_proc nd, n_ptr nd, n_refs nd).
Proof. unfold node_id. by intros ->. Qed.
Lemma node_id_inv s n o a l : node_id s n = Some (o, a, l) → ∃ nd, nodes s !! n = Some nd ∧ n_proc nd = o ∧ n_ptr nd = a ∧ n_refs nd = l.
Proof. unfold node_id. destruct (nodes s !! n) as [nd|]; [|done]. cbn. intros [= <- <- <-]. eauto. Qed.
Lemma ref_id_some s r x : refs s !! r = Some x → ref_id s r = Some (r_proc x, r_node x, r_desc x).
Proof. unfold ref_id. by intros ->. Qed.
Lemma ref_id_inv s r p n d : ref_id s r = Some (p, n, d) → ∃ x, refs s !! r = Some x ∧ r_proc x = p ∧ r_node x = n ∧ r_desc x = d.
Proof. unfold ref_id. destruct (refs s !! r) as [x|]; [|done]. cbn. intros [= <- <- <-]. eauto. Qed.
Lemma node_key_id s n : node_key s n = (λ i, i.1.2) <$> node_id s n.
Proof. unfold node_key, node_id. by destruct (nodes s !! n). Qed.
Lemma desc_key_id s r : desc_key s r = snd <$> ref_id s r.
Proof. unfold desc_key, ref_id. by destruct (refs s !! r). Qed.
Lemma ref_node_key_id s r : ref_node_key s r = (λ i, i.1.2) <$> ref_id s r.
Proof. unfold ref_node_key, ref_id. by destruct (refs s !! r). Qed.

Lemma tables_ext s s' :
  procs s' = procs s → contexts s' = contexts s → dead_nodes s' = dead_nodes s →
  (∀ n, node_id s' n = node_id s n) → (∀ r, ref_id s' r = ref_id s r) → tables s → tables s'.
Proof.
  intros Ep Ec Ed En Er [H1 H2 H3 H4 H5 H6 H7 H8 H9].
  constructor; rewrite ?Ep, ?Ec, ?Ed.
  - done.
  - intros c C n. rewrite En. apply H2.
  - intros p P HP. destruct (H3 p P HP) as [Hi Hm]. split; [|intros n; rewrite En; apply Hm].
    eapply increasing_ext; [|done]. intros x _. by rewrite !node_key_id, En.
  - intros p P HP. destruct (H4 p P HP) as [Hi Hm]. split; [|intros r; rewrite Er; apply Hm].
    eapply increasing_ext; [|done]. intros x _. by rewrite !desc_key_id, Er.
  - intros p P HP. destruct (H5 p P HP) as [Hi Hm]. split; [|intros r; rewrite Er; apply Hm].
    eapply increasing_ext; [|done]. intros x _. by rewrite !ref_node_key_id, Er.
  - intros n p a l. rewrite En. apply H6.
  - destruct H7 as [Hn Hm]. split; [done|]. intros n. rewrite En. apply Hm.
  - intros n o a l. rewrite En. intros Hn. destruct (H8 n o a l Hn) as [Hd Hm]. split; [done|].
    intros r. rewrite Er. apply Hm.
  - intros r p n d. rewrite Er, En. apply H9.
Qed.

(** What [works] reads of a reference. *)
Definition ref_work (s : world) (r : Z) : option (Z * Z * option Z) := (λ x, (r_proc x, r_node x, r_death x)) <$> refs s !! r.
Lemma ref_work_some s r x : refs s !! r = Some x → ref_work s r = Some (r_proc x, r_node x, r_death x).
Proof. unfold ref_work. by intros ->. Qed.
Lemma ref_work_same s s' r x : ref_work s' r = ref_work s r → refs s' !! r = Some x →
  ∃ x0, refs s !! r = Some x0 ∧ r_proc x0 = r_proc x ∧ r_node x0 = r_node x ∧ r_death x0 = r_death x.
Proof. unfold ref_work. intros E Ex. rewrite Ex in E. destruct (refs s !! r) as [x0|]; [|done]. injection E as -> -> ->. eauto. Qed.
Lemma works_ext s s' :
  todo s' = todo s → procs s' = procs s → deaths s' = deaths s → (∀ n, node_id s' n = node_id s n) →
  (∀ r, ref_work s' r = ref_work s r) → works s → works s'.
Proof.
  intros Et Ep Ed En Er [H1 H2 H3 H4 H5 H6].
  constructor; rewrite ?Et, ?Ep, ?Ed.
  - done.
  - intros q n. rewrite En. apply H2.
  - done.
  - intros r x d Hx. destruct (ref_work_same _ _ _ _ (Er r) Hx) as (x0 & Hx0 & E1 & E2 & E3). rewrite <- E3. intros Hd.
    destruct (H4 r x0 d Hx0 Hd) as (y & Hy & Hq). exists y. split; [done|]. intros q Hin. rewrite <- E1, <- E2, En. by apply Hq.
  - intros r1 r2 x1 x2 d G1 G2. destruct (ref_work_same _ _ _ _ (Er r1) G1) as (y1 & F1 & _ & _ & <-).
    destruct (ref_work_same _ _ _ _ (Er r2) G2) as (y2 & F2 & _ & _ & <-). by apply (H5 r1 r2 y1 y2 d).
  - intros d y Hy Hf. apply H6; [done|]. intros r x Hx. destruct (ref_work_same s' s r x (eq_sym (Er r)) Hx) as (x0 & Hx0 & _ & _ & <-).
    by apply (Hf r x0).
Qed.

(** The passes that concern only node [n]. *)
Definition pass_on (x : pass) (n : Z) : Prop :=
  match x with Settled => True | Rising m | Falling m | Leaving m => m = n end.
Lemma informed_other x n m nd : pass_on x n → m ≠ n → informed x m nd ↔ informed Settled m nd.
Proof.
  unfold informed. intros Hx Hm.
  assert (∀ f, f ∈ [Rising; Falling; Leaving] → x ≠ f m) as Hn.
  { intros f Hf ->. apply elem_of_cons in Hf as [->|Hf]; [cbn in Hx; congruence|].
    apply elem_of_cons in Hf as [->|Hf]; [cbn in Hx; congruence|]. apply list_elem_of_singleton in Hf as ->. cbn in Hx; congruence. }
  pose proof (Hn Rising ltac:(set_solver)). pose proof (Hn Falling ltac:(set_solver)). pose proof (Hn Leaving ltac:(set_solver)).
  split; intros ([? [?|?]] & [?|[? [?|?]]]); try done; split; (split; [done|]) || right; auto.
Qed.
Lemma informed_swap x x' n m nd : pass_on x n → pass_on x' n → m ≠ n → informed x m nd → informed x' m nd.
Proof. intros H1 H2 Hm Hi. eapply informed_other; [done..|]. by eapply informed_other in Hi. Qed.

Lemma counts_other s V V' n m nd :
  pass_on (v_pass V) n → m ≠ n → v_dying V' = v_dying V → (∀ sg, held_on m nd sg (v_holds V') = held_on m nd sg (v_holds V)) →
  node_counts s V m nd → node_counts s V' m nd.
Proof.
  unfold node_counts. intros Hx Hm Ed Eh [Hi Hp]. split; [done|]. destruct (n_proc nd) as [p|].
  - rewrite Ed. destruct Hp as [?|[]]; [by left|]. right. constructor; rewrite ?Eh; done.
  - destruct Hp as (H1 & H2 & H3). split; [done|]. split; [done|]. left. destruct H3 as [?|[E|E]]; [done| |];
      rewrite E in Hx; cbn in Hx; congruence.
Qed.
Lemma node_counts_ext s s' V n nd : refs s' = refs s → contexts s' = contexts s → node_counts s V n nd → node_counts s' V n nd.
Proof.
  intros Er Ec. unfold node_counts. destruct (n_proc nd) as [p|]; intros [Hi Hp].
  - split; [unfold strong_count, strong_of in *; by rewrite Er|]. destruct Hp as [?|[]]; [by left|right].
    constructor; unfold manages in *; rewrite ?Ec; done.
  - split; [unfold strong_count, strong_of in *; by rewrite Er|done].
Qed.

Lemma hold_ok_ext s s' h : (∀ n, node_id s' n = node_id s n) → hold_ok s h → hold_ok s' h.
Proof. intros E. destruct h; cbn; setoid_rewrite E; done. Qed.

(** ** Changes *)

(** A node's counts and flags change, and with them what the buffers hold. *)
Lemma core_node s V V' n nd nd' :
  core_ok s V → nodes s !! n = Some nd → n_proc nd' = n_proc nd → n_ptr nd' = n_ptr nd → n_refs nd' = n_refs nd →
  pass_on (v_pass V) n → pass_on (v_pass V') n → v_lost V' = v_lost V → v_dying V' = v_dying V →
  (∀ m x sg, m ≠ n → nodes s !! m = Some x → held_on m x sg (v_holds V') = held_on m x sg (v_holds V)) →
  (∀ h, h ∈ v_holds V' → hold_ok s h) → Z.of_nat (length (v_holds V')) + 3 < 2147483648 → node_counts s V' n nd' →
  (∀ p, n_proc nd' = Some p → v_dying V' ≠ Some p → linked (WNode n) (todo s) = true ∨ n ∈ v_lost V' ∨ informed (v_pass V') n nd') →
  core_ok (set_nodes (<[n := nd']> (nodes s)) s) V'.
Proof.
  intros [Ht Hc Hd Hw] Hn Ep Ea Er Hx Hx' El Ey Eh Hh Hroom Hnc Hi.
  assert (∀ m, node_id (set_nodes (<[n := nd']> (nodes s)) s) m = node_id s m) as Eid.
  { intros m. unfold node_id. cbn. destruct (decide (m = n)) as [->|Hm]; [|by rewrite lookup_insert_ne].
    rewrite lookup_insert_eq, Hn. cbn. by rewrite Ep, Ea, Er. }
  constructor.
  - by apply (tables_ext s).
  - destruct Hc as [C1 C2 C3 [_ C4]]. constructor; cbn.
    + intros m x. destruct (decide (m = n)) as [->|Hm].
      * rewrite lookup_insert_eq. intros [= <-]. by apply (node_counts_ext s).
      * rewrite lookup_insert_ne by done. intros Hmx. apply (node_counts_ext s); [done..|]. apply (counts_other s V V' n); [done|done|done|intros sg; by apply Eh|by apply C1].
    + done.
    + intros h Hin. apply (hold_ok_ext s); [done|]. by apply Hh.
    + done.
  - intros m x p. cbn. destruct (decide (m = n)) as [->|Hm].
    + rewrite lookup_insert_eq. intros [= <-]. apply Hi.
    + rewrite lookup_insert_ne by done. rewrite Ey, El. intros H1 H2 H3. destruct (Hd m x p H1 H2 H3) as [?|[?|?]]; [auto..|].
      right. right. by apply (informed_swap (v_pass V) _ n).
  - by apply (works_ext s).
Qed.

Lemma node_alive s n nd p : nodes s !! n = Some nd → n_proc nd = Some p → ∃ a l, node_id s n = Some (Some p, a, l).
Proof. intros H1 H2. rewrite (node_id_some _ _ _ H1), H2. eauto. Qed.

(** The change of [todo] alone. *)
Lemma core_todo s V V' l n :
  core_ok s V → works (set_todo l s) → pass_on (v_pass V) n → pass_on (v_pass V') n → v_holds V' = v_holds V → v_dying V' = v_dying V →
  v_lost V ⊆ v_lost V' →
  (∀ m, m ≠ n → linked (WNode m) (todo s) = true → linked (WNode m) l = true ∨ m ∈ v_lost V') →
  (∀ nd p, nodes s !! n = Some nd → n_proc nd = Some p → v_dying V' ≠ Some p →
     linked (WNode n) l = true ∨ n ∈ v_lost V' ∨ informed (v_pass V') n nd) →
  (∀ nd, nodes s !! n = Some nd → n_proc nd = None → n_refs nd ≠ [] ∨ v_pass V' = Falling n ∨ v_pass V' = Leaving n) →
  core_ok (set_todo l s) V'.
Proof.
  intros [Ht Hc Hd Hw] Hw' Hx Hx' Eh Ey El Hl Hi Hdead. constructor; [by apply (tables_ext s)| | |done].
  - destruct Hc as [C1 C2 C3 C4]. constructor; [|done|rewrite Eh; done|by rewrite Eh]. intros m x Hm.
    apply (node_counts_ext s); [done..|]. destruct (decide (m = n)) as [->|Hne]; [|apply (counts_other s V V' n); [done|done|done|by rewrite Eh|by apply C1]].
    specialize (C1 n x Hm). unfold node_counts in *. rewrite Eh, Ey. destruct C1 as [? Cp]. split; [done|].
    destruct (n_proc x) eqn:Ep; [done|]. destruct Cp as (? & ? & _). split_and!; [done..|]. by apply Hdead.
  - intros m x p Hm Hp Hy. cbn in Hm. destruct (decide (m = n)) as [->|Hne]; [by apply Hi with p|]. cbn. rewrite Ey in Hy.
    destruct (Hd m x p Hm Hp Hy) as [H0|[H0|H0]].
    + destruct (Hl m Hne H0); auto.
    + right. left. by apply El.
    + right. right. by apply (informed_swap (v_pass V) _ n).
Qed.

Lemma works_unlink s w : (∀ d, w ≠ WDeath d) → works s → works (set_todo (unlink w (todo s)) s).
Proof.
  intros Hwd [H1 H2 H3 H4 H5 H6]. constructor; cbn.
  - by apply unlink_nodup.
  - intros q n [Hin _]%elem_of_unlink. by apply H2.
  - intros q d [Hin _]%elem_of_unlink. by apply H3.
  - intros r x d Hx Hd. destruct (H4 r x d Hx Hd) as (y & Hy & Hq). exists y. split; [done|]. intros q [Hin _]%elem_of_unlink. by apply Hq.
  - done.
  - intros d y Hy Hf. destruct (H6 d y Hy Hf) as (q & Hin & Hq). exists q. split; [|done]. apply elem_of_unlink. split; [done|]. cbn. congruence.
Qed.
Lemma works_enqueue s n q a l :
  linked (WNode n) (todo s) = false → node_id s n = Some (Some (queue_proc q), a, l) → is_delivered q = false → works s →
  works (set_todo (todo s ++ [(q, WNode n)]) s).
Proof.
  intros Hl Hid Hq [H1 H2 H3 H4 H5 H6].
  assert (∀ q' d, (q', WDeath d) ∈ todo s ++ [(q, WNode n)] → (q', WDeath d) ∈ todo s) as Hold.
  { intros q' d [?|[?|[]%elem_of_nil]%elem_of_cons]%elem_of_app; [done|congruence]. }
  constructor; cbn.
  - by apply add_nodup.
  - intros q' m [Hin|[E|[]%elem_of_nil]%elem_of_cons]%elem_of_app; [by apply H2|]. injection E as -> ->. split; [done|]. exists a, l. done.
  - intros q' d Hin%Hold. by apply H3.
  - intros r x d Hx Hd. destruct (H4 r x d Hx Hd) as (y & Hy & Hqq). exists y. split; [done|]. intros q' Hin%Hold. by apply Hqq.
  - done.
  - intros d y Hy Hf. destruct (H6 d y Hy Hf) as (q' & Hin & Hqq). exists q'. split; [|done]. apply elem_of_app. by left.
Qed.

(** A node goes to the end of a queue of its process. *)
Lemma core_enqueue s V n nd q :
  core_ok s V → nodes s !! n = Some nd → n_proc nd = Some (queue_proc q) → is_delivered q = false → pass_on (v_pass V) n →
  core_ok (set_todo (unlink (WNode n) (todo s) ++ [(q, WNode n)]) s) (set_pass Settled V).
Proof.
  intros Hok Hn Hp Hq Hx. pose proof (node_alive s n nd _ Hn Hp) as (a & l & Hid).
  eapply (core_todo s V _ _ n); try done.
  - apply (works_enqueue (set_todo (unlink (WNode n) (todo s)) s) n q a l); [|done|done|apply works_unlink; [done|apply Hok]].
    cbn [todo set_todo]. rewrite linked_unlink, bool_decide_eq_true_2 by done. apply andb_false_r.
  - intros m Hm Hl. left. rewrite linked_app, linked_unlink, Hl, bool_decide_eq_false_2 by congruence. done.
  - intros. left. apply linked_add.
  - intros nd0 H0 Hp0. rewrite Hn in H0. injection H0 as ->. congruence.
Qed.
Lemma core_unlink s V V' n :
  core_ok s V → pass_on (v_pass V) n → pass_on (v_pass V') n → v_holds V' = v_holds V → v_dying V' = v_dying V → v_lost V ⊆ v_lost V' →
  (∀ nd p, nodes s !! n = Some nd → n_proc nd = Some p → v_dying V' ≠ Some p → n ∈ v_lost V' ∨ informed (v_pass V') n nd) →
  (∀ nd, nodes s !! n = Some nd → n_proc nd = None → n_refs nd ≠ [] ∨ v_pass V' = Falling n ∨ v_pass V' = Leaving n) →
  core_ok (set_todo (unlink (WNode n) (todo s)) s) V'.
Proof.
  intros Hok Hx Hx' Eh Ey El Hi Hdead. eapply (core_todo s V _ _ n); try done.
  - apply works_unlink; [done|apply Hok].
  - intros m Hm Hl. left. rewrite linked_unlink, Hl, bool_decide_eq_false_2 by congruence. done.
  - intros nd p H1 H2 H3. right. by eapply Hi.
Qed.
Lemma set_todo_same s : set_todo (todo s) s = s.
Proof. by destruct s. Qed.
Lemma core_pass s V V' n :
  core_ok s V → pass_on (v_pass V) n → pass_on (v_pass V') n → v_holds V' = v_holds V → v_dying V' = v_dying V → v_lost V ⊆ v_lost V' →
  (∀ nd p, nodes s !! n = Some nd → n_proc nd = Some p → v_dying V' ≠ Some p →
     linked (WNode n) (todo s) = true ∨ n ∈ v_lost V' ∨ informed (v_pass V') n nd) →
  (∀ nd, nodes s !! n = Some nd → n_proc nd = None → n_refs nd ≠ [] ∨ v_pass V' = Falling n ∨ v_pass V' = Leaving n) →
  core_ok s V'.
Proof.
  intros Hok Hx Hx' Eh Ey El Hi Hdead. rewrite <- (set_todo_same s).
  apply (core_todo s V V' (todo s) n); try done; [rewrite set_todo_same; apply Hok|auto].
Qed.

Lemma manages_true s n : manages s n = true ↔ ∃ c C, contexts s !! c = Some C ∧ binder_context_mgr_node C = Some n.
Proof. unfold manages. rewrite bool_decide_eq_true. done. Qed.
Lemma held_on_zero n nd sg L : held_on n nd sg L = 0 → ∀ h, h ∈ L → on n nd sg h = false.
Proof.
  unfold held_on. intros E h Hh. apply not_true_iff_false. intros Hon.
  assert (In h (List.filter (on n nd sg) L)) as Hin by (apply filter_In; split; [by apply list_elem_of_In|done]).
  destruct (List.filter (on n nd sg) L); [done|]. cbn in E. lia.
Qed.
Lemma held_on_nonneg n nd sg L : 0 ≤ held_on n nd sg L.
Proof. unfold held_on. lia. Qed.
Lemma b2z_nonneg b : 0 ≤ Z.b2z b ≤ 1.
Proof. by destruct b. Qed.

(** *** A node goes *)

Section gone.
Context `{RbTree}.

Lemma node_id_delete s s' n m : nodes s' = delete n (nodes s) → node_id s' m = if decide (m = n) then None else node_id s m.
Proof.
  intros E. unfold node_id. rewrite E. case_decide; [subst; by rewrite lookup_delete_eq|by rewrite lookup_delete_ne by congruence].
Qed.
Lemma tables_drop_node s s' n nd p P :
  tables s → nodes s !! n = Some nd → n_proc nd = Some p → procs s !! p = Some P → n_refs nd = [] → manages s n = false →
  nodes s' = delete n (nodes s) → procs s' = <[p := set_p_nodes (rb_erase n (p_nodes P)) P]> (procs s) → contexts s' = contexts s →
  dead_nodes s' = dead_nodes s → refs s' = refs s → tables s'.
Proof.
  intros [H1 H2 H3 H4 H5 H6 H7 H8 H9] Hn Hp HP Hr Hm En Ep Ec Ed Er.
  pose proof (λ m, node_id_delete s s' n m En) as Eid. pose proof (node_id_some _ _ _ Hn) as Hid. rewrite Hp, Hr in Hid.
  assert (∀ r, ref_id s' r = ref_id s r) as Erid by (intros r; unfold ref_id; by rewrite Er).
  assert (∀ q Q', procs s' !! q = Some Q' → ∃ Q, procs s !! q = Some Q ∧ p_context Q' = p_context Q ∧ refs_by_desc Q' = refs_by_desc Q ∧
     refs_by_node Q' = refs_by_node Q) as Hq.
  { intros q Q'. rewrite Ep. destruct (decide (q = p)) as [->|Hne]; [rewrite lookup_insert_eq; intros [= <-]; by exists P|].
    rewrite lookup_insert_ne by done. by exists Q'. }
  assert (∀ q, is_Some (procs s !! q) → is_Some (procs s' !! q)) as Hq'.
  { intros q [Q HQ]. rewrite Ep. destruct (decide (q = p)) as [->|Hne]; [rewrite lookup_insert_eq|rewrite lookup_insert_ne by done]; eauto. }
  assert (∀ m o a l, node_id s' m = Some (o, a, l) → m ≠ n ∧ node_id s m = Some (o, a, l)) as Hback.
  { intros m o a l. rewrite Eid. by case_decide. }
  constructor.
  - intros q Q' (Q & HQ & -> & _)%Hq. rewrite Ec. by apply (H1 q).
  - intros c C m. rewrite Ec. intros Hc Hmgr. destruct (H2 c C m Hc Hmgr) as (q & Q & a & l & Hi & HQ & HQc).
    assert (m ≠ n). { intros ->. apply not_true_iff_false in Hm. apply Hm. apply manages_true. eauto. }
    destruct (decide (q = p)) as [->|Hne].
    + exists p. rewrite Eid, decide_False, Ep, lookup_insert_eq by done. rewrite HP in HQ. injection HQ as ->. eauto 10.
    + exists q. rewrite Eid, decide_False, Ep, lookup_insert_ne by done. eauto 10.
  - intros q Q'. rewrite Ep. destruct (decide (q = p)) as [->|Hne].
    + rewrite lookup_insert_eq. intros [= <-]. cbn [p_nodes set_p_nodes]. destruct (H3 p P HP) as [Hi Hin].
      assert (n ∈ inorder (p_nodes P)) as Hnin by (apply Hin; eauto). rewrite rb_erase_inorder by done. split.
      * eapply increasing_ext; [|by apply increasing_without]. intros x [_ Hx]%elem_of_without.
        rewrite !node_key_id, Eid, decide_False by done. done.
      * intros m. rewrite elem_of_without, Hin. setoid_rewrite Eid. case_decide; [subst; naive_solver|naive_solver].
    + rewrite lookup_insert_ne by done. intros HQ. destruct (H3 q Q' HQ) as [Hi Hin].
      assert (n ∉ inorder (p_nodes Q')) as Hnn. { intros (a & l & Ha)%Hin. congruence. } split.
      * eapply increasing_ext; [|done]. intros x Hx. rewrite !node_key_id, Eid, decide_False by congruence. done.
      * intros m. rewrite Hin. setoid_rewrite Eid. case_decide; [subst; naive_solver|naive_solver].
  - intros q Q' (Q & HQ & _ & -> & _)%Hq. destruct (H4 q Q HQ) as [Hi Hin]. split; [|intros r; rewrite Erid; apply Hin].
    eapply increasing_ext; [|done]. intros x _. by rewrite !desc_key_id, Erid.
  - intros q Q' (Q & HQ & _ & _ & ->)%Hq. destruct (H5 q Q HQ) as [Hi Hin]. split; [|intros r; rewrite Erid; apply Hin].
    eapply increasing_ext; [|done]. intros x _. by rewrite !ref_node_key_id, Erid.
  - intros m q a l [_ Hi]%Hback. apply Hq'. by eapply H6.
  - rewrite Ed. destruct H7 as [Hd Hin]. split; [done|]. intros m. rewrite Hin, Eid. case_decide; [subst; naive_solver|done].
  - intros m o a l [_ Hi]%Hback. destruct (H8 m o a l Hi) as [Hd Hin]. split; [done|]. intros r. rewrite Erid. apply Hin.
  - intros r q m d. rewrite Erid. intros Hi. destruct (H9 r q m d Hi) as (G1 & G2 & G3). split; [by apply Hq'|]. split; [|done].
    rewrite Eid, decide_False; [done|]. intros ->. destruct (H8 n _ _ _ Hid) as [_ Hin]. by assert (r ∈ []) as []%elem_of_nil by (apply Hin; eauto).
Qed.
Lemma tables_drop_dead s s' n nd :
  tables s → nodes s !! n = Some nd → n_proc nd = None → n_refs nd = [] →
  nodes s' = delete n (nodes s) → procs s' = procs s → contexts s' = contexts s →
  dead_nodes s' = without n (dead_nodes s) → refs s' = refs s → tables s'.
Proof.
  intros [H1 H2 H3 H4 H5 H6 H7 H8 H9] Hn Hp Hr En Ep Ec Ed Er.
  pose proof (λ m, node_id_delete s s' n m En) as Eid. pose proof (node_id_some _ _ _ Hn) as Hid. rewrite Hp, Hr in Hid.
  assert (∀ r, ref_id s' r = ref_id s r) as Erid by (intros r; unfold ref_id; by rewrite Er).
  assert (∀ m o a l, node_id s' m = Some (o, a, l) → m ≠ n ∧ node_id s m = Some (o, a, l)) as Hback.
  { intros m o a l. rewrite Eid. by case_decide. }
  constructor; rewrite ?Ep, ?Ec.
  - done.
  - intros c C m Hc Hmgr. destruct (H2 c C m Hc Hmgr) as (q & Q & a & l & Hi & HQ & HQc).
    exists q, Q, a, l. rewrite Eid, decide_False; [done|]. intros ->. congruence.
  - intros q Q' HQ. destruct (H3 q Q' HQ) as [Hi Hin].
    assert (n ∉ inorder (p_nodes Q')) as Hnn. { intros (a & l & Ha)%Hin. congruence. } split.
    + eapply increasing_ext; [|done]. intros x Hx. rewrite !node_key_id, Eid, decide_False by congruence. done.
    + intros m. rewrite Hin. setoid_rewrite Eid. case_decide; [subst; naive_solver|naive_solver].
  - intros q Q HQ. destruct (H4 q Q HQ) as [Hi Hin]. split; [|intros r; rewrite Erid; apply Hin].
    eapply increasing_ext; [|done]. intros x _. by rewrite !desc_key_id, Erid.
  - intros q Q HQ. destruct (H5 q Q HQ) as [Hi Hin]. split; [|intros r; rewrite Erid; apply Hin].
    eapply increasing_ext; [|done]. intros x _. by rewrite !ref_node_key_id, Erid.
  - intros m q a l [_ Hi]%Hback. by eapply H6.
  - rewrite Ed. destruct H7 as [Hd Hin]. split.
    + apply NoDup_ListNoDup. unfold without. apply NoDup_filter. by apply NoDup_ListNoDup.
    + intros m. rewrite elem_of_without, Hin, Eid. case_decide; naive_solver.
  - intros m o a l [_ Hi]%Hback. destruct (H8 m o a l Hi) as [Hd Hin]. split; [done|]. intros r. rewrite Erid. apply Hin.
  - intros r q m d. rewrite Erid. intros Hi. destruct (H9 r q m d Hi) as (G1 & G2 & G3). split; [done|]. split; [|done].
    rewrite Eid, decide_False; [done|]. intros ->. destruct (H8 n _ _ _ Hid) as [_ Hin]. by assert (r ∈ []) as []%elem_of_nil by (apply Hin; eauto).
Qed.

Lemma core_gone s s' V n nd :
  core_ok s V → nodes s !! n = Some nd → tables s' → nodes s' = delete n (nodes s) → todo s' = unlink (WNode n) (todo s) →
  refs s' = refs s → deaths s' = deaths s → contexts s' = contexts s → (∀ q, is_Some (procs s !! q) → is_Some (procs s' !! q)) →
  (∀ h, h ∈ v_holds V → on n nd true h = false ∧ on n nd false h = false) → pass_on (v_pass V) n →
  n_refs nd = [] → core_ok s' (set_pass Settled V).
Proof.
  intros [Ht [C1 C2 C3 C4] Hd [W1 W2 W3 W4 W5 W6]] Hn Ht' En El Er Ed Ec Hq Hh Hx Hrefs.
  pose proof (λ m, node_id_delete s s' n m En) as Eid. pose proof (node_id_some _ _ _ Hn) as Hid.
  constructor; [done| | |].
  - constructor.
    + intros m x. rewrite En. intros [Hne Hm]%lookup_delete_Some. apply (node_counts_ext s); [done..|].
      apply (counts_other s V _ n); try done. by apply C1.
    + by rewrite Er.
    + intros h Hin. specialize (C3 h Hin). destruct (Hh h Hin) as [G1 G2].
      destruct h as [p m|p a b]; cbn in *.
      * destruct C3 as (a & l & Ha). exists a, l. rewrite Eid, decide_False; [done|]. intros ->. by rewrite Z.eqb_refl in G1.
      * destruct C3 as (m & l & Ha). exists m, l. rewrite Eid, decide_False; [done|]. intros ->.
        rewrite Hid in Ha. injection Ha as Ha1 Ha2 _. rewrite Ha1, Ha2, bool_decide_eq_true_2, Z.eqb_refl in G1, G2 by done. by destruct b.
    + by rewrite Er.
  - intros m x p. rewrite En, El. intros [Hne Hm]%lookup_delete_Some Hp Hy. destruct (Hd m x p Hm Hp Hy) as [?|[?|?]]; [|auto|].
    + left. rewrite linked_unlink, bool_decide_eq_false_2 by congruence. by apply andb_true_iff.
    + right. right. by apply (informed_swap (v_pass V) _ n).
  - assert (∀ r x, refs s !! r = Some x → r_node x ≠ n) as Hrn.
    { intros r x Hx0 E0. pose proof (ref_id_some _ _ _ Hx0) as Hi. rewrite E0 in Hi. destruct (tb_refs _ Ht _ _ _ _ Hid) as [_ Hin].
      rewrite Hrefs in Hin. by assert (r ∈ []) as []%elem_of_nil by (apply Hin; eauto). }
    constructor.
    + rewrite El. by apply unlink_nodup.
    + intros q m. rewrite El. intros [Hin Hne]%elem_of_unlink. cbn in Hne. destruct (W2 q m Hin) as [? (a & l & Ha)]. split; [done|].
      exists a, l. rewrite Eid, decide_False by congruence. done.
    + intros q d. rewrite El. intros [Hin _]%elem_of_unlink. rewrite Ed. destruct (W3 q d Hin). split; [by apply Hq|done].
    + intros r x d. rewrite Er, Ed, El. intros Hx0 Hd0. destruct (W4 r x d Hx0 Hd0) as (y & Hy & Hqq). exists y. split; [done|].
      intros q [Hin _]%elem_of_unlink. destruct (Hqq q Hin) as (? & ? & Ha). split; [done|]. split; [done|].
      rewrite Eid, decide_False by (by apply (Hrn r)). done.
    + by rewrite Er.
    + intros d y. rewrite Ed, Er, El. intros Hy Hf. destruct (W6 d y Hy Hf) as (q & Hin & Hqq). exists q. split; [|done]. by apply elem_of_unlink.
Qed.
End gone.

(** ** The counts of a node *)

(** What a change of a node's counts leaves alone. *)
Definition ref_trees (s : world) (q : Z) : option (Z * tree * tree) := (λ P, (p_context P, refs_by_desc P, refs_by_node P)) <$> procs s !! q.
Record calm (s s' : world) : Prop := {
  cm_refs : refs s' = refs s;
  cm_deaths : deaths s' = deaths s;
  cm_contexts : contexts s' = contexts s;
  cm_procs : ∀ q, ref_trees s' q = ref_trees s q;
  cm_nodes : ∀ m i, node_id s' m = Some i → node_id s m = Some i;
  cm_todo : ∀ q d, (q, WDeath d) ∈ todo s' ↔ (q, WDeath d) ∈ todo s;
}.
Lemma calm_refl s : calm s s.
Proof. by constructor. Qed.
Lemma calm_trans s1 s2 s3 : calm s1 s2 → calm s2 s3 → calm s1 s3.
Proof.
  intros [A1 A2 A3 A4 A5 A6] [B1 B2 B3 B4 B5 B6].
  constructor; [congruence..| | |]; [intros q; by rewrite B4|auto|intros q d; by rewrite B6].
Qed.
Lemma calm_todo s l : (∀ q d, (q, WDeath d) ∈ l ↔ (q, WDeath d) ∈ todo s) → calm s (set_todo l s).
Proof. by constructor. Qed.
Lemma calm_node s n nd nd' :
  nodes s !! n = Some nd → n_proc nd' = n_proc nd → n_ptr nd' = n_ptr nd → n_refs nd' = n_refs nd →
  calm s (set_nodes (<[n := nd']> (nodes s)) s).
Proof.
  intros Hn E1 E2 E3. constructor; try done. intros m i. unfold node_id. cbn. destruct (decide (m = n)) as [->|Hm].
  - rewrite lookup_insert_eq, Hn. cbn. by rewrite E1, E2, E3.
  - by rewrite lookup_insert_ne.
Qed.
Lemma death_in_unlink q d n (l : list (queue * work)) : (q, WDeath d) ∈ unlink (WNode n) l ↔ (q, WDeath d) ∈ l.
Proof. rewrite elem_of_unlink. cbn. naive_solver. Qed.
Lemma death_in_enqueue q d q' n (l : list (queue * work)) : (q, WDeath d) ∈ l ++ [(q', WNode n)] ↔ (q, WDeath d) ∈ l.
Proof. rewrite elem_of_app, list_elem_of_singleton. naive_solver. Qed.

Section counts.
Context `{RbTree}.

Lemma the_node_eq s n nd : nodes s !! n = Some nd → the_node n s = Val s nd.
Proof. unfold the_node, deref. by intros ->. Qed.
Lemma the_ref_eq s r x : refs s !! r = Some x → the_ref r s = Val s x.
Proof. unfold the_ref, deref. by intros ->. Qed.
Lemma the_death_eq s d x : deaths s !! d = Some x → the_death d s = Val s x.
Proof. unfold the_death, deref. by intros ->. Qed.
Lemma the_proc_eq s p P : procs s !! p = Some P → the_proc p s = Val s P.
Proof. unfold the_proc, deref. by intros ->. Qed.
Lemma the_context_eq s c C : contexts s !! c = Some C → the_context c s = Val s C.
Proof. unfold the_context, deref. by intros ->. Qed.
Lemma add_tail_eq s w q : linked w (todo s) = false → list_add_tail w q s = Val (set_todo (todo s ++ [(q, w)]) s) tt.
Proof. unfold list_add_tail. by intros ->. Qed.

Definition not_dying (V : view) (nd : binder_node) : Prop := ∀ p, n_proc nd = Some p → v_dying V ≠ Some p.

Lemma owner_proc s V n nd p : core_ok s V → nodes s !! n = Some nd → n_proc nd = Some p → ∃ P, procs s !! p = Some P.
Proof.
  intros Hok Hn Hp. destruct (node_alive s n nd p Hn Hp) as (a & l & Hid).
  destruct (tb_owner _ (co_tables _ _ Hok) _ _ _ _ Hid) as [P HP]. by exists P.
Qed.
Lemma alive_counts s V n nd p :
  core_ok s V → nodes s !! n = Some nd → n_proc nd = Some p → not_dying V nd → local_counts s (v_holds V) n nd.
Proof.
  intros Hok Hn Hp Hy. destruct (ct_nodes _ _ (co_counts _ _ Hok) n nd Hn) as [_ Hc]. rewrite Hp in Hc.
  destruct Hc as [Hd|Hc]; [by apply Hy in Hp|done].
Qed.
Lemma counts_zero s L n nd :
  local_counts s L n nd → local_strong_refs nd = 0 → local_weak_refs nd = 0 →
  manages s n = false ∧ ∀ h, h ∈ L → on n nd true h = false ∧ on n nd false h = false.
Proof.
  intros [L1 L2 _ _] E1 E2. pose proof (held_on_nonneg n nd true L). pose proof (held_on_nonneg n nd false L).
  pose proof (b2z_nonneg (pending_strong_ref nd)). pose proof (b2z_nonneg (pending_weak_ref nd)). pose proof (b2z_nonneg (manages s n)).
  split.
  - destruct (manages s n); [|done]. cbn in *. lia.
  - intros h Hh. split; [eapply (held_on_zero n nd true L)|eapply (held_on_zero n nd false L)]; [lia|done|lia|done].
Qed.

Lemma dec_tail_ok s V n nd :
  core_ok s V → nodes s !! n = Some nd → pass_on (v_pass V) n → v_pass V ≠ Rising n → not_dying V nd →
  ∃ s', dec_node_tail n s = Val s' 0 ∧ core_ok s' (set_pass Settled V) ∧ calm s s'.
Proof.
  intros Hok Hn Hx Hr Hy. unfold dec_node_tail. rewrite (bind_val _ _ _ _ _ (the_node_eq _ _ _ Hn)).
  pose proof (ct_nodes _ _ (co_counts _ _ Hok) n nd Hn) as [_ Hc].
  destruct (n_proc nd) as [p|] eqn:Hp.
  - pose proof (alive_counts s V n nd p Hok Hn Hp Hy) as Hlc. pose proof (co_told _ _ Hok n nd p Hn Hp (Hy p Hp)) as Ht.
    destruct (has_strong_ref nd || has_weak_ref nd) eqn:Hhas.
    + unfold list_empty. run_m. destruct (linked (WNode n) (todo s)) eqn:Hl; cbn [negb].
      * exists s. split; [done|]. split; [|apply calm_refl]. apply (core_pass s V _ n); try done.
        -- intros. by left.
        -- intros nd0 H0 Hp0. congruence.
      * rewrite add_tail_eq by done. eexists. split; [done|]. split; [|apply calm_todo; intros; apply death_in_enqueue].
        pose proof (core_enqueue s V n nd (ProcTodo p) Hok Hn Hp eq_refl Hx) as Hq. by rewrite unlink_off in Hq.
    + apply orb_false_iff in Hhas as [Hs Hw].
      destruct (bool_decide (n_refs nd = []) && (local_strong_refs nd =? 0) && (local_weak_refs nd =? 0)) eqn:Hfree.
      * rewrite !andb_true_iff, bool_decide_eq_true, !Z.eqb_eq in Hfree. destruct Hfree as [[E1 E2] E3].
        destruct (owner_proc s V n nd p Hok Hn Hp) as [P HP]. run_m. unfold the_proc, deref. cbn. rewrite HP. run_m. cbn.
        destruct (counts_zero s _ n nd Hlc E2 E3) as [Hm Hh].
        eexists. split; [done|]. split.
        -- apply (core_gone s _ V n nd); try done.
           ++ apply (tables_drop_node s _ n nd p P); try done. apply Hok.
           ++ intros q [Q HQ]. cbn. destruct (decide (q = p)) as [->|Hne]; [rewrite lookup_insert_eq|rewrite lookup_insert_ne by done]; eauto.
        -- constructor; try done.
           ++ intros q. unfold ref_trees. cbn. destruct (decide (q = p)) as [->|Hne]; [by rewrite lookup_insert_eq, HP|by rewrite lookup_insert_ne by done].
           ++ intros m i. unfold node_id. cbn. destruct (decide (m = n)) as [->|Hm']; [by rewrite lookup_delete_eq|by rewrite lookup_delete_ne].
           ++ intros q d. apply death_in_unlink.
      * exists s. split; [done|]. split; [|apply calm_refl]. apply (core_pass s V _ n); try done.
        -- intros nd0 p0 H0 _ _. rewrite Hn in H0. injection H0 as <-. destruct Ht as [?|[?|[[U1 U2] _]]]; [auto..|]. right. right.
           unfold informed. rewrite ?Hs, ?Hw. rewrite ?Hs, ?Hw in U1. rewrite ?Hw in U2. split; [|right; split; [done|by right]].
           split; [intros E; by destruct (U1 E)|]. right. intros E. destruct U2 as [?|U2]; [done|by apply U2].
        -- intros nd0 H0 Hp0. congruence.
  - destruct Hc as (E2 & E3 & E4). rewrite E2, E3. cbn [Z.eqb]. rewrite !andb_true_r.
    destruct (bool_decide (n_refs nd = [])) eqn:Hfree.
    + apply bool_decide_eq_true in Hfree. run_m. unfold hlist_del_dead. cbn.
      assert (n ∈ dead_nodes s) as Hd.
      { apply (tb_dead _ (co_tables _ _ Hok)). rewrite (node_id_some _ _ _ Hn), Hp. eauto. }
      rewrite bool_decide_eq_true_2 by done. eexists. split; [done|]. split.
      * apply (core_gone s _ V n nd); try done.
        -- apply (tables_drop_dead s _ n nd); try done. apply Hok.
        -- intros h Hh. pose proof (ct_holds _ _ (co_counts _ _ Hok) h Hh) as Hk. pose proof (node_id_some _ _ _ Hn) as Hid. rewrite Hp in Hid.
           destruct h as [q m|q a b]; cbn in *.
           ++ split; [|done]. apply Z.eqb_neq. intros ->. destruct Hk as (? & ? & ?). congruence.
           ++ rewrite Hp, bool_decide_eq_false_2 by done. by rewrite !andb_false_r.
      * constructor; try done.
        -- intros m i. unfold node_id. cbn. destruct (decide (m = n)) as [->|Hm']; [by rewrite lookup_delete_eq|by rewrite lookup_delete_ne].
        -- intros q d. apply death_in_unlink.
    + apply bool_decide_eq_false in Hfree. exists s. split; [done|]. split; [|apply calm_refl]. apply (core_pass s V _ n); try done.
      * intros nd0 p0 H0 Hp0. congruence.
      * intros nd0 H0 _. rewrite Hn in H0. injection H0 as <-. by left.
Qed.

(** The rest of [binder_dec_node], once the count is written. *)
Definition rest_strong (n : Z) (nd : binder_node) : M world Z :=
  if negb (local_strong_refs nd =? 0) || negb (internal_strong_refs nd =? 0) then mret 0 else dec_node_tail n.
Definition rest_weak (n : Z) (nd : binder_node) : M world Z :=
  if negb (local_weak_refs nd =? 0) || negb (bool_decide (n_refs nd = [])) then mret 0 else dec_node_tail n.

Lemma rest_strong_ok s V n nd :
  core_ok s V → nodes s !! n = Some nd → pass_on (v_pass V) n → v_pass V ≠ Rising n → not_dying V nd →
  (n_proc nd = None → n_refs nd ≠ []) →
  ∃ s', rest_strong n nd s = Val s' 0 ∧ core_ok s' (set_pass Settled V) ∧ calm s s'.
Proof.
  intros Hok Hn Hx Hr Hy Hdead. unfold rest_strong. destruct (negb (local_strong_refs nd =? 0) || _) eqn:Hs; [|by apply (dec_tail_ok s V n nd)].
  exists s. split; [done|]. split; [|apply calm_refl]. apply (core_pass s V _ n); try done.
  - intros nd0 p0 H0 Hp0 Hy0. rewrite Hn in H0. injection H0 as <-.
    destruct (co_told _ _ Hok n nd p0 Hn Hp0 Hy0) as [?|[?|[[U1 U2] _]]]; [auto..|]. right. right.
    assert (node_strong nd = true) as Hst by (unfold node_strong; by rewrite orb_comm).
    assert (node_weak nd = true) as Hwk by (unfold node_weak; rewrite Hst; apply orb_true_r).
    split; [split; [done|right; intros _; by apply U1]|]. right. split; [done|by right].
  - intros nd0 H0 Hp0. rewrite Hn in H0. injection H0 as <-. left. by apply Hdead.
Qed.
Lemma rest_weak_ok s V n nd :
  core_ok s V → nodes s !! n = Some nd → pass_on (v_pass V) n → v_pass V = Leaving n ∨ v_pass V = Settled → not_dying V nd →
  ∃ s', rest_weak n nd s = Val s' 0 ∧ core_ok s' (set_pass Settled V) ∧ calm s s'.
Proof.
  intros Hok Hn Hx Hr Hy. assert (v_pass V ≠ Rising n) as Hnr by (destruct Hr; congruence).
  unfold rest_weak. destruct (negb (local_weak_refs nd =? 0) || _) eqn:Hs; [|by apply (dec_tail_ok s V n nd)].
  exists s. split; [done|]. split; [|apply calm_refl]. apply (core_pass s V _ n); try done.
  - intros nd0 p0 H0 Hp0 Hy0. rewrite Hn in H0. injection H0 as <-.
    destruct (co_told _ _ Hok n nd p0 Hn Hp0 Hy0) as [?|[?|[[U1 U2] D]]]; [auto..|]. right. right.
    assert (node_weak nd = true) as Hwk by (unfold node_weak; rewrite (orb_comm (negb (bool_decide _))), Hs; done).
    destruct U2 as [?|U2]; [done|]. split; [split; [done|by right]|]. right. destruct D as [E|[D _]]; [destruct Hr; congruence|]. split; [done|by right].
  - intros nd0 H0 Hp0. rewrite Hn in H0. injection H0 as <-. left.
    destruct (ct_nodes _ _ (co_counts _ _ Hok) n nd Hn) as [_ Hc]. rewrite Hp0 in Hc. destruct Hc as (_ & Ew & _).
    rewrite Ew in Hs. cbn in Hs. apply negb_true_iff, bool_decide_eq_false in Hs. done.
Qed.
End counts.

(** ** What the buffers hold *)

Lemma held_on_perm n nd sg L L' : L ≡ₚ L' → held_on n nd sg L' = held_on n nd sg L.
Proof.
  unfold held_on. induction 1 as [|h l l' _ IH|h1 h2 l|l1 l2 l3 _ IH1 _ IH2]; cbn; [done| | |congruence].
  - destruct (on n nd sg h); cbn; lia.
  - by destruct (on n nd sg h1), (on n nd sg h2).
Qed.
Lemma held_on_cons n nd sg h L : held_on n nd sg (h :: L) = Z.b2z (on n nd sg h) + held_on n nd sg L.
Proof. unfold held_on. cbn. destruct (on n nd sg h); cbn [length Z.b2z]; lia. Qed.
Lemma held_on_le n nd sg L : held_on n nd sg L ≤ Z.of_nat (length L).
Proof. unfold held_on. pose proof (filter_length_le (on n nd sg) L). lia. Qed.
Lemma node_counts_perm s V L n nd : v_holds V ≡ₚ L → node_counts s V n nd → node_counts s (set_holds L V) n nd.
Proof.
  intros HL [Hi Hp]. split; [done|]. destruct (n_proc nd) as [p|]; [|done]. destruct Hp as [?|[L1 L2 L3 L4]]; [by left|right].
  constructor; cbn; rewrite ?(held_on_perm _ _ _ _ _ HL); done.
Qed.
Lemma core_perm s V L : core_ok s V → v_holds V ≡ₚ L → core_ok s (set_holds L V).
Proof.
  intros [Ht [C1 C2 C3 C4] Hd Hw] HL. constructor; [done| |done|done]. constructor; cbn.
  - intros n nd Hn. apply node_counts_perm; [done|by apply C1].
  - done.
  - intros h Hh. apply C3. by rewrite HL.
  - by rewrite <- HL.
Qed.

Lemma nodes_unique s V n m p a l l' :
  core_ok s V → node_id s n = Some (Some p, a, l) → node_id s m = Some (Some p, a, l') → n = m.
Proof.
  intros Hok Hn Hm. destruct (tb_owner _ (co_tables _ _ Hok) _ _ _ _ Hn) as [P HP].
  destruct (tb_nodes _ (co_tables _ _ Hok) p P HP) as [Hi Hin]. apply (increasing_inj (node_key s) (inorder (p_nodes P)) n m a); [done| | | |].
  - apply Hin. eauto.
  - apply Hin. eauto.
  - by rewrite node_key_id, Hn.
  - by rewrite node_key_id, Hm.
Qed.
(** A hold is on one node, for one of its counts. *)
Lemma on_unique s V n m nd x sg sg' h :
  core_ok s V → nodes s !! n = Some nd → nodes s !! m = Some x → on n nd sg h = true → on m x sg' h = true → n = m ∧ sg = sg'.
Proof.
  intros Hok Hn Hm. destruct h as [p k|p a b]; cbn; rewrite !andb_true_iff.
  - intros [E1 E2%Z.eqb_eq] [E3 E4%Z.eqb_eq]. split; congruence.
  - intros [[E1 E2] E3] [[E4 E5] E6]. apply eqb_prop in E1, E4. rewrite bool_decide_eq_true in E2, E5. apply Z.eqb_eq in E3, E6.
    split; [|congruence]. eapply (nodes_unique s V n m p a); [done|rewrite (node_id_some _ _ _ Hn)|rewrite (node_id_some _ _ _ Hm)]; by rewrite ?E2, ?E3, ?E5, ?E6.
Qed.

Lemma refs_length s V n nd : core_ok s V → nodes s !! n = Some nd → (length (n_refs nd) ≤ size (refs s))%nat.
Proof.
  intros Hok Hn. destruct (tb_refs _ (co_tables _ _ Hok) _ _ _ _ (node_id_some _ _ _ Hn)) as [Hd Hin].
  rewrite <- size_dom, <- (size_list_to_set (C := gset Z) (n_refs nd)) by done. apply subseteq_size.
  intros r Hr. apply elem_of_list_to_set, Hin in Hr as (p & d & Hid). apply ref_id_inv in Hid as (x & Hx & _). by apply elem_of_dom.
Qed.
Lemma strong_count_bounds s V n nd : core_ok s V → nodes s !! n = Some nd → 0 ≤ strong_count s (n_refs nd) ≤ Z.of_nat (size (refs s)).
Proof.
  intros Hok Hn. unfold strong_count. split; [lia|]. pose proof (filter_length_le (strong_of s) (n_refs nd)) as Hf.
  pose proof (refs_length s V n nd Hok Hn). lia.
Qed.

Section holds.
Context `{RbTree}.

Lemma dec_node_eq s n nd (sg internal : bool) :
  nodes s !! n = Some nd →
  let nd' := if sg then if internal then add_internal (-1) nd else add_strong (-1) nd else if internal then nd else add_weak (-1) nd in
  binder_dec_node n sg internal s = (if sg then rest_strong n nd' else rest_weak n nd') (set_nodes (<[n := nd']> (nodes s)) s).
Proof.
  intros Hn nd'. unfold binder_dec_node. rewrite (bind_val _ _ _ _ _ (the_node_eq _ _ _ Hn)). by destruct sg.
Qed.

Definition settled (V : view) : Prop := v_pass V = Settled.
Lemma settled_on V n : settled V → pass_on (v_pass V) n.
Proof. unfold settled. by intros ->. Qed.
Definition local_of (sg : bool) (nd : binder_node) : Z := if sg then local_strong_refs nd else local_weak_refs nd.
Definition pending_of (sg : bool) (nd : binder_node) : bool := if sg then pending_strong_ref nd else pending_weak_ref nd.
Definition add_local (sg : bool) (k : Z) (nd : binder_node) : binder_node := if sg then add_strong k nd else add_weak k nd.

Lemma local_of_eq s L n nd sg : local_counts s L n nd → local_of sg nd = Z.b2z (pending_of sg nd) + Z.b2z (manages s n) + held_on n nd sg L.
Proof. intros [L1 L2 _ _]. by destruct sg. Qed.
Lemma local_small s V n nd p sg :
  core_ok s V → nodes s !! n = Some nd → n_proc nd = Some p → not_dying V nd → 0 ≤ local_of sg nd < 2147483648 - 1.
Proof.
  intros Hok Hn Hp Hy. pose proof (alive_counts s V n nd p Hok Hn Hp Hy) as Hlc. rewrite (local_of_eq _ _ _ _ sg Hlc).
  destruct (ct_room _ _ (co_counts _ _ Hok)) as [Hr _]. pose proof (held_on_le n nd sg (v_holds V)). pose proof (held_on_nonneg n nd sg (v_holds V)).
  pose proof (b2z_nonneg (pending_of sg nd)). pose proof (b2z_nonneg (manages s n)). lia.
Qed.

(** One of the things that keep a node goes: a request that was answered ([x] is the node without it) or a hold. *)
Lemma dec_local_ok s V L n nd x p sg :
  core_ok s V → settled V → nodes s !! n = Some nd → n_proc nd = Some p → not_dying V nd →
  n_proc x = n_proc nd → n_ptr x = n_ptr nd → n_refs x = n_refs nd → internal_strong_refs x = internal_strong_refs nd →
  (∀ b, local_of b x = local_of b nd) → has_strong_ref x = has_strong_ref nd → has_weak_ref x = has_weak_ref nd →
  (∀ h, h ∈ L → h ∈ v_holds V) → (length L ≤ length (v_holds V))%nat →
  (∀ m y b, m ≠ n → nodes s !! m = Some y → held_on m y b L = held_on m y b (v_holds V)) →
  (∀ b, pending_of b x = true → pending_of b nd = true) →
  (∀ b, Z.b2z (pending_of b x) + held_on n nd b L = Z.b2z (pending_of b nd) + held_on n nd b (v_holds V) - (if Bool.eqb b sg then 1 else 0)) →
  ∃ s', binder_dec_node n sg false (set_nodes (<[n := x]> (nodes s)) s) = Val s' 0 ∧ core_ok s' (set_holds L V) ∧ calm s s'.
Proof.
  intros Hok Hset Hn Hp Hy Ep Ea Er Ei El Hs Hw HL Hlen Hother Hpend Hcount.
  pose proof (alive_counts s V n nd p Hok Hn Hp Hy) as Hlc. pose proof (local_small s V n nd p sg Hok Hn Hp Hy) as Hsm.
  rewrite (dec_node_eq _ n x) by (cbn; by rewrite lookup_insert_eq). cbn zeta.
  set (x' := add_local sg (-1) x). set (V' := set_pass (if sg then Falling n else Leaving n) (set_holds L V)).
  replace (if sg then add_strong (-1) x else add_weak (-1) x) with x' by (by destruct sg).
  assert (1 ≤ local_of sg nd ∧ local_of sg x' = local_of sg nd - 1) as [Hone Esg].
  { pose proof (Hcount sg) as Hc. rewrite eqb_reflx in Hc. pose proof (local_of_eq _ _ _ _ sg Hlc). pose proof (held_on_nonneg n nd sg L).
    pose proof (b2z_nonneg (pending_of sg x)). pose proof (b2z_nonneg (manages s n)). specialize (El sg).
    unfold x', add_local. split; [lia|]. destruct sg; cbn in *; rewrite i32_small by (unfold is_i32; lia); lia. }
  assert (∀ b, b ≠ sg → local_of b x' = local_of b nd) as Eoth.
  { intros b Hb. rewrite <- El. unfold x', add_local. by destruct b, sg. }
  assert (core_ok (set_nodes (<[n := x']> (nodes s)) s) V') as Hok'.
  { assert (n_proc x' = n_proc nd ∧ n_ptr x' = n_ptr nd ∧ n_refs x' = n_refs nd) as (F1 & F2 & F3) by (unfold x', add_local; by destruct sg).
    assert (pending_strong_ref x' = pending_strong_ref x ∧ pending_weak_ref x' = pending_weak_ref x ∧
      has_strong_ref x' = has_strong_ref nd ∧ has_weak_ref x' = has_weak_ref nd ∧ internal_strong_refs x' = internal_strong_refs nd) as (F4 & F5 & F6 & F7 & F8)
      by (unfold x', add_local; by destruct sg).
    apply (core_node s V V' n nd x'); try done.
    - by apply settled_on.
    - by destruct sg.
    - intros h Hh. by apply (ct_holds _ _ (co_counts _ _ Hok)), HL.
    - cbn. pose proof (ct_room _ _ (co_counts _ _ Hok)). lia.
    - destruct (ct_nodes _ _ (co_counts _ _ Hok) n nd Hn) as [Hi _]. split; [by rewrite F8, F3|]. rewrite F1, Hp. right.
      assert (∀ b, held_on n x' b L = held_on n nd b L) as Eh. { intros b. unfold held_on. f_equal. f_equal. apply filter_ext. intros [q k|q a c]; cbn; by rewrite ?F1, ?F2. }
      assert (∀ b, local_of b x' = Z.b2z (pending_of b x) + Z.b2z (manages s n) + held_on n x' b L) as Hloc.
      { intros b. rewrite Eh. pose proof (Hcount b) as Hc. pose proof (local_of_eq _ _ _ _ b Hlc) as Hl. destruct (decide (b = sg)) as [->|Hb].
        - rewrite eqb_reflx in Hc. lia.
        - rewrite (proj2 (eqb_false_iff b sg) Hb) in Hc. rewrite (Eoth b Hb). lia. }
      constructor.
      + rewrite F4. apply (Hloc true).
      + rewrite F5. apply (Hloc false).
      + rewrite F4, F6. intros E. apply Hlc. by apply (Hpend true).
      + rewrite F5, F7. intros E. apply Hlc. by apply (Hpend false).
    - intros p0 _ Hy0. rewrite Hp in F1.
      destruct (co_told _ _ Hok n nd p Hn Hp (Hy p Hp)) as [?|[?|Hi]]; [auto..|]. right. right. rewrite Hset in Hi.
      assert (node_strong x' = true → node_strong nd = true) as G1.
      { unfold node_strong. rewrite F8. pose proof (Eoth true) as E1. destruct sg; cbn in *; [|by rewrite E1].
        intros [?|E]%orb_true_iff; apply orb_true_iff; [by left|right]. apply negb_true_iff, Z.eqb_neq in E. apply negb_true_iff, Z.eqb_neq. lia. }
      assert (node_weak x' = true → node_weak nd = true) as G2.
      { unfold node_weak. rewrite F3. pose proof (Eoth false) as E1. intros [[?|E]%orb_true_iff|E]%orb_true_iff; rewrite !orb_true_iff.
        - auto.
        - left. right. destruct sg; cbn in *; [by rewrite <- E1|]. apply negb_true_iff, Z.eqb_neq in E. apply negb_true_iff, Z.eqb_neq. lia.
        - right. by apply G1. }
      destruct Hi as [[U1 [?|U2]] [?|[D1 D2]]]; try done. unfold informed. rewrite F6, F7. split.
      + split; [intros E; apply U1; by apply G1|]. right. intros E. apply U2. by apply G2.
      + cbn. destruct sg; [by left|]. right. split; [|by left]. intros E. apply D1 in E. unfold node_strong in *. rewrite F8.
        pose proof (Eoth true) as E1. unfold local_of in E1. by rewrite E1. }
  assert (set_nodes (<[n:=x']> (nodes (set_nodes (<[n:=x]> (nodes s)) s))) (set_nodes (<[n:=x]> (nodes s)) s) = set_nodes (<[n:=x']> (nodes s)) s) as ->.
  { unfold set_nodes. cbn. by rewrite insert_insert_eq. }
  assert (calm s (set_nodes (<[n := x']> (nodes s)) s)) as Hcalm.
  { apply (calm_node s n nd); [done|..]; unfold x', add_local; by destruct sg. }
  assert (nodes (set_nodes (<[n := x']> (nodes s)) s) !! n = Some x') as Hn' by (cbn; by rewrite lookup_insert_eq).
  assert (n_proc x' = Some p) as Hpx by (unfold x', add_local; destruct sg; cbn; by rewrite Ep).
  assert (not_dying V' x') as Hyx by (intros q Hq; rewrite Hpx in Hq; injection Hq as <-; by apply Hy).
  destruct sg.
  - destruct (rest_strong_ok _ V' n x' Hok' Hn') as (s' & E & Hok'' & Hc'); [done|done|done|congruence|].
    exists s'. split; [done|]. split; [|by eapply calm_trans]. unfold set_pass, set_holds in *. cbn in *. by rewrite Hset.
  - destruct (rest_weak_ok _ V' n x' Hok' Hn') as (s' & E & Hok'' & Hc'); [done|by left|done|].
    exists s'. split; [done|]. split; [|by eapply calm_trans]. unfold set_pass, set_holds in *. cbn in *. by rewrite Hset.
Qed.

Lemma set_nodes_same s n nd : nodes s !! n = Some nd → set_nodes (<[n := nd]> (nodes s)) s = s.
Proof. intros Hn. unfold set_nodes. rewrite insert_id by done. by destruct s. Qed.

(** A hold goes. *)
Lemma dec_hold_ok s V h L n nd p sg :
  core_ok s V → settled V → v_holds V ≡ₚ h :: L → nodes s !! n = Some nd → n_proc nd = Some p → not_dying V nd → on n nd sg h = true →
  ∃ s', binder_dec_node n sg false s = Val s' 0 ∧ core_ok s' (set_holds L V) ∧ calm s s'.
Proof.
  intros Hok Hset HL Hn Hp Hy Hon. 
  enough (∃ s', binder_dec_node n sg false (set_nodes (<[n := nd]> (nodes s)) s) = Val s' 0 ∧ core_ok s' (set_holds L V) ∧ calm s s') as Hd
    by (by rewrite set_nodes_same in Hd).
  apply (dec_local_ok s V L n nd nd p sg); try done.
  - intros k Hk. rewrite HL. by right.
  - rewrite HL. cbn. lia.
  - intros m y b Hm Hmy. rewrite (held_on_perm _ _ _ _ _ (Permutation_sym HL)), held_on_cons.
    destruct (on m y b h) eqn:E; [|done]. destruct (on_unique s V n m nd y sg b h); [done..|congruence].
  - intros b. rewrite (held_on_perm _ _ _ _ _ (Permutation_sym HL)), held_on_cons. destruct (decide (b = sg)) as [->|Hb].
    + rewrite Hon, eqb_reflx. cbn. lia.
    + rewrite (proj2 (eqb_false_iff b sg) Hb). destruct (on n nd b h) eqn:E; [|cbn; lia].
      destruct (on_unique s V n n nd nd sg b h); [done..|congruence].
Qed.

Lemma get_node_ok s V p P a :
  core_ok s V → procs s !! p = Some P →
  ∃ r, binder_get_node p a s = Val s r ∧
    match r with Some n => ∃ nd, nodes s !! n = Some nd ∧ n_proc nd = Some p ∧ n_ptr nd = a | None => ∀ n l, node_id s n ≠ Some (Some p, a, l) end.
Proof.
  intros Hok HP. destruct (tb_nodes _ (co_tables _ _ Hok) p P HP) as [Hi Hin].
  destruct (find_key_spec (node_key s) a (p_nodes P) Hi) as (r & E & Hr).
  exists r. split; [unfold binder_get_node; rewrite (bind_val _ _ _ _ _ (the_proc_eq _ _ _ HP)); run_m; unfold deref; by rewrite E|].
  destruct r as [n|].
  - destruct Hr as [Hn Hk]. apply Hin in Hn as (a' & l & Hid). rewrite node_key_id, Hid in Hk. injection Hk as ->.
    apply node_id_inv in Hid as (nd & ? & ? & ? & _). eauto.
  - intros n l Hid. apply (Hr n); [apply Hin; eauto|]. by rewrite node_key_id, Hid.
Qed.

(** The owner has done what it was asked for. *)
Lemma done_command_ok s V p P sg a cookie :
  core_ok s V → settled V → v_dying V = None → procs s !! p = Some P →
  ∃ s', binder_done_command p sg a cookie false s = Val s' tt ∧ core_ok s' V ∧ calm s s'.
Proof.
  intros Hok Hset Hdy HP. unfold binder_done_command. destruct (get_node_ok s V p P a Hok HP) as (r & E & Hr).
  rewrite (bind_val _ _ _ _ _ E). destruct r as [n|]; [|exists s; split; [done|]; by split; [|apply calm_refl]].
  destruct Hr as (nd & Hn & Hp & _). rewrite (bind_val _ _ _ _ _ (the_node_eq _ _ _ Hn)).
  destruct (negb (cookie =? n_cookie nd)); [exists s; split; [done|]; by split; [|apply calm_refl]|].
  destruct (negb (if sg then pending_strong_ref nd else pending_weak_ref nd)) eqn:Hpd; [exists s; split; [done|]; by split; [|apply calm_refl]|].
  apply negb_false_iff in Hpd. set (x := if sg then _ else _).
  destruct (dec_local_ok s V (v_holds V) n nd x p sg) as (s' & Es & Hok' & Hc); try done; unfold x; try (by destruct sg).
  - intros q _. by rewrite Hdy.
  - by intros []; destruct sg.
  - intros []; destruct sg; cbn in *; rewrite ?Hpd; cbn; lia.
  - exists s'. split; [|split; [by destruct V|done]]. fold x.
    rewrite (bind_val (put_node n x) _ s (set_nodes (<[n := x]> (nodes s)) s) tt) by done. by rewrite (bind_val _ _ _ _ _ Es).
Qed.

(** Something more keeps a node that is kept already: nobody has to be told. *)
Lemma core_add_hold s V h n nd p sg :
  core_ok s V → settled V → nodes s !! n = Some nd → n_proc nd = Some p → not_dying V nd → on n nd sg h = true → hold_ok s h →
  Z.of_nat (length (v_holds V)) + 4 < 2147483648 → (if sg then node_strong nd else node_weak nd) = true →
  core_ok (set_nodes (<[n := add_local sg 1 nd]> (nodes s)) s) (set_holds (h :: v_holds V) V).
Proof.
  intros Hok Hset Hn Hp Hy Hon Hh Hroom Hkept.
  pose proof (alive_counts s V n nd p Hok Hn Hp Hy) as Hlc. pose proof (local_small s V n nd p sg Hok Hn Hp Hy) as Hsm.
  assert (local_of sg (add_local sg 1 nd) = local_of sg nd + 1) as Esg.
  { unfold add_local. destruct sg; cbn in *; rewrite i32_small by (unfold is_i32; lia); lia. }
  apply (core_node s V _ n nd); try done; try (by destruct sg); cbn.
  - by apply settled_on.
  - by rewrite Hset.
  - intros m y b Hm Hmy. rewrite held_on_cons. destruct (on m y b h) eqn:E; [|done].
    destruct (on_unique s V n m nd y sg b h); [done..|congruence].
  - intros k [->|Hk]%elem_of_cons; [done|]. by apply (ct_holds _ _ (co_counts _ _ Hok)).
  - lia.
  - destruct (ct_nodes _ _ (co_counts _ _ Hok) n nd Hn) as [Hi _]. split; [by destruct sg|].
    replace (n_proc (add_local sg 1 nd)) with (Some p) by (by destruct sg). right. cbn.
    assert (∀ b, on n nd b h = Bool.eqb b sg) as Eon.
    { intros b. destruct (decide (b = sg)) as [->|Hb]; [by rewrite eqb_reflx|]. rewrite (proj2 (eqb_false_iff b sg) Hb).
      apply not_true_iff_false. intros E. destruct (on_unique s V n n nd nd sg b h); [done..|congruence]. }
    assert (∀ b, local_of b (add_local sg 1 nd) = Z.b2z (pending_of b nd) + Z.b2z (manages s n) + held_on n nd b (h :: v_holds V)) as Hl.
    { intros b. rewrite held_on_cons, Eon. pose proof (local_of_eq _ _ _ _ b Hlc). destruct (decide (b = sg)) as [->|Hb].
      - rewrite eqb_reflx, Esg. cbn. lia.
      - rewrite (proj2 (eqb_false_iff b sg) Hb). cbn. destruct b, sg; cbn in *; congruence || lia. }
    destruct Hlc as [_ _ L3 L4]. pose proof (Hl true) as Ht. pose proof (Hl false) as Hf. destruct sg; by constructor.
  - intros p0 _ _. destruct (co_told _ _ Hok n nd p Hn Hp (Hy p Hp)) as [?|[?|Hi]]; [auto..|]. right. right.
    assert (node_strong (add_local sg 1 nd) = node_strong nd ∧ node_weak (add_local sg 1 nd) = node_weak nd) as [E1 E2].
    { pose proof (Hsm) as [H0 _]. destruct sg; cbn in Esg, Hsm, H0.
      - assert (node_strong (add_local true 1 nd) = true) as Es. { unfold node_strong. cbn. rewrite Esg. apply orb_true_iff. right. apply negb_true_iff, Z.eqb_neq. lia. }
        unfold node_weak. rewrite Es, Hkept. cbn. by rewrite !orb_true_r.
      - split; [done|]. rewrite Hkept. unfold node_weak. cbn. rewrite Esg, !orb_true_iff. left. right. apply negb_true_iff, Z.eqb_neq. lia. }
    unfold informed in *. rewrite E1, E2. by destruct sg.
Qed.
Lemma inc_hold_eq s n nd sg :
  nodes s !! n = Some nd → ∃ ret, binder_inc_node n sg false None s = Val (set_nodes (<[n := add_local sg 1 nd]> (nodes s)) s) ret.
Proof.
  intros Hn. unfold binder_inc_node. rewrite (bind_val _ _ _ _ _ (the_node_eq _ _ _ Hn)). destruct sg; cbn [andb].
  - run_m. unfold put_node, modify. by eexists.
  - run_m. unfold put_node, list_empty. run_m. destruct (negb (has_weak_ref nd) && _); by eexists.
Qed.
End holds.

(** ** What the owner reads *)

Section reading.
Context `{RbTree}.

Lemma core_tell s V n nd nd' p :
  core_ok s V → settled V → nodes s !! n = Some nd → n_proc nd = Some p → linked (WNode n) (todo s) = true →
  n_proc nd' = n_proc nd → n_ptr nd' = n_ptr nd → n_refs nd' = n_refs nd → internal_strong_refs nd' = internal_strong_refs nd →
  local_counts s (v_holds V) n nd' → core_ok (set_nodes (<[n := nd']> (nodes s)) s) V.
Proof.
  intros Hok Hset Hn Hp Hl E1 E2 E3 E4 Hlc. apply (core_node s V V n nd nd'); try done.
  - by apply settled_on.
  - by apply settled_on.
  - apply Hok.
  - apply (ct_room _ _ (co_counts _ _ Hok)).
  - destruct (ct_nodes _ _ (co_counts _ _ Hok) n nd Hn) as [Hi _]. split; [by rewrite E3, E4|]. rewrite E1, Hp. by right.
  - intros. by left.
Qed.

Lemma not_strong_zero s V n nd :
  core_ok s V → nodes s !! n = Some nd → node_strong nd = false → strong_count s (n_refs nd) = 0 ∧ local_strong_refs nd = 0.
Proof.
  unfold node_strong. intros Hok Hn [E1 E2]%orb_false_iff. apply negb_false_iff, Z.eqb_eq in E1, E2.
  destruct (ct_nodes _ _ (co_counts _ _ Hok) n nd Hn) as [Hi _]. lia.
Qed.
Lemma not_weak_zero nd : node_weak nd = false → n_refs nd = [] ∧ local_weak_refs nd = 0 ∧ node_strong nd = false.
Proof.
  unfold node_weak. intros [[E1 E2]%orb_false_iff E3]%orb_false_iff. apply negb_false_iff, bool_decide_eq_true in E1. apply negb_false_iff, Z.eqb_eq in E2. done.
Qed.

(** The commands that the four cases of [read_node_work] stand for, and what is known then. *)
Lemma read_node_ok s V p n nd fault :
  core_ok s V → settled V → v_dying V = None → nodes s !! n = Some nd → n_proc nd = Some p → linked (WNode n) (todo s) = true →
  ∃ s' b, read_node_work p n fault s = Val s' b ∧ core_ok s' V ∧ calm s s'.
Proof.
  intros Hok Hset Hdy Hn Hp Hl. assert (not_dying V nd) as Hy by (intros q _; by rewrite Hdy).
  pose proof (alive_counts s V n nd p Hok Hn Hp Hy) as Hlc. pose proof (local_small s V n nd p true Hok Hn Hp Hy) as Hs1.
  pose proof (local_small s V n nd p false Hok Hn Hp Hy) as Hs2. cbn in Hs1, Hs2. destruct Hlc as [L1 L2 L3 L4] eqn:Hlc'. clear Hlc'.
  assert (∀ nd' cmd, n_proc nd' = n_proc nd → n_ptr nd' = n_ptr nd → n_refs nd' = n_refs nd → internal_strong_refs nd' = internal_strong_refs nd →
    local_counts s (v_holds V) n nd' →
    ∃ s' b, (put_node n nd';; mret (if fault then Fault else cmd (n_ptr nd) (n_cookie nd) : br)) s = Val s' b ∧ core_ok s' V ∧ calm s s') as Htell.
  { intros nd' cmd E1 E2 E3 E4 Hc. do 2 eexists. split; [done|]. split; [by apply (core_tell s V n nd nd' p)|by apply (calm_node s n nd)]. }
  pose proof (held_on_nonneg n nd true (v_holds V)). pose proof (held_on_nonneg n nd false (v_holds V)).
  pose proof (b2z_nonneg (manages s n)). pose proof (b2z_nonneg (pending_strong_ref nd)). pose proof (b2z_nonneg (pending_weak_ref nd)).
  unfold read_node_work. rewrite (bind_val _ _ _ _ _ (the_node_eq _ _ _ Hn)). cbn zeta.
  destruct (node_weak nd && negb (has_weak_ref nd)) eqn:B1; [|destruct (node_strong nd && negb (has_strong_ref nd)) eqn:B2;
    [|destruct (negb (node_strong nd) && has_strong_ref nd) eqn:B3; [|destruct (negb (node_weak nd) && has_weak_ref nd) eqn:B4]]].
  - apply Htell; try done. apply andb_true_iff in B1 as [_ B1%negb_true_iff].
    assert (pending_weak_ref nd = false) as Ep by (destruct (pending_weak_ref nd); [|done]; rewrite L4 in B1; done).
    rewrite Ep in L2. constructor; cbn; try done. rewrite i32_small by (unfold is_i32; lia).
    change (held_on n (add_weak 1 _) false (v_holds V)) with (held_on n nd false (v_holds V)). cbn in L2.
    lia.
  - apply Htell; try done. apply andb_true_iff in B2 as [_ B2%negb_true_iff].
    assert (pending_strong_ref nd = false) as Ep by (destruct (pending_strong_ref nd); [|done]; rewrite L3 in B2; done).
    rewrite Ep in L1. constructor; cbn; try done. rewrite i32_small by (unfold is_i32; lia).
    change (held_on n (add_strong 1 _) true (v_holds V)) with (held_on n nd true (v_holds V)). cbn in L1. lia.
  - apply Htell; try done. apply andb_true_iff in B3 as [B3%negb_true_iff _]. destruct (not_strong_zero s V n nd Hok Hn B3) as [_ E0].
    constructor; cbn; try done. intros E. rewrite E in L1. cbn in L1. lia.
  - apply Htell; try done. apply andb_true_iff in B4 as [B4%negb_true_iff _]. destruct (not_weak_zero nd B4) as (_ & E0 & _).
    constructor; cbn; try done. intros E. rewrite E in L2. cbn in L2. lia.
  - rewrite (bind_val (list_del_init _) _ s (set_todo (unlink (WNode n) (todo s)) s) tt) by done.
    destruct (node_weak nd) eqn:Ew; cbn [negb andb] in *.
    + do 2 eexists. split; [done|]. split; [|apply calm_todo; intros; apply death_in_unlink].
      apply (core_unlink s V V n); try done; [by apply settled_on|by apply settled_on| |intros nd0 G0; congruence].
      intros nd0 p0 G0 _ _. rewrite Hn in G0. injection G0 as <-. right. unfold informed. rewrite Ew.
      destruct (node_strong nd), (has_strong_ref nd), (has_weak_ref nd); cbn in *; try done; naive_solver.
    + destruct (not_weak_zero nd Ew) as (E1 & E2 & E3). destruct (not_strong_zero s V n nd Hok Hn E3) as [_ E4]. rewrite E3. cbn [negb].
      destruct (owner_proc s V n nd p Hok Hn Hp) as [P HP]. rewrite (bind_val _ _ _ _ _ (the_proc_eq (set_todo _ s) p P HP)).
      destruct (counts_zero s _ n nd Hlc E4 E2) as [Hm Hh]. do 2 eexists. split; [done|]. split.
      * replace V with (set_pass Settled V) by (destruct V; unfold settled in Hset; cbn in Hset; by subst).
        apply (core_gone s _ V n nd); try done.
        -- apply (tables_drop_node s _ n nd p P); try done. apply Hok.
        -- intros q [Q HQ]. cbn. destruct (decide (q = p)) as [->|Hne]; [rewrite lookup_insert_eq|rewrite lookup_insert_ne by done]; eauto.
        -- by apply settled_on.
      * constructor; try done.
        -- intros q. unfold ref_trees. cbn. destruct (decide (q = p)) as [->|Hne]; [by rewrite lookup_insert_eq, HP|by rewrite lookup_insert_ne by done].
        -- intros m i. unfold node_id. cbn. destruct (decide (m = n)) as [->|Hm']; [by rewrite lookup_delete_eq|by rewrite lookup_delete_ne].
        -- intros q d. apply death_in_unlink.
Qed.
End reading.
