(* ===== verification/BinderRefsTab.v ===== *)
(** * References of the binder driver: the invariant is kept

    Finding, making, counting and dropping references ([BinderRefs.binder_get_ref] and its fellows): each returns and
    keeps the invariant of [BinderRefsInv]. *)

From S2P Require Import Prelude Kernel Trees BinderRefs BinderRefsInv.

(** What a change of counts leaves alone. *)
Record quiet (s s' : world) : Prop := {
  qt_procs : procs s' = procs s;
  qt_contexts : contexts s' = contexts s;
  qt_deaths : deaths s' = deaths s;
  qt_nodes : ∀ m, node_id s' m = node_id s m;
  qt_cookies : ∀ m, n_cookie <$> nodes s' !! m = n_cookie <$> nodes s !! m;
  qt_refs : ∀ r, ref_id s' r = ref_id s r;
  qt_deaths_of : ∀ r, ref_work s' r = ref_work s r;
  qt_todo : ∀ q d, (q, WDeath d) ∈ todo s' ↔ (q, WDeath d) ∈ todo s;
}.
Lemma quiet_refl s : quiet s s.
Proof. by constructor. Qed.
Lemma quiet_trans s1 s2 s3 : quiet s1 s2 → quiet s2 s3 → quiet s1 s3.
Proof.
  intros [A1 A2 A3 A4 A5 A6 A7 A8] [B1 B2 B3 B4 B5 B6 B7 B8].
  constructor; [congruence..| | | | |]; intros; rewrite ?B4, ?B5, ?B6, ?B7, ?B8; auto.
Qed.

(** ** Counts of a reference *)

Lemma strong_count_cons s r l : strong_count s (r :: l) = Z.b2z (strong_of s r) + strong_count s l.
Proof. unfold strong_count. cbn. destruct (strong_of s r); cbn [length Z.b2z]; lia. Qed.
Lemma strong_count_ext s s' l : (∀ r, r ∈ l → strong_of s' r = strong_of s r) → strong_count s' l = strong_count s l.
Proof.
  induction l as [|r l IH]; intros E; [done|]. rewrite !strong_count_cons, E by (by left). rewrite IH; [done|]. intros x Hx. apply E. by right.
Qed.
Lemma strong_count_upd s s' r l :
  NoDup l → r ∈ l → (∀ x, x ≠ r → strong_of s' x = strong_of s x) →
  strong_count s' l = strong_count s l + Z.b2z (strong_of s' r) - Z.b2z (strong_of s r).
Proof.
  induction l as [|x l IH]; [by intros _ ?%elem_of_nil|]. intros [Hx Hl]%list.NoDup_cons Hr E. rewrite !strong_count_cons.
  apply elem_of_cons in Hr as [->|Hr].
  - rewrite (strong_count_ext s s' l); [lia|]. intros y Hy. apply E. congruence.
  - rewrite IH by done. rewrite E; [lia|]. congruence.
Qed.

Definition nonzero (k : Z) : bool := negb (k =? 0).
Lemma strong_of_some s r x : refs s !! r = Some x → strong_of s r = nonzero (r_strong x).
Proof. unfold strong_of. by intros ->. Qed.

Definition ref_and_node (r : Z) (x : binder_ref) (n : Z) (nd : binder_node) (s : world) : world :=
  set_refs (<[r := x]> (refs s)) (set_nodes (<[n := nd]> (nodes s)) s).

Section ref_counts.
Context (s : world) (V : view) (r : Z) (x x' : binder_ref) (n : Z) (nd nd' : binder_node).
Context (Hok : core_ok s V) (Hr : refs s !! r = Some x) (Hrn : r_node x = n) (Hn : nodes s !! n = Some nd).
Context (Er1 : r_proc x' = r_proc x) (Er2 : r_node x' = r_node x) (Er3 : r_desc x' = r_desc x) (Er4 : r_death x' = r_death x).
Context (En1 : n_proc nd' = n_proc nd) (En2 : n_ptr nd' = n_ptr nd) (En3 : n_refs nd' = n_refs nd) (En4 : n_cookie nd' = n_cookie nd).
Let s' : world := ref_and_node r x' n nd' s.

Lemma rn_node_id m : node_id s' m = node_id s m.
Proof.
  unfold node_id, s', ref_and_node. cbn. destruct (decide (m = n)) as [->|Hm]; [|by rewrite lookup_insert_ne].
  rewrite lookup_insert_eq, Hn. cbn. by rewrite En1, En2, En3.
Qed.
Lemma rn_ref_id k : ref_id s' k = ref_id s k.
Proof.
  unfold ref_id, s', ref_and_node. cbn. destruct (decide (k = r)) as [->|Hk]; [|by rewrite lookup_insert_ne].
  rewrite lookup_insert_eq, Hr. cbn. by rewrite Er1, Er2, Er3.
Qed.
Lemma rn_ref_work k : ref_work s' k = ref_work s k.
Proof.
  unfold ref_work, s', ref_and_node. cbn. destruct (decide (k = r)) as [->|Hk]; [|by rewrite lookup_insert_ne].
  rewrite lookup_insert_eq, Hr. cbn. by rewrite Er1, Er2, Er4.
Qed.
Lemma rn_quiet : quiet s s'.
Proof.
  constructor; try done; [apply rn_node_id| |apply rn_ref_id|apply rn_ref_work].
  intros m. unfold s', ref_and_node. cbn. destruct (decide (m = n)) as [->|Hm]; [|by rewrite lookup_insert_ne].
  rewrite lookup_insert_eq, Hn. cbn. by rewrite En4.
Qed.
Lemma rn_mine : NoDup (n_refs nd) ∧ r ∈ n_refs nd ∧ ∀ m y, nodes s !! m = Some y → m ≠ n → r ∉ n_refs y.
Proof.
  destruct (tb_refs _ (co_tables _ _ Hok) _ _ _ _ (node_id_some _ _ _ Hn)) as [Hd Hin].
  pose proof (ref_id_some _ _ _ Hr) as Hid. rewrite Hrn in Hid. split; [done|]. split; [apply Hin; eauto|].
  intros m y Hm Hne Hy. destruct (tb_refs _ (co_tables _ _ Hok) _ _ _ _ (node_id_some _ _ _ Hm)) as [_ Hin'].
  apply Hin' in Hy as (q & d & E). congruence.
Qed.
Lemma rn_strong_other k : k ≠ r → strong_of s' k = strong_of s k.
Proof. intros Hk. unfold strong_of, s', ref_and_node. cbn. by rewrite lookup_insert_ne. Qed.

(** The counts of a reference and of its node change together. *)
Lemma core_ref V' :
  pass_on (v_pass V) n → pass_on (v_pass V') n → v_holds V' = v_holds V → v_lost V' = v_lost V → v_dying V' = v_dying V →
  internal_strong_refs nd' = internal_strong_refs nd + Z.b2z (nonzero (r_strong x')) - Z.b2z (nonzero (r_strong x)) →
  local_strong_refs nd' = local_strong_refs nd → local_weak_refs nd' = local_weak_refs nd →
  pending_strong_ref nd' = pending_strong_ref nd → pending_weak_ref nd' = pending_weak_ref nd →
  has_strong_ref nd' = has_strong_ref nd → has_weak_ref nd' = has_weak_ref nd →
  0 ≤ r_strong x' < 2147483648 → 0 ≤ r_weak x' < 2147483648 →
  (∀ p, n_proc nd = Some p → v_dying V ≠ Some p → linked (WNode n) (todo s) = true ∨ n ∈ v_lost V ∨ informed (v_pass V') n nd') →
  core_ok s' V'.
Proof using Hok Hr Hrn Hn Er1 Er2 Er3 Er4 En1 En2 En3.
  intros Hx Hx' Eh El Ey Ei F1 F2 F3 F4 F5 F6 Hs Hw Ht. destruct rn_mine as (Hnd & Hrin & Hoth).
  destruct Hok as [Htab [C1 C2 C3 C4] Hd Hwk].
  assert (refs s' !! r = Some x') as Hr' by (unfold s', ref_and_node; cbn; by rewrite lookup_insert_eq).
  constructor.
  - apply (tables_ext s); try done; [apply rn_node_id|apply rn_ref_id].
  - constructor.
    + intros m y. unfold s' at 1, ref_and_node. cbn. destruct (decide (m = n)) as [->|Hm].
      * rewrite lookup_insert_eq. intros [= <-]. destruct (C1 n nd Hn) as [Hi Hp]. split.
        -- rewrite En3, (strong_count_upd s s' r) by (done || apply rn_strong_other).
           rewrite (strong_of_some _ _ _ Hr'), (strong_of_some _ _ _ Hr). lia.
        -- rewrite En1, F1, F2, En3, Ey, Eh. destruct (n_proc nd) as [p|] eqn:Ep.
           ++ destruct Hp as [?|[L1 L2 L3 L4]]; [by left|right].
              assert (∀ b L, held_on n nd' b L = held_on n nd b L) as Eho.
              { intros b L. unfold held_on. f_equal. f_equal. apply filter_ext. intros [q k|q a c]; cbn; by rewrite ?En1, ?En2, ?Ep. }
              constructor; rewrite ?F1, ?F2, ?F3, ?F4, ?F5, ?F6, ?Eho; done.
           ++ destruct Hp as (? & ? & _). split_and!; [done..|]. left. intros E. rewrite E in Hrin. by apply elem_of_nil in Hrin.
      * rewrite lookup_insert_ne by done. intros Hmy. specialize (C1 m y Hmy).
        apply (counts_other s V V' n) in C1; try done; [|by rewrite Eh]. destruct C1 as [Hi Hp].
        split; [|destruct (n_proc y); [destruct Hp as [?|[]]; [by left|right; by constructor]|done]].
        rewrite Hi. symmetry. apply strong_count_ext. intros k Hk. apply rn_strong_other. intros ->. by apply (Hoth m y).
    + intros k y. unfold s', ref_and_node. cbn. destruct (decide (k = r)) as [->|Hk]; [rewrite lookup_insert_eq; intros [= <-]; done|].
      rewrite lookup_insert_ne by done. apply C2.
    + rewrite Eh. intros h Hh. apply (hold_ok_ext s); [apply rn_node_id|by apply C3].
    + rewrite Eh. split; [apply C4|]. unfold s', ref_and_node. cbn. rewrite map_size_insert_Some by eauto. apply C4.
  - intros m y p. unfold s' at 1, ref_and_node. cbn. rewrite Ey, El. destruct (decide (m = n)) as [->|Hm].
    + rewrite lookup_insert_eq. intros [= <-]. rewrite En1. apply Ht.
    + rewrite lookup_insert_ne by done. intros H1 H2 H3. destruct (Hd m y p H1 H2 H3) as [?|[?|?]]; [auto..|].
      right. right. by apply (informed_swap (v_pass V) _ n).
  - apply (works_ext s); try done; [apply rn_node_id|apply rn_ref_work].
Qed.
End ref_counts.

Section references.
Context `{RbTree}.

Lemma get_ref_ok s V p P d need :
  core_ok s V → procs s !! p = Some P →
  ∃ found, binder_get_ref p d need s = Val s found ∧
    match found with
    | Some r => ∃ x, refs s !! r = Some x ∧ r_proc x = p ∧ r_desc x = d ∧ (need = true → r_strong x ≠ 0)
    | None => ∀ r x, refs s !! r = Some x → r_proc x = p → r_desc x = d → need = true ∧ r_strong x = 0
    end.
Proof.
  intros Hok HP. destruct (tb_by_desc _ (co_tables _ _ Hok) p P HP) as [Hi Hin]. unfold binder_get_ref.
  rewrite (bind_val _ _ _ _ _ (the_proc_eq _ _ _ HP)), (bind_val get _ s s s) by done.
  destruct (find_key_spec (desc_key s) d (refs_by_desc P) Hi) as (found & E & Hf). rewrite E. destruct found as [r|].
  - destruct Hf as [(n & d' & Hid)%Hin Hk]. rewrite desc_key_id, Hid in Hk. injection Hk as ->.
    apply ref_id_inv in Hid as (x & Hx & Ep & En & Ed). cbn [deref]. rewrite (bind_val (mret _) _ s s (Some r)) by done.
    rewrite (bind_val _ _ _ _ _ (the_ref_eq _ _ _ Hx)). eexists. split; [done|].
    destruct (need && (r_strong x =? 0)) eqn:Hs.
    + apply andb_true_iff in Hs as [-> Hs%Z.eqb_eq]. intros r' x' Hx' Ep' Ed'. assert (r' = r) as ->; [|split; congruence].
      apply (increasing_inj (desc_key s) (inorder (refs_by_desc P)) r' r d); [done|apply Hin|apply Hin| |].
      * exists (r_node x'), d. by rewrite (ref_id_some _ _ _ Hx'), Ep', Ed'.
      * exists n, d. by rewrite (ref_id_some _ _ _ Hx), Ep, En, Ed.
      * by rewrite desc_key_id, (ref_id_some _ _ _ Hx'), <- Ed'.
      * by rewrite desc_key_id, (ref_id_some _ _ _ Hx), <- Ed.
    + exists x. split_and!; try done. intros ->. cbn in Hs. by apply Z.eqb_neq in Hs.
  - exists None. split; [done|]. intros r x Hx Ep Ed. exfalso. apply (Hf r).
    + apply Hin. exists (r_node x), d. by rewrite (ref_id_some _ _ _ Hx), Ep, Ed.
    + by rewrite desc_key_id, (ref_id_some _ _ _ Hx), <- Ed.
Qed.

(** What the target list of an increment says about the node. *)
Definition target_ok (V : view) (n : Z) (nd : binder_node) (x : binder_ref) (target : option queue) : Prop :=
  match target with
  | None => settled V
  | Some q => n_proc nd = Some (queue_proc q) ∧ is_delivered q = false ∧
      (settled V ∨ v_pass V = Rising n ∧ r_strong x = 0 ∧ r_weak x = 0)
  end.
Lemma target_on V n nd x target : target_ok V n nd x target → pass_on (v_pass V) n ∧ v_pass V ≠ Falling n ∧ v_pass V ≠ Leaving n.
Proof.
  unfold target_ok, settled. destruct target as [q|]; [|by intros ->]. intros (_ & _ & [->|(-> & _)]); done.
Qed.
Lemma target_settled V n nd x target : target_ok V n nd x target → r_strong x ≠ 0 ∨ r_weak x ≠ 0 → settled V.
Proof. unfold target_ok. destruct target as [q|]; [|done]. intros (_ & _ & [?|(_ & ? & ?)]) [?|?]; done. Qed.

Lemma is_context_mgr_ok s V n nd :
  core_ok s V → nodes s !! n = Some nd → ∃ b, is_context_mgr n nd s = Val s b ∧ (b = true → is_Some (n_proc nd) ∧ manages s n = true).
Proof.
  intros Hok Hn. unfold is_context_mgr. destruct (n_proc nd) as [p|] eqn:Hp; [|by exists false].
  destruct (owner_proc s V n nd p Hok Hn Hp) as [P HP]. destruct (tb_context _ (co_tables _ _ Hok) p P HP) as [C HC].
  rewrite (bind_val _ _ _ _ _ (the_proc_eq _ _ _ HP)), (bind_val _ _ _ _ _ (the_context_eq _ _ _ HC)). eexists. split; [done|].
  rewrite bool_decide_eq_true. intros Hm. split; [done|]. apply manages_true. eauto.
Qed.

(** A strong increment of a node for a reference: the node, and where its work is then. *)
Lemma inc_internal_ok s V n nd x target :
  core_ok s V → nodes s !! n = Some nd → not_dying V nd → target_ok V n nd x target →
  (∃ ret, binder_inc_node n true true target s = Val s ret ∧ ret ≠ 0 ∧ settled V) ∨
  (∃ l, binder_inc_node n true true target s = Val (set_todo l (set_nodes (<[n := add_internal 1 nd]> (nodes s)) s)) 0 ∧
     core_ok (set_todo l s) V ∧ (∀ q d, (q, WDeath d) ∈ l ↔ (q, WDeath d) ∈ todo s) ∧
     (∀ p, n_proc nd = Some p → linked (WNode n) l = true ∨ n ∈ v_lost V ∨ has_strong_ref nd = true ∧ has_weak_ref nd = true)).
Proof.
  intros Hok Hn Hy Ht. destruct (target_on V n nd x target Ht) as (Hx & Hf & Hl). unfold binder_inc_node.
  rewrite (bind_val _ _ _ _ _ (the_node_eq _ _ _ Hn)). destruct target as [q|].
  - cbn [andb is_Some bool_decide]. rewrite bool_decide_eq_true_2 by eauto. cbn [negb andb]. rewrite (bind_val (mret false) _ s s false) by done.
    right. destruct Ht as (Hp & Hq & Hpass). destruct (has_strong_ref nd) eqn:Hs.
    + exists (todo s). split; [by destruct s|]. split; [by rewrite set_todo_same|]. split; [done|]. intros p Hp0.
      destruct (co_told _ _ Hok n nd p Hn Hp0 (Hy p Hp0)) as [?|[?|[[U1 _] [?|[D1 _]]]]]; [auto..|done|].
      right. right. split; [done|]. by apply U1, D1.
    + exists (unlink (WNode n) (todo s) ++ [(q, WNode n)]). split.
      * unfold put_node, list_del_init. run_m. unfold list_add_tail. cbn [todo set_todo set_nodes].
        rewrite linked_unlink, bool_decide_eq_true_2, andb_false_r by done. done.
      * pose proof (core_enqueue s V n nd q Hok Hn Hp Hq Hx) as Hok'.
        assert (linked (WNode n) (unlink (WNode n) (todo s) ++ [(q, WNode n)]) = true) as Hlk.
        { apply linked_add. }
        split; [|split; [intros q' d; by rewrite death_in_enqueue, death_in_unlink|auto]].
        apply (core_pass _ _ V n Hok'); try done; [auto|]. intros nd0 H0 Hp0. cbn in H0. congruence.
  - destruct (is_context_mgr_ok s V n nd Hok Hn) as (b & Eb & Hb). rewrite bool_decide_eq_false_2 by (by intros [? ?]). cbn [andb negb].
    destruct (internal_strong_refs nd =? 0) eqn:E0.
    + rewrite (bind_val _ _ s s (negb (b && has_strong_ref nd))) by (rewrite (bind_val _ _ _ _ _ Eb); done).
      destruct (b && has_strong_ref nd) eqn:Hbs; cbn [negb].
      * right. apply andb_true_iff in Hbs as [-> Hs]. destruct (Hb eq_refl) as [[p Hp] Hm].
        exists (todo s). split; [by destruct s|]. split; [by rewrite set_todo_same|]. split; [done|]. intros p0 _.
        pose proof (alive_counts s V n nd p Hok Hn Hp Hy) as [_ L2 _ _]. rewrite Hm in L2.
        pose proof (held_on_nonneg n nd false (v_holds V)). pose proof (b2z_nonneg (pending_weak_ref nd)).
        destruct (co_told _ _ Hok n nd p Hn Hp (Hy p Hp)) as [?|[?|[[_ [E|U2]] _]]]; [auto..|unfold settled in Ht; cbn in Ht; congruence|].
        right. right. split; [done|]. apply U2. unfold node_weak. rewrite !orb_true_iff. left. right. apply negb_true_iff, Z.eqb_neq. cbn in L2. lia.
      * left. exists (- EINVAL). by split.
    + right. rewrite (bind_val (mret false) _ s s false) by done.
      exists (todo s). split; [by destruct s|]. split; [by rewrite set_todo_same|]. split; [done|]. intros p Hp.
      destruct (co_told _ _ Hok n nd p Hn Hp (Hy p Hp)) as [?|[?|[[U1 _] _]]]; [auto..|]. right. right. apply U1. unfold node_strong. by rewrite E0.
Qed.
Lemma strong_count_less s l r : r ∈ l → strong_of s r = false → strong_count s l + 1 ≤ Z.of_nat (length l).
Proof.
  intros Hr E. unfold strong_count. induction l as [|x l IH]; [by apply elem_of_nil in Hr|]. cbn.
  pose proof (filter_length_le (strong_of s) l). apply elem_of_cons in Hr as [<-|Hr]; [rewrite E; lia|]. specialize (IH Hr).
  destruct (strong_of s x); cbn; lia.
Qed.
Lemma internal_room s V r x n nd :
  core_ok s V → refs s !! r = Some x → r_node x = n → r_strong x = 0 → nodes s !! n = Some nd → 0 ≤ internal_strong_refs nd < 2147483647.
Proof.
  intros Hok Hr Hrn E0 Hn. destruct (ct_nodes _ _ (co_counts _ _ Hok) n nd Hn) as [Hi _]. pose proof (strong_count_bounds s V n nd Hok Hn) as [Hb _].
  destruct (rn_mine s V r x n nd Hok Hr Hrn Hn) as (Hnd & Hin & _).
  pose proof (strong_count_less s (n_refs nd) r Hin) as Hl. rewrite (strong_of_some _ _ _ Hr), E0 in Hl. specialize (Hl eq_refl).
  pose proof (refs_length s V n nd Hok Hn). pose proof (ct_room _ _ (co_counts _ _ Hok)). lia.
Qed.

(** The counts of a reference grow by one at most, all others stay. *)
Definition bumped (r : Z) (x : binder_ref) (s s' : world) : Prop :=
  refs s' = refs s ∨ ∃ x', refs s' = <[r := x']> (refs s) ∧ r_strong x' ≤ r_strong x + 1 ∧ r_weak x' ≤ r_weak x + 1.
Lemma inc_ref_strong_ok s V r x n nd target :
  core_ok s V → refs s !! r = Some x → r_node x = n → nodes s !! n = Some nd → not_dying V nd → target_ok V n nd x target →
  r_strong x + 1 < 2147483648 →
  ∃ s' ret, binder_inc_ref r true target s = Val s' ret ∧ core_ok s' (set_pass Settled V) ∧ quiet s s' ∧ bumped r x s s'.
Proof.
  intros Hok Hr Hrn Hn Hy Ht Hroom. pose proof (target_on V n nd x target Ht) as (Hx & Hf & Hl).
  destruct (ct_refs _ _ (co_counts _ _ Hok) r x Hr) as [Hs Hw]. unfold binder_inc_ref. rewrite (bind_val _ _ _ _ _ (the_ref_eq _ _ _ Hr)), Hrn.
  assert (∀ V', settled V' → V' = set_pass Settled V') as Hsp by (intros [] E; unfold settled in E; cbn in E; by subst).
  destruct (Z.eqb_spec (r_strong x) 0) as [E0|E0].
  - destruct (inc_internal_ok s V n nd x target Hok Hn Hy Ht) as [(ret & E & Hret & Hset)|(l & E & Hok' & Hdq & Hi)].
    + exists s, ret. rewrite (bind_val _ _ _ _ _ E), (proj2 (Z.eqb_neq ret 0) Hret). split; [done|]. split; [by rewrite <- Hsp|]. split; [apply quiet_refl|by left].
    + exists (ref_and_node r (set_strong (i32 (r_strong x + 1)) x) n (add_internal 1 nd) (set_todo l s)), 0.
      rewrite (bind_val _ _ _ _ _ E). cbn [Z.eqb negb]. split; [done|].
      pose proof (internal_room s V r x n nd Hok Hr Hrn E0 Hn) as Hir. split; [|split].
      * apply (core_ref (set_todo l s) V r x _ n nd); try done; cbn; rewrite ?i32_small by (unfold is_i32; lia).
        -- rewrite E0. change (nonzero (0 + 1)) with true. change (nonzero 0) with false. cbn [Z.b2z]. lia.
        -- lia.
        -- intros p Hp _. destruct (Hi p Hp) as [?|[?|[G1 G2]]]; [auto..|]. right. right.
           assert (node_strong (add_internal 1 nd) = true) as Hst.
           { unfold node_strong. cbn. rewrite i32_small by (unfold is_i32; lia). apply orb_true_iff. left. apply negb_true_iff, Z.eqb_neq. lia. }
           assert (node_weak (add_internal 1 nd) = true) as Hwk by (unfold node_weak; rewrite Hst; apply orb_true_r).
           unfold informed. rewrite Hst, Hwk. cbn. rewrite G1, G2. split; [split; [done|by right]|]. right. split; [done|by right].
      * apply (quiet_trans _ (set_todo l s)); [by constructor|]. by apply (rn_quiet (set_todo l s) r x _ n nd).
      * right. eexists. split; [done|]. cbn. rewrite i32_small by (unfold is_i32; lia). lia.
  - assert (settled V) as Hset by (apply (target_settled V n nd x target Ht); by left).
    rewrite (bind_val (mret 0) _ s s 0) by done. cbn [Z.eqb negb]. exists (ref_and_node r (set_strong (i32 (r_strong x + 1)) x) n nd s), 0.
    split; [unfold ref_and_node; by rewrite set_nodes_same|].
    split; [|split; [by apply (rn_quiet s r x _ n nd)|right; eexists; split; [done|]; cbn; rewrite i32_small by (unfold is_i32; lia); lia]]. apply (core_ref s V r x _ n nd); try done; cbn; rewrite ?i32_small by (unfold is_i32; lia).
    + unfold nonzero. rewrite (proj2 (Z.eqb_neq (r_strong x) 0) E0), (proj2 (Z.eqb_neq (r_strong x + 1) 0)) by lia. cbn. lia.
    + lia.
    + intros p Hp Hyp. destruct (co_told _ _ Hok n nd p Hn Hp Hyp) as [?|[?|Hi]]; [auto..|]. by rewrite Hset in Hi; auto.
Qed.
Lemma inc_ref_weak_ok s V r x n nd target :
  core_ok s V → refs s !! r = Some x → r_node x = n → nodes s !! n = Some nd → not_dying V nd → target_ok V n nd x target →
  r_weak x + 1 < 2147483648 →
  ∃ s' ret, binder_inc_ref r false target s = Val s' ret ∧ core_ok s' (set_pass Settled V) ∧ quiet s s' ∧ bumped r x s s'.
Proof.
  intros Hok Hr Hrn Hn Hy Ht Hroom. pose proof (target_on V n nd x target Ht) as (Hx & Hf & Hl).
  destruct (ct_refs _ _ (co_counts _ _ Hok) r x Hr) as [Hs Hw]. unfold binder_inc_ref. rewrite (bind_val _ _ _ _ _ (the_ref_eq _ _ _ Hr)), Hrn.
  set (x' := set_weak (i32 (r_weak x + 1)) x).
  assert (∀ l, core_ok (set_todo l s) V → (∀ q d, (q, WDeath d) ∈ l ↔ (q, WDeath d) ∈ todo s) →
    (∀ p, n_proc nd = Some p → v_dying V ≠ Some p → linked (WNode n) l = true ∨ n ∈ v_lost V ∨ informed Settled n nd) →
    core_ok (set_refs (<[r := x']> (refs s)) (set_todo l s)) (set_pass Settled V) ∧ quiet s (set_refs (<[r := x']> (refs s)) (set_todo l s)) ∧ bumped r x s (set_refs (<[r := x']> (refs s)) (set_todo l s))) as Hput.
  { intros l Hl' Hdq Hi. replace (set_refs (<[r := x']> (refs s)) (set_todo l s)) with (ref_and_node r x' n nd (set_todo l s))
      by (unfold ref_and_node; rewrite (set_nodes_same (set_todo l s)) by done; done).
    split; [|split; [apply (quiet_trans _ (set_todo l s)); [by constructor|by apply (rn_quiet (set_todo l s) r x _ n nd)]|]].
    2:{ right. exists x'. unfold ref_and_node, x'. cbn. rewrite i32_small by (unfold is_i32; lia). split; [done|lia]. }
    apply (core_ref (set_todo l s) V r x _ n nd); try done; unfold x'; cbn; rewrite ?i32_small by (unfold is_i32; lia); lia. }
  assert (∀ p, n_proc nd = Some p → v_dying V ≠ Some p → settled V ∨ has_weak_ref nd = true →
    linked (WNode n) (todo s) = true ∨ n ∈ v_lost V ∨ informed Settled n nd) as Htold.
  { intros p Hp Hyp Hor. destruct (co_told _ _ Hok n nd p Hn Hp Hyp) as [?|[?|Hi]]; [auto..|]. right. right.
    destruct Hi as [[U1 U2] [?|[D1 [?|D2]]]]; [done..|]. split; [split; [done|]|right; split; [done|by right]]. right.
    destruct Hor as [Hset|Hhw]; [|done]. destruct U2 as [E|U2]; [rewrite Hset in E; done|done]. }
  destruct (Z.eqb_spec (r_weak x) 0) as [E0|E0].
  - unfold binder_inc_node.
    destruct (negb (has_weak_ref nd) && negb (linked (WNode n) (todo s))) eqn:Hadd.
    + apply andb_true_iff in Hadd as [Hhw%negb_true_iff Hlk%negb_true_iff]. destruct target as [q|].
      * destruct Ht as (Hp & Hq & _). pose proof (core_enqueue s V n nd q Hok Hn Hp Hq Hx) as Hok'. rewrite unlink_off in Hok' by done.
        assert (linked (WNode n) (todo s ++ [(q, WNode n)]) = true) as Hlk'.
        { apply linked_add. }
        destruct (Hput (todo s ++ [(q, WNode n)])) as [G1 G2]; [|intros; apply death_in_enqueue|auto|].
        -- apply (core_pass _ _ V n Hok'); try done; [auto|]. intros nd0 H0 Hp0. cbn in H0. congruence.
        -- eexists _, 0. split; [|split; [exact G1|exact G2]]. run_m. unfold the_node, deref. rewrite Hn. run_m. unfold list_empty. rewrite Hlk, Hhw. cbn [negb andb].
           rewrite add_tail_eq by done. done.
      * exists s, (- EINVAL). split; [|split; [|split; [apply quiet_refl|by left]]].
        -- run_m. unfold the_node, deref. rewrite Hn. run_m. unfold list_empty. by rewrite Hlk, Hhw.
        -- cbn in Ht. unfold settled in Ht. destruct V; cbn in Ht; by subst.
    + destruct (Hput (todo s)) as [G1 G2]; [by rewrite set_todo_same|done| |].
      * intros p Hp Hyp. apply andb_false_iff in Hadd as [Hhw%negb_false_iff|Hlk%negb_false_iff]; [|by left]. apply (Htold p); auto.
      * rewrite set_todo_same in G1, G2. eexists _, 0. split; [|split; [exact G1|exact G2]].
        run_m. unfold the_node, deref. rewrite Hn. run_m. unfold list_empty. by rewrite Hadd.
  - assert (settled V) as Hset by (apply (target_settled V n nd x target Ht); by right).
    rewrite (bind_val (mret 0) _ s s 0) by done. cbn [Z.eqb negb]. destruct (Hput (todo s)) as [G1 G2]; [by rewrite set_todo_same|done| |].
    + intros p Hp Hyp. apply (Htold p); auto.
    + rewrite set_todo_same in G1, G2. eexists _, 0. split; [done|]. by split.
Qed.
Lemma inc_ref_ok s V r x n nd sg target :
  core_ok s V → refs s !! r = Some x → r_node x = n → nodes s !! n = Some nd → not_dying V nd → target_ok V n nd x target →
  r_strong x + 1 < 2147483648 → r_weak x + 1 < 2147483648 →
  ∃ s' ret, binder_inc_ref r sg target s = Val s' ret ∧ core_ok s' (set_pass Settled V) ∧ quiet s s' ∧ bumped r x s s'.
Proof. destruct sg; intros; [by apply (inc_ref_strong_ok s V r x n nd)|by apply (inc_ref_weak_ok s V r x n nd)]. Qed.
End references.

(** ** A new reference *)

Lemma free_desc_spec key l d :
  increasing key l → (∀ r e, r ∈ l → key r = Some e → d - 1 ≤ e) → 0 ≤ d → d + Z.of_nat (length l) < 4294967296 →
  ∃ d', free_desc key l d = Some d' ∧ d ≤ d' ≤ d + Z.of_nat (length l) ∧ (∀ r, r ∈ l → key r ≠ Some d') ∧
    ∀ k, d ≤ k < d' → ∃ r, r ∈ l ∧ key r = Some k.
Proof.
  revert d. induction l as [|r l IH]; intros d; cbn [free_desc increasing].
  - intros _ _ _ _. exists d. split_and!; [done|lia|lia|by intros ? ?%elem_of_nil|lia].
  - intros [(e & Ee & He) Hl] Hd H0 Hb. rewrite Ee. cbn [length] in Hb. pose proof (Hd r e ltac:(by left) Ee) as Hlow.
    destruct (Z.ltb_spec d e).
    + exists d. split_and!; [done|lia|cbn [length]; lia| |lia]. intros x [->|Hx]%elem_of_cons Ex; [rewrite Ee in Ex; injection Ex as ->; lia|]. pose proof (He x d Hx Ex). lia.
    + unfold u32. rewrite wrap_small by lia.
      destruct (IH (e + 1) Hl) as (d' & E & B & Hn & Hk); [|lia|lia|].
      * intros x k Hx Ex. pose proof (He x k Hx Ex). lia.
      * exists d'. split_and!; [done|lia|cbn [length]; lia| |].
        -- intros x [->|Hx]%elem_of_cons; [|by apply Hn]. rewrite Ee. intros [= ->]. lia.
        -- intros k Hk'. destruct (decide (k = e)) as [->|Hne]; [exists r; split; [by left|done]|].
           destruct (Hk k ltac:(lia)) as (x & Hx & Ex). exists x. split; [by right|done].
Qed.

(** The state with a reference [r] of process [p] to node [n]. *)
Definition with_ref (p : Z) (P : binder_process) (n : Z) (nd : binder_node) (r d : Z) (td tn : tree) (s : world) : world :=
  MkWorld (<[p := set_p_refs td tn P]> (procs s)) (contexts s) (<[n := with_refs (r :: n_refs nd) nd]> (nodes s))
    (<[r := MkRef p n d 0 0 None]> (refs s)) (deaths s) (dead_nodes s) (todo s).

Section new_ref.
Context (s : world) (V : view) (p : Z) (P : binder_process) (n : Z) (nd : binder_node) (r d : Z) (td tn : tree).
Context (Hok : core_ok s V) (HP : procs s !! p = Some P) (Hn : nodes s !! n = Some nd) (Hr : refs s !! r = None) (Hd : 0 ≤ d < 4294967296).
Context (Htd : ∃ a b, inorder (refs_by_desc P) = a ++ b ∧ inorder td = a ++ r :: b ∧
  (∀ x k, x ∈ a → desc_key s x = Some k → k < d) ∧ (∀ x k, x ∈ b → desc_key s x = Some k → d < k)).
Context (Htn : ∃ a b, inorder (refs_by_node P) = a ++ b ∧ inorder tn = a ++ r :: b ∧
  (∀ x k, x ∈ a → ref_node_key s x = Some k → k < n) ∧ (∀ x k, x ∈ b → ref_node_key s x = Some k → n < k)).
Let s' : world := with_ref p P n nd r d td tn s.

Lemma nr_ref_id k : ref_id s' k = if decide (k = r) then Some (p, n, d) else ref_id s k.
Proof. unfold ref_id, s', with_ref. cbn. case_decide; [subst; by rewrite lookup_insert_eq|by rewrite lookup_insert_ne by congruence]. Qed.
Lemma nr_node_id m : node_id s' m = if decide (m = n) then Some (n_proc nd, n_ptr nd, r :: n_refs nd) else node_id s m.
Proof. unfold node_id, s', with_ref. cbn. case_decide; [subst; by rewrite lookup_insert_eq|by rewrite lookup_insert_ne by congruence]. Qed.
Lemma nr_node_back m o a l : node_id s' m = Some (o, a, l) → ∃ l0, node_id s m = Some (o, a, l0) ∧ l = if decide (m = n) then r :: l0 else l0.
Proof.
  rewrite nr_node_id. case_decide; [|eauto]. subst. intros [= <- <- <-]. exists (n_refs nd). by rewrite (node_id_some _ _ _ Hn).
Qed.
Lemma nr_node_forth m o a l : node_id s m = Some (o, a, l) → ∃ l', node_id s' m = Some (o, a, l').
Proof.
  rewrite nr_node_id. case_decide; [|eauto]. subst. rewrite (node_id_some _ _ _ Hn). intros [= <- <- _]. eauto.
Qed.
Lemma nr_proc q Q' : procs s' !! q = Some Q' →
  ∃ Q, procs s !! q = Some Q ∧ p_context Q' = p_context Q ∧ p_nodes Q' = p_nodes Q ∧
    (q = p ∧ Q = P ∧ refs_by_desc Q' = td ∧ refs_by_node Q' = tn ∨ q ≠ p ∧ Q' = Q).
Proof.
  unfold s', with_ref. cbn. destruct (decide (q = p)) as [->|Hq]; [rewrite lookup_insert_eq; intros [= <-]; exists P; split_and!; auto|].
  rewrite lookup_insert_ne by done. exists Q'. split_and!; auto.
Qed.
Lemma nr_proc_forth q : is_Some (procs s !! q) → is_Some (procs s' !! q).
Proof.
  intros [Q HQ]. unfold s', with_ref. cbn. destruct (decide (q = p)) as [->|Hq]; [rewrite lookup_insert_eq|rewrite lookup_insert_ne by done]; eauto.
Qed.
Lemma nr_fresh : ref_id s r = None.
Proof. unfold ref_id. by rewrite Hr. Qed.

(** A tree of the references of [p], with [r] put in its place. *)
Lemma nr_tree (key key' : Z → option Z) (kr : Z) (t t' : tree) :
  (∀ x, x ≠ r → key' x = key x) → key' r = Some kr → increasing key (inorder t) →
  (∀ x, x ∈ inorder t ↔ ∃ m e, ref_id s x = Some (p, m, e)) →
  (∃ a b, inorder t = a ++ b ∧ inorder t' = a ++ r :: b ∧ (∀ x k, x ∈ a → key x = Some k → k < kr) ∧ (∀ x k, x ∈ b → key x = Some k → kr < k)) →
  increasing key' (inorder t') ∧ ∀ x, x ∈ inorder t' ↔ ∃ m e, ref_id s' x = Some (p, m, e).
Proof using Hr Hd.
  intros Ek Er Hi Hin (a & b & E1 & E2 & Ha & Hb). rewrite E2. rewrite E1 in Hi.
  assert (r ∉ a ++ b) as Hrn. { rewrite <- E1. intros (m & e & E)%Hin. by rewrite nr_fresh in E. }
  assert (∀ x, x ∈ a ++ b → key' x = key x) as Ek' by (intros x Hx; apply Ek; congruence).
  split.
  - apply (increasing_insert key' a b r kr); [by eapply increasing_ext|done| |].
    + intros x k Hx. rewrite Ek' by (apply elem_of_app; by left). by apply Ha.
    + intros x k Hx. rewrite Ek' by (apply elem_of_app; by right). by apply Hb.
  - intros x. assert (x ∈ a ++ r :: b ↔ x = r ∨ x ∈ a ++ b) as -> by (rewrite !elem_of_app, elem_of_cons; tauto).
    rewrite <- E1, Hin. setoid_rewrite nr_ref_id. case_decide; [subst; split; [eauto|by left]|]. split; [intros [?|?]; done|by right].
Qed.

Lemma tables_new_ref : tables s'.
Proof using Hok HP Hn Hr Hd Htd Htn.
  pose proof (co_tables _ _ Hok) as [H1 H2 H3 H4 H5 H6 H7 H8 H9]. constructor.
  - intros q Q' (Q & HQ & -> & _)%nr_proc. by apply (H1 q).
  - intros c C m Hc Hm. destruct (H2 c C m Hc Hm) as (q & Q & a & l & Hid & HQ & Hqc). destruct (nr_node_forth _ _ _ _ Hid) as [l' Hid'].
    destruct (decide (q = p)) as [->|Hq].
    + exists p, (set_p_refs td tn P), a, l'. rewrite HP in HQ. injection HQ as <-. split_and!; [done| |done]. unfold s', with_ref. cbn. by rewrite lookup_insert_eq.
    + exists q, Q, a, l'. split_and!; [done| |done]. unfold s', with_ref. cbn. by rewrite lookup_insert_ne.
  - intros q Q' (Q & HQ & _ & -> & _)%nr_proc. destruct (H3 q Q HQ) as [Hi Hin]. split.
    + eapply increasing_ext; [|done]. intros x _. rewrite !node_key_id, nr_node_id. case_decide; [subst; by rewrite (node_id_some _ _ _ Hn)|done].
    + intros m. rewrite Hin. split; [intros (a & l & E); destruct (nr_node_forth _ _ _ _ E); eauto|].
      intros (a & l & E). destruct (nr_node_back _ _ _ _ E) as (l0 & E0 & _). eauto.
  - intros q Q' (Q & HQ & _ & _ & Hq)%nr_proc. destruct (H4 q Q HQ) as [Hi Hin]. destruct Hq as [(-> & -> & -> & _)|(Hq & ->)].
    + apply (nr_tree (desc_key s) _ d (refs_by_desc P)); try done.
      * intros x Hx. rewrite !desc_key_id, nr_ref_id, decide_False by done. done.
      * by rewrite desc_key_id, nr_ref_id, decide_True.
    + assert (r ∉ inorder (refs_by_desc Q)) as Hrn. { intros (m & e & E)%Hin. by rewrite nr_fresh in E. } split.
      * eapply increasing_ext; [|done]. intros x Hx. rewrite !desc_key_id, nr_ref_id, decide_False by congruence. done.
      * intros x. rewrite Hin. setoid_rewrite nr_ref_id. case_decide; [subst; rewrite nr_fresh; naive_solver|done].
  - intros q Q' (Q & HQ & _ & _ & Hq)%nr_proc. destruct (H5 q Q HQ) as [Hi Hin]. destruct Hq as [(-> & -> & _ & ->)|(Hq & ->)].
    + apply (nr_tree (ref_node_key s) _ n (refs_by_node P)); try done.
      * intros x Hx. rewrite !ref_node_key_id, nr_ref_id, decide_False by done. done.
      * by rewrite ref_node_key_id, nr_ref_id, decide_True.
    + assert (r ∉ inorder (refs_by_node Q)) as Hrn. { intros (m & e & E)%Hin. by rewrite nr_fresh in E. } split.
      * eapply increasing_ext; [|done]. intros x Hx. rewrite !ref_node_key_id, nr_ref_id, decide_False by congruence. done.
      * intros x. rewrite Hin. setoid_rewrite nr_ref_id. case_decide; [subst; rewrite nr_fresh; naive_solver|done].
  - intros m q a l (l0 & E & _)%nr_node_back. apply nr_proc_forth. by eapply H6.
  - destruct H7 as [Hnd Hin]. split; [done|]. intros m. cbn. rewrite Hin. split; [intros (a & l & E); destruct (nr_node_forth _ _ _ _ E); eauto|].
    intros (a & l & E). destruct (nr_node_back _ _ _ _ E) as (l0 & E0 & _). eauto.
  - intros m o a l (l0 & E & ->)%nr_node_back. destruct (H8 m o a l0 E) as [Hnd Hin]. case_decide as Hm.
    + subst. split.
      * apply list.NoDup_cons. split; [|done]. intros (q & e & E')%Hin. by rewrite nr_fresh in E'.
      * intros x. rewrite elem_of_cons, Hin. setoid_rewrite nr_ref_id. case_decide; [subst; naive_solver|]. split; [intros [?|?]; done|by right].
    + split; [done|]. intros x. rewrite Hin. setoid_rewrite nr_ref_id. case_decide; [subst; rewrite nr_fresh; naive_solver|done].
  - intros x q m e. rewrite nr_ref_id. case_decide.
    + intros [= <- <- <-]. split; [apply nr_proc_forth; eauto|]. split; [|done]. rewrite nr_node_id, decide_True by done. eauto.
    + intros Hid. destruct (H9 x q m e Hid) as (G1 & [[[o a] l] G2] & G3). split; [by apply nr_proc_forth|]. split; [|done].
      destruct (nr_node_forth _ _ _ _ G2) as [l' ->]. eauto.
Qed.

Lemma nr_strong_other k : k ≠ r → strong_of s' k = strong_of s k.
Proof. intros Hk. unfold strong_of, s', with_ref. cbn. by rewrite lookup_insert_ne. Qed.
Lemma nr_unlisted m y : nodes s !! m = Some y → r ∉ n_refs y.
Proof using Hok Hr.
  intros Hm Hin. destruct (tb_refs _ (co_tables _ _ Hok) _ _ _ _ (node_id_some _ _ _ Hm)) as [_ Hi].
  apply Hi in Hin as (q & e & E). by rewrite nr_fresh in E.
Qed.
Lemma nr_hold h : hold_ok s h → hold_ok s' h.
Proof using Hn.
  destruct h as [q m|q a b]; cbn.
  - intros (a & l & E). destruct (nr_node_forth _ _ _ _ E). eauto.
  - intros (m & l & E). destruct (nr_node_forth _ _ _ _ E). eauto.
Qed.

Lemma works_new_ref : works s'.
Proof using Hok HP Hn Hr.
  pose proof (co_works _ _ Hok) as [W1 W2 W3 W4 W5 W6].
  assert (∀ k x, refs s' !! k = Some x → is_Some (r_death x) → refs s !! k = Some x) as Hback.
  { intros k x. unfold s', with_ref. cbn. destruct (decide (k = r)) as [->|Hk]; [|by rewrite lookup_insert_ne].
    rewrite lookup_insert_eq. intros [= <-]. cbn. by intros [? ?]. }
  constructor.
  - done.
  - intros q m Hin. destruct (W2 q m Hin) as [? (a & l & E)]. split; [done|]. destruct (nr_node_forth _ _ _ _ E). eauto.
  - intros q e Hin. destruct (W3 q e Hin). split; [by apply nr_proc_forth|done].
  - intros k x e Hx He. destruct (W4 k x e) as (y & Hy & Hq); [by apply Hback; eauto|done|]. exists y. split; [done|].
    intros q Hin. destruct (Hq q Hin) as (? & ? & (a & l & E)). split_and!; [done..|]. destruct (nr_node_forth _ _ _ _ E). eauto.
  - intros r1 r2 x1 x2 e E1 E2 F1 F2. apply (W5 r1 r2 x1 x2 e); [by apply Hback; eauto|by apply Hback; eauto|done|done].
  - intros e y Hy Hf. apply (W6 e y Hy). intros k x Hx. apply (Hf k x). unfold s', with_ref. cbn.
    destruct (decide (k = r)) as [->|Hk]; [by rewrite Hr in Hx|by rewrite lookup_insert_ne].
Qed.

Lemma core_new_ref :
  settled V → Z.of_nat (size (refs s)) + 1 < 2147483648 → core_ok s' (if node_weak nd then V else set_pass (Rising n) V).
Proof using Hok HP Hn Hr Hd Htd Htn.
  intros Hset Hroom. set (V' := if node_weak nd then V else _).
  assert (v_holds V' = v_holds V ∧ v_lost V' = v_lost V ∧ v_dying V' = v_dying V) as (Eh & El & Ey) by (unfold V'; by destruct (node_weak nd)).
  assert (pass_on (v_pass V') n) as Hx' by (unfold V'; destruct (node_weak nd); [by apply settled_on|done]).
  pose proof (settled_on V n Hset) as Hx. pose proof (co_counts _ _ Hok) as [C1 C2 C3 C4]. pose proof (co_told _ _ Hok) as Hto.
  assert (∀ m y, nodes s !! m = Some y → strong_count s' (n_refs y) = strong_count s (n_refs y)) as Esc.
  { intros m y Hm. apply strong_count_ext. intros k Hk. apply nr_strong_other. intros ->. by apply (nr_unlisted m y). }
  constructor; [apply tables_new_ref| | |apply works_new_ref].
  - constructor; rewrite ?Eh.
    + intros m y. unfold s' at 1, with_ref. cbn. destruct (decide (m = n)) as [->|Hm].
      * rewrite lookup_insert_eq. intros [= <-]. destruct (C1 n nd Hn) as [Hi Hp]. split; cbn.
        -- rewrite strong_count_cons, (Esc n nd Hn). unfold strong_of, s', with_ref. cbn. by rewrite lookup_insert_eq.
        -- rewrite Ey, Eh. destruct (n_proc nd) eqn:Ep; [destruct Hp as [?|[]]; [by left|right; by constructor]|]. destruct Hp as (? & ? & _). by auto.
      * rewrite lookup_insert_ne by done. intros Hmy. pose proof (C1 m y Hmy) as Hc. apply (counts_other s V V' n) in Hc; try done; [|by rewrite Eh].
        destruct Hc as [Hi Hp]. split; [by rewrite (Esc m y)|]. destruct (n_proc y); [destruct Hp as [?|[]]; [by left|right; by constructor]|done].
    + intros k y. unfold s', with_ref. cbn. destruct (decide (k = r)) as [->|Hk]; [rewrite lookup_insert_eq; intros [= <-]; cbn; lia|].
      rewrite lookup_insert_ne by done. apply C2.
    + intros h Hh. apply nr_hold. by apply C3.
    + split; [apply C4|]. unfold s', with_ref. cbn. rewrite map_size_insert_None by done. lia.
  - intros m y q. unfold s' at 1, with_ref. cbn. rewrite Ey, El. destruct (decide (m = n)) as [->|Hm].
    + rewrite lookup_insert_eq. intros [= <-]. cbn. intros Hp Hyq. destruct (Hto n nd q Hn Hp Hyq) as [?|[?|Hi]]; [auto..|]. right. right.
      rewrite Hset in Hi. destruct Hi as [[U1 [?|U2]] [?|[D1 [?|D2]]]]; try done.
      assert (node_weak (with_refs (r :: n_refs nd) nd) = true) as Hwk by done. unfold informed. rewrite Hwk.
      change (node_strong (with_refs (r :: n_refs nd) nd)) with (node_strong nd). cbn.
      split; [split; [done|]|right; split; [done|by right]]. unfold V'. destruct (node_weak nd); [right; by intros _; apply U2|by left].
    + rewrite lookup_insert_ne by done. intros G1 G2 G3. destruct (Hto m y q G1 G2 G3) as [?|[?|?]]; [auto..|].
      right. right. by apply (informed_swap (v_pass V) _ n).
Qed.
End new_ref.


(** The descriptor a process gives to its new reference to a node: the first that it does not use; 0 is for the context
    manager. *)
Definition first_desc (C : binder_context) (n : Z) : Z := if bool_decide (binder_context_mgr_node C = Some n) then 0 else 1.
Definition unused_desc (s : world) (p first d : Z) : Prop :=
  first ≤ d ∧ (∀ r x, refs s !! r = Some x → r_proc x = p → r_desc x ≠ d) ∧
  ∀ k, first ≤ k < d → ∃ r x, refs s !! r = Some x ∧ r_proc x = p ∧ r_desc x = k.

Section for_node.
Context `{RbTree}.

Lemma descs_length s V p P : core_ok s V → procs s !! p = Some P → (length (inorder (refs_by_desc P)) ≤ size (refs s))%nat.
Proof.
  intros Hok HP. destruct (tb_by_desc _ (co_tables _ _ Hok) p P HP) as [Hi Hin]. pose proof (increasing_nodup _ _ Hi) as Hd.
  rewrite <- size_dom, <- (size_list_to_set (C := gset Z) (inorder (refs_by_desc P))) by done. apply subseteq_size.
  intros r Hr. apply elem_of_list_to_set, Hin in Hr as (m & d & Hid). apply ref_id_inv in Hid as (x & Hx & _). by apply elem_of_dom.
Qed.
Lemma free_desc_ok s V p P C n :
  core_ok s V → procs s !! p = Some P →
  ∃ d, free_desc (desc_key s) (inorder (refs_by_desc P)) (first_desc C n) = Some d ∧ 0 ≤ d < 4294967296 ∧ unused_desc s p (first_desc C n) d ∧
    ∀ r, r ∈ inorder (refs_by_desc P) → desc_key s r ≠ Some d.
Proof.
  intros Hok HP. destruct (tb_by_desc _ (co_tables _ _ Hok) p P HP) as [Hi Hin]. pose proof (descs_length s V p P Hok HP) as Hl.
  pose proof (ct_room _ _ (co_counts _ _ Hok)) as [_ Hroom]. assert (0 ≤ first_desc C n ≤ 1) as Hf by (unfold first_desc; case_bool_decide; lia).
  destruct (free_desc_spec (desc_key s) (inorder (refs_by_desc P)) (first_desc C n) Hi) as (d & E & B & Hno & Hk); [|lia|lia|].
  - intros r e Hr Ee. apply Hin in Hr as (m & e' & Hid). rewrite desc_key_id, Hid in Ee. injection Ee as ->.
    apply (tb_ref _ (co_tables _ _ Hok)) in Hid as (_ & _ & ?). lia.
  - exists d. split; [done|]. split; [lia|]. split; [|done]. split; [lia|]. split.
    + intros r x Hx Ep Ed. apply (Hno r).
      * apply Hin. rewrite (ref_id_some _ _ _ Hx), Ep. eauto.
      * by rewrite desc_key_id, (ref_id_some _ _ _ Hx), <- Ed.
    + intros k Hk'. destruct (Hk k Hk') as (r & (m & e & Hid)%Hin & Ek). rewrite desc_key_id, Hid in Ek. injection Ek as ->.
      apply ref_id_inv in Hid as (x & ? & ? & _ & ?). eauto 10.
Qed.

Lemma get_ref_for_node_ok s V p P C n nd kz :
  core_ok s V → settled V → procs s !! p = Some P → contexts s !! p_context P = Some C → nodes s !! n = Some nd →
  (∀ r, kz = Some r → refs s !! r = None) → Z.of_nat (size (refs s)) + 1 < 2147483648 →
  ∃ s' found, binder_get_ref_for_node p n kz s = Val s' found ∧
    match found with
    | None => kz = None ∧ s' = s
    | Some r =>
        (s' = s ∧ ∃ x, refs s !! r = Some x ∧ r_proc x = p ∧ r_node x = n) ∨
        (∃ d td tn, s' = with_ref p P n nd r d td tn s ∧ kz = Some r ∧ unused_desc s p (first_desc C n) d ∧
           (∀ k x, refs s !! k = Some x → r_proc x = p → r_node x ≠ n) ∧
           core_ok s' (if node_weak nd then V else set_pass (Rising n) V))
    end.
Proof.
  intros Hok Hset HP HC Hn Hkz Hroom. unfold binder_get_ref_for_node.
  rewrite (bind_val _ _ _ _ _ (the_proc_eq _ _ _ HP)), (bind_val _ _ _ _ _ (the_context_eq _ _ _ HC)), (bind_val get _ s s s) by done.
  destruct (tb_by_node _ (co_tables _ _ Hok) p P HP) as [Hin1 Hmem1]. destruct (tb_by_desc _ (co_tables _ _ Hok) p P HP) as [Hin2 Hmem2].
  pose proof (link_key_spec (ref_node_key s) n (refs_by_node P) Hin1) as Hl.
  destruct (link_key (ref_node_key s) n (refs_by_node P)) as [[link|r]|]; [| |done].
  - cbn [deref]. rewrite (bind_val (mret _) _ s s (inl link)) by done. destruct kz as [r|]; [|exists s, None; by split].
    destruct (free_desc_ok s V p P C n Hok HP) as (d & Ed & Hd & Hun & Hno). fold (first_desc C n). rewrite Ed. cbn [deref].
    rewrite (bind_val (mret d) _ s s d) by done. pose proof (link_key_spec (desc_key s) d (refs_by_desc P) Hin2) as Hl'.
    destruct (link_key (desc_key s) d (refs_by_desc P)) as [[link'|r']|]; [|by destruct Hl' as [G1 G2]; destruct (Hno r' G1 G2)|done].
    cbn [deref]. rewrite (bind_val (mret _) _ s s (inl link')) by done.
    exists (with_ref p P n nd r d (rb_insert_color r (link' r)) (rb_insert_color r (link r)) s), (Some r). split.
    + run_m. unfold the_node, deref. cbn. by rewrite Hn.
    + right. eexists _, _, _. split; [done|]. split; [done|]. split; [done|]. split.
      * destruct Hl as (a & b & E1 & _ & Ha & Hb). intros k x Hx Ep En.
        assert (k ∈ inorder (refs_by_node P)) as Hk by (apply Hmem1; rewrite (ref_id_some _ _ _ Hx), Ep; eauto).
        assert (ref_node_key s k = Some n) as Ek by (by rewrite ref_node_key_id, (ref_id_some _ _ _ Hx), <- En).
        rewrite E1 in Hk. apply elem_of_app in Hk as [Hk|Hk]; [pose proof (Ha k n Hk Ek)|pose proof (Hb k n Hk Ek)]; lia.
      * apply core_new_ref; try done; [by apply Hkz| |].
        -- destruct Hl' as (a & b & E1 & E2 & Ha & Hb). exists a, b. by rewrite rb_insert_inorder.
        -- destruct Hl as (a & b & E1 & E2 & Ha & Hb). exists a, b. by rewrite rb_insert_inorder.
  - cbn [deref]. rewrite (bind_val (mret _) _ s s (inr r)) by done. exists s, (Some r). split; [done|]. left. split; [done|].
    destruct Hl as [(m & e & Hid)%Hmem1 Hk]. rewrite ref_node_key_id, Hid in Hk. injection Hk as ->.
    apply ref_id_inv in Hid as (x & ? & ? & ? & _). eauto.
Qed.
End for_node.

(** ** A reference goes *)

(** The node of a reference that was dropped. *)
Definition dropped (r : Z) (x : binder_ref) (nd : binder_node) : binder_node :=
  with_refs (without r (n_refs nd)) (if r_strong x =? 0 then nd else add_internal (-1) nd).
Definition drop_death (od : option Z) (m : gmap Z binder_ref_death) : gmap Z binder_ref_death := match od with Some d => delete d m | None => m end.
Definition drop_work (od : option Z) (l : list (queue * work)) : list (queue * work) := match od with Some d => unlink (WDeath d) l | None => l end.
Lemma elem_of_drop_work od e l : e ∈ drop_work od l ↔ e ∈ l ∧ ∀ d, od = Some d → e.2 ≠ WDeath d.
Proof. destruct od as [d|]; cbn; [rewrite elem_of_unlink; naive_solver|naive_solver]. Qed.
Lemma linked_drop_work od n l : linked (WNode n) (drop_work od l) = linked (WNode n) l.
Proof. destruct od as [d|]; cbn [drop_work]; [|done]. by rewrite linked_unlink, bool_decide_eq_false_2, andb_true_r by done. Qed.

Lemma strong_count_without s r l : NoDup l → r ∈ l → strong_count s (without r l) = strong_count s l - Z.b2z (strong_of s r).
Proof.
  intros Hd (a & b & ->)%list_elem_of_split. apply list.NoDup_app in Hd as (_ & Hab & [Hb _]%list.NoDup_cons).
  rewrite without_mid; [|intros Ha; by apply (Hab r Ha), elem_of_cons; left|done].
  unfold strong_count. rewrite !List.filter_app, !length_app. cbn. destruct (strong_of s r); cbn [length Z.b2z]; lia.
Qed.

Section dropping.
Context `{RbTree}.

Definition without_ref (r : Z) (x : binder_ref) (P : binder_process) (nd : binder_node) (s : world) : world :=
  MkWorld (<[r_proc x := set_p_refs (rb_erase r (refs_by_desc P)) (rb_erase r (refs_by_node P)) P]> (procs s)) (contexts s)
    (<[r_node x := dropped r x nd]> (nodes s)) (delete r (refs s)) (drop_death (r_death x) (deaths s)) (dead_nodes s)
    (drop_work (r_death x) (todo s)).

Section one.
Context (s : world) (V : view) (r : Z) (x : binder_ref) (P : binder_process) (nd : binder_node).
Context (Hok : core_ok s V) (Hr : refs s !! r = Some x) (HP : procs s !! r_proc x = Some P) (Hn : nodes s !! r_node x = Some nd).
Let p : Z := r_proc x.
Let n : Z := r_node x.
Let s' : world := without_ref r x P nd s.

Lemma dr_id : n_proc (dropped r x nd) = n_proc nd ∧ n_ptr (dropped r x nd) = n_ptr nd ∧ n_refs (dropped r x nd) = without r (n_refs nd).
Proof. unfold dropped. by destruct (r_strong x =? 0). Qed.
Lemma dr_ref_id k : ref_id s' k = if decide (k = r) then None else ref_id s k.
Proof. unfold ref_id, s', without_ref. cbn. case_decide; [subst; by rewrite lookup_delete_eq|by rewrite lookup_delete_ne by congruence]. Qed.
Lemma dr_node_id m : node_id s' m = if decide (m = n) then Some (n_proc nd, n_ptr nd, without r (n_refs nd)) else node_id s m.
Proof.
  unfold node_id, s', without_ref. cbn [nodes]. destruct dr_id as (E1 & E2 & E3). fold n.
  destruct (decide (m = n)) as [->|Hm]; [rewrite lookup_insert_eq, <- E1, <- E2, <- E3; done|by rewrite lookup_insert_ne by congruence].
Qed.
Lemma dr_node_back m o a l : node_id s' m = Some (o, a, l) → ∃ l0, node_id s m = Some (o, a, l0) ∧ l = if decide (m = n) then without r l0 else l0.
Proof.
  rewrite dr_node_id. case_decide; [|eauto]. subst. intros [= <- <- <-]. exists (n_refs nd). unfold n. by rewrite (node_id_some _ _ _ Hn).
Qed.
Lemma dr_node_forth m o a l : node_id s m = Some (o, a, l) → ∃ l', node_id s' m = Some (o, a, l').
Proof.
  rewrite dr_node_id. case_decide; [|eauto]. subst. unfold n. rewrite (node_id_some _ _ _ Hn). intros [= <- <- _]. eauto.
Qed.
Lemma dr_proc q Q' : procs s' !! q = Some Q' →
  ∃ Q, procs s !! q = Some Q ∧ p_context Q' = p_context Q ∧ p_nodes Q' = p_nodes Q ∧
    (q = p ∧ Q = P ∧ refs_by_desc Q' = rb_erase r (refs_by_desc P) ∧ refs_by_node Q' = rb_erase r (refs_by_node P) ∨ q ≠ p ∧ Q' = Q).
Proof.
  unfold s', without_ref. cbn. fold p. destruct (decide (q = p)) as [->|Hq]; [rewrite lookup_insert_eq; intros [= <-]; exists P; split_and!; auto|].
  rewrite lookup_insert_ne by done. exists Q'. split_and!; auto.
Qed.
Lemma dr_proc_forth q : is_Some (procs s !! q) → is_Some (procs s' !! q).
Proof.
  intros [Q HQ]. unfold s', without_ref. cbn. fold p. destruct (decide (q = p)) as [->|Hq]; [rewrite lookup_insert_eq|rewrite lookup_insert_ne by done]; eauto.
Qed.
Lemma dr_mine : ref_id s r = Some (p, n, r_desc x).
Proof. by rewrite (ref_id_some _ _ _ Hr). Qed.

Lemma dr_tree (key key' : Z → option Z) (t : tree) :
  (∀ k, k ≠ r → key' k = key k) → increasing key (inorder t) → (∀ k, k ∈ inorder t ↔ ∃ m e, ref_id s k = Some (p, m, e)) →
  increasing key' (inorder (rb_erase r t)) ∧ ∀ k, k ∈ inorder (rb_erase r t) ↔ ∃ m e, ref_id s' k = Some (p, m, e).
Proof using Hr.
  intros Ek Hi Hin. assert (r ∈ inorder t) as Hrt by (apply Hin; rewrite dr_mine; eauto). rewrite rb_erase_inorder by done. split.
  - eapply increasing_ext; [|by apply increasing_without]. intros k [_ Hk]%elem_of_without. by apply Ek.
  - intros k. rewrite elem_of_without, Hin. setoid_rewrite dr_ref_id. case_decide; naive_solver.
Qed.
Lemma dr_tree_other (key key' : Z → option Z) q (t : tree) :
  q ≠ p → (∀ k, k ≠ r → key' k = key k) → increasing key (inorder t) → (∀ k, k ∈ inorder t ↔ ∃ m e, ref_id s k = Some (q, m, e)) →
  increasing key' (inorder t) ∧ ∀ k, k ∈ inorder t ↔ ∃ m e, ref_id s' k = Some (q, m, e).
Proof using Hr.
  intros Hq Ek Hi Hin. assert (r ∉ inorder t) as Hrt. { intros (m & e & E)%Hin. rewrite dr_mine in E. congruence. } split.
  - eapply increasing_ext; [|done]. intros k Hk. apply Ek. congruence.
  - intros k. rewrite Hin. setoid_rewrite dr_ref_id. case_decide; [|done]. subst. rewrite dr_mine. naive_solver.
Qed.

Lemma tables_drop_ref : tables s'.
Proof using Hok Hr HP Hn.
  pose proof (co_tables _ _ Hok) as [H1 H2 H3 H4 H5 H6 H7 H8 H9]. constructor.
  - intros q Q' (Q & HQ & -> & _)%dr_proc. by apply (H1 q).
  - intros c C m Hc Hm. destruct (H2 c C m Hc Hm) as (q & Q & a & l & Hid & HQ & Hqc). destruct (dr_node_forth _ _ _ _ Hid) as [l' Hid'].
    destruct (procs s' !! q) as [Q'|] eqn:EQ'; [|by destruct (dr_proc_forth q) as [? ?]; [eauto|congruence]].
    destruct (dr_proc _ _ EQ') as (Q0 & HQ0 & Ec & _). exists q, Q', a, l'. split_and!; [done..|]. congruence.
  - intros q Q' (Q & HQ & _ & -> & _)%dr_proc. destruct (H3 q Q HQ) as [Hi Hin]. split.
    + eapply increasing_ext; [|done]. intros k _. rewrite !node_key_id, dr_node_id. case_decide; [subst; unfold n; by rewrite (node_id_some _ _ _ Hn)|done].
    + intros m. rewrite Hin. split; [intros (a & l & E); destruct (dr_node_forth _ _ _ _ E); eauto|].
      intros (a & l & E). destruct (dr_node_back _ _ _ _ E) as (l0 & E0 & _). eauto.
  - intros q Q' (Q & HQ & _ & _ & Hq)%dr_proc. destruct (H4 q Q HQ) as [Hi Hin].
    assert (∀ k, k ≠ r → desc_key s' k = desc_key s k) as Ek by (intros k Hk; by rewrite !desc_key_id, dr_ref_id, decide_False).
    destruct Hq as [(-> & -> & -> & _)|(Hq & ->)]; [by apply (dr_tree (desc_key s))|by apply (dr_tree_other (desc_key s))].
  - intros q Q' (Q & HQ & _ & _ & Hq)%dr_proc. destruct (H5 q Q HQ) as [Hi Hin].
    assert (∀ k, k ≠ r → ref_node_key s' k = ref_node_key s k) as Ek by (intros k Hk; by rewrite !ref_node_key_id, dr_ref_id, decide_False).
    destruct Hq as [(-> & -> & _ & ->)|(Hq & ->)]; [by apply (dr_tree (ref_node_key s))|by apply (dr_tree_other (ref_node_key s))].
  - intros m q a l (l0 & E & _)%dr_node_back. apply dr_proc_forth. by eapply H6.
  - destruct H7 as [Hnd Hin]. split; [done|]. intros m. cbn. rewrite Hin. split; [intros (a & l & E); destruct (dr_node_forth _ _ _ _ E); eauto|].
    intros (a & l & E). destruct (dr_node_back _ _ _ _ E) as (l0 & E0 & _). eauto.
  - intros m o a l (l0 & E & ->)%dr_node_back. destruct (H8 m o a l0 E) as [Hnd Hin]. case_decide as Hm.
    + split; [apply NoDup_ListNoDup; unfold without; apply NoDup_filter; by apply NoDup_ListNoDup|].
      intros k. rewrite elem_of_without, Hin. setoid_rewrite dr_ref_id. case_decide; naive_solver.
    + split; [done|]. intros k. rewrite Hin. setoid_rewrite dr_ref_id. case_decide; [subst; rewrite dr_mine; naive_solver|done].
  - intros k q m e. rewrite dr_ref_id. case_decide; [done|]. intros Hid. destruct (H9 k q m e Hid) as (G1 & [[[o a] l] G2] & G3).
    split; [by apply dr_proc_forth|]. split; [|done]. destruct (dr_node_forth _ _ _ _ G2) as [l' ->]. eauto.
Qed.

Lemma works_drop_ref : works s'.
Proof using Hok Hr HP Hn.
  pose proof (co_works _ _ Hok) as [W1 W2 W3 W4 W5 W6].
  assert (∀ k y, refs s' !! k = Some y → k ≠ r ∧ refs s !! k = Some y) as Hback.
  { intros k y Hy. change (delete r (refs s) !! k = Some y) in Hy. by apply lookup_delete_Some in Hy as [Hk Hy]. }
  assert (∀ k y d, refs s' !! k = Some y → r_death y = Some d → r_death x ≠ Some d) as Hother.
  { intros k y d [Hk Hy]%Hback Hd E. apply Hk. by apply (W5 k r y x d). }
  constructor; cbn -[drop_work drop_death].
  - destruct (r_death x); [by apply unlink_nodup|done].
  - intros q m [Hin _]%elem_of_drop_work. destruct (W2 q m Hin) as [? (a & l & E)]. split; [done|]. destruct (dr_node_forth _ _ _ _ E). eauto.
  - intros q e [Hin He]%elem_of_drop_work. destruct (W3 q e Hin). split; [by apply dr_proc_forth|].
    destruct (r_death x) as [d|] eqn:Ed; [|done]. cbn. rewrite lookup_delete_ne; [done|]. intros ->. by apply (He e).
  - intros k y d Hy Hd. pose proof (Hother k y d Hy Hd) as Hne. apply Hback in Hy as [Hk Hy]. destruct (W4 k y d Hy Hd) as (z & Hz & Hq).
    exists z. split; [destruct (r_death x) as [d0|]; cbn; [by rewrite lookup_delete_ne by congruence|done]|].
    intros q [Hin _]%elem_of_drop_work. destruct (Hq q Hin) as (? & ? & (a & l & E)). split_and!; [done..|]. destruct (dr_node_forth _ _ _ _ E). eauto.
  - intros r1 r2 x1 x2 d [_ E1]%Hback [_ E2]%Hback. by apply W5.
  - intros d y Hy Hf. assert (deaths s !! d = Some y ∧ r_death x ≠ Some d) as [Hy' Hne].
    { destruct (r_death x) as [d0|]; cbn in Hy; [|done]. apply lookup_delete_Some in Hy as [? ?]. split; [done|congruence]. }
    destruct (W6 d y Hy') as (q & Hin & Hq).
    + intros k z Hz Hd. destruct (decide (k = r)) as [->|Hk]; [congruence|]. apply (Hf k z); [|done]. cbn. by rewrite lookup_delete_ne by congruence.
    + exists q. split; [|done]. apply elem_of_drop_work. split; [done|]. cbn. intros d0 Ed [= ->]. done.
Qed.

Lemma dr_listed : NoDup (n_refs nd) ∧ r ∈ n_refs nd ∧ ∀ m y, nodes s !! m = Some y → m ≠ n → r ∉ n_refs y.
Proof using Hok Hr Hn. by apply (rn_mine s V r x n nd). Qed.
Lemma dr_strong_other k : k ≠ r → strong_of s' k = strong_of s k.
Proof. intros Hk. unfold strong_of, s', without_ref. cbn. by rewrite lookup_delete_ne by congruence. Qed.
Lemma dr_internal : internal_strong_refs (dropped r x nd) = internal_strong_refs nd - Z.b2z (nonzero (r_strong x)).
Proof using Hok Hr Hn.
  destruct dr_listed as (Hd & Hin & _). destruct (ct_nodes _ _ (co_counts _ _ Hok) _ nd Hn) as [Hi _].
  pose proof (strong_count_without s r (n_refs nd) Hd Hin) as Hw. rewrite (strong_of_some _ _ _ Hr) in Hw.
  assert (0 ≤ strong_count s (without r (n_refs nd))) by (unfold strong_count; lia).
  pose proof (strong_count_bounds s V _ nd Hok Hn). pose proof (ct_room _ _ (co_counts _ _ Hok)).
  unfold dropped, nonzero in *. destruct (r_strong x =? 0); cbn in *; [lia|]. rewrite i32_small by (unfold is_i32; lia). lia.
Qed.
Lemma dr_counts : node_counts s' (set_pass (if r_strong x =? 0 then Leaving n else Falling n) V) n (dropped r x nd).
Proof using Hok Hr Hn.
  destruct dr_listed as (Hd & Hin & _). destruct (ct_nodes _ _ (co_counts _ _ Hok) _ nd Hn) as [Hi Hp]. destruct dr_id as (E1 & E2 & E3). split.
  - rewrite dr_internal, E3, (strong_count_ext s s'), strong_count_without, (strong_of_some _ _ _ Hr); [lia|done|done|].
    intros k [_ Hk]%elem_of_without. by apply dr_strong_other.
  - rewrite E1. destruct (n_proc nd) as [q|] eqn:Eq.
    + destruct Hp as [?|[L1 L2 L3 L4]]; [by left|right]. cbn [v_holds set_pass].
      assert (∀ b L, held_on n (dropped r x nd) b L = held_on n nd b L) as Eho.
      { intros b L. unfold held_on. f_equal. f_equal. apply filter_ext. intros [q0 k|q0 a c]; unfold on; by rewrite ?E1, ?E2, ?Eq. }
      constructor; rewrite ?Eho; unfold dropped; destruct (r_strong x =? 0); done.
    + destruct Hp as (F1 & F2 & _). unfold dropped. destruct (r_strong x =? 0); cbn; auto.
Qed.
Lemma dr_informed : informed Settled n nd → informed (if r_strong x =? 0 then Leaving n else Falling n) n (dropped r x nd).
Proof using Hok Hr Hn P H.
  intros [[U1 [?|U2]] [?|[D1 _]]]; try done. pose proof dr_internal as Ei. pose proof (strong_count_bounds s V _ nd Hok Hn) as Hb.
  destruct (ct_nodes _ _ (co_counts _ _ Hok) _ nd Hn) as [Hi _]. destruct dr_id as (_ & _ & E3).
  assert (local_strong_refs (dropped r x nd) = local_strong_refs nd ∧ local_weak_refs (dropped r x nd) = local_weak_refs nd ∧
    has_strong_ref (dropped r x nd) = has_strong_ref nd ∧ has_weak_ref (dropped r x nd) = has_weak_ref nd) as (F1 & F2 & F3 & F4)
    by (unfold dropped; by destruct (r_strong x =? 0)).
  pose proof (b2z_nonneg (nonzero (r_strong x))).
  assert (node_strong (dropped r x nd) = true → node_strong nd = true) as Gs.
  { unfold node_strong. rewrite F1, Ei, !orb_true_iff, !negb_true_iff, !Z.eqb_neq. intros [?|?]; [|auto]. left.
    assert (0 ≤ internal_strong_refs (dropped r x nd)); [|lia]. destruct dr_counts as [-> _]. unfold strong_count. lia. }
  assert (node_weak (dropped r x nd) = true → node_weak nd = true) as Gw.
  { unfold node_weak. rewrite E3, F2, !orb_true_iff. intros [[G|G]|G]; [|auto..]. left. left.
    apply negb_true_iff, bool_decide_eq_false in G. apply negb_true_iff, bool_decide_eq_false. intros E. by rewrite E in G. }
  unfold informed. rewrite F3, F4. split; [split; [auto|right; auto]|]. destruct (Z.eqb_spec (r_strong x) 0) as [E0|E0]; [|by left]. right.
  split; [|by left]. intros E%D1. unfold node_strong in *. rewrite F1, Ei, E0. change (nonzero 0) with false. cbn [Z.b2z]. by rewrite Z.sub_0_r.
Qed.

Lemma core_drop_ref : settled V → core_ok s' (set_pass (if r_strong x =? 0 then Leaving n else Falling n) V).
Proof using Hok Hr HP Hn.
  intros Hset. set (V' := set_pass _ V). destruct dr_listed as (Hd & Hin & Hoth).
  assert (pass_on (v_pass V') n) as Hx' by (unfold V'; by destruct (r_strong x =? 0)). pose proof (settled_on V n Hset) as Hx.
  pose proof (co_counts _ _ Hok) as [C1 C2 C3 C4]. pose proof (co_told _ _ Hok) as Hto.
  constructor; [apply tables_drop_ref| | |apply works_drop_ref].
  - constructor.
    + intros m y Hm. change (<[n := dropped r x nd]> (nodes s) !! m = Some y) in Hm. destruct (decide (m = n)) as [->|Hne].
      * rewrite lookup_insert_eq in Hm. injection Hm as <-. apply dr_counts.
      * rewrite lookup_insert_ne in Hm by done. pose proof (C1 m y Hm) as Hc. apply (counts_other s V V' n) in Hc; try done.
        destruct Hc as [Hi Hp]. split; [|destruct (n_proc y); [destruct Hp as [?|[]]; [by left|right; by constructor]|done]].
        rewrite Hi. symmetry. apply strong_count_ext. intros k Hk. apply dr_strong_other. intros ->. by apply (Hoth m y).
    + intros k y Hy. change (delete r (refs s) !! k = Some y) in Hy. apply lookup_delete_Some in Hy as [_ Hy]. by apply (C2 k).
    + intros h Hh. specialize (C3 h Hh). destruct h as [q m|q a b]; cbn in C3 |- *.
      * destruct C3 as (a & l & E). destruct (dr_node_forth _ _ _ _ E). eauto.
      * destruct C3 as (m & l & E). destruct (dr_node_forth _ _ _ _ E). eauto.
    + split; [apply C4|]. cbn. rewrite map_size_delete. rewrite Hr. lia.
  - intros m y q Hm. change (<[n := dropped r x nd]> (nodes s) !! m = Some y) in Hm.
    replace (linked (WNode m) (todo s')) with (linked (WNode m) (todo s)) by (unfold s'; cbn [todo without_ref]; by rewrite linked_drop_work).
    destruct (decide (m = n)) as [->|Hne].
    + rewrite lookup_insert_eq in Hm. injection Hm as <-. destruct dr_id as (-> & _ & _). intros Hp Hy.
      destruct (Hto n nd q Hn Hp Hy) as [?|[?|Hi]]; [auto..|]. right. right. rewrite Hset in Hi. by apply dr_informed.
    + rewrite lookup_insert_ne in Hm by done. intros Hp Hy. destruct (Hto m y q Hm Hp Hy) as [?|[?|?]]; [auto..|].
      right. right. by apply (informed_swap (v_pass V) _ n).
Qed.
End one.
End dropping.

(** *** [binder_delete_ref]

    The function drops the strong count while the reference is still in the node's list, so that the node cannot go yet
    ([fall]), and frees the reference last; the invariant is recovered from [without_ref]. *)

Definition fall (n : Z) (nd : binder_node) (l : list (queue * work)) : list (queue * work) :=
  if node_strong nd then l
  else match n_proc nd with
       | Some p => if (has_strong_ref nd || has_weak_ref nd) && negb (linked (WNode n) l) then l ++ [(ProcTodo p, WNode n)] else l
       | None => l
       end.
Lemma fall_drop_work n nd od l : drop_work od (fall n nd l) = fall n nd (drop_work od l).
Proof.
  unfold fall. rewrite linked_drop_work. destruct (node_strong nd); [done|]. destruct (n_proc nd) as [p|]; [|done]. destruct (_ && _); [|done].
  destruct od as [d|]; [|done]. cbn [drop_work]. by rewrite unlink_app.
Qed.
Lemma death_in_fall q d n nd l : (q, WDeath d) ∈ fall n nd l ↔ (q, WDeath d) ∈ l.
Proof.
  unfold fall. destruct (node_strong nd); [done|]. destruct (n_proc nd) as [p|]; [|done]. destruct (_ && _); [|done]. apply death_in_enqueue.
Qed.
Lemma drop_work_unlink od w l : drop_work od (unlink w l) = unlink w (drop_work od l).
Proof.
  destruct od as [d|]; [|done]. cbn [drop_work]. unfold unlink. induction l as [|e l IH]; [done|]. cbn.
  destruct (bool_decide (e.2 = w)) eqn:E1, (bool_decide (e.2 = WDeath d)) eqn:E2; cbn; rewrite ?E1, ?E2; cbn; by rewrite ?IH.
Qed.

Definition wipe (r : Z) (od : option Z) (s : world) : world :=
  MkWorld (procs s) (contexts s) (nodes s) (delete r (refs s)) (drop_death od (deaths s)) (dead_nodes s) (drop_work od (todo s)).

Section deleting.
Context `{RbTree}.

Lemma rest_strong_fall s n nd : nodes s !! n = Some nd → n_refs nd ≠ [] → rest_strong n nd s = Val (set_todo (fall n nd (todo s)) s) 0.
Proof.
  intros Hn Hr. unfold rest_strong, fall, node_strong. rewrite (orb_comm (negb (local_strong_refs nd =? 0))).
  destruct (_ || _); [by rewrite set_todo_same|]. unfold dec_node_tail. rewrite (bind_val _ _ _ _ _ (the_node_eq _ _ _ Hn)).
  rewrite (bool_decide_eq_false_2 (n_refs nd = [])) by done. cbn [andb].
  destruct (n_proc nd) as [p|]; [|by rewrite set_todo_same]. destruct (has_strong_ref nd || has_weak_ref nd); cbn [andb]; [|by rewrite set_todo_same].
  unfold list_empty. run_m. destruct (linked (WNode n) (todo s)) eqn:Hl; cbn [negb andb]; [by rewrite set_todo_same|by rewrite add_tail_eq].
Qed.
Lemma core_fall s V n nd :
  core_ok s V → nodes s !! n = Some nd → v_pass V = Falling n → not_dying V nd →
  core_ok (set_todo (fall n nd (todo s)) s) (set_pass (Leaving n) V).
Proof.
  intros Hok Hn Hx Hy. assert (pass_on (v_pass V) n) as Hx' by (by rewrite Hx).
  assert ((∀ p, n_proc nd = Some p → linked (WNode n) (todo s) = true ∨ (has_strong_ref nd = true → node_strong nd = true)) →
    core_ok (set_todo (todo s) s) (set_pass (Leaving n) V)) as Hkeep.
  { intros Hd. rewrite set_todo_same. apply (core_pass s V _ n); try done; [|auto].
    intros nd0 p H0 Hp Hyp. rewrite Hn in H0. injection H0 as <-. destruct (co_told _ _ Hok n nd p Hn Hp Hyp) as [?|[?|[[U1 U2] _]]]; [auto..|].
    destruct (Hd p Hp) as [?|Hs]; [auto|]. right. right. destruct U2 as [?|U2]; [congruence|]. split; [split; [done|by right]|]. right. split; [done|].
    by left. }
  unfold fall. destruct (node_strong nd) eqn:Es; [apply Hkeep; auto|].
  destruct (n_proc nd) as [p|] eqn:Hp; [|apply Hkeep; congruence]. destruct (has_strong_ref nd || has_weak_ref nd) eqn:Hh; cbn [andb].
  - destruct (linked (WNode n) (todo s)) eqn:Hl; cbn [negb]; [apply Hkeep; auto|].
    pose proof (core_enqueue s V n nd (ProcTodo p) Hok Hn Hp eq_refl Hx') as Hok'. rewrite unlink_off in Hok' by done.
    apply (core_pass _ _ (set_pass (Leaving n) V) n Hok'); try done; [|auto]. intros. left.
    apply linked_add.
  - apply orb_false_iff in Hh as [Hhs _]. apply Hkeep. intros. right. congruence.
Qed.

(** Freeing the reference and its notification does not matter to the node. *)
Lemma rest_weak_wipe s n nd r od s5 :
  nodes s !! n = Some nd → rest_weak n nd (wipe r od s) = Val s5 0 →
  ∃ s4, rest_weak n nd s = Val s4 0 ∧ wipe r od s4 = s5 ∧ deaths s4 = deaths s ∧ refs s4 = refs s.
Proof.
  intros Hn. unfold rest_weak. destruct (_ || _); [intros [= <-]; by exists s|]. unfold dec_node_tail.
  rewrite (bind_val _ _ _ _ _ (the_node_eq (wipe r od s) n nd Hn)), (bind_val _ _ _ _ _ (the_node_eq s n nd Hn)). destruct (n_proc nd) as [p|].
  - destruct (has_strong_ref nd || has_weak_ref nd).
    + unfold list_empty. run_m. cbn [todo wipe]. rewrite linked_drop_work.
      destruct (linked (WNode n) (todo s)) eqn:Hl; cbn [negb]; [intros [= <-]; by exists s|].
      rewrite !add_tail_eq by (cbn [todo wipe]; by rewrite ?linked_drop_work). intros [= <-]. eexists. split_and!; try done.
      unfold wipe, set_todo. cbn -[drop_work]. f_equal. destruct od as [d|]; [|done]. cbn [drop_work]. by rewrite unlink_app.
    + destruct (bool_decide (n_refs nd = []) && _ && _); [|intros [= <-]; by exists s].
      run_m. unfold the_proc, deref. cbn -[drop_work]. destruct (procs s !! p); [|done]. run_m. intros [= <-]. eexists. split_and!; try done.
      unfold wipe. cbn [procs contexts nodes refs deaths dead_nodes todo set_nodes set_procs set_todo set_dead_nodes]. by rewrite drop_work_unlink.
  - destruct (bool_decide (n_refs nd = []) && _ && _); [|intros [= <-]; by exists s].
    run_m. unfold hlist_del_dead. cbn -[drop_work]. destruct (bool_decide _); [|done]. intros [= <-]. eexists. split_and!; try done.
    unfold wipe. cbn [procs contexts nodes refs deaths dead_nodes todo set_nodes set_procs set_todo set_dead_nodes]. by rewrite drop_work_unlink.
Qed.

(** What a change leaves that only drops things. *)
Record fewer (s s' : world) : Prop := {
  fw_contexts : contexts s' = contexts s;
  fw_procs : ∀ q, p_context <$> procs s' !! q = p_context <$> procs s !! q;
  fw_nodes : ∀ m o a l', node_id s' m = Some (o, a, l') → ∃ l, node_id s m = Some (o, a, l);
  fw_refs : ∀ k i, ref_id s' k = Some i → ref_id s k = Some i;
  fw_todo : ∀ q d, (q, WDeath d) ∈ todo s' → (q, WDeath d) ∈ todo s;
}.
Lemma fewer_refl s : fewer s s.
Proof. constructor; eauto. Qed.
Lemma fewer_trans s1 s2 s3 : fewer s1 s2 → fewer s2 s3 → fewer s1 s3.
Proof.
  intros [A1 A2 A3 A4 A5] [B1 B2 B3 B4 B5]. constructor; [congruence| | | |auto].
  - intros q. by rewrite B2.
  - intros m o a l' E. destruct (B3 _ _ _ _ E) as [l E']. eauto.
  - eauto.
Qed.
Lemma calm_fewer s s' : calm s s' → fewer s s'.
Proof.
  intros [A1 A2 A3 A4 A5 A6]. constructor; [done| | | |by intros q d ?%A6].
  - intros q. specialize (A4 q). unfold ref_trees in A4. destruct (procs s' !! q), (procs s !! q); cbn in *; congruence.
  - eauto.
  - intros k i. unfold ref_id. by rewrite A1.
Qed.
Lemma quiet_fewer s s' : quiet s s' → fewer s s'.
Proof.
  intros [A1 A2 A3 A4 A5 A6 A7 A8]. constructor; [done|by rewrite A1| | |by intros q d ?%A8].
  - intros m o a l'. rewrite A4. eauto.
  - intros k i. by rewrite A6.
Qed.
Lemma set_settled V : settled V → set_pass Settled V = V.
Proof. destruct V. unfold settled. cbn. by intros ->. Qed.

Lemma without_ref_fewer s V r x P nd :
  core_ok s V → refs s !! r = Some x → procs s !! r_proc x = Some P → nodes s !! r_node x = Some nd → fewer s (without_ref r x P nd s).
Proof.
  intros Hok Hr HP Hn. constructor.
  - done.
  - intros q. cbn. destruct (decide (q = r_proc x)) as [->|Hq]; [by rewrite lookup_insert_eq, HP|by rewrite lookup_insert_ne].
  - intros m o a l' E. destruct (dr_node_back s r x P nd Hn m o a l' E) as (l & ? & _). eauto.
  - intros k i. rewrite dr_ref_id. by case_decide.
  - intros q d Hin. cbn [todo without_ref] in Hin. by apply elem_of_drop_work in Hin as [? _].
Qed.

(** The state in which the counts are dropped, as [binder_delete_ref] reaches it. *)
Lemma delete_ref_counts s V r x P nd :
  core_ok s V → refs s !! r = Some x → procs s !! r_proc x = Some P → nodes s !! r_node x = Some nd →
  let l := if r_strong x =? 0 then todo s else fall (r_node x) (add_internal (-1) nd) (todo s) in
  ∀ (k : Z → M world unit),
  ((if r_strong x =? 0 then mret 0 else binder_dec_node (r_node x) true true) ≫= k)
    (set_procs (<[r_proc x := set_p_refs (rb_erase r (refs_by_desc P)) (rb_erase r (refs_by_node P)) P]> (procs s)) s)
  = k 0 (set_todo l (set_nodes (<[r_node x := if r_strong x =? 0 then nd else add_internal (-1) nd]> (nodes s))
       (set_procs (<[r_proc x := set_p_refs (rb_erase r (refs_by_desc P)) (rb_erase r (refs_by_node P)) P]> (procs s)) s))).
Proof.
  intros Hok Hr HP Hn l k. set (s1 := set_procs _ s). assert (nodes s1 !! r_node x = Some nd) as Hn1 by done.
  destruct (r_strong x =? 0) eqn:E0.
  - rewrite (bind_val (mret 0) _ s1 s1 0) by done. f_equal. change (nodes s) with (nodes s1). rewrite set_nodes_same by done.
    unfold l. change (todo s) with (todo s1). by rewrite set_todo_same.
  - rewrite (bind_val _ _ _ (set_todo l (set_nodes (<[r_node x := add_internal (-1) nd]> (nodes s1)) s1)) 0); [done|].
    rewrite (dec_node_eq s1 (r_node x) nd true true Hn1). cbn zeta. rewrite rest_strong_fall; [done|cbn; by rewrite lookup_insert_eq|].
    destruct (rn_mine s V r x (r_node x) nd Hok Hr eq_refl Hn) as (_ & Hin & _). cbn. intros E. rewrite E in Hin. by apply elem_of_nil in Hin.
Qed.

Lemma delete_ref_ok s V r x nd :
  core_ok s V → settled V → refs s !! r = Some x → nodes s !! r_node x = Some nd → not_dying V nd →
  ∃ s', binder_delete_ref r s = Val s' tt ∧ core_ok s' V ∧ refs s' = delete r (refs s) ∧ fewer s s'.
Proof.
  intros Hok Hset Hr Hn Hy. destruct (tb_ref _ (co_tables _ _ Hok) _ _ _ _ (ref_id_some _ _ _ Hr)) as ([P HP] & _ & _).
  pose proof (core_drop_ref s V r x P nd Hok Hr HP Hn Hset) as Hdrop. pose proof (without_ref_fewer s V r x P nd Hok Hr HP Hn) as Hfew.
  unfold binder_delete_ref. rewrite (bind_val _ _ _ _ _ (the_ref_eq _ _ _ Hr)), (bind_val _ _ _ _ _ (the_proc_eq _ _ _ HP)).
  rewrite (bind_val (put_proc _ _) _ s _ tt eq_refl), (delete_ref_counts s V r x P nd) by done.
  set (l := if r_strong x =? 0 then todo s else _). set (nd1 := if r_strong x =? 0 then nd else _).
  set (s2 := set_todo l _). assert (nodes s2 !! r_node x = Some nd1) as Hn2 by (cbn; by rewrite lookup_insert_eq).
  rewrite (bind_val _ _ _ _ _ (the_node_eq _ _ _ Hn2)), (bind_val (put_node _ _) _ s2 _ tt eq_refl).
  set (nd2 := with_refs _ nd1). set (s3 := set_nodes (<[r_node x := nd2]> (nodes s2)) s2).
  assert (nodes s3 !! r_node x = Some nd2) as Hn3 by (cbn; by rewrite lookup_insert_eq).
  assert (nd2 = dropped r x nd) as Ed by (unfold nd2, nd1, dropped; by destruct (r_strong x =? 0)).
  set (wd := without_ref r x P nd s) in *.
  assert (wipe r (r_death x) s3 = set_todo (drop_work (r_death x) l) wd) as Ewipe.
  { unfold wipe, s3, s2, wd, without_ref, set_todo. cbn [procs contexts nodes refs deaths dead_nodes todo set_nodes set_procs]. by rewrite insert_insert_eq, Ed. }
  assert (nodes wd !! r_node x = Some nd2) as Hnw by (unfold wd; cbn [nodes without_ref]; rewrite lookup_insert_eq; by rewrite Ed).
  assert (not_dying V nd2) as Hy2. { rewrite Ed. intros q. destruct (dr_id r x nd) as (-> & _). apply Hy. }
  assert (core_ok (set_todo (drop_work (r_death x) l) wd) (set_pass (Leaving (r_node x)) V)) as Hokw.
  { unfold l. destruct (r_strong x =? 0) eqn:E0; [change (drop_work (r_death x) (todo s)) with (todo wd); by rewrite set_todo_same|].
    rewrite fall_drop_work. change (drop_work (r_death x) (todo s)) with (todo wd).
    replace (fall (r_node x) (add_internal (-1) nd) (todo wd)) with (fall (r_node x) nd2 (todo wd)) by (unfold nd2, nd1; done).
    by apply (core_fall wd (set_pass (Falling (r_node x)) V) (r_node x) nd2). }
  destruct (rest_weak_ok _ _ (r_node x) nd2 Hokw) as (s5 & E5 & Hok5 & Hcalm); [done|done|by left|done|].
  rewrite <- Ewipe in E5. destruct (rest_weak_wipe s3 (r_node x) nd2 r (r_death x) s5 Hn3 E5) as (s4 & E4 & Es5 & Ed4 & Er4).
  assert (binder_dec_node (r_node x) false true s3 = Val s4 0) as Edec.
  { rewrite (dec_node_eq s3 (r_node x) nd2 false true Hn3). cbn zeta. by rewrite set_nodes_same. }
  rewrite (bind_val _ _ _ _ _ Edec). exists s5. split; [|split; [|split]].
  - rewrite <- Es5. destruct (r_death x) as [d|] eqn:Edd; [|run_m; by destruct s4].
    destruct (wk_owned _ (co_works _ _ Hok) r x d Hr Edd) as (y & Hyd & _). 
    set (s4' := set_todo (unlink (WDeath d) (todo s4)) s4). assert (deaths s4' !! d = Some y) as Hyd4 by (unfold s4'; cbn; by rewrite Ed4).
    assert ((list_del_init (WDeath d);; the_death d;; kfree_death d) s4 = Val (set_deaths (delete d (deaths s4)) s4') tt) as Ein.
    { rewrite (bind_val (list_del_init _) _ s4 s4' tt) by done. by rewrite (bind_val _ _ _ _ _ (the_death_eq _ _ _ Hyd4)). }
    by rewrite (bind_val _ _ _ _ _ Ein).
  - rewrite <- (set_settled V Hset). exact Hok5.
  - rewrite <- Es5. cbn. by rewrite Er4.
  - eapply fewer_trans; [exact Hfew|]. eapply fewer_trans; [|by apply calm_fewer]. apply calm_fewer, calm_todo. intros q d.
    unfold l, wd. cbn [todo without_ref]. rewrite !elem_of_drop_work. destruct (r_strong x =? 0); [done|]. by rewrite death_in_fall.
Qed.

(** A reference whose counts are both zero goes; any other stays. *)
Lemma drop_unless_counted s V r x :
  core_ok s V → settled V → refs s !! r = Some x → (∀ nd, nodes s !! r_node x = Some nd → not_dying V nd) →
  ∃ s', (if (r_strong x =? 0) && (r_weak x =? 0) then binder_delete_ref r;; mret 0 else mret 0) s = Val s' 0 ∧ core_ok s' V ∧ fewer s s'.
Proof.
  intros Hok Hset Hr Hy. destruct (_ && _); [|exists s; split; [done|]; by split; [|apply fewer_refl]].
  destruct (tb_ref _ (co_tables _ _ Hok) _ _ _ _ (ref_id_some _ _ _ Hr)) as (_ & [[[o a] l] Hid] & _).
  apply node_id_inv in Hid as (nd & Hn & _). destruct (delete_ref_ok s V r x nd Hok Hset Hr Hn (Hy nd Hn)) as (s' & E & Hok' & _ & Hf).
  exists s'. split; [by rewrite (bind_val _ _ _ _ _ E)|done].
Qed.

Lemma last_strong_ok s V r x nd :
  core_ok s V → settled V → refs s !! r = Some x → nodes s !! r_node x = Some nd → not_dying V nd → r_strong x = 1 →
  ∃ s', binder_dec_node (r_node x) true true (set_refs (<[r := set_strong 0 x]> (refs s)) s) = Val s' 0 ∧ core_ok s' V ∧
    refs s' !! r = Some (set_strong 0 x) ∧ calm (set_refs (<[r := set_strong 0 x]> (refs s)) s) s'.
Proof.
  intros Hok Hset Hr Hn Hy E1. set (x' := set_strong 0 x). set (s1 := set_refs _ s). set (n := r_node x) in *.
  assert (1 ≤ internal_strong_refs nd < 2147483648) as Hi.
  { destruct (ct_nodes _ _ (co_counts _ _ Hok) n nd Hn) as [Ei _]. destruct (rn_mine s V r x n nd Hok Hr eq_refl Hn) as (Hd & Hin & _).
    pose proof (strong_count_without s r (n_refs nd) Hd Hin) as Hw. rewrite (strong_of_some _ _ _ Hr), E1 in Hw. change (nonzero 1) with true in Hw.
    assert (0 ≤ strong_count s (without r (n_refs nd))) by (unfold strong_count; lia). cbn in Hw.
    pose proof (strong_count_bounds s V n nd Hok Hn). pose proof (ct_room _ _ (co_counts _ _ Hok)). lia. }
  rewrite (dec_node_eq s1 n nd true true Hn). cbn zeta. set (nd' := add_internal (-1) nd).
  assert (internal_strong_refs nd' = internal_strong_refs nd - 1) as Ei by (cbn; rewrite i32_small by (unfold is_i32; lia); lia).
  change (set_nodes (<[n := nd']> (nodes s1)) s1) with (ref_and_node r x' n nd' s). set (V' := set_pass (Falling n) V).
  assert (core_ok (ref_and_node r x' n nd' s) V') as Hok'.
  { apply (core_ref s V r x x' n nd nd'); try done; [by apply settled_on| |by apply (ct_refs _ _ (co_counts _ _ Hok) r x Hr)|].
    - rewrite Ei, E1. change (nonzero 1) with true. change (nonzero (r_strong x')) with false. cbn. lia.
    - intros p Hp Hyp. destruct (co_told _ _ Hok n nd p Hn Hp Hyp) as [?|[?|[[U1 [?|U2]] _]]]; [auto..|congruence|]. right. right.
      assert (node_strong nd' = true → node_strong nd = true) as Gs.
      { unfold node_strong. rewrite Ei, !orb_true_iff, !negb_true_iff, !Z.eqb_neq. cbn [local_strong_refs add_internal with_counts nd']. intros [?|?]; [left; lia|auto]. }
      split; [|by left]. split; [intros G; by apply U1, Gs|]. right. unfold node_weak. rewrite !orb_true_iff. intros G. apply U2. unfold node_weak.
      rewrite !orb_true_iff. destruct G as [G|G]; [by left|right; by apply Gs]. }
  destruct (rest_strong_ok _ V' n nd' Hok') as (s' & E & Hok'' & Hc); [cbn; by rewrite lookup_insert_eq|done|done|done| |].
  - intros _ E. destruct (rn_mine s V r x n nd Hok Hr eq_refl Hn) as (_ & Hin & _). cbn in E. rewrite E in Hin. by apply elem_of_nil in Hin.
  - exists s'. split; [done|]. split; [by rewrite <- (set_settled V Hset)|]. split; [rewrite (cm_refs _ _ Hc); cbn; by rewrite lookup_insert_eq|].
    eapply calm_trans; [|exact Hc]. change (ref_and_node r x' n nd' s) with (set_nodes (<[n := nd']> (nodes s1)) s1). by apply (calm_node s1 n nd).
Qed.

Lemma dec_ref_ok s V r x nd sg :
  core_ok s V → settled V → refs s !! r = Some x → nodes s !! r_node x = Some nd → not_dying V nd →
  ∃ s' ret, binder_dec_ref r sg s = Val s' ret ∧ core_ok s' V ∧ fewer s s'.
Proof.
  intros Hok Hset Hr Hn Hy. destruct (ct_refs _ _ (co_counts _ _ Hok) r x Hr) as [Hs Hw].
  unfold binder_dec_ref. rewrite (bind_val _ _ _ _ _ (the_ref_eq _ _ _ Hr)).
  assert (∀ x', r_proc x' = r_proc x → r_node x' = r_node x → r_desc x' = r_desc x → r_death x' = r_death x →
    nonzero (r_strong x') = nonzero (r_strong x) → 0 ≤ r_strong x' < 2147483648 → 0 ≤ r_weak x' < 2147483648 →
    ∃ s', (if (r_strong x' =? 0) && (r_weak x' =? 0) then binder_delete_ref r;; mret 0 else mret 0) (set_refs (<[r := x']> (refs s)) s) = Val s' 0 ∧
      core_ok s' V ∧ fewer s s') as Hplain.
  { intros x' E1 E2 E3 E4 E5 B1 B2. set (s1 := set_refs _ s).
    assert (s1 = ref_and_node r x' (r_node x) nd s) as Es1 by (unfold ref_and_node; by rewrite set_nodes_same).
    destruct (drop_unless_counted s1 V r x') as (s' & E & Hok' & Hf); [|done|cbn; by rewrite lookup_insert_eq| |].
    - rewrite Es1. apply (core_ref s V r x x' (r_node x) nd nd); try done; [by apply settled_on|by apply settled_on|rewrite E5; lia|].
      intros p Hp Hyp. by apply (co_told _ _ Hok (r_node x) nd p).
    - intros nd0. rewrite E2. intros H0. change (nodes s !! r_node x = Some nd0) in H0. rewrite Hn in H0. by injection H0 as <-.
    - exists s'. split; [done|]. split; [done|]. eapply fewer_trans; [|exact Hf]. rewrite Es1. apply quiet_fewer. by apply (rn_quiet s r x x' (r_node x) nd nd). }
  destruct sg.
  - destruct (Z.eqb_spec (r_strong x) 0) as [E0|E0]; [exists s, (- EINVAL); split; [done|]; by split; [|apply fewer_refl]|].
    cbn zeta. rewrite i32_small by (unfold is_i32; lia). rewrite (bind_val (put_ref r _) _ s (set_refs (<[r := set_strong (r_strong x - 1) x]> (refs s)) s) tt) by done.
    cbn [r_strong r_node r_weak set_strong]. destruct (Z.eqb_spec (r_strong x - 1) 0) as [E1|E1].
    + replace (r_strong x - 1) with 0 by lia. destruct (last_strong_ok s V r x nd Hok Hset Hr Hn Hy ltac:(lia)) as (s1 & E & Hok1 & Hr1 & Hc1).
      rewrite (bind_val _ _ _ _ _ E). destruct (drop_unless_counted s1 V r (set_strong 0 x) Hok1 Hset Hr1) as (s' & E' & Hok' & Hf).
      * intros nd1 Hn1. pose proof (node_id_some _ _ _ Hn1) as Hid. apply (cm_nodes _ _ Hc1) in Hid.
        change (node_id (set_refs _ s)) with (node_id s) in Hid. cbn [r_node set_strong] in Hid. rewrite (node_id_some _ _ _ Hn) in Hid. injection Hid as E1' _ _.
        intros q Hq. apply Hy. congruence.
      * exists s', 0. split; [exact E'|]. split; [done|]. eapply fewer_trans; [|exact Hf]. eapply fewer_trans; [|by apply calm_fewer].
        constructor; try done; [eauto|]. intros k i. unfold ref_id. cbn. destruct (decide (k = r)) as [->|Hk]; [by rewrite lookup_insert_eq, Hr|by rewrite lookup_insert_ne].
    + rewrite (bind_val (mret 0) _ _ _ 0 eq_refl). destruct (Hplain (set_strong (r_strong x - 1) x)) as (s' & E & Hok' & Hf); try done; cbn; [|lia|].
      * unfold nonzero. rewrite (proj2 (Z.eqb_neq (r_strong x - 1) 0) E1), (proj2 (Z.eqb_neq (r_strong x) 0) E0). done.
      * cbn [r_strong r_weak set_strong] in E. rewrite (proj2 (Z.eqb_neq (r_strong x - 1) 0) E1) in E. eauto.
  - destruct (Z.eqb_spec (r_weak x) 0) as [E0|E0]; [exists s, (- EINVAL); split; [done|]; by split; [|apply fewer_refl]|].
    cbn zeta. rewrite i32_small by (unfold is_i32; lia). rewrite (bind_val (put_ref r _) _ s (set_refs (<[r := set_weak (r_weak x - 1) x]> (refs s)) s) tt) by done.
    destruct (Hplain (set_weak (r_weak x - 1) x)) as (s' & E & Hok' & Hf); try done; cbn; [lia|]. eauto.
Qed.
End deleting.
