(* ===== verification/BinderRefsDeath.v ===== *)
(** * Death notifications of the binder driver

    The invariant of [BinderRefsInv] is kept when notifications are asked for, given up, delivered and answered, when
    the work of a thread or process is released, and when new nodes and the context manager appear. *)

From S2P Require Import Prelude Kernel Trees BinderRefs BinderRefsInv BinderRefsTab.

(** ** Changes of one notification *)

(** A reference but for its notification. *)
Definition ref_body (s : world) (r : Z) : option binder_ref := set_death None <$> refs s !! r.
(** What has to hold of notification [d]. *)
Record death_ok (s : world) (d : Z) : Prop := {
  dk_queued : ∀ q, (q, WDeath d) ∈ todo s → is_Some (procs s !! queue_proc q) ∧ is_Some (deaths s !! d);
  dk_owned : ∀ r p n, ref_work s r = Some (p, n, Some d) → ∃ y, deaths s !! d = Some y ∧
    ∀ q, (q, WDeath d) ∈ todo s → queue_proc q = p ∧ d_type y = BINDER_WORK_DEAD_BINDER ∧ ∃ a l, node_id s n = Some (None, a, l);
  dk_owner : ∀ r1 r2 p1 p2 n1 n2, ref_work s r1 = Some (p1, n1, Some d) → ref_work s r2 = Some (p2, n2, Some d) → r1 = r2;
  dk_loose : ∀ y, deaths s !! d = Some y → (∀ r p n, ref_work s r ≠ Some (p, n, Some d)) → ∃ q, (q, WDeath d) ∈ todo s ∧
    (d_type y = BINDER_WORK_CLEAR_DEATH_NOTIFICATION ∧ is_delivered q = false ∨ d_type y = BINDER_WORK_DEAD_BINDER_AND_CLEAR);
}.
Lemma ref_work_inv s r p n od : ref_work s r = Some (p, n, od) → ∃ x, refs s !! r = Some x ∧ r_proc x = p ∧ r_node x = n ∧ r_death x = od.
Proof. unfold ref_work. destruct (refs s !! r) as [x|]; [|done]. cbn. intros [= <- <- <-]. eauto. Qed.
Lemma works_death_ok s d : works s → death_ok s d.
Proof.
  intros [W1 W2 W3 W4 W5 W6]. constructor.
  - intros q. apply W3.
  - intros r p n (x & Hx & <- & <- & Hd)%ref_work_inv. by apply (W4 r x d).
  - intros r1 r2 p1 p2 n1 n2 (x1 & E1 & _ & _ & F1)%ref_work_inv (x2 & E2 & _ & _ & F2)%ref_work_inv. by apply (W5 r1 r2 x1 x2 d).
  - intros y Hy Hf. apply (W6 d y Hy). intros r x Hx Hd. apply (Hf r (r_proc x) (r_node x)). by rewrite (ref_work_some _ _ _ Hx), Hd.
Qed.
Lemma deaths_ok_works s : NoDup (todo s).*2 → (∀ q n, (q, WNode n) ∈ todo s → is_delivered q = false ∧ ∃ a l, node_id s n = Some (Some (queue_proc q), a, l)) →
  (∀ d, death_ok s d) → works s.
Proof.
  intros Hd Hn Hk. constructor; [done|done| | | |].
  - intros q d. apply (dk_queued _ _ (Hk d)).
  - intros r x d Hx Ed. apply (dk_owned _ _ (Hk d) r). by rewrite (ref_work_some _ _ _ Hx), Ed.
  - intros r1 r2 x1 x2 d E1 E2 F1 F2. apply (dk_owner _ _ (Hk d) r1 r2 (r_proc x1) (r_proc x2) (r_node x1) (r_node x2)).
    + by rewrite (ref_work_some _ _ _ E1), F1.
    + by rewrite (ref_work_some _ _ _ E2), F2.
  - intros d y Hy Hf. apply (dk_loose _ _ (Hk d) y Hy). intros r p n (x & Hx & _ & _ & E)%ref_work_inv. by apply (Hf r x).
Qed.
Lemma death_ok_ext s s' d :
  (∀ q, is_Some (procs s !! q) → is_Some (procs s' !! q)) → (∀ q, (q, WDeath d) ∈ todo s' ↔ (q, WDeath d) ∈ todo s) → deaths s' !! d = deaths s !! d →
  (∀ r p n, ref_work s' r = Some (p, n, Some d) ↔ ref_work s r = Some (p, n, Some d)) →
  (∀ n a l, node_id s n = Some (None, a, l) → ∃ a' l', node_id s' n = Some (None, a', l')) → death_ok s d → death_ok s' d.
Proof.
  intros Ep Et Ed Er En [D1 D2 D3 D4]. constructor.
  - intros q Hq%Et. rewrite Ed. destruct (D1 q Hq). auto.
  - intros r p n Hr%Er. rewrite Ed. destruct (D2 r p n Hr) as (y & Hy & Hq). exists y. split; [done|]. intros q Hin%Et.
    destruct (Hq q Hin) as (? & ? & (a & l & E)). split_and!; [done..|]. by eapply En.
  - intros r1 r2 p1 p2 n1 n2 E1%Er E2%Er. by eapply D3.
  - intros y. rewrite Ed. intros Hy Hf. destruct (D4 y Hy) as (q & Hin & Hq).
    + intros r p n Hr%Er. by apply (Hf r p n).
    + exists q. split; [by apply Et|done].
Qed.

Lemma core_death s s' V d :
  core_ok s V → procs s' = procs s → contexts s' = contexts s → nodes s' = nodes s → dead_nodes s' = dead_nodes s →
  (∀ r, ref_body s' r = ref_body s r) → (∀ r p n e, e ≠ d → ref_work s' r = Some (p, n, Some e) ↔ ref_work s r = Some (p, n, Some e)) →
  (∀ e, e ≠ d → deaths s' !! e = deaths s !! e) → (∀ q w, w ≠ WDeath d → (q, w) ∈ todo s' ↔ (q, w) ∈ todo s) →
  NoDup (todo s').*2 → death_ok s' d → core_ok s' V.
Proof.
  intros [Ht [C1 C2 C3 C4] Hto Hw] Ep Ec En Ed Eb Er Ede Et Hnd Hdk.
  assert (∀ n, node_id s' n = node_id s n) as Eid by (intros n; unfold node_id; by rewrite En).
  assert (∀ r x', refs s' !! r = Some x' → ∃ x, refs s !! r = Some x ∧ set_death None x = set_death None x') as Hrb.
  { intros r x' Hx'. specialize (Eb r). unfold ref_body in Eb. rewrite Hx' in Eb. destruct (refs s !! r) as [x|]; [|done]. injection Eb as E1 E2 E3 E4 E5.
    exists x. split; [done|]. unfold set_death. congruence. }
  assert (∀ r, ref_id s' r = ref_id s r) as Erid.
  { intros r. specialize (Eb r). unfold ref_body, set_death in Eb. unfold ref_id. destruct (refs s' !! r), (refs s !! r); cbn in *; congruence. }
  assert (∀ r, strong_of s' r = strong_of s r) as Est.
  { intros r. specialize (Eb r). unfold ref_body, set_death in Eb. unfold strong_of. destruct (refs s' !! r), (refs s !! r); cbn in *; congruence. }
  assert (∀ n, linked (WNode n) (todo s') = linked (WNode n) (todo s)) as El.
  { intros n. apply eq_true_iff_eq. rewrite !linked_true. split; intros [q Hq]; exists q; by apply Et. }
  constructor.
  - by apply (tables_ext s).
  - constructor.
    + intros n nd. rewrite En. intros Hn. destruct (C1 n nd Hn) as [Hi Hp]. split; [rewrite Hi; symmetry; by apply strong_count_ext|].
      destruct (n_proc nd); [|done]. destruct Hp as [?|[]]; [by left|right; constructor; unfold manages in *; by rewrite ?Ec].
    + intros r x' Hx'. destruct (Hrb r x' Hx') as (x & Hx & E). destruct x, x'. cbn in E. injection E as -> -> -> -> ->. by apply (C2 r) in Hx.
    + intros h Hh. apply (hold_ok_ext s); [done|by apply C3].
    + split; [apply C4|]. assert (size (refs s') = size (refs s)) as ->; [|apply C4]. rewrite <- !size_dom. f_equal. apply set_eq. intros r.
      rewrite !elem_of_dom. specialize (Eb r). unfold ref_body in Eb. destruct (refs s' !! r), (refs s !! r); cbn in Eb; [split; eauto|done|done|split; eauto].
  - intros n nd p. rewrite En, El. apply Hto.
  - apply deaths_ok_works; [done| |].
    + intros q n Hin. rewrite Eid. apply (wk_nodes _ Hw). by apply Et in Hin.
    + intros e. destruct (decide (e = d)) as [->|He]; [done|]. apply (death_ok_ext s); [by rewrite Ep| |by apply Ede| | |by apply works_death_ok].
      * intros q. apply Et. congruence.
      * intros r p n. by apply Er.
      * intros n a l. rewrite Eid. eauto.
Qed.

(** The change of one reference's notification. *)
Definition with_death (r : Z) (x : binder_ref) (od : option Z) (m : gmap Z binder_ref_death) (l : list (queue * work)) (s : world) : world :=
  set_todo l (set_deaths m (set_refs (<[r := set_death od x]> (refs s)) s)).
Lemma wd_body r x od m l s k : refs s !! r = Some x → ref_body (with_death r x od m l s) k = ref_body s k.
Proof.
  intros Hr. unfold ref_body, with_death. cbn. destruct (decide (k = r)) as [->|Hk]; [by rewrite lookup_insert_eq, Hr|by rewrite lookup_insert_ne].
Qed.
Lemma wd_work r x od m l s k : ref_work (with_death r x od m l s) k = if decide (k = r) then Some (r_proc x, r_node x, od) else ref_work s k.
Proof.
  unfold ref_work, with_death. cbn. destruct (decide (k = r)) as [->|Hk]; [by rewrite lookup_insert_eq|by rewrite lookup_insert_ne].
Qed.

Section notifications.
Context `{RbTree}.

Lemma notify_queue_proc p t looper : queue_proc (notify_queue p t looper) = p ∧ is_delivered (notify_queue p t looper) = false.
Proof. unfold notify_queue. by destruct (_ =? 0). Qed.
Lemma fresh_death s V d : core_ok s V → deaths s !! d = None → linked (WDeath d) (todo s) = false ∧ ∀ r p n, ref_work s r ≠ Some (p, n, Some d).
Proof.
  intros Hok Hd. pose proof (co_works _ _ Hok) as Hw. split.
  - apply linked_false. intros q Hq. destruct (wk_deaths _ Hw q d Hq) as [_ [? ?]]. congruence.
  - intros r p n (x & Hx & _ & _ & E)%ref_work_inv. destruct (wk_owned _ Hw r x d Hx E) as (? & ? & _). congruence.
Qed.
Lemma todo_add_other q0 w0 (l : list (queue * work)) q w : w ≠ w0 → (q, w) ∈ l ++ [(q0, w0)] ↔ (q, w) ∈ l.
Proof. intros Hw. rewrite elem_of_app, list_elem_of_singleton. naive_solver. Qed.
Lemma death_todo_add (q0 : queue) d l q : linked (WDeath d) l = false → (q, WDeath d) ∈ l ++ [(q0, WDeath d)] → q = q0.
Proof.
  intros Hl [Hin|E%list_elem_of_singleton]%elem_of_app; [|congruence]. by apply (proj1 (linked_false _ _) Hl) in Hin.
Qed.

(** A new notification for a reference that has none; when the node is dead it is queued at once. *)
Lemma core_new_death s V r x d y l :
  core_ok s V → refs s !! r = Some x → r_death x = None → deaths s !! d = None →
  (l = todo s ∨ ∃ q, l = todo s ++ [(q, WDeath d)] ∧ queue_proc q = r_proc x ∧ d_type y = BINDER_WORK_DEAD_BINDER ∧ ∃ a l', node_id s (r_node x) = Some (None, a, l')) →
  core_ok (with_death r x (Some d) (<[d := y]> (deaths s)) l s) V.
Proof.
  intros Hok Hr Hx Hd Hl. destruct (fresh_death s V d Hok Hd) as [Hlk Hno]. pose proof (co_works _ _ Hok) as Hw.
  assert (∀ q, (q, WDeath d) ∈ l → queue_proc q = r_proc x ∧ d_type y = BINDER_WORK_DEAD_BINDER ∧ ∃ a l', node_id s (r_node x) = Some (None, a, l')) as Hq.
  { intros q Hin. destruct Hl as [->|(q0 & -> & Hrest)]; [by apply (proj1 (linked_false _ _) Hlk) in Hin|]. by apply death_todo_add in Hin as ->. }
  apply (core_death s _ V d); try done.
  - intros k. by apply wd_body.
  - intros k p n e He. rewrite wd_work. case_decide; [subst|done]. rewrite (ref_work_some _ _ _ Hr), Hx. naive_solver.
  - intros e He. cbn. by rewrite lookup_insert_ne.
  - intros q w Hwd. cbn. destruct Hl as [->|(q0 & -> & _)]; [done|by apply todo_add_other].
  - cbn. destruct Hl as [->|(q0 & -> & _)]; [apply Hw|apply add_nodup; [done|apply Hw]].
  - constructor; cbn -[ref_work].
    + intros q Hin. rewrite lookup_insert_eq. destruct (Hq q Hin) as (-> & _). split; [|eauto].
      destruct (tb_ref _ (co_tables _ _ Hok) _ _ _ _ (ref_id_some _ _ _ Hr)) as (? & _). done.
    + intros k p n. rewrite wd_work, lookup_insert_eq. case_decide; [|intros E; by apply Hno in E]. intros [= <- <-]. exists y. split; [done|]. by apply Hq.
    + intros r1 r2 p1 p2 n1 n2. rewrite !wd_work. repeat case_decide; [congruence|intros _ E; by apply Hno in E|intros E; by apply Hno in E..].
    + intros y0 _ Hf. destruct (Hf r (r_proc x) (r_node x)). by rewrite wd_work, decide_True.
Qed.
Lemma request_death_ok s V p P t looper target cookie kz :
  core_ok s V → procs s !! p = Some P → (∀ d, kz = Some d → deaths s !! d = None) →
  ∃ s' b, binder_request_death p t looper target cookie kz s = Val s' b ∧ core_ok s' V.
Proof.
  intros Hok HP Hkz. unfold binder_request_death. destruct (get_ref_ok s V p P target false Hok HP) as (found & E & Hf). rewrite (bind_val _ _ _ _ _ E).
  destruct found as [r|]; [|by exists s, false]. destruct Hf as (x & Hr & Hp & _). rewrite (bind_val _ _ _ _ _ (the_ref_eq _ _ _ Hr)).
  destruct (r_death x) eqn:Ex; [by exists s, false|]. destruct kz as [d|]; [|by exists s, true]. specialize (Hkz d eq_refl).
  destruct (tb_ref _ (co_tables _ _ Hok) _ _ _ _ (ref_id_some _ _ _ Hr)) as (_ & [[[o a] l] Hid] & _).
  apply node_id_inv in Hid as (nd & Hn & Ho & _). destruct (fresh_death s V d Hok Hkz) as [Hlk _].
  rewrite (bind_val (put_death _ _) _ s _ tt eq_refl), (bind_val (put_ref _ _) _ _ _ tt eq_refl).
  match goal with |- context [(the_node _ ≫= _) ?w] => rewrite (bind_val _ _ _ _ _ (the_node_eq w _ nd Hn)) end. destruct (n_proc nd) eqn:Hnp.
  - eexists _, false. split; [done|]. apply (core_new_death s V r x d _ (todo s)); auto.
  - rewrite (bind_val (put_death _ _) _ _ _ tt eq_refl).
    match goal with |- context [(list_add_tail _ _ ≫= _) ?w] => rewrite (bind_val _ _ _ _ _ (add_tail_eq w _ _ Hlk)) end.
    eexists _, false. split; [done|]. destruct (notify_queue_proc p t looper) as [Eq _].
    replace (set_todo _ _) with (with_death r x (Some d) (<[d := MkDeath BINDER_WORK_DEAD_BINDER cookie]> (deaths s)) (todo s ++ [(notify_queue p t looper, WDeath d)]) s).
    + apply core_new_death; try done. right. eexists. split; [done|]. split; [congruence|]. split; [done|]. rewrite (node_id_some _ _ _ Hn), Hnp. eauto.
    + unfold with_death, set_todo, set_deaths, set_refs. cbn. by rewrite insert_insert_eq.
Qed.

(** The reference lets go of its notification, which the process is still to be told about. *)
Lemma core_clear_death s V r x d y' l :
  core_ok s V → refs s !! r = Some x → r_death x = Some d →
  ((∃ q, linked (WDeath d) (todo s) = false ∧ l = todo s ++ [(q, WDeath d)] ∧ queue_proc q = r_proc x ∧ is_delivered q = false ∧
      d_type y' = BINDER_WORK_CLEAR_DEATH_NOTIFICATION) ∨
   linked (WDeath d) (todo s) = true ∧ l = todo s ∧ d_type y' = BINDER_WORK_DEAD_BINDER_AND_CLEAR) →
  core_ok (with_death r x None (<[d := y']> (deaths s)) l s) V.
Proof.
  intros Hok Hr Hx Hl. pose proof (co_works _ _ Hok) as Hw. pose proof (works_death_ok s d Hw) as [D1 D2 D3 D4].
  pose proof (ref_work_some _ _ _ Hr) as Hrw. rewrite Hx in Hrw.
  assert (∀ k p n, k ≠ r → ref_work s k ≠ Some (p, n, Some d)) as Hno by (intros k p n Hk E; apply Hk; by eapply D3).
  apply (core_death s _ V d); try done.
  - intros k. by apply wd_body.
  - intros k p n e He. rewrite wd_work. case_decide; [subst|done]. rewrite Hrw. naive_solver.
  - intros e He. cbn. by rewrite lookup_insert_ne.
  - intros q w Hwd. cbn. destruct Hl as [(q0 & _ & -> & _)|(_ & -> & _)]; [by apply todo_add_other|done].
  - cbn. destruct Hl as [(q0 & ? & -> & _)|(_ & -> & _)]; [apply add_nodup; [done|apply Hw]|apply Hw].
  - constructor; cbn -[ref_work].
    + intros q Hin. rewrite lookup_insert_eq. split; [|eauto]. destruct Hl as [(q0 & Hlk & -> & Eq & _)|(_ & -> & _)]; [|by apply D1].
      apply death_todo_add in Hin as ->; [|done]. rewrite Eq. apply (tb_ref _ (co_tables _ _ Hok) _ _ _ _ (ref_id_some _ _ _ Hr)).
    + intros k p n. rewrite wd_work. case_decide; [done|]. intros E. by apply Hno in E.
    + intros r1 r2 p1 p2 n1 n2. rewrite !wd_work. repeat case_decide; [done|done|done|]. intros E. by apply Hno in E.
    + intros y0. rewrite lookup_insert_eq. intros [= <-] _. destruct Hl as [(q0 & _ & -> & _ & Hq & Hy)|(Hlk & -> & Hy)].
      * exists q0. split; [apply elem_of_app; right; by left|auto].
      * apply linked_true in Hlk as [q Hq]. exists q. auto.
Qed.
Lemma clear_death_ok s V p P t looper target cookie :
  core_ok s V → procs s !! p = Some P → ∃ s', binder_clear_death p t looper target cookie s = Val s' tt ∧ core_ok s' V.
Proof.
  intros Hok HP. unfold binder_clear_death. destruct (get_ref_ok s V p P target false Hok HP) as (found & E & Hf). rewrite (bind_val _ _ _ _ _ E).
  destruct found as [r|]; [|by exists s]. destruct Hf as (x & Hr & Hp & _). rewrite (bind_val _ _ _ _ _ (the_ref_eq _ _ _ Hr)).
  destruct (r_death x) as [d|] eqn:Ex; [|by exists s]. destruct (wk_owned _ (co_works _ _ Hok) r x d Hr Ex) as (y & Hy & Hq).
  rewrite (bind_val _ _ _ _ _ (the_death_eq _ _ _ Hy)). destruct (negb (d_cookie y =? cookie)); [by exists s|].
  rewrite (bind_val (put_ref _ _) _ s _ tt eq_refl). unfold list_empty. destruct (linked (WDeath d) (todo s)) eqn:Hl.
  - rewrite (bind_val _ _ (set_refs _ s) (set_refs (<[r := set_death None x]> (refs s)) s) false) by (cbn [todo set_refs]; by rewrite Hl).
    pose proof Hl as [q Hin]%linked_true. destruct (Hq q Hin) as (_ & Ey & _). rewrite bool_decide_eq_true_2 by done. eexists. split; [done|].
    match goal with |- core_ok ?w _ => replace w with
      (with_death r x None (<[d := MkDeath BINDER_WORK_DEAD_BINDER_AND_CLEAR (d_cookie y)]> (deaths s)) (todo s) s) by done end.
    apply (core_clear_death s V r x d); try done. by right.
  - rewrite (bind_val _ _ (set_refs _ s) (set_refs (<[r := set_death None x]> (refs s)) s) true) by (cbn [todo set_refs]; by rewrite Hl).
    rewrite (bind_val (put_death _ _) _ _ _ tt eq_refl). rewrite add_tail_eq by done. eexists. split; [done|].
    destruct (notify_queue_proc p t looper) as [Eq Ed].
    apply (core_clear_death s V r x d _ (todo s ++ [(notify_queue p t looper, WDeath d)])); try done. left.
    exists (notify_queue p t looper). split_and!; try done. congruence.
Qed.

(** The work of an owned notification is taken off its queue, or moved to another of the same process. *)
Lemma core_move_death s V r p n d l :
  core_ok s V → ref_work s r = Some (p, n, Some d) → NoDup l.*2 → (∀ q w, w ≠ WDeath d → (q, w) ∈ l ↔ (q, w) ∈ todo s) →
  (∀ q, (q, WDeath d) ∈ l → linked (WDeath d) (todo s) = true ∧ queue_proc q = p) → core_ok (set_todo l s) V.
Proof.
  intros Hok Hr Hnd Hoth Hl. pose proof (co_works _ _ Hok) as Hw. pose proof (works_death_ok s d Hw) as [D1 D2 D3 D4].
  destruct (D2 r p n Hr) as (y & Hy & Hq). apply (core_death s _ V d); try done. constructor; cbn -[ref_work].
  - intros q Hin. destruct (Hl q Hin) as [[q' Hin']%linked_true ->]. destruct (D1 q' Hin') as [Hp ?]. by destruct (Hq q' Hin') as (<- & _).
  - intros k p' n' Hk. assert (k = r) as -> by (by eapply D3). change (ref_work (set_todo l s) r) with (ref_work s r) in Hk. rewrite Hr in Hk. injection Hk as <- <-.
    exists y. split; [done|]. intros q Hin. destruct (Hl q Hin) as [[q' Hin']%linked_true ->]. destruct (Hq q' Hin') as (_ & ? & ?). done.
  - done.
  - intros y0 _ Hf. by destruct (Hf r p n).
Qed.
(** A notification that nobody owns is freed. *)
Lemma core_free_death s V d :
  core_ok s V → (∀ r p n, ref_work s r ≠ Some (p, n, Some d)) →
  core_ok (set_deaths (delete d (deaths s)) (set_todo (unlink (WDeath d) (todo s)) s)) V.
Proof.
  intros Hok Hno. pose proof (co_works _ _ Hok) as Hw. apply (core_death s _ V d); try done.
  - intros e He. cbn. by rewrite lookup_delete_ne.
  - intros q w Hwd. cbn. rewrite elem_of_unlink. cbn. tauto.
  - cbn. by apply unlink_nodup, Hw.
  - constructor; cbn -[ref_work].
    + intros q [_ ?]%elem_of_unlink. done.
    + intros r p n E. by apply Hno in E.
    + intros r1 r2 p1 p2 n1 n2 E. by apply Hno in E.
    + intros y. by rewrite lookup_delete_eq.
Qed.
(** A notification that nobody owns is queued again. *)
Lemma core_move_loose s V d y' q l :
  core_ok s V → (∀ r p n, ref_work s r ≠ Some (p, n, Some d)) → is_Some (deaths s !! d) → is_Some (procs s !! queue_proc q) → NoDup l.*2 →
  (∀ q' w, w ≠ WDeath d → (q', w) ∈ l ↔ (q', w) ∈ todo s) → (∀ q', (q', WDeath d) ∈ l ↔ q' = q) →
  (d_type y' = BINDER_WORK_CLEAR_DEATH_NOTIFICATION ∧ is_delivered q = false ∨ d_type y' = BINDER_WORK_DEAD_BINDER_AND_CLEAR) →
  core_ok (set_todo l (set_deaths (<[d := y']> (deaths s)) s)) V.
Proof.
  intros Hok Hno Hd Hp Hnd Hoth Hl Hy. apply (core_death s _ V d); try done.
  - intros e He. cbn. by rewrite lookup_insert_ne.
  - constructor; cbn -[ref_work].
    + intros q' ->%Hl. rewrite lookup_insert_eq. eauto.
    + intros r p n E. by apply Hno in E.
    + intros r1 r2 p1 p2 n1 n2 E. by apply Hno in E.
    + intros y. rewrite lookup_insert_eq. intros [= <-] _. exists q. split; [by apply Hl|done].
Qed.

(** Who owns a queued notification shows in its type. *)
Lemma queued_death s V d q :
  core_ok s V → (q, WDeath d) ∈ todo s → ∃ y, deaths s !! d = Some y ∧
    ((∃ r n, ref_work s r = Some (queue_proc q, n, Some d) ∧ d_type y = BINDER_WORK_DEAD_BINDER) ∨
     (∀ r p n, ref_work s r ≠ Some (p, n, Some d)) ∧
     (d_type y = BINDER_WORK_CLEAR_DEATH_NOTIFICATION ∧ is_delivered q = false ∨ d_type y = BINDER_WORK_DEAD_BINDER_AND_CLEAR)).
Proof.
  intros Hok Hin. pose proof (co_works _ _ Hok) as Hw. pose proof (works_death_ok s d Hw) as [D1 D2 D3 D4]. destruct (D1 q Hin) as [_ [y Hy]].
  exists y. split; [done|].
  destruct (decide (map_Exists (λ _ x, r_death x = Some d) (refs s))) as [(r & x & Hx & Hd)|Hnone].
  - left. pose proof (ref_work_some _ _ _ Hx) as Hrw. rewrite Hd in Hrw. destruct (D2 _ _ _ Hrw) as (y' & Hy' & Hq). destruct (Hq q Hin) as (E & ? & _).
    rewrite Hy in Hy'. injection Hy' as <-. exists r, (r_node x). by rewrite E.
  - right. assert (∀ r p n, ref_work s r ≠ Some (p, n, Some d)) as Hno.
    { intros r p n (x & Hx & _ & _ & E)%ref_work_inv. apply Hnone. by exists r, x. }
    split; [done|]. destruct (D4 y Hy Hno) as (q' & Hin' & Hq'). by rewrite (todo_fun _ q q' _ (wk_nodup _ Hw) Hin Hin').
Qed.

Lemma elem_of_delivered p l d : d ∈ delivered p l ↔ (Delivered p, WDeath d) ∈ l.
Proof.
  unfold delivered. rewrite list_elem_of_omap. split.
  - intros ([q w] & Hin & E). destruct q; [done|done|]. destruct w; [done|]. case_decide; [|done]. injection E as ->. by subst.
  - intros Hin. exists (Delivered p, WDeath d). split; [done|]. by rewrite decide_True.
Qed.
Lemma find_cookie_ok s ds cookie :
  (∀ d, d ∈ ds → is_Some (deaths s !! d)) → ∃ found, find_cookie ds cookie s = Val s found ∧ ∀ d, found = Some d → d ∈ ds.
Proof.
  induction ds as [|d ds IH]; intros Hds; [by exists None|]. cbn [find_cookie]. destruct (Hds d ltac:(by left)) as [y Hy].
  rewrite (bind_val _ _ _ _ _ (the_death_eq _ _ _ Hy)). destruct (d_cookie y =? cookie).
  - exists (Some d). split; [done|]. intros ? [= ->]. by left.
  - destruct IH as (found & E & Hf); [intros e He; apply Hds; by right|]. exists found. split; [done|]. intros e He. right. by apply Hf.
Qed.
Lemma unlink_other w0 l q w : w ≠ w0 → (q, w) ∈ unlink w0 l ↔ (q, w) ∈ l.
Proof. intros Hw. rewrite elem_of_unlink. cbn. tauto. Qed.
Lemma unlinked w l : linked w (unlink w l) = false.
Proof. rewrite linked_unlink, bool_decide_eq_true_2 by done. apply andb_false_r. Qed.

Lemma dead_binder_done_ok s V p t looper cookie :
  core_ok s V → ∃ s', binder_dead_binder_done p t looper cookie s = Val s' tt ∧ core_ok s' V.
Proof.
  intros Hok. unfold binder_dead_binder_done. rewrite (bind_val get _ s s s) by done. pose proof (co_works _ _ Hok) as Hw.
  destruct (find_cookie_ok s (delivered p (todo s)) cookie) as (found & E & Hf).
  { intros d Hd%elem_of_delivered. by apply (wk_deaths _ Hw) in Hd as [_ ?]. }
  rewrite (bind_val _ _ _ _ _ E). destruct found as [d|]; [|by exists s]. specialize (Hf d eq_refl). apply elem_of_delivered in Hf.
  rewrite (bind_val (list_del_init _) _ s _ tt eq_refl). destruct (queued_death s V d _ Hok Hf) as (y & Hy & Hcase).
  rewrite (bind_val _ _ _ _ _ (the_death_eq (set_todo _ s) d y Hy)). destruct Hcase as [(r & n & Hr & Ey)|(Hno & Ey)].
  - rewrite bool_decide_eq_false_2 by congruence. eexists. split; [done|]. apply (core_move_death s V r p n d); [done|done|by apply unlink_nodup, Hw| |].
    + intros q w Hwd. by apply unlink_other.
    + intros q [_ ?]%elem_of_unlink. done.
  - destruct Ey as [[_ ?]|Ey]; [done|]. rewrite bool_decide_eq_true_2 by done. rewrite (bind_val (put_death _ _) _ _ _ tt eq_refl).
    destruct (notify_queue_proc p t looper) as [Eq Ed].
    rewrite add_tail_eq by apply unlinked. eexists. split; [done|].
    apply (core_move_loose s V d _ (notify_queue p t looper) (unlink (WDeath d) (todo s) ++ [(notify_queue p t looper, WDeath d)])); try done; eauto.
    + rewrite Eq. by apply (wk_deaths _ Hw) in Hf as [? _].
    + apply add_nodup; [apply unlinked|by apply unlink_nodup, Hw].
    + intros q w Hwd. rewrite todo_add_other by done. by apply unlink_other.
    + intros q. split; [apply death_todo_add, unlinked|]. intros ->. apply elem_of_app. right. by left.
Qed.

Lemma read_death_ok s V p d q fault :
  core_ok s V → (q, WDeath d) ∈ todo s → queue_proc q = p → ∃ s' b, read_death_work p d fault s = Val s' b ∧ core_ok s' V.
Proof.
  intros Hok Hin Hp. pose proof (co_works _ _ Hok) as Hw. destruct (queued_death s V d q Hok Hin) as (y & Hy & Hcase).
  unfold read_death_work. rewrite (bind_val _ _ _ _ _ (the_death_eq _ _ _ Hy)). destruct fault; [by exists s, Fault|].
  assert (NoDup ((Delivered p, WDeath d) :: unlink (WDeath d) (todo s)).*2) as Hnd.
  { cbn. apply list.NoDup_cons. split; [|by apply unlink_nodup, Hw]. intros ([q' w'] & E & Hin')%list_elem_of_fmap. cbn in E. subst.
    by apply elem_of_unlink in Hin' as [_ ?]. }
  assert (∀ q' w, w ≠ WDeath d → (q', w) ∈ (Delivered p, WDeath d) :: unlink (WDeath d) (todo s) ↔ (q', w) ∈ todo s) as Hoth.
  { intros q' w Hwd. rewrite elem_of_cons, unlink_other by done. naive_solver. }
  destruct Hcase as [(r & n & Hr & Ey)|(Hno & Ey)].
  - rewrite bool_decide_eq_false_2 by congruence. eexists _, _. split; [done|]. rewrite Hp in Hr. apply (core_move_death s V r p n d); try done.
    intros q' [E|[_ ?]%elem_of_unlink]%elem_of_cons; [|done]. injection E as ->. split; [|done]. apply linked_true. eauto.
  - case_bool_decide as Ec.
    + eexists _, _. split; [done|]. exact (core_free_death s V d Hok Hno).
    + destruct Ey as [[? _]|Ey]; [done|]. eexists _, _. split; [done|].
      replace (set_todo _ s) with (set_todo ((Delivered p, WDeath d) :: unlink (WDeath d) (todo s)) (set_deaths (<[d := y]> (deaths s)) s))
        by (unfold set_todo, set_deaths; cbn; by rewrite insert_id).
      apply (core_move_loose s V d y (Delivered p)); try done; eauto.
      * cbn. rewrite <- Hp. by apply (wk_deaths _ Hw) in Hin as [? _].
      * intros q'. rewrite elem_of_cons, elem_of_unlink. cbn. naive_solver.
Qed.
Lemma read_work_ok s V p t wait fault :
  core_ok s V → settled V → v_dying V = None → ∃ s' b, binder_read_work p t wait fault s = Val s' b ∧ core_ok s' V.
Proof.
  intros Hok Hset Hdy. unfold binder_read_work. rewrite (bind_val get _ s s s) by done.
  set (w := match first_of (ThreadTodo p t) (todo s) with Some w => Some w | None => _ end).
  assert (∀ w0, w = Some w0 → ∃ q, (q, w0) ∈ todo s ∧ queue_proc q = p) as Hin.
  { intros w0. unfold w. destruct (first_of (ThreadTodo p t) (todo s)) eqn:E1; [intros [= ->]; apply first_of_some in E1; eauto|].
    destruct wait; [|done]. intros E2%first_of_some. eauto. }
  destruct w as [[n|d]|]; [| |by exists s, None].
  - destruct (Hin _ eq_refl) as (q & Hq & Ep). destruct (wk_nodes _ (co_works _ _ Hok) q n Hq) as (_ & a & l & Hid).
    apply node_id_inv in Hid as (nd & Hn & Hp & _). destruct (read_node_ok s V p n nd fault) as (s' & b & E & Hok' & _); try done; [congruence|apply linked_true; eauto|].
    exists s', (Some b). split; [by rewrite (bind_val _ _ _ _ _ E)|done].
  - destruct (Hin _ eq_refl) as (q & Hq & Ep). destruct (read_death_ok s V p d q fault Hok Hq Ep) as (s' & b & E & Hok').
    exists s', (Some b). split; [by rewrite (bind_val _ _ _ _ _ E)|done].
Qed.

(** *** The work of a queue is dropped *)

Definition add_lost (X : gset Z) (V : view) : view := MkView (v_holds V) (v_lost V ∪ X) (v_pass V) (v_dying V).
Record swept (q : queue) (s s' : world) : Prop := {
  sw_procs : procs s' = procs s;
  sw_contexts : contexts s' = contexts s;
  sw_nodes : nodes s' = nodes s;
  sw_refs : refs s' = refs s;
  sw_dead : dead_nodes s' = dead_nodes s;
  sw_todo : ∀ e, e ∈ todo s' → e ∈ todo s ∧ e.1 ≠ q;
}.
Lemma unlink_shorter q w l : (q, w) ∈ l → (length (unlink w l) < length l)%nat.
Proof.
  unfold unlink. induction l as [|e l IH]; [by intros ?%elem_of_nil|]. intros [<-|Hin]%elem_of_cons; cbn.
  - rewrite bool_decide_eq_true_2 by done. cbn. pose proof (filter_length_le (λ e : queue * work, negb (bool_decide (e.2 = w))) l). lia.
  - specialize (IH Hin). destruct (negb _); cbn; lia.
Qed.
Lemma core_drop_work s V q w :
  core_ok s V → settled V → (q, w) ∈ todo s →
  ∃ s' X, (list_del_init w;;
    match w with
    | WNode _ => mret tt
    | WDeath d =>
        death ← the_death d;
        match d_type death with
        | BINDER_WORK_DEAD_BINDER_AND_CLEAR | BINDER_WORK_CLEAR_DEATH_NOTIFICATION => kfree_death d
        | _ => mret tt
        end
    end) s = Val s' tt ∧ (∀ n, n ∈ X → w = WNode n) ∧ core_ok s' (add_lost X V) ∧ procs s' = procs s ∧ contexts s' = contexts s ∧ nodes s' = nodes s ∧ refs s' = refs s ∧
    dead_nodes s' = dead_nodes s ∧ todo s' = unlink w (todo s).
Proof.
  intros Hok Hset Hin. pose proof (co_works _ _ Hok) as Hw. rewrite (bind_val (list_del_init _) _ s _ tt eq_refl).
  assert (add_lost ∅ V = V) as Hl0 by (destruct V; unfold add_lost; cbn; f_equal; set_solver).
  destruct w as [n|d].
  - eexists _, {[n]}. split; [done|]. split; [by intros m ->%elem_of_singleton|]. split; [|done]. apply (core_unlink s V _ n); try done; [by apply settled_on|by apply settled_on|set_solver|set_solver|].
    intros nd Hn Hp. destruct (wk_nodes _ Hw q n Hin) as (_ & a & l & Hid). apply node_id_inv in Hid as (nd' & Hn' & Hp' & _). congruence.
  - destruct (queued_death s V d q Hok Hin) as (y & Hy & Hcase). rewrite (bind_val _ _ _ _ _ (the_death_eq (set_todo _ s) d y Hy)).
    destruct Hcase as [(r & n & Hr & ->)|(Hno & Hty)].
    + eexists _, ∅. rewrite Hl0. split; [done|]. split; [by intros m ?%elem_of_empty|]. split; [|done]. apply (core_move_death s V r (queue_proc q) n d); [done|done|by apply unlink_nodup, Hw| |].
      * intros q' w Hwd. by apply unlink_other.
      * intros q' [_ ?]%elem_of_unlink. done.
    + eexists _, ∅. rewrite Hl0. pose proof (core_free_death s V d Hok Hno) as Hfree. destruct Hty as [[-> _]| ->]; by (split; [done|]; split; [intros m ?%elem_of_empty|]; [done|]; split; [exact Hfree|]).
Qed.
Lemma release_work_fuel fuel s V q :
  core_ok s V → settled V → (length (todo s) ≤ fuel)%nat →
  ∃ s' X, binder_release_work fuel q s = Val s' tt ∧ (∀ n, n ∈ X → (q, WNode n) ∈ todo s) ∧ core_ok s' (add_lost X V) ∧ swept q s s'.
Proof.
  revert s V. induction fuel as [|fuel IH]; intros s V Hok Hset Hlen; cbn [binder_release_work]; rewrite (bind_val get _ s s s) by done.
  - destruct (first_of q (todo s)) as [w|] eqn:E; [apply first_of_some in E; destruct (todo s); [by apply elem_of_nil in E|cbn in Hlen; lia]|].
    exists s, ∅. split; [done|]. split; [by intros m ?%elem_of_empty|]. split; [destruct V; unfold add_lost; cbn; by rewrite union_empty_r_L|]. constructor; try done.
    intros [q' w] He. split; [done|]. cbn. intros ->. by apply (first_of_none _ _ E w).
  - destruct (first_of q (todo s)) as [w|] eqn:E.
    + apply first_of_some in E. destruct (core_drop_work s V q w Hok Hset E) as (s1 & X & E1 & HX & Hok1 & F1 & F2 & F3 & F4 & F5 & F6).
      destruct (IH s1 (add_lost X V) Hok1 Hset) as (s' & Y & E2 & HY & Hok2 & [G1 G2 G3 G4 G5 G6]).
      { rewrite F6. pose proof (unlink_shorter q w (todo s) E). lia. }
      exists s', (X ∪ Y). split; [|split; [|split]].
      * destruct w as [n|d].
        -- rewrite (bind_val (list_del_init _) _ s s1 tt); [by rewrite (bind_val (mret tt) _ s1 s1 tt)|]. by rewrite (bind_val (list_del_init _) _ s _ tt eq_refl) in E1.
        -- rewrite (bind_val (list_del_init _) _ s _ tt eq_refl) in E1. rewrite (bind_val (list_del_init _) _ s _ tt eq_refl). by rewrite (bind_val _ _ _ _ _ E1).
      * intros n [Hn|Hn]%elem_of_union; [by rewrite <- (HX n Hn)|]. specialize (HY n Hn). rewrite F6 in HY. by apply elem_of_unlink in HY as [? _].
      * destruct V; unfold add_lost in *; cbn in *. by rewrite assoc_L in * by apply _.
      * constructor; [congruence..|]. intros e [He Hne]%G6. rewrite F6 in He. by apply elem_of_unlink in He as [? _].
    + exists s, ∅. split; [done|]. split; [by intros m ?%elem_of_empty|]. split; [destruct V; unfold add_lost; cbn; by rewrite union_empty_r_L|]. constructor; try done.
      intros [q' w] He. split; [done|]. cbn. intros ->. by apply (first_of_none _ _ E w).
Qed.
Lemma release_work_ok s V q :
  core_ok s V → settled V → ∃ s' X, release_work q s = Val s' tt ∧ (∀ n, n ∈ X → (q, WNode n) ∈ todo s) ∧ core_ok s' (add_lost X V) ∧ swept q s s'.
Proof. intros Hok Hset. by apply release_work_fuel. Qed.
End notifications.

(** ** A new node *)

Definition with_node (p : Z) (P : binder_process) (n : Z) (nd : binder_node) (t : tree) (s : world) : world :=
  MkWorld (<[p := set_p_nodes t P]> (procs s)) (contexts s) (<[n := nd]> (nodes s)) (refs s) (deaths s) (dead_nodes s) (todo s).

Section appearing.
Context (s : world) (V : view) (p : Z) (P : binder_process) (n a cookie : Z) (t : tree).
Context (Hok : core_ok s V) (Hset : settled V) (HP : procs s !! p = Some P) (Hn : nodes s !! n = None).
Context (Hnew : ∀ m l, node_id s m ≠ Some (Some p, a, l)).
Context (Ht : ∃ l1 l2, inorder (p_nodes P) = l1 ++ l2 ∧ inorder t = l1 ++ n :: l2 ∧
  (∀ x k, x ∈ l1 → node_key s x = Some k → k < a) ∧ (∀ x k, x ∈ l2 → node_key s x = Some k → a < k)).
Let s' : world := with_node p P n (new_node p a cookie) t s.

Lemma nn_id m : node_id s' m = if decide (m = n) then Some (Some p, a, []) else node_id s m.
Proof. unfold node_id, s', with_node. cbn. destruct (decide (m = n)) as [->|Hm]; [by rewrite lookup_insert_eq|by rewrite lookup_insert_ne]. Qed.
Lemma nn_fresh : node_id s n = None.
Proof. unfold node_id. by rewrite Hn. Qed.
Lemma nn_old m i : node_id s m = Some i → node_id s' m = Some i.
Proof. intros E. rewrite nn_id. case_decide; [subst; by rewrite nn_fresh in E|done]. Qed.
Lemma nn_proc q Q' : procs s' !! q = Some Q' →
  ∃ Q, procs s !! q = Some Q ∧ p_context Q' = p_context Q ∧ refs_by_desc Q' = refs_by_desc Q ∧ refs_by_node Q' = refs_by_node Q ∧
    (q = p ∧ Q = P ∧ p_nodes Q' = t ∨ q ≠ p ∧ Q' = Q).
Proof.
  unfold s', with_node. cbn. destruct (decide (q = p)) as [->|Hq]; [rewrite lookup_insert_eq; intros [= <-]; exists P; split_and!; auto|].
  rewrite lookup_insert_ne by done. exists Q'. split_and!; auto.
Qed.
Lemma nn_proc_forth q : is_Some (procs s !! q) → is_Some (procs s' !! q).
Proof.
  intros [Q HQ]. unfold s', with_node. cbn. destruct (decide (q = p)) as [->|Hq]; [rewrite lookup_insert_eq|rewrite lookup_insert_ne by done]; eauto.
Qed.
Lemma nn_unused : manages s n = false ∧ ∀ sg, held_on n (new_node p a cookie) sg (v_holds V) = 0.
Proof using Hok Hn Hnew.
  split.
  - apply not_true_iff_false. intros (c & C & HC & Hm)%manages_true. destruct (tb_mgr _ (co_tables _ _ Hok) c C n HC Hm) as (q & Q & a' & l & E & _).
    by rewrite nn_fresh in E.
  - intros sg. unfold held_on. assert (List.filter (on n (new_node p a cookie) sg) (v_holds V) = []) as ->; [|done].
    apply elem_of_nil_inv. intros h Hh%list_elem_of_In%filter_In. destruct Hh as [Hin%list_elem_of_In Hon].
    pose proof (ct_holds _ _ (co_counts _ _ Hok) h Hin) as Hk. destruct h as [q m|q b c]; cbn in Hon, Hk.
    + apply andb_true_iff in Hon as [_ ->%Z.eqb_eq]. destruct Hk as (? & ? & E). by rewrite nn_fresh in E.
    + rewrite !andb_true_iff, bool_decide_eq_true, Z.eqb_eq in Hon. destruct Hon as [[_ E1] <-]. injection E1 as <-. destruct Hk as (m & l & E). by apply Hnew in E.
Qed.

Lemma tables_new_node : tables s'.
Proof using Hok HP Hn Hnew Ht.
  pose proof (co_tables _ _ Hok) as [H1 H2 H3 H4 H5 H6 H7 H8 H9].
  assert (∀ r, ref_id s' r = ref_id s r) as Er by done. constructor.
  - intros q Q' (Q & HQ & -> & _)%nn_proc. by apply (H1 q).
  - intros c C m Hc Hm. destruct (H2 c C m Hc Hm) as (q & Q & b & l & Hid & HQ & Hqc).
    destruct (procs s' !! q) as [Q'|] eqn:EQ'; [|by destruct (nn_proc_forth q) as [? ?]; [eauto|congruence]].
    destruct (nn_proc _ _ EQ') as (Q0 & HQ0 & Ec & _). exists q, Q', b, l. split_and!; [by apply nn_old|done|congruence].
  - intros q Q' (Q & HQ & _ & _ & _ & Hq)%nn_proc. destruct (H3 q Q HQ) as [Hi Hin].
    assert (n ∉ inorder (p_nodes Q)) as Hnn. { intros (b & l & E)%Hin. by rewrite nn_fresh in E. }
    assert (∀ x, x ∈ inorder (p_nodes Q) → node_key s' x = node_key s x) as Ek by (intros x Hx; rewrite !node_key_id, nn_id, decide_False by congruence; done).
    destruct Hq as [(-> & -> & ->)|(Hq & ->)].
    + destruct Ht as (l1 & l2 & E1 & E2 & G1 & G2). rewrite E2. rewrite E1 in Hi, Ek. split.
      * apply (increasing_insert _ l1 l2 n a); [by eapply increasing_ext|by rewrite node_key_id, nn_id, decide_True| |].
        -- intros x k Hx. rewrite Ek by (apply elem_of_app; by left). by apply G1.
        -- intros x k Hx. rewrite Ek by (apply elem_of_app; by right). by apply G2.
      * intros m. assert (m ∈ l1 ++ n :: l2 ↔ m = n ∨ m ∈ l1 ++ l2) as -> by (rewrite !elem_of_app, elem_of_cons; tauto).
        rewrite <- E1, Hin. setoid_rewrite nn_id. case_decide; [subst; split; [eauto|by left]|]. split; [intros [?|?]; done|by right].
    + split; [by eapply increasing_ext|]. intros m. rewrite Hin. setoid_rewrite nn_id. case_decide; [|done]. subst. rewrite nn_fresh. naive_solver.
  - intros q Q' (Q & HQ & _ & -> & _)%nn_proc. by apply (H4 q Q).
  - intros q Q' (Q & HQ & _ & _ & -> & _)%nn_proc. by apply (H5 q Q).
  - intros m q b l. rewrite nn_id. case_decide; [intros [= <- <- <-]; apply nn_proc_forth; eauto|]. intros E. apply nn_proc_forth. by eapply H6.
  - destruct H7 as [Hd Hin]. split; [done|]. intros m. change (dead_nodes s') with (dead_nodes s). rewrite Hin. setoid_rewrite nn_id.
    case_decide; [subst; rewrite nn_fresh; naive_solver|done].
  - intros m o b l. rewrite nn_id. case_decide; [|apply H8]. intros [= <- <- <-]. subst. split; [constructor|]. intros r. split; [by intros ?%elem_of_nil|].
    intros (q & d & Hid). destruct (H9 r q n d Hid) as (_ & [? E] & _). by rewrite nn_fresh in E.
  - intros r q m d Hid. destruct (H9 r q m d Hid) as (G1 & [i G2] & G3). split; [by apply nn_proc_forth|]. split; [|done]. rewrite (nn_old _ _ G2). eauto.
Qed.

Lemma core_new_node : core_ok s' V.
Proof using Hok Hset HP Hn Hnew Ht.
  destruct nn_unused as [Hm Hh]. pose proof (co_counts _ _ Hok) as [C1 C2 C3 C4].
  constructor; [apply tables_new_node| | |].
  - constructor.
    + intros m y Hy. change (<[n := new_node p a cookie]> (nodes s) !! m = Some y) in Hy. destruct (decide (m = n)) as [->|Hne].
      * rewrite lookup_insert_eq in Hy. injection Hy as <-. split; [done|]. right. constructor; try done; rewrite Hh;
          change (manages s' n) with (manages s n); by rewrite Hm.
      * rewrite lookup_insert_ne in Hy by done. by apply (node_counts_ext s), C1.
    + done.
    + intros h Hh0. specialize (C3 h Hh0). destruct h as [q m|q b c]; cbn in C3 |- *.
      * destruct C3 as (b & l & E). exists b, l. by apply nn_old.
      * destruct C3 as (m & l & E). exists m, l. by apply nn_old.
    + done.
  - intros m y q Hy. change (<[n := new_node p a cookie]> (nodes s) !! m = Some y) in Hy. destruct (decide (m = n)) as [->|Hne].
    + rewrite lookup_insert_eq in Hy. injection Hy as <-. intros _ _. right. right. split; [split; [done|by right]|]. right. split; [done|by right].
    + rewrite lookup_insert_ne in Hy by done. by apply (co_told _ _ Hok).
  - pose proof (co_works _ _ Hok) as Hw. apply deaths_ok_works; [apply Hw| |].
    + intros q m Hin. destruct (wk_nodes _ Hw q m Hin) as (? & b & l & E). split; [done|]. exists b, l. by apply nn_old.
    + intros d. apply (death_ok_ext s); [apply nn_proc_forth|done|done|done| |by apply works_death_ok]. intros m b l E. exists b, l. by apply nn_old.
Qed.
End appearing.

Section new_nodes.
Context `{RbTree}.

Lemma new_node_ok s V p P a cookie kz :
  core_ok s V → settled V → procs s !! p = Some P → (∀ n, kz = Some n → nodes s !! n = None) →
  ∃ s' found, binder_new_node p a cookie kz s = Val s' found ∧
    match found with
    | None => s' = s
    | Some n => kz = Some n ∧ core_ok s' V ∧ (∀ m l, node_id s m ≠ Some (Some p, a, l)) ∧ ∃ t, s' = with_node p P n (new_node p a cookie) t s
    end.
Proof.
  intros Hok Hset HP Hkz. unfold binder_new_node. rewrite (bind_val _ _ _ _ _ (the_proc_eq _ _ _ HP)), (bind_val get _ s s s) by done.
  destruct (tb_nodes _ (co_tables _ _ Hok) p P HP) as [Hi Hin]. pose proof (link_key_spec (node_key s) a (p_nodes P) Hi) as Hl.
  destruct (link_key (node_key s) a (p_nodes P)) as [[link|m]|]; [| |done]; cbn [deref].
  - rewrite (bind_val (mret _) _ s s (inl link)) by done. destruct kz as [n|]; [|by exists s, None]. specialize (Hkz n eq_refl).
    destruct Hl as (l1 & l2 & E1 & E2 & G1 & G2).
    assert (∀ m l, node_id s m ≠ Some (Some p, a, l)) as Hnew.
    { intros m l E. assert (m ∈ inorder (p_nodes P)) as Hm by (apply Hin; eauto). assert (node_key s m = Some a) as Ek by (by rewrite node_key_id, E).
      rewrite E1 in Hm. apply elem_of_app in Hm as [Hm|Hm]; [pose proof (G1 m a Hm Ek)|pose proof (G2 m a Hm Ek)]; lia. }
    exists (with_node p P n (new_node p a cookie) (rb_insert_color n (link n)) s), (Some n). split; [done|]. split; [done|]. split; [|split; [done|eauto]].
    apply core_new_node; try done. exists l1, l2. by rewrite rb_insert_inorder.
  - rewrite (bind_val (mret _) _ s s (inr m)) by done. exists s, None. split; [done|done].
Qed.
End new_nodes.

(** ** The context manager *)

Lemma tables_set_context s V c C' :
  core_ok s V → is_Some (contexts s !! c) →
  (∀ n, binder_context_mgr_node C' = Some n → ∃ p P a l, node_id s n = Some (Some p, a, l) ∧ procs s !! p = Some P ∧ p_context P = c) →
  tables (set_contexts (<[c := C']> (contexts s)) s).
Proof.
  intros Hok Hc Hm. pose proof (co_tables _ _ Hok) as [H1 H2 H3 H4 H5 H6 H7 H8 H9]. constructor; try done; cbn.
  - intros p P HP. destruct (decide (p_context P = c)) as [->|Hne]; [rewrite lookup_insert_eq; eauto|rewrite lookup_insert_ne by done; by apply (H1 p)].
  - intros c' C n. destruct (decide (c' = c)) as [->|Hne]; [rewrite lookup_insert_eq; intros [= <-]; apply Hm|rewrite lookup_insert_ne by done; apply H2].
Qed.
Lemma core_set_context s V c C' :
  core_ok s V → is_Some (contexts s !! c) →
  (∀ n, binder_context_mgr_node C' = Some n → ∃ p P a l, node_id s n = Some (Some p, a, l) ∧ procs s !! p = Some P ∧ p_context P = c) →
  (∀ m nd p, nodes s !! m = Some nd → n_proc nd = Some p → v_dying V ≠ Some p →
     manages (set_contexts (<[c := C']> (contexts s)) s) m = manages s m) →
  core_ok (set_contexts (<[c := C']> (contexts s)) s) V.
Proof.
  intros Hok Hc Hm Hman. pose proof (co_counts _ _ Hok) as [C1 C2 C3 C4]. constructor; [by apply (tables_set_context s V)| |apply Hok|by apply (works_ext s), Hok].
  constructor; try done. intros m nd Hn. destruct (C1 m nd Hn) as [Hi Hp]. split; [done|]. destruct (n_proc nd) as [p|] eqn:Ep; [|done].
  destruct (decide (v_dying V = Some p)) as [|Hy]; [by left|]. right. destruct Hp as [?|[L1 L2 L3 L4]]; [done|].
  constructor; try done; by rewrite (Hman m nd p).
Qed.
Lemma manages_insert s c C C' m :
  contexts s !! c = Some C → binder_context_mgr_node C = None →
  manages (set_contexts (<[c := C']> (contexts s)) s) m = bool_decide (binder_context_mgr_node C' = Some m) || manages s m.
Proof.
  intros Hc HC. apply eq_true_iff_eq. rewrite orb_true_iff, bool_decide_eq_true, !manages_true. cbn. split.
  - intros (c' & D & HD & Hm). destruct (decide (c' = c)) as [->|Hne]; [rewrite lookup_insert_eq in HD; injection HD as <-; by left|].
    rewrite lookup_insert_ne in HD by done. right. eauto.
  - intros [Hm|(c' & D & HD & Hm)]; [exists c, C'; by rewrite lookup_insert_eq|]. exists c', D. rewrite lookup_insert_ne; [done|]. intros <-. congruence.
Qed.

Lemma core_becomes_mgr s V p P C n nd nd' uid :
  core_ok s V → settled V → procs s !! p = Some P → contexts s !! p_context P = Some C → binder_context_mgr_node C = None →
  nodes s !! n = Some nd → n_proc nd = Some p → n_proc nd' = Some p → n_ptr nd' = n_ptr nd → n_refs nd' = n_refs nd →
  internal_strong_refs nd' = internal_strong_refs nd → pending_strong_ref nd' = pending_strong_ref nd → pending_weak_ref nd' = pending_weak_ref nd →
  local_strong_refs nd' = local_strong_refs nd + 1 → local_weak_refs nd' = local_weak_refs nd + 1 →
  0 ≤ local_strong_refs nd → manages s n = false → not_dying V nd → has_strong_ref nd' = true → has_weak_ref nd' = true →
  core_ok (set_nodes (<[n := nd']> (nodes s)) (set_contexts (<[p_context P := MkContext (Some n) uid]> (contexts s)) s)) V.
Proof.
  intros Hok Hset HP HC HCn Hn Ep Ep' Ea Er Ei E1 E2 E3 E4 H0 Hm Hy Hs Hw.
  set (s1 := set_contexts _ s). pose proof (co_counts _ _ Hok) as [C1 C2 C3 C4].
  assert (∀ m, node_id (set_nodes (<[n := nd']> (nodes s)) s1) m = node_id s m) as Eid.
  { intros m. unfold node_id. cbn. destruct (decide (m = n)) as [->|Hne]; [|by rewrite lookup_insert_ne].
    rewrite lookup_insert_eq, Hn. cbn. by rewrite Ep', Ea, Er, Ep. }
  assert (∀ m, manages (set_nodes (<[n := nd']> (nodes s)) s1) m = bool_decide (Some n = Some m) || manages s m) as Eman.
  { intros m. apply (manages_insert s (p_context P) C (MkContext (Some n) uid)); done. }
  constructor.
  - apply (tables_ext s1); try done. apply (tables_set_context s V); [done|eauto|]. cbn. intros m [= <-]. rewrite (node_id_some _ _ _ Hn), Ep. eauto 10.
  - constructor; [|done|intros h Hh; by apply (hold_ok_ext s), C3|done]. intros m y. cbn. destruct (decide (m = n)) as [->|Hne].
    + rewrite lookup_insert_eq. intros [= <-]. destruct (C1 n nd Hn) as [Hi Hp]. split; [by rewrite Ei, Er|]. rewrite Ep'. right.
      destruct (alive_counts s V n nd p Hok Hn Ep Hy) as [L1 L2 L3 L4]. rewrite Hm in L1, L2.
      assert (∀ b, held_on n nd' b (v_holds V) = held_on n nd b (v_holds V)) as Eho.
      { intros b. unfold held_on. f_equal. f_equal. apply filter_ext. intros [q k|q a c]; unfold on; by rewrite ?Ep', ?Ep, ?Ea. }
      constructor; rewrite ?Eman, ?Eho, ?bool_decide_eq_true_2, ?E1, ?E2, ?E3, ?E4 by done; cbn in *; [lia|lia|done|done].
    + rewrite lookup_insert_ne by done. intros Hmy. destruct (C1 m y Hmy) as [Hi Hp]. split; [done|]. destruct (n_proc y); [|done].
      destruct Hp as [?|[L1 L2 L3 L4]]; [by left|right]. constructor; rewrite ?Eman, ?bool_decide_eq_false_2 by congruence; done.
  - intros m y q. cbn. destruct (decide (m = n)) as [->|Hne].
    + rewrite lookup_insert_eq. intros [= <-] _ _. right. right.
      assert (node_strong nd' = true) as Es by (unfold node_strong; rewrite E3, orb_true_iff, negb_true_iff, Z.eqb_neq; right; lia).
      assert (node_weak nd' = true) as Ew by (unfold node_weak; rewrite Es; apply orb_true_r).
      unfold informed. rewrite Es, Ew, Hs, Hw. split; [split; [done|by right]|]. right. split; [done|by right].
    + rewrite lookup_insert_ne by done. by apply (co_told _ _ Hok).
  - by apply (works_ext s), Hok.
Qed.

Section manager.
Context `{RbTree}.

Lemma set_ctx_mgr_ok s V p P euid security kz :
  core_ok s V → settled V → v_dying V = None → procs s !! p = Some P → (∀ n, kz = Some n → nodes s !! n = None) →
  ∃ s' ret, binder_ioctl_set_ctx_mgr p euid security kz s = Val s' ret ∧ core_ok s' V.
Proof.
  intros Hok Hset Hdy HP Hkz. unfold binder_ioctl_set_ctx_mgr. destruct (tb_context _ (co_tables _ _ Hok) p P HP) as [C HC].
  rewrite (bind_val _ _ _ _ _ (the_proc_eq _ _ _ HP)), (bind_val _ _ _ _ _ (the_context_eq _ _ _ HC)).
  case_bool_decide as Hm; [by exists s, (- EBUSY)|]. destruct (security <? 0); [by exists s, security|]. case_bool_decide; [by exists s, (- EPERM)|].
  assert (binder_context_mgr_node C = None) as HCn by (destruct (binder_context_mgr_node C); [destruct Hm; eauto|done]).
  rewrite (bind_val (put_context _ _) _ s _ tt eq_refl). set (s1 := set_contexts _ s).
  assert (core_ok s1 V) as Hok1.
  { apply core_set_context; [done|eauto|done|]. intros m nd q _ _ _. by rewrite (manages_insert s _ C). }
  destruct (new_node_ok s1 V p P 0 0 kz Hok1 Hset HP Hkz) as (s2 & found & E & Hf). rewrite (bind_val _ _ _ _ _ E).
  destruct found as [n|]; [|subst s2; by exists s1, (- ENOMEM)]. destruct Hf as (-> & Hok2 & Hnew & t & Es2).
  rewrite (bind_val (put_context _ _) _ s2 _ tt eq_refl). set (s3 := set_contexts _ s2).
  assert (nodes s2 !! n = Some (new_node p 0 0)) as Hn2 by (rewrite Es2; cbn; by rewrite lookup_insert_eq).
  rewrite (bind_val _ _ _ _ _ (the_node_eq s3 n _ Hn2)), (bind_val (put_node _ _) _ s3 _ tt eq_refl). eexists _, 0. split; [done|].
  assert (procs s2 !! p = Some (set_p_nodes t P)) as HP2 by (rewrite Es2; cbn; by rewrite lookup_insert_eq).
  apply (core_becomes_mgr s2 V p (set_p_nodes t P) (MkContext None (Some euid)) n (new_node p 0 0)); try done.
  - rewrite Es2. cbn. by rewrite lookup_insert_eq.
  - apply not_true_iff_false. intros (c & D & HD & HDn)%manages_true. rewrite Es2 in HD. change (contexts s1 !! c = Some D) in HD.
    destruct (tb_mgr _ (co_tables _ _ Hok1) c D n HD HDn) as (q & Q & a & l & Hid & _). unfold node_id in Hid. change (nodes s1) with (nodes s) in Hid. by rewrite (Hkz n eq_refl) in Hid.
  - intros q _. by rewrite Hdy.
Qed.
End manager.
