(* ===== verification/BinderRefsSys.v ===== *)
(** * Transactions and the end of processes

    The objects that transactions carry ([BinderRefs.binder_transaction], [release_buffer]) and the release of a process
    ([binder_deferred_release]) keep the invariant of [BinderRefsInv]; the buffers' contents are its holds. *)

From S2P Require Import Prelude Kernel Trees BinderRefs BinderRefsInv BinderRefsTab BinderRefsDeath.

(** What an object in a buffer of process [p] holds, and a whole buffer. *)
Definition object_hold (p : Z) (fp : flat_binder_object) : list hold :=
  match o_type fp with
  | BINDER_TYPE_BINDER => [OnPtr p (o_value fp) true]
  | BINDER_TYPE_WEAK_BINDER => [OnPtr p (o_value fp) false]
  | _ => []
  end.
Definition objects_hold (p : Z) (l : list flat_binder_object) : list hold := l ≫= object_hold p.
Definition target_hold (p : Z) (on : option Z) : list hold := match on with Some n => [OnNode p n] | None => [] end.
Definition buffer_hold (h : held_buffer) : list hold := target_hold (h_proc h) (h_target h) ++ objects_hold (h_proc h) (h_objects h).
Definition all_holds (l : list held_buffer) : list hold := l ≫= buffer_hold.

(** There is room for [k] more of everything that is counted. *)
Record room (s : world) (V : view) (k : Z) : Prop := {
  rm_counts : ∀ r x, refs s !! r = Some x → r_strong x + k < 2147483648 ∧ r_weak x + k < 2147483648;
  rm_refs : Z.of_nat (size (refs s)) + k < 2147483648;
  rm_holds : Z.of_nat (length (v_holds V)) + 3 + k < 2147483648;
}.
Lemma room_le s V k k' : k' ≤ k → room s V k → room s V k'.
Proof. intros Hk [R1 R2 R3]. constructor; [|lia|lia]. intros r x Hx. destruct (R1 r x Hx). lia. Qed.
(** The memory the kernel hands out is not in use. *)
Definition fresh_answers (s : world) (a : answers) : Prop :=
  (∀ n, a_node a = Some n → nodes s !! n = None) ∧ (∀ r, a_ref a = Some r → refs s !! r = None).

(** *** Objects on their way *)

Section translation.
Context `{RbTree}.

Definition same_procs (s s' : world) : Prop := contexts s' = contexts s ∧ ∀ q, p_context <$> procs s' !! q = p_context <$> procs s !! q.
Lemma same_procs_some s s' q P : same_procs s s' → procs s !! q = Some P → ∃ P', procs s' !! q = Some P' ∧ p_context P' = p_context P.
Proof. intros [_ Hs] HP. specialize (Hs q). rewrite HP in Hs. destruct (procs s' !! q) as [P'|]; [|done]. injection Hs as <-. eauto. Qed.
Lemma same_procs_refl s : same_procs s s.
Proof. done. Qed.
Lemma same_procs_trans s1 s2 s3 : same_procs s1 s2 → same_procs s2 s3 → same_procs s1 s3.
Proof. intros [A1 A2] [B1 B2]. split; [congruence|]. intros q. by rewrite B2. Qed.
Lemma quiet_same_procs s s' : quiet s s' → same_procs s s'.
Proof. intros Hq. split; [apply Hq|]. intros q. by rewrite (qt_procs _ _ Hq). Qed.
Lemma fewer_same_procs s s' : fewer s s' → same_procs s s'.
Proof. intros Hf. split; apply Hf. Qed.
Lemma with_ref_same_procs s p P n nd r d td tn : procs s !! p = Some P → same_procs s (with_ref p P n nd r d td tn s).
Proof.
  intros HP. split; [done|]. intros q. cbn. destruct (decide (q = p)) as [->|Hq]; [by rewrite lookup_insert_eq, HP|by rewrite lookup_insert_ne].
Qed.
Lemma with_node_same_procs s p P n nd t : procs s !! p = Some P → same_procs s (with_node p P n nd t s).
Proof.
  intros HP. split; [done|]. intros q. cbn. destruct (decide (q = p)) as [->|Hq]; [by rewrite lookup_insert_eq, HP|by rewrite lookup_insert_ne].
Qed.

Lemma core_profile s V n nd fds prio :
  core_ok s V → settled V → nodes s !! n = Some nd → core_ok (set_nodes (<[n := with_profile fds prio nd]> (nodes s)) s) V.
Proof.
  intros Hok Hset Hn. apply (core_node s V V n nd); try done; [by apply settled_on|by apply settled_on|apply Hok|apply (co_counts _ _ Hok)| |].
  - destruct (ct_nodes _ _ (co_counts _ _ Hok) n nd Hn) as [Hi Hp]. split; [done|]. cbn. destruct (n_proc nd); [|done].
    destruct Hp as [?|[]]; [by left|right; by constructor].
  - intros p Hp Hy. by apply (co_told _ _ Hok n nd p).
Qed.
Lemma get_or_new_node_ok s V fp p P kz :
  core_ok s V → settled V → procs s !! p = Some P → (∀ n, kz = Some n → nodes s !! n = None) →
  ∃ s' found, get_or_new_node fp p kz s = Val s' found ∧ core_ok s' V ∧ refs s' = refs s ∧ same_procs s s' ∧
    ∀ n, found = Some n → ∃ nd, nodes s' !! n = Some nd ∧ n_proc nd = Some p ∧ n_ptr nd = o_value fp.
Proof.
  intros Hok Hset HP Hkz. unfold get_or_new_node. destruct (get_node_ok s V p P (o_value fp) Hok HP) as (found & E & Hf).
  rewrite (bind_val _ _ _ _ _ E). destruct found as [n|].
  { exists s, (Some n). split_and!; try done. intros ? [= <-]. destruct Hf as (nd & ? & ? & ?). eauto. }
  destruct (new_node_ok s V p P (o_value fp) (o_cookie fp) kz Hok Hset HP Hkz) as (s1 & new & E1 & Hnew). rewrite (bind_val _ _ _ _ _ E1).
  destruct new as [n|]; [|subst s1; by exists s, None]. destruct Hnew as (-> & Hok1 & _ & t & Es1).
  assert (nodes s1 !! n = Some (new_node p (o_value fp) (o_cookie fp))) as Hn1 by (rewrite Es1; cbn; by rewrite lookup_insert_eq).
  rewrite (bind_val _ _ _ _ _ (the_node_eq _ _ _ Hn1)). eexists _, (Some n). split; [done|]. split; [by apply core_profile|]. split; [by rewrite Es1|].
  split; [rewrite Es1; by apply (with_node_same_procs s p P n)|]. intros ? [= <-]. eexists. cbn. split; [by rewrite lookup_insert_eq|done].
Qed.

(** What a translated object leaves: the holds grow by the object's, the room shrinks by one. *)
Definition carried (s s' : world) (V : view) (q k : Z) (res : translated) : Prop :=
  same_procs s s' ∧
  match res with
  | inl _ => core_ok s' V
  | inr fp => core_ok s' (set_holds (object_hold q fp ++ v_holds V) V) ∧ room s' (set_holds (object_hold q fp ++ v_holds V) V) k
  end.
Lemma set_holds_same V : set_holds (v_holds V) V = V.
Proof. by destruct V. Qed.

Lemma room_bumped s s' V r x k : refs s !! r = Some x → bumped r x s s' → room s V (k + 1) → room s' V k.
Proof.
  intros Hr Hb [R1 R2 R3]. destruct Hb as [E|(x' & E & B1 & B2)].
  - constructor; rewrite ?E; [|lia|lia]. intros k' y Hy. destruct (R1 k' y Hy). lia.
  - constructor; rewrite ?E; [| |lia].
    + intros k' y. destruct (decide (k' = r)) as [->|Hne]; [rewrite lookup_insert_eq; intros [= <-]; destruct (R1 r x Hr); lia|].
      rewrite lookup_insert_ne by done. intros Hy. destruct (R1 k' y Hy). lia.
    + rewrite map_size_insert_Some by eauto. lia.
Qed.

(** A reference for a process that receives one, counted at once: for a node of the sender ([target] is the sender's
    queue) or for a node somebody has a reference to already. *)
Lemma receive_ref_ok s V q P n nd kz sg target k :
  core_ok s V → settled V → v_dying V = None → procs s !! q = Some P → nodes s !! n = Some nd → (∀ r, kz = Some r → refs s !! r = None) → room s V (k + 1) → 0 ≤ k →
  match target with None => node_weak nd = true | Some tq => n_proc nd = Some (queue_proc tq) ∧ is_delivered tq = false end →
  ∃ s1 found, binder_get_ref_for_node q n kz s = Val s1 found ∧ same_procs s s1 ∧
    match found with
    | None => s1 = s
    | Some r => ∃ x s' ret, refs s1 !! r = Some x ∧ binder_inc_ref r sg target s1 = Val s' ret ∧ core_ok s' V ∧ room s' V k ∧ same_procs s s'
    end.
Proof.
  intros Hok Hset Hdy HP Hn Hkz Hroom Hk Ht. destruct (tb_context _ (co_tables _ _ Hok) q P HP) as [C HC].
  destruct (get_ref_for_node_ok s V q P C n nd kz Hok Hset HP HC Hn Hkz) as (s1 & found & E & Hf); [pose proof (rm_refs _ _ _ Hroom); lia|].
  exists s1, found. split; [done|]. destruct found as [r|]; [|destruct Hf as [_ ->]; by split].
  destruct Hf as [(-> & x & Hr & Hxp & Hxn)|(d & td & tn & Es & -> & _ & _ & Hok1)].
  - split; [done|]. destruct (rm_counts _ _ _ Hroom r x Hr) as [B1 B2].
    destruct (inc_ref_ok s V r x n nd sg target) as (s' & ret & Ei & Hok' & Hq & Hb); try done; [intros p _; by rewrite Hdy| |lia|lia|].
    + destruct target as [tq|]; [|done]. destruct Ht. by split_and!; [..|left].
    + exists x, s', ret. rewrite (set_settled V Hset) in Hok'. split_and!; try done; [by eapply room_bumped|by apply quiet_same_procs].
  - assert (same_procs s s1) as Hsp by (rewrite Es; by apply with_ref_same_procs). split; [done|].
    set (x := MkRef q n d 0 0 None). assert (refs s1 !! r = Some x) as Hr1 by (rewrite Es; cbn; by rewrite lookup_insert_eq).
    set (nd1 := with_refs (r :: n_refs nd) nd). assert (nodes s1 !! n = Some nd1) as Hn1 by (rewrite Es; cbn; by rewrite lookup_insert_eq).
    set (V1 := if node_weak nd then V else set_pass (Rising n) V) in *.
    assert (set_pass Settled V1 = V) as EV1 by (unfold V1; destruct (node_weak nd); [by apply set_settled|destruct V; unfold settled in Hset; cbn in *; by subst]).
    destruct (inc_ref_ok s1 V1 r x n nd1 sg target) as (s' & ret & Ei & Hok' & Hq & Hb); try done.
    + intros p _. unfold V1. destruct (node_weak nd); cbn; by rewrite Hdy.
    + destruct target as [tq|].
      * destruct Ht. split_and!; [done..|]. unfold V1. destruct (node_weak nd); [by left|by right].
      * unfold V1. by rewrite Ht.
    + exists x, s', ret. rewrite EV1 in Hok'. split_and!; try done; [|by eapply same_procs_trans; [|apply quiet_same_procs]].
      assert (size (refs s1) = S (size (refs s))) as Esz by (rewrite Es; cbn; rewrite map_size_insert_None; [done|by apply Hkz]).
      destruct Hroom as [R1 R2 R3]. destruct Hb as [Eb|(x' & Eb & B1 & B2)].
      * constructor; rewrite ?Eb; [|lia|lia]. intros k' y. rewrite Es. cbn. destruct (decide (k' = r)) as [->|Hne]; [rewrite lookup_insert_eq; intros [= <-]; cbn; lia|].
        rewrite lookup_insert_ne by done. intros Hy. destruct (R1 k' y Hy). lia.
      * constructor; rewrite ?Eb; [| |lia].
        -- intros k' y. destruct (decide (k' = r)) as [->|Hne]; [rewrite lookup_insert_eq; intros [= <-]; cbn in *; lia|].
           rewrite lookup_insert_ne, Es by done. cbn. rewrite lookup_insert_ne by done. intros Hy. destruct (R1 k' y Hy). lia.
        -- rewrite map_size_insert_Some by eauto. lia.
Qed.

Lemma translate_binder_ok s V fp p t q P Q a k :
  core_ok s V → settled V → v_dying V = None → procs s !! p = Some P → procs s !! q = Some Q → fresh_answers s a → room s V (k + 1) → 0 ≤ k →
  ∃ s' res, binder_translate_binder fp p t q a s = Val s' res ∧ carried s s' V q k res.
Proof.
  intros Hok Hset Hdy HP HQ [Hfn Hfr] Hroom Hk. unfold binder_translate_binder.
  destruct (get_or_new_node_ok s V fp p P (a_node a) Hok Hset HP Hfn) as (s1 & node & E1 & Hok1 & Er1 & Hsp1 & Hnode). rewrite (bind_val _ _ _ _ _ E1).
  destruct node as [n|]; [|eexists _, _; split; [done|]; by split]. destruct (Hnode n eq_refl) as (nd & Hn & Hnp & _).
  rewrite (bind_val _ _ _ _ _ (the_node_eq _ _ _ Hn)). destruct (negb _); [eexists _, _; split; [done|]; by split|].
  destruct (a_denied a); [eexists _, _; split; [done|]; by split|]. destruct (same_procs_some _ _ _ _ Hsp1 HQ) as (Q1 & HQ1 & _).
  set (type := if bool_decide (o_type fp = BINDER_TYPE_BINDER) then _ else _).
  destruct (receive_ref_ok s1 V q Q1 n nd (a_ref a) (bool_decide (type = BINDER_TYPE_HANDLE)) (Some (ThreadTodo p t)) k) as (s2 & found & E2 & Hsp2 & Hf); try done.
  - rewrite Er1. done.
  - destruct Hroom as [R1 R2 R3]. constructor; rewrite ?Er1; done.
  - rewrite (bind_val _ _ _ _ _ E2). destruct found as [r|]; [|subst s2; eexists _, _; split; [done|]; by split].
    destruct Hf as (x & s3 & ret & Hr & E3 & Hok3 & Hroom3 & Hsp3). rewrite (bind_val _ _ _ _ _ (the_ref_eq _ _ _ Hr)), (bind_val _ _ _ _ _ E3).
    eexists _, _. split; [done|]. split; [by eapply same_procs_trans|].
    assert (object_hold q (MkObject type (o_flags fp) (r_desc x) 0) = []) as -> by (unfold object_hold, type; cbn [o_type]; by destruct (bool_decide (o_type fp = BINDER_TYPE_BINDER))).
    cbn [app]. by rewrite set_holds_same.
Qed.

(** A node somebody has a reference to, and one somebody has a strong reference to. *)
Lemma ref_keeps s V r x nd :
  core_ok s V → refs s !! r = Some x → nodes s !! r_node x = Some nd → node_weak nd = true ∧ (r_strong x ≠ 0 → node_strong nd = true).
Proof.
  intros Hok Hr Hn. destruct (rn_mine s V r x _ nd Hok Hr eq_refl Hn) as (Hd & Hin & _). split.
  - unfold node_weak. rewrite !orb_true_iff. left. left. apply negb_true_iff, bool_decide_eq_false. intros E. rewrite E in Hin. by apply elem_of_nil in Hin.
  - intros Hs. destruct (ct_nodes _ _ (co_counts _ _ Hok) _ nd Hn) as [Hi _]. unfold node_strong. apply orb_true_iff. left. apply negb_true_iff, Z.eqb_neq.
    pose proof (strong_count_without s r (n_refs nd) Hd Hin) as Hw. rewrite (strong_of_some _ _ _ Hr) in Hw. unfold nonzero in Hw.
    rewrite (proj2 (Z.eqb_neq _ _) Hs) in Hw. cbn in Hw. assert (0 ≤ strong_count s (without r (n_refs nd))) by (unfold strong_count; lia). lia.
Qed.
Lemma translate_handle_ok s V fp p q P Q a k :
  core_ok s V → settled V → v_dying V = None → procs s !! p = Some P → procs s !! q = Some Q → fresh_answers s a → room s V (k + 1) → 0 ≤ k →
  o_type fp = BINDER_TYPE_HANDLE ∨ o_type fp = BINDER_TYPE_WEAK_HANDLE →
  ∃ s' res, binder_translate_handle fp p q a s = Val s' res ∧ carried s s' V q k res.
Proof.
  intros Hok Hset Hdy HP HQ [Hfn Hfr] Hroom Hk Hty. unfold binder_translate_handle. set (sg := bool_decide (o_type fp = BINDER_TYPE_HANDLE)).
  destruct (get_ref_ok s V p P (u32 (o_value fp)) sg Hok HP) as (found & E & Hf). rewrite (bind_val _ _ _ _ _ E).
  destruct found as [r|]; [|eexists _, _; split; [done|]; by split]. destruct Hf as (x & Hr & _ & _ & Hsg).
  destruct (a_denied a); [eexists _, _; split; [done|]; by split|]. rewrite (bind_val _ _ _ _ _ (the_ref_eq _ _ _ Hr)).
  destruct (tb_ref _ (co_tables _ _ Hok) _ _ _ _ (ref_id_some _ _ _ Hr)) as (_ & [[[o b] l] Hid] & _). apply node_id_inv in Hid as (nd & Hn & _).
  rewrite (bind_val _ _ _ _ _ (the_node_eq _ _ _ Hn)). destruct (ref_keeps s V r x nd Hok Hr Hn) as [Hwk Hst].
  assert (not_dying V nd) as Hy by (intros z _; by rewrite Hdy). case_bool_decide as Hown.
  - set (type := if sg then BINDER_TYPE_BINDER else BINDER_TYPE_WEAK_BINDER). assert (bool_decide (type = BINDER_TYPE_BINDER) = sg) as -> by (unfold type; by destruct sg).
    destruct (inc_hold_eq s (r_node x) nd sg Hn) as (ret & Ei). rewrite (bind_val _ _ _ _ _ Ei). eexists _, _. split; [done|].
    assert (object_hold q (MkObject type (o_flags fp) (n_ptr nd) (n_cookie nd)) = [OnPtr q (n_ptr nd) sg]) as Eh by (unfold object_hold, type; cbn; by destruct sg).
    split; [done|]. rewrite Eh. cbn [app]. split.
    + apply (core_add_hold s V _ (r_node x) nd q sg); try done.
      * cbn. by rewrite eqb_reflx, bool_decide_eq_true_2, Z.eqb_refl by done.
      * exists (r_node x), (n_refs nd). by rewrite (node_id_some _ _ _ Hn), Hown.
      * pose proof (rm_holds _ _ _ Hroom). lia.
      * destruct sg; auto.
    + destruct Hroom as [R1 R2 R3]. constructor; cbn; [|lia|lia]. intros k' y Hy'. destruct (R1 k' y Hy'). lia.
  - destruct (receive_ref_ok s V q Q (r_node x) nd (a_ref a) sg None k) as (s2 & found & E2 & Hsp2 & Hf); try done.
    rewrite (bind_val _ _ _ _ _ E2). destruct found as [r'|]; [|subst s2; eexists _, _; split; [done|]; by split].
    destruct Hf as (x' & s3 & ret & Hr' & E3 & Hok3 & Hroom3 & Hsp3). rewrite (bind_val _ _ _ _ _ (the_ref_eq _ _ _ Hr')), (bind_val _ _ _ _ _ E3).
    eexists _, _. split; [done|]. split; [done|].
    assert (object_hold q (MkObject (o_type fp) (o_flags fp) (r_desc x') 0) = []) as -> by (unfold object_hold; cbn; by destruct Hty as [-> | ->]).
    cbn [app]. by rewrite set_holds_same.
Qed.
Lemma translate_ok s V fp p t q P Q a k :
  core_ok s V → settled V → v_dying V = None → procs s !! p = Some P → procs s !! q = Some Q → fresh_answers s a → room s V (k + 1) → 0 ≤ k →
  ∃ s' res, binder_translate fp p t q a s = Val s' res ∧ carried s s' V q k res.
Proof.
  intros. unfold binder_translate. destruct (o_type fp) eqn:Ety; [by eapply translate_binder_ok..|by eapply translate_handle_ok; eauto|by eapply translate_handle_ok; eauto].
Qed.

Lemma objects_hold_app p l l' : objects_hold p (l ++ l') = objects_hold p l ++ objects_hold p l'.
Proof. unfold objects_hold. by rewrite bind_app. Qed.
(** The loop: the objects done so far are held, in some order. *)
Lemma translate_objects_ok l s V L0 p t q P Q done :
  core_ok s V → settled V → v_dying V = None → v_holds V ≡ₚ objects_hold q done ++ L0 → procs s !! p = Some P → procs s !! q = Some Q →
  Forall (λ o, ∀ w, fresh_answers w (o.2 w)) l → room s V (Z.of_nat (length l)) →
  ∃ s' ok l', translate_objects p t q l done s = Val s' (ok, l') ∧ core_ok s' (set_holds (objects_hold q l' ++ L0) V) ∧ same_procs s s'.
Proof.
  revert s V P Q done. induction l as [|[fp a] l IH]; intros s V P Q done Hok Hset Hdy HL HP HQ Hfr Hroom; cbn [translate_objects].
  - exists s, true, done. split; [done|]. split; [by apply core_perm|done].
  - inversion Hfr as [|? ? Ha Hfr2]; subst. cbn in Ha. rewrite (bind_val get _ s s s) by done.
    destruct (translate_ok s V fp p t q P Q (a s) (Z.of_nat (length l)) Hok Hset Hdy HP HQ (Ha s)) as (s1 & res & E & Hsp & Hc);
      [by replace (Z.of_nat (length l) + 1) with (Z.of_nat (length ((fp, a) :: l))) by (cbn; lia)|lia|].
    rewrite (bind_val _ _ _ _ _ E). destruct res as [e|fp'].
    + exists s1, false, done. split; [done|]. split; [by apply core_perm|done].
    + destruct Hc as [Hok1 Hroom1]. destruct (same_procs_some _ _ _ _ Hsp HP) as (P1 & HP1 & _). destruct (same_procs_some _ _ _ _ Hsp HQ) as (Q1 & HQ1 & _).
      destruct (IH s1 (set_holds (object_hold q fp' ++ v_holds V) V) P1 Q1 (done ++ [fp'])) as (s' & ok & l' & E' & Hok' & Hsp'); try done.
      * cbn. rewrite HL, objects_hold_app. unfold objects_hold at 3. cbn. rewrite app_nil_r. solve_Permutation.
      * exists s', ok, l'. split; [done|]. split; [done|]. by eapply same_procs_trans.
Qed.
End translation.

(** *** Objects that are let go *)

Section release.
Context `{RbTree}.

Lemma release_object_ok s V L p P fp :
  core_ok s V → settled V → v_dying V = None → v_holds V ≡ₚ object_hold p fp ++ L → procs s !! p = Some P →
  ∃ s', release_object p fp s = Val s' tt ∧ core_ok s' (set_holds L V) ∧ fewer s s'.
Proof.
  intros Hok Hset Hdy HL HP. assert (∀ nd, not_dying V nd) as Hy by (intros nd z _; by rewrite Hdy).
  assert (∀ sg, object_hold p fp = [OnPtr p (o_value fp) sg] →
    ∃ s', (found ← binder_get_node p (o_value fp);
       match found with None => mret tt | Some n => binder_dec_node n sg false;; mret tt end) s = Val s' tt ∧ core_ok s' (set_holds L V) ∧ fewer s s') as Hbinder.
  { intros sg Eh. rewrite Eh in HL. cbn in HL. destruct (get_node_ok s V p P (o_value fp) Hok HP) as (found & E & Hf). rewrite (bind_val _ _ _ _ _ E).
    pose proof (ct_holds _ _ (co_counts _ _ Hok) (OnPtr p (o_value fp) sg)) as Hh. rewrite HL in Hh. destruct (Hh ltac:(by left)) as (m & l & Hid).
    destruct found as [n|]; [|by apply Hf in Hid]. destruct Hf as (nd & Hn & Hp & Ha).
    destruct (dec_hold_ok s V _ L n nd p sg Hok Hset HL Hn Hp (Hy nd)) as (s' & E' & Hok' & Hc).
    - cbn. by rewrite eqb_reflx, bool_decide_eq_true_2, Ha, Z.eqb_refl by done.
    - exists s'. split; [by rewrite (bind_val _ _ _ _ _ E')|]. split; [done|by apply calm_fewer]. }
  assert (∀ sg, object_hold p fp = [] →
    ∃ s', (found ← binder_get_ref p (u32 (o_value fp)) sg;
       match found with None => mret tt | Some r => binder_dec_ref r sg;; mret tt end) s = Val s' tt ∧ core_ok s' (set_holds L V) ∧ fewer s s') as Hhandle.
  { intros sg Eh. rewrite Eh in HL. cbn in HL. destruct (get_ref_ok s V p P (u32 (o_value fp)) sg Hok HP) as (found & E & Hf). rewrite (bind_val _ _ _ _ _ E).
    destruct found as [r|]; [|exists s; split; [done|]; split; [by apply core_perm|apply fewer_refl]]. destruct Hf as (x & Hr & _).
    destruct (tb_ref _ (co_tables _ _ Hok) _ _ _ _ (ref_id_some _ _ _ Hr)) as (_ & [[[o b] l] Hid] & _). apply node_id_inv in Hid as (nd & Hn & _).
    destruct (dec_ref_ok s V r x nd sg Hok Hset Hr Hn (Hy nd)) as (s' & ret & E' & Hok' & Hfw). exists s'.
    split; [by rewrite (bind_val _ _ _ _ _ E')|]. split; [by apply core_perm|done]. }
  unfold release_object. destruct (o_type fp) eqn:Ety; [apply (Hbinder true)|apply (Hbinder false)|apply (Hhandle true)|apply (Hhandle false)];
    unfold object_hold; by rewrite Ety.
Qed.
Lemma release_objects_ok l s V L p P :
  core_ok s V → settled V → v_dying V = None → v_holds V ≡ₚ objects_hold p l ++ L → procs s !! p = Some P →
  ∃ s', for_each l (release_object p) s = Val s' tt ∧ core_ok s' (set_holds L V) ∧ fewer s s'.
Proof.
  revert s V P. induction l as [|fp l IH]; intros s V P Hok Hset Hdy HL HP; cbn [for_each].
  - exists s. split; [done|]. split; [by apply core_perm|apply fewer_refl].
  - unfold objects_hold in HL. cbn in HL. rewrite <- app_assoc in HL.
    destruct (release_object_ok s V (objects_hold p l ++ L) p P fp Hok Hset Hdy HL HP) as (s1 & E1 & Hok1 & Hf1). rewrite (bind_val _ _ _ _ _ E1).
    destruct (same_procs_some _ _ _ _ (fewer_same_procs _ _ Hf1) HP) as (P1 & HP1 & _).
    destruct (IH s1 (set_holds (objects_hold p l ++ L) V) P1) as (s' & E' & Hok' & Hf'); try done.
    exists s'. split; [done|]. split; [done|]. by eapply fewer_trans.
Qed.
Lemma buffer_release_ok s V L p P target objects :
  core_ok s V → settled V → v_dying V = None → v_holds V ≡ₚ (target_hold p target ++ objects_hold p objects) ++ L → procs s !! p = Some P →
  ∃ s', binder_transaction_buffer_release p target objects s = Val s' tt ∧ core_ok s' (set_holds L V) ∧ fewer s s'.
Proof.
  intros Hok Hset Hdy HL HP. unfold binder_transaction_buffer_release. rewrite <- app_assoc in HL. destruct target as [n|]; cbn in HL.
  - pose proof (ct_holds _ _ (co_counts _ _ Hok) (OnNode p n)) as Hh. rewrite HL in Hh. destruct (Hh ltac:(by left)) as (a & l & Hid).
    apply node_id_inv in Hid as (nd & Hn & Hp & _).
    destruct (dec_hold_ok s V _ (objects_hold p objects ++ L) n nd p true Hok Hset HL Hn Hp) as (s1 & E1 & Hok1 & Hc1); [intros z _; by rewrite Hdy|cbn; apply Z.eqb_refl|].
    rewrite (bind_val _ _ s s1 tt) by (by rewrite (bind_val _ _ _ _ _ E1)). pose proof (calm_fewer _ _ Hc1) as Hf1.
    destruct (same_procs_some _ _ _ _ (fewer_same_procs _ _ Hf1) HP) as (P1 & HP1 & _).
    destruct (release_objects_ok objects s1 (set_holds (objects_hold p objects ++ L) V) L p P1) as (s' & E' & Hok' & Hf'); try done.
    exists s'. split; [done|]. split; [done|]. by eapply fewer_trans.
  - rewrite (bind_val (mret tt) _ s s tt) by done. by apply (release_objects_ok objects s V L p P).
Qed.

(** *** A transaction *)

Lemma find_target_ok s V p P d :
  core_ok s V → procs s !! p = Some P → match d with ReplyTo q => is_Some (procs s !! q) | ToHandle _ => True end →
  ∃ res, find_target p d s = Val s res ∧
    match res with
    | inl _ => True
    | inr (target, q) => is_Some (procs s !! q) ∧ ∀ n, target = Some n → ∃ nd, nodes s !! n = Some nd ∧ n_proc nd = Some q ∧ (v_dying V = None → node_strong nd = true)
    end.
Proof.
  intros Hok HP Hd. unfold find_target. destruct d as [h|q]; [|by exists (inr (None, q))].
  assert (∃ node, (if h =? 0 then P ← the_proc p; C ← the_context (p_context P);
        mret (match binder_context_mgr_node C with Some n => inr n | None => inl BR_DEAD_REPLY end)
      else found ← binder_get_ref p h true;
        match found with None => mret (inl BR_FAILED_REPLY) | Some r => ref ← the_ref r; mret (inr (r_node ref)) end) s = Val s node ∧
    ∀ n, node = inr n → ∃ nd, nodes s !! n = Some nd ∧ (is_Some (n_proc nd) → v_dying V = None → node_strong nd = true)) as (node & E & Hnode).
  { destruct (h =? 0).
    - destruct (tb_context _ (co_tables _ _ Hok) p P HP) as [C HC]. rewrite (bind_val _ _ _ _ _ (the_proc_eq _ _ _ HP)), (bind_val _ _ _ _ _ (the_context_eq _ _ _ HC)).
      eexists. split; [done|]. destruct (binder_context_mgr_node C) as [m|] eqn:Hm; [|done]. intros n [= <-].
      destruct (tb_mgr _ (co_tables _ _ Hok) _ C m HC Hm) as (q & Q & a & l & Hid & _). apply node_id_inv in Hid as (nd & Hn & Hq & _). exists nd. split; [done|].
      intros _ Hdy. destruct (alive_counts s V m nd q Hok Hn Hq) as [L1 _ _ _]; [intros z _; by rewrite Hdy|].
      assert (manages s m = true) as Hman by (apply manages_true; eauto). rewrite Hman in L1. pose proof (held_on_nonneg m nd true (v_holds V)).
      pose proof (b2z_nonneg (pending_strong_ref nd)). unfold node_strong. apply orb_true_iff. right. apply negb_true_iff, Z.eqb_neq. cbn in L1. lia.
    - destruct (get_ref_ok s V p P h true Hok HP) as (found & E & Hf). rewrite (bind_val _ _ _ _ _ E). destruct found as [r|]; [|by eexists].
      destruct Hf as (x & Hr & _ & _ & Hs). rewrite (bind_val _ _ _ _ _ (the_ref_eq _ _ _ Hr)). eexists. split; [done|]. intros n [= <-].
      destruct (tb_ref _ (co_tables _ _ Hok) _ _ _ _ (ref_id_some _ _ _ Hr)) as (_ & [[[o b] l] Hid] & _). apply node_id_inv in Hid as (nd & Hn & _).
      exists nd. split; [done|]. intros _ _. by apply (ref_keeps s V r x nd Hok Hr Hn), Hs. }
  rewrite (bind_val _ _ _ _ _ E). destruct node as [e|n]; [by exists (inl e)|]. destruct (Hnode n eq_refl) as (nd & Hn & Hst).
  rewrite (bind_val _ _ _ _ _ (the_node_eq _ _ _ Hn)). eexists. split; [done|]. destruct (n_proc nd) as [q|] eqn:Hq; [|done]. split.
  - destruct (owner_proc s V n nd q Hok Hn Hq) as [Q HQ]. eauto.
  - intros ? [= <-]. exists nd. split_and!; try done. intros. apply Hst; eauto.
Qed.

Record sys_ok (s : system) (lost : gset Z) : Prop := {
  so_core : core_ok (sys_world s) (MkView (all_holds (held s)) lost Settled None);
  so_held : ∀ h, h ∈ held s → is_Some (procs (sys_world s) !! h_proc h);
}.
Lemma held_same_procs w w' (l : list held_buffer) : same_procs w w' → (∀ h, h ∈ l → is_Some (procs w !! h_proc h)) → ∀ h, h ∈ l → is_Some (procs w' !! h_proc h).
Proof. intros Hsp Hl h Hh. destruct (Hl h Hh) as [P HP]. destruct (same_procs_some _ _ _ _ Hsp HP) as (P' & ? & _). eauto. Qed.
Lemma on_world_eq {A} (m : M world A) s w a : m (sys_world s) = Val w a → on_world m s = Val (MkSystem w (held s)) a.
Proof. intros E. unfold on_world, zoom. by rewrite E. Qed.

Lemma transaction_ok s lost p t d buffer copied objects :
  sys_ok s lost → is_Some (procs (sys_world s) !! p) → match d with ReplyTo q => is_Some (procs (sys_world s) !! q) | ToHandle _ => True end →
  Forall (λ o, ∀ w, fresh_answers w (o.2 w)) objects → room (sys_world s) (MkView (all_holds (held s)) lost Settled None) (Z.of_nat (length objects) + 1) →
  ∃ s' res, binder_transaction p t d buffer copied objects s = Val s' res ∧ sys_ok s' lost.
Proof.
  intros [Hok Hheld] [P HP] Hd Hfr Hroom. set (w := sys_world s) in *. set (V := MkView _ _ _ _) in *. unfold binder_transaction.
  destruct (find_target_ok w V p P d Hok HP Hd) as (res & E & Hres). rewrite (bind_val _ _ _ _ _ (on_world_eq _ s _ _ E)).
  assert (MkSystem w (held s) = s) as Es by (by destruct s). rewrite Es. destruct res as [e|[target q]]; [by exists s, e|].
  destruct buffer as [b|]; [|by exists s, BR_FAILED_REPLY]. destruct Hres as [[Q HQ] Htarget].
  assert (∃ w1 ret, (match target with Some n => binder_inc_node n true false None | None => mret 0 end) w = Val w1 ret ∧
    core_ok w1 (set_holds (target_hold q target ++ v_holds V) V) ∧ same_procs w w1 ∧ refs w1 = refs w) as (w1 & ret & E1 & Hok1 & Hsp1 & Er1).
  { destruct target as [n|]; [|by exists w, 0]. destruct (Htarget n eq_refl) as (nd & Hn & Hnp & Hst). destruct (inc_hold_eq w n nd true Hn) as (ret & Ei).
    eexists _, ret. split; [done|]. split; [|done]. apply (core_add_hold w V _ n nd q true); try done.
    - cbn. apply Z.eqb_refl.
    - exists (n_ptr nd), (n_refs nd). by rewrite (node_id_some _ _ _ Hn), Hnp.
    - pose proof (rm_holds _ _ _ Hroom). cbn in *. lia.
    - by apply Hst. }
  rewrite (bind_val _ _ _ _ _ (on_world_eq _ s _ _ E1)). set (s1 := MkSystem w1 (held s)). set (V1 := set_holds _ V) in *.
  destruct (same_procs_some _ _ _ _ Hsp1 HP) as (P1 & HP1 & _). destruct (same_procs_some _ _ _ _ Hsp1 HQ) as (Q1 & HQ1 & _).
  assert (∃ w2 ok l', (if copied then translate_objects p t q objects [] else mret (false, [])) w1 = Val w2 (ok, l') ∧
    core_ok w2 (set_holds (objects_hold q l' ++ v_holds V1) V1) ∧ same_procs w1 w2) as (w2 & ok & l' & E2 & Hok2 & Hsp2).
  { destruct copied; [|exists w1, false, []; split; [done|]; split; [exact Hok1|done]].
    apply (translate_objects_ok objects w1 V1 (v_holds V1) p t q P1 Q1 []); try done. destruct Hroom as [R1 R2 R3]. constructor; rewrite ?Er1.
    - intros r x Hx. destruct (R1 r x Hx). lia.
    - lia.
    - cbn in *. unfold target_hold. destruct target; cbn in *; lia. }
  rewrite (bind_val _ _ _ _ _ (on_world_eq _ s1 _ _ E2)). assert (same_procs w w2) as Hsp by (by eapply same_procs_trans).
  destruct (same_procs_some _ _ _ _ Hsp HQ) as (Q2 & HQ2 & _). cbn [fst snd].
  assert (objects_hold q l' ++ v_holds V1 ≡ₚ (target_hold q target ++ objects_hold q l') ++ v_holds V) as HL by (cbn; solve_Permutation).
  destruct ok.
  - eexists _, _. split; [done|]. split; cbn.
    + eapply core_perm in Hok2; [|exact HL]. exact Hok2.
    + intros h [->|Hh]%elem_of_cons; [cbn; eauto|]. by eapply (held_same_procs w).
  - destruct (buffer_release_ok w2 (set_holds (objects_hold q l' ++ v_holds V1) V1) (v_holds V) q Q2 target l' Hok2) as (w3 & E3 & Hok3 & Hf3); [done|done|exact HL|done|].
    rewrite (bind_val _ _ _ _ _ (on_world_eq _ (MkSystem w2 (held s)) _ _ E3)). eexists _, _. split; [done|]. split; [exact Hok3|]. cbn.
    eapply (held_same_procs w2); [by apply fewer_same_procs|]. by eapply (held_same_procs w).
Qed.

Lemma take_held_perm p b l h rest : take_held p b l = Some (h, rest) → l ≡ₚ h :: rest ∧ h_proc h = p.
Proof.
  revert h rest. induction l as [|k l IH]; intros h rest; cbn; [done|]. destruct (decide (h_proc k = p ∧ h_addr k = b)) as [[Hp _]|_]; [intros [= <- <-]; by split|].
  destruct (take_held p b l) as [[h' rest']|]; [|done]. intros [= <- <-]. destruct (IH h' rest' eq_refl) as [-> ?]. split; [solve_Permutation|done].
Qed.
Lemma all_holds_perm l l' : l ≡ₚ l' → all_holds l ≡ₚ all_holds l'.
Proof. intros HL. unfold all_holds. by rewrite HL. Qed.
Lemma release_buffer_ok s lost p b : sys_ok s lost → ∃ s' res, release_buffer p b s = Val s' res ∧ sys_ok s' lost.
Proof.
  intros [Hok Hheld]. unfold release_buffer. rewrite (bind_val get _ s s s) by done. destruct (take_held p b (held s)) as [[h rest]|] eqn:E; [|by exists s, false].
  apply take_held_perm in E as [HL Hp]. destruct (Hheld h) as [P HP]; [rewrite HL; by left|].
  rewrite (bind_val (put _) _ s (MkSystem (sys_world s) rest) tt) by done. rewrite Hp in HP.
  destruct (buffer_release_ok (sys_world s) (MkView (all_holds (held s)) lost Settled None) (all_holds rest) p P (h_target h) (h_objects h) Hok) as (w & Ew & Hok' & Hf);
    [done|done| |done|].
  - cbn. rewrite (all_holds_perm _ _ HL). unfold all_holds. cbn. unfold buffer_hold. by rewrite Hp.
  - rewrite (bind_val _ _ _ _ _ (on_world_eq _ (MkSystem (sys_world s) rest) _ _ Ew)). eexists _, true. split; [done|]. split; [exact Hok'|]. cbn.
    eapply (held_same_procs (sys_world s)); [by apply fewer_same_procs|]. intros k Hk. apply Hheld. rewrite HL. by right.
Qed.
End release.
