(* ===== verification/BinderRefsEnd.v ===== *)
(** * The end of a process of the binder driver

    [BinderRefs.release_process]: the context manager's place, the work of the process's threads, its nodes - those that
    somebody refers to stay as dead nodes, and who asked is notified - its references, and the rest of its work.  In
    between the counts of its nodes are not those of the buffers any more; the view that [BinderRefsInv] takes of the
    driver names the dying process.  The invariant holds again when the process is gone. *)

From S2P Require Import Prelude Kernel Trees BinderRefs BinderRefsInv BinderRefsTab BinderRefsDeath BinderRefsSys.

Definition hold_proc (h : hold) : Z := match h with OnNode p _ => p | OnPtr p _ _ => p end.
Definition others_holds (p : Z) (L : list hold) : list hold := List.filter (λ h, negb (hold_proc h =? p)) L.
Lemma elem_of_others p L h : h ∈ others_holds p L ↔ h ∈ L ∧ hold_proc h ≠ p.
Proof. unfold others_holds. by rewrite !list_elem_of_In, filter_In, negb_true_iff, Z.eqb_neq. Qed.

(** What a node of another process is held by. *)
Lemma held_on_others s p L n nd sg :
  (∀ h, h ∈ L → hold_ok s h) → nodes s !! n = Some nd → n_proc nd ≠ Some p → held_on n nd sg (others_holds p L) = held_on n nd sg L.
Proof.
  intros Hh Hn Hp. unfold held_on, others_holds. f_equal. induction L as [|h L IH]; [done|]. cbn [List.filter].
  assert (∀ k, k ∈ L → hold_ok s k) as HL by (intros k Hk; apply Hh; by right). specialize (IH HL).
  destruct (hold_proc h =? p) eqn:E; cbn [negb]; [|cbn [List.filter]; destruct (on n nd sg h); cbn [length]; by rewrite IH].
  apply Z.eqb_eq in E. assert (on n nd sg h = false) as ->; [|done]. apply not_true_iff_false. intros Hon.
  pose proof (Hh h ltac:(by left)) as Hk. destruct h as [q m|q a b]; cbn in *; subst q.
  - apply andb_true_iff in Hon as [_ Hmn]. apply Z.eqb_eq in Hmn. subst m. destruct Hk as (a & l & Hid). rewrite (node_id_some _ _ _ Hn) in Hid. congruence.
  - rewrite !andb_true_iff, bool_decide_eq_true in Hon. tauto.
Qed.

Definition dying (p : Z) (V : view) : view := MkView (others_holds p (v_holds V)) (v_lost V) Settled (Some p).
Lemma core_dying s V p : core_ok s V → settled V → v_dying V = None → core_ok s (dying p V).
Proof.
  intros [Ht [C1 C2 C3 C4] Hto Hw] Hset Hdy. constructor; [done| | |done].
  - constructor; [|done| |].
    + intros n nd Hn. destruct (C1 n nd Hn) as [Hi Hp]. split; [done|]. destruct (n_proc nd) as [q|] eqn:Eq.
      * cbn. destruct (decide (q = p)) as [->|Hne]; [by left|]. right. destruct Hp as [?|[L1 L2 L3 L4]]; [congruence|].
        constructor; try done; by rewrite (held_on_others s) by (done || congruence).
      * destruct Hp as (? & ? & [?|[Hf|Hf]]); [by split_and!; [..|left]| |]; unfold settled in Hset; congruence.
    + intros h [Hin _]%elem_of_others. by apply C3.
    + split; [|apply C4]. cbn. pose proof (filter_length_le (λ h, negb (hold_proc h =? p)) (v_holds V)) as Hl. unfold others_holds. lia.
  - intros n nd q Hn Hq _. destruct (Hto n nd q Hn Hq) as [?|[?|Hin]]; [by rewrite Hdy|by left|by right; left|]. right. right. by rewrite Hset in Hin.
Qed.

(** *** While a process dies *)

Record dying_ok (s : world) (V : view) (p : Z) : Prop := {
  dy_core : core_ok s V;
  dy_settled : settled V;
  dy_dying : v_dying V = Some p;
  dy_holds : ∀ h, h ∈ v_holds V → hold_proc h ≠ p;
  dy_unmanaged : ∀ n a l, node_id s n = Some (Some p, a, l) → manages s n = false;
  dy_threads : ∀ t w, (ThreadTodo p t, w) ∉ todo s;
}.

Lemma strip_lost s V p X :
  core_ok s (add_lost X V) → v_dying V = Some p → (∀ n, n ∈ X → ∃ a l, node_id s n = Some (Some p, a, l)) → core_ok s V.
Proof.
  intros [Ht Hc Hto Hw] Hdy HX. constructor; [done| | |done].
  - destruct Hc as [C1 C2 C3 C4]. by constructor.
  - intros n nd q Hn Hq Hne. destruct (Hto n nd q Hn Hq Hne) as [?|[Hl|?]]; [by left| |by right; right]. right. left.
    cbn in Hl. apply elem_of_union in Hl as [?|Hl]; [done|]. destruct (HX n Hl) as (a & l & Hid). rewrite (node_id_some _ _ _ Hn) in Hid.
    injection Hid as Hp _ _. congruence.
Qed.

Section ending.
Context `{RbTree}.

Lemma forget_ok s V p P :
  core_ok s V → v_dying V = Some p → procs s !! p = Some P →
  ∃ s', forget_context_mgr p s = Val s' tt ∧ core_ok s' V ∧ procs s' = procs s ∧ nodes s' = nodes s ∧ refs s' = refs s ∧ todo s' = todo s ∧
    ∀ n a l, node_id s' n = Some (Some p, a, l) → manages s' n = false.
Proof.
  intros Hok Hdy HP. unfold forget_context_mgr. destruct (tb_context _ (co_tables _ _ Hok) p P HP) as [C HC].
  rewrite (bind_val _ _ _ _ _ (the_proc_eq _ _ _ HP)), (bind_val _ _ _ _ _ (the_context_eq _ _ _ HC)).
  assert (∀ n a l, node_id s n = Some (Some p, a, l) → manages s n = true → binder_context_mgr_node C = Some n) as Hmine.
  { intros n a l Hid (c & D & HD & Hm)%manages_true. destruct (tb_mgr _ (co_tables _ _ Hok) c D n HD Hm) as (q & Q & b & k & Hid' & HQ & Hc).
    rewrite Hid in Hid'. injection Hid' as <- _ _. rewrite HP in HQ. injection HQ as <-. rewrite Hc in HC. congruence. }
  assert (∀ s' n, binder_context_mgr_node C = Some n → (∀ m, node_id s' m = node_id s m) → (∀ m, manages s' m = true → manages s m = true ∧ m ≠ n) →
    ∀ m a l, node_id s' m = Some (Some p, a, l) → manages s' m = false) as Hno.
  { intros s' n Hn Eid Hm m a l Hid. apply not_true_iff_false. intros [Hs Hne]%Hm. rewrite Eid in Hid. pose proof (Hmine m a l Hid Hs). congruence. }
  destruct (binder_context_mgr_node C) as [n|] eqn:Hn.
  - destruct (tb_mgr _ (co_tables _ _ Hok) _ C n HC Hn) as (q & Q & a & l & Hid & HQ & Hqc). apply node_id_inv in Hid as (nd & Hnd & Hq & _ & _).
    rewrite (bind_val _ _ _ _ _ (the_node_eq _ _ _ Hnd)). case_bool_decide as Hown.
    + set (s' := set_contexts (<[p_context P := MkContext None (binder_context_mgr_uid C)]> (contexts s)) s). assert (∀ m, manages s' m = true → manages s m = true ∧ m ≠ n) as Hman.
      { intros m (c & D & HD & Hm)%manages_true. cbn in HD. destruct (decide (c = p_context P)) as [->|Hne].
        - rewrite lookup_insert_eq in HD. by injection HD as <-.
        - rewrite lookup_insert_ne in HD by done. split; [apply manages_true; eauto|]. intros ->.
          destruct (tb_mgr _ (co_tables _ _ Hok) c D n HD Hm) as (q' & Q' & a' & l' & Hid' & HQ' & Hc'). rewrite (node_id_some _ _ _ Hnd), Hown in Hid'.
          injection Hid' as <- _ _. rewrite HP in HQ'. injection HQ' as <-. congruence. }
      exists s'. split; [done|]. split; [|split_and!; [done..|]; by eapply Hno].
      apply core_set_context; [done|eauto|done|]. intros m y z Hm Hz Hy. apply eq_true_iff_eq. split; [by intros [? _]%Hman|]. intros Hs.
      apply manages_true in Hs as (c & D & HD & HDm). apply manages_true. exists c, D. cbn. rewrite lookup_insert_ne; [done|]. intros <-.
      rewrite HC in HD. injection HD as <-. assert (m = n) as -> by congruence. rewrite Hnd in Hm. injection Hm as <-. congruence.
    + exists s. split_and!; try done. intros m a' l' Hid'. apply not_true_iff_false. intros Hs. pose proof (Hmine m a' l' Hid' Hs) as E. injection E as <-.
      rewrite (node_id_some _ _ _ Hnd) in Hid'. injection Hid' as Hp _ _. congruence.
  - exists s. split_and!; try done. intros m a l Hid. apply not_true_iff_false. intros Hs. by pose proof (Hmine m a l Hid Hs).
Qed.

(** The work of the threads. *)
Lemma free_thread_ok s V p t :
  core_ok s V → settled V → v_dying V = Some p →
  ∃ s', binder_free_thread p t s = Val s' tt ∧ core_ok s' V ∧ swept (ThreadTodo p t) s s'.
Proof.
  intros Hok Hset Hdy. destruct (release_work_ok s V (ThreadTodo p t) Hok Hset) as (s' & X & E & HX & Hok' & Hsw). exists s'. split; [done|]. split; [|done].
  eapply strip_lost; [done|done|]. intros n Hn. destruct (wk_nodes _ (co_works _ _ Hok) _ _ (HX n Hn)) as (_ & a & l & Hid). exists a, l.
  unfold node_id in *. by rewrite (sw_nodes _ _ _ Hsw).
Qed.
Lemma elem_of_threads p t w (l : list (queue * work)) : (ThreadTodo p t, w) ∈ l → t ∈ threads_of p l.
Proof. intros Hin. unfold threads_of. apply list_elem_of_omap. exists (ThreadTodo p t, w). split; [done|]. cbn. by rewrite decide_True. Qed.
Lemma free_threads_ok l s V p :
  core_ok s V → settled V → v_dying V = Some p →
  ∃ s', for_each l (binder_free_thread p) s = Val s' tt ∧ core_ok s' V ∧ procs s' = procs s ∧ contexts s' = contexts s ∧ nodes s' = nodes s ∧ refs s' = refs s ∧
    ∀ e, e ∈ todo s' → e ∈ todo s ∧ ∀ t, t ∈ l → e.1 ≠ ThreadTodo p t.
Proof.
  revert s. induction l as [|t l IH]; intros s Hok Hset Hdy; cbn [for_each].
  - exists s. split_and!; try done. intros e He. split; [done|]. by intros t ?%elem_of_nil.
  - destruct (free_thread_ok s V p t Hok Hset Hdy) as (s1 & E1 & Hok1 & [S1 S2 S3 S4 S5 S6]). rewrite (bind_val _ _ _ _ _ E1).
    destruct (IH s1 Hok1 Hset Hdy) as (s' & E & Hok' & F1 & F2 & F3 & F4 & F5). exists s'. split_and!; try done; try congruence.
    intros e [He Hl]%F5. apply S6 in He as [He Hne]. split; [done|]. intros u [->|Hu]%elem_of_cons; [done|by apply Hl].
Qed.

(** *** A node that is left without its process *)

Section orphan.
Context (s : world) (V : view) (p : Z) (P : binder_process) (n : Z) (nd : binder_node).
Context (Hdy : dying_ok s V p) (HP : procs s !! p = Some P) (Hn : nodes s !! n = Some nd) (Hp : n_proc nd = Some p).
Let nd' : binder_node := with_owner None (with_counts (internal_strong_refs nd) 0 0 nd).
Definition orphaned : world :=
  MkWorld (<[p := set_p_nodes (rb_erase n (p_nodes P)) P]> (procs s)) (contexts s) (<[n := nd']> (nodes s)) (refs s) (deaths s)
    (n :: dead_nodes s) (unlink (WNode n) (todo s)).
Let s' : world := orphaned.

Lemma or_node_id m : node_id s' m = if decide (m = n) then Some (None, n_ptr nd, n_refs nd) else node_id s m.
Proof. unfold node_id, s', orphaned. cbn. destruct (decide (m = n)) as [->|Hm]; [by rewrite lookup_insert_eq|by rewrite lookup_insert_ne]. Qed.
Lemma or_proc q Q' : procs s' !! q = Some Q' →
  ∃ Q, procs s !! q = Some Q ∧ p_context Q' = p_context Q ∧ refs_by_desc Q' = refs_by_desc Q ∧ refs_by_node Q' = refs_by_node Q ∧
    (q = p ∧ Q = P ∧ p_nodes Q' = rb_erase n (p_nodes P) ∨ q ≠ p ∧ Q' = Q).
Proof using HP.
  unfold s', orphaned. cbn. destruct (decide (q = p)) as [->|Hq]; [rewrite lookup_insert_eq; intros [= <-]; exists P; split_and!; auto|].
  rewrite lookup_insert_ne by done. exists Q'. split_and!; auto.
Qed.
Lemma or_proc_forth q : is_Some (procs s !! q) → is_Some (procs s' !! q).
Proof.
  intros [Q HQ]. unfold s', orphaned. cbn. destruct (decide (q = p)) as [->|Hq]; [rewrite lookup_insert_eq|rewrite lookup_insert_ne by done]; eauto.
Qed.
Lemma or_id : node_id s n = Some (Some p, n_ptr nd, n_refs nd).
Proof using Hn Hp. by rewrite (node_id_some _ _ _ Hn), Hp. Qed.

Lemma tables_orphan : tables s'.
Proof using Hdy HP Hn Hp.
  destruct Hdy as [[[H1 H2 H3 H4 H5 H6 H7 H8 H9] _ _ _] _ _ _ Hun _]. pose proof or_id as Hid.
  assert (∀ r, ref_id s' r = ref_id s r) as Er by done. constructor.
  - intros q Q' (Q & HQ & -> & _)%or_proc. by apply (H1 q).
  - intros c C m Hc Hm. destruct (H2 c C m Hc Hm) as (q & Q & a & l & Hi & HQ & HQc).
    assert (m ≠ n). { intros ->. pose proof (Hun _ _ _ Hid) as Hf. apply not_true_iff_false in Hf. apply Hf, manages_true. eauto. }
    destruct (or_proc_forth q) as [Q' HQ']; [eauto|]. destruct (or_proc _ _ HQ') as (Q0 & HQ0 & Ec & _).
    exists q, Q', a, l. rewrite or_node_id, decide_False by done. split_and!; [done|done|congruence].
  - intros q Q' (Q & HQ & _ & _ & _ & Hq)%or_proc. destruct (H3 q Q HQ) as [Hi Hin].
    assert (∀ x, node_key s' x = node_key s x) as Ek. { intros x. rewrite !node_key_id, or_node_id. case_decide as Hx; [by rewrite Hx, Hid|done]. }
    destruct Hq as [(-> & -> & ->)|(Hq & ->)].
    + rewrite rb_erase_inorder by (apply Hin; eauto). split; [eapply increasing_ext; [intros x _; apply Ek|by apply increasing_without]|].
      intros m. rewrite elem_of_without, Hin. setoid_rewrite or_node_id. case_decide; naive_solver.
    + split; [eapply increasing_ext; [intros x _; apply Ek|done]|]. intros m. rewrite Hin. setoid_rewrite or_node_id. case_decide; [subst; rewrite Hid; naive_solver|done].
  - intros q Q' (Q & HQ & _ & -> & _)%or_proc. by apply (H4 q Q).
  - intros q Q' (Q & HQ & _ & _ & -> & _)%or_proc. by apply (H5 q Q).
  - intros m q a l. rewrite or_node_id. case_decide; [done|]. intros E. apply or_proc_forth. by eapply H6.
  - destruct H7 as [Hd Hin]. split; [constructor; [intros (a & l & E)%Hin; congruence|done]|]. intros m.
    change (dead_nodes s') with (n :: dead_nodes s). rewrite elem_of_cons, Hin. setoid_rewrite or_node_id. case_decide; [subst; naive_solver|naive_solver].
  - intros m o a l. rewrite or_node_id. case_decide as E; [|apply H8]. intros [= <- <- <-]. subst. by apply (H8 _ _ _ _ Hid).
  - intros r q m d Hi. destruct (H9 r q m d Hi) as (G1 & G2 & G3). split; [by apply or_proc_forth|]. split; [|done]. rewrite or_node_id. case_decide; [eauto|done].
Qed.

Lemma dying_orphan : n_refs nd ≠ [] → dying_ok s' V p.
Proof using Hdy HP Hn Hp.
  intros Hr. pose proof tables_orphan as Ht. destruct Hdy as [[_ [C1 C2 C3 C4] Hto Hw] Hset Hd Hh Hun Hth]. pose proof or_id as Hid. constructor; try done.
  - constructor; [done| | |].
    + constructor; [|done| |done].
      * intros m y. cbn. destruct (decide (m = n)) as [->|Hne].
        -- rewrite lookup_insert_eq. intros [= <-]. destruct (C1 n nd Hn) as [Hi _]. split; [done|]. split_and!; [done|done|by left].
        -- rewrite lookup_insert_ne by done. intros Hm. by apply (node_counts_ext s), C1.
      * intros h Hin. specialize (C3 h Hin). specialize (Hh h Hin). destruct h as [q m|q b c]; cbn in *.
        -- destruct C3 as (a & l & E). exists a, l. rewrite or_node_id, decide_False; [done|]. intros ->. congruence.
        -- destruct C3 as (m & l & E). exists m, l. rewrite or_node_id, decide_False; [done|]. intros ->. congruence.
    + intros m y q. cbn. destruct (decide (m = n)) as [->|Hne]; [rewrite lookup_insert_eq; by intros [= <-]|]. rewrite lookup_insert_ne by done.
      intros Hm Hq Hy. destruct (Hto m y q Hm Hq Hy) as [?|[?|?]]; [|auto..]. left.
      change (linked (WNode m) (unlink (WNode n) (todo s)) = true). rewrite linked_unlink, bool_decide_eq_false_2 by congruence. by rewrite andb_true_r.
    + apply deaths_ok_works; [by apply unlink_nodup, Hw| |].
      * intros q m [Hin Hne]%elem_of_unlink. cbn in Hne. destruct (wk_nodes _ Hw q m Hin) as [? (a & l & E)]. split; [done|]. exists a, l.
        rewrite or_node_id, decide_False by congruence. done.
      * intros d. apply (death_ok_ext s); [apply or_proc_forth| |done|done| |by apply works_death_ok].
        -- intros q. by apply death_in_unlink.
        -- intros m a l E. exists a, l. rewrite or_node_id, decide_False; [done|]. intros ->. congruence.
  - intros m a l. rewrite or_node_id. case_decide; [done|]. intros E. exact (Hun m a l E).
  - intros t w [Hin _]%elem_of_unlink. by apply (Hth t w).
Qed.
End orphan.

(** Those who asked are notified. *)
Lemma core_notify s V r x d y n a l :
  core_ok s V → refs s !! r = Some x → r_node x = n → r_death x = Some d → node_id s n = Some (None, a, l) → linked (WDeath d) (todo s) = false →
  d_type y = BINDER_WORK_DEAD_BINDER →
  core_ok (set_todo (todo s ++ [(ProcTodo (r_proc x), WDeath d)]) (set_deaths (<[d := y]> (deaths s)) s)) V.
Proof.
  intros Hok Hr Hrn Hd Hid Hoff Hy. pose proof (works_death_ok s d (co_works _ _ Hok)) as [D1 D2 D3 D4].
  assert (ref_work s r = Some (r_proc x, n, Some d)) as Hrw by (rewrite (ref_work_some _ _ _ Hr); by rewrite Hrn, Hd).
  apply (core_death s _ V d); try done.
  - intros e He. cbn. by rewrite lookup_insert_ne.
  - intros q w Hw. cbn. by apply todo_add_other.
  - apply add_nodup; [done|apply (co_works _ _ Hok)].
  - constructor; cbn.
    + intros q Hq%death_todo_add; [|done]. subst q. cbn. rewrite lookup_insert_eq. split; [|done].
      by destruct (tb_ref _ (co_tables _ _ Hok) _ _ _ _ (ref_id_some _ _ _ Hr)) as [? _].
    + intros r' q m Hr'. change (ref_work s r' = Some (q, m, Some d)) in Hr'. rewrite lookup_insert_eq. exists y. split; [done|].
      assert (r' = r) as -> by (by eapply D3). rewrite Hrw in Hr'. injection Hr' as <- <-. intros q' Hq'%death_todo_add; [|done]. subst q'.
      split_and!; [done|done|]. exists a, l. exact Hid.
    + intros r1 r2 p1 p2 n1 n2. apply D3.
    + intros z _ Hno. exfalso. by apply (Hno r (r_proc x) n).
Qed.
Lemma notify_all_ok l s V p n :
  dying_ok s V p → (∃ a k, node_id s n = Some (None, a, k)) → NoDup l →
  (∀ r, r ∈ l → ∃ x, refs s !! r = Some x ∧ r_node x = n ∧ ∀ d, r_death x = Some d → linked (WDeath d) (todo s) = false) →
  ∃ s', for_each l notify_death s = Val s' tt ∧ dying_ok s' V p ∧ procs s' = procs s ∧ refs s' = refs s ∧ nodes s' = nodes s.
Proof.
  revert s. induction l as [|r l IH]; intros s Hdy Hdead Hnd Hl; cbn [for_each].
  - exists s. by split_and!.
  - apply list.NoDup_cons in Hnd as [Hrl Hnd]. destruct (Hl r ltac:(by left)) as (x & Hr & Hrn & Hoff).
    assert (∃ s1, notify_death r s = Val s1 tt ∧ dying_ok s1 V p ∧ procs s1 = procs s ∧ refs s1 = refs s ∧ nodes s1 = nodes s ∧
      ∀ e, (∃ k z, k ∈ l ∧ refs s !! k = Some z ∧ r_death z = Some e) → linked (WDeath e) (todo s) = false → linked (WDeath e) (todo s1) = false) as (s1 & E1 & Hdy1 & P1 & R1 & N1 & L1).
    { unfold notify_death. rewrite (bind_val _ _ _ _ _ (the_ref_eq _ _ _ Hr)). destruct (r_death x) as [d|] eqn:Hd; [|by exists s; split_and!].
      specialize (Hoff d eq_refl). destruct Hdy as [Hok Hset Hd0 Hh Hun Hth]. pose proof (co_works _ _ Hok) as Hw.
      destruct (wk_owned _ Hw r x d Hr Hd) as (y & Hy & _). rewrite (bind_val _ _ _ _ _ (the_death_eq _ _ _ Hy)).
      assert (list_empty (WDeath d) s = Val s true) as Ee by (unfold list_empty; by rewrite Hoff). rewrite (bind_val _ _ _ _ _ Ee).
      rewrite (bind_val (put_death _ _) _ s _ tt eq_refl). rewrite add_tail_eq by done. eexists. split; [done|].
      destruct Hdead as (a & k & Hid).
      split; [|split; [done|split; [done|split; [done|]]]].
      - constructor; try done; [exact (core_notify s V r x d (MkDeath BINDER_WORK_DEAD_BINDER (d_cookie y)) n a k Hok Hr Hrn Hd Hid Hoff eq_refl)|]. intros t w [Hin|Hin]%elem_of_app; [by apply (Hth t w)|]. apply list_elem_of_singleton in Hin. done.
      - intros e (k' & z & Hk & Hz & Hze) He. change (linked (WDeath e) (todo s ++ [(ProcTodo (r_proc x), WDeath d)]) = false).
        rewrite linked_app, He. cbn. rewrite orb_false_r. apply bool_decide_eq_false. intros [= <-].
        apply Hrl. assert (r = k') as ->; [|done]. by eapply (wk_owner _ Hw). }
    rewrite (bind_val _ _ _ _ _ E1). destruct (IH s1 Hdy1) as (s' & E & Hdy' & P2 & R2 & N2); [|done| |].
    + destruct Hdead as (a & k & Hid). exists a, k. unfold node_id in *. by rewrite N1.
    + intros k Hk. destruct (Hl k ltac:(by right)) as (z & Hz & Hzn & Hzo). exists z. split; [by rewrite R1|]. split; [done|]. intros d Hzd. apply L1; [|by apply Hzo].
      exists k, z. done.
    + exists s'. split_and!; [done|done|congruence..].
Qed.

Lemma node_release_ok s V p P n :
  dying_ok s V p → procs s !! p = Some P → n ∈ inorder (p_nodes P) →
  let t := rb_erase n (p_nodes P) in
  ∃ s', (put_proc p (set_p_nodes t P);; binder_node_release n) s = Val s' tt ∧ dying_ok s' V p ∧
    procs s' = <[p := set_p_nodes t P]> (procs s) ∧ refs s' = refs s.
Proof.
  intros Hdy HP Hin t. pose proof Hdy as [Hok Hset Hd Hh Hun Hth]. destruct (tb_nodes _ (co_tables _ _ Hok) p P HP) as [_ Hm].
  apply Hm in Hin as (a & l & Hid). pose proof (Hun _ _ _ Hid) as Hman. apply node_id_inv in Hid as (nd & Hn & Hp & Ha & Hl).
  rewrite (bind_val (put_proc _ _) _ s _ tt eq_refl). unfold binder_node_release. set (s1 := set_procs _ s).
  rewrite (bind_val (list_del_init _) _ s1 _ tt eq_refl). set (s2 := set_todo _ s1).
  rewrite (bind_val _ _ _ _ _ (the_node_eq s2 n nd Hn)). case_bool_decide as Hr.
  - eexists. split; [done|]. set (s' := set_nodes _ s2).
    assert (tables s') as Ht by (by apply (tables_drop_node s s' n nd p P (co_tables _ _ Hok))).
    assert (core_ok s' V) as Hok'.
    { rewrite <- (set_settled V Hset). apply (core_gone s s' V n nd); try done; [| |by apply settled_on].
      - intros q [Q HQ]. cbn. destruct (decide (q = p)) as [->|Hne]; [rewrite lookup_insert_eq|rewrite lookup_insert_ne by done]; eauto.
      - intros h Hin. assert (∀ sg, on n nd sg h = false) as Hon; [|by split]. intros sg. apply not_true_iff_false. intros Ho. specialize (Hh h Hin).
        pose proof (ct_holds _ _ (co_counts _ _ Hok) h Hin) as Hk. destruct h as [q m|q b c]; cbn in *.
        + apply andb_true_iff in Ho as [_ Hmn]. apply Z.eqb_eq in Hmn. subst m. destruct Hk as (a' & l' & E). rewrite (node_id_some _ _ _ Hn) in E. congruence.
        + rewrite !andb_true_iff, bool_decide_eq_true in Ho. destruct Ho as [[_ E] _]. congruence. }
    assert (∀ m i, node_id s' m = Some i → m ≠ n ∧ node_id s m = Some i) as Hback.
    { intros m i. unfold node_id. cbn. destruct (decide (m = n)) as [->|Hne]; [by rewrite lookup_delete_eq|by rewrite lookup_delete_ne]. }
    split; [|done]. constructor; try done.
    + intros m b k [_ E]%Hback. exact (Hun m b k E).
    + intros u w [Hi _]%elem_of_unlink. by apply (Hth u w).
  - assert (refs s2 = refs s) as Er by done. rewrite (bind_val (put_node _ _) _ s2 _ tt eq_refl), (bind_val (modify _) _ (set_nodes _ s2) _ tt eq_refl).
    change (set_dead_nodes _ _) with (orphaned s p P n nd). pose proof (dying_orphan s V p P n nd Hdy HP Hn Hp Hr) as Hdy1.
    destruct (tb_refs _ (co_tables _ _ Hok) _ _ _ _ (node_id_some _ _ _ Hn)) as [Hnd Hrs].
    destruct (notify_all_ok (n_refs nd) (orphaned s p P n nd) V p n Hdy1) as (s' & E & Hdy' & P1 & R1 & N1); [|done| |].
    + eexists _, _. rewrite or_node_id, decide_True by done. done.
    + intros r (q & d & Hrid)%Hrs. apply ref_id_inv in Hrid as (x & Hx & _ & Hxn & _). exists x. split; [done|]. split; [done|]. intros e He.
      apply linked_false. intros u [Hu _]%elem_of_unlink. destruct (wk_owned _ (co_works _ _ Hok) r x e Hx He) as (y & _ & Hq).
      destruct (Hq u Hu) as (_ & _ & b & k & E). rewrite Hxn, (node_id_some _ _ _ Hn) in E. congruence.
    + exists s'. split; [exact E|]. split; [done|]. by rewrite P1, R1.
Qed.

Lemma release_nodes_ok fuel s V p P :
  dying_ok s V p → procs s !! p = Some P → (length (inorder (p_nodes P)) ≤ fuel)%nat →
  ∃ s', release_nodes fuel p s = Val s' tt ∧ dying_ok s' V p ∧ refs s' = refs s ∧ (∀ q, is_Some (procs s !! q) → is_Some (procs s' !! q)) ∧
    ∃ P', procs s' !! p = Some P' ∧ inorder (p_nodes P') = [] ∧ refs_by_desc P' = refs_by_desc P.
Proof.
  revert s P. induction fuel as [|fuel IH]; intros s P Hdy HP Hlen; cbn [release_nodes]; rewrite (bind_val _ _ _ _ _ (the_proc_eq _ _ _ HP)), leftmost_inorder.
  - destruct (inorder (p_nodes P)) as [|n l] eqn:E; [|cbn in Hlen; lia]. exists s. split_and!; try done. by exists P.
  - destruct (inorder (p_nodes P)) as [|n l] eqn:E; [exists s; split_and!; try done; by exists P|]. cbn [head].
    assert (n ∈ inorder (p_nodes P)) as Hin by (rewrite E; by left). destruct (node_release_ok s V p P n Hdy HP Hin) as (s1 & E1 & Hdy1 & P1 & R1).
    set (P' := set_p_nodes (rb_erase n (p_nodes P)) P) in *. assert (procs s1 !! p = Some P') as HP1 by (rewrite P1; by rewrite lookup_insert_eq).
    rewrite (bind_val (put_proc _ _) _ s _ tt eq_refl) in E1. rewrite (bind_val (put_proc _ _) _ s _ tt eq_refl), (bind_val _ _ _ _ _ E1).
    assert (inorder (p_nodes P') = l) as El.
    { cbn. rewrite rb_erase_inorder by done. destruct (tb_nodes _ (co_tables _ _ (dy_core _ _ _ Hdy)) p P HP) as [Hi _]. rewrite E in Hi |- *.
      apply increasing_nodup in Hi. apply list.NoDup_cons in Hi as [Hnl _]. change (without n (n :: l)) with (if negb (n =? n) then n :: without n l else without n l).
      rewrite Z.eqb_refl. cbn. by apply without_none. }
    destruct (IH s1 P' Hdy1 HP1) as (s' & E' & Hdy' & R' & Hq' & P2 & HP2 & E2 & D2); [rewrite El; cbn in Hlen; lia|].
    exists s'. split_and!; [done|done|congruence| |by exists P2]. intros q Hq. apply Hq'. rewrite P1. destruct (decide (q = p)) as [->|Hne]; [rewrite lookup_insert_eq; eauto|by rewrite lookup_insert_ne].
Qed.
End ending.
